(* ===== verification/_CoqProject ===== *)
-Q . S2P
Prelude.v
CLayout.v
VmSock.v
VmInet.v
VmSocket.v
VmTask.v
VmCgroup.v
VmBpf.v
VmNet.v
VmDev.v
Vmlinux.v
KernelMem.v
BpfIface.v
SocketFlow.v
FillEvent.v
FlowSpec.v
FlowDecode.v
FlowTheorems.v
GoBase.v
GoText.v
GoModel.v
InterfaceCounter.v
NetipString.v
Sha256.v
Ownership.v
Tls.v
NameCapture.v
Attribution.v
Alerts.v
Sender.v
Ingest.v
Effects.v
StateFile.v
App.v
AppTheorems.v
Spool.v
SpoolSums.v
SpoolWf.v
SpoolRules.v
SpoolTheorems.v
SpoolQueue.v
GoTime.v
GoPath.v
Regex.v
Npm.v
NpmTail.v
NpmTheorems.v
NpmLines.v
Rollup.v
RollupTheorems.v
Process.v
Docker.v
Sql.v
Scheduler.v
Webhook.v
WebhookTheorems.v
Reconcile.v
ReconcileTheorems.v
Store.v
StoreTheorems.v
StoreOnce.v
StoreAccepts.v
StoreDemo.v
Overview.v
Base64.v
PasswordHash.v
Auth.v
AuthTheorems.v
AuthLogin.v
Enrollment.v
WebhookSettings.v
SettingsTheorems.v
Setup.v
TrafficQuery.v
TrafficTheorems.v
AlertSource.v
TrafficDetail.v
Operations.v
Delivery.v
EndToEnd.v
