(* ===== verification/Prelude.v ===== *)
(** * FlowLens: a verification library

    FlowLens measures the network traffic of a host.  An eBPF program counts the
    bytes of every TCP and UDP call in the kernel; a Go agent decodes its records,
    names and attributes connections, reads interface counters, and delivers batches
    of events to a Go server, which validates, stores and classifies them and raises
    alerts.  This library models the kernel program completely and the agent and
    server components around the path of an event, and proves what makes them
    correct.

    ** How the program is put together

    - [internal/agent/ebpf/socket_flow.bpf.c], compiled against the kernel types of
      [vmlinux.h], runs on entry to and return from [tcp_sendmsg],
      [tcp_cleanup_rbuf], [udp_sendmsg] and [udp_recvmsg].  Entry handlers remember
      the socket of the thread in a map, return handlers add the byte count and
      submit an 80-byte record to a ring buffer.
    - [decodeRecord] (Go) turns a record into an observation; the ownership collector
      attributes it to a container, process or host and adds it up per connection;
      the interface counter collector reports what the kernel counted per interface;
      the name capture processor reads DNS answers and TLS server names off the wire.
    - The events go through [Batch.Validate] into a spool and from there to the
      server with the retrying sender; the server validates again, decides names and
      directions, and evaluates alert rules per window.

    ** Files

    Prelude and C types
    - [Prelude]: results, machine integers, bytes, sums, tactics, the [flow] hints.
    - [CLayout]: C types and their layout for the BPF target, access-path resolution,
      and the theorems that layouts are sound.  [VmSock], [VmInet], [VmSocket],
      [VmTask], [VmCgroup], [VmBpf], [VmNet], [VmDev]: the declarations of
      [vmlinux.h] for the objects the program meets, one definition per declaration;
      [Vmlinux]: the table of them and the place of [struct sock] in the protocol
      control blocks.

    The kernel program
    - [KernelMem]: byte memory, byte order, [bpf_probe_read_kernel], relocation.
    - [BpfIface]: classes for the LRU hash maps and the ring buffer with the laws the
      kernel documents (an update may evict, a reservation may fail), and instances.
    - [SocketFlow]: [socket_flow.bpf.c] function by function over a [bpf_state].
    - [FillEvent]: what [fill_event] reads, for any kernel layout.  [FlowSpec]: the
      specification (events as a function of the history of probe hits) and the
      simulation.  [FlowDecode]: [types.go], [decode_linux.go].  [FlowTheorems]: the
      properties.

    The agent and the server
    - [GoBase], [GoText], [NetipString], [Sha256]: what the Go code uses of the
      standard library: strings, times, float64 (as binary64 values of [SpecFloat]),
      [netip.ParseAddr] and [Addr.String] with their round trip, text scanning,
      number and date formatting, sorting, UTF-8, SHA-256.
    - [GoModel]: [internal/model] (events, batches, [Batch.Validate]).
    - [InterfaceCounter]: [agent/interfacecounter].  [Ownership]: [agent/ownership],
      over the class [ProcessLookup] for the process table; [Process]:
      [agent/process], an instance of it; [Docker]: [agent/docker], the snapshots it
      looks owners up in.  [Tls], [NameCapture]: [agent/namecapture].  [Sender]:
      [agent/sender].
    - [Effects]: programs that call their environment, killed between any two calls,
      and a crash Hoare logic over them; [Effects.Concurrent]: programs that run at the
      same time over one world, and a rule to prove an invariant of them one program at
      a time.  [StateFile]: the counter checkpoint file of
      [agent/interfacecounter/state.go] on a disk that can lose power.  [App]:
      [agent/app], over the classes [Queue], [Deliverer] and [CounterState] for the
      Go interfaces it uses; [AppTheorems] states their laws and proves its
      properties; [StateFile] is an instance of [CounterState] with its laws.
    - [Spool]: [agent/spool], operation by operation over the system calls of one
      directory.  [SpoolSums], [SpoolWf]: what compaction conserves and the relation
      every step of it maintains; [SpoolRules]: rules for its programs;
      [SpoolTheorems]: its properties; [SpoolQueue]: the spool as an instance of
      [Queue] with its laws, and an agent run with spool, checkpoint file and sender.
    - [Regex], [GoTime], [GoPath]: regular expressions matched leftmost-first, with what
      a match means; [time.Parse] of the log's layout; [path/filepath].  [Npm]: the
      access log lines of [agent/npm/parser.go]; [NpmTail]: the tailer over the log
      directory, which other processes change between its calls.  [NpmTheorems],
      [NpmLines]: their properties, runs of the tailer and what failing calls do to
      it.
    - [Attribution]: [server/attribution].  [Alerts]: rule evaluation and the alert
      state machine of [server/alerts].
    - [Sql]: transactions as programs of statements over the state of the database, stopped after any statement, whose
      commit may fail or go unreported, with the rules to reason about them.
    - [Store]: [server/store], every insertion over the tables of the migrations.
      [StoreTheorems] (counters agree with details), [StoreOnce] (each batch counts
      once), [StoreAccepts] (what is stored without fault), [StoreDemo] (examples, also
      of batches the store refuses or counts wrongly).
    - [Rollup]: day rollups and retention; [RollupTheorems].  [Webhook]: the deliveries
      table, its worker and the signature; [WebhookTheorems].  [WebhookSettings]: the
      settings with their handlers, the secret, the endpoint and the dialer;
      [SettingsTheorems].  [Reconcile]: the alerts
      table, the transaction of a rule and a node, the runner; [ReconcileTheorems].
      [Scheduler]: job leases,
      a round of a job, and processes that run, renew and die; its properties.
    - [Overview]: [server/overview] over the tables of [Store], and its properties.
      [TrafficQuery]: [server/trafficquery], the filter, the cursors and the lists of
      connections and domains over the same tables; [TrafficTheorems].  [TrafficDetail]:
      the lists of owners and flows, the details of a domain and an owner, what they are
      in terms of the stored events, and answers of theirs that mislead.
      [AlertSource]: [server/alerts/source.go], what the alert rules observe in these
      tables, and what that is in terms of the stored events.  [Operations]:
      [server/operations] and [server/health], the state of nodes, the alerts with their
      links, the settings, and the connections the list of nodes takes from the pool.
    - [Ingest]: the ingestion endpoint over the classes [Wire] and [BatchStore].
      [Delivery]: sender, network, endpoint and tables as one instance of [Deliverer];
      [EndToEnd]: from counter to table, with a run of the whole path.
    - [Setup]: [agent/config] and [server/config] with [time.ParseDuration];
      [server/partition], the months of the detail tables; [server/geoip]; [migrations].
    - [Base64], [PasswordHash]: the text of password hashes.  [Auth]: [server/auth], handlers as programs over calls;
      [AuthTheorems] (sessions), [AuthLogin] (the limiter).
      [Enrollment]: [server/enrollment].

    ** What is proved

    - The kernel program refines its specification: for any maps and ring that meet
      the kernel's contracts and any interleaving of probe hits, the submitted records
      are in order the events the history prescribes, exactly those when nothing is
      evicted and the ring has room; then a send is observed end to end with the right
      socket and count, and every record decodes, both on a little-endian target; reads
      resolve inside the object in every protocol; capacity and accounting bounds.
    - Validation accepts exactly the declared contract and names the first fault.
    - Every event an agent component produces passes that validation: interface
      deltas, drained connections (from raw ring records on), inventory events.
    - Counting is exact: interface deltas telescope, connections are the saturated
      sums of what was observed, drops are counted.
    - Parsers: [/proc/net/dev] round trip; the TLS parser never reads out of bounds,
      ends, finds the name under any fragmentation and reports only host names; the
      processor joins the TCP segments of a flow that arrive in order and in time, among
      those of other flows, and stays within its memory bound.
    - The agent loses and duplicates nothing: across failures of any call, kills and
      restarts, the batches accepted by the queue account for exactly the advance of
      the interface counters; the checkpoint file is never torn; the queue is
      delivered at least once and in order; recorded events are queued once each.
    - The spool loses and doubles no interface bytes: wherever queueing, compaction
      and eviction are stopped and whichever file operations fail, the bytes of every
      minute are those before, with the new batch once; eviction follows its rule and
      reports what it takes; the spool keeps the contract the loop relies on: a batch
      queued is still there when queueing returns, or was merged, or its eviction is
      reported.
    - The tailer returns every complete log line once and in order, through appends
      between any of its calls, rotations and restarts; a line is read back field by
      field, and exactly which parsed lines give valid events.
    - The sender's retries end in one of four determined ways; names do not depend on
      the unstable sort; an alert is the function of its history its states describe;
      fingerprints cannot collide before hashing.

    - The store counts every accepted batch once, however often it arrives and wherever
      its transaction breaks, when retries are the same batch and events have keys of
      their own; minute counters are the sums of the stored details; valid batches are
      taken when the columns hold their values, their upstreams have no ports and their
      sources are known.
    - While three days of detail are kept, a day that is rolled up lacks only what was
      stored after the last rollup that read it, and every other day lacks nothing.
    - Counted once end to end: through kills, lost requests and answers and broken
      transactions the bytes in the table never exceed what the kernel counters
      advanced, and equal it after a round that goes through.
    - The endpoint stores exactly the authorised, well-formed batches within its limits.
    - One process at a time runs a job while leases are renewed in time; a round leaves
      the row of the job as its outcome demands.
    - Under any interleaving of requests, only live sessions pass the session check; the
      limiter is exact about its history and bounds the wrong guesses between right ones of
      logins that run one after another; password hashes are read back and verify.
    - The alerts table is the function of its history that [Alerts] specifies, through
      transactions that break anywhere and what else the server does to the tables; a
      delivery is queued exactly for an alert that opens or worsens.
    - Process entries read from the cache are the process that has the identifier now;
      the maps of a Docker snapshot hold exactly the containers found running.
    - What the overview shows of a node is what is stored of it, each row in one point, and
      the connections are counted from their details;
      following the cursors of the list of connections shows each match once, and only
      the server's own cursors are accepted; the detail of a domain and the list of owners
      add up to the stored connections and requests.
    - What the rules on traffic see is the sum of the stored events of the minutes of their
      windows; the health report shows each node with what its newest reports say, and the
      worst status; the link of an alert opens the traffic it was raised for.
    - Configured log patterns stay below their roots; the partitions of a table are three
      months one behind the other, from the month of the clock on; the GeoIP files open
      are those in use; the migrations run once each and in order, however starts end.
    - An enrollment ticket gives the agent token to one request, within ten minutes.
    - The webhook settings stored are always usable, and a delivery never connects to an
      address of the private, loopback, link-local, multicast and unspecified blocks,
      whatever the resolver answers when.
    - A webhook delivery is settled for good by a worker that keeps polling while its
      statements go through and the answers can be stored, after at most six failed attempts, and never changes afterwards.

    ** Modelling decisions, bounds and fuel

    Integers are [Z] with the wrap-around of their width written out.  Errors are
    values of [result] or [option]; in [Tls] an access out of range is the error
    [Panic].  Go maps are [gmap]; where iteration order shows, it is an argument.
    Mutexes are not modelled: what runs under one is one step.  Fuel: [Tls.records],
    [extensions] and [server_names] take the length of their input, more than the
    iterations they can make, and [sni_returns] proves it is never used up;
    [App.drain] takes any number, and one more than the queued batches is enough
    ([drain_delivers]); [App.record_parts] takes the number of events, which is always
    enough ([record_queues]);
    [Spool.evict] takes the number of files, and with it ends by its own condition
    ([evict_refines]); [Rollup.deleteBatched] ends when a batch deletes nothing
    ([delete_batched_exact]); a transaction is given the number of statements that
    go through, and three and nine for each event are enough to store a batch
    ([storable_batch_taken]);
    [GoBase.ipv6_loop] takes 8, the number of groups of an address;
    [GoText.format_uint] prints up to 20 digits, enough for 64 bits.  Code outside
    the repository is a parameter: kernel helpers ([BpfIface], [bpf_env]), the DNS
    decoder, Unicode lower-casing outside ASCII, JSON and gzip, Argon2id, AES-GCM, [url.Parse],
    the resolver, the Docker API, collation and [ILIKE], glob patterns, the HTTP server and the clock of the
    sender, the sort behind [sort.Slice].

    ** Not modelled

    - Loading and attaching the program ([tracer_linux.go]), the packet sockets and the
      decoding of frames ([collector_linux.go]): calls of cilium/ebpf and gopacket.
    - The rest of [vmlinux.h]: types that neither the program nor the objects it reads
      name; the header is generated.
    - What GeoIP files hold of an address, and with it the network columns of
      [flow_minute]: parameters.
      What the rules observe is a parameter of the runner of [Reconcile], which
      [AlertSource.Observations] gives.
    - HTTP routing, the wiring of [cmd], JSON, the user interface.  What PostgreSQL makes of
      a migration script is a parameter; the tables of [Store] are those the scripts make.
    - Transactions of the store run one after the other; a statement either takes effect
      or fails.  [Auth], [Enrollment] and [WebhookSettings] interleave whole calls: what
      one call does under its mutex or in its statement is one step at one reading of
      the clock, which does not go back. *)

From stdpp Require Import base list strings numbers gmap.
From Stdlib Require Import ZArith Lia.

Declare Scope flow_scope.
Delimit Scope flow_scope with flow.

Open Scope Z_scope.

(** ** Fallible code

    Go functions returning [(T, error)] and C helpers returning a status are
    modelled as values of [result]; [Err] carries what the code reports. *)

Inductive result (E A : Type) : Type :=
| Ok (a : A)
| Err (e : E).
Arguments Ok {E A} a.
Arguments Err {E A} e.

Definition result_bind {E A B} (r : result E A) (f : A -> result E B) : result E B :=
  match r with
  | Ok a => f a
  | Err e => Err e
  end.

Notation "'let*' x ':=' c 'in' k" := (result_bind c (fun x => k))
  (at level 10, x pattern, c at level 200, k at level 200) : flow_scope.

Definition is_ok {E A} (r : result E A) : bool :=
  match r with Ok _ => true | Err _ => false end.

(** [if err := check; err != nil { return err }]: a guard that fails with [e]. *)
Definition guard_err {E} (ok : bool) (e : E) : result E unit :=
  if ok then Ok tt else Err e.

Lemma result_bind_ok {E A B} (r : result E A) (f : A -> result E B) b :
  result_bind r f = Ok b <-> exists a, r = Ok a /\ f a = Ok b.
Proof. destruct r; simpl; split; intros; [eauto | | done | ]; by destruct_and?; naive_solver. Qed.

Lemma guard_err_ok {E} ok (e : E) u : guard_err ok e = Ok u <-> ok = true.
Proof. destruct ok, u; simpl; naive_solver. Qed.

Lemma is_ok_spec {E A} (r : result E A) : is_ok r = true <-> exists a, r = Ok a.
Proof. destruct r; simpl; naive_solver. Qed.

(** ** Machine integers

    A [w]-bit integer is a [Z]; conversions write the wrap-around out. *)

Definition wrap_u (w z : Z) : Z := z mod 2 ^ w.
Definition wrap_s (w z : Z) : Z := (z + 2 ^ (w - 1)) mod 2 ^ w - 2 ^ (w - 1).

Definition max_i64 : Z := 2 ^ 63 - 1.
Definition min_i64 : Z := - 2 ^ 63.
Definition max_u64 : Z := 2 ^ 64 - 1.

Definition in_u (w z : Z) : Prop := 0 <= z < 2 ^ w.
Definition in_s (w z : Z) : Prop := - 2 ^ (w - 1) <= z < 2 ^ (w - 1).

Lemma wrap_u_range w z : 0 <= w -> in_u w (wrap_u w z).
Proof. intros. apply Z.mod_pos_bound. apply Z.pow_pos_nonneg; lia. Qed.

Lemma wrap_u_id w z : in_u w z -> wrap_u w z = z.
Proof. apply Z.mod_small. Qed.

Lemma wrap_s_range w z : 0 < w -> in_s w (wrap_s w z).
Proof.
  intros Hw. unfold wrap_s, in_s.
  assert (2 ^ w = 2 * 2 ^ (w - 1)) as E
    by (rewrite <- Z.pow_succ_r by lia; f_equal; lia).
  pose proof (Z.mod_pos_bound (z + 2 ^ (w - 1)) (2 ^ w)
                ltac:(apply Z.pow_pos_nonneg; lia)). lia.
Qed.

Lemma wrap_s_id w z : 0 < w -> in_s w z -> wrap_s w z = z.
Proof.
  intros Hw Hz. unfold wrap_s, in_s in *.
  assert (2 ^ w = 2 * 2 ^ (w - 1)) as E
    by (rewrite <- Z.pow_succ_r by lia; f_equal; lia).
  rewrite Z.mod_small; lia.
Qed.

(** Joining bit fields. *)
Lemma lor_shiftl_add a b k :
  0 <= k -> 0 <= b < 2 ^ k -> Z.lor (Z.shiftl a k) b = a * 2 ^ k + b.
Proof.
  intros Hk Hb. rewrite <- Z.shiftl_mul_pow2 by done.
  assert (Z.land (Z.shiftl a k) b = 0) as H0.
  { apply Z.bits_inj'. intros n Hn. rewrite Z.land_spec, Z.bits_0.
    destruct (Z_lt_dec n k); [by rewrite Z.shiftl_spec_low|].
    pose proof (Z.pow_le_mono_r 2 k n ltac:(lia) ltac:(lia)).
    rewrite (Z.testbit_eqb b), (Z.div_small b) by lia. apply andb_false_r. }
  pose proof (Z.add_lor_land (Z.shiftl a k) b). lia.
Qed.

(** ** Alignment *)

(** [align_up x a]: the least multiple of [a] not below [x]. *)
Definition align_up (x a : Z) : Z := (x + a - 1) / a * a.

Lemma align_up_ge x a : 0 < a -> x <= align_up x a.
Proof.
  intros Ha. unfold align_up.
  pose proof (Z.div_mod (x + a - 1) a ltac:(lia)).
  pose proof (Z.mod_pos_bound (x + a - 1) a Ha). lia.
Qed.

Lemma align_up_lt x a : 0 < a -> align_up x a < x + a.
Proof.
  intros Ha. unfold align_up.
  pose proof (Z.div_mod (x + a - 1) a ltac:(lia)).
  pose proof (Z.mod_pos_bound (x + a - 1) a Ha). lia.
Qed.

Lemma align_up_divide x a : (a | align_up x a).
Proof. unfold align_up. apply Z.divide_factor_r. Qed.

Lemma align_up_id x a : 0 < a -> (a | x) -> align_up x a = x.
Proof.
  intros Ha [k ->]. unfold align_up.
  replace (k * a + a - 1) with (a - 1 + k * a) by lia.
  rewrite Z.div_add by lia. rewrite Z.div_small by lia. lia.
Qed.

(** ** Byte sequences

    A byte is a [Z] in [0, 256). *)

Definition is_byte (b : Z) : Prop := 0 <= b < 256.

Fixpoint le_bytes (n : nat) (z : Z) : list Z :=
  match n with
  | O => []
  | S n' => z mod 256 :: le_bytes n' (z / 256)
  end.

Fixpoint le_val (bs : list Z) : Z :=
  match bs with
  | [] => 0
  | b :: bs' => b + 256 * le_val bs'
  end.

Definition be_bytes (n : nat) (z : Z) : list Z := reverse (le_bytes n z).
Definition be_val (bs : list Z) : Z := le_val (reverse bs).

Lemma length_le_bytes n z : length (le_bytes n z) = n.
Proof. revert z; induction n; intros; simpl; auto. Qed.

Lemma length_be_bytes n z : length (be_bytes n z) = n.
Proof. unfold be_bytes. by rewrite length_reverse, length_le_bytes. Qed.

Lemma le_bytes_bytes n z : Forall is_byte (le_bytes n z).
Proof.
  revert z; induction n; intros; simpl; constructor; auto.
  apply Z.mod_pos_bound. lia.
Qed.

Lemma be_bytes_bytes n z : Forall is_byte (be_bytes n z).
Proof. apply Forall_reverse, le_bytes_bytes. Qed.

Lemma pow256_S (n : nat) : 256 ^ Z.of_nat (S n) = 256 * 256 ^ Z.of_nat n.
Proof. rewrite Nat2Z.inj_succ, Z.pow_succ_r; lia. Qed.

Lemma le_val_le_bytes n z : le_val (le_bytes n z) = z mod 256 ^ Z.of_nat n.
Proof.
  revert z; induction n as [|n IH]; intros z; [by rewrite Z.mod_1_r|].
  rewrite pow256_S. simpl. rewrite IH.
  rewrite Z.rem_mul_r by (try apply Z.pow_nonzero; lia). lia.
Qed.

Lemma le_bytes_le_val n z :
  0 <= z < 256 ^ Z.of_nat n -> le_val (le_bytes n z) = z.
Proof. intros. by rewrite le_val_le_bytes, Z.mod_small. Qed.

Lemma be_bytes_be_val n z :
  0 <= z < 256 ^ Z.of_nat n -> be_val (be_bytes n z) = z.
Proof. intros. unfold be_val, be_bytes. rewrite reverse_involutive. by apply le_bytes_le_val. Qed.

Lemma le_val_bound bs :
  Forall is_byte bs -> 0 <= le_val bs < 256 ^ Z.of_nat (length bs).
Proof.
  induction 1 as [|b bs Hb _ IH]; simpl length; [simpl; lia|].
  rewrite pow256_S. simpl. unfold is_byte in Hb. lia.
Qed.

Lemma le_bytes_of_val bs :
  Forall is_byte bs -> le_bytes (length bs) (le_val bs) = bs.
Proof.
  induction 1 as [|b bs Hb _ IH]; [done|]. simpl. unfold is_byte in Hb.
  replace ((b + 256 * le_val bs) mod 256) with b.
  2: { rewrite Z.mul_comm, Z.mod_add, Z.mod_small; lia. }
  replace ((b + 256 * le_val bs) / 256) with (le_val bs).
  2: { rewrite Z.mul_comm, Z.div_add, Z.div_small; lia. }
  by rewrite IH.
Qed.

(** ** Slices

    [slice l a b] is Go's [l[a:b]] on an in-range pair of indices. *)
Definition slice {A} (a b : nat) (l : list A) : list A := take (b - a) (drop a l).

Lemma length_slice {A} a b (l : list A) :
  (b <= length l)%nat -> length (slice a b l) = (b - a)%nat.
Proof. intros. unfold slice. rewrite length_take, length_drop. lia. Qed.

Lemma slice_app_mid {A} (l1 l2 l3 : list A) a b :
  length l1 = a -> (a + length l2)%nat = b -> slice a b (l1 ++ l2 ++ l3) = l2.
Proof.
  intros <- <-. unfold slice. rewrite drop_app_length.
  replace (length l1 + length l2 - length l1)%nat with (length l2) by lia.
  apply take_app_length.
Qed.

(** ** Lists *)

Lemma forallb_Forall_iff {A} (f : A -> bool) (P : A -> Prop) l :
  (forall x, f x = true <-> P x) -> forallb f l = true <-> Forall P l.
Proof.
  intros HP. induction l as [|x l IH]; simpl; [split; [constructor|done]|].
  by rewrite andb_true_iff, Forall_cons_iff, IH, HP.
Qed.

(** ** Sums over lists *)

Definition sumZ {A} (f : A -> Z) (l : list A) : Z := foldr (fun x acc => f x + acc) 0 l.

Lemma sumZ_app {A} (f : A -> Z) l1 l2 : sumZ f (l1 ++ l2) = sumZ f l1 + sumZ f l2.
Proof. induction l1; simpl; lia. Qed.

Lemma sumZ_sublist {A} (f : A -> Z) l1 l2 :
  (forall x, x ∈ l2 -> 0 <= f x) -> l1 `sublist_of` l2 -> sumZ f l1 <= sumZ f l2.
Proof.
  intros Hf Hs. revert Hf. induction Hs as [|x l1 l2 Hs IH|x l1 l2 Hs IH]; intros Hf; simpl; [lia| |].
  - specialize (IH (fun y Hy => Hf y (list_elem_of_further _ _ _ Hy))). lia.
  - specialize (IH (fun y Hy => Hf y (list_elem_of_further _ _ _ Hy))).
    specialize (Hf x (list_elem_of_here _ _)). lia.
Qed.

Lemma sumZ_ext {A} (f g : A -> Z) l : (forall x, x ∈ l -> f x = g x) -> sumZ f l = sumZ g l.
Proof.
  induction l as [|x l IH]; intros H; simpl; [done|].
  rewrite (H x), IH; [done| |by constructor]. intros. apply H. by constructor.
Qed.

Lemma sumZ_zero {A} (f : A -> Z) l : (forall x, x ∈ l -> f x = 0) -> sumZ f l = 0.
Proof. intros H. rewrite (sumZ_ext _ (fun _ => 0)) by done. clear H. induction l; simpl; lia. Qed.

Lemma sumZ_bind {A B} (f : B -> Z) (g : A -> list B) l :
  sumZ f (l ≫= g) = sumZ (fun x => sumZ f (g x)) l.
Proof. induction l as [|x l IH]; [done|]. rewrite bind_cons, sumZ_app, IH. done. Qed.

Lemma sumZ_fmap {A B} (f : B -> Z) (g : A -> B) l : sumZ f (g <$> l) = sumZ (fun x => f (g x)) l.
Proof. induction l as [|x l IH]; [done|]. rewrite fmap_cons. simpl. by rewrite IH. Qed.

Lemma sumZ_single {A} (f : A -> Z) l x :
  NoDup l -> x ∈ l -> (forall y, y ∈ l -> y <> x -> f y = 0) -> sumZ f l = f x.
Proof.
  intros Hl Hx Hf. induction Hl as [|y l Hy Hl IH]; [by apply elem_of_nil in Hx|]. simpl.
  apply elem_of_cons in Hx as [->|Hx].
  - rewrite sumZ_zero; [lia|]. intros z Hz. apply Hf; [by constructor|]. by intros ->.
  - rewrite IH, (Hf y); [lia|by constructor|by intros ->|done|].
    intros z Hz. apply Hf. by constructor.
Qed.

Lemma sumZ_perm {A} (f : A -> Z) l1 l2 : l1 ≡ₚ l2 -> sumZ f l1 = sumZ f l2.
Proof. induction 1; simpl; lia. Qed.

Lemma sumZ_nonneg {A} (f : A -> Z) l : (forall x, x ∈ l -> 0 <= f x) -> 0 <= sumZ f l.
Proof.
  induction l as [|x l IH]; intros H; simpl; [lia|].
  pose proof (H x (list_elem_of_here _ _)). specialize (IH (fun y Hy => H y (list_elem_of_further _ _ _ Hy))). lia.
Qed.

Lemma sumZ_filter_split {A} (f : A -> Z) (P : A -> Prop) `{!forall x, Decision (P x)} l :
  sumZ f l = sumZ f (filter P l) + sumZ f (filter (fun x => ~ P x) l).
Proof.
  induction l as [|x l IH]; [done|]. rewrite !filter_cons. simpl. rewrite IH.
  repeat case_decide; simpl; try lia; contradiction.
Qed.

Lemma filter_all {A} (P : A -> Prop) `{!forall x, base.Decision (P x)} (l : list A) : (forall x, x ∈ l -> P x) -> filter P l = l.
Proof.
  induction l as [|x l IH]; intros Hl; [done|]. rewrite filter_cons_True, IH; [done| |apply Hl; by constructor].
  intros y Hy. apply Hl. by constructor.
Qed.

Lemma filter_none {A} (P : A -> Prop) `{!forall x, base.Decision (P x)} (l : list A) : (forall x, x ∈ l -> ~ P x) -> filter P l = [].
Proof.
  induction l as [|x l IH]; intros Hl; [done|]. rewrite filter_cons_False, IH; [done| |apply Hl; by constructor].
  intros y Hy. apply Hl. by constructor.
Qed.

(** Elements with different keys. *)
Lemma NoDup_key_inj {A B} (f : A -> B) l x y : NoDup (f <$> l) -> x ∈ l -> y ∈ l -> f x = f y -> x = y.
Proof.
  induction l as [|z l IH]; [by intros _ ?%elem_of_nil|]. rewrite fmap_cons, NoDup_cons, !elem_of_cons. intros [Hz Hn] [-> |Hx] [-> |Hy] E; auto.
  - exfalso. apply Hz. rewrite E. by apply list_elem_of_fmap_2.
  - exfalso. apply Hz. rewrite <- E. by apply list_elem_of_fmap_2.
Qed.

Lemma sublist_filter_mono {A} (P : A -> Prop) `{!forall x, base.Decision (P x)} (l1 l2 : list A) : sublist l1 l2 -> sublist (filter P l1) (filter P l2).
Proof.
  induction 1 as [|x l1 l2 _ IH|x l1 l2 _ IH]; [done|..]; rewrite !filter_cons.
  - destruct (decide (P x)); [by apply sublist_skip|done].
  - destruct (decide (P x)); [by apply sublist_cons|done].
Qed.

(** A sum does not see elements that contribute nothing. *)
Lemma sumZ_subset `{EqDecision A} (f : A -> Z) l1 l2 : NoDup l1 -> NoDup l2 -> (forall x, x ∈ l1 -> x ∈ l2) ->
  (forall x, x ∈ l2 -> (x ∉ l1) -> f x = 0) -> sumZ f l1 = sumZ f l2.
Proof.
  intros H1 H2 Hsub Hz. rewrite (sumZ_filter_split f (fun x => x ∈ l1) l2).
  rewrite (sumZ_zero f (filter (fun x => ~ x ∈ l1) l2)).
  - rewrite (sumZ_perm f l1 (filter (fun x => x ∈ l1) l2)); [lia|].
    apply NoDup_Permutation; [done|by apply NoDup_filter|]. intros x. rewrite list_elem_of_filter. naive_solver.
  - intros x [Hx Hin]%list_elem_of_filter. by apply Hz.
Qed.

Lemma sumZ_subset_le `{EqDecision A} (f : A -> Z) l1 l2 : NoDup l1 -> NoDup l2 -> (forall x, x ∈ l1 -> x ∈ l2) ->
  (forall x, x ∈ l2 -> 0 <= f x) -> sumZ f l1 <= sumZ f l2.
Proof.
  intros H1 H2 Hsub Hf. rewrite (sumZ_filter_split f (fun x => x ∈ l1) l2).
  rewrite (sumZ_perm f l1 (filter (fun x => x ∈ l1) l2)).
  - pose proof (sumZ_nonneg f (filter (fun x => ~ x ∈ l1) l2)) as Hn.
    assert (0 <= sumZ f (filter (fun x => ~ x ∈ l1) l2)); [|lia]. apply Hn. intros x [_ Hx]%list_elem_of_filter. by apply Hf.
  - apply NoDup_Permutation; [done|by apply NoDup_filter|]. intros x. rewrite list_elem_of_filter. naive_solver.
Qed.

(** Two functions that differ at one element. *)
Lemma sumZ_change {A} (f g : A -> Z) l x : NoDup l -> x ∈ l -> (forall y, y ∈ l -> y <> x -> f y = g y) ->
  sumZ f l - sumZ g l = f x - g x.
Proof.
  intros Hl Hx Hfg. enough (sumZ (fun y => f y - g y) l = f x - g x) as H.
  { rewrite <- H. clear. induction l; simpl; lia. }
  apply (sumZ_single (fun y => f y - g y)); [done|done|]. intros y Hy Hne. rewrite (Hfg y) by done. lia.
Qed.

(** ** Automation *)

Create HintDb flow discriminated.
Create Rewrite HintDb flow_len.

#[export] Hint Resolve align_up_ge align_up_divide wrap_u_range wrap_s_range
  le_bytes_bytes be_bytes_bytes : flow.

#[export] Hint Rewrite @length_le_bytes @length_be_bytes @length_app @length_take
  @length_drop @length_cons @length_replicate : flow_len.

(** Normalise list lengths, then arithmetic. *)
Ltac len := autorewrite with flow_len in *; simpl length in *; lia.

(** Case analysis on the boolean tests of the code, reflected to propositions. *)
Ltac bool_cases :=
  repeat match goal with
  | |- context [if ?b then _ else _] =>
      lazymatch b with
      | context [if _ then _ else _] => fail
      | _ => let E := fresh "E" in destruct b eqn:E
      end
  | H : context [if ?b then _ else _] |- _ =>
      lazymatch b with
      | context [if _ then _ else _] => fail
      | _ => let E := fresh "E" in destruct b eqn:E
      end
  end.

(** Turn boolean hypotheses over [Z], [bool] and strings into propositions. *)
Ltac reflect_bools :=
  repeat match goal with
  | H : (_ && _)%bool = true |- _ => apply andb_true_iff in H; destruct H
  | H : (_ || _)%bool = false |- _ => apply orb_false_iff in H; destruct H
  | H : negb _ = true |- _ => apply negb_true_iff in H
  | H : negb _ = false |- _ => apply negb_false_iff in H
  | H : (_ =? _)%Z = true |- _ => apply Z.eqb_eq in H
  | H : (_ =? _)%Z = false |- _ => apply Z.eqb_neq in H
  | H : (_ <? _)%Z = true |- _ => apply Z.ltb_lt in H
  | H : (_ <? _)%Z = false |- _ => apply Z.ltb_ge in H
  | H : (_ <=? _)%Z = true |- _ => apply Z.leb_le in H
  | H : (_ <=? _)%Z = false |- _ => apply Z.leb_gt in H
  | H : String.eqb _ _ = true |- _ => apply String.eqb_eq in H
  | H : String.eqb _ _ = false |- _ => apply String.eqb_neq in H
  end.

(** Side conditions: hypotheses, linear arithmetic or the [flow] hints. *)
Ltac triv := first [done | lia | auto with flow].
