(* ===== verification/CLayout.v ===== *)
(** * C object layout

    Types of the C sources (the BPF program and the kernel header it is
    compiled against) and the layout clang gives them for the BPF target:
    natural alignment, 8-byte pointers and longs, bit-fields packed into
    storage units of their declared type, [__attribute__((packed))].

    Offsets and sizes are in bits, so that bit-fields need no special case.
    The file gives the layout function, the member look-up the CO-RE
    relocations perform (through anonymous members), and the theorems that the
    layout is sound: members of a struct are disjoint, in order, aligned and
    inside the object, and a resolved access path stays inside it. *)

From stdpp Require Import base list strings numbers.
From S2P Require Import Prelude.

(** ** Types *)

Inductive ctype : Type :=
| TInt (signed : bool) (bytes : Z)
| TPtr (pointee : string)
| TEnum (tag : string) (constants : list (string * Z))
| TArray (elt : ctype) (n : Z)
| TStruct (tag : string) (packed : bool) (ms : members)
| TUnion (tag : string) (packed : bool) (ms : members)
with members : Type :=
| MNil
| MCons (name : option string) (t : ctype) (bits : option Z) (rest : members).

Scheme ctype_mind := Induction for ctype Sort Prop
  with members_mind := Induction for members Sort Prop.
Combined Scheme ctype_members_ind from ctype_mind, members_mind.

(** ** Surface syntax for declarations *)

Definition decl : Type := option string * ctype * option Z.

Definition fld (name : string) (t : ctype) : decl := (Some name, t, None).
Definition bit (name : string) (t : ctype) (w : Z) : decl := (Some name, t, Some w).
Definition anon (t : ctype) : decl := (None, t, None).
Definition pad (t : ctype) (w : Z) : decl := (None, t, Some w).

Fixpoint members_of (ds : list decl) : members :=
  match ds with
  | [] => MNil
  | (name, t, bits) :: ds' => MCons name t bits (members_of ds')
  end.

Definition cstruct (tag : string) (ds : list decl) : ctype := TStruct tag false (members_of ds).
Definition cunion (tag : string) (ds : list decl) : ctype := TUnion tag false (members_of ds).
Definition packed_struct (tag : string) (ds : list decl) : ctype := TStruct tag true (members_of ds).
Definition packed_union (tag : string) (ds : list decl) : ctype := TUnion tag true (members_of ds).
Definition cenum (tag : string) (cs : list (string * Z)) : ctype := TEnum tag cs.
Definition array (t : ctype) (n : Z) : ctype := TArray t n.
Definition ptr (pointee : string) : ctype := TPtr pointee.

(** The basic types of the BPF target (LP64). *)
Definition c_char : ctype := TInt true 1.
Definition c_schar : ctype := TInt true 1.
Definition c_uchar : ctype := TInt false 1.
Definition c_short : ctype := TInt true 2.
Definition c_ushort : ctype := TInt false 2.
Definition c_int : ctype := TInt true 4.
Definition c_uint : ctype := TInt false 4.
Definition c_long : ctype := TInt true 8.
Definition c_ulong : ctype := TInt false 8.
Definition c_bool : ctype := TInt false 1.
Definition c_int128 : ctype := TInt true 16.
Definition c_uint128 : ctype := TInt false 16.

(** ** Layout *)

(** Enumerations are [int]-sized unless a constant needs 64 bits. *)
Definition enum_bits (cs : list (string * Z)) : Z :=
  if forallb (fun c => (- 2 ^ 31 <=? snd c) && (snd c <? 2 ^ 32))%Z%bool cs then 32 else 64.

(** Where a member whose type has layout [sa = (size, align)] goes when the
    next free bit is [cur]: its offset and its width. *)
Definition place (packed : bool) (cur : Z) (sa : Z * Z) (bits : option Z) : Z * Z :=
  match bits with
  | None => (align_up cur (if packed then 8 else sa.2), sa.1)
  | Some w =>
      if w =? 0 then (align_up cur sa.2, 0)
      else if packed then (cur, w)
      else if sa.1 <? cur mod sa.1 + w then (align_up cur sa.1, w)
      else (cur, w)
  end.

(** What a member contributes to the alignment of its aggregate: an unnamed
    bit-field contributes nothing. *)
Definition member_align (packed : bool) (named : bool) (sa : Z * Z) (bits : option Z) : Z :=
  if packed then 8
  else match bits with
       | None => sa.2
       | Some _ => if named then sa.2 else 8
       end.

Definition is_named (name : option string) : bool :=
  match name with Some _ => true | None => false end.

Fixpoint layout_of (t : ctype) : Z * Z :=
  match t with
  | TInt _ b => (8 * b, 8 * b)
  | TPtr _ => (64, 64)
  | TEnum _ cs => (enum_bits cs, enum_bits cs)
  | TArray elt n => (n * (layout_of elt).1, (layout_of elt).2)
  | TStruct _ packed ms =>
      let '(cur, al) := struct_extent packed 0 8 ms in (align_up cur al, al)
  | TUnion _ packed ms =>
      let '(sz, al) := union_extent packed 0 8 ms in (align_up sz al, al)
  end
with struct_extent (packed : bool) (cur al : Z) (ms : members) : Z * Z :=
  match ms with
  | MNil => (cur, al)
  | MCons name t bits rest =>
      let sa := layout_of t in
      let '(off, w) := place packed cur sa bits in
      struct_extent packed (off + w)
        (Z.max al (member_align packed (is_named name) sa bits)) rest
  end
with union_extent (packed : bool) (sz al : Z) (ms : members) : Z * Z :=
  match ms with
  | MNil => (sz, al)
  | MCons name t bits rest =>
      let sa := layout_of t in
      let '(_, w) := place packed 0 sa bits in
      union_extent packed (Z.max sz w)
        (Z.max al (member_align packed (is_named name) sa bits)) rest
  end.

Definition size_bits (t : ctype) : Z := (layout_of t).1.
Definition align_bits (t : ctype) : Z := (layout_of t).2.
Definition sizeof (t : ctype) : Z := size_bits t / 8.
Definition alignof (t : ctype) : Z := align_bits t / 8.

(** ** Members with their places *)

Record slot : Type := Slot {
  slot_name : option string;
  slot_type : ctype;
  slot_bits : option Z;
  slot_off : Z;
  slot_width : Z;
}.

Fixpoint struct_slots (packed : bool) (cur : Z) (ms : members) : list slot :=
  match ms with
  | MNil => []
  | MCons name t bits rest =>
      let '(off, w) := place packed cur (layout_of t) bits in
      Slot name t bits off w :: struct_slots packed (off + w) rest
  end.

Fixpoint union_slots (packed : bool) (ms : members) : list slot :=
  match ms with
  | MNil => []
  | MCons name t bits rest =>
      let '(off, w) := place packed 0 (layout_of t) bits in
      Slot name t bits off w :: union_slots packed rest
  end.

Definition slots (t : ctype) : list slot :=
  match t with
  | TStruct _ packed ms => struct_slots packed 0 ms
  | TUnion _ packed ms => union_slots packed ms
  | _ => []
  end.

(** Member look-up by name, descending into anonymous aggregates: the offset in
    bits, the type and the bit-field width of the member found. *)
Fixpoint find_field (t : ctype) (f : string) : option (Z * ctype * option Z) :=
  match t with
  | TStruct _ packed ms => find_in packed true 0 ms f
  | TUnion _ packed ms => find_in packed false 0 ms f
  | _ => None
  end
with find_in (packed advance : bool) (cur : Z) (ms : members) (f : string)
  : option (Z * ctype * option Z) :=
  match ms with
  | MNil => None
  | MCons name t bits rest =>
      let '(off, w) := place packed cur (layout_of t) bits in
      let next := if advance then off + w else cur in
      match name with
      | Some n => if String.eqb n f then Some (off, t, bits)
                  else find_in packed advance next rest f
      | None =>
          match bits with
          | Some _ => find_in packed advance next rest f
          | None =>
              match find_field t f with
              | Some (o, t', b) => Some (off + o, t', b)
              | None => find_in packed advance next rest f
              end
          end
      end
  end.

(** An access path [a.b.c]; every step but the last must be a plain member. *)
Fixpoint resolve (t : ctype) (path : list string) : option (Z * ctype) :=
  match path with
  | [] => Some (0, t)
  | f :: path' =>
      match find_field t f with
      | Some (o, t', None) =>
          match resolve t' path' with
          | Some (o', t'') => Some (o + o', t'')
          | None => None
          end
      | _ => None
      end
  end.

(** [offsetof(t, path)] in bytes. *)
Definition offsetof (t : ctype) (path : list string) : option Z :=
  match resolve t path with
  | Some (o, _) => Some (o / 8)
  | None => None
  end.

(** ** Well-formed types *)

Definition bits_ok (t : ctype) (bits : option Z) : bool :=
  match bits with
  | None => true
  | Some w =>
      match t with
      | TInt _ _ | TEnum _ _ => (0 <=? w) && (w <=? size_bits t)
      | _ => false
      end
  end.

Fixpoint wf (t : ctype) : bool :=
  match t with
  | TInt _ b => (b =? 1) || (b =? 2) || (b =? 4) || (b =? 8) || (b =? 16)
  | TPtr _ => true
  | TEnum _ _ => true
  | TArray elt n => (0 <=? n) && wf elt
  | TStruct _ _ ms => wf_members ms
  | TUnion _ _ ms => wf_members ms
  end
with wf_members (ms : members) : bool :=
  match ms with
  | MNil => true
  | MCons _ t bits rest => wf t && bits_ok t bits && wf_members rest
  end.

(** ** Layout soundness *)

(** Alignments are powers of two, at least a byte. *)
Definition pow2 (a : Z) : Prop := exists k, 3 <= k /\ a = 2 ^ k.

Definition good (sa : Z * Z) : Prop := pow2 sa.2 /\ 0 <= sa.1 /\ (sa.2 | sa.1).

(** A bit-field's declared type has a positive size that bounds its width. *)
Definition bits_good (sa : Z * Z) (bits : option Z) : Prop :=
  forall w, bits = Some w -> 0 < sa.1 /\ 0 <= w <= sa.1.

Lemma pow2_pos a : pow2 a -> 8 <= a.
Proof.
  intros (k & Hk & ->). change 8 with (2 ^ 3). apply Z.pow_le_mono_r; lia.
Qed.

Lemma pow2_8 : pow2 8.
Proof. by exists 3. Qed.

Lemma pow2_max a b : pow2 a -> pow2 b -> pow2 (Z.max a b).
Proof. intros. destruct (Z.max_spec a b) as [[_ ->]|[_ ->]]; done. Qed.

Lemma pow2_divide a b : pow2 a -> pow2 b -> a <= b -> (a | b).
Proof.
  intros (j & Hj & ->) (k & Hk & ->) Hle.
  apply Z.pow_le_mono_r_iff in Hle; [|lia|lia].
  exists (2 ^ (k - j)). rewrite <- Z.pow_add_r by lia. f_equal; lia.
Qed.

#[export] Hint Resolve pow2_8 pow2_max : flow.

Lemma place_spec packed cur sa bits off w :
  good sa -> bits_good sa bits -> 0 <= cur ->
  place packed cur sa bits = (off, w) -> cur <= off /\ 0 <= w <= Z.max 0 sa.1.
Proof.
  intros (Hp & Hs & _) Hb Hcur. unfold place.
  pose proof (pow2_pos _ Hp).
  destruct bits as [b|].
  - destruct (Hb b eq_refl). bool_cases; intros [= <- <-]; split; try lia;
      apply align_up_ge; lia.
  - intros [= <- <-]. split; [apply align_up_ge; destruct packed; lia | lia].
Qed.

(** A member placed at the start of an aggregate stays there. *)
Lemma place_zero packed sa bits :
  good sa -> bits_good sa bits -> (place packed 0 sa bits).1 = 0.
Proof.
  intros (Hp & _ & _) Hb. pose proof (pow2_pos _ Hp).
  assert (forall a, 0 < a -> align_up 0 a = 0) as H0.
  { intros. apply align_up_id; [done|apply Z.divide_0_r]. }
  unfold place. destruct bits as [b|].
  - destruct (Hb b eq_refl). bool_cases; simpl; auto; apply H0; lia.
  - simpl. apply H0. destruct packed; lia.
Qed.

Lemma place_width packed cur sa bits :
  (place packed cur sa bits).2 = match bits with None => sa.1 | Some w => w end.
Proof. unfold place. destruct bits; bool_cases; reflect_bools; subst; done. Qed.

Lemma member_align_pow2 packed named sa bits :
  good sa -> pow2 (member_align packed named sa bits).
Proof.
  intros (Hp & _). unfold member_align.
  destruct packed, bits, named; auto with flow.
Qed.

Lemma struct_extent_cons packed cur al name t bits rest :
  struct_extent packed cur al (MCons name t bits rest) =
  struct_extent packed ((place packed cur (layout_of t) bits).1 + (place packed cur (layout_of t) bits).2)
    (Z.max al (member_align packed (is_named name) (layout_of t) bits)) rest.
Proof. simpl. by destruct (place _ _ _ _). Qed.

Lemma union_extent_cons packed sz al name t bits rest :
  union_extent packed sz al (MCons name t bits rest) =
  union_extent packed (Z.max sz (place packed 0 (layout_of t) bits).2)
    (Z.max al (member_align packed (is_named name) (layout_of t) bits)) rest.
Proof. simpl. by destruct (place _ _ _ _). Qed.

Lemma layout_struct tag packed ms :
  layout_of (TStruct tag packed ms) =
  (align_up (struct_extent packed 0 8 ms).1 (struct_extent packed 0 8 ms).2,
   (struct_extent packed 0 8 ms).2).
Proof. simpl. by destruct (struct_extent _ _ _ _). Qed.

Lemma layout_union tag packed ms :
  layout_of (TUnion tag packed ms) =
  (align_up (union_extent packed 0 8 ms).1 (union_extent packed 0 8 ms).2,
   (union_extent packed 0 8 ms).2).
Proof. simpl. by destruct (union_extent _ _ _ _). Qed.

Lemma int_good b : b = 1 \/ b = 2 \/ b = 4 \/ b = 8 \/ b = 16 -> good (8 * b, 8 * b).
Proof.
  intros Hb. split; [|simpl; split; [lia|apply Z.divide_refl]].
  destruct Hb as [-> | [-> | [-> | [-> | ->]]]];
    [by exists 3 | by exists 4 | by exists 5 | by exists 6 | by exists 7].
Qed.

Lemma enum_good cs : good (enum_bits cs, enum_bits cs) /\ 0 < enum_bits cs.
Proof.
  unfold enum_bits, good. bool_cases; simpl; split; try lia;
    (split; [|split; [lia|apply Z.divide_refl]]); [by exists 5 | by exists 6].
Qed.

Lemma align_up_good x a : 0 <= x -> pow2 a -> good (align_up x a, a).
Proof.
  intros Hx Ha. pose proof (pow2_pos _ Ha). split; [done|]. simpl. split.
  - transitivity x; [done|apply align_up_ge; lia].
  - apply align_up_divide.
Qed.

Lemma bits_ok_good t bits :
  wf t = true -> good (layout_of t) -> bits_ok t bits = true -> bits_good (layout_of t) bits.
Proof.
  intros Hwf (_ & Hs & _) Hok w ->. unfold bits_ok, size_bits in Hok.
  destruct t; try discriminate; apply andb_true_iff in Hok as [H1 H2];
    apply Z.leb_le in H1, H2; split; try lia.
  - simpl in Hwf |- *. repeat (apply orb_true_iff in Hwf as [Hwf|Hwf]); apply Z.eqb_eq in Hwf; lia.
  - simpl. apply enum_good.
Qed.

Definition members_good (ms : members) : Prop :=
  forall packed cur al, 0 <= cur -> pow2 al ->
    (cur <= (struct_extent packed cur al ms).1 /\ pow2 (struct_extent packed cur al ms).2 /\
     al <= (struct_extent packed cur al ms).2) /\
    (cur <= (union_extent packed cur al ms).1 /\ pow2 (union_extent packed cur al ms).2 /\
     al <= (union_extent packed cur al ms).2).

Lemma members_good_cons name t bits rest :
  good (layout_of t) -> bits_good (layout_of t) bits -> members_good rest ->
  members_good (MCons name t bits rest).
Proof.
  intros Ht Hb Hrest packed cur al Hcur Hal.
  rewrite struct_extent_cons, union_extent_cons.
  destruct (place packed cur (layout_of t) bits) as [off w] eqn:Ep.
  destruct (place packed 0 (layout_of t) bits) as [off' w'] eqn:Ep'. simpl.
  apply place_spec in Ep as [? ?]; [|done..].
  apply place_spec in Ep' as [? ?]; [|done..|lia].
  pose proof (member_align_pow2 packed (is_named name) _ bits Ht) as Hm.
  destruct (Hrest packed (off + w) (Z.max al (member_align packed (is_named name) (layout_of t) bits)))
    as [(? & ? & ?) _]; [lia|auto with flow|].
  destruct (Hrest packed (Z.max cur w') (Z.max al (member_align packed (is_named name) (layout_of t) bits)))
    as [_ (? & ? & ?)]; [lia|auto with flow|].
  split; (split; [lia|split; [done|lia]]).
Qed.

(** Every well-formed type has a layout: a power-of-two alignment and a
    non-negative size that is a multiple of it. *)
Lemma layout_good :
  (forall t, wf t = true -> good (layout_of t)) /\
  (forall ms, wf_members ms = true -> members_good ms).
Proof.
  apply ctype_members_ind.
  - intros sg b H. simpl in *. apply int_good.
    repeat (apply orb_true_iff in H as [H|H]); apply Z.eqb_eq in H; auto 6.
  - intros p _. apply (int_good 8). auto 6.
  - intros tag cs _. apply enum_good.
  - intros t IH n H. simpl in H. apply andb_true_iff in H as [Hn Hw]. apply Z.leb_le in Hn.
    destruct (IH Hw) as (Hp & Hs & Hd). split; simpl; [done|]. split; [nia|].
    by apply Z.divide_mul_r.
  - intros tag packed ms IH H. rewrite layout_struct.
    destruct (IH H packed 0 8) as [(? & ? & _) _]; [lia|auto with flow|]. by apply align_up_good.
  - intros tag packed ms IH H. rewrite layout_union.
    destruct (IH H packed 0 8) as [_ (? & ? & _)]; [lia|auto with flow|]. by apply align_up_good.
  - intros _ packed cur al ? ?. simpl. split; split; (lia || done || split; (done || lia)).
  - intros name t IHt bits rest IHr H. simpl in H.
    apply andb_true_iff in H as [H Hr]. apply andb_true_iff in H as [Hw Hb].
    apply members_good_cons; [auto|by apply bits_ok_good; auto|auto].
Qed.

Lemma wf_good t : wf t = true -> good (layout_of t).
Proof. apply layout_good. Qed.

Lemma wf_members_good ms : wf_members ms = true -> members_good ms.
Proof. apply layout_good. Qed.

Lemma wf_members_cons name t bits rest :
  wf_members (MCons name t bits rest) = true ->
  wf t = true /\ good (layout_of t) /\ bits_good (layout_of t) bits /\ wf_members rest = true.
Proof.
  simpl. intros H. apply andb_true_iff in H as [H Hr]. apply andb_true_iff in H as [Hw Hb].
  pose proof (wf_good t Hw). auto using bits_ok_good.
Qed.

(** Slots of a struct lie between the cursor and the final extent, in order. *)
Lemma struct_slots_range packed ms cur al s :
  wf_members ms = true -> 0 <= cur -> pow2 al -> s ∈ struct_slots packed cur ms ->
  cur <= slot_off s /\ 0 <= slot_width s /\
  slot_off s + slot_width s <= (struct_extent packed cur al ms).1.
Proof.
  revert cur al. induction ms as [|name t bits rest IH]; intros cur al Hwf Hcur Hal Hin;
    [by apply not_elem_of_nil in Hin|].
  apply wf_members_cons in Hwf as (Hw & Hg & Hb & Hr).
  rewrite struct_extent_cons. simpl in Hin.
  destruct (place packed cur (layout_of t) bits) as [off w] eqn:Ep. simpl.
  apply place_spec in Ep as [? ?]; [|done..].
  pose proof (member_align_pow2 packed (is_named name) _ bits Hg).
  apply elem_of_cons in Hin as [-> | Hin].
  - simpl. destruct (wf_members_good rest Hr packed (off + w)
      (Z.max al (member_align packed (is_named name) (layout_of t) bits))) as [(? & _) _];
      [lia|auto with flow|lia].
  - destruct (IH (off + w) (Z.max al (member_align packed (is_named name) (layout_of t) bits)))
      as (? & ? & ?); auto with flow; lia.
Qed.

Lemma union_slots_range packed ms sz al s :
  wf_members ms = true -> 0 <= sz -> pow2 al -> s ∈ union_slots packed ms ->
  slot_off s = 0 /\ 0 <= slot_width s <= (union_extent packed sz al ms).1.
Proof.
  revert sz al. induction ms as [|name t bits rest IH]; intros sz al Hwf Hsz Hal Hin;
    [by apply not_elem_of_nil in Hin|].
  apply wf_members_cons in Hwf as (Hw & Hg & Hb & Hr).
  rewrite union_extent_cons. simpl in Hin.
  destruct (place packed 0 (layout_of t) bits) as [off w] eqn:Ep. simpl.
  pose proof (place_zero packed _ bits Hg Hb) as Hz. rewrite Ep in Hz. simpl in Hz. subst off.
  apply place_spec in Ep as [_ ?]; [|done..|lia].
  pose proof (member_align_pow2 packed (is_named name) _ bits Hg).
  destruct (wf_members_good rest Hr packed (Z.max sz w)
      (Z.max al (member_align packed (is_named name) (layout_of t) bits))) as [_ (? & _)];
    [lia|auto with flow|].
  apply elem_of_cons in Hin as [-> | Hin]; [simpl; lia|].
  apply IH; auto with flow; lia.
Qed.

Lemma struct_slots_ordered packed cur ms i j si sj :
  wf_members ms = true -> 0 <= cur -> (i < j)%nat ->
  struct_slots packed cur ms !! i = Some si -> struct_slots packed cur ms !! j = Some sj ->
  slot_off si + slot_width si <= slot_off sj.
Proof.
  revert cur i j. induction ms as [|name t bits rest IH]; intros cur i j Hwf Hcur Hij Hi Hj;
    [done|].
  apply wf_members_cons in Hwf as (Hw & Hg & Hb & Hr). simpl in Hi, Hj.
  destruct (place packed cur (layout_of t) bits) as [off w] eqn:Ep.
  apply place_spec in Ep as [? ?]; [|done..].
  destruct j as [|j]; [lia|]. destruct i as [|i]; simpl in Hi, Hj.
  - injection Hi as <-. simpl. apply list_elem_of_lookup_2 in Hj.
    apply (struct_slots_range packed rest (off + w) 8) in Hj; auto with flow; lia.
  - apply (IH (off + w) i j); auto; lia.
Qed.

Lemma slots_aligned packed (advance : bool) cur ms s :
  packed = false -> slot_bits s = None ->
  s ∈ (if advance then struct_slots packed cur ms else union_slots packed ms) ->
  (align_bits (slot_type s) | slot_off s).
Proof.
  intros -> Hb. revert cur. induction ms as [|name t bits rest IH]; intros cur Hin;
    [destruct advance; by apply not_elem_of_nil in Hin|].
  destruct advance; simpl in Hin;
    destruct (place false _ (layout_of t) bits) as [off w] eqn:Ep;
    (apply elem_of_cons in Hin as [-> | Hin]; [|by eapply IH]);
    simpl in *; subst bits; injection Ep as <- <-; apply align_up_divide.
Qed.

(** ** Access paths *)

(** The width in bits of a member of type [t] declared with [bits]. *)
Definition field_width (t : ctype) (bits : option Z) : Z :=
  match bits with None => size_bits t | Some w => w end.

Definition find_in_bounded (ms : members) : Prop :=
  forall packed advance cur f o t b,
    0 <= cur -> (advance = false -> cur = 0) ->
    find_in packed advance cur ms f = Some (o, t, b) ->
    wf t = true /\ 0 <= o /\ 0 <= field_width t b /\
    forall sz al, 0 <= sz -> pow2 al ->
      o + field_width t b <=
        (if advance then struct_extent packed cur al ms else union_extent packed sz al ms).1.

(** The extent of the members after the first covers the first. *)
Lemma extent_covers packed (advance : bool) cur sz al name t bits rest :
  good (layout_of t) -> bits_good (layout_of t) bits -> wf_members rest = true ->
  0 <= cur -> (advance = false -> cur = 0) -> 0 <= sz -> pow2 al ->
  let '(off, w) := place packed cur (layout_of t) bits in
  0 <= off /\ 0 <= w /\
  off + w <= (if advance then struct_extent packed cur al (MCons name t bits rest)
              else union_extent packed sz al (MCons name t bits rest)).1.
Proof.
  intros Hg Hb Hr Hcur Hadv Hsz Hal.
  destruct (place packed cur (layout_of t) bits) as [off w] eqn:Ep.
  pose proof (member_align_pow2 packed (is_named name) _ bits Hg).
  pose proof Ep as Ep'. apply place_spec in Ep' as [? ?]; [|done..].
  split; [lia|]. split; [lia|].
  destruct advance.
  - rewrite struct_extent_cons, Ep. simpl.
    destruct (wf_members_good rest Hr packed (off + w)
      (Z.max al (member_align packed (is_named name) (layout_of t) bits))) as [(? & _) _];
      [lia|auto with flow|done].
  - rewrite (Hadv eq_refl) in Ep. pose proof (place_zero packed _ bits Hg Hb) as Hz.
    rewrite union_extent_cons, Ep. rewrite Ep in Hz. simpl in *.
    destruct (wf_members_good rest Hr packed (Z.max sz w)
      (Z.max al (member_align packed (is_named name) (layout_of t) bits))) as [_ (? & _)];
      [lia|auto with flow|lia].
Qed.

Lemma find_in_bounded_cons name t bits rest :
  wf t = true -> good (layout_of t) -> bits_good (layout_of t) bits -> wf_members rest = true ->
  (forall f o t' b, find_field t f = Some (o, t', b) ->
     wf t' = true /\ 0 <= o /\ 0 <= field_width t' b /\ o + field_width t' b <= size_bits t) ->
  find_in_bounded rest -> find_in_bounded (MCons name t bits rest).
Proof.
  intros Hw Hg Hb Hr IHt IHr packed advance cur f o t' b Hcur Hadv Hf. simpl in Hf.
  pose proof (extent_covers packed advance cur 0 8 name t bits rest Hg Hb Hr Hcur Hadv) as Hc0.
  pose proof (fun sz al Hs Ha =>
    extent_covers packed advance cur sz al name t bits rest Hg Hb Hr Hcur Hadv Hs Ha) as Hcov.
  pose proof (place_width packed cur (layout_of t) bits) as Hpw.
  pose proof (member_align_pow2 packed (is_named name) _ bits Hg) as Hma.
  destruct (place packed cur (layout_of t) bits) as [off w] eqn:Ep. simpl in Hpw.
  specialize (Hc0 ltac:(lia) pow2_8). simpl in Hc0.
  assert (find_in packed advance (if advance then off + w else cur) rest f = Some (o, t', b) ->
    wf t' = true /\ 0 <= o /\ 0 <= field_width t' b /\
    forall sz al, 0 <= sz -> pow2 al -> o + field_width t' b <=
      (if advance then struct_extent packed cur al (MCons name t bits rest)
       else union_extent packed sz al (MCons name t bits rest)).1) as Hrest.
  { intros Hf'. apply IHr in Hf' as (? & ? & ? & Hx);
      [|destruct advance; lia|destruct advance; [done|auto]].
    do 3 (split; [done|]). intros sz al Hs Ha. destruct advance.
    - rewrite struct_extent_cons, Ep. simpl. apply (Hx sz); [done|auto with flow].
    - rewrite (Hadv eq_refl) in Ep. rewrite union_extent_cons, Ep. simpl.
      apply (Hx (Z.max sz w)); [lia|auto with flow]. }
  destruct name as [n|]; [destruct (String.eqb n f) eqn:En|].
  - injection Hf as -> -> ->. unfold field_width, size_bits. rewrite <- Hpw.
    do 3 (split; [tauto|]). intros sz al Hs Ha. apply (Hcov sz al Hs Ha).
  - by apply Hrest.
  - destruct bits as [bw|]; [by apply Hrest|].
    destruct (find_field t f) as [[[o1 t1] b1]|] eqn:Ef; [|by apply Hrest].
    injection Hf as <- -> ->. apply IHt in Ef as (? & ? & ? & ?).
    do 2 (split; [done || lia|]). split; [done|].
    intros sz al Hs Ha. specialize (Hcov sz al Hs Ha). unfold size_bits in *. lia.
Qed.

Lemma align_up_pow2_ge x a : pow2 a -> x <= align_up x a.
Proof. intros Hp. pose proof (pow2_pos _ Hp). apply align_up_ge. lia. Qed.

Lemma struct_extent_le_size tag packed ms :
  wf_members ms = true -> (struct_extent packed 0 8 ms).1 <= size_bits (TStruct tag packed ms).
Proof.
  intros Hwf. unfold size_bits. rewrite layout_struct. apply align_up_pow2_ge.
  destruct (wf_members_good ms Hwf packed 0 8) as [(_ & ? & _) _]; [lia|auto with flow|done].
Qed.

Lemma union_extent_le_size tag packed ms :
  wf_members ms = true -> (union_extent packed 0 8 ms).1 <= size_bits (TUnion tag packed ms).
Proof.
  intros Hwf. unfold size_bits. rewrite layout_union. apply align_up_pow2_ge.
  destruct (wf_members_good ms Hwf packed 0 8) as [_ (_ & ? & _)]; [lia|auto with flow|done].
Qed.

Lemma find_field_bounds :
  (forall t, wf t = true -> forall f o t' b, find_field t f = Some (o, t', b) ->
     wf t' = true /\ 0 <= o /\ 0 <= field_width t' b /\ o + field_width t' b <= size_bits t) /\
  (forall ms, wf_members ms = true -> find_in_bounded ms).
Proof.
  apply ctype_members_ind; try (intros; hnf; intros; simplify_eq/=; done).
  - intros tag packed ms IH Hwf f o t' b Hf. simpl in Hf.
    destruct (IH Hwf packed true 0 f o t' b) as (? & ? & ? & Hx); [lia|done|done|].
    do 3 (split; [done|]). specialize (Hx 0 8 ltac:(lia) pow2_8). simpl in Hx.
    pose proof (struct_extent_le_size tag packed ms Hwf). lia.
  - intros tag packed ms IH Hwf f o t' b Hf. simpl in Hf.
    destruct (IH Hwf packed false 0 f o t' b) as (? & ? & ? & Hx); [lia|done|done|].
    do 3 (split; [done|]). specialize (Hx 0 8 ltac:(lia) pow2_8). simpl in Hx.
    pose proof (union_extent_le_size tag packed ms Hwf). lia.
  - intros name t IHt bits rest IHr Hwf.
    apply wf_members_cons in Hwf as (Hw & Hg & Hb & Hr).
    apply find_in_bounded_cons; [done|done|done|done|exact (IHt Hw)|exact (IHr Hr)].
Qed.

Lemma resolve_bounds t path o t' :
  wf t = true -> resolve t path = Some (o, t') ->
  wf t' = true /\ 0 <= o /\ o + size_bits t' <= size_bits t.
Proof.
  revert t o. induction path as [|f path IH]; intros t o Hwf Hr; simpl in Hr.
  - injection Hr as <- <-. split; [done|]. lia.
  - destruct (find_field t f) as [[[o1 t1] [w|]]|] eqn:Ef; try done.
    destruct (resolve t1 path) as [[o2 t2]|] eqn:Er; [|done]. injection Hr as <- <-.
    apply find_field_bounds in Ef as (Hw1 & ? & ? & Hle); [|done]. simpl in *.
    apply IH in Er as (? & ? & ?); [|done]. split; [done|]. lia.
Qed.

(** ** Alignment of access paths

    A type is natural when no aggregate inside it is packed. *)
Fixpoint natural (t : ctype) : bool :=
  match t with
  | TInt _ _ | TPtr _ | TEnum _ _ => true
  | TArray elt _ => natural elt
  | TStruct _ packed ms | TUnion _ packed ms => negb packed && natural_members ms
  end
with natural_members (ms : members) : bool :=
  match ms with
  | MNil => true
  | MCons _ t _ rest => natural t && natural_members rest
  end.

Definition find_in_aligned (ms : members) : Prop :=
  forall advance cur f o t,
    find_in false advance cur ms f = Some (o, t, None) ->
    (align_bits t | o) /\
    forall sz al, pow2 al ->
      (align_bits t | (if advance then struct_extent false cur al ms
                       else union_extent false sz al ms).2).

Lemma extent_align_mono packed ms cur al :
  wf_members ms = true -> pow2 al ->
  (al | (struct_extent packed cur al ms).2) /\ (al | (union_extent packed cur al ms).2).
Proof.
  revert cur al. induction ms as [|name t bits rest IH]; intros cur al Hwf Hal;
    [split; apply Z.divide_refl|].
  apply wf_members_cons in Hwf as (Hw & Hg & Hb & Hr).
  pose proof (member_align_pow2 packed (is_named name) _ bits Hg) as Hm.
  assert (al | Z.max al (member_align packed (is_named name) (layout_of t) bits)) as Hd
    by (apply pow2_divide; auto with flow; lia).
  rewrite struct_extent_cons, union_extent_cons.
  split; (etransitivity; [exact Hd|]); apply IH; auto with flow.
Qed.

Lemma member_divides_extent (advance : bool) cur sz al name t rest :
  wf_members (MCons name t None rest) = true -> pow2 al ->
  (align_bits t | (if advance then struct_extent false cur al (MCons name t None rest)
                   else union_extent false sz al (MCons name t None rest)).2).
Proof.
  intros Hwf Hal. apply wf_members_cons in Hwf as (Hw & Hg & Hb & Hr).
  assert (align_bits t | Z.max al (align_bits t)) as Hd
    by (destruct Hg as (Hp & _); apply pow2_divide; auto with flow; lia).
  etransitivity; [exact Hd|]. destruct advance.
  - rewrite struct_extent_cons. apply extent_align_mono; [done|].
    destruct Hg as (Hp & _). apply pow2_max; done.
  - rewrite union_extent_cons. apply extent_align_mono; [done|].
    destruct Hg as (Hp & _). apply pow2_max; done.
Qed.

Lemma find_in_aligned_cons name t bits rest :
  wf_members (MCons name t bits rest) = true ->
  (forall f o t', find_field t f = Some (o, t', None) ->
     (align_bits t' | o) /\ (align_bits t' | align_bits t)) ->
  find_in_aligned rest -> find_in_aligned (MCons name t bits rest).
Proof.
  intros Hwf IHt IHr advance cur f o t' Hf.
  pose proof (wf_members_cons _ _ _ _ Hwf) as (Hw & Hg & Hb & Hr). simpl in Hf.
  pose proof (member_align_pow2 false (is_named name) _ bits Hg) as Hma.
  destruct (place false cur (layout_of t) bits) as [off w] eqn:Ep.
  assert (bits = None -> (align_bits t | off)) as Hoff.
  { intros ->. injection Ep as <- <-. apply align_up_divide. }
  assert (find_in false advance (if advance then off + w else cur) rest f = Some (o, t', None) ->
    (align_bits t' | o) /\ forall sz al, pow2 al ->
      (align_bits t' | (if advance then struct_extent false cur al (MCons name t bits rest)
                        else union_extent false sz al (MCons name t bits rest)).2)) as Hrest.
  { intros Hf'. apply IHr in Hf' as [Ho Hx]. split; [done|]. intros sz al Hal.
    destruct advance.
    - rewrite struct_extent_cons, Ep. apply (Hx sz). auto with flow.
    - rewrite union_extent_cons. apply Hx. auto with flow. }
  destruct name as [n|]; [destruct (String.eqb n f)|].
  - injection Hf as <- -> ->. split; [by apply Hoff|].
    intros. by apply member_divides_extent.
  - by apply Hrest.
  - destruct bits as [bw|]; [by apply Hrest|].
    destruct (find_field t f) as [[[o1 t1] b1]|] eqn:Ef; [|by apply Hrest].
    injection Hf as <- -> ->. apply IHt in Ef as [? ?]. split.
    + apply Z.divide_add_r; [|done]. etransitivity; [done|by apply Hoff].
    + intros. etransitivity; [done|by apply member_divides_extent].
Qed.

Lemma find_field_aligned :
  (forall t, wf t = true -> natural t = true -> forall f o t', find_field t f = Some (o, t', None) ->
     (align_bits t' | o) /\ (align_bits t' | align_bits t)) /\
  (forall ms, wf_members ms = true -> natural_members ms = true -> find_in_aligned ms).
Proof.
  apply ctype_members_ind; try (intros; hnf; intros; simplify_eq/=; done).
  - intros tag packed ms IH Hwf Hn f o t' Hf. simpl in Hn, Hf.
    apply andb_true_iff in Hn as [Hp Hn]. apply negb_true_iff in Hp as ->.
    destruct (IH Hwf Hn true 0 f o t' Hf) as [? Hx]. split; [done|].
    unfold align_bits at 2. rewrite layout_struct. by apply (Hx 0 8 pow2_8).
  - intros tag packed ms IH Hwf Hn f o t' Hf. simpl in Hn, Hf.
    apply andb_true_iff in Hn as [Hp Hn]. apply negb_true_iff in Hp as ->.
    destruct (IH Hwf Hn false 0 f o t' Hf) as [? Hx]. split; [done|].
    unfold align_bits at 2. rewrite layout_union. by apply (Hx 0 8 pow2_8).
  - intros name t IHt bits rest IHr Hwf Hn. simpl in Hn. apply andb_true_iff in Hn as [Hn Hnr].
    pose proof (wf_members_cons _ _ _ _ Hwf) as (Hw & _ & _ & Hr).
    apply find_in_aligned_cons; [done|exact (IHt Hw Hn)|exact (IHr Hr Hnr)].
Qed.

Lemma find_field_natural :
  (forall t, natural t = true -> forall f o t' b, find_field t f = Some (o, t', b) ->
     natural t' = true) /\
  (forall ms, natural_members ms = true -> forall packed advance cur f o t' b,
     find_in packed advance cur ms f = Some (o, t', b) -> natural t' = true).
Proof.
  apply ctype_members_ind; try (intros; simplify_eq/=; done).
  - intros tag packed ms IH Hn f o t' b. simpl in *. apply andb_true_iff in Hn as [_ Hn]. by apply IH.
  - intros tag packed ms IH Hn f o t' b. simpl in *. apply andb_true_iff in Hn as [_ Hn]. by apply IH.
  - intros name t IHt bits rest IHr Hn packed advance cur f o t' b Hf. simpl in *.
    apply andb_true_iff in Hn as [Hn Hr].
    destruct (place packed cur (layout_of t) bits) as [off w].
    repeat case_match; simplify_eq; eauto.
Qed.

(** Properties of resolved paths used by the readers of kernel objects. *)
Lemma resolve_aligned_divides t path o t' :
  wf t = true -> natural t = true -> resolve t path = Some (o, t') ->
  (align_bits t' | o) /\ (align_bits t' | align_bits t).
Proof.
  revert t o. induction path as [|f path IH]; intros t o Hwf Hn Hr; simpl in Hr.
  - injection Hr as <- <-. split; [apply Z.divide_0_r|apply Z.divide_refl].
  - destruct (find_field t f) as [[[o1 t1] [w|]]|] eqn:Ef; try done.
    destruct (resolve t1 path) as [[o2 t2]|] eqn:Er; [|done]. injection Hr as <- <-.
    pose proof (proj1 find_field_natural t Hn _ _ _ _ Ef) as Hn1.
    pose proof (proj1 find_field_bounds t Hwf _ _ _ _ Ef) as (Hw1 & _).
    apply find_field_aligned in Ef as [Ha Hb]; [|done..].
    apply IH in Er as [? ?]; [|done..].
    split; [|by etransitivity]. apply Z.divide_add_r; [|done]. by etransitivity.
Qed.
