(* ===== verification/VmSock.v ===== *)
(** * Kernel types: VmSock

    Sockets: [struct sock], the object every probe of the BPF program reads, and the types it embeds.

    Each definition translates one declaration of
    [internal/agent/ebpf/vmlinux.h], in the order of the header; pointers keep
    the pointee as written, since a layout does not depend on it. *)

From stdpp Require Import base list strings.
From S2P Require Import Prelude CLayout.

Definition __u8 : ctype := c_uchar.

Definition __s32 : ctype := c_int.

Definition __u32 : ctype := c_uint.

Definition __u64 : ctype := c_ulong.

Definition u8 : ctype := __u8.

Definition u32 : ctype := __u32.

Definition u64 : ctype := __u64.

Definition gfp_t : ctype := c_uint.

Definition atomic_t : ctype :=
  cstruct "" [
    fld "counter" c_int].

Definition __u16 : ctype := c_ushort.

Definition __s64 : ctype := c_long.

Definition u16 : ctype := __u16.

Definition s64 : ctype := __s64.

Definition __kernel_uid32_t : ctype := c_uint.

Definition uid_t : ctype := __kernel_uid32_t.

Definition atomic64_t : ctype :=
  cstruct "" [
    fld "counter" s64].

Definition struct_list_head : ctype :=
  cstruct "list_head" [
    fld "next" (ptr "struct list_head");
    fld "prev" (ptr "struct list_head")].

Definition struct_hlist_node : ctype :=
  cstruct "hlist_node" [
    fld "next" (ptr "struct hlist_node");
    fld "pprev" (ptr "struct hlist_node *")].

Definition struct_callback_head : ctype :=
  cstruct "callback_head" [
    fld "next" (ptr "struct callback_head");
    fld "func" (ptr "void (struct callback_head *)")].

Definition struct_qspinlock : ctype :=
  cstruct "qspinlock" [
    anon (cunion "" [
      fld "val" atomic_t;
      anon (cstruct "" [
        fld "locked" u8;
        fld "pending" u8]);
      anon (cstruct "" [
        fld "locked_pending" u16;
        fld "tail" u16])])].

Definition arch_spinlock_t : ctype := struct_qspinlock.

Definition struct_qrwlock : ctype :=
  cstruct "qrwlock" [
    anon (cunion "" [
      fld "cnts" atomic_t;
      anon (cstruct "" [
        fld "wlocked" u8;
        fld "__lstate" (array u8 3)])]);
    fld "wait_lock" arch_spinlock_t].

Definition arch_rwlock_t : ctype := struct_qrwlock.

Definition struct_raw_spinlock : ctype :=
  cstruct "raw_spinlock" [
    fld "raw_lock" arch_spinlock_t].

Definition struct_refcount_struct : ctype :=
  cstruct "refcount_struct" [
    fld "refs" atomic_t].

Definition refcount_t : ctype := struct_refcount_struct.

Definition ktime_t : ctype := s64.

Definition struct_rb_root : ctype :=
  cstruct "rb_root" [
    fld "rb_node" (ptr "struct rb_node")].

Definition kuid_t : ctype :=
  cstruct "" [
    fld "val" uid_t].

Definition struct_spinlock : ctype :=
  cstruct "spinlock" [
    anon (cunion "" [
      fld "rlock" struct_raw_spinlock])].

Definition spinlock_t : ctype := struct_spinlock.

Definition struct_page_frag : ctype :=
  cstruct "page_frag" [
    fld "page" (ptr "struct page");
    fld "offset" __u32;
    fld "size" __u32].

Definition struct_timer_list : ctype :=
  cstruct "timer_list" [
    fld "entry" struct_hlist_node;
    fld "expires" c_ulong;
    fld "function" (ptr "void (struct timer_list *)");
    fld "flags" u32].

Definition rwlock_t : ctype :=
  cstruct "" [
    fld "raw_lock" arch_rwlock_t].

Definition struct_wait_queue_head : ctype :=
  cstruct "wait_queue_head" [
    fld "lock" spinlock_t;
    fld "head" struct_list_head].

Definition wait_queue_head_t : ctype := struct_wait_queue_head.

Definition __be32 : ctype := __u32.

Definition __be16 : ctype := __u16.

Definition netdev_features_t : ctype := u64.

Definition possible_net_t : ctype :=
  cstruct "" [
    fld "net" (ptr "struct net")].

Definition struct_sk_buff_list : ctype :=
  cstruct "sk_buff_list" [
    fld "next" (ptr "struct sk_buff");
    fld "prev" (ptr "struct sk_buff")].

Definition struct_sk_buff_head : ctype :=
  cstruct "sk_buff_head" [
    anon (cunion "" [
      anon (cstruct "" [
        fld "next" (ptr "struct sk_buff");
        fld "prev" (ptr "struct sk_buff")]);
      fld "list" struct_sk_buff_list]);
    fld "qlen" __u32;
    fld "lock" spinlock_t].

Definition struct_in6_addr : ctype :=
  cstruct "in6_addr" [
    fld "in6_u" (cunion "" [
      fld "u6_addr8" (array __u8 16);
      fld "u6_addr16" (array __be16 8);
      fld "u6_addr32" (array __be32 4)])].

Definition __addrpair : ctype := __u64.

Definition __portpair : ctype := __u32.

Definition struct_hlist_nulls_node : ctype :=
  cstruct "hlist_nulls_node" [
    fld "next" (ptr "struct hlist_nulls_node");
    fld "pprev" (ptr "struct hlist_nulls_node *")].

Definition struct_sock_common : ctype :=
  cstruct "sock_common" [
    anon (cunion "" [
      fld "skc_addrpair" __addrpair;
      anon (cstruct "" [
        fld "skc_daddr" __be32;
        fld "skc_rcv_saddr" __be32])]);
    anon (cunion "" [
      fld "skc_hash" c_uint;
      fld "skc_u16hashes" (array __u16 2)]);
    anon (cunion "" [
      fld "skc_portpair" __portpair;
      anon (cstruct "" [
        fld "skc_dport" __be16;
        fld "skc_num" __u16])]);
    fld "skc_family" c_ushort;
    fld "skc_state" c_uchar;
    bit "skc_reuse" c_uchar 4;
    bit "skc_reuseport" c_uchar 1;
    bit "skc_ipv6only" c_uchar 1;
    bit "skc_net_refcnt" c_uchar 1;
    fld "skc_bound_dev_if" c_int;
    anon (cunion "" [
      fld "skc_bind_node" struct_hlist_node;
      fld "skc_portaddr_node" struct_hlist_node]);
    fld "skc_prot" (ptr "struct proto");
    fld "skc_net" possible_net_t;
    fld "skc_v6_daddr" struct_in6_addr;
    fld "skc_v6_rcv_saddr" struct_in6_addr;
    fld "skc_cookie" atomic64_t;
    anon (cunion "" [
      fld "skc_flags" c_ulong;
      fld "skc_listener" (ptr "struct sock");
      fld "skc_tw_dr" (ptr "struct inet_timewait_death_row")]);
    fld "skc_dontcopy_begin" (array c_int 0);
    anon (cunion "" [
      fld "skc_node" struct_hlist_node;
      fld "skc_nulls_node" struct_hlist_nulls_node]);
    fld "skc_tx_queue_mapping" c_ushort;
    fld "skc_rx_queue_mapping" c_ushort;
    anon (cunion "" [
      fld "skc_incoming_cpu" c_int;
      fld "skc_rcv_wnd" u32;
      fld "skc_tw_rcv_nxt" u32]);
    fld "skc_refcnt" refcount_t;
    fld "skc_dontcopy_end" (array c_int 0);
    anon (cunion "" [
      fld "skc_rxhash" u32;
      fld "skc_window_clamp" u32;
      fld "skc_tw_snd_nxt" u32])].

Definition socket_lock_t : ctype :=
  cstruct "" [
    fld "slock" spinlock_t;
    fld "owned" c_int;
    fld "wq" wait_queue_head_t].

Definition struct_sock_cgroup_data : ctype :=
  cstruct "sock_cgroup_data" [
    fld "cgroup" (ptr "struct cgroup");
    fld "classid" u32;
    fld "prioidx" u16].

Definition netns_tracker : ctype :=
  cstruct "" [].

Definition struct_sock : ctype :=
  cstruct "sock" [
    fld "__sk_common" struct_sock_common;
    fld "sk_rx_dst" (ptr "struct dst_entry");
    fld "sk_rx_dst_ifindex" c_int;
    fld "sk_rx_dst_cookie" u32;
    fld "sk_lock" socket_lock_t;
    fld "sk_drops" atomic_t;
    fld "sk_rcvlowat" c_int;
    fld "sk_error_queue" struct_sk_buff_head;
    fld "sk_receive_queue" struct_sk_buff_head;
    fld "sk_backlog" (cstruct "" [
      fld "rmem_alloc" atomic_t;
      fld "len" c_int;
      fld "head" (ptr "struct sk_buff");
      fld "tail" (ptr "struct sk_buff")]);
    fld "sk_forward_alloc" c_int;
    fld "sk_reserved_mem" u32;
    fld "sk_ll_usec" c_uint;
    fld "sk_napi_id" c_uint;
    fld "sk_rcvbuf" c_int;
    fld "sk_disconnects" c_int;
    fld "sk_filter" (ptr "struct sk_filter");
    anon (cunion "" [
      fld "sk_wq" (ptr "struct socket_wq");
      fld "sk_wq_raw" (ptr "struct socket_wq")]);
    fld "sk_policy" (array (ptr "struct xfrm_policy") 2);
    fld "sk_dst_cache" (ptr "struct dst_entry");
    fld "sk_omem_alloc" atomic_t;
    fld "sk_sndbuf" c_int;
    fld "sk_wmem_queued" c_int;
    fld "sk_wmem_alloc" refcount_t;
    fld "sk_tsq_flags" c_ulong;
    anon (cunion "" [
      fld "sk_send_head" (ptr "struct sk_buff");
      fld "tcp_rtx_queue" struct_rb_root]);
    fld "sk_write_queue" struct_sk_buff_head;
    fld "sk_peek_off" __s32;
    fld "sk_write_pending" c_int;
    fld "sk_dst_pending_confirm" __u32;
    fld "sk_pacing_status" u32;
    fld "sk_sndtimeo" c_long;
    fld "sk_timer" struct_timer_list;
    fld "sk_priority" __u32;
    fld "sk_mark" __u32;
    fld "sk_pacing_rate" c_ulong;
    fld "sk_max_pacing_rate" c_ulong;
    fld "sk_frag" struct_page_frag;
    fld "sk_route_caps" netdev_features_t;
    fld "sk_gso_type" c_int;
    fld "sk_gso_max_size" c_uint;
    fld "sk_allocation" gfp_t;
    fld "sk_txhash" __u32;
    bit "sk_gso_disabled" u8 1;
    bit "sk_kern_sock" u8 1;
    bit "sk_no_check_tx" u8 1;
    bit "sk_no_check_rx" u8 1;
    bit "sk_userlocks" u8 4;
    fld "sk_pacing_shift" u8;
    fld "sk_type" u16;
    fld "sk_protocol" u16;
    fld "sk_gso_max_segs" u16;
    fld "sk_lingertime" c_ulong;
    fld "sk_prot_creator" (ptr "struct proto");
    fld "sk_callback_lock" rwlock_t;
    fld "sk_err" c_int;
    fld "sk_err_soft" c_int;
    fld "sk_ack_backlog" u32;
    fld "sk_max_ack_backlog" u32;
    fld "sk_uid" kuid_t;
    fld "sk_txrehash" u8;
    fld "sk_prefer_busy_poll" u8;
    fld "sk_busy_poll_budget" u16;
    fld "sk_peer_lock" spinlock_t;
    fld "sk_bind_phc" c_int;
    fld "sk_peer_pid" (ptr "struct pid");
    fld "sk_peer_cred" (ptr "struct cred");
    fld "sk_rcvtimeo" c_long;
    fld "sk_stamp" ktime_t;
    fld "sk_tsflags" u16;
    fld "sk_shutdown" u8;
    fld "sk_tskey" atomic_t;
    fld "sk_zckey" atomic_t;
    fld "sk_clockid" u8;
    bit "sk_txtime_deadline_mode" u8 1;
    bit "sk_txtime_report_errors" u8 1;
    bit "sk_txtime_unused" u8 6;
    fld "sk_socket" (ptr "struct socket");
    fld "sk_user_data" (ptr "void");
    fld "sk_security" (ptr "void");
    fld "sk_cgrp_data" struct_sock_cgroup_data;
    fld "sk_memcg" (ptr "struct mem_cgroup");
    fld "sk_state_change" (ptr "void (struct sock *)");
    fld "sk_data_ready" (ptr "void (struct sock *)");
    fld "sk_write_space" (ptr "void (struct sock *)");
    fld "sk_error_report" (ptr "void (struct sock *)");
    fld "sk_backlog_rcv" (ptr "int (struct sock *, struct sk_buff *)");
    fld "sk_validate_xmit_skb" (ptr "struct sk_buff * (struct sock *, struct net_device *, struct sk_buff *)");
    fld "sk_destruct" (ptr "void (struct sock *)");
    fld "sk_reuseport_cb" (ptr "struct sock_reuseport");
    fld "sk_bpf_storage" (ptr "struct bpf_local_storage");
    fld "sk_rcu" struct_callback_head;
    fld "ns_tracker" netns_tracker;
    fld "sk_bind2_node" struct_hlist_node].

(** The types of this file, by name. *)
Definition vmsock_types : list (string * ctype) := [
  ("__u8", __u8);
  ("__s32", __s32);
  ("__u32", __u32);
  ("__u64", __u64);
  ("u8", u8);
  ("u32", u32);
  ("u64", u64);
  ("gfp_t", gfp_t);
  ("atomic_t", atomic_t);
  ("__u16", __u16);
  ("__s64", __s64);
  ("u16", u16);
  ("s64", s64);
  ("__kernel_uid32_t", __kernel_uid32_t);
  ("uid_t", uid_t);
  ("atomic64_t", atomic64_t);
  ("struct list_head", struct_list_head);
  ("struct hlist_node", struct_hlist_node);
  ("struct callback_head", struct_callback_head);
  ("struct qspinlock", struct_qspinlock);
  ("arch_spinlock_t", arch_spinlock_t);
  ("struct qrwlock", struct_qrwlock);
  ("arch_rwlock_t", arch_rwlock_t);
  ("struct raw_spinlock", struct_raw_spinlock);
  ("struct refcount_struct", struct_refcount_struct);
  ("refcount_t", refcount_t);
  ("ktime_t", ktime_t);
  ("struct rb_root", struct_rb_root);
  ("kuid_t", kuid_t);
  ("struct spinlock", struct_spinlock);
  ("spinlock_t", spinlock_t);
  ("struct page_frag", struct_page_frag);
  ("struct timer_list", struct_timer_list);
  ("rwlock_t", rwlock_t);
  ("struct wait_queue_head", struct_wait_queue_head);
  ("wait_queue_head_t", wait_queue_head_t);
  ("__be32", __be32);
  ("__be16", __be16);
  ("netdev_features_t", netdev_features_t);
  ("possible_net_t", possible_net_t);
  ("struct sk_buff_list", struct_sk_buff_list);
  ("struct sk_buff_head", struct_sk_buff_head);
  ("struct in6_addr", struct_in6_addr);
  ("__addrpair", __addrpair);
  ("__portpair", __portpair);
  ("struct hlist_nulls_node", struct_hlist_nulls_node);
  ("struct sock_common", struct_sock_common);
  ("socket_lock_t", socket_lock_t);
  ("struct sock_cgroup_data", struct_sock_cgroup_data);
  ("netns_tracker", netns_tracker);
  ("struct sock", struct_sock)].
