(* ===== verification/VmInet.v ===== *)
(** * Kernel types: VmInet

    Protocol control blocks: the objects a [struct sock *] really points to (TCP, UDP and raw sockets over IPv4 and IPv6, request and time-wait sockets), with the TCP state enumeration.

    Each definition translates one declaration of
    [internal/agent/ebpf/vmlinux.h], in the order of the header; pointers keep
    the pointee as written, since a layout does not depend on it. *)

From stdpp Require Import base list strings.
From S2P Require Import Prelude CLayout VmSock.

Definition bool_ : ctype := c_bool.

Definition struct_rb_node : ctype :=
  cstruct "rb_node" [
    fld "__rb_parent_color" c_ulong;
    fld "rb_right" (ptr "struct rb_node");
    fld "rb_left" (ptr "struct rb_node")].

Definition struct_timerqueue_node : ctype :=
  cstruct "timerqueue_node" [
    fld "node" struct_rb_node;
    fld "expires" ktime_t].

Definition struct_hrtimer : ctype :=
  cstruct "hrtimer" [
    fld "node" struct_timerqueue_node;
    fld "_softexpires" ktime_t;
    fld "function" (ptr "enum hrtimer_restart (struct hrtimer *)");
    fld "base" (ptr "struct hrtimer_clock_base");
    fld "state" u8;
    fld "is_rel" u8;
    fld "is_soft" u8;
    fld "is_hard" u8].

Definition __s16 : ctype := c_short.

Definition __be64 : ctype := __u64.

Definition struct_flowi_tunnel : ctype :=
  cstruct "flowi_tunnel" [
    fld "tun_id" __be64].

Definition struct_flowi_common : ctype :=
  cstruct "flowi_common" [
    fld "flowic_oif" c_int;
    fld "flowic_iif" c_int;
    fld "flowic_l3mdev" c_int;
    fld "flowic_mark" __u32;
    fld "flowic_tos" __u8;
    fld "flowic_scope" __u8;
    fld "flowic_proto" __u8;
    fld "flowic_flags" __u8;
    fld "flowic_secid" __u32;
    fld "flowic_uid" kuid_t;
    fld "flowic_multipath_hash" __u32;
    fld "flowic_tun_key" struct_flowi_tunnel].

Definition union_flowi_uli : ctype :=
  cunion "flowi_uli" [
    fld "ports" (cstruct "" [
      fld "dport" __be16;
      fld "sport" __be16]);
    fld "icmpt" (cstruct "" [
      fld "type" __u8;
      fld "code" __u8]);
    fld "gre_key" __be32;
    fld "mht" (cstruct "" [
      fld "type" __u8])].

Definition struct_flowi4 : ctype :=
  cstruct "flowi4" [
    fld "__fl_common" struct_flowi_common;
    fld "saddr" __be32;
    fld "daddr" __be32;
    fld "uli" union_flowi_uli].

Definition struct_flowi6 : ctype :=
  cstruct "flowi6" [
    fld "__fl_common" struct_flowi_common;
    fld "daddr" struct_in6_addr;
    fld "saddr" struct_in6_addr;
    fld "flowlabel" __be32;
    fld "uli" union_flowi_uli;
    fld "mp_hash" __u32].

Definition struct_flowi : ctype :=
  cstruct "flowi" [
    fld "u" (cunion "" [
      fld "__fl_common" struct_flowi_common;
      fld "ip4" struct_flowi4;
      fld "ip6" struct_flowi6])].

Definition enum_tcp_states : ctype :=
  cenum "" [
    ("TCP_ESTABLISHED", 1);
    ("TCP_SYN_SENT", 2);
    ("TCP_SYN_RECV", 3);
    ("TCP_FIN_WAIT1", 4);
    ("TCP_FIN_WAIT2", 5);
    ("TCP_TIME_WAIT", 6);
    ("TCP_CLOSE", 7);
    ("TCP_CLOSE_WAIT", 8);
    ("TCP_LAST_ACK", 9);
    ("TCP_LISTEN", 10);
    ("TCP_CLOSING", 11);
    ("TCP_NEW_SYN_RECV", 12);
    ("TCP_MAX_STATES", 13)].

Definition struct_request_sock : ctype :=
  cstruct "request_sock" [
    fld "__req_common" struct_sock_common;
    fld "dl_next" (ptr "struct request_sock");
    fld "mss" u16;
    fld "num_retrans" u8;
    bit "syncookie" u8 1;
    bit "num_timeout" u8 7;
    fld "ts_recent" u32;
    fld "rsk_timer" struct_timer_list;
    fld "rsk_ops" (ptr "struct request_sock_ops");
    fld "sk" (ptr "struct sock");
    fld "saved_syn" (ptr "struct saved_syn");
    fld "secid" u32;
    fld "peer_secid" u32;
    fld "timeout" u32].

Definition struct_in6_pktinfo : ctype :=
  cstruct "in6_pktinfo" [
    fld "ipi6_addr" struct_in6_addr;
    fld "ipi6_ifindex" c_int].

Definition struct_inet_cork : ctype :=
  cstruct "inet_cork" [
    fld "flags" c_uint;
    fld "addr" __be32;
    fld "opt" (ptr "struct ip_options");
    fld "fragsize" c_uint;
    fld "length" c_int;
    fld "dst" (ptr "struct dst_entry");
    fld "tx_flags" u8;
    fld "ttl" __u8;
    fld "tos" __s16;
    fld "priority" c_char;
    fld "gso_size" __u16;
    fld "transmit_time" u64;
    fld "mark" u32].

Definition struct_inet_cork_full : ctype :=
  cstruct "inet_cork_full" [
    fld "base" struct_inet_cork;
    fld "fl" struct_flowi].

Definition struct_inet_sock : ctype :=
  cstruct "inet_sock" [
    fld "sk" struct_sock;
    fld "pinet6" (ptr "struct ipv6_pinfo");
    fld "inet_saddr" __be32;
    fld "uc_ttl" __s16;
    fld "cmsg_flags" __u16;
    fld "inet_opt" (ptr "struct ip_options_rcu");
    fld "inet_id" atomic_t;
    fld "inet_sport" __be16;
    fld "tos" __u8;
    fld "min_ttl" __u8;
    fld "mc_ttl" __u8;
    fld "pmtudisc" __u8;
    bit "recverr" __u8 1;
    bit "is_icsk" __u8 1;
    bit "freebind" __u8 1;
    bit "hdrincl" __u8 1;
    bit "mc_loop" __u8 1;
    bit "transparent" __u8 1;
    bit "mc_all" __u8 1;
    bit "nodefrag" __u8 1;
    bit "bind_address_no_port" __u8 1;
    bit "recverr_rfc4884" __u8 1;
    bit "defer_connect" __u8 1;
    fld "rcv_tos" __u8;
    fld "convert_csum" __u8;
    fld "uc_index" c_int;
    fld "mc_index" c_int;
    fld "mc_addr" __be32;
    fld "mc_list" (ptr "struct ip_mc_socklist");
    fld "cork" struct_inet_cork_full;
    fld "local_port_range" (cstruct "" [
      fld "lo" __u16;
      fld "hi" __u16])].

Definition struct_inet6_cork : ctype :=
  cstruct "inet6_cork" [
    fld "opt" (ptr "struct ipv6_txoptions");
    fld "hop_limit" u8;
    fld "tclass" u8].

Definition struct_ipv6_pinfo : ctype :=
  cstruct "ipv6_pinfo" [
    fld "saddr" struct_in6_addr;
    fld "sticky_pktinfo" struct_in6_pktinfo;
    fld "daddr_cache" (ptr "struct in6_addr");
    fld "saddr_cache" (ptr "struct in6_addr");
    fld "flow_label" __be32;
    fld "frag_size" __u32;
    bit "__unused_1" __u16 7;
    bit "hop_limit" __s16 9;
    bit "mc_loop" __u16 1;
    bit "__unused_2" __u16 6;
    bit "mcast_hops" __s16 9;
    fld "ucast_oif" c_int;
    fld "mcast_oif" c_int;
    fld "rxopt" (cunion "" [
      fld "bits" (cstruct "" [
        bit "srcrt" __u16 1;
        bit "osrcrt" __u16 1;
        bit "rxinfo" __u16 1;
        bit "rxoinfo" __u16 1;
        bit "rxhlim" __u16 1;
        bit "rxohlim" __u16 1;
        bit "hopopts" __u16 1;
        bit "ohopopts" __u16 1;
        bit "dstopts" __u16 1;
        bit "odstopts" __u16 1;
        bit "rxflow" __u16 1;
        bit "rxtclass" __u16 1;
        bit "rxpmtu" __u16 1;
        bit "rxorigdstaddr" __u16 1;
        bit "recvfragsize" __u16 1]);
      fld "all" __u16]);
    bit "recverr" __u16 1;
    bit "sndflow" __u16 1;
    bit "repflow" __u16 1;
    bit "pmtudisc" __u16 3;
    bit "padding" __u16 1;
    bit "srcprefs" __u16 3;
    bit "dontfrag" __u16 1;
    bit "autoflowlabel" __u16 1;
    bit "autoflowlabel_set" __u16 1;
    bit "mc_all" __u16 1;
    bit "recverr_rfc4884" __u16 1;
    bit "rtalert_isolate" __u16 1;
    fld "min_hopcount" __u8;
    fld "tclass" __u8;
    fld "rcv_flowinfo" __be32;
    fld "dst_cookie" __u32;
    fld "ipv6_mc_list" (ptr "struct ipv6_mc_socklist");
    fld "ipv6_ac_list" (ptr "struct ipv6_ac_socklist");
    fld "ipv6_fl_list" (ptr "struct ipv6_fl_socklist");
    fld "opt" (ptr "struct ipv6_txoptions");
    fld "pktoptions" (ptr "struct sk_buff");
    fld "rxpmtu" (ptr "struct sk_buff");
    fld "cork" struct_inet6_cork].

Definition struct_minmax_sample : ctype :=
  cstruct "minmax_sample" [
    fld "t" u32;
    fld "v" u32].

Definition struct_minmax : ctype :=
  cstruct "minmax" [
    fld "s" (array struct_minmax_sample 3)].

Definition struct_fastopen_queue : ctype :=
  cstruct "fastopen_queue" [
    fld "rskq_rst_head" (ptr "struct request_sock");
    fld "rskq_rst_tail" (ptr "struct request_sock");
    fld "lock" spinlock_t;
    fld "qlen" c_int;
    fld "max_qlen" c_int;
    fld "ctx" (ptr "struct tcp_fastopen_context")].

Definition struct_request_sock_queue : ctype :=
  cstruct "request_sock_queue" [
    fld "rskq_lock" spinlock_t;
    fld "rskq_defer_accept" u8;
    fld "synflood_warned" u32;
    fld "qlen" atomic_t;
    fld "young" atomic_t;
    fld "rskq_accept_head" (ptr "struct request_sock");
    fld "rskq_accept_tail" (ptr "struct request_sock");
    fld "fastopenq" struct_fastopen_queue].

Definition struct_inet_request_sock : ctype :=
  cstruct "inet_request_sock" [
    fld "req" struct_request_sock;
    bit "snd_wscale" u16 4;
    bit "rcv_wscale" u16 4;
    bit "tstamp_ok" u16 1;
    bit "sack_ok" u16 1;
    bit "wscale_ok" u16 1;
    bit "ecn_ok" u16 1;
    bit "acked" u16 1;
    bit "no_srccheck" u16 1;
    bit "smc_ok" u16 1;
    fld "ir_mark" u32;
    anon (cunion "" [
      fld "ireq_opt" (ptr "struct ip_options_rcu");
      anon (cstruct "" [
        fld "ipv6_opt" (ptr "struct ipv6_txoptions");
        fld "pktopts" (ptr "struct sk_buff")])])].

Definition struct_inet_connection_sock : ctype :=
  cstruct "inet_connection_sock" [
    fld "icsk_inet" struct_inet_sock;
    fld "icsk_accept_queue" struct_request_sock_queue;
    fld "icsk_bind_hash" (ptr "struct inet_bind_bucket");
    fld "icsk_bind2_hash" (ptr "struct inet_bind2_bucket");
    fld "icsk_timeout" c_ulong;
    fld "icsk_retransmit_timer" struct_timer_list;
    fld "icsk_delack_timer" struct_timer_list;
    fld "icsk_rto" __u32;
    fld "icsk_rto_min" __u32;
    fld "icsk_delack_max" __u32;
    fld "icsk_pmtu_cookie" __u32;
    fld "icsk_ca_ops" (ptr "struct tcp_congestion_ops");
    fld "icsk_af_ops" (ptr "struct inet_connection_sock_af_ops");
    fld "icsk_ulp_ops" (ptr "struct tcp_ulp_ops");
    fld "icsk_ulp_data" (ptr "void");
    fld "icsk_clean_acked" (ptr "void (struct sock *, u32)");
    fld "icsk_sync_mss" (ptr "unsigned int (struct sock *, u32)");
    bit "icsk_ca_state" __u8 5;
    bit "icsk_ca_initialized" __u8 1;
    bit "icsk_ca_setsockopt" __u8 1;
    bit "icsk_ca_dst_locked" __u8 1;
    fld "icsk_retransmits" __u8;
    fld "icsk_pending" __u8;
    fld "icsk_backoff" __u8;
    fld "icsk_syn_retries" __u8;
    fld "icsk_probes_out" __u8;
    fld "icsk_ext_hdr_len" __u16;
    fld "icsk_ack" (cstruct "" [
      fld "pending" __u8;
      fld "quick" __u8;
      fld "pingpong" __u8;
      fld "retry" __u8;
      fld "ato" __u32;
      fld "timeout" c_ulong;
      fld "lrcvtime" __u32;
      fld "last_seg_size" __u16;
      fld "rcv_mss" __u16]);
    fld "icsk_mtup" (cstruct "" [
      fld "search_high" c_int;
      fld "search_low" c_int;
      bit "probe_size" u32 31;
      bit "enabled" u32 1;
      fld "probe_timestamp" u32]);
    fld "icsk_probes_tstamp" u32;
    fld "icsk_user_timeout" u32;
    fld "icsk_ca_priv" (array u64 13)].

Definition struct_tcp_sack_block : ctype :=
  cstruct "tcp_sack_block" [
    fld "start_seq" u32;
    fld "end_seq" u32].

Definition struct_tcp_options_received : ctype :=
  cstruct "tcp_options_received" [
    fld "ts_recent_stamp" c_int;
    fld "ts_recent" u32;
    fld "rcv_tsval" u32;
    fld "rcv_tsecr" u32;
    bit "saw_tstamp" u16 1;
    bit "tstamp_ok" u16 1;
    bit "dsack" u16 1;
    bit "wscale_ok" u16 1;
    bit "sack_ok" u16 3;
    bit "smc_ok" u16 1;
    bit "snd_wscale" u16 4;
    bit "rcv_wscale" u16 4;
    bit "saw_unknown" u8 1;
    bit "unused" u8 7;
    fld "num_sacks" u8;
    fld "user_mss" u16;
    fld "mss_clamp" u16].

Definition struct_tcp_request_sock : ctype :=
  cstruct "tcp_request_sock" [
    fld "req" struct_inet_request_sock;
    fld "af_specific" (ptr "struct tcp_request_sock_ops");
    fld "snt_synack" u64;
    fld "tfo_listener" bool_;
    fld "is_mptcp" bool_;
    fld "drop_req" bool_;
    fld "txhash" u32;
    fld "rcv_isn" u32;
    fld "snt_isn" u32;
    fld "ts_off" u32;
    fld "last_oow_ack_time" u32;
    fld "rcv_nxt" u32;
    fld "syn_tos" u8].

Definition struct_tcp_rack : ctype :=
  cstruct "tcp_rack" [
    fld "mstamp" u64;
    fld "rtt_us" u32;
    fld "end_seq" u32;
    fld "last_delivered" u32;
    fld "reo_wnd_steps" u8;
    bit "reo_wnd_persist" u8 5;
    bit "dsack_seen" u8 1;
    bit "advanced" u8 1].

Definition struct_tcp_sock : ctype :=
  cstruct "tcp_sock" [
    fld "inet_conn" struct_inet_connection_sock;
    fld "tcp_header_len" u16;
    fld "gso_segs" u16;
    fld "pred_flags" __be32;
    fld "bytes_received" u64;
    fld "segs_in" u32;
    fld "data_segs_in" u32;
    fld "rcv_nxt" u32;
    fld "copied_seq" u32;
    fld "rcv_wup" u32;
    fld "snd_nxt" u32;
    fld "segs_out" u32;
    fld "data_segs_out" u32;
    fld "bytes_sent" u64;
    fld "bytes_acked" u64;
    fld "dsack_dups" u32;
    fld "snd_una" u32;
    fld "snd_sml" u32;
    fld "rcv_tstamp" u32;
    fld "lsndtime" u32;
    fld "last_oow_ack_time" u32;
    fld "compressed_ack_rcv_nxt" u32;
    fld "tsoffset" u32;
    fld "tsq_node" struct_list_head;
    fld "tsorted_sent_queue" struct_list_head;
    fld "snd_wl1" u32;
    fld "snd_wnd" u32;
    fld "max_window" u32;
    fld "mss_cache" u32;
    fld "window_clamp" u32;
    fld "rcv_ssthresh" u32;
    fld "rack" struct_tcp_rack;
    fld "advmss" u16;
    fld "compressed_ack" u8;
    bit "dup_ack_counter" u8 2;
    bit "tlp_retrans" u8 1;
    bit "unused" u8 5;
    fld "chrono_start" u32;
    fld "chrono_stat" (array u32 3);
    bit "chrono_type" u8 2;
    bit "rate_app_limited" u8 1;
    bit "fastopen_connect" u8 1;
    bit "fastopen_no_cookie" u8 1;
    bit "is_sack_reneg" u8 1;
    bit "fastopen_client_fail" u8 2;
    bit "nonagle" u8 4;
    bit "thin_lto" u8 1;
    bit "recvmsg_inq" u8 1;
    bit "repair" u8 1;
    bit "frto" u8 1;
    fld "repair_queue" u8;
    bit "save_syn" u8 2;
    bit "syn_data" u8 1;
    bit "syn_fastopen" u8 1;
    bit "syn_fastopen_exp" u8 1;
    bit "syn_fastopen_ch" u8 1;
    bit "syn_data_acked" u8 1;
    bit "is_cwnd_limited" u8 1;
    fld "tlp_high_seq" u32;
    fld "tcp_tx_delay" u32;
    fld "tcp_wstamp_ns" u64;
    fld "tcp_clock_cache" u64;
    fld "tcp_mstamp" u64;
    fld "srtt_us" u32;
    fld "mdev_us" u32;
    fld "mdev_max_us" u32;
    fld "rttvar_us" u32;
    fld "rtt_seq" u32;
    fld "rtt_min" struct_minmax;
    fld "packets_out" u32;
    fld "retrans_out" u32;
    fld "max_packets_out" u32;
    fld "cwnd_usage_seq" u32;
    fld "urg_data" u16;
    fld "ecn_flags" u8;
    fld "keepalive_probes" u8;
    fld "reordering" u32;
    fld "reord_seen" u32;
    fld "snd_up" u32;
    fld "rx_opt" struct_tcp_options_received;
    fld "snd_ssthresh" u32;
    fld "snd_cwnd" u32;
    fld "snd_cwnd_cnt" u32;
    fld "snd_cwnd_clamp" u32;
    fld "snd_cwnd_used" u32;
    fld "snd_cwnd_stamp" u32;
    fld "prior_cwnd" u32;
    fld "prr_delivered" u32;
    fld "prr_out" u32;
    fld "delivered" u32;
    fld "delivered_ce" u32;
    fld "lost" u32;
    fld "app_limited" u32;
    fld "first_tx_mstamp" u64;
    fld "delivered_mstamp" u64;
    fld "rate_delivered" u32;
    fld "rate_interval_us" u32;
    fld "rcv_wnd" u32;
    fld "write_seq" u32;
    fld "notsent_lowat" u32;
    fld "pushed_seq" u32;
    fld "lost_out" u32;
    fld "sacked_out" u32;
    fld "pacing_timer" struct_hrtimer;
    fld "compressed_ack_timer" struct_hrtimer;
    fld "lost_skb_hint" (ptr "struct sk_buff");
    fld "retransmit_skb_hint" (ptr "struct sk_buff");
    fld "out_of_order_queue" struct_rb_root;
    fld "ooo_last_skb" (ptr "struct sk_buff");
    fld "duplicate_sack" (array struct_tcp_sack_block 1);
    fld "selective_acks" (array struct_tcp_sack_block 4);
    fld "recv_sack_cache" (array struct_tcp_sack_block 4);
    fld "highest_sack" (ptr "struct sk_buff");
    fld "lost_cnt_hint" c_int;
    fld "prior_ssthresh" u32;
    fld "high_seq" u32;
    fld "retrans_stamp" u32;
    fld "undo_marker" u32;
    fld "undo_retrans" c_int;
    fld "bytes_retrans" u64;
    fld "total_retrans" u32;
    fld "urg_seq" u32;
    fld "keepalive_time" c_uint;
    fld "keepalive_intvl" c_uint;
    fld "linger2" c_int;
    fld "bpf_sock_ops_cb_flags" u8;
    bit "bpf_chg_cc_inprogress" u8 1;
    fld "timeout_rehash" u16;
    fld "rcv_ooopack" u32;
    fld "rcv_rtt_last_tsecr" u32;
    fld "rcv_rtt_est" (cstruct "" [
      fld "rtt_us" u32;
      fld "seq" u32;
      fld "time" u64]);
    fld "rcvq_space" (cstruct "" [
      fld "space" u32;
      fld "seq" u32;
      fld "time" u64]);
    fld "mtu_probe" (cstruct "" [
      fld "probe_seq_start" u32;
      fld "probe_seq_end" u32]);
    fld "mtu_info" u32;
    fld "is_mptcp" bool_;
    fld "smc_hs_congested" (ptr "bool (const struct sock *)");
    fld "syn_smc" bool_;
    fld "af_specific" (ptr "struct tcp_sock_af_ops");
    fld "md5sig_info" (ptr "struct tcp_md5sig_info");
    fld "fastopen_req" (ptr "struct tcp_fastopen_request");
    fld "fastopen_rsk" (ptr "struct request_sock");
    fld "saved_syn" (ptr "struct saved_syn")].

Definition struct_inet_timewait_sock : ctype :=
  cstruct "inet_timewait_sock" [
    fld "__tw_common" struct_sock_common;
    fld "tw_mark" __u32;
    fld "tw_substate" c_uchar;
    fld "tw_rcv_wscale" c_uchar;
    fld "tw_sport" __be16;
    bit "tw_transparent" c_uint 1;
    bit "tw_flowlabel" c_uint 20;
    bit "tw_pad" c_uint 3;
    bit "tw_tos" c_uint 8;
    fld "tw_txhash" u32;
    fld "tw_priority" u32;
    fld "tw_timer" struct_timer_list;
    fld "tw_tb" (ptr "struct inet_bind_bucket");
    fld "tw_tb2" (ptr "struct inet_bind2_bucket");
    fld "tw_bind2_node" struct_hlist_node].

Definition struct_udp_sock : ctype :=
  cstruct "udp_sock" [
    fld "inet" struct_inet_sock;
    fld "udp_flags" c_ulong;
    fld "pending" c_int;
    fld "encap_type" __u8;
    fld "pcflag" __u8;
    fld "len" __u16;
    fld "gso_size" __u16;
    fld "pcslen" __u16;
    fld "pcrlen" __u16;
    fld "encap_rcv" (ptr "int (struct sock *, struct sk_buff *)");
    fld "encap_err_rcv" (ptr "void (struct sock *, struct sk_buff *, unsigned int)");
    fld "encap_err_lookup" (ptr "int (struct sock *, struct sk_buff *)");
    fld "encap_destroy" (ptr "void (struct sock *)");
    fld "gro_receive" (ptr "struct sk_buff * (struct sock *, struct list_head *, struct sk_buff *)");
    fld "gro_complete" (ptr "int (struct sock *, struct sk_buff *, int)");
    pad c_long 64;
    pad c_long 64;
    pad c_long 64;
    fld "reader_queue" struct_sk_buff_head;
    fld "forward_deficit" c_int;
    pad c_long 64;
    pad c_long 64;
    pad c_long 64;
    pad c_long 64].

Definition struct_tcp_timewait_sock : ctype :=
  cstruct "tcp_timewait_sock" [
    fld "tw_sk" struct_inet_timewait_sock;
    fld "tw_rcv_wnd" u32;
    fld "tw_ts_offset" u32;
    fld "tw_ts_recent" u32;
    fld "tw_last_oow_ack_time" u32;
    fld "tw_ts_recent_stamp" c_int;
    fld "tw_tx_delay" u32;
    fld "tw_md5_key" (ptr "struct tcp_md5sig_key")].

Definition struct_icmp6_filter : ctype :=
  cstruct "icmp6_filter" [
    fld "data" (array __u32 8)].

Definition struct_raw6_sock : ctype :=
  cstruct "raw6_sock" [
    fld "inet" struct_inet_sock;
    fld "checksum" __u32;
    fld "offset" __u32;
    fld "filter" struct_icmp6_filter;
    fld "ip6mr_table" __u32;
    fld "inet6" struct_ipv6_pinfo].

Definition struct_udp6_sock : ctype :=
  cstruct "udp6_sock" [
    fld "udp" struct_udp_sock;
    fld "inet6" struct_ipv6_pinfo;
    pad c_long 64;
    pad c_long 64;
    pad c_long 64;
    pad c_long 64].

Definition struct_tcp6_sock : ctype :=
  cstruct "tcp6_sock" [
    fld "tcp" struct_tcp_sock;
    fld "inet6" struct_ipv6_pinfo].

(** The types of this file, by name. *)
Definition vminet_types : list (string * ctype) := [
  ("bool", bool_);
  ("struct rb_node", struct_rb_node);
  ("struct timerqueue_node", struct_timerqueue_node);
  ("struct hrtimer", struct_hrtimer);
  ("__s16", __s16);
  ("__be64", __be64);
  ("struct flowi_tunnel", struct_flowi_tunnel);
  ("struct flowi_common", struct_flowi_common);
  ("union flowi_uli", union_flowi_uli);
  ("struct flowi4", struct_flowi4);
  ("struct flowi6", struct_flowi6);
  ("struct flowi", struct_flowi);
  ("enum tcp_states", enum_tcp_states);
  ("struct request_sock", struct_request_sock);
  ("struct in6_pktinfo", struct_in6_pktinfo);
  ("struct inet_cork", struct_inet_cork);
  ("struct inet_cork_full", struct_inet_cork_full);
  ("struct inet_sock", struct_inet_sock);
  ("struct inet6_cork", struct_inet6_cork);
  ("struct ipv6_pinfo", struct_ipv6_pinfo);
  ("struct minmax_sample", struct_minmax_sample);
  ("struct minmax", struct_minmax);
  ("struct fastopen_queue", struct_fastopen_queue);
  ("struct request_sock_queue", struct_request_sock_queue);
  ("struct inet_request_sock", struct_inet_request_sock);
  ("struct inet_connection_sock", struct_inet_connection_sock);
  ("struct tcp_sack_block", struct_tcp_sack_block);
  ("struct tcp_options_received", struct_tcp_options_received);
  ("struct tcp_request_sock", struct_tcp_request_sock);
  ("struct tcp_rack", struct_tcp_rack);
  ("struct tcp_sock", struct_tcp_sock);
  ("struct inet_timewait_sock", struct_inet_timewait_sock);
  ("struct udp_sock", struct_udp_sock);
  ("struct tcp_timewait_sock", struct_tcp_timewait_sock);
  ("struct icmp6_filter", struct_icmp6_filter);
  ("struct raw6_sock", struct_raw6_sock);
  ("struct udp6_sock", struct_udp6_sock);
  ("struct tcp6_sock", struct_tcp6_sock)].
