(* ===== verification/VmSocket.v ===== *)
(** * Kernel types: VmSocket

    Around the socket: the probe context [struct pt_regs], the arguments of the probed functions, the VFS socket and the socket buffers.

    Each definition translates one declaration of
    [internal/agent/ebpf/vmlinux.h], in the order of the header; pointers keep
    the pointee as written, since a layout does not depend on it. *)

From stdpp Require Import base list strings.
From S2P Require Import Prelude CLayout VmSock VmInet.

Definition s32 : ctype := __s32.

Definition __kernel_ulong_t : ctype := c_ulong.

Definition __kernel_size_t : ctype := __kernel_ulong_t.

Definition size_t : ctype := __kernel_size_t.

Definition struct_user_pt_regs : ctype :=
  cstruct "user_pt_regs" [
    fld "regs" (array __u64 31);
    fld "sp" __u64;
    fld "pc" __u64;
    fld "pstate" __u64].

Definition struct_pt_regs : ctype :=
  cstruct "pt_regs" [
    anon (cunion "" [
      fld "user_regs" struct_user_pt_regs;
      anon (cstruct "" [
        fld "regs" (array u64 31);
        fld "sp" u64;
        fld "pc" u64;
        fld "pstate" u64])]);
    fld "orig_x0" u64;
    fld "syscallno" s32;
    fld "unused2" u32;
    fld "sdei_ttbr1" u64;
    fld "pmr_save" u64;
    fld "stackframe" (array u64 2);
    fld "lockdep_hardirqs" u64;
    fld "exit_rcu" u64].

Definition __kernel_gid32_t : ctype := c_uint.

Definition __kernel_loff_t : ctype := c_long.

Definition __kernel_dev_t : ctype := u32.

Definition dev_t : ctype := __kernel_dev_t.

Definition umode_t : ctype := c_ushort.

Definition gid_t : ctype := __kernel_gid32_t.

Definition loff_t : ctype := __kernel_loff_t.

Definition blkcnt_t : ctype := u64.

Definition struct_hlist_head : ctype :=
  cstruct "hlist_head" [
    fld "first" (ptr "struct hlist_node")].

Definition atomic_long_t : ctype := atomic64_t.

Definition raw_spinlock_t : ctype := struct_raw_spinlock.

Definition struct_optimistic_spin_queue : ctype :=
  cstruct "optimistic_spin_queue" [
    fld "tail" atomic_t].

Definition time64_t : ctype := __s64.

Definition struct_timespec64 : ctype :=
  cstruct "timespec64" [
    fld "tv_sec" time64_t;
    fld "tv_nsec" c_long].

Definition struct_llist_node : ctype :=
  cstruct "llist_node" [
    fld "next" (ptr "struct llist_node")].

Definition struct_rb_root_cached : ctype :=
  cstruct "rb_root_cached" [
    fld "rb_root" struct_rb_root;
    fld "rb_leftmost" (ptr "struct rb_node")].

Definition struct_xarray : ctype :=
  cstruct "xarray" [
    fld "xa_lock" spinlock_t;
    fld "xa_flags" gfp_t;
    fld "xa_head" (ptr "void")].

Definition kgid_t : ctype :=
  cstruct "" [
    fld "val" gid_t].

Definition struct_rw_semaphore : ctype :=
  cstruct "rw_semaphore" [
    fld "count" atomic_long_t;
    fld "owner" atomic_long_t;
    fld "osq" struct_optimistic_spin_queue;
    fld "wait_lock" raw_spinlock_t;
    fld "wait_list" struct_list_head].

Definition errseq_t : ctype := u32.

Definition struct_address_space : ctype :=
  cstruct "address_space" [
    fld "host" (ptr "struct inode");
    fld "i_pages" struct_xarray;
    fld "invalidate_lock" struct_rw_semaphore;
    fld "gfp_mask" gfp_t;
    fld "i_mmap_writable" atomic_t;
    fld "i_mmap" struct_rb_root_cached;
    fld "i_mmap_rwsem" struct_rw_semaphore;
    fld "nrpages" c_ulong;
    fld "writeback_index" c_ulong;
    fld "a_ops" (ptr "struct address_space_operations");
    fld "flags" c_ulong;
    fld "wb_err" errseq_t;
    fld "private_lock" spinlock_t;
    fld "private_list" struct_list_head;
    fld "private_data" (ptr "void")].

Definition struct_bio_vec : ctype :=
  cstruct "bio_vec" [
    fld "bv_page" (ptr "struct page");
    fld "bv_len" c_uint;
    fld "bv_offset" c_uint].

Definition struct_iov_iter : ctype :=
  cstruct "iov_iter" [
    fld "iter_type" u8;
    fld "nofault" bool_;
    fld "data_source" bool_;
    fld "user_backed" bool_;
    anon (cunion "" [
      fld "iov_offset" size_t;
      fld "last_offset" c_int]);
    fld "count" size_t;
    anon (cunion "" [
      fld "iov" (ptr "struct iovec");
      fld "kvec" (ptr "struct kvec");
      fld "bvec" (ptr "struct bio_vec");
      fld "xarray" (ptr "struct xarray");
      fld "pipe" (ptr "struct pipe_inode_info");
      fld "ubuf" (ptr "void")]);
    anon (cunion "" [
      fld "nr_segs" c_ulong;
      anon (cstruct "" [
        fld "head" c_uint;
        fld "start_head" c_uint]);
      fld "xarray_start" loff_t])].

Definition struct_inode : ctype :=
  cstruct "inode" [
    fld "i_mode" umode_t;
    fld "i_opflags" c_ushort;
    fld "i_uid" kuid_t;
    fld "i_gid" kgid_t;
    fld "i_flags" c_uint;
    fld "i_acl" (ptr "struct posix_acl");
    fld "i_default_acl" (ptr "struct posix_acl");
    fld "i_op" (ptr "struct inode_operations");
    fld "i_sb" (ptr "struct super_block");
    fld "i_mapping" (ptr "struct address_space");
    fld "i_security" (ptr "void");
    fld "i_ino" c_ulong;
    anon (cunion "" [
      fld "i_nlink" c_uint;
      fld "__i_nlink" c_uint]);
    fld "i_rdev" dev_t;
    fld "i_size" loff_t;
    fld "i_atime" struct_timespec64;
    fld "i_mtime" struct_timespec64;
    fld "i_ctime" struct_timespec64;
    fld "i_lock" spinlock_t;
    fld "i_bytes" c_ushort;
    fld "i_blkbits" u8;
    fld "i_write_hint" u8;
    fld "i_blocks" blkcnt_t;
    fld "i_state" c_ulong;
    fld "i_rwsem" struct_rw_semaphore;
    fld "dirtied_when" c_ulong;
    fld "dirtied_time_when" c_ulong;
    fld "i_hash" struct_hlist_node;
    fld "i_io_list" struct_list_head;
    fld "i_wb" (ptr "struct bdi_writeback");
    fld "i_wb_frn_winner" c_int;
    fld "i_wb_frn_avg_time" u16;
    fld "i_wb_frn_history" u16;
    fld "i_lru" struct_list_head;
    fld "i_sb_list" struct_list_head;
    fld "i_wb_list" struct_list_head;
    anon (cunion "" [
      fld "i_dentry" struct_hlist_head;
      fld "i_rcu" struct_callback_head]);
    fld "i_version" atomic64_t;
    fld "i_sequence" atomic64_t;
    fld "i_count" atomic_t;
    fld "i_dio_count" atomic_t;
    fld "i_writecount" atomic_t;
    fld "i_readcount" atomic_t;
    anon (cunion "" [
      fld "i_fop" (ptr "struct file_operations");
      fld "free_inode" (ptr "void (struct inode *)")]);
    fld "i_flctx" (ptr "struct file_lock_context");
    fld "i_data" struct_address_space;
    fld "i_devices" struct_list_head;
    anon (cunion "" [
      fld "i_pipe" (ptr "struct pipe_inode_info");
      fld "i_cdev" (ptr "struct cdev");
      fld "i_link" (ptr "char");
      fld "i_dir_seq" c_uint]);
    fld "i_generation" __u32;
    fld "i_fsnotify_mask" __u32;
    fld "i_fsnotify_marks" (ptr "struct fsnotify_mark_connector");
    fld "i_crypt_info" (ptr "struct fscrypt_info");
    fld "i_verity_info" (ptr "struct fsverity_info");
    fld "i_private" (ptr "void")].

Definition __wsum : ctype := __u32.

Definition netdevice_tracker : ctype :=
  cstruct "" [].

Definition sk_buff_data_t : ctype := c_uint.

Definition struct_sk_buff : ctype :=
  cstruct "sk_buff" [
    anon (cunion "" [
      anon (cstruct "" [
        fld "next" (ptr "struct sk_buff");
        fld "prev" (ptr "struct sk_buff");
        anon (cunion "" [
          fld "dev" (ptr "struct net_device");
          fld "dev_scratch" c_ulong])]);
      fld "rbnode" struct_rb_node;
      fld "list" struct_list_head;
      fld "ll_node" struct_llist_node]);
    fld "sk" (ptr "struct sock");
    anon (cunion "" [
      fld "tstamp" ktime_t;
      fld "skb_mstamp_ns" u64]);
    fld "cb" (array c_char 48);
    anon (cunion "" [
      anon (cstruct "" [
        fld "_skb_refdst" c_ulong;
        fld "destructor" (ptr "void (struct sk_buff *)")]);
      fld "tcp_tsorted_anchor" struct_list_head;
      fld "_sk_redir" c_ulong]);
    fld "_nfct" c_ulong;
    fld "len" c_uint;
    fld "data_len" c_uint;
    fld "mac_len" __u16;
    fld "hdr_len" __u16;
    fld "queue_mapping" __u16;
    fld "__cloned_offset" (array __u8 0);
    bit "cloned" __u8 1;
    bit "nohdr" __u8 1;
    bit "fclone" __u8 2;
    bit "peeked" __u8 1;
    bit "head_frag" __u8 1;
    bit "pfmemalloc" __u8 1;
    bit "pp_recycle" __u8 1;
    fld "active_extensions" __u8;
    anon (cunion "" [
      anon (cstruct "" [
        fld "__pkt_type_offset" (array __u8 0);
        bit "pkt_type" __u8 3;
        bit "ignore_df" __u8 1;
        bit "nf_trace" __u8 1;
        bit "ip_summed" __u8 2;
        bit "ooo_okay" __u8 1;
        bit "l4_hash" __u8 1;
        bit "sw_hash" __u8 1;
        bit "wifi_acked_valid" __u8 1;
        bit "wifi_acked" __u8 1;
        bit "no_fcs" __u8 1;
        bit "encapsulation" __u8 1;
        bit "encap_hdr_csum" __u8 1;
        bit "csum_valid" __u8 1;
        fld "__pkt_vlan_present_offset" (array __u8 0);
        bit "vlan_present" __u8 1;
        bit "csum_complete_sw" __u8 1;
        bit "csum_level" __u8 2;
        bit "dst_pending_confirm" __u8 1;
        bit "mono_delivery_time" __u8 1;
        bit "tc_skip_classify" __u8 1;
        bit "tc_at_ingress" __u8 1;
        bit "ndisc_nodetype" __u8 2;
        bit "ipvs_property" __u8 1;
        bit "inner_protocol_type" __u8 1;
        bit "remcsum_offload" __u8 1;
        bit "offload_fwd_mark" __u8 1;
        bit "offload_l3_fwd_mark" __u8 1;
        bit "redirected" __u8 1;
        bit "from_ingress" __u8 1;
        bit "nf_skip_egress" __u8 1;
        bit "decrypted" __u8 1;
        bit "slow_gro" __u8 1;
        bit "csum_not_inet" __u8 1;
        bit "scm_io_uring" __u8 1;
        fld "tc_index" __u16;
        anon (cunion "" [
          fld "csum" __wsum;
          anon (cstruct "" [
            fld "csum_start" __u16;
            fld "csum_offset" __u16])]);
        fld "priority" __u32;
        fld "skb_iif" c_int;
        fld "hash" __u32;
        fld "vlan_proto" __be16;
        fld "vlan_tci" __u16;
        anon (cunion "" [
          fld "napi_id" c_uint;
          fld "sender_cpu" c_uint]);
        fld "alloc_cpu" u16;
        fld "secmark" __u32;
        anon (cunion "" [
          fld "mark" __u32;
          fld "reserved_tailroom" __u32]);
        anon (cunion "" [
          fld "inner_protocol" __be16;
          fld "inner_ipproto" __u8]);
        fld "inner_transport_header" __u16;
        fld "inner_network_header" __u16;
        fld "inner_mac_header" __u16;
        fld "protocol" __be16;
        fld "transport_header" __u16;
        fld "network_header" __u16;
        fld "mac_header" __u16]);
      fld "headers" (cstruct "" [
        fld "__pkt_type_offset" (array __u8 0);
        bit "pkt_type" __u8 3;
        bit "ignore_df" __u8 1;
        bit "nf_trace" __u8 1;
        bit "ip_summed" __u8 2;
        bit "ooo_okay" __u8 1;
        bit "l4_hash" __u8 1;
        bit "sw_hash" __u8 1;
        bit "wifi_acked_valid" __u8 1;
        bit "wifi_acked" __u8 1;
        bit "no_fcs" __u8 1;
        bit "encapsulation" __u8 1;
        bit "encap_hdr_csum" __u8 1;
        bit "csum_valid" __u8 1;
        fld "__pkt_vlan_present_offset" (array __u8 0);
        bit "vlan_present" __u8 1;
        bit "csum_complete_sw" __u8 1;
        bit "csum_level" __u8 2;
        bit "dst_pending_confirm" __u8 1;
        bit "mono_delivery_time" __u8 1;
        bit "tc_skip_classify" __u8 1;
        bit "tc_at_ingress" __u8 1;
        bit "ndisc_nodetype" __u8 2;
        bit "ipvs_property" __u8 1;
        bit "inner_protocol_type" __u8 1;
        bit "remcsum_offload" __u8 1;
        bit "offload_fwd_mark" __u8 1;
        bit "offload_l3_fwd_mark" __u8 1;
        bit "redirected" __u8 1;
        bit "from_ingress" __u8 1;
        bit "nf_skip_egress" __u8 1;
        bit "decrypted" __u8 1;
        bit "slow_gro" __u8 1;
        bit "csum_not_inet" __u8 1;
        bit "scm_io_uring" __u8 1;
        fld "tc_index" __u16;
        anon (cunion "" [
          fld "csum" __wsum;
          anon (cstruct "" [
            fld "csum_start" __u16;
            fld "csum_offset" __u16])]);
        fld "priority" __u32;
        fld "skb_iif" c_int;
        fld "hash" __u32;
        fld "vlan_proto" __be16;
        fld "vlan_tci" __u16;
        anon (cunion "" [
          fld "napi_id" c_uint;
          fld "sender_cpu" c_uint]);
        fld "alloc_cpu" u16;
        fld "secmark" __u32;
        anon (cunion "" [
          fld "mark" __u32;
          fld "reserved_tailroom" __u32]);
        anon (cunion "" [
          fld "inner_protocol" __be16;
          fld "inner_ipproto" __u8]);
        fld "inner_transport_header" __u16;
        fld "inner_network_header" __u16;
        fld "inner_mac_header" __u16;
        fld "protocol" __be16;
        fld "transport_header" __u16;
        fld "network_header" __u16;
        fld "mac_header" __u16])]);
    fld "tail" sk_buff_data_t;
    fld "end" sk_buff_data_t;
    fld "head" (ptr "unsigned char");
    fld "data" (ptr "unsigned char");
    fld "truesize" c_uint;
    fld "users" refcount_t;
    fld "extensions" (ptr "struct skb_ext")].

Definition struct_skb_shared_hwtstamps : ctype :=
  cstruct "skb_shared_hwtstamps" [
    anon (cunion "" [
      fld "hwtstamp" ktime_t;
      fld "netdev_data" (ptr "void")])].

Definition struct_dst_entry : ctype :=
  cstruct "dst_entry" [
    fld "dev" (ptr "struct net_device");
    fld "ops" (ptr "struct dst_ops");
    fld "_metrics" c_ulong;
    fld "expires" c_ulong;
    fld "xfrm" (ptr "struct xfrm_state");
    fld "input" (ptr "int (struct sk_buff *)");
    fld "output" (ptr "int (struct net *, struct sock *, struct sk_buff *)");
    fld "flags" c_ushort;
    fld "obsolete" c_short;
    fld "header_len" c_ushort;
    fld "trailer_len" c_ushort;
    fld "__refcnt" atomic_t;
    fld "__use" c_int;
    fld "lastuse" c_ulong;
    fld "lwtstate" (ptr "struct lwtunnel_state");
    fld "callback_head" struct_callback_head;
    fld "error" c_short;
    fld "__pad" c_short;
    fld "tclassid" __u32;
    fld "dev_tracker" netdevice_tracker].

Definition slab_flags_t : ctype := c_uint.

Definition struct_msghdr : ctype :=
  cstruct "msghdr" [
    fld "msg_name" (ptr "void");
    fld "msg_namelen" c_int;
    fld "msg_inq" c_int;
    fld "msg_iter" struct_iov_iter;
    anon (cunion "" [
      fld "msg_control" (ptr "void");
      fld "msg_control_user" (ptr "void")]);
    bit "msg_control_is_user" bool_ 1;
    bit "msg_get_inq" bool_ 1;
    fld "msg_flags" c_uint;
    fld "msg_controllen" __kernel_size_t;
    fld "msg_iocb" (ptr "struct kiocb");
    fld "msg_ubuf" (ptr "struct ubuf_info");
    fld "sg_from_iter" (ptr "int (struct sock *, struct sk_buff *, struct iov_iter *, size_t)")].

Definition socket_state : ctype :=
  cenum "" [
    ("SS_FREE", 0);
    ("SS_UNCONNECTED", 1);
    ("SS_CONNECTING", 2);
    ("SS_CONNECTED", 3);
    ("SS_DISCONNECTING", 4)].

Definition struct_socket_wq : ctype :=
  cstruct "socket_wq" [
    fld "wait" wait_queue_head_t;
    fld "fasync_list" (ptr "struct fasync_struct");
    fld "flags" c_ulong;
    fld "rcu" struct_callback_head;
    pad c_long 64].

Definition struct_socket : ctype :=
  cstruct "socket" [
    fld "state" socket_state;
    fld "type" c_short;
    fld "flags" c_ulong;
    fld "file" (ptr "struct file");
    fld "sk" (ptr "struct sock");
    fld "ops" (ptr "struct proto_ops");
    pad c_long 64;
    pad c_long 64;
    pad c_long 64;
    fld "wq" struct_socket_wq].

Definition struct_proto_ops : ctype :=
  cstruct "proto_ops" [
    fld "family" c_int;
    fld "owner" (ptr "struct module");
    fld "release" (ptr "int (struct socket *)");
    fld "bind" (ptr "int (struct socket *, struct sockaddr *, int)");
    fld "connect" (ptr "int (struct socket *, struct sockaddr *, int, int)");
    fld "socketpair" (ptr "int (struct socket *, struct socket *)");
    fld "accept" (ptr "int (struct socket *, struct socket *, int, bool)");
    fld "getname" (ptr "int (struct socket *, struct sockaddr *, int)");
    fld "poll" (ptr "__poll_t (struct file *, struct socket *, struct poll_table_struct *)");
    fld "ioctl" (ptr "int (struct socket *, unsigned int, long unsigned int)");
    fld "compat_ioctl" (ptr "int (struct socket *, unsigned int, long unsigned int)");
    fld "gettstamp" (ptr "int (struct socket *, void *, bool, bool)");
    fld "listen" (ptr "int (struct socket *, int)");
    fld "shutdown" (ptr "int (struct socket *, int)");
    fld "setsockopt" (ptr "int (struct socket *, int, int, sockptr_t, unsigned int)");
    fld "getsockopt" (ptr "int (struct socket *, int, int, char *, int *)");
    fld "show_fdinfo" (ptr "void (struct seq_file *, struct socket *)");
    fld "sendmsg" (ptr "int (struct socket *, struct msghdr *, size_t)");
    fld "recvmsg" (ptr "int (struct socket *, struct msghdr *, size_t, int)");
    fld "mmap" (ptr "int (struct file *, struct socket *, struct vm_area_struct *)");
    fld "sendpage" (ptr "ssize_t (struct socket *, struct page *, int, size_t, int)");
    fld "splice_read" (ptr "ssize_t (struct socket *, loff_t *, struct pipe_inode_info *, size_t, unsigned int)");
    fld "splice_eof" (ptr "void (struct socket *)");
    fld "set_peek_off" (ptr "int (struct sock *, int)");
    fld "peek_len" (ptr "int (struct socket *)");
    fld "read_sock" (ptr "int (struct sock *, read_descriptor_t *, sk_read_actor_t)");
    fld "read_skb" (ptr "int (struct sock *, skb_read_actor_t)");
    fld "sendpage_locked" (ptr "int (struct sock *, struct page *, int, size_t, int)");
    fld "sendmsg_locked" (ptr "int (struct sock *, struct msghdr *, size_t)");
    fld "set_rcvlowat" (ptr "int (struct sock *, int)")].

Definition struct_proto : ctype :=
  cstruct "proto" [
    fld "close" (ptr "void (struct sock *, long int)");
    fld "pre_connect" (ptr "int (struct sock *, struct sockaddr *, int)");
    fld "connect" (ptr "int (struct sock *, struct sockaddr *, int)");
    fld "disconnect" (ptr "int (struct sock *, int)");
    fld "accept" (ptr "struct sock * (struct sock *, int, int *, bool)");
    fld "ioctl" (ptr "int (struct sock *, int, long unsigned int)");
    fld "init" (ptr "int (struct sock *)");
    fld "destroy" (ptr "void (struct sock *)");
    fld "shutdown" (ptr "void (struct sock *, int)");
    fld "setsockopt" (ptr "int (struct sock *, int, int, sockptr_t, unsigned int)");
    fld "getsockopt" (ptr "int (struct sock *, int, int, char *, int *)");
    fld "keepalive" (ptr "void (struct sock *, int)");
    fld "compat_ioctl" (ptr "int (struct sock *, unsigned int, long unsigned int)");
    fld "sendmsg" (ptr "int (struct sock *, struct msghdr *, size_t)");
    fld "recvmsg" (ptr "int (struct sock *, struct msghdr *, size_t, int, int *)");
    fld "sendpage" (ptr "int (struct sock *, struct page *, int, size_t, int)");
    fld "splice_eof" (ptr "void (struct socket *)");
    fld "bind" (ptr "int (struct sock *, struct sockaddr *, int)");
    fld "bind_add" (ptr "int (struct sock *, struct sockaddr *, int)");
    fld "backlog_rcv" (ptr "int (struct sock *, struct sk_buff *)");
    fld "bpf_bypass_getsockopt" (ptr "bool (int, int)");
    fld "release_cb" (ptr "void (struct sock *)");
    fld "hash" (ptr "int (struct sock *)");
    fld "unhash" (ptr "void (struct sock *)");
    fld "rehash" (ptr "void (struct sock *)");
    fld "get_port" (ptr "int (struct sock *, short unsigned int)");
    fld "put_port" (ptr "void (struct sock *)");
    fld "psock_update_sk_prot" (ptr "int (struct sock *, struct sk_psock *, bool)");
    fld "inuse_idx" c_uint;
    fld "forward_alloc_get" (ptr "int (const struct sock *)");
    fld "stream_memory_free" (ptr "bool (const struct sock *, int)");
    fld "sock_is_readable" (ptr "bool (struct sock *)");
    fld "enter_memory_pressure" (ptr "void (struct sock *)");
    fld "leave_memory_pressure" (ptr "void (struct sock *)");
    fld "memory_allocated" (ptr "atomic_long_t");
    fld "per_cpu_fw_alloc" (ptr "int");
    fld "sockets_allocated" (ptr "struct percpu_counter");
    fld "memory_pressure" (ptr "long unsigned int");
    fld "sysctl_mem" (ptr "long int");
    fld "sysctl_wmem" (ptr "int");
    fld "sysctl_rmem" (ptr "int");
    fld "sysctl_wmem_offset" u32;
    fld "sysctl_rmem_offset" u32;
    fld "max_header" c_int;
    fld "no_autobind" bool_;
    fld "slab" (ptr "struct kmem_cache");
    fld "obj_size" c_uint;
    fld "slab_flags" slab_flags_t;
    fld "useroffset" c_uint;
    fld "usersize" c_uint;
    fld "orphan_count" (ptr "unsigned int");
    fld "rsk_prot" (ptr "struct request_sock_ops");
    fld "twsk_prot" (ptr "struct timewait_sock_ops");
    fld "h" (cunion "" [
      fld "hashinfo" (ptr "struct inet_hashinfo");
      fld "udp_table" (ptr "struct udp_table");
      fld "raw_hash" (ptr "struct raw_hashinfo");
      fld "smc_hash" (ptr "struct smc_hashinfo")]);
    fld "owner" (ptr "struct module");
    fld "name" (array c_char 32);
    fld "node" struct_list_head;
    fld "diag_destroy" (ptr "int (struct sock *, int)")].

Definition skb_frag_t : ctype := struct_bio_vec.

Definition struct_skb_shared_info : ctype :=
  cstruct "skb_shared_info" [
    fld "flags" __u8;
    fld "meta_len" __u8;
    fld "nr_frags" __u8;
    fld "tx_flags" __u8;
    fld "gso_size" c_ushort;
    fld "gso_segs" c_ushort;
    fld "frag_list" (ptr "struct sk_buff");
    fld "hwtstamps" struct_skb_shared_hwtstamps;
    fld "gso_type" c_uint;
    fld "tskey" u32;
    fld "dataref" atomic_t;
    fld "xdp_frags_size" c_uint;
    fld "destructor_arg" (ptr "void");
    fld "frags" (array skb_frag_t 17)].

Definition struct_socket_alloc : ctype :=
  cstruct "socket_alloc" [
    fld "socket" struct_socket;
    fld "vfs_inode" struct_inode;
    pad c_long 64].

(** The types of this file, by name. *)
Definition vmsocket_types : list (string * ctype) := [
  ("s32", s32);
  ("__kernel_ulong_t", __kernel_ulong_t);
  ("__kernel_size_t", __kernel_size_t);
  ("size_t", size_t);
  ("struct user_pt_regs", struct_user_pt_regs);
  ("struct pt_regs", struct_pt_regs);
  ("__kernel_gid32_t", __kernel_gid32_t);
  ("__kernel_loff_t", __kernel_loff_t);
  ("__kernel_dev_t", __kernel_dev_t);
  ("dev_t", dev_t);
  ("umode_t", umode_t);
  ("gid_t", gid_t);
  ("loff_t", loff_t);
  ("blkcnt_t", blkcnt_t);
  ("struct hlist_head", struct_hlist_head);
  ("atomic_long_t", atomic_long_t);
  ("raw_spinlock_t", raw_spinlock_t);
  ("struct optimistic_spin_queue", struct_optimistic_spin_queue);
  ("time64_t", time64_t);
  ("struct timespec64", struct_timespec64);
  ("struct llist_node", struct_llist_node);
  ("struct rb_root_cached", struct_rb_root_cached);
  ("struct xarray", struct_xarray);
  ("kgid_t", kgid_t);
  ("struct rw_semaphore", struct_rw_semaphore);
  ("errseq_t", errseq_t);
  ("struct address_space", struct_address_space);
  ("struct bio_vec", struct_bio_vec);
  ("struct iov_iter", struct_iov_iter);
  ("struct inode", struct_inode);
  ("__wsum", __wsum);
  ("netdevice_tracker", netdevice_tracker);
  ("sk_buff_data_t", sk_buff_data_t);
  ("struct sk_buff", struct_sk_buff);
  ("struct skb_shared_hwtstamps", struct_skb_shared_hwtstamps);
  ("struct dst_entry", struct_dst_entry);
  ("slab_flags_t", slab_flags_t);
  ("struct msghdr", struct_msghdr);
  ("socket_state", socket_state);
  ("struct socket_wq", struct_socket_wq);
  ("struct socket", struct_socket);
  ("struct proto_ops", struct_proto_ops);
  ("struct proto", struct_proto);
  ("skb_frag_t", skb_frag_t);
  ("struct skb_shared_info", struct_skb_shared_info);
  ("struct socket_alloc", struct_socket_alloc)].
