(* ===== verification/VmTask.v ===== *)
(** * Kernel types: VmTask

    Tasks: what the pid, tgid and credentials of the current thread live in.

    Each definition translates one declaration of
    [internal/agent/ebpf/vmlinux.h], in the order of the header; pointers keep
    the pointee as written, since a layout does not depend on it. *)

From stdpp Require Import base list strings.
From S2P Require Import Prelude CLayout VmSock VmInet VmSocket.

Definition struct_cpumask : ctype :=
  cstruct "cpumask" [
    fld "bits" (array c_ulong 4)].

Definition __kernel_pid_t : ctype := c_int.

Definition __kernel_clockid_t : ctype := c_int.

Definition pid_t : ctype := __kernel_pid_t.

Definition clockid_t : ctype := __kernel_clockid_t.

Definition struct_mutex : ctype :=
  cstruct "mutex" [
    fld "owner" atomic_long_t;
    fld "wait_lock" raw_spinlock_t;
    fld "osq" struct_optimistic_spin_queue;
    fld "wait_list" struct_list_head].

Definition enum_timespec_type : ctype :=
  cenum "timespec_type" [
    ("TT_NONE", 0);
    ("TT_NATIVE", 1);
    ("TT_COMPAT", 2)].

Definition struct_restart_block : ctype :=
  cstruct "restart_block" [
    fld "arch_data" c_ulong;
    fld "fn" (ptr "long int (struct restart_block *)");
    anon (cunion "" [
      fld "futex" (cstruct "" [
        fld "uaddr" (ptr "u32");
        fld "val" u32;
        fld "flags" u32;
        fld "bitset" u32;
        fld "time" u64;
        fld "uaddr2" (ptr "u32")]);
      fld "nanosleep" (cstruct "" [
        fld "clockid" clockid_t;
        fld "type" enum_timespec_type;
        anon (cunion "" [
          fld "rmtp" (ptr "struct __kernel_timespec");
          fld "compat_rmtp" (ptr "struct old_timespec32")]);
        fld "expires" u64]);
      fld "poll" (cstruct "" [
        fld "ufds" (ptr "struct pollfd");
        fld "nfds" c_int;
        fld "has_timeout" c_int;
        fld "tv_sec" c_ulong;
        fld "tv_nsec" c_ulong])])].

Definition struct_thread_info : ctype :=
  cstruct "thread_info" [
    fld "flags" c_ulong;
    anon (cunion "" [
      fld "preempt_count" u64;
      fld "preempt" (cstruct "" [
        fld "count" u32;
        fld "need_resched" u32])]);
    fld "cpu" u32].

Definition struct___call_single_node : ctype :=
  cstruct "__call_single_node" [
    fld "llist" struct_llist_node;
    anon (cunion "" [
      fld "u_flags" c_uint;
      fld "a_flags" atomic_t]);
    fld "src" u16;
    fld "dst" u16].

Definition struct_load_weight : ctype :=
  cstruct "load_weight" [
    fld "weight" c_ulong;
    fld "inv_weight" u32].

Definition struct_util_est : ctype :=
  cstruct "util_est" [
    fld "enqueued" c_uint;
    fld "ewma" c_uint].

Definition struct_sched_avg : ctype :=
  cstruct "sched_avg" [
    fld "last_update_time" u64;
    fld "load_sum" u64;
    fld "runnable_sum" u64;
    fld "util_sum" u32;
    fld "period_contrib" u32;
    fld "load_avg" c_ulong;
    fld "runnable_avg" c_ulong;
    fld "util_avg" c_ulong;
    fld "util_est" struct_util_est].

Definition struct_sched_entity : ctype :=
  cstruct "sched_entity" [
    fld "load" struct_load_weight;
    fld "run_node" struct_rb_node;
    fld "group_node" struct_list_head;
    fld "on_rq" c_uint;
    fld "exec_start" u64;
    fld "sum_exec_runtime" u64;
    fld "vruntime" u64;
    fld "prev_sum_exec_runtime" u64;
    fld "nr_migrations" u64;
    fld "depth" c_int;
    fld "parent" (ptr "struct sched_entity");
    fld "cfs_rq" (ptr "struct cfs_rq");
    fld "my_q" (ptr "struct cfs_rq");
    fld "runnable_weight" c_ulong;
    pad c_long 64;
    pad c_long 64;
    pad c_long 64;
    pad c_long 64;
    pad c_long 64;
    pad c_long 64;
    fld "avg" struct_sched_avg].

Definition struct_sched_rt_entity : ctype :=
  cstruct "sched_rt_entity" [
    fld "run_list" struct_list_head;
    fld "timeout" c_ulong;
    fld "watchdog_stamp" c_ulong;
    fld "time_slice" c_uint;
    fld "on_rq" c_ushort;
    fld "on_list" c_ushort;
    fld "back" (ptr "struct sched_rt_entity")].

Definition struct_sched_dl_entity : ctype :=
  cstruct "sched_dl_entity" [
    fld "rb_node" struct_rb_node;
    fld "dl_runtime" u64;
    fld "dl_deadline" u64;
    fld "dl_period" u64;
    fld "dl_bw" u64;
    fld "dl_density" u64;
    fld "runtime" s64;
    fld "deadline" u64;
    fld "flags" c_uint;
    bit "dl_throttled" c_uint 1;
    bit "dl_yielded" c_uint 1;
    bit "dl_non_contending" c_uint 1;
    bit "dl_overrun" c_uint 1;
    fld "dl_timer" struct_hrtimer;
    fld "inactive_timer" struct_hrtimer;
    fld "pi_se" (ptr "struct sched_dl_entity")].

Definition struct_sched_statistics : ctype :=
  cstruct "sched_statistics" [
    fld "wait_start" u64;
    fld "wait_max" u64;
    fld "wait_count" u64;
    fld "wait_sum" u64;
    fld "iowait_count" u64;
    fld "iowait_sum" u64;
    fld "sleep_start" u64;
    fld "sleep_max" u64;
    fld "sum_sleep_runtime" s64;
    fld "block_start" u64;
    fld "block_max" u64;
    fld "sum_block_runtime" s64;
    fld "exec_max" u64;
    fld "slice_max" u64;
    fld "nr_migrations_cold" u64;
    fld "nr_failed_migrations_affine" u64;
    fld "nr_failed_migrations_running" u64;
    fld "nr_failed_migrations_hot" u64;
    fld "nr_forced_migrations" u64;
    fld "nr_wakeups" u64;
    fld "nr_wakeups_sync" u64;
    fld "nr_wakeups_migrate" u64;
    fld "nr_wakeups_local" u64;
    fld "nr_wakeups_remote" u64;
    fld "nr_wakeups_affine" u64;
    fld "nr_wakeups_affine_attempts" u64;
    fld "nr_wakeups_passive" u64;
    fld "nr_wakeups_idle" u64;
    pad c_long 64;
    pad c_long 64;
    pad c_long 64;
    pad c_long 64].

Definition cpumask_t : ctype := struct_cpumask.

Definition union_rcu_special : ctype :=
  cunion "rcu_special" [
    fld "b" (cstruct "" [
      fld "blocked" u8;
      fld "need_qs" u8;
      fld "exp_hint" u8;
      fld "need_mb" u8]);
    fld "s" u32].

Definition struct_sched_info : ctype :=
  cstruct "sched_info" [
    fld "pcount" c_ulong;
    fld "run_delay" c_ulong;
    fld "last_arrival" c_ulong;
    fld "last_queued" c_ulong].

Definition struct_plist_node : ctype :=
  cstruct "plist_node" [
    fld "prio" c_int;
    fld "prio_list" struct_list_head;
    fld "node_list" struct_list_head].

Definition struct_task_rss_stat : ctype :=
  cstruct "task_rss_stat" [
    fld "events" c_int;
    fld "count" (array c_int 4)].

Definition struct_prev_cputime : ctype :=
  cstruct "prev_cputime" [
    fld "utime" u64;
    fld "stime" u64;
    fld "lock" raw_spinlock_t].

Definition struct_seqcount : ctype :=
  cstruct "seqcount" [
    fld "sequence" c_uint].

Definition seqcount_t : ctype := struct_seqcount.

Definition enum_vtime_state : ctype :=
  cenum "vtime_state" [
    ("VTIME_INACTIVE", 0);
    ("VTIME_IDLE", 1);
    ("VTIME_SYS", 2);
    ("VTIME_USER", 3);
    ("VTIME_GUEST", 4)].

Definition struct_vtime : ctype :=
  cstruct "vtime" [
    fld "seqcount" seqcount_t;
    fld "starttime" c_ulong;
    fld "state" enum_vtime_state;
    fld "cpu" c_uint;
    fld "utime" u64;
    fld "stime" u64;
    fld "gtime" u64].

Definition struct_timerqueue_head : ctype :=
  cstruct "timerqueue_head" [
    fld "rb_root" struct_rb_root_cached].

Definition struct_posix_cputimer_base : ctype :=
  cstruct "posix_cputimer_base" [
    fld "nextevt" u64;
    fld "tqhead" struct_timerqueue_head].

Definition struct_posix_cputimers : ctype :=
  cstruct "posix_cputimers" [
    fld "bases" (array struct_posix_cputimer_base 3);
    fld "timers_active" c_uint;
    fld "expiry_active" c_uint].

Definition struct_posix_cputimers_work : ctype :=
  cstruct "posix_cputimers_work" [
    fld "work" struct_callback_head;
    fld "mutex" struct_mutex;
    fld "scheduled" c_uint].

Definition struct_sysv_sem : ctype :=
  cstruct "sysv_sem" [
    fld "undo_list" (ptr "struct sem_undo_list")].

Definition struct_sysv_shm : ctype :=
  cstruct "sysv_shm" [
    fld "shm_clist" struct_list_head].

Definition sigset_t : ctype :=
  cstruct "" [
    fld "sig" (array c_ulong 1)].

Definition struct_sigpending : ctype :=
  cstruct "sigpending" [
    fld "list" struct_list_head;
    fld "signal" sigset_t].

Definition struct_seccomp : ctype :=
  cstruct "seccomp" [
    fld "mode" c_int;
    fld "filter_count" atomic_t;
    fld "filter" (ptr "struct seccomp_filter")].

Definition struct_syscall_user_dispatch : ctype :=
  cstruct "syscall_user_dispatch" [].

Definition struct_wake_q_node : ctype :=
  cstruct "wake_q_node" [
    fld "next" (ptr "struct wake_q_node")].

Definition struct_task_io_accounting : ctype :=
  cstruct "task_io_accounting" [
    fld "rchar" u64;
    fld "wchar" u64;
    fld "syscr" u64;
    fld "syscw" u64;
    fld "read_bytes" u64;
    fld "write_bytes" u64;
    fld "cancelled_write_bytes" u64].

Definition nodemask_t : ctype :=
  cstruct "" [
    fld "bits" (array c_ulong 1)].

Definition struct_seqcount_spinlock : ctype :=
  cstruct "seqcount_spinlock" [
    fld "seqcount" seqcount_t].

Definition seqcount_spinlock_t : ctype := struct_seqcount_spinlock.

Definition struct_tlbflush_unmap_batch : ctype :=
  cstruct "tlbflush_unmap_batch" [].

Definition struct_kmap_ctrl : ctype :=
  cstruct "kmap_ctrl" [].

Definition struct_llist_head : ctype :=
  cstruct "llist_head" [
    fld "first" (ptr "struct llist_node")].

Definition struct_cpu_context : ctype :=
  cstruct "cpu_context" [
    fld "x19" c_ulong;
    fld "x20" c_ulong;
    fld "x21" c_ulong;
    fld "x22" c_ulong;
    fld "x23" c_ulong;
    fld "x24" c_ulong;
    fld "x25" c_ulong;
    fld "x26" c_ulong;
    fld "x27" c_ulong;
    fld "x28" c_ulong;
    fld "fp" c_ulong;
    fld "sp" c_ulong;
    fld "pc" c_ulong].

Definition struct_user_fpsimd_state : ctype :=
  cstruct "user_fpsimd_state" [
    fld "vregs" (array c_uint128 32);
    fld "fpsr" __u32;
    fld "fpcr" __u32;
    fld "__reserved" (array __u32 2)].

Definition enum_fp_type : ctype :=
  cenum "fp_type" [
    ("FP_STATE_CURRENT", 0);
    ("FP_STATE_FPSIMD", 1);
    ("FP_STATE_SVE", 2)].

Definition struct_debug_info : ctype :=
  cstruct "debug_info" [
    fld "suspended_step" c_int;
    fld "bps_disabled" c_int;
    fld "wps_disabled" c_int;
    fld "hbp_break" (array (ptr "struct perf_event") 16);
    fld "hbp_watch" (array (ptr "struct perf_event") 16)].

Definition struct_ptrauth_key : ctype :=
  cstruct "ptrauth_key" [
    fld "lo" c_ulong;
    fld "hi" c_ulong].

Definition struct_ptrauth_keys_user : ctype :=
  cstruct "ptrauth_keys_user" [
    fld "apia" struct_ptrauth_key;
    fld "apib" struct_ptrauth_key;
    fld "apda" struct_ptrauth_key;
    fld "apdb" struct_ptrauth_key;
    fld "apga" struct_ptrauth_key].

Definition struct_ptrauth_keys_kernel : ctype :=
  cstruct "ptrauth_keys_kernel" [
    fld "apia" struct_ptrauth_key].

Definition struct_thread_struct : ctype :=
  cstruct "thread_struct" [
    fld "cpu_context" struct_cpu_context;
    pad c_long 64;
    fld "uw" (cstruct "" [
      fld "tp_value" c_ulong;
      fld "tp2_value" c_ulong;
      fld "fpsimd_state" struct_user_fpsimd_state]);
    fld "fp_type" enum_fp_type;
    fld "fpsimd_cpu" c_uint;
    fld "sve_state" (ptr "void");
    fld "za_state" (ptr "void");
    fld "vl" (array c_uint 2);
    fld "vl_onexec" (array c_uint 2);
    fld "fault_address" c_ulong;
    fld "fault_code" c_ulong;
    fld "debug" struct_debug_info;
    fld "keys_user" struct_ptrauth_keys_user;
    fld "keys_kernel" struct_ptrauth_keys_kernel;
    fld "mte_ctrl" u64;
    fld "sctlr_user" u64;
    fld "svcr" u64;
    fld "tpidr2_el0" u64;
    pad c_long 64].

Definition struct_task_struct : ctype :=
  cstruct "task_struct" [
    fld "thread_info" struct_thread_info;
    fld "__state" c_uint;
    fld "stack" (ptr "void");
    fld "usage" refcount_t;
    fld "flags" c_uint;
    fld "ptrace" c_uint;
    fld "on_cpu" c_int;
    fld "wake_entry" struct___call_single_node;
    fld "wakee_flips" c_uint;
    fld "wakee_flip_decay_ts" c_ulong;
    fld "last_wakee" (ptr "struct task_struct");
    fld "recent_used_cpu" c_int;
    fld "wake_cpu" c_int;
    fld "on_rq" c_int;
    fld "prio" c_int;
    fld "static_prio" c_int;
    fld "normal_prio" c_int;
    fld "rt_priority" c_uint;
    fld "se" struct_sched_entity;
    fld "rt" struct_sched_rt_entity;
    fld "dl" struct_sched_dl_entity;
    fld "sched_class" (ptr "struct sched_class");
    fld "sched_task_group" (ptr "struct task_group");
    pad c_long 64;
    pad c_long 64;
    pad c_long 64;
    pad c_long 64;
    fld "stats" struct_sched_statistics;
    fld "preempt_notifiers" struct_hlist_head;
    fld "btrace_seq" c_uint;
    fld "policy" c_uint;
    fld "nr_cpus_allowed" c_int;
    fld "cpus_ptr" (ptr "cpumask_t");
    fld "user_cpus_ptr" (ptr "cpumask_t");
    fld "cpus_mask" cpumask_t;
    fld "migration_pending" (ptr "void");
    fld "migration_disabled" c_ushort;
    fld "migration_flags" c_ushort;
    fld "trc_reader_nesting" c_int;
    fld "trc_ipi_to_cpu" c_int;
    fld "trc_reader_special" union_rcu_special;
    fld "trc_holdout_list" struct_list_head;
    fld "trc_blkd_node" struct_list_head;
    fld "trc_blkd_cpu" c_int;
    fld "sched_info" struct_sched_info;
    fld "tasks" struct_list_head;
    fld "pushable_tasks" struct_plist_node;
    fld "pushable_dl_tasks" struct_rb_node;
    fld "mm" (ptr "struct mm_struct");
    fld "active_mm" (ptr "struct mm_struct");
    fld "rss_stat" struct_task_rss_stat;
    fld "exit_state" c_int;
    fld "exit_code" c_int;
    fld "exit_signal" c_int;
    fld "pdeath_signal" c_int;
    fld "jobctl" c_ulong;
    fld "personality" c_uint;
    bit "sched_reset_on_fork" c_uint 1;
    bit "sched_contributes_to_load" c_uint 1;
    bit "sched_migrated" c_uint 1;
    bit "sched_task_hot" c_uint 1;
    pad c_long 28;
    bit "sched_remote_wakeup" c_uint 1;
    bit "in_execve" c_uint 1;
    bit "in_iowait" c_uint 1;
    bit "in_user_fault" c_uint 1;
    bit "in_lru_fault" c_uint 1;
    bit "no_cgroup_migration" c_uint 1;
    bit "frozen" c_uint 1;
    bit "use_memdelay" c_uint 1;
    bit "in_memstall" c_uint 1;
    bit "in_eventfd" c_uint 1;
    bit "in_thrashing" c_uint 1;
    fld "atomic_flags" c_ulong;
    fld "restart_block" struct_restart_block;
    fld "pid" pid_t;
    fld "tgid" pid_t;
    fld "stack_canary" c_ulong;
    fld "real_parent" (ptr "struct task_struct");
    fld "parent" (ptr "struct task_struct");
    fld "children" struct_list_head;
    fld "sibling" struct_list_head;
    fld "group_leader" (ptr "struct task_struct");
    fld "ptraced" struct_list_head;
    fld "ptrace_entry" struct_list_head;
    fld "thread_pid" (ptr "struct pid");
    fld "pid_links" (array struct_hlist_node 4);
    fld "thread_group" struct_list_head;
    fld "thread_node" struct_list_head;
    fld "vfork_done" (ptr "struct completion");
    fld "set_child_tid" (ptr "int");
    fld "clear_child_tid" (ptr "int");
    fld "worker_private" (ptr "void");
    fld "utime" u64;
    fld "stime" u64;
    fld "gtime" u64;
    fld "prev_cputime" struct_prev_cputime;
    fld "vtime" struct_vtime;
    fld "tick_dep_mask" atomic_t;
    fld "nvcsw" c_ulong;
    fld "nivcsw" c_ulong;
    fld "start_time" u64;
    fld "start_boottime" u64;
    fld "min_flt" c_ulong;
    fld "maj_flt" c_ulong;
    fld "posix_cputimers" struct_posix_cputimers;
    fld "posix_cputimers_work" struct_posix_cputimers_work;
    fld "ptracer_cred" (ptr "struct cred");
    fld "real_cred" (ptr "struct cred");
    fld "cred" (ptr "struct cred");
    fld "cached_requested_key" (ptr "struct key");
    fld "comm" (array c_char 16);
    fld "nameidata" (ptr "struct nameidata");
    fld "sysvsem" struct_sysv_sem;
    fld "sysvshm" struct_sysv_shm;
    fld "last_switch_count" c_ulong;
    fld "last_switch_time" c_ulong;
    fld "fs" (ptr "struct fs_struct");
    fld "files" (ptr "struct files_struct");
    fld "io_uring" (ptr "struct io_uring_task");
    fld "nsproxy" (ptr "struct nsproxy");
    fld "signal" (ptr "struct signal_struct");
    fld "sighand" (ptr "struct sighand_struct");
    fld "blocked" sigset_t;
    fld "real_blocked" sigset_t;
    fld "saved_sigmask" sigset_t;
    fld "pending" struct_sigpending;
    fld "sas_ss_sp" c_ulong;
    fld "sas_ss_size" size_t;
    fld "sas_ss_flags" c_uint;
    fld "task_works" (ptr "struct callback_head");
    fld "audit_context" (ptr "struct audit_context");
    fld "loginuid" kuid_t;
    fld "sessionid" c_uint;
    fld "seccomp" struct_seccomp;
    fld "syscall_dispatch" struct_syscall_user_dispatch;
    fld "parent_exec_id" u64;
    fld "self_exec_id" u64;
    fld "alloc_lock" spinlock_t;
    fld "pi_lock" raw_spinlock_t;
    fld "wake_q" struct_wake_q_node;
    fld "pi_waiters" struct_rb_root_cached;
    fld "pi_top_task" (ptr "struct task_struct");
    fld "pi_blocked_on" (ptr "struct rt_mutex_waiter");
    fld "journal_info" (ptr "void");
    fld "bio_list" (ptr "struct bio_list");
    fld "plug" (ptr "struct blk_plug");
    fld "reclaim_state" (ptr "struct reclaim_state");
    fld "backing_dev_info" (ptr "struct backing_dev_info");
    fld "io_context" (ptr "struct io_context");
    fld "capture_control" (ptr "struct capture_control");
    fld "ptrace_message" c_ulong;
    fld "last_siginfo" (ptr "kernel_siginfo_t");
    fld "ioac" struct_task_io_accounting;
    fld "psi_flags" c_uint;
    fld "acct_rss_mem1" u64;
    fld "acct_vm_mem1" u64;
    fld "acct_timexpd" u64;
    fld "mems_allowed" nodemask_t;
    fld "mems_allowed_seq" seqcount_spinlock_t;
    fld "cpuset_mem_spread_rotor" c_int;
    fld "cpuset_slab_spread_rotor" c_int;
    fld "cgroups" (ptr "struct css_set");
    fld "cg_list" struct_list_head;
    fld "robust_list" (ptr "struct robust_list_head");
    fld "compat_robust_list" (ptr "struct compat_robust_list_head");
    fld "pi_state_list" struct_list_head;
    fld "pi_state_cache" (ptr "struct futex_pi_state");
    fld "futex_exit_mutex" struct_mutex;
    fld "futex_state" c_uint;
    fld "perf_event_ctxp" (array (ptr "struct perf_event_context") 2);
    fld "perf_event_mutex" struct_mutex;
    fld "perf_event_list" struct_list_head;
    fld "mempolicy" (ptr "struct mempolicy");
    fld "il_prev" c_short;
    fld "pref_node_fork" c_short;
    fld "numa_scan_seq" c_int;
    fld "numa_scan_period" c_uint;
    fld "numa_scan_period_max" c_uint;
    fld "numa_preferred_nid" c_int;
    fld "numa_migrate_retry" c_ulong;
    fld "node_stamp" u64;
    fld "last_task_numa_placement" u64;
    fld "last_sum_exec_runtime" u64;
    fld "numa_work" struct_callback_head;
    fld "numa_group" (ptr "struct numa_group");
    fld "numa_faults" (ptr "long unsigned int");
    fld "total_numa_faults" c_ulong;
    fld "numa_faults_locality" (array c_ulong 3);
    fld "numa_pages_migrated" c_ulong;
    fld "rseq" (ptr "struct rseq");
    fld "rseq_sig" u32;
    fld "rseq_event_mask" c_ulong;
    fld "tlb_ubc" struct_tlbflush_unmap_batch;
    anon (cunion "" [
      fld "rcu_users" refcount_t;
      fld "rcu" struct_callback_head]);
    fld "splice_pipe" (ptr "struct pipe_inode_info");
    fld "task_frag" struct_page_frag;
    fld "delays" (ptr "struct task_delay_info");
    fld "nr_dirtied" c_int;
    fld "nr_dirtied_pause" c_int;
    fld "dirty_paused_when" c_ulong;
    fld "timer_slack_ns" u64;
    fld "default_timer_slack_ns" u64;
    fld "curr_ret_stack" c_int;
    fld "curr_ret_depth" c_int;
    fld "ret_stack" (ptr "struct ftrace_ret_stack");
    fld "ftrace_timestamp" c_ulong;
    fld "trace_overrun" atomic_t;
    fld "tracing_graph_pause" atomic_t;
    fld "trace_recursion" c_ulong;
    fld "memcg_in_oom" (ptr "struct mem_cgroup");
    fld "memcg_oom_gfp_mask" gfp_t;
    fld "memcg_oom_order" c_int;
    fld "memcg_nr_pages_over_high" c_uint;
    fld "active_memcg" (ptr "struct mem_cgroup");
    fld "throttle_queue" (ptr "struct request_queue");
    fld "utask" (ptr "struct uprobe_task");
    fld "sequential_io" c_uint;
    fld "sequential_io_avg" c_uint;
    fld "kmap_ctrl" struct_kmap_ctrl;
    fld "pagefault_disabled" c_int;
    fld "oom_reaper_list" (ptr "struct task_struct");
    fld "oom_reaper_timer" struct_timer_list;
    fld "stack_vm_area" (ptr "struct vm_struct");
    fld "stack_refcount" refcount_t;
    fld "security" (ptr "void");
    fld "bpf_storage" (ptr "struct bpf_local_storage");
    fld "bpf_ctx" (ptr "struct bpf_run_ctx");
    fld "kretprobe_instances" struct_llist_head;
    fld "thread" struct_thread_struct;
    pad c_long 64;
    pad c_long 64;
    pad c_long 64;
    pad c_long 64;
    pad c_long 64;
    pad c_long 64].

Definition work_func_t : ctype := (ptr "void (struct work_struct *)").

Definition struct_work_struct : ctype :=
  cstruct "work_struct" [
    fld "data" atomic_long_t;
    fld "entry" struct_list_head;
    fld "func" work_func_t].

Definition seqlock_t : ctype :=
  cstruct "" [
    fld "seqcount" seqcount_spinlock_t;
    fld "lock" spinlock_t].

Definition struct_rlimit : ctype :=
  cstruct "rlimit" [
    fld "rlim_cur" __kernel_ulong_t;
    fld "rlim_max" __kernel_ulong_t].

Definition struct_mm_rss_stat : ctype :=
  cstruct "mm_rss_stat" [
    fld "count" (array atomic_long_t 4)].

Definition struct_cpu_itimer : ctype :=
  cstruct "cpu_itimer" [
    fld "expires" u64;
    fld "incr" u64].

Definition struct_task_cputime_atomic : ctype :=
  cstruct "task_cputime_atomic" [
    fld "utime" atomic64_t;
    fld "stime" atomic64_t;
    fld "sum_exec_runtime" atomic64_t].

Definition struct_thread_group_cputimer : ctype :=
  cstruct "thread_group_cputimer" [
    fld "cputime_atomic" struct_task_cputime_atomic].

Definition struct_pacct_struct : ctype :=
  cstruct "pacct_struct" [
    fld "ac_flag" c_int;
    fld "ac_exitcode" c_long;
    fld "ac_mem" c_ulong;
    fld "ac_utime" u64;
    fld "ac_stime" u64;
    fld "ac_minflt" c_ulong;
    fld "ac_majflt" c_ulong].

Definition struct_signal_struct : ctype :=
  cstruct "signal_struct" [
    fld "sigcnt" refcount_t;
    fld "live" atomic_t;
    fld "nr_threads" c_int;
    fld "quick_threads" c_int;
    fld "thread_head" struct_list_head;
    fld "wait_chldexit" wait_queue_head_t;
    fld "curr_target" (ptr "struct task_struct");
    fld "shared_pending" struct_sigpending;
    fld "multiprocess" struct_hlist_head;
    fld "group_exit_code" c_int;
    fld "notify_count" c_int;
    fld "group_exec_task" (ptr "struct task_struct");
    fld "group_stop_count" c_int;
    fld "flags" c_uint;
    fld "core_state" (ptr "struct core_state");
    bit "is_child_subreaper" c_uint 1;
    bit "has_child_subreaper" c_uint 1;
    fld "next_posix_timer_id" c_uint;
    fld "posix_timers" struct_list_head;
    fld "real_timer" struct_hrtimer;
    fld "it_real_incr" ktime_t;
    fld "it" (array struct_cpu_itimer 2);
    fld "cputimer" struct_thread_group_cputimer;
    fld "posix_cputimers" struct_posix_cputimers;
    fld "pids" (array (ptr "struct pid") 4);
    fld "tick_dep_mask" atomic_t;
    fld "tty_old_pgrp" (ptr "struct pid");
    fld "leader" c_int;
    fld "tty" (ptr "struct tty_struct");
    fld "autogroup" (ptr "struct autogroup");
    fld "stats_lock" seqlock_t;
    fld "utime" u64;
    fld "stime" u64;
    fld "cutime" u64;
    fld "cstime" u64;
    fld "gtime" u64;
    fld "cgtime" u64;
    fld "prev_cputime" struct_prev_cputime;
    fld "nvcsw" c_ulong;
    fld "nivcsw" c_ulong;
    fld "cnvcsw" c_ulong;
    fld "cnivcsw" c_ulong;
    fld "min_flt" c_ulong;
    fld "maj_flt" c_ulong;
    fld "cmin_flt" c_ulong;
    fld "cmaj_flt" c_ulong;
    fld "inblock" c_ulong;
    fld "oublock" c_ulong;
    fld "cinblock" c_ulong;
    fld "coublock" c_ulong;
    fld "maxrss" c_ulong;
    fld "cmaxrss" c_ulong;
    fld "ioac" struct_task_io_accounting;
    fld "sum_sched_runtime" c_ulong;
    fld "rlim" (array struct_rlimit 16);
    fld "pacct" struct_pacct_struct;
    fld "stats" (ptr "struct taskstats");
    fld "audit_tty" c_uint;
    fld "tty_audit_buf" (ptr "struct tty_audit_buf");
    fld "oom_flag_origin" bool_;
    fld "oom_score_adj" c_short;
    fld "oom_score_adj_min" c_short;
    fld "oom_mm" (ptr "struct mm_struct");
    fld "cred_guard_mutex" struct_mutex;
    fld "exec_update_lock" struct_rw_semaphore].

Definition lockdep_map_p : ctype :=
  cstruct "" [].

Definition struct_maple_tree : ctype :=
  cstruct "maple_tree" [
    anon (cunion "" [
      fld "ma_lock" spinlock_t;
      fld "ma_external_lock" lockdep_map_p]);
    fld "ma_root" (ptr "void");
    fld "ma_flags" c_uint].

Definition mm_context_t : ctype :=
  cstruct "" [
    fld "id" atomic64_t;
    fld "sigpage" (ptr "void");
    fld "pinned" refcount_t;
    fld "vdso" (ptr "void");
    fld "flags" c_ulong].

Definition struct_uprobes_state : ctype :=
  cstruct "uprobes_state" [
    fld "xol_area" (ptr "struct xol_area")].

Definition struct_mm_struct : ctype :=
  cstruct "mm_struct" [
    anon (cstruct "" [
      fld "mm_mt" struct_maple_tree;
      fld "get_unmapped_area" (ptr "long unsigned int (struct file *, long unsigned int, long unsigned int, long unsigned int, long unsigned int)");
      fld "mmap_base" c_ulong;
      fld "mmap_legacy_base" c_ulong;
      fld "task_size" c_ulong;
      fld "pgd" (ptr "pgd_t");
      fld "membarrier_state" atomic_t;
      fld "mm_users" atomic_t;
      fld "mm_count" atomic_t;
      fld "pgtables_bytes" atomic_long_t;
      fld "map_count" c_int;
      fld "page_table_lock" spinlock_t;
      fld "mmap_lock" struct_rw_semaphore;
      fld "mmlist" struct_list_head;
      fld "hiwater_rss" c_ulong;
      fld "hiwater_vm" c_ulong;
      fld "total_vm" c_ulong;
      fld "locked_vm" c_ulong;
      fld "pinned_vm" atomic64_t;
      fld "data_vm" c_ulong;
      fld "exec_vm" c_ulong;
      fld "stack_vm" c_ulong;
      fld "def_flags" c_ulong;
      fld "write_protect_seq" seqcount_t;
      fld "arg_lock" spinlock_t;
      fld "start_code" c_ulong;
      fld "end_code" c_ulong;
      fld "start_data" c_ulong;
      fld "end_data" c_ulong;
      fld "start_brk" c_ulong;
      fld "brk" c_ulong;
      fld "start_stack" c_ulong;
      fld "arg_start" c_ulong;
      fld "arg_end" c_ulong;
      fld "env_start" c_ulong;
      fld "env_end" c_ulong;
      fld "saved_auxv" (array c_ulong 46);
      fld "rss_stat" struct_mm_rss_stat;
      fld "binfmt" (ptr "struct linux_binfmt");
      fld "context" mm_context_t;
      fld "flags" c_ulong;
      fld "ioctx_lock" spinlock_t;
      fld "ioctx_table" (ptr "struct kioctx_table");
      fld "owner" (ptr "struct task_struct");
      fld "user_ns" (ptr "struct user_namespace");
      fld "exe_file" (ptr "struct file");
      fld "notifier_subscriptions" (ptr "struct mmu_notifier_subscriptions");
      fld "numa_next_scan" c_ulong;
      fld "numa_scan_offset" c_ulong;
      fld "numa_scan_seq" c_int;
      fld "tlb_flush_pending" atomic_t;
      fld "uprobes_state" struct_uprobes_state;
      fld "hugetlb_usage" atomic_long_t;
      fld "async_put_work" struct_work_struct;
      fld "ksm_merging_pages" c_ulong;
      fld "ksm_rmap_items" c_ulong;
      fld "lru_gen" (cstruct "" [
        fld "list" struct_list_head;
        fld "bitmap" c_ulong;
        fld "memcg" (ptr "struct mem_cgroup")])]);
    fld "cpu_bitmap" (array c_ulong 0)].

Definition struct_kernel_cap_struct : ctype :=
  cstruct "kernel_cap_struct" [
    fld "cap" (array __u32 2)].

Definition kernel_cap_t : ctype := struct_kernel_cap_struct.

Definition struct_cred : ctype :=
  cstruct "cred" [
    fld "usage" atomic_long_t;
    fld "uid" kuid_t;
    fld "gid" kgid_t;
    fld "suid" kuid_t;
    fld "sgid" kgid_t;
    fld "euid" kuid_t;
    fld "egid" kgid_t;
    fld "fsuid" kuid_t;
    fld "fsgid" kgid_t;
    fld "securebits" c_uint;
    fld "cap_inheritable" kernel_cap_t;
    fld "cap_permitted" kernel_cap_t;
    fld "cap_effective" kernel_cap_t;
    fld "cap_bset" kernel_cap_t;
    fld "cap_ambient" kernel_cap_t;
    fld "jit_keyring" c_uchar;
    fld "session_keyring" (ptr "struct key");
    fld "process_keyring" (ptr "struct key");
    fld "thread_keyring" (ptr "struct key");
    fld "request_key_auth" (ptr "struct key");
    fld "security" (ptr "void");
    fld "user" (ptr "struct user_struct");
    fld "user_ns" (ptr "struct user_namespace");
    fld "ucounts" (ptr "struct ucounts");
    fld "group_info" (ptr "struct group_info");
    anon (cunion "" [
      fld "non_rcu" c_int;
      fld "rcu" struct_callback_head])].

(** The types of this file, by name. *)
Definition vmtask_types : list (string * ctype) := [
  ("struct cpumask", struct_cpumask);
  ("__kernel_pid_t", __kernel_pid_t);
  ("__kernel_clockid_t", __kernel_clockid_t);
  ("pid_t", pid_t);
  ("clockid_t", clockid_t);
  ("struct mutex", struct_mutex);
  ("enum timespec_type", enum_timespec_type);
  ("struct restart_block", struct_restart_block);
  ("struct thread_info", struct_thread_info);
  ("struct __call_single_node", struct___call_single_node);
  ("struct load_weight", struct_load_weight);
  ("struct util_est", struct_util_est);
  ("struct sched_avg", struct_sched_avg);
  ("struct sched_entity", struct_sched_entity);
  ("struct sched_rt_entity", struct_sched_rt_entity);
  ("struct sched_dl_entity", struct_sched_dl_entity);
  ("struct sched_statistics", struct_sched_statistics);
  ("cpumask_t", cpumask_t);
  ("union rcu_special", union_rcu_special);
  ("struct sched_info", struct_sched_info);
  ("struct plist_node", struct_plist_node);
  ("struct task_rss_stat", struct_task_rss_stat);
  ("struct prev_cputime", struct_prev_cputime);
  ("struct seqcount", struct_seqcount);
  ("seqcount_t", seqcount_t);
  ("enum vtime_state", enum_vtime_state);
  ("struct vtime", struct_vtime);
  ("struct timerqueue_head", struct_timerqueue_head);
  ("struct posix_cputimer_base", struct_posix_cputimer_base);
  ("struct posix_cputimers", struct_posix_cputimers);
  ("struct posix_cputimers_work", struct_posix_cputimers_work);
  ("struct sysv_sem", struct_sysv_sem);
  ("struct sysv_shm", struct_sysv_shm);
  ("sigset_t", sigset_t);
  ("struct sigpending", struct_sigpending);
  ("struct seccomp", struct_seccomp);
  ("struct syscall_user_dispatch", struct_syscall_user_dispatch);
  ("struct wake_q_node", struct_wake_q_node);
  ("struct task_io_accounting", struct_task_io_accounting);
  ("nodemask_t", nodemask_t);
  ("struct seqcount_spinlock", struct_seqcount_spinlock);
  ("seqcount_spinlock_t", seqcount_spinlock_t);
  ("struct tlbflush_unmap_batch", struct_tlbflush_unmap_batch);
  ("struct kmap_ctrl", struct_kmap_ctrl);
  ("struct llist_head", struct_llist_head);
  ("struct cpu_context", struct_cpu_context);
  ("struct user_fpsimd_state", struct_user_fpsimd_state);
  ("enum fp_type", enum_fp_type);
  ("struct debug_info", struct_debug_info);
  ("struct ptrauth_key", struct_ptrauth_key);
  ("struct ptrauth_keys_user", struct_ptrauth_keys_user);
  ("struct ptrauth_keys_kernel", struct_ptrauth_keys_kernel);
  ("struct thread_struct", struct_thread_struct);
  ("struct task_struct", struct_task_struct);
  ("work_func_t", work_func_t);
  ("struct work_struct", struct_work_struct);
  ("seqlock_t", seqlock_t);
  ("struct rlimit", struct_rlimit);
  ("struct mm_rss_stat", struct_mm_rss_stat);
  ("struct cpu_itimer", struct_cpu_itimer);
  ("struct task_cputime_atomic", struct_task_cputime_atomic);
  ("struct thread_group_cputimer", struct_thread_group_cputimer);
  ("struct pacct_struct", struct_pacct_struct);
  ("struct signal_struct", struct_signal_struct);
  ("lockdep_map_p", lockdep_map_p);
  ("struct maple_tree", struct_maple_tree);
  ("mm_context_t", mm_context_t);
  ("struct uprobes_state", struct_uprobes_state);
  ("struct mm_struct", struct_mm_struct);
  ("struct kernel_cap_struct", struct_kernel_cap_struct);
  ("kernel_cap_t", kernel_cap_t);
  ("struct cred", struct_cred)].
