(* ===== verification/VmCgroup.v ===== *)
(** * Kernel types: VmCgroup

    Control groups: what the cgroup identifier of the current task is read from.

    Each definition translates one declaration of
    [internal/agent/ebpf/vmlinux.h], in the order of the header; pointers keep
    the pointee as written, since a layout does not depend on it. *)

From stdpp Require Import base list strings.
From S2P Require Import Prelude CLayout VmSock VmInet VmSocket VmTask.

Definition struct_percpu_ref : ctype :=
  cstruct "percpu_ref" [
    fld "percpu_count_ptr" c_ulong;
    fld "data" (ptr "struct percpu_ref_data")].

Definition struct_percpu_counter : ctype :=
  cstruct "percpu_counter" [
    fld "lock" raw_spinlock_t;
    fld "count" s64;
    fld "list" struct_list_head;
    fld "counters" (ptr "s32")].

Definition struct_cacheline_padding : ctype :=
  cstruct "cacheline_padding" [
    fld "x" (array c_char 0)].

Definition struct_rcu_work : ctype :=
  cstruct "rcu_work" [
    fld "work" struct_work_struct;
    fld "rcu" struct_callback_head;
    fld "wq" (ptr "struct workqueue_struct")].

Definition struct_task_cputime : ctype :=
  cstruct "task_cputime" [
    fld "stime" u64;
    fld "utime" u64;
    fld "sum_exec_runtime" c_ulong].

Definition struct_css_set : ctype :=
  cstruct "css_set" [
    fld "subsys" (array (ptr "struct cgroup_subsys_state") 14);
    fld "refcount" refcount_t;
    fld "dom_cset" (ptr "struct css_set");
    fld "dfl_cgrp" (ptr "struct cgroup");
    fld "nr_tasks" c_int;
    fld "tasks" struct_list_head;
    fld "mg_tasks" struct_list_head;
    fld "dying_tasks" struct_list_head;
    fld "task_iters" struct_list_head;
    fld "e_cset_node" (array struct_list_head 14);
    fld "threaded_csets" struct_list_head;
    fld "threaded_csets_node" struct_list_head;
    fld "hlist" struct_hlist_node;
    fld "cgrp_links" struct_list_head;
    fld "mg_src_preload_node" struct_list_head;
    fld "mg_dst_preload_node" struct_list_head;
    fld "mg_node" struct_list_head;
    fld "mg_src_cgrp" (ptr "struct cgroup");
    fld "mg_dst_cgrp" (ptr "struct cgroup");
    fld "mg_dst_cset" (ptr "struct css_set");
    fld "dead" bool_;
    fld "callback_head" struct_callback_head].

Definition struct_cgroup_subsys_state : ctype :=
  cstruct "cgroup_subsys_state" [
    fld "cgroup" (ptr "struct cgroup");
    fld "ss" (ptr "struct cgroup_subsys");
    fld "refcnt" struct_percpu_ref;
    fld "sibling" struct_list_head;
    fld "children" struct_list_head;
    fld "rstat_css_node" struct_list_head;
    fld "id" c_int;
    fld "flags" c_uint;
    fld "serial_nr" u64;
    fld "online_cnt" atomic_t;
    fld "destroy_work" struct_work_struct;
    fld "destroy_rwork" struct_rcu_work;
    fld "parent" (ptr "struct cgroup_subsys_state")].

Definition struct_mem_cgroup_id : ctype :=
  cstruct "mem_cgroup_id" [
    fld "id" c_int;
    fld "ref" refcount_t].

Definition struct_page_counter : ctype :=
  cstruct "page_counter" [
    fld "usage" atomic_long_t;
    pad c_long 64;
    pad c_long 64;
    pad c_long 64;
    pad c_long 64;
    pad c_long 64;
    pad c_long 64;
    pad c_long 64;
    fld "_pad1_" struct_cacheline_padding;
    fld "emin" c_ulong;
    fld "min_usage" atomic_long_t;
    fld "children_min_usage" atomic_long_t;
    fld "elow" c_ulong;
    fld "low_usage" atomic_long_t;
    fld "children_low_usage" atomic_long_t;
    fld "watermark" c_ulong;
    fld "failcnt" c_ulong;
    fld "_pad2_" struct_cacheline_padding;
    fld "min" c_ulong;
    fld "low" c_ulong;
    fld "high" c_ulong;
    fld "max" c_ulong;
    fld "parent" (ptr "struct page_counter");
    pad c_long 64;
    pad c_long 64;
    pad c_long 64].

Definition struct_vmpressure : ctype :=
  cstruct "vmpressure" [
    fld "scanned" c_ulong;
    fld "reclaimed" c_ulong;
    fld "tree_scanned" c_ulong;
    fld "tree_reclaimed" c_ulong;
    fld "sr_lock" spinlock_t;
    fld "events" struct_list_head;
    fld "events_lock" struct_mutex;
    fld "work" struct_work_struct].

Definition struct_cgroup_file : ctype :=
  cstruct "cgroup_file" [
    fld "kn" (ptr "struct kernfs_node");
    fld "notified_at" c_ulong;
    fld "notify_timer" struct_timer_list].

Definition struct_mem_cgroup_thresholds : ctype :=
  cstruct "mem_cgroup_thresholds" [
    fld "primary" (ptr "struct mem_cgroup_threshold_ary");
    fld "spare" (ptr "struct mem_cgroup_threshold_ary")].

Definition struct_fprop_global : ctype :=
  cstruct "fprop_global" [
    fld "events" struct_percpu_counter;
    fld "period" c_uint;
    fld "sequence" seqcount_t].

Definition struct_wb_domain : ctype :=
  cstruct "wb_domain" [
    fld "lock" spinlock_t;
    fld "completions" struct_fprop_global;
    fld "period_timer" struct_timer_list;
    fld "period_time" c_ulong;
    fld "dirty_limit_tstamp" c_ulong;
    fld "dirty_limit" c_ulong].

Definition struct_wb_completion : ctype :=
  cstruct "wb_completion" [
    fld "cnt" atomic_t;
    fld "waitq" (ptr "wait_queue_head_t")].

Definition struct_memcg_cgwb_frn : ctype :=
  cstruct "memcg_cgwb_frn" [
    fld "bdi_id" u64;
    fld "memcg_id" c_int;
    fld "at" u64;
    fld "done" struct_wb_completion].

Definition struct_deferred_split : ctype :=
  cstruct "deferred_split" [
    fld "split_queue_lock" spinlock_t;
    fld "split_queue" struct_list_head;
    fld "split_queue_len" c_ulong].

Definition struct_lru_gen_mm_list : ctype :=
  cstruct "lru_gen_mm_list" [
    fld "fifo" struct_list_head;
    fld "lock" spinlock_t].

Definition struct_mem_cgroup : ctype :=
  cstruct "mem_cgroup" [
    fld "css" struct_cgroup_subsys_state;
    fld "id" struct_mem_cgroup_id;
    pad c_long 64;
    pad c_long 64;
    pad c_long 64;
    pad c_long 64;
    pad c_long 64;
    pad c_long 64;
    fld "memory" struct_page_counter;
    anon (cunion "" [
      fld "swap" struct_page_counter;
      fld "memsw" struct_page_counter]);
    fld "kmem" struct_page_counter;
    fld "tcpmem" struct_page_counter;
    fld "high_work" struct_work_struct;
    fld "zswap_max" c_ulong;
    fld "soft_limit" c_ulong;
    fld "vmpressure" struct_vmpressure;
    fld "oom_group" bool_;
    fld "oom_lock" bool_;
    fld "under_oom" c_int;
    fld "swappiness" c_int;
    fld "oom_kill_disable" c_int;
    fld "events_file" struct_cgroup_file;
    fld "events_local_file" struct_cgroup_file;
    fld "swap_events_file" struct_cgroup_file;
    fld "thresholds_lock" struct_mutex;
    fld "thresholds" struct_mem_cgroup_thresholds;
    fld "memsw_thresholds" struct_mem_cgroup_thresholds;
    fld "oom_notify" struct_list_head;
    fld "move_charge_at_immigrate" c_ulong;
    fld "move_lock" spinlock_t;
    fld "move_lock_flags" c_ulong;
    pad c_long 64;
    pad c_long 64;
    pad c_long 64;
    pad c_long 64;
    pad c_long 64;
    pad c_long 64;
    pad c_long 64;
    fld "_pad1_" struct_cacheline_padding;
    fld "vmstats" (ptr "struct memcg_vmstats");
    fld "memory_events" (array atomic_long_t 9);
    fld "memory_events_local" (array atomic_long_t 9);
    fld "socket_pressure" c_ulong;
    fld "tcpmem_active" bool_;
    fld "tcpmem_pressure" c_int;
    fld "kmemcg_id" c_int;
    fld "objcg" (ptr "struct obj_cgroup");
    fld "objcg_list" struct_list_head;
    pad c_long 64;
    pad c_long 64;
    pad c_long 64;
    pad c_long 64;
    pad c_long 64;
    pad c_long 64;
    pad c_long 64;
    fld "_pad2_" struct_cacheline_padding;
    fld "moving_account" atomic_t;
    fld "move_lock_task" (ptr "struct task_struct");
    fld "vmstats_percpu" (ptr "struct memcg_vmstats_percpu");
    fld "cgwb_list" struct_list_head;
    fld "cgwb_domain" struct_wb_domain;
    fld "cgwb_frn" (array struct_memcg_cgwb_frn 4);
    fld "event_list" struct_list_head;
    fld "event_list_lock" spinlock_t;
    fld "deferred_split_queue" struct_deferred_split;
    fld "mm_list" struct_lru_gen_mm_list;
    fld "nodeinfo" (array (ptr "struct mem_cgroup_per_node") 0);
    pad c_long 64;
    pad c_long 64;
    pad c_long 64;
    pad c_long 64;
    pad c_long 64;
    pad c_long 64].

Definition struct_cgroup_base_stat : ctype :=
  cstruct "cgroup_base_stat" [
    fld "cputime" struct_task_cputime].

Definition struct_cgroup_bpf : ctype :=
  cstruct "cgroup_bpf" [
    fld "effective" (array (ptr "struct bpf_prog_array") 33);
    fld "progs" (array struct_hlist_head 33);
    fld "flags" (array u8 33);
    fld "storages" struct_list_head;
    fld "inactive" (ptr "struct bpf_prog_array");
    fld "refcnt" struct_percpu_ref;
    fld "release_work" struct_work_struct].

Definition struct_cgroup_freezer_state : ctype :=
  cstruct "cgroup_freezer_state" [
    fld "freeze" bool_;
    fld "e_freeze" c_int;
    fld "nr_frozen_descendants" c_int;
    fld "nr_frozen_tasks" c_int].

Definition struct_cgroup : ctype :=
  cstruct "cgroup" [
    fld "self" struct_cgroup_subsys_state;
    fld "flags" c_ulong;
    fld "level" c_int;
    fld "max_depth" c_int;
    fld "nr_descendants" c_int;
    fld "nr_dying_descendants" c_int;
    fld "max_descendants" c_int;
    fld "nr_populated_csets" c_int;
    fld "nr_populated_domain_children" c_int;
    fld "nr_populated_threaded_children" c_int;
    fld "nr_threaded_children" c_int;
    fld "kill_seq" c_uint;
    fld "kn" (ptr "struct kernfs_node");
    fld "procs_file" struct_cgroup_file;
    fld "events_file" struct_cgroup_file;
    fld "psi_files" (array struct_cgroup_file 3);
    fld "subtree_control" u16;
    fld "subtree_ss_mask" u16;
    fld "old_subtree_control" u16;
    fld "old_subtree_ss_mask" u16;
    fld "subsys" (array (ptr "struct cgroup_subsys_state") 14);
    fld "root" (ptr "struct cgroup_root");
    fld "cset_links" struct_list_head;
    fld "e_csets" (array struct_list_head 14);
    fld "dom_cgrp" (ptr "struct cgroup");
    fld "old_dom_cgrp" (ptr "struct cgroup");
    fld "rstat_cpu" (ptr "struct cgroup_rstat_cpu");
    fld "rstat_css_list" struct_list_head;
    fld "last_bstat" struct_cgroup_base_stat;
    fld "bstat" struct_cgroup_base_stat;
    fld "prev_cputime" struct_prev_cputime;
    fld "pidlists" struct_list_head;
    fld "pidlist_mutex" struct_mutex;
    fld "offline_waitq" wait_queue_head_t;
    fld "release_agent_work" struct_work_struct;
    fld "psi" (ptr "struct psi_group");
    fld "bpf" struct_cgroup_bpf;
    fld "congestion_count" atomic_t;
    fld "freezer" struct_cgroup_freezer_state;
    fld "ancestors" (array (ptr "struct cgroup") 0)].

Definition struct_cgroup_root : ctype :=
  cstruct "cgroup_root" [
    fld "kf_root" (ptr "struct kernfs_root");
    fld "subsys_mask" c_uint;
    fld "hierarchy_id" c_int;
    fld "root_list" struct_list_head;
    fld "rcu" struct_callback_head;
    fld "cgrp" struct_cgroup;
    fld "cgrp_ancestor_storage" (ptr "struct cgroup");
    fld "nr_cgrps" atomic_t;
    fld "flags" c_uint;
    fld "release_agent_path" (array c_char 4096);
    fld "name" (array c_char 64)].

(** The types of this file, by name. *)
Definition vmcgroup_types : list (string * ctype) := [
  ("struct percpu_ref", struct_percpu_ref);
  ("struct percpu_counter", struct_percpu_counter);
  ("struct cacheline_padding", struct_cacheline_padding);
  ("struct rcu_work", struct_rcu_work);
  ("struct task_cputime", struct_task_cputime);
  ("struct css_set", struct_css_set);
  ("struct cgroup_subsys_state", struct_cgroup_subsys_state);
  ("struct mem_cgroup_id", struct_mem_cgroup_id);
  ("struct page_counter", struct_page_counter);
  ("struct vmpressure", struct_vmpressure);
  ("struct cgroup_file", struct_cgroup_file);
  ("struct mem_cgroup_thresholds", struct_mem_cgroup_thresholds);
  ("struct fprop_global", struct_fprop_global);
  ("struct wb_domain", struct_wb_domain);
  ("struct wb_completion", struct_wb_completion);
  ("struct memcg_cgwb_frn", struct_memcg_cgwb_frn);
  ("struct deferred_split", struct_deferred_split);
  ("struct lru_gen_mm_list", struct_lru_gen_mm_list);
  ("struct mem_cgroup", struct_mem_cgroup);
  ("struct cgroup_base_stat", struct_cgroup_base_stat);
  ("struct cgroup_bpf", struct_cgroup_bpf);
  ("struct cgroup_freezer_state", struct_cgroup_freezer_state);
  ("struct cgroup", struct_cgroup);
  ("struct cgroup_root", struct_cgroup_root)].
