(* ===== verification/VmBpf.v ===== *)
(** * Kernel types: VmBpf

    The BPF runtime: hash and LRU maps, the ring buffer, programs and kernel probes, with the enumerations that number maps, programs and helpers.

    Each definition translates one declaration of
    [internal/agent/ebpf/vmlinux.h], in the order of the header; pointers keep
    the pointee as written, since a layout does not depend on it. *)

From stdpp Require Import base list strings.
From S2P Require Import Prelude CLayout VmSock VmInet VmSocket VmTask VmCgroup.

Definition struct_lock_class_key : ctype :=
  cstruct "lock_class_key" [].

Definition struct_latch_tree_node : ctype :=
  cstruct "latch_tree_node" [
    fld "node" (array struct_rb_node 2)].

Definition struct_arch_probe_insn : ctype :=
  cstruct "arch_probe_insn" [
    fld "insn" (ptr "probe_opcode_t");
    fld "pstate_cc" (ptr "pstate_check_t");
    fld "handler" (ptr "probes_handler_t");
    fld "restore" c_ulong].

Definition struct_rcuwait : ctype :=
  cstruct "rcuwait" [
    fld "task" (ptr "struct task_struct")].

Definition struct_irq_work : ctype :=
  cstruct "irq_work" [
    fld "node" struct___call_single_node;
    fld "func" (ptr "void (struct irq_work *)");
    fld "irqwait" struct_rcuwait].

Definition struct_bpf_insn : ctype :=
  cstruct "bpf_insn" [
    fld "code" __u8;
    bit "dst_reg" __u8 4;
    bit "src_reg" __u8 4;
    fld "off" __s16;
    fld "imm" __s32].

Definition enum_bpf_map_type : ctype :=
  cenum "bpf_map_type" [
    ("BPF_MAP_TYPE_UNSPEC", 0);
    ("BPF_MAP_TYPE_HASH", 1);
    ("BPF_MAP_TYPE_ARRAY", 2);
    ("BPF_MAP_TYPE_PROG_ARRAY", 3);
    ("BPF_MAP_TYPE_PERF_EVENT_ARRAY", 4);
    ("BPF_MAP_TYPE_PERCPU_HASH", 5);
    ("BPF_MAP_TYPE_PERCPU_ARRAY", 6);
    ("BPF_MAP_TYPE_STACK_TRACE", 7);
    ("BPF_MAP_TYPE_CGROUP_ARRAY", 8);
    ("BPF_MAP_TYPE_LRU_HASH", 9);
    ("BPF_MAP_TYPE_LRU_PERCPU_HASH", 10);
    ("BPF_MAP_TYPE_LPM_TRIE", 11);
    ("BPF_MAP_TYPE_ARRAY_OF_MAPS", 12);
    ("BPF_MAP_TYPE_HASH_OF_MAPS", 13);
    ("BPF_MAP_TYPE_DEVMAP", 14);
    ("BPF_MAP_TYPE_SOCKMAP", 15);
    ("BPF_MAP_TYPE_CPUMAP", 16);
    ("BPF_MAP_TYPE_XSKMAP", 17);
    ("BPF_MAP_TYPE_SOCKHASH", 18);
    ("BPF_MAP_TYPE_CGROUP_STORAGE", 19);
    ("BPF_MAP_TYPE_REUSEPORT_SOCKARRAY", 20);
    ("BPF_MAP_TYPE_PERCPU_CGROUP_STORAGE", 21);
    ("BPF_MAP_TYPE_QUEUE", 22);
    ("BPF_MAP_TYPE_STACK", 23);
    ("BPF_MAP_TYPE_SK_STORAGE", 24);
    ("BPF_MAP_TYPE_DEVMAP_HASH", 25);
    ("BPF_MAP_TYPE_STRUCT_OPS", 26);
    ("BPF_MAP_TYPE_RINGBUF", 27);
    ("BPF_MAP_TYPE_INODE_STORAGE", 28);
    ("BPF_MAP_TYPE_TASK_STORAGE", 29);
    ("BPF_MAP_TYPE_BLOOM_FILTER", 30);
    ("BPF_MAP_TYPE_USER_RINGBUF", 31)].

Definition enum_bpf_prog_type : ctype :=
  cenum "bpf_prog_type" [
    ("BPF_PROG_TYPE_UNSPEC", 0);
    ("BPF_PROG_TYPE_SOCKET_FILTER", 1);
    ("BPF_PROG_TYPE_KPROBE", 2);
    ("BPF_PROG_TYPE_SCHED_CLS", 3);
    ("BPF_PROG_TYPE_SCHED_ACT", 4);
    ("BPF_PROG_TYPE_TRACEPOINT", 5);
    ("BPF_PROG_TYPE_XDP", 6);
    ("BPF_PROG_TYPE_PERF_EVENT", 7);
    ("BPF_PROG_TYPE_CGROUP_SKB", 8);
    ("BPF_PROG_TYPE_CGROUP_SOCK", 9);
    ("BPF_PROG_TYPE_LWT_IN", 10);
    ("BPF_PROG_TYPE_LWT_OUT", 11);
    ("BPF_PROG_TYPE_LWT_XMIT", 12);
    ("BPF_PROG_TYPE_SOCK_OPS", 13);
    ("BPF_PROG_TYPE_SK_SKB", 14);
    ("BPF_PROG_TYPE_CGROUP_DEVICE", 15);
    ("BPF_PROG_TYPE_SK_MSG", 16);
    ("BPF_PROG_TYPE_RAW_TRACEPOINT", 17);
    ("BPF_PROG_TYPE_CGROUP_SOCK_ADDR", 18);
    ("BPF_PROG_TYPE_LWT_SEG6LOCAL", 19);
    ("BPF_PROG_TYPE_LIRC_MODE2", 20);
    ("BPF_PROG_TYPE_SK_REUSEPORT", 21);
    ("BPF_PROG_TYPE_FLOW_DISSECTOR", 22);
    ("BPF_PROG_TYPE_CGROUP_SYSCTL", 23);
    ("BPF_PROG_TYPE_RAW_TRACEPOINT_WRITABLE", 24);
    ("BPF_PROG_TYPE_CGROUP_SOCKOPT", 25);
    ("BPF_PROG_TYPE_TRACING", 26);
    ("BPF_PROG_TYPE_STRUCT_OPS", 27);
    ("BPF_PROG_TYPE_EXT", 28);
    ("BPF_PROG_TYPE_LSM", 29);
    ("BPF_PROG_TYPE_SK_LOOKUP", 30);
    ("BPF_PROG_TYPE_SYSCALL", 31)].

Definition enum_bpf_attach_type : ctype :=
  cenum "bpf_attach_type" [
    ("BPF_CGROUP_INET_INGRESS", 0);
    ("BPF_CGROUP_INET_EGRESS", 1);
    ("BPF_CGROUP_INET_SOCK_CREATE", 2);
    ("BPF_CGROUP_SOCK_OPS", 3);
    ("BPF_SK_SKB_STREAM_PARSER", 4);
    ("BPF_SK_SKB_STREAM_VERDICT", 5);
    ("BPF_CGROUP_DEVICE", 6);
    ("BPF_SK_MSG_VERDICT", 7);
    ("BPF_CGROUP_INET4_BIND", 8);
    ("BPF_CGROUP_INET6_BIND", 9);
    ("BPF_CGROUP_INET4_CONNECT", 10);
    ("BPF_CGROUP_INET6_CONNECT", 11);
    ("BPF_CGROUP_INET4_POST_BIND", 12);
    ("BPF_CGROUP_INET6_POST_BIND", 13);
    ("BPF_CGROUP_UDP4_SENDMSG", 14);
    ("BPF_CGROUP_UDP6_SENDMSG", 15);
    ("BPF_LIRC_MODE2", 16);
    ("BPF_FLOW_DISSECTOR", 17);
    ("BPF_CGROUP_SYSCTL", 18);
    ("BPF_CGROUP_UDP4_RECVMSG", 19);
    ("BPF_CGROUP_UDP6_RECVMSG", 20);
    ("BPF_CGROUP_GETSOCKOPT", 21);
    ("BPF_CGROUP_SETSOCKOPT", 22);
    ("BPF_TRACE_RAW_TP", 23);
    ("BPF_TRACE_FENTRY", 24);
    ("BPF_TRACE_FEXIT", 25);
    ("BPF_MODIFY_RETURN", 26);
    ("BPF_LSM_MAC", 27);
    ("BPF_TRACE_ITER", 28);
    ("BPF_CGROUP_INET4_GETPEERNAME", 29);
    ("BPF_CGROUP_INET6_GETPEERNAME", 30);
    ("BPF_CGROUP_INET4_GETSOCKNAME", 31);
    ("BPF_CGROUP_INET6_GETSOCKNAME", 32);
    ("BPF_XDP_DEVMAP", 33);
    ("BPF_CGROUP_INET_SOCK_RELEASE", 34);
    ("BPF_XDP_CPUMAP", 35);
    ("BPF_SK_LOOKUP", 36);
    ("BPF_XDP", 37);
    ("BPF_SK_SKB_VERDICT", 38);
    ("BPF_SK_REUSEPORT_SELECT", 39);
    ("BPF_SK_REUSEPORT_SELECT_OR_MIGRATE", 40);
    ("BPF_PERF_EVENT", 41);
    ("BPF_TRACE_KPROBE_MULTI", 42);
    ("BPF_LSM_CGROUP", 43);
    ("__MAX_BPF_ATTACH_TYPE", 44)].

Definition struct_sock_filter : ctype :=
  cstruct "sock_filter" [
    fld "code" __u16;
    fld "jt" __u8;
    fld "jf" __u8;
    fld "k" __u32].

Definition struct_bpf_map : ctype :=
  cstruct "bpf_map" [
    fld "ops" (ptr "struct bpf_map_ops");
    fld "inner_map_meta" (ptr "struct bpf_map");
    fld "security" (ptr "void");
    fld "map_type" enum_bpf_map_type;
    fld "key_size" u32;
    fld "value_size" u32;
    fld "max_entries" u32;
    fld "map_extra" u64;
    fld "map_flags" u32;
    fld "spin_lock_off" c_int;
    fld "kptr_off_tab" (ptr "struct bpf_map_value_off");
    fld "timer_off" c_int;
    fld "id" u32;
    fld "numa_node" c_int;
    fld "btf_key_type_id" u32;
    fld "btf_value_type_id" u32;
    fld "btf_vmlinux_value_type_id" u32;
    fld "btf" (ptr "struct btf");
    fld "objcg" (ptr "struct obj_cgroup");
    fld "name" (array c_char 16);
    fld "off_arr" (ptr "struct bpf_map_off_arr");
    fld "refcnt" atomic64_t;
    fld "usercnt" atomic64_t;
    anon (cunion "" [
      fld "work" struct_work_struct;
      fld "rcu" struct_callback_head]);
    fld "freeze_mutex" struct_mutex;
    fld "writecnt" atomic64_t;
    fld "owner_lock" spinlock_t;
    fld "owner" (ptr "struct bpf_map_owner");
    fld "bypass_spec_v1" bool_;
    fld "frozen" bool_;
    fld "free_after_mult_rcu_gp" bool_;
    fld "elem_count" (ptr "s64");
    fld "cookie" u64].

Definition struct_bpf_ksym : ctype :=
  cstruct "bpf_ksym" [
    fld "start" c_ulong;
    fld "end" c_ulong;
    fld "name" (array c_char 512);
    fld "lnode" struct_list_head;
    fld "tnode" struct_latch_tree_node;
    fld "prog" bool_].

Definition struct_bpf_prog_aux : ctype :=
  cstruct "bpf_prog_aux" [
    fld "refcnt" atomic64_t;
    fld "used_map_cnt" u32;
    fld "used_btf_cnt" u32;
    fld "max_ctx_offset" u32;
    fld "max_pkt_offset" u32;
    fld "max_tp_access" u32;
    fld "stack_depth" u32;
    fld "id" u32;
    fld "func_cnt" u32;
    fld "func_idx" u32;
    fld "attach_btf_id" u32;
    fld "ctx_arg_info_size" u32;
    fld "max_rdonly_access" u32;
    fld "max_rdwr_access" u32;
    fld "attach_btf" (ptr "struct btf");
    fld "ctx_arg_info" (ptr "struct bpf_ctx_arg_aux");
    fld "dst_mutex" struct_mutex;
    fld "dst_prog" (ptr "struct bpf_prog");
    fld "dst_trampoline" (ptr "struct bpf_trampoline");
    fld "saved_dst_prog_type" enum_bpf_prog_type;
    fld "saved_dst_attach_type" enum_bpf_attach_type;
    fld "verifier_zext" bool_;
    fld "offload_requested" bool_;
    fld "attach_btf_trace" bool_;
    fld "func_proto_unreliable" bool_;
    fld "sleepable" bool_;
    fld "tail_call_reachable" bool_;
    fld "xdp_has_frags" bool_;
    fld "attach_func_proto" (ptr "struct btf_type");
    fld "attach_func_name" (ptr "char");
    fld "func" (ptr "struct bpf_prog *");
    fld "jit_data" (ptr "void");
    fld "poke_tab" (ptr "struct bpf_jit_poke_descriptor");
    fld "kfunc_tab" (ptr "struct bpf_kfunc_desc_tab");
    fld "kfunc_btf_tab" (ptr "struct bpf_kfunc_btf_tab");
    fld "size_poke_tab" u32;
    fld "ksym" struct_bpf_ksym;
    fld "ops" (ptr "struct bpf_prog_ops");
    fld "used_maps" (ptr "struct bpf_map *");
    fld "used_maps_mutex" struct_mutex;
    fld "used_btfs" (ptr "struct btf_mod_pair");
    fld "prog" (ptr "struct bpf_prog");
    fld "user" (ptr "struct user_struct");
    fld "load_time" u64;
    fld "verified_insns" u32;
    fld "cgroup_atype" c_int;
    fld "cgroup_storage" (array (ptr "struct bpf_map") 2);
    fld "name" (array c_char 16);
    fld "security" (ptr "void");
    fld "offload" (ptr "struct bpf_prog_offload");
    fld "btf" (ptr "struct btf");
    fld "func_info" (ptr "struct bpf_func_info");
    fld "func_info_aux" (ptr "struct bpf_func_info_aux");
    fld "linfo" (ptr "struct bpf_line_info");
    fld "jited_linfo" (ptr "void *");
    fld "func_info_cnt" u32;
    fld "nr_linfo" u32;
    fld "linfo_idx" u32;
    fld "num_exentries" u32;
    fld "extable" (ptr "struct exception_table_entry");
    anon (cunion "" [
      fld "work" struct_work_struct;
      fld "rcu" struct_callback_head])].

Definition struct_bpf_prog : ctype :=
  cstruct "bpf_prog" [
    fld "pages" u16;
    bit "jited" u16 1;
    bit "jit_requested" u16 1;
    bit "gpl_compatible" u16 1;
    bit "cb_access" u16 1;
    bit "dst_needed" u16 1;
    bit "blinding_requested" u16 1;
    bit "blinded" u16 1;
    bit "is_func" u16 1;
    bit "kprobe_override" u16 1;
    bit "has_callchain_buf" u16 1;
    bit "enforce_expected_attach_type" u16 1;
    bit "call_get_stack" u16 1;
    bit "call_get_func_ip" u16 1;
    bit "tstamp_type_access" u16 1;
    fld "type" enum_bpf_prog_type;
    fld "expected_attach_type" enum_bpf_attach_type;
    fld "len" u32;
    fld "jited_len" u32;
    fld "tag" (array u8 8);
    fld "stats" (ptr "struct bpf_prog_stats");
    fld "active" (ptr "int");
    fld "bpf_func" (ptr "unsigned int (const void *, const struct bpf_insn *)");
    fld "aux" (ptr "struct bpf_prog_aux");
    fld "orig_prog" (ptr "struct sock_fprog_kern");
    anon (cunion "" [
      anon (cstruct "" [
        fld "__empty_insns" (cstruct "" []);
        fld "insns" (array struct_sock_filter 0)]);
      anon (cstruct "" [
        fld "__empty_insnsi" (cstruct "" []);
        fld "insnsi" (array struct_bpf_insn 0)])])].

Definition enum_bpf_map_update_flags : ctype :=
  cenum "" [
    ("BPF_ANY", 0);
    ("BPF_NOEXIST", 1);
    ("BPF_EXIST", 2);
    ("BPF_F_LOCK", 4)].

Definition enum_bpf_func_id : ctype :=
  cenum "bpf_func_id" [
    ("BPF_FUNC_unspec", 0);
    ("BPF_FUNC_map_lookup_elem", 1);
    ("BPF_FUNC_map_update_elem", 2);
    ("BPF_FUNC_map_delete_elem", 3);
    ("BPF_FUNC_probe_read", 4);
    ("BPF_FUNC_ktime_get_ns", 5);
    ("BPF_FUNC_trace_printk", 6);
    ("BPF_FUNC_get_prandom_u32", 7);
    ("BPF_FUNC_get_smp_processor_id", 8);
    ("BPF_FUNC_skb_store_bytes", 9);
    ("BPF_FUNC_l3_csum_replace", 10);
    ("BPF_FUNC_l4_csum_replace", 11);
    ("BPF_FUNC_tail_call", 12);
    ("BPF_FUNC_clone_redirect", 13);
    ("BPF_FUNC_get_current_pid_tgid", 14);
    ("BPF_FUNC_get_current_uid_gid", 15);
    ("BPF_FUNC_get_current_comm", 16);
    ("BPF_FUNC_get_cgroup_classid", 17);
    ("BPF_FUNC_skb_vlan_push", 18);
    ("BPF_FUNC_skb_vlan_pop", 19);
    ("BPF_FUNC_skb_get_tunnel_key", 20);
    ("BPF_FUNC_skb_set_tunnel_key", 21);
    ("BPF_FUNC_perf_event_read", 22);
    ("BPF_FUNC_redirect", 23);
    ("BPF_FUNC_get_route_realm", 24);
    ("BPF_FUNC_perf_event_output", 25);
    ("BPF_FUNC_skb_load_bytes", 26);
    ("BPF_FUNC_get_stackid", 27);
    ("BPF_FUNC_csum_diff", 28);
    ("BPF_FUNC_skb_get_tunnel_opt", 29);
    ("BPF_FUNC_skb_set_tunnel_opt", 30);
    ("BPF_FUNC_skb_change_proto", 31);
    ("BPF_FUNC_skb_change_type", 32);
    ("BPF_FUNC_skb_under_cgroup", 33);
    ("BPF_FUNC_get_hash_recalc", 34);
    ("BPF_FUNC_get_current_task", 35);
    ("BPF_FUNC_probe_write_user", 36);
    ("BPF_FUNC_current_task_under_cgroup", 37);
    ("BPF_FUNC_skb_change_tail", 38);
    ("BPF_FUNC_skb_pull_data", 39);
    ("BPF_FUNC_csum_update", 40);
    ("BPF_FUNC_set_hash_invalid", 41);
    ("BPF_FUNC_get_numa_node_id", 42);
    ("BPF_FUNC_skb_change_head", 43);
    ("BPF_FUNC_xdp_adjust_head", 44);
    ("BPF_FUNC_probe_read_str", 45);
    ("BPF_FUNC_get_socket_cookie", 46);
    ("BPF_FUNC_get_socket_uid", 47);
    ("BPF_FUNC_set_hash", 48);
    ("BPF_FUNC_setsockopt", 49);
    ("BPF_FUNC_skb_adjust_room", 50);
    ("BPF_FUNC_redirect_map", 51);
    ("BPF_FUNC_sk_redirect_map", 52);
    ("BPF_FUNC_sock_map_update", 53);
    ("BPF_FUNC_xdp_adjust_meta", 54);
    ("BPF_FUNC_perf_event_read_value", 55);
    ("BPF_FUNC_perf_prog_read_value", 56);
    ("BPF_FUNC_getsockopt", 57);
    ("BPF_FUNC_override_return", 58);
    ("BPF_FUNC_sock_ops_cb_flags_set", 59);
    ("BPF_FUNC_msg_redirect_map", 60);
    ("BPF_FUNC_msg_apply_bytes", 61);
    ("BPF_FUNC_msg_cork_bytes", 62);
    ("BPF_FUNC_msg_pull_data", 63);
    ("BPF_FUNC_bind", 64);
    ("BPF_FUNC_xdp_adjust_tail", 65);
    ("BPF_FUNC_skb_get_xfrm_state", 66);
    ("BPF_FUNC_get_stack", 67);
    ("BPF_FUNC_skb_load_bytes_relative", 68);
    ("BPF_FUNC_fib_lookup", 69);
    ("BPF_FUNC_sock_hash_update", 70);
    ("BPF_FUNC_msg_redirect_hash", 71);
    ("BPF_FUNC_sk_redirect_hash", 72);
    ("BPF_FUNC_lwt_push_encap", 73);
    ("BPF_FUNC_lwt_seg6_store_bytes", 74);
    ("BPF_FUNC_lwt_seg6_adjust_srh", 75);
    ("BPF_FUNC_lwt_seg6_action", 76);
    ("BPF_FUNC_rc_repeat", 77);
    ("BPF_FUNC_rc_keydown", 78);
    ("BPF_FUNC_skb_cgroup_id", 79);
    ("BPF_FUNC_get_current_cgroup_id", 80);
    ("BPF_FUNC_get_local_storage", 81);
    ("BPF_FUNC_sk_select_reuseport", 82);
    ("BPF_FUNC_skb_ancestor_cgroup_id", 83);
    ("BPF_FUNC_sk_lookup_tcp", 84);
    ("BPF_FUNC_sk_lookup_udp", 85);
    ("BPF_FUNC_sk_release", 86);
    ("BPF_FUNC_map_push_elem", 87);
    ("BPF_FUNC_map_pop_elem", 88);
    ("BPF_FUNC_map_peek_elem", 89);
    ("BPF_FUNC_msg_push_data", 90);
    ("BPF_FUNC_msg_pop_data", 91);
    ("BPF_FUNC_rc_pointer_rel", 92);
    ("BPF_FUNC_spin_lock", 93);
    ("BPF_FUNC_spin_unlock", 94);
    ("BPF_FUNC_sk_fullsock", 95);
    ("BPF_FUNC_tcp_sock", 96);
    ("BPF_FUNC_skb_ecn_set_ce", 97);
    ("BPF_FUNC_get_listener_sock", 98);
    ("BPF_FUNC_skc_lookup_tcp", 99);
    ("BPF_FUNC_tcp_check_syncookie", 100);
    ("BPF_FUNC_sysctl_get_name", 101);
    ("BPF_FUNC_sysctl_get_current_value", 102);
    ("BPF_FUNC_sysctl_get_new_value", 103);
    ("BPF_FUNC_sysctl_set_new_value", 104);
    ("BPF_FUNC_strtol", 105);
    ("BPF_FUNC_strtoul", 106);
    ("BPF_FUNC_sk_storage_get", 107);
    ("BPF_FUNC_sk_storage_delete", 108);
    ("BPF_FUNC_send_signal", 109);
    ("BPF_FUNC_tcp_gen_syncookie", 110);
    ("BPF_FUNC_skb_output", 111);
    ("BPF_FUNC_probe_read_user", 112);
    ("BPF_FUNC_probe_read_kernel", 113);
    ("BPF_FUNC_probe_read_user_str", 114);
    ("BPF_FUNC_probe_read_kernel_str", 115);
    ("BPF_FUNC_tcp_send_ack", 116);
    ("BPF_FUNC_send_signal_thread", 117);
    ("BPF_FUNC_jiffies64", 118);
    ("BPF_FUNC_read_branch_records", 119);
    ("BPF_FUNC_get_ns_current_pid_tgid", 120);
    ("BPF_FUNC_xdp_output", 121);
    ("BPF_FUNC_get_netns_cookie", 122);
    ("BPF_FUNC_get_current_ancestor_cgroup_id", 123);
    ("BPF_FUNC_sk_assign", 124);
    ("BPF_FUNC_ktime_get_boot_ns", 125);
    ("BPF_FUNC_seq_printf", 126);
    ("BPF_FUNC_seq_write", 127);
    ("BPF_FUNC_sk_cgroup_id", 128);
    ("BPF_FUNC_sk_ancestor_cgroup_id", 129);
    ("BPF_FUNC_ringbuf_output", 130);
    ("BPF_FUNC_ringbuf_reserve", 131);
    ("BPF_FUNC_ringbuf_submit", 132);
    ("BPF_FUNC_ringbuf_discard", 133);
    ("BPF_FUNC_ringbuf_query", 134);
    ("BPF_FUNC_csum_level", 135);
    ("BPF_FUNC_skc_to_tcp6_sock", 136);
    ("BPF_FUNC_skc_to_tcp_sock", 137);
    ("BPF_FUNC_skc_to_tcp_timewait_sock", 138);
    ("BPF_FUNC_skc_to_tcp_request_sock", 139);
    ("BPF_FUNC_skc_to_udp6_sock", 140);
    ("BPF_FUNC_get_task_stack", 141);
    ("BPF_FUNC_load_hdr_opt", 142);
    ("BPF_FUNC_store_hdr_opt", 143);
    ("BPF_FUNC_reserve_hdr_opt", 144);
    ("BPF_FUNC_inode_storage_get", 145);
    ("BPF_FUNC_inode_storage_delete", 146);
    ("BPF_FUNC_d_path", 147);
    ("BPF_FUNC_copy_from_user", 148);
    ("BPF_FUNC_snprintf_btf", 149);
    ("BPF_FUNC_seq_printf_btf", 150);
    ("BPF_FUNC_skb_cgroup_classid", 151);
    ("BPF_FUNC_redirect_neigh", 152);
    ("BPF_FUNC_per_cpu_ptr", 153);
    ("BPF_FUNC_this_cpu_ptr", 154);
    ("BPF_FUNC_redirect_peer", 155);
    ("BPF_FUNC_task_storage_get", 156);
    ("BPF_FUNC_task_storage_delete", 157);
    ("BPF_FUNC_get_current_task_btf", 158);
    ("BPF_FUNC_bprm_opts_set", 159);
    ("BPF_FUNC_ktime_get_coarse_ns", 160);
    ("BPF_FUNC_ima_inode_hash", 161);
    ("BPF_FUNC_sock_from_file", 162);
    ("BPF_FUNC_check_mtu", 163);
    ("BPF_FUNC_for_each_map_elem", 164);
    ("BPF_FUNC_snprintf", 165);
    ("BPF_FUNC_sys_bpf", 166);
    ("BPF_FUNC_btf_find_by_name_kind", 167);
    ("BPF_FUNC_sys_close", 168);
    ("BPF_FUNC_timer_init", 169);
    ("BPF_FUNC_timer_set_callback", 170);
    ("BPF_FUNC_timer_start", 171);
    ("BPF_FUNC_timer_cancel", 172);
    ("BPF_FUNC_get_func_ip", 173);
    ("BPF_FUNC_get_attach_cookie", 174);
    ("BPF_FUNC_task_pt_regs", 175);
    ("BPF_FUNC_get_branch_snapshot", 176);
    ("BPF_FUNC_trace_vprintk", 177);
    ("BPF_FUNC_skc_to_unix_sock", 178);
    ("BPF_FUNC_kallsyms_lookup_name", 179);
    ("BPF_FUNC_find_vma", 180);
    ("BPF_FUNC_loop", 181);
    ("BPF_FUNC_strncmp", 182);
    ("BPF_FUNC_get_func_arg", 183);
    ("BPF_FUNC_get_func_ret", 184);
    ("BPF_FUNC_get_func_arg_cnt", 185);
    ("BPF_FUNC_get_retval", 186);
    ("BPF_FUNC_set_retval", 187);
    ("BPF_FUNC_xdp_get_buff_len", 188);
    ("BPF_FUNC_xdp_load_bytes", 189);
    ("BPF_FUNC_xdp_store_bytes", 190);
    ("BPF_FUNC_copy_from_user_task", 191);
    ("BPF_FUNC_skb_set_tstamp", 192);
    ("BPF_FUNC_ima_file_hash", 193);
    ("BPF_FUNC_kptr_xchg", 194);
    ("BPF_FUNC_map_lookup_percpu_elem", 195);
    ("BPF_FUNC_skc_to_mptcp_sock", 196);
    ("BPF_FUNC_dynptr_from_mem", 197);
    ("BPF_FUNC_ringbuf_reserve_dynptr", 198);
    ("BPF_FUNC_ringbuf_submit_dynptr", 199);
    ("BPF_FUNC_ringbuf_discard_dynptr", 200);
    ("BPF_FUNC_dynptr_read", 201);
    ("BPF_FUNC_dynptr_write", 202);
    ("BPF_FUNC_dynptr_data", 203);
    ("BPF_FUNC_tcp_raw_gen_syncookie_ipv4", 204);
    ("BPF_FUNC_tcp_raw_gen_syncookie_ipv6", 205);
    ("BPF_FUNC_tcp_raw_check_syncookie_ipv4", 206);
    ("BPF_FUNC_tcp_raw_check_syncookie_ipv6", 207);
    ("BPF_FUNC_ktime_get_tai_ns", 208);
    ("BPF_FUNC_user_ringbuf_drain", 209);
    ("__BPF_FUNC_MAX_ID", 210)].

Definition kprobe_opcode_t : ctype := u32.

Definition struct_arch_specific_insn : ctype :=
  cstruct "arch_specific_insn" [
    fld "api" struct_arch_probe_insn].

Definition struct_freelist_head : ctype :=
  cstruct "freelist_head" [
    fld "head" (ptr "struct freelist_node")].

Definition kprobe_pre_handler_t : ctype := (ptr "int (struct kprobe *, struct pt_regs *)").

Definition kprobe_post_handler_t : ctype := (ptr "void (struct kprobe *, struct pt_regs *, long unsigned int)").

Definition struct_kprobe : ctype :=
  cstruct "kprobe" [
    fld "hlist" struct_hlist_node;
    fld "list" struct_list_head;
    fld "nmissed" c_ulong;
    fld "addr" (ptr "kprobe_opcode_t");
    fld "symbol_name" (ptr "char");
    fld "offset" c_uint;
    fld "pre_handler" kprobe_pre_handler_t;
    fld "post_handler" kprobe_post_handler_t;
    fld "opcode" kprobe_opcode_t;
    fld "ainsn" struct_arch_specific_insn;
    fld "flags" u32].

Definition kretprobe_handler_t : ctype := (ptr "int (struct kretprobe_instance *, struct pt_regs *)").

Definition struct_kretprobe : ctype :=
  cstruct "kretprobe" [
    fld "kp" struct_kprobe;
    fld "handler" kretprobe_handler_t;
    fld "entry_handler" kretprobe_handler_t;
    fld "maxactive" c_int;
    fld "nmissed" c_int;
    fld "data_size" size_t;
    fld "freelist" struct_freelist_head;
    fld "rph" (ptr "struct kretprobe_holder")].

Definition struct_pcpu_freelist_head : ctype :=
  cstruct "pcpu_freelist_head" [
    fld "first" (ptr "struct pcpu_freelist_node");
    fld "lock" raw_spinlock_t].

Definition struct_pcpu_freelist : ctype :=
  cstruct "pcpu_freelist" [
    fld "freelist" (ptr "struct pcpu_freelist_head");
    fld "extralist" struct_pcpu_freelist_head].

Definition struct_bpf_lru_list : ctype :=
  cstruct "bpf_lru_list" [
    fld "lists" (array struct_list_head 3);
    fld "counts" (array c_uint 2);
    fld "next_inactive_rotation" (ptr "struct list_head");
    fld "lock" raw_spinlock_t;
    pad c_long 64;
    pad c_long 64;
    pad c_long 64;
    pad c_long 64;
    pad c_long 64;
    pad c_long 64;
    pad c_long 64].

Definition struct_bpf_common_lru : ctype :=
  cstruct "bpf_common_lru" [
    fld "lru_list" struct_bpf_lru_list;
    fld "local_list" (ptr "struct bpf_lru_locallist");
    pad c_long 64;
    pad c_long 64;
    pad c_long 64;
    pad c_long 64;
    pad c_long 64;
    pad c_long 64;
    pad c_long 64].

Definition del_from_htab_func : ctype := (ptr "bool (void *, struct bpf_lru_node *)").

Definition struct_bpf_lru : ctype :=
  cstruct "bpf_lru" [
    anon (cunion "" [
      fld "common_lru" struct_bpf_common_lru;
      fld "percpu_lru" (ptr "struct bpf_lru_list")]);
    fld "del_from_htab" del_from_htab_func;
    fld "del_arg" (ptr "void");
    fld "hash_offset" c_uint;
    fld "nr_scans" c_uint;
    fld "percpu" bool_;
    pad c_long 64;
    pad c_long 64;
    pad c_long 64;
    pad c_long 64].

Definition struct_bpf_mem_alloc : ctype :=
  cstruct "bpf_mem_alloc" [
    fld "caches" (ptr "struct bpf_mem_caches");
    fld "cache" (ptr "struct bpf_mem_cache");
    fld "work" struct_work_struct].

Definition struct_bpf_htab : ctype :=
  cstruct "bpf_htab" [
    fld "map" struct_bpf_map;
    fld "ma" struct_bpf_mem_alloc;
    fld "pcpu_ma" struct_bpf_mem_alloc;
    fld "buckets" (ptr "struct bucket");
    fld "elems" (ptr "void");
    pad c_long 64;
    pad c_long 64;
    anon (cunion "" [
      fld "freelist" struct_pcpu_freelist;
      fld "lru" struct_bpf_lru]);
    fld "extra_elems" (ptr "struct htab_elem *");
    fld "pcount" struct_percpu_counter;
    fld "count" atomic_t;
    fld "use_percpu_counter" bool_;
    fld "n_buckets" u32;
    fld "elem_size" u32;
    fld "hashrnd" u32;
    fld "lockdep_key" struct_lock_class_key;
    fld "map_locked" (array (ptr "int") 8);
    pad c_long 64;
    pad c_long 64;
    pad c_long 64;
    pad c_long 64;
    pad c_long 64;
    pad c_long 64;
    pad c_long 64].

Definition struct_bpf_ringbuf : ctype :=
  cstruct "bpf_ringbuf" ([
    fld "waitq" wait_queue_head_t;
    fld "work" struct_irq_work;
    fld "mask" u64;
    fld "pages" (ptr "struct page *");
    fld "nr_pages" c_int;
    pad c_long 64;
    pad c_long 64;
    pad c_long 64;
    pad c_long 64;
    pad c_long 64;
    pad c_long 64;
    fld "spinlock" raw_spinlock_t;
    pad c_long 64;
    pad c_long 64;
    pad c_long 64;
    pad c_long 64;
    pad c_long 64;
    pad c_long 64;
    pad c_long 64;
    fld "busy" atomic_t] ++
    replicate 487 (pad c_long 64) ++
    [
    fld "consumer_pos" c_ulong] ++
    replicate 511 (pad c_long 64) ++
    [
    fld "producer_pos" c_ulong;
    fld "pending_pos" c_ulong] ++
    replicate 510 (pad c_long 64) ++
    [
    fld "data" (array c_char 0)]).

Definition struct_bpf_ringbuf_map : ctype :=
  cstruct "bpf_ringbuf_map" [
    fld "map" struct_bpf_map;
    fld "rb" (ptr "struct bpf_ringbuf");
    pad c_long 64;
    pad c_long 64;
    pad c_long 64;
    pad c_long 64;
    pad c_long 64;
    pad c_long 64;
    pad c_long 64].

(** The types of this file, by name. *)
Definition vmbpf_types : list (string * ctype) := [
  ("struct lock_class_key", struct_lock_class_key);
  ("struct latch_tree_node", struct_latch_tree_node);
  ("struct arch_probe_insn", struct_arch_probe_insn);
  ("struct rcuwait", struct_rcuwait);
  ("struct irq_work", struct_irq_work);
  ("struct bpf_insn", struct_bpf_insn);
  ("enum bpf_map_type", enum_bpf_map_type);
  ("enum bpf_prog_type", enum_bpf_prog_type);
  ("enum bpf_attach_type", enum_bpf_attach_type);
  ("struct sock_filter", struct_sock_filter);
  ("struct bpf_map", struct_bpf_map);
  ("struct bpf_ksym", struct_bpf_ksym);
  ("struct bpf_prog_aux", struct_bpf_prog_aux);
  ("struct bpf_prog", struct_bpf_prog);
  ("enum bpf_map_update_flags", enum_bpf_map_update_flags);
  ("enum bpf_func_id", enum_bpf_func_id);
  ("kprobe_opcode_t", kprobe_opcode_t);
  ("struct arch_specific_insn", struct_arch_specific_insn);
  ("struct freelist_head", struct_freelist_head);
  ("kprobe_pre_handler_t", kprobe_pre_handler_t);
  ("kprobe_post_handler_t", kprobe_post_handler_t);
  ("struct kprobe", struct_kprobe);
  ("kretprobe_handler_t", kretprobe_handler_t);
  ("struct kretprobe", struct_kretprobe);
  ("struct pcpu_freelist_head", struct_pcpu_freelist_head);
  ("struct pcpu_freelist", struct_pcpu_freelist);
  ("struct bpf_lru_list", struct_bpf_lru_list);
  ("struct bpf_common_lru", struct_bpf_common_lru);
  ("del_from_htab_func", del_from_htab_func);
  ("struct bpf_lru", struct_bpf_lru);
  ("struct bpf_mem_alloc", struct_bpf_mem_alloc);
  ("struct bpf_htab", struct_bpf_htab);
  ("struct bpf_ringbuf", struct_bpf_ringbuf);
  ("struct bpf_ringbuf_map", struct_bpf_ringbuf_map)].
