(* ===== verification/VmNet.v ===== *)
(** * Kernel types: VmNet

    Network namespaces.

    Each definition translates one declaration of
    [internal/agent/ebpf/vmlinux.h], in the order of the header; pointers keep
    the pointee as written, since a layout does not depend on it. *)

From stdpp Require Import base list strings.
From S2P Require Import Prelude CLayout VmSock VmInet VmSocket VmTask VmCgroup VmBpf.

Definition struct_idr : ctype :=
  cstruct "idr" [
    fld "idr_rt" struct_xarray;
    fld "idr_base" c_uint;
    fld "idr_next" c_uint].

Definition struct_ns_common : ctype :=
  cstruct "ns_common" [
    fld "stashed" atomic_long_t;
    fld "ops" (ptr "struct proc_ns_operations");
    fld "inum" c_uint;
    fld "count" refcount_t].

Definition struct_delayed_work : ctype :=
  cstruct "delayed_work" [
    fld "work" struct_work_struct;
    fld "timer" struct_timer_list;
    fld "wq" (ptr "struct workqueue_struct");
    fld "cpu" c_int].

Definition struct_ctl_table_header : ctype :=
  cstruct "ctl_table_header" [
    anon (cunion "" [
      anon (cstruct "" [
        fld "ctl_table" (ptr "struct ctl_table");
        fld "used" c_int;
        fld "count" c_int;
        fld "nreg" c_int]);
      fld "rcu" struct_callback_head]);
    fld "unregistering" (ptr "struct completion");
    fld "ctl_table_arg" (ptr "struct ctl_table");
    fld "root" (ptr "struct ctl_table_root");
    fld "set" (ptr "struct ctl_table_set");
    fld "parent" (ptr "struct ctl_dir");
    fld "node" (ptr "struct ctl_node");
    fld "inodes" struct_hlist_head].

Definition struct_ctl_dir : ctype :=
  cstruct "ctl_dir" [
    fld "header" struct_ctl_table_header;
    fld "root" struct_rb_root].

Definition struct_ctl_table_set : ctype :=
  cstruct "ctl_table_set" [
    fld "is_seen" (ptr "int (struct ctl_table_set *)");
    fld "dir" struct_ctl_dir].

Definition struct_blocking_notifier_head : ctype :=
  cstruct "blocking_notifier_head" [
    fld "rwsem" struct_rw_semaphore;
    fld "head" (ptr "struct notifier_block")].

Definition struct_raw_notifier_head : ctype :=
  cstruct "raw_notifier_head" [
    fld "head" (ptr "struct notifier_block")].

Definition struct_ref_tracker_dir : ctype :=
  cstruct "ref_tracker_dir" [].

Definition struct_netns_core : ctype :=
  cstruct "netns_core" [
    fld "sysctl_hdr" (ptr "struct ctl_table_header");
    fld "sysctl_somaxconn" c_int;
    fld "sysctl_txrehash" u8;
    fld "prot_inuse" (ptr "struct prot_inuse")].

Definition struct_netns_mib : ctype :=
  cstruct "netns_mib" [
    fld "ip_statistics" (ptr "struct ipstats_mib");
    fld "ipv6_statistics" (ptr "struct ipstats_mib");
    fld "tcp_statistics" (ptr "struct tcp_mib");
    fld "net_statistics" (ptr "struct linux_mib");
    fld "udp_statistics" (ptr "struct udp_mib");
    fld "udp_stats_in6" (ptr "struct udp_mib");
    fld "xfrm_statistics" (ptr "struct linux_xfrm_mib");
    fld "tls_statistics" (ptr "struct linux_tls_mib");
    fld "mptcp_statistics" (ptr "struct mptcp_mib");
    fld "udplite_statistics" (ptr "struct udp_mib");
    fld "udplite_stats_in6" (ptr "struct udp_mib");
    fld "icmp_statistics" (ptr "struct icmp_mib");
    fld "icmpmsg_statistics" (ptr "struct icmpmsg_mib");
    fld "icmpv6_statistics" (ptr "struct icmpv6_mib");
    fld "icmpv6msg_statistics" (ptr "struct icmpv6msg_mib");
    fld "proc_net_devsnmp6" (ptr "struct proc_dir_entry")].

Definition struct_netns_packet : ctype :=
  cstruct "netns_packet" [
    fld "sklist_lock" struct_mutex;
    fld "sklist" struct_hlist_head].

Definition struct_unix_table : ctype :=
  cstruct "unix_table" [
    fld "locks" (ptr "spinlock_t");
    fld "buckets" (ptr "struct hlist_head")].

Definition struct_netns_unix : ctype :=
  cstruct "netns_unix" [
    fld "table" struct_unix_table;
    fld "sysctl_max_dgram_qlen" c_int;
    fld "ctl" (ptr "struct ctl_table_header")].

Definition struct_netns_nexthop : ctype :=
  cstruct "netns_nexthop" [
    fld "rb_root" struct_rb_root;
    fld "devhash" (ptr "struct hlist_head");
    fld "seq" c_uint;
    fld "last_id_allocated" u32;
    fld "notifier_chain" struct_blocking_notifier_head].

Definition struct_inet_timewait_death_row : ctype :=
  cstruct "inet_timewait_death_row" [
    fld "tw_refcount" refcount_t;
    pad c_long 64;
    pad c_long 64;
    pad c_long 64;
    pad c_long 64;
    pad c_long 64;
    pad c_long 64;
    pad c_long 64;
    fld "hashinfo" (ptr "struct inet_hashinfo");
    fld "sysctl_max_tw_buckets" c_int;
    pad c_long 64;
    pad c_long 64;
    pad c_long 64;
    pad c_long 64;
    pad c_long 64;
    pad c_long 64].

Definition struct_local_ports : ctype :=
  cstruct "local_ports" [
    fld "lock" seqlock_t;
    fld "range" (array c_int 2);
    fld "warned" bool_].

Definition struct_ping_group_range : ctype :=
  cstruct "ping_group_range" [
    fld "lock" seqlock_t;
    fld "range" (array kgid_t 2)].

Definition siphash_key_t : ctype :=
  cstruct "" [
    fld "key" (array u64 2)].

Definition struct_netns_ipv4 : ctype :=
  cstruct "netns_ipv4" [
    fld "tcp_death_row" struct_inet_timewait_death_row;
    fld "forw_hdr" (ptr "struct ctl_table_header");
    fld "frags_hdr" (ptr "struct ctl_table_header");
    fld "ipv4_hdr" (ptr "struct ctl_table_header");
    fld "route_hdr" (ptr "struct ctl_table_header");
    fld "xfrm4_hdr" (ptr "struct ctl_table_header");
    fld "devconf_all" (ptr "struct ipv4_devconf");
    fld "devconf_dflt" (ptr "struct ipv4_devconf");
    fld "ra_chain" (ptr "struct ip_ra_chain");
    fld "ra_mutex" struct_mutex;
    fld "rules_ops" (ptr "struct fib_rules_ops");
    fld "fib_main" (ptr "struct fib_table");
    fld "fib_default" (ptr "struct fib_table");
    fld "fib_rules_require_fldissect" c_uint;
    fld "fib_has_custom_rules" bool_;
    fld "fib_has_custom_local_routes" bool_;
    fld "fib_offload_disabled" bool_;
    fld "sysctl_tcp_shrink_window" u8;
    fld "fib_num_tclassid_users" atomic_t;
    fld "fib_table_hash" (ptr "struct hlist_head");
    fld "fibnl" (ptr "struct sock");
    fld "mc_autojoin_sk" (ptr "struct sock");
    fld "peers" (ptr "struct inet_peer_base");
    fld "fqdir" (ptr "struct fqdir");
    fld "sysctl_icmp_echo_ignore_all" u8;
    fld "sysctl_icmp_echo_enable_probe" u8;
    fld "sysctl_icmp_echo_ignore_broadcasts" u8;
    fld "sysctl_icmp_ignore_bogus_error_responses" u8;
    fld "sysctl_icmp_errors_use_inbound_ifaddr" u8;
    fld "sysctl_icmp_ratelimit" c_int;
    fld "sysctl_icmp_ratemask" c_int;
    fld "ip_rt_min_pmtu" u32;
    fld "ip_rt_mtu_expires" c_int;
    fld "ip_rt_min_advmss" c_int;
    fld "ip_local_ports" struct_local_ports;
    fld "sysctl_tcp_ecn" u8;
    fld "sysctl_tcp_ecn_fallback" u8;
    fld "sysctl_ip_default_ttl" u8;
    fld "sysctl_ip_no_pmtu_disc" u8;
    fld "sysctl_ip_fwd_use_pmtu" u8;
    fld "sysctl_ip_fwd_update_priority" u8;
    fld "sysctl_ip_nonlocal_bind" u8;
    fld "sysctl_ip_autobind_reuse" u8;
    fld "sysctl_ip_dynaddr" u8;
    fld "sysctl_ip_early_demux" u8;
    fld "sysctl_raw_l3mdev_accept" u8;
    fld "sysctl_tcp_early_demux" u8;
    fld "sysctl_udp_early_demux" u8;
    fld "sysctl_nexthop_compat_mode" u8;
    fld "sysctl_fwmark_reflect" u8;
    fld "sysctl_tcp_fwmark_accept" u8;
    fld "sysctl_tcp_l3mdev_accept" u8;
    fld "sysctl_tcp_mtu_probing" u8;
    fld "sysctl_tcp_mtu_probe_floor" c_int;
    fld "sysctl_tcp_base_mss" c_int;
    fld "sysctl_tcp_min_snd_mss" c_int;
    fld "sysctl_tcp_probe_threshold" c_int;
    fld "sysctl_tcp_probe_interval" u32;
    fld "sysctl_tcp_keepalive_time" c_int;
    fld "sysctl_tcp_keepalive_intvl" c_int;
    fld "sysctl_tcp_keepalive_probes" u8;
    fld "sysctl_tcp_syn_retries" u8;
    fld "sysctl_tcp_synack_retries" u8;
    fld "sysctl_tcp_syncookies" u8;
    fld "sysctl_tcp_migrate_req" u8;
    fld "sysctl_tcp_comp_sack_nr" u8;
    fld "sysctl_tcp_reordering" c_int;
    fld "sysctl_tcp_retries1" u8;
    fld "sysctl_tcp_retries2" u8;
    fld "sysctl_tcp_orphan_retries" u8;
    fld "sysctl_tcp_tw_reuse" u8;
    fld "sysctl_tcp_fin_timeout" c_int;
    fld "sysctl_tcp_notsent_lowat" c_uint;
    fld "sysctl_tcp_sack" u8;
    fld "sysctl_tcp_window_scaling" u8;
    fld "sysctl_tcp_timestamps" u8;
    fld "sysctl_tcp_early_retrans" u8;
    fld "sysctl_tcp_recovery" u8;
    fld "sysctl_tcp_thin_linear_timeouts" u8;
    fld "sysctl_tcp_slow_start_after_idle" u8;
    fld "sysctl_tcp_retrans_collapse" u8;
    fld "sysctl_tcp_stdurg" u8;
    fld "sysctl_tcp_rfc1337" u8;
    fld "sysctl_tcp_abort_on_overflow" u8;
    fld "sysctl_tcp_fack" u8;
    fld "sysctl_tcp_max_reordering" c_int;
    fld "sysctl_tcp_adv_win_scale" c_int;
    fld "sysctl_tcp_dsack" u8;
    fld "sysctl_tcp_app_win" u8;
    fld "sysctl_tcp_frto" u8;
    fld "sysctl_tcp_nometrics_save" u8;
    fld "sysctl_tcp_no_ssthresh_metrics_save" u8;
    fld "sysctl_tcp_moderate_rcvbuf" u8;
    fld "sysctl_tcp_tso_win_divisor" u8;
    fld "sysctl_tcp_workaround_signed_windows" u8;
    fld "sysctl_tcp_limit_output_bytes" c_int;
    fld "sysctl_tcp_challenge_ack_limit" c_int;
    fld "sysctl_tcp_min_rtt_wlen" c_int;
    fld "sysctl_tcp_min_tso_segs" u8;
    fld "sysctl_tcp_tso_rtt_log" u8;
    fld "sysctl_tcp_autocorking" u8;
    fld "sysctl_tcp_reflect_tos" u8;
    fld "sysctl_tcp_invalid_ratelimit" c_int;
    fld "sysctl_tcp_pacing_ss_ratio" c_int;
    fld "sysctl_tcp_pacing_ca_ratio" c_int;
    fld "sysctl_tcp_wmem" (array c_int 3);
    fld "sysctl_tcp_rmem" (array c_int 3);
    fld "sysctl_tcp_child_ehash_entries" c_uint;
    fld "sysctl_tcp_comp_sack_delay_ns" c_ulong;
    fld "sysctl_tcp_comp_sack_slack_ns" c_ulong;
    fld "sysctl_max_syn_backlog" c_int;
    fld "sysctl_tcp_fastopen" c_int;
    fld "tcp_congestion_control" (ptr "struct tcp_congestion_ops");
    fld "tcp_fastopen_ctx" (ptr "struct tcp_fastopen_context");
    fld "sysctl_tcp_fastopen_blackhole_timeout" c_uint;
    fld "tfo_active_disable_times" atomic_t;
    fld "tfo_active_disable_stamp" c_ulong;
    fld "tcp_challenge_timestamp" u32;
    fld "tcp_challenge_count" u32;
    fld "sysctl_udp_wmem_min" c_int;
    fld "sysctl_udp_rmem_min" c_int;
    fld "sysctl_fib_notify_on_flag_change" u8;
    fld "sysctl_udp_l3mdev_accept" u8;
    fld "sysctl_igmp_llm_reports" u8;
    fld "sysctl_igmp_max_memberships" c_int;
    fld "sysctl_igmp_max_msf" c_int;
    fld "sysctl_igmp_qrv" c_int;
    fld "ping_group_range" struct_ping_group_range;
    fld "dev_addr_genid" atomic_t;
    fld "sysctl_local_reserved_ports" (ptr "long unsigned int");
    fld "sysctl_ip_prot_sock" c_int;
    fld "mr_tables" struct_list_head;
    fld "mr_rules_ops" (ptr "struct fib_rules_ops");
    fld "sysctl_fib_multipath_hash_fields" u32;
    fld "sysctl_fib_multipath_use_neigh" u8;
    fld "sysctl_fib_multipath_hash_policy" u8;
    fld "notifier_ops" (ptr "struct fib_notifier_ops");
    fld "fib_seq" c_uint;
    fld "ipmr_notifier_ops" (ptr "struct fib_notifier_ops");
    fld "ipmr_seq" c_uint;
    fld "rt_genid" atomic_t;
    fld "ip_id_key" siphash_key_t;
    pad c_long 64;
    pad c_long 64;
    pad c_long 64;
    pad c_long 64;
    pad c_long 64;
    pad c_long 64].

Definition struct_dst_ops : ctype :=
  cstruct "dst_ops" [
    fld "family" c_ushort;
    fld "gc_thresh" c_uint;
    fld "gc" (ptr "void (struct dst_ops *)");
    fld "check" (ptr "struct dst_entry * (struct dst_entry *, __u32)");
    fld "default_advmss" (ptr "unsigned int (const struct dst_entry *)");
    fld "mtu" (ptr "unsigned int (const struct dst_entry *)");
    fld "cow_metrics" (ptr "u32 * (struct dst_entry *, long unsigned int)");
    fld "destroy" (ptr "void (struct dst_entry *)");
    fld "ifdown" (ptr "void (struct dst_entry *, struct net_device *, int)");
    fld "negative_advice" (ptr "void (struct sock *, struct dst_entry *)");
    fld "link_failure" (ptr "void (struct sk_buff *)");
    fld "update_pmtu" (ptr "void (struct dst_entry *, struct sock *, struct sk_buff *, u32, bool)");
    fld "redirect" (ptr "void (struct dst_entry *, struct sock *, struct sk_buff *)");
    fld "local_out" (ptr "int (struct net *, struct sock *, struct sk_buff *)");
    fld "neigh_lookup" (ptr "struct neighbour * (const struct dst_entry *, struct sk_buff *, const void *)");
    fld "confirm_neigh" (ptr "void (const struct dst_entry *, const void *)");
    fld "kmem_cachep" (ptr "struct kmem_cache");
    fld "pcpuc_entries" struct_percpu_counter;
    pad c_long 64;
    pad c_long 64;
    pad c_long 64].

Definition struct_netns_sysctl_ipv6 : ctype :=
  cstruct "netns_sysctl_ipv6" [
    fld "hdr" (ptr "struct ctl_table_header");
    fld "route_hdr" (ptr "struct ctl_table_header");
    fld "icmp_hdr" (ptr "struct ctl_table_header");
    fld "frags_hdr" (ptr "struct ctl_table_header");
    fld "xfrm6_hdr" (ptr "struct ctl_table_header");
    fld "flush_delay" c_int;
    fld "ip6_rt_max_size" c_int;
    fld "ip6_rt_gc_min_interval" c_int;
    fld "ip6_rt_gc_timeout" c_int;
    fld "ip6_rt_gc_interval" c_int;
    fld "ip6_rt_gc_elasticity" c_int;
    fld "ip6_rt_mtu_expires" c_int;
    fld "ip6_rt_min_advmss" c_int;
    fld "multipath_hash_fields" u32;
    fld "multipath_hash_policy" u8;
    fld "bindv6only" u8;
    fld "flowlabel_consistency" u8;
    fld "auto_flowlabels" u8;
    fld "icmpv6_time" c_int;
    fld "icmpv6_echo_ignore_all" u8;
    fld "icmpv6_echo_ignore_multicast" u8;
    fld "icmpv6_echo_ignore_anycast" u8;
    fld "icmpv6_ratemask" (array c_ulong 4);
    fld "icmpv6_ratemask_ptr" (ptr "long unsigned int");
    fld "anycast_src_echo_reply" u8;
    fld "ip_nonlocal_bind" u8;
    fld "fwmark_reflect" u8;
    fld "flowlabel_state_ranges" u8;
    fld "idgen_retries" c_int;
    fld "idgen_delay" c_int;
    fld "flowlabel_reflect" c_int;
    fld "max_dst_opts_cnt" c_int;
    fld "max_hbh_opts_cnt" c_int;
    fld "max_dst_opts_len" c_int;
    fld "max_hbh_opts_len" c_int;
    fld "seg6_flowlabel" c_int;
    fld "ioam6_id" u32;
    fld "ioam6_id_wide" u64;
    fld "skip_notify_on_dev_down" c_int;
    fld "fib_notify_on_flag_change" u8].

Definition struct_netns_ipv6 : ctype :=
  cstruct "netns_ipv6" [
    fld "ip6_dst_ops" struct_dst_ops;
    fld "sysctl" struct_netns_sysctl_ipv6;
    fld "devconf_all" (ptr "struct ipv6_devconf");
    fld "devconf_dflt" (ptr "struct ipv6_devconf");
    fld "peers" (ptr "struct inet_peer_base");
    fld "fqdir" (ptr "struct fqdir");
    fld "fib6_null_entry" (ptr "struct fib6_info");
    fld "ip6_null_entry" (ptr "struct rt6_info");
    fld "rt6_stats" (ptr "struct rt6_statistics");
    fld "ip6_fib_timer" struct_timer_list;
    fld "fib_table_hash" (ptr "struct hlist_head");
    fld "fib6_main_tbl" (ptr "struct fib6_table");
    fld "fib6_walkers" struct_list_head;
    fld "fib6_walker_lock" rwlock_t;
    fld "fib6_gc_lock" spinlock_t;
    fld "ip6_rt_gc_expire" atomic_t;
    fld "ip6_rt_last_gc" c_ulong;
    fld "flowlabel_has_excl" c_uchar;
    fld "fib6_has_custom_rules" bool_;
    fld "fib6_rules_require_fldissect" c_uint;
    fld "fib6_routes_require_src" c_uint;
    fld "ip6_prohibit_entry" (ptr "struct rt6_info");
    fld "ip6_blk_hole_entry" (ptr "struct rt6_info");
    fld "fib6_local_tbl" (ptr "struct fib6_table");
    fld "fib6_rules_ops" (ptr "struct fib_rules_ops");
    fld "ndisc_sk" (ptr "struct sock");
    fld "tcp_sk" (ptr "struct sock");
    fld "igmp_sk" (ptr "struct sock");
    fld "mc_autojoin_sk" (ptr "struct sock");
    fld "inet6_addr_lst" (ptr "struct hlist_head");
    fld "addrconf_hash_lock" spinlock_t;
    fld "addr_chk_work" struct_delayed_work;
    fld "mr6_tables" struct_list_head;
    fld "mr6_rules_ops" (ptr "struct fib_rules_ops");
    fld "dev_addr_genid" atomic_t;
    fld "fib6_sernum" atomic_t;
    fld "seg6_data" (ptr "struct seg6_pernet_data");
    fld "notifier_ops" (ptr "struct fib_notifier_ops");
    fld "ip6mr_notifier_ops" (ptr "struct fib_notifier_ops");
    fld "ipmr_seq" c_uint;
    fld "ip6addrlbl_table" (cstruct "" [
      fld "head" struct_hlist_head;
      fld "lock" spinlock_t;
      fld "seq" u32]);
    fld "ioam6_data" (ptr "struct ioam6_pernet_data");
    pad c_long 64;
    pad c_long 64;
    pad c_long 64;
    pad c_long 64].

Definition struct_netns_sysctl_lowpan : ctype :=
  cstruct "netns_sysctl_lowpan" [
    fld "frags_hdr" (ptr "struct ctl_table_header")].

Definition struct_netns_ieee802154_lowpan : ctype :=
  cstruct "netns_ieee802154_lowpan" [
    fld "sysctl" struct_netns_sysctl_lowpan;
    fld "fqdir" (ptr "struct fqdir")].

Definition struct_netns_sctp : ctype :=
  cstruct "netns_sctp" [
    fld "sctp_statistics" (ptr "struct sctp_mib");
    fld "proc_net_sctp" (ptr "struct proc_dir_entry");
    fld "sysctl_header" (ptr "struct ctl_table_header");
    fld "ctl_sock" (ptr "struct sock");
    fld "udp4_sock" (ptr "struct sock");
    fld "udp6_sock" (ptr "struct sock");
    fld "udp_port" c_int;
    fld "encap_port" c_int;
    fld "local_addr_list" struct_list_head;
    fld "addr_waitq" struct_list_head;
    fld "addr_wq_timer" struct_timer_list;
    fld "auto_asconf_splist" struct_list_head;
    fld "addr_wq_lock" spinlock_t;
    fld "local_addr_lock" spinlock_t;
    fld "rto_initial" c_uint;
    fld "rto_min" c_uint;
    fld "rto_max" c_uint;
    fld "rto_alpha" c_int;
    fld "rto_beta" c_int;
    fld "max_burst" c_int;
    fld "cookie_preserve_enable" c_int;
    fld "sctp_hmac_alg" (ptr "char");
    fld "valid_cookie_life" c_uint;
    fld "sack_timeout" c_uint;
    fld "hb_interval" c_uint;
    fld "probe_interval" c_uint;
    fld "max_retrans_association" c_int;
    fld "max_retrans_path" c_int;
    fld "max_retrans_init" c_int;
    fld "pf_retrans" c_int;
    fld "ps_retrans" c_int;
    fld "pf_enable" c_int;
    fld "pf_expose" c_int;
    fld "sndbuf_policy" c_int;
    fld "rcvbuf_policy" c_int;
    fld "default_auto_asconf" c_int;
    fld "addip_enable" c_int;
    fld "addip_noauth" c_int;
    fld "prsctp_enable" c_int;
    fld "reconf_enable" c_int;
    fld "auth_enable" c_int;
    fld "intl_enable" c_int;
    fld "ecn_enable" c_int;
    fld "scope_policy" c_int;
    fld "rwnd_upd_shift" c_int;
    fld "max_autoclose" c_ulong].

Definition struct_netns_nf : ctype :=
  cstruct "netns_nf" [
    fld "proc_netfilter" (ptr "struct proc_dir_entry");
    fld "nf_loggers" (array (ptr "struct nf_logger") 11);
    fld "nf_log_dir_header" (ptr "struct ctl_table_header");
    fld "hooks_ipv4" (array (ptr "struct nf_hook_entries") 5);
    fld "hooks_ipv6" (array (ptr "struct nf_hook_entries") 5);
    fld "hooks_arp" (array (ptr "struct nf_hook_entries") 3);
    fld "hooks_bridge" (array (ptr "struct nf_hook_entries") 5);
    fld "defrag_ipv4_users" c_uint;
    fld "defrag_ipv6_users" c_uint].

Definition struct_nf_generic_net : ctype :=
  cstruct "nf_generic_net" [
    fld "timeout" c_uint].

Definition struct_nf_tcp_net : ctype :=
  cstruct "nf_tcp_net" [
    fld "timeouts" (array c_uint 14);
    fld "tcp_loose" u8;
    fld "tcp_be_liberal" u8;
    fld "tcp_max_retrans" u8;
    fld "tcp_ignore_invalid_rst" u8;
    fld "offload_timeout" c_uint].

Definition struct_nf_udp_net : ctype :=
  cstruct "nf_udp_net" [
    fld "timeouts" (array c_uint 2);
    fld "offload_timeout" c_uint].

Definition struct_nf_icmp_net : ctype :=
  cstruct "nf_icmp_net" [
    fld "timeout" c_uint].

Definition struct_nf_dccp_net : ctype :=
  cstruct "nf_dccp_net" [
    fld "dccp_loose" u8;
    fld "dccp_timeout" (array c_uint 10)].

Definition struct_nf_sctp_net : ctype :=
  cstruct "nf_sctp_net" [
    fld "timeouts" (array c_uint 10)].

Definition struct_nf_gre_net : ctype :=
  cstruct "nf_gre_net" [
    fld "keymap_list" struct_list_head;
    fld "timeouts" (array c_uint 2)].

Definition struct_nf_ip_net : ctype :=
  cstruct "nf_ip_net" [
    fld "generic" struct_nf_generic_net;
    fld "tcp" struct_nf_tcp_net;
    fld "udp" struct_nf_udp_net;
    fld "icmp" struct_nf_icmp_net;
    fld "icmpv6" struct_nf_icmp_net;
    fld "dccp" struct_nf_dccp_net;
    fld "sctp" struct_nf_sctp_net;
    fld "gre" struct_nf_gre_net].

Definition struct_netns_ct : ctype :=
  cstruct "netns_ct" [
    fld "ecache_dwork_pending" bool_;
    fld "sysctl_log_invalid" u8;
    fld "sysctl_events" u8;
    fld "sysctl_acct" u8;
    fld "sysctl_tstamp" u8;
    fld "sysctl_checksum" u8;
    fld "stat" (ptr "struct ip_conntrack_stat");
    fld "nf_conntrack_event_cb" (ptr "struct nf_ct_event_notifier");
    fld "nf_ct_proto" struct_nf_ip_net;
    fld "labels_used" c_uint].

Definition struct_netns_nftables : ctype :=
  cstruct "netns_nftables" [
    fld "gencursor" u8].

Definition struct_netns_ft : ctype :=
  cstruct "netns_ft" [
    fld "stat" (ptr "struct nf_flow_table_stat")].

Definition struct_netns_bpf : ctype :=
  cstruct "netns_bpf" [
    fld "run_array" (array (ptr "struct bpf_prog_array") 2);
    fld "progs" (array (ptr "struct bpf_prog") 2);
    fld "links" (array struct_list_head 2)].

Definition struct_xfrm_policy_hash : ctype :=
  cstruct "xfrm_policy_hash" [
    fld "table" (ptr "struct hlist_head");
    fld "hmask" c_uint;
    fld "dbits4" u8;
    fld "sbits4" u8;
    fld "dbits6" u8;
    fld "sbits6" u8].

Definition struct_xfrm_policy_hthresh : ctype :=
  cstruct "xfrm_policy_hthresh" [
    fld "work" struct_work_struct;
    fld "lock" seqlock_t;
    fld "lbits4" u8;
    fld "rbits4" u8;
    fld "lbits6" u8;
    fld "rbits6" u8].

Definition struct_netns_xfrm : ctype :=
  cstruct "netns_xfrm" [
    fld "state_all" struct_list_head;
    fld "state_bydst" (ptr "struct hlist_head");
    fld "state_bysrc" (ptr "struct hlist_head");
    fld "state_byspi" (ptr "struct hlist_head");
    fld "state_byseq" (ptr "struct hlist_head");
    fld "state_hmask" c_uint;
    fld "state_num" c_uint;
    fld "state_hash_work" struct_work_struct;
    fld "policy_all" struct_list_head;
    fld "policy_byidx" (ptr "struct hlist_head");
    fld "policy_idx_hmask" c_uint;
    fld "idx_generator" c_uint;
    fld "policy_inexact" (array struct_hlist_head 3);
    fld "policy_bydst" (array struct_xfrm_policy_hash 3);
    fld "policy_count" (array c_uint 6);
    fld "policy_hash_work" struct_work_struct;
    fld "policy_hthresh" struct_xfrm_policy_hthresh;
    fld "inexact_bins" struct_list_head;
    fld "nlsk" (ptr "struct sock");
    fld "nlsk_stash" (ptr "struct sock");
    fld "sysctl_aevent_etime" u32;
    fld "sysctl_aevent_rseqth" u32;
    fld "sysctl_larval_drop" c_int;
    fld "sysctl_acq_expires" u32;
    fld "policy_default" (array u8 3);
    fld "sysctl_hdr" (ptr "struct ctl_table_header");
    pad c_long 64;
    pad c_long 64;
    pad c_long 64;
    fld "xfrm4_dst_ops" struct_dst_ops;
    fld "xfrm6_dst_ops" struct_dst_ops;
    fld "xfrm_state_lock" spinlock_t;
    fld "xfrm_state_hash_generation" seqcount_spinlock_t;
    fld "xfrm_policy_hash_generation" seqcount_spinlock_t;
    fld "xfrm_policy_lock" spinlock_t;
    fld "xfrm_cfg_mutex" struct_mutex;
    pad c_long 64;
    pad c_long 64].

Definition struct_netns_mpls : ctype :=
  cstruct "netns_mpls" [
    fld "ip_ttl_propagate" c_int;
    fld "default_ttl" c_int;
    fld "platform_labels" size_t;
    fld "platform_label" (ptr "struct mpls_route *");
    fld "ctl" (ptr "struct ctl_table_header")].

Definition struct_netns_can : ctype :=
  cstruct "netns_can" [
    fld "proc_dir" (ptr "struct proc_dir_entry");
    fld "pde_stats" (ptr "struct proc_dir_entry");
    fld "pde_reset_stats" (ptr "struct proc_dir_entry");
    fld "pde_rcvlist_all" (ptr "struct proc_dir_entry");
    fld "pde_rcvlist_fil" (ptr "struct proc_dir_entry");
    fld "pde_rcvlist_inv" (ptr "struct proc_dir_entry");
    fld "pde_rcvlist_sff" (ptr "struct proc_dir_entry");
    fld "pde_rcvlist_eff" (ptr "struct proc_dir_entry");
    fld "pde_rcvlist_err" (ptr "struct proc_dir_entry");
    fld "bcmproc_dir" (ptr "struct proc_dir_entry");
    fld "rx_alldev_list" (ptr "struct can_dev_rcv_lists");
    fld "rcvlists_lock" spinlock_t;
    fld "stattimer" struct_timer_list;
    fld "pkg_stats" (ptr "struct can_pkg_stats");
    fld "rcv_lists_stats" (ptr "struct can_rcv_lists_stats");
    fld "cgw_list" struct_hlist_head].

Definition struct_netns_xdp : ctype :=
  cstruct "netns_xdp" [
    fld "lock" struct_mutex;
    fld "list" struct_hlist_head].

Definition struct_netns_smc : ctype :=
  cstruct "netns_smc" [
    fld "smc_stats" (ptr "struct smc_stats");
    fld "mutex_fback_rsn" struct_mutex;
    fld "fback_rsn" (ptr "struct smc_stats_rsn");
    fld "limit_smc_hs" bool_;
    fld "smc_hdr" (ptr "struct ctl_table_header");
    fld "sysctl_autocorking_size" c_uint;
    fld "sysctl_smcr_buf_type" c_uint;
    fld "sysctl_smcr_testlink_time" c_int;
    fld "sysctl_wmem" c_int;
    fld "sysctl_rmem" c_int].

Definition struct_net : ctype :=
  cstruct "net" [
    fld "passive" refcount_t;
    fld "rules_mod_lock" spinlock_t;
    fld "dev_unreg_count" atomic_t;
    fld "dev_base_seq" c_uint;
    fld "ifindex" c_int;
    fld "nsid_lock" spinlock_t;
    fld "fnhe_genid" atomic_t;
    fld "list" struct_list_head;
    fld "exit_list" struct_list_head;
    fld "defer_free_list" struct_llist_node;
    fld "cleanup_list" struct_llist_node;
    fld "key_domain" (ptr "struct key_tag");
    fld "user_ns" (ptr "struct user_namespace");
    fld "ucounts" (ptr "struct ucounts");
    fld "netns_ids" struct_idr;
    fld "ns" struct_ns_common;
    fld "refcnt_tracker" struct_ref_tracker_dir;
    fld "dev_base_head" struct_list_head;
    fld "proc_net" (ptr "struct proc_dir_entry");
    fld "proc_net_stat" (ptr "struct proc_dir_entry");
    fld "sysctls" struct_ctl_table_set;
    fld "rtnl" (ptr "struct sock");
    fld "genl_sock" (ptr "struct sock");
    fld "uevent_sock" (ptr "struct uevent_sock");
    fld "dev_name_head" (ptr "struct hlist_head");
    fld "dev_index_head" (ptr "struct hlist_head");
    fld "netdev_chain" struct_raw_notifier_head;
    fld "hash_mix" u32;
    fld "loopback_dev" (ptr "struct net_device");
    fld "rules_ops" struct_list_head;
    fld "core" struct_netns_core;
    fld "mib" struct_netns_mib;
    fld "packet" struct_netns_packet;
    fld "unx" struct_netns_unix;
    fld "nexthop" struct_netns_nexthop;
    pad c_long 64;
    pad c_long 64;
    pad c_long 64;
    pad c_long 64;
    pad c_long 64;
    pad c_long 64;
    fld "ipv4" struct_netns_ipv4;
    fld "ipv6" struct_netns_ipv6;
    fld "ieee802154_lowpan" struct_netns_ieee802154_lowpan;
    fld "sctp" struct_netns_sctp;
    fld "nf" struct_netns_nf;
    fld "ct" struct_netns_ct;
    fld "nft" struct_netns_nftables;
    fld "ft" struct_netns_ft;
    fld "wext_nlevents" struct_sk_buff_head;
    fld "gen" (ptr "struct net_generic");
    fld "bpf" struct_netns_bpf;
    pad c_long 64;
    pad c_long 64;
    pad c_long 64;
    pad c_long 64;
    pad c_long 64;
    pad c_long 64;
    fld "xfrm" struct_netns_xfrm;
    fld "net_cookie" u64;
    fld "ipvs" (ptr "struct netns_ipvs");
    fld "mpls" struct_netns_mpls;
    fld "can" struct_netns_can;
    fld "xdp" struct_netns_xdp;
    fld "crypto_nlsk" (ptr "struct sock");
    fld "diag_nlsk" (ptr "struct sock");
    fld "smc" struct_netns_smc;
    pad c_long 64;
    pad c_long 64;
    pad c_long 64;
    pad c_long 64].

(** The types of this file, by name. *)
Definition vmnet_types : list (string * ctype) := [
  ("struct idr", struct_idr);
  ("struct ns_common", struct_ns_common);
  ("struct delayed_work", struct_delayed_work);
  ("struct ctl_table_header", struct_ctl_table_header);
  ("struct ctl_dir", struct_ctl_dir);
  ("struct ctl_table_set", struct_ctl_table_set);
  ("struct blocking_notifier_head", struct_blocking_notifier_head);
  ("struct raw_notifier_head", struct_raw_notifier_head);
  ("struct ref_tracker_dir", struct_ref_tracker_dir);
  ("struct netns_core", struct_netns_core);
  ("struct netns_mib", struct_netns_mib);
  ("struct netns_packet", struct_netns_packet);
  ("struct unix_table", struct_unix_table);
  ("struct netns_unix", struct_netns_unix);
  ("struct netns_nexthop", struct_netns_nexthop);
  ("struct inet_timewait_death_row", struct_inet_timewait_death_row);
  ("struct local_ports", struct_local_ports);
  ("struct ping_group_range", struct_ping_group_range);
  ("siphash_key_t", siphash_key_t);
  ("struct netns_ipv4", struct_netns_ipv4);
  ("struct dst_ops", struct_dst_ops);
  ("struct netns_sysctl_ipv6", struct_netns_sysctl_ipv6);
  ("struct netns_ipv6", struct_netns_ipv6);
  ("struct netns_sysctl_lowpan", struct_netns_sysctl_lowpan);
  ("struct netns_ieee802154_lowpan", struct_netns_ieee802154_lowpan);
  ("struct netns_sctp", struct_netns_sctp);
  ("struct netns_nf", struct_netns_nf);
  ("struct nf_generic_net", struct_nf_generic_net);
  ("struct nf_tcp_net", struct_nf_tcp_net);
  ("struct nf_udp_net", struct_nf_udp_net);
  ("struct nf_icmp_net", struct_nf_icmp_net);
  ("struct nf_dccp_net", struct_nf_dccp_net);
  ("struct nf_sctp_net", struct_nf_sctp_net);
  ("struct nf_gre_net", struct_nf_gre_net);
  ("struct nf_ip_net", struct_nf_ip_net);
  ("struct netns_ct", struct_netns_ct);
  ("struct netns_nftables", struct_netns_nftables);
  ("struct netns_ft", struct_netns_ft);
  ("struct netns_bpf", struct_netns_bpf);
  ("struct xfrm_policy_hash", struct_xfrm_policy_hash);
  ("struct xfrm_policy_hthresh", struct_xfrm_policy_hthresh);
  ("struct netns_xfrm", struct_netns_xfrm);
  ("struct netns_mpls", struct_netns_mpls);
  ("struct netns_can", struct_netns_can);
  ("struct netns_xdp", struct_netns_xdp);
  ("struct netns_smc", struct_netns_smc);
  ("struct net", struct_net)].
