(* ===== verification/VmDev.v ===== *)
(** * Kernel types: VmDev

    Network devices, routes and neighbours.

    Each definition translates one declaration of
    [internal/agent/ebpf/vmlinux.h], in the order of the header; pointers keep
    the pointee as written, since a layout does not depend on it. *)

From stdpp Require Import base list strings.
From S2P Require Import Prelude CLayout VmSock VmInet VmSocket VmTask VmCgroup VmBpf VmNet.

Definition struct_kref : ctype :=
  cstruct "kref" [
    fld "refcount" refcount_t].

Definition struct_kobject : ctype :=
  cstruct "kobject" [
    fld "name" (ptr "char");
    fld "entry" struct_list_head;
    fld "parent" (ptr "struct kobject");
    fld "kset" (ptr "struct kset");
    fld "ktype" (ptr "struct kobj_type");
    fld "sd" (ptr "struct kernfs_node");
    fld "kref" struct_kref;
    bit "state_initialized" c_uint 1;
    bit "state_in_sysfs" c_uint 1;
    bit "state_add_uevent_sent" c_uint 1;
    bit "state_remove_uevent_sent" c_uint 1;
    bit "uevent_suppress" c_uint 1].

Definition struct_swait_queue_head : ctype :=
  cstruct "swait_queue_head" [
    fld "lock" raw_spinlock_t;
    fld "task_list" struct_list_head].

Definition struct_completion : ctype :=
  cstruct "completion" [
    fld "done" c_uint;
    fld "wait" struct_swait_queue_head].

Definition s16 : ctype := __s16.

Definition enum_dl_dev_state : ctype :=
  cenum "dl_dev_state" [
    ("DL_DEV_NO_DRIVER", 0);
    ("DL_DEV_PROBING", 1);
    ("DL_DEV_DRIVER_BOUND", 2);
    ("DL_DEV_UNBINDING", 3)].

Definition struct_dev_links_info : ctype :=
  cstruct "dev_links_info" [
    fld "suppliers" struct_list_head;
    fld "consumers" struct_list_head;
    fld "defer_sync" struct_list_head;
    fld "status" enum_dl_dev_state].

Definition struct_pm_message : ctype :=
  cstruct "pm_message" [
    fld "event" c_int].

Definition pm_message_t : ctype := struct_pm_message.

Definition enum_rpm_request : ctype :=
  cenum "rpm_request" [
    ("RPM_REQ_NONE", 0);
    ("RPM_REQ_IDLE", 1);
    ("RPM_REQ_SUSPEND", 2);
    ("RPM_REQ_AUTOSUSPEND", 3);
    ("RPM_REQ_RESUME", 4)].

Definition enum_rpm_status : ctype :=
  cenum "rpm_status" [
    ("RPM_INVALID", (-1));
    ("RPM_ACTIVE", 0);
    ("RPM_RESUMING", 1);
    ("RPM_SUSPENDED", 2);
    ("RPM_SUSPENDING", 3)].

Definition struct_dev_pm_info : ctype :=
  cstruct "dev_pm_info" [
    fld "power_state" pm_message_t;
    bit "can_wakeup" c_uint 1;
    bit "async_suspend" c_uint 1;
    bit "in_dpm_list" bool_ 1;
    bit "is_prepared" bool_ 1;
    bit "is_suspended" bool_ 1;
    bit "is_noirq_suspended" bool_ 1;
    bit "is_late_suspended" bool_ 1;
    bit "no_pm" bool_ 1;
    bit "early_init" bool_ 1;
    bit "direct_complete" bool_ 1;
    fld "driver_flags" u32;
    fld "lock" spinlock_t;
    fld "entry" struct_list_head;
    fld "completion" struct_completion;
    fld "wakeup" (ptr "struct wakeup_source");
    bit "wakeup_path" bool_ 1;
    bit "syscore" bool_ 1;
    bit "no_pm_callbacks" bool_ 1;
    bit "must_resume" c_uint 1;
    bit "may_skip_resume" c_uint 1;
    fld "suspend_timer" struct_hrtimer;
    fld "timer_expires" u64;
    fld "work" struct_work_struct;
    fld "wait_queue" wait_queue_head_t;
    fld "wakeirq" (ptr "struct wake_irq");
    fld "usage_count" atomic_t;
    fld "child_count" atomic_t;
    bit "disable_depth" c_uint 3;
    bit "idle_notification" c_uint 1;
    bit "request_pending" c_uint 1;
    bit "deferred_resume" c_uint 1;
    bit "needs_force_resume" c_uint 1;
    bit "runtime_auto" c_uint 1;
    bit "ignore_children" bool_ 1;
    bit "no_callbacks" c_uint 1;
    bit "irq_safe" c_uint 1;
    bit "use_autosuspend" c_uint 1;
    bit "timer_autosuspends" c_uint 1;
    bit "memalloc_noio" c_uint 1;
    fld "links_count" c_uint;
    fld "request" enum_rpm_request;
    fld "runtime_status" enum_rpm_status;
    fld "last_status" enum_rpm_status;
    fld "runtime_error" c_int;
    fld "autosuspend_delay" c_int;
    fld "last_busy" u64;
    fld "active_time" u64;
    fld "suspended_time" u64;
    fld "accounting_timestamp" u64;
    fld "subsys_data" (ptr "struct pm_subsys_data");
    fld "set_latency_tolerance" (ptr "void (struct device *, s32)");
    fld "qos" (ptr "struct dev_pm_qos")].

Definition struct_dev_msi_info : ctype :=
  cstruct "dev_msi_info" [
    fld "domain" (ptr "struct irq_domain");
    fld "data" (ptr "struct msi_device_data")].

Definition struct_dev_archdata : ctype :=
  cstruct "dev_archdata" [].

Definition enum_device_removable : ctype :=
  cenum "device_removable" [
    ("DEVICE_REMOVABLE_NOT_SUPPORTED", 0);
    ("DEVICE_REMOVABLE_UNKNOWN", 1);
    ("DEVICE_FIXED", 2);
    ("DEVICE_REMOVABLE", 3)].

Definition struct_device : ctype :=
  cstruct "device" [
    fld "kobj" struct_kobject;
    fld "parent" (ptr "struct device");
    fld "p" (ptr "struct device_private");
    fld "init_name" (ptr "char");
    fld "type" (ptr "struct device_type");
    fld "bus" (ptr "struct bus_type");
    fld "driver" (ptr "struct device_driver");
    fld "platform_data" (ptr "void");
    fld "driver_data" (ptr "void");
    fld "mutex" struct_mutex;
    fld "links" struct_dev_links_info;
    fld "power" struct_dev_pm_info;
    fld "pm_domain" (ptr "struct dev_pm_domain");
    fld "em_pd" (ptr "struct em_perf_domain");
    fld "pins" (ptr "struct dev_pin_info");
    fld "msi" struct_dev_msi_info;
    fld "dma_ops" (ptr "struct dma_map_ops");
    fld "dma_mask" (ptr "u64");
    fld "coherent_dma_mask" u64;
    fld "bus_dma_limit" u64;
    fld "dma_range_map" (ptr "struct bus_dma_region");
    fld "dma_parms" (ptr "struct device_dma_parameters");
    fld "dma_pools" struct_list_head;
    fld "dma_mem" (ptr "struct dma_coherent_mem");
    fld "cma_area" (ptr "struct cma");
    fld "dma_io_tlb_mem" (ptr "struct io_tlb_mem");
    fld "archdata" struct_dev_archdata;
    fld "of_node" (ptr "struct device_node");
    fld "fwnode" (ptr "struct fwnode_handle");
    fld "numa_node" c_int;
    fld "devt" dev_t;
    fld "id" u32;
    fld "devres_lock" spinlock_t;
    fld "devres_head" struct_list_head;
    fld "class" (ptr "struct class");
    fld "groups" (ptr "struct attribute_group *");
    fld "release" (ptr "void (struct device *)");
    fld "iommu_group" (ptr "struct iommu_group");
    fld "iommu" (ptr "struct dev_iommu");
    fld "physical_location" (ptr "struct device_physical_location");
    fld "removable" enum_device_removable;
    bit "offline_disabled" bool_ 1;
    bit "offline" bool_ 1;
    bit "of_node_reused" bool_ 1;
    bit "state_synced" bool_ 1;
    bit "can_match" bool_ 1;
    bit "dma_coherent" bool_ 1].

Definition struct_net_device_stats : ctype :=
  cstruct "net_device_stats" [
    anon (cunion "" [
      fld "rx_packets" c_ulong;
      fld "__rx_packets" atomic_long_t]);
    anon (cunion "" [
      fld "tx_packets" c_ulong;
      fld "__tx_packets" atomic_long_t]);
    anon (cunion "" [
      fld "rx_bytes" c_ulong;
      fld "__rx_bytes" atomic_long_t]);
    anon (cunion "" [
      fld "tx_bytes" c_ulong;
      fld "__tx_bytes" atomic_long_t]);
    anon (cunion "" [
      fld "rx_errors" c_ulong;
      fld "__rx_errors" atomic_long_t]);
    anon (cunion "" [
      fld "tx_errors" c_ulong;
      fld "__tx_errors" atomic_long_t]);
    anon (cunion "" [
      fld "rx_dropped" c_ulong;
      fld "__rx_dropped" atomic_long_t]);
    anon (cunion "" [
      fld "tx_dropped" c_ulong;
      fld "__tx_dropped" atomic_long_t]);
    anon (cunion "" [
      fld "multicast" c_ulong;
      fld "__multicast" atomic_long_t]);
    anon (cunion "" [
      fld "collisions" c_ulong;
      fld "__collisions" atomic_long_t]);
    anon (cunion "" [
      fld "rx_length_errors" c_ulong;
      fld "__rx_length_errors" atomic_long_t]);
    anon (cunion "" [
      fld "rx_over_errors" c_ulong;
      fld "__rx_over_errors" atomic_long_t]);
    anon (cunion "" [
      fld "rx_crc_errors" c_ulong;
      fld "__rx_crc_errors" atomic_long_t]);
    anon (cunion "" [
      fld "rx_frame_errors" c_ulong;
      fld "__rx_frame_errors" atomic_long_t]);
    anon (cunion "" [
      fld "rx_fifo_errors" c_ulong;
      fld "__rx_fifo_errors" atomic_long_t]);
    anon (cunion "" [
      fld "rx_missed_errors" c_ulong;
      fld "__rx_missed_errors" atomic_long_t]);
    anon (cunion "" [
      fld "tx_aborted_errors" c_ulong;
      fld "__tx_aborted_errors" atomic_long_t]);
    anon (cunion "" [
      fld "tx_carrier_errors" c_ulong;
      fld "__tx_carrier_errors" atomic_long_t]);
    anon (cunion "" [
      fld "tx_fifo_errors" c_ulong;
      fld "__tx_fifo_errors" atomic_long_t]);
    anon (cunion "" [
      fld "tx_heartbeat_errors" c_ulong;
      fld "__tx_heartbeat_errors" atomic_long_t]);
    anon (cunion "" [
      fld "tx_window_errors" c_ulong;
      fld "__tx_window_errors" atomic_long_t]);
    anon (cunion "" [
      fld "rx_compressed" c_ulong;
      fld "__rx_compressed" atomic_long_t]);
    anon (cunion "" [
      fld "tx_compressed" c_ulong;
      fld "__tx_compressed" atomic_long_t])].

Definition struct_netdev_hw_addr_list : ctype :=
  cstruct "netdev_hw_addr_list" [
    fld "list" struct_list_head;
    fld "count" c_int;
    fld "tree" struct_rb_root].

Definition enum_netdev_ml_priv_type : ctype :=
  cenum "netdev_ml_priv_type" [
    ("ML_PRIV_NONE", 0);
    ("ML_PRIV_CAN", 1)].

Definition enum_netdev_stat_type : ctype :=
  cenum "netdev_stat_type" [
    ("NETDEV_PCPU_STAT_NONE", 0);
    ("NETDEV_PCPU_STAT_LSTATS", 1);
    ("NETDEV_PCPU_STAT_TSTATS", 2);
    ("NETDEV_PCPU_STAT_DSTATS", 3)].

Definition struct_netdev_tc_txq : ctype :=
  cstruct "netdev_tc_txq" [
    fld "count" u16;
    fld "offset" u16].

Definition struct_bpf_xdp_entity : ctype :=
  cstruct "bpf_xdp_entity" [
    fld "prog" (ptr "struct bpf_prog");
    fld "link" (ptr "struct bpf_xdp_link")].

Definition struct_net_device : ctype :=
  cstruct "net_device" [
    fld "name" (array c_char 16);
    fld "name_node" (ptr "struct netdev_name_node");
    fld "ifalias" (ptr "struct dev_ifalias");
    fld "mem_end" c_ulong;
    fld "mem_start" c_ulong;
    fld "base_addr" c_ulong;
    fld "state" c_ulong;
    fld "dev_list" struct_list_head;
    fld "napi_list" struct_list_head;
    fld "unreg_list" struct_list_head;
    fld "close_list" struct_list_head;
    fld "ptype_all" struct_list_head;
    fld "ptype_specific" struct_list_head;
    fld "adj_list" (cstruct "" [
      fld "upper" struct_list_head;
      fld "lower" struct_list_head]);
    fld "flags" c_uint;
    fld "priv_flags" c_ulong;
    fld "netdev_ops" (ptr "struct net_device_ops");
    fld "ifindex" c_int;
    fld "gflags" c_ushort;
    fld "hard_header_len" c_ushort;
    fld "mtu" c_uint;
    fld "needed_headroom" c_ushort;
    fld "needed_tailroom" c_ushort;
    fld "features" netdev_features_t;
    fld "hw_features" netdev_features_t;
    fld "wanted_features" netdev_features_t;
    fld "vlan_features" netdev_features_t;
    fld "hw_enc_features" netdev_features_t;
    fld "mpls_features" netdev_features_t;
    fld "gso_partial_features" netdev_features_t;
    fld "min_mtu" c_uint;
    fld "max_mtu" c_uint;
    fld "type" c_ushort;
    fld "min_header_len" c_uchar;
    fld "name_assign_type" c_uchar;
    fld "group" c_int;
    fld "stats" struct_net_device_stats;
    fld "core_stats" (ptr "struct net_device_core_stats");
    fld "carrier_up_count" atomic_t;
    fld "carrier_down_count" atomic_t;
    fld "wireless_handlers" (ptr "struct iw_handler_def");
    fld "wireless_data" (ptr "struct iw_public_data");
    fld "ethtool_ops" (ptr "struct ethtool_ops");
    fld "l3mdev_ops" (ptr "struct l3mdev_ops");
    fld "ndisc_ops" (ptr "struct ndisc_ops");
    fld "xfrmdev_ops" (ptr "struct xfrmdev_ops");
    fld "tlsdev_ops" (ptr "struct tlsdev_ops");
    fld "header_ops" (ptr "struct header_ops");
    fld "operstate" c_uchar;
    fld "link_mode" c_uchar;
    fld "if_port" c_uchar;
    fld "dma" c_uchar;
    fld "perm_addr" (array c_uchar 32);
    fld "addr_assign_type" c_uchar;
    fld "addr_len" c_uchar;
    fld "upper_level" c_uchar;
    fld "lower_level" c_uchar;
    fld "neigh_priv_len" c_ushort;
    fld "dev_id" c_ushort;
    fld "dev_port" c_ushort;
    fld "padded" c_ushort;
    fld "addr_list_lock" spinlock_t;
    fld "irq" c_int;
    fld "uc" struct_netdev_hw_addr_list;
    fld "mc" struct_netdev_hw_addr_list;
    fld "dev_addrs" struct_netdev_hw_addr_list;
    fld "queues_kset" (ptr "struct kset");
    fld "promiscuity" c_uint;
    fld "allmulti" c_uint;
    fld "uc_promisc" bool_;
    fld "ip_ptr" (ptr "struct in_device");
    fld "ip6_ptr" (ptr "struct inet6_dev");
    fld "vlan_info" (ptr "struct vlan_info");
    fld "dsa_ptr" (ptr "struct dsa_port");
    fld "tipc_ptr" (ptr "struct tipc_bearer");
    fld "atalk_ptr" (ptr "void");
    fld "ax25_ptr" (ptr "struct ax25_dev");
    fld "ieee80211_ptr" (ptr "struct wireless_dev");
    fld "ieee802154_ptr" (ptr "struct wpan_dev");
    fld "mpls_ptr" (ptr "struct mpls_dev");
    fld "dev_addr" (ptr "unsigned char");
    fld "_rx" (ptr "struct netdev_rx_queue");
    fld "num_rx_queues" c_uint;
    fld "real_num_rx_queues" c_uint;
    fld "xdp_prog" (ptr "struct bpf_prog");
    fld "gro_flush_timeout" c_ulong;
    fld "napi_defer_hard_irqs" c_int;
    fld "gro_max_size" c_uint;
    fld "rx_handler" (ptr "rx_handler_func_t");
    fld "rx_handler_data" (ptr "void");
    fld "miniq_ingress" (ptr "struct mini_Qdisc");
    fld "ingress_queue" (ptr "struct netdev_queue");
    fld "nf_hooks_ingress" (ptr "struct nf_hook_entries");
    fld "broadcast" (array c_uchar 32);
    fld "rx_cpu_rmap" (ptr "struct cpu_rmap");
    fld "index_hlist" struct_hlist_node;
    pad c_long 64;
    pad c_long 64;
    pad c_long 64;
    pad c_long 64;
    pad c_long 64;
    pad c_long 64;
    pad c_long 64;
    fld "_tx" (ptr "struct netdev_queue");
    fld "num_tx_queues" c_uint;
    fld "real_num_tx_queues" c_uint;
    fld "qdisc" (ptr "struct Qdisc");
    fld "tx_queue_len" c_uint;
    fld "tx_global_lock" spinlock_t;
    fld "xdp_bulkq" (ptr "struct xdp_dev_bulk_queue");
    fld "xps_maps" (array (ptr "struct xps_dev_maps") 2);
    fld "miniq_egress" (ptr "struct mini_Qdisc");
    fld "nf_hooks_egress" (ptr "struct nf_hook_entries");
    fld "qdisc_hash" (array struct_hlist_head 16);
    fld "watchdog_timer" struct_timer_list;
    fld "watchdog_timeo" c_int;
    fld "proto_down_reason" u32;
    fld "todo_list" struct_list_head;
    fld "pcpu_refcnt" (ptr "int");
    fld "refcnt_tracker" struct_ref_tracker_dir;
    fld "link_watch_list" struct_list_head;
    bit "reg_state" (cenum "" [("NETREG_UNINITIALIZED", 0); ("NETREG_REGISTERED", 1); ("NETREG_UNREGISTERING", 2); ("NETREG_UNREGISTERED", 3); ("NETREG_RELEASED", 4); ("NETREG_DUMMY", 5)]) 8;
    fld "dismantle" bool_;
    bit "rtnl_link_state" (cenum "" [("RTNL_LINK_INITIALIZED", 0); ("RTNL_LINK_INITIALIZING", 1)]) 16;
    fld "needs_free_netdev" bool_;
    fld "priv_destructor" (ptr "void (struct net_device *)");
    fld "npinfo" (ptr "struct netpoll_info");
    fld "nd_net" possible_net_t;
    fld "ml_priv" (ptr "void");
    fld "ml_priv_type" enum_netdev_ml_priv_type;
    bit "pcpu_stat_type" enum_netdev_stat_type 8;
    anon (cunion "" [
      fld "lstats" (ptr "struct pcpu_lstats");
      fld "tstats" (ptr "struct pcpu_sw_netstats");
      fld "dstats" (ptr "struct pcpu_dstats")]);
    fld "garp_port" (ptr "struct garp_port");
    fld "mrp_port" (ptr "struct mrp_port");
    fld "dm_private" (ptr "struct dm_hw_stat_delta");
    fld "dev" struct_device;
    fld "sysfs_groups" (array (ptr "struct attribute_group") 4);
    fld "sysfs_rx_queue_group" (ptr "struct attribute_group");
    fld "rtnl_link_ops" (ptr "struct rtnl_link_ops");
    fld "gso_max_size" c_uint;
    fld "tso_max_size" c_uint;
    fld "gso_max_segs" u16;
    fld "tso_max_segs" u16;
    fld "dcbnl_ops" (ptr "struct dcbnl_rtnl_ops");
    fld "num_tc" s16;
    fld "tc_to_txq" (array struct_netdev_tc_txq 16);
    fld "prio_tc_map" (array u8 16);
    fld "fcoe_ddp_xid" c_uint;
    fld "priomap" (ptr "struct netprio_map");
    fld "phydev" (ptr "struct phy_device");
    fld "sfp_bus" (ptr "struct sfp_bus");
    fld "qdisc_tx_busylock" (ptr "struct lock_class_key");
    fld "proto_down" bool_;
    bit "wol_enabled" c_uint 1;
    bit "threaded" c_uint 1;
    fld "net_notifier_list" struct_list_head;
    fld "macsec_ops" (ptr "struct macsec_ops");
    fld "udp_tunnel_nic_info" (ptr "struct udp_tunnel_nic_info");
    fld "udp_tunnel_nic" (ptr "struct udp_tunnel_nic");
    fld "xdp_state" (array struct_bpf_xdp_entity 3);
    fld "dev_addr_shadow" (array u8 32);
    fld "linkwatch_dev_tracker" netdevice_tracker;
    fld "watchdog_dev_tracker" netdevice_tracker;
    fld "dev_registered_tracker" netdevice_tracker;
    fld "offload_xstats_l3" (ptr "struct rtnl_hw_stats64");
    pad c_long 64;
    pad c_long 64].

Definition struct_hh_cache : ctype :=
  cstruct "hh_cache" [
    fld "hh_len" c_uint;
    fld "hh_lock" seqlock_t;
    fld "hh_data" (array c_ulong 16)].

Definition struct_neighbour : ctype :=
  cstruct "neighbour" [
    fld "next" (ptr "struct neighbour");
    fld "tbl" (ptr "struct neigh_table");
    fld "parms" (ptr "struct neigh_parms");
    fld "confirmed" c_ulong;
    fld "updated" c_ulong;
    fld "lock" rwlock_t;
    fld "refcnt" refcount_t;
    fld "arp_queue_len_bytes" c_uint;
    fld "arp_queue" struct_sk_buff_head;
    fld "timer" struct_timer_list;
    fld "used" c_ulong;
    fld "probes" atomic_t;
    fld "nud_state" u8;
    fld "type" u8;
    fld "dead" u8;
    fld "protocol" u8;
    fld "flags" u32;
    fld "ha_lock" seqlock_t;
    pad c_long 0;
    fld "ha" (array c_uchar 32);
    fld "hh" struct_hh_cache;
    fld "output" (ptr "int (struct neighbour *, struct sk_buff *)");
    fld "ops" (ptr "struct neigh_ops");
    fld "gc_list" struct_list_head;
    fld "managed_list" struct_list_head;
    fld "rcu" struct_callback_head;
    fld "dev" (ptr "struct net_device");
    fld "dev_tracker" netdevice_tracker;
    fld "primary_key" (array u8 0)].

Definition struct_ipv6_stable_secret : ctype :=
  cstruct "ipv6_stable_secret" [
    fld "initialized" bool_;
    fld "secret" struct_in6_addr].

Definition struct_ipv6_devconf : ctype :=
  cstruct "ipv6_devconf" [
    fld "forwarding" __s32;
    fld "hop_limit" __s32;
    fld "mtu6" __s32;
    fld "accept_ra" __s32;
    fld "accept_redirects" __s32;
    fld "autoconf" __s32;
    fld "dad_transmits" __s32;
    fld "rtr_solicits" __s32;
    fld "rtr_solicit_interval" __s32;
    fld "rtr_solicit_max_interval" __s32;
    fld "rtr_solicit_delay" __s32;
    fld "force_mld_version" __s32;
    fld "mldv1_unsolicited_report_interval" __s32;
    fld "mldv2_unsolicited_report_interval" __s32;
    fld "use_tempaddr" __s32;
    fld "temp_valid_lft" __s32;
    fld "temp_prefered_lft" __s32;
    fld "regen_max_retry" __s32;
    fld "max_desync_factor" __s32;
    fld "max_addresses" __s32;
    fld "accept_ra_defrtr" __s32;
    fld "ra_defrtr_metric" __u32;
    fld "accept_ra_min_hop_limit" __s32;
    fld "accept_ra_min_lft" __s32;
    fld "accept_ra_pinfo" __s32;
    fld "ignore_routes_with_linkdown" __s32;
    fld "accept_ra_rtr_pref" __s32;
    fld "rtr_probe_interval" __s32;
    fld "accept_ra_rt_info_min_plen" __s32;
    fld "accept_ra_rt_info_max_plen" __s32;
    fld "proxy_ndp" __s32;
    fld "accept_source_route" __s32;
    fld "accept_ra_from_local" __s32;
    fld "optimistic_dad" __s32;
    fld "use_optimistic" __s32;
    fld "mc_forwarding" atomic_t;
    fld "disable_ipv6" __s32;
    fld "drop_unicast_in_l2_multicast" __s32;
    fld "accept_dad" __s32;
    fld "force_tllao" __s32;
    fld "ndisc_notify" __s32;
    fld "suppress_frag_ndisc" __s32;
    fld "accept_ra_mtu" __s32;
    fld "drop_unsolicited_na" __s32;
    fld "accept_untracked_na" __s32;
    fld "stable_secret" struct_ipv6_stable_secret;
    fld "use_oif_addrs_only" __s32;
    fld "keep_addr_on_down" __s32;
    fld "seg6_enabled" __s32;
    fld "seg6_require_hmac" __s32;
    fld "enhanced_dad" __u32;
    fld "addr_gen_mode" __u32;
    fld "disable_policy" __s32;
    fld "ndisc_tclass" __s32;
    fld "rpl_seg_enabled" __s32;
    fld "ioam6_id" __u32;
    fld "ioam6_id_wide" __u32;
    fld "ioam6_enabled" __u8;
    fld "ndisc_evict_nocarrier" __u8;
    fld "sysctl_header" (ptr "struct ctl_table_header")].

Definition struct_ipv6_devstat : ctype :=
  cstruct "ipv6_devstat" [
    fld "proc_dir_entry" (ptr "struct proc_dir_entry");
    fld "ipv6" (ptr "struct ipstats_mib");
    fld "icmpv6dev" (ptr "struct icmpv6_mib_device");
    fld "icmpv6msgdev" (ptr "struct icmpv6msg_mib_device")].

Definition struct_inet6_dev : ctype :=
  cstruct "inet6_dev" [
    fld "dev" (ptr "struct net_device");
    fld "dev_tracker" netdevice_tracker;
    fld "addr_list" struct_list_head;
    fld "mc_list" (ptr "struct ifmcaddr6");
    fld "mc_tomb" (ptr "struct ifmcaddr6");
    fld "mc_qrv" c_uchar;
    fld "mc_gq_running" c_uchar;
    fld "mc_ifc_count" c_uchar;
    fld "mc_dad_count" c_uchar;
    fld "mc_v1_seen" c_ulong;
    fld "mc_qi" c_ulong;
    fld "mc_qri" c_ulong;
    fld "mc_maxdelay" c_ulong;
    fld "mc_gq_work" struct_delayed_work;
    fld "mc_ifc_work" struct_delayed_work;
    fld "mc_dad_work" struct_delayed_work;
    fld "mc_query_work" struct_delayed_work;
    fld "mc_report_work" struct_delayed_work;
    fld "mc_query_queue" struct_sk_buff_head;
    fld "mc_report_queue" struct_sk_buff_head;
    fld "mc_query_lock" spinlock_t;
    fld "mc_report_lock" spinlock_t;
    fld "mc_lock" struct_mutex;
    fld "ac_list" (ptr "struct ifacaddr6");
    fld "lock" rwlock_t;
    fld "refcnt" refcount_t;
    fld "if_flags" __u32;
    fld "dead" c_int;
    fld "desync_factor" u32;
    fld "tempaddr_list" struct_list_head;
    fld "token" struct_in6_addr;
    fld "nd_parms" (ptr "struct neigh_parms");
    fld "cnf" struct_ipv6_devconf;
    fld "stats" struct_ipv6_devstat;
    fld "rs_timer" struct_timer_list;
    fld "rs_interval" __s32;
    fld "rs_probes" __u8;
    fld "tstamp" c_ulong;
    fld "rcu" struct_callback_head;
    fld "ra_mtu" c_uint].

Definition struct_rt6key : ctype :=
  cstruct "rt6key" [
    fld "addr" struct_in6_addr;
    fld "plen" c_int].

Definition struct_rt6_info : ctype :=
  cstruct "rt6_info" [
    fld "dst" struct_dst_entry;
    fld "from" (ptr "struct fib6_info");
    fld "sernum" c_int;
    fld "rt6i_dst" struct_rt6key;
    fld "rt6i_src" struct_rt6key;
    fld "rt6i_gateway" struct_in6_addr;
    fld "rt6i_idev" (ptr "struct inet6_dev");
    fld "rt6i_flags" u32;
    fld "rt6i_uncached" struct_list_head;
    fld "rt6i_uncached_list" (ptr "struct uncached_list");
    fld "rt6i_nfheader_len" c_ushort].

Definition struct_rtable : ctype :=
  cstruct "rtable" [
    fld "dst" struct_dst_entry;
    fld "rt_genid" c_int;
    fld "rt_flags" c_uint;
    fld "rt_type" __u16;
    fld "rt_is_input" __u8;
    fld "rt_uses_gateway" __u8;
    fld "rt_iif" c_int;
    fld "rt_gw_family" u8;
    anon (cunion "" [
      fld "rt_gw4" __be32;
      fld "rt_gw6" struct_in6_addr]);
    bit "rt_mtu_locked" u32 1;
    bit "rt_pmtu" u32 31;
    fld "rt_uncached" struct_list_head;
    fld "rt_uncached_list" (ptr "struct uncached_list")].

Definition struct_ipv4_devconf : ctype :=
  cstruct "ipv4_devconf" [
    fld "sysctl" (ptr "void");
    fld "data" (array c_int 33);
    fld "state" (array c_ulong 1)].

Definition struct_in_device : ctype :=
  cstruct "in_device" [
    fld "dev" (ptr "struct net_device");
    fld "dev_tracker" netdevice_tracker;
    fld "refcnt" refcount_t;
    fld "dead" c_int;
    fld "ifa_list" (ptr "struct in_ifaddr");
    fld "mc_list" (ptr "struct ip_mc_list");
    fld "mc_hash" (ptr "struct ip_mc_list *");
    fld "mc_count" c_int;
    fld "mc_tomb_lock" spinlock_t;
    fld "mc_tomb" (ptr "struct ip_mc_list");
    fld "mr_v1_seen" c_ulong;
    fld "mr_v2_seen" c_ulong;
    fld "mr_maxdelay" c_ulong;
    fld "mr_qi" c_ulong;
    fld "mr_qri" c_ulong;
    fld "mr_qrv" c_uchar;
    fld "mr_gq_running" c_uchar;
    fld "mr_ifc_count" u32;
    fld "mr_gq_timer" struct_timer_list;
    fld "mr_ifc_timer" struct_timer_list;
    fld "arp_parms" (ptr "struct neigh_parms");
    fld "cnf" struct_ipv4_devconf;
    fld "callback_head" struct_callback_head].

(** The types of this file, by name. *)
Definition vmdev_types : list (string * ctype) := [
  ("struct kref", struct_kref);
  ("struct kobject", struct_kobject);
  ("struct swait_queue_head", struct_swait_queue_head);
  ("struct completion", struct_completion);
  ("s16", s16);
  ("enum dl_dev_state", enum_dl_dev_state);
  ("struct dev_links_info", struct_dev_links_info);
  ("struct pm_message", struct_pm_message);
  ("pm_message_t", pm_message_t);
  ("enum rpm_request", enum_rpm_request);
  ("enum rpm_status", enum_rpm_status);
  ("struct dev_pm_info", struct_dev_pm_info);
  ("struct dev_msi_info", struct_dev_msi_info);
  ("struct dev_archdata", struct_dev_archdata);
  ("enum device_removable", enum_device_removable);
  ("struct device", struct_device);
  ("struct net_device_stats", struct_net_device_stats);
  ("struct netdev_hw_addr_list", struct_netdev_hw_addr_list);
  ("enum netdev_ml_priv_type", enum_netdev_ml_priv_type);
  ("enum netdev_stat_type", enum_netdev_stat_type);
  ("struct netdev_tc_txq", struct_netdev_tc_txq);
  ("struct bpf_xdp_entity", struct_bpf_xdp_entity);
  ("struct net_device", struct_net_device);
  ("struct hh_cache", struct_hh_cache);
  ("struct neighbour", struct_neighbour);
  ("struct ipv6_stable_secret", struct_ipv6_stable_secret);
  ("struct ipv6_devconf", struct_ipv6_devconf);
  ("struct ipv6_devstat", struct_ipv6_devstat);
  ("struct inet6_dev", struct_inet6_dev);
  ("struct rt6key", struct_rt6key);
  ("struct rt6_info", struct_rt6_info);
  ("struct rtable", struct_rtable);
  ("struct ipv4_devconf", struct_ipv4_devconf);
  ("struct in_device", struct_in_device)].
