(* ===== verification/Vmlinux.v ===== *)
(** * The kernel type environment

    The translated declarations of [internal/agent/ebpf/vmlinux.h] collected in
    one table, and what holds of all of them: every declaration is well formed,
    so the layout theorems of [CLayout] apply to each; the generic [struct sock]
    is the first member of every protocol control block, so an access path from
    a [struct sock *] reaches the same bytes whichever protocol owns the socket. *)

From stdpp Require Import base list strings numbers.
From S2P Require Import Prelude CLayout VmSock VmInet VmSocket VmTask VmCgroup VmBpf VmNet VmDev.

Definition vmlinux_types : list (string * ctype) :=
  vmsock_types ++ vminet_types ++ vmsocket_types ++ vmtask_types ++
  vmcgroup_types ++ vmbpf_types ++ vmnet_types ++ vmdev_types.

(** The value of an enumeration constant. *)
Definition enum_value (t : ctype) (c : string) : option Z :=
  match t with
  | TEnum _ cs => (fun e => e.2.2) <$> list_find (fun e => fst e = c) cs
  | _ => None
  end.

Lemma vmlinux_types_wf : forallb (fun d => wf (snd d)) vmlinux_types = true.
Proof. vm_compute. reflexivity. Qed.

Lemma vmlinux_wf n t : (n, t) ∈ vmlinux_types -> wf t = true.
Proof.
  intros Hin. pose proof vmlinux_types_wf as H. rewrite forallb_forall in H.
  apply (H (n, t)). by apply list_elem_of_In.
Qed.

(** Composition of access paths. *)
Lemma resolve_app t p q o t' :
  resolve t p = Some (o, t') ->
  resolve t (p ++ q) = match resolve t' q with Some (o', t'') => Some (o + o', t'') | None => None end.
Proof.
  revert t o. induction p as [|f p IH]; intros t o Hr; simpl in *.
  - injection Hr as <- <-. by destruct (resolve t q) as [[? ?]|].
  - destruct (find_field t f) as [[[o1 t1] [w|]]|] eqn:Ef; try done.
    destruct (resolve t1 p) as [[o2 t2]|] eqn:Er; [|done]. injection Hr as <- <-.
    rewrite (IH _ _ Er). destruct (resolve t2 q) as [[? ?]|]; [|done]. do 2 f_equal. lia.
Qed.

(** The control blocks a probed [struct sock *] may point to, with the path to
    the embedded [struct sock]. *)
Definition sock_containers : list (ctype * list string) := [
  (struct_inet_sock, ["sk"]);
  (struct_inet_connection_sock, ["icsk_inet"; "sk"]);
  (struct_tcp_sock, ["inet_conn"; "icsk_inet"; "sk"]);
  (struct_tcp6_sock, ["tcp"; "inet_conn"; "icsk_inet"; "sk"]);
  (struct_udp_sock, ["inet"; "sk"]);
  (struct_udp6_sock, ["udp"; "inet"; "sk"]);
  (struct_raw6_sock, ["inet"; "sk"])].

Lemma sock_containers_prefix :
  Forall (fun d => resolve d.1 d.2 = Some (0, struct_sock)) sock_containers.
Proof. repeat constructor. Qed.

Lemma sock_container_wf d : d ∈ sock_containers -> wf d.1 = true.
Proof.
  intros Hin. assert (forallb (fun d => wf d.1) sock_containers = true) as H
    by (vm_compute; reflexivity).
  rewrite forallb_forall in H. apply (H d). by apply list_elem_of_In.
Qed.

(** The access paths of [fill_event], as written in the BPF program. *)
Definition path_family : list string := ["__sk_common"; "skc_family"].
Definition path_state : list string := ["__sk_common"; "skc_state"].
Definition path_num : list string := ["__sk_common"; "skc_num"].
Definition path_dport : list string := ["__sk_common"; "skc_dport"].
Definition path_rcv_saddr : list string := ["__sk_common"; "skc_rcv_saddr"].
Definition path_daddr : list string := ["__sk_common"; "skc_daddr"].
Definition path_v6_rcv_saddr : list string :=
  ["__sk_common"; "skc_v6_rcv_saddr"; "in6_u"; "u6_addr8"].
Definition path_v6_daddr : list string :=
  ["__sk_common"; "skc_v6_daddr"; "in6_u"; "u6_addr8"].

Definition sock_paths : list (list string) :=
  [path_family; path_state; path_num; path_dport; path_rcv_saddr; path_daddr;
   path_v6_rcv_saddr; path_v6_daddr].

(** [struct sock *] reads are independent of the owning protocol: a path of the
    program resolves inside every control block to the place it has in
    [struct sock]. *)
Lemma container_path d p :
  d ∈ sock_containers -> resolve d.1 (d.2 ++ p) = resolve struct_sock p.
Proof.
  intros Hin. pose proof sock_containers_prefix as H. rewrite Forall_forall in H.
  specialize (H d (proj1 (list_elem_of_In _ _) Hin)). rewrite (resolve_app _ _ _ _ _ H).
  by destruct (resolve struct_sock p) as [[? ?]|].
Qed.

(** The layout of a declared struct: members in order without overlap, each
    inside the object. *)
Lemma struct_layout_sound tag packed ms i j si sj :
  wf (TStruct tag packed ms) = true -> (i < j)%nat ->
  slots (TStruct tag packed ms) !! i = Some si -> slots (TStruct tag packed ms) !! j = Some sj ->
  0 <= slot_off si /\ slot_off si + slot_width si <= slot_off sj /\
  slot_off sj + slot_width sj <= size_bits (TStruct tag packed ms).
Proof.
  intros Hwf Hij Hi Hj. simpl in Hwf, Hi, Hj.
  pose proof (struct_slots_ordered packed 0 ms i j si sj Hwf ltac:(lia) Hij Hi Hj).
  apply list_elem_of_lookup_2 in Hi, Hj.
  apply (struct_slots_range packed ms 0 8) in Hi as (? & ? & _); [|triv..].
  apply (struct_slots_range packed ms 0 8) in Hj as (_ & _ & ?); [|triv..].
  pose proof (struct_extent_le_size tag packed ms Hwf). lia.
Qed.
