(* ===== verification/KernelMem.v ===== *)
(** * Kernel memory and CO-RE reads

    Byte memory, the helper the BPF program reads the kernel with
    ([bpf_probe_read_kernel], behind [BPF_CORE_READ] and [bpf_core_read]) and
    the relocation of the program's access paths to the layout of the kernel it
    runs on. *)

From stdpp Require Import base list strings numbers.
From S2P Require Import Prelude CLayout VmSock VmInet VmSocket Vmlinux.

(** ** Byte order of the target ([bpfel] or [bpfeb]) *)

Inductive endian := LE | BE.

#[export] Instance endian_eq_dec : EqDecision endian.
Proof. solve_decision. Defined.

Definition store (e : endian) (n : nat) (z : Z) : list Z :=
  match e with LE => le_bytes n z | BE => be_bytes n z end.

Definition load (e : endian) (bs : list Z) : Z :=
  match e with LE => le_val bs | BE => be_val bs end.

(** [bpf_htons]: swaps the bytes on a little-endian target. *)
Definition bpf_htons (e : endian) (x : Z) : Z :=
  match e with
  | LE => Z.lor (Z.shiftl (Z.land x 255) 8) (Z.shiftr x 8)
  | BE => x
  end.

Lemma length_store e n z : length (store e n z) = n.
Proof. destruct e; simpl; by rewrite ?length_le_bytes, ?length_be_bytes. Qed.

Lemma store_bytes e n z : Forall is_byte (store e n z).
Proof. destruct e; simpl; auto with flow. Qed.

Lemma load_store e n z : 0 <= z < 256 ^ Z.of_nat n -> load e (store e n z) = z.
Proof. intros. destruct e; simpl; [by apply le_bytes_le_val | by apply be_bytes_be_val]. Qed.

Lemma store_load e bs : Forall is_byte bs -> store e (length bs) (load e bs) = bs.
Proof.
  intros H. destruct e; simpl; [by apply le_bytes_of_val|].
  unfold be_bytes, be_val. rewrite <- (length_reverse bs), le_bytes_of_val by (by apply Forall_reverse).
  apply reverse_involutive.
Qed.

Lemma load_range e bs : Forall is_byte bs -> 0 <= load e bs < 256 ^ Z.of_nat (length bs).
Proof.
  intros H. destruct e; simpl; [by apply le_val_bound|].
  unfold be_val. rewrite <- (length_reverse bs). apply le_val_bound. by apply Forall_reverse.
Qed.

Lemma bpf_htons_le x : in_u 16 x -> bpf_htons LE x = x mod 256 * 256 + x / 256.
Proof.
  intros Hx. unfold in_u in Hx. simpl. change 255 with (Z.ones 8).
  rewrite Z.land_ones, Z.shiftr_div_pow2 by lia. change (2 ^ 8) with 256.
  rewrite lor_shiftl_add; [done|lia|]. change (2 ^ 8) with 256.
  split; [apply Z.div_pos; lia|apply Z.div_lt_upper_bound; lia].
Qed.

(** The port a host-order number is stored as: network order on every target. *)
Lemma store_htons e x : in_u 16 x -> store e 2 (bpf_htons e x) = be_bytes 2 x.
Proof.
  intros Hx. destruct e; [|done]. rewrite bpf_htons_le by done. unfold in_u in Hx.
  assert (0 <= x / 256 < 256) by (split; [apply Z.div_pos; lia|apply Z.div_lt_upper_bound; lia]).
  pose proof (Z.mod_pos_bound x 256 ltac:(lia)).
  simpl. unfold be_bytes. simpl. rewrite Z.add_comm, Z.mod_add, Z.div_add by lia.
  rewrite (Z.mod_small (x / 256)), (Z.div_small (x / 256)), Z.add_0_l by lia.
  rewrite Z.mod_mod by lia. done.
Qed.

(** ** Memory *)

Definition memory : Type := Z -> option Z.

Fixpoint read_bytes (m : memory) (a : Z) (n : nat) : option (list Z) :=
  match n with
  | O => Some []
  | S n' =>
      match m a, read_bytes m (a + 1) n' with
      | Some b, Some bs => Some (b :: bs)
      | _, _ => None
      end
  end.

(** [bpf_probe_read_kernel(dst, n, a)]: a faulting read zeroes the destination. *)
Definition probe_read_kernel (m : memory) (n : nat) (a : Z) : list Z :=
  match read_bytes m a n with
  | Some bs => bs
  | None => replicate n 0
  end.

Definition mem_ok (m : memory) : Prop := forall a b, m a = Some b -> is_byte b.

Lemma read_bytes_spec m a n bs :
  mem_ok m -> read_bytes m a n = Some bs -> length bs = n /\ Forall is_byte bs.
Proof.
  intros Hm. revert a bs. induction n as [|n IH]; intros a bs H; simpl in H.
  - by injection H as <-.
  - destruct (m a) as [b|] eqn:Ea; [|done].
    destruct (read_bytes m (a + 1) n) as [bs'|] eqn:Er; [|done]. injection H as <-.
    apply IH in Er as [? ?]. split; [simpl; lia|]. constructor; [by eapply Hm|done].
Qed.

Lemma probe_read_spec m n a :
  mem_ok m ->
  length (probe_read_kernel m n a) = n /\ Forall is_byte (probe_read_kernel m n a).
Proof.
  intros Hm. unfold probe_read_kernel.
  destruct (read_bytes m a n) as [bs|] eqn:E; [by apply (read_bytes_spec m a)|].
  rewrite length_replicate. split; [done|]. apply Forall_replicate. unfold is_byte. lia.
Qed.

(** ** Objects in memory *)

(** [bs] is stored at [a]. *)
Definition mem_at (m : memory) (a : Z) (bs : list Z) : Prop :=
  read_bytes m a (length bs) = Some bs.

(** The memory holding one object at [base]. *)
Definition object_memory (base : Z) (bs : list Z) : memory :=
  fun a => if (base <=? a) && (a <? base + Z.of_nat (length bs))
           then bs !! Z.to_nat (a - base) else None.

Lemma read_bytes_object base bs o n :
  (o + n <= length bs)%nat ->
  read_bytes (object_memory base bs) (base + Z.of_nat o) n = Some (take n (drop o bs)).
Proof.
  revert o. induction n as [|n IH]; intros o Hle; [done|]. simpl.
  replace (base + Z.of_nat o + 1) with (base + Z.of_nat (S o)) by lia.
  rewrite IH by lia. unfold object_memory.
  replace ((base <=? base + Z.of_nat o) && (base + Z.of_nat o <? base + Z.of_nat (length bs)))
    with true by (symmetry; apply andb_true_iff; split; [apply Z.leb_le|apply Z.ltb_lt]; lia).
  replace (Z.to_nat (base + Z.of_nat o - base)) with o by lia.
  destruct (lookup_lt_is_Some_2 bs o) as [b Hb]; [lia|]. rewrite Hb.
  by rewrite (drop_S bs b o Hb).
Qed.

(** Overwriting part of an object, the effect of assigning a member. *)
Definition write_at (o : nat) (bs : list Z) (obj : list Z) : list Z :=
  take o obj ++ bs ++ drop (o + length bs) obj.

Lemma length_write_at o bs obj :
  (o + length bs <= length obj)%nat -> length (write_at o bs obj) = length obj.
Proof. intros. unfold write_at. len. Qed.

Lemma write_at_read o bs obj :
  (o + length bs <= length obj)%nat -> take (length bs) (drop o (write_at o bs obj)) = bs.
Proof.
  intros. unfold write_at. rewrite drop_app_length' by len. by rewrite take_app_length.
Qed.

Lemma write_at_read_other o bs obj o' n :
  (o + length bs <= length obj)%nat -> (o' + n <= length obj)%nat ->
  (o' + n <= o \/ o + length bs <= o')%nat ->
  take n (drop o' (write_at o bs obj)) = take n (drop o' obj).
Proof.
  intros Hb Hn Hdis. unfold write_at.
  apply list_eq. intros i. destruct (decide (i < n)%nat) as [Hi|Hi].
  2:{ rewrite !lookup_take_ge by lia. done. }
  rewrite !lookup_take_lt by done. rewrite !lookup_drop.
  destruct Hdis.
  - rewrite lookup_app_l by len. by rewrite lookup_take_lt by lia.
  - rewrite lookup_app_r by len. rewrite lookup_app_r by len.
    rewrite lookup_drop. f_equal. len.
Qed.
