(* ===== verification/BpfIface.v ===== *)
(** * Kernel services of the BPF program

    The maps and the ring buffer are kernel objects: the program only calls
    their helpers.  Each is an interface, a class of operations with the laws
    the kernel documents, and the program's theorems are proved against the
    interface.  The instances at the end (an LRU map of bounded size, a ring of
    bounded bytes) show that the laws can be met. *)

From stdpp Require Import base list numbers gmap.
From S2P Require Import Prelude.

(** ** [BPF_MAP_TYPE_LRU_HASH]

    Updating a full LRU map makes room by evicting other entries, so an update
    succeeds for its own key and may lose others. *)
Class BpfMap (K V M : Type) := {
  map_empty : M;
  map_lookup_elem : M -> K -> option V;
  map_update_elem : M -> K -> V -> M;
  map_delete_elem : M -> K -> M;
}.

Class BpfMapLaws (K V M : Type) `{BpfMap K V M} := {
  lookup_map_empty : forall k, map_lookup_elem map_empty k = None;
  lookup_update_same : forall m k v, map_lookup_elem (map_update_elem m k v) k = Some v;
  lookup_update_other : forall m k v k' v',
    k <> k' -> map_lookup_elem (map_update_elem m k v) k' = Some v' ->
    map_lookup_elem m k' = Some v';
  lookup_delete_same : forall m k, map_lookup_elem (map_delete_elem m k) k = None;
  lookup_delete_other : forall m k k',
    k <> k' -> map_lookup_elem (map_delete_elem m k) k' = map_lookup_elem m k';
}.

(** The update of [k] evicts nothing. *)
Definition keeps_others {K V M} `{BpfMap K V M} (m : M) (k : K) (v : V) : Prop :=
  forall k', k <> k' -> map_lookup_elem (map_update_elem m k v) k' = map_lookup_elem m k'.

(** ** [BPF_MAP_TYPE_RINGBUF]

    [reserve] fails when there is no room for the record; a reserved record is
    either submitted, and then visible to the consumer after those submitted
    before it, or discarded. *)
Class BpfRing (R : Type) := {
  ringbuf_reserve : R -> Z -> option R;
  ringbuf_submit : R -> list Z -> R;
  ringbuf_discard : R -> R;
  ringbuf_records : R -> list (list Z);
}.

Class BpfRingLaws (R : Type) `{BpfRing R} := {
  reserve_records : forall r n r', ringbuf_reserve r n = Some r' ->
    ringbuf_records r' = ringbuf_records r;
  submit_records : forall r bs, ringbuf_records (ringbuf_submit r bs) = ringbuf_records r ++ [bs];
  discard_records : forall r, ringbuf_records (ringbuf_discard r) = ringbuf_records r;
}.

(** ** An LRU map of bounded size

    Entries from the most to the least recently updated. *)
Module LruMap.
Record lru (cap : nat) (V : Type) : Type := Lru { entries : list (Z * V) }.
#[global] Arguments Lru {cap V} _.
#[global] Arguments entries {cap V} _.

Section lru.
Context (cap : nat) {V : Type}.

Definition t : Type := list (Z * V).

Definition lookup (m : t) (k : Z) : option V :=
  snd <$> find (fun e => fst e =? k) m.

Definition delete (m : t) (k : Z) : t := List.filter (fun e => negb (fst e =? k)) m.

Definition update (m : t) (k : Z) (v : V) : t :=
  (k, v) :: take (pred cap) (delete m k).

Lemma lookup_take m n k v : lookup (take n m) k = Some v -> lookup m k = Some v.
Proof.
  revert n. induction m as [|e m IH]; intros [|n]; unfold lookup; simpl; try done.
  destruct (fst e =? k); [done|]. apply IH.
Qed.

Lemma lookup_delete_eq m k : lookup (delete m k) k = None.
Proof.
  induction m as [|e m IH]; [done|]. unfold lookup in *. simpl.
  destruct (fst e =? k) eqn:E; simpl; [done|]. by rewrite E.
Qed.

Lemma lookup_delete_ne m k k' : k <> k' -> lookup (delete m k) k' = lookup m k'.
Proof.
  intros Hne. induction m as [|e m IH]; [done|]. unfold lookup in *. simpl.
  destruct (fst e =? k) eqn:E; simpl.
  - apply Z.eqb_eq in E. replace (fst e =? k') with false by (symmetry; apply Z.eqb_neq; congruence).
    done.
  - by destruct (fst e =? k').
Qed.

Lemma length_delete m k : (length (delete m k) <= length m)%nat.
Proof. apply List.filter_length_le. Qed.

(** Below its capacity the map evicts nothing. *)
Lemma update_keeps m k v k' :
  (length m < cap)%nat -> k <> k' -> lookup (update m k v) k' = lookup m k'.
Proof.
  intros Hlen Hne. unfold update. rewrite take_ge by (pose proof (length_delete m k); lia).
  unfold lookup at 1. simpl. replace (k =? k') with false by (symmetry; by apply Z.eqb_neq).
  by apply lookup_delete_ne.
Qed.

#[export] Instance lru_map : BpfMap Z V (lru cap V) := {|
  map_empty := Lru [];
  map_lookup_elem := fun m k => lookup (entries m) k;
  map_update_elem := fun m k v => Lru (update (entries m) k v);
  map_delete_elem := fun m k => Lru (delete (entries m) k) |}.

#[export] Instance lru_map_laws : BpfMapLaws Z V (lru cap V).
Proof.
  split; simpl.
  - done.
  - intros m k v. unfold lookup, update. simpl. by rewrite Z.eqb_refl.
  - intros m k v k' v' Hne. unfold update, lookup at 1. simpl.
    replace (k =? k') with false by (symmetry; by apply Z.eqb_neq).
    intros Hl. apply lookup_take in Hl. by rewrite lookup_delete_ne in Hl.
  - intros. apply lookup_delete_eq.
  - intros. by apply lookup_delete_ne.
Qed.

Lemma lru_keeps_others (m : lru cap V) k v : (length (entries m) < cap)%nat -> keeps_others m k v.
Proof. intros Hlen k' Hne. simpl. by apply update_keeps. Qed.
End lru.
End LruMap.
#[export] Existing Instance LruMap.lru_map.
#[export] Existing Instance LruMap.lru_map_laws.

(** ** A ring of bounded bytes

    A record takes an 8-byte header and is rounded up to 8 bytes; [used] counts
    what the consumer has not released yet. *)
Module ByteRing.
Record t := Ring { cap : Z; used : Z; records : list (list Z) }.

Definition footprint (n : Z) : Z := align_up (n + 8) 8.

Definition reserve (r : t) (n : Z) : option t :=
  if used r + footprint n <=? cap r
  then Some (Ring (cap r) (used r + footprint n) (records r)) else None.

Definition submit (r : t) (bs : list Z) : t := Ring (cap r) (used r) (records r ++ [bs]).

Definition discard (r : t) : t := r.

Definition empty (c : Z) : t := Ring c 0 [].

#[export] Instance byte_ring : BpfRing t := {|
  ringbuf_reserve := reserve; ringbuf_submit := submit;
  ringbuf_discard := discard; ringbuf_records := records |}.

#[export] Instance byte_ring_laws : BpfRingLaws t.
Proof.
  split; simpl; [|done|done].
  intros r n r'. unfold reserve. by bool_cases; intros [= <-].
Qed.
End ByteRing.
#[export] Existing Instance ByteRing.byte_ring.
#[export] Existing Instance ByteRing.byte_ring_laws.
