(* ===== verification/SocketFlow.v ===== *)
(** * The BPF program [internal/agent/ebpf/socket_flow.bpf.c]

    The whole program: the event structure and its bytes, the three maps, the
    helpers [fill_event], [emit], [save_send], [emit_send] and the seven probe
    handlers.  Kernel services come from the interfaces of [BpfIface]; what a
    helper returns in one invocation (clock, cgroup, thread, memory) is the
    [bpf_env] the handler runs in. *)

From stdpp Require Import base list strings numbers.
From S2P Require Import Prelude CLayout VmSock VmInet VmSocket VmBpf Vmlinux KernelMem BpfIface.

Definition AF_INET : Z := 2.
Definition AF_INET6 : Z := 10.
Definition IPPROTO_TCP : Z := 6.
Definition IPPROTO_UDP : Z := 17.

(** ** [struct flow_event] *)

Definition struct_flow_event : ctype :=
  cstruct "flow_event" [
    fld "monotonic_ns" __u64;
    fld "cgroup_id" __u64;
    fld "pid" __u32;
    fld "family" __u8;
    fld "protocol" __u8;
    fld "state" __u8;
    fld "pad1" __u8;
    fld "local_port" __be16;
    fld "remote_port" __be16;
    fld "local_addr" (array __u8 16);
    fld "remote_addr" (array __u8 16);
    fld "pad2" __u32;
    fld "sent" __u64;
    fld "received" __u64].

Record flow_event : Type := FlowEvent {
  monotonic_ns : Z;
  cgroup_id : Z;
  pid : Z;
  family : Z;
  protocol : Z;
  state : Z;
  pad1 : Z;
  local_port : Z;
  remote_port : Z;
  local_addr : list Z;
  remote_addr : list Z;
  pad2 : Z;
  sent : Z;
  received : Z;
}.

#[export] Instance flow_event_eq_dec : EqDecision flow_event.
Proof. solve_decision. Defined.

(** [__builtin_memset(event, 0, sizeof( *event))]. *)
Definition zero_event : flow_event :=
  FlowEvent 0 0 0 0 0 0 0 0 0 (replicate 16 0) (replicate 16 0) 0 0 0.

Definition set_sent (v : Z) (ev : flow_event) : flow_event :=
  FlowEvent (monotonic_ns ev) (cgroup_id ev) (pid ev) (family ev) (protocol ev) (state ev)
    (pad1 ev) (local_port ev) (remote_port ev) (local_addr ev) (remote_addr ev) (pad2 ev)
    v (received ev).

Definition set_received (v : Z) (ev : flow_event) : flow_event :=
  FlowEvent (monotonic_ns ev) (cgroup_id ev) (pid ev) (family ev) (protocol ev) (state ev)
    (pad1 ev) (local_port ev) (remote_port ev) (local_addr ev) (remote_addr ev) (pad2 ev)
    (sent ev) v.

Definition set_addrs (l r : list Z) (ev : flow_event) : flow_event :=
  FlowEvent (monotonic_ns ev) (cgroup_id ev) (pid ev) (family ev) (protocol ev) (state ev)
    (pad1 ev) (local_port ev) (remote_port ev) l r (pad2 ev) (sent ev) (received ev).

(** The bytes of an event in memory: every member written at its offset. *)
Definition event_field (f : string) (bs : list Z) (obj : list Z) : list Z :=
  match offsetof struct_flow_event [f] with
  | Some o => write_at (Z.to_nat o) bs obj
  | None => obj
  end.

Definition encode_event (e : endian) (ev : flow_event) : list Z :=
  event_field "monotonic_ns" (store e 8 (monotonic_ns ev)) $
  event_field "cgroup_id" (store e 8 (cgroup_id ev)) $
  event_field "pid" (store e 4 (pid ev)) $
  event_field "family" (store e 1 (family ev)) $
  event_field "protocol" (store e 1 (protocol ev)) $
  event_field "state" (store e 1 (state ev)) $
  event_field "pad1" (store e 1 (pad1 ev)) $
  event_field "local_port" (store e 2 (local_port ev)) $
  event_field "remote_port" (store e 2 (remote_port ev)) $
  event_field "local_addr" (local_addr ev) $
  event_field "remote_addr" (remote_addr ev) $
  event_field "pad2" (store e 4 (pad2 ev)) $
  event_field "sent" (store e 8 (sent ev)) $
  event_field "received" (store e 8 (received ev)) $
  replicate (Z.to_nat (sizeof struct_flow_event)) 0.

(** Type invariant of an event: every member fits its C type. *)
Record event_ok (ev : flow_event) : Prop := EventOk {
  ok_monotonic : in_u 64 (monotonic_ns ev);
  ok_cgroup : in_u 64 (cgroup_id ev);
  ok_pid : in_u 32 (pid ev);
  ok_family : in_u 8 (family ev);
  ok_protocol : in_u 8 (protocol ev);
  ok_state : in_u 8 (state ev);
  ok_pad1 : pad1 ev = 0;
  ok_local_port : in_u 16 (local_port ev);
  ok_remote_port : in_u 16 (remote_port ev);
  ok_local_len : length (local_addr ev) = 16%nat;
  ok_local_bytes : Forall is_byte (local_addr ev);
  ok_remote_len : length (remote_addr ev) = 16%nat;
  ok_remote_bytes : Forall is_byte (remote_addr ev);
  ok_pad2 : pad2 ev = 0;
  ok_sent : in_u 64 (sent ev);
  ok_received : in_u 64 (received ev);
}.

(** ** Maps *)

Record map_def : Type := MapDef {
  map_type : option Z; max_entries : Z; key_type : option ctype; value_type : option ctype }.

Definition events_map : map_def :=
  MapDef (enum_value enum_bpf_map_type "BPF_MAP_TYPE_RINGBUF") (Z.shiftl 1 24) None None.

Definition udp_receives_map : map_def :=
  MapDef (enum_value enum_bpf_map_type "BPF_MAP_TYPE_LRU_HASH") 16384
    (Some __u64) (Some struct_flow_event).

Definition pending_sends_map : map_def :=
  MapDef (enum_value enum_bpf_map_type "BPF_MAP_TYPE_LRU_HASH") 16384
    (Some __u64) (Some struct_flow_event).

(** ** CO-RE relocations

    The offsets of the members the program reads, resolved against the type
    [struct sock] has on the running kernel; loading fails when one is absent. *)
Record relocs : Type := Relocs {
  off_family : Z; off_state : Z; off_num : Z; off_dport : Z;
  off_rcv_saddr : Z; off_daddr : Z; off_v6_rcv_saddr : Z; off_v6_daddr : Z }.

Definition relocate (sock_t : ctype) : option relocs :=
  match offsetof sock_t path_family, offsetof sock_t path_state,
        offsetof sock_t path_num, offsetof sock_t path_dport,
        offsetof sock_t path_rcv_saddr, offsetof sock_t path_daddr,
        offsetof sock_t path_v6_rcv_saddr, offsetof sock_t path_v6_daddr with
  | Some a, Some b, Some c, Some d, Some e, Some f, Some g, Some h =>
      Some (Relocs a b c d e f g h)
  | _, _, _, _, _, _, _, _ => None
  end.

(** ** One invocation *)

Record bpf_env : Type := BpfEnv {
  env_endian : endian;
  env_relocs : relocs;
  bpf_ktime_get_ns : Z;
  bpf_get_current_cgroup_id : Z;
  bpf_get_current_pid_tgid : Z;
  env_mem : memory;
}.

(** The probe context: the registers of [struct pt_regs]. *)
Definition pt_ctx : Type := nat -> Z.
Definition PT_REGS_PARM1 (ctx : pt_ctx) : Z := ctx 0%nat.
Definition PT_REGS_PARM2 (ctx : pt_ctx) : Z := ctx 1%nat.
Definition PT_REGS_RC (ctx : pt_ctx) : Z := ctx 0%nat.

(** [BPF_CORE_READ(sk, path)] of an [n]-byte member. *)
Definition core_read (env : bpf_env) (sk off : Z) (n : nat) : list Z :=
  probe_read_kernel (env_mem env) n (sk + off).

Definition core_read_int (env : bpf_env) (sk off : Z) (n : nat) : Z :=
  load (env_endian env) (core_read env sk off n).

(** ** [fill_event]

    Returns the event and whether the socket's family is supported; on an
    unsupported family the common members have been written all the same. *)
Definition fill_event (env : bpf_env) (sk : Z) (proto : Z) : flow_event * Z :=
  let r := env_relocs env in
  let e := env_endian env in
  let fam := wrap_u 8 (core_read_int env sk (off_family r) 2) in
  let num := core_read_int env sk (off_num r) 2 in
  let event :=
    FlowEvent (bpf_ktime_get_ns env) (bpf_get_current_cgroup_id env)
      (wrap_u 32 (Z.shiftr (bpf_get_current_pid_tgid env) 32))
      fam proto (core_read_int env sk (off_state r) 1) 0
      (bpf_htons e num) (core_read_int env sk (off_dport r) 2)
      (replicate 16 0) (replicate 16 0) 0 0 0 in
  if fam =? AF_INET then
    let local_v4 := core_read_int env sk (off_rcv_saddr r) 4 in
    let remote_v4 := core_read_int env sk (off_daddr r) 4 in
    (set_addrs (write_at 0 (store e 4 local_v4) (local_addr event))
               (write_at 0 (store e 4 remote_v4) (remote_addr event)) event, 1)
  else if fam =? AF_INET6 then
    (set_addrs (core_read env sk (off_v6_rcv_saddr r) 16)
               (core_read env sk (off_v6_daddr r) 16) event, 1)
  else (event, 0).

Section program.
Context {M R : Type} `{BpfMap Z flow_event M} `{BpfRing R}.

Record bpf_state : Type := BpfState {
  events : R;
  udp_receives : M;
  pending_sends : M;
}.

Definition set_events (r : R) (st : bpf_state) : bpf_state :=
  BpfState r (udp_receives st) (pending_sends st).
Definition set_udp_receives (m : M) (st : bpf_state) : bpf_state :=
  BpfState (events st) m (pending_sends st).
Definition set_pending_sends (m : M) (st : bpf_state) : bpf_state :=
  BpfState (events st) (udp_receives st) m.

Definition event_size : Z := sizeof struct_flow_event.

Definition emit (env : bpf_env) (sk proto sent_v received_v : Z) (st : bpf_state)
  : Z * bpf_state :=
  match ringbuf_reserve (events st) event_size with
  | None => (0, st)
  | Some ring =>
      let '(event, ok) := fill_event env sk proto in
      if ok =? 0 then (0, set_events (ringbuf_discard ring) st)
      else
        let event := set_received received_v (set_sent sent_v event) in
        (0, set_events (ringbuf_submit ring (encode_event (env_endian env) event)) st)
  end.

Definition save_send (env : bpf_env) (sk proto : Z) (st : bpf_state) : Z * bpf_state :=
  let id := bpf_get_current_pid_tgid env in
  let '(event, ok) := fill_event env sk proto in
  if ok =? 0 then (0, st)
  else (0, set_pending_sends (map_update_elem (pending_sends st) id event) st).

Definition emit_send (env : bpf_env) (copied : Z) (st : bpf_state) : Z * bpf_state :=
  let id := bpf_get_current_pid_tgid env in
  match map_lookup_elem (pending_sends st) id with
  | None => (0, st)
  | Some saved =>
      let st :=
        if 0 <? copied then
          match ringbuf_reserve (events st) event_size with
          | Some ring =>
              let event := set_sent (wrap_u 64 copied) saved in
              set_events (ringbuf_submit ring (encode_event (env_endian env) event)) st
          | None => st
          end
        else st in
      (0, set_pending_sends (map_delete_elem (pending_sends st) id) st)
  end.

Definition trace_tcp_sendmsg (env : bpf_env) (ctx : pt_ctx) (st : bpf_state) : Z * bpf_state :=
  save_send env (PT_REGS_PARM1 ctx) IPPROTO_TCP st.

Definition trace_tcp_sendmsg_return (env : bpf_env) (ctx : pt_ctx) (st : bpf_state)
  : Z * bpf_state :=
  emit_send env (wrap_s 32 (PT_REGS_RC ctx)) st.

Definition trace_tcp_cleanup_rbuf (env : bpf_env) (ctx : pt_ctx) (st : bpf_state)
  : Z * bpf_state :=
  let copied := wrap_s 32 (PT_REGS_PARM2 ctx) in
  if 0 <? copied
  then emit env (PT_REGS_PARM1 ctx) IPPROTO_TCP 0 (wrap_u 64 copied) st
  else (0, st).

Definition trace_udp_sendmsg (env : bpf_env) (ctx : pt_ctx) (st : bpf_state) : Z * bpf_state :=
  save_send env (PT_REGS_PARM1 ctx) IPPROTO_UDP st.

Definition trace_udp_sendmsg_return (env : bpf_env) (ctx : pt_ctx) (st : bpf_state)
  : Z * bpf_state :=
  emit_send env (wrap_s 32 (PT_REGS_RC ctx)) st.

Definition trace_udp_recvmsg (env : bpf_env) (ctx : pt_ctx) (st : bpf_state) : Z * bpf_state :=
  let id := bpf_get_current_pid_tgid env in
  let '(event, ok) := fill_event env (PT_REGS_PARM1 ctx) IPPROTO_UDP in
  if ok =? 0 then (0, st)
  else (0, set_udp_receives (map_update_elem (udp_receives st) id event) st).

Definition trace_udp_recvmsg_return (env : bpf_env) (ctx : pt_ctx) (st : bpf_state)
  : Z * bpf_state :=
  let copied := wrap_s 32 (PT_REGS_RC ctx) in
  let id := bpf_get_current_pid_tgid env in
  match map_lookup_elem (udp_receives st) id with
  | None => (0, st)
  | Some saved =>
      if copied <=? 0
      then (0, set_udp_receives (map_delete_elem (udp_receives st) id) st)
      else
        let st :=
          match ringbuf_reserve (events st) event_size with
          | Some ring =>
              let event := set_received (wrap_u 64 copied) saved in
              set_events (ringbuf_submit ring (encode_event (env_endian env) event)) st
          | None => st
          end in
        (0, set_udp_receives (map_delete_elem (udp_receives st) id) st)
  end.

(** The kernel runs one handler per probe hit; the attachment points are those
    of [NewTracer] in [tracer_linux.go]. *)
Inductive probe : Type :=
| P_tcp_sendmsg | P_tcp_sendmsg_return | P_tcp_cleanup_rbuf
| P_udp_sendmsg | P_udp_sendmsg_return | P_udp_recvmsg | P_udp_recvmsg_return.

Definition run_probe (p : probe) (env : bpf_env) (ctx : pt_ctx) (st : bpf_state)
  : Z * bpf_state :=
  match p with
  | P_tcp_sendmsg => trace_tcp_sendmsg env ctx st
  | P_tcp_sendmsg_return => trace_tcp_sendmsg_return env ctx st
  | P_tcp_cleanup_rbuf => trace_tcp_cleanup_rbuf env ctx st
  | P_udp_sendmsg => trace_udp_sendmsg env ctx st
  | P_udp_sendmsg_return => trace_udp_sendmsg_return env ctx st
  | P_udp_recvmsg => trace_udp_recvmsg env ctx st
  | P_udp_recvmsg_return => trace_udp_recvmsg_return env ctx st
  end.
End program.
Arguments bpf_state : clear implicits.

(** ** The bytes of an event *)

(** Turn a list of known length into its elements. *)
Ltac explode l H :=
  repeat (destruct l as [|? l]; [discriminate H|]);
  destruct l; [|discriminate H]; clear H.

(** The members are contiguous and in order: the record the consumer receives. *)
Lemma encode_event_concat e ev :
  length (local_addr ev) = 16%nat -> length (remote_addr ev) = 16%nat ->
  encode_event e ev =
    store e 8 (monotonic_ns ev) ++ store e 8 (cgroup_id ev) ++ store e 4 (pid ev) ++
    store e 1 (family ev) ++ store e 1 (protocol ev) ++ store e 1 (state ev) ++
    store e 1 (pad1 ev) ++ store e 2 (local_port ev) ++ store e 2 (remote_port ev) ++
    local_addr ev ++ remote_addr ev ++ store e 4 (pad2 ev) ++
    store e 8 (sent ev) ++ store e 8 (received ev).
Proof.
  intros Hl Hr. unfold encode_event.
  generalize (length_store e 8 (monotonic_ns ev)), (length_store e 8 (cgroup_id ev)),
    (length_store e 4 (pid ev)), (length_store e 1 (family ev)), (length_store e 1 (protocol ev)),
    (length_store e 1 (state ev)), (length_store e 1 (pad1 ev)), (length_store e 2 (local_port ev)),
    (length_store e 2 (remote_port ev)), (length_store e 4 (pad2 ev)),
    (length_store e 8 (sent ev)), (length_store e 8 (received ev)).
  generalize (store e 8 (monotonic_ns ev)), (store e 8 (cgroup_id ev)), (store e 4 (pid ev)),
    (store e 1 (family ev)), (store e 1 (protocol ev)), (store e 1 (state ev)),
    (store e 1 (pad1 ev)), (store e 2 (local_port ev)), (store e 2 (remote_port ev)),
    (store e 4 (pad2 ev)), (store e 8 (sent ev)), (store e 8 (received ev)).
  revert Hl Hr. generalize (local_addr ev), (remote_addr ev).
  intros la ra Hla Hra l1 l2 l3 l4 l5 l6 l7 l8 l9 l10 l11 l12 H1 H2 H3 H4 H5 H6 H7 H8 H9 H10 H11 H12.
  explode la Hla. explode ra Hra. explode l1 H1. explode l2 H2. explode l3 H3. explode l4 H4.
  explode l5 H5. explode l6 H6. explode l7 H7. explode l8 H8. explode l9 H9. explode l10 H10.
  explode l11 H11. explode l12 H12.
  vm_compute. reflexivity.
Qed.
