(* ===== verification/FillEvent.v ===== *)
(** * [fill_event] reads the socket it is given

    The abstract view of a socket (what a network programmer means by its
    family, ports and addresses), the relation that says kernel memory holds
    such a socket under a given layout, and the proof that [fill_event] turns
    the second into the first whatever the layout and byte order.  The last
    part builds a socket of the kernel of [vmlinux.h] in memory. *)

From stdpp Require Import base list strings numbers.
From S2P Require Import Prelude CLayout VmSock VmInet VmSocket VmBpf Vmlinux KernelMem BpfIface SocketFlow.

(** ** The abstract socket *)

Record sock_view : Type := SockView {
  sv_family : Z;
  sv_state : Z;
  sv_lport : Z;
  sv_rport : Z;
  sv_laddr4 : list Z;
  sv_raddr4 : list Z;
  sv_laddr6 : list Z;
  sv_raddr6 : list Z;
}.

Record view_ok (v : sock_view) : Prop := ViewOk {
  vok_family : in_u 8 (sv_family v);
  vok_state : in_u 8 (sv_state v);
  vok_lport : in_u 16 (sv_lport v);
  vok_rport : in_u 16 (sv_rport v);
  vok_l4 : length (sv_laddr4 v) = 4%nat /\ Forall is_byte (sv_laddr4 v);
  vok_r4 : length (sv_raddr4 v) = 4%nat /\ Forall is_byte (sv_raddr4 v);
  vok_l6 : length (sv_laddr6 v) = 16%nat /\ Forall is_byte (sv_laddr6 v);
  vok_r6 : length (sv_raddr6 v) = 16%nat /\ Forall is_byte (sv_raddr6 v);
}.

(** Memory [m] holds the socket [v] at [a] under the offsets [r]: the local port
    is in host order, the remote port and the addresses in network order. *)
Record sock_at (e : endian) (r : relocs) (m : memory) (a : Z) (v : sock_view) : Prop := SockAt {
  at_family : mem_at m (a + off_family r) (store e 2 (sv_family v));
  at_state : mem_at m (a + off_state r) (store e 1 (sv_state v));
  at_num : mem_at m (a + off_num r) (store e 2 (sv_lport v));
  at_dport : mem_at m (a + off_dport r) (be_bytes 2 (sv_rport v));
  at_rcv_saddr : mem_at m (a + off_rcv_saddr r) (sv_laddr4 v);
  at_daddr : mem_at m (a + off_daddr r) (sv_raddr4 v);
  at_v6_rcv_saddr : mem_at m (a + off_v6_rcv_saddr r) (sv_laddr6 v);
  at_v6_daddr : mem_at m (a + off_v6_daddr r) (sv_raddr6 v);
}.

(** The event a socket gives rise to, before the byte counts are set. *)
Definition event_addr (v : sock_view) (a4 a6 : list Z) : list Z :=
  if sv_family v =? AF_INET then a4 ++ replicate 12 0
  else if sv_family v =? AF_INET6 then a6
  else replicate 16 0.

Definition view_event (env : bpf_env) (v : sock_view) (proto : Z) : flow_event :=
  let e := env_endian env in
  FlowEvent (bpf_ktime_get_ns env) (bpf_get_current_cgroup_id env)
    (wrap_u 32 (Z.shiftr (bpf_get_current_pid_tgid env) 32))
    (sv_family v) proto (sv_state v) 0
    (load e (be_bytes 2 (sv_lport v))) (load e (be_bytes 2 (sv_rport v)))
    (event_addr v (sv_laddr4 v) (sv_laddr6 v)) (event_addr v (sv_raddr4 v) (sv_raddr6 v)) 0 0 0.

Definition supported_family (v : sock_view) : bool :=
  (sv_family v =? AF_INET) || (sv_family v =? AF_INET6).

(** ** Reading *)

Lemma probe_read_at m a bs n :
  mem_at m a bs -> length bs = n -> probe_read_kernel m n a = bs.
Proof. intros Hm <-. unfold probe_read_kernel. by rewrite Hm. Qed.

Lemma core_read_at env sk off bs n :
  mem_at (env_mem env) (sk + off) bs -> length bs = n -> core_read env sk off n = bs.
Proof. apply probe_read_at. Qed.

Lemma core_read_int_at env sk off n z :
  mem_at (env_mem env) (sk + off) (store (env_endian env) n z) ->
  0 <= z < 256 ^ Z.of_nat n -> core_read_int env sk off n = z.
Proof.
  intros Hm Hz. unfold core_read_int. rewrite (core_read_at _ _ _ _ _ Hm) by apply length_store.
  by apply load_store.
Qed.

Lemma load_htons e x : in_u 16 x -> load e (be_bytes 2 x) = bpf_htons e x.
Proof.
  intros Hx. rewrite <- (store_htons e x Hx). apply load_store.
  destruct e; [|exact Hx]. rewrite bpf_htons_le by done. unfold in_u in Hx.
  pose proof (Z.mod_pos_bound x 256 ltac:(lia)).
  assert (0 <= x / 256 < 256) by (split; [apply Z.div_pos; lia|apply Z.div_lt_upper_bound; lia]).
  change (256 ^ Z.of_nat 2) with 65536. lia.
Qed.

Lemma write_at_front bs obj :
  (length bs <= length obj)%nat -> write_at 0 bs obj = bs ++ drop (length bs) obj.
Proof. done. Qed.

Lemma fill_event_view env sk v proto :
  view_ok v -> sock_at (env_endian env) (env_relocs env) (env_mem env) sk v ->
  fill_event env sk proto = (view_event env v proto, if supported_family v then 1 else 0).
Proof.
  intros [Hf Hs Hl Hr [Hl4 Bl4] [Hr4 Br4] [Hl6 Bl6] [Hr6 Br6]]
         [Af As An Ad A4l A4r A6l A6r].
  assert (core_read_int env sk (off_family (env_relocs env)) 2 = sv_family v) as Ef
    by (apply core_read_int_at; [done|unfold in_u in *; lia]).
  assert (core_read_int env sk (off_state (env_relocs env)) 1 = sv_state v) as Es
    by (apply core_read_int_at; [done|unfold in_u in *; lia]).
  assert (core_read_int env sk (off_num (env_relocs env)) 2 = sv_lport v) as En
    by (apply core_read_int_at; [done|unfold in_u in *; lia]).
  assert (core_read_int env sk (off_dport (env_relocs env)) 2 =
          load (env_endian env) (be_bytes 2 (sv_rport v))) as Ed
    by (unfold core_read_int; by rewrite (core_read_at _ _ _ _ _ Ad)).
  unfold fill_event, view_event, supported_family, event_addr.
  rewrite Ef, Es, En, Ed, (wrap_u_id 8), (load_htons _ (sv_lport v)) by done.
  destruct (sv_family v =? AF_INET) eqn:E4; [|destruct (sv_family v =? AF_INET6) eqn:E6].
  - unfold core_read_int. rewrite (core_read_at _ _ _ _ _ A4l), (core_read_at _ _ _ _ _ A4r) by done.
    pose proof (store_load (env_endian env) _ Bl4) as S1. rewrite Hl4 in S1.
    pose proof (store_load (env_endian env) _ Br4) as S2. rewrite Hr4 in S2.
    rewrite S1, S2. cbn [local_addr remote_addr set_addrs].
    rewrite !write_at_front by (rewrite ?Hl4, ?Hr4, length_replicate; lia).
    by rewrite Hl4, Hr4.
  - by rewrite (core_read_at _ _ _ _ _ A6l), (core_read_at _ _ _ _ _ A6r).
  - done.
Qed.

(** ** The type invariant, whatever memory holds *)

Lemma core_read_range env sk off n :
  mem_ok (env_mem env) ->
  length (core_read env sk off n) = n /\ Forall is_byte (core_read env sk off n) /\
  0 <= core_read_int env sk off n < 256 ^ Z.of_nat n.
Proof.
  intros Hm. destruct (probe_read_spec (env_mem env) n (sk + off) Hm) as [Hlen Hb].
  split; [done|]. split; [done|]. unfold core_read_int, core_read.
  pose proof (load_range (env_endian env) _ Hb) as Hr. by rewrite Hlen in Hr.
Qed.

Record env_ok (env : bpf_env) : Prop := EnvOk {
  eok_ktime : in_u 64 (bpf_ktime_get_ns env);
  eok_cgroup : in_u 64 (bpf_get_current_cgroup_id env);
  eok_pid : in_u 64 (bpf_get_current_pid_tgid env);
  eok_mem : mem_ok (env_mem env);
}.

Lemma bpf_htons_range e x : in_u 16 x -> in_u 16 (bpf_htons e x).
Proof.
  intros Hx. destruct e; [|done]. rewrite bpf_htons_le by done. unfold in_u in *.
  pose proof (Z.mod_pos_bound x 256 ltac:(lia)).
  assert (0 <= x / 256 < 256) by (split; [apply Z.div_pos; lia|apply Z.div_lt_upper_bound; lia]).
  lia.
Qed.

Lemma v4_addr_ok e z :
  length (write_at 0 (store e 4 z) (replicate 16 0)) = 16%nat /\
  Forall is_byte (write_at 0 (store e 4 z) (replicate 16 0)).
Proof.
  rewrite write_at_front by (rewrite length_store, length_replicate; lia).
  rewrite length_store. split; [rewrite length_app, length_store; done|].
  apply Forall_app. split; [apply store_bytes|].
  change (drop 4 (replicate 16 0)) with (replicate 12 0). apply Forall_replicate. unfold is_byte; lia.
Qed.

Lemma fill_event_ok env sk proto :
  env_ok env -> in_u 8 proto -> event_ok (fill_event env sk proto).1.
Proof.
  intros [Ht Hc Hp Hm] Hproto.
  pose proof (fun off n => core_read_range env sk off n Hm) as Hrd.
  assert (forall off, in_u 16 (core_read_int env sk off 2)) as H16
    by (intros off; unfold in_u; destruct (Hrd off 2%nat) as (_ & _ & ?); lia).
  assert (in_u 8 (core_read_int env sk (off_state (env_relocs env)) 1)) as H8
    by (unfold in_u; destruct (Hrd (off_state (env_relocs env)) 1%nat) as (_ & _ & ?); lia).
  assert (length (replicate 16 0) = 16%nat /\ Forall is_byte (replicate 16 0)) as [Hz1 Hz2]
    by (split; [done|apply Forall_replicate; unfold is_byte; lia]).
  unfold fill_event.
  destruct (wrap_u 8 _ =? AF_INET); [|destruct (wrap_u 8 _ =? AF_INET6)]; simpl;
    constructor; simpl; auto using wrap_u_range, bpf_htons_range; try done;
    try apply v4_addr_ok; try apply Hrd; try (apply wrap_u_range; lia); unfold in_u; lia.
Qed.

(** ** A socket of the kernel of [vmlinux.h] *)

Definition encode_sock (e : endian) (r : relocs) (size : nat) (v : sock_view) : list Z :=
  write_at (Z.to_nat (off_family r)) (store e 2 (sv_family v)) $
  write_at (Z.to_nat (off_state r)) (store e 1 (sv_state v)) $
  write_at (Z.to_nat (off_num r)) (store e 2 (sv_lport v)) $
  write_at (Z.to_nat (off_dport r)) (be_bytes 2 (sv_rport v)) $
  write_at (Z.to_nat (off_rcv_saddr r)) (sv_laddr4 v) $
  write_at (Z.to_nat (off_daddr r)) (sv_raddr4 v) $
  write_at (Z.to_nat (off_v6_rcv_saddr r)) (sv_laddr6 v) $
  write_at (Z.to_nat (off_v6_daddr r)) (sv_raddr6 v) $
  replicate size 0.

Definition vmlinux_relocs : relocs := Relocs 16 18 14 12 4 0 72 56.

Lemma relocate_vmlinux : relocate struct_sock = Some vmlinux_relocs.
Proof. vm_compute. reflexivity. Qed.

Lemma mem_at_object base bs o seg :
  (o + length seg <= length bs)%nat -> take (length seg) (drop o bs) = seg ->
  mem_at (object_memory base bs) (base + Z.of_nat o) seg.
Proof. intros Hle Heq. unfold mem_at. rewrite read_bytes_object by done. by rewrite Heq. Qed.

(** The socket is there: each member reads back from the object. *)
Lemma encode_sock_at e base v :
  view_ok v ->
  sock_at e vmlinux_relocs
    (object_memory base (encode_sock e vmlinux_relocs (Z.to_nat (sizeof struct_sock)) v)) base v.
Proof.
  intros [_ _ _ _ [Hl4 _] [Hr4 _] [Hl6 _] [Hr6 _]].
  change (Z.to_nat (sizeof struct_sock)) with 776%nat.
  unfold encode_sock.
  pose proof (length_store e 2 (sv_family v)) as H1. pose proof (length_store e 1 (sv_state v)) as H2.
  pose proof (length_store e 2 (sv_lport v)) as H3. pose proof (length_be_bytes 2 (sv_rport v)) as H4.
  split; revert H1 H2 H3 H4 Hl4 Hr4 Hl6 Hr6;
    generalize (store e 2 (sv_family v)), (store e 1 (sv_state v)), (store e 2 (sv_lport v)),
      (be_bytes 2 (sv_rport v)), (sv_laddr4 v), (sv_raddr4 v), (sv_laddr6 v), (sv_raddr6 v);
    intros l1 l2 l3 l4 l5 l6 l7 l8 H1 H2 H3 H4 H5 H6 H7 H8;
    explode l1 H1; explode l2 H2; explode l3 H3; explode l4 H4;
    explode l5 H5; explode l6 H6; explode l7 H7; explode l8 H8; cbn [off_family off_state off_num
      off_dport off_rcv_saddr off_daddr off_v6_rcv_saddr off_v6_daddr vmlinux_relocs].
  - apply (mem_at_object base _ 16); vm_compute; [lia|reflexivity].
  - apply (mem_at_object base _ 18); vm_compute; [lia|reflexivity].
  - apply (mem_at_object base _ 14); vm_compute; [lia|reflexivity].
  - apply (mem_at_object base _ 12); vm_compute; [lia|reflexivity].
  - apply (mem_at_object base _ 4); vm_compute; [lia|reflexivity].
  - apply (mem_at_object base _ 0); vm_compute; [lia|reflexivity].
  - apply (mem_at_object base _ 72); vm_compute; [lia|reflexivity].
  - apply (mem_at_object base _ 56); vm_compute; [lia|reflexivity].
Qed.

Lemma write_at_bytes o bs obj :
  Forall is_byte bs -> Forall is_byte obj -> Forall is_byte (write_at o bs obj).
Proof.
  intros. unfold write_at. repeat (apply Forall_app; split); auto using Forall_take, Forall_drop.
Qed.

Lemma encode_sock_mem_ok e base v n :
  view_ok v -> mem_ok (object_memory base (encode_sock e vmlinux_relocs n v)).
Proof.
  intros [_ _ _ _ [_ ?] [_ ?] [_ ?] [_ ?]] a b. unfold object_memory. bool_cases; [|done].
  intros Hl. eapply (Forall_lookup_1 is_byte); [|exact Hl]. unfold encode_sock.
  repeat (apply write_at_bytes; [by auto using store_bytes, be_bytes_bytes|]).
  apply Forall_replicate. unfold is_byte; lia.
Qed.
