(* ===== verification/FlowSpec.v ===== *)
(** * What the BPF program promises

    A history specification of the probe handlers, without maps or buffers: the
    event a probe hit should report is a function of the hits before it.  The
    program of [SocketFlow] refines it: on every run the records it submits are
    the specified events, in order, with possible omissions when a map evicts
    or the ring is full, and exactly the specified events when neither happens. *)

From stdpp Require Import base list strings numbers.
From S2P Require Import Prelude CLayout VmSock VmInet VmSocket VmBpf Vmlinux KernelMem BpfIface SocketFlow FillEvent.

(** ** Probe hits *)

Record hit : Type := Hit { h_probe : probe; h_env : bpf_env; h_ctx : pt_ctx }.

Definition tid (h : hit) : Z := bpf_get_current_pid_tgid (h_env h).

Inductive flow_kind := Send | Recv.

#[export] Instance flow_kind_eq_dec : EqDecision flow_kind.
Proof. solve_decision. Defined.

(** The part a probe plays: the entry of a call, its return, or a call that is
    reported at once. *)
Inductive role := Enter (k : flow_kind) (proto : Z) | Return (k : flow_kind) | Direct.

Definition role_of (p : probe) : role :=
  match p with
  | P_tcp_sendmsg => Enter Send IPPROTO_TCP
  | P_udp_sendmsg => Enter Send IPPROTO_UDP
  | P_udp_recvmsg => Enter Recv IPPROTO_UDP
  | P_tcp_sendmsg_return | P_udp_sendmsg_return => Return Send
  | P_udp_recvmsg_return => Return Recv
  | P_tcp_cleanup_rbuf => Direct
  end.

(** The byte count a hit carries: the return value, or the second argument. *)
Definition copied_of (h : hit) : Z :=
  match role_of (h_probe h) with
  | Direct => wrap_s 32 (PT_REGS_PARM2 (h_ctx h))
  | _ => wrap_s 32 (PT_REGS_RC (h_ctx h))
  end.

(** The event of the socket at the entry of a call, if its family is supported. *)
Definition entry_event (h : hit) (proto : Z) : option flow_event :=
  let '(ev, ok) := fill_event (h_env h) (PT_REGS_PARM1 (h_ctx h)) proto in
  if ok =? 0 then None else Some ev.

(** The call of kind [k] thread [t] is inside, after the hits [hist] (latest
    first): its last entry that was not returned from. *)
Fixpoint pending (k : flow_kind) (t : Z) (hist : list hit) : option flow_event :=
  match hist with
  | [] => None
  | h :: hist' =>
      if tid h =? t then
        match role_of (h_probe h) with
        | Enter k' proto =>
            if decide (k = k') then
              match entry_event h proto with
              | Some ev => Some ev
              | None => pending k t hist'
              end
            else pending k t hist'
        | Return k' => if decide (k = k') then None else pending k t hist'
        | Direct => pending k t hist'
        end
      else pending k t hist'
  end.

Definition set_count (k : flow_kind) (n : Z) (ev : flow_event) : flow_event :=
  match k with Send => set_sent n ev | Recv => set_received n ev end.

(** The event a hit reports. *)
Definition spec_event (hist : list hit) (h : hit) : option flow_event :=
  match role_of (h_probe h) with
  | Enter _ _ => None
  | Return k =>
      match pending k (tid h) hist with
      | Some ev => if 0 <? copied_of h then Some (set_count k (copied_of h) ev) else None
      | None => None
      end
  | Direct =>
      if 0 <? copied_of h then set_received (copied_of h) <$> entry_event h IPPROTO_TCP else None
  end.

Fixpoint spec_events (hist : list hit) (hits : list hit) : list flow_event :=
  match hits with
  | [] => []
  | h :: hits' => option_list (spec_event hist h) ++ spec_events (h :: hist) hits'
  end.

(** ** Running the program *)

Section refinement.
Context {M R : Type} `{BpfMap Z flow_event M} `{!BpfMapLaws Z flow_event M}.
Context `{BpfRing R} `{!BpfRingLaws R}.

Definition run_hit (st : bpf_state M R) (h : hit) : bpf_state M R :=
  (run_probe (h_probe h) (h_env h) (h_ctx h) st).2.

Fixpoint run_hits (st : bpf_state M R) (hits : list hit) : bpf_state M R :=
  match hits with
  | [] => st
  | h :: hits' => run_hits (run_hit st h) hits'
  end.

Definition init_state (r : R) : bpf_state M R := BpfState r map_empty map_empty.

(** A hit loses nothing: the ring has room and no other thread's entry is
    evicted. *)
Definition lossless_hit (st : bpf_state M R) (h : hit) : Prop :=
  is_Some (ringbuf_reserve (events st) event_size) /\
  forall ev, keeps_others (pending_sends st) (tid h) ev /\
             keeps_others (udp_receives st) (tid h) ev.

Fixpoint lossless (st : bpf_state M R) (hits : list hit) : Prop :=
  match hits with
  | [] => True
  | h :: hits' => lossless_hit st h /\ lossless (run_hit st h) hits'
  end.

Definition table (k : flow_kind) (st : bpf_state M R) : M :=
  match k with Send => pending_sends st | Recv => udp_receives st end.

(** Simulation: a saved entry is the pending call of its thread; without
    losses every pending call is saved. *)
Definition saved_sound (hist : list hit) (st : bpf_state M R) : Prop :=
  forall k t ev, map_lookup_elem (table k st) t = Some ev -> pending k t hist = Some ev.

Definition saved_exact (hist : list hit) (st : bpf_state M R) : Prop :=
  forall k t, map_lookup_elem (table k st) t = pending k t hist.

Lemma pending_cons_ne k t h hist : tid h <> t -> pending k t (h :: hist) = pending k t hist.
Proof. intros Hne. simpl. by replace (tid h =? t) with false by (symmetry; by apply Z.eqb_neq). Qed.

Lemma pending_cons_eq k h hist :
  pending k (tid h) (h :: hist) =
    match role_of (h_probe h) with
    | Enter k' proto =>
        if decide (k = k') then
          match entry_event h proto with Some ev => Some ev | None => pending k (tid h) hist end
        else pending k (tid h) hist
    | Return k' => if decide (k = k') then None else pending k (tid h) hist
    | Direct => pending k (tid h) hist
    end.
Proof. simpl. by rewrite Z.eqb_refl. Qed.

(** How each role changes the tables. *)
Definition table_after (k : flow_kind) (h : hit) (st : bpf_state M R) : M :=
  match role_of (h_probe h) with
  | Enter k' proto =>
      if decide (k = k') then
        match entry_event h proto with
        | Some ev => map_update_elem (table k st) (tid h) ev
        | None => table k st
        end
      else table k st
  | Return k' =>
      if decide (k = k') then
        match map_lookup_elem (table k st) (tid h) with
        | Some _ => map_delete_elem (table k st) (tid h)
        | None => table k st
        end
      else table k st
  | Direct => table k st
  end.

(** What a hit tries to submit, given what is saved. *)
Definition attempt (h : hit) (st : bpf_state M R) : option flow_event :=
  match role_of (h_probe h) with
  | Enter _ _ => None
  | Return k =>
      match map_lookup_elem (table k st) (tid h) with
      | Some ev => if 0 <? copied_of h then Some (set_count k (wrap_u 64 (copied_of h)) ev) else None
      | None => None
      end
  | Direct =>
      if 0 <? copied_of h
      then (fun ev => set_received (wrap_u 64 (copied_of h)) (set_sent 0 ev)) <$> entry_event h IPPROTO_TCP
      else None
  end.

Definition submitted_by (h : hit) (st : bpf_state M R) : list (list Z) :=
  match ringbuf_reserve (events st) event_size, attempt h st with
  | Some _, Some ev => [encode_event (env_endian (h_env h)) ev]
  | _, _ => []
  end.

(** The handlers in terms of tables and attempts. *)
Lemma run_hit_spec st h :
  (forall k, table k (run_hit st h) = table_after k h st) /\
  ringbuf_records (events (run_hit st h)) = ringbuf_records (events st) ++ submitted_by h st.
Proof.
  destruct h as [p env ctx]. unfold run_hit, run_probe, table_after, submitted_by, attempt,
    entry_event, copied_of, tid. simpl.
  destruct p; simpl;
    unfold trace_tcp_sendmsg, trace_tcp_sendmsg_return, trace_tcp_cleanup_rbuf,
      trace_udp_sendmsg, trace_udp_sendmsg_return, trace_udp_recvmsg, trace_udp_recvmsg_return,
      save_send, emit_send, emit; simpl;
    try (destruct (fill_event env (PT_REGS_PARM1 ctx) _) as [ev ok]; destruct (ok =? 0));
    try (destruct (map_lookup_elem _ _) as [sv|] eqn:El);
    rewrite ?Z.leb_antisym;
    try (destruct (0 <? wrap_s 32 _) eqn:Ec);
    destruct (ringbuf_reserve (events st) event_size) as [ring|] eqn:Er; simpl;
    (split; [intros []; simpl; rewrite ?El; done|]);
    rewrite ?submit_records, ?discard_records, ?(reserve_records _ _ _ Er), ?app_nil_r; done.
Qed.

Lemma entry_event_counts h proto ev :
  entry_event h proto = Some ev -> sent ev = 0 /\ received ev = 0.
Proof.
  unfold entry_event, fill_event. intros Hev.
  repeat case_match; simplify_eq; done.
Qed.

Lemma copied_range h : in_s 32 (copied_of h).
Proof. unfold copied_of. destruct (role_of _); apply wrap_s_range; lia. Qed.

Lemma copied_u64 h : 0 < copied_of h -> wrap_u 64 (copied_of h) = copied_of h.
Proof.
  intros Hpos. pose proof (copied_range h) as Hr. apply wrap_u_id.
  unfold in_s, in_u in *. simpl in Hr. lia.
Qed.

Lemma set_sent_0 ev : sent ev = 0 -> set_sent 0 ev = ev.
Proof. intros Hs. destruct ev; simpl in *; by subst. Qed.

(** An attempt is what the specification asks for when the tables agree on the
    hit's thread. *)
Lemma attempt_spec hist st h :
  (forall k, map_lookup_elem (table k st) (tid h) = pending k (tid h) hist) ->
  attempt h st = spec_event hist h.
Proof.
  intros Hs. unfold attempt, spec_event. destruct (role_of (h_probe h)) as [k' proto|k'|] eqn:Er.
  - done.
  - rewrite Hs. destruct (pending k' (tid h) hist) as [ev|]; [|done].
    destruct (0 <? copied_of h) eqn:Ec; [|done]. apply Z.ltb_lt in Ec. by rewrite copied_u64.
  - destruct (0 <? copied_of h) eqn:Ec; [|done]. apply Z.ltb_lt in Ec. rewrite copied_u64 by done.
    destruct (entry_event h IPPROTO_TCP) as [ev|] eqn:Ee; [|done]. simpl.
    apply entry_event_counts in Ee as [? _]. by rewrite set_sent_0.
Qed.

Lemma attempt_sound hist st h ev :
  saved_sound hist st -> attempt h st = Some ev -> spec_event hist h = Some ev.
Proof.
  intros Hs Ha. rewrite <- Ha.
  destruct (role_of (h_probe h)) as [k' proto|k'|] eqn:Er.
  - unfold attempt, spec_event. by rewrite Er.
  - unfold attempt in Ha. rewrite Er in Ha.
    destruct (map_lookup_elem (table k' st) (tid h)) as [sv|] eqn:El; [|done].
    unfold attempt, spec_event. rewrite Er, El. rewrite (Hs _ _ _ El).
    destruct (0 <? copied_of h) eqn:Ec; [|done]. apply Z.ltb_lt in Ec. by rewrite copied_u64.
  - unfold attempt, spec_event. rewrite Er.
    destruct (0 <? copied_of h) eqn:Ec; [|done]. apply Z.ltb_lt in Ec. rewrite copied_u64 by done.
    destruct (entry_event h IPPROTO_TCP) as [ev'|] eqn:Ee; [|done]. simpl.
    apply entry_event_counts in Ee as [? _]. by rewrite set_sent_0.
Qed.

Lemma saved_sound_step hist st h :
  saved_sound hist st -> saved_sound (h :: hist) (run_hit st h).
Proof.
  intros Hs k t ev. destruct (run_hit_spec st h) as [Ht _]. rewrite Ht.
  unfold table_after. destruct (decide (tid h = t)) as [<-|Hne].
  - rewrite pending_cons_eq. destruct (role_of (h_probe h)) as [k' proto|k'|]; [| |apply Hs].
    + destruct (decide (k = k')); [|apply Hs].
      destruct (entry_event h proto); [|apply Hs]. by rewrite lookup_update_same.
    + destruct (decide (k = k')); [|apply Hs].
      destruct (map_lookup_elem (table k st) (tid h)) eqn:El; [by rewrite lookup_delete_same|].
      by rewrite El.
  - rewrite pending_cons_ne by done.
    destruct (role_of (h_probe h)) as [k' proto|k'|]; [| |apply Hs].
    + destruct (decide (k = k')); [|apply Hs]. destruct (entry_event h proto); [|apply Hs].
      intros Hl. apply Hs. by eapply lookup_update_other.
    + destruct (decide (k = k')); [|apply Hs].
      destruct (map_lookup_elem (table k st) (tid h)); [|apply Hs].
      rewrite lookup_delete_other by done. apply Hs.
Qed.

Lemma saved_exact_step hist st h :
  lossless_hit st h -> saved_exact hist st -> saved_exact (h :: hist) (run_hit st h).
Proof.
  intros [_ Hk] Hs k t. destruct (run_hit_spec st h) as [Ht _]. rewrite Ht.
  unfold table_after. destruct (decide (tid h = t)) as [<-|Hne].
  - rewrite pending_cons_eq. destruct (role_of (h_probe h)) as [k' proto|k'|]; [| |apply Hs].
    + destruct (decide (k = k')); [|apply Hs].
      destruct (entry_event h proto); [|apply Hs]. by rewrite lookup_update_same.
    + destruct (decide (k = k')); [|apply Hs].
      destruct (map_lookup_elem (table k st) (tid h)) eqn:El; [by rewrite lookup_delete_same|].
      done.
  - rewrite pending_cons_ne by done.
    destruct (role_of (h_probe h)) as [k' proto|k'|]; [| |apply Hs].
    + destruct (decide (k = k')); [|apply Hs].
      destruct (entry_event h proto) as [ev|]; [|apply Hs].
      rewrite <- Hs. destruct (Hk ev) as [H1 H2]. destruct k; [by apply H1|by apply H2].
    + destruct (decide (k = k')); [|apply Hs].
      destruct (map_lookup_elem (table k st) (tid h)); [|apply Hs].
      rewrite lookup_delete_other by done. apply Hs.
Qed.

Lemma saved_init r : saved_exact [] (init_state r).
Proof. intros [] t; simpl; apply lookup_map_empty. Qed.

Lemma saved_exact_sound hist st : saved_exact hist st -> saved_sound hist st.
Proof. intros Hs k t ev <-. symmetry. apply Hs. Qed.

Lemma submitted_sublist hist st h e :
  env_endian (h_env h) = e -> saved_sound hist st ->
  exists evs, evs `sublist_of` option_list (spec_event hist h) /\
              submitted_by h st = encode_event e <$> evs.
Proof.
  intros <- Hs. unfold submitted_by.
  destruct (ringbuf_reserve (events st) event_size); [|exists []; split; [apply sublist_nil_l|done]].
  destruct (attempt h st) as [ev|] eqn:Ea; [|exists []; split; [apply sublist_nil_l|done]].
  exists [ev]. by rewrite (attempt_sound _ _ _ _ Hs Ea).
Qed.

Lemma submitted_exact hist st h e :
  env_endian (h_env h) = e -> lossless_hit st h -> saved_exact hist st ->
  submitted_by h st = encode_event e <$> option_list (spec_event hist h).
Proof.
  intros <- [[r Hr] _] Hs. unfold submitted_by. rewrite Hr.
  rewrite (attempt_spec hist) by (intros; apply Hs). by destruct (spec_event hist h).
Qed.

Lemma run_hits_sound e hits hist st :
  Forall (fun h => env_endian (h_env h) = e) hits -> saved_sound hist st ->
  exists evs, evs `sublist_of` spec_events hist hits /\
    ringbuf_records (events (run_hits st hits)) =
    ringbuf_records (events st) ++ (encode_event e <$> evs).
Proof.
  revert hist st. induction hits as [|h hits IH]; intros hist st He Hs; simpl.
  { exists []. split; [done|]. by rewrite app_nil_r. }
  apply Forall_cons_iff in He as [Hh He].
  destruct (submitted_sublist hist st h e Hh Hs) as (ev1 & Hsub1 & Hr1).
  destruct (IH (h :: hist) (run_hit st h) He) as (ev2 & Hsub2 & Hr2);
    [by apply saved_sound_step|].
  exists (ev1 ++ ev2). split; [by apply sublist_app|].
  rewrite Hr2, (proj2 (run_hit_spec st h)), Hr1, fmap_app. by rewrite app_assoc.
Qed.

Lemma run_hits_exact e hits hist st :
  Forall (fun h => env_endian (h_env h) = e) hits -> lossless st hits -> saved_exact hist st ->
  ringbuf_records (events (run_hits st hits)) =
  ringbuf_records (events st) ++ (encode_event e <$> spec_events hist hits).
Proof.
  revert hist st. induction hits as [|h hits IH]; intros hist st He Hl Hs; simpl.
  { by rewrite app_nil_r. }
  apply Forall_cons_iff in He as [Hh He]. destruct Hl as [Hl1 Hl2].
  rewrite (IH (h :: hist)) by (done || by apply saved_exact_step).
  rewrite (proj2 (run_hit_spec st h)), (submitted_exact hist st h e) by done.
  by rewrite fmap_app, app_assoc.
Qed.
End refinement.

(** ** Byte accounting on the specification *)

Lemma pending_origin k t hist ev :
  pending k t hist = Some ev ->
  exists h proto, h ∈ hist /\ tid h = t /\ role_of (h_probe h) = Enter k proto /\
                  entry_event h proto = Some ev.
Proof.
  induction hist as [|h hist IH]; [done|].
  destruct (decide (tid h = t)) as [<-|Hne].
  - rewrite pending_cons_eq.
    destruct (role_of (h_probe h)) as [k' proto|k'|] eqn:Er.
    + destruct (decide (k = k')) as [<-|].
      * destruct (entry_event h proto) as [ev'|] eqn:Ee.
        { intros [= <-]. exists h, proto. split; [by left|]. done. }
        intros Hp. destruct (IH Hp) as (h' & pr & ? & ? & ? & ?). exists h', pr. split; [by right|done].
      * intros Hp. destruct (IH Hp) as (h' & pr & ? & ? & ? & ?). exists h', pr. split; [by right|done].
    + destruct (decide (k = k')); [done|].
      intros Hp. destruct (IH Hp) as (h' & pr & ? & ? & ? & ?). exists h', pr. split; [by right|done].
    + intros Hp. destruct (IH Hp) as (h' & pr & ? & ? & ? & ?). exists h', pr. split; [by right|done].
  - rewrite pending_cons_ne by done.
    intros Hp. destruct (IH Hp) as (h' & pr & ? & ? & ? & ?). exists h', pr. split; [by right|done].
Qed.

(** Bytes a hit says were sent, and received. *)
Definition hit_sent (h : hit) : Z :=
  match role_of (h_probe h) with Return Send => Z.max 0 (copied_of h) | _ => 0 end.
Definition hit_received (h : hit) : Z :=
  match role_of (h_probe h) with
  | Return Recv | Direct => Z.max 0 (copied_of h)
  | _ => 0
  end.

(** A reported event carries the hit's count, in the direction of the hit. *)
Lemma spec_event_counts hist h ev :
  spec_event hist h = Some ev ->
  0 < copied_of h /\ sent ev = hit_sent h /\ received ev = hit_received h /\
  sent ev + received ev = copied_of h.
Proof.
  unfold spec_event, hit_sent, hit_received. intros Hev.
  destruct (role_of (h_probe h)) as [k proto|k|] eqn:Er; [done| |].
  - destruct (pending k (tid h) hist) as [ev0|] eqn:Ep; [|done].
    destruct (0 <? copied_of h) eqn:Ec; [|done]. apply Z.ltb_lt in Ec. injection Hev as <-.
    apply pending_origin in Ep as (h' & pr & _ & _ & _ & He).
    apply entry_event_counts in He as [Hs0 Hr0]. destruct k; simpl; lia.
  - destruct (0 <? copied_of h) eqn:Ec; [|done]. apply Z.ltb_lt in Ec.
    destruct (entry_event h IPPROTO_TCP) as [ev0|] eqn:Ee; [|done]. injection Hev as <-.
    apply entry_event_counts in Ee as [Hs0 Hr0]. simpl. lia.
Qed.

Lemma spec_events_origin hist hits ev :
  ev ∈ spec_events hist hits ->
  exists hist' h, h ∈ hits /\ (forall x, x ∈ hist' -> x ∈ hist \/ x ∈ hits) /\
                  spec_event hist' h = Some ev.
Proof.
  revert hist. induction hits as [|h hits IH]; intros hist Hin; simpl in Hin;
    [by apply not_elem_of_nil in Hin|].
  apply elem_of_app in Hin as [Hin|Hin].
  - exists hist, h. split; [by left|]. split; [by left|].
    destruct (spec_event hist h) as [ev'|]; simpl in Hin; [|by apply not_elem_of_nil in Hin].
    apply list_elem_of_singleton in Hin. by subst.
  - destruct (IH _ Hin) as (hist' & h' & ? & Hx & ?). exists hist', h'. split; [by right|].
    split; [|done]. intros x Hxin. destruct (Hx x Hxin) as [Hc|Hc].
    + apply elem_of_cons in Hc as [-> | Hc]; [right; by left|by left].
    + right. by right.
Qed.

Lemma spec_totals hist hits :
  sumZ sent (spec_events hist hits) <= sumZ hit_sent hits /\
  sumZ received (spec_events hist hits) <= sumZ hit_received hits.
Proof.
  revert hist. induction hits as [|h hits IH]; intros hist; [simpl; lia|].
  simpl. rewrite !sumZ_app. destruct (IH (h :: hist)) as [H1 H2].
  assert (0 <= hit_sent h /\ 0 <= hit_received h) as [? ?]
    by (unfold hit_sent, hit_received; destruct (role_of _) as [|[]|]; lia).
  destruct (spec_event hist h) as [ev|] eqn:Ev; simpl; [|lia].
  apply spec_event_counts in Ev as (_ & Es & Er & _). rewrite Es, Er. lia.
Qed.

(** ** Events are well formed *)

Lemma role_proto_range p k proto : role_of p = Enter k proto -> in_u 8 proto.
Proof. destruct p; intros [= <- <-]; unfold in_u, IPPROTO_TCP, IPPROTO_UDP; lia. Qed.

Definition reportable (ev : flow_event) : Prop :=
  event_ok ev /\ (family ev = AF_INET \/ family ev = AF_INET6).

Lemma entry_event_reportable h proto ev :
  env_ok (h_env h) -> in_u 8 proto -> entry_event h proto = Some ev -> reportable ev.
Proof.
  intros He Hp. unfold entry_event.
  pose proof (fill_event_ok (h_env h) (PT_REGS_PARM1 (h_ctx h)) proto He Hp) as Hok.
  assert ((fill_event (h_env h) (PT_REGS_PARM1 (h_ctx h)) proto).2 <> 0 ->
    family (fill_event (h_env h) (PT_REGS_PARM1 (h_ctx h)) proto).1 = AF_INET \/
    family (fill_event (h_env h) (PT_REGS_PARM1 (h_ctx h)) proto).1 = AF_INET6) as Hf.
  { unfold fill_event.
    destruct (wrap_u 8 _ =? AF_INET) eqn:E4; [apply Z.eqb_eq in E4; simpl; auto|].
    destruct (wrap_u 8 _ =? AF_INET6) eqn:E6; [apply Z.eqb_eq in E6; simpl; auto|].
    simpl. congruence. }
  destruct (fill_event _ _ _) as [ev' ok]. simpl in *.
  destruct (ok =? 0) eqn:E; [done|]. apply Z.eqb_neq in E. intros [= <-]. by split; auto.
Qed.

Lemma set_count_reportable k n ev : in_u 64 n -> reportable ev -> reportable (set_count k n ev).
Proof. intros Hn [[] Hf]. destruct k; (split; [by constructor|done]). Qed.

Lemma spec_event_reportable hist h ev :
  (forall x, x ∈ hist -> env_ok (h_env x)) -> env_ok (h_env h) ->
  spec_event hist h = Some ev -> reportable ev.
Proof.
  intros Hh He Hev. pose proof (copied_range h) as Hr. unfold in_s in Hr. simpl in Hr.
  unfold spec_event in Hev. destruct (role_of (h_probe h)) as [k proto|k|] eqn:Er; [done| |].
  - destruct (pending k (tid h) hist) as [ev0|] eqn:Ep; [|done].
    destruct (0 <? copied_of h) eqn:Ec; [|done]. apply Z.ltb_lt in Ec. injection Hev as <-.
    apply pending_origin in Ep as (h' & pr & Hin & _ & Hro & Hee).
    apply set_count_reportable; [unfold in_u; lia|].
    eapply entry_event_reportable; [by apply Hh|by eapply role_proto_range|done].
  - destruct (0 <? copied_of h) eqn:Ec; [|done]. apply Z.ltb_lt in Ec.
    destruct (entry_event h IPPROTO_TCP) as [ev0|] eqn:Ee; [|done]. injection Hev as <-.
    apply (set_count_reportable Recv); [unfold in_u; lia|].
    eapply entry_event_reportable; [done| |done]. unfold in_u, IPPROTO_TCP; lia.
Qed.

(** ** Histories of interleaved threads *)

Lemma spec_events_app hist l1 l2 :
  spec_events hist (l1 ++ l2) = spec_events hist l1 ++ spec_events (reverse l1 ++ hist) l2.
Proof.
  revert hist. induction l1 as [|h l1 IH]; intros hist; simpl; [done|].
  by rewrite IH, reverse_cons, <- !app_assoc.
Qed.

Lemma pending_skip k t mid hist :
  Forall (fun h => tid h <> t) mid -> pending k t (mid ++ hist) = pending k t hist.
Proof.
  induction 1 as [|h mid Hne _ IH]; [done|]. simpl app. by rewrite pending_cons_ne.
Qed.

(** A call that is entered and returned from, whatever other threads do in
    between, is reported with the socket of its entry. *)
Lemma spec_event_call k proto hist enter mid ret ev :
  role_of (h_probe enter) = Enter k proto -> role_of (h_probe ret) = Return k ->
  tid ret = tid enter -> Forall (fun h => tid h <> tid enter) mid ->
  entry_event enter proto = Some ev -> 0 < copied_of ret ->
  spec_event (reverse mid ++ enter :: hist) ret = Some (set_count k (copied_of ret) ev).
Proof.
  intros Hre Hrr Ht Hmid Hev Hc. unfold spec_event. rewrite Hrr, Ht.
  rewrite pending_skip by (by apply Forall_reverse).
  rewrite pending_cons_eq, Hre, decide_True, Hev by done.
  apply Z.ltb_lt in Hc. by rewrite Hc.
Qed.
