(* ===== verification/FlowDecode.v ===== *)
(** * The agent's decoder of ring-buffer records

    [internal/agent/ebpf/types.go] and [decode_linux.go]: the observation handed
    to the collectors and the decoding of the 80-byte record the BPF program
    submits. *)

From stdpp Require Import base list strings numbers.
From S2P Require Import Prelude CLayout Vmlinux KernelMem SocketFlow FillEvent.

(** [netip.Addr]: the zero value, an IPv4 or an IPv6 address. *)
Inductive netip_addr : Type :=
| AddrZero
| Addr4 (b : list Z)
| Addr16 (b : list Z).

#[export] Instance netip_addr_eq_dec : EqDecision netip_addr.
Proof. solve_decision. Defined.

Definition AddrFrom4 (b : list Z) : netip_addr := Addr4 b.
Definition AddrFrom16 (b : list Z) : netip_addr := Addr16 b.

Record Observation : Type := MkObservation {
  MonotonicNS : Z;
  CgroupID : Z;
  PID : Z;
  Protocol : Z;
  LocalIP : netip_addr;
  RemoteIP : netip_addr;
  LocalPort : Z;
  RemotePort : Z;
  Sent : Z;
  Received : Z;
  State : Z;
}.

Inductive decode_error : Type :=
| RecordSize (got : Z)
| UnsupportedFamily (family : Z).

Definition rawEventSize : Z := 80.

Definition decodeAddresses (family : Z) (local remote : list Z)
  : result decode_error (netip_addr * netip_addr) :=
  if family =? 2 then Ok (AddrFrom4 (take 4 local), AddrFrom4 (take 4 remote))
  else if family =? 10 then Ok (AddrFrom16 local, AddrFrom16 remote)
  else Err (UnsupportedFamily family).

Definition byte_at (record : list Z) (i : nat) : Z := default 0 (record !! i).

Definition decodeRecord (record : list Z) : result decode_error Observation :=
  if negb (Z.of_nat (length record) =? rawEventSize)
  then Err (RecordSize (Z.of_nat (length record)))
  else
    let family := byte_at record 20 in
    result_bind (decodeAddresses family (slice 28 44 record) (slice 44 60 record)) (fun '(local, remote) =>
    Ok (MkObservation
      (le_val (slice 0 8 record))
      (le_val (slice 8 16 record))
      (le_val (slice 16 20 record))
      (byte_at record 21)
      local remote
      (be_val (slice 24 26 record))
      (be_val (slice 26 28 record))
      (le_val (slice 64 72 record))
      (le_val (slice 72 80 record))
      (byte_at record 22))).

(** ** Decoding what the program submits *)

(** The address an event member stands for, by family. *)
Definition event_ip (fam : Z) (a : list Z) : netip_addr :=
  if fam =? AF_INET then Addr4 (take 4 a) else Addr16 a.

(** The observation an event stands for: ports are in network order. *)
Definition event_observation (ev : flow_event) : Observation :=
  MkObservation (monotonic_ns ev) (cgroup_id ev) (pid ev) (protocol ev)
    (event_ip (family ev) (local_addr ev)) (event_ip (family ev) (remote_addr ev))
    (be_val (le_bytes 2 (local_port ev))) (be_val (le_bytes 2 (remote_port ev)))
    (sent ev) (received ev) (state ev).

Lemma length_encode_event e ev :
  length (local_addr ev) = 16%nat -> length (remote_addr ev) = 16%nat ->
  length (encode_event e ev) = 80%nat.
Proof.
  intros Hl Hr. rewrite encode_event_concat by done.
  rewrite !length_app, !length_store, Hl, Hr. done.
Qed.

Lemma le_val_1 z : in_u 8 z -> le_bytes 1 z = [z].
Proof. intros Hz. simpl. unfold in_u in Hz. rewrite Z.mod_small; [done|lia]. Qed.

(** The slices [decodeRecord] takes of a record are the members of the event. *)
Lemma decode_chunks c1 c2 c3 f pr st pd c4 c5 la ra c6 c7 c8 :
  length c1 = 8%nat -> length c2 = 8%nat -> length c3 = 4%nat ->
  length c4 = 2%nat -> length c5 = 2%nat -> length la = 16%nat -> length ra = 16%nat ->
  length c6 = 4%nat -> length c7 = 8%nat -> length c8 = 8%nat ->
  decodeRecord (c1 ++ c2 ++ c3 ++ [f] ++ [pr] ++ [st] ++ [pd] ++ c4 ++ c5 ++ la ++ ra ++ c6 ++ c7 ++ c8) =
  result_bind (decodeAddresses f la ra) (fun '(local, remote) =>
    Ok (MkObservation (le_val c1) (le_val c2) (le_val c3) pr local remote
          (be_val c4) (be_val c5) (le_val c7) (le_val c8) st)).
Proof.
  intros H1 H2 H3 H4 H5 Hla Hra H6 H7 H8.
  explode c1 H1. explode c2 H2. explode c3 H3. explode c4 H4. explode c5 H5.
  explode la Hla. explode ra Hra. explode c6 H6. explode c7 H7. explode c8 H8.
  reflexivity.
Qed.

Lemma decode_encode_LE ev :
  event_ok ev -> family ev = AF_INET \/ family ev = AF_INET6 ->
  decodeRecord (encode_event LE ev) = Ok (event_observation ev).
Proof.
  intros Hok Hfam. pose proof (ok_pad1 _ Hok) as H_pad1. destruct Hok.
  rewrite encode_event_concat by done. cbn [store].
  rewrite (le_val_1 (family ev)), (le_val_1 (protocol ev)), (le_val_1 (state ev)) by done.
  rewrite H_pad1. change (le_bytes 1 0) with [0].
  rewrite decode_chunks by (done || apply length_le_bytes).
  rewrite !le_bytes_le_val by done. unfold event_observation, event_ip.
  destruct Hfam as [Hf | Hf]; rewrite Hf; done.
Qed.

(** ** End to end: what the agent observes of a socket *)

(** The address of the view the observation should carry. *)
Definition view_ip (v : sock_view) (a4 a6 : list Z) : netip_addr :=
  if sv_family v =? AF_INET then Addr4 a4 else Addr16 a6.

Definition view_observation (env : bpf_env) (v : sock_view) (proto sent_v received_v : Z)
  : Observation :=
  MkObservation (bpf_ktime_get_ns env) (bpf_get_current_cgroup_id env)
    (wrap_u 32 (Z.shiftr (bpf_get_current_pid_tgid env) 32)) proto
    (view_ip v (sv_laddr4 v) (sv_laddr6 v)) (view_ip v (sv_raddr4 v) (sv_raddr6 v))
    (sv_lport v) (sv_rport v) sent_v received_v (sv_state v).

Lemma be_le_port x : in_u 16 x -> be_val (le_bytes 2 (load LE (be_bytes 2 x))) = x.
Proof.
  intros Hx. change (load LE) with le_val.
  pose proof (le_bytes_of_val (be_bytes 2 x) (be_bytes_bytes 2 x)) as E.
  rewrite length_be_bytes in E. rewrite E. apply be_bytes_be_val. exact Hx.
Qed.

Lemma view_event_observation env v proto s r :
  env_endian env = LE -> view_ok v -> supported_family v = true ->
  event_observation (set_received r (set_sent s (view_event env v proto))) =
  view_observation env v proto s r.
Proof.
  intros He [_ _ Hl Hr [Hl4 _] [Hr4 _] _ _] Hs.
  unfold event_observation, view_observation, view_event. cbn [set_received set_sent
    monotonic_ns cgroup_id pid protocol family local_addr remote_addr local_port remote_port
    sent received state]. rewrite He.
  rewrite !be_le_port by done. unfold supported_family in Hs. unfold event_ip, view_ip, event_addr.
  destruct (sv_family v =? AF_INET) eqn:E4.
  - by rewrite !take_app_length' by done.
  - simpl in Hs. by rewrite Hs.
Qed.

Lemma set_counts_ok ev s r :
  event_ok ev -> in_u 64 s -> in_u 64 r -> event_ok (set_received r (set_sent s ev)).
Proof. intros [] Hs Hr. constructor; simpl; done. Qed.
