(* ===== verification/FlowTheorems.v ===== *)
(** * Theorems on the kernel side

    The correctness statements of the layout of kernel objects, of the BPF
    program and of the decoder at the other end of the ring buffer, each with a
    concrete instance: an IPv4 TCP socket of the kernel of [vmlinux.h] in
    memory, an LRU map of the program's size and a ring of the program's size. *)

From stdpp Require Import base list strings numbers.
From S2P Require Import Prelude CLayout VmSock VmInet VmSocket VmBpf Vmlinux KernelMem BpfIface SocketFlow FillEvent FlowSpec FlowDecode.

(** ** A concrete machine *)

Module Demo.
Definition view : sock_view :=
  SockView 2 1 443 51000 [10; 0; 0; 1] [93; 184; 216; 34] (replicate 16 0) (replicate 16 0).

Definition mem : memory :=
  object_memory 4096 (encode_sock LE vmlinux_relocs (Z.to_nat (sizeof struct_sock)) view).

Definition env (ns : Z) : bpf_env :=
  BpfEnv LE vmlinux_relocs ns 7 (Z.shiftl 1234 32 + 1235) mem.

Definition ctx (a b : Z) : pt_ctx := fun i => match i with O => a | _ => b end.

Definition send_hits : list hit :=
  [Hit P_tcp_sendmsg (env 10) (ctx 4096 0); Hit P_tcp_sendmsg_return (env 20) (ctx 100 0)].

Definition tables : Type := LruMap.lru (Z.to_nat (max_entries pending_sends_map)) flow_event.

Definition ring0 : ByteRing.t := ByteRing.empty (max_entries events_map).

Definition st0 : bpf_state tables ByteRing.t := init_state ring0.

Lemma view_good : view_ok view.
Proof.
  constructor; unfold in_u; simpl; try lia;
    (split; [done|repeat (constructor; [unfold is_byte; lia|]); constructor]).
Qed.

Lemma sock_there : sock_at LE vmlinux_relocs mem 4096 view.
Proof. apply encode_sock_at, view_good. Qed.

Lemma mem_good : mem_ok mem.
Proof. apply encode_sock_mem_ok, view_good. Qed.

Lemma env_good ns : in_u 64 ns -> env_ok (env ns).
Proof. intros H. constructor; simpl; [done| | |apply mem_good]; vm_compute; split; congruence. Qed.

Lemma send_lossless : lossless st0 send_hits.
Proof.
  simpl. repeat split; try (vm_compute; eauto; fail);
    intros k' Hne; apply LruMap.lru_keeps_others; try done; vm_compute; lia.
Qed.
End Demo.

(** ** Kernel object layout *)

(** Every struct translated from [vmlinux.h] is laid out soundly: its members
    are placed in declaration order, no two overlap (unions and bit-fields
    included, since widths are in bits) and all lie inside the object. *)
Theorem vmlinux_layout_sound n tag packed ms i j si sj :
  (n, TStruct tag packed ms) ∈ vmlinux_types -> (i < j)%nat ->
  slots (TStruct tag packed ms) !! i = Some si -> slots (TStruct tag packed ms) !! j = Some sj ->
  0 <= slot_off si /\ slot_off si + slot_width si <= slot_off sj /\
  slot_off sj + slot_width sj <= size_bits (TStruct tag packed ms).
Proof. intros Hin. apply struct_layout_sound. by eapply vmlinux_wf. Qed.

Lemma vmlinux_layout_sound_witness :
  exists si sj, slots struct_sk_buff_head !! 0%nat = Some si /\
    slots struct_sk_buff_head !! 2%nat = Some sj /\
    0 <= slot_off si /\ slot_off si + slot_width si <= slot_off sj /\
    slot_off sj + slot_width sj <= size_bits struct_sk_buff_head.
Proof.
  eexists _, _. split; [reflexivity|]. split; [reflexivity|].
  eapply (vmlinux_layout_sound "struct sk_buff_head" "sk_buff_head" false _ 0 2);
    [|lia|reflexivity|reflexivity].
  apply (list_elem_of_lookup_2 _ 41). reflexivity.
Defined.

(** The members the program reads are where it reads them: in every protocol
    control block that embeds a [struct sock], each access path of the program
    resolves to the same place as in [struct sock] itself, that place lies
    inside both objects and is aligned to the member's type. *)
Theorem sock_reads_sound d p :
  d ∈ sock_containers -> p ∈ sock_paths ->
  exists o t, resolve struct_sock p = Some (o, t) /\ resolve d.1 (d.2 ++ p) = Some (o, t) /\
    0 <= o /\ o + size_bits t <= size_bits struct_sock /\ o + size_bits t <= size_bits d.1 /\
    (align_bits t | o).
Proof.
  intros Hd Hp. rewrite (container_path d p Hd).
  assert (is_Some (resolve struct_sock p)) as [[o t] Hr].
  { apply list_elem_of_In in Hp. vm_compute in Hp.
    repeat (destruct Hp as [<- | Hp]; [vm_compute; eauto|]). done. }
  exists o, t. split; [done|]. split; [done|].
  pose proof (sock_container_wf d Hd) as Hwd.
  pose proof (resolve_bounds struct_sock p o t eq_refl Hr) as (_ & H0 & H1).
  pose proof Hr as Hr'. rewrite <- (container_path d p Hd) in Hr'.
  apply resolve_bounds in Hr' as (_ & _ & H2); [|done].
  apply resolve_aligned_divides in Hr as [Ha _]; [auto 6|done|done].
Qed.

Lemma sock_reads_sound_witness :
  exists o t, resolve struct_sock path_dport = Some (o, t) /\
    resolve struct_tcp6_sock (["tcp"; "inet_conn"; "icsk_inet"; "sk"] ++ path_dport) = Some (o, t) /\
    0 <= o /\ o + size_bits t <= size_bits struct_sock /\
    o + size_bits t <= size_bits struct_tcp6_sock /\ (align_bits t | o).
Proof.
  apply (sock_reads_sound (struct_tcp6_sock, ["tcp"; "inet_conn"; "icsk_inet"; "sk"]) path_dport);
    apply list_elem_of_In; simpl; tauto.
Defined.

(** ** The probe handlers *)

(** C5. Reading a socket: when kernel memory holds a socket at [sk] under the
    relocated offsets, [fill_event] produces exactly its event, with family,
    state, ports and addresses of that socket and the clock, cgroup and process
    of the current thread, and reports whether the family is IPv4 or IPv6; on
    every other family it reports failure. *)
Theorem fill_event_correct env sk v proto :
  view_ok v -> sock_at (env_endian env) (env_relocs env) (env_mem env) sk v ->
  fill_event env sk proto = (view_event env v proto, if supported_family v then 1 else 0).
Proof. apply fill_event_view. Qed.

Lemma fill_event_correct_witness :
  fill_event (Demo.env 10) 4096 IPPROTO_TCP = (view_event (Demo.env 10) Demo.view IPPROTO_TCP, 1).
Proof.
  apply (fill_event_correct (Demo.env 10) 4096 Demo.view IPPROTO_TCP);
    [apply Demo.view_good|apply Demo.sock_there].
Defined.

(** C2. No event is invented: for any maps and ring that satisfy the kernel's
    contracts, started empty, and any sequence of probe hits on any threads, the
    records the program submits are a subsequence, in order, of the events the
    history specification prescribes (each return reported once, with the
    socket of the matching entry of the same thread). *)
Theorem flow_refinement {M R} `{BpfMap Z flow_event M} `{!BpfMapLaws Z flow_event M}
    `{BpfRing R} `{!BpfRingLaws R} (e : endian) (r : R) (hits : list hit) :
  Forall (fun h => env_endian (h_env h) = e) hits ->
  exists evs, evs `sublist_of` spec_events [] hits /\
    ringbuf_records (events (run_hits (init_state (M := M) r) hits)) =
    ringbuf_records r ++ (encode_event e <$> evs).
Proof.
  intros He. apply (run_hits_sound e hits [] (init_state r)); [done|].
  apply saved_exact_sound, saved_init.
Qed.

Lemma flow_refinement_witness :
  exists evs, evs `sublist_of` spec_events [] Demo.send_hits /\
    ringbuf_records (events (run_hits Demo.st0 Demo.send_hits)) =
    ringbuf_records Demo.ring0 ++ (encode_event LE <$> evs).
Proof. apply (flow_refinement LE Demo.ring0 Demo.send_hits). by repeat constructor. Defined.

(** Nothing is lost when there is room: on a run in which the ring always has
    space for a record and no update evicts another thread's entry, the program
    submits exactly the prescribed events, in order. *)
Theorem flow_refinement_exact {M R} `{BpfMap Z flow_event M} `{!BpfMapLaws Z flow_event M}
    `{BpfRing R} `{!BpfRingLaws R} (e : endian) (r : R) (hits : list hit) :
  Forall (fun h => env_endian (h_env h) = e) hits ->
  lossless (init_state (M := M) r) hits ->
  ringbuf_records (events (run_hits (init_state (M := M) r) hits)) =
  ringbuf_records r ++ (encode_event e <$> spec_events [] hits).
Proof. intros He Hl. by apply (run_hits_exact e hits [] (init_state r)), saved_init. Qed.

Lemma flow_refinement_exact_witness :
  ringbuf_records (events (run_hits Demo.st0 Demo.send_hits)) =
  ringbuf_records Demo.ring0 ++ (encode_event LE <$> spec_events [] Demo.send_hits).
Proof.
  apply (flow_refinement_exact (M := Demo.tables) LE Demo.ring0 Demo.send_hits);
    [by repeat constructor|apply Demo.send_lossless].
Defined.

(** Capacity: with the LRU maps and the ring of the sizes the program
    declares, a hit loses nothing as long as fewer than 16384 threads are inside
    a traced send, fewer than 16384 inside a traced receive, and 88 bytes (an
    80-byte event with its header) of the 16 MiB ring are free. *)
Theorem capacity_lossless (st : bpf_state Demo.tables ByteRing.t) h :
  Z.of_nat (length (LruMap.entries (pending_sends st))) < 16384 ->
  Z.of_nat (length (LruMap.entries (udp_receives st))) < 16384 ->
  ByteRing.cap (events st) = max_entries events_map ->
  ByteRing.used (events st) + 88 <= 2 ^ 24 ->
  lossless_hit st h.
Proof.
  intros Hs Hr Hc Hu. split.
  - simpl. unfold ByteRing.reserve. rewrite Hc.
    change (ByteRing.footprint event_size) with 88. change (max_entries events_map) with (2 ^ 24).
    apply Z.leb_le in Hu. rewrite Hu. eauto.
  - intros ev. split; apply LruMap.lru_keeps_others, Nat2Z.inj_lt;
      rewrite (Z2Nat.id (max_entries pending_sends_map)) by done; assumption.
Qed.

Lemma capacity_lossless_witness :
  lossless_hit Demo.st0 (Hit P_tcp_sendmsg (Demo.env 10) (Demo.ctx 4096 0)).
Proof. apply capacity_lossless; simpl; lia || done. Defined.

(** Byte accounting: the bytes sent that the submitted events add up to never
    exceed the bytes the traced send functions returned, and likewise for the
    bytes received; losses can only make the totals smaller. *)
Theorem flow_accounting {M R} `{BpfMap Z flow_event M} `{!BpfMapLaws Z flow_event M}
    `{BpfRing R} `{!BpfRingLaws R} (e : endian) (r : R) (hits : list hit) :
  Forall (fun h => env_endian (h_env h) = e) hits ->
  exists evs,
    ringbuf_records (events (run_hits (init_state (M := M) r) hits)) =
      ringbuf_records r ++ (encode_event e <$> evs) /\
    sumZ sent evs <= sumZ hit_sent hits /\ sumZ received evs <= sumZ hit_received hits.
Proof.
  intros He. destruct (run_hits_sound e hits [] (init_state r) He) as (evs & Hsub & Hr);
    [apply saved_exact_sound, saved_init|].
  exists evs. split; [done|]. destruct (spec_totals [] hits) as [H1 H2].
  assert (forall ev, ev ∈ spec_events [] hits -> 0 <= sent ev /\ 0 <= received ev) as Hpos.
  { intros ev Hin. apply spec_events_origin in Hin as (hist & h & _ & _ & Hev).
    apply spec_event_counts in Hev as (_ & -> & -> & _).
    unfold hit_sent, hit_received. destruct (role_of _) as [|[]|]; lia. }
  pose proof (sumZ_sublist sent _ _ (fun ev Hin => proj1 (Hpos ev Hin)) Hsub).
  pose proof (sumZ_sublist received _ _ (fun ev Hin => proj2 (Hpos ev Hin)) Hsub). lia.
Qed.

Lemma flow_accounting_witness :
  exists evs,
    ringbuf_records (events (run_hits Demo.st0 Demo.send_hits)) =
      ringbuf_records Demo.ring0 ++ (encode_event LE <$> evs) /\
    sumZ sent evs <= sumZ hit_sent Demo.send_hits /\
    sumZ received evs <= sumZ hit_received Demo.send_hits.
Proof. apply (flow_accounting LE Demo.ring0 Demo.send_hits). by repeat constructor. Defined.

(** ** The ring buffer seen from the agent *)

(** Encode and decode agree: the 80 bytes of a well-formed IPv4 or IPv6 event
    on a little-endian machine decode to the observation with the same clock,
    cgroup, process, protocol, state and byte counts, the ports in host order
    and the addresses of the event's family. *)
Theorem decode_roundtrip ev :
  event_ok ev -> family ev = AF_INET \/ family ev = AF_INET6 ->
  decodeRecord (encode_event LE ev) = Ok (event_observation ev).
Proof. apply decode_encode_LE. Qed.

Lemma demo_event_ok : event_ok (view_event (Demo.env 10) Demo.view IPPROTO_TCP).
Proof.
  pose proof (fill_event_ok (Demo.env 10) 4096 IPPROTO_TCP) as Hok.
  rewrite (fill_event_view (Demo.env 10) 4096 Demo.view IPPROTO_TCP Demo.view_good Demo.sock_there) in Hok.
  apply Hok; [apply Demo.env_good|]; unfold in_u, IPPROTO_TCP; lia.
Qed.

Lemma decode_roundtrip_witness :
  decodeRecord (encode_event LE (view_event (Demo.env 10) Demo.view IPPROTO_TCP)) =
  Ok (event_observation (view_event (Demo.env 10) Demo.view IPPROTO_TCP)).
Proof. apply decode_roundtrip; [apply demo_event_ok|left; reflexivity]. Defined.

(** C6. The decoder never rejects the program on a little-endian target: the agent's
    reader loop stops at the first record it cannot decode, and every record the
    program submits decodes, whatever is lost on the way (on a big-endian target it
    does not: [decode_big_endian_swaps]); each observation carries a positive count of at most 2^31-1 bytes
    in exactly one direction. *)
Theorem records_decode {M R} `{BpfMap Z flow_event M} `{!BpfMapLaws Z flow_event M}
    `{BpfRing R} `{!BpfRingLaws R} (r : R) (hits : list hit) :
  Forall (fun h => env_endian (h_env h) = LE /\ env_ok (h_env h)) hits ->
  exists recs,
    ringbuf_records (events (run_hits (init_state (M := M) r) hits)) = ringbuf_records r ++ recs /\
    Forall (fun rec => exists obs, decodeRecord rec = Ok obs /\
              0 < Sent obs + Received obs <= 2 ^ 31 - 1 /\ (Sent obs = 0 \/ Received obs = 0)) recs.
Proof.
  intros Hh. assert (Forall (fun h => env_endian (h_env h) = LE) hits) as He
    by (eapply Forall_impl; [|exact Hh]; by intros ? []).
  destruct (run_hits_sound LE hits [] (init_state r) He) as (evs & Hsub & Hr);
    [apply saved_exact_sound, saved_init|].
  exists (encode_event LE <$> evs). split; [done|]. apply Forall_fmap, Forall_forall.
  intros ev Hin%list_elem_of_In. pose proof (elem_of_sublist _ _ _ Hin Hsub) as Hin'. clear Hin.
  apply spec_events_origin in Hin' as (hist & h & Hhin & Hhist & Hev).
  rewrite Forall_forall in Hh.
  assert (reportable ev) as [Hok Hfam].
  { eapply spec_event_reportable; [|apply Hh; by apply list_elem_of_In|exact Hev]. intros x Hx.
    destruct (Hhist x Hx) as [Hc|Hc]; [by apply not_elem_of_nil in Hc|].
    apply Hh. by apply list_elem_of_In. }
  exists (event_observation ev). split; [by apply decode_encode_LE|].
  apply spec_event_counts in Hev as (Hc & Hs & Hrc & Hsum). simpl. rewrite Hsum.
  pose proof (copied_range h) as Hrng. unfold in_s in Hrng. simpl in Hrng.
  split; [lia|]. rewrite Hs, Hrc. unfold hit_sent, hit_received.
  destruct (role_of _) as [|[]|]; auto.
Qed.

Lemma records_decode_witness :
  exists recs,
    ringbuf_records (events (run_hits Demo.st0 Demo.send_hits)) = ringbuf_records Demo.ring0 ++ recs /\
    Forall (fun rec => exists obs, decodeRecord rec = Ok obs /\
              0 < Sent obs + Received obs <= 2 ^ 31 - 1 /\ (Sent obs = 0 \/ Received obs = 0)) recs.
Proof.
  apply (records_decode (M := Demo.tables) Demo.ring0 Demo.send_hits).
  do 2 (constructor; [split; [done|apply Demo.env_good; unfold in_u; lia]|]). constructor.
Defined.

(** C3. End to end, on a little-endian target: a thread enters [tcp_sendmsg] or
    [udp_sendmsg] on an IPv4 or IPv6 socket and the call returns a positive count,
    while other threads run any probes in between.  If the ring has room at every hit
    and no hit evicts the saved entry of another thread, the record the agent reads
    last decodes to the observation of that socket at the time of
    the entry, with the returned count as bytes sent and none received. *)
Theorem send_observed {M R} `{BpfMap Z flow_event M} `{!BpfMapLaws Z flow_event M}
    `{BpfRing R} `{!BpfRingLaws R} (r : R) pre enter mid ret v proto :
  Forall (fun h => env_endian (h_env h) = LE) (pre ++ enter :: mid ++ [ret]) ->
  lossless (init_state (M := M) r) (pre ++ enter :: mid ++ [ret]) ->
  role_of (h_probe enter) = Enter Send proto -> role_of (h_probe ret) = Return Send ->
  tid ret = tid enter -> Forall (fun h => tid h <> tid enter) mid ->
  env_ok (h_env enter) -> view_ok v -> supported_family v = true ->
  sock_at LE (env_relocs (h_env enter)) (env_mem (h_env enter)) (PT_REGS_PARM1 (h_ctx enter)) v ->
  0 < copied_of ret ->
  exists recs rec,
    ringbuf_records (events (run_hits (init_state (M := M) r) (pre ++ enter :: mid ++ [ret]))) =
      recs ++ [rec] /\
    decodeRecord rec = Ok (view_observation (h_env enter) v proto (copied_of ret) 0).
Proof.
  intros He Hl Hre Hrr Ht Hmid Henv Hv Hsf Hat Hc.
  assert (env_endian (h_env enter) = LE) as Hee.
  { rewrite Forall_app in He. destruct He as [_ He]. by apply Forall_cons_iff in He as [? _]. }
  pose proof (fill_event_view (h_env enter) (PT_REGS_PARM1 (h_ctx enter)) v proto Hv) as Hf.
  rewrite Hee in Hf. specialize (Hf Hat). rewrite Hsf in Hf.
  assert (entry_event enter proto = Some (view_event (h_env enter) v proto)) as Hen
    by (unfold entry_event; by rewrite Hf).
  pose proof (spec_event_call Send proto (reverse pre) enter mid ret _ Hre Hrr Ht Hmid Hen Hc) as Hsp.
  replace (pre ++ enter :: mid ++ [ret]) with ((pre ++ enter :: mid) ++ [ret]) in *
    by (by rewrite <- app_assoc).
  rewrite (run_hits_exact LE _ [] _ He Hl (saved_init r)), spec_events_app, fmap_app.
  simpl (spec_events _ [ret]). rewrite app_nil_r, reverse_app, reverse_cons, <- !app_assoc. simpl app.
  rewrite app_nil_r, Hsp. simpl fmap.
  eexists _, _. split; [by rewrite app_assoc|].
  rewrite <- (view_event_observation (h_env enter) v proto (copied_of ret) 0) by done.
  pose proof (copied_range ret) as Hrng. unfold in_s in Hrng. simpl in Hrng.
  assert (event_ok (view_event (h_env enter) v proto)) as Hok.
  { pose proof (fill_event_ok (h_env enter) (PT_REGS_PARM1 (h_ctx enter)) proto Henv
      (role_proto_range _ _ _ Hre)) as Hok. by rewrite Hf in Hok. }
  apply decode_encode_LE.
  - apply (set_counts_ok _ (copied_of ret) 0); [done|unfold in_u; lia..].
  - simpl. unfold supported_family in Hsf. apply orb_true_iff in Hsf as [E|E]; apply Z.eqb_eq in E; auto.
Qed.

Lemma send_observed_witness :
  exists recs rec,
    ringbuf_records (events (run_hits Demo.st0 Demo.send_hits)) = recs ++ [rec] /\
    decodeRecord rec = Ok (view_observation (Demo.env 10) Demo.view IPPROTO_TCP 100 0).
Proof.
  apply (send_observed (M := Demo.tables) Demo.ring0 []
           (Hit P_tcp_sendmsg (Demo.env 10) (Demo.ctx 4096 0)) []
           (Hit P_tcp_sendmsg_return (Demo.env 20) (Demo.ctx 100 0)) Demo.view IPPROTO_TCP).
  - by repeat constructor.
  - apply Demo.send_lossless.
  - reflexivity.
  - reflexivity.
  - reflexivity.
  - constructor.
  - apply Demo.env_good. unfold in_u; lia.
  - apply Demo.view_good.
  - reflexivity.
  - apply Demo.sock_there.
  - reflexivity.
Defined.

(** Returns clean up: when a traced call returns, with a count or an error,
    ring full or not, no entry of its thread is left in its table, and the
    entries of all other threads and of the other table are untouched. *)
Theorem return_clears {M R} `{BpfMap Z flow_event M} `{!BpfMapLaws Z flow_event M}
    `{BpfRing R} `{!BpfRingLaws R} (st : bpf_state M R) h k :
  role_of (h_probe h) = Return k ->
  map_lookup_elem (table k (run_hit st h)) (tid h) = None /\
  forall k' t, k' <> k \/ t <> tid h ->
    map_lookup_elem (table k' (run_hit st h)) t = map_lookup_elem (table k' st) t.
Proof.
  intros Hr. destruct (run_hit_spec st h) as [Ht _].
  split; [|intros k' t Hne]; rewrite Ht; unfold table_after; rewrite Hr.
  - rewrite decide_True by done.
    destruct (map_lookup_elem (table k st) (tid h)) eqn:El; [apply lookup_delete_same|done].
  - destruct (decide (k' = k)) as [-> |]; [|done].
    destruct (map_lookup_elem (table k st) (tid h)); [|done].
    apply lookup_delete_other. destruct Hne; congruence.
Qed.

Lemma return_clears_witness :
  map_lookup_elem (table Send (run_hits Demo.st0 Demo.send_hits)) (Z.shiftl 1234 32 + 1235) = None.
Proof.
  apply (return_clears (run_hit Demo.st0 (Hit P_tcp_sendmsg (Demo.env 10) (Demo.ctx 4096 0)))
           (Hit P_tcp_sendmsg_return (Demo.env 20) (Demo.ctx 100 0)) Send). reflexivity.
Defined.

(** The decoder assumes a little-endian producer: the record of the same
    event from a big-endian kernel has the right size and decodes without an
    error, but every multi-byte count comes out byte-reversed (the ports and
    addresses, kept in network order, do not). *)
Theorem decode_big_endian_swaps ev :
  event_ok ev -> family ev = AF_INET \/ family ev = AF_INET6 ->
  exists obs, decodeRecord (encode_event BE ev) = Ok obs /\
    Sent obs = le_val (reverse (le_bytes 8 (sent ev))) /\
    Received obs = le_val (reverse (le_bytes 8 (received ev))) /\
    PID obs = le_val (reverse (le_bytes 4 (pid ev))) /\
    LocalPort obs = local_port ev /\ RemotePort obs = remote_port ev.
Proof.
  intros Hok Hfam. pose proof (ok_pad1 _ Hok) as Hp1. destruct Hok.
  rewrite encode_event_concat by done. cbn [store]. unfold be_bytes.
  rewrite (le_val_1 (family ev)), (le_val_1 (protocol ev)), (le_val_1 (state ev)) by done.
  rewrite Hp1. change (le_bytes 1 0) with [0]. rewrite !reverse_singleton.
  rewrite decode_chunks by (done || by rewrite length_reverse, length_le_bytes).
  destruct Hfam as [Hf | Hf]; rewrite Hf; simpl; eexists; (split; [reflexivity|]);
    do 3 (split; [reflexivity|]); split; by apply (be_bytes_be_val 2).
Qed.

Lemma decode_big_endian_swaps_witness :
  exists obs, decodeRecord (encode_event BE (set_sent 100 (view_event (Demo.env 10) Demo.view IPPROTO_TCP)))
                = Ok obs /\ Sent obs = 7205759403792793600.
Proof.
  edestruct (decode_big_endian_swaps (set_sent 100 (view_event (Demo.env 10) Demo.view IPPROTO_TCP)))
    as (obs & Hd & Hs & _).
  - apply (set_counts_ok _ 100 0); [apply demo_event_ok|unfold in_u; lia..].
  - left; reflexivity.
  - exists obs. split; [exact Hd|exact Hs].
Defined.
