(* ===== verification/GoBase.v ===== *)
(** * What the Go sources use of the language and its standard library

    Strings as byte strings, [strings.*], [time.Time] as an instant, [float64]
    as IEEE-754 binary64 values, [netip.ParseAddr] and the formatting of
    integers.  Only what the modelled packages call. *)

From stdpp Require Import base list strings numbers.
From Stdlib Require Import Ascii SpecFloat.
From S2P Require Import Prelude.

(** ** Bytes of a string *)

Fixpoint chars (s : string) : list ascii :=
  match s with
  | EmptyString => []
  | String c s' => c :: chars s'
  end.

Fixpoint of_chars (cs : list ascii) : string :=
  match cs with
  | [] => EmptyString
  | c :: cs' => String c (of_chars cs')
  end.

Lemma of_chars_chars s : of_chars (chars s) = s.
Proof. induction s; simpl; congruence. Qed.

Lemma chars_of_chars cs : chars (of_chars cs) = cs.
Proof. induction cs; simpl; congruence. Qed.

Definition code (c : ascii) : Z := Z.of_N (N_of_ascii c).
Definition char_of (z : Z) : ascii := ascii_of_N (Z.to_N z).

Lemma code_range c : is_byte (code c).
Proof.
  unfold is_byte, code. pose proof (N_ascii_bounded c). lia.
Qed.

Lemma code_char_of z : is_byte z -> code (char_of z) = z.
Proof.
  intros Hz. unfold is_byte in Hz. unfold code, char_of. rewrite N_ascii_embedding; lia.
Qed.

Lemma code_inj c d : code c = code d -> c = d.
Proof.
  unfold code. intros H. apply (f_equal Z.to_N) in H. rewrite !N2Z.id in H.
  rewrite <- (ascii_N_embedding c), <- (ascii_N_embedding d). congruence.
Qed.

(** [string(bytes)] *)
Definition string_of_bytes (bs : list Z) : string := of_chars (char_of <$> bs).

Definition len (s : string) : Z := Z.of_nat (length (chars s)).

Lemma len_nonneg s : 0 <= len s.
Proof. unfold len. lia. Qed.

Lemma len_empty s : (len s =? 0) = (String.eqb s "").
Proof. by destruct s. Qed.

(** ** [strings] *)

Definition has_prefix (s p : string) : bool := String.prefix p s.

Fixpoint cut_last_dot (cs : list ascii) : list ascii :=
  match cs with
  | [] => []
  | [c] => if code c =? 46 then [] else [c]
  | c :: cs' => c :: cut_last_dot cs'
  end.

(** [strings.TrimSuffix(s, ".")] *)
Definition trim_suffix_dot (s : string) : string := of_chars (cut_last_dot (chars s)).

Definition is_ascii (s : string) : bool := forallb (fun c => code c <? 128) (chars s).

Definition lower_char (c : ascii) : ascii :=
  if (65 <=? code c) && (code c <=? 90) then char_of (code c + 32) else c.

(** [strings.ToLower]: bytewise on ASCII; the Unicode tables are a parameter. *)
Definition to_lower (unicode_lower : string -> string) (s : string) : string :=
  if is_ascii s then of_chars (lower_char <$> chars s) else unicode_lower s.

(** [strings.Split(s, sep)] on a one-byte separator. *)
Fixpoint split_chars (sep : Z) (cs : list ascii) : list (list ascii) :=
  match cs with
  | [] => [[]]
  | c :: cs' =>
      if code c =? sep then [] :: split_chars sep cs'
      else match split_chars sep cs' with
           | [] => [[c]]
           | l :: ls => (c :: l) :: ls
           end
  end.

(** ** [time.Time]

    An instant, in nanoseconds since the Unix epoch; [UTC] only changes how it
    is displayed. *)

Definition time : Type := Z.
Definition duration : Type := Z.
Definition Second : duration := 1000000000.
Definition Minute : duration := 60 * Second.
Definition Hour : duration := 60 * Minute.

(** The zero [time.Time], 1 January of year 1. *)
Definition zero_time : time := - 62135596800 * Second.
Definition IsZero (t : time) : bool := t =? zero_time.

(** [t.Truncate(d)] rounds down to a multiple of [d] since the zero time. *)
Definition Truncate (t : time) (d : duration) : time := t - (t - zero_time) mod d.

(** ** [float64] *)

Definition float64 : Type := spec_float.
Definition f64_of_Z (z : Z) : float64 := binary_normalize 53 1024 z 0 false.
Definition f64_ltb : float64 -> float64 -> bool := SFltb.
Definition f64_leb : float64 -> float64 -> bool := SFleb.
Definition f64_mul : float64 -> float64 -> float64 := SFmul 53 1024.
Definition f64_div : float64 -> float64 -> float64 := SFdiv 53 1024.

(** ** [netip.ParseAddr] *)

Inductive ip_addr : Type :=
| IPv4 (b : list Z)
| IPv6 (b : list Z) (zone : string).

#[export] Instance ip_addr_eq_dec : EqDecision ip_addr.
Proof. solve_decision. Defined.

Definition is_digit (c : ascii) : bool := (48 <=? code c) && (code c <=? 57).

(** One octet after another: the value so far, its digits, the finished fields. *)
Fixpoint ipv4_fields (cs : list ascii) (prev_dot : bool) (val digits : Z) (fields : list Z)
  : option (list Z) :=
  match cs with
  | [] => if (length fields =? 3)%nat then Some (fields ++ [val]) else None
  | c :: cs' =>
      if is_digit c then
        if (digits =? 1) && (val =? 0) then None
        else
          let val := val * 10 + (code c - 48) in
          if 255 <? val then None else ipv4_fields cs' false val (digits + 1) fields
      else if code c =? 46 then
        if prev_dot || (match cs' with [] => true | _ => false end) then None
        else if (length fields =? 3)%nat then None
        else ipv4_fields cs' true 0 0 (fields ++ [val])
      else None
  end.

Definition parse_ipv4_fields (cs : list ascii) : option (list Z) := ipv4_fields cs true 0 0 [].

Definition hex_val (c : ascii) : option Z :=
  let z := code c in
  if (48 <=? z) && (z <=? 57) then Some (z - 48)
  else if (97 <=? z) && (z <=? 102) then Some (z - 97 + 10)
  else if (65 <=? z) && (z <=? 70) then Some (z - 65 + 10)
  else None.

(** The hexadecimal group at the front: its value, its length and the rest; more
    than four digits fail. *)
Fixpoint hex_group (cs : list ascii) (acc : Z) (off : nat) : option (Z * nat * list ascii) :=
  match cs with
  | [] => Some (acc, off, [])
  | c :: cs' =>
      match hex_val c with
      | Some v =>
          if (3 <? Z.of_nat off) then None
          else hex_group cs' (acc * 16 + v) (S off)
      | None => Some (acc, off, cs)
      end
  end.

(** The loop of [parseIPv6] from byte position [length ip]: the bytes parsed, the
    position of the ellipsis and the unread rest. *)
Fixpoint ipv6_loop (fuel : nat) (cs : list ascii) (ip : list Z) (ellipsis : option nat)
  : option (list Z * option nat * list ascii) :=
  match fuel with
  | O => Some (ip, ellipsis, cs)
  | S fuel' =>
      match hex_group cs 0 0 with
      | None => None
      | Some (acc, off, rest) =>
          if (off =? 0)%nat then None
          else
            match rest with
            | c :: rest' =>
                if code c =? 46 then
                  if (match ellipsis with None => negb (length ip =? 12)%nat | Some _ => false end)
                     || (16 <? Z.of_nat (length ip) + 4)
                  then None
                  else
                    match parse_ipv4_fields cs with
                    | Some f => Some (ip ++ f, ellipsis, [])
                    | None => None
                    end
                else
                  let ip := ip ++ [acc / 256; acc mod 256] in
                  if negb (code c =? 58) then None
                  else
                    match rest' with
                    | [] => None
                    | d :: rest'' =>
                        if code d =? 58 then
                          match ellipsis with
                          | Some _ => None
                          | None =>
                              match rest'' with
                              | [] => Some (ip, Some (length ip), [])
                              | _ => ipv6_loop fuel' rest'' ip (Some (length ip))
                              end
                          end
                        else ipv6_loop fuel' rest' ip ellipsis
                    end
            | [] => Some (ip ++ [acc / 256; acc mod 256], ellipsis, [])
            end
      end
  end.

Fixpoint split_zone (cs : list ascii) : list ascii * option (list ascii) :=
  match cs with
  | [] => ([], None)
  | c :: cs' =>
      if code c =? 37 then ([], Some cs')
      else let '(a, z) := split_zone cs' in (c :: a, z)
  end.

Definition parse_ipv6 (cs : list ascii) : option ip_addr :=
  let '(s, zone) := split_zone cs in
  match zone with
  | Some [] => None
  | _ =>
      let zone := match zone with Some z => of_chars z | None => EmptyString end in
      let '(lead, s) :=
        match s with
        | c :: d :: s' => if (code c =? 58) && (code d =? 58) then (true, s') else (false, s)
        | _ => (false, s)
        end in
      match lead, s with
      | true, [] => Some (IPv6 (replicate 16 0) zone)
      | _, _ =>
          match ipv6_loop 8 s [] (if lead then Some 0%nat else None) with
          | Some (ip, ellipsis, []) =>
              if (length ip <? 16)%nat then
                match ellipsis with
                | None => None
                | Some e => Some (IPv6 (take e ip ++ replicate (16 - length ip) 0 ++ drop e ip) zone)
                end
              else match ellipsis with
                   | Some _ => None
                   | None => Some (IPv6 ip zone)
                   end
          | _ => None
          end
      end
  end.

(** The first [.], [:] or [%] decides the family. *)
Fixpoint addr_family (cs : list ascii) : option bool :=
  match cs with
  | [] => None
  | c :: cs' =>
      if code c =? 46 then Some true
      else if code c =? 58 then Some false
      else if code c =? 37 then None
      else addr_family cs'
  end.

Definition ParseAddr (s : string) : option ip_addr :=
  match addr_family (chars s) with
  | Some true => IPv4 <$> parse_ipv4_fields (chars s)
  | Some false => parse_ipv6 (chars s)
  | None => None
  end.

Definition valid_addr (s : string) : bool :=
  match ParseAddr s with Some _ => true | None => false end.

Example parse_v4 : ParseAddr "192.0.2.7" = Some (IPv4 [192; 0; 2; 7]).
Proof. reflexivity. Qed.
Example parse_v4_zero : ParseAddr "192.0.02.7" = None.
Proof. reflexivity. Qed.
Example parse_v6 : ParseAddr "2001:db8::1" =
  Some (IPv6 [32; 1; 13; 184; 0; 0; 0; 0; 0; 0; 0; 0; 0; 0; 0; 1] "").
Proof. reflexivity. Qed.
Example parse_v4in6 : ParseAddr "::ffff:10.0.0.1" =
  Some (IPv6 [0; 0; 0; 0; 0; 0; 0; 0; 0; 0; 255; 255; 10; 0; 0; 1] "").
Proof. reflexivity. Qed.
Example parse_v6_zone : ParseAddr "fe80::1%eth0" =
  Some (IPv6 [254; 128; 0; 0; 0; 0; 0; 0; 0; 0; 0; 0; 0; 0; 0; 1] "eth0").
Proof. reflexivity. Qed.
