(* ===== verification/GoText.v ===== *)
(** * Text handling of the Go standard library

    [strings.TrimSpace], [strings.Cut], [strings.Fields], [strconv.ParseUint],
    decimal formatting, [bufio.Scanner] over lines, [sort.Strings] and UTF-8, with the
    lemmas the parsers of the agent are proved with. *)

From stdpp Require Import base list strings numbers sorting.
From Stdlib Require Import Ascii OrderedTypeEx OrdersEx.
From S2P Require Import Prelude GoBase.

Open Scope Z_scope.

Definition colon : ascii := ":"%char.
Definition space : ascii := " "%char.
Definition newline : ascii := char_of 10.
Definition carriage_return : ascii := char_of 13.

(** ** White space

    [unicode.IsSpace] on UTF-8 text: the encodings of the white-space runes.  No
    continuation byte begins one of them, so scanning byte by byte finds the
    same runs as decoding rune by rune, also on invalid UTF-8. *)

Definition is_space1 (c : ascii) : bool :=
  let z := code c in ((9 <=? z) && (z <=? 13)) || (z =? 32).

Definition is_space2 (c d : ascii) : bool :=
  (code c =? 194) && ((code d =? 133) || (code d =? 160)).

Definition is_space3 (c d e : ascii) : bool :=
  let '(x, y, z) := (code c, code d, code e) in
  ((x =? 225) && (y =? 154) && (z =? 128)) ||
  ((x =? 226) && (y =? 128) &&
     (((128 <=? z) && (z <=? 138)) || (z =? 168) || (z =? 169) || (z =? 175))) ||
  ((x =? 226) && (y =? 129) && (z =? 159)) ||
  ((x =? 227) && (y =? 128) && (z =? 128)).

(** The width of the white-space rune at the front, 0 when there is none. *)
Definition space_width (cs : list ascii) : nat :=
  match cs with
  | c :: cs' =>
      if is_space1 c then 1%nat
      else match cs' with
           | d :: cs'' =>
               if is_space2 c d then 2%nat
               else match cs'' with
                    | e :: _ => if is_space3 c d e then 3%nat else 0%nat
                    | [] => 0%nat
                    end
           | [] => 0%nat
           end
  | [] => 0%nat
  end.

(** The same at the end of the text, given reversed. *)
Definition space_width_rev (cs : list ascii) : nat :=
  match cs with
  | c :: cs' =>
      if is_space1 c then 1%nat
      else match cs' with
           | d :: cs'' =>
               if is_space2 d c then 2%nat
               else match cs'' with
                    | e :: _ => if is_space3 e d c then 3%nat else 0%nat
                    | [] => 0%nat
                    end
           | [] => 0%nat
           end
  | [] => 0%nat
  end.

Fixpoint trim_with (width : list ascii -> nat) (skip : nat) (cs : list ascii) : list ascii :=
  match cs with
  | [] => []
  | c :: cs' =>
      match skip with
      | S skip' => trim_with width skip' cs'
      | O => match width cs with
             | O => cs
             | S skip' => trim_with width skip' cs'
             end
      end
  end.

Definition TrimSpace (cs : list ascii) : list ascii :=
  reverse (trim_with space_width_rev 0 (reverse (trim_with space_width 0 cs))).

(** [strings.Fields]: [word] is the field being read. *)
Fixpoint fields_from (skip : nat) (word : list ascii) (cs : list ascii) : list (list ascii) :=
  match cs with
  | [] => match word with [] => [] | _ => [word] end
  | c :: cs' =>
      match skip with
      | S skip' => fields_from skip' word cs'
      | O => match space_width cs with
             | O => fields_from 0 (word ++ [c]) cs'
             | S skip' => match word with
                          | [] => fields_from skip' [] cs'
                          | _ => word :: fields_from skip' [] cs'
                          end
             end
      end
  end.

Definition Fields (cs : list ascii) : list (list ascii) := fields_from 0 [] cs.

(** [strings.Cut(s, sep)] on a one-byte separator. *)
Fixpoint Cut (sep : ascii) (cs : list ascii) : option (list ascii * list ascii) :=
  match cs with
  | [] => None
  | c :: cs' =>
      if decide (c = sep) then Some ([], cs')
      else match Cut sep cs' with
           | Some (a, b) => Some (c :: a, b)
           | None => None
           end
  end.

(** [strings.Contains] *)
Fixpoint contains (sub s : string) : bool :=
  String.prefix sub s || match s with EmptyString => false | String _ s' => contains sub s' end.

(** ** Numbers *)

Fixpoint parse_digits (max acc : Z) (cs : list ascii) : option Z :=
  match cs with
  | [] => Some acc
  | c :: cs' =>
      if is_digit c then
        let acc := acc * 10 + (code c - 48) in
        if max <? acc then None else parse_digits max acc cs'
      else None
  end.

(** [strconv.ParseUint(s, 10, 64)] *)
Definition ParseUint (cs : list ascii) : option Z :=
  match cs with [] => None | _ => parse_digits max_u64 0 cs end.

(** [strconv.Atoi]: an optional sign and digits. *)
Definition Atoi (cs : list ascii) : option Z :=
  match cs with
  | [] => None
  | c :: rest =>
      if bool_decide (c = "-"%char) then match rest with [] => None | _ => Z.opp <$> parse_digits (max_i64 + 1) 0 rest end
      else if bool_decide (c = "+"%char) then match rest with [] => None | _ => parse_digits max_i64 0 rest end
      else parse_digits max_i64 0 cs
  end.

Definition digit (d : Z) : ascii := char_of (48 + d).

(** Decimal digits, least significant first, at most [fuel] of them. *)
Fixpoint digits_rev (fuel : nat) (z : Z) : list ascii :=
  match fuel with
  | O => []
  | S fuel' => digit (z mod 10) :: (if z <? 10 then [] else digits_rev fuel' (z / 10))
  end.

(** [%d] of a non-negative 64-bit number: twenty digits are enough. *)
Definition format_uint (z : Z) : list ascii := reverse (digits_rev 20 z).

Definition format_int (z : Z) : list ascii :=
  if z <? 0 then "-"%char :: format_uint (- z) else format_uint z.

(** ** Dates

    [t.Format(time.RFC3339Nano)] of a UTC time in the proleptic Gregorian
    calendar. *)

(** Year, month and day of a number of days since 1970-01-01. *)
Definition civil_from_days (days : Z) : Z * Z * Z :=
  let z := days + 719468 in
  let era := z / 146097 in
  let doe := z - era * 146097 in
  let yoe := (doe - doe / 1460 + doe / 36524 - doe / 146096) / 365 in
  let doy := doe - (365 * yoe + yoe / 4 - yoe / 100) in
  let mp := (5 * doy + 2) / 153 in
  let m := if mp <? 10 then mp + 3 else mp - 9 in
  ((yoe + era * 400 + if m <=? 2 then 1 else 0), m, doy - (153 * mp + 2) / 5 + 1).

(** A number with at least [width] digits. *)
Definition format_padded (width : nat) (z : Z) : list ascii :=
  let ds := format_uint (Z.abs z) in
  (if z <? 0 then ["-"%char] else []) ++ replicate (width - length ds) "0"%char ++ ds.

Fixpoint drop_zeros (cs : list ascii) : list ascii :=
  match cs with
  | c :: cs' => if decide (c = "0"%char) then drop_zeros cs' else cs
  | [] => []
  end.

Definition format_fraction (nanos : Z) : list ascii :=
  if nanos =? 0 then [] else "."%char :: reverse (drop_zeros (reverse (format_padded 9 nanos))).

Definition format_rfc3339nano (t : time) : list ascii :=
  let secs := t / Second in
  let '(y, m, d) := civil_from_days (secs / 86400) in
  let sod := secs mod 86400 in
  format_padded 4 y ++ "-"%char :: format_padded 2 m ++ "-"%char :: format_padded 2 d ++ "T"%char ::
  format_padded 2 (sod / 3600) ++ colon :: format_padded 2 (sod / 60 mod 60) ++ colon ::
  format_padded 2 (sod mod 60) ++ format_fraction (t mod Second) ++ ["Z"%char].

Example rfc3339_sample : format_rfc3339nano (1784019600 * Second + 120000000) = chars "2026-07-14T09:00:00.12Z".
Proof. vm_compute. reflexivity. Qed.
Example rfc3339_zero : format_rfc3339nano zero_time = chars "0001-01-01T00:00:00Z".
Proof. vm_compute. reflexivity. Qed.
Example rfc3339_leap : format_rfc3339nano (951782400 * Second) = chars "2000-02-29T00:00:00Z".
Proof. vm_compute. reflexivity. Qed.

(** ** Lines

    [bufio.Scanner] with [ScanLines]: the lines up to the first one that does
    not fit the 64 KiB buffer, and whether there is such a line. *)

Definition max_scan_token : Z := 65536.

Fixpoint raw_lines (word : list ascii) (cs : list ascii) : list (list ascii) :=
  match cs with
  | [] => match word with [] => [] | _ => [word] end
  | c :: cs' =>
      if decide (c = newline) then word :: raw_lines [] cs'
      else raw_lines (word ++ [c]) cs'
  end.

Definition drop_cr (cs : list ascii) : list ascii :=
  match last cs with
  | Some c => if decide (c = carriage_return) then take (length cs - 1) cs else cs
  | None => cs
  end.

Fixpoint scan_tokens (ls : list (list ascii)) : list (list ascii) * bool :=
  match ls with
  | [] => ([], false)
  | l :: ls' =>
      if max_scan_token <=? Z.of_nat (length l) then ([], true)
      else let '(ts, long) := scan_tokens ls' in (drop_cr l :: ts, long)
  end.

Definition scan_lines (cs : list ascii) : list (list ascii) * bool := scan_tokens (raw_lines [] cs).

(** ** [sort.Strings] *)

Definition str_le (a b : string) : Prop := String.leb a b = true.

#[export] Instance str_le_dec : RelDecision str_le.
Proof. intros a b. unfold str_le. apply _. Defined.

Definition sort_strings (l : list string) : list string := merge_sort str_le l.

(** ** Lemmas *)

#[export] Instance str_le_total : Total str_le.
Proof. intros a b. apply String.leb_total. Qed.

#[export] Instance str_le_antisymm : AntiSymm (=) str_le.
Proof. intros a b. apply String.leb_antisym. Qed.

Lemma str_le_ot a b : str_le a b <-> ~ String_as_OT.lt b a.
Proof.
  unfold str_le, String.leb.
  pose proof (String_as_OT.compare_spec a b) as H. change String_as_OT.compare with String.compare in H.
  destruct H as [->|H|H].
  - split; [|done]. intros _. apply StrictOrder_Irreflexive.
  - split; [|done]. intros _ H'. by apply (StrictOrder_Irreflexive b), (StrictOrder_Transitive _ a).
  - split; [done|]. by intros [].
Qed.

#[export] Instance str_le_trans : Transitive str_le.
Proof.
  intros a b c. rewrite !str_le_ot. intros Hab Hbc Hca.
  pose proof (String_as_OT.compare_spec a b) as [->|H|H]; [done| |done].
  apply Hbc. by apply (StrictOrder_Transitive _ a).
Qed.

Lemma sort_strings_perm l : sort_strings l ≡ₚ l.
Proof. apply merge_sort_Permutation. Qed.

Lemma sort_strings_sorted l : StronglySorted str_le (sort_strings l).
Proof. apply StronglySorted_merge_sort; apply _. Qed.

(** Characters that are neither white space nor part of a multi-byte rune. *)
Definition plain (c : ascii) : Prop := 33 <= code c <= 126.

Lemma plain_space_width c cs : plain c -> space_width (c :: cs) = 0%nat.
Proof.
  unfold plain. intros Hc. unfold space_width, is_space1, is_space2, is_space3.
  rewrite (proj2 (Z.leb_gt _ 13)), (proj2 (Z.eqb_neq (code c) 32)), andb_false_r by lia. simpl.
  destruct cs as [|d cs]; [done|]. rewrite (proj2 (Z.eqb_neq (code c) 194)) by lia. simpl.
  destruct cs as [|e cs]; [done|].
  by rewrite (proj2 (Z.eqb_neq (code c) 225)), (proj2 (Z.eqb_neq (code c) 226)),
    (proj2 (Z.eqb_neq (code c) 227)) by lia.
Qed.

Lemma plain_space_width_rev c cs : plain c -> space_width_rev (c :: cs) = 0%nat.
Proof.
  unfold plain. intros Hc. unfold space_width_rev, is_space1, is_space2, is_space3.
  rewrite (proj2 (Z.leb_gt _ 13)), (proj2 (Z.eqb_neq (code c) 32)), andb_false_r by lia. simpl.
  destruct cs as [|d cs]; [done|].
  rewrite (proj2 (Z.eqb_neq (code c) 133)), (proj2 (Z.eqb_neq (code c) 160)), andb_false_r by lia.
  destruct cs as [|e cs]; [done|].
  rewrite (proj2 (Z.eqb_neq (code c) 128)), (proj2 (Z.leb_gt 128 (code c))),
    (proj2 (Z.eqb_neq (code c) 168)), (proj2 (Z.eqb_neq (code c) 169)),
    (proj2 (Z.eqb_neq (code c) 175)), (proj2 (Z.eqb_neq (code c) 159)) by lia.
  by rewrite !andb_false_r.
Qed.

Lemma TrimSpace_plain c cs d :
  plain c -> last (c :: cs) = Some d -> plain d -> TrimSpace (c :: cs) = c :: cs.
Proof.
  intros Hc Hl Hd. unfold TrimSpace. cbn [trim_with]. rewrite plain_space_width by done.
  destruct (reverse (c :: cs)) as [|x l] eqn:E.
  { by apply (f_equal length) in E; rewrite length_reverse in E. }
  pose proof (last_reverse (reverse (c :: cs))) as Hh.
  rewrite reverse_involutive, E in Hh. simpl in Hh. assert (x = d) as -> by congruence.
  cbn [trim_with]. rewrite plain_space_width_rev by done. by rewrite <- E, reverse_involutive.
Qed.

Lemma fields_from_word w word cs : Forall plain w ->
  fields_from 0 word (w ++ cs) = fields_from 0 (word ++ w) cs.
Proof.
  intros Hw. revert word; induction Hw as [|c w Hc _ IH]; intros word.
  - by rewrite app_nil_r.
  - cbn [app fields_from]. rewrite plain_space_width by done. rewrite IH.
    by rewrite <- app_assoc.
Qed.

(** [strings.Join(ws, " ")] *)
Fixpoint join_space (ws : list (list ascii)) : list ascii :=
  match ws with
  | [] => []
  | [w] => w
  | w :: ws' => w ++ space :: join_space ws'
  end.

Definition is_word (w : list ascii) : Prop := w <> [] /\ Forall plain w.

Lemma Fields_join ws : Forall is_word ws -> Fields (join_space ws) = ws.
Proof.
  unfold Fields. induction 1 as [|w ws [Hn Hp] _ IH]; [done|].
  destruct ws as [|w' ws].
  - simpl join_space. rewrite <- (app_nil_r w) at 1. rewrite fields_from_word by done.
    simpl. by destruct w.
  - change (join_space (w :: w' :: ws)) with (w ++ space :: join_space (w' :: ws)).
    rewrite fields_from_word by done. cbn [app fields_from].
    change (space_width (space :: _)) with 1%nat. destruct w; [done|]. by rewrite IH.
Qed.

Lemma Fields_space cs : Fields (space :: cs) = Fields cs.
Proof. reflexivity. Qed.

(** [strings.Split] of text without the separator, and of such text before one. *)
Lemma split_chars_word sep l : Forall (fun c => (code c =? sep) = false) l -> split_chars sep l = [l].
Proof. induction 1 as [|c l Hc _ IH]; simpl; [done|]. by rewrite Hc, IH. Qed.

Lemma split_chars_app sep l c rest : Forall (fun c => (code c =? sep) = false) l -> code c = sep ->
  split_chars sep (l ++ c :: rest) = l :: split_chars sep rest.
Proof.
  intros Hl Hc. induction Hl as [|d l Hd _ IH]; cbn [app split_chars]; [by rewrite Hc, Z.eqb_refl|]. by rewrite Hd, IH.
Qed.

Lemma Cut_app sep a b : sep ∉ a -> Cut sep (a ++ sep :: b) = Some (a, b).
Proof.
  induction a as [|c a IH]; intros Hn; simpl.
  - by rewrite decide_True.
  - apply not_elem_of_cons in Hn as [? ?]. rewrite decide_False by congruence. by rewrite IH.
Qed.

Lemma Cut_spec sep cs a b : Cut sep cs = Some (a, b) -> cs = a ++ sep :: b /\ sep ∉ a.
Proof.
  revert a; induction cs as [|c cs IH]; intros a; simpl; [done|].
  case_decide as Hc; [intros [= <- <-]; subst; split; [done|apply not_elem_of_nil]|].
  destruct (Cut sep cs) as [[a' b']|]; [|done]. intros [= <- <-].
  destruct (IH a' eq_refl) as [-> ?]. split; [done|]. apply not_elem_of_cons. naive_solver.
Qed.

Lemma digit_code d : 0 <= d < 10 -> code (digit d) = 48 + d.
Proof. intros. unfold digit. apply code_char_of. unfold is_byte. lia. Qed.

Lemma digit_is_digit d : 0 <= d < 10 -> is_digit (digit d) = true.
Proof. intros. unfold is_digit. rewrite digit_code by done. lia. Qed.

Lemma parse_digits_app max acc a b :
  parse_digits max acc (a ++ b) = parse_digits max acc a ≫= fun v => parse_digits max v b.
Proof.
  revert acc; induction a as [|c a IH]; intros acc; simpl; [done|].
  bool_cases; simpl; auto.
Qed.

Lemma parse_digits_rev fuel max z :
  0 <= z <= max -> z < 10 ^ Z.of_nat fuel ->
  parse_digits max 0 (reverse (digits_rev fuel z)) = Some z.
Proof.
  revert z; induction fuel as [|fuel IH]; intros z Hz Hb; [simpl in Hb; simpl; f_equal; lia|].
  rewrite Nat2Z.inj_succ, Z.pow_succ_r in Hb by lia. cbn [digits_rev].
  rewrite reverse_cons, parse_digits_app.
  pose proof (Z.div_mod z 10 ltac:(lia)). pose proof (Z.mod_pos_bound z 10 ltac:(lia)).
  assert (parse_digits max 0 (reverse (if z <? 10 then [] else digits_rev fuel (z / 10)))
            = Some (z / 10)) as ->.
  { destruct (Z.ltb_spec z 10); [simpl; f_equal; rewrite Z.div_small; lia|].
    apply IH; [lia|]. apply Z.div_lt_upper_bound; lia. }
  simpl. rewrite digit_is_digit, digit_code by lia.
  replace (z / 10 * 10 + (48 + z mod 10 - 48)) with z by lia.
  by rewrite (proj2 (Z.ltb_ge _ _)) by lia.
Qed.

Lemma digits_rev_digits fuel z : 0 <= z -> Forall (fun c => is_digit c = true) (digits_rev fuel z).
Proof.
  revert z; induction fuel as [|fuel IH]; intros z Hz; [constructor|]. simpl. constructor.
  - apply digit_is_digit, Z.mod_pos_bound. lia.
  - destruct (z <? 10); [constructor|]. apply IH. by apply Z.div_pos.
Qed.

Lemma digits_rev_length fuel z : (length (digits_rev fuel z) <= fuel)%nat.
Proof.
  revert z; induction fuel as [|fuel IH]; intros z; simpl; [done|].
  destruct (z <? 10); simpl; [lia|]. specialize (IH (z / 10)). lia.
Qed.

Lemma format_uint_digits z : 0 <= z -> Forall (fun c => is_digit c = true) (format_uint z).
Proof. intros Hz. by apply Forall_reverse, digits_rev_digits. Qed.

Lemma is_digit_plain c : is_digit c = true -> plain c.
Proof. unfold is_digit, plain. intros. reflect_bools. lia. Qed.

Lemma format_uint_word z : 0 <= z -> is_word (format_uint z).
Proof.
  intros Hz. unfold format_uint. split.
  - intros E. apply (f_equal length) in E. rewrite length_reverse in E. done.
  - apply Forall_reverse. apply (Forall_impl _ _ _ (digits_rev_digits 20 z Hz)), is_digit_plain.
Qed.

Lemma format_uint_no_colon z : 0 <= z -> colon ∉ format_uint z.
Proof.
  intros Hz Hin. unfold format_uint in Hin. rewrite elem_of_reverse in Hin.
  pose proof (digits_rev_digits 20 z Hz) as Hd. rewrite Forall_forall in Hd. by specialize (Hd _ Hin).
Qed.

Lemma ParseUint_format z : 0 <= z <= max_u64 -> ParseUint (format_uint z) = Some z.
Proof.
  intros Hz. destruct (format_uint_word z ltac:(lia)) as [Hn _].
  unfold ParseUint. destruct (format_uint z) eqn:E; [done|]. rewrite <- E. unfold format_uint.
  apply parse_digits_rev; [done|]. unfold max_u64 in Hz. change (10 ^ Z.of_nat 20) with 100000000000000000000. lia.
Qed.

Lemma parse_digits_range max acc cs v :
  0 <= acc <= max -> parse_digits max acc cs = Some v -> 0 <= v <= max.
Proof.
  revert acc; induction cs as [|c cs IH]; intros acc Ha; simpl; [naive_solver|].
  destruct (is_digit c) eqn:E; [|done]. case_match eqn:Hm; [done|]. apply IH.
  unfold is_digit in E. reflect_bools. lia.
Qed.

Lemma ParseUint_range cs v : ParseUint cs = Some v -> in_u 64 v.
Proof.
  unfold ParseUint. destruct cs; [done|]. intros H%parse_digits_range; [|unfold max_u64; lia].
  unfold in_u, max_u64 in *. lia.
Qed.

(** Text made of lines none of which holds a newline. *)
Definition unlines (ls : list (list ascii)) : list ascii :=
  mbind (fun l => l ++ [newline]) ls.

Lemma raw_lines_word word l cs : newline ∉ l ->
  raw_lines word (l ++ newline :: cs) = (word ++ l) :: raw_lines [] cs.
Proof.
  revert word; induction l as [|c l IH]; intros word Hn; cbn [app raw_lines].
  - rewrite decide_True by done. by rewrite app_nil_r.
  - apply not_elem_of_cons in Hn as [? ?]. rewrite decide_False by congruence.
    rewrite IH by done. by rewrite <- app_assoc.
Qed.

Lemma unlines_cons l ls : unlines (l :: ls) = l ++ newline :: unlines ls.
Proof. unfold unlines. by rewrite bind_cons, <- app_assoc. Qed.

Lemma raw_lines_unlines ls : Forall (fun l => newline ∉ l) ls -> raw_lines [] (unlines ls) = ls.
Proof.
  induction 1 as [|l ls Hl _ IH]; [done|]. by rewrite unlines_cons, raw_lines_word, IH.
Qed.

Lemma chars_app a b : chars (a +:+ b) = chars a ++ chars b.
Proof. induction a as [|c a IH]; [done|]. change (c :: chars (a +:+ b) = c :: (chars a ++ chars b)). by rewrite IH. Qed.

Lemma len_app a b : len (a +:+ b) = len a + len b.
Proof. unfold len. rewrite chars_app, length_app. lia. Qed.

Lemma chars_inj a b : chars a = chars b -> a = b.
Proof. intros E. by rewrite <- (of_chars_chars a), E, of_chars_chars. Qed.

Lemma len_format_int z : len (of_chars (format_int z)) <= 21.
Proof.
  unfold len, format_int, format_uint. rewrite chars_of_chars.
  destruct (z <? 0); rewrite ?length_cons, ?length_reverse.
  - pose proof (digits_rev_length 20 (- z)). lia.
  - pose proof (digits_rev_length 20 z). lia.
Qed.

Lemma is_word_last w : is_word w -> exists d, last w = Some d /\ plain d.
Proof.
  intros [Hn Hp]. destruct (last w) as [d|] eqn:E; [|by apply last_None in E].
  exists d. split; [done|]. rewrite Forall_forall in Hp. apply Hp. by apply last_Some_elem_of.
Qed.

Lemma join_space_last ws : ws <> [] -> Forall is_word ws ->
  exists d, last (join_space ws) = Some d /\ plain d.
Proof.
  intros Hn Hw. induction Hw as [|w ws Hw Hws IH]; [done|].
  destruct ws as [|w' ws]; [by apply is_word_last|].
  destruct IH as (d & E & Hd); [done|]. exists d. split; [|done].
  change (join_space (w :: w' :: ws)) with (w ++ space :: join_space (w' :: ws)).
  by rewrite last_app, last_cons, E.
Qed.

Lemma join_space_length k ws : Forall (fun w => (length w <= k)%nat) ws ->
  (length (join_space ws) <= length ws * (k + 1))%nat.
Proof.
  induction 1 as [|w ws Hw _ IH]; [done|].
  destruct ws as [|w' ws]; [simpl; lia|].
  change (join_space (w :: w' :: ws)) with (w ++ space :: join_space (w' :: ws)).
  rewrite length_app, length_cons. cbn [length] in *. lia.
Qed.

Lemma plain_not_in w c : Forall plain w -> ~ plain c -> c ∉ w.
Proof. intros Hw Hc Hin. apply Hc. rewrite Forall_forall in Hw. by apply Hw. Qed.

Lemma not_in_join_space c ws : c <> space -> Forall (fun w => c ∉ w) ws -> c ∉ join_space ws.
Proof.
  intros Hc. induction 1 as [|w ws Hw Hws IH]; [apply not_elem_of_nil|].
  destruct ws as [|w' ws]; [done|].
  change (join_space (w :: w' :: ws)) with (w ++ space :: join_space (w' :: ws)).
  by rewrite elem_of_app, elem_of_cons; intros [?|[?|?]].
Qed.

Lemma not_plain_newline : ~ plain newline.
Proof. unfold plain. change (code newline) with 10. lia. Qed.

(** A text line that ends in a plain character is delivered as it is. *)
Lemma drop_cr_plain cs d : last cs = Some d -> plain d -> drop_cr cs = cs.
Proof.
  intros E Hd. unfold drop_cr. rewrite E, decide_False; [done|]. intros ->.
  unfold plain in Hd. change (code carriage_return) with 13 in Hd. lia.
Qed.

Lemma scan_lines_unlines ls :
  Forall (fun l => (newline ∉ l) /\ drop_cr l = l /\ Z.of_nat (length l) < max_scan_token) ls ->
  scan_lines (unlines ls) = (ls, false).
Proof.
  intros H. unfold scan_lines. rewrite raw_lines_unlines by (by eapply Forall_impl; [exact H|naive_solver]).
  induction H as [|l ls (_ & Hd & Hl) _ IH]; [done|]. cbn [scan_tokens].
  by rewrite (proj2 (Z.leb_gt _ _)), IH, Hd by done.
Qed.

(** ** [unicode/utf8] and [strings.ToValidUTF8] *)

Definition byte_in (lo hi : Z) (c : ascii) : bool := (lo <=? code c) && (code c <=? hi).
Definition cont (c : ascii) : bool := byte_in 128 191 c.

(** The bytes of the character at the front, if they are one. *)
Definition rune_width (cs : list ascii) : option nat :=
  match cs with
  | [] => None
  | a :: rest =>
      if code a <? 128 then Some 1%nat
      else
        match rest with
        | [] => None
        | b :: rest =>
            if byte_in 194 223 a then (if cont b then Some 2%nat else None)
            else
              match rest with
              | [] => None
              | c :: rest =>
                  if (bool_decide (code a = 224) && byte_in 160 191 b || byte_in 225 236 a && cont b ||
                      bool_decide (code a = 237) && byte_in 128 159 b || byte_in 238 239 a && cont b) && cont c
                  then Some 3%nat
                  else
                    match rest with
                    | [] => None
                    | d :: _ =>
                        if (bool_decide (code a = 240) && byte_in 144 191 b || byte_in 241 243 a && cont b ||
                            bool_decide (code a = 244) && byte_in 128 143 b) && cont c && cont d
                        then Some 4%nat else None
                    end
              end
        end
  end.

(** Text that is a sequence of characters. *)
Inductive valid_utf8 : list ascii -> Prop :=
| valid_nil : valid_utf8 []
| valid_rune cs n : rune_width cs = Some n -> valid_utf8 (drop n cs) -> valid_utf8 cs.

(** U+FFFD *)
Definition replacement_char : list ascii := [char_of 239; char_of 191; char_of 189].

(** The loop of [ToValidUTF8]; [skip] bytes of a character are still to be copied. *)
Fixpoint to_valid (replacement : list ascii) (skip : nat) (invalid : bool) (cs : list ascii) : list ascii :=
  match cs with
  | [] => []
  | c :: rest =>
      match skip with
      | S skip' => c :: to_valid replacement skip' false rest
      | O =>
          match rune_width cs with
          | Some n => c :: to_valid replacement (n - 1) false rest
          | None => (if invalid then [] else replacement) ++ to_valid replacement 0 true rest
          end
      end
  end.

Definition ToValidUTF8 (s replacement : list ascii) : list ascii := to_valid replacement 0 false s.

Example to_valid_sample : ToValidUTF8 [char_of 97; char_of 255; char_of 226; char_of 130; char_of 98; char_of 195; char_of 169] [char_of 63]
  = [char_of 97; char_of 63; char_of 98; char_of 195; char_of 169].
Proof. reflexivity. Qed.

(** ** Properties *)

Lemma rune_width_bounds cs n : rune_width cs = Some n -> (1 <= n <= 4)%nat /\ (n <= length cs)%nat.
Proof.
  unfold rune_width. intros E. repeat case_match; simplify_eq; simpl; lia.
Qed.

(** The width depends on the bytes of the character only. *)
Lemma rune_width_take cs n more : rune_width cs = Some n -> rune_width (take n cs ++ more) = Some n.
Proof.
  unfold rune_width. intros E. repeat case_match; simplify_eq/=; try done; repeat case_match; try done; congruence.
Qed.

Lemma valid_app cs ds : valid_utf8 cs -> valid_utf8 ds -> valid_utf8 (cs ++ ds).
Proof.
  induction 1 as [|cs n Hn _ IH]; intros Hd; [done|]. pose proof (rune_width_bounds _ _ Hn) as [_ Hl].
  apply (valid_rune _ n).
  - rewrite <- (take_drop n cs), <- app_assoc. by apply rune_width_take.
  - rewrite drop_app_le by done. by apply IH.
Qed.

Lemma to_valid_valid replacement cs : valid_utf8 replacement ->
  (forall invalid, valid_utf8 (to_valid replacement 0 invalid cs)) /\
  (forall skip, (skip <= length cs)%nat -> exists rest, to_valid replacement skip false cs = take skip cs ++ rest /\ valid_utf8 rest).
Proof.
  intros Hr. induction cs as [|c cs [IH1 IH2]].
  { split; [constructor|]. intros skip Hs. exists []. destruct skip; simpl in *; [by split; [|constructor]|lia]. }
  assert (forall invalid, valid_utf8 (to_valid replacement 0 invalid (c :: cs))) as H0.
  { intros invalid. cbn [to_valid]. destruct (rune_width (c :: cs)) as [n|] eqn:En.
    - pose proof (rune_width_bounds _ _ En) as [Hn1 Hn2]. simpl in Hn2.
      destruct (IH2 (n - 1)%nat ltac:(lia)) as (rest & -> & Hrest).
      change (c :: take (n - 1) cs ++ rest) with (take (S (n - 1)) (c :: cs) ++ rest).
      replace (S (n - 1)) with n by lia. apply (valid_rune _ n); [by apply rune_width_take|].
      rewrite drop_app_ge by (rewrite length_take; simpl; lia). rewrite length_take_le by (simpl; lia). by rewrite Nat.sub_diag.
    - destruct invalid; [apply IH1|]. apply valid_app; [done|apply IH1]. }
  split; [exact H0|]. intros [|skip] Hs; [exists (to_valid replacement 0 false (c :: cs)); split; [done|apply H0]|].
  simpl in Hs. destruct (IH2 skip ltac:(lia)) as (rest & E & Hrest). exists rest. cbn [to_valid]. rewrite E. done.
Qed.

Lemma ToValidUTF8_valid s replacement : valid_utf8 replacement -> valid_utf8 (ToValidUTF8 s replacement).
Proof. intros Hr. by apply (to_valid_valid replacement s Hr). Qed.

Lemma replacement_char_valid : valid_utf8 replacement_char.
Proof. apply (valid_rune _ 3); [reflexivity|constructor]. Qed.

Lemma Atoi_range cs n : Atoi cs = Some n -> n <= max_i64.
Proof.
  unfold Atoi. destruct cs as [|c cs]; [done|]. repeat case_bool_decide.
  - destruct cs as [|d cs]; [done|]. destruct (parse_digits _ _ _) as [v|] eqn:E; [|done]. intros [= <-].
    apply parse_digits_range in E; unfold max_i64 in *; lia.
  - destruct cs as [|d cs]; [done|]. intros E. apply parse_digits_range in E; unfold max_i64 in *; lia.
  - intros E. apply parse_digits_range in E; unfold max_i64 in *; lia.
Qed.
