(* ===== verification/GoModel.v ===== *)
(** * The event model shared by agent and server

    [internal/model/event.go] and [traffic.go]: events, their payloads, batches,
    and the validation every batch passes before it is queued, sent or stored. *)

From stdpp Require Import base list strings numbers sets.
From S2P Require Import Prelude GoBase.

Open Scope string_scope.
Open Scope Z_scope.

(** ** Constants *)

Definition EventInterfaceDelta : string := "interface_delta".
Definition EventHealth : string := "health".
Definition EventConnection : string := "connection_delta".
Definition EventProxyRequest : string := "proxy_request".
Definition EventNameEvidence : string := "name_evidence".
Definition EventOwnerInventory : string := "owner_inventory".

Definition DirectionInbound : string := "inbound".
Definition DirectionOutbound : string := "outbound".
Definition DirectionInternal : string := "internal".
Definition DirectionContainer : string := "container_to_container".

Definition OwnerHost : string := "host".
Definition OwnerProcess : string := "process".
Definition OwnerContainer : string := "container".

Definition ConfidenceConfirmed : string := "confirmed".
Definition ConfidenceInferred : string := "inferred".
Definition ConfidenceIPOnly : string := "ip_only".

(** ** Data *)

Record OwnerRef : Type := MkOwnerRef {
  own_Kind : string; own_PID : Z; own_Process : string;
  own_ContainerID : string; own_ContainerName : string }.

#[export] Instance OwnerRef_eq_dec : EqDecision OwnerRef.
Proof. solve_decision. Defined.

Record OwnerInventory : Type := MkOwnerInventory {
  inv_Owner : OwnerRef; inv_CgroupID : Z; inv_Addresses : list string;
  inv_Ports : list Z; inv_Running : bool }.

Record Endpoint : Type := MkEndpoint {
  ep_IP : string; ep_Port : Z; ep_Domain : string; ep_Confidence : string }.

#[export] Instance Endpoint_eq_dec : EqDecision Endpoint.
Proof. solve_decision. Defined.

Record ConnectionDelta : Type := MkConnectionDelta {
  cd_Protocol : string; cd_Local : Endpoint; cd_Remote : Endpoint; cd_Owner : OwnerRef;
  cd_BytesSent : Z; cd_BytesReceived : Z; cd_State : string }.

Record ProxyRequest : Type := MkProxyRequest {
  pr_Host : string; pr_SourceIP : string; pr_Method : string; pr_Status : Z;
  pr_BytesSent : Z; pr_Upstream : string; pr_DurationMS : Z }.

Record NameEvidence : Type := MkNameEvidence {
  ne_IP : string; ne_Name : string; ne_Source : string;
  ne_ValidFrom : time; ne_ValidUntil : time }.

Record HealthEvent : Type := MkHealthEvent {
  he_Collector : string; he_Status : string; he_Code : string;
  he_DroppedEvents : Z; he_UsagePercent : float64; he_Message : string }.

Record Event : Type := MkEvent {
  ev_ID : string; ev_ObservedAt : time; ev_Kind : string; ev_Direction : string;
  ev_Bytes : Z; ev_Packets : Z; ev_Interface : string;
  ev_Health : option HealthEvent; ev_Connection : option ConnectionDelta;
  ev_ProxyRequest : option ProxyRequest; ev_NameEvidence : option NameEvidence;
  ev_OwnerInventory : option OwnerInventory }.

Record Batch : Type := MkBatch {
  b_SchemaVersion : Z; b_BatchID : string; b_NodeID : string; b_SentAt : time;
  b_Events : list Event; b_CompactedBatchIDs : list string }.

#[export] Instance spec_float_eq_dec : EqDecision SpecFloat.spec_float.
Proof. solve_decision. Defined.
#[export] Instance HealthEvent_eq_dec : EqDecision HealthEvent.
Proof. solve_decision. Defined.
#[export] Instance OwnerInventory_eq_dec : EqDecision OwnerInventory.
Proof. solve_decision. Defined.
#[export] Instance ConnectionDelta_eq_dec : EqDecision ConnectionDelta.
Proof. solve_decision. Defined.
#[export] Instance ProxyRequest_eq_dec : EqDecision ProxyRequest.
Proof. solve_decision. Defined.
#[export] Instance NameEvidence_eq_dec : EqDecision NameEvidence.
Proof. solve_decision. Defined.
#[export] Instance Event_eq_dec : EqDecision Event.
Proof. solve_decision. Defined.
#[export] Instance Batch_eq_dec : EqDecision Batch.
Proof. solve_decision. Defined.

(** ** Validation *)

Inductive validation_error : Type :=
| Msg (m : string)
| AtEvent (i : nat) (e : validation_error)
| Within (what : string) (e : validation_error).

Definition verify (ok : bool) (m : string) : result validation_error unit :=
  guard_err ok (Msg m).

Definition in_context {A} (f : validation_error -> validation_error)
  (r : result validation_error A) : result validation_error A :=
  match r with Ok a => Ok a | Err e => Err (f e) end.

Definition and_then {A} (r : result validation_error unit) (k : result validation_error A)
  : result validation_error A := result_bind r (fun _ => k).

Notation "c ;;; k" := (and_then c k) (at level 100, right associativity) : flow_scope.
Local Open Scope flow_scope.

Definition valid_id (id : string) : bool := negb (String.eqb id "") && (len id <=? 128).

(** [Direction.valid] *)
Definition direction_valid (d : string) : bool :=
  String.eqb d DirectionInbound || String.eqb d DirectionOutbound ||
  String.eqb d DirectionInternal || String.eqb d DirectionContainer.

(** [DomainConfidence.valid] *)
Definition confidence_valid (c : string) : bool :=
  String.eqb c ConfidenceConfirmed || String.eqb c ConfidenceInferred ||
  String.eqb c ConfidenceIPOnly.

Definition owner_validate (owner : OwnerRef) : result validation_error unit :=
  if String.eqb (own_Kind owner) OwnerHost then Ok tt
  else if String.eqb (own_Kind owner) OwnerProcess then
    verify (0 <? own_PID owner) "process owner pid is required"
  else if String.eqb (own_Kind owner) OwnerContainer then
    verify (negb (String.eqb (own_ContainerID owner) "")) "container owner container_id is required"
  else Err (Msg "owner kind is invalid").

Definition endpoint_validate (label : string) (e : Endpoint) : result validation_error unit :=
  verify (valid_addr (ep_IP e)) (label +:+ " ip is invalid") ;;;
  verify (negb (ep_Port e =? 0)) (label +:+ " port must be within 1..65535") ;;;
  verify (confidence_valid (ep_Confidence e)) (label +:+ " confidence is invalid").

Definition connection_validate (c : ConnectionDelta) : result validation_error unit :=
  verify (negb (String.eqb (cd_Protocol c) "")) "protocol is required" ;;;
  endpoint_validate "local" (cd_Local c) ;;;
  endpoint_validate "remote" (cd_Remote c) ;;;
  owner_validate (cd_Owner c) ;;;
  verify (0 <=? cd_BytesSent c) "bytes_sent must be non-negative" ;;;
  verify (0 <=? cd_BytesReceived c) "bytes_received must be non-negative".

Definition proxy_validate (r : ProxyRequest) : result validation_error unit :=
  verify (negb (String.eqb (pr_Host r) "" || String.eqb (pr_Method r) "" ||
                String.eqb (pr_Upstream r) ""))
    "proxy request host, method, and upstream are required" ;;;
  verify (valid_addr (pr_SourceIP r)) "proxy request source_ip is invalid" ;;;
  verify (negb ((pr_Status r <? 100) || (599 <? pr_Status r) || (pr_BytesSent r <? 0) ||
                (pr_DurationMS r <? 0)))
    "proxy request counters are invalid".

Definition evidence_validate (e : NameEvidence) : result validation_error unit :=
  verify (valid_addr (ne_IP e)) "name evidence ip is invalid" ;;;
  verify (negb (String.eqb (ne_Name e) "" || String.eqb (ne_Source e) "" ||
                IsZero (ne_ValidFrom e) || negb (ne_ValidFrom e <? ne_ValidUntil e)))
    "name evidence is invalid".

Definition inventory_validate (i : OwnerInventory) : result validation_error unit :=
  owner_validate (inv_Owner i) ;;;
  verify (forallb valid_addr (inv_Addresses i)) "owner inventory address is invalid" ;;;
  verify (forallb (fun p => negb (p =? 0)) (inv_Ports i))
    "owner inventory port must be within 1..65535".

Definition present {A} (o : option A) : Z := match o with Some _ => 1 | None => 0 end.

Definition trafficPayloadCount (e : Event) : Z :=
  present (ev_Connection e) + present (ev_ProxyRequest e) +
  present (ev_NameEvidence e) + present (ev_OwnerInventory e).

Definition nonHealthPayloadCount (e : Event) : Z :=
  trafficPayloadCount e + present (ev_Health e).

Definition payload_msg : string := "must contain exactly one payload matching its kind".

Definition health_ok (h : HealthEvent) : bool :=
  negb (String.eqb (he_Collector h) "" || String.eqb (he_Status h) "" ||
        String.eqb (he_Code h) "" || (he_DroppedEvents h <? 0) ||
        f64_ltb (he_UsagePercent h) (f64_of_Z 0) || f64_ltb (f64_of_Z 100) (he_UsagePercent h)).

(** The switch on the kind of an event. *)
Definition kind_validate (e : Event) : result validation_error unit :=
  if String.eqb (ev_Kind e) EventInterfaceDelta then
    verify (nonHealthPayloadCount e =? 0) payload_msg ;;;
    verify (direction_valid (ev_Direction e)) "direction is invalid" ;;;
    verify (negb (String.eqb (ev_Interface e) "")) "interface is required"
  else if String.eqb (ev_Kind e) EventHealth then
    verify (match ev_Health e with Some h => health_ok h | None => false end)
      "health payload is invalid" ;;;
    verify (trafficPayloadCount e =? 0) payload_msg
  else if String.eqb (ev_Kind e) EventConnection then
    match ev_Connection e with
    | Some c => verify (nonHealthPayloadCount e =? 1) payload_msg ;;;
                in_context (Within "connection") (connection_validate c)
    | None => Err (Msg payload_msg)
    end
  else if String.eqb (ev_Kind e) EventProxyRequest then
    match ev_ProxyRequest e with
    | Some r => verify (nonHealthPayloadCount e =? 1) payload_msg ;;;
                in_context (Within "proxy request") (proxy_validate r)
    | None => Err (Msg payload_msg)
    end
  else if String.eqb (ev_Kind e) EventNameEvidence then
    match ev_NameEvidence e with
    | Some n => verify (nonHealthPayloadCount e =? 1) payload_msg ;;;
                in_context (Within "name evidence") (evidence_validate n)
    | None => Err (Msg payload_msg)
    end
  else if String.eqb (ev_Kind e) EventOwnerInventory then
    match ev_OwnerInventory e with
    | Some o => verify (nonHealthPayloadCount e =? 1) payload_msg ;;;
                in_context (Within "owner inventory") (inventory_validate o)
    | None => Err (Msg payload_msg)
    end
  else Err (Msg "kind is unsupported").

Definition event_validate (e : Event) : result validation_error unit :=
  verify (valid_id (ev_ID e)) "id must contain 1..128 bytes" ;;;
  verify (negb (IsZero (ev_ObservedAt e))) "observed_at is required" ;;;
  verify (0 <=? ev_Bytes e) "bytes must be non-negative" ;;;
  verify (0 <=? ev_Packets e) "packets must be non-negative" ;;;
  kind_validate e.

Fixpoint events_validate (i : nat) (es : list Event) : result validation_error unit :=
  match es with
  | [] => Ok tt
  | e :: es' => in_context (AtEvent i) (event_validate e) ;;; events_validate (S i) es'
  end.

Fixpoint compacted_validate (seen : list string) (ids : list string) : result validation_error unit :=
  match ids with
  | [] => Ok tt
  | id :: ids' =>
      verify (valid_id id) "compacted batch id must contain 1..128 bytes" ;;;
      verify (negb (bool_decide (id ∈ seen))) "compacted batch ids must be unique" ;;;
      compacted_validate (id :: seen) ids'
  end.

Definition Validate (b : Batch) : result validation_error unit :=
  verify (b_SchemaVersion b =? 1) "schema_version must be 1" ;;;
  verify (valid_id (b_BatchID b)) "batch_id must contain 1..128 bytes" ;;;
  verify (valid_id (b_NodeID b)) "node_id must contain 1..128 bytes" ;;;
  verify (negb (IsZero (b_SentAt b))) "sent_at is required" ;;;
  verify (negb ((length (b_Events b) =? 0)%nat || (5000 <? Z.of_nat (length (b_Events b)))))
    "event count must be within 1..5000" ;;;
  verify (Z.of_nat (length (b_CompactedBatchIDs b)) <=? 5000)
    "compacted batch count must not exceed 5000" ;;;
  compacted_validate [] (b_CompactedBatchIDs b) ;;;
  events_validate 0 (b_Events b).

(** ** What validation promises

    The rules written as propositions: which batches the server may store. *)

Definition id_ok (id : string) : Prop := 1 <= len id <= 128.

Definition owner_ok (o : OwnerRef) : Prop :=
  own_Kind o = OwnerHost \/
  (own_Kind o = OwnerProcess /\ 0 < own_PID o) \/
  (own_Kind o = OwnerContainer /\ own_ContainerID o <> "").

Definition addr_ok (s : string) : Prop := exists a, ParseAddr s = Some a.

Definition endpoint_ok (e : Endpoint) : Prop :=
  addr_ok (ep_IP e) /\ ep_Port e <> 0 /\
  ep_Confidence e ∈ [ConfidenceConfirmed; ConfidenceInferred; ConfidenceIPOnly].

Definition connection_ok (c : ConnectionDelta) : Prop :=
  cd_Protocol c <> "" /\ endpoint_ok (cd_Local c) /\ endpoint_ok (cd_Remote c) /\
  owner_ok (cd_Owner c) /\ 0 <= cd_BytesSent c /\ 0 <= cd_BytesReceived c.

Definition proxy_ok (r : ProxyRequest) : Prop :=
  pr_Host r <> "" /\ pr_Method r <> "" /\ pr_Upstream r <> "" /\ addr_ok (pr_SourceIP r) /\
  100 <= pr_Status r <= 599 /\ 0 <= pr_BytesSent r /\ 0 <= pr_DurationMS r.

Definition evidence_ok (e : NameEvidence) : Prop :=
  addr_ok (ne_IP e) /\ ne_Name e <> "" /\ ne_Source e <> "" /\
  ne_ValidFrom e <> zero_time /\ ne_ValidFrom e < ne_ValidUntil e.

Definition inventory_ok (i : OwnerInventory) : Prop :=
  owner_ok (inv_Owner i) /\ Forall addr_ok (inv_Addresses i) /\
  Forall (fun p => p <> 0) (inv_Ports i).

(** The payload an event carries: the five optional fields, exactly one or none
    of them present. *)
Inductive payload : Type :=
| NoPayload
| HealthP (h : HealthEvent)
| ConnectionP (c : ConnectionDelta)
| ProxyP (r : ProxyRequest)
| EvidenceP (n : NameEvidence)
| InventoryP (i : OwnerInventory).

Definition carries (e : Event) (p : payload) : Prop :=
  ev_Health e = match p with HealthP h => Some h | _ => None end /\
  ev_Connection e = match p with ConnectionP c => Some c | _ => None end /\
  ev_ProxyRequest e = match p with ProxyP r => Some r | _ => None end /\
  ev_NameEvidence e = match p with EvidenceP n => Some n | _ => None end /\
  ev_OwnerInventory e = match p with InventoryP i => Some i | _ => None end.

(** Which payloads a kind admits. *)
Inductive kind_admits (e : Event) : payload -> Prop :=
| AdmitInterface : ev_Kind e = EventInterfaceDelta -> ev_Interface e <> "" ->
    ev_Direction e ∈ [DirectionInbound; DirectionOutbound; DirectionInternal; DirectionContainer] ->
    kind_admits e NoPayload
| AdmitHealth h : ev_Kind e = EventHealth -> health_ok h = true -> kind_admits e (HealthP h)
| AdmitConnection c : ev_Kind e = EventConnection -> connection_ok c ->
    kind_admits e (ConnectionP c)
| AdmitProxy r : ev_Kind e = EventProxyRequest -> proxy_ok r -> kind_admits e (ProxyP r)
| AdmitEvidence n : ev_Kind e = EventNameEvidence -> evidence_ok n -> kind_admits e (EvidenceP n)
| AdmitInventory i : ev_Kind e = EventOwnerInventory -> inventory_ok i ->
    kind_admits e (InventoryP i).

Record event_ok (e : Event) : Prop := {
  eok_id : id_ok (ev_ID e);
  eok_at : ev_ObservedAt e <> zero_time;
  eok_bytes : 0 <= ev_Bytes e;
  eok_packets : 0 <= ev_Packets e;
  eok_payload : exists p, carries e p /\ kind_admits e p }.

Record batch_ok (b : Batch) : Prop := {
  bok_version : b_SchemaVersion b = 1;
  bok_id : id_ok (b_BatchID b);
  bok_node : id_ok (b_NodeID b);
  bok_sent : b_SentAt b <> zero_time;
  bok_count : 1 <= Z.of_nat (length (b_Events b)) <= 5000;
  bok_compacted : Z.of_nat (length (b_CompactedBatchIDs b)) <= 5000;
  bok_compacted_ids : Forall id_ok (b_CompactedBatchIDs b);
  bok_compacted_unique : NoDup (b_CompactedBatchIDs b);
  bok_events : Forall event_ok (b_Events b) }.

(** ** Lemmas *)

Lemma and_then_ok {A} r (k : result validation_error A) a :
  and_then r k = Ok a <-> r = Ok tt /\ k = Ok a.
Proof. destruct r as [[]|]; simpl; naive_solver. Qed.

Lemma verify_ok b m : verify b m = Ok tt <-> b = true.
Proof. apply guard_err_ok. Qed.

Lemma in_context_ok {A} f (r : result validation_error A) a :
  in_context f r = Ok a <-> r = Ok a.
Proof. destruct r; simpl; naive_solver. Qed.

Lemma len_pos s : 1 <= len s <-> s <> "".
Proof. destruct s; unfold len; simpl; split; try done; try lia. Qed.

Lemma valid_id_ok id : valid_id id = true <-> id_ok id.
Proof.
  unfold valid_id, id_ok. rewrite andb_true_iff, negb_true_iff, String.eqb_neq, Z.leb_le, <- len_pos.
  lia.
Qed.

Lemma valid_addr_ok s : valid_addr s = true <-> addr_ok s.
Proof. unfold valid_addr, addr_ok. destruct (ParseAddr s); naive_solver. Qed.

Lemma confidence_valid_ok c :
  confidence_valid c = true <-> c ∈ [ConfidenceConfirmed; ConfidenceInferred; ConfidenceIPOnly].
Proof.
  unfold confidence_valid. rewrite !orb_true_iff, !String.eqb_eq. set_solver.
Qed.

Lemma direction_valid_ok d : direction_valid d = true <->
  d ∈ [DirectionInbound; DirectionOutbound; DirectionInternal; DirectionContainer].
Proof.
  unfold direction_valid. rewrite !orb_true_iff, !String.eqb_eq. set_solver.
Qed.

Lemma IsZero_false t : negb (IsZero t) = true <-> t <> zero_time.
Proof. unfold IsZero. by rewrite negb_true_iff, Z.eqb_neq. Qed.

(** Rewrites the success of a chain of checks into the conjunction of the checks. *)
Ltac checks :=
  rewrite ?and_then_ok, ?in_context_ok, ?verify_ok, ?valid_id_ok, ?valid_addr_ok,
    ?confidence_valid_ok, ?direction_valid_ok, ?IsZero_false, ?negb_true_iff, ?orb_false_iff,
    ?String.eqb_neq, ?Z.eqb_neq, ?Z.eqb_eq, ?Z.ltb_ge, ?Z.ltb_lt, ?Z.leb_le.

Lemma owner_validate_ok o : owner_validate o = Ok tt <-> owner_ok o.
Proof.
  unfold owner_validate, owner_ok, OwnerHost, OwnerProcess, OwnerContainer.
  bool_cases; reflect_bools; checks; intuition congruence.
Qed.

Lemma endpoint_validate_ok label e : endpoint_validate label e = Ok tt <-> endpoint_ok e.
Proof. unfold endpoint_validate, endpoint_ok. by checks. Qed.

Lemma connection_validate_ok c : connection_validate c = Ok tt <-> connection_ok c.
Proof.
  unfold connection_validate, connection_ok.
  checks. by rewrite !endpoint_validate_ok, owner_validate_ok.
Qed.

Lemma proxy_validate_ok r : proxy_validate r = Ok tt <-> proxy_ok r.
Proof. unfold proxy_validate, proxy_ok. checks. naive_solver lia. Qed.

Lemma evidence_validate_ok e : evidence_validate e = Ok tt <-> evidence_ok e.
Proof.
  unfold evidence_validate, evidence_ok. checks. rewrite negb_false_iff, Z.ltb_lt.
  unfold IsZero. rewrite Z.eqb_neq. naive_solver.
Qed.

Lemma inventory_validate_ok i : inventory_validate i = Ok tt <-> inventory_ok i.
Proof.
  unfold inventory_validate, inventory_ok. checks.
  rewrite owner_validate_ok, (forallb_Forall_iff valid_addr addr_ok) by apply valid_addr_ok.
  rewrite (forallb_Forall_iff _ (fun p => p <> 0)); [done|].
  intros p. by checks.
Qed.

Lemma present_01 {A} (o : option A) : (o = None /\ present o = 0) \/ (is_Some o /\ present o = 1).
Proof. destruct o; simpl; eauto. Qed.

(** A kind admits exactly the events whose payload matches it. *)
Lemma kind_validate_ok e :
  kind_validate e = Ok tt <-> exists p, carries e p /\ kind_admits e p.
Proof.
  unfold kind_validate, nonHealthPayloadCount, trafficPayloadCount, carries.
  split.
  - bool_cases; reflect_bools; intros H;
    repeat match goal with H : context [match ?o with Some _ => _ | None => _ end] |- _ =>
      destruct o eqn:? end; try done; revert H; checks; intros; destruct_and?;
    destruct (ev_Health e), (ev_Connection e), (ev_ProxyRequest e), (ev_NameEvidence e),
      (ev_OwnerInventory e); simplify_eq/=; try lia.
    + exists NoPayload. split_and!; auto. by constructor.
    + eexists (HealthP _). split_and!; auto. by constructor.
    + eexists (ConnectionP _). split_and!; auto. constructor; [done|]. by apply connection_validate_ok.
    + eexists (ProxyP _). split_and!; auto. constructor; [done|]. by apply proxy_validate_ok.
    + eexists (EvidenceP _). split_and!; auto. constructor; [done|]. by apply evidence_validate_ok.
    + eexists (InventoryP _). split_and!; auto. constructor; [done|]. by apply inventory_validate_ok.
  - intros (p & (-> & -> & -> & -> & ->) & Hp).
    destruct Hp as [-> ??|h -> ?|c -> ?|r -> ?|n -> ?|i -> ?]; simpl;
      rewrite ?and_then_ok, ?in_context_ok, ?verify_ok, ?connection_validate_ok, ?proxy_validate_ok,
        ?evidence_validate_ok, ?inventory_validate_ok, ?direction_valid_ok, ?negb_true_iff,
        ?String.eqb_neq; done.
Qed.

Lemma event_validate_ok e : event_validate e = Ok tt <-> event_ok e.
Proof.
  unfold event_validate. checks. rewrite kind_validate_ok.
  split; [intros (?&?&?&?&?); by constructor | by intros []].
Qed.

Lemma events_validate_ok i es : events_validate i es = Ok tt <-> Forall event_ok es.
Proof.
  revert i; induction es as [|e es IH]; intros i; simpl; [by split; [constructor|]|].
  checks. by rewrite event_validate_ok, IH, Forall_cons_iff.
Qed.

Lemma compacted_validate_ok seen ids :
  compacted_validate seen ids = Ok tt <->
  Forall id_ok ids /\ NoDup ids /\ (forall id, id ∈ ids -> id ∉ seen).
Proof.
  revert seen; induction ids as [|id ids IH]; intros seen; simpl.
  { split; [|done]. intros _. split_and!; [constructor|constructor|set_solver]. }
  checks. rewrite IH, bool_decide_eq_false, Forall_cons_iff, NoDup_cons. set_solver.
Qed.

(** A failing scan stops at the first event that breaks a rule. *)
Lemma events_validate_err i es err : events_validate i es = Err err ->
  exists k e err', err = AtEvent (i + k) err' /\ es !! k = Some e /\
    event_validate e = Err err' /\ Forall event_ok (take k es).
Proof.
  revert i; induction es as [|e es IH]; intros i; simpl; [done|].
  destruct (event_validate e) as [[]|err'] eqn:He; simpl; intros H.
  - destruct (IH _ H) as (k & e' & err' & -> & Hk & He' & Hall).
    exists (S k), e', err'. split_and!; [f_equal; lia|done|done|].
    simpl. constructor; [by apply event_validate_ok|done].
  - simplify_eq. exists O, e, err'. split_and!; [f_equal; lia|done|done|constructor].
Qed.

Lemma Validate_ok b : Validate b = Ok tt <-> batch_ok b.
Proof.
  unfold Validate. checks. rewrite compacted_validate_ok, events_validate_ok, Nat.eqb_neq.
  split.
  - intros (?&?&?&?&[? ?]&?&(?&?&?)&?). constructor; auto. lia.
  - intros [? ? ? ? [] ? ? ? ?]. split_and!; auto; try lia. set_solver.
Qed.

(** ** Properties *)

(** C37. A batch passes [Batch.Validate] exactly when it meets the declarative
    contract: version, identifiers, counts, unique compacted ids, and every event
    with a valid identifier, instant, counters and precisely the one payload its
    kind admits, that payload valid. *)
Theorem validate_contract b : Validate b = Ok tt <-> batch_ok b.
Proof. apply Validate_ok. Qed.

(** The error of a rejected batch names the first event at fault: whenever
    the report points at event [i], that event breaks a rule and all events
    before it are valid; and the batch's own fields were all in order. *)
Theorem validate_first_error b i err :
  Validate b = Err (AtEvent i err) ->
  exists e, b_Events b !! i = Some e /\ event_validate e = Err err /\ ~ event_ok e /\
    Forall event_ok (take i (b_Events b)) /\
    id_ok (b_BatchID b) /\ id_ok (b_NodeID b) /\ NoDup (b_CompactedBatchIDs b).
Proof.
  unfold Validate, verify, guard_err. bool_cases; simpl; try done.
  destruct (compacted_validate [] _) as [[]|e] eqn:Hc; simpl.
  2: { intros [= ->]. exfalso. revert Hc. generalize (b_CompactedBatchIDs b) as ids, (@nil string).
       induction ids as [|id ids IH]; simpl; [done|]. intros l. unfold verify, guard_err.
       bool_cases; simpl; try done. apply IH. }
  intros H. destruct (events_validate_err _ _ _ H) as (k & e & err' & [= -> ->] & He & Hv & Hall).
  apply compacted_validate_ok in Hc as (_ & ? & _).
  exists e. rewrite <- !valid_id_ok, <- event_validate_ok, Hv. by split_and!.
Qed.

(** ** Witnesses *)

Definition sample_event (id dir : string) : Event :=
  MkEvent id Second EventInterfaceDelta dir 60 1 "enp0s6" None None None None None.

Definition sample_batch (es : list Event) : Batch :=
  MkBatch 1 "pending-batch" "node-a" Second es ["older-batch"].

Example sample_batch_valid : Validate (sample_batch [sample_event "event-a" "inbound"]) = Ok tt.
Proof. reflexivity. Qed.

Lemma validate_first_error_witness :
  exists e, b_Events (sample_batch [sample_event "event-a" "inbound"; sample_event "event-b" "up"]) !! 1%nat
      = Some e /\ event_validate e = Err (Msg "direction is invalid") /\ ~ event_ok e.
Proof.
  destruct (validate_first_error
    (sample_batch [sample_event "event-a" "inbound"; sample_event "event-b" "up"]) 1
    (Msg "direction is invalid")) as (e & ? & ? & ? & _); [reflexivity|].
  by exists e.
Defined.
