(* ===== verification/InterfaceCounter.v ===== *)
(** * Interface counters

    [internal/agent/interfacecounter]: parsing of [/proc/net/dev], the deltas
    between two readings as interface events, and the checkpoint that remembers
    the last reading with the batch not yet queued. *)

From stdpp Require Import base list strings numbers gmap sorting.
From Stdlib Require Import Ascii.
From S2P Require Import Prelude GoBase GoText GoModel.

Open Scope string_scope.
Open Scope Z_scope.
Local Open Scope flow_scope.

(** ** [collector.go] *)

Record Counter : Type := MkCounter {
  RXBytes : Z; RXPackets : Z; TXBytes : Z; TXPackets : Z }.

#[export] Instance Counter_eq_dec : EqDecision Counter.
Proof. solve_decision. Defined.

Inductive parse_error : Type :=
| MissingSeparator (lineNumber : nat)
| ExpectedCounters (name : string)
| BadCounter (iface field : string)
| ReadError.

Definition parseCounter (iface field : string) (value : list ascii) : result parse_error Z :=
  match ParseUint value with
  | Some parsed => Ok parsed
  | None => Err (BadCounter iface field)
  end.

(** The body of the scan loop from the second statement on, for a line with a
    separator; [fields[i]] is in range once there are sixteen fields. *)
Definition parse_counters (name : string) (fields : list (list ascii)) : result parse_error Counter :=
  if String.eqb name "" || (length fields <? 16)%nat then Err (ExpectedCounters name)
  else
    let field i := nth i fields [] in
    let* rxBytes := parseCounter name "rx_bytes" (field 0%nat) in
    let* rxPackets := parseCounter name "rx_packets" (field 1%nat) in
    let* txBytes := parseCounter name "tx_bytes" (field 8%nat) in
    let* txPackets := parseCounter name "tx_packets" (field 9%nat) in
    Ok (MkCounter rxBytes rxPackets txBytes txPackets).

(** The scan loop: [lineNumber] lines were read before. *)
Fixpoint parse_lines (lineNumber : nat) (counters : gmap string Counter)
  (lines : list (list ascii)) : result parse_error (gmap string Counter) :=
  match lines with
  | [] => Ok counters
  | text :: lines' =>
      let lineNumber := S lineNumber in
      match Cut colon (TrimSpace text) with
      | None =>
          if (lineNumber <=? 2)%nat then parse_lines lineNumber counters lines'
          else Err (MissingSeparator lineNumber)
      | Some (name, values) =>
          let name := of_chars (TrimSpace name) in
          let* c := parse_counters name (Fields values) in
          parse_lines lineNumber (<[name := c]> counters) lines'
      end
  end.

(** [Parse] on a reader that delivers [content] and then ends, with an error when
    [read_failed]. *)
Definition Parse (content : list ascii) (read_failed : bool) : result parse_error (gmap string Counter) :=
  let '(lines, too_long) := scan_lines content in
  let* counters := parse_lines 0 ∅ lines in
  if too_long || read_failed then Err ReadError else Ok counters.

Definition UnixNano (t : time) : Z := wrap_s 64 t.

Definition interface_id (iface direction : string) (observedAt : time) : string :=
  "interface:" +:+ iface +:+ ":" +:+ direction +:+ ":" +:+ of_chars (format_int (UnixNano observedAt)).

Definition directionDelta (iface direction : string)
  (beforeBytes afterBytes beforePackets afterPackets : Z) (observedAt : time) : option Event :=
  if (afterBytes <? beforeBytes) || (afterPackets <? beforePackets) then None
  else
    let bytesDelta := wrap_u 64 (afterBytes - beforeBytes) in
    let packetsDelta := wrap_u 64 (afterPackets - beforePackets) in
    if ((bytesDelta =? 0) && (packetsDelta =? 0)) || (max_i64 <? bytesDelta) ||
       (max_i64 <? packetsDelta)
    then None
    else Some (MkEvent (interface_id iface direction observedAt) observedAt EventInterfaceDelta
                 direction (wrap_s 64 bytesDelta) (wrap_s 64 packetsDelta) iface
                 None None None None None).

Definition opt_list {A} (o : option A) : list A := match o with Some a => [a] | None => [] end.

(** The two appends of the loop body for one interface. *)
Definition interface_events (name : string) (before after : Counter) (observedAt : time) : list Event :=
  opt_list (directionDelta name DirectionInbound (RXBytes before) (RXBytes after)
              (RXPackets before) (RXPackets after) observedAt) ++
  opt_list (directionDelta name DirectionOutbound (TXBytes before) (TXBytes after)
              (TXPackets before) (TXPackets after) observedAt).

Definition zero_counter : Counter := MkCounter 0 0 0 0.

(** [m[name]] with the zero value for a missing key. *)
Definition counter_at (m : gmap string Counter) (name : string) : Counter :=
  default zero_counter (m !! name).

Definition delta_names (previous current : gmap string Counter) (allowed : string -> bool) : list string :=
  sort_strings
    (filter (fun name => is_Some (previous !! name) /\ allowed name = true) (map_to_list current).*1).

Definition Delta (previous current : gmap string Counter) (allowed : string -> bool)
  (observedAt : time) : list Event :=
  delta_names previous current allowed ≫= fun name =>
    interface_events name (counter_at previous name) (counter_at current name) observedAt.

Definition DefaultAllowed (name : string) : bool :=
  negb (String.eqb name "lo") && negb (String.eqb name "docker0") &&
  negb (has_prefix name "br-") && negb (has_prefix name "veth").

(** ** [state.go]: the checkpoint

    A Go map field may be nil, hence the option. *)

Definition checkpointVersion : Z := 1.

Record Checkpoint : Type := MkCheckpoint {
  cp_SchemaVersion : Z; cp_NodeID : string; cp_Counters : option (gmap string Counter);
  cp_PendingBatch : option Batch }.

Definition NewCheckpoint (nodeID : string) (counters : option (gmap string Counter))
  (pending : option Batch) : Checkpoint :=
  MkCheckpoint checkpointVersion nodeID counters pending.

Inductive checkpoint_error : Type :=
| InvalidCheckpoint
| InvalidPending (e : validation_error)
| PendingOtherNode.

Definition validateCheckpoint (c : Checkpoint) : result checkpoint_error unit :=
  if negb (cp_SchemaVersion c =? checkpointVersion) || String.eqb (cp_NodeID c) "" ||
     (match cp_Counters c with None => true | Some _ => false end)
  then Err InvalidCheckpoint
  else match cp_PendingBatch c with
       | None => Ok tt
       | Some b =>
           match Validate b with
           | Err e => Err (InvalidPending e)
           | Ok _ => if String.eqb (b_NodeID b) (cp_NodeID c) then Ok tt else Err PendingOtherNode
           end
       end.

(** The readings of the repository's own test. *)
Definition text (s : string) : list ascii := chars s.

Definition procNetDev (rows : list (list ascii)) : list ascii :=
  unlines (text "Inter-| Receive | Transmit" ::
           text " face |bytes packets errs drop fifo frame compressed multicast|bytes packets errs drop fifo colls carrier compressed" ::
           rows).

Example parse_sample :
  Parse (procNetDev [text "enp0s6: 1000 10 0 0 0 0 0 0 2000 20 0 0 0 0 0 0";
                     text "lo: 100 1 0 0 0 0 0 0 100 1 0 0 0 0 0 0"]) false =
  Ok (<["lo" := MkCounter 100 1 100 1]> (<["enp0s6" := MkCounter 1000 10 2000 20]> ∅)).
Proof. vm_compute. reflexivity. Qed.

Example parse_malformed :
  Parse (procNetDev [text "enp0s6: 100 invalid"]) false = Err (ExpectedCounters "enp0s6").
Proof. reflexivity. Qed.

Example delta_reset :
  Delta (<["enp0s6" := MkCounter 100 10 200 20]> ∅) (<["enp0s6" := MkCounter 10 1 250 25]> ∅)
    DefaultAllowed Second =
  [MkEvent "interface:enp0s6:outbound:1000000000" Second EventInterfaceDelta DirectionOutbound 50 5
     "enp0s6" None None None None None].
Proof. vm_compute. reflexivity. Qed.

(** ** Specification *)

Definition counter_ok (c : Counter) : Prop :=
  in_u 64 (RXBytes c) /\ in_u 64 (RXPackets c) /\ in_u 64 (TXBytes c) /\ in_u 64 (TXPackets c).

Definition reading_ok (m : gmap string Counter) : Prop := map_Forall (fun _ c => counter_ok c) m.

(** The two counted directions of an interface. *)
Inductive counted : Type := Inbound | Outbound.

#[export] Instance counted_eq_dec : EqDecision counted.
Proof. solve_decision. Defined.

Definition dir_name (d : counted) : string :=
  match d with Inbound => DirectionInbound | Outbound => DirectionOutbound end.
Definition bytes_of (d : counted) (c : Counter) : Z :=
  match d with Inbound => RXBytes c | Outbound => TXBytes c end.
Definition packets_of (d : counted) (c : Counter) : Z :=
  match d with Inbound => RXPackets c | Outbound => TXPackets c end.

(** The counters of a direction grew by an amount an event can carry. *)
Definition grew (d : counted) (before after : Counter) : Prop :=
  0 <= bytes_of d after - bytes_of d before <= max_i64 /\
  0 <= packets_of d after - packets_of d before <= max_i64 /\
  ~ (bytes_of d after = bytes_of d before /\ packets_of d after = packets_of d before).

Definition growth_event (name : string) (d : counted) (before after : Counter) (at_ : time) : Event :=
  MkEvent (interface_id name (dir_name d) at_) at_ EventInterfaceDelta (dir_name d)
    (bytes_of d after - bytes_of d before) (packets_of d after - packets_of d before) name
    None None None None None.

(** The bytes a list of events accounts to a direction of an interface. *)
Definition event_bytes (name : string) (d : counted) (e : Event) : Z :=
  if String.eqb (ev_Interface e) name && String.eqb (ev_Direction e) (dir_name d)
  then ev_Bytes e else 0.

(** ** Lemmas *)

Definition side (d : counted) (name : string) (b a : Counter) (at_ : time) : option Event :=
  directionDelta name (dir_name d) (bytes_of d b) (bytes_of d a) (packets_of d b) (packets_of d a) at_.

Lemma interface_events_sides name b a at_ :
  interface_events name b a at_ =
    (opt_list (side Inbound name b a at_) ++ opt_list (side Outbound name b a at_))%list.
Proof. reflexivity. Qed.

Lemma counter_ok_side d c : counter_ok c -> in_u 64 (bytes_of d c) /\ in_u 64 (packets_of d c).
Proof. unfold counter_ok. destruct d; naive_solver. Qed.

Lemma side_grew d name b a at_ : counter_ok b -> counter_ok a -> grew d b a ->
  side d name b a at_ = Some (growth_event name d b a at_).
Proof.
  intros Hb%(counter_ok_side d) Ha%(counter_ok_side d) (H1 & H2 & H3).
  unfold side, directionDelta, in_u, max_i64 in *.
  rewrite (proj2 (Z.ltb_ge _ _)), (proj2 (Z.ltb_ge (packets_of d a) _)) by lia. simpl.
  rewrite !(wrap_u_id 64) by (unfold in_u; lia).
  rewrite !(proj2 (Z.ltb_ge (2 ^ 63 - 1) _)), !orb_false_r by lia.
  rewrite !wrap_s_id by (unfold in_s; lia).
  destruct (Z.eqb_spec (bytes_of d a - bytes_of d b) 0), (Z.eqb_spec (packets_of d a - packets_of d b) 0);
    simpl; try done. exfalso. apply H3. lia.
Qed.

Lemma side_not_grew d name b a at_ : counter_ok b -> counter_ok a -> ~ grew d b a ->
  side d name b a at_ = None.
Proof.
  intros Hb%(counter_ok_side d) Ha%(counter_ok_side d) Hn. unfold grew in Hn.
  unfold side, directionDelta, in_u, max_i64 in *. bool_cases; try done. exfalso.
  reflect_bools. rewrite !(wrap_u_id 64) in * by (unfold in_u; lia). apply Hn. lia.
Qed.

#[export] Instance grew_dec d b a : Decision (grew d b a).
Proof. unfold grew. apply _. Defined.

Lemma side_eq d name b a at_ : counter_ok b -> counter_ok a ->
  side d name b a at_ = if decide (grew d b a) then Some (growth_event name d b a at_) else None.
Proof. intros. case_decide; [by apply side_grew|by apply side_not_grew]. Qed.

Lemma elem_of_delta_names previous current allowed name :
  name ∈ delta_names previous current allowed <->
  is_Some (previous !! name) /\ is_Some (current !! name) /\ allowed name = true.
Proof.
  unfold delta_names. rewrite sort_strings_perm, list_elem_of_filter, list_elem_of_fmap.
  split.
  - intros ([? ?] & [n c] & -> & Hc%elem_of_map_to_list). simpl in *. naive_solver.
  - intros (? & [c ?] & ?). split; [done|]. exists (name, c). by rewrite elem_of_map_to_list.
Qed.

Lemma delta_names_nodup previous current allowed : NoDup (delta_names previous current allowed).
Proof. unfold delta_names. rewrite sort_strings_perm. apply NoDup_filter, NoDup_fst_map_to_list. Qed.

Lemma elem_of_interface_events e name b a at_ : counter_ok b -> counter_ok a ->
  e ∈ interface_events name b a at_ <-> exists d, grew d b a /\ e = growth_event name d b a at_.
Proof.
  intros Hb Ha. rewrite interface_events_sides, !side_eq, elem_of_app by done.
  split.
  - intros [H|H]; repeat case_decide; simpl in H; set_solver.
  - intros ([] & Hg & ->); [left|right]; rewrite decide_True by done; by constructor.
Qed.

Lemma counter_at_ok m name : reading_ok m -> counter_ok (counter_at m name).
Proof.
  intros Hm. unfold counter_at. destruct (m !! name) as [c|] eqn:E; [by apply (Hm name)|].
  unfold counter_ok, in_u. simpl. lia.
Qed.

Lemma elem_of_Delta e previous current allowed at_ : reading_ok previous -> reading_ok current ->
  e ∈ Delta previous current allowed at_ <->
  exists name d b a, previous !! name = Some b /\ current !! name = Some a /\ allowed name = true /\
    grew d b a /\ e = growth_event name d b a at_.
Proof.
  intros Hp Hc. unfold Delta. rewrite list_elem_of_bind. split.
  - intros (name & He & Hn). apply elem_of_delta_names in Hn as ([b Eb] & [a Ea] & Hal).
    unfold counter_at in He. rewrite Eb, Ea in He. simpl in He.
    apply elem_of_interface_events in He as (d & ? & ->); [|by apply (Hp name)|by apply (Hc name)].
    by exists name, d, b, a.
  - intros (name & d & b & a & Eb & Ea & Hal & Hg & ->). exists name. split.
    + unfold counter_at. rewrite Eb, Ea. apply elem_of_interface_events; [by apply (Hp name)|by apply (Hc name)|].
      by exists d.
    + apply elem_of_delta_names. eauto.
Qed.

(** Listing by name, then direction: the keys of the events are distinct and
    the names ascend. *)
Lemma interface_events_keys name b a at_ : counter_ok b -> counter_ok a ->
  exists ds, NoDup ds /\ interface_events name b a at_ = (fun d => growth_event name d b a at_) <$> ds.
Proof.
  intros Hb Ha. rewrite interface_events_sides, !side_eq by done.
  exists ((if decide (grew Inbound b a) then [Inbound] else []) ++
     (if decide (grew Outbound b a) then [Outbound] else []))%list.
  repeat case_decide; simpl; split; try done; repeat constructor; set_solver.
Qed.

Lemma dir_name_inj d d' : dir_name d = dir_name d' -> d = d'.
Proof. by destruct d, d'. Qed.

Section keyed.
Context {A B K : Type} (g : A -> list B) (key : B -> A * K).

(** Concatenating blocks whose elements carry their block's key. *)
Lemma bind_keys_nodup l :
NoDup l -> (forall a, a ∈ l -> NoDup (key <$> g a)) -> (forall a b, b ∈ g a -> (key b).1 = a) ->
NoDup (key <$> (l ≫= g)).
Proof.
intros Hl Hg Hk. induction Hl as [|a l Ha Hl IH]; [constructor|].
rewrite bind_cons, fmap_app. apply NoDup_app. split_and!.
- apply Hg. by constructor.
- intros k (b & -> & Hb)%list_elem_of_fmap (b' & E & Hb')%list_elem_of_fmap.
  apply list_elem_of_bind in Hb' as (a' & Hb' & Ha'). apply Hk in Hb, Hb'. congruence.
- apply IH. intros a' Ha'. apply Hg. by constructor.
Qed.
End keyed.

Lemma NoDup_fmap_key {A K1 K2} (f : A -> K1) (g : A -> K2) l :
  NoDup (f <$> l) -> (forall x y, x ∈ l -> y ∈ l -> g x = g y -> f x = f y) -> NoDup (g <$> l).
Proof.
  induction l as [|x l IH]; rewrite ?fmap_nil, ?fmap_cons; intros Hn Hi; [constructor|].
  apply NoDup_cons in Hn as [Hx Hn]. apply NoDup_cons. split.
  - intros (y & E & Hy)%list_elem_of_fmap. apply Hx, list_elem_of_fmap. exists y.
    split; [|done]. apply Hi; [by constructor|by constructor|done].
  - apply IH; [done|]. intros y z Hy Hz. apply Hi; by constructor.
Qed.

Lemma Delta_keys previous current allowed at_ : reading_ok previous -> reading_ok current ->
  NoDup ((fun e => (ev_Interface e, ev_Direction e)) <$> Delta previous current allowed at_).
Proof.
  intros Hp Hc. unfold Delta. apply bind_keys_nodup; [apply delta_names_nodup| |].
  - intros name _. destruct (interface_events_keys name (counter_at previous name) (counter_at current name) at_)
      as (ds & Hds & ->); [by apply counter_at_ok..|].
    rewrite <- list_fmap_compose. apply NoDup_fmap_2_strong; [|done].
    intros d d' _ _ E. apply dir_name_inj. simpl in E. congruence.
  - intros name e He. apply elem_of_interface_events in He as (d & _ & ->); by try apply counter_at_ok.
Qed.

Lemma Delta_sorted previous current allowed at_ : reading_ok previous -> reading_ok current ->
  StronglySorted str_le (ev_Interface <$> Delta previous current allowed at_).
Proof.
  intros Hp Hc. unfold Delta.
  pose proof (sort_strings_sorted (filter (fun name => is_Some (previous !! name) /\ allowed name = true) (map_to_list current).*1)) as Hs.
  fold (delta_names previous current allowed) in Hs.
  induction Hs as [|name l Hs IH Hall]; [constructor|]. rewrite bind_cons, fmap_app.
  destruct (interface_events_keys name (counter_at previous name) (counter_at current name) at_)
      as (ds & _ & ->); [by apply counter_at_ok..|].
  assert (Forall (str_le name) (ev_Interface <$> (l ≫= fun name =>
      interface_events name (counter_at previous name) (counter_at current name) at_))) as Hle.
  { apply Forall_forall. intros n Hin. apply list_elem_of_fmap in Hin as (e & -> & He).
    apply list_elem_of_bind in He as (n' & He & Hn).
    apply elem_of_interface_events in He as (d & _ & ->); [|by apply counter_at_ok..].
    rewrite Forall_forall in Hall. by apply Hall. }
  induction ds as [|d ds IHd]; [done|]. rewrite fmap_cons. simpl. constructor; [done|].
  apply Forall_app. split; [|done]. rewrite <- list_fmap_compose. apply Forall_fmap.
  apply Forall_forall. intros d' _. simpl. unfold str_le.
  by destruct (String.leb_total name name).
Qed.

(** ** Properties *)

(** [Delta] reports exactly the growth between two readings: an event for
    every allowed interface present in both and every direction whose counters
    did not go back, changed, and grew by at most [MaxInt64], carrying the exact
    differences; one event per interface and direction, interfaces in ascending
    order. *)
Theorem delta_exact previous current allowed at_ : reading_ok previous -> reading_ok current ->
  (forall e, e ∈ Delta previous current allowed at_ <->
     exists name d b a, previous !! name = Some b /\ current !! name = Some a /\ allowed name = true /\
       grew d b a /\ e = growth_event name d b a at_) /\
  NoDup ((fun e => (ev_Interface e, ev_Direction e)) <$> Delta previous current allowed at_) /\
  StronglySorted str_le (ev_Interface <$> Delta previous current allowed at_).
Proof.
  intros Hp Hc. split_and!; [|by apply Delta_keys|by apply Delta_sorted].
  intros e. by apply elem_of_Delta.
Qed.

Lemma interface_id_inj name d name' d' at_ : colon ∉ chars name -> colon ∉ chars name' ->
  interface_id name (dir_name d) at_ = interface_id name' (dir_name d') at_ -> name = name' /\ d = d'.
Proof.
  intros Hn Hn' E. apply (f_equal chars) in E. unfold interface_id in E.
  rewrite !chars_app in E. apply app_inv_head in E.
  change (chars ":") with [colon] in E. simpl in E.
  apply (f_equal (Cut colon)) in E. rewrite !Cut_app in E by done.
  injection E as E1 E2. split; [by apply chars_inj|]. by destruct d, d'.
Qed.

(** When interface names are what the kernel allows (not empty, no colon; its
    15 bytes are well below 87), every event [Delta] produces passes the batch
    validation and their identifiers are pairwise distinct. *)
Theorem delta_events_valid previous current allowed at_ :
  reading_ok previous -> reading_ok current -> at_ <> zero_time ->
  map_Forall (fun name _ => 1 <= len name <= 87 /\ colon ∉ chars name) current ->
  Forall event_ok (Delta previous current allowed at_) /\
  NoDup (ev_ID <$> Delta previous current allowed at_).
Proof.
  intros Hp Hc Hat Hnames. split.
  - apply Forall_forall. intros e He. apply elem_of_Delta in He; [|done..].
    destruct He as (name & d & b & a & Eb & Ea & _ & (Hg1 & Hg2 & _) & ->).
    destruct (Hnames name a Ea) as [Hl _]. constructor; simpl; try lia; try done.
    + unfold id_ok, interface_id. rewrite !len_app.
      pose proof (len_format_int (UnixNano at_)). pose proof (len_nonneg (of_chars (format_int (UnixNano at_)))).
      assert (7 <= len (dir_name d) <= 8) by (destruct d; vm_compute; split; done).
      change (len "interface:") with 10. change (len ":") with 1. lia.
    + exists NoPayload. split; [done|]. apply AdmitInterface; simpl; [done|apply len_pos; lia|].
      destruct d; simpl; set_solver.
  - eapply NoDup_fmap_key; [by apply Delta_keys|]. intros x y Hx Hy.
    apply elem_of_Delta in Hx as (n & d & b & a & _ & Ea & _ & _ & ->); [|done..].
    apply elem_of_Delta in Hy as (n' & d' & b' & a' & _ & Ea' & _ & _ & ->); [|done..].
    simpl. intros [-> ->]%interface_id_inj; [done|by apply (Hnames n a)|by apply (Hnames n' a')].
Qed.

(** ** A sequence of readings *)

Fixpoint poll_events (allowed : string -> bool) (previous : gmap string Counter)
  (readings : list (time * gmap string Counter)) : list Event :=
  match readings with
  | [] => []
  | (at_, current) :: rest => Delta previous current allowed at_ ++ poll_events allowed current rest
  end.

(** What a direction of an interface gains from one reading to the next. *)
Definition gain (name : string) (d : counted) (previous current : gmap string Counter) : Z :=
  match previous !! name, current !! name with
  | Some b, Some a => if decide (grew d b a) then bytes_of d a - bytes_of d b else 0
  | _, _ => 0
  end.

Lemma event_bytes_growth name d name' d' b a at_ :
  event_bytes name d (growth_event name' d' b a at_) =
  if decide (name' = name /\ d' = d) then bytes_of d a - bytes_of d b else 0.
Proof.
  unfold event_bytes. simpl. destruct (String.eqb_spec name' name) as [->|]; simpl.
  - destruct d, d'; case_decide; simpl; try done; naive_solver.
  - rewrite decide_False; [done|naive_solver].
Qed.

Lemma sum_interface_events name d name' b a at_ : counter_ok b -> counter_ok a ->
  sumZ (event_bytes name d) (interface_events name' b a at_) =
  if decide (name' = name /\ grew d b a) then bytes_of d a - bytes_of d b else 0.
Proof.
  intros Hb Ha. rewrite interface_events_sides, !side_eq, sumZ_app by done.
  destruct d; repeat case_decide; cbn [opt_list sumZ foldr]; rewrite ?event_bytes_growth;
    repeat case_decide; try naive_solver; simpl; lia.
Qed.

Lemma sum_Delta name d previous current allowed at_ :
  reading_ok previous -> reading_ok current -> allowed name = true ->
  sumZ (event_bytes name d) (Delta previous current allowed at_) = gain name d previous current.
Proof.
  intros Hp Hc Hal. unfold Delta. rewrite sumZ_bind.
  destruct (decide (name ∈ delta_names previous current allowed)) as [Hin|Hin].
  - rewrite (sumZ_single _ _ name); [|apply delta_names_nodup|done|].
    + rewrite sum_interface_events by (by apply counter_at_ok).
      apply elem_of_delta_names in Hin as ([b Eb] & [a Ea] & _). unfold gain, counter_at.
      rewrite Eb, Ea. simpl. repeat case_decide; naive_solver.
    + intros n _ Hne. rewrite sum_interface_events by (by apply counter_at_ok).
      rewrite decide_False; [done|naive_solver].
  - rewrite sumZ_zero.
    + unfold gain. destruct (previous !! name) eqn:Eb, (current !! name) eqn:Ea; try done.
      destruct Hin. apply elem_of_delta_names. rewrite Eb, Ea. eauto.
    + intros n Hn. rewrite sum_interface_events by (by apply counter_at_ok).
      rewrite decide_False; [done|]. by intros [-> _].
Qed.

(** The counters of the interface never go back along the readings and never jump
    by more than an event can carry. *)
Fixpoint steady (name : string) (d : counted) (before : Counter)
  (readings : list (time * gmap string Counter)) : Prop :=
  match readings with
  | [] => True
  | (_, current) :: rest =>
      exists after, current !! name = Some after /\
        0 <= bytes_of d after - bytes_of d before <= max_i64 /\
        0 <= packets_of d after - packets_of d before <= max_i64 /\
        steady name d after rest
  end.

Definition last_reading (first : gmap string Counter) (readings : list (time * gmap string Counter)) :=
  default first (snd <$> last readings).

(** Nothing is lost or counted twice over a run: while the counters of an
    allowed interface advance, the bytes of the events of all polls add up to the
    last reading minus the first. *)
Theorem delta_telescopes allowed name d first readings before :
  reading_ok first -> Forall (fun r => reading_ok r.2) readings ->
  allowed name = true -> first !! name = Some before -> steady name d before readings ->
  exists after, last_reading first readings !! name = Some after /\
    sumZ (event_bytes name d) (poll_events allowed first readings) =
    bytes_of d after - bytes_of d before.
Proof.
  intros Hf Hr Hal. revert first before Hf. induction Hr as [|[at_ cur] rest Hc Hr IH];
    intros first before Hf Eb Hs.
  { exists before. split; [done|]. simpl. lia. }
  destruct Hs as (mid & Em & Hb & Hp & Hs). simpl in Hc.
  destruct (IH cur mid Hc Em Hs) as (after & El & Hsum). exists after. split.
  - unfold last_reading in *. rewrite last_cons. by destruct (last rest).
  - simpl. rewrite sumZ_app, Hsum, sum_Delta by done. unfold gain. rewrite Eb, Em.
    case_decide as Hg; [lia|]. unfold grew in Hg. lia.
Qed.

(** ** Round trip of the text format *)

(** A line of [/proc/net/dev]: the name and its sixteen counters. *)
Record row : Type := MkRow { row_name : string; row_values : list Z }.

Definition row_text (r : row) : list ascii :=
  chars (row_name r) ++ colon :: space :: join_space (format_uint <$> row_values r).

Definition row_ok (r : row) : Prop :=
  is_word (chars (row_name r)) /\ (colon ∉ chars (row_name r)) /\ len (row_name r) <= 1024 /\
  length (row_values r) = 16%nat /\ Forall (in_u 64) (row_values r).

Definition row_counter (r : row) : Counter :=
  let v i := nth i (row_values r) 0 in MkCounter (v 0%nat) (v 1%nat) (v 8%nat) (v 9%nat).

(** Later lines of the same interface win. *)
Definition row_map (rows : list row) (m : gmap string Counter) : gmap string Counter :=
  foldl (fun m r => <[row_name r := row_counter r]> m) m rows.

Section render.
Context (r : row) (Hr : row_ok r).

Lemma row_words : Forall is_word (format_uint <$> row_values r).
Proof.
destruct Hr as (_ & _ & _ & _ & Hv). apply Forall_fmap. eapply Forall_impl; [exact Hv|].
intros z Hz. apply format_uint_word. unfold in_u in Hz. lia.
Qed.

Lemma row_values_nonempty : format_uint <$> row_values r <> [].
Proof. destruct Hr as (_ & _ & _ & Hl & _). by destruct (row_values r). Qed.

Lemma row_text_last : exists d, last (row_text r) = Some d /\ plain d.
Proof.
destruct (join_space_last _ row_values_nonempty row_words) as (d & E & Hd).
exists d. split; [|done]. unfold row_text. by rewrite last_app, !last_cons, E.
Qed.

Lemma row_text_trim : TrimSpace (row_text r) = row_text r.
Proof.
destruct row_text_last as (d & E & Hd). destruct Hr as ([Hn Hp] & _).
destruct (row_text r) as [|c cs] eqn:Er; [done|]. apply (TrimSpace_plain _ _ d); [|done|done].
unfold row_text in Er. destruct (chars (row_name r)) as [|c' ?]; [done|].
injection Er as <- _. by apply Forall_cons_iff in Hp as [? _].
Qed.

Lemma row_text_line : (newline ∉ row_text r) /\ drop_cr (row_text r) = row_text r /\
Z.of_nat (length (row_text r)) < max_scan_token.
Proof.
destruct row_text_last as (d & E & Hd). destruct Hr as ([_ Hp] & _ & Hlen & Hl & Hv).
split_and!; [|by apply (drop_cr_plain _ d)|].
- unfold row_text. rewrite elem_of_app, !elem_of_cons. intros [Hin|[Hin|[Hin|Hin]]]; try done.
  + by apply (plain_not_in _ _ Hp not_plain_newline).
  + revert Hin. apply not_in_join_space; [done|]. eapply Forall_impl; [apply row_words|].
    intros w [_ Hw]. by apply (plain_not_in _ _ Hw), not_plain_newline.
- unfold row_text. rewrite length_app, !length_cons.
  pose proof (join_space_length 20 (format_uint <$> row_values r)) as Hj.
  rewrite length_fmap, Hl in Hj. unfold len in Hlen. unfold max_scan_token.
  assert (length (join_space (format_uint <$> row_values r)) <= 16 * (20 + 1))%nat; [|lia].
  apply Hj, Forall_fmap, Forall_forall. intros z _. simpl. unfold format_uint.
  rewrite length_reverse. apply digits_rev_length.
Qed.

Lemma row_parse_counters :
parse_counters (row_name r) (Fields (space :: join_space (format_uint <$> row_values r))) =
Ok (row_counter r).
Proof.
rewrite Fields_space, Fields_join by apply row_words.
destruct Hr as ([Hn _] & _ & _ & Hl & Hv). unfold parse_counters.
rewrite length_fmap, Hl, orb_false_r. destruct (String.eqb_spec (row_name r) "") as [E|_].
{ by rewrite E in Hn. }
unfold parseCounter, row_counter.
destruct (row_values r) as [|v0 vs]; [done|]. do 15 (destruct vs as [|? vs]; [done|]).
repeat match goal with H : Forall _ (_ :: _) |- _ => apply Forall_cons_iff in H as [? H] end.
unfold in_u in *. cbn [nth fmap list_fmap map].
rewrite !ParseUint_format by (unfold max_u64; lia). done.
Qed.
End render.

Lemma of_chars_trim_name r : row_ok r -> of_chars (TrimSpace (chars (row_name r))) = row_name r.
Proof.
  intros (Hw & _). destruct (is_word_last _ Hw) as (d & E & Hd). destruct Hw as [Hn Hp].
  destruct (chars (row_name r)) as [|c cs] eqn:Ec; [done|].
  apply Forall_cons_iff in Hp as [Hc _]. rewrite (TrimSpace_plain c cs d) by done.
  by rewrite <- Ec, of_chars_chars.
Qed.

Lemma parse_rows n m rows : Forall row_ok rows ->
  parse_lines n m (row_text <$> rows) = Ok (row_map rows m).
Proof.
  intros Hr. revert n m; induction Hr as [|r rows Hr _ IH]; intros n m; [done|].
  rewrite fmap_cons. cbn [parse_lines]. rewrite row_text_trim by done.
  unfold row_text at 1. rewrite Cut_app by apply Hr. rewrite of_chars_trim_name by done.
  rewrite row_parse_counters by done. simpl. by rewrite IH.
Qed.

(** Parsing [/proc/net/dev]-formatted text gives back, for any list of
    interfaces with sixteen 64-bit counters each, exactly the four counters
    recorded, with the last line of an interface winning. *)
Theorem parse_roundtrip rows : Forall row_ok rows ->
  Parse (procNetDev (row_text <$> rows)) false = Ok (row_map rows ∅).
Proof.
  intros Hr. unfold Parse, procNetDev. rewrite scan_lines_unlines.
  - cbn [parse_lines result_bind]. change (Cut colon (TrimSpace (text "Inter-| Receive | Transmit"))) with (@None (list ascii * list ascii)).
    cbv beta iota. replace (Cut colon (TrimSpace (text " face |bytes packets errs drop fifo frame compressed multicast|bytes packets errs drop fifo colls carrier compressed"))) with (@None (list ascii * list ascii)) by (vm_compute; reflexivity).
    simpl. by rewrite parse_rows.
  - apply Forall_cons_2; [|apply Forall_cons_2].
    1,2: split_and!; [apply (bool_decide_unpack _); vm_compute; exact I|vm_compute; reflexivity..].
    apply Forall_fmap. eapply Forall_impl; [exact Hr|]. intros r. apply row_text_line.
Qed.

(** ** Witnesses *)

Module Sample.
Definition before : gmap string Counter := {[ "enp0s6" := MkCounter 1000 10 2000 20 ]}.
Definition after : gmap string Counter := {[ "enp0s6" := MkCounter 1600 16 2500 25 ]}.

Lemma reading_singleton n c : counter_ok c -> reading_ok {[ n := c ]}.
Proof. intros Hc i x. rewrite lookup_singleton_Some. naive_solver. Qed.

Lemma before_ok : reading_ok before.
Proof. apply reading_singleton. unfold counter_ok, in_u. simpl. lia. Qed.

Lemma after_ok : reading_ok after.
Proof. apply reading_singleton. unfold counter_ok, in_u. simpl. lia. Qed.

Definition rows : list row := [MkRow "enp0s6" [1000; 10; 0; 0; 0; 0; 0; 0; 2000; 20; 0; 0; 0; 0; 0; 0]].

Lemma rows_ok : Forall row_ok rows.
Proof.
constructor; [|constructor]. unfold row_ok, is_word, len. simpl.
split_and!; try done; try lia.
- repeat constructor; by vm_compute.
- apply (bool_decide_unpack _). vm_compute. exact I.
- repeat constructor; unfold in_u; lia.
Qed.
End Sample.

Lemma delta_exact_witness :
  growth_event "enp0s6" Inbound (MkCounter 1000 10 2000 20) (MkCounter 1600 16 2500 25) Second
    ∈ Delta Sample.before Sample.after DefaultAllowed Second.
Proof.
  apply (proj1 (delta_exact Sample.before Sample.after DefaultAllowed Second
           Sample.before_ok Sample.after_ok)).
  exists "enp0s6", Inbound, (MkCounter 1000 10 2000 20), (MkCounter 1600 16 2500 25).
  split_and!; try reflexivity; unfold grew, max_i64; simpl; lia.
Defined.

Lemma delta_events_valid_witness :
  Forall event_ok (Delta Sample.before Sample.after DefaultAllowed Second) /\
  NoDup (ev_ID <$> Delta Sample.before Sample.after DefaultAllowed Second).
Proof.
  apply (delta_events_valid Sample.before Sample.after DefaultAllowed Second
           Sample.before_ok Sample.after_ok).
  - by vm_compute.
  - intros n c Hc. unfold Sample.after in Hc. apply lookup_singleton_Some in Hc as [<- _]. split; [by vm_compute|].
    apply (bool_decide_unpack _). vm_compute. exact I.
Defined.

Lemma delta_telescopes_witness :
  exists c, last_reading Sample.before [(Second, Sample.after)] !! "enp0s6" = Some c /\
    sumZ (event_bytes "enp0s6" Inbound) (poll_events DefaultAllowed Sample.before [(Second, Sample.after)]) =
    bytes_of Inbound c - 1000.
Proof.
  apply (delta_telescopes DefaultAllowed "enp0s6" Inbound Sample.before [(Second, Sample.after)]
           (MkCounter 1000 10 2000 20) Sample.before_ok).
  - constructor; [apply Sample.after_ok|constructor].
  - reflexivity.
  - reflexivity.
  - exists (MkCounter 1600 16 2500 25). unfold max_i64. split_and!; try reflexivity; simpl; lia.
Defined.

Lemma parse_roundtrip_witness :
  Parse (procNetDev (row_text <$> Sample.rows)) false = Ok (row_map Sample.rows ∅).
Proof. apply (parse_roundtrip Sample.rows Sample.rows_ok). Defined.
