(* ===== verification/NetipString.v ===== *)
(** * [netip.Addr.String] and its round trip through [netip.ParseAddr]

    The agent prints the addresses of a connection with [String]; validation on
    both sides parses them again.  The two are models of the same package, and
    parsing what was printed gives the address back. *)

From stdpp Require Import base list strings numbers.
From Stdlib Require Import Ascii.
From S2P Require Import Prelude GoBase GoText FlowDecode.

Open Scope Z_scope.

Definition dot : ascii := "."%char.

(** ** Formatting *)

Definition format_v4 (b : list Z) : list ascii :=
  match b with
  | [b0; b1; b2; b3] =>
      format_uint b0 ++ dot :: format_uint b1 ++ dot :: format_uint b2 ++ dot :: format_uint b3
  | _ => []
  end.

Definition hex_digit (d : Z) : ascii := if d <? 10 then char_of (48 + d) else char_of (87 + d).

(** [appendHex]: no leading zeros. *)
Definition format_hex (x : Z) : list ascii :=
  (if 4096 <=? x then [hex_digit (x / 4096)] else []) ++
  (if 256 <=? x then [hex_digit (x / 256 mod 16)] else []) ++
  (if 16 <=? x then [hex_digit (x / 16 mod 16)] else []) ++
  [hex_digit (x mod 16)].

(** The eight 16-bit groups of an address. *)
Fixpoint groups (b : list Z) : list Z :=
  match b with
  | hi :: lo :: b' => 256 * hi + lo :: groups b'
  | _ => []
  end.

Fixpoint zero_run (gs : list Z) : nat :=
  match gs with
  | g :: gs' => if g =? 0 then S (zero_run gs') else O
  | [] => O
  end.

(** The longest run of at least two zero groups, the first of equal ones: its
    start and length, scanning from group [i]. *)
Fixpoint longest_zeros (i : nat) (gs : list Z) (best : nat * nat) : nat * nat :=
  match gs with
  | [] => best
  | _ :: gs' =>
      let l := zero_run gs in
      longest_zeros (S i) gs' (if ((2 <=? l) && (snd best <? l))%nat then (i, l) else best)
  end.

Fixpoint join_colon (gs : list Z) : list ascii :=
  match gs with
  | [] => []
  | [g] => format_hex g
  | g :: gs' => format_hex g ++ colon :: join_colon gs'
  end.

(** [appendTo6]: the groups before the run, [::], the groups after it. *)
Definition format_v6 (b : list Z) : list ascii :=
  let gs := groups b in
  let '(start, n) := longest_zeros 0 gs (0, 0)%nat in
  if (n =? 0)%nat then join_colon gs
  else join_colon (take start gs) ++ colon :: colon :: join_colon (drop (start + n) gs).

Definition is_4in6 (b : list Z) : bool :=
  bool_decide (take 12 b = replicate 10 0 ++ [255; 255]).

Definition addr_chars (a : netip_addr) : list ascii :=
  match a with
  | AddrZero => chars "invalid IP"
  | Addr4 b => format_v4 b
  | Addr16 b =>
      if is_4in6 b then chars "::ffff:" ++ format_v4 (drop 12 b) else format_v6 b
  end.

Definition addr_string (a : netip_addr) : string := of_chars (addr_chars a).

Example string_v4 : addr_string (Addr4 [203; 0; 113; 10]) = "203.0.113.10"%string.
Proof. reflexivity. Qed.
Example string_v6 :
  addr_string (Addr16 [32; 1; 13; 184; 0; 0; 0; 0; 0; 1; 0; 0; 0; 0; 0; 2]) = "2001:db8::1:0:0:2"%string.
Proof. reflexivity. Qed.
Example string_v6_zero : addr_string (Addr16 (replicate 16 0)) = "::"%string.
Proof. reflexivity. Qed.
Example string_4in6 :
  addr_string (Addr16 (replicate 10 0 ++ [255; 255; 10; 0; 0; 1])) = "::ffff:10.0.0.1"%string.
Proof. reflexivity. Qed.

(** ** What is printed can be parsed *)

Definition addr_wf (a : netip_addr) : Prop :=
  match a with
  | AddrZero => False
  | Addr4 b => length b = 4%nat /\ Forall is_byte b
  | Addr16 b => length b = 16%nat /\ Forall is_byte b
  end.

Definition to_ip (a : netip_addr) : option ip_addr :=
  match a with
  | AddrZero => None
  | Addr4 b => Some (IPv4 b)
  | Addr16 b => Some (IPv6 b "")
  end.

(** *** IPv4 *)

(** The digits of a byte: one to three, without a leading zero. *)
Definition byte_shape (b : Z) : bool :=
  match format_uint b with
  | [x] => is_digit x && (code x - 48 =? b)
  | [x; y] => is_digit x && is_digit y && (0 <? code x - 48) && ((code x - 48) * 10 + (code y - 48) =? b)
  | [x; y; z] =>
      is_digit x && is_digit y && is_digit z && (0 <? code x - 48) && (0 <? (code x - 48) * 10 + (code y - 48)) &&
      (((code x - 48) * 10 + (code y - 48)) * 10 + (code z - 48) =? b)
  | _ => false
  end.

Lemma all_bytes (P : Z -> bool) : forallb P (seqZ 0 256) = true -> forall b, is_byte b -> P b = true.
Proof.
  intros H b Hb. rewrite forallb_forall in H. apply H, list_elem_of_In, elem_of_seqZ.
  unfold is_byte in Hb. lia.
Qed.

Lemma byte_shape_all b : is_byte b -> byte_shape b = true.
Proof. apply all_bytes. vm_compute. reflexivity. Qed.

Lemma is_digit_range c : is_digit c = true -> 48 <= code c <= 57.
Proof. unfold is_digit. intros. reflect_bools. lia. Qed.

(** Reading the digits of one octet. *)
Lemma ipv4_field b pd rest fields : is_byte b ->
  exists k, ipv4_fields (format_uint b ++ rest) pd 0 0 fields = ipv4_fields rest false b k fields.
Proof.
  intros Hb. pose proof (byte_shape_all b Hb) as Hs. unfold byte_shape in Hs. unfold is_byte in Hb.
  destruct (format_uint b) as [|x [|y [|z [|w l]]]]; try done; reflect_bools; cbn [app ipv4_fields];
    repeat match goal with H : is_digit _ = true |- _ => rewrite H; apply is_digit_range in H end;
    repeat (rewrite ?andb_false_r; simpl; match goal with
      | |- context [255 <? ?v] => rewrite (proj2 (Z.ltb_ge 255 v)) by lia
      | |- context [?v =? 0] => rewrite (proj2 (Z.eqb_neq v 0)) by lia
      end); simpl.
  - exists 1. f_equal. lia.
  - exists 2. f_equal. lia.
  - exists 3. f_equal. lia.
Qed.

Lemma ipv4_dot c val k rest f : (length f < 3)%nat ->
  ipv4_fields (dot :: c :: rest) false val k f = ipv4_fields (c :: rest) true 0 0 (f ++ [val]).
Proof.
  intros Hf. cbn [ipv4_fields]. change (is_digit dot) with false. change (code dot =? 46) with true.
  simpl. by rewrite (proj2 (Nat.eqb_neq _ _)) by lia.
Qed.

Lemma format_uint_cons b rest : 0 <= b -> exists c l, format_uint b ++ rest = c :: l.
Proof. intros [Hn _]%format_uint_word. destruct (format_uint b) as [|c l]; [done|]. by exists c, (l ++ rest). Qed.

Lemma ipv4_octet b rest f : is_byte b -> (length f < 3)%nat ->
  forall val k, ipv4_fields (dot :: format_uint b ++ rest) false val k f =
    ipv4_fields (format_uint b ++ rest) true 0 0 (f ++ [val]).
Proof.
  intros Hb Hf val k. destruct (format_uint_cons b rest) as (c & l & ->); [unfold is_byte in Hb; lia|].
  by apply ipv4_dot.
Qed.

Lemma parse_format_v4 b : length b = 4%nat -> Forall is_byte b -> parse_ipv4_fields (format_v4 b) = Some b.
Proof.
  intros Hl Hb. destruct b as [|b0 [|b1 [|b2 [|b3 [|]]]]]; try done.
  repeat match goal with H : Forall _ (_ :: _) |- _ => apply Forall_cons_iff in H as [? H] end.
  unfold parse_ipv4_fields, format_v4.
  destruct (ipv4_field b0 true (dot :: format_uint b1 ++ dot :: format_uint b2 ++ dot :: format_uint b3) [])
    as [k0 ->]; [done|]. rewrite ipv4_octet by (done || simpl; lia).
  destruct (ipv4_field b1 true (dot :: format_uint b2 ++ dot :: format_uint b3) ([] ++ [b0]))
    as [k1 ->]; [done|]. rewrite ipv4_octet by (done || simpl; lia).
  destruct (ipv4_field b2 true (dot :: format_uint b3) (([] ++ [b0]) ++ [b1])) as [k2 ->]; [done|].
  rewrite <- (app_nil_r (format_uint b3)). rewrite ipv4_octet by (done || simpl; lia).
  destruct (ipv4_field b3 true [] ((([] ++ [b0]) ++ [b1]) ++ [b2])) as [k3 ->]; done.
Qed.

Lemma digit_family c rest : is_digit c = true -> addr_family (c :: rest) = addr_family rest.
Proof.
  intros Hc%is_digit_range. cbn [addr_family].
  by rewrite !(proj2 (Z.eqb_neq (code c) _)) by lia.
Qed.

Lemma digits_family w rest : Forall (fun c => is_digit c = true) w ->
  addr_family (w ++ rest) = addr_family rest.
Proof. induction 1; [done|]. simpl app. by rewrite digit_family. Qed.

Lemma format_v4_family b : length b = 4%nat -> Forall is_byte b -> addr_family (format_v4 b) = Some true.
Proof.
  intros Hl Hb. destruct b as [|b0 [|b1 [|b2 [|b3 [|]]]]]; try done.
  apply Forall_cons_iff in Hb as [Hb _]. unfold format_v4.
  rewrite digits_family; [done|]. apply format_uint_digits. unfold is_byte in Hb. lia.
Qed.

(** *** IPv6 *)

Lemma z16 (P : Z -> Prop) : Forall P (seqZ 0 16) -> forall d, 0 <= d < 16 -> P d.
Proof. intros H d Hd. rewrite Forall_forall in H. apply H, list_elem_of_In, elem_of_seqZ. lia. Qed.

Lemma hex_digit_val d : 0 <= d < 16 -> hex_val (hex_digit d) = Some d.
Proof. revert d. apply z16. repeat constructor. Qed.

(** A text the hexadecimal scan stops at. *)
Definition stops (rest : list ascii) : Prop :=
  match rest with [] => True | c :: _ => hex_val c = None end.

Lemma hex_group_stop acc off rest : stops rest -> hex_group rest acc off = Some (acc, off, rest).
Proof. destruct rest as [|c rest]; simpl; [done|]. by intros ->. Qed.

Lemma hex_group_step d rest acc off : 0 <= d < 16 -> (off < 4)%nat ->
  hex_group (hex_digit d :: rest) acc off = hex_group rest (acc * 16 + d) (S off).
Proof.
  intros Hd Ho. cbn [hex_group]. rewrite hex_digit_val by done.
  by rewrite (proj2 (Z.ltb_ge _ _)) by lia.
Qed.

Lemma hex_group_format x rest : 0 <= x < 65536 -> stops rest ->
  exists n, hex_group (format_hex x ++ rest) 0 0 = Some (x, S n, rest).
Proof.
  intros Hx Hs. unfold format_hex.
  pose proof (Z.div_mod x 16 ltac:(lia)). pose proof (Z.mod_pos_bound x 16 ltac:(lia)).
  pose proof (Z.div_mod (x / 16) 16 ltac:(lia)). pose proof (Z.mod_pos_bound (x / 16) 16 ltac:(lia)).
  pose proof (Z.div_mod (x / 256) 16 ltac:(lia)). pose proof (Z.mod_pos_bound (x / 256) 16 ltac:(lia)).
  assert (x / 16 / 16 = x / 256) by (by rewrite Z.div_div by lia).
  assert (x / 256 / 16 = x / 4096) by (by rewrite Z.div_div by lia).
  assert (0 <= x / 4096 < 16) by (split; [apply Z.div_pos|apply Z.div_lt_upper_bound]; lia).
  bool_cases; reflect_bools; try lia; cbn [app];
    rewrite !hex_group_step by (done || lia);
    rewrite hex_group_stop by done; eexists;
    apply (f_equal Some); repeat apply (f_equal2 pair); first [reflexivity | lia].
Qed.

(** The bytes of a list of groups. *)
Definition group_bytes (gs : list Z) : list Z := gs ≫= fun g => [g / 256; g mod 256].

Lemma group_bytes_cons g gs : group_bytes (g :: gs) = g / 256 :: g mod 256 :: group_bytes gs.
Proof. reflexivity. Qed.

Lemma group_bytes_app a b : group_bytes (a ++ b) = group_bytes a ++ group_bytes b.
Proof. apply bind_app. Qed.

Lemma length_group_bytes gs : length (group_bytes gs) = (2 * length gs)%nat.
Proof. induction gs as [|g gs IH]; [done|]. rewrite group_bytes_cons. simpl length. lia. Qed.

Lemma group_bytes_groups n b : length b = (2 * n)%nat -> Forall is_byte b -> group_bytes (groups b) = b.
Proof.
  revert b; induction n as [|n IH]; intros b Hl Hb; destruct b as [|x [|y b]]; try done; simpl in Hl; try lia.
  do 2 (apply Forall_cons_iff in Hb as [? Hb]). cbn [groups]. rewrite group_bytes_cons, IH by (done || lia).
  unfold is_byte in *. f_equal; [|f_equal].
  - rewrite Z.mul_comm, Z.div_add_l, Z.div_small; lia.
  - rewrite Z.mul_comm, Z.add_comm, Z.mod_add, Z.mod_small; lia.
Qed.

Lemma groups_range b : Forall is_byte b -> Forall (fun g => 0 <= g < 65536) (groups b).
Proof.
  remember (length b) as n eqn:Hn. revert b Hn.
  induction n as [n IH] using lt_wf_ind; intros b Hn Hb.
  destruct b as [|x [|y b]]; simpl; try constructor.
  - do 2 (apply Forall_cons_iff in Hb as [? Hb]). unfold is_byte in *. lia.
  - do 2 (apply Forall_cons_iff in Hb as [? Hb]). apply (IH (length b)); [simpl in Hn; lia|done|done].
Qed.

Lemma length_groups n b : length b = (2 * n)%nat -> length (groups b) = n.
Proof.
  revert b; induction n as [|n IH]; intros b Hl; destruct b as [|x [|y b]]; try done; simpl in *; try lia.
  rewrite IH; lia.
Qed.

Lemma hex_digit_not_colon d : 0 <= d < 16 -> (code (hex_digit d) =? 58) = false.
Proof. revert d. apply z16. repeat constructor. Qed.

(** A group starts with a digit, not with a colon. *)
Lemma format_hex_cons x : 0 <= x < 65536 -> exists d l, format_hex x = hex_digit d :: l /\ 0 <= d < 16.
Proof.
  intros Hx. unfold format_hex.
  assert (0 <= x / 4096 < 16) by (split; [apply Z.div_pos|apply Z.div_lt_upper_bound]; lia).
  pose proof (Z.mod_pos_bound x 16 ltac:(lia)). pose proof (Z.mod_pos_bound (x / 16) 16 ltac:(lia)).
  pose proof (Z.mod_pos_bound (x / 256) 16 ltac:(lia)).
  bool_cases; cbn [app]; eauto.
Qed.

Lemma join_colon_cons g gs : 0 <= g < 65536 ->
  exists d l, join_colon (g :: gs) = hex_digit d :: l /\ 0 <= d < 16.
Proof.
  intros Hg. destruct (format_hex_cons g Hg) as (d & l & E & Hd).
  destruct gs as [|g' gs]; [by exists d, l|].
  exists d, (l ++ colon :: join_colon (g' :: gs)). split; [|done].
  change (join_colon (g :: g' :: gs)) with (format_hex g ++ colon :: join_colon (g' :: gs)).
  by rewrite E.
Qed.

Lemma ipv6_loop_last fuel g ip ell : 0 <= g < 65536 ->
  ipv6_loop (S fuel) (format_hex g) ip ell = Some (ip ++ [g / 256; g mod 256], ell, []).
Proof.
  intros Hg. cbn [ipv6_loop]. rewrite <- (app_nil_r (format_hex g)).
  destruct (hex_group_format g [] Hg I) as [n ->]. done.
Qed.

Lemma ipv6_loop_more fuel g c rest ip ell : 0 <= g < 65536 -> (code c =? 58) = false ->
  ipv6_loop (S fuel) (format_hex g ++ colon :: c :: rest) ip ell =
  ipv6_loop fuel (c :: rest) (ip ++ [g / 256; g mod 256]) ell.
Proof.
  intros Hg Hd. cbn [ipv6_loop].
  destruct (hex_group_format g (colon :: c :: rest) Hg eq_refl) as [n ->].
  by rewrite Hd.
Qed.

Lemma ipv6_loop_join fuel gs ip ell : gs <> [] -> Forall (fun g => 0 <= g < 65536) gs ->
  (length gs <= fuel)%nat ->
  ipv6_loop fuel (join_colon gs) ip ell = Some (ip ++ group_bytes gs, ell, []).
Proof.
  revert fuel ip; induction gs as [|g gs IH]; intros fuel ip Hn Hg Hf; [done|].
  apply Forall_cons_iff in Hg as [Hg Hgs]. destruct fuel as [|fuel]; [simpl in Hf; lia|].
  destruct gs as [|g' gs]; [by apply ipv6_loop_last|].
  change (join_colon (g :: g' :: gs)) with (format_hex g ++ colon :: join_colon (g' :: gs)).
  destruct (join_colon_cons g' gs) as (d & l & E & Hd); [by apply Forall_cons_iff in Hgs as [? _]|].
  rewrite E, ipv6_loop_more by (done || by apply hex_digit_not_colon). rewrite <- E, IH by (done || simpl in *; lia).
  by rewrite <- app_assoc.
Qed.

Lemma ipv6_loop_ellipsis fuel pre post ip : pre <> [] ->
  Forall (fun g => 0 <= g < 65536) pre -> Forall (fun g => 0 <= g < 65536) post ->
  (length pre + length post <= fuel)%nat ->
  ipv6_loop fuel (join_colon pre ++ colon :: colon :: join_colon post) ip None =
  Some ((ip ++ group_bytes pre) ++ group_bytes post, Some (length (ip ++ group_bytes pre)), []).
Proof.
  revert fuel ip; induction pre as [|g pre IH]; intros fuel ip Hn Hg Hp Hf; [done|].
  apply Forall_cons_iff in Hg as [Hg Hpre]. destruct fuel as [|fuel]; [simpl in Hf; lia|].
  destruct pre as [|g' pre].
  - simpl join_colon. cbn [ipv6_loop].
    destruct (hex_group_format g (colon :: colon :: join_colon post) Hg eq_refl) as [n ->].
    change (group_bytes [g]) with [g / 256; g mod 256]. simpl.
    destruct post as [|p post]; [by rewrite !app_nil_r|].
    destruct (join_colon_cons p post) as (d & l & E & Hd); [by apply Forall_cons_iff in Hp as [? _]|].
    rewrite E. rewrite <- E. apply ipv6_loop_join; [done|done|simpl in *; lia].
  - change (join_colon (g :: g' :: pre)) with (format_hex g ++ colon :: join_colon (g' :: pre)).
    destruct (join_colon_cons g' pre) as (d & l & E & Hd); [by apply Forall_cons_iff in Hpre as [? _]|].
    rewrite E, <- app_assoc. cbn [app].
    rewrite ipv6_loop_more by (done || by apply hex_digit_not_colon).
    change (hex_digit d :: l ++ ?x) with ((hex_digit d :: l) ++ x).
    rewrite <- E, IH by (done || simpl in *; lia). rewrite group_bytes_cons. by rewrite <- !app_assoc.
Qed.

Lemma zero_run_spec gs : exists post, gs = replicate (zero_run gs) 0 ++ post.
Proof.
  induction gs as [|g gs [post IH]]; [by exists []|]. simpl.
  destruct (Z.eqb_spec g 0) as [->|]; [|by eexists]. exists post. simpl. by rewrite <- IH.
Qed.

(** Where the chosen run lies: nowhere, or in front of some rest. *)
Definition run_in (full : list Z) (best : nat * nat) : Prop :=
  snd best = O \/ exists pre post, full = pre ++ replicate (snd best) 0 ++ post /\ length pre = fst best.

Lemma longest_zeros_run full pre gs best : full = pre ++ gs -> run_in full best ->
  run_in full (longest_zeros (length pre) gs best).
Proof.
  revert pre best; induction gs as [|g gs IH]; intros pre best E Hb; [done|]. cbn [longest_zeros].
  replace (S (length pre)) with (length (pre ++ [g])) by (rewrite length_app; simpl; lia).
  apply IH; [by rewrite <- app_assoc|].
  destruct ((2 <=? zero_run (g :: gs)) && (snd best <? zero_run (g :: gs)))%nat; [|done].
  right. destruct (zero_run_spec (g :: gs)) as [post Ep]. exists pre, post. simpl fst; simpl snd.
  split; [|done]. rewrite E. f_equal. exact Ep.
Qed.

Lemma group_bytes_zeros n : group_bytes (replicate n 0) = replicate (2 * n) 0.
Proof.
  induction n as [|n IH]; [done|]. replace (2 * S n)%nat with (S (S (2 * n)))%nat by lia.
  simpl replicate. by rewrite group_bytes_cons, IH.
Qed.

(** No character of a formatted address starts a zone. *)
Definition no_percent (cs : list ascii) : Prop := Forall (fun c => (code c =? 37) = false) cs.

Lemma split_zone_none cs : no_percent cs -> split_zone cs = (cs, None).
Proof. induction 1 as [|c cs Hc _ IH]; [done|]. simpl. by rewrite Hc, IH. Qed.

Lemma hex_digit_no_percent d : 0 <= d < 16 -> (code (hex_digit d) =? 37) = false.
Proof. revert d. apply z16. repeat constructor. Qed.

Lemma format_hex_no_percent x : 0 <= x < 65536 -> no_percent (format_hex x).
Proof.
  intros Hx. unfold format_hex, no_percent.
  assert (0 <= x / 4096 < 16) by (split; [apply Z.div_pos|apply Z.div_lt_upper_bound]; lia).
  pose proof (Z.mod_pos_bound x 16 ltac:(lia)). pose proof (Z.mod_pos_bound (x / 16) 16 ltac:(lia)).
  pose proof (Z.mod_pos_bound (x / 256) 16 ltac:(lia)).
  bool_cases; repeat constructor; by apply hex_digit_no_percent.
Qed.

Lemma join_colon_no_percent gs : Forall (fun g => 0 <= g < 65536) gs -> no_percent (join_colon gs).
Proof.
  induction 1 as [|g gs Hg _ IH]; [constructor|].
  destruct gs as [|g' gs]; [by apply format_hex_no_percent|].
  change (join_colon (g :: g' :: gs)) with (format_hex g ++ colon :: join_colon (g' :: gs)).
  apply Forall_app. split; [by apply format_hex_no_percent|]. by constructor.
Qed.

Lemma format_v4_no_percent b : length b = 4%nat -> Forall is_byte b -> no_percent (format_v4 b).
Proof.
  intros Hl Hb. destruct b as [|b0 [|b1 [|b2 [|b3 [|]]]]]; try done.
  assert (forall z, is_byte z -> no_percent (format_uint z)) as Hd.
  { intros z Hz. eapply Forall_impl; [|apply (format_uint_digits z); unfold is_byte in Hz; lia].
    intros c Hc. pose proof (is_digit_range c Hc). apply Z.eqb_neq. lia. }
  repeat match goal with H : Forall _ (_ :: _) |- _ => apply Forall_cons_iff in H as [? H] end.
  unfold format_v4, no_percent in *.
  repeat (apply Forall_app; split; [by apply Hd|]; constructor; [done|]). by apply Hd.
Qed.

(** The text of an IPv6 address names its groups around at most one run. *)
Lemma parse_ipv6_plain gs : length gs = 8%nat -> Forall (fun g => 0 <= g < 65536) gs ->
  parse_ipv6 (join_colon gs) = Some (IPv6 (group_bytes gs) "").
Proof.
  intros Hl Hg. unfold parse_ipv6. rewrite split_zone_none by (by apply join_colon_no_percent).
  pose proof (ipv6_loop_join 8 gs [] None ltac:(by destruct gs) Hg ltac:(lia)) as Hloop.
  pose proof (length_group_bytes gs) as Hlen. rewrite Hl in Hlen.
  destruct gs as [|g gs]; [done|].
  destruct (join_colon_cons g gs) as (d & l & E & Hd); [by apply Forall_cons_iff in Hg as [? _]|].
  rewrite E in *. cbv beta iota zeta.
  assert (forall (A : Type) (x : list ascii -> A) y,
    match l with [] => y | e :: s' => if (code (hex_digit d) =? 58) && (code e =? 58) then x s' else y end = y)
    as Hm by (intros; rewrite hex_digit_not_colon by done; by destruct l).
  rewrite Hm, Hloop, app_nil_l, Hlen. reflexivity.
Qed.

Lemma splice_zeros n pre post : (length pre + n + length post = 8)%nat ->
  let ip := group_bytes pre ++ group_bytes post in
  take (length (group_bytes pre)) ip ++ replicate (16 - length ip) 0 ++ drop (length (group_bytes pre)) ip =
  group_bytes (pre ++ replicate n 0 ++ post).
Proof.
  intros Hl ip. unfold ip. rewrite take_app_length, drop_app_length, length_app, !length_group_bytes.
  rewrite !group_bytes_app, group_bytes_zeros. do 2 f_equal. f_equal. lia.
Qed.

Lemma parse_ipv6_run n pre post : (0 < n)%nat -> (length pre + n + length post = 8)%nat ->
  Forall (fun g => 0 <= g < 65536) pre -> Forall (fun g => 0 <= g < 65536) post ->
  parse_ipv6 (join_colon pre ++ colon :: colon :: join_colon post) =
  Some (IPv6 (group_bytes (pre ++ replicate n 0 ++ post)) "").
Proof.
  intros Hn Hl Hpre Hpost. unfold parse_ipv6. rewrite split_zone_none.
  2: { apply Forall_app. split; [by apply join_colon_no_percent|].
       do 2 (constructor; [done|]). by apply join_colon_no_percent. }
  cbv beta iota zeta. destruct pre as [|g pre].
  - simpl app. destruct post as [|p post].
    + simpl in Hl. assert (n = 8)%nat as -> by lia. reflexivity.
    + pose proof (ipv6_loop_join 8 (p :: post) [] (Some 0%nat) ltac:(done) Hpost ltac:(simpl in *; lia)) as Hloop.
      destruct (join_colon_cons p post) as (d & l & E & Hd); [by apply Forall_cons_iff in Hpost as [? _]|].
      change ((code colon =? 58) && (code colon =? 58)) with true. cbv iota.
      rewrite E in *. rewrite Hloop, app_nil_l.
      rewrite (proj2 (Nat.ltb_lt _ _)) by (rewrite length_group_bytes; simpl in *; lia).
      apply (f_equal (fun b => Some (IPv6 b EmptyString))), (splice_zeros n [] (p :: post) Hl).
  - pose proof (ipv6_loop_ellipsis 8 (g :: pre) post [] ltac:(done) Hpre Hpost ltac:(lia)) as Hloop.
    destruct (join_colon_cons g pre) as (d & l & E & Hd); [by apply Forall_cons_iff in Hpre as [? _]|].
    rewrite E in *. rewrite <- app_comm_cons in *.
    destruct (l ++ colon :: colon :: join_colon post) as [|e l'] eqn:El; [by destruct l|].
    rewrite hex_digit_not_colon by done. simpl andb. cbv iota. rewrite Hloop, app_nil_l.
    rewrite (proj2 (Nat.ltb_lt _ _)) by (rewrite length_app, !length_group_bytes; simpl in *; lia).
    by rewrite (splice_zeros n).
Qed.

Lemma hex_family d rest : 0 <= d < 16 -> addr_family (hex_digit d :: rest) = addr_family rest.
Proof.
  intros Hd. cbn [addr_family]. rewrite hex_digit_not_colon, hex_digit_no_percent by done.
  assert ((code (hex_digit d) =? 46) = false) as ->; [|done]. revert d Hd. apply z16. repeat constructor.
Qed.

Lemma format_hex_family x rest : 0 <= x < 65536 -> addr_family (format_hex x ++ rest) = addr_family rest.
Proof.
  intros Hx. unfold format_hex.
  assert (0 <= x / 4096 < 16) by (split; [apply Z.div_pos|apply Z.div_lt_upper_bound]; lia).
  pose proof (Z.mod_pos_bound x 16 ltac:(lia)). pose proof (Z.mod_pos_bound (x / 16) 16 ltac:(lia)).
  pose proof (Z.mod_pos_bound (x / 256) 16 ltac:(lia)).
  bool_cases; cbn [app]; by rewrite !hex_family.
Qed.

(** A joined list of groups meets a colon first, when one follows. *)
Lemma join_colon_family gs rest : (1 < length gs)%nat \/ (exists r, rest = colon :: r) ->
  Forall (fun g => 0 <= g < 65536) gs -> addr_family (join_colon gs ++ rest) = Some false.
Proof.
  intros H Hg. destruct Hg as [|g gs Hg Hgs].
  - destruct H as [H|[r ->]]; [simpl in H; lia|done].
  - destruct gs as [|g' gs].
    + destruct H as [H|[r ->]]; [simpl in H; lia|]. simpl join_colon. by rewrite format_hex_family.
    + change (join_colon (g :: g' :: gs)) with (format_hex g ++ colon :: join_colon (g' :: gs)).
      rewrite <- app_assoc, format_hex_family by done. done.
Qed.

Lemma parse_format_v6 b : length b = 16%nat -> Forall is_byte b ->
  addr_family (format_v6 b) = Some false /\ parse_ipv6 (format_v6 b) = Some (IPv6 b "").
Proof.
  intros Hl Hb. pose proof (groups_range b Hb) as Hg. pose proof (length_groups 8 b Hl) as Hlg.
  pose proof (group_bytes_groups 8 b Hl Hb) as Hgb. unfold format_v6.
  pose proof (longest_zeros_run (groups b) [] (groups b) (0, 0)%nat eq_refl (or_introl eq_refl)) as Hrun.
  simpl length in Hrun. destruct (longest_zeros 0 (groups b) (0, 0)%nat) as [start n].
  destruct (Nat.eqb_spec n 0) as [->|Hn].
  - rewrite parse_ipv6_plain by done. rewrite Hgb. split; [|done].
    rewrite <- (app_nil_r (join_colon _)). apply join_colon_family; [left; lia|done].
  - destruct Hrun as [H|(pre & post & E & Hs)]; [done|]. simpl in E, Hs.
    rewrite E in *. rewrite !length_app, length_replicate in Hlg.
    apply Forall_app in Hg as [Hpre [_ Hpost]%Forall_app].
    rewrite <- Hs, take_app_length, <- drop_drop, drop_app_length, drop_app_length'
      by (by rewrite length_replicate).
    rewrite (parse_ipv6_run n) by (done || lia). rewrite Hgb. split; [|done].
    apply join_colon_family; [right; by eexists|done].
Qed.

Lemma parse_format_4in6 b : length b = 4%nat -> Forall is_byte b ->
  parse_ipv6 (chars "::ffff:" ++ format_v4 b) = Some (IPv6 (replicate 10 0 ++ [255; 255] ++ b) "").
Proof.
  intros Hl Hb. unfold parse_ipv6. rewrite split_zone_none.
  2: { apply Forall_app. split; [by repeat constructor|by apply format_v4_no_percent]. }
  cbv beta iota zeta.
  pose proof (parse_format_v4 b Hl Hb) as Hp.
  destruct b as [|b0 [|b1 [|b2 [|b3 [|]]]]]; try done.
  assert (exists c l, format_v4 [b0; b1; b2; b3] = c :: l /\ is_digit c = true) as (c & l & E & Hc).
  { apply Forall_cons_iff in Hb as [Hb _]. unfold is_byte in Hb. unfold format_v4.
    pose proof (format_uint_digits b0 ltac:(lia)) as Hd. destruct (format_uint_word b0) as [Hn _]; [lia|].
    destruct (format_uint b0) as [|c l]; [done|]. apply Forall_cons_iff in Hd as [? _]. by eexists _, _. }
  assert (exists acc k, hex_group (format_v4 [b0; b1; b2; b3]) 0 0 =
    Some (acc, S k, dot :: format_uint b1 ++ dot :: format_uint b2 ++ dot :: format_uint b3)) as (acc & k & Hh).
  { apply Forall_cons_iff in Hb as [Hb _]. unfold format_v4.
    pose proof (byte_shape_all b0 Hb) as Hs. unfold byte_shape in Hs.
    assert (forall c, is_digit c = true -> hex_val c = Some (code c - 48)) as Hv.
    { intros x Hx. unfold is_digit in Hx. unfold hex_val. by rewrite Hx. }
    destruct (format_uint b0) as [|x [|y [|z [|w l']]]]; try done; reflect_bools; cbn [app hex_group];
      rewrite !Hv by done; simpl; by eexists _, _. }
  pose (F := chars "fff:" ++ format_v4 [b0; b1; b2; b3]).
  assert (ipv6_loop 8 ("f"%char :: F) [] (Some 0%nat) = Some ([255; 255; b0; b1; b2; b3], Some 0%nat, []))
    as Hloop.
  { transitivity (ipv6_loop 7 (format_v4 [b0; b1; b2; b3]) [255; 255] (Some 0%nat)).
    - unfold F. rewrite E. apply is_digit_range in Hc.
      apply (ipv6_loop_more 7 65535 c l [] (Some 0%nat)); [lia|]. apply Z.eqb_neq. lia.
    - cbn [ipv6_loop]. rewrite Hh. change (code dot =? 46) with true. simpl orb. cbv iota. by rewrite Hp. }
  change (chars "::ffff:" ++ format_v4 [b0; b1; b2; b3]) with (colon :: colon :: "f"%char :: F).
  cbv beta iota. change (code colon =? 58) with true. cbn [andb]. cbv iota. rewrite Hloop. reflexivity.
Qed.

Lemma parse_addr_string a : addr_wf a -> ParseAddr (addr_string a) = to_ip a.
Proof.
  unfold ParseAddr, addr_string. rewrite chars_of_chars. destruct a as [|b|b]; cbn [addr_chars addr_wf to_ip]; [done| |].
  - intros [Hl Hb]. by rewrite format_v4_family, parse_format_v4 by done.
  - intros [Hl Hb]. unfold is_4in6. case_bool_decide as E.
    + change (addr_family (chars "::ffff:" ++ _)) with (Some false). cbv iota.
      rewrite parse_format_4in6 by (first [by apply Forall_drop|rewrite length_drop; lia]).
      do 2 f_equal. rewrite app_assoc, <- E. apply take_drop.
    + destruct (parse_format_v6 b Hl Hb) as [-> ->]. done.
Qed.
