(* ===== verification/Sha256.v ===== *)
(** * [crypto/sha256] and hexadecimal formatting

    Event identifiers are digests.  The function is FIPS 180-4 on 32-bit words;
    the published test vectors are checked below. *)

From stdpp Require Import base list strings numbers.
From Stdlib Require Import Ascii.
From S2P Require Import Prelude GoBase.

Open Scope Z_scope.

Definition w32 (z : Z) : Z := wrap_u 32 z.
Definition rotr (n x : Z) : Z := Z.lor (Z.shiftr x n) (w32 (Z.shiftl x (32 - n))).

(** The constants are the first 32 bits of the fractional parts of the cube roots
    of the first 64 primes, and of the square roots of the first eight. *)
Definition is_prime (p : Z) : bool :=
  forallb (fun d => negb (p mod d =? 0)) (seqZ 2 (Z.sqrt p - 1)).

Definition primes : list Z := filter (fun p => is_prime p = true) (seqZ 2 310).

(** The largest [r] with [r ^ 3 <= n], found bit by bit from bit [k - 1] down. *)
Fixpoint cube_root (k : nat) (r n : Z) : Z :=
  match k with
  | O => r
  | S k' => let r' := r + 2 ^ Z.of_nat k' in cube_root k' (if r' * r' * r' <=? n then r' else r) n
  end.

Definition round_constants : list Z :=
  Eval vm_compute in (fun p => w32 (cube_root 36 0 (Z.shiftl p 96))) <$> primes.

Definition initial_state : list Z :=
  Eval vm_compute in (fun p => w32 (Z.sqrt (Z.shiftl p 64))) <$> take 8 primes.

Example constants_lengths : length round_constants = 64%nat /\ length initial_state = 8%nat.
Proof. by vm_compute. Qed.

(** Padding to a multiple of 64 bytes with the bit length at the end. *)
Definition pad (msg : list Z) : list Z :=
  let l := length msg in
  msg ++ [128] ++ replicate ((119 - l mod 64) mod 64) 0 ++ be_bytes 8 (8 * Z.of_nat l).

Fixpoint words (fuel : nat) (bs : list Z) : list Z :=
  match fuel with
  | O => []
  | S fuel' => be_val (take 4 bs) :: words fuel' (drop 4 bs)
  end.

(** The message schedule, latest word first: [w] holds the words so far. *)
Fixpoint extend (n : nat) (w : list Z) : list Z :=
  match n with
  | O => w
  | S n' =>
      let at_ i := nth i w 0 in
      let s0 := Z.lxor (Z.lxor (rotr 7 (at_ 14%nat)) (rotr 18 (at_ 14%nat))) (Z.shiftr (at_ 14%nat) 3) in
      let s1 := Z.lxor (Z.lxor (rotr 17 (at_ 1%nat)) (rotr 19 (at_ 1%nat))) (Z.shiftr (at_ 1%nat) 10) in
      extend n' (w32 (at_ 15%nat + s0 + at_ 6%nat + s1) :: w)
  end.

Definition schedule (block : list Z) : list Z := reverse (extend 48 (reverse (words 16 block))).

Definition round (st : list Z) (kw : Z * Z) : list Z :=
  match st with
  | [a; b; c; d; e; f; g; h] =>
      let s1 := Z.lxor (Z.lxor (rotr 6 e) (rotr 11 e)) (rotr 25 e) in
      let ch := Z.lxor (Z.land e f) (Z.land (Z.lxor e 0xffffffff) g) in
      let t1 := w32 (h + s1 + ch + fst kw + snd kw) in
      let s0 := Z.lxor (Z.lxor (rotr 2 a) (rotr 13 a)) (rotr 22 a) in
      let maj := Z.lxor (Z.lxor (Z.land a b) (Z.land a c)) (Z.land b c) in
      [w32 (t1 + s0 + maj); a; b; c; w32 (d + t1); e; f; g]
  | _ => st
  end.

Definition compress (st : list Z) (block : list Z) : list Z :=
  zip_with (fun x y => w32 (x + y)) st (foldl round st (zip round_constants (schedule block))).

Fixpoint blocks (fuel : nat) (st : list Z) (bs : list Z) : list Z :=
  match fuel with
  | O => st
  | S fuel' => blocks fuel' (compress st (take 64 bs)) (drop 64 bs)
  end.

(** [sha256.Sum256] *)
Definition Sum256 (msg : list Z) : list Z :=
  let p := pad msg in blocks (length p / 64) initial_state p ≫= be_bytes 4.

(** ** [%x] of a byte slice *)

Definition hex_nibble (d : Z) : ascii := if d <? 10 then char_of (48 + d) else char_of (87 + d).
Definition hex_string (bs : list Z) : list ascii :=
  bs ≫= fun b => [hex_nibble (b / 16); hex_nibble (b mod 16)].

Definition digest_hex (s : string) (n : nat) : string :=
  of_chars (hex_string (take n (Sum256 (code <$> chars s)))).

Example sha256_abc : digest_hex "abc" 32 =
  "ba7816bf8f01cfea414140de5dae2223b00361a396177a9cb410ff61f20015ad"%string.
Proof. vm_compute. reflexivity. Qed.

Example sha256_empty : digest_hex "" 32 =
  "e3b0c44298fc1c149afbf4c8996fb92427ae41e4649b934ca495991b7852b855"%string.
Proof. vm_compute. reflexivity. Qed.

Example sha256_two_blocks :
  digest_hex "abcdbcdecdefdefgefghfghighijhijkijkljklmklmnlmnomnopnopq" 32 =
  "248d6a61d20638b8e5c026930c3e6039a33ce45964ff2167f6ecedd419db06c1"%string.
Proof. vm_compute. reflexivity. Qed.

(** ** Lengths *)

Lemma length_round st kw : length st = 8%nat -> length (round st kw) = 8%nat.
Proof. intros H. by do 9 (destruct st as [|? st]; try done). Qed.

Lemma length_rounds kws st : length st = 8%nat -> length (foldl round st kws) = 8%nat.
Proof. revert st; induction kws; simpl; auto using length_round. Qed.

Lemma length_blocks fuel st bs : length st = 8%nat -> length (blocks fuel st bs) = 8%nat.
Proof.
  revert st bs; induction fuel as [|fuel IH]; intros st bs H; [done|]. cbn [blocks]. apply IH.
  unfold compress. rewrite length_zip_with, length_rounds by done. lia.
Qed.

Lemma length_Sum256 msg : length (Sum256 msg) = 32%nat.
Proof.
  unfold Sum256. set (st := blocks _ _ _).
  assert (length st = 8%nat) as H by (by apply length_blocks). clearbody st.
  by do 9 (destruct st as [|? st]; try done).
Qed.

Lemma length_hex_string bs : length (hex_string bs) = (2 * length bs)%nat.
Proof. unfold hex_string. induction bs as [|b bs IH]; [done|]. rewrite bind_cons, length_app, IH. simpl. lia. Qed.

Lemma len_digest_hex s n : (n <= 32)%nat -> len (digest_hex s n) = 2 * Z.of_nat n.
Proof.
  intros Hn. unfold len, digest_hex. rewrite chars_of_chars, length_hex_string, length_take, length_Sum256.
  lia.
Qed.
