(* ===== verification/Ownership.v ===== *)
(** * Attribution and aggregation of connections

    [internal/agent/ownership/collector.go]: each observation of the tracer is
    given an owner (container, process or host) and added to the connection it
    belongs to; a drain turns the connections into events.

    What the package needs of the process table is the interface
    [ProcessLookup]; the containers come as a snapshot of the Docker inventory. *)

From stdpp Require Import base list strings numbers gmap sorting.
From Stdlib Require Import Ascii.
From S2P Require Import Prelude GoBase GoText GoModel FlowDecode NetipString Sha256 InterfaceCounter.

Open Scope string_scope.
Open Scope Z_scope.

(** ** Data of the neighbouring packages *)

(** [docker.Container] and [docker.Snapshot] *)
Record Container : Type := MkContainer {
  ct_ID : string; ct_Name : string; ct_CgroupID : Z; ct_Addresses : list string;
  ct_Ports : list Z; ct_Running : bool }.

Record Snapshot : Type := MkSnapshot {
  ByCgroup : gmap Z Container; ByID : gmap string Container; ByEndpoint : gmap string Container }.

(** [process.Process] *)
Record Process : Type := MkProcess {
  ps_PID : Z; ps_Name : string; ps_CgroupPath : string; ps_StartTime : Z }.

(** The process table: a lookup may update its own state (a cache) and answers for
    the process asked for; there is no process 0. *)
Class ProcessLookup (S : Type) : Type := {
  Lookup : S -> Z -> option Process * S;
  lookup_ok : S -> Prop;
  lookup_keeps s pid : lookup_ok s -> lookup_ok (snd (Lookup s pid));
  lookup_pid s pid p : lookup_ok s -> fst (Lookup s pid) = Some p -> ps_PID p = pid;
  lookup_zero s : lookup_ok s -> fst (Lookup s 0) = None }.

(** ** Small functions *)

Definition protocolName (protocol : Z) : string :=
  if protocol =? 6 then "tcp"
  else if protocol =? 17 then "udp"
  else of_chars (format_int protocol).

Definition stateName (state : Z) : string :=
  if state =? 1 then "established"
  else if state =? 7 then "closed"
  else if state =? 10 then "listening"
  else of_chars (format_int state).

Definition clampUint64 (value : Z) : Z :=
  if max_i64 <? value then max_i64 else wrap_s 64 value.

Definition saturatingAdd (left right : Z) : Z :=
  if wrap_s 64 (max_i64 - left) <? right then max_i64 else wrap_s 64 (left + right).

(** ** Keys *)

Record connectionKey : Type := MkKey {
  k_Protocol : string; k_Local : Endpoint; k_Remote : Endpoint; k_Owner : OwnerRef;
  k_State : string }.

#[export] Instance connectionKey_eq_dec : EqDecision connectionKey.
Proof. solve_decision. Defined.

#[export] Instance OwnerRef_countable : Countable OwnerRef.
Proof.
  refine (inj_countable'
    (fun o => (own_Kind o, own_PID o, own_Process o, own_ContainerID o, own_ContainerName o))
    (fun '(a, b, c, d, e) => MkOwnerRef a b c d e) _). by intros [].
Defined.

#[export] Instance Endpoint_countable : Countable Endpoint.
Proof.
  refine (inj_countable' (fun e => (ep_IP e, ep_Port e, ep_Domain e, ep_Confidence e))
    (fun '(a, b, c, d) => MkEndpoint a b c d) _). by intros [].
Defined.

#[export] Instance connectionKey_countable : Countable connectionKey.
Proof.
  refine (inj_countable' (fun k => (k_Protocol k, k_Local k, k_Remote k, k_Owner k, k_State k))
    (fun '(a, b, c, d, e) => MkKey a b c d e) _). by intros [].
Defined.

Definition key_of (c : ConnectionDelta) : connectionKey :=
  MkKey (cd_Protocol c) (cd_Local c) (cd_Remote c) (cd_Owner c) (cd_State c).

(** [fmt.Sprintf("%v", key)]: the fields in order, nested structs in braces. *)
Definition format_endpoint (e : Endpoint) : string :=
  "{" +:+ ep_IP e +:+ " " +:+ of_chars (format_int (ep_Port e)) +:+ " " +:+ ep_Domain e +:+ " " +:+
  ep_Confidence e +:+ "}".

Definition format_owner (o : OwnerRef) : string :=
  "{" +:+ own_Kind o +:+ " " +:+ of_chars (format_int (own_PID o)) +:+ " " +:+ own_Process o +:+ " " +:+
  own_ContainerID o +:+ " " +:+ own_ContainerName o +:+ "}".

Definition format_key (k : connectionKey) : string :=
  "{" +:+ k_Protocol k +:+ " " +:+ format_endpoint (k_Local k) +:+ " " +:+ format_endpoint (k_Remote k)
  +:+ " " +:+ format_owner (k_Owner k) +:+ " " +:+ k_State k +:+ "}".

(** ** The components *)

Definition maxActiveConnections : nat := Z.to_nat 4096.

Section ownership.
Context {S : Type} {PL : ProcessLookup S}.

Record Attributor : Type := MkAttributor { processes : S; byCgroup : gmap Z Container }.

Definition NewAttributor (p : S) : Attributor := MkAttributor p ∅.

Definition SetSnapshot (a : Attributor) (snapshot : Snapshot) : Attributor :=
MkAttributor (processes a) (ByCgroup snapshot).

(** The owner of an observation, and the attributor after the lookup. *)
Definition attribute_owner (a : Attributor) (o : Observation) : OwnerRef * Attributor :=
match byCgroup a !! CgroupID o with
| Some container => (MkOwnerRef OwnerContainer 0 "" (ct_ID container) (ct_Name container), a)
| None =>
    let '(found, p) := Lookup (processes a) (PID o) in
    (match found with
     | Some process => MkOwnerRef OwnerProcess (ps_PID process) (ps_Name process) "" ""
     | None => MkOwnerRef OwnerHost 0 "" "" ""
     end, MkAttributor p (byCgroup a))
end.

Definition Attribute (a : Attributor) (o : Observation) : ConnectionDelta * Attributor :=
let '(owner, a') := attribute_owner a o in
(MkConnectionDelta (protocolName (Protocol o))
   (MkEndpoint (addr_string (LocalIP o)) (LocalPort o) "" ConfidenceIPOnly)
   (MkEndpoint (addr_string (RemoteIP o)) (RemotePort o) "" ConfidenceIPOnly)
   owner (clampUint64 (Sent o)) (clampUint64 (Received o)) (stateName (State o)), a').

Record Collector : Type := MkCollector {
attributor : Attributor; values : gmap connectionKey ConnectionDelta; dropped : Z }.

Definition NewCollector (a : Attributor) : Collector := MkCollector a ∅ 0.

Definition IsValid (a : netip_addr) : bool := match a with AddrZero => false | _ => true end.

(** The first guard of [Observe]. *)
Definition complete (o : Observation) : bool :=
negb ((LocalPort o =? 0) || (RemotePort o =? 0) || negb (IsValid (LocalIP o)) ||
      negb (IsValid (RemoteIP o))).

Definition zero_connection : ConnectionDelta :=
MkConnectionDelta "" (MkEndpoint "" 0 "" "") (MkEndpoint "" 0 "" "") (MkOwnerRef "" 0 "" "" "") 0 0 "".

Definition Observe (c : Collector) (o : Observation) : Collector :=
if negb (complete o) then MkCollector (attributor c) (values c) (wrap_u 64 (dropped c + 1))
else
  let '(connection, a) := Attribute (attributor c) o in
  let key := key_of connection in
  let found := values c !! key in
  if (match found with None => true | Some _ => false end) && (maxActiveConnections <=? size (values c))%nat
  then MkCollector a (values c) (wrap_u 64 (dropped c + 1))
  else
    let current := default zero_connection found in
    let connection :=
      MkConnectionDelta (cd_Protocol connection) (cd_Local connection) (cd_Remote connection)
        (cd_Owner connection) (saturatingAdd (cd_BytesSent current) (cd_BytesSent connection))
        (saturatingAdd (cd_BytesReceived current) (cd_BytesReceived connection))
        (cd_State connection) in
    MkCollector a (<[key := connection]> (values c)) (dropped c).

Definition connection_event (observedAt : time) (kv : connectionKey * ConnectionDelta) : Event :=
let '(key, connection) := kv in
MkEvent ("connection:" +:+ digest_hex (format_key key +:+ ":" +:+ of_chars (format_int (UnixNano observedAt))) 12)
  observedAt EventConnection "" 0 0 "" None (Some connection) None None None.

(** [Drain]: the runtime visits the map in the order [visit]. *)
Definition Drain (c : Collector) (observedAt : time) (visit : list (connectionKey * ConnectionDelta))
: list Event * Collector :=
(connection_event observedAt <$> visit, MkCollector (attributor c) ∅ (dropped c)).
End ownership.

Definition inventory_event (observedAt : time) (id : string) (container : Container) : Event :=
  MkEvent ("owner:" +:+ digest_hex (id +:+ ":" +:+ of_chars (format_int (UnixNano observedAt))) 12)
    observedAt EventOwnerInventory "" 0 0 "" None None None None
    (Some (MkOwnerInventory (MkOwnerRef OwnerContainer 0 "" (ct_ID container) (ct_Name container))
             (ct_CgroupID container) (ct_Addresses container) (ct_Ports container)
             (ct_Running container))).

Definition InventoryEvents (snapshot : Snapshot) (observedAt : time) : list Event :=
  omap (fun id => inventory_event observedAt id <$> ByID snapshot !! id)
    (sort_strings (map_to_list (ByID snapshot)).*1).

(** ** Invariants *)

(** What the decoder delivers: fields within their widths, addresses of the right
    length. *)
Record observation_ok (o : Observation) : Prop := {
  oo_pid : in_u 32 (PID o);
  oo_protocol : in_u 8 (Protocol o);
  oo_state : in_u 8 (State o);
  oo_sent : in_u 64 (Sent o);
  oo_received : in_u 64 (Received o);
  oo_local : LocalIP o = AddrZero \/ addr_wf (LocalIP o);
  oo_remote : RemoteIP o = AddrZero \/ addr_wf (RemoteIP o) }.

Definition container_ok (ct : Container) : Prop :=
  ct_ID ct <> "" /\ Forall addr_ok (ct_Addresses ct) /\ Forall (fun p => p <> 0) (ct_Ports ct).

Definition snapshot_ok (s : Snapshot) : Prop :=
  map_Forall (fun _ => container_ok) (ByCgroup s) /\ map_Forall (fun _ => container_ok) (ByID s).

(** A stored connection: valid, at its own key, its counts within [int64]. *)
Definition stored_ok (k : connectionKey) (c : ConnectionDelta) : Prop :=
  key_of c = k /\ connection_ok c /\ cd_BytesSent c <= max_i64 /\ cd_BytesReceived c <= max_i64.

Section invariants.
Context {S : Type} {PL : ProcessLookup S}.

Definition attributor_ok (a : Attributor (S := S)) : Prop :=
lookup_ok (processes a) /\ map_Forall (fun _ => container_ok) (byCgroup a).

Record collector_ok (c : Collector (S := S)) : Prop := {
co_attributor : attributor_ok (attributor c);
co_values : map_Forall stored_ok (values c);
co_size : (size (values c) <= maxActiveConnections)%nat }.

(** What becomes of an observation: dropped, or added to the connection at a key. *)
Definition outcome (c : Collector (S := S)) (o : Observation) : option (connectionKey * Z * Z) :=
let key := key_of (fst (Attribute (attributor c) o)) in
if complete o && (bool_decide (is_Some (values c !! key)) || (size (values c) <? maxActiveConnections)%nat)
then Some (key, Sent o, Received o) else None.

Fixpoint accepted (c : Collector (S := S)) (os : list Observation) : list (connectionKey * Z * Z) :=
match os with
| [] => []
| o :: os' => opt_list (outcome c o) ++ accepted (Observe c o) os'
end.

Definition observe_all (c : Collector (S := S)) (os : list Observation) : Collector := foldl Observe c os.
End invariants.

(** The bytes a list of outcomes adds to a key. *)
Definition sent_to (k : connectionKey) (x : connectionKey * Z * Z) : Z :=
  if decide (x.1.1 = k) then x.1.2 else 0.
Definition received_to (k : connectionKey) (x : connectionKey * Z * Z) : Z :=
  if decide (x.1.1 = k) then x.2 else 0.

(** The count stored at a key, 0 when there is none. *)
Definition stored_sent (m : gmap connectionKey ConnectionDelta) (k : connectionKey) : Z :=
  default 0 (cd_BytesSent <$> m !! k).
Definition stored_received (m : gmap connectionKey ConnectionDelta) (k : connectionKey) : Z :=
  default 0 (cd_BytesReceived <$> m !! k).

(** ** Lemmas *)

Lemma clamp_min v : in_u 64 v -> clampUint64 v = Z.min max_i64 v.
Proof.
  unfold clampUint64, in_u, max_i64. intros Hv. destruct (Z.ltb_spec (2 ^ 63 - 1) v); [lia|].
  rewrite wrap_s_id by (unfold in_s; lia). lia.
Qed.

Lemma saturatingAdd_min a b : 0 <= a <= max_i64 -> 0 <= b <= max_i64 ->
  saturatingAdd a b = Z.min max_i64 (a + b).
Proof.
  unfold saturatingAdd, max_i64. intros Ha Hb. rewrite (wrap_s_id 64 (2 ^ 63 - 1 - a)) by (unfold in_s; lia).
  destruct (Z.ltb_spec (2 ^ 63 - 1 - a) b); [lia|]. rewrite wrap_s_id by (unfold in_s; lia). lia.
Qed.

Lemma format_int_nonempty z : 0 <= z -> of_chars (format_int z) <> "".
Proof.
  intros Hz E. apply (f_equal chars) in E. rewrite chars_of_chars in E.
  unfold format_int in E. rewrite (proj2 (Z.ltb_ge _ _)) in E by done.
  by destruct (format_uint_word z Hz) as [Hn _].
Qed.

Lemma protocolName_nonempty p : 0 <= p -> protocolName p <> "".
Proof. intros Hp. unfold protocolName. bool_cases; [done..|]. by apply format_int_nonempty. Qed.

Lemma addr_string_ok a : addr_wf a -> addr_ok (addr_string a).
Proof. intros Ha. unfold addr_ok. rewrite parse_addr_string by done. destruct a; [done|eauto..]. Qed.

Lemma complete_spec o : complete o = true ->
  LocalPort o <> 0 /\ RemotePort o <> 0 /\ LocalIP o <> AddrZero /\ RemoteIP o <> AddrZero.
Proof.
  unfold complete. rewrite negb_true_iff, !orb_false_iff, !negb_false_iff, !Z.eqb_neq.
  intros [[[? ?] Hl] Hr]. split_and!; [done|done|by intros E; rewrite E in Hl|by intros E; rewrite E in Hr].
Qed.

Lemma decode_observation_ok record o : Forall is_byte record -> decodeRecord record = Ok o ->
  observation_ok o.
Proof.
  intros Hb. unfold decodeRecord. destruct (Z.of_nat (length record) =? rawEventSize) eqn:Hl; [|done].
  simpl. apply Z.eqb_eq in Hl. unfold rawEventSize in Hl.
  assert (forall i, is_byte (byte_at record i)) as Hat.
  { intros i. unfold byte_at. destruct (record !! i) eqn:E; simpl; [|unfold is_byte; lia].
    by eapply Forall_lookup_1. }
  assert (forall a b, Forall is_byte (slice a b record)) as Hsl.
  { intros. unfold slice. by apply Forall_take, Forall_drop. }
  assert (forall a b, (a <= b <= 80)%nat -> 0 <= le_val (slice a b record) < 256 ^ Z.of_nat (b - a)) as Hval.
  { intros a b Hab. pose proof (le_val_bound _ (Hsl a b)) as H.
    rewrite length_slice in H by lia. done. }
  assert (length (slice 28 44 record) = 16%nat) as H28 by (rewrite length_slice; lia).
  assert (length (slice 44 60 record) = 16%nat) as H44 by (rewrite length_slice; lia).
  unfold decodeAddresses. bool_cases; simpl; intros [= <-]; constructor; simpl; try apply Hat;
    try (apply (Hval 16%nat 20%nat); lia); try (apply (Hval 64%nat 72%nat); lia);
    try (apply (Hval 72%nat 80%nat); lia); right.
  - split; [by rewrite length_take, H28|by apply Forall_take].
  - split; [by rewrite length_take, H44|by apply Forall_take].
  - by split.
  - by split.
Qed.

Section lemmas.
Context {S : Type} {PL : ProcessLookup S}.
Implicit Types (a : Attributor (S := S)) (c : Collector (S := S)).

Lemma attribute_owner_ok a o : attributor_ok a -> in_u 32 (PID o) ->
owner_ok (fst (attribute_owner a o)) /\ attributor_ok (snd (attribute_owner a o)).
Proof.
intros [Hl Hc] Hp. unfold attribute_owner, owner_ok.
destruct (byCgroup a !! CgroupID o) as [ct|] eqn:E; simpl.
- split; [|done]. right; right. split; [done|]. by apply (Hc (CgroupID o)).
- pose proof (lookup_keeps _ (PID o) Hl) as Hk. pose proof (lookup_pid (processes a) (PID o)) as Hpid.
  pose proof (lookup_zero _ Hl) as H0.
  destruct (Lookup (processes a) (PID o)) as [[p|] s'] eqn:EL; simpl in *; (split; [|done]); [|by left].
  right; left. split; [done|]. rewrite (Hpid p Hl eq_refl).
  destruct (decide (PID o = 0)) as [E0|]; [|unfold in_u in Hp; lia].
  by rewrite E0, EL in *.
Qed.

Lemma Attribute_fst a o : fst (Attribute a o) =
MkConnectionDelta (protocolName (Protocol o))
   (MkEndpoint (addr_string (LocalIP o)) (LocalPort o) "" ConfidenceIPOnly)
   (MkEndpoint (addr_string (RemoteIP o)) (RemotePort o) "" ConfidenceIPOnly)
   (fst (attribute_owner a o)) (clampUint64 (Sent o)) (clampUint64 (Received o)) (stateName (State o)).
Proof. unfold Attribute. by destruct (attribute_owner a o). Qed.

Lemma Attribute_snd a o : snd (Attribute a o) = snd (attribute_owner a o).
Proof. unfold Attribute. by destruct (attribute_owner a o). Qed.

Lemma endpoint_made_ok ip port : addr_wf ip -> port <> 0 ->
endpoint_ok (MkEndpoint (addr_string ip) port "" ConfidenceIPOnly).
Proof. intros. split_and!; simpl; [by apply addr_string_ok|done|set_solver]. Qed.

(** The one-step equation of [Observe] in terms of its outcome. *)
Lemma Observe_eq c o :
Observe c o =
match outcome c o with
| None => MkCollector (if complete o then snd (Attribute (attributor c) o) else attributor c)
            (values c) (wrap_u 64 (dropped c + 1))
| Some (key, _, _) =>
    let new := fst (Attribute (attributor c) o) in
    let current := default zero_connection (values c !! key) in
    MkCollector (snd (Attribute (attributor c) o))
      (<[key := MkConnectionDelta (cd_Protocol new) (cd_Local new) (cd_Remote new) (cd_Owner new)
         (saturatingAdd (cd_BytesSent current) (cd_BytesSent new))
         (saturatingAdd (cd_BytesReceived current) (cd_BytesReceived new)) (cd_State new)]> (values c))
      (dropped c)
end.
Proof.
unfold Observe, outcome. destruct (complete o); [|done].
rewrite Nat.ltb_antisym. destruct (Attribute (attributor c) o) as [new a']. cbn [fst snd negb andb].
destruct (values c !! key_of new) as [cur|] eqn:E.
- rewrite bool_decide_true by eauto. simpl. by rewrite E.
- rewrite bool_decide_false by (by intros [? ?]).
  destruct (maxActiveConnections <=? size (values c))%nat; simpl; by rewrite ?E.
Qed.

Lemma outcome_some c o k s r : outcome c o = Some (k, s, r) ->
complete o = true /\ k = key_of (fst (Attribute (attributor c) o)) /\ s = Sent o /\ r = Received o /\
(is_Some (values c !! k) \/ (size (values c) < maxActiveConnections)%nat).
Proof.
unfold outcome. destruct (complete o); simpl; [|done].
case_bool_decide as Hk; simpl.
- intros [= <- <- <-]. naive_solver.
- destruct (Nat.ltb_spec (size (values c)) maxActiveConnections); [|done].
  intros [= <- <- <-]. naive_solver.
Qed.

(** The connection built from a complete observation is valid. *)
Lemma connection_made_ok a o bs br : attributor_ok a -> observation_ok o -> complete o = true ->
0 <= bs -> 0 <= br ->
let new := fst (Attribute a o) in
connection_ok (MkConnectionDelta (cd_Protocol new) (cd_Local new) (cd_Remote new) (cd_Owner new)
                 bs br (cd_State new)).
Proof.
intros Ha Ho (?&?&?&?)%complete_spec Hs Hr new. unfold new. rewrite Attribute_fst.
destruct Ho. unfold in_u in *. unfold connection_ok. simpl.
split_and!; [apply protocolName_nonempty; lia|apply endpoint_made_ok; naive_solver..| |done|done].
by apply attribute_owner_ok.
Qed.

Lemma stored_counts m k : map_Forall stored_ok m ->
0 <= stored_sent m k <= max_i64 /\ 0 <= stored_received m k <= max_i64.
Proof.
intros Hm. unfold stored_sent, stored_received. destruct (m !! k) as [x|] eqn:E; simpl; [|unfold max_i64; lia].
destruct (Hm k x E) as (_ & (_ & _ & _ & _ & ? & ?) & ? & ?). lia.
Qed.

Lemma current_counts m k :
cd_BytesSent (default zero_connection (m !! k)) = stored_sent m k /\
cd_BytesReceived (default zero_connection (m !! k)) = stored_received m k.
Proof. unfold stored_sent, stored_received. by destruct (m !! k). Qed.

Lemma clamp_range v : in_u 64 v -> 0 <= clampUint64 v <= max_i64.
Proof. intros Hv. rewrite clamp_min by done. unfold in_u, max_i64 in *. lia. Qed.

Lemma saturatingAdd_range x y : 0 <= x <= max_i64 -> 0 <= y <= max_i64 ->
0 <= saturatingAdd x y <= max_i64.
Proof. intros. rewrite saturatingAdd_min by done. lia. Qed.

Lemma Observe_ok c o : collector_ok c -> observation_ok o -> collector_ok (Observe c o).
Proof.
intros [Ha Hv Hs] Ho. rewrite Observe_eq. destruct (outcome c o) as [[[k s] r]|] eqn:E.
- apply outcome_some in E as (Hcomp & -> & -> & -> & Hroom). set (k := key_of _) in *.
  destruct (stored_counts (values c) k Hv) as [Hcs Hcr].
  destruct (current_counts (values c) k) as [E1 E2].
  pose proof (clamp_range _ (oo_sent _ Ho)). pose proof (clamp_range _ (oo_received _ Ho)).
  constructor; simpl.
  + rewrite Attribute_snd. apply attribute_owner_ok; [done|apply Ho].
  + apply map_Forall_insert_2; [|done]. rewrite E1, E2.
    unfold stored_ok. rewrite Attribute_fst. simpl. split_and!.
    * unfold k. by rewrite Attribute_fst.
    * pose proof (connection_made_ok (attributor c) o) as Hmk. rewrite Attribute_fst in Hmk. simpl in Hmk.
      apply Hmk; try done; apply saturatingAdd_range; lia.
    * apply saturatingAdd_range; lia.
    * apply saturatingAdd_range; lia.
  + destruct Hroom as [[x Hx]|Hroom].
    * rewrite map_size_insert_Some by eauto. done.
    * rewrite map_size_insert. destruct (values c !! k); simpl; lia.
- constructor; simpl; [|done|done]. destruct (complete o); [|done].
  rewrite Attribute_snd. apply attribute_owner_ok; [done|apply Ho].
Qed.

Lemma observe_all_ok os c : collector_ok c -> Forall observation_ok os -> collector_ok (observe_all c os).
Proof.
intros Hc Ho. unfold observe_all. revert c Hc; induction Ho; intros c Hc; simpl; [done|].
by apply IHHo, Observe_ok.
Qed.

Lemma connection_event_ok at_ k x : at_ <> zero_time -> connection_ok x -> event_ok (connection_event at_ (k, x)).
Proof.
intros Hat Hx. constructor; simpl; try done.
- unfold id_ok. rewrite len_app, len_digest_hex by lia. change (len "connection:") with 11. lia.
- exists (ConnectionP x). split; [done|]. by constructor.
Qed.
End lemmas.

(** ** Totals *)

Section totals.
Context {S : Type} {PL : ProcessLookup S}.
Implicit Types (c : Collector (S := S)).

Lemma stored_sent_insert m k k' x :
stored_sent (<[k := x]> m) k' = if decide (k = k') then cd_BytesSent x else stored_sent m k'.
Proof.
unfold stored_sent. case_decide as E; [subst; by rewrite lookup_insert_eq|by rewrite lookup_insert_ne].
Qed.

Lemma stored_received_insert m k k' x :
stored_received (<[k := x]> m) k' = if decide (k = k') then cd_BytesReceived x else stored_received m k'.
Proof.
unfold stored_received. case_decide as E; [subst; by rewrite lookup_insert_eq|by rewrite lookup_insert_ne].
Qed.

(** One observation adds its bytes, saturating, to the key of its outcome. *)
Lemma Observe_counts c o k : collector_ok c -> observation_ok o ->
stored_sent (values (Observe c o)) k =
  Z.min max_i64 (stored_sent (values c) k + sumZ (sent_to k) (opt_list (outcome c o))) /\
stored_received (values (Observe c o)) k =
  Z.min max_i64 (stored_received (values c) k + sumZ (received_to k) (opt_list (outcome c o))).
Proof.
intros [Ha Hv Hs] Ho. destruct (stored_counts (values c) k Hv) as [Hcs Hcr].
rewrite Observe_eq. destruct (outcome c o) as [[[k' s] r]|] eqn:E; simpl; [|lia].
apply outcome_some in E as (_ & _ & -> & -> & _).
destruct (current_counts (values c) k') as [-> ->].
rewrite stored_sent_insert, stored_received_insert, Attribute_fst. simpl. unfold sent_to, received_to. simpl.
pose proof (clamp_range _ (oo_sent _ Ho)). pose proof (clamp_range _ (oo_received _ Ho)).
case_decide as Hk; [subst k'|lia]. rewrite !saturatingAdd_min by lia.
rewrite !clamp_min by apply Ho. lia.
Qed.

Lemma accepted_nonneg c os x : Forall observation_ok os -> x ∈ accepted c os -> 0 <= x.1.2 /\ 0 <= x.2.
Proof.
intros Ho. revert c; induction Ho as [|o os Ho _ IH]; intros c; simpl; [by intros ?%elem_of_nil|].
rewrite elem_of_app. intros [H|H]; [|by eapply IH].
destruct (outcome c o) as [[[k s] r]|] eqn:E; simpl in H; [|by apply elem_of_nil in H].
apply list_elem_of_singleton in H as ->. apply outcome_some in E as (_ & _ & -> & -> & _).
pose proof (oo_sent _ Ho). pose proof (oo_received _ Ho). unfold in_u in *. simpl. lia.
Qed.

Lemma observe_all_counts c os k : collector_ok c -> Forall observation_ok os ->
stored_sent (values (observe_all c os)) k =
  Z.min max_i64 (stored_sent (values c) k + sumZ (sent_to k) (accepted c os)) /\
stored_received (values (observe_all c os)) k =
  Z.min max_i64 (stored_received (values c) k + sumZ (received_to k) (accepted c os)).
Proof.
intros Hc Ho. revert c Hc; induction Ho as [|o os Ho Hos IH]; intros c Hc; simpl.
{ destruct (stored_counts (values c) k (co_values _ Hc)). lia. }
destruct (IH (Observe c o) (Observe_ok c o Hc Ho)) as [-> ->].
destruct (Observe_counts c o k Hc Ho) as [-> ->]. rewrite !sumZ_app.
assert (0 <= sumZ (sent_to k) (accepted (Observe c o) os)).
{ apply sumZ_nonneg. intros x [? ?]%accepted_nonneg; [|done]. unfold sent_to. case_decide; lia. }
assert (0 <= sumZ (received_to k) (accepted (Observe c o) os)).
{ apply sumZ_nonneg. intros x [? ?]%accepted_nonneg; [|done]. unfold received_to. case_decide; lia. }
lia.
Qed.

Lemma observe_all_keys c os k :
is_Some (values (observe_all c os) !! k) <->
is_Some (values c !! k) \/ k ∈ (fun x => x.1.1) <$> accepted c os.
Proof.
revert c; induction os as [|o os IH]; intros c; simpl.
{ rewrite elem_of_nil. naive_solver. }
unfold observe_all in IH |- *. simpl. rewrite IH, fmap_app, elem_of_app, Observe_eq.
destruct (outcome c o) as [[[k' s] r]|] eqn:E; simpl.
- rewrite lookup_insert_is_Some', elem_of_cons, elem_of_nil. naive_solver.
- rewrite elem_of_nil. naive_solver.
Qed.

Lemma observe_all_dropped c os : in_u 64 (dropped c) ->
dropped (observe_all c os) =
wrap_u 64 (dropped c + Z.of_nat (length os) - Z.of_nat (length (accepted c os))).
Proof.
revert c; induction os as [|o os IH]; intros c Hd; simpl; [by rewrite wrap_u_id; [lia|]; unfold in_u in *; lia|].
unfold observe_all in *. simpl. rewrite IH, length_app; rewrite Observe_eq;
  destruct (outcome c o) as [[[k s] r]|] eqn:E; cbn [dropped opt_list length]; try done.
- f_equal. lia.
- unfold wrap_u. rewrite <- Z.add_sub_assoc, Zplus_mod_idemp_l. f_equal. lia.
- by apply wrap_u_range.
Qed.
End totals.

(** ** Properties *)

(** Every event drained is accepted by batch validation: whatever records the
    decoder accepted were observed since, in whatever order the map is visited, the
    drained events are valid, at most 4096, and the collector is left empty with its
    invariant intact.  The owner of a process is a positive pid, a container owner
    has an identifier, and the printed addresses parse. *)
Theorem drained_events_valid {S} {PL : ProcessLookup S} c records os observedAt visit :
  collector_ok c -> Forall (Forall is_byte) records ->
  Forall2 (fun r o => decodeRecord r = Ok o) records os -> observedAt <> zero_time ->
  visit ≡ₚ map_to_list (values (observe_all c os)) ->
  let '(events, c') := Drain (observe_all c os) observedAt visit in
  Forall event_ok events /\ (length events <= 4096)%nat /\ values c' = ∅ /\ collector_ok c'.
Proof.
  intros Hc Hb Hd Hat Hv. simpl.
  assert (Forall observation_ok os) as Ho.
  { clear -Hb Hd. induction Hd; [constructor|]. apply Forall_cons_iff in Hb as [? ?].
    constructor; [by eapply decode_observation_ok|auto]. }
  pose proof (observe_all_ok os c Hc Ho) as [Ha Hvals Hsize]. split_and!; [| |done|].
  - apply Forall_fmap. rewrite Hv. apply Forall_forall. intros [k x] Hin. simpl.
    apply elem_of_map_to_list in Hin. apply connection_event_ok; [done|]. by destruct (Hvals k x Hin) as (_ & ? & _).
  - rewrite length_fmap, Hv, length_map_to_list. unfold maxActiveConnections in Hsize. lia.
  - constructor; simpl; [done|apply map_Forall_empty|]. rewrite map_size_empty. unfold maxActiveConnections. lia.
Qed.

(** The collector accounts for every byte: after any observations, a connection
    is stored at exactly the keys of the accepted ones, its counts are the sums of
    their 64-bit counts saturated at [MaxInt64], and every observation that was not
    accepted is in the drop counter.  An observation is only dropped when it is
    incomplete or opens a connection beyond the 4096th. *)
Theorem collector_accounts {S} {PL : ProcessLookup S} (a : Attributor (S := S)) os :
  attributor_ok a -> Forall observation_ok os ->
  let c := observe_all (NewCollector a) os in
  let acc := accepted (NewCollector a) os in
  (forall k, values c !! k = None <-> k ∉ (fun x => x.1.1) <$> acc) /\
  (forall k x, values c !! k = Some x ->
     key_of x = k /\ cd_BytesSent x = Z.min max_i64 (sumZ (sent_to k) acc) /\
     cd_BytesReceived x = Z.min max_i64 (sumZ (received_to k) acc)) /\
  dropped c = wrap_u 64 (Z.of_nat (length os) - Z.of_nat (length acc)) /\
  (size (values c) <= 4096)%nat.
Proof.
  intros Ha Ho c acc.
  assert (collector_ok (NewCollector a)) as Hc.
  { constructor; simpl; [done|apply map_Forall_empty|]. rewrite map_size_empty. unfold maxActiveConnections. lia. }
  pose proof (observe_all_ok os _ Hc Ho) as [_ Hvals Hsize]. split_and!.
  - intros k. rewrite eq_None_not_Some. unfold c. rewrite observe_all_keys. simpl.
    rewrite lookup_empty. split; [naive_solver|]. by intros Hn [[? ?]|?].
  - intros k x Hx. destruct (observe_all_counts _ os k Hc Ho) as [Es Er].
    unfold stored_sent, stored_received in Es, Er. simpl in Es, Er. fold c acc in Es, Er.
    rewrite Hx, lookup_empty in Es, Er. simpl in Es, Er.
    by destruct (Hvals k x Hx) as [? _].
  - unfold c. rewrite observe_all_dropped by (unfold in_u; simpl; lia). done.
  - unfold maxActiveConnections in Hsize. unfold c. lia.
Qed.

(** An observation is attributed to the container of its control group when
    the inventory knows it, else to the very process it names when the process table
    does, else to the host; and the connection keeps what was observed: its addresses
    parse back to the observed ones, its ports are the observed ports, its counts the
    observed counts clamped to [int64]. *)
Theorem attribution {S} {PL : ProcessLookup S} (a : Attributor (S := S)) o ipl ipr :
  attributor_ok a -> observation_ok o -> to_ip (LocalIP o) = Some ipl -> to_ip (RemoteIP o) = Some ipr ->
  let conn := fst (Attribute a o) in
  cd_Owner conn =
    match byCgroup a !! CgroupID o, fst (Lookup (processes a) (PID o)) with
    | Some ct, _ => MkOwnerRef OwnerContainer 0 "" (ct_ID ct) (ct_Name ct)
    | None, Some p => MkOwnerRef OwnerProcess (PID o) (ps_Name p) "" ""
    | None, None => MkOwnerRef OwnerHost 0 "" "" ""
    end /\
  ParseAddr (ep_IP (cd_Local conn)) = Some ipl /\ ParseAddr (ep_IP (cd_Remote conn)) = Some ipr /\
  ep_Port (cd_Local conn) = LocalPort o /\ ep_Port (cd_Remote conn) = RemotePort o /\
  cd_BytesSent conn = Z.min max_i64 (Sent o) /\ cd_BytesReceived conn = Z.min max_i64 (Received o).
Proof.
  intros [Hl _] Ho El Er conn. unfold conn. rewrite Attribute_fst. simpl.
  rewrite !clamp_min by apply Ho.
  assert (addr_wf (LocalIP o)) by (destruct (oo_local _ Ho) as [E|?]; [by rewrite E in El|done]).
  assert (addr_wf (RemoteIP o)) by (destruct (oo_remote _ Ho) as [E|?]; [by rewrite E in Er|done]).
  rewrite !parse_addr_string by done.
  split_and!; try done. unfold attribute_owner.
  destruct (byCgroup a !! CgroupID o); [done|].
  pose proof (lookup_pid (processes a) (PID o)) as Hp.
  destruct (Lookup (processes a) (PID o)) as [[p|] s']; [|done]. simpl. by rewrite (Hp p Hl eq_refl).
Qed.

(** An inventory snapshot becomes one valid event per container, in ascending
    order of identifier, carrying that container's data. *)
Theorem inventory_events snapshot observedAt :
  snapshot_ok snapshot -> observedAt <> zero_time ->
  Forall event_ok (InventoryEvents snapshot observedAt) /\
  exists ids, StronglySorted str_le ids /\ NoDup ids /\
    Forall2 (fun id e => exists ct, ByID snapshot !! id = Some ct /\ e = inventory_event observedAt id ct)
      ids (InventoryEvents snapshot observedAt) /\
    (forall id, id ∈ ids <-> is_Some (ByID snapshot !! id)).
Proof.
  intros [_ Hs] Hat. unfold InventoryEvents.
  assert (forall id, id ∈ sort_strings (map_to_list (ByID snapshot)).*1 <-> is_Some (ByID snapshot !! id)) as Hin.
  { intros id. rewrite sort_strings_perm, list_elem_of_fmap. split.
    - intros ([i ct] & -> & H%elem_of_map_to_list). by exists ct.
    - intros [ct Hct]. exists (id, ct). by rewrite elem_of_map_to_list. }
  assert (Forall2 (fun id e => exists ct, ByID snapshot !! id = Some ct /\ e = inventory_event observedAt id ct)
    (sort_strings (map_to_list (ByID snapshot)).*1)
    (omap (fun id => inventory_event observedAt id <$> ByID snapshot !! id)
       (sort_strings (map_to_list (ByID snapshot)).*1))) as H2.
  { assert (Forall (fun id => is_Some (ByID snapshot !! id)) (sort_strings (map_to_list (ByID snapshot)).*1)) as Hall
      by (apply Forall_forall; intros; by apply Hin).
    clear Hin. induction Hall as [|id ids [ct E] _ IH]; simpl; [constructor|]. rewrite E. simpl. constructor; [by exists ct|exact IH]. }
  split.
  - clear Hin. induction H2 as [|id e ids es (ct & E & ->) _ IH]; constructor; [|done].
    destruct (Hs id ct E) as (Hid & Haddr & Hport). constructor; simpl; try done.
    + unfold id_ok. rewrite len_app, len_digest_hex by lia. change (len "owner:") with 6. lia.
    + eexists (InventoryP _). split; [done|]. constructor; [done|]. split_and!; simpl; [|done|done].
      right; right. done.
  - exists (sort_strings (map_to_list (ByID snapshot)).*1).
    split_and!; [apply sort_strings_sorted|rewrite sort_strings_perm; apply NoDup_fst_map_to_list|done|done].
Qed.

(** ** Witnesses *)

Module OwnerSample.
(** A process table that knows process 42. *)
Definition table (pid : Z) : option Process :=
if pid =? 42 then Some (MkProcess 42 "curl" "/user.slice" 7) else None.

Lemma table_pid pid p : table pid = Some p -> ps_PID p = pid.
Proof. unfold table. destruct (Z.eqb_spec pid 42); [|done]. by intros [= <-]. Qed.

#[export] Instance table_lookup : ProcessLookup unit := {|
Lookup := fun _ pid => (table pid, tt);
lookup_ok := fun _ => True;
lookup_keeps := fun _ _ _ => I;
lookup_pid := fun _ pid p _ H => table_pid pid p H;
lookup_zero := fun _ _ => eq_refl |}.

Definition observation : Observation :=
MkObservation 1 77 42 6 (Addr4 [10; 0; 0; 2]) (Addr4 [203; 0; 113; 10]) 42000 443 100 200 1.

Definition record : list Z :=
[1; 0; 0; 0; 0; 0; 0; 0] ++ [77; 0; 0; 0; 0; 0; 0; 0] ++ [42; 0; 0; 0] ++ [2; 6; 1; 0] ++
[164; 16] ++ [1; 187] ++ [10; 0; 0; 2; 0; 0; 0; 0; 0; 0; 0; 0; 0; 0; 0; 0] ++
[203; 0; 113; 10; 0; 0; 0; 0; 0; 0; 0; 0; 0; 0; 0; 0] ++ [0; 0; 0; 0] ++
[100; 0; 0; 0; 0; 0; 0; 0] ++ [200; 0; 0; 0; 0; 0; 0; 0].

Lemma record_decodes : decodeRecord record = Ok observation.
Proof. reflexivity. Qed.

Lemma record_bytes : Forall is_byte record.
Proof. repeat constructor; unfold is_byte; lia. Qed.

Lemma observation_fine : observation_ok observation.
Proof. apply (decode_observation_ok record); [apply record_bytes|reflexivity]. Qed.

Definition fresh : Attributor (S := unit) := NewAttributor tt.

Lemma fresh_ok : attributor_ok fresh.
Proof. split; [exact I|apply map_Forall_empty]. Qed.

Lemma new_ok : collector_ok (NewCollector fresh).
Proof.
constructor; simpl; [apply fresh_ok|apply map_Forall_empty|].
rewrite map_size_empty. unfold maxActiveConnections. lia.
Qed.

Definition web : Container := MkContainer "container-id" "web" 77 ["172.18.0.3"] [9000] true.
Definition snapshot : Snapshot := MkSnapshot {[ 77 := web ]} {[ "container-id" := web ]} ∅.

Lemma web_ok : container_ok web.
Proof.
split_and!; simpl; [done|repeat constructor; eexists; vm_compute; reflexivity|repeat constructor; lia].
Qed.

Lemma snapshot_fine : snapshot_ok snapshot.
Proof.
split; intros i x H; unfold snapshot in H; simpl in H; apply lookup_singleton_Some in H as [_ <-]; apply web_ok.
Qed.
End OwnerSample.
Import OwnerSample.

Lemma drained_events_valid_witness :
  let c := observe_all (NewCollector fresh) [observation; observation] in
  let '(events, c') := Drain c Second (map_to_list (values c)) in
  Forall event_ok events /\ (length events <= 4096)%nat /\ values c' = ∅ /\ collector_ok c'.
Proof.
  apply (drained_events_valid (NewCollector fresh) [record; record] [observation; observation] Second).
  - apply new_ok.
  - repeat constructor; unfold is_byte; lia.
  - repeat constructor.
  - by vm_compute.
  - reflexivity.
Defined.

(** Two observations of one connection are one stored connection with their sum. *)
Lemma collector_accounts_witness :
  let c := observe_all (NewCollector fresh) [observation; observation] in
  let acc := accepted (NewCollector fresh) [observation; observation] in
  length acc = 2%nat /\
  forall k x, values c !! k = Some x -> cd_BytesSent x = Z.min max_i64 (sumZ (sent_to k) acc).
Proof.
  intros c acc. split; [vm_compute; reflexivity|]. intros k x Hx.
  destruct (collector_accounts fresh [observation; observation] fresh_ok) as (_ & H & _).
  - do 2 (constructor; [apply observation_fine|]). constructor.
  - by destruct (H k x Hx) as (_ & ? & _).
Defined.

Lemma attribution_witness :
  cd_Owner (fst (Attribute fresh observation)) = MkOwnerRef OwnerProcess 42 "curl" "" "".
Proof.
  destruct (attribution fresh observation (IPv4 [10; 0; 0; 2]) (IPv4 [203; 0; 113; 10])
              fresh_ok observation_fine eq_refl eq_refl) as [H _].
  exact H.
Defined.

Lemma inventory_events_witness : Forall event_ok (InventoryEvents snapshot Second).
Proof. apply (inventory_events snapshot Second snapshot_fine). by vm_compute. Defined.
