(* ===== verification/Tls.v ===== *)
(** * Server names in TLS ClientHello messages

    [internal/agent/namecapture/tls.go].  Slicing and indexing out of range panic
    in Go: here they are the error [Panic], so that their absence is a theorem,
    and so is that the loops end ([OutOfFuel] never happens). *)

From stdpp Require Import base strings numbers list.
From Stdlib Require Import Ascii.
From S2P Require Import Prelude GoBase GoText.

Open Scope Z_scope.
Local Open Scope flow_scope.

Inductive tls_error : Type :=
| Message (m : string)
| Panic
| OutOfFuel.

Definition fails {A} (m : string) : result tls_error A := Err (Message m).

(** [b[i]] *)
Definition index (b : list Z) (i : nat) : result tls_error Z :=
  match b !! i with Some x => Ok x | None => Err Panic end.

(** [b[i:j]] *)
Definition subslice (b : list Z) (i j : nat) : result tls_error (list Z) :=
  if ((i <=? j) && (j <=? length b))%nat then Ok (slice i j b) else Err Panic.

(** [int(binary.BigEndian.Uint16(b[i : i+2]))] *)
Definition uint16_at (b : list Z) (i : nat) : result tls_error nat :=
  let* s := subslice b i (i + 2) in Ok (Z.to_nat (be_val s)).

Definition maxClientHelloBytes : Z := 64 * 1024.

(** ** Names *)

Definition contains_any (bad : list Z) (s : list ascii) : bool :=
  existsb (fun c => bool_decide (code c ∈ bad)) s.

(** The rune test on a byte: bytes of multi-byte runes fail it, as their runes do. *)
Definition label_char (c : ascii) : bool :=
  let z := code c in ((97 <=? z) && (z <=? 122)) || ((48 <=? z) && (z <=? 57)) || (z =? 45).

Definition is_hyphen (c : ascii) : bool := code c =? 45.

Definition valid_label (label : list ascii) : bool :=
  match label, last label with
  | c :: _, Some d =>
      (length label <=? 63)%nat && negb (is_hyphen c) && negb (is_hyphen d) && forallb label_char label
  | _, _ => false
  end.

Definition validServerName (name : string) : bool :=
  negb (String.eqb name "" || (253 <? len name) || contains_any [32; 9; 13; 10; 0] (chars name)) &&
  forallb valid_label (split_chars 46 (chars name)).

Section tls.
(** [strings.ToLower] outside ASCII *)
Variable unicode_lower : string -> string.

(** ** [parseServerName] *)

Fixpoint server_names (fuel : nat) (extension : list Z) (offset : nat) : result tls_error (option string) :=
if (offset <? length extension)%nat then
match fuel with
| O => Err OutOfFuel
| S fuel' =>
    if (length extension - offset <? 3)%nat then fails "truncated TLS server name"
    else
      let* nameType := index extension offset in
      let* nameLength := uint16_at extension (offset + 1) in
      let offset := (offset + 3)%nat in
      if (length extension - offset <? nameLength)%nat then fails "truncated TLS server name value"
      else if nameType =? 0 then
        let* raw := subslice extension offset (offset + nameLength) in
        let name := to_lower unicode_lower (trim_suffix_dot (string_of_bytes raw)) in
        if negb (validServerName name) then fails "invalid TLS server name"
        else Ok (Some name)
      else server_names fuel' extension (offset + nameLength)
end
else Ok None.

Definition parseServerName (extension : list Z) : result tls_error (option string) :=
if (length extension <? 2)%nat then fails "truncated TLS server name list"
else
let* listLength := uint16_at extension 0 in
if negb (listLength =? length extension - 2)%nat then fails "invalid TLS server name list length"
else server_names (length extension) extension 2.

(** ** [parseClientHello] *)

(** The loop over the extensions up to [end_]. *)
Fixpoint extensions (fuel : nat) (body : list Z) (offset end_ : nat) : result tls_error (option string) :=
if (offset <? end_)%nat then
match fuel with
| O => Err OutOfFuel
| S fuel' =>
    if (end_ - offset <? 4)%nat then fails "truncated TLS extension header"
    else
      let* extensionType := uint16_at body offset in
      let* extensionLength := uint16_at body (offset + 2) in
      let offset := (offset + 4)%nat in
      if (end_ - offset <? extensionLength)%nat then fails "truncated TLS extension body"
      else if (extensionType =? 0)%nat then
        let* ext := subslice body offset (offset + extensionLength) in
        parseServerName ext
      else extensions fuel' body (offset + extensionLength) end_
end
else Ok None.

Definition parseClientHello (body : list Z) : result tls_error (option string) :=
let offset := 34%nat in
if (length body <? offset + 1)%nat then fails "truncated TLS ClientHello random"
else
let* session := index body offset in
let sessionLength := Z.to_nat session in
let offset := (offset + 1)%nat in
if (length body <? offset + sessionLength + 2)%nat then fails "truncated TLS ClientHello session"
else
  let offset := (offset + sessionLength)%nat in
  let* cipherLength := uint16_at body offset in
  let offset := (offset + 2)%nat in
  if ((cipherLength =? 0) || negb (cipherLength mod 2 =? 0) ||
      (length body <? offset + cipherLength + 1))%nat
  then fails "invalid TLS ClientHello cipher suites"
  else
    let offset := (offset + cipherLength)%nat in
    let* compression := index body offset in
    let compressionLength := Z.to_nat compression in
    let offset := (offset + 1)%nat in
    if (length body <? offset + compressionLength)%nat then fails "truncated TLS ClientHello compression"
    else
      let offset := (offset + compressionLength)%nat in
      if (offset =? length body)%nat then Ok None
      else if (length body <? offset + 2)%nat then fails "truncated TLS ClientHello extensions"
      else
        let* extensionsLength := uint16_at body offset in
        let offset := (offset + 2)%nat in
        if (length body - offset <? extensionsLength)%nat then fails "truncated TLS ClientHello extensions"
        else extensions (length body) body offset (offset + extensionsLength).

(** ** [ExtractSNI] *)

(** The loop over the records: the handshake bytes collected. *)
Fixpoint records (fuel : nat) (payload : list Z) (offset : nat) (handshake : list Z)
: result tls_error (list Z) :=
if (offset <? length payload)%nat then
match fuel with
| O => Err OutOfFuel
| S fuel' =>
    if (length payload - offset <? 5)%nat then fails "truncated TLS record header"
    else
      let* length_ := uint16_at payload (offset + 3) in
      let offset := (offset + 5)%nat in
      if (length payload - offset <? length_)%nat then fails "truncated TLS record body"
      else
        let* type_ := index payload (offset - 5) in
        if type_ =? 22 then
          let* part := subslice payload offset (offset + length_) in
          let handshake := handshake ++ part in
          if maxClientHelloBytes <? Z.of_nat (length handshake)
          then fails "TLS ClientHello exceeds 64 KiB"
          else records fuel' payload (offset + length_) handshake
        else records fuel' payload (offset + length_) handshake
end
else Ok handshake.

Definition ExtractSNI (payload : list Z) : result tls_error (option string) :=
if maxClientHelloBytes <? Z.of_nat (length payload) then fails "TLS ClientHello exceeds 64 KiB"
else
let* handshake := records (length payload) payload 0 [] in
if (length handshake <? 4)%nat then fails "missing TLS handshake header"
else
  let* first := index handshake 0 in
  if negb (first =? 1) then Ok None
  else
    let* b1 := index handshake 1 in
    let* b2 := index handshake 2 in
    let* b3 := index handshake 3 in
    let handshakeLength := Z.lor (Z.lor (Z.shiftl b1 16) (Z.shiftl b2 8)) b3 in
    if maxClientHelloBytes - 4 <? handshakeLength then fails "TLS ClientHello exceeds 64 KiB"
    else if Z.of_nat (length handshake) <? 4 + handshakeLength then fails "truncated TLS ClientHello"
    else
      let* body := subslice handshake 4 (4 + Z.to_nat handshakeLength) in
      parseClientHello body.
End tls.

(** ** Specification *)

Definition label_ok (l : list ascii) : Prop :=
  (1 <= length l <= 63)%nat /\ Forall (fun c => label_char c = true) l /\
  (forall c, head l = Some c -> is_hyphen c = false) /\ (forall c, last l = Some c -> is_hyphen c = false).

Fixpoint join_dots (ls : list (list ascii)) : list ascii :=
  match ls with
  | [] => []
  | [l] => l
  | l :: ls' => l ++ char_of 46 :: join_dots ls'
  end.

(** A host name: dot-separated labels of letters, digits and inner hyphens. *)
Definition host_name (name : string) : Prop :=
  1 <= len name <= 253 /\
  exists labels, labels <> [] /\ chars name = join_dots labels /\ Forall label_ok labels.

(** A result the code can return. *)
Definition returns {A} (r : result tls_error A) : Prop :=
  match r with Err Panic | Err OutOfFuel => False | _ => True end.

(** *** Wire format *)

Definition be16 (n : nat) : list Z := be_bytes 2 (Z.of_nat n).

Definition name_entry (e : Z * list Z) : list Z := e.1 :: be16 (length e.2) ++ e.2.
Definition extension_bytes (e : nat * list Z) : list Z := be16 e.1 ++ be16 (length e.2) ++ e.2.

(** A ClientHello that names a server: extensions and name entries of other types
    may precede the name, anything may follow it. *)
Record client_hello : Type := MkHello {
  ch_version_random : list Z; ch_session : list Z; ch_ciphers : list Z; ch_compression : list Z;
  ch_before : list (nat * list Z); ch_entries : list (Z * list Z); ch_name : list Z;
  ch_entries_after : list Z; ch_after : list Z }.

Definition name_list (h : client_hello) : list Z :=
  (ch_entries h ≫= name_entry) ++ name_entry (0, ch_name h) ++ ch_entries_after h.

Definition sni_extension (h : client_hello) : list Z := be16 (length (name_list h)) ++ name_list h.

Definition extension_list (h : client_hello) : list Z :=
  (ch_before h ≫= extension_bytes) ++ extension_bytes (0%nat, sni_extension h) ++ ch_after h.

Definition hello_body (h : client_hello) : list Z :=
  ch_version_random h ++ Z.of_nat (length (ch_session h)) :: ch_session h ++
  be16 (length (ch_ciphers h)) ++ ch_ciphers h ++
  Z.of_nat (length (ch_compression h)) :: ch_compression h ++
  be16 (length (extension_list h)) ++ extension_list h.

Definition hello_message (h : client_hello) : list Z :=
  1 :: be_bytes 3 (Z.of_nat (length (hello_body h))) ++ hello_body h.

Definition small (n : nat) : Prop := Z.of_nat n < 65536.

Record hello_ok (h : client_hello) : Prop := {
  hk_random : length (ch_version_random h) = 34%nat;
  hk_session : (length (ch_session h) < 256)%nat;
  hk_ciphers : (0 < length (ch_ciphers h))%nat /\ (length (ch_ciphers h) mod 2 = 0)%nat /\
               small (length (ch_ciphers h));
  hk_compression : (length (ch_compression h) < 256)%nat;
  hk_before : Forall (fun e => (0 < e.1)%nat /\ small e.1) (ch_before h);
  hk_entries : Forall (fun e => 0 < e.1 < 256) (ch_entries h);
  hk_name : Forall is_byte (ch_name h);
  hk_size : Z.of_nat (length (hello_body h)) <= maxClientHelloBytes - 4 }.

(** TLS records: content type, version, fragment. *)
Record tls_record : Type := MkRecord { rec_type : Z; rec_version : list Z; rec_data : list Z }.

Definition record_bytes (r : tls_record) : list Z :=
  rec_type r :: rec_version r ++ be16 (length (rec_data r)) ++ rec_data r.

Definition record_ok (r : tls_record) : Prop :=
  length (rec_version r) = 2%nat /\ small (length (rec_data r)).

Definition handshake_data (r : tls_record) : list Z := if rec_type r =? 22 then rec_data r else [].

Definition stream (rs : list tls_record) : list Z := rs ≫= record_bytes.

(** ** Lemmas: access *)

Lemma index_at b pre x rest i : b = pre ++ x :: rest -> i = length pre -> index b i = Ok x.
Proof. intros -> ->. unfold index. by rewrite list_lookup_middle. Qed.

Lemma subslice_at b pre mid rest i j :
  b = pre ++ mid ++ rest -> i = length pre -> j = (i + length mid)%nat -> subslice b i j = Ok mid.
Proof.
  intros -> -> ->. unfold subslice. rewrite slice_app_mid by done.
  rewrite !length_app, !(proj2 (Nat.leb_le _ _)) by lia. done.
Qed.

Lemma length_be16 n : length (be16 n) = 2%nat.
Proof. apply length_be_bytes. Qed.

Lemma uint16_at_eq b pre n rest i :
  b = pre ++ be16 n ++ rest -> i = length pre -> small n -> uint16_at b i = Ok n.
Proof.
  intros Hb Hi Hn. unfold uint16_at. rewrite (subslice_at b pre (be16 n) rest) by (done || by rewrite length_be16).
  simpl. unfold be16, small in *. rewrite be_bytes_be_val by (simpl; lia). f_equal. lia.
Qed.

Lemma index_ok b i : (i < length b)%nat -> exists x, index b i = Ok x.
Proof. intros [x Hx]%lookup_lt_is_Some. unfold index. rewrite Hx. eauto. Qed.

Lemma subslice_ok b i j : (i <= j <= length b)%nat -> exists s, subslice b i j = Ok s /\ length s = (j - i)%nat.
Proof.
  intros H. unfold subslice. rewrite !(proj2 (Nat.leb_le _ _)) by lia.
  eexists. split; [done|]. by rewrite length_slice by lia.
Qed.

Lemma uint16_at_ok b i : (i + 2 <= length b)%nat -> exists n, uint16_at b i = Ok n.
Proof. intros H. unfold uint16_at. destruct (subslice_ok b i (i + 2)) as (s & -> & _); [lia|]. by eexists. Qed.

(** Runs a checked access whose bounds the preceding guards established. *)
Ltac access :=
  match goal with
  | |- returns (result_bind (index ?b ?i) _) =>
      let x := fresh "x" in let E := fresh "E" in
      destruct (index_ok b i) as [x E]; [lia|rewrite E; cbn [result_bind]]
  | |- returns (result_bind (uint16_at ?b ?i) _) =>
      let x := fresh "n" in let E := fresh "E" in
      destruct (uint16_at_ok b i) as [x E]; [lia|rewrite E; cbn [result_bind]]
  | |- returns (result_bind (subslice ?b ?i ?j) _) =>
      let x := fresh "s" in let E := fresh "E" in let L := fresh "L" in
      destruct (subslice_ok b i j) as (x & E & L); [lia|rewrite E; cbn [result_bind]]
  end.

(** Splits on the next check_guard. *)
Ltac check_guard :=
  cbv zeta;
  match goal with
  | |- returns (if (?a <? ?b)%nat then _ else _) => destruct (Nat.ltb_spec a b); [try exact I|]
  | |- returns (if (?a =? ?b)%nat then _ else _) => destruct (Nat.eqb_spec a b); [try exact I|]
  | |- returns (if (?a =? ?b) then _ else _) => destruct (Z.eqb_spec a b); [try exact I|]
  | |- returns (if (?a <? ?b) then _ else _) => destruct (Z.ltb_spec a b); [try exact I|]
  | |- returns (if negb ?b then _ else _) => destruct b; cbn [negb]; [|exact I]
  end.

Section safety.
Variable unicode_lower : string -> string.

Lemma server_names_returns fuel ext offset :
(length ext - offset <= fuel)%nat -> returns (server_names unicode_lower fuel ext offset).
Proof.
revert offset; induction fuel as [|fuel IH]; intros offset Hf; simpl;
  (destruct (Nat.ltb_spec offset (length ext)); [|exact I]); [lia|].
check_guard. access. access. check_guard. check_guard; [|apply IH; lia]. access. by check_guard.
Qed.

Lemma parseServerName_returns ext : returns (parseServerName unicode_lower ext).
Proof.
unfold parseServerName. check_guard. access.
destruct (n =? length ext - 2)%nat; cbn [negb]; [|exact I]. apply server_names_returns. lia.
Qed.

Lemma extensions_returns fuel body offset end_ :
(end_ <= length body)%nat -> (end_ - offset <= fuel)%nat ->
returns (extensions unicode_lower fuel body offset end_).
Proof.
revert offset; induction fuel as [|fuel IH]; intros offset He Hf; simpl;
  (destruct (Nat.ltb_spec offset end_); [|exact I]); [lia|].
check_guard. access. access. check_guard. check_guard; [|apply IH; lia]. access. apply parseServerName_returns.
Qed.

Lemma parseClientHello_returns body : returns (parseClientHello unicode_lower body).
Proof.
unfold parseClientHello. check_guard. access. check_guard. access.
destruct ((n =? 0) || negb (n mod 2 =? 0))%nat; simpl orb; cbv iota; [exact I|].
check_guard. access. check_guard. check_guard. check_guard. access. check_guard. apply extensions_returns; lia.
Qed.

Lemma records_returns fuel payload offset hs :
(length payload - offset <= fuel)%nat -> returns (records fuel payload offset hs).
Proof.
revert offset hs; induction fuel as [|fuel IH]; intros offset hs Hf; simpl;
  (destruct (Nat.ltb_spec offset (length payload)); [|exact I]); [lia|].
check_guard. access. check_guard. access. destruct (x =? 22); [|apply IH; lia]. access.
check_guard. apply IH. lia.
Qed.
End safety.

(** ** Lemmas: names *)

Lemma split_chars_cons sep cs : split_chars sep cs <> [].
Proof. destruct cs as [|c cs]; simpl; [done|]. destruct (code c =? sep); [done|]. by destruct (split_chars sep cs). Qed.

Lemma join_split cs : join_dots (split_chars 46 cs) = cs.
Proof.
  induction cs as [|c cs IH]; [done|]. simpl. destruct (Z.eqb_spec (code c) 46) as [E|E].
  - pose proof (split_chars_cons 46 cs). destruct (split_chars 46 cs) as [|l ls]; [done|].
    change (join_dots ([] :: l :: ls)) with (char_of 46 :: join_dots (l :: ls)). rewrite IH.
    f_equal. apply code_inj. rewrite E. reflexivity.
  - pose proof (split_chars_cons 46 cs). destruct (split_chars 46 cs) as [|l ls]; [done|].
    destruct ls as [|l' ls]; simpl in *; by rewrite <- IH.
Qed.

Lemma split_word_more l rest : Forall (fun c => (code c =? 46) = false) l ->
  split_chars 46 (l ++ char_of 46 :: rest) = l :: split_chars 46 rest.
Proof. intros Hl. by apply split_chars_app. Qed.

Lemma split_join ls : ls <> [] -> Forall (Forall (fun c => (code c =? 46) = false)) ls ->
  split_chars 46 (join_dots ls) = ls.
Proof.
  intros Hn Hl. induction Hl as [|l ls Hl _ IH]; [done|]. destruct ls as [|l' ls]; [by apply split_chars_word|].
  change (join_dots (l :: l' :: ls)) with (l ++ char_of 46 :: join_dots (l' :: ls)).
  by rewrite split_word_more, IH.
Qed.

Lemma valid_label_ok l : valid_label l = true <-> label_ok l.
Proof.
  unfold valid_label, label_ok. destruct l as [|c l]; [simpl; split; [done|lia]|].
  destruct (last (c :: l)) as [d|] eqn:E; [|by apply last_None in E].
  rewrite !andb_true_iff, !negb_true_iff, Nat.leb_le.
  rewrite (forallb_Forall_iff _ (fun c => label_char c = true)) by done. simpl head.
  split.
  - intros (((? & ?) & ?) & ?). split; [simpl in *; lia|]. split_and!; [done|naive_solver|naive_solver].
  - intros (? & ? & Hh & Hl). split_and!; [lia|by apply Hh|by apply Hl|done].
Qed.

Lemma label_char_facts c : label_char c = true ->
  (code c =? 46) = false /\ (code c ∉ [32; 9; 13; 10; 0]) /\ (code c <? 128) = true /\ lower_char c = c.
Proof.
  unfold label_char, lower_char. intros H.
  assert (97 <= code c <= 122 \/ 48 <= code c <= 57 \/ code c = 45) as Hc.
  { rewrite !orb_true_iff, !andb_true_iff, !Z.leb_le, Z.eqb_eq in H. lia. }
  split_and!; [lia| |lia|].
  - rewrite !elem_of_cons, elem_of_nil. lia.
  - rewrite (proj2 (andb_false_iff _ _)); [done|]. rewrite !Z.leb_gt. lia.
Qed.

Lemma join_dots_forall (P : ascii -> Prop) ls : P (char_of 46) -> Forall (Forall P) ls -> Forall P (join_dots ls).
Proof.
  intros Hdot. induction 1 as [|l ls Hl _ IH]; [constructor|]. destruct ls as [|l' ls]; [done|].
  change (join_dots (l :: l' :: ls)) with (l ++ char_of 46 :: join_dots (l' :: ls)).
  apply Forall_app. split; [done|]. by constructor.
Qed.

Lemma labels_forall (P : ascii -> Prop) ls :
  (forall c, label_char c = true -> P c) -> Forall label_ok ls -> Forall (Forall P) ls.
Proof.
  intros HP Hl. eapply Forall_impl; [exact Hl|]. intros l (_ & H & _). by eapply Forall_impl.
Qed.

Lemma validServerName_ok name : validServerName name = true <-> host_name name.
Proof.
  unfold validServerName, host_name.
  rewrite andb_true_iff, negb_true_iff, !orb_false_iff, String.eqb_neq, Z.ltb_ge,
    (forallb_Forall_iff _ label_ok) by apply valid_label_ok.
  split.
  - intros (((Hn & Hl) & _) & Hs). split.
    + assert (len name <> 0); [|pose proof (len_nonneg name); lia]. by destruct name.
    + exists (split_chars 46 (chars name)). rewrite join_split. split_and!; [apply split_chars_cons|done|done].
  - intros ([H1 H2] & labels & Hne & Ec & Hl). split_and!.
    + by intros ->.
    + done.
    + rewrite Ec. unfold contains_any. apply not_true_is_false. intros Hex%existsb_exists.
      destruct Hex as (c & Hin%list_elem_of_In & Hc%bool_decide_eq_true).
      assert (Forall (fun c => code c ∉ [32; 9; 13; 10; 0]) (join_dots labels)) as Hall.
      { apply join_dots_forall; [rewrite !elem_of_cons, elem_of_nil; vm_compute code; lia|].
        apply labels_forall; [|done]. by intros x (_ & ? & _)%label_char_facts. }
      rewrite Forall_forall in Hall. by apply (Hall c Hin).
    + rewrite Ec, split_join; [done|done|]. apply labels_forall; [|done].
      by intros x (? & _)%label_char_facts.
Qed.

Lemma string_of_bytes_codes s : string_of_bytes (code <$> chars s) = s.
Proof.
  unfold string_of_bytes. rewrite <- list_fmap_compose. rewrite <- (of_chars_chars s) at 2. f_equal.
  rewrite <- (list_fmap_id (chars s)) at 2. apply list_fmap_ext. intros i c _. simpl.
  apply code_inj, code_char_of, code_range.
Qed.

Lemma cut_last_dot_id cs : (forall c, last cs = Some c -> (code c =? 46) = false) -> cut_last_dot cs = cs.
Proof.
  induction cs as [|c cs IH]; intros H; [done|]. destruct cs as [|d cs].
  - simpl. by rewrite (H c eq_refl).
  - change (cut_last_dot (c :: d :: cs)) with (c :: cut_last_dot (d :: cs)). rewrite IH; [done|].
    intros e He. apply H. done.
Qed.

Lemma join_dots_last ls c : Forall label_ok ls -> last (join_dots ls) = Some c -> label_char c = true.
Proof.
  induction 1 as [|l ls (Hlen & Hc & _) Hls IH]; [done|]. destruct ls as [|l' ls].
  - intros Hl%last_Some_elem_of. rewrite Forall_forall in Hc. by apply Hc.
  - change (join_dots (l :: l' :: ls)) with (l ++ char_of 46 :: join_dots (l' :: ls)).
    rewrite last_app, last_cons. destruct (last (join_dots (l' :: ls))) as [d|] eqn:E; [done|].
    apply last_None in E. apply Forall_cons_iff in Hls as [(Hl' & _) _].
    destruct l'; [simpl in Hl'; lia|]. by destruct ls.
Qed.

(** A host name goes through the normalisation unchanged. *)
Lemma host_name_normal u name : host_name name ->
  to_lower u (trim_suffix_dot (string_of_bytes (code <$> chars name))) = name.
Proof.
  intros (_ & labels & Hn & Ec & Hl). rewrite string_of_bytes_codes. unfold trim_suffix_dot.
  rewrite cut_last_dot_id, of_chars_chars.
  2: { rewrite Ec. intros c Hc. by apply (join_dots_last labels) in Hc as (? & _)%label_char_facts. }
  assert (Forall (fun c => (code c <? 128) = true /\ lower_char c = c) (chars name)) as Hall.
  { rewrite Ec. apply join_dots_forall; [by vm_compute|]. apply labels_forall; [|done].
    by intros x (_ & _ & ? & ?)%label_char_facts. }
  unfold to_lower, is_ascii.
  assert (forallb (fun c => code c <? 128) (chars name) = true) as ->.
  { apply (forallb_Forall_iff _ (fun c => (code c <? 128) = true)); [done|].
    eapply Forall_impl; [exact Hall|]. naive_solver. }
  rewrite <- (of_chars_chars name) at 2. f_equal. rewrite <- (list_fmap_id (chars name)) at 2.
  apply list_fmap_ext. intros i c Hi. eapply Forall_lookup_1 in Hall; [|done]. apply Hall.
Qed.

(** Takes the branch of the next guard or access on which the code goes on. *)
Ltac peel :=
  cbv zeta;
  match goal with
  | |- (if ?b then _ else _) = Ok (Some _) -> _ => destruct b; try done
  | |- result_bind ?r _ = Ok (Some _) -> _ => destruct r; cbn [result_bind]; try done
  end.

Section results.
Variable unicode_lower : string -> string.

(** Whatever name comes out passed the name check. *)
Lemma server_names_valid fuel ext offset name :
server_names unicode_lower fuel ext offset = Ok (Some name) -> validServerName name = true.
Proof.
revert offset; induction fuel as [|fuel IH]; intros offset; cbn [server_names]; [by peel|].
do 6 peel; [|by apply IH]. peel.
destruct (validServerName (to_lower _ _)) eqn:E; simpl; [|done]. by intros [= <-].
Qed.

Lemma parseServerName_valid ext name :
parseServerName unicode_lower ext = Ok (Some name) -> validServerName name = true.
Proof. unfold parseServerName. do 3 peel. apply server_names_valid. Qed.

Lemma extensions_valid fuel body offset end_ name :
extensions unicode_lower fuel body offset end_ = Ok (Some name) -> validServerName name = true.
Proof.
revert offset; induction fuel as [|fuel IH]; intros offset; cbn [extensions]; [by peel|].
do 6 peel; [|by apply IH]. peel. apply parseServerName_valid.
Qed.

Lemma parseClientHello_valid body name :
parseClientHello unicode_lower body = Ok (Some name) -> validServerName name = true.
Proof. unfold parseClientHello. do 11 peel. apply extensions_valid. Qed.
End results.

(** ** Lemmas: parsing what was encoded *)

Lemma length_name_entry e : length (name_entry e) = (3 + length e.2)%nat.
Proof. unfold name_entry. rewrite length_cons, length_app, length_be16. lia. Qed.

Lemma length_extension_bytes e : length (extension_bytes e) = (4 + length e.2)%nat.
Proof. unfold extension_bytes. rewrite !length_app, !length_be16. lia. Qed.

Lemma length_record_bytes r : record_ok r -> length (record_bytes r) = (5 + length (rec_data r))%nat.
Proof. intros [Hv _]. unfold record_bytes. rewrite length_cons, !length_app, length_be16. lia. Qed.

(** Normalises appended lists and the lengths of the encodings. *)
Ltac assoc := repeat first [rewrite <- app_assoc | rewrite <- app_comm_cons]; simpl app; reflexivity.
Ltac lens :=
  autorewrite with flow_len in *; rewrite ?length_be16, ?length_name_entry, ?length_extension_bytes in *;
  simpl length in *; simpl fst in *; simpl snd in *; lia.

Lemma small_le n m : (n <= m)%nat -> small m -> small n.
Proof. unfold small. lia. Qed.

Section roundtrip.
Variable unicode_lower : string -> string.
Variables (nm : list Z) (name : string).
Hypothesis Hname : to_lower unicode_lower (trim_suffix_dot (string_of_bytes nm)) = name.
Hypothesis Hvalid : validServerName name = true.

(** One entry read: its type, its length, and room for it. *)
Lemma server_names_step fuel ext pre t d rest :
ext = pre ++ name_entry (t, d) ++ rest -> small (length ext) ->
server_names unicode_lower (S fuel) ext (length pre) =
if t =? 0 then
  if negb (validServerName (to_lower unicode_lower (trim_suffix_dot (string_of_bytes d))))
  then fails "invalid TLS server name"
  else Ok (Some (to_lower unicode_lower (trim_suffix_dot (string_of_bytes d))))
else server_names unicode_lower fuel ext (length (pre ++ name_entry (t, d))).
Proof.
intros E Hs. assert (length ext = length pre + (3 + length d) + length rest)%nat as Hl
  by (rewrite E; lens). unfold name_entry in *. simpl fst in *. simpl snd in *.
cbn [server_names]. rewrite (proj2 (Nat.ltb_lt _ _)), (proj2 (Nat.ltb_ge (length ext - _) 3)) by lia.
rewrite (index_at ext pre t (be16 (length d) ++ d ++ rest)) by (done || rewrite E; assoc).
cbn [result_bind].
rewrite (uint16_at_eq ext (pre ++ [t]) (length d) (d ++ rest))
  by (first [rewrite E; assoc | lens | apply (small_le _ (length ext)); [lia|done]]).
cbn [result_bind]. rewrite (proj2 (Nat.ltb_ge _ _)) by lia.
destruct (t =? 0).
- rewrite (subslice_at ext (pre ++ t :: be16 (length d)) d rest)
    by (first [rewrite E; assoc | lens]). done.
- f_equal. lens.
Qed.

Lemma server_names_found fuel ext pre es after :
ext = pre ++ (es ≫= name_entry) ++ name_entry (0, nm) ++ after -> small (length ext) ->
Forall (fun e => 0 < e.1 < 256) es -> (length ext - length pre <= fuel)%nat ->
server_names unicode_lower fuel ext (length pre) = Ok (Some name).
Proof.
intros E Hs Hes. revert pre fuel E; induction Hes as [|[t d] es Ht _ IH]; intros pre fuel E Hf.
- destruct fuel as [|fuel]; [apply (f_equal length) in E; lens|].
  rewrite (server_names_step fuel ext pre 0 nm after) by done.
  change (0 =? 0) with true. cbv iota. by rewrite Hname, Hvalid.
- simpl in Ht. rewrite bind_cons, <- app_assoc in E.
  pose proof (f_equal length E) as El. rewrite !length_app, length_name_entry in El. simpl snd in El.
  destruct fuel as [|fuel]; [lia|].
  rewrite (server_names_step fuel ext pre t d ((es ≫= name_entry) ++ name_entry (0, nm) ++ after)) by done.
  rewrite (proj2 (Z.eqb_neq _ _)) by lia. apply IH; [by rewrite <- app_assoc|].
  rewrite length_app, length_name_entry. simpl. lia.
Qed.

Lemma parseServerName_found ext list_ es after :
ext = be16 (length list_) ++ list_ -> list_ = (es ≫= name_entry) ++ name_entry (0, nm) ++ after ->
small (length ext) -> Forall (fun e => 0 < e.1 < 256) es ->
parseServerName unicode_lower ext = Ok (Some name).
Proof.
intros E El Hs Hes. assert (length ext = 2 + length list_)%nat as Hl by (rewrite E; lens).
unfold parseServerName. rewrite (proj2 (Nat.ltb_ge _ _)) by lia.
rewrite (uint16_at_eq ext [] (length list_) list_) by (first [done | apply (small_le _ (length ext)); [lia|done]]).
cbn [result_bind]. rewrite Hl. replace (2 + length list_ - 2)%nat with (length list_) by lia.
rewrite Nat.eqb_refl. cbn [negb]. rewrite <- Hl.
pose proof (server_names_found (length ext) ext (be16 (length list_)) es after) as H.
rewrite length_be16 in H. apply H; [|done|done|lia]. rewrite E at 1. by rewrite El at 2.
Qed.

Lemma extensions_step fuel body pre t d rest end_ :
body = pre ++ extension_bytes (t, d) ++ rest -> small (length body) -> small t ->
(length pre + (4 + length d) <= end_ <= length body)%nat ->
extensions unicode_lower (S fuel) body (length pre) end_ =
if (t =? 0)%nat then parseServerName unicode_lower d
else extensions unicode_lower fuel body (length (pre ++ extension_bytes (t, d))) end_.
Proof.
intros E Hs Ht He. unfold extension_bytes in *. simpl fst in *. simpl snd in *.
assert (small (length d)) by (apply (small_le _ (length body)); [lia|done]).
cbn [extensions]. rewrite (proj2 (Nat.ltb_lt _ _)), (proj2 (Nat.ltb_ge (end_ - _) 4)) by lia.
rewrite (uint16_at_eq body pre t (be16 (length d) ++ d ++ rest)) by (done || rewrite E; assoc).
cbn [result_bind].
rewrite (uint16_at_eq body (pre ++ be16 t) (length d) (d ++ rest))
  by (first [done | rewrite E; assoc | lens]).
cbn [result_bind]. rewrite (proj2 (Nat.ltb_ge _ _)) by lia.
destruct (t =? 0)%nat.
- rewrite (subslice_at body (pre ++ be16 t ++ be16 (length d)) d rest)
    by (first [rewrite E; assoc | lens]). done.
- f_equal. lens.
Qed.

Lemma extensions_found fuel body pre es ext after :
body = pre ++ (es ≫= extension_bytes) ++ extension_bytes (0%nat, ext) ++ after ->
small (length body) -> Forall (fun e => (0 < e.1)%nat /\ small e.1) es ->
(length body - length pre <= fuel)%nat -> parseServerName unicode_lower ext = Ok (Some name) ->
extensions unicode_lower fuel body (length pre) (length body) = Ok (Some name).
Proof.
intros E Hs Hes Hf Hx. revert pre fuel E Hf; induction Hes as [|[t d] es [Ht Ht'] _ IH]; intros pre fuel E Hf.
- pose proof (f_equal length E) as El. cbn [mbind list_bind] in El. rewrite !length_app, length_extension_bytes in El.
  simpl in El. destruct fuel as [|fuel]; [lia|].
  rewrite (extensions_step fuel body pre 0 ext after) by (first [done | lia]). done.
- simpl in Ht, Ht'. rewrite bind_cons, <- app_assoc in E.
  pose proof (f_equal length E) as El. rewrite !length_app, length_extension_bytes in El. simpl snd in El.
  destruct fuel as [|fuel]; [lia|].
  rewrite (extensions_step fuel body pre t d ((es ≫= extension_bytes) ++ extension_bytes (0%nat, ext) ++ after))
    by (first [done | lia]).
  rewrite (proj2 (Nat.eqb_neq _ _)) by lia. apply IH; [by rewrite <- app_assoc|].
  rewrite length_app, length_extension_bytes. simpl. lia.
Qed.
End roundtrip.

Lemma length_hello_body h : hello_ok h ->
  length (hello_body h) =
  (34 + 1 + length (ch_session h) + 2 + length (ch_ciphers h) + 1 + length (ch_compression h) + 2 +
   length (extension_list h))%nat.
Proof.
  intros Hk. pose proof (hk_random _ Hk). unfold hello_body. autorewrite with flow_len.
  rewrite !length_be16. lia.
Qed.

Section hello.
Variable unicode_lower : string -> string.

Lemma parse_hello_body h name : hello_ok h ->
to_lower unicode_lower (trim_suffix_dot (string_of_bytes (ch_name h))) = name ->
validServerName name = true ->
parseClientHello unicode_lower (hello_body h) = Ok (Some name).
Proof.
intros Hk Hn Hv. pose proof (length_hello_body h Hk) as Hl. pose proof (hk_size _ Hk) as Hsz.
destruct Hk as [Hr Hse (Hc0 & Hc2 & Hcs) Hco Hbe Hen _ _]. unfold maxClientHelloBytes in Hsz.
assert (parseServerName unicode_lower (sni_extension h) = Ok (Some name)) as Hx.
{ apply (parseServerName_found unicode_lower (ch_name h) name Hn Hv _ (name_list h) (ch_entries h) (ch_entries_after h));
    [done|done| |done].
  unfold small. unfold extension_list in Hl. rewrite !length_app, length_extension_bytes in Hl. cbn [snd] in Hl. lia. }
remember (hello_body h) as body eqn:Eb.
set (p1 := ch_version_random h) in *. set (se := ch_session h) in *. set (ci := ch_ciphers h) in *.
set (co := ch_compression h) in *. set (ex := extension_list h) in *.
unfold hello_body in Eb. fold p1 se ci co ex in Eb.
unfold parseClientHello. cbv zeta.
rewrite (proj2 (Nat.ltb_ge _ _)) by lia.
rewrite (index_at body p1 (Z.of_nat (length se)) (se ++ be16 (length ci) ++ ci ++ Z.of_nat (length co) :: co ++ be16 (length ex) ++ ex))
  by done.
cbn [result_bind]. rewrite Nat2Z.id. rewrite (proj2 (Nat.ltb_ge _ _)) by lia.
rewrite (uint16_at_eq body (p1 ++ Z.of_nat (length se) :: se) (length ci) (ci ++ Z.of_nat (length co) :: co ++ be16 (length ex) ++ ex))
  by (first [done | rewrite Eb; assoc | lens]).
cbn [result_bind]. rewrite (proj2 (Nat.eqb_neq _ 0)) by lia. rewrite Hc2, Nat.eqb_refl. cbn [negb orb].
rewrite (proj2 (Nat.ltb_ge _ _)) by lia.
rewrite (index_at body (p1 ++ Z.of_nat (length se) :: se ++ be16 (length ci) ++ ci) (Z.of_nat (length co)) (co ++ be16 (length ex) ++ ex))
  by (first [rewrite Eb; assoc | lens]).
cbn [result_bind]. rewrite Nat2Z.id. rewrite (proj2 (Nat.ltb_ge _ _)) by lia.
rewrite (proj2 (Nat.eqb_neq _ (length body))) by lia. rewrite (proj2 (Nat.ltb_ge _ _)) by lia.
rewrite (uint16_at_eq body (p1 ++ Z.of_nat (length se) :: se ++ be16 (length ci) ++ ci ++ Z.of_nat (length co) :: co) (length ex) ex)
  by (first [rewrite Eb; assoc | lens | unfold small; lia]).
cbn [result_bind]. rewrite (proj2 (Nat.ltb_ge _ _)) by lia.
pose (pre := p1 ++ Z.of_nat (length se) :: se ++ be16 (length ci) ++ ci ++ Z.of_nat (length co) :: co ++ be16 (length ex)).
pose proof (extensions_found unicode_lower name (length body) body pre (ch_before h) (sni_extension h) (ch_after h)) as Hfound.
replace (length pre) with (34 + 1 + length se + 2 + length ci + 1 + length co + 2)%nat in Hfound
  by (unfold pre; lens).
rewrite <- Hfound; [f_equal; lia| |unfold small; lia|done|lia|done].
fold (extension_list h). fold ex. rewrite Eb. unfold pre. assoc.
Qed.

(** The records of a stream, read one after the other. *)
Lemma records_step fuel payload pre r rest hs : record_ok r ->
payload = pre ++ record_bytes r ++ rest ->
records (S fuel) payload (length pre) hs =
if (rec_type r =? 22) && (maxClientHelloBytes <? Z.of_nat (length (hs ++ handshake_data r)))
then fails "TLS ClientHello exceeds 64 KiB"
else records fuel payload (length (pre ++ record_bytes r)) (hs ++ handshake_data r).
Proof.
intros Hr E. pose proof (length_record_bytes r Hr) as Hlr. destruct Hr as [Hv Hs].
pose proof (f_equal length E) as El. rewrite !length_app, Hlr in El.
cbn [records]. rewrite (proj2 (Nat.ltb_lt _ _)), (proj2 (Nat.ltb_ge (length payload - _) 5)) by lia.
unfold record_bytes in E |- *.
rewrite (uint16_at_eq payload (pre ++ rec_type r :: rec_version r) (length (rec_data r)) (rec_data r ++ rest))
  by (first [done | rewrite E; assoc | lens]).
cbn [result_bind]. cbv zeta. rewrite (proj2 (Nat.ltb_ge _ _)) by lia.
rewrite (index_at payload pre (rec_type r) (rec_version r ++ be16 (length (rec_data r)) ++ rec_data r ++ rest))
  by (first [lia | rewrite E; assoc]).
cbn [result_bind].
replace (length (pre ++ rec_type r :: rec_version r ++ be16 (length (rec_data r)) ++ rec_data r))
  with (length pre + 5 + length (rec_data r))%nat by lens.
unfold handshake_data. destruct (rec_type r =? 22); [|by rewrite app_nil_r].
rewrite (subslice_at payload (pre ++ rec_type r :: rec_version r ++ be16 (length (rec_data r))) (rec_data r) rest)
  by (first [rewrite E; assoc | lens]).
done.
Qed.

Lemma records_app fuel payload pre rs rest hs : Forall record_ok rs ->
payload = pre ++ stream rs ++ rest -> (length rs <= fuel)%nat ->
Z.of_nat (length (hs ++ (rs ≫= handshake_data))) <= maxClientHelloBytes ->
records fuel payload (length pre) hs =
records (fuel - length rs) payload (length (pre ++ stream rs)) (hs ++ (rs ≫= handshake_data)).
Proof.
intros Hrs. revert fuel pre hs; induction Hrs as [|r rs Hr _ IH]; intros fuel pre hs E Hf Hm.
- cbn. rewrite !app_nil_r. by rewrite Nat.sub_0_r.
- unfold stream in *. rewrite bind_cons in E |- *. rewrite bind_cons in Hm |- *.
  destruct fuel as [|fuel]; [simpl in Hf; lia|].
  rewrite (records_step fuel payload pre r ((rs ≫= record_bytes) ++ rest)) by (first [done | by rewrite E, <- app_assoc]).
  rewrite (proj2 (Z.ltb_ge _ _)) by (rewrite !length_app in *; lia). rewrite andb_false_r.
  rewrite IH by (first [by rewrite E, <- !app_assoc | simpl in Hf; lia | by rewrite <- app_assoc]).
  by rewrite <- !app_assoc.
Qed.

Lemma records_stream fuel rs : Forall record_ok rs -> (length (stream rs) <= fuel)%nat ->
Z.of_nat (length (rs ≫= handshake_data)) <= maxClientHelloBytes ->
records fuel (stream rs) 0 [] = Ok (rs ≫= handshake_data).
Proof.
intros Hrs Hf Hm.
assert (length rs <= length (stream rs))%nat as Hle.
{ clear -Hrs. induction Hrs as [|r rs Hr _ IH]; [done|]. unfold stream in *.
  rewrite bind_cons, length_app, length_record_bytes by done. simpl. lia. }
change 0%nat with (length (@nil Z)).
rewrite (records_app fuel (stream rs) [] rs []) by (first [done | by rewrite app_nil_r | lia]).
simpl app. destruct (fuel - length rs)%nat; cbn [records]; by rewrite Nat.ltb_irrefl.
Qed.
End hello.

Lemma be3_value z : 0 <= z < 65536 ->
  exists b1 b2 b3, be_bytes 3 z = [b1; b2; b3] /\
    Z.lor (Z.lor (Z.shiftl b1 16) (Z.shiftl b2 8)) b3 = z.
Proof.
  intros Hz. exists (z / 256 / 256 mod 256), (z / 256 mod 256), (z mod 256). split; [done|].
  assert (z / 256 / 256 = 0) as -> by (rewrite Z.div_div, Z.div_small by lia; done).
  change (Z.shiftl (0 mod 256) 16) with 0. rewrite Z.lor_0_l, lor_shiftl_add.
  - rewrite (Z.mod_small (z / 256)) by (split; [apply Z.div_pos; lia|apply Z.div_lt_upper_bound; lia]).
    pose proof (Z.div_mod z 256 ltac:(lia)). lia.
  - lia.
  - apply Z.mod_pos_bound. lia.
Qed.

(** Strict prefixes of a stream end inside a record or at the boundary before one. *)
Lemma stream_prefix rs p q : stream rs = p ++ q -> q <> [] ->
  exists rs1 r rs2 a b, rs = rs1 ++ r :: rs2 /\ p = stream rs1 ++ a /\ record_bytes r = a ++ b /\ b <> [].
Proof.
  revert p; induction rs as [|r rs IH]; intros p E Hq.
  { symmetry in E. apply app_eq_nil in E as [_ ->]. done. }
  unfold stream in *. rewrite bind_cons in E.
  destruct (decide (length p < length (record_bytes r))%nat) as [Hlt|Hge].
  - exists [], r, rs, p, (drop (length p) (record_bytes r)).
    assert (p = take (length p) (record_bytes r)) as Ep.
    { apply (f_equal (take (length p))) in E. rewrite take_app_le in E by lia. rewrite E. by rewrite take_app_length. }
    split_and!; [done|done|rewrite Ep at 1; by rewrite take_drop|].
    intros Hd. apply (f_equal length) in Hd. rewrite length_drop in Hd. change (length []) with 0%nat in Hd. lia.
  - assert (p = record_bytes r ++ drop (length (record_bytes r)) p) as Ep.
    { rewrite <- (take_drop (length (record_bytes r)) p) at 1. f_equal.
      apply (f_equal (take (length (record_bytes r)))) in E.
      rewrite take_app_length, take_app_le in E by lia. done. }
    rewrite Ep, <- app_assoc in E. apply app_inv_head in E.
    destruct (IH _ E Hq) as (rs1 & r' & rs2 & a & b & -> & Ed & Er & Hb).
    exists (r :: rs1), r', rs2, a, b. split_and!; [done| |done|done].
    rewrite Ep, Ed, bind_cons. by rewrite app_assoc.
Qed.

Section extract.
Variable unicode_lower : string -> string.

(** Errors that mean more bytes are needed. *)
Definition incomplete (m : string) : bool :=
contains "truncated" m || contains "missing TLS handshake header" m.

Lemma extract_full h name rs : hello_ok h -> Forall record_ok rs ->
(rs ≫= handshake_data) = hello_message h -> Z.of_nat (length (stream rs)) <= maxClientHelloBytes ->
to_lower unicode_lower (trim_suffix_dot (string_of_bytes (ch_name h))) = name ->
validServerName name = true ->
ExtractSNI unicode_lower (stream rs) = Ok (Some name).
Proof.
intros Hk Hrs Hd Hs Hn Hv. pose proof (hk_size _ Hk) as Hsz. unfold maxClientHelloBytes in Hsz.
destruct (be3_value (Z.of_nat (length (hello_body h)))) as (b1 & b2 & b3 & Eb & Ev); [lia|].
unfold ExtractSNI. rewrite (proj2 (Z.ltb_ge _ _)) by done.
unfold hello_message in Hd. rewrite Eb in Hd.
rewrite records_stream; [|done|done|].
2: { rewrite Hd. unfold maxClientHelloBytes. simpl length. lia. }
rewrite Hd. cbn [result_bind]. rewrite (proj2 (Nat.ltb_ge _ _)) by (simpl length; lia).
cbn [index lookup list_lookup app result_bind]. change (1 =? 1) with true. cbn [negb].
cbv zeta. rewrite Ev, (proj2 (Z.ltb_ge _ _)) by (unfold maxClientHelloBytes; lia).
rewrite (proj2 (Z.ltb_ge _ _)) by (simpl length; lia). rewrite Nat2Z.id.
rewrite (subslice_at _ [1; b1; b2; b3] (hello_body h) []) by (first [by rewrite app_nil_r | done]).
cbn [result_bind]. by apply parse_hello_body.
Qed.

(** A partial record stops the record loop. *)
Lemma records_partial fuel payload pre r a b hs : record_ok r -> record_bytes r = a ++ b ->
a <> [] -> b <> [] -> payload = pre ++ a ->
exists m, records (S fuel) payload (length pre) hs = Err (Message m) /\ incomplete m = true.
Proof.
intros Hr E Ha Hb Ep. pose proof (length_record_bytes r Hr) as Hl. destruct Hr as [Hv Hs].
rewrite E, length_app in Hl. pose proof (f_equal length Ep) as Elp. rewrite length_app in Elp.
assert (0 < length a)%nat by (destruct a; simpl; [done|lia]).
assert (0 < length b)%nat by (destruct b; simpl; [done|lia]).
cbn [records]. rewrite (proj2 (Nat.ltb_lt _ _)) by lia.
destruct (Nat.ltb_spec (length payload - length pre) 5) as [H5|H5]; [by eexists|].
assert (a = rec_type r :: rec_version r ++ be16 (length (rec_data r)) ++ drop 5 a) as Ea.
{ unfold record_bytes in E. apply (f_equal (take 5)) in E.
  rewrite (take_app_le a) in E by lia. rewrite <- (take_drop 5 a) at 1. rewrite <- E.
  by destruct (rec_version r) as [|v0 [|v1 [|]]]. }
rewrite (uint16_at_eq payload (pre ++ rec_type r :: rec_version r) (length (rec_data r)) (drop 5 a))
  by (first [done | rewrite Ep, Ea at 1; assoc | lens]).
cbn [result_bind]. cbv zeta. rewrite (proj2 (Nat.ltb_lt _ _)) by lia. by eexists.
Qed.

Lemma extract_prefix h rs p q : hello_ok h -> Forall record_ok rs ->
(rs ≫= handshake_data) = hello_message h -> Z.of_nat (length (stream rs)) <= maxClientHelloBytes ->
(exists r, last rs = Some r /\ handshake_data r <> []) ->
stream rs = p ++ q -> q <> [] ->
exists m, ExtractSNI unicode_lower p = Err (Message m) /\ incomplete m = true.
Proof.
intros Hk Hrs Hd Hs (rl & Hrl & Hne) E Hq. pose proof (hk_size _ Hk) as Hsz.
assert (Z.of_nat (length p) <= maxClientHelloBytes) as Hp by (rewrite E, length_app in Hs; lia).
destruct (stream_prefix _ _ _ E Hq) as (rs1 & r & rs2 & a & b & Ers & Ep & Er & Hb).
rewrite Ers in Hrs, Hd, Hrl. apply Forall_app in Hrs as [Hrs1 [Hr Hrs2]%Forall_cons_iff].
rewrite bind_app, bind_cons in Hd.
assert (Z.of_nat (length (rs1 ≫= handshake_data)) <= maxClientHelloBytes) as Hm.
{ apply (f_equal length) in Hd. unfold hello_message in Hd. autorewrite with flow_len in Hd. lia. }
assert (length rs1 <= length (stream rs1))%nat as Hle.
{ clear -Hrs1. induction Hrs1 as [|x rs Hx _ IH]; [done|]. unfold stream in *.
  rewrite bind_cons, length_app, length_record_bytes by done. simpl. lia. }
unfold ExtractSNI. rewrite (proj2 (Z.ltb_ge _ _)) by done.
destruct (decide (a = [])) as [->|Ha].
- rewrite app_nil_r in Ep. rewrite Ep, records_stream by done. cbn [result_bind].
  destruct (Nat.ltb_spec (length (rs1 ≫= handshake_data)) 4) as [H4|H4]; [by eexists|].
  destruct (be3_value (Z.of_nat (length (hello_body h)))) as (b1 & b2 & b3 & Eb & Ev).
  { unfold maxClientHelloBytes in Hsz. lia. }
  assert (length (rs1 ≫= handshake_data) < length (hello_message h))%nat as Hlt.
  { rewrite <- Hd, !length_app.
    assert (0 < length (handshake_data r) + length (rs2 ≫= handshake_data))%nat; [|lia].
    rewrite last_app_cons in Hrl. destruct rs2 as [|r2 rs2] using rev_ind.
    - simpl in Hrl. injection Hrl as ->. destruct (handshake_data rl); [done|simpl; lia].
    - rewrite last_cons, last_snoc in Hrl. injection Hrl as ->. rewrite bind_app, length_app.
      cbn [mbind list_bind]. rewrite app_nil_r. destruct (handshake_data rl); [done|simpl; lia]. }
  unfold hello_message in Hd, Hlt. rewrite Eb in Hd, Hlt.
  destruct (rs1 ≫= handshake_data) as [|c0 [|c1 [|c2 [|c3 hs]]]]; try (simpl in H4; lia).
  injection Hd as -> -> -> -> _. cbn [index lookup list_lookup result_bind]. change (1 =? 1) with true.
  cbn [negb]. cbv zeta. rewrite Ev, (proj2 (Z.ltb_ge _ _)) by lia.
  rewrite (proj2 (Z.ltb_lt _ _)) by (simpl length in *; lia). by eexists.
- assert (length p = length (stream rs1) + length a)%nat as Elp by (rewrite Ep; apply length_app).
  assert (0 < length a)%nat by (destruct a; simpl; [done|lia]).
  change 0%nat with (length (@nil Z)).
  rewrite (records_app (length p) p [] rs1 a) by (first [done | lia]).
  destruct (length p - length rs1)%nat as [|fuel] eqn:Ef; [lia|].
  destruct (records_partial fuel p ([] ++ stream rs1) r a b ([] ++ (rs1 ≫= handshake_data)) Hr Er Ha Hb Ep)
    as (m & -> & Hi). by exists m.
Qed.
End extract.

(** ** Properties *)

(** [ExtractSNI] returns on every input: no index or slice is out of range and
    the loops over records, extensions and names end. *)
Theorem sni_returns unicode_lower payload : returns (ExtractSNI unicode_lower payload).
Proof.
  unfold ExtractSNI. check_guard.
  pose proof (records_returns (length payload) payload 0 [] ltac:(lia)) as Hr.
  destruct (records (length payload) payload 0 []) as [hs|[]]; [|done..]. cbn [result_bind].
  check_guard. access. destruct (x =? 1); cbn [negb]; [|exact I]. access. access. access.
  check_guard. check_guard.
  match goal with |- returns (result_bind (subslice _ _ (4 + ?n)) _) =>
    destruct (subslice_ok hs 4 (4 + n)) as (s & -> & _); [lia|] end.
  apply parseClientHello_returns.
Qed.

(** A server name that is reported is a host name: at most 253 bytes of
    dot-separated labels of one to 63 lower-case letters, digits and inner hyphens. *)
Theorem sni_is_host_name unicode_lower payload name :
  ExtractSNI unicode_lower payload = Ok (Some name) -> host_name name.
Proof.
  rewrite <- validServerName_ok. unfold ExtractSNI. do 11 peel. apply parseClientHello_valid.
Qed.

(** The name in a well-formed ClientHello is found however the message is
    fragmented into TLS records and whatever other records, extensions and name
    entries surround it. *)
Theorem sni_found unicode_lower h name rs :
  hello_ok h -> host_name name -> ch_name h = code <$> chars name ->
  Forall record_ok rs -> (rs ≫= handshake_data) = hello_message h ->
  Z.of_nat (length (stream rs)) <= maxClientHelloBytes ->
  ExtractSNI unicode_lower (stream rs) = Ok (Some name).
Proof.
  intros Hk Hn Ec Hrs Hd Hs. apply (extract_full unicode_lower h name rs); try done.
  - rewrite Ec. by apply host_name_normal.
  - by apply validServerName_ok.
Qed.

(** ** Witnesses *)

Module TlsSample.
Definition server : string := "example.com".

Definition hello : client_hello :=
MkHello ([3; 3] ++ replicate 32 7) [] [19; 1] [0] [(10%nat, [0; 2; 0; 29])] [] (code <$> chars server) []
  [0; 35; 0; 0].

(** The message split over two handshake records with an alert in between. *)
Definition split_records : list tls_record :=
[MkRecord 22 [3; 1] (take 20 (hello_message hello)); MkRecord 21 [3; 1] [1; 0];
 MkRecord 22 [3; 1] (drop 20 (hello_message hello))].

Lemma hello_fine : hello_ok hello.
Proof.
constructor; try (by vm_compute); try (split_and!; by vm_compute); repeat constructor; try (by vm_compute); unfold is_byte; simpl; lia.
Qed.

Lemma server_fine : host_name server.
Proof. apply validServerName_ok. vm_compute. reflexivity. Qed.

Lemma split_fine : Forall record_ok split_records.
Proof. repeat constructor; by vm_compute. Qed.
End TlsSample.

Lemma sni_is_host_name_witness : host_name "example.com".
Proof.
  apply (sni_is_host_name (fun s => s) (stream TlsSample.split_records)). vm_compute. reflexivity.
Defined.

Lemma sni_found_witness :
  ExtractSNI (fun s => s) (stream TlsSample.split_records) = Ok (Some "example.com"%string).
Proof.
  apply (sni_found (fun s => s) TlsSample.hello TlsSample.server TlsSample.split_records
    TlsSample.hello_fine TlsSample.server_fine eq_refl TlsSample.split_fine); by vm_compute.
Defined.
