(* ===== verification/NameCapture.v ===== *)
(** * Passive name capture

    [internal/agent/namecapture/dns.go] and [processor.go]: DNS answers and the
    server names of TLS handshakes become name evidence.  The processor joins the
    TCP payloads of a flow until its ClientHello is complete.

    The DNS decoder (gopacket) is a parameter: [dns_decode] gives the message, and
    [decoder_ok] says that an A record holds four address bytes and an AAAA record
    sixteen. *)

From stdpp Require Import base strings numbers gmap list sorting.
From Stdlib Require Import Ascii.
From S2P Require Import Prelude GoBase GoText GoModel FlowDecode NetipString Sha256 InterfaceCounter Ownership Tls.

Open Scope string_scope.
Open Scope Z_scope.

(** ** The decoded DNS message *)

Record dns_answer : Type := MkAnswer {
  an_Name : list Z; an_Type : Z; an_Class : Z; an_TTL : Z; an_IP : option (list Z) }.

Record dns_message : Type := MkDNS { dns_QR : bool; dns_ResponseCode : Z; dns_Answers : list dns_answer }.

Definition DNSClassIN : Z := 1.
Definition DNSTypeA : Z := 1.
Definition DNSTypeAAAA : Z := 28.
Definition DNSResponseCodeNoErr : Z := 0.

(** [net.IP.String] on four or sixteen bytes; an IPv4-mapped address prints as IPv4. *)
Definition net_ip_string (ip : list Z) : string :=
  if (length ip =? 4)%nat then addr_string (Addr4 ip)
  else if (length ip =? 16)%nat then
    if is_4in6 ip then addr_string (Addr4 (drop 12 ip)) else addr_string (Addr16 ip)
  else if (length ip =? 0)%nat then "<nil>"
  else "?" +:+ of_chars (hex_string ip).

(** ** Flow keys *)

Record flowKey : Type := MkFlowKey {
  fk_SourceIP : netip_addr; fk_DestinationIP : netip_addr; fk_SourcePort : Z; fk_DestinationPort : Z }.

#[export] Instance flowKey_eq_dec : EqDecision flowKey.
Proof. solve_decision. Defined.

#[export] Instance netip_addr_countable : Countable netip_addr.
Proof.
  refine (inj_countable'
    (fun a => match a with AddrZero => inl tt | Addr4 b => inr (inl b) | Addr16 b => inr (inr b) end)
    (fun x => match x with inl _ => AddrZero | inr (inl b) => Addr4 b | inr (inr b) => Addr16 b end) _).
  by intros [].
Defined.

#[export] Instance flowKey_countable : Countable flowKey.
Proof.
  refine (inj_countable' (fun k => (fk_SourceIP k, fk_DestinationIP k, fk_SourcePort k, fk_DestinationPort k))
    (fun '(a, b, c, d) => MkFlowKey a b c d) _). by intros [].
Defined.

(** ** The processor *)

Record Packet : Type := MkPacket {
  pk_ObservedAt : time; pk_SourceIP : netip_addr; pk_DestinationIP : netip_addr;
  pk_SourcePort : Z; pk_DestinationPort : Z; pk_Protocol : Z; pk_Payload : list Z }.

Record partialFlow : Type := MkPartial { updatedAt : time; payload_ : list Z }.

Record ProcessorStats : Type := MkStats { DroppedFlows : Z; ExpiredFlows : Z; Malformed : Z }.

Record Processor : Type := MkProcessor {
  maxFlows : Z; flows : gmap flowKey partialFlow; stats : ProcessorStats }.

Definition NewProcessor (MaxFlows : Z) : Processor :=
  MkProcessor (if MaxFlows <=? 0 then 4096 else MaxFlows) ∅ (MkStats 0 0 0).

Definition set_flows (p : Processor) (fs : gmap flowKey partialFlow) : Processor :=
  MkProcessor (maxFlows p) fs (stats p).
Definition count_dropped (p : Processor) : Processor :=
  MkProcessor (maxFlows p) (flows p)
    (MkStats (wrap_u 64 (DroppedFlows (stats p) + 1)) (ExpiredFlows (stats p)) (Malformed (stats p))).
Definition count_malformed (p : Processor) : Processor :=
  MkProcessor (maxFlows p) (flows p)
    (MkStats (DroppedFlows (stats p)) (ExpiredFlows (stats p)) (wrap_u 64 (Malformed (stats p) + 1))).

(** [time.Duration] of [now.Sub(updatedAt)]: saturating, which does not matter for
    the comparison. *)
Definition stale (now : time) (f : partialFlow) : Prop := 5 * Second < now - updatedAt f.

#[export] Instance stale_dec now f : Decision (stale now f).
Proof. unfold stale. apply _. Defined.

Definition expire (p : Processor) (now : time) : Processor :=
  let fresh := filter (fun kv => ~ stale now kv.2) (flows p) in
  let expired := (size (flows p) - size fresh)%nat in
  MkProcessor (maxFlows p) fresh
    (MkStats (DroppedFlows (stats p)) (wrap_u 64 (ExpiredFlows (stats p) + Z.of_nat expired))
       (Malformed (stats p))).

Definition key_of_packet (pk : Packet) : flowKey :=
  MkFlowKey (pk_SourceIP pk) (pk_DestinationIP pk) (pk_SourcePort pk) (pk_DestinationPort pk).

Section capture.
Variable unicode_lower : string -> string.
Variable dns_decode : list Z -> option dns_message.

(** ** [ParseDNSMessage] *)

(** A DNS message over TCP carries its length in front. *)
Definition strip_length (payload : list Z) : list Z :=
if (2 <=? length payload)%nat && (be_val (take 2 payload) =? Z.of_nat (length payload) - 2)
then drop 2 payload else payload.

Definition clamp_ttl (seconds : Z) : duration :=
let ttl := seconds * Second in
let ttl := if ttl <? 30 * Second then 30 * Second else ttl in
if 24 * Hour <? ttl then 24 * Hour else ttl.

(** The body of the loop over the answers. *)
Definition answer_evidence (observedAt : time) (a : dns_answer) : option NameEvidence :=
match an_IP a with
| None => None
| Some ip =>
    if negb (an_Class a =? DNSClassIN) || (negb (an_Type a =? DNSTypeA) && negb (an_Type a =? DNSTypeAAAA))
    then None
    else
      let name := to_lower unicode_lower (trim_suffix_dot (string_of_bytes (an_Name a))) in
      if String.eqb name "" then None
      else Some (MkNameEvidence (net_ip_string ip) name "dns" observedAt
                   (observedAt + clamp_ttl (an_TTL a)))
end.

Definition ParseDNSMessage (payload : list Z) (observedAt : time) : option (list NameEvidence) :=
match dns_decode (strip_length payload) with
| None => None
| Some dns =>
    if negb (dns_QR dns) || negb (dns_ResponseCode dns =? DNSResponseCodeNoErr) then Some []
    else Some (omap (answer_evidence observedAt) (dns_Answers dns))
end.

(** ** [Process] *)

Definition Process (p : Processor) (packet : Packet) : list NameEvidence * Processor :=
let p := expire p (pk_ObservedAt packet) in
if (pk_Protocol packet =? 17) && ((pk_SourcePort packet =? 53) || (pk_DestinationPort packet =? 53)) then
  match ParseDNSMessage (pk_Payload packet) (pk_ObservedAt packet) with
  | None => ([], count_malformed p)
  | Some evidence => (evidence, p)
  end
else if negb (pk_Protocol packet =? 6) || negb (pk_DestinationPort packet =? 443) ||
        (length (pk_Payload packet) =? 0)%nat
then ([], p)
else
  let key := key_of_packet packet in
  let found := flows p !! key in
  if (match found with None => true | Some _ => false end) && (maxFlows p <=? Z.of_nat (size (flows p)))
  then ([], count_dropped p)
  else
    let buffered := match found with Some f => payload_ f | None => [] end in
    if maxClientHelloBytes <? Z.of_nat (length buffered) + Z.of_nat (length (pk_Payload packet))
    then ([], count_dropped (set_flows p (delete key (flows p))))
    else
      let payload := (buffered ++ pk_Payload packet)%list in
      let p := set_flows p (<[key := MkPartial (pk_ObservedAt packet) payload]> (flows p)) in
      match ExtractSNI unicode_lower payload with
      | Err (Message m) =>
          if contains "truncated" m || contains "missing TLS handshake header" m then ([], p)
          else ([], count_malformed (set_flows p (delete key (flows p))))
      | Err _ => ([], p) (* never: see [sni_returns] *)
      | Ok None => ([], set_flows p (delete key (flows p)))
      | Ok (Some name) =>
          ([MkNameEvidence (addr_string (pk_DestinationIP packet)) name "tls_sni" (pk_ObservedAt packet)
              (pk_ObservedAt packet + 10 * Minute)],
           set_flows p (delete key (flows p)))
      end.

Fixpoint process_all (p : Processor) (packets : list Packet) : list (list NameEvidence) * Processor :=
match packets with
| [] => ([], p)
| packet :: rest =>
    let '(evidence, p) := Process p packet in
    let '(more, p) := process_all p rest in
    (evidence :: more, p)
end.
End capture.

(** ** Events *)

Definition clampDropped (value : Z) : Z :=
  if max_i64 <? value then max_i64 else wrap_s 64 value.

Definition CollectorHealthEvent (observedAt : time) (code : string) (dropped : Z) : Event :=
  MkEvent ("health:" +:+ digest_hex ("name-health:" +:+ code +:+ ":" +:+ of_chars (format_int (UnixNano observedAt))) 12)
    observedAt EventHealth "" 0 0 ""
    (Some (MkHealthEvent "name_capture" "degraded" code (clampDropped dropped) (f64_of_Z 0) ""))
    None None None None.

Definition EvidenceEvent (evidence : NameEvidence) : Event :=
  MkEvent ("evidence:" +:+ digest_hex (ne_IP evidence +:+ ":" +:+ ne_Name evidence +:+ ":" +:+ ne_Source evidence
             +:+ ":" +:+ of_chars (format_rfc3339nano (ne_ValidFrom evidence))) 12)
    (ne_ValidFrom evidence) EventNameEvidence "" 0 0 "" None None None (Some evidence) None.

(** ** Invariants *)

(** Never more flows than allowed, and never more than 64 KiB buffered for one. *)
Record processor_ok (p : Processor) : Prop := {
  pok_max : 0 < maxFlows p;
  pok_size : Z.of_nat (size (flows p)) <= maxFlows p;
  pok_payload : map_Forall (fun _ f => 1 <= Z.of_nat (length (payload_ f)) <= maxClientHelloBytes) (flows p) }.

Lemma NewProcessor_ok n : processor_ok (NewProcessor n).
Proof.
  unfold NewProcessor. constructor; simpl.
  - destruct (Z.leb_spec n 0); lia.
  - rewrite map_size_empty. destruct (Z.leb_spec n 0); lia.
  - apply map_Forall_empty.
Qed.

(** ** Lemmas *)

Lemma expire_flows p now k f :
  flows (expire p now) !! k = Some f <-> flows p !! k = Some f /\ ~ stale now f.
Proof. unfold expire. simpl. by rewrite map_lookup_filter_Some. Qed.

Lemma expire_size p now : (size (flows (expire p now)) <= size (flows p))%nat.
Proof. apply map_subseteq_size. unfold expire. simpl. apply map_filter_subseteq. Qed.

Lemma expire_ok p now : processor_ok p -> processor_ok (expire p now).
Proof.
  intros [Hm Hs Hp]. constructor; [done| |].
  - pose proof (expire_size p now). simpl maxFlows. lia.
  - intros k f [Hf _]%expire_flows. by apply (Hp k).
Qed.

Lemma size_delete_le {A} (m : gmap flowKey A) k : (size (delete k m) <= size m)%nat.
Proof. apply map_subseteq_size, delete_subseteq. Qed.

Lemma delete_ok p k : processor_ok p -> processor_ok (set_flows p (delete k (flows p))).
Proof.
  intros [Hm Hs Hp]. constructor; simpl; [done| |by apply map_Forall_delete].
  pose proof (size_delete_le (flows p) k). lia.
Qed.

Lemma malformed_ok p : processor_ok p -> processor_ok (count_malformed p).
Proof. intros []. by constructor. Qed.

Lemma dropped_ok p : processor_ok p -> processor_ok (count_dropped p).
Proof. intros []. by constructor. Qed.

Lemma insert_ok p k t pl : processor_ok p ->
  (is_Some (flows p !! k) \/ Z.of_nat (size (flows p)) < maxFlows p) ->
  1 <= Z.of_nat (length pl) <= maxClientHelloBytes ->
  processor_ok (set_flows p (<[k := MkPartial t pl]> (flows p))).
Proof.
  intros [Hm Hs Hp] Hroom Hpl. constructor; simpl; [done| |by apply map_Forall_insert_2].
  destruct Hroom as [Hin|Hroom]; [by rewrite map_size_insert_Some|].
  rewrite map_size_insert. destruct (flows p !! k); simpl; lia.
Qed.

#[export] Hint Resolve expire_ok delete_ok malformed_ok dropped_ok : flow.

Lemma clamp_ttl_range s : 30 * Second <= clamp_ttl s <= 24 * Hour.
Proof. unfold clamp_ttl, Hour, Minute, Second. bool_cases; reflect_bools; lia. Qed.

Lemma no_family_invalid s : addr_family (chars s) = None -> ~ addr_ok s.
Proof. unfold addr_ok, ParseAddr. intros -> [a Ha]. done. Qed.

Lemma hex_nibble_family d rest : 0 <= d < 16 -> addr_family (hex_nibble d :: rest) = addr_family rest.
Proof. exact (hex_family d rest). Qed.

Lemma hex_string_family bs : Forall is_byte bs -> addr_family (hex_string bs) = None.
Proof.
  induction 1 as [|b bs Hb _ IH]; [done|]. unfold hex_string in *. rewrite bind_cons. cbn [app].
  unfold is_byte in Hb.
  rewrite !hex_nibble_family; [done|apply Z.mod_pos_bound; lia|].
  split; [apply Z.div_pos; lia|apply Z.div_lt_upper_bound; lia].
Qed.

(** The printed address is parseable exactly when it has four or sixteen bytes. *)
Lemma net_ip_string_ok ip : Forall is_byte ip ->
  addr_ok (net_ip_string ip) <-> length ip = 4%nat \/ length ip = 16%nat.
Proof.
  intros Hb. unfold net_ip_string.
  destruct (Nat.eqb_spec (length ip) 4) as [H4|H4].
  { split; [by left|]. intros _. by apply addr_string_ok. }
  destruct (Nat.eqb_spec (length ip) 16) as [H16|H16].
  { split; [by right|]. intros _. destruct (is_4in6 ip); apply addr_string_ok; [|by split].
    split; [rewrite length_drop; lia|by apply Forall_drop]. }
  split; [|intros [?|?]; lia]. intros H. exfalso. revert H. destruct (Nat.eqb_spec (length ip) 0).
  - by apply no_family_invalid.
  - apply no_family_invalid. rewrite chars_app, chars_of_chars. by apply (hex_string_family ip).
Qed.

Section theorems.
Variable unicode_lower : string -> string.
Variable dns_decode : list Z -> option dns_message.

Lemma Process_ok p packet : processor_ok p -> processor_ok (snd (Process unicode_lower dns_decode p packet)).
Proof.
intros Hp. unfold Process. pose proof (expire_ok p (pk_ObservedAt packet) Hp) as He.
set (q := expire p (pk_ObservedAt packet)) in *. clearbody q. cbv zeta.
destruct (_ && _); [destruct (ParseDNSMessage _ _ _ _); simpl; auto with flow|].
destruct (_ || _ || (length (pk_Payload packet) =? 0)%nat) eqn:Eg; [done|].
apply orb_false_iff in Eg as [_ Hlen%Nat.eqb_neq].
set (k := key_of_packet packet). destruct (_ && _) eqn:Ed; [simpl; auto with flow|].
destruct (Z.ltb_spec maxClientHelloBytes
  (Z.of_nat (length match flows q !! k with Some f => payload_ f | None => [] end) +
   Z.of_nat (length (pk_Payload packet)))) as [Hbig|Hfit]; [simpl; auto with flow|].
assert (forall pl, pl = (match flows q !! k with Some f => payload_ f | None => [] end ++ pk_Payload packet)%list ->
  processor_ok (set_flows q (<[k := MkPartial (pk_ObservedAt packet) pl]> (flows q)))) as Hi.
{ intros pl ->. apply insert_ok; [done| |rewrite length_app; lia].
  apply andb_false_iff in Ed as [Ed|Ed%Z.leb_gt]; [|by right]. left. destruct (flows q !! k); [by eexists|done]. }
specialize (Hi _ eq_refl).
destruct (ExtractSNI _ _) as [[name|]|[m| |]]; simpl snd; auto with flow.
destruct (_ || _); simpl; auto with flow.
Qed.

Lemma process_all_ok packets p : processor_ok p ->
processor_ok (snd (process_all unicode_lower dns_decode p packets)).
Proof.
revert p; induction packets as [|packet rest IH]; intros p Hp; [done|]. simpl.
pose proof (Process_ok p packet Hp) as Hq. destruct (Process _ _ p packet) as [ev q].
specialize (IH q Hq). by destruct (process_all _ _ q rest).
Qed.
End theorems.

(** ** Reassembly *)

Definition buffer (o : option partialFlow) : list Z := match o with Some f => payload_ f | None => [] end.

Section reassembly.
Variable unicode_lower : string -> string.
Variable dns_decode : list Z -> option dns_message.
Variables (src dst : netip_addr) (sport : Z).

(** A TCP segment to port 443 of one flow. *)
Definition segment (s : time * list Z) : Packet := MkPacket s.1 src dst sport 443 6 s.2.
Let k := MkFlowKey src dst sport 443.

(** The segment is taken into the buffer of its flow. *)
Lemma process_segment p t d : let q := expire p t in
d <> [] -> is_Some (flows q !! k) \/ Z.of_nat (size (flows q)) < maxFlows q ->
Z.of_nat (length (buffer (flows q !! k) ++ d)) <= maxClientHelloBytes ->
let q' := set_flows q (<[k := MkPartial t (buffer (flows q !! k) ++ d)]> (flows q)) in
Process unicode_lower dns_decode p (segment (t, d)) =
match ExtractSNI unicode_lower (buffer (flows q !! k) ++ d) with
| Err (Message m) => if incomplete m then ([], q') else ([], count_malformed (set_flows q' (delete k (flows q'))))
| Err _ => ([], q')
| Ok None => ([], set_flows q' (delete k (flows q')))
| Ok (Some name) =>
    ([MkNameEvidence (addr_string dst) name "tls_sni" t (t + 10 * Minute)], set_flows q' (delete k (flows q')))
end.
Proof.
intros q Hd Hroom Hlen q'. unfold Process. cbn [segment pk_ObservedAt pk_Protocol pk_SourcePort
  pk_DestinationPort pk_Payload pk_DestinationIP fst snd].
change (6 =? 17) with false. change (6 =? 6) with true. change (443 =? 443) with true.
cbn [andb orb negb]. cbv zeta. rewrite (proj2 (Nat.eqb_neq (length d) 0)) by (by destruct d).
change (key_of_packet (segment (t, d))) with k. fold q.
replace (match flows q !! k with None => true | Some _ => false end && (maxFlows q <=? Z.of_nat (size (flows q))))
  with false.
2: { symmetry. destruct (flows q !! k) eqn:E; [done|]. destruct Hroom as [[? ?]|Hroom]; [done|].
     simpl. by apply Z.leb_gt. }
rewrite length_app in Hlen. fold (buffer (flows q !! k)).
rewrite (proj2 (Z.ltb_ge _ _)) by lia. reflexivity.
Qed.

(** Consecutive segments come within five seconds. *)
Fixpoint timely (t0 : time) (segs : list (time * list Z)) : Prop :=
match segs with
| [] => True
| s :: rest => s.1 - t0 <= 5 * Second /\ timely s.1 rest
end.

Context (h : client_hello) (name : string) (rs : list tls_record).
Context (Hk : hello_ok h) (Hname : host_name name) (Hcode : ch_name h = code <$> chars name).
Context (Hrs : Forall record_ok rs) (Hmsg : (rs ≫= handshake_data) = hello_message h).
Context (Hsize : Z.of_nat (length (stream rs)) <= maxClientHelloBytes).
Context (Hlast : exists r, last rs = Some r /\ handshake_data r <> []).

(** Taking the next segment: the name with the last one, the buffer before. *)
Lemma take_segment p t d buf rest : d <> [] -> stream rs = (buf ++ d ++ rest)%list ->
buffer (flows (expire p t) !! k) = buf ->
(is_Some (flows (expire p t) !! k) \/ Z.of_nat (size (flows p)) < maxFlows p) ->
let r := Process unicode_lower dns_decode p (segment (t, d)) in
match rest with
| [] => r.1 = [MkNameEvidence (addr_string dst) name "tls_sni" t (t + 10 * Minute)] /\ flows r.2 !! k = None
| _ => r.1 = [] /\ flows r.2 !! k = Some (MkPartial t (buf ++ d))
end.
Proof.
intros Hd E Hb Hroom. assert (Z.of_nat (length (buf ++ d)) <= maxClientHelloBytes) as Hlen.
{ rewrite E, !length_app in Hsize. rewrite length_app. lia. }
assert (is_Some (flows (expire p t) !! k) \/ Z.of_nat (size (flows (expire p t))) < maxFlows (expire p t)) as Hroom'.
{ destruct Hroom; [by left|right]. pose proof (expire_size p t). change (maxFlows (expire p t)) with (maxFlows p). lia. }
pose proof (process_segment p t d Hd Hroom') as Hproc. rewrite Hb in Hproc. rewrite (Hproc Hlen). clear Hproc.
destruct rest as [|x rest].
- rewrite app_nil_r in E. rewrite <- E.
  rewrite (extract_full unicode_lower h name rs) by (first [done | by rewrite Hcode; apply host_name_normal | by apply validServerName_ok]).
  split; [done|]. simpl. apply lookup_delete_eq.
- rewrite app_assoc in E. destruct (extract_prefix unicode_lower h rs (buf ++ d) (x :: rest)) as (m & -> & Hi); try done.
  rewrite Hi. split; [done|]. simpl. apply lookup_insert_eq.
Qed.

(** The packets whose bytes the flow collects. *)
Definition ours (pk : Packet) : bool :=
(pk_Protocol pk =? 6) && (pk_DestinationPort pk =? 443) && negb (length (pk_Payload pk) =? 0)%nat && bool_decide (key_of_packet pk = k).

Lemma ours_segment pk : ours pk = true -> pk = segment (pk_ObservedAt pk, pk_Payload pk) /\ pk_Payload pk <> [].
Proof.
unfold ours. rewrite !andb_true_iff, bool_decide_eq_true, negb_true_iff, !Z.eqb_eq, Nat.eqb_neq.
intros (((Hp & Hd) & Hl) & Hk'). destruct pk as [t s d sp dp pr pl]. unfold key_of_packet, k in Hk'. simpl in *.
injection Hk' as -> -> -> _. subst. split; [done|]. by destruct pl.
Qed.

(** Other packets leave the flow to age. *)
Lemma process_other p pk : ours pk = false ->
flows (Process unicode_lower dns_decode p pk).2 !! k = flows (expire p (pk_ObservedAt pk)) !! k.
Proof.
intros Ho. unfold Process. set (q := expire p (pk_ObservedAt pk)). destruct (_ && (_ || _)).
{ by destruct (ParseDNSMessage _ _ _ _). }
destruct (negb (pk_Protocol pk =? 6) || _ || _) eqn:Eg; [done|].
assert (key_of_packet pk <> k) as Hne.
{ intros E. unfold ours in Ho. rewrite (bool_decide_true _ E), andb_true_r in Ho.
  destruct (pk_Protocol pk =? 6), (pk_DestinationPort pk =? 443), (length (pk_Payload pk) =? 0)%nat; done. }
destruct (_ && (maxFlows q <=? _)); [done|]. destruct (maxClientHelloBytes <? _).
{ simpl. by rewrite lookup_delete_ne. }
repeat case_match; simpl; by rewrite ?lookup_delete_ne, ?lookup_insert_ne by done.
Qed.

(** What the processor reports at the packets of the flow. *)
Definition reports (packets : list Packet) (outs : list (list NameEvidence)) : list (list NameEvidence) :=
snd <$> filter (fun x => ours x.1 = true) (zip packets outs).

Definition told (segs : list (time * list Z)) : list (list NameEvidence) :=
let at_ := default 0 (fst <$> last segs) in
(replicate (length segs - 1) [] ++ [[MkNameEvidence (addr_string dst) name "tls_sni" at_ (at_ + 10 * Minute)]])%list.

Abbreviation run := (process_all unicode_lower dns_decode).

Lemma run_cons p pk packets : run p (pk :: packets) =
((Process unicode_lower dns_decode p pk).1 :: (run (Process unicode_lower dns_decode p pk).2 packets).1,
 (run (Process unicode_lower dns_decode p pk).2 packets).2).
Proof. cbn [process_all]. destruct (Process _ _ p pk) as [e q]. simpl. by destruct (process_all _ _ q packets). Qed.

Lemma reports_cons pk packets o outs :
reports (pk :: packets) (o :: outs) = if ours pk then o :: reports packets outs else reports packets outs.
Proof. unfold reports. cbn [zip zip_with]. rewrite filter_cons. simpl. destruct (ours pk); by case_decide. Qed.

(** Without packets of its own the flow stays away. *)
Lemma settled packets p : filter (fun pk => ours pk = true) packets = [] -> flows p !! k = None ->
reports packets (run p packets).1 = [] /\ flows (run p packets).2 !! k = None.
Proof.
revert p. induction packets as [|pk packets IH]; intros p E Hp; [done|].
rewrite filter_cons in E. destruct (decide (ours pk = true)) as [|Ho]; [done|]. apply not_true_is_false in Ho.
rewrite run_cons. cbn [fst snd]. rewrite reports_cons, Ho. apply IH; [done|]. rewrite process_other by done.
destruct (flows (expire p _) !! k) as [f|] eqn:Ef; [|done]. apply expire_flows in Ef as [Ef _]. congruence.
Qed.

Lemma told_cons s x segs : told (s :: x :: segs) = [] :: told (x :: segs).
Proof. unfold told. cbn [last]. replace (length (s :: x :: segs) - 1)%nat with (S (length (x :: segs) - 1)) by (simpl; lia). done. Qed.

Lemma segment_inj s s' : segment s = segment s' -> s = s'.
Proof. destruct s, s'. unfold segment. simpl. congruence. Qed.

Lemma ours_head packets x segs : filter (fun pk => ours pk = true) packets = segment <$> (x :: segs) -> x.2 <> [].
Proof.
intros Ef. assert (ours (segment x) = true) as [_ Hx]%ours_segment; [|done].
apply (list_elem_of_filter (fun pk => ours pk = true) packets (segment x)). rewrite Ef. left.
Qed.

(** From a buffer on, with other packets in between. *)
Lemma reassemble packets segs p t0 buf : filter (fun pk => ours pk = true) packets = segment <$> segs -> segs <> [] ->
StronglySorted Z.le (pk_ObservedAt <$> packets) -> timely t0 segs -> stream rs = (buf ++ (segs ≫= snd))%list ->
flows p !! k = Some (MkPartial t0 buf) ->
reports packets (run p packets).1 = told segs /\ flows (run p packets).2 !! k = None.
Proof.
revert segs p t0 buf. induction packets as [|pk packets IH]; intros segs p t0 buf Ef Hn Hsort Htl E Hp; [by destruct segs|].
destruct segs as [|[t d] segs]; [done|]. destruct Htl as [Ht Htime]. simpl in Ht. rewrite run_cons. cbn [fst snd]. rewrite reports_cons.
rewrite fmap_cons in Hsort. apply StronglySorted_inv in Hsort as [Hsort Hle]. rewrite filter_cons in Ef.
assert (pk_ObservedAt pk <= t) as Hpk.
{ destruct (decide (ours pk = true)); [rewrite fmap_cons in Ef; injection Ef as -> _; simpl; lia|].
  assert (segment (t, d) ∈ packets) as Hin by (apply (list_elem_of_filter (fun pk => ours pk = true)); rewrite Ef; left).
  rewrite Forall_fmap, Forall_forall in Hle. exact (Hle _ Hin). }
assert (flows (expire p (pk_ObservedAt pk)) !! k = Some (MkPartial t0 buf)) as Hq.
{ apply expire_flows. split; [done|]. unfold stale. simpl. lia. }
destruct (decide (ours pk = true)) as [Ho|Ho].
- rewrite Ho. rewrite fmap_cons in Ef. injection Ef as -> Ef. apply ours_segment in Ho as [_ Hd]. simpl in Hd.
  rewrite bind_cons in E. simpl snd in E.
  change (pk_ObservedAt (segment (t, d))) with t in Hq. pose proof (take_segment p t d buf (segs ≫= snd) Hd E) as Hs. rewrite Hq in Hs. specialize (Hs eq_refl (or_introl (mk_is_Some _ _ eq_refl))).
  destruct segs as [|x segs].
  + destruct Hs as [-> Hk']. destruct (settled packets _ Ef Hk') as [-> ->]. done.
  + pose proof (ours_head packets x segs Ef) as Hx.
    rewrite bind_cons in Hs. destruct (x.2 ++ (segs ≫= snd))%list eqn:Ex; [by destruct (x.2)|]. destruct Hs as [-> Hk'].
    assert (stream rs = (buf ++ d) ++ ((x :: segs) ≫= snd))%list as E' by (by rewrite <- app_assoc).
    destruct (IH (x :: segs) _ t (buf ++ d)%list Ef ltac:(done) Hsort Htime E' Hk') as [-> ->]. by rewrite told_cons.
- apply not_true_is_false in Ho as Ho'. rewrite Ho'. apply (IH ((t, d) :: segs) _ t0 buf); try done.
  by rewrite process_other.
Qed.
(** From the first segment on. *)
Lemma reassembles t d segs p packets : d <> [] -> timely t segs -> (((t, d) :: segs) ≫= snd) = stream rs ->
filter (fun pk => ours pk = true) packets = segment <$> segs -> StronglySorted Z.le (pk_ObservedAt <$> packets) ->
flows p !! k = None -> Z.of_nat (size (flows p)) < maxFlows p ->
let r := run p (segment (t, d) :: packets) in
reports (segment (t, d) :: packets) r.1 = told ((t, d) :: segs) /\ flows r.2 !! k = None.
Proof.
intros Hd Htl E Ef Hsort Hp Hroom. cbv zeta. rewrite run_cons. cbn [fst snd]. rewrite reports_cons.
assert (ours (segment (t, d)) = true) as ->.
{ unfold ours. simpl. rewrite bool_decide_true by done. by destruct d. }
rewrite bind_cons in E. simpl snd in E. symmetry in E.
assert (flows (expire p t) !! k = None) as Hq.
{ destruct (flows (expire p t) !! k) as [f|] eqn:Ek; [|done]. apply expire_flows in Ek as [Ek _]. congruence. }
pose proof (take_segment p t d [] (segs ≫= snd) Hd E) as Hs. rewrite Hq in Hs. specialize (Hs eq_refl (or_intror Hroom)).
destruct segs as [|x segs].
- destruct Hs as [-> Hk']. destruct (settled packets _ Ef Hk') as [-> ->]. done.
- pose proof (ours_head packets x segs Ef) as Hx. rewrite bind_cons in Hs. destruct (x.2 ++ (segs ≫= snd))%list eqn:Ex; [by destruct (x.2)|].
  destruct Hs as [-> Hk']. destruct (reassemble packets (x :: segs) _ t d Ef ltac:(done) Hsort Htl E Hk') as [-> ->]. by rewrite told_cons.
Qed.
End reassembly.

(** ** DNS answers *)

(** An answer that names an Internet address. *)
Definition usable (unicode_lower : string -> string) (a : dns_answer) : Prop :=
  an_Class a = 1 /\ (an_Type a = 1 \/ an_Type a = 28) /\ is_Some (an_IP a) /\
  to_lower unicode_lower (trim_suffix_dot (string_of_bytes (an_Name a))) <> "".

#[export] Instance usable_dec u a : Decision (usable u a).
Proof. unfold usable. apply _. Defined.

(** The evidence an answer gives. *)
Definition answer_as (unicode_lower : string -> string) (observedAt : time) (a : dns_answer) (e : NameEvidence)
  : Prop :=
  exists ip, an_IP a = Some ip /\ ne_IP e = net_ip_string ip /\ ne_Source e = "dns" /\
    ne_Name e = to_lower unicode_lower (trim_suffix_dot (string_of_bytes (an_Name a))) /\
    ne_ValidFrom e = observedAt /\
    ne_ValidUntil e - ne_ValidFrom e = Z.min (24 * Hour) (Z.max (30 * Second) (an_TTL a * Second)) /\
    (Forall is_byte ip -> evidence_ok e <-> length ip = 4%nat \/ length ip = 16%nat).

Lemma answer_guard a :
  negb (an_Class a =? DNSClassIN) || (negb (an_Type a =? DNSTypeA) && negb (an_Type a =? DNSTypeAAAA)) = false <->
  an_Class a = 1 /\ (an_Type a = 1 \/ an_Type a = 28).
Proof.
  unfold DNSClassIN, DNSTypeA, DNSTypeAAAA.
  by rewrite orb_false_iff, andb_false_iff, !negb_false_iff, !Z.eqb_eq.
Qed.

Lemma answer_evidence_some u observedAt a e : observedAt <> zero_time ->
  answer_evidence u observedAt a = Some e -> usable u a /\ answer_as u observedAt a e.
Proof.
  intros Hat. unfold answer_evidence. destruct (an_IP a) as [ip|] eqn:Eip; [|done].
  destruct (_ || _) eqn:Eg; [done|]. apply answer_guard in Eg.
  destruct (String.eqb_spec (to_lower u (trim_suffix_dot (string_of_bytes (an_Name a)))) "") as [|Hn]; [done|].
  intros [= <-]. pose proof (clamp_ttl_range (an_TTL a)) as Hr. unfold usable, answer_as. rewrite Eip.
  destruct Eg. split; [by split_and!|]. exists ip. simpl. split_and!; try done.
  - unfold clamp_ttl, Hour, Minute, Second in *. bool_cases; reflect_bools; lia.
  - intros Hb. rewrite <- (net_ip_string_ok ip Hb). unfold evidence_ok. simpl.
    unfold Second in Hr. split; [by intros [? _]|]. intros ?. split_and!; try done. lia.
Qed.

Lemma answer_evidence_none u observedAt a : answer_evidence u observedAt a = None -> ~ usable u a.
Proof.
  unfold answer_evidence, usable. intros H (Hc & Ht & [ip Eip] & Hn). rewrite Eip in H.
  rewrite (proj2 (answer_guard a)) in H by done. by destruct (String.eqb_spec (to_lower u (trim_suffix_dot (string_of_bytes (an_Name a)))) "").
Qed.

(** ** Properties *)

(** C38. However the ClientHello of a flow is cut into TLS records and those into TCP
    segments that arrive in order, and whatever packets of other flows arrive in between,
    the processor reports its server name exactly once, with the last segment, and frees
    the flow.  For a lower-case host name and a hello within the limit of bytes, when the
    first segment finds a free slot for the flow, consecutive segments are at most five
    seconds apart and the packets are seen in the order of their times. *)
Theorem segments_reassembled unicode_lower dns_decode src dst sport h name rs segs p s packets :
  let flow := MkFlowKey src dst sport 443 in
  hello_ok h -> host_name name -> ch_name h = code <$> chars name ->
  Forall record_ok rs -> (rs ≫= handshake_data) = hello_message h ->
  Z.of_nat (length (stream rs)) <= maxClientHelloBytes ->
  (exists r, last rs = Some r /\ handshake_data r <> []) ->
  s.2 <> [] -> timely s.1 segs -> ((s :: segs) ≫= snd) = stream rs ->
  filter (fun pk => ours src dst sport pk = true) packets = segment src dst sport <$> segs ->
  StronglySorted Z.le (pk_ObservedAt <$> packets) ->
  flows p !! flow = None -> Z.of_nat (size (flows p)) < maxFlows p ->
  let all := segment src dst sport s :: packets in
  let r := process_all unicode_lower dns_decode p all in
  reports src dst sport all r.1 = told dst name (s :: segs) /\ flows r.2 !! flow = None.
Proof.
  intros flow Hk Hn Hc Hrs Hm Hs Hl Hne Ht Hcat Hf Hsort Hp Hroom all r. destruct s as [t d]. simpl in *.
  apply (reassembles unicode_lower dns_decode src dst sport h name rs Hk Hn Hc Hrs Hm Hs Hl); try done.
Qed.

(** The processor's memory is bounded: after any packets it holds at most the
    configured number of flows (4096 by default) and at most 64 KiB of each. *)
Theorem processor_bounded unicode_lower dns_decode MaxFlows packets :
  let p := snd (process_all unicode_lower dns_decode (NewProcessor MaxFlows) packets) in
  0 < maxFlows p /\ Z.of_nat (size (flows p)) <= maxFlows p /\
  sumZ (fun kv => Z.of_nat (length (payload_ kv.2))) (map_to_list (flows p)) <= maxFlows p * 65536.
Proof.
  intros p. pose proof (process_all_ok unicode_lower dns_decode packets _ (NewProcessor_ok MaxFlows)) as [Hm Hs Hp].
  fold p in Hm, Hs, Hp. split_and!; [done|done|].
  assert (forall l : list (flowKey * partialFlow),
    (forall kv, kv ∈ l -> Z.of_nat (length (payload_ kv.2)) <= 65536) ->
    sumZ (fun kv => Z.of_nat (length (payload_ kv.2))) l <= Z.of_nat (length l) * 65536) as Hl.
  { induction l as [|x l IH]; intros H; simpl; [lia|].
    pose proof (H x (list_elem_of_here _ _)).
    assert (forall kv, kv ∈ l -> Z.of_nat (length (payload_ kv.2)) <= 65536) as H' by (intros; apply H; by constructor).
    specialize (IH H'). lia. }
  etransitivity; [apply Hl|].
  - intros [k f] Hin%elem_of_map_to_list. apply (Hp k f Hin).
  - rewrite length_map_to_list. lia.
Qed.

(** DNS evidence: a response without an error yields, in order, one piece of
    evidence per usable answer (class IN, type A or AAAA, an address and a name); it
    is valid for the answer's lifetime clamped to between 30 seconds and a day; and
    it passes validation exactly when the address has four or sixteen bytes. *)
Theorem dns_evidence unicode_lower dns_decode payload observedAt es :
  ParseDNSMessage unicode_lower dns_decode payload observedAt = Some es -> observedAt <> zero_time ->
  exists dns, dns_decode (strip_length payload) = Some dns /\
  if dns_QR dns && (dns_ResponseCode dns =? 0)
  then Forall2 (fun a e => answer_as unicode_lower observedAt a e)
         (filter (usable unicode_lower) (dns_Answers dns)) es
  else es = [].
Proof.
  unfold ParseDNSMessage. destruct (dns_decode (strip_length payload)) as [dns|]; [|done].
  intros H Hat. exists dns. split; [done|]. rewrite <- negb_andb in H.
  unfold DNSResponseCodeNoErr in H. destruct (dns_QR dns && (dns_ResponseCode dns =? 0)); simpl in H; [|congruence].
  injection H as <-. induction (dns_Answers dns) as [|a l IH]; [constructor|].
  cbn [omap list_omap]. rewrite filter_cons. unfold omap in IH.
  destruct (answer_evidence unicode_lower observedAt a) as [e|] eqn:E.
  - apply (answer_evidence_some unicode_lower observedAt a e Hat) in E as [Hu Ha].
    rewrite decide_True by done. by constructor.
  - rewrite decide_False by (by eapply answer_evidence_none). done.
Qed.

(** ** Witnesses *)

Module CaptureSample.
Definition client : netip_addr := Addr4 [10; 0; 0; 2].
Definition server_ip : netip_addr := Addr4 [203; 0; 113; 10].

(** The sample handshake in three TCP segments, one second apart, with the start of
    another hello, a reply and a DNS answer in between. *)
Definition bytes : list Z := stream TlsSample.split_records.
Definition first : time * list Z := (Second, take 3 bytes).
Definition segs : list (time * list Z) := [(2 * Second, take 30 (drop 3 bytes)); (3 * Second, drop 33 bytes)].
Definition packets : list Packet :=
match segment client server_ip 42000 <$> segs with
| [second; third] =>
    [segment client server_ip 42001 (Second, take 5 bytes); MkPacket Second server_ip client 443 42000 6 [0]; second;
     MkPacket (2 * Second) server_ip client 53 42002 17 [0]; segment client server_ip 42001 (3 * Second, take 9 (drop 5 bytes)); third]
| _ => []
end.

Definition decode (_ : list Z) : option dns_message :=
Some (MkDNS true 0 [MkAnswer (code <$> chars "Example.com.") 1 1 5 (Some [203; 0; 113; 10])]).
End CaptureSample.

Lemma segments_reassembled_witness :
  let all := segment CaptureSample.client CaptureSample.server_ip 42000 CaptureSample.first :: CaptureSample.packets in
  let r := process_all (fun s => s) CaptureSample.decode (NewProcessor 0) all in
  reports CaptureSample.client CaptureSample.server_ip 42000 all r.1 =
    [[]; []; [MkNameEvidence "203.0.113.10" TlsSample.server "tls_sni" (3 * Second) (3 * Second + 10 * Minute)]] /\
  size (flows r.2) = 1%nat.
Proof.
  assert (StronglySorted Z.le (pk_ObservedAt <$> CaptureSample.packets)) as Hsort.
  { unfold CaptureSample.packets. repeat constructor; by vm_compute. }
  pose proof (segments_reassembled (fun s => s) CaptureSample.decode CaptureSample.client CaptureSample.server_ip 42000
    TlsSample.hello TlsSample.server TlsSample.split_records CaptureSample.segs (NewProcessor 0) CaptureSample.first CaptureSample.packets
    TlsSample.hello_fine TlsSample.server_fine eq_refl TlsSample.split_fine ltac:(by vm_compute) ltac:(by vm_compute)
    ltac:(eexists; split; [reflexivity|by vm_compute]) ltac:(by vm_compute) ltac:(by vm_compute) ltac:(by vm_compute)
    ltac:(by vm_compute) Hsort ltac:(done) ltac:(by vm_compute)) as [H _].
  split; [exact H|by vm_compute].
Defined.

Lemma dns_evidence_witness :
  exists dns, CaptureSample.decode (strip_length []) = Some dns /\
  if dns_QR dns && (dns_ResponseCode dns =? 0)
  then Forall2 (fun a e => answer_as (fun s => s) Second a e) (filter (usable (fun s => s)) (dns_Answers dns))
         [MkNameEvidence "203.0.113.10" "example.com" "dns" Second (31 * Second)]
  else [MkNameEvidence "203.0.113.10" "example.com" "dns" Second (31 * Second)] = [].
Proof.
  apply (dns_evidence (fun s => s) CaptureSample.decode [] Second); [vm_compute; reflexivity|by vm_compute].
Defined.
