(* ===== verification/Attribution.v ===== *)
(** * Naming and classifying connections on the server

    [internal/server/attribution/engine.go]: which name a connection is shown
    under, how sure it is, and the direction it is counted in.

    [sort.Slice] is not stable, so what it returns for equal elements is open: the
    code is modelled over any function that meets its contract
    ([SortSlice]), and the results are shown not to depend on it. *)

From stdpp Require Import base strings numbers sorting list.
From S2P Require Import Prelude GoBase GoText GoModel.

Open Scope string_scope.
Open Scope Z_scope.

(** ** Names *)

Record Decision : Type := MkDecision {
  DisplayName : string; dec_Confidence : string; EvidenceSource : string;
  EvidenceObservedAt : option time }.

Definition evidenceStrength (source : string) : Z :=
  if String.eqb source "tls_sni" then 2
  else if String.eqb source "dns" then 1
  else 0.

(** The comparison given to [sort.Slice]. *)
Definition evidence_less (a b : NameEvidence) : bool :=
  let l := evidenceStrength (ne_Source a) in
  let r := evidenceStrength (ne_Source b) in
  if negb (l =? r) then r <? l
  else if negb (ne_ValidFrom a =? ne_ValidFrom b) then ne_ValidFrom b <? ne_ValidFrom a
  else String.ltb (ne_Name a) (ne_Name b).

(** A strict weak order, what [sort.Slice] asks of its comparison. *)
Definition strict_weak (less : NameEvidence -> NameEvidence -> bool) : Prop :=
  (forall a b, less a b = true -> less b a = false) /\
  (forall a b c, less b a = false -> less c b = false -> less c a = false).

(** [sort.Slice(x, less)]: a permutation with no element before one it must follow. *)
Class SortSlice (sort : (NameEvidence -> NameEvidence -> bool) -> list NameEvidence -> list NameEvidence)
  : Prop := {
  sort_perm less l : sort less l ≡ₚ l;
  sort_sorted less l : strict_weak less -> StronglySorted (fun a b => less b a = false) (sort less l) }.

Definition candidate (connection : ConnectionDelta) (observedAt : time) (item : NameEvidence) : bool :=
  String.eqb (ne_IP item) (ep_IP (cd_Remote connection)) && negb (observedAt <? ne_ValidFrom item) &&
  (observedAt <? ne_ValidUntil item).

Definition DecideAt (sort : (NameEvidence -> NameEvidence -> bool) -> list NameEvidence -> list NameEvidence)
  (connection : ConnectionDelta) (evidence : list NameEvidence) (observedAt : time) : Decision :=
  let remote := cd_Remote connection in
  if negb (String.eqb (ep_Domain remote) "") && String.eqb (ep_Confidence remote) ConfidenceConfirmed
  then MkDecision (ep_Domain remote) ConfidenceConfirmed "connection" None
  else
    match sort evidence_less (filter (fun item => candidate connection observedAt item = true) evidence) with
    | [] => MkDecision (ep_IP remote) ConfidenceIPOnly "" None
    | chosen :: _ =>
        let confidence :=
          if String.eqb (ne_Source chosen) "tls_sni" then ConfidenceConfirmed else ConfidenceInferred in
        MkDecision (ne_Name chosen) confidence (ne_Source chosen) (Some (ne_ValidFrom chosen))
    end.

(** ** Directions *)

(** [netip.Prefix]: an address and a number of leading bits. *)
Record prefix : Type := MkPrefix { pfx_ip : ip_addr; pfx_bits : Z }.

Definition addr_value (b : list Z) : Z := be_val b.

Definition Unmap (a : ip_addr) : ip_addr :=
  match a with
  | IPv6 b _ => if bool_decide (take 12 b = replicate 10 0 ++ [255; 255])%list then IPv4 (drop 12 b) else a
  | IPv4 _ => a
  end.

Definition IsLoopback (a : ip_addr) : bool :=
  match Unmap a with
  | IPv4 b => nth 0 b 0 =? 127
  | IPv6 b _ => addr_value b =? 1
  end.

Definition IsLinkLocalUnicast (a : ip_addr) : bool :=
  match Unmap a with
  | IPv4 b => (nth 0 b 0 =? 169) && (nth 1 b 0 =? 254)
  | IPv6 b _ => Z.shiftr (addr_value b) 118 =? 1018
  end.

(** [Prefix.Contains]: same family, no zone, same leading bits. *)
Definition Contains (p : prefix) (a : ip_addr) : bool :=
  match pfx_ip p, a with
  | IPv4 x, IPv4 y =>
      Z.shiftr (Z.lxor (addr_value x) (addr_value y)) (32 - pfx_bits p) =? 0
  | IPv6 x _, IPv6 y zone =>
      String.eqb zone "" && (Z.shiftr (Z.lxor (addr_value x) (addr_value y)) (128 - pfx_bits p) =? 0)
  | _, _ => false
  end.

Definition isLocal (address : ip_addr) (prefixes : list prefix) : bool :=
  if IsLoopback address || IsLinkLocalUnicast address then true
  else existsb (fun p => Contains p address) prefixes.

Definition ClassifyDirection (connection : ConnectionDelta) (localPrefixes : list prefix) : string :=
  match ParseAddr (ep_IP (cd_Local connection)), ParseAddr (ep_IP (cd_Remote connection)) with
  | Some localAddress, Some remoteAddress =>
      let localIsLocal := isLocal localAddress localPrefixes in
      let remoteIsLocal := isLocal remoteAddress localPrefixes in
      if localIsLocal && remoteIsLocal then
        if String.eqb (own_Kind (cd_Owner connection)) OwnerContainer then DirectionContainer
        else DirectionInternal
      else if localIsLocal && negb remoteIsLocal then
        if (ep_Port (cd_Local connection) <=? 32767) && (32767 <? ep_Port (cd_Remote connection))
        then DirectionInbound else DirectionOutbound
      else if negb localIsLocal && remoteIsLocal then DirectionInbound
      else DirectionOutbound
  | _, _ => DirectionInternal
  end.

(** ** Specification *)

(** [a] is at least as good evidence as [b]: stronger source, then more recent, then
    first in the order of names. *)
Definition better_eq (a b : NameEvidence) : Prop :=
  evidenceStrength (ne_Source b) < evidenceStrength (ne_Source a) \/
  (evidenceStrength (ne_Source a) = evidenceStrength (ne_Source b) /\
   (ne_ValidFrom b < ne_ValidFrom a \/
    (ne_ValidFrom a = ne_ValidFrom b /\ str_le (ne_Name a) (ne_Name b)))).

(** Evidence that applies to a connection at an instant. *)
Definition applies (connection : ConnectionDelta) (observedAt : time) (e : NameEvidence) : Prop :=
  ne_IP e = ep_IP (cd_Remote connection) /\ ne_ValidFrom e <= observedAt < ne_ValidUntil e.

(** The agent itself named the remote end. *)
Definition confirmed_directly (connection : ConnectionDelta) : Prop :=
  ep_Domain (cd_Remote connection) <> "" /\ ep_Confidence (cd_Remote connection) = ConfidenceConfirmed.

Definition decision_from (e : NameEvidence) : Decision :=
  MkDecision (ne_Name e)
    (if decide (ne_Source e = "tls_sni") then ConfidenceConfirmed else ConfidenceInferred)
    (ne_Source e) (Some (ne_ValidFrom e)).

(** ** Lemmas: names *)

Lemma ltb_leb a b : String.ltb b a = false <-> str_le a b.
Proof.
  unfold str_le, String.ltb, String.leb. rewrite (String.compare_antisym b a).
  by destruct (String.compare a b).
Qed.

Lemma evidence_less_spec a b : evidence_less b a = false <-> better_eq a b.
Proof.
  unfold evidence_less, better_eq. cbv zeta.
  destruct (Z.eqb_spec (evidenceStrength (ne_Source b)) (evidenceStrength (ne_Source a))) as [E|E]; simpl.
  - destruct (Z.eqb_spec (ne_ValidFrom b) (ne_ValidFrom a)) as [F|F]; simpl.
    + rewrite ltb_leb, E, F. intuition lia.
    + rewrite Z.ltb_ge, E. intuition lia.
  - rewrite Z.ltb_ge. intuition lia.
Qed.

Lemma better_eq_trans a b c : better_eq a b -> better_eq b c -> better_eq a c.
Proof.
  unfold better_eq. intros H1 H2.
  destruct H1 as [H1|(H1 & [F1|(F1 & N1)])], H2 as [H2|(H2 & [F2|(F2 & N2)])]; try lia.
  right. split; [lia|]. right. split; [lia|]. by etransitivity.
Qed.

Lemma better_eq_total a b : better_eq a b \/ better_eq b a.
Proof.
  unfold better_eq. destruct (str_le_total (ne_Name a) (ne_Name b)); 
  destruct (Z.lt_trichotomy (evidenceStrength (ne_Source a)) (evidenceStrength (ne_Source b))) as [|[|]]; try lia;
  destruct (Z.lt_trichotomy (ne_ValidFrom a) (ne_ValidFrom b)) as [|[|]]; try lia; naive_solver.
Qed.

Lemma evidence_less_weak : strict_weak evidence_less.
Proof.
  split.
  - intros a b H. apply evidence_less_spec. destruct (better_eq_total a b) as [|Hba]; [done|].
    apply evidence_less_spec in Hba. congruence.
  - intros a b c. rewrite !evidence_less_spec. apply better_eq_trans.
Qed.

Lemma candidate_spec c t e : candidate c t e = true <-> applies c t e.
Proof.
  unfold candidate, applies. rewrite !andb_true_iff, negb_true_iff, String.eqb_eq, Z.ltb_ge, Z.ltb_lt. naive_solver.
Qed.

Section names.
Context sort `{SortSlice sort}.

(** What the sort puts first: the best applicable evidence, if there is any. *)
Lemma sort_head conn evidence t :
match sort evidence_less (filter (fun e => candidate conn t e = true) evidence) with
| [] => forall e, e ∈ evidence -> ~ applies conn t e
| chosen :: _ =>
    chosen ∈ evidence /\ applies conn t chosen /\
    forall e, e ∈ evidence -> applies conn t e -> better_eq chosen e
end.
Proof.
set (l := filter _ evidence). pose proof (sort_perm evidence_less l) as Hp.
pose proof (sort_sorted evidence_less l evidence_less_weak) as Hs.
assert (forall e, e ∈ sort evidence_less l <-> e ∈ evidence /\ applies conn t e) as Hin.
{ intros e. rewrite Hp. unfold l. rewrite list_elem_of_filter, candidate_spec. naive_solver. }
destruct (sort evidence_less l) as [|c rest].
- intros e He Ha. assert (e ∈ []) as H0 by (by apply Hin). by apply elem_of_nil in H0.
- apply StronglySorted_inv in Hs as [_ Hall]. rewrite Forall_forall in Hall.
  destruct (Hin c) as [[Hc1 Hc2] _]; [by constructor|]. split_and!; [done|done|].
  intros e He Ha. assert (e ∈ c :: rest) as He' by (by apply Hin).
  apply elem_of_cons in He' as [->|He']; [by destruct (better_eq_total c c)|].
  apply evidence_less_spec. by apply Hall.
Qed.

Lemma DecideAt_eq conn evidence t : ~ confirmed_directly conn ->
DecideAt sort conn evidence t =
match sort evidence_less (filter (fun e => candidate conn t e = true) evidence) with
| [] => MkDecision (ep_IP (cd_Remote conn)) ConfidenceIPOnly "" None
| chosen :: _ => decision_from chosen
end.
Proof.
intros Hn. unfold DecideAt, decision_from, confirmed_directly in *.
destruct (String.eqb_spec (ep_Domain (cd_Remote conn)) ""), 
  (String.eqb_spec (ep_Confidence (cd_Remote conn)) ConfidenceConfirmed); simpl; try naive_solver;
destruct (sort evidence_less _) as [|c rest]; try done;
destruct (String.eqb_spec (ne_Source c) "tls_sni"); case_decide; done.
Qed.
End names.

(** ** Lemmas: directions *)

(** Two addresses agree on all bits from [k] up. *)
Lemma shiftr_lxor_zero x y k : 0 <= k ->
  (Z.shiftr (Z.lxor x y) k =? 0) = true <-> forall i, k <= i -> Z.testbit x i = Z.testbit y i.
Proof.
  intros Hk. rewrite Z.eqb_eq. split.
  - intros E i Hi. apply (f_equal (fun z => Z.testbit z (i - k))) in E.
    rewrite Z.shiftr_spec, Z.bits_0, Z.lxor_spec in E by lia.
    replace (i - k + k) with i in E by lia. by apply xorb_eq in E.
  - intros H. apply Z.bits_inj'. intros n Hn.
    rewrite Z.shiftr_spec, Z.bits_0, Z.lxor_spec by done. rewrite H by lia. apply xorb_nilpotent.
Qed.

(** The address lies in the network of the prefix: same family, no zone, and the
    first [bits] bits are those of the prefix. *)
Definition in_network (p : prefix) (a : ip_addr) : Prop :=
  match pfx_ip p, a with
  | IPv4 x, IPv4 y => forall i, 32 - pfx_bits p <= i -> Z.testbit (addr_value x) i = Z.testbit (addr_value y) i
  | IPv6 x _, IPv6 y zone =>
      zone = "" /\ forall i, 128 - pfx_bits p <= i -> Z.testbit (addr_value x) i = Z.testbit (addr_value y) i
  | _, _ => False
  end.

Definition prefix_ok (p : prefix) : Prop :=
  match pfx_ip p with IPv4 _ => 0 <= pfx_bits p <= 32 | IPv6 _ _ => 0 <= pfx_bits p <= 128 end.

Definition local_address (prefixes : list prefix) (a : ip_addr) : Prop :=
  IsLoopback a = true \/ IsLinkLocalUnicast a = true \/ exists p, p ∈ prefixes /\ in_network p a.

Lemma Contains_spec p a : prefix_ok p -> Contains p a = true <-> in_network p a.
Proof.
  unfold prefix_ok, Contains, in_network. destruct (pfx_ip p) as [x|x z], a as [y|y zone]; try done; intros Hp.
  - apply shiftr_lxor_zero. lia.
  - rewrite andb_true_iff, String.eqb_eq, shiftr_lxor_zero by lia. done.
Qed.

Lemma isLocal_spec prefixes a : Forall prefix_ok prefixes ->
  isLocal a prefixes = true <-> local_address prefixes a.
Proof.
  intros Hp. unfold isLocal, local_address.
  destruct (IsLoopback a), (IsLinkLocalUnicast a); simpl; try (split; [by auto|done]).
  rewrite existsb_exists. split.
  - intros (p & Hin%list_elem_of_In & Hc). right; right. exists p. split; [done|].
    apply Contains_spec; [|done]. rewrite Forall_forall in Hp. by apply Hp.
  - intros [?|[?|(p & Hin & Hn)]]; [done..|]. exists p. rewrite <- list_elem_of_In. split; [done|].
    apply Contains_spec; [|done]. rewrite Forall_forall in Hp. by apply Hp.
Qed.

(** ** Properties *)

(** The name of a connection comes from the best evidence: unless the agent
    confirmed a name itself, [DecideAt] takes, of the evidence for the remote address
    that is valid at the instant, one that no other beats on source strength, then
    recency, then name, and calls it confirmed exactly when it is a TLS server name;
    without such evidence it shows the bare address. *)
Theorem decide_best sort conn evidence t : SortSlice sort -> ~ confirmed_directly conn ->
  (exists chosen, chosen ∈ evidence /\ applies conn t chosen /\
     (forall e, e ∈ evidence -> applies conn t e -> better_eq chosen e) /\
     DecideAt sort conn evidence t = decision_from chosen) \/
  ((forall e, e ∈ evidence -> ~ applies conn t e) /\
   DecideAt sort conn evidence t = MkDecision (ep_IP (cd_Remote conn)) ConfidenceIPOnly "" None).
Proof.
  intros Hsort Hn. rewrite DecideAt_eq by done. pose proof (sort_head sort conn evidence t) as Hh.
  destruct (sort _ _) as [|c rest]; [by right|]. left. destruct Hh as (? & ? & ?). by exists c.
Qed.

(** C39. What is shown does not depend on the order of the evidence or on how the
    unstable sort breaks ties: any two runs over permutations of the same evidence
    agree on name, confidence and time. *)
Theorem decide_order_independent sort sort' conn evidence evidence' t :
  SortSlice sort -> SortSlice sort' -> evidence ≡ₚ evidence' ->
  let d := DecideAt sort conn evidence t in
  let d' := DecideAt sort' conn evidence' t in
  DisplayName d = DisplayName d' /\ dec_Confidence d = dec_Confidence d' /\
  EvidenceObservedAt d = EvidenceObservedAt d'.
Proof.
  intros Hs Hs' Hperm. destruct (decide (confirmed_directly conn)) as [[Hd Hc]|Hn].
  { unfold DecideAt. rewrite Hc. destruct (String.eqb_spec (ep_Domain (cd_Remote conn)) ""); done. }
  cbv zeta. rewrite !DecideAt_eq by done.
  pose proof (sort_head sort conn evidence t) as Hh. pose proof (sort_head sort' conn evidence' t) as Hh'.
  destruct (sort _ _) as [|c rest], (sort' _ _) as [|c' rest']; try done.
  - destruct Hh' as (Hin & Ha & _). rewrite <- Hperm in Hin. by destruct (Hh c' Hin).
  - destruct Hh as (Hin & Ha & _). rewrite Hperm in Hin. by destruct (Hh' c Hin).
  - destruct Hh as (Hin & Ha & Hb), Hh' as (Hin' & Ha' & Hb').
    assert (better_eq c c') as H1 by (apply Hb; [by rewrite Hperm|done]).
    assert (better_eq c' c) as H2 by (apply Hb'; [by rewrite <- Hperm|done]).
    unfold better_eq in H1, H2.
    assert (evidenceStrength (ne_Source c) = evidenceStrength (ne_Source c')) as Est by lia.
    assert (ne_ValidFrom c = ne_ValidFrom c') as Efr by lia.
    assert (ne_Name c = ne_Name c') as Enm.
    { apply (anti_symm str_le); [destruct H1 as [?|(_ & [?|(_ & ?)])]|destruct H2 as [?|(_ & [?|(_ & ?)])]]; lia || done. }
    unfold decision_from. simpl. rewrite Efr, Enm. split_and!; try done.
    unfold evidenceStrength in Est.
    destruct (String.eqb_spec (ne_Source c) "tls_sni"), (String.eqb_spec (ne_Source c') "tls_sni");
      repeat case_decide; try done; exfalso; destruct (String.eqb_spec (ne_Source c) "dns"),
        (String.eqb_spec (ne_Source c') "dns"); lia.
Qed.

(** The direction of a connection: between two local addresses it is internal,
    or container traffic when a container owns it; from a local to a remote address
    it is outbound, unless a low local port talks to an ephemeral remote one; into a
    local address from elsewhere it is inbound; unparseable addresses count as
    internal.  Local means loopback, link-local or in one of the configured
    networks. *)
Theorem classify_direction conn prefixes : Forall prefix_ok prefixes ->
  match ParseAddr (ep_IP (cd_Local conn)), ParseAddr (ep_IP (cd_Remote conn)) with
  | Some l, Some r =>
      (local_address prefixes l -> local_address prefixes r ->
         ClassifyDirection conn prefixes =
         if decide (own_Kind (cd_Owner conn) = OwnerContainer) then DirectionContainer else DirectionInternal) /\
      (local_address prefixes l -> ~ local_address prefixes r ->
         ClassifyDirection conn prefixes =
         if decide (ep_Port (cd_Local conn) <= 32767 < ep_Port (cd_Remote conn))
         then DirectionInbound else DirectionOutbound) /\
      (~ local_address prefixes l -> local_address prefixes r -> ClassifyDirection conn prefixes = DirectionInbound) /\
      (~ local_address prefixes l -> ~ local_address prefixes r ->
         ClassifyDirection conn prefixes = DirectionOutbound)
  | _, _ => ClassifyDirection conn prefixes = DirectionInternal
  end.
Proof.
  intros Hp. unfold ClassifyDirection.
  destruct (ParseAddr (ep_IP (cd_Local conn))) as [l|], (ParseAddr (ep_IP (cd_Remote conn))) as [r|]; try done.
  pose proof (isLocal_spec prefixes l Hp) as Hl. pose proof (isLocal_spec prefixes r Hp) as Hr.
  assert (isLocal l prefixes = false <-> ~ local_address prefixes l) as Hl' by (rewrite <- Hl, not_true_iff_false; done).
  assert (isLocal r prefixes = false <-> ~ local_address prefixes r) as Hr' by (rewrite <- Hr, not_true_iff_false; done).
  split_and!; intros H1 H2; [rewrite (proj2 Hl H1), (proj2 Hr H2)|rewrite (proj2 Hl H1), (proj2 Hr' H2)
    |by rewrite (proj2 Hl' H1), (proj2 Hr H2)|by rewrite (proj2 Hl' H1), (proj2 Hr' H2)]; simpl.
  - destruct (String.eqb_spec (own_Kind (cd_Owner conn)) OwnerContainer); case_decide; done.
  - destruct (Z.leb_spec (ep_Port (cd_Local conn)) 32767), (Z.ltb_spec 32767 (ep_Port (cd_Remote conn)));
      case_decide; simpl; try done; lia.
Qed.

(** ** Witnesses *)

Module NamingSample.
(** A sort that meets the contract. *)
Definition follows (less : NameEvidence -> NameEvidence -> bool) (a b : NameEvidence) : Prop := less b a = false.

#[export] Instance follows_dec less : RelDecision (follows less).
Proof. intros a b. unfold follows. apply _. Defined.

Definition sort (less : NameEvidence -> NameEvidence -> bool) (l : list NameEvidence) : list NameEvidence :=
merge_sort (follows less) l.

#[export] Instance sort_ok : SortSlice sort.
Proof.
constructor.
- intros. apply merge_sort_Permutation.
- intros less l [Hasym Htrans].
  assert (Transitive (follows less)) by (intros a b c; apply Htrans).
  assert (Total (follows less)).
  { intros a b. unfold follows. destruct (less b a) eqn:E; [right; by apply Hasym|by left]. }
  apply (StronglySorted_merge_sort (follows less)); apply _.
Qed.

Definition endpoint (ip : string) (port : Z) : Endpoint := MkEndpoint ip port "" ConfidenceIPOnly.
Definition conn : ConnectionDelta :=
MkConnectionDelta "tcp" (endpoint "10.0.0.2" 42000) (endpoint "203.0.113.10" 443)
  (MkOwnerRef OwnerProcess 42 "curl" "" "") 100 200 "".
Definition old_dns : NameEvidence := MkNameEvidence "203.0.113.10" "old.example" "dns" 1 (10 * Second).
Definition new_dns : NameEvidence := MkNameEvidence "203.0.113.10" "new.example" "dns" 2 (10 * Second).
Definition sni : NameEvidence := MkNameEvidence "203.0.113.10" "tls.example" "tls_sni" 1 (10 * Second).
Definition networks : list prefix := [MkPrefix (IPv4 [10; 0; 0; 0]) 8; MkPrefix (IPv4 [172; 16; 0; 0]) 12].

Example decide_sni : DisplayName (DecideAt sort conn [old_dns; new_dns; sni] Second) = "tls.example".
Proof. vm_compute. reflexivity. Qed.
Example decide_recent : DisplayName (DecideAt sort conn [old_dns; new_dns] Second) = "new.example".
Proof. vm_compute. reflexivity. Qed.
Example classify_outbound : ClassifyDirection conn networks = "outbound".
Proof. vm_compute. reflexivity. Qed.
End NamingSample.
Import NamingSample.

Lemma decide_best_witness :
  (exists chosen, chosen ∈ [old_dns; new_dns; sni] /\ applies conn Second chosen /\
     (forall e, e ∈ [old_dns; new_dns; sni] -> applies conn Second e -> better_eq chosen e) /\
     DecideAt sort conn [old_dns; new_dns; sni] Second = decision_from chosen) \/
  ((forall e, e ∈ [old_dns; new_dns; sni] -> ~ applies conn Second e) /\
   DecideAt sort conn [old_dns; new_dns; sni] Second = MkDecision "203.0.113.10" ConfidenceIPOnly "" None).
Proof.
  apply (decide_best sort conn [old_dns; new_dns; sni] Second); [apply sort_ok|]. intros [H _]. by apply H.
Defined.

Lemma decide_order_independent_witness :
  DisplayName (DecideAt sort conn [old_dns; sni] Second) = DisplayName (DecideAt sort conn [sni; old_dns] Second).
Proof.
  apply (decide_order_independent sort sort conn [old_dns; sni] [sni; old_dns] Second sort_ok sort_ok).
  apply perm_swap.
Defined.

Lemma classify_direction_witness :
  ParseAddr "203.0.113.10" = Some (IPv4 [203; 0; 113; 10]) /\
  ~ local_address networks (IPv4 [203; 0; 113; 10]) /\ ClassifyDirection conn networks = DirectionOutbound.
Proof.
  assert (Forall prefix_ok networks) as Hp by (repeat constructor; simpl; lia).
  assert (~ local_address networks (IPv4 [203; 0; 113; 10])) as Hr
    by (rewrite <- (isLocal_spec networks _ Hp); by vm_compute).
  split_and!; [reflexivity|done|].
  destruct (classify_direction conn networks Hp) as (_ & H & _). rewrite (H ltac:(by apply (isLocal_spec networks _ Hp); vm_compute) Hr).
  rewrite decide_False; [reflexivity|]. simpl. lia.
Defined.
