(* ===== verification/Alerts.v ===== *)
(** * Alert rules and the life of an alert

    [internal/server/alerts]: [evaluator.go] turns an observation into findings,
    [store.go] moves an alert through its states.  The comparisons are on [float64]
    values as the code makes them. *)

From stdpp Require Import base strings numbers gmap list.
From Stdlib Require Import Ascii SpecFloat.
From S2P Require Import Prelude GoBase GoText Sha256.

Open Scope string_scope.
Open Scope Z_scope.

(** ** [model.go] *)

Inductive Kind : Type :=
| KindAbsoluteRate | KindOwnerBaseline | KindNewDestination | KindDomainCoverage | KindAgentStale
| KindCollectorUnhealthy | KindBufferPressure | KindDatabasePressure | KindWebhookFailures
| KindOther (name : string).

Definition kind_string (k : Kind) : string :=
  match k with
  | KindAbsoluteRate => "absolute_rate"
  | KindOwnerBaseline => "owner_baseline"
  | KindNewDestination => "new_destination"
  | KindDomainCoverage => "domain_coverage"
  | KindAgentStale => "agent_stale"
  | KindCollectorUnhealthy => "collector_unhealthy"
  | KindBufferPressure => "buffer_pressure"
  | KindDatabasePressure => "database_pressure"
  | KindWebhookFailures => "webhook_failures"
  | KindOther name => name
  end.

Definition SeverityInfo : string := "info".
Definition SeverityWarning : string := "warning".
Definition SeverityCritical : string := "critical".

Record Rule : Type := MkRule {
  ru_ID : string; ru_Kind : Kind; ru_Name : string; ru_Enabled : bool; ru_Severity : string;
  ru_Threshold : float64; ru_Multiplier : float64; ru_WindowSeconds : Z }.

Record Observation : Type := MkObservation {
  ob_NodeID : string; RateBPS : float64; ob_OwnerID : string; OwnerBytes : float64;
  OwnerBaselineBytes : float64; Destination : string; DestinationIsNew : bool;
  DomainCoverage : float64; AgentAgeSeconds : float64; ob_Collector : string;
  CollectorHealthy : bool; BufferUsagePercent : float64; DatabaseUsagePercent : float64;
  WebhookTerminalFailures : float64 }.

Record Finding : Type := MkFinding {
  fi_RuleID : string; fi_Fingerprint : string; Title : string; fi_Severity : string;
  fi_NodeID : string; fi_OwnerID : option string; StartedAt : time; ObservedValue : float64;
  ComparisonValue : option float64; fi_WindowSeconds : Z; Evidence : gmap string string }.

(** ** [evaluator.go] *)

Definition boolNumber (value : bool) : float64 := if value then f64_of_Z 1 else f64_of_Z 0.

(** Observed value, comparison value and whether the rule triggers. *)
Definition values (rule : Rule) (o : Observation) : float64 * float64 * bool :=
  match ru_Kind rule with
  | KindAbsoluteRate => (RateBPS o, ru_Threshold rule, f64_ltb (ru_Threshold rule) (RateBPS o))
  | KindOwnerBaseline =>
      let comparison := f64_mul (OwnerBaselineBytes o) (ru_Multiplier rule) in
      (OwnerBytes o, comparison,
       f64_ltb (f64_of_Z 0) (OwnerBaselineBytes o) && f64_ltb comparison (OwnerBytes o))
  | KindNewDestination => (boolNumber (DestinationIsNew o), f64_of_Z 0, DestinationIsNew o)
  | KindDomainCoverage => (DomainCoverage o, ru_Threshold rule, f64_ltb (DomainCoverage o) (ru_Threshold rule))
  | KindAgentStale => (AgentAgeSeconds o, ru_Threshold rule, f64_ltb (ru_Threshold rule) (AgentAgeSeconds o))
  | KindCollectorUnhealthy => (boolNumber (negb (CollectorHealthy o)), f64_of_Z 0, negb (CollectorHealthy o))
  | KindBufferPressure =>
      (BufferUsagePercent o, ru_Threshold rule, f64_ltb (ru_Threshold rule) (BufferUsagePercent o))
  | KindDatabasePressure =>
      (DatabaseUsagePercent o, ru_Threshold rule, f64_ltb (ru_Threshold rule) (DatabaseUsagePercent o))
  | KindWebhookFailures =>
      (WebhookTerminalFailures o, ru_Threshold rule, f64_leb (ru_Threshold rule) (WebhookTerminalFailures o))
  | KindOther _ => (f64_of_Z 0, f64_of_Z 0, false)
  end.

(** What [Fingerprint] hashes: each part behind its length. *)
Definition fingerprint_input (parts : list string) : list ascii :=
  parts ≫= fun part => (format_uint (len part) ++ colon :: chars part)%list.

Definition Fingerprint (parts : list string) : string :=
  of_chars (hex_string (Sum256 (code <$> fingerprint_input parts))).

Definition add_unless_empty (key value : string) (m : gmap string string) : gmap string string :=
  if String.eqb value "" then m else <[key := value]> m.

Definition EvaluateRule (rule : Rule) (o : Observation) (now : time) : list Finding :=
  if negb (ru_Enabled rule) || String.eqb (ob_NodeID o) "" then []
  else
    let '(observed, comparison, triggered) := values rule o in
    if negb triggered then []
    else
      let window := if ru_WindowSeconds rule <=? 0 then 300 else ru_WindowSeconds rule in
      let ownerID := if String.eqb (ob_OwnerID o) "" then None else Some (ob_OwnerID o) in
      let evidence := <["node_id" := ob_NodeID o]> (<["kind" := kind_string (ru_Kind rule)]> ∅) in
      let evidence := add_unless_empty "owner_id" (ob_OwnerID o) evidence in
      let evidence := add_unless_empty "destination" (Destination o) evidence in
      let evidence := add_unless_empty "collector" (ob_Collector o) evidence in
      [MkFinding (ru_ID rule)
         (Fingerprint [ru_ID rule; ob_NodeID o; ob_OwnerID o; Destination o; ob_Collector o])
         (ru_Name rule) (ru_Severity rule) (ob_NodeID o) ownerID now observed (Some comparison) window evidence].

(** ** [store.go] *)

Definition StatusOpen : string := "open".
Definition StatusResolved : string := "resolved".

Record AlertState : Type := MkAlertState {
  Status : string; Severity : string; OccurrenceCount : Z; MissingWindows : Z;
  FirstSeenAt : time; LastSeenAt : time; ResolvedAt : option time }.

Definition severityRank (severity : string) : Z :=
  if String.eqb severity SeverityCritical then 3
  else if String.eqb severity SeverityWarning then 2
  else if String.eqb severity SeverityInfo then 1
  else 0.

Definition ApplyFinding (current : option AlertState) (finding : Finding) (now : time) : AlertState * bool :=
  match current with
  | Some s =>
      if negb (String.eqb (Status s) StatusOpen)
      then (MkAlertState StatusOpen (fi_Severity finding) 1 0 now now None, true)
      else
        let notify := severityRank (Severity s) <? severityRank (fi_Severity finding) in
        (MkAlertState (Status s) (if notify then fi_Severity finding else Severity s)
           (wrap_s 64 (OccurrenceCount s + 1)) 0 (FirstSeenAt s) now None, notify)
  | None => (MkAlertState StatusOpen (fi_Severity finding) 1 0 now now None, true)
  end.

Definition ApplyMissing (current : AlertState) (now : time) : AlertState * bool :=
  if negb (String.eqb (Status current) StatusOpen) then (current, false)
  else
    let missing := wrap_s 64 (MissingWindows current + 1) in
    if missing <? 2 then
      (MkAlertState (Status current) (Severity current) (OccurrenceCount current) missing
         (FirstSeenAt current) (LastSeenAt current) (ResolvedAt current), false)
    else
      (MkAlertState StatusResolved (Severity current) (OccurrenceCount current) missing
         (FirstSeenAt current) (LastSeenAt current) (Some now), true).

(** The keys of [ValidateEvidence]. *)
Definition allowed_keys : list string := ["kind"; "node_id"; "owner_id"; "destination"; "collector"].

(** ** An alert over time

    One evaluation window after the other: a finding for the alert, or none. *)

Record window : Type := MkWindow { w_at : time; w_finding : option Finding }.

(** What a window does to the alert and whether subscribers are told. *)
Definition step_window (current : option AlertState) (w : window) : option AlertState * bool :=
  match w_finding w with
  | Some f => let '(s, notify) := ApplyFinding current f (w_at w) in (Some s, notify)
  | None =>
      match current with
      | Some s => (Some (fst (ApplyMissing s (w_at w))), false)
      | None => (None, false)
      end
  end.

(** Windows oldest first. *)
Fixpoint run_windows (current : option AlertState) (ws : list window) : option AlertState * list bool :=
  match ws with
  | [] => (current, [])
  | w :: ws' =>
      let '(next, notify) := step_window current w in
      let '(final, notes) := run_windows next ws' in
      (final, notify :: notes)
  end.

(** ** Specification

    The alert as a function of its history, windows newest first. *)

(** Windows without a finding since the last one with. *)
Fixpoint misses (h : list window) : nat :=
  match h with
  | w :: h' => match w_finding w with None => S (misses h') | Some _ => O end
  | [] => O
  end.

(** The findings of the current or last episode, newest first: an episode ends
    after two windows in a row without a finding. *)
Fixpoint episode (h : list window) : list (time * Finding) :=
  match h with
  | w :: h' =>
      match w_finding w with
      | Some f => (w_at w, f) :: (if (misses h' <? 2)%nat then episode h' else [])
      | None => episode h'
      end
  | [] => []
  end.

(** The worst severity of an episode, the earliest of equal ones. *)
Fixpoint worst (ep : list (time * Finding)) : string :=
  match ep with
  | [] => ""
  | [x] => fi_Severity x.2
  | x :: older => if severityRank (worst older) <? severityRank (fi_Severity x.2) then fi_Severity x.2 else worst older
  end.

Definition is_open (h : list window) : bool := (misses h <? 2)%nat.

Definition spec_state (h : list window) : option AlertState :=
  match episode h with
  | [] => None
  | x :: older =>
      Some (MkAlertState (if is_open h then StatusOpen else StatusResolved) (worst (x :: older))
              (Z.of_nat (length (x :: older))) (Z.min 2 (Z.of_nat (misses h)))
              (default 0 (fst <$> last (x :: older))) x.1
              (if is_open h then None else w_at <$> h !! (misses h - 2)%nat))
  end.

(** Whether the newest window is announced: it opens the alert, or is worse than all
    of the episode before it. *)
Definition spec_note (h : list window) : bool :=
  match h with
  | w :: h' =>
      match w_finding w with
      | Some f =>
          match (if is_open h' then episode h' else []) with
          | [] => true
          | ep => severityRank (worst ep) <? severityRank (fi_Severity f)
          end
      | None => false
      end
  | [] => false
  end.

(** ** Lemmas *)

Lemma episode_length h : (length (episode h) <= length h)%nat.
Proof.
  induction h as [|w h IH]; simpl; [done|]. destruct (w_finding w); simpl; [|lia].
  destruct (_ <? _)%nat; simpl; lia.
Qed.

Lemma misses_length h : (misses h <= length h)%nat.
Proof. induction h as [|w h IH]; simpl; [done|]. destruct (w_finding w); simpl; lia. Qed.

Lemma spec_none h : episode h = [] -> spec_state h = None.
Proof. unfold spec_state. by intros ->. Qed.

(** One window takes the specified state to the specified state. *)
Lemma step_spec h w : Z.of_nat (length h) < 2 ^ 62 ->
  step_window (spec_state h) w = (spec_state (w :: h), spec_note (w :: h)).
Proof.
  intros Hlen. pose proof (episode_length h) as Hel. unfold step_window, spec_note.
  destruct (w_finding w) as [f|] eqn:Ew.
  - unfold spec_state at 2, is_open. cbn [episode misses]. rewrite Ew. change (0 <? 2)%nat with true.
    unfold spec_state, is_open. destruct (Nat.ltb_spec (misses h) 2) as [Hm|Hm].
    + destruct (episode h) as [|x older] eqn:Ee; [done|]. unfold ApplyFinding. cbn [Status].
      change (negb (StatusOpen =? StatusOpen)%string) with false. cbv iota. cbn [Severity OccurrenceCount FirstSeenAt].
      rewrite wrap_s_id by (unfold in_s; simpl length in *; lia).
      do 3 f_equal. simpl length. lia.
    + destruct (episode h) as [|x older] eqn:Ee; done.
  - unfold spec_state at 2, is_open. cbn [episode misses]. rewrite Ew. unfold spec_state, is_open.
    destruct (episode h) as [|x older] eqn:Ee; [done|]. unfold ApplyMissing. cbn [Status MissingWindows].
    destruct (Nat.ltb_spec (misses h) 2) as [Hm|Hm].
    + change (negb (StatusOpen =? StatusOpen)%string) with false. cbv iota.
      rewrite wrap_s_id by (unfold in_s; lia).
      destruct (Nat.ltb_spec (S (misses h)) 2) as [Hm'|Hm'].
      * rewrite (proj2 (Z.ltb_lt _ _)) by lia. simpl. do 3 f_equal. lia.
      * rewrite (proj2 (Z.ltb_ge _ _)) by lia. simpl fst. cbn [Severity OccurrenceCount FirstSeenAt LastSeenAt].
        assert (misses h = 1)%nat as -> by lia. done.
    + change (negb (StatusResolved =? StatusOpen)%string) with true. cbv iota. simpl fst.
      rewrite (proj2 (Nat.ltb_ge _ _)) by lia. do 3 f_equal; [lia|].
      by replace (S (misses h) - 2)%nat with (S (misses h - 2)) by lia.
Qed.

(** The worst severity is one of the episode's, and none of them outranks it. *)
Lemma worst_spec ep : ep <> [] ->
  worst ep ∈ (fun x => fi_Severity x.2) <$> ep /\
  forall x, x ∈ ep -> severityRank (fi_Severity x.2) <= severityRank (worst ep).
Proof.
  induction ep as [|x ep IH]; intros Hn; [done|]. destruct ep as [|y ep].
  - simpl. split; [by constructor|]. by intros z ->%list_elem_of_singleton.
  - destruct IH as [Hin Hmax]; [done|].
    change (worst (x :: y :: ep)) with
      (if severityRank (worst (y :: ep)) <? severityRank (fi_Severity x.2) then fi_Severity x.2 else worst (y :: ep)).
    destruct (Z.ltb_spec (severityRank (worst (y :: ep))) (severityRank (fi_Severity x.2))).
    + split; [by constructor|]. intros z [->|Hz]%elem_of_cons; [lia|]. specialize (Hmax z Hz). lia.
    + split; [by constructor|]. intros z [->|Hz]%elem_of_cons; [lia|]. by apply Hmax.
Qed.

Lemma run_windows_spec ws h : Z.of_nat (length h + length ws) < 2 ^ 62 ->
  run_windows (spec_state h) ws =
  (spec_state (reverse ws ++ h), (fun i => spec_note (reverse (take (S i) ws) ++ h)) <$> seq 0 (length ws))%list.
Proof.
  revert h; induction ws as [|w ws IH]; intros h Hlen; [done|]. cbn [run_windows].
  rewrite step_spec by (simpl in Hlen; lia). rewrite IH by (simpl in *; lia).
  rewrite reverse_cons, <- app_assoc. f_equal. cbn [length seq fmap list_fmap]. f_equal.
  rewrite <- fmap_S_seq, <- list_fmap_compose. apply list_fmap_ext. intros i x _. simpl.
  by rewrite reverse_cons, <- app_assoc.
Qed.

(** Reading one part back: its length, then as many bytes. *)
Lemma fingerprint_part_inj part rest part' rest' : len part <= max_u64 -> len part' <= max_u64 ->
  (format_uint (len part) ++ colon :: chars part ++ rest =
   format_uint (len part') ++ colon :: chars part' ++ rest')%list -> part = part' /\ rest = rest'.
Proof.
  intros Hl Hl' E. pose proof (len_nonneg part). pose proof (len_nonneg part').
  apply (f_equal (Cut colon)) in E. rewrite !Cut_app in E by (apply format_uint_no_colon; lia).
  injection E as Ef Er. apply (f_equal ParseUint) in Ef. rewrite !ParseUint_format in Ef by lia.
  injection Ef as Ef. apply app_inj_1 in Er as [Ep ->]; [|unfold len in Ef; lia].
  split; [by apply chars_inj|done].
Qed.

(** ** Properties *)

(** The life of an alert: after any sequence of windows the code's state is the
    one its history prescribes.  It is open until two windows in a row lack a
    finding, counts the findings of the episode, keeps the time of its first and last
    and its worst severity, and records when it was resolved; subscribers are told
    exactly when an episode opens or its severity rises. *)
Theorem alert_lifecycle ws : Z.of_nat (length ws) < 2 ^ 62 ->
  run_windows None ws =
  (spec_state (reverse ws), (fun i => spec_note (reverse (take (S i) ws))) <$> seq 0 (length ws)).
Proof.
  intros Hlen. change None with (spec_state []). rewrite run_windows_spec by (simpl; lia).
  rewrite app_nil_r. f_equal. apply list_fmap_ext. intros i x _. by rewrite app_nil_r.
Qed.

(** Two alerts hash the same text only when they agree on every part: the
    length-prefixed encoding under [Fingerprint] is injective, so rule, node, owner,
    destination and collector cannot run into each other. *)
Theorem fingerprint_injective parts parts' :
  length parts = length parts' ->
  Forall (fun p => len p <= max_u64) parts -> Forall (fun p => len p <= max_u64) parts' ->
  fingerprint_input parts = fingerprint_input parts' -> parts = parts'.
Proof.
  revert parts'; induction parts as [|p ps IH]; intros [|p' ps'] Hl Hp Hp' E; try done.
  apply Forall_cons_iff in Hp as [Hp Hps], Hp' as [Hp' Hps'].
  unfold fingerprint_input in *. rewrite !bind_cons, <- !app_assoc, <- !app_comm_cons in E.
  apply fingerprint_part_inj in E as [-> E]; [|done..]. f_equal. apply IH; [by injection Hl|done..].
Qed.

(** A finding belongs to the rule and the node it was evaluated for, carries the
    values of the comparison that triggered it, a positive window, and evidence under
    allowed keys only; a disabled rule or an unknown node yields none, and a rule
    yields at most one per observation. *)
Theorem evaluate_rule rule o now :
  (EvaluateRule rule o now = [] <->
     ru_Enabled rule = false \/ ob_NodeID o = "" \/ snd (values rule o) = false) /\
  (length (EvaluateRule rule o now) <= 1)%nat /\
  forall f, f ∈ EvaluateRule rule o now ->
    fi_RuleID f = ru_ID rule /\ fi_NodeID f = ob_NodeID o /\ fi_Severity f = ru_Severity rule /\
    ObservedValue f = fst (fst (values rule o)) /\ ComparisonValue f = Some (snd (fst (values rule o))) /\
    0 < fi_WindowSeconds f /\ map_Forall (fun k _ => k ∈ allowed_keys) (Evidence f).
Proof.
  unfold EvaluateRule. destruct (ru_Enabled rule); simpl negb.
  2: { split_and!; [by naive_solver|simpl; lia|by intros f ?%elem_of_nil]. }
  destruct (String.eqb_spec (ob_NodeID o) "") as [|Hn]; simpl orb.
  { split_and!; [by naive_solver|simpl; lia|by intros f ?%elem_of_nil]. }
  destruct (values rule o) as [[observed comparison] []] eqn:Ev; simpl negb; cbv iota; simpl snd.
  2: { split_and!; [by naive_solver|simpl; lia|by intros f ?%elem_of_nil]. }
  split_and!; [by naive_solver|simpl; lia|].
  intros f ->%list_elem_of_singleton. simpl. split_and!; try done.
  - destruct (Z.leb_spec (ru_WindowSeconds rule) 0); lia.
  - assert (forall k v m, k ∈ allowed_keys -> map_Forall (fun k _ => k ∈ allowed_keys) m ->
      map_Forall (fun k _ => k ∈ allowed_keys) (add_unless_empty k v m)) as Hadd.
    { intros k v m Hk Hm. unfold add_unless_empty. destruct (String.eqb v ""); [done|].
      by apply map_Forall_insert_2. }
    unfold allowed_keys in *. repeat (apply Hadd; [set_solver|]).
    repeat (apply map_Forall_insert_2; [set_solver|]). apply map_Forall_empty.
Qed.

(** ** Witnesses *)

Module AlertSample.
Definition rule (severity : string) : Rule :=
MkRule "agent-stale" KindAgentStale "offline" true severity (f64_of_Z 60) (f64_of_Z 0) 300.
Definition observation : Observation :=
MkObservation "node-a" (f64_of_Z 0) "" (f64_of_Z 0) (f64_of_Z 0) "" false (f64_of_Z 0) (f64_of_Z 90) "" true
  (f64_of_Z 0) (f64_of_Z 0) (f64_of_Z 0).
Definition finding (severity : string) : option Finding := head (EvaluateRule (rule severity) observation Second).

(** Warning, a gap of one, critical, then two windows without a finding. *)
Definition windows : list window :=
[MkWindow 1 (finding SeverityWarning); MkWindow 2 None; MkWindow 3 (finding SeverityCritical);
 MkWindow 4 None; MkWindow 5 None].

Example stale_triggers : length (EvaluateRule (rule SeverityCritical) observation Second) = 1%nat.
Proof. vm_compute. reflexivity. Qed.
Example lifecycle_sample : run_windows None windows =
(Some (MkAlertState "resolved" "critical" 2 2 1 3 (Some 5)), [true; false; true; false; false]).
Proof. vm_compute. reflexivity. Qed.
End AlertSample.

Lemma alert_lifecycle_witness :
  run_windows None AlertSample.windows =
  (spec_state (reverse AlertSample.windows),
   (fun i => spec_note (reverse (take (S i) AlertSample.windows))) <$> seq 0 (length AlertSample.windows)).
Proof. apply (alert_lifecycle AlertSample.windows). simpl. lia. Defined.

Lemma fingerprint_injective_witness : fingerprint_input ["ab"; "c"] <> fingerprint_input ["a"; "bc"].
Proof.
  intros E. discriminate (fingerprint_injective ["ab"; "c"] ["a"; "bc"] eq_refl
    ltac:(repeat constructor; by vm_compute) ltac:(repeat constructor; by vm_compute) E).
Defined.
