(* ===== verification/Sender.v ===== *)
(** * Delivery with retries

    [internal/agent/sender/sender.go]: a batch is validated, encoded once and posted
    until it is accepted, refused for good, or the retries are used up.

    The server and the clock are the environment: [post n] is what the [n]-th
    request of the call meets, [sleep n d] whether the [n]-th wait, of [d], is cut
    short because the context ended.  [encode] stands for the JSON and gzip
    encoding. *)

From stdpp Require Import base strings numbers list.
From S2P Require Import Prelude GoBase GoModel.

Open Scope string_scope.
Open Scope Z_scope.

(** What a request meets: no response, or a status. *)
Inductive response : Type :=
| NoResponse
| StatusCode (code : Z).

Inductive send_error : Type :=
| InvalidBatch (e : validation_error)
| EncodeFailed
| Permanent (code : Z)
| Interrupted
| AfterRetries (last : response).

(** The error of one attempt. *)
Inductive attempt_error : Type :=
| Unreachable
| ErrPermanent (code : Z)
| Retryable (code : Z).

Definition attempt (r : response) : result attempt_error unit :=
  match r with
  | NoResponse => Err Unreachable
  | StatusCode code =>
      if (code =? 200) || (code =? 202) then Ok tt
      else if (400 <=? code) && (code <? 500) then Err (ErrPermanent code)
      else Err (Retryable code)
  end.

(** The pauses of [New]. *)
Definition default_backoff : list duration := [Second; 5 * Second; 30 * Second].

(** What the call does to the world: requests with their body, and waits. *)
Inductive action : Type :=
| Post (body : list Z)
| Sleep (d : duration).

Section send.
Variable encode : Batch -> option (list Z).
Variable post : nat -> response.
Variable sleep : nat -> bool.

(** The loop from attempt [n] on with the pauses left. *)
Fixpoint send_loop (body : list Z) (n : nat) (backoff : list duration) : list action * result send_error unit :=
match attempt (post n) with
| Ok _ => ([Post body], Ok tt)
| Err (ErrPermanent code) => ([Post body], Err (Permanent code))
| Err _ =>
    match backoff with
    | [] => ([Post body], Err (AfterRetries (post n)))
    | d :: rest =>
        if sleep n then
          let '(acts, r) := send_loop body (S n) rest in (Post body :: Sleep d :: acts, r)
        else ([Post body; Sleep d], Err Interrupted)
    end
end.

Definition Send (backoff : list duration) (batch : Batch) : list action * result send_error unit :=
match Validate batch with
| Err e => ([], Err (InvalidBatch e))
| Ok _ =>
    match encode batch with
    | None => ([], Err EncodeFailed)
    | Some body => send_loop body 0 backoff
    end
end.
End send.

(** ** Specification *)

Definition accepted (r : response) : Prop := r = StatusCode 200 \/ r = StatusCode 202.
Definition refused (r : response) : Prop := exists code, r = StatusCode code /\ 400 <= code < 500.
Definition transient (r : response) : Prop := ~ accepted r /\ ~ refused r.

(** The actions of [n + 1] attempts with [n] pauses between them. *)
Fixpoint attempts (body : list Z) (pauses : list duration) : list action :=
  match pauses with
  | [] => [Post body]
  | d :: rest => Post body :: Sleep d :: attempts body rest
  end.

Definition is_post (a : action) : Prop := match a with Post _ => True | Sleep _ => False end.

#[export] Instance is_post_dec a : Decision (is_post a).
Proof. destruct a; apply _. Defined.

Definition waited (a : action) : Z := match a with Post _ => 0 | Sleep d => d end.

(** How a delivery from attempt [n] on can end. *)
Section ends.
Context (post : nat -> response) (sleep : nat -> bool) (body : list Z).

(** The attempts before the [k]-th failed for now and the waits after them ended. *)
Definition reached (n k : nat) : Prop :=
forall i, (i < k)%nat -> transient (post (n + i)) /\ sleep (n + i) = true.

Inductive ends (n : nat) (backoff : list duration) : list action -> result send_error unit -> Prop :=
| EndAccepted k : (k <= length backoff)%nat -> reached n k -> accepted (post (n + k)) ->
  ends n backoff (attempts body (take k backoff)) (Ok tt)
| EndRefused k code : (k <= length backoff)%nat -> reached n k -> post (n + k) = StatusCode code ->
  400 <= code < 500 -> ends n backoff (attempts body (take k backoff)) (Err (Permanent code))
| EndExhausted : reached n (length backoff) -> transient (post (n + length backoff)) ->
  ends n backoff (attempts body backoff) (Err (AfterRetries (post (n + length backoff))))
| EndInterrupted k d : backoff !! k = Some d -> reached n k -> transient (post (n + k)) ->
  sleep (n + k) = false ->
  ends n backoff (attempts body (take k backoff) ++ [Sleep d])%list (Err Interrupted).
End ends.

(** ** Lemmas *)

Lemma response_attempt_spec r :
  match attempt r with
  | Ok _ => accepted r
  | Err (ErrPermanent code) => r = StatusCode code /\ refused r
  | Err _ => transient r
  end.
Proof.
  unfold transient, accepted, refused. destruct r as [|code]; simpl; [naive_solver|].
  destruct (Z.eqb_spec code 200); [naive_solver|]. destruct (Z.eqb_spec code 202); [naive_solver|]. simpl.
  destruct (Z.leb_spec 400 code), (Z.ltb_spec code 500); simpl; [eauto 6| | |];
    (split; [by intros [[= ?]|[= ?]]|intros (c & [= <-] & ?); lia]).
Qed.

Lemma attempt_accepted r : accepted r -> attempt r = Ok tt.
Proof. by intros [-> | ->]. Qed.

Lemma attempt_refused code : 400 <= code < 500 -> attempt (StatusCode code) = Err (ErrPermanent code).
Proof.
  intros Hc. simpl. rewrite !(proj2 (Z.eqb_neq code _)) by lia. simpl.
  by rewrite (proj2 (Z.leb_le _ _)), (proj2 (Z.ltb_lt _ _)) by lia.
Qed.

Lemma attempt_transient r : transient r ->
  attempt r = Err Unreachable \/ exists code, attempt r = Err (Retryable code).
Proof.
  intros [Ha Hr]. pose proof (response_attempt_spec r) as H. destruct (attempt r) as [[]|[|code|code]]; [done|by left| |eauto].
  by destruct H.
Qed.

Section loop.
Context (post : nat -> response) (sleep : nat -> bool) (body : list Z).

Lemma reached_0 n : reached post sleep n 0.
Proof. intros i Hi. lia. Qed.

Lemma reached_S n k : reached post sleep n (S k) <->
transient (post n) /\ sleep n = true /\ reached post sleep (S n) k.
Proof.
unfold reached. split.
- intros H. destruct (H 0%nat) as [H1 H2]; [lia|]. rewrite Nat.add_0_r in *. split_and!; [done|done|].
  intros i Hi. destruct (H (S i)) as [H3 H4]; [lia|]. by rewrite Nat.add_succ_r in *.
- intros (H1 & H2 & H) [|i] Hi; [by rewrite Nat.add_0_r|]. rewrite Nat.add_succ_r. apply H. lia.
Qed.

(** An ending after the first pause is an ending of the rest. *)
Lemma ends_later n d rest acts r : transient (post n) -> sleep n = true ->
ends post sleep body (S n) rest acts r ->
ends post sleep body n (d :: rest) (Post body :: Sleep d :: acts) r.
Proof.
intros Ht Hs H. destruct H as [k Hk Hr Ha|k code Hk Hr Hp Hc|Hr Hp|k d' Hd Hr Hp Hsl].
- apply (EndAccepted post sleep body n (d :: rest) (S k)); [simpl; lia|by apply reached_S|].
  by rewrite Nat.add_succ_r.
- apply (EndRefused post sleep body n (d :: rest) (S k)); [simpl; lia|by apply reached_S| |done].
  by rewrite Nat.add_succ_r.
- pose proof (EndExhausted post sleep body n (d :: rest)) as He. simpl length in He.
  rewrite Nat.add_succ_r in He. apply He; [by apply reached_S|done].
- apply (EndInterrupted post sleep body n (d :: rest) (S k)); [done|by apply reached_S| |];
    by rewrite Nat.add_succ_r.
Qed.

Lemma send_loop_ends n backoff :
ends post sleep body n backoff (fst (send_loop post sleep body n backoff)) (snd (send_loop post sleep body n backoff)).
Proof.
revert n; induction backoff as [|d rest IH]; intros n; simpl;
  pose proof (response_attempt_spec (post n)) as Hsp; destruct (attempt (post n)) as [[]|[|code|code]]; simpl.
all: try (pose proof (EndAccepted post sleep body n) as He; apply (He _ 0%nat);
  [lia|apply reached_0|by rewrite Nat.add_0_r]).
all: try (destruct Hsp as [E (c & E' & Hc)]; apply (EndRefused post sleep body n _ 0%nat);
  [lia|apply reached_0|by rewrite Nat.add_0_r|congruence]).
all: try (pose proof (EndExhausted post sleep body n []) as He; simpl in He; rewrite Nat.add_0_r in He;
  apply He; [apply reached_0|done]).
all: destruct (sleep n) eqn:Es;
  [specialize (IH (S n)); destruct (send_loop post sleep body (S n) rest); by apply ends_later
  |apply (EndInterrupted post sleep body n (d :: rest) 0%nat); rewrite ?Nat.add_0_r; try done; apply reached_0].
Qed.

(** The environment determines the ending. *)
Lemma send_loop_transient n d rest : transient (post n) ->
send_loop post sleep body n (d :: rest) =
if sleep n then
  let '(acts, r) := send_loop post sleep body (S n) rest in (Post body :: Sleep d :: acts, r)
else ([Post body; Sleep d], Err Interrupted).
Proof. intros Ht. simpl. by destruct (attempt_transient _ Ht) as [-> | [code ->]]. Qed.

Lemma ends_send_loop n backoff acts r :
ends post sleep body n backoff acts r -> send_loop post sleep body n backoff = (acts, r).
Proof.
revert n acts r; induction backoff as [|d rest IH]; intros n acts r H.
- destruct H as [k Hk Hr Ha|k code Hk Hr Hp Hc|Hr Hp|k d' Hd Hr Hp Hsl]; simpl in *; try done.
  + assert (k = 0)%nat as -> by lia. rewrite Nat.add_0_r in Ha. by rewrite attempt_accepted.
  + assert (k = 0)%nat as -> by lia. rewrite Nat.add_0_r in Hp. by rewrite Hp, attempt_refused.
  + rewrite Nat.add_0_r in *. by destruct (attempt_transient _ Hp) as [-> | [code ->]].
- destruct H as [k Hk Hr Ha|k code Hk Hr Hp Hc|Hr Hp|k d' Hd Hr Hp Hsl].
  + destruct k as [|k]; [rewrite Nat.add_0_r in Ha; simpl; by rewrite attempt_accepted|].
    apply reached_S in Hr as (Ht & Hs & Hr). rewrite Nat.add_succ_r in Ha.
    rewrite send_loop_transient, Hs by done. simpl in Hk.
    by rewrite (IH _ _ _ (EndAccepted post sleep body (S n) rest k ltac:(lia) Hr Ha)).
  + destruct k as [|k]; [rewrite Nat.add_0_r in Hp; simpl; by rewrite Hp, attempt_refused|].
    apply reached_S in Hr as (Ht & Hs & Hr). rewrite Nat.add_succ_r in Hp.
    rewrite send_loop_transient, Hs by done. simpl in Hk.
    by rewrite (IH _ _ _ (EndRefused post sleep body (S n) rest k code ltac:(lia) Hr Hp Hc)).
  + simpl length in *. apply reached_S in Hr as (Ht & Hs & Hr). rewrite Nat.add_succ_r in *.
    rewrite send_loop_transient, Hs by done.
    by rewrite (IH _ _ _ (EndExhausted post sleep body (S n) rest Hr Hp)).
  + destruct k as [|k].
    * rewrite Nat.add_0_r in *. rewrite send_loop_transient, Hsl by done. simpl in Hd. by injection Hd as ->.
    * apply reached_S in Hr as (Ht & Hs & Hr). rewrite Nat.add_succ_r in *.
      rewrite send_loop_transient, Hs by done.
      by rewrite (IH _ _ _ (EndInterrupted post sleep body (S n) rest k d' Hd Hr Hp Hsl)).
Qed.
End loop.

(** ** Properties *)

(** A delivery ends in exactly one of four ways, with the requests and waits it
    makes fully determined: the same body is posted after each pause of the backoff
    in turn until a 200 or 202 accepts it, a 4xx refuses it for good, a wait is cut
    short, or the attempt after the last pause fails too.  An invalid or unencodable
    batch is never posted. *)
Theorem send_outcome encode post sleep backoff batch acts r :
  Send encode post sleep backoff batch = (acts, r) <->
  (exists e, Validate batch = Err e /\ acts = [] /\ r = Err (InvalidBatch e)) \/
  (Validate batch = Ok tt /\ encode batch = None /\ acts = [] /\ r = Err EncodeFailed) \/
  (exists body, Validate batch = Ok tt /\ encode batch = Some body /\ ends post sleep body 0 backoff acts r).
Proof.
  unfold Send. destruct (Validate batch) as [[]|e]; [|naive_solver].
  destruct (encode batch) as [body|]; [|naive_solver]. split.
  - intros E. right; right. exists body. split_and!; [done|done|].
    pose proof (send_loop_ends post sleep body 0 backoff) as H. by rewrite E in H.
  - intros [(e & [=] & _)|[(_ & [=] & _)|(b & _ & [= <-] & H)]]. by apply ends_send_loop.
Qed.

(** A delivery makes at most one request more than there are pauses: four with
    the pauses the agent uses, all with the same body, and at most 36 seconds of
    waiting. *)
Theorem send_bounded encode post sleep batch body : encode batch = Some body ->
  let acts := fst (Send encode post sleep default_backoff batch) in
  (length (filter is_post acts) <= 4)%nat /\
  Forall (fun a => is_post a -> a = Post body) acts /\ sumZ waited acts <= 36 * Second.
Proof.
  intros He acts. unfold acts, Send. destruct (Validate batch); [|by simpl; split_and!; [lia|constructor|]].
  rewrite He. unfold default_backoff.
  repeat (cbn [send_loop]; destruct (attempt _) as [[]|[]]; cbn [fst]; try (destruct (sleep _); cbn [fst]));
    split_and!; simpl; try lia; repeat constructor; try (by intros [? [=]]); try done.
Qed.

(** ** Witnesses *)

Module SendSample.
Definition batch : Batch := sample_batch [sample_event "event-a" "inbound"].
Definition encode (_ : Batch) : option (list Z) := Some [31; 139].

(** The server is busy twice, then accepts. *)
Definition post (n : nat) : response := if (n <? 2)%nat then StatusCode 503 else StatusCode 202.

Example send_after_two : Send encode post (fun _ => true) default_backoff batch =
([Post [31; 139]; Sleep Second; Post [31; 139]; Sleep (5 * Second); Post [31; 139]], Ok tt).
Proof. reflexivity. Qed.
Example send_refused : Send encode (fun _ => StatusCode 401) (fun _ => true) default_backoff batch =
([Post [31; 139]], Err (Permanent 401)).
Proof. reflexivity. Qed.
End SendSample.

Lemma send_bounded_witness :
  let acts := fst (Send SendSample.encode SendSample.post (fun _ => true) default_backoff SendSample.batch) in
  (length (filter is_post acts) <= 4)%nat /\
  Forall (fun a => is_post a -> a = Post [31; 139]) acts /\ sumZ waited acts <= 36 * Second.
Proof.
  apply (send_bounded SendSample.encode SendSample.post (fun _ => true) SendSample.batch [31; 139] eq_refl).
Defined.
