(* ===== verification/Ingest.v ===== *)
(** * The ingestion endpoint

    [internal/server/ingest/handler.go]: the checks a request has to pass, in their
    order, the reading of its body under two size limits, and the statuses of the
    answers.  A store is anything with an [InsertBatch] ([BatchStore]).

    How a body arrives - its bytes, how it ends, whether the end comes along with the
    last bytes - is part of the request.  Decompression and JSON are the class [Wire]. *)

From stdpp Require Import base strings numbers list sets.
From Stdlib Require Import Ascii.
From S2P Require Import Prelude GoBase GoText GoModel Sender.

Open Scope string_scope.
Open Scope Z_scope.
Local Open Scope flow_scope.

(** ** Readers *)

(** How a reader ends: [io.EOF], an [http.MaxBytesError], another error. *)
Inductive read_end : Type := AtEOF | MaxBytesError | ReadFailed.

(** [rd_joined]: the [Read] that returns the last bytes also returns the end. *)
Record reader : Type := MkReader { rd_bytes : list Z; rd_end : read_end; rd_joined : bool }.

Definition size (bytes : list Z) : Z := Z.of_nat (length bytes).

(** [http.MaxBytesReader] *)
Definition MaxBytesReader (limit : Z) (r : reader) : reader :=
  if size (rd_bytes r) <=? limit then r
  else MkReader (take (Z.to_nat limit) (rd_bytes r)) MaxBytesError (rd_joined r).

(** [io.ReadAll(io.LimitReader(r, limit))]: once [limit] bytes were read the limited
    reader ends by itself, unless the end of [r] came along with them. *)
Definition ReadLimited (limit : Z) (r : reader) : list Z * read_end :=
  if (size (rd_bytes r) <? limit) || ((size (rd_bytes r) =? limit) && rd_joined r)
  then (rd_bytes r, rd_end r)
  else (take (Z.to_nat limit) (rd_bytes r), AtEOF).

Definition maxCompressedBytes : Z := Z.shiftl 2 20.
Definition maxDecompressedBytes : Z := Z.shiftl 16 20.

(** ** Codings *)

(** [gzip.NewReader], [gzip.Writer], and [json.Decoder]: the first value of the input as
    a batch with the input after it, and [json.Encoder]. *)
Class Wire : Type := {
  gunzip : reader -> option reader;
  gzip : list Z -> list Z;
  json_decode : list Z -> option (Batch * list Z);
  json_encode : Batch -> option (list Z) }.

(** The space of JSON: a second [Decode] meets the end of the input. *)
Definition json_space (z : Z) : bool := (z =? 32) || (z =? 9) || (z =? 10) || (z =? 13).

Class BatchStore (S : Type) : Type := {
  bs_InsertBatch : Batch -> S -> S * result string bool }.

(** ** Requests and answers *)

Record request : Type := MkRequest {
  rq_Method : string;
  rq_Authorization : string;
  rq_ContentEncoding : string;
  rq_Body : reader }.

Inductive content : Type :=
| ErrorContent (code_ message : string)
| InvalidContent (e : validation_error)
| StatusContent (status : string).

Record answer : Type := MkAnswer { an_Status : Z; an_Content : content }.

Definition writeError (status : Z) (code_ message : string) : answer :=
  MkAnswer status (ErrorContent code_ message).

Inductive decode_error : Type := ErrRequestTooLarge | ErrUnsupportedEncoding | ErrDecode.

Definition post_method : string := "POST".
Definition bearer : string := "Bearer ".

Section ingest.
Context `{!Wire}.
(** [strings.ToLower] outside ASCII *)
Variable unicode_lower : string -> string.

(** [Handler.authorized]: the scheme, then the token in constant time. *)
Definition authorized (token header : string) : bool :=
  has_prefix header bearer && (len header - len bearer =? len token) &&
  bool_decide (drop (Z.to_nat (len bearer)) (chars header) = chars token).

(** The reader for the content encoding. *)
Definition content_reader (encoding : string) (body : reader) : result decode_error reader :=
  let encoding := to_lower unicode_lower (of_chars (TrimSpace (chars encoding))) in
  if String.eqb encoding "" || String.eqb encoding "identity" then Ok body
  else if String.eqb encoding "gzip" then
    match gunzip body with None => Err ErrDecode | Some r => Ok r end
  else Err ErrUnsupportedEncoding.

Definition decode_json (body : list Z) : result decode_error Batch :=
  match json_decode body with
  | None => Err ErrDecode
  | Some (batch, trailing) => if forallb json_space trailing then Ok batch else Err ErrDecode
  end.

Definition decodeBatch (encoding : string) (body : reader) : result decode_error Batch :=
  let* r := content_reader encoding body in
  match ReadLimited (maxDecompressedBytes + 1) r with
  | (_, MaxBytesError) => Err ErrRequestTooLarge
  | (_, ReadFailed) => Err ErrDecode
  | (bytes, AtEOF) =>
      if maxDecompressedBytes <? size bytes then Err ErrRequestTooLarge else decode_json bytes
  end.

Section handler.
Context {S : Type} `{!BatchStore S}.

(** From the decoded batch on. *)
Definition insert_decoded (batch : Batch) (s : S) : S * answer :=
  match Validate batch with
  | Err e => (s, MkAnswer 400 (InvalidContent e))
  | Ok _ =>
      match bs_InsertBatch batch s with
      | (s, Err _) => (s, writeError 500 "storage_error" "unable to store batch")
      | (s, Ok false) => (s, MkAnswer 200 (StatusContent "duplicate"))
      | (s, Ok true) => (s, MkAnswer 202 (StatusContent "accepted"))
      end
  end.

Definition ServeHTTP (token : string) (r : request) (s : S) : S * answer :=
  if negb (String.eqb (rq_Method r) post_method) then (s, writeError 405 "method_not_allowed" "method must be POST")
  else if negb (authorized token (rq_Authorization r)) then (s, writeError 401 "unauthorized" "invalid agent credentials")
  else
    match decodeBatch (rq_ContentEncoding r) (MaxBytesReader maxCompressedBytes (rq_Body r)) with
    | Err ErrRequestTooLarge => (s, writeError 413 "request_too_large" "batch body exceeds the allowed size")
    | Err ErrUnsupportedEncoding => (s, writeError 415 "unsupported_encoding" "content encoding must be gzip or identity")
    | Err ErrDecode => (s, writeError 400 "invalid_json" "request body must contain one JSON batch")
    | Ok batch => insert_decoded batch s
    end.
End handler.

(** ** What a request asks for *)

(** The body, read through its coding, is [bytes] to the end, within the limits. *)
Definition carries (r : request) (bytes : list Z) : Prop :=
  size (rd_bytes (rq_Body r)) <= maxCompressedBytes /\ size bytes <= maxDecompressedBytes /\
  exists plain, content_reader (rq_ContentEncoding r) (rq_Body r) = Ok plain /\
    rd_bytes plain = bytes /\ rd_end plain = AtEOF.

(** A request of an agent with the token for one batch. *)
Definition asks (token : string) (r : request) (b : Batch) : Prop :=
  rq_Method r = post_method /\ authorized token (rq_Authorization r) = true /\
  exists bytes trailing, carries r bytes /\ json_decode bytes = Some (b, trailing) /\
    forallb json_space trailing = true /\ Validate b = Ok tt.
End ingest.

(** What the code relies on: a decompressor ends as its input does or with a failure of
    its own, and gives back what was compressed; a batch that was encoded is decoded,
    with nothing but space after it. *)
Class WireLaws `{!Wire} : Prop := {
  gunzip_end r r' : gunzip r = Some r' -> rd_end r' = rd_end r \/ rd_end r' = ReadFailed;
  gunzip_gzip bytes joined :
    exists r, gunzip (MkReader (gzip bytes) AtEOF joined) = Some r /\ rd_bytes r = bytes /\ rd_end r = AtEOF;
  decode_encoded b bytes : Validate b = Ok tt -> json_encode b = Some bytes ->
    exists trailing, json_decode bytes = Some (b, trailing) /\ forallb json_space trailing = true }.

(** ** Lemmas *)

Lemma size_nonneg bytes : 0 <= size bytes.
Proof. unfold size. lia. Qed.

Lemma MaxBytesReader_small limit r : size (rd_bytes r) <= limit -> MaxBytesReader limit r = r.
Proof. intros H. unfold MaxBytesReader. by rewrite (proj2 (Z.leb_le _ _) H). Qed.

Lemma MaxBytesReader_eof limit r : rd_end (MaxBytesReader limit r) = AtEOF ->
  size (rd_bytes r) <= limit /\ MaxBytesReader limit r = r.
Proof. unfold MaxBytesReader. destruct (Z.leb_spec (size (rd_bytes r)) limit); [done|discriminate]. Qed.

(** The whole input is read just when it ends within the limit. *)
Lemma ReadLimited_within limit r : size (rd_bytes r) < limit -> ReadLimited limit r = (rd_bytes r, rd_end r).
Proof. intros H. unfold ReadLimited. by rewrite (proj2 (Z.ltb_lt _ _) H). Qed.

Lemma ReadLimited_short limit r bytes e : 0 <= limit -> ReadLimited limit r = (bytes, e) -> size bytes < limit ->
  rd_bytes r = bytes /\ rd_end r = e.
Proof.
  intros Hl E Hb. unfold ReadLimited, size in *.
  destruct (Z.ltb_spec (Z.of_nat (length (rd_bytes r))) limit) as [H|H]; [by injection E|].
  destruct ((Z.of_nat (length (rd_bytes r)) =? limit) && rd_joined r); [by injection E|].
  injection E as <- <-. rewrite length_take in Hb. lia.
Qed.

Lemma ReadLimited_long limit r bytes e : 0 <= limit -> ReadLimited limit r = (bytes, e) -> limit <= size bytes ->
  limit <= size (rd_bytes r).
Proof.
  intros Hl E Hb. unfold ReadLimited, size in *.
  destruct (Z.ltb_spec (Z.of_nat (length (rd_bytes r))) limit) as [H|H]; [injection E as <- <-; lia|done].
Qed.

(** The end of the limited reader is that of the reader, or its own. *)
Lemma ReadLimited_end limit r : (ReadLimited limit r).2 = rd_end r \/ (ReadLimited limit r).2 = AtEOF.
Proof. unfold ReadLimited. destruct (_ || _); [by left|by right]. Qed.

Lemma has_prefix_spec s p : has_prefix s p = true <-> exists rest, s = p +:+ rest.
Proof.
  unfold has_prefix. revert s. induction p as [|c p IH]; intros s; simpl.
  - destruct s; (split; [intros _; by eexists|done]).
  - destruct s as [|c' s]; [split; [done|]; by intros [rest [=]]|].
    change (String.prefix (String c p) (String c' s)) with (if ascii_dec c c' then String.prefix p s else false).
    destruct (ascii_dec c c') as [<-|Hne].
    + transitivity (exists rest, s = p +:+ rest); [apply IH|].
      split; intros [rest E]; exists rest; [by rewrite E|by injection E].
    + split; [done|]. intros [rest E]. injection E as E _. congruence.
Qed.

Lemma authorized_spec token header : authorized token header = true <-> header = bearer +:+ token.
Proof.
  unfold authorized. rewrite !andb_true_iff, bool_decide_eq_true. split.
  - intros [[Hp _] Hd]. apply has_prefix_spec in Hp as [rest ->]. rewrite chars_app in Hd.
    change (Z.to_nat (len bearer)) with (length (chars bearer)) in Hd. rewrite drop_app_length in Hd.
    by apply chars_inj in Hd as ->.
  - intros ->. split_and!.
    + apply has_prefix_spec. by exists token.
    + rewrite len_app. apply Z.eqb_eq. lia.
    + rewrite chars_app. change (Z.to_nat (len bearer)) with (length (chars bearer)). apply drop_app_length.
Qed.

Lemma authorized_bearer token : authorized token (bearer +:+ token) = true.
Proof. by apply authorized_spec. Qed.

Section contract.
Context {wire : Wire} {laws : WireLaws} (unicode_lower : string -> string).

Lemma content_reader_end encoding body r : content_reader unicode_lower encoding body = Ok r ->
  rd_end r = rd_end body \/ rd_end r = ReadFailed.
Proof.
  unfold content_reader. destruct (_ || _); [intros [= <-]; by left|]. destruct (String.eqb _ _); [|done].
  destruct (gunzip body) as [r'|] eqn:E; [|done]. intros [= <-]. by apply gunzip_end in E.
Qed.

Lemma decode_json_ok bytes b : decode_json bytes = Ok b <->
  exists trailing, json_decode bytes = Some (b, trailing) /\ forallb json_space trailing = true.
Proof.
  unfold decode_json. destruct (json_decode bytes) as [[b' t]|]; [destruct (forallb json_space t) eqn:E|]; split.
  - intros [= <-]. by exists t.
  - by intros (t' & [= -> <-] & _).
  - done.
  - intros (t' & [= -> <-] & Ht). congruence.
  - done.
  - by intros (t' & [=] & _).
Qed.

(** The bytes a request carries are those that are read. *)
Lemma decodeBatch_ok r b :
  decodeBatch unicode_lower (rq_ContentEncoding r) (MaxBytesReader maxCompressedBytes (rq_Body r)) = Ok b <->
  exists bytes trailing, carries unicode_lower r bytes /\ json_decode bytes = Some (b, trailing) /\ forallb json_space trailing = true.
Proof.
  unfold decodeBatch, carries. split.
  - intros E. apply result_bind_ok in E as (plain & Hp & E).
    destruct (ReadLimited (maxDecompressedBytes + 1) plain) as [bytes e] eqn:Er. destruct e; [|done..].
    destruct (Z.ltb_spec maxDecompressedBytes (size bytes)) as [|Hs]; [done|]. apply decode_json_ok in E as (trailing & Hj & Ht).
    apply ReadLimited_short in Er as [Hb He]; [|by vm_compute|lia].
    destruct (content_reader_end _ _ _ Hp) as [Hend|Hend]; rewrite He in Hend; [|done].
    destruct (MaxBytesReader_eof _ _ (eq_sym Hend)) as [Hm Hid]. rewrite Hid in Hp.
    exists bytes, trailing. split_and!; try done. by exists plain.
  - intros (bytes & trailing & (Hm & Hs & plain & Hp & Hb & He) & Hj & Ht). subst bytes.
    rewrite MaxBytesReader_small, Hp by done. simpl. rewrite ReadLimited_within, He by lia.
    rewrite (proj2 (Z.ltb_ge _ _)) by done. apply decode_json_ok. by exists trailing.
Qed.

(** Of two batches only one is asked for. *)
Lemma carries_inj r bytes bytes' : carries unicode_lower r bytes -> carries unicode_lower r bytes' -> bytes = bytes'.
Proof. intros (_ & _ & p & Hp & <- & _) (_ & _ & p' & Hp' & <- & _). rewrite Hp in Hp'. by injection Hp' as ->. Qed.

Lemma too_large r : rd_end (rq_Body r) <> MaxBytesError ->
  decodeBatch unicode_lower (rq_ContentEncoding r) (MaxBytesReader maxCompressedBytes (rq_Body r)) = Err ErrRequestTooLarge ->
  maxCompressedBytes < size (rd_bytes (rq_Body r)) \/
  exists plain, content_reader unicode_lower (rq_ContentEncoding r) (rq_Body r) = Ok plain /\ maxDecompressedBytes < size (rd_bytes plain).
Proof.
  intros Hend E. destruct (Z.lt_ge_cases maxCompressedBytes (size (rd_bytes (rq_Body r)))) as [Hs|Hs]; [by left|right].
  rewrite MaxBytesReader_small in E by done. unfold decodeBatch in E.
  destruct (content_reader _ _ _) as [plain|e] eqn:Hp; simpl in E.
  2: { injection E as ->. unfold content_reader in Hp. repeat (case_match; try done). }
  exists plain. split; [done|]. destruct (ReadLimited (maxDecompressedBytes + 1) plain) as [bytes e] eqn:Er. destruct e.
  - destruct (Z.ltb_spec maxDecompressedBytes (size bytes)) as [Hb|_].
    + apply ReadLimited_long in Er; [lia|done|lia].
    + unfold decode_json in E. by repeat case_match.
  - pose proof (ReadLimited_end (maxDecompressedBytes + 1) plain) as He. rewrite Er in He. simpl in He. destruct He as [He|He]; [|done].
    destruct (content_reader_end _ _ _ Hp) as [H|H]; rewrite <- He in H; done.
  - done.
Qed.
End contract.

(** ** The agent's request *)

(** The request of [Sender.attempt] for a body. *)
Definition agent_request (token : string) (joined : bool) (body : list Z) : request :=
  MkRequest post_method (bearer +:+ token) "gzip" (MkReader body AtEOF joined).

(** [encodeBatch] of the sender *)
Definition encodeBatch `{!Wire} (b : Batch) : option (list Z) := gzip <$> json_encode b.

(** The sizes that the endpoint takes. *)
Definition fits `{!Wire} (b : Batch) : bool :=
  match json_encode b with
  | Some bytes => (size bytes <=? maxDecompressedBytes) && (size (gzip bytes) <=? maxCompressedBytes)
  | None => false
  end.

Lemma agent_asks {wire : Wire} {laws : WireLaws} unicode_lower token joined b body :
  Validate b = Ok tt -> encodeBatch b = Some body -> fits b = true ->
  asks unicode_lower token (agent_request token joined body) b.
Proof.
  unfold encodeBatch, fits. intros Hv He Hf. destruct (json_encode b) as [bytes|] eqn:Ej; [|done]. injection He as <-.
  apply andb_true_iff in Hf as [H1%Z.leb_le H2%Z.leb_le].
  destruct (decode_encoded b bytes Hv Ej) as (trailing & Hd & Ht). destruct (gunzip_gzip bytes joined) as (plain & Hg & Hb & Hend).
  split_and!; [done|apply authorized_bearer|]. exists bytes, trailing. split_and!; [split_and!; [done..|]|done..].
  exists plain. split_and!; [|done..]. unfold content_reader. simpl rq_ContentEncoding.
  replace (to_lower unicode_lower (of_chars (TrimSpace (chars "gzip")))) with "gzip" by (by vm_compute).
  simpl. by rewrite Hg.
Qed.

(** The batch of a request that asks for one fits. *)
Lemma asks_fits {wire : Wire} {laws : WireLaws} unicode_lower token joined b b' body :
  encodeBatch b = Some body -> asks unicode_lower token (agent_request token joined body) b' -> fits b = true.
Proof.
  unfold encodeBatch, fits. intros He (_ & _ & bytes' & _ & (H1 & H2 & plain & Hp & Hb & _) & _).
  destruct (json_encode b) as [bytes|]; [|done]. injection He as <-. simpl in *.
  destruct (gunzip_gzip bytes joined) as (plain' & Hg & Hb' & _). unfold content_reader in Hp.
  replace (to_lower unicode_lower (of_chars (TrimSpace (chars "gzip")))) with "gzip" in Hp by (by vm_compute).
  simpl in Hp. rewrite Hg in Hp. injection Hp as ->.
  apply andb_true_iff. split; apply Z.leb_le; congruence.
Qed.

(** ** The contract *)

Definition insertion_status (r : result string bool) : Z :=
  match r with Err _ => 500 | Ok false => 200 | Ok true => 202 end.

Section serve.
Context {wire : Wire} {laws : WireLaws} {S : Type} `{!BatchStore S} (unicode_lower : string -> string) (token : string).

Lemma insert_decoded_asked b s : Validate b = Ok tt ->
  (insert_decoded b s).1 = (bs_InsertBatch b s).1 /\ an_Status (insert_decoded b s).2 = insertion_status (bs_InsertBatch b s).2.
Proof. intros Hv. unfold insert_decoded. rewrite Hv. by destruct (bs_InsertBatch b s) as [s' [[]|e]]. Qed.

Lemma ServeHTTP_asked r b s : asks unicode_lower token r b -> ServeHTTP unicode_lower token r s = insert_decoded b s.
Proof.
  intros (Hm & Ha & bytes & trailing & Hc & Hj & Ht & Hv). unfold ServeHTTP. rewrite Hm, Ha. simpl.
  replace (decodeBatch _ _ _) with (Ok b : result decode_error Batch); [done|]. symmetry. apply decodeBatch_ok. by exists bytes, trailing.
Qed.

Lemma ServeHTTP_refused r s : (forall b, ~ asks unicode_lower token r b) ->
  (ServeHTTP unicode_lower token r s).1 = s /\ an_Status (ServeHTTP unicode_lower token r s).2 ∈ [400; 401; 405; 413; 415].
Proof.
  intros Hn. unfold ServeHTTP. destruct (String.eqb_spec (rq_Method r) post_method) as [Hm|]; simpl; [|set_solver].
  destruct (authorized _ _) eqn:Ha; simpl; [|set_solver].
  destruct (decodeBatch _ _ _) as [b|[]] eqn:Hd; [|set_solver..]. unfold insert_decoded.
  destruct (Validate b) as [[]|e] eqn:Hv; [|set_solver]. apply decodeBatch_ok in Hd as (bytes & trailing & Hc & Hj & Ht).
  destruct (Hn b). split_and!; [done..|]. by exists bytes, trailing.
Qed.

Lemma asks_inj r b b' : asks unicode_lower token r b -> asks unicode_lower token r b' -> b = b'.
Proof.
  intros (_ & _ & x & t & Hc & Hj & _) (_ & _ & x' & t' & Hc' & Hj' & _).
  rewrite (carries_inj unicode_lower r x' x Hc' Hc) in Hj'. congruence.
Qed.

(** Whatever the agent sends, the store sees its batch or nothing. *)
Lemma agent_served joined b body s : Validate b = Ok tt -> encodeBatch b = Some body ->
  let answer := ServeHTTP unicode_lower token (agent_request token joined body) s in
  if fits b then answer = insert_decoded b s else answer.1 = s /\ 400 <= an_Status answer.2 < 500.
Proof.
  intros Hv He answer. destruct (fits b) eqn:Hf; [by apply ServeHTTP_asked, agent_asks|].
  destruct (ServeHTTP_refused (agent_request token joined body) s) as [H1 H2].
  - intros b' Hb'. apply (asks_fits unicode_lower token joined b b' body) in Hb'; [congruence|done].
  - split; [done|]. revert H2. rewrite !elem_of_cons, elem_of_nil. fold answer. lia.
Qed.
End serve.

(** C22. The contract of the endpoint.  A request asks for a batch when it is a POST with
    the token whose body, decoded within the limits to its end, is one JSON value, a
    valid batch: then the store is given that batch, and the answer is 202 when it was
    stored, 200 when it was there, 500 when the store failed.  Every other request
    leaves the store alone and is answered by one of five statuses: 405 for another
    method, 401 for anything but the token, 413 only for a body over the limits. *)
Theorem ingest_contract {wire : Wire} {laws : WireLaws} {S} `{!BatchStore S}
    (unicode_lower : string -> string) (token : string) (r : request) (s : S) :
  let answer := ServeHTTP unicode_lower token r s in
  (forall b, asks unicode_lower token r b ->
     answer.1 = (bs_InsertBatch b s).1 /\ an_Status answer.2 = insertion_status (bs_InsertBatch b s).2) /\
  ((forall b, ~ asks unicode_lower token r b) -> answer.1 = s /\ an_Status answer.2 ∈ [400; 401; 405; 413; 415]) /\
  (an_Status answer.2 = 405 <-> rq_Method r <> "POST") /\
  (an_Status answer.2 = 401 <-> rq_Method r = "POST" /\ rq_Authorization r <> "Bearer " +:+ token) /\
  (rd_end (rq_Body r) <> MaxBytesError -> an_Status answer.2 = 413 ->
     maxCompressedBytes < size (rd_bytes (rq_Body r)) \/
     exists plain, content_reader unicode_lower (rq_ContentEncoding r) (rq_Body r) = Ok plain /\ maxDecompressedBytes < size (rd_bytes plain)).
Proof.
  intros answer. split_and!.
  - intros b Hb. unfold answer. rewrite (ServeHTTP_asked _ _ _ b) by done. apply insert_decoded_asked. by destruct Hb as (_ & _ & ? & ? & _ & _ & _ & ?).
  - intros Hn. by apply ServeHTTP_refused.
  - unfold answer, ServeHTTP. destruct (String.eqb_spec (rq_Method r) post_method) as [Hm|]; simpl; [|done].
    destruct (authorized _ _); simpl; [|done].
    destruct (decodeBatch _ _ _) as [b|[]]; [|done..]. unfold insert_decoded. destruct (Validate b); [|done]. by destruct (bs_InsertBatch b s) as [? [[]|]].
  - rewrite <- authorized_spec, not_true_iff_false. unfold answer, ServeHTTP.
    destruct (String.eqb_spec (rq_Method r) post_method) as [Hm|]; simpl; [|split; [done|by intros [? _]]].
    destruct (authorized _ _); simpl; [|done].
    destruct (decodeBatch _ _ _) as [b|[]]; [|split; [done|by intros [_ ?]]..]. unfold insert_decoded.
    destruct (Validate b); [|split; [done|by intros [_ ?]]]. destruct (bs_InsertBatch b s) as [? [[]|]]; (split; [done|by intros [_ ?]]).
  - intros Hend H413. apply (too_large unicode_lower r Hend). unfold answer, ServeHTTP in H413.
    destruct (String.eqb _ _); simpl in H413; [|done]. destruct (authorized _ _); simpl in H413; [|done].
    destruct (decodeBatch _ _ _) as [b|[]]; [|done..]. unfold insert_decoded in H413.
    destruct (Validate b); [|done]. by destruct (bs_InsertBatch b s) as [? [[]|]].
Qed.

(** ** A concrete encoding

    The batches of a table, each written as its number, and a compression that puts a
    byte in front. *)

Definition find_index (table : list Batch) (b : Batch) : option nat := fst <$> list_find (fun b' => b' = b) table.

#[local] Instance table_wire (table : list Batch) : Wire := {
  gunzip r := match rd_bytes r with 31 :: bytes => Some (MkReader bytes (rd_end r) (rd_joined r)) | _ => None end;
  gzip bytes := 31 :: bytes;
  json_encode b := (fun i => [Z.of_nat i; 10]) <$> find_index table b;
  json_decode bytes := match bytes with i :: rest => (fun b => (b, rest)) <$> table !! Z.to_nat i | [] => None end }.

#[local] Instance table_laws table : @WireLaws (table_wire table).
Proof.
  split.
  - intros r r'. simpl. destruct (rd_bytes r) as [|z bytes]; [done|]. repeat (case_match; try done). intros [= <-]. by left.
  - intros bytes joined. by eexists.
  - intros b bytes _. simpl. unfold find_index. destruct (list_find _ table) as [[i b']|] eqn:E; simpl; [|done].
    intros [= <-]. apply list_find_Some in E as (Hi & -> & _). exists [10]. rewrite Nat2Z.id, Hi. done.
Qed.

Module IngestSample.
#[local] Instance wire : Wire := table_wire [SendSample.batch].
#[local] Instance laws : WireLaws := table_laws _.

(** A store that remembers identifiers. *)
#[local] Instance ids : BatchStore (list string) := {
  bs_InsertBatch b s := if decide (b_BatchID b ∈ s) then (s, Ok false) else (b_BatchID b :: s, Ok true) }.

Definition sent : request := agent_request "secret" true [31; 0; 10].
Definition serve := ServeHTTP (S := list string) (fun s => s) "secret".

Example served_twice : an_Status <$> [(serve sent []).2; (serve sent (serve sent []).1).2] = [202; 200].
Proof. vm_compute. reflexivity. Qed.

Example refused_statuses : (fun r => an_Status (serve r []).2) <$>
  [MkRequest "PUT" "Bearer secret" "" (MkReader [] AtEOF true);
   MkRequest "POST" "Bearer secre" "" (MkReader [] AtEOF true);
   MkRequest "POST" "Bearer secret" "br" (MkReader [] AtEOF true);
   MkRequest "POST" "Bearer secret" " GZIP " (MkReader [31; 0; 10; 11] AtEOF true);
   MkRequest "POST" "Bearer secret" "gzip" (MkReader [31; 0] ReadFailed false);
   MkRequest "POST" "Bearer secret" "identity" (MkReader [0; 32] MaxBytesError false)] = [405; 401; 415; 400; 400; 413].
Proof. vm_compute. reflexivity. Qed.

Lemma ingest_contract_witness :
  (serve sent []).1 = [b_BatchID SendSample.batch] /\ an_Status (serve sent []).2 = 202.
Proof.
  pose proof (ingest_contract (fun s => s) "secret" sent ([] : list string)) as H. cbv zeta in H. apply H.
  split_and!; [done|by vm_compute|]. exists [0; 10], [10]. split_and!; [|by vm_compute..].
  split_and!; [done|done|]. eexists. split_and!; [by vm_compute|done..].
Defined.
End IngestSample.
