(* ===== verification/Effects.v ===== *)
(** * Programs that call their environment

    Code that reads, writes and sends through interfaces is a program tree: it
    returns, or makes a call and goes on with the answer.  A handler says what the
    calls do to the world.  [exec] runs a program to its end; [run n] stops it after
    [n] calls, which is a process killed there: what it held in memory is gone, the
    world stays.  [spec] is a crash Hoare logic over such programs: the invariant
    holds between any two calls, the postcondition at the end.  [Concurrent]: programs
    that run at the same time. *)

From stdpp Require Import base tactics.
From Stdlib Require Import Lia PeanoNat.
From S2P Require Import Prelude.

Inductive prog (E : Type -> Type) (A : Type) : Type :=
| Ret (a : A)
| Vis (X : Type) (e : E X) (k : X -> prog E A).
Arguments Ret {E A} a.
Arguments Vis {E A X} e k.

Fixpoint prog_bind {E A B} (p : prog E A) (f : A -> prog E B) : prog E B :=
  match p with
  | Ret a => f a
  | Vis e k => Vis e (fun x => prog_bind (k x) f)
  end.

Definition call {E X} (e : E X) : prog E X := Vis e Ret.

Notation "'let!' x ':=' p 'in' k" := (prog_bind p (fun x => k))
  (at level 10, x pattern, p at level 200, k at level 200) : flow_scope.

Class Handler (E : Type -> Type) (W : Type) : Type := handle : forall {X}, E X -> W -> W * X.

Section run.
Context {E : Type -> Type} {W : Type} `{!Handler E W}.

Fixpoint exec {A} (p : prog E A) (w : W) : W * A :=
match p with
| Ret a => (w, a)
| Vis e k => let r := handle e w in exec (k r.2) r.1
end.

(** At most [n] calls; [None] when the program was stopped. *)
Fixpoint run {A} (n : nat) (p : prog E A) (w : W) {struct p} : W * option A :=
match p with
| Ret a => (w, Some a)
| Vis e k =>
    match n with
    | O => (w, None)
    | S n' => let r := handle e w in run n' (k r.2) r.1
    end
end.

(** [I] holds before every call and at the end, [Q] at the end. *)
Fixpoint spec {A} (I : W -> Prop) (p : prog E A) (Q : A -> W -> Prop) (w : W) : Prop :=
I w /\
match p with
| Ret a => Q a w
| Vis e k => let r := handle e w in spec I (k r.2) Q r.1
end.

Lemma spec_inv {A} I (p : prog E A) Q w : spec I p Q w -> I w.
Proof. by destruct p; intros [? _]. Qed.

Lemma spec_ret {A} (I : W -> Prop) (a : A) (Q : A -> W -> Prop) w : I w -> Q a w -> spec I (Ret a) Q w.
Proof. done. Qed.

Lemma spec_vis {A X} (I : W -> Prop) (e : E X) (k : X -> prog E A) Q w :
  I w -> (forall w' x, handle e w = (w', x) -> spec I (k x) Q w') -> spec I (Vis e k) Q w.
Proof. intros Hi Hk. split; [done|]. apply Hk. by destruct (handle e w). Qed.

Lemma spec_mono {A} (I J : W -> Prop) (p : prog E A) (Q R : A -> W -> Prop) w :
  (forall w, I w -> J w) -> (forall a w, I w -> Q a w -> R a w) -> spec I p Q w -> spec J p R w.
Proof.
  intros HI HQ. revert w. induction p as [a|X e k IH]; intros w [Hi Hp]; split; auto.
Qed.

Lemma spec_bind {A B} (I : W -> Prop) (p : prog E A) (f : A -> prog E B) Q w :
  spec I p (fun a w => spec I (f a) Q w) w -> spec I (prog_bind p f) Q w.
Proof.
  revert w. induction p as [a|X e k IH]; intros w [Hi Hp]; [done|]. split; [done|]. apply IH, Hp.
Qed.

Lemma spec_call {A X} (I : W -> Prop) (e : E X) (k : X -> prog E A) Q w :
  I w -> (forall w' x, handle e w = (w', x) -> spec I (k x) Q w') ->
  spec I (prog_bind (call e) k) Q w.
Proof. apply spec_vis. Qed.

Lemma spec_and {A} (I J : W -> Prop) (p : prog E A) (Q R : A -> W -> Prop) w :
  spec I p Q w -> spec J p R w -> spec (fun w => I w /\ J w) p (fun a w => Q a w /\ R a w) w.
Proof.
  revert w. induction p as [a|X e k IH]; intros w [Hi Hp] [Hj Hr]; [by repeat split|]. split; [by split|]. by apply IH.
Qed.

Lemma spec_exec {A} (I : W -> Prop) (p : prog E A) Q w :
  spec I p Q w -> I (exec p w).1 /\ Q (exec p w).2 (exec p w).1.
Proof. revert w. induction p as [a|X e k IH]; intros w [Hi Hp]; [done|]. apply IH, Hp. Qed.

Lemma spec_run {A} (I : W -> Prop) n (p : prog E A) Q w :
  spec I p Q w -> I (run n p w).1 /\ (forall a, (run n p w).2 = Some a -> Q a (run n p w).1).
Proof.
  revert n w. induction p as [a|X e k IH]; intros n w [Hi Hp]; simpl.
  - split; [done|]. by intros ? [= <-].
  - destruct n as [|n]; [split; [exact Hi|discriminate]|]. apply IH, Hp.
Qed.
End run.

Lemma exec_bind {E W A B} `{!Handler E W} (p : prog E A) (f : A -> prog E B) w :
  exec (prog_bind p f) w = exec (f (exec p w).2) (exec p w).1.
Proof. revert w. induction p as [a|X e k IH]; intros w; simpl; [done|]. apply IH. Qed.

(** Every call a program can make satisfies [P]. *)
Fixpoint every_call {E A} (P : forall X, E X -> Prop) (p : prog E A) : Prop :=
match p with
| Ret _ => True
| Vis e k => P _ e /\ forall x, every_call P (k x)
end.

Lemma every_call_bind {E A B} P (p : prog E A) (f : A -> prog E B) :
  every_call P p -> (forall a, every_call P (f a)) -> every_call P (prog_bind p f).
Proof. induction p as [a|X e k IH]; simpl; [auto|]. intros [? ?] Hf. split; [done|]. intros x. by apply IH. Qed.

Lemma exec_keeps {E W A} `{!Handler E W} (I : W -> Prop) P (p : prog E A) w :
  (forall X (e : E X) w, P X e -> I w -> I (handle e w).1) -> every_call P p -> I w -> I (exec p w).1.
Proof. intros HP. revert w. induction p as [a|X e k IH]; intros w; simpl; [done|]. intros [He Hk] Hw. apply IH; auto. Qed.

(** ** Programs that run at the same time

    Several programs share one world: each step makes the next call of one of them,
    starts another, or is a step of the world itself.  [safe] is thread-modular: a
    program keeps the invariant with each of its calls, whatever the others - who only
    change the world as the rely [R] allows - do in between. *)

Module Concurrent.
#[local] Open Scope list_scope.

Section pool.
Context {E : Type -> Type} {W A : Type} `{!Handler E W}.

(** Programs that may start, and what the world does by itself. *)
Context (starts : prog E A -> Prop) (ticks : W -> W -> Prop).

(** The programs by number. *)
Abbreviation pool := (nat -> option (prog E A)).

Definition set_program (i : nat) (p : prog E A) (ps : pool) : pool := fun j => if Nat.eqb j i then Some p else ps j.

Inductive pool_step : pool * W -> pool * W -> Prop :=
| PoolStart ps w i p : ps i = None -> starts p -> pool_step (ps, w) (set_program i p ps, w)
| PoolCall ps w i X (e : E X) k : ps i = Some (Vis e k) ->
    pool_step (ps, w) (set_program i (k (handle e w).2) ps, (handle e w).1)
| PoolTick ps w w' : ticks w w' -> pool_step (ps, w) (ps, w').

Inductive pool_run (w0 : W) : pool * W -> Prop :=
| PoolEmpty : pool_run w0 (fun _ => None, w0)
| PoolNext c c' : pool_run w0 c -> pool_step c c' -> pool_run w0 c'.

(** The next call of a program, and of a list of them in turn. *)
Definition pool_call (c : pool * W) (i : nat) : pool * W :=
  match c.1 i with
  | Some (Vis e k) => (set_program i (k (handle e c.2).2) c.1, (handle e c.2).1)
  | _ => c
  end.

Fixpoint pool_calls (c : pool * W) (order : list nat) : pool * W :=
  match order with
  | [] => c
  | i :: order => pool_calls (pool_call c i) order
  end.

Lemma pool_calls_run w0 c order : pool_run w0 c -> pool_run w0 (pool_calls c order).
Proof.
  revert c. induction order as [|i order IH]; intros c Hc; [done|]. apply IH. unfold pool_call.
  destruct (c.1 i) as [[a|X e k]|] eqn:Hi; [done| |done]. eapply PoolNext; [exact Hc|]. destruct c as [ps w]. by apply PoolCall.
Qed.

(** Programs that start, under numbers from [i] on. *)
Fixpoint start_all (i : nat) (new : list (prog E A)) (c : pool * W) : pool * W :=
  match new with
  | [] => c
  | p :: new => start_all (S i) new (set_program i p c.1, c.2)
  end.

Fixpoint all_start (new : list (prog E A)) : Prop := match new with [] => True | p :: new => starts p /\ all_start new end.

Lemma start_all_run w0 i new c : all_start new -> (forall j, (i <= j)%nat -> c.1 j = None) -> pool_run w0 c -> pool_run w0 (start_all i new c).
Proof.
  revert i c. induction new as [|p new IH]; intros i c Hs Hi Hc; [done|]. destruct Hs as [Hp Hs]. apply IH; [done| |].
  - intros j Hj. simpl. unfold set_program. destruct (PeanoNat.Nat.eqb_spec j i); [lia|]. apply Hi. lia.
  - eapply PoolNext; [exact Hc|]. destruct c as [ps w]. apply PoolStart; [|done]. by apply Hi.
Qed.

(** What a program may rely on, and the invariant. *)
Context (R : W -> W -> Prop) (I : W -> Prop) {HR : PreOrder R}.

Fixpoint safe (p : prog E A) (w : W) : Prop :=
match p with
| Ret _ => True
| Vis e k => forall w1, R w w1 -> I w1 ->
    let r := handle e w1 in I r.1 /\ R w1 r.1 /\ safe (k r.2) r.1
end.

Lemma safe_later p w w' : R w w' -> safe p w -> safe p w'.
Proof.
  destruct p as [a|X e k]; [done|]. simpl. intros Hw Hs w1 Hw1. apply Hs. by etransitivity.
Qed.

Lemma safe_ret a w : safe (Ret a) w.
Proof. done. Qed.

Lemma safe_call {X} (e : E X) (k : X -> prog E A) w :
  (forall w1 w2 x, R w w1 -> I w1 -> handle e w1 = (w2, x) -> I w2 /\ R w1 w2 /\ safe (k x) w2) ->
  safe (prog_bind (call e) k) w.
Proof. intros H w1 Hw HI. cbv zeta. destruct (handle e w1) as [w2 x] eqn:Eh. simpl. by apply H. Qed.

Context (Hstarts : forall p w, starts p -> I w -> safe p w).
Context (Hticks : forall w w', ticks w w' -> I w -> I w' /\ R w w').

(** The invariant holds throughout. *)
Lemma pool_safe w0 c : I w0 -> pool_run w0 c -> I c.2 /\ (forall i p, c.1 i = Some p -> safe p c.2) /\ R w0 c.2.
Proof.
  intros HI0. induction 1 as [|c c' _ (HI & Hp & Hw) Hst]; [split_and!; [done|done|reflexivity]|].
  destruct Hst as [ps w i p _ Hs|ps w i X e k Hi|ps w w' Ht]; cbn [fst snd] in *.
  - split_and!; [done| |done]. intros j q. unfold set_program. destruct (Nat.eqb j i); [|by apply Hp]. intros [= <-]. by apply Hstarts.
  - pose proof (Hp i _ Hi) as Hs. simpl in Hs. destruct (Hs w) as (HI' & Hw' & Hk); [reflexivity|done|].
    split_and!; [done| |by etransitivity]. intros j q. unfold set_program. destruct (Nat.eqb j i); [by intros [= <-]|].
    intros Hj. eapply safe_later; [exact Hw'|]. by eapply Hp.
  - destruct (Hticks w w' Ht HI) as [HI' Hw']. split_and!; [done| |by etransitivity].
    intros j q Hj. eapply safe_later; [exact Hw'|]. by eapply Hp.
Qed.
End pool.

Arguments safe {E W A _} R I p w.
Arguments set_program {E A} i p ps _.
End Concurrent.
