(* ===== verification/StateFile.v ===== *)
(** * The counter checkpoint on disk

    [internal/agent/interfacecounter/state.go], [StateFile]: the checkpoint is
    written to a temporary file, synced, renamed over the old one, and the directory
    is synced.

    The disk distinguishes what a process sees from what survives a power loss: the
    name of the checkpoint file refers to [current] for running processes, and to
    [current] or [durable] after a power loss, until the directory is synced; the
    contents of a file survive once the file was synced.  Every call may fail,
    without or after its effect.  The JSON encoding is a parameter. *)

From stdpp Require Import base strings numbers list.
From S2P Require Import Prelude GoBase GoModel InterfaceCounter Effects.

Open Scope string_scope.
Open Scope Z_scope.
Local Open Scope flow_scope.

Record file : Type := MkFile { f_content : list Z; f_synced : bool }.

(** A call that fails, before or after it took effect. *)
Inductive fault : Type := FailsBefore (what : string) | FailsAfter (what : string).

Record disk : Type := MkDisk {
  d_current : option file;
  d_durable : option file;
  d_temp : option file;
  d_faults : list (option fault) }.

Inductive fs : Type -> Type :=
| MkdirAll : fs (result string unit)
| CreateTemp : fs (result string unit)
| Chmod : fs (result string unit)
| WriteTemp (bytes : list Z) : fs (result string unit)
| SyncTemp : fs (result string unit)
| CloseTemp : fs (result string unit)
| RemoveTemp : fs (result string unit)
| Rename : fs (result string unit)
| OpenDir : fs (result string unit)
| SyncDir : fs (result string unit)
| OpenFile : fs (result string bool)
| ReadFile (limit : nat) : fs (result string (list Z)).

Definition with_temp (t : option file) (d : disk) : disk :=
  MkDisk (d_current d) (d_durable d) t (d_faults d).

(** What a call does and answers when it does not fail. *)
Definition fs_effect {X} (e : fs X) (d : disk) : disk * X :=
  match e with
  | MkdirAll | Chmod | CloseTemp | OpenDir => (d, Ok tt)
  | CreateTemp => (with_temp (Some (MkFile [] false)) d, Ok tt)
  | WriteTemp bytes => (with_temp ((fun f => MkFile (f_content f ++ bytes) false) <$> d_temp d) d, Ok tt)
  | SyncTemp => (with_temp ((fun f => MkFile (f_content f) true) <$> d_temp d) d, Ok tt)
  | RemoveTemp => (with_temp None d, Ok tt)
  | Rename =>
      match d_temp d with
      | Some f => (MkDisk (Some f) (d_durable d) None (d_faults d), Ok tt)
      | None => (d, Err "no such file")
      end
  | SyncDir => (MkDisk (d_current d) (d_current d) (d_temp d) (d_faults d), Ok tt)
  | OpenFile => (d, Ok (match d_current d with Some _ => true | None => false end))
  | ReadFile limit => (d, Ok (take limit (default [] (f_content <$> d_current d))))
  end.

(** The error answer of a call. *)
Definition fs_fails {X} (e : fs X) (what : string) : X :=
  match e with
  | OpenFile => Err what
  | ReadFile _ => Err what
  | MkdirAll | CreateTemp | Chmod | WriteTemp _ | SyncTemp | CloseTemp | RemoveTemp | Rename
  | OpenDir | SyncDir => Err what
  end.

#[export] Instance fs_handler : Handler fs disk := fun X e d =>
  match d_faults d with
  | [] => fs_effect e d
  | f :: faults =>
      let d := MkDisk (d_current d) (d_durable d) (d_temp d) faults in
      match f with
      | None => fs_effect e d
      | Some (FailsBefore what) => (d, fs_fails e what)
      | Some (FailsAfter what) => ((fs_effect e d).1, fs_fails e what)
      end
  end.

Inductive state_error : Type :=
| Io (context what : string)
| Decode
| Encode
| Invalid (e : checkpoint_error).

(** [encoding/json] on checkpoints. *)
Class Codec : Type := {
  encode : Checkpoint -> option (list Z);
  decode : list Z -> option Checkpoint }.

(** [1<<20], the bytes [Load] reads at most. *)
Definition load_limit : nat := N.to_nat (2 ^ 20).

Section state_file.
Context `{!Codec}.

(** [if err := e; err != nil { return fmt.Errorf(context, err) }]. *)
Definition or_return {A B} (e : fs (result string A)) (context : string)
  (k : A -> prog fs (result state_error B)) : prog fs (result state_error B) :=
  let! r := call e in
  match r with
  | Err what => Ret (Err (Io context what))
  | Ok a => k a
  end.

(** An error return while the deferred removal of the temporary file is armed,
    after the explicit [Close] of the branches that have one. *)
Definition abandon {B} (close : bool) (err : state_error) : prog fs (result state_error B) :=
  let! _ := (if close then call CloseTemp else Ret (Ok tt)) in
  let! _ := call RemoveTemp in
  Ret (Err err).

Definition or_abandon {B} (e : fs (result string unit)) (close : bool) (context : string)
  (k : prog fs (result state_error B)) : prog fs (result state_error B) :=
  let! r := call e in
  match r with
  | Err what => abandon close (Io context what)
  | Ok _ => k
  end.

Definition Save (checkpoint : Checkpoint) : prog fs (result state_error unit) :=
  match validateCheckpoint checkpoint with
  | Err e => Ret (Err (Invalid e))
  | Ok _ =>
      or_return MkdirAll "create interface counter checkpoint directory" (fun _ =>
      or_return CreateTemp "create interface counter checkpoint" (fun _ =>
      or_abandon Chmod true "secure interface counter checkpoint" (
      match encode checkpoint with
      | None => abandon true Encode
      | Some bytes =>
          or_abandon (WriteTemp bytes) true "encode interface counter checkpoint" (
          or_abandon SyncTemp true "sync interface counter checkpoint" (
          or_abandon CloseTemp false "close interface counter checkpoint" (
          or_abandon Rename false "publish interface counter checkpoint" (
          or_return OpenDir "open interface counter checkpoint directory" (fun _ =>
          or_return SyncDir "sync interface counter checkpoint directory" (fun _ =>
          Ret (Ok tt)))))))
      end)))
  end.

Definition Load : prog fs (result state_error (option Checkpoint)) :=
  or_return OpenFile "open interface counter checkpoint" (fun found =>
  if negb found then Ret (Ok None)
  else
    let! r := call (ReadFile load_limit) in
    match r with
    | Err _ => Ret (Err Decode)
    | Ok content =>
        match decode content with
        | None => Ret (Err Decode)
        | Some checkpoint =>
            match validateCheckpoint checkpoint with
            | Err e => Ret (Err (Invalid e))
            | Ok _ => Ret (Ok (Some checkpoint))
            end
        end
    end).
End state_file.

(** ** Specification *)

(** What the file may hold after a power loss; [None] when there is no file. *)
Inductive survives (d : disk) : option (list Z) -> Prop :=
| SurvivesNone : d_current d = None \/ d_durable d = None -> survives d None
| SurvivesSynced f : d_current d = Some f \/ d_durable d = Some f -> f_synced f = true ->
    survives d (Some (f_content f))
| SurvivesTorn f garbage : d_current d = Some f \/ d_durable d = Some f -> f_synced f = false ->
    survives d (Some garbage).

Definition as_synced (content : option (list Z)) : option file := (fun c => MkFile c true) <$> content.

(** The checkpoint file has been [content] for long. *)
Definition settled (content : option (list Z)) (d : disk) : Prop :=
  d_current d = as_synced content /\ d_durable d = d_current d.

Definition synced_file (bytes : list Z) : option file := Some (MkFile bytes true).

(** The name refers to an old file or, whole, to the new one. *)
Definition old_or_new (dur cur : option file) (new : list Z) (d : disk) : Prop :=
  (d_durable d = dur \/ d_durable d = synced_file new) /\
  (d_current d = cur \/ d_current d = synced_file new).

Lemma old_or_new_survives old new d r :
  old_or_new (as_synced old) (as_synced old) new d -> survives d r -> r = old \/ r = Some new.
Proof.
  unfold old_or_new, synced_file, as_synced. intros [Hd Hc] Hs.
  destruct Hs as [[H|H]|f [H|H] Hf|f g [H|H] Hf]; rewrite H in *; destruct old; naive_solver.
Qed.

Lemma settled_old_or_new old new d : settled old d ->
  old_or_new (as_synced old) (as_synced old) new d.
Proof. intros [Hc Hd]. unfold old_or_new. rewrite Hd, Hc. auto. Qed.

(** Calls that leave the checkpoint file and its directory alone. *)
Definition private {X} (e : fs X) : bool :=
  match e with Rename | SyncDir => false | _ => true end.

Lemma private_keeps {X} (e : fs X) d : private e = true ->
  d_current (handle e d).1 = d_current d /\ d_durable (handle e d).1 = d_durable d.
Proof.
  intros Hp. unfold handle, fs_handler.
  destruct (d_faults d) as [|[[what|what]|] faults]; destruct e; by simpl in *.
Qed.

(** Unfold one call of the disk, case by case on its fault. *)
Ltac disk_call H d :=
  unfold handle, fs_handler in H; destruct (d_faults d) as [|[[?|?]|] ?]; simpl in H;
  simplify_eq; simpl.

Section save.
Context `{!Codec} (dur cur : option file) (new : list Z).

Lemma spec_private {A X} (e : fs X) (k : X -> prog fs A) Q d :
  private e = true -> old_or_new dur cur new d ->
  (forall d' x, handle e d = (d', x) -> d_current d' = d_current d -> d_durable d' = d_durable d ->
     spec (old_or_new dur cur new) (k x) Q d') ->
  spec (old_or_new dur cur new) (prog_bind (call e) k) Q d.
Proof.
  intros Hp Hi Hk. apply spec_call; [done|]. intros d' x E.
  pose proof (private_keeps e d Hp) as [H1 H2]. rewrite E in H1, H2. eauto.
Qed.

Lemma abandon_spec {A} close err (Q : result state_error A -> disk -> Prop) d :
  old_or_new dur cur new d ->
  (forall d', d_current d' = d_current d -> d_durable d' = d_durable d -> Q (Err err) d') ->
  spec (old_or_new dur cur new) (abandon close err) Q d.
Proof.
  intros Hi HQ. assert (forall d', d_current d' = d_current d -> d_durable d' = d_durable d ->
    spec (old_or_new dur cur new) (prog_bind (call RemoveTemp) (fun _ => Ret (Err err))) Q d') as Hrm.
  { intros d1 H1 H2. apply spec_private; [done|unfold old_or_new in *; by rewrite H1, H2|].
    intros d2 x _ H3 H4. apply spec_ret; [unfold old_or_new in *; by rewrite H3, H4, H1, H2|].
    apply HQ; congruence. }
  unfold abandon. apply spec_bind. destruct close; [|by apply spec_ret; [|apply Hrm]].
  apply (spec_private CloseTemp Ret); [done|done|].
  intros d1 x _ H1 H2. apply spec_ret; [unfold old_or_new in *; by rewrite H1, H2|by apply Hrm].
Qed.

(** A call on the temporary file in [Save]: on failure the file is abandoned. *)
Lemma or_abandon_private {A} e close context (k : prog fs (result state_error A)) Q d :
  private e = true -> old_or_new dur cur new d ->
  (forall err d', Q (Err err) d') ->
  (forall d', handle e d = (d', Ok tt) -> old_or_new dur cur new d' -> spec (old_or_new dur cur new) k Q d') ->
  spec (old_or_new dur cur new) (or_abandon e close context k) Q d.
Proof.
  intros Hp Hi HQ Hk. apply spec_private; [done|done|]. intros d' x E H1 H2.
  assert (old_or_new dur cur new d') by (unfold old_or_new in *; by rewrite H1, H2).
  destruct x as [[]|what]; [by apply Hk|]. by apply abandon_spec.
Qed.

Lemma or_return_private {A} e context (k : unit -> prog fs (result state_error A)) Q d :
  private e = true -> old_or_new dur cur new d ->
  (forall err d', Q (Err err) d') ->
  (forall d', handle e d = (d', Ok tt) -> old_or_new dur cur new d' -> spec (old_or_new dur cur new) (k tt) Q d') ->
  spec (old_or_new dur cur new) (or_return e context k) Q d.
Proof.
  intros Hp Hi HQ Hk. apply spec_private; [done|done|]. intros d' x E H1 H2.
  assert (old_or_new dur cur new d') by (unfold old_or_new in *; by rewrite H1, H2).
  destruct x as [[]|what]; [by apply Hk|]. by apply spec_ret.
Qed.

(** The new checkpoint is on disk for good. *)
Definition saved (r : result state_error unit) (d : disk) : Prop :=
  match r with
  | Ok _ => d_current d = synced_file new /\ d_durable d = synced_file new
  | Err _ => True
  end.

Lemma publish_spec d : old_or_new dur cur new d -> d_temp d = synced_file new ->
  spec (old_or_new dur cur new)
    (or_abandon Rename false "publish interface counter checkpoint" (
     or_return OpenDir "open interface counter checkpoint directory" (fun _ =>
     or_return SyncDir "sync interface counter checkpoint directory" (fun _ => Ret (Ok tt))))) saved d.
Proof.
  intros Hi Ht. unfold or_abandon. apply spec_call; [done|]. intros d1 r E.
  assert (old_or_new dur cur new d1 /\ (r = Ok tt -> d_current d1 = synced_file new)) as [Hi1 Hr].
  { unfold old_or_new in *. rewrite <- Ht. disk_call E d; rewrite ?Ht; unfold synced_file in *;
      repeat case_match; simplify_eq; simpl; naive_solver. }
  destruct r as [[]|what]; [|by apply abandon_spec]. specialize (Hr eq_refl).
  apply spec_private; [done|done|]. intros d2 x _ H1 H2.
  assert (old_or_new dur cur new d2) as Hi2 by (unfold old_or_new in *; by rewrite H1, H2).
  destruct x as [[]|what]; [|by apply spec_ret]. apply spec_call; [done|]. intros d3 x E3.
  rewrite Hr in H1. unfold old_or_new in *.
  disk_call E3 d2; rewrite ?H1; naive_solver.
Qed.

Lemma Save_spec cp d : old_or_new dur cur new d -> (forall bytes, encode cp = Some bytes -> bytes = new) ->
  spec (old_or_new dur cur new) (Save cp) saved d.
Proof.
  intros Hi He. unfold Save. destruct (validateCheckpoint cp); [|by apply spec_ret].
  apply or_return_private; [done..|]. intros d1 _ Hi1.
  apply or_return_private; [done..|]. intros d2 E2 Hi2.
  assert (d_temp d2 = Some (MkFile [] false)) as H2 by (by disk_call E2 d1).
  apply or_abandon_private; [done..|]. intros d3 E3 Hi3.
  assert (d_temp d3 = d_temp d2) as H3 by (by disk_call E3 d2).
  destruct (encode cp) as [bytes|]; [|by apply abandon_spec]. rewrite (He bytes eq_refl).
  apply or_abandon_private; [done..|]. intros d4 E4 Hi4.
  assert (d_temp d4 = Some (MkFile new false)) as H4
    by (rewrite H2 in H3; disk_call E4 d3; by rewrite H3).
  apply or_abandon_private; [done..|]. intros d5 E5 Hi5.
  assert (d_temp d5 = synced_file new) as H5 by (disk_call E5 d4; by rewrite H4).
  apply or_abandon_private; [done..|]. intros d6 E6 Hi6.
  apply publish_spec; [done|]. by disk_call E6 d5.
Qed.
End save.

Lemma settled_survives bytes d content : settled (Some bytes) d -> survives d content -> content = Some bytes.
Proof. intros Hs%(settled_old_or_new _ bytes) Hc. by destruct (old_or_new_survives _ _ _ _ Hs Hc). Qed.

(** [Save] accepts only valid checkpoints. *)
Lemma Save_ok_valid `{!Codec} cp d : (exec (Save cp) d).2 = Ok tt -> validateCheckpoint cp = Ok tt.
Proof. unfold Save. by destruct (validateCheckpoint cp) as [[]|]. Qed.

Lemma Load_current `{!Codec} cp bytes d : d_current d = synced_file bytes -> d_faults d = [] ->
  decode (take load_limit bytes) = Some cp -> validateCheckpoint cp = Ok tt ->
  (exec Load d).2 = Ok (Some cp).
Proof.
  intros Hc Hf Hd Hv. unfold Load, or_return. cbn [exec prog_bind call].
  unfold handle, fs_handler. rewrite Hf. cbn [fs_effect]. rewrite Hc. cbn [synced_file negb fst snd].
  cbn [exec prog_bind call]. unfold handle, fs_handler. rewrite Hf. cbn [fs_effect fst snd].
  rewrite Hc. cbn [synced_file fmap option_fmap option_map default f_content from_option]. unfold id. by rewrite Hd, Hv.
Qed.

(** C20. The checkpoint file is never torn: wherever [Save] is stopped, whichever of
    its calls fail, and whatever a power loss at that point does to the disk, the
    file is the old one or the whole encoding of the new checkpoint; once [Save]
    has returned without error a power loss cannot bring the old one back, and a
    [Load] reads the new checkpoint if its encoding can be read back. *)
Theorem save_atomic `{!Codec} cp bytes old d n :
  settled old d -> encode cp = Some bytes ->
  (forall content, survives (run n (Save cp) d).1 content -> content = old \/ content = Some bytes) /\
  ((exec (Save cp) d).2 = Ok tt ->
     (forall content, survives (exec (Save cp) d).1 content -> content = Some bytes) /\
     (decode (take load_limit bytes) = Some cp -> d_faults (exec (Save cp) d).1 = [] ->
      (exec Load (exec (Save cp) d).1).2 = Ok (Some cp))).
Proof.
  intros Hs He.
  pose proof (Save_spec _ _ bytes cp d (settled_old_or_new old bytes d Hs)) as Hspec.
  specialize (Hspec ltac:(intros; congruence)).
  split.
  - intros content. apply old_or_new_survives. by apply (spec_run _ n) in Hspec as [? _].
  - intros Hok. pose proof (Save_ok_valid cp d Hok) as Hv.
    apply spec_exec in Hspec as [_ Hq]. rewrite Hok in Hq. destruct Hq as [Hc Hd]. split.
    + intros content. apply settled_survives. by split; [|rewrite Hd, Hc].
    + intros Hdec Hf. by apply Load_current with bytes.
Qed.

(** ** The interface of the application loop *)

(** [app.CounterState] *)
Class CounterState (C : Type) : Type := {
  c_Load : C -> C * result state_error (option Checkpoint);
  c_Save : Checkpoint -> C -> C * result state_error unit }.

(** What the application relies on: the store remembers one checkpoint; a [Save]
    replaces it, or fails and may or may not have replaced it; a [Load] that does
    not fail answers it. *)
Class CounterStateLaws (C : Type) `{!CounterState C} : Type := {
  remembers : C -> option Checkpoint -> Prop;
  load_remembers c x : remembers c x ->
    remembers (c_Load c).1 x /\ (forall y, (c_Load c).2 = Ok y -> y = x);
  save_remembers cp c x : remembers c x ->
    remembers (c_Save cp c).1 (Some cp) \/
    (remembers (c_Save cp c).1 x /\ is_ok (c_Save cp c).2 = false) }.

#[export] Instance disk_state `{!Codec} : CounterState disk := {
  c_Load := exec Load;
  c_Save cp := exec (Save cp) }.

(** A decoder never turns the beginning of one checkpoint into another one. *)
Class CodecSound `{!Codec} : Prop := {
  decode_encode cp bytes cp' : encode cp = Some bytes -> decode (take load_limit bytes) = Some cp' -> cp' = cp }.

(** The checkpoint file is the encoding of [cp]. *)
Definition file_is `{!Codec} (d : disk) (cp : option Checkpoint) : Prop :=
  match cp with
  | None => d_current d = None
  | Some cp => exists bytes, encode cp = Some bytes /\ d_current d = synced_file bytes
  end.

Section laws.
Context `{!Codec} `{!CodecSound}.

Lemma Load_file d x : file_is d x -> file_is (exec Load d).1 x /\ (forall y, (exec Load d).2 = Ok y -> y = x).
Proof.
  intros Hx.
  enough (spec (fun d' => d_current d' = d_current d) Load (fun r _ => forall y, r = Ok y -> y = x) d) as Hsp.
  { apply spec_exec in Hsp as [Hc Hq]. split; [|exact Hq]. unfold file_is in *. by rewrite Hc. }
  unfold Load, or_return. apply spec_call; [done|]. intros d1 r E1.
  assert (d_current d1 = d_current d) as H1 by (by disk_call E1 d).
  destruct r as [found|]; [|by apply spec_ret].
  assert (found = match d_current d with Some _ => true | None => false end) as -> by (by disk_call E1 d).
  destruct x as [cp|].
  - destruct Hx as (bytes & He & Hc). replace (match d_current d with Some _ => true | None => false end) with true by (by rewrite Hc).
    cbn [negb]. apply spec_call; [congruence|]. intros d2 r E2.
    assert (d_current d2 = d_current d) as H2 by (rewrite <- H1; by disk_call E2 d1).
    destruct r as [content|]; [|by apply spec_ret; rewrite ?H2].
    assert (content = take load_limit bytes) as ->
      by (rewrite <- H1 in Hc; disk_call E2 d1; rewrite Hc; done).
    destruct (decode (take load_limit bytes)) as [cp'|] eqn:Ed; [|by apply spec_ret; rewrite ?H2].
    apply decode_encode with (1 := He) in Ed as ->.
    destruct (validateCheckpoint cp); apply spec_ret; rewrite ?H2; naive_solver.
  - simpl in Hx. replace (match d_current d with Some _ => true | None => false end) with false by (by rewrite Hx).
    cbn [negb]. apply spec_ret; [done|naive_solver].
Qed.

Lemma Save_file cp d x : file_is d x ->
  file_is (exec (Save cp) d).1 (Some cp) \/
  (file_is (exec (Save cp) d).1 x /\ is_ok (exec (Save cp) d).2 = false).
Proof.
  intros Hx.
  assert (forall new, (forall bytes, encode cp = Some bytes -> bytes = new) ->
    (d_current (exec (Save cp) d).1 = d_current d \/ d_current (exec (Save cp) d).1 = synced_file new) /\
    saved new (exec (Save cp) d).2 (exec (Save cp) d).1) as Hsv.
  { intros new Hn. pose proof (Save_spec (d_durable d) (d_current d) new cp d) as Hs.
    unfold old_or_new in Hs. specialize (Hs ltac:(auto) Hn). apply spec_exec in Hs. naive_solver. }
  destruct (encode cp) as [bytes|] eqn:He.
  - destruct (Hsv bytes ltac:(intros; congruence)) as [Hc Hs]. destruct (exec (Save cp) d) as [d' [[]|e]]; simpl in *.
    + left. exists bytes. naive_solver.
    + destruct Hc as [Hc|Hc]; [right|left; by exists bytes]. split; [|done].
      unfold file_is in *. by rewrite Hc.
  - destruct (Hsv [] ltac:(done)) as [Hc Hs], (Hsv [0] ltac:(done)) as [Hc' Hs'].
    destruct (exec (Save cp) d) as [d' [[]|e]]; simpl in *; [exfalso; unfold synced_file in *; naive_solver congruence|].
    right. split; [|done]. assert (d_current d' = d_current d) as Hd
      by (unfold synced_file in *; destruct Hc as [Hc|Hc], Hc' as [Hc'|Hc']; congruence).
    unfold file_is in *. by rewrite Hd.
Qed.

#[export] Instance disk_state_laws : CounterStateLaws disk := {
  remembers := file_is; load_remembers := Load_file; save_remembers := Save_file }.
End laws.
