(* ===== verification/App.v ===== *)
(** * The agent's application loop

    [internal/agent/app/app.go]: [Sample] turns counter readings into batches with a
    checkpoint that survives restarts, [Record] queues the events of the other
    collectors, and both deliver the queue.

    The Go interfaces [Queue], [Sender] ([Deliverer] here) and [CounterState] are type
    classes whose
    methods transform the state of their implementation; the counter reader is the
    sequence of answers it gives.  The operations are programs over calls to them
    ([Effects]), so that they can also be stopped between any two calls. *)

From stdpp Require Import base strings numbers gmap list.
From Stdlib Require Import Ascii SpecFloat.
From S2P Require Import Prelude GoBase GoText GoModel InterfaceCounter Sha256 Sender Effects StateFile.

Open Scope string_scope.
Open Scope Z_scope.
Local Open Scope flow_scope.

(** ** Interfaces *)

(** [spool.Item] and [spool.DropReport] *)
Record Item : Type := MkItem { it_Batch : Batch; it_path : string }.
Record DropReport : Type := MkDropReport {
  dr_Code : string; dr_DroppedBatches : Z; dr_DroppedEvents : Z; dr_UsagePercent : float64 }.

Class Queue (Q : Type) : Type := {
  q_Enqueue : Batch -> Q -> Q * result string DropReport;
  q_Peek : Q -> Q * result string (option Item);
  q_Ack : Item -> Q -> Q * result string unit }.

Class Deliverer (S : Type) : Type := {
  s_Send : Batch -> S -> S * result send_error unit }.

Abbreviation counters := (gmap string Counter).

Record World (Q S C : Type) : Type := MkWorld {
  w_queue : Q; w_sender : S; w_state : C; w_readings : list (result string counters) }.
Arguments MkWorld {Q S C} _ _ _ _.
Arguments w_queue {Q S C} _.
Arguments w_sender {Q S C} _.
Arguments w_state {Q S C} _.
Arguments w_readings {Q S C} _.

Inductive eff : Type -> Type :=
| Read : eff (result string counters)
| Enqueue (b : Batch) : eff (result string DropReport)
| Peek : eff (result string (option Item))
| Ack (i : Item) : eff (result string unit)
| Deliver (b : Batch) : eff (result send_error unit)
| LoadState : eff (result state_error (option Checkpoint))
| SaveState (c : Checkpoint) : eff (result state_error unit).

Section handler.
Context {Q S C : Type} `{!Queue Q} `{!Deliverer S} `{!CounterState C}.

Definition on_queue {X} (r : Q * X) (w : World Q S C) : World Q S C * X :=
  (MkWorld r.1 (w_sender w) (w_state w) (w_readings w), r.2).
Definition on_sender {X} (r : S * X) (w : World Q S C) : World Q S C * X :=
  (MkWorld (w_queue w) r.1 (w_state w) (w_readings w), r.2).
Definition on_state {X} (r : C * X) (w : World Q S C) : World Q S C * X :=
  (MkWorld (w_queue w) (w_sender w) r.1 (w_readings w), r.2).

#[export] Instance app_handler : Handler eff (World Q S C) := fun X e w =>
  match e with
  | Read =>
      match w_readings w with
      | [] => (w, Err "no reading")
      | r :: rs => (MkWorld (w_queue w) (w_sender w) (w_state w) rs, r)
      end
  | Enqueue b => on_queue (q_Enqueue b (w_queue w)) w
  | Peek => on_queue (q_Peek (w_queue w)) w
  | Ack i => on_queue (q_Ack i (w_queue w)) w
  | Deliver b => on_sender (s_Send b (w_sender w)) w
  | LoadState => on_state (c_Load (w_state w)) w
  | SaveState c => on_state (c_Save c (w_state w)) w
  end.
End handler.

(** ** State and errors *)

Record App : Type := MkApp {
  nodeID : string;
  previous : option counters;
  counterState : bool;
  stateLoaded : bool;
  spoolPressured : bool }.

Definition New (node : string) (with_state : bool) : App := MkApp node None with_state false false.

Definition set_previous (p : option counters) (a : App) : App :=
  MkApp (nodeID a) p (counterState a) (stateLoaded a) (spoolPressured a).
Definition set_loaded (l : bool) (a : App) : App :=
  MkApp (nodeID a) (previous a) (counterState a) l (spoolPressured a).
Definition set_pressured (p : bool) (a : App) : App :=
  MkApp (nodeID a) (previous a) (counterState a) (stateLoaded a) p.

Inductive cause : Type :=
| ReadErr (e : string) | QueueErr (e : string) | SendErr (e : send_error) | StateErr (e : state_error).

Inductive app_error : Type :=
| Wrapped (context : string) (c : cause)
| OutOfFuel.

Abbreviation outcome := (App * result app_error unit)%type.

(** [if err := p; err != nil { return err }] on methods of the application. *)
Definition and_continue (p : prog eff outcome) (k : App -> prog eff outcome) : prog eff outcome :=
  let! r := p in
  match r with
  | (app, Ok _) => k app
  | (app, Err e) => Ret (app, Err e)
  end.

(** ** Identifiers and texts *)

Definition eventID (kind node : string) (at_ : time) : string :=
  kind +:+ ":" +:+ digest_hex node 8 +:+ ":" +:+ of_chars (format_int (UnixNano at_)).

Definition nul : string := String zero "".

Definition detailBatchID (node : string) (observedAt : time) (part : Z) (events : list Event) : string :=
  let digest :=
    node +:+ nul +:+ of_chars (format_int (UnixNano observedAt)) +:+ nul +:+ of_chars (format_int part) +:+
    foldr (fun e acc => nul +:+ ev_ID e +:+ acc) "" events in
  "detail-batch-" +:+ of_chars (format_int part) +:+ ":" +:+ digest_hex digest 12.

(** [%.1f]: tenths, the exact value rounded to the nearest, ties to even. *)
Definition tenths (m : positive) (e : Z) : Z :=
  if 0 <=? e then 10 * Zpos m * 2 ^ e
  else
    let q := 10 * Zpos m / 2 ^ (- e) in
    let r := 10 * Zpos m mod 2 ^ (- e) in
    if (2 ^ (- e) <? 2 * r) || ((2 * r =? 2 ^ (- e)) && Z.odd q) then q + 1 else q.

Definition format_f1 (f : float64) : string :=
  match f with
  | S754_nan => "NaN"
  | S754_infinity s => if s then "-Inf" else "+Inf"
  | S754_zero s => if s then "-0.0" else "0.0"
  | S754_finite s m e =>
      (if s then "-" else "") +:+ of_chars (format_int (tenths m e / 10)) +:+ "." +:+
      of_chars (format_int (tenths m e mod 10))
  end.

Example format_f1_sample : format_f1 (f64_div (f64_of_Z 961) (f64_of_Z 12)) = "80.1".
Proof. vm_compute. reflexivity. Qed.
Example format_f1_even : format_f1 (f64_div (f64_of_Z 321) (f64_of_Z 4)) = "80.2".
Proof. vm_compute. reflexivity. Qed.

(** ** Operations *)

Definition saveCounterState (app : App) (c : counters) (pending : option Batch) : prog eff outcome :=
  if negb (counterState app) then Ret (app, Ok tt)
  else
    let! r := call (SaveState (NewCheckpoint (nodeID app) (Some c) pending)) in
    match r with
    | Err e => Ret (app, Err (Wrapped "save interface counter checkpoint" (StateErr e)))
    | Ok _ => Ret (app, Ok tt)
    end.

Definition invalidateCounterState (app : App) : App := set_loaded false (set_previous None app).

Definition health_event (app : App) (observedAt : time) (status code_ message : string)
  (dropped : Z) (usage : float64) : Event :=
  MkEvent (eventID ("health-event-" +:+ code_) (nodeID app) observedAt) observedAt EventHealth
    "" 0 0 "" (Some (MkHealthEvent "spool" status code_ dropped usage message)) None None None None.

(** The events of [enqueueSpoolHealth] and the new [spoolPressured]. *)
Definition health_events (app : App) (observedAt : time) (report : DropReport) : list Event * bool :=
  let usage := dr_UsagePercent report in
  let dropped :=
    if 0 <? dr_DroppedBatches report then
      [health_event app observedAt "degraded" (dr_Code report)
         ("evicted " +:+ of_chars (format_int (dr_DroppedBatches report)) +:+ " queued batches")
         (dr_DroppedEvents report) (if f64_ltb usage (f64_of_Z 100) then f64_of_Z 100 else usage)]
    else [] in
  let pressured := f64_leb (f64_of_Z 80) usage in
  let pressure :=
    if pressured && negb (spoolPressured app) then
      [health_event app observedAt "degraded" "buffer_pressure"
         ("spool usage reached " +:+ format_f1 usage +:+ " percent") 0 usage]
    else if negb pressured && spoolPressured app then
      [health_event app observedAt "healthy" "buffer_recovered"
         "spool usage returned below 80 percent" 0 usage]
    else [] in
  ((dropped ++ pressure)%list, pressured).

Definition health_batch (node : string) (observedAt : time) (events : list Event) : Batch :=
  MkBatch 1 (eventID "health-batch" node observedAt) node observedAt events [].

Definition enqueueSpoolHealth (app : App) (observedAt : time) (report : DropReport) : prog eff outcome :=
  let '(events, pressured) := health_events app observedAt report in
  let app := set_pressured pressured app in
  match events with
  | [] => Ret (app, Ok tt)
  | _ =>
      let! r := call (Enqueue (health_batch (nodeID app) observedAt events)) in
      match r with
      | Err e => Ret (app, Err (Wrapped "queue spool health batch" (QueueErr e)))
      | Ok _ => Ret (app, Ok tt)
      end
  end.

Fixpoint drain (fuel : nat) (app : App) : prog eff outcome :=
  match fuel with
  | O => Ret (app, Err OutOfFuel)
  | S fuel' =>
      let! r := call Peek in
      match r with
      | Err e => Ret (app, Err (Wrapped "read queued batch" (QueueErr e)))
      | Ok None => Ret (app, Ok tt)
      | Ok (Some item) =>
          let! r := call (Deliver (it_Batch item)) in
          match r with
          | Err e => Ret (app, Err (Wrapped "deliver queued batch" (SendErr e)))
          | Ok _ =>
              let! r := call (Ack item) in
              match r with
              | Err e => Ret (app, Err (Wrapped "acknowledge queued batch" (QueueErr e)))
              | Ok _ => drain fuel' app
              end
          end
      end
  end.

(** [if checkpoint.PendingBatch != nil] of [recoverCounterState] *)
Definition recover_pending (app : App) (observedAt : time) (checkpoint : Checkpoint) : prog eff outcome :=
  match cp_PendingBatch checkpoint with
  | None => Ret (app, Ok tt)
  | Some pending =>
      let! r := call (Enqueue pending) in
      match r with
      | Err e => Ret (app, Err (Wrapped "recover pending interface batch" (QueueErr e)))
      | Ok report =>
          let! r := call (SaveState (NewCheckpoint (nodeID app) (cp_Counters checkpoint) None)) in
          match r with
          | Err e => Ret (app, Err (Wrapped "clear recovered interface batch" (StateErr e)))
          | Ok _ => enqueueSpoolHealth app observedAt report
          end
      end
  end.

Definition recoverCounterState (app : App) (observedAt : time) : prog eff outcome :=
  if negb (counterState app) || stateLoaded app then Ret (app, Ok tt)
  else
    let! r := call LoadState in
    match r with
    | Err e => Ret (app, Err (Wrapped "load interface counter checkpoint" (StateErr e)))
    | Ok None => Ret (set_loaded true app, Ok tt)
    | Ok (Some checkpoint) =>
        if negb (String.eqb (cp_NodeID checkpoint) (nodeID app)) then Ret (set_loaded true app, Ok tt)
        else
          and_continue (recover_pending app observedAt checkpoint) (fun app =>
           Ret (set_loaded true (set_previous (cp_Counters checkpoint) app), Ok tt))
    end.

Definition traffic_batch (node : string) (observedAt : time) (events : list Event) : Batch :=
  MkBatch 1 (eventID "batch" node observedAt) node observedAt events [].

(** The branches of [Sample] that queue nothing. *)
Definition sample_quiet (fuel : nat) (app : App) (current : counters) : prog eff outcome :=
  and_continue (saveCounterState app current None) (fun app =>
  drain fuel (set_previous (Some current) app)).

Definition sample_traffic (fuel : nat) (app : App) (observedAt : time) (current : counters)
  (events : list Event) : prog eff outcome :=
  let batch := traffic_batch (nodeID app) observedAt events in
  and_continue (saveCounterState app current (Some batch)) (fun app =>
  let! r := call (Enqueue batch) in
  match r with
  | Err e => Ret (invalidateCounterState app, Err (Wrapped "queue traffic batch" (QueueErr e)))
  | Ok report =>
      let! r := saveCounterState app current None in
      match r with
      | (app, Err e) => Ret (invalidateCounterState app, Err e)
      | (app, Ok _) =>
          and_continue (enqueueSpoolHealth (set_previous (Some current) app) observedAt report)
            (fun app => drain fuel app)
      end
  end).

Definition Sample (fuel : nat) (app : App) (observedAt : time) : prog eff outcome :=
  and_continue (recoverCounterState app observedAt) (fun app =>
  let! r := call Read in
  match r with
  | Err e => Ret (app, Err (Wrapped "read interface counters" (ReadErr e)))
  | Ok current =>
      match previous app with
      | None => sample_quiet fuel app current
      | Some before =>
          match Delta before current DefaultAllowed observedAt with
          | [] => sample_quiet fuel app current
          | events => sample_traffic fuel app observedAt current events
          end
      end
  end).

(** Events per batch of [Record]. *)
Definition part_size : nat := N.to_nat 5000.

Definition detail_batch (node : string) (observedAt : time) (part : Z) (events : list Event) : Batch :=
  MkBatch 1 (detailBatchID node observedAt part events) node observedAt events [].

(** The loop of [Record] at part [part] with the events from its offset on. *)
Fixpoint record_parts (fuel : nat) (app : App) (observedAt : time) (part : Z) (events : list Event)
  : prog eff outcome :=
  match events with
  | [] => Ret (app, Ok tt)
  | _ =>
      match fuel with
      | O => Ret (app, Err OutOfFuel)
      | S fuel' =>
          let! r := call (Enqueue (detail_batch (nodeID app) observedAt part (take part_size events))) in
          match r with
          | Err e => Ret (app, Err (Wrapped "queue detailed traffic batch" (QueueErr e)))
          | Ok report =>
              and_continue (enqueueSpoolHealth app observedAt report) (fun app =>
              record_parts fuel' app observedAt (part + 1) (drop part_size events))
          end
      end
  end.

Definition Record_ (fuel : nat) (app : App) (observedAt : time) (events : list Event) : prog eff outcome :=
  match events with
  | [] => drain fuel app
  | _ => and_continue (record_parts (length events) app observedAt 0 events) (fun app => drain fuel app)
  end.
