(* ===== verification/AppTheorems.v ===== *)
(** * Properties of the application loop

    [Sample] counts every byte of an interface once: the batches accepted by the
    queue, taken once per identifier as the server takes them, add up to the
    advance of the counters since the first checkpoint, whichever calls fail and
    wherever the process is killed and restarted.  [drain] delivers the queue in
    order and [Record] queues every event once. *)

From stdpp Require Import base strings numbers gmap sets list.
From S2P Require Import Prelude GoBase GoText GoModel InterfaceCounter Sha256 Sender Effects StateFile App.

Open Scope string_scope.
Open Scope Z_scope.
Local Open Scope flow_scope.
Local Open Scope list_scope.

(** ** What the queue promises *)

Class QueueLaws (Q : Type) `{!Queue Q} : Type := {
  (** every batch made durable so far, and what is queued now, oldest first *)
  history : Q -> list Batch;
  contents : Q -> list Item;
  enqueue_history b q :
    history (q_Enqueue b q).1 = history q ++ [b] \/
    (history (q_Enqueue b q).1 = history q /\ is_ok (q_Enqueue b q).2 = false);
  peek_history q : history (q_Peek q).1 = history q;
  ack_history i q : history (q_Ack i q).1 = history q;
  peek_contents q : contents (q_Peek q).1 = contents q;
  peek_head q r : (q_Peek q).2 = Ok r -> r = head (contents q);
  ack_contents q i rest : contents q = i :: rest ->
    contents (q_Ack i q).1 = rest \/
    (contents (q_Ack i q).1 = contents q /\ is_ok (q_Ack i q).2 = false) }.

(** ** Accounting

    A receiver that stores every batch identifier once. *)

Fixpoint distinct (seen : list string) (bs : list Batch) : list Batch :=
  match bs with
  | [] => []
  | b :: bs' =>
      if decide (b_BatchID b ∈ seen) then distinct seen bs'
      else b :: distinct (b_BatchID b :: seen) bs'
  end.

Definition batch_bytes (n : string) (d : counted) (b : Batch) : Z := sumZ (event_bytes n d) (b_Events b).
Definition account (n : string) (d : counted) (bs : list Batch) : Z := sumZ (batch_bytes n d) (distinct [] bs).

Lemma distinct_snoc seen bs b :
  distinct seen (bs ++ [b]) =
  (distinct seen bs ++ (if decide (b_BatchID b ∈ seen ++ (b_BatchID <$> bs)) then [] else [b])).
Proof.
  revert seen. induction bs as [|a bs IH]; intros seen.
  - simpl. rewrite app_nil_r. by case_decide.
  - rewrite fmap_cons. cbn [distinct app]. destruct (decide (b_BatchID a ∈ seen)) as [Ha|Ha]; rewrite IH; cbn [app];
      [|f_equal]; f_equal; apply decide_ext;
      rewrite ?elem_of_cons, !elem_of_app, ?elem_of_cons; (split; [tauto|]);
      (intros [?|[->|?]]; tauto).
Qed.

Section account.
Context (n : string) (d : counted).

Lemma account_old bs b : b_BatchID b ∈ b_BatchID <$> bs -> account n d (bs ++ [b]) = account n d bs.
Proof. intros Hb. unfold account. rewrite distinct_snoc, decide_True by done. by rewrite app_nil_r. Qed.

Lemma account_new bs b : (b_BatchID b ∉ b_BatchID <$> bs) ->
  account n d (bs ++ [b]) = account n d bs + batch_bytes n d b.
Proof.
  intros Hb. unfold account. rewrite distinct_snoc, decide_False by done. rewrite sumZ_app. simpl. lia.
Qed.

Lemma account_again bs b : account n d ((bs ++ [b]) ++ [b]) = account n d (bs ++ [b]).
Proof. apply account_old. set_solver. Qed.

Lemma account_zero bs b : batch_bytes n d b = 0 -> account n d (bs ++ [b]) = account n d bs.
Proof.
  intros Hb. destruct (decide (b_BatchID b ∈ b_BatchID <$> bs)); [by apply account_old|].
  rewrite account_new by done. lia.
Qed.

(** A batch without bytes of the interface in front of a pending one. *)
Lemma account_zero_before bs z p : batch_bytes n d z = 0 -> b_BatchID z <> b_BatchID p ->
  account n d ((bs ++ [z]) ++ [p]) = account n d (bs ++ [p]).
Proof.
  intros Hz Hne. destruct (decide (b_BatchID p ∈ b_BatchID <$> bs)) as [Hp|Hp].
  - rewrite (account_old (bs ++ [z]) p), (account_old bs p), account_zero; try done. set_solver.
  - rewrite (account_new (bs ++ [z]) p), (account_new bs p), account_zero; try done. set_solver.
Qed.
End account.

(** ** Identifiers *)

Lemma format_int_inj a b : 0 <= a <= max_u64 -> 0 <= b <= max_u64 -> format_int a = format_int b -> a = b.
Proof.
  intros Ha Hb E. unfold format_int in E.
  rewrite !(proj2 (Z.ltb_ge _ 0)) in E by lia.
  apply (f_equal ParseUint) in E. rewrite !ParseUint_format in E by done. congruence.
Qed.

(** Times whose nanosecond count fits in [int64], after 1970. *)
Definition clock_ok (t : time) : Prop := 0 <= t <= max_i64.

Lemma eventID_inj kind node t t' : clock_ok t -> clock_ok t' ->
  eventID kind node t = eventID kind node t' -> t = t'.
Proof.
  unfold clock_ok, max_i64. intros Ht Ht' E. apply (f_equal chars) in E. unfold eventID in E.
  rewrite !chars_app, !chars_of_chars in E.
  do 4 apply app_inv_head in E. unfold UnixNano in E. rewrite !wrap_s_id in E by (unfold in_s; lia).
  apply format_int_inj in E; unfold max_u64; lia.
Qed.

Definition traffic_prefix : string := "batch:".

Lemma eventID_traffic node t : has_prefix (eventID "batch" node t) traffic_prefix = true.
Proof. unfold eventID. generalize (digest_hex node 8 +:+ ":" +:+ of_chars (format_int (UnixNano t))). by intros []. Qed.

Lemma health_batch_foreign node t es : has_prefix (b_BatchID (health_batch node t es)) traffic_prefix = false.
Proof. reflexivity. Qed.

Lemma detail_batch_foreign node t part es :
  has_prefix (b_BatchID (detail_batch node t part es)) traffic_prefix = false.
Proof. reflexivity. Qed.

(** ** The invariant *)

(** Counters of a direction never above those of [hi]. *)
Definition below (d : counted) (c hi : Counter) : Prop :=
  bytes_of d c <= bytes_of d hi /\ packets_of d c <= packets_of d hi.

Lemma below_trans d a b c : below d a b -> below d b c -> below d a c.
Proof. unfold below. lia. Qed.

(** Successive readings in which an interface is always present and its counters
    never go back; failed readings change nothing. *)
Fixpoint advancing (n : string) (d : counted) (hi : Counter) (rs : list (result string counters)) : Prop :=
  match rs with
  | [] => True
  | Err _ :: rs' => advancing n d hi rs'
  | Ok m :: rs' =>
      reading_ok m /\
      exists c, m !! n = Some c /\ below d hi c /\ bytes_of d c <= max_i64 /\ packets_of d c <= max_i64 /\
        advancing n d c rs'
  end.

(** A property [K] of the batches queued or pending up to a time that every step of the
    agent keeps, when the events it is given to record have [E]. *)
Class HistoryProperty (node : string) (K : time -> list Batch -> Prop) (E : Event -> Prop) : Prop := {
  hp_later T T' l : T <= T' -> K T l -> K T' l;
  hp_subset T l l' : l ⊆ l' -> K T l' -> K T l;
  hp_foreign T l b : has_prefix (b_BatchID b) traffic_prefix = false -> Forall E (b_Events b) -> K T l -> K T (b :: l);
  hp_traffic T t l before m : T < t -> clock_ok t -> reading_ok before -> reading_ok m -> K T l ->
    K t (traffic_batch node t (Delta before m DefaultAllowed t) :: l);
  hp_health app at_ report : Forall E (health_events app at_ report).1 }.

Lemma any_history node : HistoryProperty node (fun _ _ => True) (fun _ => True).
Proof. split; try done. intros app at_ report. by apply Forall_forall. Qed.

Section invariant.
Context {Q S C : Type} `{!Queue Q} `{!QueueLaws Q} `{!Deliverer S} `{!CounterState C} `{!CounterStateLaws C}.
Context (n : string) (d : counted) (node : string).
Context (K : time -> list Batch -> Prop) (EK : Event -> Prop) {HP : HistoryProperty node K EK}.
(** The account and the counter of the first checkpoint. *)
Context (start base : Z).

Abbreviation world := (World Q S C).

Definition hist (w : world) : list Batch := history (w_queue w).

Definition traffic_id (T : time) (b : Batch) : Prop :=
  exists t, clock_ok t /\ t <= T /\ b_BatchID b = eventID "batch" node t.
Definition old_id (T : time) (b : Batch) : Prop :=
  has_prefix (b_BatchID b) traffic_prefix = false \/ traffic_id T b.

(** The store remembers counters [m], with [c] for the interface, and pending batch
    [p]; with [p] queued everything up to [c] is accounted. *)
Record InvAt (T : time) (hi : Counter) (m : counters) (c : Counter) (p : option Batch) (w : world) : Prop := {
  inv_store : remembers (w_state w) (Some (NewCheckpoint node (Some m) p));
  inv_ok : reading_ok m;
  inv_at : m !! n = Some c;
  inv_below : below d c hi;
  inv_pending : match p with Some b => traffic_id T b | None => True end;
  inv_ids : Forall (old_id T) (hist w);
  inv_known : K T (hist w ++ opt_list p);
  inv_account : account n d (hist w ++ opt_list p) = start + bytes_of d c - base;
  inv_readings : advancing n d hi (w_readings w) }.

Definition Inv (T : time) (hi : Counter) (w : world) : Prop := exists m c p, InvAt T hi m c p w.
Definition Safe (T : time) (w : world) : Prop := exists hi, Inv T hi w.

(** What the memory of the running process adds: once it has loaded its state,
    everything up to [previous] is queued. *)
Definition Mem (hi : Counter) (app : App) (w : world) : Prop :=
  nodeID app = node /\ counterState app = true /\
  (stateLoaded app = true -> exists m c, previous app = Some m /\ reading_ok m /\ m !! n = Some c /\
     below d c hi /\ account n d (hist w) = start + bytes_of d c - base).

Lemma traffic_id_mono T T' b : T <= T' -> traffic_id T b -> traffic_id T' b.
Proof. intros ? (t & ? & ? & ?). exists t. split_and!; [done|lia|done]. Qed.

Lemma old_id_mono T T' b : T <= T' -> old_id T b -> old_id T' b.
Proof. intros ? [?|?]; [by left|right]. by eapply traffic_id_mono. Qed.

Lemma InvAt_later T T' hi m c p w : T <= T' -> InvAt T hi m c p w -> InvAt T' hi m c p w.
Proof.
  intros HT []. constructor; try done.
  - destruct p; [by eapply traffic_id_mono|done].
  - eapply Forall_impl; [done|]. intros b. by apply old_id_mono.
  - by eapply hp_later.
Qed.

Lemma Mem_same hi app w w' : account n d (hist w') = account n d (hist w) -> Mem hi app w -> Mem hi app w'.
Proof. unfold Mem. by intros ->. Qed.

(** A batch of another kind. *)
Definition foreign (b : Batch) : Prop :=
  batch_bytes n d b = 0 /\ has_prefix (b_BatchID b) traffic_prefix = false /\ Forall EK (b_Events b).

Lemma account_foreign T h b p : foreign b -> match p with Some b => traffic_id T b | None => True end ->
  account n d ((h ++ [b]) ++ opt_list p) = account n d (h ++ opt_list p).
Proof.
  intros (Hb & Hf & _) Hp. destruct p as [p|]; simpl.
  - apply account_zero_before; [done|]. destruct Hp as (t & _ & _ & E). intros E'.
    rewrite E', E, eventID_traffic in Hf. done.
  - rewrite !app_nil_r. by apply account_zero.
Qed.

(** What queueing a batch of another kind does. *)
Lemma enqueue_foreign T hi m c p b w w' r : foreign b -> InvAt T hi m c p w ->
  handle (Enqueue b) w = (w', r) ->
  InvAt T hi m c p w' /\ account n d (hist w') = account n d (hist w) /\ w_readings w' = w_readings w.
Proof.
  intros Hf Hi E. injection E as <- <-.
  destruct (enqueue_history b (w_queue w)) as [H|[H _]].
  - destruct Hi. split_and!; [constructor| |done]; unfold hist in *; simpl; rewrite ?H; try done.
    + apply Forall_app_2; [done|]. constructor; [left; apply Hf|done].
    + eapply hp_subset; [|apply (hp_foreign T (hist w ++ opt_list p) b); [apply Hf..|done]]. set_solver.
    + by rewrite account_foreign with (T := T).
    + by apply account_zero, Hf.
  - destruct Hi. split_and!; [constructor| |done]; unfold hist in *; simpl; rewrite ?H; done.
Qed.
Lemma health_foreign node' at_ app rep :
  foreign (health_batch node' at_ (health_events app at_ rep).1).
Proof.
  split_and!; [|apply health_batch_foreign|].
  2: { apply hp_health. }
  apply sumZ_zero. intros e He. unfold health_events in He. simpl in He.
  assert (ev_Direction e = "") as Hd by (repeat case_match; set_solver).
  unfold event_bytes. rewrite Hd. by destruct d; rewrite andb_false_r.
Qed.

(** An operation that leaves the account, the readings and the loaded state alone. *)
Definition quiet (app : App) (w : world) (o : outcome) (w' : world) : Prop :=
  account n d (hist w') = account n d (hist w) /\ w_readings w' = w_readings w /\
  nodeID o.1 = nodeID app /\ counterState o.1 = counterState app /\
  previous o.1 = previous app /\ stateLoaded o.1 = stateLoaded app.

Lemma quiet_Mem hi app w o w' : quiet app w o w' -> Mem hi app w -> Mem hi o.1 w'.
Proof. unfold quiet, Mem. intros (-> & _ & -> & -> & -> & ->). done. Qed.

Lemma quiet_trans app w o w1 o' w2 : quiet app w o w1 -> quiet o.1 w1 o' w2 -> quiet app w o' w2.
Proof.
  unfold quiet. intros (H1 & H2 & H3 & H4 & H5 & H6) (G1 & G2 & G3 & G4 & G5 & G6).
  rewrite G1, G2, G3, G4, G5, G6. done.
Qed.

Lemma health_spec T hi m c p app at_ rep w : InvAt T hi m c p w ->
  spec (InvAt T hi m c p) (enqueueSpoolHealth app at_ rep) (quiet app w) w.
Proof.
  intros Hi. unfold enqueueSpoolHealth. pose proof (health_foreign (nodeID app) at_ app rep) as Hf.
  destruct (health_events app at_ rep) as [events pressured]. simpl in Hf.
  destruct events as [|e es]; [by apply spec_ret|].
  apply spec_call; [done|]. intros w1 r E.
  apply (enqueue_foreign T hi m c p) in E as (Hi1 & Ha & Hr); [|done|done].
  destruct r; by apply spec_ret.
Qed.

(** The calls of the delivery loop. *)
Definition delivers {X} (e : eff X) : bool :=
  match e with Peek | Ack _ | Deliver _ => true | _ => false end.

Lemma delivers_keeps {X} (e : eff X) T hi m c p w w' r : delivers e = true -> InvAt T hi m c p w ->
  handle e w = (w', r) -> InvAt T hi m c p w' /\ hist w' = hist w /\ w_readings w' = w_readings w.
Proof.
  intros He Hi E.
  assert (hist w' = hist w /\ w_readings w' = w_readings w /\ w_state w' = w_state w) as (H1 & H2 & H3).
  { destruct e; try done; injection E as <- <-; split_and!; try done; [apply peek_history|apply ack_history]. }
  split_and!; [|done|done]. destruct Hi. constructor; rewrite ?H1, ?H2, ?H3; done.
Qed.

Lemma drain_spec T hi m c p fuel app w : InvAt T hi m c p w ->
  spec (InvAt T hi m c p) (drain fuel app)
    (fun o w' => quiet app w o w' /\ o.1 = app) w.
Proof.
  intros Hi.
  assert (forall w1, InvAt T hi m c p w1 -> hist w1 = hist w -> w_readings w1 = w_readings w ->
    spec (InvAt T hi m c p) (drain fuel app) (fun o w' => quiet app w o w' /\ o.1 = app) w1) as H; [|by apply H].
  assert (forall w1 r, InvAt T hi m c p w1 -> hist w1 = hist w -> w_readings w1 = w_readings w ->
    spec (InvAt T hi m c p) (Ret (app, r)) (fun o w' => quiet app w o w' /\ o.1 = app) w1) as Hret.
  { intros w1 r Hi1 Hh Hr. apply spec_ret; [done|]. unfold quiet. by rewrite Hh, Hr. }
  induction fuel as [|fuel IH]; intros w1 Hi1 Hh Hr; simpl drain; [by apply Hret|].
  apply spec_call; [done|]. intros w2 r E. apply (delivers_keeps _ T hi m c p) in E as (Hi2 & Hh2 & Hr2); [|done..].
  destruct r as [[item|]|e]; [|apply Hret; congruence..].
  apply spec_call; [done|]. intros w3 r E. apply (delivers_keeps _ T hi m c p) in E as (Hi3 & Hh3 & Hr3); [|done..].
  destruct r as [[]|e]; [|apply Hret; congruence].
  apply spec_call; [done|]. intros w4 r E. apply (delivers_keeps _ T hi m c p) in E as (Hi4 & Hh4 & Hr4); [|done..].
  destruct r as [[]|e]; [|apply Hret; congruence]. apply IH; congruence.
Qed.

(** A [Save] of counters [m'] with what is then accounted. *)
Lemma save_call T hi m c p m' c' p' w w' r : InvAt T hi m c p w -> reading_ok m' -> m' !! n = Some c' ->
  below d c' hi -> match p' with Some b => traffic_id T b | None => True end ->
  account n d (hist w ++ opt_list p') = start + bytes_of d c' - base -> K T (hist w ++ opt_list p') ->
  handle (SaveState (NewCheckpoint node (Some m') p')) w = (w', r) ->
  hist w' = hist w /\ w_readings w' = w_readings w /\
  (InvAt T hi m' c' p' w' \/ (InvAt T hi m c p w' /\ is_ok r = false)).
Proof.
  intros [] Hm Hc Hb Hp Ha HK E. injection E as <- <-. split_and!; [done|done|].
  destruct (save_remembers (NewCheckpoint node (Some m') p') (w_state w) _ inv_store0) as [H|[H Hr]].
  - left. by constructor.
  - right. split; [by constructor|done].
Qed.

(** Queueing the batch the store already has as pending. *)
Lemma enqueue_pending T hi m c b w w' r : InvAt T hi m c (Some b) w ->
  handle (Enqueue b) w = (w', r) ->
  InvAt T hi m c (Some b) w' /\ w_readings w' = w_readings w /\
  (is_ok r = true -> account n d (hist w') = start + bytes_of d c - base).
Proof.
  intros [] E. injection E as <- <-. simpl in *.
  destruct (enqueue_history b (w_queue w)) as [H|[H Hr]].
  - split_and!; [constructor; try done; unfold hist; simpl; rewrite H|done|unfold hist; simpl; by rewrite H].
    + apply Forall_app_2; [done|]. constructor; [by right|done].
    + eapply hp_subset; [|done]. set_solver.
    + by rewrite account_again.
  - split_and!; [constructor; try done; unfold hist; simpl; by rewrite H|done|congruence].
Qed.
Lemma spec_continue (I : world -> Prop) p k R w :
  spec I p (fun o w => match o with (app, Ok _) => spec I (k app) R w | (app, Err e) => R (app, Err e) w end) w ->
  spec I (and_continue p k) R w.
Proof.
  intros H. apply spec_bind. eapply spec_mono; [done| |exact H]. intros [app [[]|e]] w' Hi; simpl; [done|].
  intros HR. by apply spec_ret.
Qed.

Lemma InvAt_Inv T hi m c p w : InvAt T hi m c p w -> Inv T hi w.
Proof. by exists m, c, p. Qed.

(** The process has not loaded its state yet. *)
Definition unloaded (app : App) : Prop :=
  nodeID app = node /\ counterState app = true /\ stateLoaded app = false.

Lemma unloaded_Mem hi app w : unloaded app -> Mem hi app w.
Proof. intros (? & ? & H). split_and!; [done..|]. by rewrite H. Qed.

Lemma recover_pending_spec T hi app at_ m c p w : InvAt T hi m c p w -> unloaded app ->
  spec (Inv T hi) (recover_pending app at_ (NewCheckpoint node (Some m) p))
    (fun o w' => unloaded o.1 /\ w_readings w' = w_readings w /\
       (is_ok o.2 = true -> account n d (hist w') = start + bytes_of d c - base)) w.
Proof.
  intros Hi Hu. pose proof (InvAt_Inv _ _ _ _ _ _ Hi) as HI. unfold recover_pending. simpl.
  destruct p as [b|].
  2: { apply spec_ret; [done|]. split_and!; [done..|]. intros _.
       pose proof (inv_account _ _ _ _ _ _ Hi) as Ha. simpl in Ha. by rewrite app_nil_r in Ha. }
  apply spec_call; [done|]. intros w1 r E.
  apply (enqueue_pending T hi m c) in E as (Hi1 & Hr1 & Ha1); [|done].
  pose proof (InvAt_Inv _ _ _ _ _ _ Hi1) as HI1. destruct r as [report|e]; [|by apply spec_ret].
  specialize (Ha1 eq_refl). apply spec_call; [done|]. intros w2 r E.
  destruct Hu as (Hn & Hs & Hl). rewrite Hn in E.
  apply (save_call T hi m c (Some b) m c None) in E as (Hh2 & Hr2 & HH); [|done|apply Hi..|done| |].
  2: { simpl. by rewrite app_nil_r. }
  2: { eapply hp_subset; [|apply Hi1]. set_solver. }
  assert (Inv T hi w2) as HI2 by (destruct HH as [H|[H _]]; by apply InvAt_Inv in H).
  destruct r as [[]|e]; [|apply spec_ret; [done|]; split_and!; [done|congruence|done]].
  destruct HH as [Hi2|[_ H]]; [|done].
  eapply spec_mono; [| |apply health_spec, Hi2]; [intros ?; apply InvAt_Inv|].
  intros o w3 _ (Ha3 & Hr3 & Hq1 & Hq2 & _ & Hq3). split_and!; [|congruence|].
  - unfold unloaded. split_and!; congruence.
  - intros _. rewrite Ha3, Hh2. done.
Qed.

Lemma recover_spec T hi app at_ w : Inv T hi w -> Mem hi app w ->
  spec (Inv T hi) (recoverCounterState app at_)
    (fun o w' => Mem hi o.1 w' /\ w_readings w' = w_readings w /\ (is_ok o.2 = true -> stateLoaded o.1 = true)) w.
Proof.
  intros Hi HM. unfold recoverCounterState. rewrite (proj1 (proj2 HM)). simpl negb.
  destruct (stateLoaded app) eqn:El; simpl orb; [by apply spec_ret|].
  assert (unloaded app) as Hu by (split_and!; [apply HM..|done]).
  destruct Hi as (m & c & p & Hi). pose proof (InvAt_Inv _ _ _ _ _ _ Hi) as HI.
  apply spec_call; [done|]. intros w1 r E. injection E as <- <-.
  destruct (load_remembers (w_state w) _ (inv_store _ _ _ _ _ _ Hi)) as [Hrem Hans].
  assert (InvAt T hi m c p (on_state (c_Load (w_state w)) w).1) as Hi1 by (destruct Hi; by constructor).
  pose proof (InvAt_Inv _ _ _ _ _ _ Hi1) as HI1.
  destruct (c_Load (w_state w)) as [c1 [y|e]]; [|by apply spec_ret; [|split_and!; [apply unloaded_Mem|..]]].
  rewrite (Hans y eq_refl). simpl in *. rewrite (proj1 Hu), String.eqb_refl. simpl.
  apply spec_continue. eapply spec_mono; [done| |by apply recover_pending_spec].
  intros [app' [[]|e]] w2 HI2 (Hu2 & Hr2 & Ha2); simpl in *.
  - split_and!; [done| |done|done]. destruct Hu2 as (? & ? & ?). split_and!; [done..|].
    intros _. exists m, c. split_and!; [done|apply Hi..|by apply Ha2].
  - split_and!; [by apply unloaded_Mem|done|done].
Qed.
Lemma drain_Inv T hi fuel app w : Inv T hi w -> spec (Inv T hi) (drain fuel app) (quiet app w) w.
Proof.
  intros (m & c & p & Hi). eapply spec_mono; [| |apply drain_spec, Hi]; [intros ?; apply InvAt_Inv|].
  by intros o w' _ [? _].
Qed.

Lemma health_Inv T hi app at_ rep w : Inv T hi w -> spec (Inv T hi) (enqueueSpoolHealth app at_ rep) (quiet app w) w.
Proof.
  intros (m & c & p & Hi). eapply spec_mono; [| |apply health_spec, Hi]; [intros ?; apply InvAt_Inv|done].
Qed.

Context (Hallowed : DefaultAllowed n = true).

(** A reading of the interface at [c]. *)
Definition reads (m : counters) (c : Counter) : Prop :=
  reading_ok m /\ m !! n = Some c /\ bytes_of d c <= max_i64 /\ packets_of d c <= max_i64.

Lemma delta_bytes m c m' c' at_ : reading_ok m -> m !! n = Some c -> reads m' c' -> below d c c' ->
  sumZ (event_bytes n d) (Delta m m' DefaultAllowed at_) = bytes_of d c' - bytes_of d c.
Proof.
  intros Hm Hc (Hm' & Hc' & Hb & Hp) [Hle1 Hle2]. rewrite sum_Delta by done. unfold gain. rewrite Hc, Hc'.
  pose proof (counter_ok_side d c (Hm n c Hc)) as [H1 H2]. unfold in_u in H1, H2.
  case_decide as Hg; [done|]. unfold grew in Hg. lia.
Qed.

Lemma read_call T hi app w w' r : Inv T hi w -> Mem hi app w -> handle Read w = (w', r) ->
  match r with
  | Err _ => Inv T hi w' /\ Mem hi app w'
  | Ok m => w_readings w = Ok m :: w_readings w' /\ hist w' = hist w /\
      exists c, reads m c /\ below d hi c /\ Inv T c w' /\ Mem c app w'
  end.
Proof.
  intros (m & c & p & Hi) HM E. unfold handle, app_handler in E. pose proof (inv_readings _ _ _ _ _ _ Hi) as Hr.
  destruct (w_readings w) as [|[m'|e] rs] eqn:Er; simplify_eq.
  - split; [by exists m, c, p|done].
  - destruct Hr as (Hok & c' & Hc' & Hb & H1 & H2 & Hr). split_and!; [done|done|].
    exists c'. split_and!; [done|done|by apply Hb..| |].
    + exists m, c, p. destruct Hi. constructor; try done. by eapply below_trans.
    + destruct HM as (? & ? & Hl). split_and!; [done..|]. intros Hld.
      destruct (Hl Hld) as (mp & cp & ? & ? & ? & ? & ?). exists mp, cp. split_and!; try done.
      by eapply below_trans.
  - split; [exists m, c, p; destruct Hi; by constructor|done].
Qed.

(** Everything up to the reading [m] is queued and the process remembers it. *)
Definition sampled (m : counters) (c : Counter) (rs : list (result string counters)) (o : outcome) (w' : world) : Prop :=
  Mem c o.1 w' /\ w_readings w' = rs /\
  (is_ok o.2 = true -> account n d (hist w') = start + bytes_of d c - base).

Lemma Mem_current app w m c : nodeID app = node -> counterState app = true -> reads m c ->
  account n d (hist w) = start + bytes_of d c - base -> Mem c (set_previous (Some m) app) w.
Proof.
  intros Hn Hs Hr Ha. split_and!; [done..|]. intros _. exists m, c. unfold below. split_and!; try apply Hr; done || lia.
Qed.

Lemma save_spec T m0 c0 p0 app m c p w : InvAt T c m0 c0 p0 w -> nodeID app = node -> counterState app = true ->
  reads m c -> match p with Some b => traffic_id T b | None => True end ->
  account n d (hist w ++ opt_list p) = start + bytes_of d c - base -> K T (hist w ++ opt_list p) ->
  spec (Inv T c) (saveCounterState app m p)
    (fun o w' => o.1 = app /\ hist w' = hist w /\ w_readings w' = w_readings w /\
       (is_ok o.2 = true -> InvAt T c m c p w')) w.
Proof.
  intros Hi Hn Hs Hr Hp Ha HK. unfold saveCounterState. rewrite Hn, Hs. simpl negb.
  apply spec_call; [by eapply InvAt_Inv|]. intros w1 r E.
  apply (save_call T c m0 c0 p0 m c p) in E as (Hh & Hrd & HH); try done; try apply Hr.
  assert (Inv T c w1) as HI1 by (destruct HH as [H|[H _]]; by apply InvAt_Inv in H).
  destruct r as [[]|e]; apply spec_ret; try done. destruct HH as [H|[_ H]]; done.
Qed.

Lemma sample_quiet_spec T fuel app m c w : Inv T c w -> Mem c app w -> reads m c ->
  account n d (hist w) = start + bytes_of d c - base ->
  spec (Inv T c) (sample_quiet fuel app m) (sampled m c (w_readings w)) w.
Proof.
  intros (m0 & c0 & p0 & Hi) HM Hr Ha. pose proof HM as (Hn & Hs & _). unfold sample_quiet.
  apply spec_continue. eapply spec_mono; [done| |apply (save_spec T m0 c0 p0 app m c None); try done].
  2: { simpl. by rewrite app_nil_r. }
  2: { eapply hp_subset; [|apply Hi]. set_solver. }
  intros [app' [[]|e]] w1 HI (E & Hh & Hrd & _); simpl in E; subst app'.
  - eapply spec_mono; [done| |by apply drain_Inv]. intros o w2 _ Hq. split_and!.
    + eapply quiet_Mem; [done|]. apply Mem_current; [done..|by rewrite Hh].
    + destruct Hq as (_ & -> & _). done.
    + destruct Hq as (-> & _). by rewrite Hh.
  - split_and!; [eapply Mem_same, HM; by rewrite Hh|done|done].
Qed.

(** A fresh batch is not among the accepted ones. *)
Lemma fresh_batch T t h es : Forall (old_id T) h -> T < t -> clock_ok t ->
  b_BatchID (traffic_batch node t es) ∉ b_BatchID <$> h.
Proof.
  intros Hh Ht Hc (b & E & Hb)%list_elem_of_fmap. rewrite Forall_forall in Hh.
  destruct (Hh b Hb) as [H|(t' & Hc' & Hle & H)]; simpl in E; rewrite <- E in H.
  - by rewrite eventID_traffic in H.
  - apply eventID_inj in H; [lia|done|done].
Qed.

(** From the accepted batch on: the pending copy is cleared and the queue delivered. *)
Lemma sample_accepted_spec T fuel app t report m c b w : InvAt T c m c (Some b) w ->
  nodeID app = node -> counterState app = true -> reads m c ->
  account n d (hist w) = start + bytes_of d c - base ->
  spec (Inv T c)
    (let! r := saveCounterState app m None in
     match r with
     | (app, Err e) => Ret (invalidateCounterState app, Err e)
     | (app, Ok _) =>
         and_continue (enqueueSpoolHealth (set_previous (Some m) app) t report) (fun app => drain fuel app)
     end) (sampled m c (w_readings w)) w.
Proof.
  intros Hi Hn Hs Hr Ha. apply spec_bind.
  eapply spec_mono; [done| |apply (save_spec T m c (Some b) app m c None); try done].
  2: { simpl. by rewrite app_nil_r. }
  2: { eapply hp_subset; [|apply Hi]. set_solver. }
  intros [app' [[]|e]] w1 HI (E & Hh & Hrd & _); simpl in E; subst app'.
  - assert (Mem c (set_previous (Some m) app) w1) as HM by (apply Mem_current; [done..|by rewrite Hh]).
    apply spec_continue. eapply spec_mono; [done| |by apply health_Inv].
    intros [app2 [[]|e]] w2 HI2 Hq.
    + pose proof (quiet_Mem _ _ _ _ _ Hq HM) as HM2. destruct Hq as (Ha2 & Hrd2 & _).
      eapply spec_mono; [done| |by apply drain_Inv]. intros o w3 _ Hq3.
      pose proof (quiet_Mem _ _ _ _ _ Hq3 HM2). destruct Hq3 as (Ha3 & Hrd3 & _).
      split_and!; [done|congruence|]. intros _. by rewrite Ha3, Ha2, Hh.
    + pose proof (quiet_Mem _ _ _ _ _ Hq HM) as HM2. destruct Hq as (Ha2 & Hrd2 & _).
      split_and!; [done|congruence|done].
  - apply spec_ret; [done|]. split_and!; [by apply unloaded_Mem|done|done].
Qed.

Lemma sample_traffic_spec T t fuel app m c before cb w : Inv T c w -> Mem c app w -> reads m c ->
  T < t -> clock_ok t -> reading_ok before -> before !! n = Some cb -> below d cb c ->
  account n d (hist w) = start + bytes_of d cb - base ->
  spec (Inv t c) (sample_traffic fuel app t m (Delta before m DefaultAllowed t)) (sampled m c (w_readings w)) w.
Proof.
  intros (m0 & c0 & p0 & Hi0) HM Hr HT Ht Hbok Hcb Hbl Ha. unfold sample_traffic.
  pose proof HM as (Hn & Hs & _). rewrite Hn.
  set (b := traffic_batch node t (Delta before m DefaultAllowed t)).
  assert (account n d (hist w ++ [b]) = start + bytes_of d c - base) as Hab.
  { rewrite account_new; [|eapply fresh_batch; [apply Hi0|done|done]].
    unfold batch_bytes. simpl. rewrite (delta_bytes before cb m c) by done. lia. }
  assert (traffic_id t b) as Htb by (exists t; by split_and!).
  apply spec_continue. eapply spec_mono; [done| |apply (save_spec t m0 c0 p0 app m c (Some b)); try done].
  2: { apply (InvAt_later T); [lia|done]. }
  2: { eapply hp_subset; [|apply (hp_traffic T t (hist w) before m); [done..|by apply Hr|]]; [simpl; set_solver|].
       eapply hp_subset; [|apply Hi0]. set_solver. }
  intros [app' [[]|e]] w1 HI (E & Hh & Hrd & Hi1); simpl in E; subst app'.
  2: { split_and!; [eapply Mem_same, HM; by rewrite Hh|done|done]. }
  specialize (Hi1 eq_refl). apply spec_call; [done|]. intros w2 r E.
  apply (enqueue_pending t c m c) in E as (Hi2 & Hrd2 & Ha2); [|done].
  destruct r as [report|e].
  - rewrite <- Hrd, <- Hrd2. by apply (sample_accepted_spec t fuel app t report m c b); auto.
  - apply spec_ret; [by eapply InvAt_Inv|]. split_and!; [|congruence|done]. by apply unloaded_Mem.
Qed.
Lemma Inv_later T T' hi w : T <= T' -> Inv T hi w -> Inv T' hi w.
Proof. intros HT (m & c & p & Hi). exists m, c, p. by apply (InvAt_later T). Qed.

Lemma Inv_Safe T T' hi w : T <= T' -> Inv T hi w -> Safe T' w.
Proof. intros HT Hi. exists hi. by apply (Inv_later T). Qed.

(** What one [Sample] leaves behind. *)
Definition sample_post (t : time) (rs : list (result string counters)) (o : outcome) (w' : world) : Prop :=
  (exists hi, Inv t hi w' /\ Mem hi o.1 w') /\
  (is_ok o.2 = true -> exists m c, head rs = Some (Ok m) /\ m !! n = Some c /\
     account n d (hist w') = start + bytes_of d c - base).

Lemma sampled_post t m c (w w1 : world) p : w_readings w = Ok m :: w_readings w1 -> m !! n = Some c ->
  spec (Inv t c) p (sampled m c (w_readings w1)) w1 -> spec (Safe t) p (sample_post t (w_readings w)) w1.
Proof.
  intros Hrs Hc. apply spec_mono; [intros ? ?; by exists c|]. intros o w' HI (HM & _ & Ha).
  split; [by exists c|]. intros Hok. exists m, c. rewrite Hrs. by split_and!; try apply Ha.
Qed.

Lemma Sample_spec T t fuel app hi w : Inv T hi w -> Mem hi app w -> T < t -> clock_ok t ->
  spec (Safe t) (Sample fuel app t) (sample_post t (w_readings w)) w.
Proof.
  intros HI HM HT Ht. apply spec_continue.
  eapply spec_mono; [| |by apply recover_spec]; [intros ? H; by apply (Inv_Safe T t) in H; [|lia]|].
  intros [app1 [[]|e]] w1 HI1 (HM1 & Hrd1 & Hl1).
  2: { split; [|done]. exists hi. split; [by apply (Inv_later T); [lia|]|done]. }
  simpl in HM1, Hl1. specialize (Hl1 eq_refl).
  apply spec_call; [by apply (Inv_Safe T t hi); [lia|]|]. intros w2 r E.
  apply (read_call T hi app1) in E; [|done..]. destruct r as [m|e].
  2: { destruct E as [HI2 HM2]. apply spec_ret; [by apply (Inv_Safe T t hi); [lia|]|].
       split; [|done]. exists hi. split; [by apply (Inv_later T); [lia|]|done]. }
  destruct E as (Hrd2 & Hh2 & c & Hr & Hb & HI2 & HM2). rewrite Hrd1 in Hrd2.
  pose proof HM2 as (_ & _ & Hl). destruct (Hl Hl1) as (before & cb & -> & Hbok & Hcb & Hbl & Ha).
  pose proof (sample_traffic_spec T t fuel app1 m c before cb w2) as Htr.
  pose proof (delta_bytes before cb m c t Hbok Hcb Hr Hbl) as Hdb.
  eapply sampled_post; [done|apply Hr|].
  destruct (Delta before m DefaultAllowed t) as [|e es]; [|by apply Htr].
  apply sample_quiet_spec; [by apply (Inv_later T); [lia|]|done|done|]. simpl in Hdb. rewrite Ha. lia.
Qed.

(** Events of the other collectors carry no interface traffic. *)
Definition other_events (es : list Event) : Prop := Forall (fun e => event_bytes n d e = 0) es.

Lemma record_parts_spec T hi fuel app at_ part es w : other_events es -> Forall EK es -> Inv T hi w ->
  spec (Inv T hi) (record_parts fuel app at_ part es) (quiet app w) w.
Proof.
  intros Hes HE. revert app part es w Hes HE. induction fuel as [|fuel IH]; intros app part es w Hes HE HI.
  { destruct es; by apply spec_ret. }
  destruct es as [|e es]; [by apply spec_ret|]. cbn [record_parts]. remember (e :: es) as l eqn:El. clear El e es.
  apply spec_call; [done|]. intros w1 r E. destruct HI as (m & c & p & Hi).
  apply (enqueue_foreign T hi m c p) in E as (Hi1 & Ha1 & Hr1); [|split_and!; [|apply detail_batch_foreign|by apply Forall_take]|done].
  2: { apply sumZ_zero. apply (Forall_take _ part_size) in Hes. by rewrite Forall_forall in Hes. }
  pose proof (InvAt_Inv _ _ _ _ _ _ Hi1) as HI1. assert (quiet app w (app, Ok tt) w1) as Hq1 by done.
  destruct r as [report|e]; [|by apply spec_ret]. apply spec_continue.
  eapply spec_mono; [done| |by apply health_Inv]. intros [app2 [[]|e]] w2 HI2 Hq2;
    pose proof (quiet_trans _ _ _ _ _ _ Hq1 Hq2) as Hq; [|done].
  eapply spec_mono; [done| |apply IH; [by apply Forall_drop..|done]].
  intros o w3 _ Hq3. by eapply quiet_trans.
Qed.

Lemma Record_spec T hi fuel app at_ es w : other_events es -> Forall EK es -> Inv T hi w ->
  spec (Inv T hi) (Record_ fuel app at_ es) (quiet app w) w.
Proof.
  intros Hes HE HI. unfold Record_. destruct es as [|e es]; [by apply drain_Inv|].
  apply spec_continue. eapply spec_mono; [done| |by apply record_parts_spec].
  intros [app2 [[]|e']] w2 HI2 Hq; [|done].
  eapply spec_mono; [done| |by apply drain_Inv]. intros o w3 _ Hq3. by eapply quiet_trans.
Qed.
End invariant.

(** ** Runs with failures and restarts *)

(** An operation of the agent's loop, killed after [stop] calls if that is a number;
    the process is then started again. *)
Inductive step : Type :=
| SampleAt (t : time) (stop : option nat)
| RecordAt (t : time) (events : list Event) (stop : option nat).

Section trace.
Context {Q S C : Type} `{!Queue Q} `{!Deliverer S} `{!CounterState C}.

Definition finish (stop : option nat) (p : prog eff outcome) (app : App) (w : World Q S C) : App * World Q S C :=
  match stop with
  | None => ((exec p w).2.1, (exec p w).1)
  | Some k => (match (run k p w).2 with Some o => o.1 | None => New (nodeID app) (counterState app) end, (run k p w).1)
  end.

Definition run_step (fuel : nat) (s : App * World Q S C) (st : step) : App * World Q S C :=
  match st with
  | SampleAt t stop => finish stop (Sample fuel s.1 t) s.1 s.2
  | RecordAt t events stop => finish stop (Record_ fuel s.1 t events) s.1 s.2
  end.

Definition run_steps (fuel : nat) : App * World Q S C -> list step -> App * World Q S C := foldl (run_step fuel).
End trace.

(** The clock advances from one [Sample] to the next after [T]. *)
Fixpoint steps_ok (n : string) (d : counted) (T : time) (steps : list step) : Prop :=
  match steps with
  | [] => True
  | SampleAt t _ :: rest => T < t /\ clock_ok t /\ steps_ok n d t rest
  | RecordAt _ events _ :: rest => other_events n d events /\ steps_ok n d T rest
  end.

Definition last_sample (T : time) (steps : list step) : time :=
  foldl (fun T st => match st with SampleAt t _ => t | RecordAt _ _ _ => T end) T steps.

(** The events a step is given to record. *)
Definition recorded (st : step) : list Event :=
  match st with SampleAt _ _ => [] | RecordAt _ events _ => events end.

Section exactly_once.
Context {Q S C : Type} `{!Queue Q} `{!QueueLaws Q} `{!Deliverer S} `{!CounterState C} `{!CounterStateLaws C}.
Context (n : string) (d : counted) (node : string).
Context (K : time -> list Batch -> Prop) (EK : Event -> Prop) {HP : HistoryProperty node K EK}.
Context (start base : Z) (fuel : nat).
Context (Hallowed : DefaultAllowed n = true).

Abbreviation Good T s := (exists hi, Inv n d node K start base T hi s.2 /\ Mem n d node start base hi s.1 s.2).

Lemma finish_good T stop p app (w : World Q S C) :
  nodeID app = node -> counterState app = true ->
  spec (Safe n d node K start base T) p (fun o w' => Good T (o.1, w')) w -> Good T (finish stop p app w).
Proof.
  intros Hn Hs Hsp. destruct stop as [k|]; simpl.
  - apply (spec_run _ k) in Hsp as [[hi HI] Hq]. destruct (run k p w) as [w' [o|]]; simpl in *; [by apply Hq|].
    exists hi. split; [done|]. by apply unloaded_Mem.
  - by apply spec_exec in Hsp as [_ Hq].
Qed.

Lemma run_step_good T s st : Good T s -> steps_ok n d T [st] -> Forall EK (recorded st) ->
  Good (last_sample T [st]) (run_step (S := S) fuel s st).
Proof.
  intros (hi & HI & HM) Hok HE. pose proof HM as (Hn & Hs & _). destruct st as [t stop|t es stop]; simpl in *.
  - apply finish_good; [done|done|]. destruct Hok as (HT & Ht & _).
    eapply spec_mono; [done| |by apply (Sample_spec n d node K EK start base Hallowed T t fuel s.1 hi)].
    by intros o w' _ [? _].
  - apply finish_good; [done|done|]. destruct Hok as [Hes _].
    eapply spec_mono; [| |by apply (Record_spec n d node K EK start base T hi)]; [intros ? ?; by exists hi|].
    intros o w' HI' Hq. exists hi. split; [done|]. by eapply quiet_Mem.
Qed.

Lemma run_steps_good T s steps : Good T s -> steps_ok n d T steps -> Forall (fun st => Forall EK (recorded st)) steps ->
  Good (last_sample T steps) (run_steps (S := S) fuel s steps).
Proof.
  revert T s. induction steps as [|st steps IH]; intros T s HG Hok HE; [done|]. simpl.
  apply Forall_cons in HE as [He HE]. apply IH; [|destruct st; naive_solver|done].
  apply (run_step_good T); [done| |done]. destruct st; naive_solver.
Qed.
End exactly_once.

(** C4. Exactly once: from a checkpoint of this node on, whatever calls fail and
    wherever [Sample] and [Record] are killed and restarted, the store remembers a
    checkpoint such that the accepted batches with its pending one, taken once per
    batch identifier, account for exactly the bytes the counters advanced up to it;
    and after a [Sample] that returns without error they account for exactly the
    bytes up to the reading it took.  For every interface that stays present with
    counters that do not go back, while the clock advances. *)
Theorem exactly_once {Q S C} `{!Queue Q} `{!QueueLaws Q} `{!Deliverer S} `{!CounterState C} `{!CounterStateLaws C}
    (fuel : nat) (n : string) (d : counted) (node : string) (m0 : counters) (c0 : Counter) (T0 : time)
    (steps : list step) (w : World Q S C) :
  DefaultAllowed n = true ->
  remembers (w_state w) (Some (NewCheckpoint node (Some m0) None)) -> reading_ok m0 -> m0 !! n = Some c0 ->
  Forall (old_id node T0) (history (w_queue w)) ->
  advancing n d c0 (w_readings w) -> steps_ok n d T0 steps ->
  let s := run_steps fuel (New node true, w) steps in
  let accounted (bs : list Batch) (c : Counter) :=
    account n d bs = account n d (history (w_queue w)) + bytes_of d c - bytes_of d c0 in
  (exists m c p, remembers (w_state s.2) (Some (NewCheckpoint node (Some m) p)) /\ m !! n = Some c /\
     accounted (history (w_queue s.2) ++ opt_list p) c) /\
  (forall t, last_sample T0 steps < t -> clock_ok t ->
     is_ok (exec (Sample fuel s.1 t) s.2).2.2 = true ->
     exists m c, head (w_readings s.2) = Some (Ok m) /\ m !! n = Some c /\
       accounted (history (w_queue (exec (Sample fuel s.1 t) s.2).1)) c).
Proof.
  intros Hal Hrem Hok Hc0 Hids Hadv Hsteps s accounted.
  pose proof (any_history node) as HP.
  destruct (run_steps_good n d node (fun _ _ => True) (fun _ => True) (account n d (history (w_queue w))) (bytes_of d c0) fuel Hal
              T0 (New node true, w) steps) as (hi & HI & HM); [|done|by apply Forall_forall; intros; apply Forall_forall|].
  - exists c0. split; [|by apply unloaded_Mem]. exists m0, c0, None. constructor; try done.
    simpl. rewrite app_nil_r. unfold hist. simpl. lia.
  - split.
    + destruct HI as (m & c & p & []). by exists m, c, p.
    + intros t Ht Hclk Hr.
      pose proof (Sample_spec n d node _ _ _ _ Hal _ t fuel _ hi _ HI HM Ht Hclk) as Hsp.
      apply spec_exec in Hsp as [_ [_ Hq]]. exact (Hq Hr).
Qed.

(** ** Delivery *)

(** What the sender promises: a [Send] makes the server accept the batch some number
    of times, at least once if it returns without error. *)
Class DelivererLaws (S : Type) `{!Deliverer S} : Type := {
  delivered : S -> list Batch;
  send_delivered b s : exists k, delivered (s_Send b s).1 = delivered s ++ replicate k b /\
    (is_ok (s_Send b s).2 = true -> (0 < k)%nat) }.

Section delivery.
Context {Q S C : Type} `{!Queue Q} `{!QueueLaws Q} `{!Deliverer S} `{!DelivererLaws S} `{!CounterState C}.

(** Deliveries of the items [l], the [i]-th one [ks !! i] times. *)
Definition deliveries (ks : list nat) (l : list Item) : list Batch :=
  concat (zip_with (fun k i => replicate k (it_Batch i)) ks l).

(** From contents [l] and deliveries [s]: a prefix of [l] is gone, each item of it was
    delivered in order, and at most the next one was delivered without being gone. *)
Definition progress (l : list Item) (s : list Batch) (w : World Q S C) : Prop :=
  exists acked ks, l = acked ++ contents (w_queue w) /\
    delivered (w_sender w) = s ++ deliveries ks l /\
    (length acked <= length ks <= 1 + length acked)%nat /\
    Forall (fun k => 0 < k)%nat (take (length acked) ks).

Lemma progress_start w : progress (contents (w_queue w)) (delivered (w_sender w)) w.
Proof. exists [], []. split_and!; simpl; try lia; [done|by rewrite app_nil_r|constructor]. Qed.

Lemma progress_sent item l s k w : contents (w_queue w) = item :: l ->
  delivered (w_sender w) = s ++ replicate k (it_Batch item) -> progress (item :: l) s w.
Proof.
  intros Hc Hd. exists [], [k]. split_and!; simpl; try lia; [by rewrite Hc| |constructor].
  rewrite Hd. unfold deliveries. simpl. by rewrite app_nil_r.
Qed.

(** An iteration that delivered its item, then progress on the rest. *)
Lemma progress_next item l s k w : (0 < k)%nat ->
  progress l (s ++ replicate k (it_Batch item)) w -> progress (item :: l) s w.
Proof.
  intros Hk (acked & ks & Hl & Hd & Hlen & Hks). exists (item :: acked), (k :: ks).
  split_and!; simpl; try lia; [by rewrite <- Hl| |by constructor].
  rewrite Hd, <- app_assoc. done.
Qed.

Lemma drain_progress fuel app w :
  spec (progress (contents (w_queue w)) (delivered (w_sender w))) (drain fuel app)
    (fun o w' => (o.2 = Ok tt -> contents (w_queue w') = []) /\
       ((length (contents (w_queue w)) < fuel)%nat -> o.2 <> Err OutOfFuel)) w.
Proof.
  revert w. induction fuel as [|fuel IH]; intros w; simpl drain.
  { apply spec_ret; [apply progress_start|]. split; [done|lia]. }
  apply spec_call; [apply progress_start|]. intros w1 r E. injection E as <- <-.
  pose proof (peek_contents (w_queue w)) as Hc. pose proof (peek_head (w_queue w)) as Hh.
  destruct (q_Peek (w_queue w)) as [q1 r]. simpl in Hc, Hh |- *.
  set (w1 := MkWorld q1 (w_sender w) (w_state w) (w_readings w)).
  assert (progress (contents (w_queue w)) (delivered (w_sender w)) w1) as Hp1
    by (rewrite <- Hc; apply (progress_start w1)).
  destruct r as [[item|]|e]; [| |by apply spec_ret].
  2: { apply spec_ret; [done|]. split; [|done]. intros _. simpl. rewrite Hc.
       specialize (Hh _ eq_refl). by destruct (contents (w_queue w)). }
  specialize (Hh _ eq_refl). destruct (contents (w_queue w)) as [|i l] eqn:El; simpl in Hh; [done|injection Hh as ->].
  apply spec_call; [done|]. intros w2 r E. injection E as <- <-.
  destruct (send_delivered (it_Batch i) (w_sender w)) as (k & Hd & Hk).
  destruct (s_Send (it_Batch i) (w_sender w)) as [s2 r]. simpl in Hd, Hk |- *.
  set (w2 := MkWorld q1 s2 (w_state w) (w_readings w)).
  assert (progress (i :: l) (delivered (w_sender w)) w2) as Hp2 by (by apply progress_sent with k).
  destruct r as [[]|e]; [|by apply spec_ret].
  apply spec_call; [done|]. intros w3 r E. injection E as <- <-. simpl w_queue.
  pose proof (ack_contents q1 i l Hc) as Ha. destruct (q_Ack i q1) as [q3 r]. simpl in Ha |- *.
  set (w3 := MkWorld q3 s2 (w_state w) (w_readings w)).
  assert (contents q3 = l -> forall w', progress (contents (w_queue w3)) (delivered (w_sender w3)) w' ->
    progress (i :: l) (delivered (w_sender w)) w') as Hnext.
  { simpl. intros -> w' Hp. rewrite Hd in Hp. eapply progress_next; [by apply Hk|done]. }
  destruct r as [[]|e].
  - destruct Ha as [Ha|[_ Ha]]; [|done]. eapply spec_mono; [by apply Hnext| |apply IH].
    intros o w' _ [Ho Hf]. split; [done|]. intros Hlt. apply Hf. simpl. rewrite Ha. lia.
  - apply spec_ret; [|done]. destruct Ha as [Ha|[Ha _]]; [by apply Hnext, (progress_start w3)|].
    apply progress_sent with k; [by rewrite <- Hc, <- Ha|done].
Qed.
End delivery.

(** C8. Delivery at least once, in order: wherever [drain] is stopped, a prefix of
    the queue is gone and every batch of it was accepted by the server, in the order
    of the queue; at most the next batch was accepted too.  With fuel for every
    queued batch the loop ends by itself, and it returns without error only with an
    empty queue. *)
Theorem drain_delivers {Q S C} `{!Queue Q} `{!QueueLaws Q} `{!Deliverer S} `{!DelivererLaws S} `{!CounterState C}
    (fuel stop : nat) (app : App) (w : World Q S C) :
  progress (contents (w_queue w)) (delivered (w_sender w)) (run stop (drain fuel app) w).1 /\
  progress (contents (w_queue w)) (delivered (w_sender w)) (exec (drain fuel app) w).1 /\
  ((exec (drain fuel app) w).2.2 = Ok tt -> contents (w_queue (exec (drain fuel app) w).1) = []) /\
  ((length (contents (w_queue w)) < fuel)%nat -> (exec (drain fuel app) w).2.2 <> Err OutOfFuel).
Proof.
  pose proof (drain_progress fuel app w) as Hsp. split; [by apply (spec_run _ stop) in Hsp as [? _]|].
  by apply spec_exec in Hsp.
Qed.

(** ** Recording *)

Definition is_detail (b : Batch) : Prop := has_prefix (b_BatchID b) "detail-batch-" = true.

#[export] Instance is_detail_dec b : base.Decision (is_detail b).
Proof. unfold is_detail. apply _. Defined.

(** The detail batches of consecutive parts of the events. *)
Fixpoint detail_batches (node : string) (at_ : time) (part : Z) (parts : list (list Event)) : list Batch :=
  match parts with
  | [] => []
  | es :: parts' => detail_batch node at_ part es :: detail_batches node at_ (part + 1) parts'
  end.

Definition part_ok (es : list Event) : Prop := (1 <= length es <= part_size)%nat.

Lemma part_size_pos : (0 < part_size)%nat.
Proof. unfold part_size. lia. Qed.

(** Batches [new] were added for a prefix of the events, which is all of them when
    [complete]. *)
Definition queued_parts (node : string) (at_ : time) (part : Z) (es : list Event) (complete : Prop)
  (new : list Batch) : Prop :=
  exists parts rest, concat parts ++ rest = es /\ Forall part_ok parts /\
    new = detail_batches node at_ part parts /\ (complete -> rest = []).

(** The errors of queueing are not those of the delivery. *)
Definition queue_failed (r : result app_error unit) : Prop :=
  exists context e, r = Err (Wrapped context (QueueErr e)).

Section record.
Context {Q S C : Type} `{!Queue Q} `{!QueueLaws Q} `{!Deliverer S} `{!CounterState C}.

Definition details (w : World Q S C) : list Batch := filter is_detail (history (w_queue w)).

Lemma enqueue_details b w w' r : handle (Enqueue b) w = (w', r) ->
  details w' = details w ++ filter is_detail [b] \/ (details w' = details w /\ is_ok r = false).
Proof.
  intros E. injection E as <- <-. unfold details. simpl.
  destruct (enqueue_history b (w_queue w)) as [->|[-> H]]; [left; by rewrite filter_app|by right].
Qed.

Lemma detail_batch_detail node at_ part es : is_detail (detail_batch node at_ part es).
Proof.
  unfold is_detail, detail_batch, detailBatchID. simpl.
  match goal with |- context [digest_hex ?x 12] => generalize (of_chars (format_int part) +:+ ":" +:+ digest_hex x 12) end.
  by intros [].
Qed.

Lemma health_details app at_ rep w :
  spec (fun w' => details w' = details w) (enqueueSpoolHealth app at_ rep)
    (fun o _ => nodeID o.1 = nodeID app /\ (o.2 = Ok tt \/ queue_failed o.2)) w.
Proof.
  unfold enqueueSpoolHealth. destruct (health_events app at_ rep) as [[|e es] pressured]; [by apply spec_ret; auto|].
  apply spec_call; [done|]. intros w1 r E. apply enqueue_details in E as Hd.
  assert (details w1 = details w) as Hw by (destruct Hd as [->|[-> _]]; [apply app_nil_r|done]).
  destruct r as [rep'|err]; apply spec_ret; try done; split; try done; [by left|right; by repeat eexists].
Qed.

Lemma record_parts_details fuel app at_ part es w : (length es <= fuel)%nat ->
  spec (fun _ => True) (record_parts fuel app at_ part es)
    (fun o w' => (o.2 = Ok tt \/ queue_failed o.2) /\
       exists new, details w' = details w ++ new /\
         queued_parts (nodeID app) at_ part es (o.2 = Ok tt) new) w.
Proof.
  revert app part es w. induction fuel as [|fuel IH]; intros app part es w Hlen.
  { destruct es; [|simpl in Hlen; lia]. apply spec_ret; [done|]. split; [by left|].
    exists []. split; [by rewrite app_nil_r|]. by exists [], []. }
  destruct es as [|e es].
  { apply spec_ret; [done|]. split; [by left|]. exists []. split; [by rewrite app_nil_r|]. by exists [], []. }
  cbn [record_parts]. assert (e :: es <> []) as Hne by done. remember (e :: es) as l eqn:El. clear El e es.
  assert (part_ok (take part_size l)) as Hpart.
  { unfold part_ok. rewrite length_take. pose proof part_size_pos.
    assert (0 < length l)%nat by (destruct l; [done|apply Nat.lt_0_succ]). lia. }
  apply spec_call; [done|]. intros w1 r E. apply enqueue_details in E.
  rewrite filter_cons_True in E by apply detail_batch_detail.
  destruct r as [report|err].
  2: { apply spec_ret; [done|]. split; [right; by repeat eexists|]. destruct E as [->|[-> _]].
       - eexists. split; [done|]. exists [take part_size l], (drop part_size l).
         split_and!; [simpl; by rewrite app_nil_r, take_drop|by constructor|done|done].
       - exists []. split; [by rewrite app_nil_r|]. by exists [], l. }
  destruct E as [Hd|[_ E]]; [|done]. apply spec_continue.
  eapply spec_mono; [done| |by apply health_details]. intros [app2 r] w2 Hd2 [Hn Hr]. simpl in Hn, Hr.
  destruct r as [[]|err].
  - eapply spec_mono; [done| |apply IH].
    2: { rewrite length_drop. pose proof part_size_pos. lia. }
    intros o w3 _ [Ho (new & Hd3 & parts & rest & Hc & Hp & -> & Hrest)]. split; [done|].
    eexists. split; [by rewrite Hd3, Hd2, Hd, <- app_assoc|].
    exists (take part_size l :: parts), rest. split_and!; [simpl; by rewrite <- app_assoc, Hc, take_drop|by constructor| |done].
    simpl. by rewrite Hn.
  - split; [done|]. eexists. split; [by rewrite Hd2, Hd|].
    exists [take part_size l], (drop part_size l).
    split_and!; [simpl; by rewrite app_nil_r, take_drop|by constructor|done|done].
Qed.

Lemma delivers_details {X} (e : eff X) w w' r : delivers e = true -> handle e w = (w', r) -> details w' = details w.
Proof.
  intros He E. unfold details.
  destruct e; try done; injection E as <- <-; simpl; by rewrite ?peek_history, ?ack_history.
Qed.

Lemma drain_details fuel app w :
  spec (fun w' => details w' = details w) (drain fuel app) (fun _ _ => True) w.
Proof.
  assert (forall w1, details w1 = details w ->
    spec (fun w' => details w' = details w) (drain fuel app) (fun _ _ => True) w1) as H; [|by apply H].
  induction fuel as [|fuel IH]; intros w1 Hw1; simpl drain; [by apply spec_ret|].
  apply spec_call; [done|]. intros w2 r E%delivers_details; [|done]. rewrite Hw1 in E.
  destruct r as [[item|]|e]; [|by apply spec_ret..].
  apply spec_call; [done|]. intros w3 r E3%delivers_details; [|done]. rewrite E in E3.
  destruct r as [[]|e]; [|by apply spec_ret].
  apply spec_call; [done|]. intros w4 r E4%delivers_details; [|done]. rewrite E3 in E4.
  destruct r as [[]|e]; [by apply IH|by apply spec_ret].
Qed.
End record.

Lemma detail_batches_ok node at_ part parts : id_ok node -> at_ <> zero_time ->
  Forall part_ok parts -> Forall (Forall event_ok) parts -> Forall batch_ok (detail_batches node at_ part parts).
Proof.
  intros Hn Ht Hp He. revert part. induction Hp as [|es parts Hes Hp IH]; intros part; [constructor|].
  inversion_clear He as [|?? Hes' He']. constructor; [|by apply IH].
  assert (part_size = Z.to_nat 5000) as Hsz by (unfold part_size; lia).
  unfold part_ok in Hes. rewrite Hsz in Hes.
  constructor; simpl; try done; try lia; try constructor.
  all: unfold detailBatchID; rewrite !len_app, len_digest_hex by lia;
    pose proof (len_format_int part); pose proof (len_nonneg (of_chars (format_int part)));
    change (len "detail-batch-") with 13; change (len ":") with 1; lia.
Qed.

Lemma detailBatchID_part node at_ part es part' es' : 0 <= part <= max_u64 -> 0 <= part' <= max_u64 ->
  detailBatchID node at_ part es = detailBatchID node at_ part' es' -> part = part'.
Proof.
  intros Hp Hp' E. apply (f_equal chars) in E. unfold detailBatchID in E. rewrite !chars_app in E.
  apply app_inv_head in E. rewrite !chars_of_chars in E. apply (f_equal (Cut colon)) in E.
  assert (forall z, 0 <= z -> format_int z = format_uint z) as Hf
    by (intros z Hz; unfold format_int; by rewrite (proj2 (Z.ltb_ge z 0))).
  rewrite (Hf part), (Hf part') in E by lia. change (chars ":") with [colon] in E. cbn [app] in E.
  rewrite !Cut_app in E by (apply format_uint_no_colon; lia). injection E as E _.
  apply (f_equal ParseUint) in E. rewrite !ParseUint_format in E by done. congruence.
Qed.

Lemma detail_batches_ids node at_ part parts : 0 <= part -> part + Z.of_nat (length parts) <= max_u64 ->
  NoDup (b_BatchID <$> detail_batches node at_ part parts).
Proof.
  assert (forall parts part' b, 0 <= part' -> part' + Z.of_nat (length parts) <= max_u64 ->
    b ∈ detail_batches node at_ part' parts ->
    exists p es, part' <= p <= max_u64 /\ b_BatchID b = detailBatchID node at_ p es) as Hin.
  { clear. induction parts as [|es parts IH]; simpl; intros part' b Hp Hl Hb; [by apply elem_of_nil in Hb|].
    apply elem_of_cons in Hb as [->|Hb]; [exists part', es; split; [lia|done]|].
    destruct (IH (part' + 1) b) as (p & es' & ? & ?); [lia|lia|done|]. exists p, es'. split; [lia|done]. }
  revert part. induction parts as [|es parts IH]; simpl; intros part Hp Hl; constructor; [|apply IH; lia].
  intros (b & E & Hb)%list_elem_of_fmap. apply Hin in Hb as (p & es' & Hr & E'); [|lia|lia].
  simpl in E. rewrite E' in E. apply detailBatchID_part in E; lia.
Qed.

Lemma parts_length parts rest (es : list Event) : Forall part_ok parts -> concat parts ++ rest = es ->
  (length parts <= length es)%nat.
Proof.
  intros Hp <-. rewrite length_app. induction Hp as [|p parts Hlen _ IH]; simpl; [lia|].
  rewrite length_app. unfold part_ok in Hlen. lia.
Qed.

(** Recording: [Record] queues the events in order, none twice, in parts of at
    most 5000 with identifiers of their own; unless queueing failed they are all
    queued, even when the delivery that follows fails.  The batches are valid when
    the events are, and the loop over the parts always ends. *)
Theorem record_queues {Q S C} `{!Queue Q} `{!QueueLaws Q} `{!Deliverer S} `{!CounterState C}
    (fuel : nat) (app : App) (at_ : time) (es : list Event) (w : World Q S C) :
  let r := exec (Record_ fuel app at_ es) w in
  exists new, details r.1 = details w ++ new /\
    queued_parts (nodeID app) at_ 0 es (~ queue_failed r.2.2) new /\
    (id_ok (nodeID app) -> at_ <> zero_time -> Forall event_ok es -> Forall batch_ok new) /\
    (Z.of_nat (length es) <= max_i64 -> NoDup (b_BatchID <$> new)).
Proof.
  assert (spec (fun _ => True) (Record_ fuel app at_ es) (fun o w' => exists new,
    details w' = details w ++ new /\ queued_parts (nodeID app) at_ 0 es (~ queue_failed o.2) new) w) as H.
  { unfold Record_. destruct es as [|e es].
    - eapply spec_mono; [| |apply drain_details]; [done|]. intros o w' Hd _. exists [].
      split; [by rewrite app_nil_r|]. by exists [], [].
    - apply spec_continue. eapply spec_mono; [done| |by apply record_parts_details].
      intros [app2 [[]|err]] w2 _ [Ho (new & Hd & parts & rest & Hc & Hp & -> & Hrest)]; simpl in Ho, Hrest.
      + eapply spec_mono; [| |apply drain_details]; [done|]. intros o w3 Hd3 _.
        eexists. split; [by rewrite Hd3, Hd|]. exists parts, rest. split_and!; try done. intros _. by apply Hrest.
      + eexists. split; [done|]. exists parts, rest. split_and!; try done. intros Hnf. exfalso.
        destruct Ho as [?|?]; [done|by apply Hnf]. }
  apply spec_exec in H as [_ (new & Hd & Hq)]. exists new. split_and!; [done|done|..];
    destruct Hq as (parts & rest & Hc & Hp & -> & _).
  2: { intros Hl. pose proof (parts_length _ _ _ Hp Hc). apply detail_batches_ids; unfold max_u64, max_i64 in *; lia. }
  intros Hn Ht He.
  apply detail_batches_ok; [done..|]. rewrite <- Hc in He. apply Forall_app in He as [He _].
  by apply Forall_concat.
Qed.

(** ** A concrete agent

    A queue in memory whose enqueue operations meet a given list of outcomes, the
    sender of [Sender], and the checkpoint file of [StateFile] on a disk with faults,
    with an encoding that numbers a list of checkpoints. *)

#[export] Instance Checkpoint_eq_dec : EqDecision Checkpoint.
Proof. solve_decision. Defined.

Module DemoAgent.

Inductive enqueued : Type :=
| Accepts (report : DropReport)
| Rejects
| Publishes_then_fails.

Record queue : Type := MkQueue { q_items : list Item; q_log : list Batch; q_script : list enqueued }.

Definition no_drop : DropReport := MkDropReport "" 0 0 (f64_of_Z 0).

Definition push (b : Batch) (script : list enqueued) (q : queue) : queue :=
  MkQueue (q_items q ++ [MkItem b (of_chars (format_int (Z.of_nat (length (q_log q)))))]) (q_log q ++ [b]) script.

#[export] Instance queue_ops : Queue queue := {
  q_Enqueue b q :=
    match q_script q with
    | [] => (push b [] q, Ok no_drop)
    | Accepts r :: s => (push b s q, Ok r)
    | Rejects :: s => (MkQueue (q_items q) (q_log q) s, Err "create spool temporary file")
    | Publishes_then_fails :: s => (push b s q, Err "set queued batch time")
    end;
  q_Peek q := (q, Ok (head (q_items q)));
  q_Ack i q := (MkQueue (tail (q_items q)) (q_log q) (q_script q), Ok tt) }.

#[export] Instance queue_laws : QueueLaws queue.
Proof.
  refine {| history := q_log; contents := q_items |}; try done.
  - intros b q. simpl. destruct (q_script q) as [|[] ?]; simpl; auto.
  - intros q r. simpl. congruence.
  - intros q i rest E. left. simpl. by rewrite E.
Defined.

(** The sender with a server that answers the requests in turn. *)
Record link : Type := MkLink { l_post : nat -> response; l_requests : nat; l_delivered : list Batch }.

Definition requests (acts : list action) : nat := length (filter is_post acts).

#[export] Instance link_ops : Deliverer link := {
  s_Send b s :=
    let '(acts, r) := Send (fun _ => Some []) (fun i => l_post s (l_requests s + i)) (fun _ => true) default_backoff b in
    (MkLink (l_post s) (l_requests s + requests acts) (if is_ok r then l_delivered s ++ [b] else l_delivered s), r) }.

#[export] Instance link_laws : DelivererLaws link.
Proof.
  refine {| delivered := l_delivered |}. intros b s. simpl.
  destruct (Send _ _ _ _ b) as [acts [[]|e]]; simpl.
  - exists 1%nat. split; [done|lia].
  - exists 0%nat. by rewrite app_nil_r.
Defined.

Definition node : string := "node-a".
Definition t1 : time := 1700000000 * Second.
Definition t2 : time := 1700000060 * Second.
Definition m0 : counters := Sample.before.
Definition m1 : counters := Sample.after.
Definition pending : Batch := traffic_batch node t1 (Delta m0 m1 DefaultAllowed t1).

(** The checkpoints of the run below, numbered. *)
Definition table : list Checkpoint :=
  [NewCheckpoint node (Some m0) None; NewCheckpoint node (Some m1) (Some pending); NewCheckpoint node (Some m1) None].

#[export] Instance codec : Codec := {
  encode cp := (fun p => [Z.of_nat p.1]) <$> list_find (fun x => x = cp) table;
  decode bytes := match bytes with [i] => table !! Z.to_nat i | _ => None end }.

#[export] Instance codec_sound : CodecSound.
Proof.
  constructor. intros cp bytes cp'. unfold encode, codec.
  destruct (list_find (fun x => x = cp) table) as [[i x]|] eqn:E; [|done].
  apply list_find_Some in E as (Hi & -> & _). intros [= <-]. unfold decode.
  assert (exists k, load_limit = S k) as [k ->] by (exists (N.to_nat (2 ^ 20) - 1)%nat; unfold load_limit; lia).
  cbn [take fst]. rewrite firstn_nil, Nat2Z.id, Hi. by intros [= ->].
Qed.

(** The file holds the first checkpoint. *)
Definition disk0 : disk := MkDisk (synced_file [0]) (synced_file [0]) None [].

Definition agent (script : list enqueued) (readings : list (result string counters)) : World queue link disk :=
  MkWorld (MkQueue [] [] script) (MkLink (fun _ => StatusCode 202) 0 []) disk0 readings.

(** A sample killed after its checkpoint with the pending batch is on disk and before
    it is queued, a restart, and a second sample. *)
Definition crash_steps : list step := [SampleAt t1 (Some 3%nat); SampleAt t2 None].

Example crash_run :
  let s := run_steps 9 (New node true, agent [] [Ok m1; Ok m1]) crash_steps in
  history (w_queue s.2) = [pending] /\ contents (w_queue s.2) = [] /\ delivered (w_sender s.2) = [pending] /\
  account "enp0s6" Inbound (history (w_queue s.2)) = 600.
Proof. vm_compute. done. Qed.

(** The queue publishes the batch and reports an error: the batch is queued again
    under the same identifier and counted once. *)
Example duplicate_run :
  let s := run_steps 9 (New node true, agent [Publishes_then_fails] [Ok m1; Ok m1])
             [SampleAt t1 None; SampleAt t2 None] in
  history (w_queue s.2) = [pending; pending] /\ delivered (w_sender s.2) = [pending; pending] /\
  account "enp0s6" Inbound (history (w_queue s.2)) = 600.
Proof. vm_compute. done. Qed.

Definition dropped_events (b : Batch) : Z :=
  sumZ (fun e => match ev_Health e with Some h => he_DroppedEvents h | None => 0 end) (b_Events b).

(** Two reports of evicted events at one [observedAt], as in one round of the agent's
    loop: the health batches have the same identifier, so a receiver that takes an
    identifier once learns of three of the eight lost events. *)
Example health_report_lost :
  let report n := MkDropReport "data_gap" 1 n (f64_of_Z 50) in
  let events := b_Events pending in
  let s := run_steps 9 (New node true, agent [Accepts (report 3); Accepts no_drop; Accepts (report 5)] [])
             [RecordAt t1 (take 1 events) None; RecordAt t1 (drop 1 events) None] in
  sumZ dropped_events (history (w_queue s.2)) = 8 /\
  sumZ dropped_events (distinct [] (history (w_queue s.2))) = 3.
Proof. vm_compute. done. Qed.

Lemma save_atomic_witness :
  settled (Some [0]) disk0 /\
  (forall content, survives (run 6 (Save (NewCheckpoint node (Some m1) None)) disk0).1 content ->
     content = Some [0] \/ content = Some [2]).
Proof.
  assert (settled (Some [0]) disk0) as Hs by (by split).
  split; [exact Hs|]. apply (save_atomic (NewCheckpoint node (Some m1) None) [2] (Some [0]) disk0 6 Hs).
  vm_compute. reflexivity.
Defined.

Lemma drain_delivers_witness :
  progress (contents (w_queue (agent [] []))) [] (run 2 (drain 3 (New "node-a" true)) (agent [] [])).1.
Proof. exact (proj1 (drain_delivers 3 2 (New "node-a" true) (agent [] []))). Defined.

Lemma record_queues_witness :
  Forall batch_ok
    (details (exec (Record_ 3 (New "node-a" true) t1 (b_Events pending)) (agent [] [])).1).
Proof.
  destruct (record_queues 3 (New "node-a" true) t1 (b_Events pending) (agent [] []))
    as (new & -> & _ & Hok & _).
  apply Hok; [vm_compute; done|done|]. apply (events_validate_ok 0). vm_compute. reflexivity.
Defined.

End DemoAgent.
