(* ===== verification/Spool.v ===== *)
(** * The spool

    [internal/agent/spool/spool.go]: the queue of batches on disk, one compressed
    file per batch, named by queueing time; eviction and compaction into minute
    summaries keep it within its limits.

    The operations are programs over system calls ([Effects]) on one directory; any
    call may fail, before or after its effect ([StateFile.fault]).  JSON with gzip is
    a parameter; so is the order in which Go ranges over a map. *)

From stdpp Require Import base strings numbers gmap sorting list.
From Stdlib Require Import Ascii SpecFloat.
From S2P Require Import Prelude GoBase GoText GoModel InterfaceCounter Sha256 Effects StateFile App.

Open Scope string_scope.
Open Scope Z_scope.
Local Open Scope flow_scope.

(** ** The directory *)

Record entry : Type := MkEntry { e_isDir : bool; e_content : list Z; e_modTime : time }.

Record dir : Type := MkDir {
  d_entries : gmap string entry;
  d_tmp : option (list Z);           (** the temporary file being written *)
  d_clock : nat -> time;             (** what the clock answers, call after call *)
  d_ticks : nat;
  d_fates : list (option fault) }.   (** the fate of the next calls *)

Record FileInfo : Type := MkFileInfo { fi_Name : string; fi_Size : Z; fi_ModTime : time }.

Inductive sys : Type -> Type :=
| Now : sys time
| SCreateTemp : sys (result string unit)
| SChmod : sys (result string unit)
| SWrite (bytes : list Z) : sys (result string unit)
| SCloseGzip : sys (result string unit)
| SSync : sys (result string unit)
| SClose : sys (result string unit)
| SRemoveTemp : sys (result string unit)
| SRename (name : string) : sys (result string unit)
| SChtimes (name : string) (t : time) : sys (result string unit)
| SOpenDir : sys (result string unit)
| SSyncDir : sys (result string unit)
| SReadDir : sys (result string (list (string * bool)))
| SInfo (name : string) : sys (result string FileInfo)
| SReadFile (name : string) : sys (result string (list Z))
| SRemove (name : string) : sys (result string unit).

Definition set_entries (m : gmap string entry) (d : dir) : dir :=
  MkDir m (d_tmp d) (d_clock d) (d_ticks d) (d_fates d).
Definition set_tmp (t : option (list Z)) (d : dir) : dir :=
  MkDir (d_entries d) t (d_clock d) (d_ticks d) (d_fates d).

(** A file renamed into place has the time the clock shows. *)
Definition sys_effect {X} (e : sys X) (d : dir) : dir * X :=
  match e with
  | Now => (MkDir (d_entries d) (d_tmp d) (d_clock d) (S (d_ticks d)) (d_fates d),
            d_clock d (d_ticks d))
  | SCreateTemp => (set_tmp (Some []) d, Ok tt)
  | SChmod | SCloseGzip | SSync | SClose | SOpenDir | SSyncDir => (d, Ok tt)
  | SWrite bytes => (set_tmp ((fun c => c ++ bytes)%list <$> d_tmp d) d, Ok tt)
  | SRemoveTemp => (set_tmp None d, Ok tt)
  | SRename name =>
      match d_tmp d, d_entries d !! name with
      | _, Some (MkEntry true _ _) => (d, Err "file exists")
      | Some c, _ =>
          (MkDir (<[name := MkEntry false c (d_clock d (d_ticks d))]> (d_entries d)) None (d_clock d)
             (d_ticks d) (d_fates d), Ok tt)
      | None, _ => (d, Err "no such file")
      end
  | SChtimes name t =>
      match d_entries d !! name with
      | Some f => (set_entries (<[name := MkEntry (e_isDir f) (e_content f) t]> (d_entries d)) d, Ok tt)
      | None => (d, Err "no such file")
      end
  | SReadDir => (d, Ok ((fun kv => (kv.1, e_isDir kv.2)) <$> map_to_list (d_entries d)))
  | SInfo name =>
      match d_entries d !! name with
      | Some f => (d, Ok (MkFileInfo name (Z.of_nat (length (e_content f))) (e_modTime f)))
      | None => (d, Err "no such file")
      end
  | SReadFile name =>
      match d_entries d !! name with
      | Some (MkEntry false c _) => (d, Ok c)
      | Some (MkEntry true _ _) => (d, Err "is a directory")
      | None => (d, Err "no such file")
      end
  | SRemove name =>
      match d_entries d !! name with
      | Some _ => (set_entries (delete name (d_entries d)) d, Ok tt)
      | None => (d, Err "no such file")
      end
  end.

(** The answer of a call that fails; reading the clock does not. *)
Definition sys_fails {X} (e : sys X) (d : dir) (what : string) : X :=
  match e with
  | Now => d_clock d (d_ticks d)
  | SReadDir => Err what
  | SInfo _ => Err what
  | SReadFile _ => Err what
  | SCreateTemp | SChmod | SWrite _ | SCloseGzip | SSync | SClose | SRemoveTemp | SRename _
  | SChtimes _ _ | SOpenDir | SSyncDir | SRemove _ => Err what
  end.

Definition sys_handle {X} (e : sys X) (d : dir) : dir * X :=
  match d_fates d with
  | [] => sys_effect e d
  | f :: fates =>
      let d := MkDir (d_entries d) (d_tmp d) (d_clock d) (d_ticks d) fates in
      match f with
      | None => sys_effect e d
      | Some (FailsBefore what) => (d, sys_fails e d what)
      | Some (FailsAfter what) => ((sys_effect e d).1, sys_fails e d what)
      end
  end.

#[export] Instance sys_handler : Handler sys dir := fun X e d => sys_handle e d.

(** ** Configuration and parameters *)

Record Spool : Type := MkSpool { sp_dir : string; sp_maxBytes : Z; sp_maxAge : duration }.

Definition defaultMaxBytes : Z := 256 * 2 ^ 20.
Definition defaultMaxAge : duration := 30 * Minute.

(** [New] with the options applied; the clock is given. *)
Definition NewSpool (s : Spool) : result string Spool :=
  if String.eqb (sp_dir s) "" || (sp_maxBytes s <=? 0) || (sp_maxAge s <=? 0)
  then Err "spool requires a directory, positive limits, and a clock" else Ok s.

(** [encoding/json] and [compress/gzip] on batches; reading takes the first value of
    the first 16 MiB. *)
Class BatchCodec : Type := {
  encode_batch : Batch -> option (list Z);
  decode_batch : list Z -> result string Batch }.

(** [summaryKey] *)
Abbreviation summaryKey := (string * time)%type.

(** The order of [range] over a map, one of its permutations. *)
Class RangeOrder : Type := {
  range : forall {V}, gmap summaryKey V -> list (summaryKey * V);
  range_perm : forall {V} (m : gmap summaryKey V), range m ≡ₚ map_to_list m }.

(** [t.Sub(u)] saturates at the bounds of [time.Duration]. *)
Definition time_Sub (t u : time) : duration := Z.max min_i64 (Z.min max_i64 (t - u)).

Definition has_suffix (s p : string) : bool :=
  bool_decide (drop (length (chars s) - length (chars p)) (chars s) = chars p).

Definition batch_suffix : string := ".json.gz".
Definition summary_prefix : string := "minute-summary:".

(** [%0wd] *)
Definition format_padded (w : nat) (z : Z) : list ascii :=
  let digits := format_uint (Z.abs z) in
  let sign := if z <? 0 then ["-"%char] else [] in
  (sign ++ replicate (w - length sign - length digits) "0"%char ++ digits)%list.

Definition batchFileName (batchID : string) (queuedAt : time) : string :=
  of_chars (format_padded 20 (UnixNano queuedAt)) +:+ "-" +:+ digest_hex batchID 8 +:+ batch_suffix.

(** [t.Unix()] *)
Definition Unix (t : time) : Z := t / Second.

Definition minuteSummaryBatchID (nodeID : string) (minute : time) : string :=
  summary_prefix +:+ digest_hex nodeID 8 +:+ ":" +:+ of_chars (format_int (Unix minute)).

Definition saturatingAdd (left right : Z) : Z :=
  if (0 <? right) && (wrap_s 64 (max_i64 - right) <? left) then max_i64 else wrap_s 64 (left + right).

Definition with_counts (e : Event) (bytes packets : Z) : Event :=
  MkEvent (ev_ID e) (ev_ObservedAt e) (ev_Kind e) (ev_Direction e) bytes packets (ev_Interface e)
    (ev_Health e) (ev_Connection e) (ev_ProxyRequest e) (ev_NameEvidence e) (ev_OwnerInventory e).

(** The incoming event as appended to a summary. *)
Definition minute_event (e : Event) (minute : time) : Event :=
  MkEvent ("minute-interface:" +:+
           digest_hex (ev_Interface e +:+ ":" +:+ ev_Direction e +:+ ":" +:+ of_chars (format_int (Unix minute))) 12)
    minute (ev_Kind e) (ev_Direction e) (ev_Bytes e) (ev_Packets e) (ev_Interface e)
    (ev_Health e) (ev_Connection e) (ev_ProxyRequest e) (ev_NameEvidence e) (ev_OwnerInventory e).

Fixpoint mergeInterfaceEvent (events : list Event) (incoming : Event) (minute : time) : list Event :=
  match events with
  | [] => [minute_event incoming minute]
  | e :: events' =>
      if String.eqb (ev_Interface e) (ev_Interface incoming) && String.eqb (ev_Direction e) (ev_Direction incoming)
      then with_counts e (saturatingAdd (ev_Bytes e) (ev_Bytes incoming))
             (saturatingAdd (ev_Packets e) (ev_Packets incoming)) :: events'
      else e :: mergeInterfaceEvent events' incoming minute
  end.

Definition interfaceOnly (b : Batch) : bool :=
  match b_Events b with
  | [] => false
  | es => forallb (fun e => String.eqb (ev_Kind e) EventInterfaceDelta) es
  end.

Definition is_summary (b : Batch) : bool := has_prefix (b_BatchID b) summary_prefix.

Definition protectedBatch (b : Batch) : bool :=
  if is_summary b || interfaceOnly b then true
  else forallb (fun e => String.eqb (ev_Kind e) EventHealth) (b_Events b) &&
       negb (match b_Events b with [] => true | _ => false end).

Definition containsString (values : list string) (wanted : string) : bool :=
  existsb (fun v => String.eqb v wanted) values.

(** ** System calls with their error returns *)

Section spool.
Context `{!BatchCodec} `{!RangeOrder} (s : Spool).

Definition io_error (context what : string) : string := context +:+ ": " +:+ what.

(** [x, err := e; if err != nil { return fmt.Errorf(context, err) }] *)
Definition or_fail {A B} (e : sys (result string A)) (context : string)
  (k : A -> prog sys (result string B)) : prog sys (result string B) :=
  let! r := call e in
  match r with
  | Err what => Ret (Err (io_error context what))
  | Ok a => k a
  end.

(** An error return of a call of the package. *)
Definition or_return {A B} (p : prog sys (result string A)) (k : A -> prog sys (result string B)) : prog sys (result string B) :=
  let! r := p in
  match r with
  | Err e => Ret (Err e)
  | Ok a => k a
  end.

(** Error returns with the deferred removal of the temporary file, after closing what
    the branch closes. *)
Definition bail {B} (closes : list (sys (result string unit))) (err : string) : prog sys (result string B) :=
  foldr (fun e p => let! _ := call e in p) (let! _ := call SRemoveTemp in Ret (Err err)) closes.

Definition or_bail {B} (e : sys (result string unit)) (closes : list (sys (result string unit)))
  (fail_text : string -> string) (k : prog sys (result string B)) : prog sys (result string B) :=
  let! r := call e in
  match r with
  | Err what => bail closes (fail_text what)
  | Ok _ => k
  end.

Definition syncDirectory : prog sys (result string unit) :=
  or_fail SOpenDir "open spool directory for sync" (fun _ =>
  or_fail SSyncDir "sync spool directory" (fun _ => Ret (Ok tt))).

Definition readBatch (name : string) : prog sys (result string Batch) :=
  or_fail (SReadFile name) "open queued batch for eviction" (fun content => Ret (decode_batch content)).

Definition info_le (a b : FileInfo) : Prop := str_le (fi_Name a) (fi_Name b).

#[export] Instance info_le_dec : RelDecision info_le.
Proof. intros a b. unfold info_le. apply _. Defined.

Fixpoint list_infos (entries : list (string * bool)) (acc : list FileInfo) : prog sys (result string (list FileInfo)) :=
  match entries with
  | [] => Ret (Ok (merge_sort info_le acc))
  | (name, isDir) :: rest =>
      if isDir || negb (has_suffix name batch_suffix) then list_infos rest acc
      else or_fail (SInfo name) "stat queued batch" (fun info => list_infos rest (acc ++ [info])%list)
  end.

Definition files : prog sys (result string (list FileInfo)) :=
  or_fail SReadDir "list spool directory" (fun entries => list_infos entries []).

(** ** Compaction *)

Definition minute_of (e : Event) : time := Truncate (ev_ObservedAt e) Minute.

(** [eventsByMinute] *)
Definition group_by_minute (node : string) (events : list Event) : gmap summaryKey (list Event) :=
  foldl (fun m e => <[(node, minute_of e) := (default [] (m !! (node, minute_of e)) ++ [e])%list]> m) ∅ events.

Definition new_summary (key : summaryKey) : Batch :=
  MkBatch 1 (minuteSummaryBatchID key.1 key.2) key.1 key.2 [] [].

(** The body of the loop over [eventsByMinute]. *)
Definition compact_minute (batchID : string) (summaries : gmap summaryKey Batch)
  (kv : summaryKey * list Event) : gmap summaryKey Batch :=
  let '(key, events) := kv in
  let summary := default (new_summary key) (summaries !! key) in
  if containsString (b_CompactedBatchIDs summary) batchID then summaries
  else
    let merged := foldl (fun acc e => mergeInterfaceEvent acc e key.2) (b_Events summary) events in
    <[key := MkBatch (b_SchemaVersion summary) (b_BatchID summary) (b_NodeID summary) (b_SentAt summary) merged
               (sort_strings (b_CompactedBatchIDs summary ++ [batchID])%list)]> summaries.

Definition compact_batch (batch : Batch) (summaries : gmap summaryKey Batch) : gmap summaryKey Batch :=
  foldl (compact_minute (b_BatchID batch)) summaries (range (group_by_minute (b_NodeID batch) (b_Events batch))).

Fixpoint scan (infos : list FileInfo) (summaries : gmap summaryKey Batch) (remove : list string)
  : prog sys (result string (gmap summaryKey Batch * list string)) :=
  match infos with
  | [] => Ret (Ok (summaries, remove))
  | file :: rest =>
      or_return (readBatch (fi_Name file)) (fun batch =>
      if is_summary batch then
        match b_Events batch with
        | [] => scan rest summaries remove
        | e :: _ => scan rest (<[(b_NodeID batch, minute_of e) := batch]> summaries) remove
        end
      else
        let! now := call Now in
        if (time_Sub now (fi_ModTime file) <=? sp_maxAge s) || negb (interfaceOnly batch)
        then scan rest summaries remove
        else scan rest (compact_batch batch summaries) (remove ++ [fi_Name file])%list)
  end.

(** [writeBatchFile]; its deferred removal runs on every path. *)
Definition writeBatchFile (name : string) (batch : Batch) (queuedAt : time) : prog sys (result string unit) :=
  match Validate batch with
  | Err _ => Ret (Err "validate compacted batch")
  | Ok _ =>
      or_fail SCreateTemp "create compacted batch" (fun _ =>
      or_bail SChmod [] (fun what => what) (
      match encode_batch batch with
      | None => bail [SCloseGzip; SClose] "encode compacted batch"
      | Some bytes =>
          or_bail (SWrite bytes) [SCloseGzip; SClose] (io_error "encode compacted batch") (
          or_bail SCloseGzip [SClose] (fun what => what) (
          or_bail SSync [SClose] (fun what => what) (
          or_bail SClose [] (fun what => what) (
          or_bail (SRename name) [] (io_error "publish compacted batch") (
          or_bail (SChtimes name queuedAt) [] (io_error "set compacted batch time") (
          let! _ := call SRemoveTemp in
          Ret (Ok tt)))))))
      end))
  end.

Fixpoint write_summaries (summaries : list (summaryKey * Batch)) : prog sys (result string unit) :=
  match summaries with
  | [] => Ret (Ok tt)
  | (key, summary) :: rest =>
      or_return (writeBatchFile (batchFileName (b_BatchID summary) key.2) summary key.2) (fun _ =>
      write_summaries rest)
  end.

Fixpoint remove_all (names : list string) : prog sys (result string unit) :=
  match names with
  | [] => Ret (Ok tt)
  | name :: rest => or_fail (SRemove name) "remove compacted interface batch" (fun _ => remove_all rest)
  end.

Definition compactExpiredInterfaces (infos : list FileInfo) : prog sys (result string unit) :=
  or_return (scan infos ∅ []) (fun '(summaries, remove) =>
  match remove with
  | [] => Ret (Ok tt)
  | _ =>
      or_return (write_summaries (range summaries)) (fun _ =>
      or_return syncDirectory (fun _ =>
      or_return (remove_all remove) (fun _ =>
      syncDirectory)))
  end).

(** ** Eviction *)

(** The inner loop of [prune]: the first file to evict with the files around it. *)
Fixpoint find_candidate (total : Z) (before infos : list FileInfo)
  : prog sys (result string (option (list FileInfo * FileInfo * list FileInfo))) :=
  match infos with
  | [] => Ret (Ok None)
  | file :: rest =>
      let! now := call Now in
      if negb (sp_maxAge s <? time_Sub now (fi_ModTime file)) && (total <=? sp_maxBytes s)
      then find_candidate total (before ++ [file])%list rest
      else
        or_return (readBatch (fi_Name file)) (fun batch =>
        if protectedBatch batch then find_candidate total (before ++ [file])%list rest
        else Ret (Ok (Some (before, file, rest))))
  end.

(** The outer loop, once per file at most: files, their total size and the report. *)
Fixpoint evict (fuel : nat) (infos : list FileInfo) (total : Z) (report : DropReport)
  : prog sys (result string (list FileInfo * Z * DropReport)) :=
  match fuel with
  | O => Ret (Ok (infos, total, report))
  | S fuel' =>
      if (length infos <=? 1)%nat then Ret (Ok (infos, total, report))
      else
        or_return (find_candidate total [] infos) (fun found =>
        match found with
        | None => Ret (Ok (infos, total, report))
        | Some (before, dropped, after) =>
            or_return (readBatch (fi_Name dropped)) (fun batch =>
            or_fail (SRemove (fi_Name dropped)) "evict queued batch" (fun _ =>
            evict fuel' (before ++ after)%list (total - fi_Size dropped)
              (MkDropReport "data_gap" (dr_DroppedBatches report + 1)
                 (dr_DroppedEvents report + Z.of_nat (length (b_Events batch))) (dr_UsagePercent report))))
        end)
  end.

(** [math.Max], [math.Min] *)
Definition f64_max (x y : float64) : float64 :=
  match x, y with
  | S754_infinity false, _ | _, S754_infinity false => S754_infinity false
  | S754_nan, _ | _, S754_nan => S754_nan
  | S754_zero sx, S754_zero _ => if sx then y else x
  | _, _ => if f64_ltb y x then x else y
  end.
Definition f64_min (x y : float64) : float64 :=
  match x, y with
  | S754_infinity true, _ | _, S754_infinity true => S754_infinity true
  | S754_nan, _ | _, S754_nan => S754_nan
  | S754_zero sx, S754_zero _ => if sx then x else y
  | _, _ => if f64_ltb x y then x else y
  end.

Definition usage_percent (total : Z) (age : duration) : float64 :=
  let byteUsage := f64_div (f64_of_Z total) (f64_of_Z (sp_maxBytes s)) in
  let ageUsage := f64_div (f64_of_Z (if age <? 0 then 0 else age)) (f64_of_Z (sp_maxAge s)) in
  f64_min (f64_of_Z 100) (f64_mul (f64_max byteUsage ageUsage) (f64_of_Z 100)).

Definition prune : prog sys (result string DropReport) :=
  or_return files (fun infos =>
  or_return (compactExpiredInterfaces infos) (fun _ =>
  or_return files (fun infos =>
  or_return (evict (length infos) infos (sumZ fi_Size infos) (MkDropReport "" 0 0 (f64_of_Z 0))) (fun '(infos, total, report) =>
  or_return (if 0 <? dr_DroppedBatches report then syncDirectory else Ret (Ok tt)) (fun _ =>
  match infos with
  | [] => Ret (Ok report)
  | file :: _ =>
      let! now := call Now in
      Ret (Ok (MkDropReport (dr_Code report) (dr_DroppedBatches report) (dr_DroppedEvents report)
                 (usage_percent total (time_Sub now (fi_ModTime file)))))
  end))))).

(** ** The queue *)

(** [Enqueue] up to the call of [prune]. *)
Definition publish (batch : Batch) : prog sys (result string unit) :=
  match Validate batch with
  | Err _ => Ret (Err "validate queued batch")
  | Ok _ =>
      let! queuedAt := call Now in
      let name := batchFileName (b_BatchID batch) queuedAt in
      or_fail SCreateTemp "create spool temporary file" (fun _ =>
      or_bail SChmod [SClose] (io_error "secure spool temporary file") (
      match encode_batch batch with
      | None => bail [SCloseGzip; SClose] "encode queued batch"
      | Some bytes =>
          or_bail (SWrite bytes) [SCloseGzip; SClose] (io_error "encode queued batch") (
          or_bail SCloseGzip [SClose] (io_error "close queued gzip stream") (
          or_bail SSync [SClose] (io_error "sync queued batch") (
          or_bail SClose [] (io_error "close queued batch") (
          or_bail (SRename name) [] (io_error "publish queued batch") (
          or_fail (SChtimes name queuedAt) "set queued batch time" (fun _ =>
          syncDirectory))))))
      end))
  end.

Definition Enqueue (batch : Batch) : prog sys (result string DropReport) :=
  or_return (publish batch) (fun _ => prune).

Definition path_of (name : string) : string := sp_dir s +:+ "/" +:+ name.

Definition Peek : prog sys (result string (option Item)) :=
  or_return files (fun infos =>
  match infos with
  | [] => Ret (Ok None)
  | file :: _ =>
      or_fail (SReadFile (fi_Name file)) "open queued batch" (fun content =>
      match decode_batch content with
      | Err e => Ret (Err e)
      | Ok batch =>
          match Validate batch with
          | Err _ => Ret (Err "validate queued batch")
          | Ok _ => Ret (Ok (Some (MkItem batch (path_of (fi_Name file)))))
          end
      end)
  end).

(** [filepath.Split] of a path of the directory. *)
Definition name_in (path : string) : option string :=
  let prefix := chars (sp_dir s +:+ "/") in
  let rest := drop (length prefix) (chars path) in
  if bool_decide (take (length prefix) (chars path) = prefix) && negb (bool_decide ("/"%char ∈ rest))
  then Some (of_chars rest) else None.

Definition Ack (item : Item) : prog sys (result string unit) :=
  match name_in (it_path item) with
  | Some name =>
      if has_suffix (it_path item) batch_suffix then
        or_fail (SRemove name) "remove acknowledged batch" (fun _ => syncDirectory)
      else Ret (Err "queued item does not belong to this spool")
  | None => Ret (Err "queued item does not belong to this spool")
  end.
End spool.
