(* ===== verification/SpoolSums.v ===== *)
(** * What compaction conserves

    The pure part of the spool's compaction: merging events into a minute summary
    adds their bytes, and the bytes of a minute (its summary plus the batches the
    summary does not list) do not change when a batch is merged. *)

From stdpp Require Import base strings numbers gmap sets sorting list.
From Stdlib Require Import Ascii.
From S2P Require Import Prelude GoBase GoText GoModel InterfaceCounter Sha256 Spool.

Open Scope string_scope.
Open Scope Z_scope.
Local Open Scope flow_scope.
Local Open Scope list_scope.

(** ** Merging events *)

Section bytes.
Context (n : string) (d : counted).

Definition events_bytes (es : list Event) : Z := sumZ (event_bytes n d) es.

(** Counts of a stored event. *)
Definition counts_ok (e : Event) : Prop := 0 <= ev_Bytes e <= max_i64 /\ 0 <= ev_Packets e <= max_i64.

Lemma event_bytes_nonneg e : counts_ok e -> 0 <= event_bytes n d e.
Proof. intros [H _]. unfold event_bytes. destruct (_ && _); lia. Qed.

Lemma events_bytes_nonneg es : Forall counts_ok es -> 0 <= events_bytes es.
Proof. rewrite Forall_forall. intros H. apply sumZ_nonneg. intros e He. by apply event_bytes_nonneg, H. Qed.

Lemma saturatingAdd_exact a b : 0 <= a <= max_i64 -> 0 <= b <= max_i64 ->
  saturatingAdd a b = Z.min max_i64 (a + b).
Proof.
  unfold saturatingAdd, max_i64. intros Ha Hb. rewrite (wrap_s_id 64 (2 ^ 63 - 1 - b)) by (unfold in_s; lia).
  destruct (Z.ltb_spec 0 b); simpl.
  - destruct (Z.ltb_spec (2 ^ 63 - 1 - b) a); [lia|]. rewrite wrap_s_id by (unfold in_s; lia). lia.
  - rewrite wrap_s_id by (unfold in_s; lia). lia.
Qed.

Lemma saturatingAdd_bounded a b : 0 <= a <= max_i64 -> 0 <= b <= max_i64 -> 0 <= saturatingAdd a b <= max_i64.
Proof. intros. rewrite saturatingAdd_exact by done. lia. Qed.

Lemma merge_counts es e minute : Forall counts_ok es -> counts_ok e ->
  Forall counts_ok (mergeInterfaceEvent es e minute).
Proof.
  intros Hes He. induction Hes as [|x es Hx Hes IH]; simpl; [by apply Forall_singleton|].
  destruct (_ && _); constructor; try done. destruct Hx, He. split; by apply saturatingAdd_bounded.
Qed.

Lemma event_bytes_with_counts e b p :
  event_bytes n d (with_counts e b p) =
  if String.eqb (ev_Interface e) n && String.eqb (ev_Direction e) (dir_name d) then b else 0.
Proof. reflexivity. Qed.

(** Merging adds the bytes of the incoming event, as long as the sum fits. *)
Lemma merge_bytes es e minute : Forall counts_ok es -> counts_ok e ->
  events_bytes es + event_bytes n d e <= max_i64 ->
  events_bytes (mergeInterfaceEvent es e minute) = events_bytes es + event_bytes n d e.
Proof.
  unfold events_bytes. intros Hes He Hb. induction Hes as [|x es Hx Hes IH]; simpl in *.
  { unfold event_bytes. simpl. lia. }
  pose proof (event_bytes_nonneg x Hx) as H0. pose proof (events_bytes_nonneg es Hes) as H1.
  unfold events_bytes in H1.
  destruct (String.eqb (ev_Interface x) (ev_Interface e) && String.eqb (ev_Direction x) (ev_Direction e)) eqn:E;
    simpl; [|rewrite IH; lia].
  rewrite event_bytes_with_counts. apply andb_true_iff in E as [E1%String.eqb_eq E2%String.eqb_eq].
  unfold event_bytes in *. rewrite E1, E2 in *.
  destruct (String.eqb (ev_Interface e) n && String.eqb (ev_Direction e) (dir_name d)); [|lia].
  destruct Hx, He. rewrite saturatingAdd_exact by done. lia.
Qed.

Definition merge_all (minute : time) : list Event -> list Event -> list Event :=
  foldl (fun acc e => mergeInterfaceEvent acc e minute).

Lemma merge_all_counts minute es new : Forall counts_ok es -> Forall counts_ok new ->
  Forall counts_ok (merge_all minute es new).
Proof.
  intros Hes Hnew. revert es Hes. induction Hnew as [|e new He Hnew IH]; intros es Hes; [done|].
  apply IH. by apply merge_counts.
Qed.

Lemma merge_all_bytes minute es new : Forall counts_ok es -> Forall counts_ok new ->
  events_bytes es + events_bytes new <= max_i64 ->
  events_bytes (merge_all minute es new) = events_bytes es + events_bytes new.
Proof.
  intros Hes Hnew. revert es Hes. induction Hnew as [|e new He Hnew IH]; intros es Hes Hb; [simpl; lia|].
  pose proof (events_bytes_nonneg new Hnew) as H0.
  change (events_bytes (e :: new)) with (event_bytes n d e + events_bytes new) in *.
  cbn [merge_all foldl]. change (foldl _ ?a new) with (merge_all minute a new).
  rewrite IH, (merge_bytes es e minute); try done; [lia|lia|by apply merge_counts|].
  rewrite (merge_bytes es e minute); try done; lia.
Qed.
End bytes.

(** ** Grouping by minute *)

Lemma group_by_minute_spec node es m :
  group_by_minute node es !! (node, m) =
  match filter (fun e => minute_of e = m) es with [] => None | l => Some l end.
Proof.
  unfold group_by_minute. induction es as [|e es IH] using rev_ind; [done|].
  rewrite foldl_app, filter_app. cbn [foldl]. rewrite filter_cons, filter_nil.
  destruct (decide (minute_of e = m)) as [<-|Hm].
  - rewrite lookup_insert_eq. unfold time in *. rewrite IH.
    by destruct (filter _ es).
  - rewrite lookup_insert_ne by congruence. rewrite IH. by rewrite app_nil_r.
Qed.

Lemma group_by_minute_node node es key : is_Some (group_by_minute node es !! key) -> key.1 = node.
Proof.
  unfold group_by_minute. induction es as [|e es IH] using rev_ind; [simpl; rewrite lookup_empty; by intros []|].
  rewrite foldl_app. cbn [foldl]. destruct (decide (key = (node, minute_of e))) as [->|Hk]; [done|].
  by rewrite lookup_insert_ne.
Qed.

(** ** The loop over the minutes of a batch *)

(** What the loop does to one key. *)
Definition merged_summary (id : string) (key : summaryKey) (so : option Batch) (es : list Event) : option Batch :=
  let summary := default (new_summary key) so in
  if containsString (b_CompactedBatchIDs summary) id then so
  else Some (MkBatch (b_SchemaVersion summary) (b_BatchID summary) (b_NodeID summary) (b_SentAt summary)
               (merge_all key.2 (b_Events summary) es) (sort_strings (b_CompactedBatchIDs summary ++ [id]))).

Lemma compact_minute_lookup id m key es k :
  compact_minute id m (key, es) !! k = if decide (k = key) then merged_summary id key (m !! key) es else m !! k.
Proof.
  unfold compact_minute, merged_summary. case_decide as Hk; [subst k|].
  - destruct (containsString _ id); [done|]. by rewrite lookup_insert_eq.
  - destruct (containsString _ id); [done|]. by rewrite lookup_insert_ne.
Qed.

Lemma compact_fold id m l k : NoDup (fst <$> l) ->
  foldl (compact_minute id) m l !! k =
  match (list_to_map l : gmap summaryKey (list Event)) !! k with
  | Some es => merged_summary id k (m !! k) es
  | None => m !! k
  end.
Proof.
  revert m. induction l as [|[key es] l IH]; intros m Hl; [done|].
  rewrite fmap_cons in Hl. apply NoDup_cons in Hl as [Hn Hl]. cbn [foldl]. rewrite IH by done.
  rewrite compact_minute_lookup. simpl list_to_map. destruct (decide (k = key)) as [->|Hk].
  - rewrite lookup_insert_eq. rewrite (not_elem_of_list_to_map_1 l key) by done. done.
  - by rewrite lookup_insert_ne.
Qed.

Lemma compact_batch_lookup `{!RangeOrder} b m k :
  compact_batch b m !! k =
  match group_by_minute (b_NodeID b) (b_Events b) !! k with
  | Some es => merged_summary (b_BatchID b) k (m !! k) es
  | None => m !! k
  end.
Proof.
  unfold compact_batch. set (g := group_by_minute (b_NodeID b) (b_Events b)).
  pose proof (range_perm g) as Hp.
  assert (NoDup (fst <$> range g)) as Hn by (rewrite Hp; apply NoDup_fst_map_to_list).
  rewrite compact_fold by exact Hn. by rewrite (list_to_map_proper _ _ Hn Hp), list_to_map_to_list.
Qed.

Lemma containsString_spec l x : containsString l x = true <-> x ∈ l.
Proof.
  unfold containsString. rewrite existsb_exists. split.
  - intros (y & Hy & ->%String.eqb_eq). by apply list_elem_of_In.
  - intros Hx. exists x. split; [by apply list_elem_of_In|apply String.eqb_refl].
Qed.

(** ** The bytes of a minute *)

Definition summary_name (node : string) (minute : time) : string :=
  batchFileName (minuteSummaryBatchID node minute) minute.

(** The distinct batches of a directory that are not summaries. *)
Definition originals (D : gmap string Batch) : list Batch :=
  remove_dups (filter (fun b => is_summary b = false) (map_to_list D).*2).

Lemma elem_of_originals D b : b ∈ originals D <-> is_summary b = false /\ exists f, D !! f = Some b.
Proof.
  unfold originals. rewrite elem_of_remove_dups, list_elem_of_filter, list_elem_of_fmap.
  split; intros [Hb H]; (split; [done|]).
  - destruct H as ([f b'] & -> & Hf%elem_of_map_to_list). by exists f.
  - destruct H as [f Hf]. exists (f, b). split; [done|]. by apply elem_of_map_to_list.
Qed.

Lemma NoDup_originals D : NoDup (originals D).
Proof. apply NoDup_remove_dups. Qed.

Section totals.
Context (n : string) (d : counted).

Definition minute_events (minute : time) (b : Batch) : list Event := filter (fun e => minute_of e = minute) (b_Events b).

(** The batches a summary stands for, if there is one. *)
Definition listed (so : option Batch) : list string := from_option b_CompactedBatchIDs [] so.

(** What a batch adds to a minute beside its summary. *)
Definition unlisted_bytes (minute : time) (so : option Batch) (b : Batch) : Z :=
  if containsString (listed so) (b_BatchID b) then 0 else events_bytes n d (minute_events minute b).

Definition bytes_with (minute : time) (so : option Batch) (bs : list Batch) : Z :=
  events_bytes n d (from_option b_Events [] so) + sumZ (unlisted_bytes minute so) bs.

(** The bytes of a direction of an interface the directory holds for a minute: those
    of the summary and of the batches it does not list. *)
Definition minute_total (node : string) (D : gmap string Batch) (minute : time) : Z :=
  bytes_with minute (D !! summary_name node minute) (originals D).

Definition batch_counts (b : Batch) : Prop := Forall counts_ok (b_Events b).

Lemma minute_events_counts minute b : batch_counts b -> Forall counts_ok (minute_events minute b).
Proof. unfold batch_counts, minute_events. rewrite !Forall_forall. intros H e [_ He]%list_elem_of_filter. by apply H. Qed.

Lemma unlisted_nonneg minute so b : batch_counts b -> 0 <= unlisted_bytes minute so b.
Proof.
  intros Hb. unfold unlisted_bytes. destruct (containsString _ _); [done|].
  by apply events_bytes_nonneg, minute_events_counts.
Qed.

(** Merging a batch into the summary of a minute. *)
Lemma merged_bytes node minute so b bs :
  NoDup bs -> b ∈ bs -> (forall c, c ∈ bs -> b_BatchID c = b_BatchID b -> c = b) ->
  (forall c, c ∈ bs -> batch_counts c) -> Forall counts_ok (from_option b_Events [] so) ->
  bytes_with minute so bs <= max_i64 ->
  bytes_with minute (merged_summary (b_BatchID b) (node, minute) so (minute_events minute b)) bs =
  bytes_with minute so bs.
Proof.
  intros Hnd Hb Hid Hcs Hso Hmax. unfold merged_summary. change (node, minute).2 with minute.
  assert (b_Events (default (new_summary (node, minute)) so) = from_option b_Events [] so) as -> by (by destruct so).
  assert (b_CompactedBatchIDs (default (new_summary (node, minute)) so) = listed so) as -> by (by destruct so).
  destruct (containsString (listed so) (b_BatchID b)) eqn:E; [done|].
  assert (sumZ (unlisted_bytes minute so) bs - sumZ (unlisted_bytes minute (Some
            (MkBatch (b_SchemaVersion (default (new_summary (node, minute)) so))
              (b_BatchID (default (new_summary (node, minute)) so)) (b_NodeID (default (new_summary (node, minute)) so))
              (b_SentAt (default (new_summary (node, minute)) so))
              (merge_all minute (from_option b_Events [] so) (minute_events minute b))
              (sort_strings (listed so ++ [b_BatchID b]))))) bs = events_bytes n d (minute_events minute b)) as Hch.
  { rewrite (sumZ_change _ _ bs b); [|done|done|].
    - unfold unlisted_bytes. simpl listed. rewrite E.
      assert (containsString (sort_strings (listed so ++ [b_BatchID b])) (b_BatchID b) = true) as ->; [|lia].
      apply containsString_spec. rewrite sort_strings_perm. set_solver.
    - intros c Hc Hne. unfold unlisted_bytes. simpl listed.
      assert (containsString (sort_strings (listed so ++ [b_BatchID b])) (b_BatchID c) =
              containsString (listed so) (b_BatchID c)) as ->; [|done].
      apply eq_true_iff_eq. rewrite !containsString_spec, sort_strings_perm, elem_of_app, list_elem_of_singleton.
      split; [|tauto]. intros [?|H]; [done|]. destruct Hne. by apply Hid. }
  assert (0 <= sumZ (unlisted_bytes minute so) bs - events_bytes n d (minute_events minute b)) as Hrest.
  { rewrite <- Hch. match goal with |- 0 <= _ - (_ - ?x) => enough (0 <= x) by lia end.
    apply sumZ_nonneg. intros c Hc. by apply unlisted_nonneg, Hcs. }
  unfold bytes_with in *. cbn [from_option b_Events].
  rewrite merge_all_bytes; [lia|done|by apply minute_events_counts, Hcs|lia].
Qed.
End totals.

(** ** Names *)

Lemma parse_digits_zeros max k cs : 0 <= max ->
  parse_digits max 0 (replicate k "0"%char ++ cs) = parse_digits max 0 cs.
Proof.
  intros Hm. induction k as [|k IH]; [done|]. cbn [replicate app parse_digits].
  change (is_digit "0") with true. change (0 * 10 + (code "0" - 48)) with 0. cbn iota.
  by rewrite (proj2 (Z.ltb_ge max 0)).
Qed.

Lemma format_padded_parse z : 0 <= z <= max_u64 -> ParseUint (format_padded 20 z) = Some z.
Proof.
  intros Hz. unfold format_padded. rewrite (proj2 (Z.ltb_ge z 0)), Z.abs_eq by lia. cbn [app].
  pose proof (ParseUint_format z Hz) as Hp. unfold ParseUint in *.
  destruct (format_uint z) as [|c cs] eqn:E; [done|].
  destruct (replicate _ _ ++ c :: cs) eqn:E'; [by destruct (replicate _ _)|].
  rewrite <- E', parse_digits_zeros by (unfold max_u64; lia). done.
Qed.

Lemma format_padded_length z : 0 <= z -> length (format_padded 20 z) = 20%nat.
Proof.
  intros Hz. unfold format_padded. rewrite (proj2 (Z.ltb_ge z 0)), Z.abs_eq by lia.
  rewrite !length_app, length_replicate. simpl length.
  pose proof (digits_rev_length 20 z) as H. unfold format_uint. rewrite length_reverse. lia.
Qed.

(** Times after 1970 whose nanoseconds fit in [int64]. *)
Definition in_clock (t : time) : Prop := 0 <= t <= max_i64.

Lemma batchFileName_time id t id' t' : in_clock t -> in_clock t' ->
  batchFileName id t = batchFileName id' t' -> t = t'.
Proof.
  unfold in_clock, max_i64. intros Ht Ht' E. apply (f_equal chars) in E. unfold batchFileName in E.
  rewrite !chars_app, !chars_of_chars in E. unfold UnixNano in E.
  rewrite !wrap_s_id in E by (unfold in_s; lia).
  apply app_inj_1 in E as [E _]; [|by rewrite !format_padded_length by lia].
  apply (f_equal ParseUint) in E. rewrite !format_padded_parse in E by (unfold max_u64; lia). congruence.
Qed.

Lemma batchFileName_suffix id t : has_suffix (batchFileName id t) batch_suffix = true.
Proof.
  unfold has_suffix, batchFileName. apply bool_decide_eq_true. rewrite !chars_app, !length_app.
  set (a := chars (of_chars _)). set (b := chars "-"). set (c := chars (digest_hex id 8)).
  replace (length a + (length b + (length c + length (chars batch_suffix))) - length (chars batch_suffix))%nat
    with (length (a ++ b ++ c)) by (rewrite !length_app; lia).
  by rewrite !app_assoc, <- (app_assoc a b c), drop_app_length.
Qed.

(** Minutes a summary can be made for. *)
Definition minute_ok (m : time) : Prop := in_clock m /\ Truncate m Minute = m.

Lemma Truncate_idem t : Truncate (Truncate t Minute) Minute = Truncate t Minute.
Proof.
  unfold Truncate, Minute, Second. set (z := zero_time).
  replace (t - (t - z) mod (60 * 1000000000) - z) with ((t - z) / (60 * 1000000000) * (60 * 1000000000)).
  - rewrite Z.mod_mul by lia. lia.
  - pose proof (Z.div_mod (t - z) (60 * 1000000000)). lia.
Qed.

Lemma minute_of_ok e : in_clock (ev_ObservedAt e) -> minute_ok (minute_of e).
Proof.
  unfold in_clock, minute_ok, minute_of. intros Ht. split; [|apply Truncate_idem].
  unfold in_clock, Truncate, Minute, Second, zero_time, Second in *.
  pose proof (Z.mod_pos_bound (ev_ObservedAt e - -62135596800 * 1000000000) (60 * 1000000000) ltac:(lia)).
  split; [|lia].
  assert ((ev_ObservedAt e - -62135596800 * 1000000000) mod (60 * 1000000000) = ev_ObservedAt e mod (60 * 1000000000)) as ->.
  { replace (ev_ObservedAt e - -62135596800 * 1000000000)
      with (ev_ObservedAt e + 1035593280 * (60 * 1000000000)) by lia. apply Z.mod_add. lia. }
  pose proof (Z.mod_le (ev_ObservedAt e) (60 * 1000000000) ltac:(lia) ltac:(lia)). lia.
Qed.

Lemma summary_name_inj node m m' : minute_ok m -> minute_ok m' -> summary_name node m = summary_name node m' -> m = m'.
Proof. intros [? _] [? _]. by apply batchFileName_time. Qed.
