(* ===== verification/SpoolWf.v ===== *)
(** * Well-formed spools and what keeps their totals

    The condition on the batches of a spool under which compaction and eviction keep
    every minute's bytes, and the relation between the batches before and after that
    every step of them maintains. *)

From stdpp Require Import base strings numbers gmap sets sorting list.
From Stdlib Require Import Ascii.
From S2P Require Import Prelude GoBase GoText GoModel InterfaceCounter Sha256 Spool SpoolSums.

Open Scope string_scope.
Open Scope Z_scope.
Local Open Scope flow_scope.
Local Open Scope list_scope.

Section wf.
Context {order : RangeOrder} (n : string) (d : counted) (node : string).

Abbreviation sname := (summary_name node).

(** A summary of minute [m]. *)
Record summary_ok (m : time) (s : Batch) : Prop := {
  so_id : b_BatchID s = minuteSummaryBatchID node m;
  so_node : b_NodeID s = node;
  so_events : b_Events s <> [];
  so_minute : Forall (fun e => minute_of e = m) (b_Events s);
  so_counts : batch_counts s }.

(** The batches of one node; summaries are where compaction looks for them; batches
    with one identifier are one batch; an interface batch was queued after the start
    of every minute it has events of. *)
Record WF (B : gmap string Batch) : Prop := {
  wf_node f b : B !! f = Some b -> b_NodeID b = node;
  wf_counts f b : B !! f = Some b -> batch_counts b;
  wf_clock f b e : B !! f = Some b -> e ∈ b_Events b -> in_clock (ev_ObservedAt e);
  wf_same f g b c : B !! f = Some b -> B !! g = Some c -> is_summary b = false -> is_summary c = false ->
    b_BatchID b = b_BatchID c -> b = c;
  wf_summary f s : B !! f = Some s -> is_summary s = true -> exists m, minute_ok m /\ f = sname m /\ summary_ok m s;
  wf_order f b e : B !! f = Some b -> is_summary b = false -> interfaceOnly b = true -> e ∈ b_Events b ->
    str_le (sname (minute_of e)) f;
  wf_apart f b m : B !! f = Some b -> is_summary b = false -> minute_ok m -> f <> sname m;
  wf_others f b : B !! f = Some b -> is_summary b = false -> interfaceOnly b = false ->
    Forall (fun e => event_bytes n d e = 0) (b_Events b) }.

Lemma summary_id_prefix m : is_summary (MkBatch 1 (minuteSummaryBatchID node m) node m [] []) = true.
Proof.
  unfold is_summary, minuteSummaryBatchID. simpl.
  generalize (digest_hex node 8 +:+ ":" +:+ of_chars (format_int (Unix m))). by intros [].
Qed.

Lemma summary_ok_summary m s : summary_ok m s -> is_summary s = true.
Proof. intros [Hid _ _ _ _]. pose proof (summary_id_prefix m) as Hp. unfold is_summary in *. by rewrite Hid. Qed.

(** Directory [cur] came out of [B] by compacting and evicting. *)
Record Derived (B cur : gmap string Batch) : Prop := {
  dv_orig f b : cur !! f = Some b -> is_summary b = false -> B !! f = Some b;
  dv_gone f b : B !! f = Some b -> is_summary b = false ->
    (exists g, cur !! g = Some b) \/ (forall m, minute_ok m -> unlisted_bytes n d m (cur !! sname m) b = 0);
  dv_with m : minute_ok m -> bytes_with n d m (cur !! sname m) (originals B) = minute_total n d node B m;
  dv_summary f s : cur !! f = Some s -> is_summary s = true -> exists m, minute_ok m /\ f = sname m /\ summary_ok m s;
  dv_clock f b e : cur !! f = Some b -> e ∈ b_Events b -> in_clock (ev_ObservedAt e) }.

Lemma Derived_refl B : WF B -> Derived B B.
Proof. intros HB. constructor; try done; [by left; exists f|apply HB|apply HB]. Qed.

(** The totals of the minutes are kept. *)
Lemma Derived_total B cur m : Derived B cur -> minute_ok m ->
  minute_total n d node cur m = minute_total n d node B m.
Proof.
  intros HD Hm. rewrite <- (dv_with _ _ HD m Hm). unfold minute_total, bytes_with. f_equal.
  apply sumZ_subset; [apply NoDup_originals..| |].
  - intros b [Hb [f Hf]]%elem_of_originals. apply elem_of_originals. split; [done|]. exists f. by apply HD.
  - intros b [Hb [f Hf]]%elem_of_originals Hn. destruct (dv_gone _ _ HD f b Hf Hb) as [[g Hg]|H]; [|by apply H].
    destruct Hn. apply elem_of_originals. eauto.
Qed.

Lemma Derived_WF B cur : WF B -> Derived B cur -> WF cur.
Proof.
  intros HB HD.
  assert (forall f b, cur !! f = Some b -> (is_summary b = false /\ B !! f = Some b) \/ (exists m, summary_ok m b)) as Hcase.
  { intros f b Hf. destruct (is_summary b) eqn:E; [right|left; split; [done|by apply HD]].
    destruct (dv_summary _ _ HD f b Hf E) as (m & _ & _ & H). eauto. }
  constructor.
  - intros f b Hf. destruct (Hcase f b Hf) as [[_ H]|[m H]]; [by apply (wf_node _ HB f)|apply H].
  - intros f b Hf. destruct (Hcase f b Hf) as [[_ H]|[m H]]; [by apply (wf_counts _ HB f)|apply H].
  - apply HD.
  - intros f g b c Hf Hg Hb Hc. apply (wf_same _ HB f g); try done; by apply HD.
  - apply HD.
  - intros f b e Hf Hb. apply (wf_order _ HB f); [by apply HD|done].
  - intros f b m Hf Hb. apply (wf_apart _ HB f b); [by apply HD|done].
  - intros f b Hf Hb. apply (wf_others _ HB f); [by apply HD|done].
Qed.

(** ** Scanning *)

Abbreviation names := (fun infos : list FileInfo => fi_Name <$> infos).

(** The summary of a minute as compaction will leave it. *)
Definition planned (B : gmap string Batch) (M : gmap summaryKey Batch) (m : time) : option Batch :=
  match M !! (node, m) with Some s => Some s | None => B !! sname m end.

Record ScanInv (B : gmap string Batch) (rest : list FileInfo) (M : gmap summaryKey Batch) (rem : list string) : Prop := {
  si_keys k s : M !! k = Some s -> k.1 = node /\ minute_ok k.2 /\ summary_ok k.2 s /\
    Forall (fun e => in_clock (ev_ObservedAt e)) (b_Events s);
  si_total m : minute_ok m -> bytes_with n d m (planned B M m) (originals B) = minute_total n d node B m;
  si_rest m s : minute_ok m -> B !! sname m = Some s -> sname m ∈ names rest -> M !! (node, m) = None;
  si_loaded m s : minute_ok m -> B !! sname m = Some s -> sname m ∈ names rest \/ is_Some (M !! (node, m));
  si_rem f : f ∈ rem -> exists b, B !! f = Some b /\ is_summary b = false /\
    Forall (fun e => b_BatchID b ∈ listed (M !! (node, minute_of e))) (b_Events b) }.

Lemma ScanInv_start B infos : (forall f b, B !! f = Some b -> f ∈ names infos) -> ScanInv B infos ∅ [].
Proof.
  intros Hall. constructor.
  - intros k s Hk. by rewrite lookup_empty in Hk.
  - intros m Hm. unfold planned. by rewrite lookup_empty.
  - intros. apply lookup_empty.
  - intros m s Hm Hs. left. by apply (Hall _ s).
  - intros f Hf. by apply elem_of_nil in Hf.
Qed.

(** A file that stays. *)
Lemma ScanInv_skip B file rest M rem b : WF B -> B !! fi_Name file = Some b -> is_summary b = false ->
  ScanInv B (file :: rest) M rem -> ScanInv B rest M rem.
Proof.
  intros HB Hf Hb HI. constructor; try apply HI.
  - intros m s Hm Hs Hin. eapply (si_rest _ _ _ _ HI); [done|done|]. by apply list_elem_of_further.
  - intros m s Hm Hs. destruct (si_loaded _ _ _ _ HI m s Hm Hs) as [Hin|?]; [|by right]. left.
    rewrite fmap_cons in Hin. apply elem_of_cons in Hin as [E|Hin]; [|done].
    exfalso. rewrite <- E in Hf. simplify_eq. eapply (wf_apart _ HB); [exact Hf|done|done|done].
Qed.

(** A summary that is loaded. *)
Lemma ScanInv_load B file rest M rem s e es : WF B -> NoDup (names (file :: rest)) -> B !! fi_Name file = Some s ->
  is_summary s = true -> b_Events s = e :: es -> ScanInv B (file :: rest) M rem ->
  ScanInv B rest (<[(b_NodeID s, minute_of e) := s]> M) rem.
Proof.
  intros HB Hnd Hf Hs He HI. destruct (wf_summary _ HB _ _ Hf Hs) as (m & Hm & En & Hok).
  rewrite (so_node _ _ Hok). assert (minute_of e = m) as ->.
  { pose proof (so_minute _ _ Hok) as H. rewrite He in H. by inversion H. }
  rewrite En in *. rewrite fmap_cons in Hnd. apply NoDup_cons in Hnd as [Hnin Hnd].
  assert (M !! (node, m) = None) as HM.
  { eapply (si_rest _ _ _ _ HI); [done|exact Hf|]. rewrite fmap_cons, En. apply list_elem_of_here. }
  rewrite En in Hnin.
  constructor.
  - intros k x. rewrite lookup_insert_Some. intros [[<- <-]|[_ Hk]]; [|by apply HI]. split_and!; [done|done|done|].
    apply Forall_forall. intros e' He'. by apply (wf_clock _ HB _ _ _ Hf).
  - intros m' Hm'. unfold planned. destruct (decide (m' = m)) as [->|Hne].
    + rewrite lookup_insert_eq. rewrite <- (si_total _ _ _ _ HI m Hm). unfold planned. by rewrite HM, Hf.
    + rewrite lookup_insert_ne by congruence. by apply HI.
  - intros m' x Hm' Hx Hin. assert (m' <> m) by (by intros ->). rewrite lookup_insert_ne by congruence.
    eapply (si_rest _ _ _ _ HI); [done|done|]. by apply list_elem_of_further.
  - intros m' x Hm' Hx. destruct (decide (m' = m)) as [->|Hne]; [right; rewrite lookup_insert_eq; by eexists|].
    rewrite lookup_insert_ne by congruence. destruct (si_loaded _ _ _ _ HI m' x Hm' Hx) as [Hin|?]; [|by right].
    left. rewrite fmap_cons in Hin. apply elem_of_cons in Hin as [E|Hin]; [|done].
    rewrite En in E. by apply summary_name_inj in E.
  - intros f Hfr. destruct (si_rem _ _ _ _ HI f Hfr) as (b & Hb & Ho & Hall). exists b. split_and!; [done|done|].
    eapply Forall_impl; [exact Hall|]. intros e' He'. cbv beta in *. destruct (decide (minute_of e' = m)) as [Ee|Hne].
    + rewrite Ee, HM in He'. by apply elem_of_nil in He'.
    + by rewrite lookup_insert_ne by congruence.
Qed.
(** ** Merging one expired batch *)

Lemma merged_summary_ok m so es b : minute_ok m -> match so with Some s => summary_ok m s | None => True end ->
  es <> [] -> Forall counts_ok es ->
  match merged_summary b (node, m) so es with Some s => summary_ok m s | None => False end.
Proof.
  intros Hm Hso Hne Hes. unfold merged_summary. destruct (containsString _ b) eqn:E; [by destruct so|].
  assert (summary_ok m (default (new_summary (node, m)) so) \/ so = None) as Hdef by (destruct so; auto).
  assert (forall es0, Forall (fun e => minute_of e = m) es0 -> Forall counts_ok es0 -> forall new, Forall counts_ok new ->
    Forall (fun e => minute_of e = m) (merge_all m es0 new) /\ Forall counts_ok (merge_all m es0 new)) as Hmerge.
  { intros es0 H0 Hc0 new Hnew. split; [|by apply merge_all_counts]. revert es0 H0 Hc0.
    induction Hnew as [|e new He Hnew IH]; intros es0 H0 Hc0; [done|]. apply IH; [|by apply merge_counts].
    clear -H0 Hm. induction H0 as [|x es0 Hx H0 IH]; simpl.
    - apply Forall_singleton. unfold minute_of. simpl. apply Hm.
    - destruct (_ && _); by constructor. }
  assert (forall es0 new, new <> [] -> merge_all m es0 new <> []) as Hnonempty.
  { intros es0 new Hn. destruct new as [|e new]; [done|]. clear. revert es0 e.
    assert (forall es0 e, mergeInterfaceEvent es0 e m <> []) as H1
      by (intros [|x es0] e; simpl; [done|]; by destruct (_ && _)).
    induction new as [|e' new IH]; intros es0 e; [apply H1|]. exact (IH (mergeInterfaceEvent es0 e m) e'). }
  destruct Hdef as [Hd| ->].
  - destruct (Hmerge _ (so_minute _ _ Hd) (so_counts _ _ Hd) es Hes). constructor; simpl; try apply Hd; auto.
  - destruct (Hmerge [] ltac:(constructor) ltac:(constructor) es Hes). constructor; simpl; auto.
Qed.

Lemma merged_summary_lists m so es b : b ∈ listed (merged_summary b (node, m) so es).
Proof.
  unfold merged_summary. destruct (containsString _ b) eqn:E.
  - apply containsString_spec in E. destruct so; [done|]. simpl in E. by apply elem_of_nil in E.
  - simpl. rewrite sort_strings_perm. set_solver.
Qed.

Lemma merged_summary_mono key so es b x : x ∈ listed so -> x ∈ listed (merged_summary b key so es).
Proof.
  intros Hx. unfold merged_summary. destruct (containsString _ b); [done|]. simpl. rewrite sort_strings_perm.
  destruct so; simpl in *; set_solver.
Qed.

Lemma merged_summary_clock m so es b s : minute_ok m -> match so with Some s => Forall (fun e => in_clock (ev_ObservedAt e)) (b_Events s) | None => True end ->
  merged_summary b (node, m) so es = Some s -> Forall (fun e => in_clock (ev_ObservedAt e)) (b_Events s).
Proof.
  intros [Hm _] Hso. unfold merged_summary. destruct (containsString _ b); [by intros ->|]. intros [= <-]. simpl.
  assert (Forall (fun e => in_clock (ev_ObservedAt e)) (b_Events (default (new_summary (node, m)) so))) as H
    by (destruct so; simpl; [done|constructor]).
  revert H. generalize (b_Events (default (new_summary (node, m)) so)). induction es as [|e es IH]; intros l Hl; [done|].
  apply IH. clear -Hl Hm. induction Hl as [|x l Hx Hl IH]; simpl; [by apply Forall_singleton|].
  destruct (_ && _); by constructor.
Qed.

(** In a sorted listing the summaries of a batch come before it. *)
Lemma summary_before B file rest M rem b e s : WF B -> StronglySorted info_le (file :: rest) -> B !! fi_Name file = Some b ->
  is_summary b = false -> interfaceOnly b = true -> e ∈ b_Events b -> ScanInv B (file :: rest) M rem ->
  B !! sname (minute_of e) = Some s ->
  (sname (minute_of e) ∉ names (file :: rest)) /\ is_Some (M !! (node, minute_of e)).
Proof.
  intros HB Hsort Hf Hb Hio He HI Hs.
  assert (minute_ok (minute_of e)) as Hm by exact (minute_of_ok e (wf_clock _ HB _ _ e Hf He)).
  assert (sname (minute_of e) ∉ names (file :: rest)) as Hnin.
  { rewrite fmap_cons. intros [E|Hin]%elem_of_cons.
    - by apply (wf_apart _ HB _ _ _ Hf Hb Hm).
    - apply list_elem_of_fmap in Hin as (x & E & Hx). apply StronglySorted_inv in Hsort as [_ Hall].
      rewrite Forall_forall in Hall. specialize (Hall x Hx). unfold info_le in Hall. rewrite <- E in Hall.
      pose proof (wf_order _ HB _ _ _ Hf Hb Hio He) as Hle.
      apply (wf_apart _ HB _ _ _ Hf Hb Hm). by apply (anti_symm str_le). }
  split; [done|]. by destruct (si_loaded _ _ _ _ HI _ s Hm Hs).
Qed.

Lemma ScanInv_compact B file rest M rem b : WF B -> StronglySorted info_le (file :: rest) -> B !! fi_Name file = Some b ->
  is_summary b = false -> interfaceOnly b = true ->
  (forall m, minute_ok m -> minute_total n d node B m <= max_i64) ->
  ScanInv B (file :: rest) M rem -> ScanInv B rest (compact_batch b M) (rem ++ [fi_Name file]).
Proof.
  intros HB Hsort Hf Hb Hio Hmax HI. pose proof (ScanInv_skip _ _ _ _ _ _ HB Hf Hb HI) as HI'.
  assert (forall m, compact_batch b M !! (node, m) =
    match minute_events m b with [] => M !! (node, m) | es => merged_summary (b_BatchID b) (node, m) (M !! (node, m)) es end) as Hlk.
  { intros m. rewrite compact_batch_lookup, (wf_node _ HB _ _ Hf), group_by_minute_spec. unfold minute_events.
    by destruct (filter _ _). }
  assert (forall m, minute_events m b <> [] -> exists e, e ∈ b_Events b /\ minute_of e = m) as Hev.
  { intros m Hne. destruct (minute_events m b) as [|e es] eqn:E; [done|]. exists e.
    assert (e ∈ minute_events m b) as He by (rewrite E; apply list_elem_of_here).
    apply list_elem_of_filter in He. naive_solver. }
  assert (forall m, minute_events m b <> [] -> minute_ok m /\ planned B M m = M !! (node, m)) as Hpl.
  { intros m (e & He & <-)%Hev. split; [exact (minute_of_ok e (wf_clock _ HB _ _ e Hf He))|]. unfold planned.
    destruct (M !! _) eqn:EM; [done|]. destruct (B !! sname (minute_of e)) eqn:EB; [|done].
    destruct (summary_before _ _ _ _ _ _ _ _ HB Hsort Hf Hb Hio He HI EB) as [_ [? Hs]]. congruence. }
  constructor.
  - intros [nd m] s Hs. destruct (decide (nd = node)) as [->|Hnd].
    + rewrite Hlk in Hs. destruct (minute_events m b) as [|e es] eqn:E; [by apply (si_keys _ _ _ _ HI)|].
      destruct (Hpl m) as [Hm _]; [by rewrite E|].
      pose proof (merged_summary_ok m (M !! (node, m)) (e :: es) (b_BatchID b) Hm) as Hok. rewrite Hs in Hok.
      split_and!; [done|done| |].
      * apply Hok; [|done|rewrite <- E; exact (minute_events_counts m b (wf_counts _ HB _ _ Hf))].
        destruct (M !! (node, m)) eqn:EM; [|done]. by apply (si_keys _ _ _ _ HI) in EM as (_ & _ & ? & _).
      * eapply merged_summary_clock, Hs; [done|].
        destruct (M !! (node, m)) eqn:EM; [|done]. by apply (si_keys _ _ _ _ HI) in EM as (_ & _ & _ & ?).
    + rewrite compact_batch_lookup in Hs. destruct (group_by_minute _ _ !! _) eqn:E; [|by apply (si_keys _ _ _ _ HI)].
      destruct Hnd. rewrite <- (wf_node _ HB _ _ Hf).
      apply (group_by_minute_node (b_NodeID b) (b_Events b) (nd, m)). by eexists.
  - intros m Hm. rewrite <- (si_total _ _ _ _ HI m Hm). destruct (decide (minute_events m b = [])) as [E|E].
    + unfold planned. by rewrite Hlk, E.
    + destruct (Hpl m E) as [_ Hp]. rewrite Hp. unfold planned at 1. rewrite Hlk.
      assert (match minute_events m b with [] => M !! (node, m) | es => merged_summary (b_BatchID b) (node, m) (M !! (node, m)) es end
        = merged_summary (b_BatchID b) (node, m) (M !! (node, m)) (minute_events m b)) as -> by (by destruct (minute_events m b)).
      assert (is_Some (merged_summary (b_BatchID b) (node, m) (M !! (node, m)) (minute_events m b))) as [s Es].
      { pose proof (merged_summary_lists m (M !! (node, m)) (minute_events m b) (b_BatchID b)) as H.
        destruct (merged_summary _ _ _ _); [by eexists|]. by apply elem_of_nil in H. }
      rewrite Es, <- Es. apply merged_bytes.
      * apply NoDup_originals.
      * apply elem_of_originals. eauto.
      * intros c [Hc [g Hg]]%elem_of_originals Hid. by apply (wf_same _ HB g (fi_Name file)).
      * intros c [Hc [g Hg]]%elem_of_originals. by apply (wf_counts _ HB g).
      * destruct (M !! (node, m)) eqn:EM; [|constructor]. apply (si_keys _ _ _ _ HI) in EM as (_ & _ & Hso & _). exact (so_counts _ _ Hso).
      * rewrite <- Hp, (si_total _ _ _ _ HI m Hm). by apply Hmax.
  - intros m s Hm Hs Hin. rewrite Hlk. destruct (decide (minute_events m b = [])) as [->|E].
    { by eapply (si_rest _ _ _ _ HI'). }
    apply Hev in E as (e & He & <-).
    destruct (summary_before _ _ _ _ _ _ _ _ HB Hsort Hf Hb Hio He HI Hs) as [Hnin _].
    destruct Hnin. rewrite fmap_cons. by apply list_elem_of_further.
  - intros m s Hm Hs. destruct (si_loaded _ _ _ _ HI' m s Hm Hs) as [?|[x Hx]]; [by left|right]. rewrite Hlk.
    destruct (minute_events m b) as [|e es]; [by eexists|].
    pose proof (merged_summary_lists m (M !! (node, m)) (e :: es) (b_BatchID b)) as H.
    destruct (merged_summary _ _ _ _); [by eexists|]. by apply elem_of_nil in H.
  - intros f [Hfr|Hfr]%elem_of_app.
    + destruct (si_rem _ _ _ _ HI f Hfr) as (c & Hc & Ho & Hall). exists c. split_and!; [done|done|].
      eapply Forall_impl; [exact Hall|]. intros e He. cbv beta in *. rewrite Hlk.
      destruct (minute_events _ b); [done|]. by apply merged_summary_mono.
    + apply list_elem_of_singleton in Hfr as ->. exists b. split_and!; [done|done|]. apply Forall_forall. intros e He.
      rewrite Hlk. destruct (minute_events (minute_of e) b) as [|x es] eqn:E; [|apply merged_summary_lists].
      assert (e ∈ minute_events (minute_of e) b) as H by (by apply list_elem_of_filter). rewrite E in H. by apply elem_of_nil in H.
Qed.
(** ** Writing, removing and evicting *)

(** Some of the planned summaries are in place. *)
Definition Writing (B : gmap string Batch) (M : gmap summaryKey Batch) (cur : gmap string Batch) : Prop :=
  forall f, cur !! f = B !! f \/
    (exists m s, minute_ok m /\ f = sname m /\ M !! (node, m) = Some s /\ cur !! f = Some s).

Lemma Writing_step B M cur m s : Writing B M cur -> minute_ok m -> M !! (node, m) = Some s ->
  Writing B M (<[sname m := s]> cur).
Proof.
  intros HW Hm Hs f. destruct (decide (f = sname m)) as [->|Hne].
  - right. exists m, s. rewrite lookup_insert_eq. done.
  - rewrite lookup_insert_ne by congruence. apply HW.
Qed.

Lemma Writing_Derived B M rem cur : WF B -> ScanInv B [] M rem -> Writing B M cur -> Derived B cur.
Proof.
  intros HB HI HW. constructor.
  - intros f b Hf Hb. destruct (HW f) as [E|(m & s & Hm & -> & Hs & E)]; [congruence|].
    assert (s = b) as -> by congruence.
    apply (si_keys _ _ _ _ HI) in Hs as (_ & _ & Hok & _). apply summary_ok_summary in Hok. congruence.
  - intros f b Hf Hb. left. exists f. destruct (HW f) as [E|(m & s & Hm & -> & Hs & E)]; [congruence|].
    exfalso. by eapply (wf_apart _ HB _ _ m Hf Hb).
  - intros m Hm. destruct (HW (sname m)) as [->|(m' & s & Hm' & E & Hs & ->)]; [done|].
    apply summary_name_inj in E as <-; [|done..]. rewrite <- (si_total _ _ _ _ HI m Hm). unfold planned. by rewrite Hs.
  - intros f s Hf Hs. destruct (HW f) as [E|(m & s' & Hm & -> & Hs' & E)].
    + apply (wf_summary _ HB); congruence.
    + assert (s' = s) as -> by congruence. exists m.
      apply (si_keys _ _ _ _ HI) in Hs' as (_ & _ & Hok & _). by split_and!.
  - intros f b e Hf He. destruct (HW f) as [E|(m & s & Hm & -> & Hs & E)].
    + apply (wf_clock _ HB f b); congruence.
    + assert (s = b) as -> by congruence.
      apply (si_keys _ _ _ _ HI) in Hs as (_ & _ & _ & Hc). rewrite Forall_forall in Hc. by apply Hc.
Qed.

(** Removing a batch that adds nothing beside the summaries. *)
Lemma Derived_delete B cur f b : WF B -> Derived B cur -> B !! f = Some b -> is_summary b = false ->
  (forall m, minute_ok m -> unlisted_bytes n d m (cur !! sname m) b = 0) -> Derived B (delete f cur).
Proof.
  intros HB HD Hf Hb Hz.
  assert (forall m, minute_ok m -> delete f cur !! sname m = cur !! sname m) as Hsame
    by (intros m Hm; apply lookup_delete_ne, (wf_apart _ HB f b m); done).
  constructor.
  - intros g c [_ Hg]%lookup_delete_Some. by apply HD.
  - intros g c Hg Hc. destruct (dv_gone _ _ HD g c Hg Hc) as [[h Hh]|H].
    + destruct (decide (h = f)) as [->|Hne].
      * right. intros m Hm. rewrite Hsame by done. apply (dv_orig _ _ HD) in Hh; [|done]. simplify_eq. by apply Hz.
      * left. exists h. by rewrite lookup_delete_ne.
    + right. intros m Hm. rewrite Hsame by done. by apply H.
  - intros m Hm. rewrite Hsame by done. by apply HD.
  - intros g s [_ Hg]%lookup_delete_Some. by apply HD.
  - intros g c e [_ Hg]%lookup_delete_Some. by apply (dv_clock _ _ HD g).
Qed.

Definition Written (M : gmap summaryKey Batch) (cur : gmap string Batch) : Prop :=
  forall m s, minute_ok m -> M !! (node, m) = Some s -> cur !! sname m = Some s.

Lemma remove_step B M rem cur f : WF B -> ScanInv B [] M rem -> Derived B cur -> Written M cur -> f ∈ rem ->
  Derived B (delete f cur) /\ Written M (delete f cur).
Proof.
  intros HB HI HD HW Hf. destruct (si_rem _ _ _ _ HI f Hf) as (b & Hb & Ho & Hall). split.
  - apply (Derived_delete B cur f b); try done. intros m Hm. unfold unlisted_bytes.
    destruct (minute_events m b) as [|e es] eqn:E; [by destruct (containsString _ _)|].
    assert (e ∈ minute_events m b) as He by (rewrite E; apply list_elem_of_here).
    apply list_elem_of_filter in He as [Em He]. rewrite Forall_forall in Hall. specialize (Hall e He). simpl in Hall.
    rewrite Em in Hall. destruct (M !! (node, m)) as [s|] eqn:EM; [|by apply elem_of_nil in Hall].
    rewrite (HW m s Hm EM). by rewrite (proj2 (containsString_spec _ _) Hall).
  - intros m s Hm Hs. rewrite lookup_delete_ne by (apply (wf_apart _ HB f b m); done). by apply HW.
Qed.

Lemma evict_step B cur f b : WF B -> Derived B cur -> cur !! f = Some b -> protectedBatch b = false ->
  Derived B (delete f cur).
Proof.
  intros HB HD Hf Hp. unfold protectedBatch in Hp.
  destruct (is_summary b || interfaceOnly b) eqn:E; [done|]. apply orb_false_iff in E as [Es Eo].
  pose proof (dv_orig _ _ HD _ _ Hf Es) as HfB. apply (Derived_delete B cur f b); try done.
  intros m _. unfold unlisted_bytes. destruct (containsString _ _); [done|].
  apply sumZ_zero. intros e [_ He]%list_elem_of_filter. pose proof (wf_others _ HB f b HfB Es Eo) as H0.
  rewrite Forall_forall in H0. by apply H0.
Qed.

(** ** Queueing *)

Lemma originals_insert B f b : B !! f = None -> is_summary b = false ->
  forall c, c ∈ originals (<[f := b]> B) <-> c = b \/ c ∈ originals B.
Proof.
  intros Hf Hb c. rewrite !elem_of_originals. split.
  - intros [Hc [g Hg]]. apply lookup_insert_Some in Hg as [[<- <-]|[Hne Hg]]; [by left|right]. eauto.
  - intros [->|[Hc [g Hg]]]; [split; [done|]; exists f; by rewrite lookup_insert_eq|].
    split; [done|]. exists g. rewrite lookup_insert_ne; [done|]. by intros ->; simplify_eq.
Qed.

(** What may be queued as file [f]. *)
Record queueable (B : gmap string Batch) (f : string) (b : Batch) : Prop := {
  qb_new : B !! f = None;
  qb_orig : is_summary b = false;
  qb_node : b_NodeID b = node;
  qb_counts : batch_counts b;
  qb_clock e : e ∈ b_Events b -> in_clock (ev_ObservedAt e);
  qb_same g c : B !! g = Some c -> is_summary c = false -> b_BatchID c = b_BatchID b -> c = b;
  qb_order e : interfaceOnly b = true -> e ∈ b_Events b -> str_le (sname (minute_of e)) f;
  qb_apart m : minute_ok m -> f <> sname m;
  qb_others : interfaceOnly b = false -> Forall (fun e => event_bytes n d e = 0) (b_Events b) }.

Lemma queue_WF B f b : WF B -> queueable B f b -> WF (<[f := b]> B).
Proof.
  intros HB HQ.
  assert (forall g c, <[f := b]> B !! g = Some c -> (g = f /\ c = b) \/ B !! g = Some c) as Hcase.
  { intros g c [[<- <-]|[_ Hg]]%lookup_insert_Some; auto. }
  constructor.
  - intros g c [[-> ->]|Hg]%Hcase; [apply HQ|by apply (wf_node _ HB g)].
  - intros g c [[-> ->]|Hg]%Hcase; [apply HQ|by apply (wf_counts _ HB g)].
  - intros g c e [[-> ->]|Hg]%Hcase; [apply HQ|by apply (wf_clock _ HB g)].
  - intros g g' c c' [[-> ->]|Hg]%Hcase [[-> ->]|Hg']%Hcase Hc Hc' Hid; [done| | |by apply (wf_same _ HB g g')].
    + symmetry. by apply (qb_same _ _ _ HQ g').
    + by apply (qb_same _ _ _ HQ g).
  - intros g c [[-> ->]|Hg]%Hcase Hc; [rewrite (qb_orig _ _ _ HQ) in Hc; done|by apply (wf_summary _ HB)].
  - intros g c e [[-> ->]|Hg]%Hcase Hc; [apply HQ|by apply (wf_order _ HB)].
  - intros g c m [[-> ->]|Hg]%Hcase Hc; [apply HQ|by apply (wf_apart _ HB g c)].
  - intros g c [[-> ->]|Hg]%Hcase Hc; [apply HQ|by apply (wf_others _ HB g)].
Qed.

(** The bytes a queued batch adds to a minute: none when it is there already or its
    identifier is listed in the summary. *)
Definition added_bytes (B : gmap string Batch) (b : Batch) (m : time) : Z :=
  if decide (b ∈ originals B) then 0 else unlisted_bytes n d m (B !! sname m) b.

Lemma queue_total B f b m : queueable B f b -> minute_ok m ->
  minute_total n d node (<[f := b]> B) m =
  minute_total n d node B m + added_bytes B b m.
Proof.
  intros HQ Hm. unfold added_bytes, minute_total. rewrite lookup_insert_ne by (by apply HQ). unfold bytes_with.
  pose proof (originals_insert B f b (qb_new _ _ _ HQ) (qb_orig _ _ _ HQ)) as Hin. case_decide as Hb.
  - rewrite (sumZ_perm _ (originals (<[f:=b]> B)) (originals B)); [lia|].
    apply NoDup_Permutation; [apply NoDup_originals..|]. intros c. rewrite Hin. split; [|tauto]. by intros [->|?].
  - rewrite (sumZ_perm _ (originals (<[f:=b]> B)) (b :: originals B)); [simpl; lia|].
    apply NoDup_Permutation; [apply NoDup_originals|constructor; [done|apply NoDup_originals]|].
    intros c. rewrite Hin, elem_of_cons. done.
Qed.

Lemma WF_empty : WF ∅.
Proof. constructor; intros *; try (intros ?); by rewrite ?lookup_empty in *. Qed.

Lemma minute_total_empty m : minute_total n d node ∅ m = 0.
Proof. unfold minute_total. by rewrite lookup_empty. Qed.

Lemma added_bytes_le B b m : batch_counts b -> added_bytes B b m <= events_bytes n d (b_Events b).
Proof.
  intros Hb. pose proof (events_bytes_nonneg n d _ Hb) as H0. unfold added_bytes, unlisted_bytes.
  case_decide; [done|]. destruct (containsString _ _); [done|]. unfold minute_events, events_bytes in *.
  rewrite (sumZ_filter_split _ (fun e => minute_of e = m) (b_Events b)).
  assert (0 <= sumZ (event_bytes n d) (filter (fun e => ~ minute_of e = m) (b_Events b))); [|lia].
  apply sumZ_nonneg. intros e [_ He]%list_elem_of_filter. apply event_bytes_nonneg. unfold batch_counts in Hb.
  rewrite Forall_forall in Hb. by apply Hb.
Qed.
End wf.

(** A file queued inside a minute is not the file of a summary. *)
Lemma queued_apart node id t m : in_clock t -> Truncate t Minute <> t -> minute_ok m ->
  batchFileName id t <> summary_name node m.
Proof. intros Ht Hne [Hm Hmt] E. apply batchFileName_time in E; [congruence|done..]. Qed.
