(* ===== verification/SpoolRules.v ===== *)
(** * Rules for the spool's programs

    The batches of a directory, what each system call does to them, and rules of the
    crash logic ([Effects.spec]) for the spool's error returns; what publishing a
    batch through a temporary file leaves wherever it stops. *)

From stdpp Require Import base strings numbers gmap sets sorting list.
From Stdlib Require Import Ascii SpecFloat.
From S2P Require Import Prelude GoBase GoText GoModel InterfaceCounter Sha256 Effects StateFile App.
From S2P Require Import Spool SpoolSums SpoolWf.

Open Scope string_scope.
Open Scope Z_scope.
Local Open Scope flow_scope.
Local Open Scope list_scope.

(** What is written can be read back. *)
Class BatchCodecLaws `{!BatchCodec} : Prop := {
  decode_encoded b bytes : Validate b = Ok tt -> encode_batch b = Some bytes -> decode_batch bytes = Ok b }.

Section spool.
Context {codec : BatchCodec} {order : RangeOrder}.

(** ** The batches of a directory *)

Definition is_batch_file (name : string) (e : entry) : bool :=
  negb (e_isDir e) && has_suffix name batch_suffix.

Definition batch_of (name : string) (e : entry) : option Batch :=
  if is_batch_file name e then match decode_batch (e_content e) with Ok b => Some b | Err _ => None end else None.

Definition batches (D : dir) : gmap string Batch := map_imap batch_of (d_entries D).

Lemma lookup_batches D f : batches D !! f = d_entries D !! f ≫= batch_of f.
Proof. apply map_lookup_imap. Qed.

(** Calls that leave the batches alone. *)
Definition harmless {X} (e : sys X) : bool :=
  match e with SRename _ | SRemove _ => false | _ => true end.

(** Case analysis of a call on its fate. *)
Ltac sys_call :=
  unfold handle, sys_handler, sys_handle;
  match goal with |- context [d_fates ?D] => destruct (d_fates D) as [|[[?|?]|] ?] end.

Lemma harmless_batches {X} (e : sys X) D : harmless e = true -> batches (handle e D).1 = batches D.
Proof.
  intros He. apply map_eq. intros f. rewrite !lookup_batches.
  enough (d_entries (handle e D).1 !! f ≫= batch_of f = d_entries D !! f ≫= batch_of f) as H by done.
  destruct e; try done; sys_call; simpl; repeat case_match; simpl; try done;
    (rewrite lookup_insert; case_decide; [subst|done]; simplify_map_eq; done).
Qed.

(** Reading, listing and syncing change nothing at all. *)
Definition passive {X} (e : sys X) : bool :=
  match e with SReadDir | SInfo _ | SReadFile _ | Now | SOpenDir | SSyncDir => true | _ => false end.

Lemma passive_entries {X} (e : sys X) D : passive e = true -> d_entries (handle e D).1 = d_entries D.
Proof. intros He. destruct e; try done; sys_call; simpl; repeat case_match; done. Qed.

Lemma passive_harmless {X} (e : sys X) : passive e = true -> harmless e = true.
Proof. by destruct e. Qed.

Lemma batches_entries D D' : d_entries D = d_entries D' -> batches D = batches D'.
Proof. unfold batches. by intros ->. Qed.

Lemma rename_batches name b bytes D D' r : d_tmp D = Some bytes -> decode_batch bytes = Ok b ->
  has_suffix name batch_suffix = true -> handle (SRename name) D = (D', r) ->
  (batches D' = batches D /\ is_ok r = false) \/ batches D' = <[name := b]> (batches D).
Proof.
  intros Ht Hd Hs E.
  assert (forall D2 t, d_entries D2 = <[name := MkEntry false bytes t]> (d_entries D) ->
    batches D2 = <[name := b]> (batches D)) as Hins.
  { intros D2 t HE. apply map_eq. intros f. rewrite lookup_batches, HE. destruct (decide (f = name)) as [->|Hne].
    - rewrite !lookup_insert_eq. simpl. unfold batch_of, is_batch_file. simpl. by rewrite Hs, Hd.
    - rewrite !lookup_insert_ne by congruence. by rewrite lookup_batches. }
  revert E. sys_call; simpl; rewrite ?Ht; intros E;
    repeat match type of E with context [match ?x with _ => _ end] => destruct x eqn:?; simpl in E end;
    simplify_eq; simpl; eauto using batches_entries.
Qed.

Lemma remove_batches name D D' r : handle (SRemove name) D = (D', r) ->
  (batches D' = batches D /\ is_ok r = false) \/ batches D' = delete name (batches D).
Proof.
  intros E.
  assert (forall D2, d_entries D2 = delete name (d_entries D) -> batches D2 = delete name (batches D)) as Hdel.
  { intros D2 HE. apply map_eq. intros f. rewrite lookup_batches, HE. destruct (decide (f = name)) as [->|Hne].
    - by rewrite !lookup_delete_eq.
    - rewrite !lookup_delete_ne by congruence. by rewrite lookup_batches. }
  revert E. sys_call; simpl; intros E;
    repeat match type of E with context [match ?x with _ => _ end] => destruct x eqn:?; simpl in E end;
    simplify_eq; simpl; eauto using batches_entries.
Qed.

Lemma read_file name D D' c : handle (SReadFile name) D = (D', Ok c) ->
  exists e, d_entries D !! name = Some e /\ e_isDir e = false /\ e_content e = c.
Proof.
  sys_call; simpl; intros E;
    repeat match type of E with context [match ?x with _ => _ end] => destruct x eqn:?; simpl in E end;
    simplify_eq; simpl; eauto.
Qed.

(** ** Rules *)

Section rules.
Context (J : gmap string Batch -> Prop).

Abbreviation I := (fun D => J (batches D)).

Lemma spec_harmless {A X} (e : sys X) (k : X -> prog sys A) Q D : harmless e = true -> J (batches D) ->
  (forall D' x, handle e D = (D', x) -> batches D' = batches D -> spec I (k x) Q D') ->
  spec I (prog_bind (call e) k) Q D.
Proof.
  intros He Hj Hk. apply spec_call; [done|]. intros D' x E. apply Hk; [done|].
  pose proof (harmless_batches e D He) as H. by rewrite E in H.
Qed.

Lemma or_fail_harmless {A B} (e : sys (result string A)) context (k : A -> prog sys (result string B)) Q D :
  harmless e = true -> J (batches D) ->
  (forall err D', batches D' = batches D -> Q (Err err) D') ->
  (forall D' a, handle e D = (D', Ok a) -> batches D' = batches D -> spec I (k a) Q D') ->
  spec I (or_fail e context k) Q D.
Proof.
  intros He Hj HQ Hk. apply spec_harmless; [done|done|]. intros D' [a|what] E Hb; [by apply Hk|].
  apply spec_ret; [by rewrite Hb|by apply HQ].
Qed.

Lemma or_return_spec {A B} (p : prog sys (result string A)) (k : A -> prog sys (result string B)) Q D :
  spec I p (fun r D' => match r with Ok a => spec I (k a) Q D' | Err e => Q (Err e) D' end) D ->
  spec I (or_return p k) Q D.
Proof.
  intros Hp. apply spec_bind. eapply (spec_mono I I); [auto| |exact Hp]. intros [a|e] D' Hj HQ; [done|by apply spec_ret].
Qed.

Lemma bail_spec {B} closes err (Q : result string B -> dir -> Prop) D :
  Forall (fun e => harmless e = true) closes -> J (batches D) ->
  (forall D', batches D' = batches D -> Q (Err err) D') -> spec I (bail closes err) Q D.
Proof.
  intros Hc Hj HQ. revert D Hj HQ. induction Hc as [|e closes He _ IH]; intros D Hj HQ; cbn [bail foldr].
  - apply (spec_harmless SRemoveTemp); [done|done|]. intros D1 x _ Hb. apply spec_ret; [by rewrite Hb|by apply HQ].
  - apply (spec_harmless e); [done|done|]. intros D1 x _ Hb. apply IH; [by rewrite Hb|]. intros D2 Hb2. apply HQ. congruence.
Qed.

Lemma or_bail_harmless {B} (e : sys (result string unit)) closes fail_text (k : prog sys (result string B)) Q D :
  harmless e = true -> Forall (fun e => harmless e = true) closes -> J (batches D) ->
  (forall err D', batches D' = batches D -> Q (Err err) D') ->
  (forall D', handle e D = (D', Ok tt) -> batches D' = batches D -> spec I k Q D') ->
  spec I (or_bail e closes fail_text k) Q D.
Proof.
  intros He Hc Hj HQ Hk. apply spec_harmless; [done|done|]. intros D' [[]|what] E Hb; [by apply Hk|].
  apply bail_spec; [done|by rewrite Hb|]. intros D2 Hb2. apply HQ. congruence.
Qed.

Lemma sync_spec (Q : result string unit -> dir -> Prop) D : J (batches D) ->
  (forall r D', batches D' = batches D -> Q r D') -> spec I syncDirectory Q D.
Proof.
  intros Hj HQ. apply or_fail_harmless; [done|done|auto|]. intros D1 [] _ H1.
  apply or_fail_harmless; [done|by rewrite H1|intros; apply HQ; congruence|]. intros D2 [] _ H2.
  apply spec_ret; [by rewrite H2, H1|apply HQ; congruence].
Qed.
End rules.

(** The temporary file. *)
Lemma create_tmp D D' : handle SCreateTemp D = (D', Ok tt) -> d_tmp D' = Some [].
Proof. sys_call; simpl; intros E; by simplify_eq. Qed.
Lemma write_tmp bytes c D D' : d_tmp D = Some c -> handle (SWrite bytes) D = (D', Ok tt) -> d_tmp D' = Some (c ++ bytes).
Proof. intros Ht. sys_call; simpl; intros E; simplify_eq; simpl; by rewrite Ht. Qed.
Lemma keep_tmp {X} (e : sys X) D D' x :
  match e with SChmod | SCloseGzip | SSync | SClose => True | _ => False end ->
  handle e D = (D', x) -> d_tmp D' = d_tmp D.
Proof. intros He. destruct e; try done; sys_call; simpl; intros E; by simplify_eq. Qed.

Lemma now_value D D' t : handle Now D = (D', t) -> t = d_clock D (d_ticks D).
Proof. sys_call; simpl; intros E; by simplify_eq. Qed.

Context {laws : BatchCodecLaws}.

(** What a call that puts batch [b] in file [name] leaves. *)
Definition put (name : string) (b : Batch) (B : gmap string Batch) (r : bool) (D' : dir) : Prop :=
  (batches D' = B /\ r = false) \/ batches D' = <[name := b]> B.

Section put.
Context (J : gmap string Batch -> Prop) (name : string) (b : Batch) (B : gmap string Batch).
Context (HB : J B) (Hnew : J (<[name := b]> B)) (Hname : has_suffix name batch_suffix = true).

Abbreviation I := (fun D => J (batches D)).

Lemma put_J r D : put name b B r D -> J (batches D).
Proof. intros [[E _]|E]; by rewrite E. Qed.

(** A call that changes nothing, before the file is in place or after. *)
Lemma put_harmless {A X} (e : sys X) (k : X -> prog sys A) Q D r : harmless e = true -> put name b B r D ->
  (forall D' x, handle e D = (D', x) -> put name b B r D' -> spec I (k x) Q D') ->
  spec I (prog_bind (call e) k) Q D.
Proof.
  intros He Hp Hk. apply spec_harmless; [done|by eapply put_J|]. intros D' x E Hb. apply Hk; [done|].
  unfold put. by rewrite Hb.
Qed.

Lemma put_false r D : put name b B r D -> put name b B false D.
Proof. intros [[H _]|H]; [by left|by right]. Qed.

Lemma put_bail {A} closes err r (Q : result string A -> dir -> Prop) D :
  Forall (fun e => harmless e = true) closes -> put name b B r D ->
  (forall D', put name b B false D' -> Q (Err err) D') -> spec I (bail closes err) Q D.
Proof.
  intros Hc Hp HQ. apply bail_spec; [done|by eapply put_J|]. intros D' Hb. apply HQ, (put_false r).
  unfold put. by rewrite Hb.
Qed.

(** The rename of a complete temporary file, then [k] once it is done. *)
Lemma put_rename {A} bytes closes fail_text (k : prog sys (result string A)) Q D :
  Validate b = Ok tt -> encode_batch b = Some bytes -> d_tmp D = Some bytes -> batches D = B ->
  Forall (fun e => harmless e = true) closes ->
  (forall err D', put name b B false D' -> Q (Err err) D') ->
  (forall D', batches D' = <[name := b]> B -> spec I k Q D') ->
  spec I (or_bail (SRename name) closes fail_text k) Q D.
Proof.
  intros Hv He Ht Hb Hc HQ Hk. apply spec_call; [by rewrite Hb|]. intros D' r E.
  pose proof (rename_batches name b bytes D D' r Ht (decode_encoded b bytes Hv He) Hname E) as Hr. rewrite Hb in Hr.
  destruct r as [[]|what].
  - apply Hk. destruct Hr as [[_ H]|H]; [done|exact H].
  - apply (put_bail _ _ false); [done| |auto]. destruct Hr as [[Hr _]|Hr]; [by left|by right].
Qed.

Lemma writeBatchFile_spec t D : batches D = B ->
  spec I (writeBatchFile name b t) (fun r D' => put name b B (is_ok r) D') D.
Proof.
  intros Hb. assert (put name b B false D) as H0 by (by left). unfold writeBatchFile.
  destruct (Validate b) as [[]|] eqn:Hv; [|by apply spec_ret; [rewrite Hb|]].
  apply or_fail_harmless; [done|by rewrite Hb|intros err D' H; left; by rewrite H, Hb|].
  intros D1 [] E1 H1. rewrite Hb in H1. apply create_tmp in E1.
  apply or_bail_harmless; [done|constructor|by rewrite H1|intros err D' H; left; by rewrite H, H1|].
  intros D2 E2 H2. rewrite H1 in H2. apply keep_tmp in E2; [|done]. rewrite E1 in E2.
  destruct (encode_batch b) as [bytes|] eqn:He.
  2: { apply bail_spec; [by repeat constructor|by rewrite H2|]. intros D' H. left. by rewrite H, H2. }
  apply or_bail_harmless; [done|by repeat constructor|by rewrite H2|intros err D' H; left; by rewrite H, H2|].
  intros D3 E3 H3. rewrite H2 in H3. apply (write_tmp bytes []) in E3; [|done]. simpl in E3.
  apply or_bail_harmless; [done|by repeat constructor|by rewrite H3|intros err D' H; left; by rewrite H, H3|].
  intros D4 E4 H4. rewrite H3 in H4. apply keep_tmp in E4; [|done]. rewrite E3 in E4.
  apply or_bail_harmless; [done|by repeat constructor|by rewrite H4|intros err D' H; left; by rewrite H, H4|].
  intros D5 E5 H5. rewrite H4 in H5. apply keep_tmp in E5; [|done]. rewrite E4 in E5.
  apply or_bail_harmless; [done|constructor|by rewrite H5|intros err D' H; left; by rewrite H, H5|].
  intros D6 E6 H6. rewrite H5 in H6. apply keep_tmp in E6; [|done]. rewrite E5 in E6.
  apply (put_rename bytes); [done..|constructor|auto|]. intros D7 H7.
  apply or_bail_harmless; [done|constructor|by rewrite H7|intros err D' H; right; by rewrite H|].
  intros D8 _ H8. rewrite H7 in H8. apply spec_harmless; [done|by rewrite H8|]. intros D9 x _ H9. rewrite H8 in H9.
  apply spec_ret; [by rewrite H9|by right].
Qed.

End put.

Lemma publish_puts J b D B name : batches D = B -> J B -> J (<[name := b]> B) ->
  name = batchFileName (b_BatchID b) (d_clock D (d_ticks D)) ->
  spec (fun D => J (batches D)) (publish b) (fun r D' => put name b B (is_ok r) D') D.
Proof.
  intros Hb HB Hnew Hname. assert (has_suffix name batch_suffix = true) as Hs by (subst name; apply batchFileName_suffix).
  unfold publish. destruct (Validate b) as [[]|] eqn:Hv; [|by apply spec_ret; [rewrite Hb|left]].
  apply spec_harmless; [done|by rewrite Hb|]. intros D0 t Et H0. rewrite Hb in H0. apply now_value in Et as ->.
  rewrite <- Hname.
  apply or_fail_harmless; [done|by rewrite H0|intros err D' H; left; by rewrite H, H0|].
  intros D1 [] E1 H1. rewrite H0 in H1. apply create_tmp in E1.
  apply or_bail_harmless; [done|by repeat constructor|by rewrite H1|intros err D' H; left; by rewrite H, H1|].
  intros D2 E2 H2. rewrite H1 in H2. apply keep_tmp in E2; [|done]. rewrite E1 in E2.
  destruct (encode_batch b) as [bytes|] eqn:He.
  2: { apply bail_spec; [by repeat constructor|by rewrite H2|]. intros D' H. left. by rewrite H, H2. }
  apply or_bail_harmless; [done|by repeat constructor|by rewrite H2|intros err D' H; left; by rewrite H, H2|].
  intros D3 E3 H3. rewrite H2 in H3. apply (write_tmp bytes []) in E3; [|done]. simpl in E3.
  apply or_bail_harmless; [done|by repeat constructor|by rewrite H3|intros err D' H; left; by rewrite H, H3|].
  intros D4 E4 H4. rewrite H3 in H4. apply keep_tmp in E4; [|done]. rewrite E3 in E4.
  apply or_bail_harmless; [done|by repeat constructor|by rewrite H4|intros err D' H; left; by rewrite H, H4|].
  intros D5 E5 H5. rewrite H4 in H5. apply keep_tmp in E5; [|done]. rewrite E4 in E5.
  apply or_bail_harmless; [done|constructor|by rewrite H5|intros err D' H; left; by rewrite H, H5|].
  intros D6 E6 H6. rewrite H5 in H6. apply keep_tmp in E6; [|done]. rewrite E5 in E6.
  apply (put_rename J name b B HB Hnew Hs bytes); [done..|constructor|auto|]. intros D7 H7.
  apply or_fail_harmless; [done|by rewrite H7|intros err D' H; right; by rewrite H|].
  intros D8 [] _ H8. apply sync_spec; [by rewrite H8, H7|]. intros r D9 H9. right. by rewrite H9, H8, H7.
Qed.
End spool.
