(* ===== verification/SpoolTheorems.v ===== *)
(** * Properties of the spool

    Queueing, compaction and eviction conserve the interface bytes of every minute
    wherever they are stopped; eviction takes only what it may and its report counts
    it. *)

From stdpp Require Import base strings numbers gmap sets sorting list.
From Stdlib Require Import Ascii SpecFloat.
From S2P Require Import Prelude GoBase GoText GoModel InterfaceCounter Sha256 Effects StateFile App.
From S2P Require Import Spool SpoolSums SpoolWf SpoolRules.

Open Scope string_scope.
Open Scope Z_scope.
Local Open Scope flow_scope.
Local Open Scope list_scope.

(** ** Listing *)

Section listing.
Context {codec : BatchCodec} {order : RangeOrder}.

Definition info_of (name : string) (e : entry) : FileInfo :=
  MkFileInfo name (Z.of_nat (length (e_content e))) (e_modTime e).

Definition batch_infos (kvs : list (string * entry)) : list FileInfo :=
  omap (fun kv => if is_batch_file kv.1 kv.2 then Some (info_of kv.1 kv.2) else None) kvs.

#[export] Instance batch_infos_proper : Proper ((≡ₚ) ==> (≡ₚ)) batch_infos.
Proof.
  unfold batch_infos. intros l l' H. induction H as [|x l l' _ IH|x y l|l1 l2 l3 _ IH1 _ IH2]; cbn [omap list_omap]; try done.
  - destruct (if is_batch_file _ _ then _ else _); by rewrite ?IH.
  - repeat destruct (if is_batch_file _ _ then _ else _); try done. constructor.
  - by rewrite IH1.
Qed.

(** The listing of a directory. *)
Record listing (E : gmap string entry) (infos : list FileInfo) : Prop := {
  ls_sorted : StronglySorted info_le infos;
  ls_perm : infos ≡ₚ batch_infos (map_to_list E) }.

#[export] Instance info_le_total : Total info_le.
Proof. intros a b. apply (total str_le). Qed.
#[export] Instance info_le_trans : Transitive info_le.
Proof. intros a b c. unfold info_le. apply transitivity. Qed.

Lemma info_value name D D' i : handle (SInfo name) D = (D', Ok i) ->
  exists e, d_entries D !! name = Some e /\ i = info_of name e.
Proof.
  unfold handle, sys_handler, sys_handle. destruct (d_fates D) as [|[[?|?]|] ?]; simpl; intros E;
    repeat match type of E with context [match ?x with _ => _ end] => destruct x eqn:?; simpl in E end;
    simplify_eq; simpl; eauto.
Qed.

Lemma readdir_value D D' l : handle SReadDir D = (D', Ok l) ->
  l = (fun kv => (kv.1, e_isDir kv.2)) <$> map_to_list (d_entries D).
Proof.
  unfold handle, sys_handler, sys_handle. destruct (d_fates D) as [|[[?|?]|] ?]; simpl; intros E; by simplify_eq.
Qed.

(** A passive call in front of the rest. *)
Lemma passive_call {A X} (e : sys X) (k : X -> prog sys A) Q D E : passive e = true -> d_entries D = E ->
  (forall D' x, handle e D = (D', x) -> d_entries D' = E -> spec (fun D => d_entries D = E) (k x) Q D') ->
  spec (fun D => d_entries D = E) (prog_bind (call e) k) Q D.
Proof.
  intros He HE Hk. apply spec_call; [done|]. intros D' x Eh. apply Hk; [done|].
  pose proof (passive_entries e D He) as H. rewrite Eh in H. simpl in H. congruence.
Qed.

Lemma list_infos_spec E kvs acc D : d_entries D = E -> (forall kv, kv ∈ kvs -> E !! kv.1 = Some kv.2) ->
  spec (fun D => d_entries D = E) (list_infos ((fun kv => (kv.1, e_isDir kv.2)) <$> kvs) acc)
    (fun r _ => forall infos, r = Ok infos -> infos = merge_sort info_le (acc ++ batch_infos kvs)) D.
Proof.
  revert acc D. induction kvs as [|[name e] kvs IH]; intros acc D HE Hk.
  { apply spec_ret; [done|]. intros infos [= <-]. simpl. by rewrite app_nil_r. }
  rewrite fmap_cons. cbn [list_infos fst snd]. unfold batch_infos. cbn [omap list_omap fst snd].
  unfold is_batch_file at 1. destruct (e_isDir e); simpl orb; simpl andb; [apply IH; [done|set_solver]|].
  destruct (has_suffix name batch_suffix); simpl negb; cbn iota; [|apply IH; [done|set_solver]].
  apply passive_call; [done|done|]. intros D' [i|what] Ei HE'; [|by apply spec_ret].
  apply info_value in Ei as (e' & Hl & ->). rewrite HE in Hl.
  pose proof (Hk (name, e) ltac:(apply list_elem_of_here)) as Hl2. simpl in Hl2. rewrite Hl2 in Hl. injection Hl as ->.
  eapply (spec_mono (fun D => d_entries D = E)); [done| |apply (IH (acc ++ [info_of name e'])); [done|set_solver]].
  intros r w _ H infos Hr. rewrite (H infos Hr). by rewrite <- app_assoc.
Qed.

(** The files as [files] lists them. *)
Definition listed_files (E : gmap string entry) : list FileInfo := merge_sort info_le (batch_infos (map_to_list E)).

Lemma listed_files_listing E : listing E (listed_files E).
Proof. constructor; [apply (StronglySorted_merge_sort _)|apply merge_sort_Permutation]. Qed.

Lemma files_spec E D : d_entries D = E ->
  spec (fun D => d_entries D = E) files (fun r _ => forall infos, r = Ok infos -> infos = listed_files E) D.
Proof.
  intros HE. apply passive_call; [done|done|]. intros D' [l|what] El HE'; [|by apply spec_ret].
  apply readdir_value in El as ->. rewrite HE. eapply (spec_mono (fun D => d_entries D = E)); [done| |apply list_infos_spec; [done|]].
  - intros r w _ H infos Hr. by apply H.
  - intros [k e]. by rewrite elem_of_map_to_list.
Qed.

(** ** What a listing tells *)

Lemma listing_in E infos i : listing E infos -> i ∈ infos ->
  exists e, E !! fi_Name i = Some e /\ is_batch_file (fi_Name i) e = true /\ i = info_of (fi_Name i) e.
Proof.
  intros [_ Hp]. rewrite Hp. unfold batch_infos. rewrite list_elem_of_omap. intros ([k e] & Hin & Hi).
  apply elem_of_map_to_list in Hin. simpl in Hi. destruct (is_batch_file k e) eqn:Eb; [|done]. injection Hi as <-. eauto.
Qed.

Lemma listing_all E infos f e : listing E infos -> E !! f = Some e -> is_batch_file f e = true -> info_of f e ∈ infos.
Proof.
  intros [_ ->] Hf Hb. unfold batch_infos. apply list_elem_of_omap. exists (f, e). split; [by apply elem_of_map_to_list|].
  simpl. by rewrite Hb.
Qed.

Lemma listing_NoDup E infos : listing E infos -> NoDup (fi_Name <$> infos).
Proof.
  intros [_ ->]. pose proof (NoDup_fst_map_to_list E) as Hn. revert Hn. generalize (map_to_list E).
  induction l as [|[k e] l IH]; [constructor|]. rewrite fmap_cons. intros [Hk Hl]%NoDup_cons.
  unfold batch_infos. cbn [omap list_omap fst snd]. destruct (is_batch_file k e); [|by apply IH].
  rewrite fmap_cons. apply NoDup_cons. split; [|by apply IH]. simpl.
  intros (i & Hi & Hin)%list_elem_of_fmap. destruct Hk. apply list_elem_of_omap in Hin as ([k' e'] & Hin & He).
  simpl in He. destruct (is_batch_file k' e'); [|done]. injection He as <-. simpl in Hi. subst.
  apply list_elem_of_fmap. by exists (k', e').
Qed.

Lemma listing_batches E infos D f b : listing E infos -> d_entries D = E -> batches D !! f = Some b ->
  f ∈ fi_Name <$> infos.
Proof.
  intros HL HE. rewrite lookup_batches, HE. destruct (E !! f) as [e|] eqn:Ef; simpl; [|done].
  unfold batch_of. destruct (is_batch_file f e) eqn:Eb; [|done]. intros _.
  apply list_elem_of_fmap. exists (info_of f e). split; [done|]. by eapply listing_all.
Qed.

(** Reading a listed file. *)
Lemma readBatch_spec E D name Q : d_entries D = E -> has_suffix name batch_suffix = true ->
  (forall D' e, d_entries D' = E -> Q (Err e) D') ->
  (forall D' b, d_entries D' = E -> batches D' !! name = Some b -> Q (Ok b) D') ->
  spec (fun D => d_entries D = E) (readBatch name) Q D.
Proof.
  intros HE Hs Herr Hok. apply passive_call; [done|done|]. intros D' [c|what] Ec HE'; [|by apply spec_ret; [|apply Herr]].
  apply read_file in Ec as (e & Hl & Hd & <-). apply spec_ret; [done|].
  destruct (decode_batch (e_content e)) as [b|] eqn:Eb; [|by apply Herr]. apply Hok; [done|].
  rewrite lookup_batches, HE', <- HE, Hl. simpl. unfold batch_of, is_batch_file. by rewrite Hd, Hs, Eb.
Qed.
End listing.

(** ** Compaction *)

Section conserve.
Context {codec : BatchCodec} {order : RangeOrder} {laws : BatchCodecLaws}.
Context (s : Spool) (n : string) (d : counted) (node : string).

Abbreviation sname := (summary_name node).
Abbreviation entries_are E := (fun D => d_entries D = E).

(** Every minute fits in [int64]. *)
Definition small (B : gmap string Batch) : Prop := forall m, minute_ok m -> minute_total n d node B m <= max_i64.

Lemma scan_spec E B infos M rem D : WF n d node B -> small B -> d_entries D = E -> batches D = B ->
  StronglySorted info_le infos -> NoDup (fi_Name <$> infos) ->
  Forall (fun i => has_suffix (fi_Name i) batch_suffix = true) infos -> ScanInv n d node B infos M rem ->
  spec (entries_are E) (scan s infos M rem)
    (fun r D' => forall M' rem', r = Ok (M', rem') -> ScanInv n d node B [] M' rem') D.
Proof.
  intros HB Hs. revert M rem D. induction infos as [|file rest IH]; intros M rem D HE Hb Hsort Hnd Hsuf HI.
  { apply spec_ret; [done|]. by intros M' rem' [= <- <-]. }
  pose proof Hsort as Hsort0. apply StronglySorted_inv in Hsort as [Hsort _].
  pose proof Hnd as Hnd0. rewrite fmap_cons in Hnd. apply NoDup_cons in Hnd as [_ Hnd].
  apply Forall_cons in Hsuf as [Hf Hsuf].
  cbn [scan]. apply spec_bind. apply readBatch_spec; [done|done|intros; by apply spec_ret|].
  intros D1 b HE1 Hlk. rewrite (batches_entries D1 D) in Hlk by congruence. rewrite Hb in Hlk.
  assert (batches D1 = B) as Hb1 by (rewrite (batches_entries D1 D) by congruence; done).
  destruct (is_summary b) eqn:Esum.
  { destruct (wf_summary _ _ _ _ HB _ _ Hlk Esum) as (m & _ & _ & Hok).
    destruct (b_Events b) as [|e es] eqn:Ee; [by destruct (so_events _ _ _ Hok)|].
    apply IH; try done. by eapply ScanInv_load. }
  apply passive_call; [done|done|]. intros D2 now _ HE2.
  assert (batches D2 = B) as Hb2 by (rewrite (batches_entries D2 D) by congruence; done).
  destruct (time_Sub now (fi_ModTime file) <=? sp_maxAge s); simpl orb; cbn iota.
  { apply IH; try done. by eapply ScanInv_skip. }
  destruct (interfaceOnly b) eqn:Eio; simpl negb; cbn iota; apply IH; try done.
  - by apply ScanInv_compact.
  - by eapply ScanInv_skip.
Qed.

(** Some summaries are in place, among them those written so far. *)
Lemma write_summaries_spec B M rem l cur D : WF n d node B -> ScanInv n d node B [] M rem ->
  (forall k x, (k, x) ∈ l -> M !! k = Some x) -> batches D = cur -> Writing node B M cur ->
  (forall m x, minute_ok m -> M !! (node, m) = Some x -> cur !! sname m = Some x \/ ((node, m), x) ∈ l) ->
  spec (fun D => Derived n d node B (batches D)) (write_summaries l)
    (fun r D' => r = Ok tt -> Writing node B M (batches D') /\ Written node M (batches D')) D.
Proof.
  intros HB HI Hl Hcur HW Hdone. revert cur D Hcur HW Hdone.
  induction l as [|[[nd m] x] l IH]; intros cur D Hcur HW Hdone.
  { apply spec_ret; [rewrite Hcur; by eapply Writing_Derived|]. intros _. rewrite Hcur. split; [done|].
    intros m x Hm Hx. destruct (Hdone m x Hm Hx) as [?|Hin]; [done|]. by apply elem_of_nil in Hin. }
  pose proof (Hl _ _ (list_elem_of_here _ _)) as Hx.
  destruct (si_keys _ _ _ _ _ _ _ HI _ _ Hx) as (En & Hm & Hok & _). simpl in En, Hm, Hok. subst nd.
  cbn [write_summaries snd]. rewrite (so_id _ _ _ Hok). fold (sname m).
  assert (Writing node B M (<[sname m := x]> cur)) as HW' by (by apply Writing_step).
  apply spec_bind. eapply (spec_mono (fun D => Derived n d node B (batches D))); [auto| |
    exact (writeBatchFile_spec (Derived n d node B) (sname m) x cur (Writing_Derived _ _ _ _ _ _ _ HB HI HW)
             (Writing_Derived _ _ _ _ _ _ _ HB HI HW') (batchFileName_suffix _ _) m D Hcur)].
  intros [[]|e] D1 HD1 Hput; [|by apply spec_ret].
  destruct Hput as [[_ ?]|Hput]; [done|].
  apply (IH ltac:(intros; apply Hl; by apply list_elem_of_further) (<[sname m := x]> cur)); [done|done|].
  intros m' x' Hm' Hx'. destruct (decide (m' = m)) as [->|Hne].
  - left. rewrite lookup_insert_eq. congruence.
  - rewrite lookup_insert_ne by (intros Eq; by apply summary_name_inj in Eq).
    destruct (Hdone m' x' Hm' Hx') as [?|Hin]; [by left|right].
    apply elem_of_cons in Hin as [?|?]; [congruence|done].
Qed.

Lemma remove_all_spec B M rem l D : WF n d node B -> ScanInv n d node B [] M rem -> (forall f, f ∈ l -> f ∈ rem) ->
  Derived n d node B (batches D) -> Written node M (batches D) ->
  spec (fun D => Derived n d node B (batches D)) (remove_all l) (fun _ _ => True) D.
Proof.
  intros HB HI Hl. revert D. induction l as [|f l IH]; intros D HD HW; [by apply spec_ret|].
  cbn [remove_all]. apply spec_call; [done|]. intros D1 r E.
  apply remove_batches in E. destruct E as [[E _]|E].
  - destruct r as [[]|what]; [apply IH; [set_solver|by rewrite E..]|apply spec_ret; [by rewrite E|done]].
  - destruct (remove_step n d node B M rem (batches D) f HB HI HD HW) as [HD1 HW1]; [set_solver|].
    destruct r as [[]|what]; [apply IH; [set_solver|by rewrite E..]|apply spec_ret; [by rewrite E|done]].
Qed.

Lemma compact_spec E B infos D : WF n d node B -> small B -> listing E infos -> d_entries D = E -> batches D = B ->
  spec (fun D => Derived n d node B (batches D)) (compactExpiredInterfaces s infos) (fun _ _ => True) D.
Proof.
  intros HB Hs HL HE Hb. assert (Derived n d node B B) as HD0 by (by apply Derived_refl).
  assert (forall D', d_entries D' = E -> batches D' = B) as Hsame
    by (intros D' HE'; rewrite (batches_entries D' D) by congruence; done).
  apply spec_bind. eapply (spec_mono (entries_are E)); [intros w ->%Hsame; exact HD0| |
    apply (scan_spec E B infos ∅ [] D); try done].
  2: apply ls_sorted in HL; exact HL.
  2: by eapply listing_NoDup.
  2: { apply Forall_forall. intros i Hi. destruct (listing_in E infos i HL Hi) as (e & _ & Hbf & _).
       unfold is_batch_file in Hbf. by apply andb_true_iff in Hbf as [_ ?]. }
  2: { apply ScanInv_start. intros f b Hf. rewrite <- Hb in Hf. by eapply listing_batches. }
  intros [[M rem]|e] D1 HE1 HI; [|apply spec_ret; [|done]]; pose proof (Hsame D1 HE1) as Hb1; [|by rewrite Hb1].
  specialize (HI M rem eq_refl). destruct rem as [|f0 rem0] eqn:Erem; [apply spec_ret; [by rewrite Hb1|done]|].
  rewrite <- Erem in *. clear Erem.
  apply spec_bind. eapply (spec_mono (fun D => Derived n d node B (batches D))); [auto| |
    apply (write_summaries_spec B M rem (range M) B); [done|done| |done| |]].
  - intros [[]|e] D2 HD2 H; [|by apply spec_ret]. destruct (H eq_refl) as [HW HWr].
    apply spec_bind. apply (sync_spec (Derived n d node B)); [done|].
    intros r D3 H3. destruct r as [[]|e]; [|apply spec_ret; [by rewrite H3|done]].
    apply spec_bind. eapply (spec_mono (fun D => Derived n d node B (batches D))); [auto| |
      apply (remove_all_spec B M rem rem); [done|done|done|by rewrite H3..]].
    intros [[]|e] D4 HD4 _; [|by apply spec_ret]. by apply (sync_spec (Derived n d node B)).
  - intros k x. rewrite range_perm, elem_of_map_to_list. done.
  - intros f. by left.
  - intros m x Hm Hx. right. by rewrite range_perm, elem_of_map_to_list.
Qed.
End conserve.

(** ** Eviction *)

Section evict.
Context {codec : BatchCodec} {order : RangeOrder}.
Context (s : Spool) (c : nat -> time).

(** The limits a file exceeds, by some answer of the clock. *)
Definition over_limit (total : Z) (i : FileInfo) : Prop :=
  sp_maxBytes s < total \/ exists k, sp_maxAge s < time_Sub (c k) (fi_ModTime i).

(** What eviction leaves: files within the limits and protected batches. *)
Definition kept (B : gmap string Batch) (total : Z) (i : FileInfo) : Prop :=
  (total <= sp_maxBytes s /\ exists k, time_Sub (c k) (fi_ModTime i) <= sp_maxAge s) \/
  (exists b, B !! fi_Name i = Some b /\ protectedBatch b = true).

(** Eviction as a relation: as long as two files are left, the first one that exceeds
    a limit and is not protected goes. *)
Inductive evictions (B : gmap string Batch) : list FileInfo -> list (FileInfo * Batch) -> list FileInfo -> Prop :=
| ev_done infos : evictions B infos [] infos
| ev_drop before i after b dropped infos' :
    (2 <= length (before ++ i :: after))%nat ->
    Forall (kept B (sumZ fi_Size (before ++ i :: after))) before ->
    over_limit (sumZ fi_Size (before ++ i :: after)) i ->
    B !! fi_Name i = Some b -> protectedBatch b = false ->
    evictions B (before ++ after) dropped infos' ->
    evictions B (before ++ i :: after) ((i, b) :: dropped) infos'.

Definition still (E : gmap string entry) (D : dir) : Prop := d_entries D = E /\ d_clock D = c.

Lemma clock_constant {X} (e : sys X) D : d_clock (handle e D).1 = d_clock D.
Proof.
  unfold handle, sys_handler, sys_handle. destruct (d_fates D) as [|[[?|?]|] ?], e; simpl; repeat case_match; done.
Qed.

Lemma still_call {A X} (e : sys X) (k : X -> prog sys A) Q D E : passive e = true -> still E D ->
  (forall D' x, handle e D = (D', x) -> still E D' -> spec (still E) (k x) Q D') ->
  spec (still E) (prog_bind (call e) k) Q D.
Proof.
  intros He [HE Hc] Hk. apply spec_call; [done|]. intros D' x Eh. apply Hk; [done|].
  pose proof (passive_entries e D He) as H. pose proof (clock_constant e D) as H2. rewrite Eh in H, H2. simpl in *.
  split; congruence.
Qed.

Lemma still_readBatch E D name Q : still E D -> has_suffix name batch_suffix = true ->
  (forall D' e, still E D' -> Q (Err e) D') ->
  (forall D' b, still E D' -> batches D' !! name = Some b -> Q (Ok b) D') ->
  spec (still E) (readBatch name) Q D.
Proof.
  intros HE Hs Herr Hok. apply still_call; [done|done|]. intros D' [x|what] Ec HE'; [|by apply spec_ret; [|apply Herr]].
  apply read_file in Ec as (e & Hl & Hd & <-). apply spec_ret; [done|].
  destruct (decode_batch (e_content e)) as [b|] eqn:Eb; [|by apply Herr]. apply Hok; [done|].
  rewrite lookup_batches. destruct HE as [HE _], HE' as [HE' _]. rewrite HE', <- HE, Hl. simpl.
  unfold batch_of, is_batch_file. by rewrite Hd, Hs, Eb.
Qed.

Definition candidate (B : gmap string Batch) (total : Z) (infos : list FileInfo)
  (found : option (list FileInfo * FileInfo * list FileInfo)) : Prop :=
  match found with
  | None => Forall (kept B total) infos
  | Some (before, i, after) => infos = before ++ i :: after /\ Forall (kept B total) before /\ over_limit total i /\
      exists b, B !! fi_Name i = Some b /\ protectedBatch b = false
  end.

Lemma find_candidate_spec E B total before infos D : still E D -> batches D = B ->
  Forall (fun i => has_suffix (fi_Name i) batch_suffix = true) infos -> Forall (kept B total) before ->
  spec (still E) (find_candidate s total before infos)
    (fun r _ => forall found, r = Ok found -> candidate B total (before ++ infos) found) D.
Proof.
  intros HE HB Hs. revert before D HE HB. induction Hs as [|i infos Hi Hs IH]; intros before D HE HB Hk.
  { apply spec_ret; [done|]. intros found [= <-]. by rewrite app_nil_r. }
  cbn [find_candidate]. apply still_call; [done|done|]. intros D1 now Et HE1. apply now_value in Et.
  assert (forall D', still E D' -> batches D' = B) as Hsame.
  { intros D' [H _]. destruct HE as [HE _]. rewrite (batches_entries D' D) by congruence. done. }
  assert (forall D', still E D' -> kept B total i ->
    spec (still E) (find_candidate s total (before ++ [i]) infos)
      (fun r _ => forall found, r = Ok found -> candidate B total (before ++ i :: infos) found) D') as Hnext.
  { intros D' HE' Hki. change (i :: infos) with ([i] ++ infos). rewrite app_assoc. apply IH; [done|by apply Hsame|].
    apply Forall_app. split; [done|]. by apply Forall_singleton. }
  assert (time_Sub now (fi_ModTime i) = time_Sub (c (d_ticks D)) (fi_ModTime i)) as Hnow
    by (destruct HE as [_ <-]; by rewrite Et).
  destruct (negb (sp_maxAge s <? time_Sub now (fi_ModTime i)) && (total <=? sp_maxBytes s)) eqn:Elim; cbn iota.
  { apply Hnext; [done|]. left. split; [lia|]. exists (d_ticks D). lia. }
  apply spec_bind, still_readBatch; [done|done|intros; by apply spec_ret|]. intros D2 b HE2 Hb. rewrite Hsame in Hb by done.
  destruct (protectedBatch b) eqn:Ep; [apply Hnext; [done|right; eauto]|].
  apply spec_ret; [done|]. intros found [= <-]. split_and!; [done..| |eauto].
  apply andb_false_iff in Elim as [?|?]; [right; exists (d_ticks D)|left]; lia.
Qed.

Lemma remove_entries name D D' r : handle (SRemove name) D = (D', r) ->
  (d_entries D' = d_entries D /\ is_ok r = false) \/ d_entries D' = delete name (d_entries D).
Proof.
  unfold handle, sys_handler, sys_handle. destruct (d_fates D) as [|[[?|?]|] ?]; simpl; intros E;
    repeat match type of E with context [match ?x with _ => _ end] => destruct x eqn:?; simpl in E end;
    simplify_eq; simpl; auto.
Qed.

Lemma listing_suffix E infos : listing E infos -> Forall (fun i => has_suffix (fi_Name i) batch_suffix = true) infos.
Proof.
  intros HL. apply Forall_forall. intros i Hi. destruct (listing_in E infos i HL Hi) as (e & _ & Hbf & _).
  unfold is_batch_file in Hbf. by apply andb_true_iff in Hbf as [_ ?].
Qed.

Lemma listing_delete E before i after : listing E (before ++ i :: after) ->
  listing (delete (fi_Name i) E) (before ++ after).
Proof.
  intros HL. pose proof (listing_in _ _ i HL ltac:(set_solver)) as (e & He & Hb & Ei). constructor.
  - pose proof (ls_sorted _ _ HL) as Hs. clear -Hs. induction before as [|x before IH]; simpl in *.
    + by apply StronglySorted_inv in Hs as [? _].
    + apply StronglySorted_inv in Hs as [Hs Hx]. constructor; [by apply IH|].
      rewrite !Forall_app, Forall_cons in Hx. apply Forall_app. tauto.
  - apply (Permutation_cons_inv (a := i)). rewrite Permutation_middle, (ls_perm _ _ HL).
    rewrite <- (map_to_list_delete E (fi_Name i) e) by done. unfold batch_infos. cbn [omap list_omap fst snd].
    by rewrite Hb, <- Ei.
Qed.

(** What the outer loop leaves, and what it reports. *)
Definition evicted (B : gmap string Batch) (infos : list FileInfo) (report : DropReport)
  (r : list FileInfo * Z * DropReport) (D' : dir) : Prop :=
  let '(infos', total', report') := r in
  exists dropped, evictions B infos dropped infos' /\ listing (d_entries D') infos' /\ total' = sumZ fi_Size infos' /\
    ((length infos' <= 1)%nat \/ Forall (kept B total') infos') /\
    dr_DroppedBatches report' = dr_DroppedBatches report + Z.of_nat (length dropped) /\
    dr_DroppedEvents report' =
      dr_DroppedEvents report + sumZ (fun ib => Z.of_nat (length (b_Events ib.2))) dropped.

Lemma evictions_agree B B' infos dropped infos' : (forall i, i ∈ infos -> B !! fi_Name i = B' !! fi_Name i) ->
  evictions B infos dropped infos' -> evictions B' infos dropped infos'.
Proof.
  intros HB H. induction H as [|before i after b dropped infos' Hl Hk Ho Hb Hp H IH]; [constructor|].
  econstructor; try done.
  - apply Forall_forall. intros j Hj. rewrite Forall_forall in Hk. destruct (Hk j Hj) as [?|(x & Hx & ?)]; [by left|right].
    exists x. rewrite <- HB by set_solver. done.
  - rewrite <- HB by set_solver. done.
  - apply IH. intros j Hj. apply HB. set_solver.
Qed.

Lemma evictions_kept B infos dropped infos' i : evictions B infos dropped infos' -> i ∈ infos' -> i ∈ infos.
Proof. induction 1; set_solver. Qed.

Lemma listing_delete_batches E before i after D D' : listing E (before ++ i :: after) ->
  d_entries D = E -> d_entries D' = delete (fi_Name i) E ->
  forall j, j ∈ before ++ after -> batches D' !! fi_Name j = batches D !! fi_Name j.
Proof.
  intros HL HE HE' j Hj. rewrite !lookup_batches, HE, HE', lookup_delete_ne; [done|]. intros En.
  pose proof (listing_NoDup _ _ HL) as Hnd. rewrite fmap_app, fmap_cons in Hnd.
  apply NoDup_app in Hnd as (_ & Hn1 & [Hn2 _]%NoDup_cons). apply elem_of_app in Hj as [Hj|Hj].
  - apply (Hn1 (fi_Name j)); [by apply list_elem_of_fmap_2|rewrite En; apply list_elem_of_here].
  - apply Hn2. rewrite En. by apply list_elem_of_fmap_2.
Qed.

Section keeps.
Context (J : gmap string Batch -> Prop).
Context (HJ : forall cur f b, J cur -> cur !! f = Some b -> protectedBatch b = false -> J (delete f cur)).

Definition keeps (D : dir) : Prop := d_clock D = c /\ J (batches D).

Lemma still_keeps D0 D : J (batches D0) -> still (d_entries D0) D -> keeps D.
Proof. intros Hj [HE Hc]. split; [done|]. by rewrite (batches_entries D D0). Qed.

(** Reading the chosen file again and removing it. *)
Lemma drop_spec {A} D0 D i b text (k : Batch -> prog sys (result string A)) Q :
  J (batches D0) -> still (d_entries D0) D -> has_suffix (fi_Name i) batch_suffix = true ->
  batches D0 !! fi_Name i = Some b -> protectedBatch b = false ->
  (forall e D', Q (Err e) D') ->
  (forall D', keeps D' -> d_entries D' = delete (fi_Name i) (d_entries D0) -> spec keeps (k b) Q D') ->
  spec keeps (or_return (readBatch (fi_Name i)) (fun batch => or_fail (SRemove (fi_Name i)) text (fun _ => k batch))) Q D.
Proof.
  intros Hj HS Hs Hb Hp Herr Hk. apply spec_bind.
  eapply (spec_mono (still (d_entries D0))); [intros w Hw; by eapply still_keeps| |
    apply (still_readBatch (d_entries D0) D _
      (fun r D' => still (d_entries D0) D' /\ forall x, r = Ok x -> batches D0 !! fi_Name i = Some x)); [done|done| |]].
  2: { intros D' e HS'. by split. }
  2: { intros D' x HS' Hx. split; [done|]. intros y [= <-]. by rewrite <- (batches_entries D' D0) by apply HS'. }
  intros [b'|e] D2 _ [HS2 Hb']; [|by apply spec_ret; [eapply still_keeps|]]. specialize (Hb' b' eq_refl).
  assert (b' = b) as -> by congruence. pose proof (still_keeps _ _ Hj HS2) as [Hc2 HJ2].
  apply spec_call; [done|]. intros D3 r Er.
  assert (keeps D3) as HK3.
  { split; [pose proof (clock_constant (SRemove (fi_Name i)) D2) as H; rewrite Er in H; simpl in H; congruence|].
    apply remove_batches in Er as [[-> _]| ->]; [done|]. eapply HJ; [done| |done].
    by rewrite (batches_entries D2 D0) by apply HS2. }
  destruct r as [[]|what]; [|by apply spec_ret]. apply Hk; [done|].
  apply remove_entries in Er as [[_ ?]|Er]; [done|]. by rewrite Er, (proj1 HS2).
Qed.

Lemma evict_spec fuel infos report D : (length infos <= fuel)%nat -> listing (d_entries D) infos -> keeps D ->
  spec keeps (evict s fuel infos (sumZ fi_Size infos) report)
    (fun r D' => forall x, r = Ok x -> evicted (batches D) infos report x D') D.
Proof.
  revert infos report D. induction fuel as [|fuel IH]; intros infos report D Hf HL HK.
  { apply spec_ret; [done|]. intros x [= <-]. exists []. split_and!; [constructor|done|done|left; lia|simpl; lia|simpl; lia]. }
  cbn [evict]. destruct (Nat.leb_spec (length infos) 1) as [Hle|Hgt].
  { apply spec_ret; [done|]. intros x [= <-]. exists []. split_and!; [constructor|done|done|by left|simpl; lia|simpl; lia]. }
  apply spec_bind. eapply (spec_mono (still (d_entries D))); [intros w Hw; eapply still_keeps, Hw; apply HK| |
    by apply (find_candidate_spec (d_entries D) (batches D)); [split; [|apply HK]|done|eapply listing_suffix|constructor]].
  intros [found|e] D1 HS Hcand; [|by apply spec_ret; [eapply still_keeps, HS; apply HK|]]. specialize (Hcand found eq_refl).
  destruct found as [[[before i] after]|].
  2: { apply spec_ret; [eapply still_keeps, HS; apply HK|]. intros x [= <-]. exists []. destruct HS as [HE1 _].
       rewrite <- HE1 in HL. split_and!; [constructor|done|done|by right|simpl; lia|simpl; lia]. }
  destruct Hcand as (Hin & Hk & Ho & b & Hb & Hp). simpl in Hin. subst infos.
  pose proof (listing_suffix _ _ HL) as Hs. rewrite Forall_app, Forall_cons in Hs.
  apply (drop_spec D D1 i b); [apply HK|done|tauto|done|done|done|]. intros D3 HK3 E3.
  replace (sumZ fi_Size (before ++ i :: after) - fi_Size i) with (sumZ fi_Size (before ++ after))
    by (rewrite !sumZ_app; simpl; lia).
  pose proof (listing_delete _ _ _ _ HL) as HL3. rewrite <- E3 in HL3.
  pose proof (listing_delete_batches _ _ _ _ D D3 HL eq_refl E3) as Hagree.
  eapply (spec_mono keeps); [auto| |apply IH; [|done|done]].
  2: { rewrite length_app in *. simpl in Hf. lia. }
  intros r D4 _ H [[infos' total'] report'] ->. destruct (H _ eq_refl) as (dropped & Hev & HL' & Ht & Hend & Hr1 & Hr2).
  exists ((i, b) :: dropped). split_and!; [|done|done| |rewrite Hr1; simpl; lia|rewrite Hr2; simpl; lia].
  - econstructor; try done. by eapply evictions_agree.
  - destruct Hend as [?|Hend]; [by left|right]. apply Forall_forall. intros j Hj. rewrite Forall_forall in Hend.
    destruct (Hend j Hj) as [?|(x & Hx & ?)]; [by left|right]. exists x. split; [|done]. rewrite <- Hagree; [done|].
    by eapply evictions_kept.
Qed.
End keeps.
End evict.

(** ** Conservation *)

Section conservation.
Context {codec : BatchCodec} {order : RangeOrder} {laws : BatchCodecLaws}.
Context (s : Spool) (n : string) (d : counted) (node : string).

Abbreviation J B := (fun D => Derived n d node B (batches D)).

Lemma prune_conserves B D : WF n d node B -> small n d node B -> batches D = B -> spec (J B) (prune s) (fun _ _ => True) D.
Proof.
  intros HB Hs Hb. assert (forall D', d_entries D' = d_entries D -> batches D' = B) as Hsame
    by (intros D' HE; by rewrite (batches_entries D' D)).
  apply spec_bind. eapply (spec_mono (fun D' => d_entries D' = d_entries D)); [| |by apply files_spec].
  { intros w ->%Hsame. by apply Derived_refl. }
  intros [infos|e] D1 HE1 HL; pose proof (Hsame D1 HE1) as Hb1; [|by apply spec_ret; [rewrite Hb1; apply Derived_refl|]].
  specialize (HL infos eq_refl). subst infos.
  apply spec_bind. eapply (spec_mono (J B)); [auto| |by eapply compact_spec; [..|apply listed_files_listing| |]].
  intros [[]|e] D2 HD2 _; [|by apply spec_ret].
  apply spec_bind. eapply (spec_mono (fun D' => d_entries D' = d_entries D2)); [| |by apply files_spec].
  { intros w HE. by rewrite (batches_entries w D2). }
  intros [infos2|e] D3 HE3 HL3; [|by apply spec_ret; [rewrite (batches_entries D3 D2)|]].
  specialize (HL3 infos2 eq_refl). pose proof (listed_files_listing (d_entries D2)) as HL2. rewrite <- HL3, <- HE3 in HL2.
  apply spec_bind. eapply (spec_mono (keeps (d_clock D3) (Derived n d node B))); [by intros w []| |].
  2: { apply (evict_spec s (d_clock D3) (Derived n d node B)); [|done|done|split; [done|by rewrite (batches_entries D3 D2)]].
       intros cur f b. by apply evict_step. }
  intros [[[infos' total'] rep]|e] D4 [_ HD4] _; [|by apply spec_ret].
  apply spec_bind. eapply (spec_mono (J B)); [auto| |].
  2: { instantiate (1 := fun _ _ => True). destruct (0 <? _); [by apply (sync_spec (Derived n d node B))|by apply spec_ret]. }
  intros [[]|e] D5 HD5 _; [|by apply spec_ret]. destruct infos' as [|i infos']; [by apply spec_ret|].
  apply (spec_harmless (Derived n d node B)); [done|done|]. intros D6 now _ H6. by apply spec_ret; [rewrite H6|].
Qed.

(** Queueing, wherever it stops: the batches came out of the directory as it was, or
    of the directory with the batch added. *)
Lemma Enqueue_conserves B b D : let name := batchFileName (b_BatchID b) (d_clock D (d_ticks D)) in
  batches D = B -> WF n d node B -> queueable n d node B name b -> small n d node B -> small n d node (<[name := b]> B) ->
  spec (fun D => J B D \/ J (<[name := b]> B) D) (Enqueue s b)
    (fun r D' => is_ok r = true -> J (<[name := b]> B) D') D.
Proof.
  intros name Hb HB HQ Hs Hs'. pose proof (queue_WF _ _ _ _ _ _ HB HQ) as HB'.
  apply spec_bind. eapply (spec_mono (fun D => Derived n d node B (batches D) \/ Derived n d node (<[name := b]> B) (batches D))); [auto| |].
  2: { apply (publish_puts (fun cur => Derived n d node B cur \/ Derived n d node (<[name := b]> B) cur) b D B name); [done|..|done].
       - left. by apply Derived_refl.
       - right. by apply Derived_refl. }
  intros [[]|e] D1 HD1 Hput; [|by apply spec_ret].
  destruct Hput as [[_ ?]|Hput]; [done|]. eapply (spec_mono (J (<[name := b]> B))); [auto| |by apply prune_conserves].
  intros r D2 HD2 _ _. exact HD2.
Qed.
End conservation.

(** C7. Queueing never loses interface bytes: wherever [Enqueue] is stopped and
    whichever of its file operations fail, before or after their effect, the spool is
    well formed and holds for every minute the bytes it held before, or these and the
    bytes of the new batch, once; the latter when [Enqueue] reports success.  So
    merging expired batches into minute summaries, removing them and evicting
    batches conserve the bytes of every interface, direction and minute. *)
Theorem enqueue_conserves {codec : BatchCodec} {order : RangeOrder} {laws : BatchCodecLaws}
    (s : Spool) (n : string) (d : counted) (node : string) (D : dir) (b : Batch) (stop : nat) :
  let B := batches D in
  let name := batchFileName (b_BatchID b) (d_clock D (d_ticks D)) in
  let stopped := run stop (Enqueue s b) D in
  WF n d node B -> queueable n d node B name b -> small n d node B -> small n d node (<[name := b]> B) ->
  WF n d node (batches stopped.1) /\
  exists queued : bool,
    (forall r, stopped.2 = Some (Ok r) -> queued = true) /\
    forall m, minute_ok m ->
      minute_total n d node (batches stopped.1) m =
      minute_total n d node B m + (if queued then added_bytes n d node B b m else 0).
Proof.
  intros B name stopped HB HQ Hs Hs'.
  pose proof (Enqueue_conserves s n d node B b D eq_refl HB HQ Hs Hs') as Hsp.
  apply (spec_run _ stop) in Hsp as [HJ Hret]. fold stopped in HJ, Hret.
  pose proof (queue_WF _ _ _ _ _ _ HB HQ) as HB'.
  assert (Derived n d node (<[name := b]> B) (batches stopped.1) ->
    forall m, minute_ok m -> minute_total n d node (batches stopped.1) m = minute_total n d node B m + added_bytes n d node B b m) as Hnew.
  { intros HD m Hm. rewrite (Derived_total _ _ _ _ _ _ HD Hm). by apply queue_total. }
  destruct HJ as [HD|HD]; (split; [eapply Derived_WF, HD; done|]); fold name in HD; [|by exists true; split; [|apply Hnew]].
  destruct stopped as [w' [[r|e]|]] eqn:Es; simpl in *.
  - exists true. split; [done|]. apply Hnew. by apply (Hret (Ok r)).
  - exists false. split; [done|]. intros m Hm. rewrite Z.add_0_r. by apply Derived_total.
  - exists false. split; [done|]. intros m Hm. rewrite Z.add_0_r. by apply Derived_total.
Qed.

(** C10. Eviction takes the oldest batches that exceed a limit and no protected one:
    the files of the listing go one after the other by the rule [evictions], the
    report counts the batches and events that went, and the loop ends by its own
    condition — one file is left, or every file is protected or within the limits. *)
Theorem evict_refines {codec : BatchCodec} (s : Spool) (D : dir) (infos infos' : list FileInfo)
    (total' : Z) (report report' : DropReport) :
  listing (d_entries D) infos ->
  (exec (evict s (length infos) infos (sumZ fi_Size infos) report) D).2 = Ok (infos', total', report') ->
  evicted s (d_clock D) (batches D) infos report (infos', total', report')
    (exec (evict s (length infos) infos (sumZ fi_Size infos) report) D).1.
Proof.
  intros HL E. pose proof (evict_spec s (d_clock D) (fun _ => True) ltac:(done) (length infos) infos report D
    ltac:(lia) HL ltac:(split; done)) as Hsp.
  apply spec_exec in Hsp as [_ H]. by apply H.
Qed.

(** ** A concrete spool

    Two batches of one interface an hour apart; the encoding numbers a list of batches. *)

Module DemoSpool.
#[export] Instance order : RangeOrder := {| range V m := map_to_list m; range_perm V m := reflexivity _ |}.
Definition node : string := "node-a".
Definition t1 : time := 1700000000 * Second.
Definition t2 : time := t1 + Hour.
Definition old : Batch := traffic_batch node t1 (Delta Sample.before Sample.after DefaultAllowed t1).
Definition new : Batch := traffic_batch node t2 (Delta Sample.before Sample.after DefaultAllowed t2).
Definition minute : time := Truncate t1 Minute.
Definition summary : Batch := default old (compact_batch old ∅ !! (node, minute)).
(** A batch of another collector, which eviction may take. *)
Definition detail : Batch := MkBatch 1 "detail" node t1
  [MkEvent "e1" t1 EventConnection "" 0 0 "" None None None None None] [].
Definition table : list Batch := [old; new; summary; detail].
#[export] Instance codec : BatchCodec := {
  encode_batch b := (fun p => [Z.of_nat p.1]) <$> list_find (fun x => x = b) table;
  decode_batch bytes := match bytes with
    | [i] => match table !! Z.to_nat i with Some b => Ok b | None => Err "decode" end | _ => Err "decode" end }.
Definition spool : Spool := MkSpool "/var/spool" defaultMaxBytes defaultMaxAge.
Definition old_name : string := batchFileName (b_BatchID old) t1.
Definition new_name : string := batchFileName (b_BatchID new) t2.
Definition dir0 (fates : list (option fault)) : dir :=
  MkDir {[old_name := MkEntry false [0] t1]} None (fun _ => t2) 0 fates.

Abbreviation iface := "enp0s6".

Lemma old_queueable : queueable iface Inbound node ∅ old_name old.
Proof.
  constructor.
  - apply lookup_empty.
  - by vm_compute.
  - by vm_compute.
  - apply (bool_decide_unpack _). by vm_compute.
  - apply Forall_forall, (bool_decide_unpack _). by vm_compute.
  - intros g c Hg. by rewrite lookup_empty in Hg.
  - intros e _. revert e. apply Forall_forall, (bool_decide_unpack _). by vm_compute.
  - intros m. apply queued_apart; unfold in_clock; apply (bool_decide_unpack _); by vm_compute.
  - by vm_compute.
Qed.

Definition spooled : gmap string Batch := <[old_name := old]> ∅.

Lemma new_queueable : queueable iface Inbound node spooled new_name new.
Proof.
  constructor.
  - by vm_compute.
  - by vm_compute.
  - by vm_compute.
  - apply (bool_decide_unpack _). by vm_compute.
  - apply Forall_forall, (bool_decide_unpack _). by vm_compute.
  - unfold spooled. intros g c [[<- <-]|[_ Hg]]%lookup_insert_Some _; [|by rewrite lookup_empty in Hg]. intros E. exfalso. revert E. by vm_compute.
  - intros e _. revert e. apply Forall_forall, (bool_decide_unpack _). by vm_compute.
  - intros m. apply queued_apart; unfold in_clock; apply (bool_decide_unpack _); by vm_compute.
  - by vm_compute.
Qed.

Lemma WF_spooled : WF iface Inbound node spooled.
Proof. exact (queue_WF _ _ _ _ _ _ (WF_empty _ _ _) old_queueable). Qed.

Lemma spooled_small : small iface Inbound node spooled.
Proof.
  intros m Hm. unfold spooled. rewrite queue_total by (apply old_queueable || done). rewrite minute_total_empty.
  pose proof (added_bytes_le iface Inbound node ∅ old m (qb_counts _ _ _ _ _ _ old_queueable)) as H.
  assert (events_bytes iface Inbound (b_Events old) <= 1000) by (vm_compute; discriminate). unfold max_i64. lia.
Qed.

Lemma spooled_new_small : small iface Inbound node (<[new_name := new]> spooled).
Proof.
  intros m Hm. rewrite (queue_total iface Inbound node spooled new_name new m new_queueable Hm).
  unfold spooled. rewrite queue_total by (apply old_queueable || done). rewrite minute_total_empty.
  pose proof (added_bytes_le iface Inbound node ∅ old m (qb_counts _ _ _ _ _ _ old_queueable)) as H.
  pose proof (added_bytes_le iface Inbound node spooled new m (qb_counts _ _ _ _ _ _ new_queueable)) as H1.
  assert (events_bytes iface Inbound (b_Events old) <= 1000) by (vm_compute; discriminate).
  assert (events_bytes iface Inbound (b_Events new) <= 1000) by (vm_compute; discriminate). unfold spooled in H1. unfold max_i64. lia.
Qed.


#[export] Instance codec_laws : BatchCodecLaws.
Proof.
  constructor. intros b bytes _. unfold encode_batch, codec.
  destruct (list_find (fun x => x = b) table) as [[i x]|] eqn:E; [|done].
  apply list_find_Some in E as (Hi & -> & _). intros [= <-]. unfold decode_batch. cbn [fst].
  by rewrite Nat2Z.id, Hi.
Qed.

Lemma spooled_dir : batches (dir0 []) = spooled.
Proof. apply (bool_decide_unpack _). by vm_compute. Qed.

(** Killed after the summary is in place and before the merged batch is removed: both
    files are there, their bytes count once. *)
Lemma enqueue_conserves_witness :
  let stopped := run 28 (Enqueue spool new) (dir0 []) in
  (length (map_to_list (batches stopped.1)) = 3%nat /\
   minute_total iface Inbound node (batches stopped.1) minute = 600) /\
  WF iface Inbound node (batches stopped.1) /\
  exists queued : bool,
    (forall r, stopped.2 = Some (Ok r) -> queued = true) /\
    forall m, minute_ok m ->
      minute_total iface Inbound node (batches stopped.1) m =
      minute_total iface Inbound node spooled m + (if queued then added_bytes iface Inbound node spooled new m else 0).
Proof.
  split; [split|]. by vm_compute. by vm_compute.
  pose proof (enqueue_conserves spool iface Inbound node (dir0 []) new 28) as H. cbv zeta in H.
  rewrite spooled_dir in H.
  exact (H (WF_spooled) new_queueable spooled_small spooled_new_small).
Defined.

Definition detail_name : string := batchFileName "detail" t1.
Definition dir1 : dir :=
  MkDir {[old_name := MkEntry false [0] t1; detail_name := MkEntry false [3] t1; new_name := MkEntry false [1] t2]}
    None (fun _ => t2) 0 [].
Definition infos1 : list FileInfo := [MkFileInfo old_name 1 t1; MkFileInfo detail_name 1 t1; MkFileInfo new_name 1 t2].
Definition no_drop : DropReport := MkDropReport "" 0 0 (f64_of_Z 0).

Lemma evict_refines_witness :
  let infos' := [MkFileInfo old_name 1 t1; MkFileInfo new_name 1 t2] in
  let report' := MkDropReport "data_gap" 1 1 (f64_of_Z 0) in
  evicted spool (d_clock dir1) (batches dir1) infos1 no_drop (infos', 2, report')
    (exec (evict spool (length infos1) infos1 (sumZ fi_Size infos1) no_drop) dir1).1.
Proof.
  apply evict_refines.
  - assert (infos1 = merge_sort info_le (batch_infos (map_to_list (d_entries dir1)))) as -> by (vm_compute; reflexivity).
    constructor; [apply (StronglySorted_merge_sort _)|apply merge_sort_Permutation].
  - by vm_compute.
Defined.
End DemoSpool.
