(* ===== verification/SpoolQueue.v ===== *)
(** * The spool as the queue of the application loop

    The spool keeps the promises [AppTheorems.QueueLaws] on which the properties of
    the application loop rest: a batch whose file is in place stays in the history,
    [Peek] answers the oldest readable batch, [Ack] removes the batch it is given. *)

From stdpp Require Import base strings numbers gmap sets sorting list.
From Stdlib Require Import Ascii SpecFloat.
From S2P Require Import Prelude GoBase GoText GoModel InterfaceCounter Sha256 Sender Effects StateFile App AppTheorems.
From S2P Require Import Spool SpoolSums SpoolWf SpoolRules SpoolTheorems.

Open Scope string_scope.
Open Scope Z_scope.
Local Open Scope flow_scope.
Local Open Scope list_scope.

(** ** Names without a slash *)

Definition slash : ascii := "/"%char.

Lemma hex_nibble_slash d : 0 <= d < 16 -> hex_nibble d <> slash.
Proof.
  intros Hd E. apply (f_equal code) in E. unfold hex_nibble in E.
  destruct (d <? 10) eqn:?; rewrite code_char_of in E by (unfold is_byte; lia); change (code slash) with 47 in E; lia.
Qed.

Lemma digest_hex_slash x n : slash ∉ chars (digest_hex x n).
Proof.
  unfold digest_hex. rewrite chars_of_chars. intros Hin. unfold hex_string in Hin.
  apply list_elem_of_bind in Hin as (b & Hc & Hb). apply subseteq_take in Hb.
  unfold Sum256 in Hb. apply list_elem_of_bind in Hb as (w & Hb & _).
  assert (is_byte b) as Hbyte by (pose proof (be_bytes_bytes 4 w) as H; rewrite Forall_forall in H; by apply H).
  unfold is_byte in Hbyte. pose proof (Z.mod_pos_bound b 16). pose proof (Z.div_lt_upper_bound b 16 16).
  pose proof (Z.div_pos b 16).
  apply elem_of_cons in Hc as [E|Hc]; [symmetry in E; revert E; apply hex_nibble_slash; lia|].
  apply list_elem_of_singleton in Hc as E. symmetry in E. revert E. apply hex_nibble_slash. lia.
Qed.

Lemma format_padded_slash w z : slash ∉ format_padded w z.
Proof.
  unfold format_padded. rewrite !not_elem_of_app. split_and!.
  - case_match; [set_solver|apply not_elem_of_nil].
  - intros [E _]%elem_of_replicate. discriminate E.
  - intros Hin. unfold format_uint in Hin. rewrite elem_of_reverse in Hin.
    pose proof (digits_rev_digits 20 (Z.abs z) ltac:(lia)) as H. rewrite Forall_forall in H. apply H in Hin. done.
Qed.

Lemma batchFileName_slash id t : slash ∉ chars (batchFileName id t).
Proof.
  unfold batchFileName. rewrite !chars_app, chars_of_chars, !not_elem_of_app. split_and!.
  - apply format_padded_slash.
  - by apply (bool_decide_unpack _).
  - apply digest_hex_slash.
  - by apply (bool_decide_unpack _).
Qed.

(** ** Directories without such names *)

Definition flat (D : dir) : Prop := map_Forall (fun f _ => slash ∉ chars f) (d_entries D).

Definition keeps_flat {X} (e : sys X) : Prop := match e with SRename name => slash ∉ chars name | _ => True end.

Lemma flat_handle {X} (e : sys X) D : keeps_flat e -> flat D -> flat (handle e D).1.
Proof.
  unfold flat, handle, sys_handler, sys_handle. intros He HD.
  destruct (d_fates D) as [|[[?|?]|] ?], e; simpl in *; repeat case_match; simpl; try done;
    try (by apply map_Forall_delete); (apply map_Forall_insert_2; [|done]); try done; by eapply HD.
Qed.

Section flat.
Context {codec : BatchCodec} {order : RangeOrder} (s : Spool).

Abbreviation calls_flat := (every_call (@keeps_flat)).

Lemma flat_bind {X B} (e : sys X) (k : X -> prog sys B) : keeps_flat e -> (forall x, calls_flat (k x)) ->
  calls_flat (prog_bind (call e) k).
Proof. done. Qed.

Lemma flat_or_fail {A B} (e : sys (result string A)) context (k : A -> prog sys (result string B)) : keeps_flat e ->
  (forall a, calls_flat (k a)) -> calls_flat (or_fail e context k).
Proof. intros He Hk. split; [done|]. intros [a|]; [apply Hk|done]. Qed.

Lemma flat_or_return {A B} (p : prog sys (result string A)) (k : A -> prog sys (result string B)) : calls_flat p ->
  (forall a, calls_flat (k a)) -> calls_flat (or_return p k).
Proof. intros Hp Hk. apply every_call_bind; [done|]. intros [a|]; [apply Hk|done]. Qed.

Lemma flat_bail {B} closes err : Forall keeps_flat closes -> calls_flat (@bail B closes err).
Proof. intros H. induction H as [|e l He H IH]; [done|]. split; [exact He|intros x; exact IH]. Qed.

Lemma flat_or_bail {B} (e : sys (result string unit)) closes f (k : prog sys (result string B)) :
  keeps_flat e -> Forall keeps_flat closes -> calls_flat k -> calls_flat (or_bail e closes f k).
Proof. intros He Hc Hk. split; [done|]. intros []; [done|by apply flat_bail]. Qed.

Lemma flat_syncDirectory : calls_flat syncDirectory.
Proof. apply flat_or_fail; [done|]. intros _. by apply flat_or_fail. Qed.

Lemma flat_readBatch name : calls_flat (readBatch name).
Proof. by apply flat_or_fail. Qed.

Lemma flat_list_infos l acc : calls_flat (list_infos l acc).
Proof.
  revert acc. induction l as [|[name isDir] l IH]; intros acc; [done|]. cbn [list_infos].
  destruct (_ || _); [apply IH|]. by apply flat_or_fail.
Qed.

Lemma flat_files : calls_flat files.
Proof. apply flat_or_fail; [done|]. intros. apply flat_list_infos. Qed.

Lemma flat_scan infos M rem : calls_flat (scan s infos M rem).
Proof.
  revert M rem. induction infos as [|i infos IH]; intros M rem; [done|]. cbn [scan].
  apply flat_or_return; [apply flat_readBatch|]. intros b. destruct (is_summary b); [by destruct (b_Events b)|].
  apply flat_bind; [done|]. intros now. by destruct (_ || _).
Qed.

Lemma flat_writeBatchFile id t b q : calls_flat (writeBatchFile (batchFileName id t) b q).
Proof.
  unfold writeBatchFile. destruct (Validate b); [|done]. apply flat_or_fail; [done|]. intros _.
  apply flat_or_bail; [done|constructor|]. destruct (encode_batch b); [|apply flat_bail; by repeat constructor].
  do 6 (apply flat_or_bail; [apply batchFileName_slash || done|by repeat constructor|]).
  apply flat_bind; done.
Qed.

Lemma flat_write_summaries l : calls_flat (write_summaries l).
Proof.
  induction l as [|[key b] l IH]; [done|]. cbn [write_summaries].
  apply flat_or_return; [apply flat_writeBatchFile|done].
Qed.

Lemma flat_remove_all l : calls_flat (remove_all l).
Proof. induction l as [|f l IH]; [done|]. by apply flat_or_fail. Qed.

Lemma flat_compact infos : calls_flat (compactExpiredInterfaces s infos).
Proof.
  apply flat_or_return; [apply flat_scan|]. intros [M [|f rem]]; [done|].
  apply flat_or_return; [apply flat_write_summaries|]. intros _.
  apply flat_or_return; [apply flat_syncDirectory|]. intros _.
  apply flat_or_return; [apply flat_remove_all|]. intros _. apply flat_syncDirectory.
Qed.

Lemma flat_find_candidate total before infos : calls_flat (find_candidate s total before infos).
Proof.
  revert before. induction infos as [|i infos IH]; intros before; [done|]. cbn [find_candidate].
  apply flat_bind; [done|]. intros now. destruct (_ && _); [done|].
  apply flat_or_return; [apply flat_readBatch|]. intros b. by destruct (protectedBatch b).
Qed.

Lemma flat_evict fuel infos total rep : calls_flat (evict s fuel infos total rep).
Proof.
  revert infos total rep. induction fuel as [|fuel IH]; intros infos total rep; [done|]. cbn [evict].
  destruct (_ <=? _)%nat; [done|]. apply flat_or_return; [apply flat_find_candidate|].
  intros [[[before i] after]|]; [|done]. apply flat_or_return; [apply flat_readBatch|]. intros b.
  by apply flat_or_fail.
Qed.

Lemma flat_prune : calls_flat (prune s).
Proof.
  apply flat_or_return; [apply flat_files|]. intros infos. apply flat_or_return; [apply flat_compact|]. intros _.
  apply flat_or_return; [apply flat_files|]. intros infos'. apply flat_or_return; [apply flat_evict|].
  intros [[infos2 total] rep]. apply flat_or_return; [destruct (_ <? _); [apply flat_syncDirectory|done]|]. intros _.
  by destruct infos2.
Qed.

Lemma flat_publish b : calls_flat (publish b).
Proof.
  unfold publish. destruct (Validate b); [|done]. apply flat_bind; [done|]. intros t.
  apply flat_or_fail; [done|]. intros _. apply flat_or_bail; [done|by repeat constructor|].
  destruct (encode_batch b); [|apply flat_bail; by repeat constructor].
  do 5 (apply flat_or_bail; [apply batchFileName_slash || done|by repeat constructor|]).
  apply flat_or_fail; [done|]. intros _. apply flat_syncDirectory.
Qed.

Lemma flat_Enqueue b : calls_flat (Enqueue s b).
Proof. apply flat_or_return; [apply flat_publish|]. intros _. apply flat_prune. Qed.

Lemma flat_Peek : calls_flat (Peek s).
Proof.
  apply flat_or_return; [apply flat_files|]. intros [|i infos]; [done|]. apply flat_or_fail; [done|].
  intros c. destruct (decode_batch c); [|done]. by destruct (Validate _).
Qed.

Lemma flat_Ack i : calls_flat (Ack s i).
Proof.
  unfold Ack. destruct (name_in s _); [|done]. destruct (has_suffix _ _); [|done].
  apply flat_or_fail; [done|]. intros _. apply flat_syncDirectory.
Qed.
End flat.

(** ** The contents *)

Section contents.
Context {codec : BatchCodec} {order : RangeOrder} {laws : BatchCodecLaws} (s : Spool).

Definition item_of (D : dir) (i : FileInfo) : option Item :=
  match batches D !! fi_Name i with
  | Some b => if is_ok (Validate b) then Some (MkItem b (path_of s (fi_Name i))) else None
  | None => None
  end.

(** The readable batches, oldest first. *)
Definition queued (D : dir) : list Item := omap (item_of D) (listed_files (d_entries D)).

Lemma queued_entries D D' : d_entries D' = d_entries D -> queued D' = queued D.
Proof.
  intros HE. unfold queued. rewrite HE. assert (item_of D' = item_of D) as ->; [|done].
  unfold item_of. by rewrite (batches_entries D' D).
Qed.

Lemma Peek_spec D : spec (fun D' => d_entries D' = d_entries D) (Peek s)
  (fun r _ => forall x, r = Ok x -> x = head (queued D)) D.
Proof.
  apply spec_bind. eapply (spec_mono (fun D' => d_entries D' = d_entries D)); [auto| |by apply files_spec].
  intros [infos|e] D1 HE1 HL; [|by apply spec_ret]. specialize (HL infos eq_refl). unfold queued. rewrite <- HL.
  destruct infos as [|i infos]; [apply spec_ret; [done|]; by intros x [= <-]|].
  apply passive_call; [done|done|]. intros D2 [c|what] Ec HE2; [|by apply spec_ret].
  destruct (decode_batch c) as [b|] eqn:Eb; [|by apply spec_ret].
  destruct (Validate b) as [[]|] eqn:Ev; [|by apply spec_ret]. apply spec_ret; [done|]. intros x [= <-].
  apply read_file in Ec as (e & Hl & Hd & <-). rewrite HE1 in Hl.
  assert (item_of D i = Some (MkItem b (path_of s (fi_Name i)))) as Hi.
  { unfold item_of. rewrite lookup_batches, Hl. simpl. unfold batch_of, is_batch_file.
    pose proof (listing_suffix _ _ (listed_files_listing (d_entries D))) as Hs. rewrite <- HL in Hs.
    apply Forall_cons in Hs as [-> _]. rewrite Hd. cbn [negb andb]. rewrite Eb. by rewrite Ev. }
  cbn [omap list_omap]. by rewrite Hi.
Qed.

Lemma name_in_path name : (slash ∉ chars name) -> name_in s (path_of s name) = Some name.
Proof.
  intros Hn. unfold name_in, path_of. rewrite chars_app.
  assert (forall t, chars (sp_dir s +:+ "/" +:+ t) = chars (sp_dir s +:+ "/") ++ chars t) as ->
    by (intros t; by rewrite !chars_app, <- app_assoc).
  rewrite <- chars_app, drop_app_length, take_app_length. rewrite bool_decide_true by done.
  rewrite bool_decide_false by done. simpl. f_equal. apply of_chars_chars.
Qed.

Lemma path_suffix name : has_suffix name batch_suffix = true -> has_suffix (path_of s name) batch_suffix = true.
Proof.
  unfold has_suffix, path_of. rewrite !bool_decide_eq_true, !chars_app, !length_app.
  set (a := chars (sp_dir s)). set (b := chars "/"). set (c := chars name). set (p := chars batch_suffix).
  intros H. assert (length p <= length c)%nat.
  { apply (f_equal length) in H. rewrite length_drop in H. lia. }
  replace (length a + (length b + length c) - length p)%nat with (length (a ++ b) + (length c - length p))%nat
    by (rewrite length_app; lia).
  by rewrite app_assoc, drop_app_add.
Qed.

(** Removing the file of the oldest readable batch. *)
Lemma queued_delete D D' pre i post it : listed_files (d_entries D) = pre ++ i :: post ->
  d_entries D' = delete (fi_Name i) (d_entries D) -> item_of D i = Some it -> Forall (fun j => item_of D j = None) pre ->
  queued D' = omap (item_of D) post.
Proof.
  intros HL HE Hi Hpre. pose proof (listed_files_listing (d_entries D)) as HLs. rewrite HL in HLs.
  pose proof (listing_delete _ _ _ _ HLs) as HLd. rewrite <- HE in HLd.
  assert (listed_files (d_entries D') = pre ++ post) as Hnew.
  { pose proof (listed_files_listing (d_entries D')) as HL'. apply (StronglySorted_unique_strong info_le).
    - intros x y Hx Hy Hxy Hyx. rewrite (ls_perm _ _ HL'), <- (ls_perm _ _ HLd) in Hx.
      pose proof (listing_NoDup _ _ HLd) as Hnd. assert (fi_Name x = fi_Name y) as En by (by apply (anti_symm str_le)).
      clear -Hnd Hx Hy En. induction (pre ++ post) as [|z l IH]; [by apply elem_of_nil in Hx|].
      rewrite fmap_cons in Hnd. apply NoDup_cons in Hnd as [Hz Hnd].
      apply elem_of_cons in Hx as [->|Hx]; apply elem_of_cons in Hy as [->|Hy]; [done| | |by apply IH].
      + destruct Hz. rewrite En. by apply list_elem_of_fmap_2.
      + destruct Hz. rewrite <- En. by apply list_elem_of_fmap_2.
    - apply (ls_sorted _ _ HL').
    - apply (ls_sorted _ _ HLd).
    - by rewrite (ls_perm _ _ HL'), (ls_perm _ _ HLd). }
  assert (forall l : list FileInfo, (forall j, j ∈ l -> j ∈ pre ++ post) -> omap (item_of D') l = omap (item_of D) l) as Hsame.
  { induction l as [|j l IH]; intros Hl; [done|]. cbn [omap list_omap].
    assert (item_of D' j = item_of D j) as ->.
    { unfold item_of. rewrite (listing_delete_batches _ _ _ _ D D' HLs eq_refl HE); [done|]. apply Hl. set_solver. }
    rewrite IH; [done|]. intros. apply Hl. set_solver. }
  unfold queued. rewrite Hnew, omap_app, !Hsame by set_solver.
  clear -Hpre. induction Hpre as [|j pre Hj _ IH]; [done|]. cbn [omap list_omap app]. by rewrite Hj.
Qed.

Lemma omap_head {A B} (f : A -> option B) (l : list A) y ys : omap f l = y :: ys ->
  exists pre x post, l = pre ++ x :: post /\ Forall (fun z => f z = None) pre /\ f x = Some y /\ omap f post = ys.
Proof.
  induction l as [|a l IH]; [done|]. cbn [omap list_omap]. destruct (f a) as [b|] eqn:E.
  - intros H. injection H as -> H. exists [], a, l. split_and!; [done|constructor|done|exact H].
  - intros H. destruct (IH H) as (pre & x & post & -> & Hp & Hx & Ho). exists (a :: pre), x, post. split_and!; auto.
Qed.

Lemma Ack_spec D it rest : flat D -> queued D = it :: rest ->
  queued (exec (Ack s it) D).1 = rest \/
  (queued (exec (Ack s it) D).1 = queued D /\ is_ok (exec (Ack s it) D).2 = false).
Proof.
  intros HF Hq. apply omap_head in Hq as (pre & i & post & HL & Hpre & Hi & Hpost).
  pose proof (listed_files_listing (d_entries D)) as HLs. rewrite HL in HLs.
  destruct (listing_in _ _ i HLs ltac:(set_solver)) as (e & He & Hbf & _).
  unfold is_batch_file in Hbf. apply andb_true_iff in Hbf as [_ Hs].
  assert (it_path it = path_of s (fi_Name i)) as Hpath.
  { unfold item_of in Hi. destruct (batches D !! _); [|done]. destruct (is_ok _); [|done]. by injection Hi as <-. }
  unfold Ack. rewrite Hpath, (name_in_path (fi_Name i)) by (by eapply HF). rewrite path_suffix by done.
  assert (forall D1 (r : result string unit), d_entries D1 = delete (fi_Name i) (d_entries D) ->
    queued (exec (match r with Err w => Ret (Err (io_error "remove acknowledged batch" w)) | Ok _ => syncDirectory end) D1).1 = rest) as Hdel.
  { intros D1 r HE1. rewrite <- Hpost. eapply queued_delete; [done| |done|done].
    destruct r as [[]|w]; [|done]. rewrite <- HE1.
    assert (spec (fun D' => d_entries D' = d_entries D1) syncDirectory (fun _ _ => True) D1) as Hsp.
    { apply passive_call; [done|done|]. intros D2 [[]|?] _ H2; [|by apply spec_ret].
      apply passive_call; [done|done|]. intros D3 [[]|?] _ H3; by apply spec_ret. }
    by apply spec_exec in Hsp as [? _]. }
  unfold or_fail. rewrite exec_bind. destruct (handle (SRemove (fi_Name i)) D) as [D1 r] eqn:Er. cbn [call exec]. rewrite Er.
  cbn [fst snd]. apply remove_entries in Er as [[HE1 Hr]|HE1].
  - right. destruct r as [[]|w]; [done|]. split; [by apply queued_entries|done].
  - left. apply (Hdel D1 r HE1).
Qed.
End contents.

(** ** The interface *)

Section queue.
Context {codec : BatchCodec} {order : RangeOrder} {laws : BatchCodecLaws} (s : Spool).

(** When the publishing part of [Enqueue] is over and before it prunes, the file of batch
    [b] holds it. *)
Definition published (b : Batch) (D : dir) : bool :=
  bool_decide (batches (exec (publish b) D).1 !! batchFileName (b_BatchID b) (d_clock D (d_ticks D)) = Some b).

Lemma Enqueue_published b D : is_ok (exec (Enqueue s b) D).2 = true -> published b D = true.
Proof.
  unfold Enqueue, or_return. rewrite exec_bind. intros Hok. unfold published. apply bool_decide_eq_true.
  pose proof (publish_puts (fun _ => True) b D (batches D) _ eq_refl I I eq_refl) as Hsp.
  apply spec_exec in Hsp as [_ Hput]. destruct (exec (publish b) D) as [D1 [[]|e]]; [|done]. simpl in *.
  destruct Hput as [[_ ?]|Hput]; [done|]. by rewrite Hput, lookup_insert_eq.
Qed.

(** ** What is queued stays

    A batch that is neither a summary nor of interface deltas only leaves the directory
    only by an eviction, which the report counts. *)

Abbreviation entries_are E := (fun D => d_entries D = E).

Lemma scan_remove E B infos M rem D : d_entries D = E -> batches D = B ->
  Forall (fun i => has_suffix (fi_Name i) batch_suffix = true) infos ->
  spec (entries_are E) (scan s infos M rem) (fun r _ => forall M' rem', r = Ok (M', rem') ->
    forall f, f ∈ rem' -> f ∈ rem \/ exists b, B !! f = Some b /\ interfaceOnly b = true) D.
Proof.
  intros HE Hb Hsuf. revert M rem D HE Hb. induction Hsuf as [|file rest Hf Hsuf IH]; intros M rem D HE Hb.
  { apply spec_ret; [done|]. intros M' rem' [= <- <-]. by left. }
  assert (forall D', d_entries D' = E -> batches D' = B) as Hsame by (intros D' HE'; rewrite (batches_entries D' D) by congruence; done).
  cbn [scan]. apply spec_bind. apply readBatch_spec; [done|done|intros; by apply spec_ret|].
  intros D1 b HE1 Hlk. rewrite (Hsame D1 HE1) in Hlk.
  destruct (is_summary b); [destruct (b_Events b); (apply IH; [exact HE1|by apply Hsame])|].
  apply passive_call; [done|done|]. intros D2 now _ HE2. pose proof (Hsame D2 HE2) as Hb2.
  destruct (time_Sub now (fi_ModTime file) <=? sp_maxAge s); simpl orb; cbn iota; [by apply IH|].
  destruct (interfaceOnly b) eqn:Eio; simpl negb; cbn iota; [|by apply IH].
  eapply spec_mono; [intros w Hw; exact Hw| |by apply IH]. intros r w _ H M' rem' Er f Hin.
  destruct (H M' rem' Er f Hin) as [Hr|?]; [|by right]. apply elem_of_app in Hr as [?| ->%list_elem_of_singleton]; [by left|right; eauto].
Qed.

Lemma evict_reported fuel infos total rep D : Forall (fun i => has_suffix (fi_Name i) batch_suffix = true) infos ->
  spec (fun _ => True) (evict s fuel infos total rep)
    (fun r D' => forall x, r = Ok x -> dr_DroppedBatches rep <= dr_DroppedBatches x.2 /\
       (dr_DroppedBatches x.2 = dr_DroppedBatches rep -> batches D' = batches D)) D.
Proof.
  revert infos total rep D. induction fuel as [|fuel IH]; intros infos total rep D Hs; [apply spec_ret; [done|]; by intros x [= <-]|].
  cbn [evict]. destruct (_ <=? _)%nat; [apply spec_ret; [done|]; by intros x [= <-]|].
  assert (still (d_clock D) (d_entries D) D) as HD by done.
  apply spec_bind. eapply (spec_mono (still (d_clock D) (d_entries D))); [done| |
    by apply (find_candidate_spec s (d_clock D) (d_entries D) (batches D) total [] infos)].
  intros [[[[before i] after]|]|e] D1 HS Hc; [|apply spec_ret; [done|]..]; last done.
  2: { intros x [= <-]. split; [done|]. intros _. apply batches_entries, HS. }
  specialize (Hc _ eq_refl). destruct Hc as (Hin & _). simpl in Hin. subst infos. rewrite Forall_app, Forall_cons in Hs.
  apply spec_bind. eapply (spec_mono (still (d_clock D) (d_entries D))); [done| |
    apply (still_readBatch (d_clock D) (d_entries D) D1 _ (fun _ _ => True)); [done|tauto|done|done]].
  intros [x|e] D2 HS2 _; [|by apply spec_ret]. apply spec_call; [done|]. intros D3 [[]|what] _; [|by apply spec_ret].
  eapply spec_mono; [auto| |apply IH; rewrite Forall_app; tauto].
  intros r w _ H y Ey. destruct (H y Ey) as [Hle _]. simpl in Hle. split; [lia|]. lia.
Qed.

Section stays.
Context (n : string) (d : counted) (node name : string) (b : Batch).
Context (Hsum : is_summary b = false) (Hother : interfaceOnly b = false).

Abbreviation in_place := (fun D => batches D !! name = Some b).

Lemma write_summaries_keeps l D : Forall (fun kx => batchFileName (b_BatchID kx.2) kx.1.2 <> name) l ->
  in_place D -> spec in_place (write_summaries l) (fun _ _ => True) D.
Proof.
  intros Hl. revert D. induction Hl as [|[[nd m] x] l Hx Hl IH]; intros D HD; [by apply spec_ret|].
  cbn [write_summaries snd fst] in *. apply spec_bind. eapply (spec_mono in_place); [auto| |
    apply (writeBatchFile_spec (fun B => B !! name = Some b) (batchFileName (b_BatchID x) m) x (batches D)); [done| |apply batchFileName_suffix|done]].
  - intros [[]|e] D1 HD1 _; [by apply IH|by apply spec_ret].
  - by rewrite lookup_insert_ne.
Qed.

Lemma remove_all_keeps l D : name ∉ l -> in_place D -> spec in_place (remove_all l) (fun _ _ => True) D.
Proof.
  revert D. induction l as [|f l IH]; intros D Hl HD; [by apply spec_ret|]. apply not_elem_of_cons in Hl as [Hf Hl].
  cbn [remove_all]. apply spec_call; [done|]. intros D1 r E.
  assert (in_place D1) as HD1 by (apply remove_batches in E as [[-> _]| ->]; [done|by rewrite lookup_delete_ne]).
  destruct r; [by apply IH|by apply spec_ret].
Qed.

Lemma compact_keeps B infos D : WF n d node B -> small n d node B -> listing (d_entries D) infos -> batches D = B ->
  B !! name = Some b -> spec in_place (compactExpiredInterfaces s infos) (fun _ _ => True) D.
Proof.
  intros HB Hs HL Hb Hname. assert (forall D', d_entries D' = d_entries D -> in_place D') as Hsame
    by (intros D' HE'; rewrite (batches_entries D' D) by done; by rewrite Hb).
  pose proof (listing_suffix _ _ HL) as Hsuf.
  apply spec_bind. eapply (spec_mono (fun D' => entries_are (d_entries D) D' /\ entries_are (d_entries D) D')); [by intros w [? _]; apply Hsame| |
    apply spec_and; [apply (scan_spec s n d node (d_entries D) B infos ∅ [] D); try done|by apply (scan_remove (d_entries D) B)]].
  2: apply ls_sorted in HL; exact HL.
  2: by eapply listing_NoDup.
  2: { apply ScanInv_start. intros f x Hf. rewrite <- Hb in Hf. by eapply listing_batches. }
  intros [[M rem]|e] D1 [HE1 _] [HI HR]; [|by apply spec_ret; [apply Hsame|]].
  specialize (HI M rem eq_refl). specialize (HR M rem eq_refl). pose proof (Hsame D1 HE1) as H1.
  assert (name ∉ rem) as Hrem.
  { intros [Hin|(x & Hx & Hi)]%HR; [by apply elem_of_nil in Hin|congruence]. }
  destruct rem as [|f0 rem0] eqn:Erem; [by apply spec_ret|]. rewrite <- Erem in *. clear Erem.
  apply spec_bind. eapply (spec_mono in_place); [auto| |apply write_summaries_keeps; [|done]].
  - intros [[]|e] D2 HD2 _; [|by apply spec_ret]. apply spec_bind. apply (sync_spec (fun B => B !! name = Some b)); [done|].
    intros r D3 H3. assert (in_place D3) as HD3 by by rewrite H3. destruct r as [[]|e]; [|by apply spec_ret].
    apply spec_bind. eapply (spec_mono in_place); [auto| |by apply remove_all_keeps].
    intros [[]|e] D4 HD4 _; [|by apply spec_ret]. by apply (sync_spec (fun B => B !! name = Some b)).
  - apply Forall_forall. intros [k x] Hin Hn. rewrite range_perm, elem_of_map_to_list in Hin.
    destruct (si_keys _ _ _ _ _ _ _ HI _ _ Hin) as (En & Hm & Hok & _). cbn in Hn. rewrite (so_id _ _ _ Hok) in Hn.
    by apply (wf_apart _ _ _ _ HB name b k.2).
Qed.

Lemma evict_keeps infos D rep : listing (d_entries D) infos -> in_place D ->
  spec (fun _ => True) (evict s (length infos) infos (sumZ fi_Size infos) rep)
    (fun r D' => forall x, r = Ok x -> in_place D' \/ (protectedBatch b = false /\ dr_DroppedBatches rep < dr_DroppedBatches x.2)) D.
Proof.
  intros HL HD. destruct (protectedBatch b) eqn:Ep.
  - eapply (spec_mono (keeps (d_clock D) (fun B => B !! name = Some b))); [done| |
      apply (evict_spec s (d_clock D) (fun B => B !! name = Some b)); [|done|done|by split]].
    + intros r w [_ Hw] _ x _. by left.
    + intros cur f x Hcur Hf Hx. rewrite lookup_delete_ne; [done|]. intros ->. congruence.
  - eapply spec_mono; [auto| |by apply evict_reported; eapply listing_suffix]. intros r w _ H x Hr.
    destruct (H x Hr) as [Hle Heq]. destruct (decide (dr_DroppedBatches x.2 = dr_DroppedBatches rep)) as [E|]; [left|right].
    + by rewrite (Heq E).
    + split; [done|lia].
Qed.

Lemma prune_keeps B D : WF n d node B -> small n d node B -> batches D = B -> B !! name = Some b ->
  spec (fun _ => True) (prune s) (fun r D' => forall report, r = Ok report ->
    in_place D' \/ (protectedBatch b = false /\ 1 <= dr_DroppedBatches report)) D.
Proof.
  intros HB Hs Hb Hname.
  apply spec_bind. eapply (spec_mono (entries_are (d_entries D))); [done| |by apply files_spec].
  intros [infos|e] D1 HE1 HL; [|by apply spec_ret]. specialize (HL infos eq_refl). subst infos.
  assert (batches D1 = B) as Hb1 by (by rewrite (batches_entries D1 D)).
  apply spec_bind. eapply (spec_mono in_place); [done| |apply (compact_keeps B); [done|done| |done|done]; rewrite HE1; apply listed_files_listing].
  intros [[]|e] D2 HD2 _; [|by apply spec_ret].
  apply spec_bind. eapply (spec_mono (entries_are (d_entries D2))); [done| |by apply files_spec].
  intros [infos2|e] D3 HE3 HL3; [|by apply spec_ret]. specialize (HL3 infos2 eq_refl). subst infos2.
  apply spec_bind. eapply (spec_mono (fun _ => True)); [auto| |apply evict_keeps; [rewrite HE3; apply listed_files_listing|by rewrite (batches_entries D3 D2)]].
  intros [[[infos' total'] rep]|e] D4 _ Hev; [|by apply spec_ret]. specialize (Hev _ eq_refl). cbn in Hev.
  assert (forall D' report, batches D' = batches D4 -> dr_DroppedBatches report = dr_DroppedBatches rep ->
    in_place D' \/ (protectedBatch b = false /\ 1 <= dr_DroppedBatches report)) as Hend.
  { intros D' report -> ->. destruct Hev as [?|[? ?]]; [by left|right]. split; [done|lia]. }
  apply spec_bind. eapply (spec_mono (fun D => True)); [auto| |].
  2: { instantiate (1 := fun _ D' => batches D' = batches D4).
       destruct (0 <? _); [by apply (sync_spec (fun _ => True))|by apply spec_ret]. }
  intros [[]|e] D5 _ H5; [|by apply spec_ret].
  destruct infos' as [|i infos']; [apply spec_ret; [done|]; intros report [= <-]; by apply Hend|].
  apply (spec_harmless (fun _ => True)); [done|done|]. intros D6 now _ H6. apply spec_ret; [done|]. intros report [= <-].
  apply Hend; [by rewrite H6|done].
Qed.
End stays.

Lemma exec_flat {X} (p : prog sys X) D : every_call (@keeps_flat) p -> flat D -> flat (exec p D).1.
Proof. apply exec_keeps. intros Y e w. apply flat_handle. Qed.

(** When [Enqueue] succeeds the batch is in the directory, or the report counts it. *)
Lemma Enqueue_keeps n d node b D report : let B := batches D in let name := batchFileName (b_BatchID b) (d_clock D (d_ticks D)) in
  WF n d node B -> queueable n d node B name b -> small n d node (<[name := b]> B) -> interfaceOnly b = false ->
  (exec (Enqueue s b) D).2 = Ok report ->
  batches (exec (Enqueue s b) D).1 !! name = Some b \/ (protectedBatch b = false /\ 1 <= dr_DroppedBatches report).
Proof.
  intros B name HB HQ Hs Hi. pose proof (queue_WF _ _ _ _ _ _ HB HQ) as HB'. revert report.
  apply (spec_exec (fun _ => True) (Enqueue s b) (fun r D' => forall report, r = Ok report ->
    batches D' !! name = Some b \/ (protectedBatch b = false /\ 1 <= dr_DroppedBatches report))).
  apply spec_bind. eapply (spec_mono (fun _ => True)); [auto| |by apply (publish_puts (fun _ => True) b D B name)].
  intros [[]|e] D1 _ Hput; [|by apply spec_ret]. destruct Hput as [[_ ?]|Hput]; [done|].
  apply (prune_keeps n d node name b (qb_orig _ _ _ _ _ _ HQ) Hi (<[name := b]> B)); [done..|]. apply lookup_insert_eq.
Qed.

(** A spool directory and the batches published so far. *)
Record squeue : Type := MkSqueue { sq_dir : dir; sq_log : list Batch; sq_flat : flat sq_dir }.

Definition on_dir {X} (q : squeue) (log : list Batch) (p : prog sys X) (Hp : every_call (@keeps_flat) p) : squeue * X :=
  let r := exec p (sq_dir q) in (MkSqueue r.1 log (exec_flat p (sq_dir q) Hp (sq_flat q)), r.2).

#[export] Instance spool_queue : Queue squeue := {
  q_Enqueue b q :=
    on_dir q (sq_log q ++ if published b (sq_dir q) then [b] else []) (Enqueue s b) (flat_Enqueue s b);
  q_Peek q := on_dir q (sq_log q) (Peek s) (flat_Peek s);
  q_Ack i q := on_dir q (sq_log q) (Ack s i) (flat_Ack s i) }.

#[export] Instance spool_queue_laws : QueueLaws squeue.
Proof.
  refine {| history := sq_log; contents q := queued s (sq_dir q) |}; try done.
  - intros b q. simpl. pose proof (Enqueue_published b (sq_dir q)) as H. destruct (published b (sq_dir q)); [by left|right].
    rewrite app_nil_r. split; [done|]. by destruct (is_ok _); [specialize (H eq_refl)|].
  - intros q. simpl. apply queued_entries. by pose proof (spec_exec _ _ _ _ (Peek_spec s (sq_dir q))) as [? _].
  - intros q r. simpl. pose proof (spec_exec _ _ _ _ (Peek_spec s (sq_dir q))) as [_ H]. apply H.
  - intros i q rest. simpl. intros Hq. apply Ack_spec; [apply sq_flat|done].
Defined.
End queue.

(** C9. The spool keeps the queue contract of the application loop on every
    directory, whichever calls fail.  [Enqueue] succeeds only after the file of the
    batch was in place; in a spool that is well formed for its node the file of a new batch
    that holds more than interface deltas is then still there, or the batch is not protected
    and the report counts an eviction.  [Peek] changes nothing and answers the oldest
    readable batch, none only when there is none; [Ack] of that batch removes it and no
    other, or fails and leaves the queue as it was. *)
Theorem spool_contract {codec : BatchCodec} {order : RangeOrder} {laws : BatchCodecLaws}
    (s : Spool) (D : dir) (b : Batch) (it : Item) (rest : list Item) :
  flat D ->
  (forall report, (exec (Enqueue s b) D).2 = Ok report -> published b D = true /\
     let name := batchFileName (b_BatchID b) (d_clock D (d_ticks D)) in
     forall n d node, WF n d node (batches D) -> queueable n d node (batches D) name b ->
       small n d node (<[name := b]> (batches D)) -> interfaceOnly b = false ->
       batches (exec (Enqueue s b) D).1 !! name = Some b \/ (protectedBatch b = false /\ 1 <= dr_DroppedBatches report)) /\
  (queued s (exec (Peek s) D).1 = queued s D /\
   forall r, (exec (Peek s) D).2 = Ok r -> r = head (queued s D)) /\
  (queued s D = it :: rest ->
   queued s (exec (Ack s it) D).1 = rest \/
   (queued s (exec (Ack s it) D).1 = queued s D /\ is_ok (exec (Ack s it) D).2 = false)) /\
  flat (exec (Enqueue s b) D).1 /\ flat (exec (Peek s) D).1 /\ flat (exec (Ack s it) D).1.
Proof.
  intros HF. pose proof (spec_exec _ _ _ _ (Peek_spec s D)) as [HE Hpeek].
  split_and!; [|by apply queued_entries|exact Hpeek|by apply Ack_spec|apply exec_flat; [|done]..].
  - intros report Hr. split; [apply (Enqueue_published s); by rewrite Hr|]. intros name n d node HB HQ Hs Hi. by eapply Enqueue_keeps.
  - apply flat_Enqueue.
  - apply flat_Peek.
  - apply flat_Ack.
Qed.

(** ** An agent with its spool

    The agent of [AppTheorems.DemoAgent] whose queue is a spool directory: the
    application loop, the spool, the checkpoint file and the sender run together. *)

Module SpooledAgent.

Import DemoAgent.

#[export] Instance order : RangeOrder := {| range V m := map_to_list m; range_perm V m := reflexivity _ |}.

#[export] Instance codec : BatchCodec := {
  encode_batch b := if decide (b = pending) then Some [0] else None;
  decode_batch bytes := match bytes with [0] => Ok pending | _ => Err "decode" end }.

#[export] Instance codec_laws : BatchCodecLaws.
Proof.
  constructor. intros b bytes _. unfold encode_batch, decode_batch, codec. case_decide as E; [|done]. intros [= <-]. by rewrite E.
Qed.

Definition spool : Spool := MkSpool "/var/lib/flowlens/spool" defaultMaxBytes defaultMaxAge.

(** The first rename of a batch works and is reported as failed. *)
Definition empty_dir : dir :=
  MkDir ∅ None (fun _ => t2) 0 [None; None; None; None; None; None; None; Some (FailsAfter "input/output error")].

Lemma empty_flat : flat empty_dir.
Proof. apply map_Forall_empty. Qed.

Definition spooled_agent : World squeue link disk :=
  MkWorld (MkSqueue empty_dir [] empty_flat) (MkLink (fun _ => StatusCode 202) 0 []) disk0 [Ok m1; Ok m1; Ok m1].

#[export] Instance ops : Queue squeue := spool_queue spool.
#[export] Instance ops_laws : QueueLaws squeue := spool_queue_laws spool.

(** A sample whose queueing fails after the rename, one killed before it queues its
    batch again, and one that goes through. *)
Definition steps : list step := [SampleAt t1 None; SampleAt (t2 - 1) (Some 1%nat); SampleAt t2 None].

Example spooled_run :
  let s := run_steps 9 (New node true, spooled_agent) steps in
  history (w_queue s.2) = [pending; pending] /\ map_to_list (d_entries (sq_dir (w_queue s.2))) = [] /\
  delivered (w_sender s.2) = [pending].
Proof. vm_compute. split_and!; reflexivity. Qed.

Lemma exactly_once_witness :
  let s := run_steps 9 (New node true, spooled_agent) steps in
  exists m c p,
    remembers (w_state s.2) (Some (NewCheckpoint node (Some m) p)) /\ m !! "enp0s6" = Some c /\
    account "enp0s6" Inbound (history (w_queue s.2) ++ opt_list p) = 0 + RXBytes c - 1000.
Proof.
  refine (proj1 (exactly_once 9 "enp0s6" Inbound node m0 (MkCounter 1000 10 2000 20) 0 steps spooled_agent _ _ _ _ _ _ _)).
  - reflexivity.
  - exists [0]. split; [vm_compute; reflexivity|reflexivity].
  - apply Sample.before_ok.
  - reflexivity.
  - constructor.
  - assert (below Inbound (MkCounter 1000 10 2000 20) (MkCounter 1600 16 2500 25)) by (split; vm_compute; done).
    assert (below Inbound (MkCounter 1600 16 2500 25) (MkCounter 1600 16 2500 25)) by (split; vm_compute; done).
    do 3 (split; [apply Sample.after_ok|]; exists (MkCounter 1600 16 2500 25); split_and!; try done).
  - vm_compute. repeat split; done.
Defined.
End SpooledAgent.

(** ** A name among deltas

    The spool holds a batch of interface deltas that has expired; a batch with a name is
    queued.  The deltas are merged into the summary of their minute, the name stays. *)

Module DemoQueue.

Definition node : string := DemoSpool.node.
Definition t2 : time := DemoSpool.t2.
Definition named : Batch := MkBatch 1 "named" node t2
  [MkEvent "name-1" t2 EventNameEvidence "" 0 0 "" None None None
     (Some (MkNameEvidence "203.0.113.10" "site.example" "dns" t2 (t2 + Minute))) None] [].
Definition table : list Batch := [DemoSpool.old; DemoSpool.summary; named].

#[export] Instance order : RangeOrder := {| range V m := map_to_list m; range_perm V m := reflexivity _ |}.

#[export] Instance codec : BatchCodec := {
  encode_batch b := (fun p => [Z.of_nat p.1]) <$> list_find (fun x => x = b) table;
  decode_batch bytes := match bytes with
    | [i] => match table !! Z.to_nat i with Some b => Ok b | None => Err "decode" end | _ => Err "decode" end }.

#[export] Instance codec_laws : BatchCodecLaws.
Proof.
  constructor. intros b bytes _. unfold encode_batch, codec.
  destruct (list_find (fun x => x = b) table) as [[i x]|] eqn:E; [|done].
  apply list_find_Some in E as (Hi & -> & _). intros [= <-]. unfold decode_batch. cbn [fst].
  by rewrite Nat2Z.id, Hi.
Qed.

Definition spool : Spool := DemoSpool.spool.
Definition D : dir := DemoSpool.dir0 [].
Definition name : string := batchFileName "named" t2.
Definition D1 : dir := (exec (Enqueue spool named) D).1.
Definition summary_item : Item :=
  MkItem DemoSpool.summary (path_of spool (batchFileName (b_BatchID DemoSpool.summary) DemoSpool.minute)).
Definition named_item : Item := MkItem named (path_of spool name).

Lemma batches_D : batches D = DemoSpool.spooled.
Proof. apply (bool_decide_unpack _). by vm_compute. Qed.

Lemma named_queueable : queueable "enp0s6" Inbound node DemoSpool.spooled name named.
Proof.
  constructor.
  - by vm_compute.
  - by vm_compute.
  - by vm_compute.
  - apply (bool_decide_unpack _). by vm_compute.
  - apply Forall_forall, (bool_decide_unpack _). by vm_compute.
  - unfold DemoSpool.spooled. intros g c [[<- <-]|[_ Hg]]%lookup_insert_Some _; [|by rewrite lookup_empty in Hg]. intros E. exfalso. revert E. by vm_compute.
  - intros e H. exfalso. revert H. by vm_compute.
  - intros m. apply queued_apart; unfold in_clock; apply (bool_decide_unpack _); by vm_compute.
  - intros _. apply (bool_decide_unpack _). by vm_compute.
Qed.

Lemma named_small : small "enp0s6" Inbound node (<[name := named]> DemoSpool.spooled).
Proof.
  intros m Hm. rewrite (queue_total _ _ _ _ _ _ m named_queueable Hm).
  pose proof (added_bytes_le "enp0s6" Inbound node DemoSpool.spooled named m (qb_counts _ _ _ _ _ _ named_queueable)) as H.
  unfold DemoSpool.spooled, node in *. rewrite (queue_total _ _ _ _ _ _ m DemoSpool.old_queueable Hm), minute_total_empty.
  pose proof (added_bytes_le "enp0s6" Inbound DemoSpool.node ∅ DemoSpool.old m (qb_counts _ _ _ _ _ _ DemoSpool.old_queueable)) as H1.
  assert (events_bytes "enp0s6" Inbound (b_Events DemoSpool.old) <= 1000) by (vm_compute; discriminate).
  assert (events_bytes "enp0s6" Inbound (b_Events named) <= 1000) by (vm_compute; discriminate). unfold max_i64. lia.
Qed.

Lemma flat_D : flat D.
Proof.
  unfold flat, D, DemoSpool.dir0. cbn [d_entries]. apply map_Forall_singleton. apply batchFileName_slash.
Qed.

Lemma spool_contract_witness :
  queued spool D1 = [summary_item; named_item] /\ batches D1 !! name = Some named /\
  (queued spool (exec (Ack spool summary_item) D1).1 = [named_item] \/
   (queued spool (exec (Ack spool summary_item) D1).1 = queued spool D1 /\ is_ok (exec (Ack spool summary_item) D1).2 = false)).
Proof.
  assert (queued spool D1 = [summary_item; named_item]) as Hq by (vm_compute; reflexivity). split; [exact Hq|]. split.
  - eassert ((exec (Enqueue spool named) D).2 = Ok _) as E by (vm_compute; reflexivity).
    destruct (spool_contract spool D named named_item [] flat_D) as (H & _). destruct (H _ E) as [_ Hin].
    specialize (Hin "enp0s6" Inbound node). rewrite batches_D in Hin.
    destruct (Hin DemoSpool.WF_spooled named_queueable named_small eq_refl) as [Hb|[_ Hd]]; [exact Hb|].
    exfalso. revert Hd. vm_compute. intros Hd. by apply Hd.
  - assert (flat D1) as HF by (apply exec_flat; [apply flat_Enqueue|apply flat_D]).
    destruct (spool_contract spool D1 named summary_item [named_item] HF) as (_ & _ & H & _). exact (H Hq).
Defined.
End DemoQueue.
