(* ===== verification/GoTime.v ===== *)
(** * [time.Parse]

    The layout of the access logs, ["02/Jan/2006:15:04:05 -0700"], read the way
    [time.Parse] reads it: names of months in any case, one or two digits of the
    hour, an optional fraction of the second, any number of spaces for one. *)

From stdpp Require Import base strings numbers sets list.
From Stdlib Require Import Ascii.
From S2P Require Import Prelude GoBase GoText.

Open Scope string_scope.
Open Scope Z_scope.
Local Open Scope list_scope.

(** ** The calendar *)

Definition is_leap (year : Z) : bool := (year mod 4 =? 0) && (negb (year mod 100 =? 0) || (year mod 400 =? 0)).

(** [daysIn] *)
Definition days_in (month year : Z) : Z :=
  if month =? 2 then (if is_leap year then 29 else 28)
  else if bool_decide (month ∈ [4; 6; 9; 11]) then 30 else 31.

(** Days from 1970-01-01 to a date. *)
Definition days_from_civil (year month day : Z) : Z :=
  let y := if month <=? 2 then year - 1 else year in
  let era := y / 400 in
  let yoe := y - era * 400 in
  let doy := (153 * (if 2 <? month then month - 3 else month + 9) + 2) / 5 + day - 1 in
  era * 146097 + (yoe * 365 + yoe / 4 - yoe / 100 + doy) - 719468.

(** ** Pieces of a layout: the value and what is left, or a mismatch *)

Abbreviation parsed A := (option (A * list ascii)).

Definition bind_parsed {A B} (p : parsed A) (k : A -> list ascii -> option B) : option B :=
  match p with Some (a, cs) => k a cs | None => None end.

Notation "'let?' ( x , cs ) ':=' p 'in' k" := (bind_parsed p (fun x cs => k))
  (at level 10, x binder, cs binder, p at level 200, k at level 200) : flow_scope.
Local Open Scope flow_scope.

Definition digit_value (c : ascii) : Z := code c - 48.

(** [getnum] *)
Definition getnum (fixed : bool) (cs : list ascii) : parsed Z :=
  match cs with
  | c :: rest =>
      if is_digit c then
        match rest with
        | d :: rest' =>
            if is_digit d then Some (digit_value c * 10 + digit_value d, rest')
            else if fixed then None else Some (digit_value c, rest)
        | [] => if fixed then None else Some (digit_value c, rest)
        end
      else None
  | [] => None
  end.

(** [skip] of a one-character prefix other than a space *)
Definition skip_char (c : ascii) (cs : list ascii) : parsed unit :=
  match cs with
  | d :: rest => if bool_decide (d = c) then Some (tt, rest) else None
  | [] => None
  end.

Fixpoint cutspace (cs : list ascii) : list ascii :=
  match cs with
  | c :: rest => if bool_decide (c = space) then cutspace rest else cs
  | [] => []
  end.

(** [skip] of a space *)
Definition skip_space (cs : list ascii) : parsed unit :=
  match cs with
  | c :: _ => if bool_decide (c = space) then Some (tt, cutspace cs) else None
  | [] => Some (tt, [])
  end.

(** [match] of two bytes *)
Definition fold_eq (c d : ascii) : bool :=
  bool_decide (c = d) ||
  (let l := Z.lor (code c) 32 in (l =? Z.lor (code d) 32) && (97 <=? l) && (l <=? 122)).

Fixpoint match_name (name cs : list ascii) : option (list ascii) :=
  match name, cs with
  | [], _ => Some cs
  | c :: name', d :: cs' => if fold_eq d c then match_name name' cs' else None
  | _ :: _, [] => None
  end.

Definition short_months : list string :=
  ["Jan"; "Feb"; "Mar"; "Apr"; "May"; "Jun"; "Jul"; "Aug"; "Sep"; "Oct"; "Nov"; "Dec"].

Fixpoint lookup_name (names : list string) (i : Z) (cs : list ascii) : parsed Z :=
  match names with
  | [] => None
  | n :: names' =>
      match match_name (chars n) cs with
      | Some rest => Some (i, rest)
      | None => lookup_name names' (i + 1) cs
      end
  end.

(** Four digits. *)
Definition get_year (cs : list ascii) : parsed Z :=
  match cs with
  | a :: b :: c :: d :: rest =>
      if is_digit a && is_digit b && is_digit c && is_digit d
      then Some (digit_value a * 1000 + digit_value b * 100 + digit_value c * 10 + digit_value d, rest) else None
  | _ => None
  end.

(** The digits at the front. *)
Fixpoint span_digits (cs : list ascii) : list ascii * list ascii :=
  match cs with
  | c :: rest => if is_digit c then let '(w, r) := span_digits rest in (c :: w, r) else ([], cs)
  | [] => ([], [])
  end.

(** A fraction of a second that the layout does not name: nanoseconds from its first
    nine digits. *)
Definition get_fraction (cs : list ascii) : Z * list ascii :=
  match cs with
  | c :: d :: _ =>
      if (bool_decide (c = "."%char) || bool_decide (c = ","%char)) && is_digit d then
        let '(w, rest) := span_digits (drop 1 cs) in
        let w := take 9 w in
        (foldl (fun acc x => acc * 10 + digit_value x) 0 w * 10 ^ (9 - Z.of_nat (length w)), rest)
      else (0, cs)
  | _ => (0, cs)
  end.

Definition in_range (lo z hi : Z) {A} (k : option A) : option A := if (lo <=? z) && (z <=? hi) then k else None.

(** [stdNumTZ]: seconds east of UTC. *)
Definition get_zone (cs : list ascii) : parsed Z :=
  match cs with
  | sign :: h1 :: h2 :: m1 :: m2 :: rest =>
      let? (hr, _) := getnum true [h1; h2] in
      let? (mm, _) := getnum true [m1; m2] in
      in_range 0 hr 24 (in_range 0 mm 60 (
      let offset := (hr * 60 + mm) * 60 in
      if bool_decide (sign = "+"%char) then Some (offset, rest)
      else if bool_decide (sign = "-"%char) then Some (- offset, rest) else None))
  | _ => None
  end.

(** [time.Parse("02/Jan/2006:15:04:05 -0700", value)] *)
Definition parse_access_time (cs : list ascii) : option time :=
  let? (day, cs) := getnum true cs in
  let? (_, cs) := skip_char "/" cs in
  let? (month, cs) := lookup_name short_months 1 cs in
  let? (_, cs) := skip_char "/" cs in
  let? (year, cs) := get_year cs in
  let? (_, cs) := skip_char ":" cs in
  let? (hour, cs) := getnum false cs in
  in_range 0 hour 23 (
  let? (_, cs) := skip_char ":" cs in
  let? (minute, cs) := getnum true cs in
  in_range 0 minute 59 (
  let? (_, cs) := skip_char ":" cs in
  let? (sec, cs) := getnum true cs in
  in_range 0 sec 59 (
  let '(nsec, cs) := get_fraction cs in
  let? (_, cs) := skip_space cs in
  let? (offset, cs) := get_zone cs in
  match cs with
  | [] =>
      in_range 1 day (days_in month year) (
      Some ((days_from_civil year month day * 86400 + hour * 3600 + minute * 60 + sec - offset) * Second + nsec))
  | _ => None
  end))).

Example access_time_utc : parse_access_time (chars "14/Jul/2026:15:16:40 +0000") = Some (1784042200 * Second).
Proof. vm_compute. reflexivity. Qed.
Example access_time_offset : parse_access_time (chars "29/feb/2000:01:00:00 +0230") = Some (951777000 * Second).
Proof. vm_compute. reflexivity. Qed.
Example access_time_invalid : parse_access_time (chars "29/Feb/2026:01:00:00 +0000") = None.
Proof. vm_compute. reflexivity. Qed.
Example access_time_fraction :
  format_rfc3339nano (default 0 (parse_access_time (chars "01/Jan/1970:5:00:00.25 -0100"))) = chars "1970-01-01T06:00:00.25Z".
Proof. vm_compute. reflexivity. Qed.

(** ** Written times *)

Record civil_time : Type := MkCivil {
  ct_year : Z; ct_month : Z; ct_day : Z; ct_hour : Z; ct_minute : Z; ct_second : Z;
  ct_east : bool; ct_zone_hour : Z; ct_zone_minute : Z }.

Record civil_ok (c : civil_time) : Prop := {
  co_year : 0 <= ct_year c < 10000;
  co_month : 1 <= ct_month c <= 12;
  co_day : 1 <= ct_day c <= days_in (ct_month c) (ct_year c);
  co_hour : 0 <= ct_hour c < 24;
  co_minute : 0 <= ct_minute c < 60;
  co_second : 0 <= ct_second c < 60;
  co_zone_hour : 0 <= ct_zone_hour c <= 24;
  co_zone_minute : 0 <= ct_zone_minute c <= 60 }.

Definition two_digits (z : Z) : list ascii := [digit (z / 10); digit (z mod 10)].

Definition access_time_text (c : civil_time) : list ascii :=
  two_digits (ct_day c) ++ "/"%char :: chars (default "" (short_months !! Z.to_nat (ct_month c - 1))) ++ "/"%char ::
  two_digits (ct_year c / 100) ++ two_digits (ct_year c mod 100) ++ ":"%char ::
  two_digits (ct_hour c) ++ ":"%char :: two_digits (ct_minute c) ++ ":"%char :: two_digits (ct_second c) ++
  space :: (if ct_east c then "+"%char else "-"%char) :: two_digits (ct_zone_hour c) ++ two_digits (ct_zone_minute c).

(** The instant a written time denotes. *)
Definition instant (c : civil_time) : time :=
  let zone := (ct_zone_hour c * 60 + ct_zone_minute c) * 60 in
  (days_from_civil (ct_year c) (ct_month c) (ct_day c) * 86400 + ct_hour c * 3600 + ct_minute c * 60 + ct_second c -
     (if ct_east c then zone else - zone)) * Second.

Lemma digit_value_digit d : 0 <= d < 10 -> digit_value (digit d) = d.
Proof. intros Hd. unfold digit_value. rewrite digit_code by done. lia. Qed.

Lemma two_digits_ok z : 0 <= z < 100 ->
  is_digit (digit (z / 10)) = true /\ is_digit (digit (z mod 10)) = true /\
  digit_value (digit (z / 10)) * 10 + digit_value (digit (z mod 10)) = z.
Proof.
  intros Hz. pose proof (Z.div_mod z 10 ltac:(lia)). pose proof (Z.mod_pos_bound z 10 ltac:(lia)).
  rewrite !digit_is_digit, !digit_value_digit by lia. split_and!; [done|done|lia].
Qed.

Lemma getnum_two fixed z cs : 0 <= z < 100 -> getnum fixed (two_digits z ++ cs) = Some (z, cs).
Proof. intros Hz. destruct (two_digits_ok z Hz) as (H1 & H2 & H3). simpl. by rewrite H1, H2, H3. Qed.

Lemma get_year_four z cs : 0 <= z < 10000 ->
  get_year (two_digits (z / 100) ++ two_digits (z mod 100) ++ cs) = Some (z, cs).
Proof.
  intros Hz. pose proof (Z.div_mod z 100 ltac:(lia)). pose proof (Z.mod_pos_bound z 100 ltac:(lia)).
  destruct (two_digits_ok (z / 100)) as (H1 & H2 & H3); [lia|]. destruct (two_digits_ok (z mod 100)) as (H4 & H5 & H6); [lia|].
  simpl. rewrite H1, H2, H4, H5. cbn [andb]. do 2 f_equal. lia.
Qed.

Lemma lookup_month m cs : 1 <= m <= 12 ->
  lookup_name short_months 1 (chars (default "" (short_months !! Z.to_nat (m - 1))) ++ cs) = Some (m, cs).
Proof.
  intros Hm. assert (m ∈ [1; 2; 3; 4; 5; 6; 7; 8; 9; 10; 11; 12]) as Hin by (set_unfold; lia).
  repeat (apply elem_of_cons in Hin as [->|Hin]; [reflexivity|]). by apply elem_of_nil in Hin.
Qed.

Lemma in_range_ok {A} lo z hi (k : option A) : lo <= z <= hi -> in_range lo z hi k = k.
Proof. intros Hz. unfold in_range. rewrite !(proj2 (Z.leb_le _ _)) by lia. done. Qed.

Lemma skip_space_sign (east : bool) cs :
  skip_space (space :: (if east then "+"%char else "-"%char) :: cs) = Some (tt, (if east then "+"%char else "-"%char) :: cs).
Proof. by destruct east. Qed.

Lemma get_zone_text (east : bool) h m : 0 <= h <= 24 -> 0 <= m <= 60 ->
  get_zone ((if east then "+"%char else "-"%char) :: two_digits h ++ two_digits m) =
  Some (let zone := (h * 60 + m) * 60 in if east then zone else - zone, []).
Proof.
  intros Hh Hm. pose proof (getnum_two true h [] ltac:(lia)) as Eh. pose proof (getnum_two true m [] ltac:(lia)) as Em.
  rewrite app_nil_r in Eh, Em. unfold two_digits in *. cbn [get_zone app]. rewrite Eh. cbn [bind_parsed]. rewrite Em.
  cbn [bind_parsed]. rewrite !in_range_ok by lia. by destruct east.
Qed.

Lemma parse_access_time_text c : civil_ok c -> parse_access_time (access_time_text c) = Some (instant c).
Proof.
  intros []. unfold parse_access_time, access_time_text.
  assert (days_in (ct_month c) (ct_year c) <= 31) as Hdays by (unfold days_in; repeat case_match; lia).
  rewrite getnum_two by lia. cbn [bind_parsed skip_char]. rewrite bool_decide_true by done. cbn [bind_parsed].
  rewrite lookup_month by done. cbn [bind_parsed skip_char]. rewrite bool_decide_true by done. cbn [bind_parsed].
  rewrite get_year_four by done. cbn [bind_parsed skip_char]. rewrite bool_decide_true by done. cbn [bind_parsed].
  rewrite getnum_two by lia. cbn [bind_parsed skip_char]. rewrite in_range_ok by lia. rewrite bool_decide_true by done. cbn [bind_parsed].
  rewrite getnum_two by lia. cbn [bind_parsed skip_char]. rewrite in_range_ok by lia. rewrite bool_decide_true by done. cbn [bind_parsed].
  rewrite getnum_two by lia. cbn [bind_parsed]. rewrite in_range_ok by lia.
  assert (forall cs, get_fraction (space :: cs) = (0, space :: cs)) as -> by (intros [|? ?]; reflexivity).
  rewrite skip_space_sign. cbn [bind_parsed]. rewrite get_zone_text by lia. cbn [bind_parsed].
  rewrite in_range_ok by lia. unfold instant. do 2 f_equal. destruct (ct_east c); lia.
Qed.
