(* ===== verification/GoPath.v ===== *)
(** * [path/filepath]

    Slash-separated paths: [Clean], [Dir], [Base], [Join] and what [Rel] says of a
    path under a root.  A path is its root mark and its elements. *)

From stdpp Require Import base strings numbers list.
From Stdlib Require Import Ascii.
From S2P Require Import Prelude GoBase GoText.

Open Scope string_scope.
Open Scope Z_scope.
Local Open Scope list_scope.

Definition path_slash : ascii := "/"%char.

(** [strings.Split(s, "/")] *)
Fixpoint split_slash (cs : list ascii) : list (list ascii) :=
  match cs with
  | [] => [[]]
  | c :: rest =>
      if bool_decide (c = path_slash) then [] :: split_slash rest
      else match split_slash rest with
           | w :: ws => (c :: w) :: ws
           | [] => [[c]]
           end
  end.

Definition dot_dot : list ascii := chars "..".

(** The elements of a cleaned path, last first. *)
Fixpoint clean_elems (rooted : bool) (acc : list (list ascii)) (ws : list (list ascii)) : list (list ascii) :=
  match ws with
  | [] => acc
  | w :: ws' =>
      if bool_decide (w = []) || bool_decide (w = chars ".") then clean_elems rooted acc ws'
      else if bool_decide (w = dot_dot) then
        match acc with
        | top :: acc' => if bool_decide (top = dot_dot) then clean_elems rooted (w :: acc) ws'
                         else clean_elems rooted acc' ws'
        | [] => clean_elems rooted (if rooted then [] else [w]) ws'
        end
      else clean_elems rooted (w :: acc) ws'
  end.

Definition is_rooted (cs : list ascii) : bool :=
  match cs with c :: _ => bool_decide (c = path_slash) | [] => false end.

Definition elems (cs : list ascii) : list (list ascii) := reverse (clean_elems (is_rooted cs) [] (split_slash cs)).

Fixpoint join_slash (ws : list (list ascii)) : list ascii :=
  match ws with
  | [] => []
  | [w] => w
  | w :: ws' => w ++ path_slash :: join_slash ws'
  end.

(** [filepath.Clean] *)
Definition Clean (p : string) : string :=
  let cs := chars p in
  of_chars (match is_rooted cs, elems cs with
            | true, ws => path_slash :: join_slash ws
            | false, [] => chars "."
            | false, ws => join_slash ws
            end).

(** The part up to the last slash, that slash included, and what follows it. *)
Fixpoint split_last (cs : list ascii) : list ascii * list ascii :=
  match cs with
  | [] => ([], [])
  | c :: rest =>
      let '(d, b) := split_last rest in
      match d with
      | [] => if bool_decide (c = path_slash) then ([c], b) else ([], c :: b)
      | _ => (c :: d, b)
      end
  end.

Definition Dir (p : string) : string := Clean (of_chars (split_last (chars p)).1).
(** The last element of a path that does not end in a slash. *)
Definition Base (p : string) : string := of_chars (split_last (chars p)).2.
Definition Join (dir name : string) : string := Clean (dir +:+ "/" +:+ name).

(** The elements of [filepath.Rel(root, path)], if there is one. *)
Fixpoint strip_common (a b : list (list ascii)) : list (list ascii) * list (list ascii) :=
  match a, b with
  | x :: a', y :: b' => if bool_decide (x = y) then strip_common a' b' else (a, b)
  | _, _ => (a, b)
  end.

Definition Rel (root path : string) : option (list (list ascii)) :=
  if bool_decide (is_rooted (chars root) = is_rooted (chars path)) then
    match strip_common (elems (chars root)) (elems (chars path)) with
    | ((w :: _) as up, down) => if bool_decide (w = dot_dot) then None else Some (((fun _ => dot_dot) <$> up) ++ down)
    | ([], down) => Some down
    end
  else None.

(** The relative path is neither [..] nor begins with [../]. *)
Definition is_inside (root path : string) : bool :=
  match Rel root path with
  | Some (w :: _) => negb (bool_decide (w = dot_dot))
  | Some [] => true
  | None => false
  end.

Example clean_samples :
  Clean "/data//logs/./a/../b" = "/data/logs/b" /\ Clean "/../x" = "/x" /\ Clean "a/../../b" = "../b" /\ Clean "" = "." /\
  Dir "/data/logs/x.log" = "/data/logs" /\ Base "/data/logs/x.log" = "x.log" /\ Join "/data/logs" "x.log" = "/data/logs/x.log".
Proof. vm_compute. done. Qed.

Example inside_samples :
  is_inside "/data/logs" "/data/logs/p-*.log" = true /\ is_inside "/data/logs" "/data/logs2/p.log" = false /\
  is_inside "/data/logs" "/data/logs/../secret" = false /\ is_inside "/data/logs" "/data/logs" = true.
Proof. vm_compute. done. Qed.

Lemma strip_common_spec a b up down : strip_common a b = (up, down) -> exists c, a = c ++ up /\ b = c ++ down.
Proof.
  revert b. induction a as [|x a IH]; intros b; simpl; [intros [= <- <-]; by exists []|].
  destruct b as [|y b]; [intros [= <- <-]; by exists []|]. case_bool_decide as E.
  - subst. intros H. destruct (IH b H) as (c & -> & ->). by exists (y :: c).
  - intros [= <- <-]. by exists [].
Qed.

(** A path inside a root is the root and more. *)
Lemma is_inside_spec root path : is_inside root path = true ->
  is_rooted (chars root) = is_rooted (chars path) /\ exists down, elems (chars path) = elems (chars root) ++ down.
Proof.
  unfold is_inside, Rel. case_bool_decide as Er; [|done].
  destruct (strip_common _ _) as [[|w up] down] eqn:E; apply strip_common_spec in E as (c & E1 & E2).
  - intros _. split; [done|]. exists down. by rewrite E1, E2, app_nil_r.
  - case_bool_decide; [done|]. done.
Qed.
