(* ===== verification/Regex.v ===== *)
(** * Regular expressions

    What the Go sources use of [regexp]: patterns over bytes with greedy repetition,
    ordered alternatives and groups, matched leftmost-first as [FindStringSubmatch]
    does.  Classes of the sources hold for every byte of a character outside ASCII or
    for none, so that matching bytes and matching characters agree. *)

From stdpp Require Import base strings numbers list.
From Stdlib Require Import Ascii.
From S2P Require Import Prelude GoBase GoText.

Open Scope string_scope.
Open Scope Z_scope.
Local Open Scope list_scope.

Inductive regex : Type :=
| REps
| RClass (p : ascii -> bool)
| RSeq (a b : regex)
| RAlt (a b : regex)
| RStar (a : regex)
| RGroup (a : regex).

(** The match of [r] at the front of [cs] that is tried first and lets [k] succeed;
    [k] gets what is left and the groups closed so far.  A repetition matches at most
    once per character. *)
Fixpoint match_at {A} (r : regex) (cs : list ascii) (groups : list (list ascii))
  (k : list ascii -> list (list ascii) -> option A) {struct r} : option A :=
  match r with
  | REps => k cs groups
  | RClass p => match cs with c :: cs' => if p c then k cs' groups else None | [] => None end
  | RSeq a b => match_at a cs groups (fun cs' groups' => match_at b cs' groups' k)
  | RAlt a b =>
      match match_at a cs groups k with
      | Some x => Some x
      | None => match_at b cs groups k
      end
  | RStar a =>
      (fix star n cs groups :=
         match n with
         | O => k cs groups
         | S n' =>
             match match_at a cs groups (fun cs' groups' =>
                     if (length cs' <? length cs)%nat then star n' cs' groups' else None) with
             | Some x => Some x
             | None => k cs groups
             end
         end) (length cs) cs groups
  | RGroup a =>
      match_at a cs groups (fun cs' groups' => k cs' (groups' ++ [take (length cs - length cs') cs]))
  end.

(** The groups of the first match at the front. *)
Definition match_front (r : regex) (cs : list ascii) : option (list (list ascii)) :=
  match_at r cs [] (fun _ groups => Some groups).

(** The groups of the leftmost match. *)
Fixpoint find_submatch (r : regex) (cs : list ascii) : option (list (list ascii)) :=
  match match_front r cs with
  | Some groups => Some groups
  | None => match cs with [] => None | _ :: cs' => find_submatch r cs' end
  end.

(** ** Notation of the patterns *)

Definition RChar (c : ascii) : regex := RClass (fun d => bool_decide (d = c)).
Definition RNot (c : ascii) : regex := RClass (fun d => negb (bool_decide (d = c))).
Definition RPlus (a : regex) : regex := RSeq a (RStar a).
Definition ROpt (a : regex) : regex := RAlt a REps.

Fixpoint RText (s : string) : regex :=
  match s with
  | EmptyString => REps
  | String c s' => RSeq (RChar c) (RText s')
  end.

Fixpoint RTimes (n : nat) (a : regex) : regex :=
  match n with
  | O => REps
  | S n' => RSeq a (RTimes n' a)
  end.

Fixpoint RCat (rs : list regex) : regex :=
  match rs with
  | [] => REps
  | r :: rs' => RSeq r (RCat rs')
  end.

(** ** Matching known text *)

Section known.
Context {A : Type}.
Implicit Types (k : list ascii -> list (list ascii) -> option A) (groups : list (list ascii)).

Lemma match_text s cs groups k : match_at (RText s) (chars s ++ cs) groups k = k cs groups.
Proof. induction s as [|c s IH]; simpl; [done|]. by rewrite bool_decide_true. Qed.

(** The first try of a repetition is the longest; it is the match if the rest fits. *)
Lemma match_star_class p w cs groups k x :
  Forall (fun c => p c = true) w -> match cs with c :: _ => p c = false | [] => True end ->
  k cs groups = Some x -> match_at (RStar (RClass p)) (w ++ cs) groups k = Some x.
Proof.
  intros Hw Hcs Hk. cbn [match_at].
  match goal with |- ?f (length (w ++ cs)) _ _ = _ => set (star := f) end.
  enough (forall n, (length (w ++ cs) <= n)%nat -> star n (w ++ cs) groups = Some x) as H by by apply H.
  induction Hw as [|c w Hc Hw IH]; intros n Hn; simpl in *.
  - destruct n as [|n]; [exact Hk|]. simpl. destruct cs as [|c cs]; [exact Hk|]. by rewrite Hcs.
  - destruct n as [|n]; [lia|]. simpl. rewrite Hc.
    rewrite (proj2 (Nat.ltb_lt _ _)) by (rewrite ?length_app; lia). rewrite IH by lia. done.
Qed.

Lemma match_plus_class p w cs groups k x :
  w <> [] -> Forall (fun c => p c = true) w -> match cs with c :: _ => p c = false | [] => True end ->
  k cs groups = Some x -> match_at (RPlus (RClass p)) (w ++ cs) groups k = Some x.
Proof.
  intros Hne Hw Hcs Hk. destruct w as [|c w]; [done|]. apply Forall_cons in Hw as [Hc Hw].
  unfold RPlus. cbn [match_at app]. rewrite Hc. by apply match_star_class.
Qed.

Lemma match_group r w cs groups k x :
  match_at r (w ++ cs) groups (fun cs' groups' => k cs' (groups' ++ [take (length (w ++ cs) - length cs') (w ++ cs)])) = Some x ->
  match_at (RGroup r) (w ++ cs) groups k = Some x.
Proof. done. Qed.

Lemma take_matched w (cs : list ascii) : take (length (w ++ cs) - length cs) (w ++ cs) = w.
Proof. rewrite length_app, Nat.add_sub. apply take_app_length. Qed.
End known.

(** ** What a match means

    The words of a pattern and the groups they give. *)

Inductive matches : regex -> list ascii -> list (list ascii) -> Prop :=
| m_eps : matches REps [] []
| m_class (p : ascii -> bool) c : p c = true -> matches (RClass p) [c] []
| m_seq a b w1 w2 g1 g2 : matches a w1 g1 -> matches b w2 g2 -> matches (RSeq a b) (w1 ++ w2) (g1 ++ g2)
| m_left a b w g : matches a w g -> matches (RAlt a b) w g
| m_right a b w g : matches b w g -> matches (RAlt a b) w g
| m_star_nil a : matches (RStar a) [] []
| m_star_cons a w1 w2 g1 g2 : matches a w1 g1 -> matches (RStar a) w2 g2 -> matches (RStar a) (w1 ++ w2) (g1 ++ g2)
| m_group a w g : matches a w g -> matches (RGroup a) w (g ++ [w]).

Lemma match_at_sound {A} r cs gs (k : list ascii -> list (list ascii) -> option A) x :
  match_at r cs gs k = Some x ->
  exists w rest g, cs = w ++ rest /\ matches r w g /\ k rest (gs ++ g) = Some x.
Proof.
  revert cs gs k. induction r as [|p|a IHa b IHb|a IHa b IHb|a IHa|a IHa]; intros cs gs k; cbn [match_at].
  - intros H. exists [], cs, []. rewrite app_nil_r. split_and!; [done|constructor|done].
  - destruct cs as [|c cs]; [done|]. destruct (p c) eqn:Ep; [|done]. intros H.
    exists [c], cs, []. rewrite app_nil_r. split_and!; [done|by constructor|done].
  - intros H. apply IHa in H as (w1 & r1 & g1 & -> & H1 & H). apply IHb in H as (w2 & r2 & g2 & -> & H2 & H).
    exists (w1 ++ w2), r2, (g1 ++ g2). rewrite <- !app_assoc in *. split_and!; [done|by constructor|done].
  - destruct (match_at a cs gs k) as [y|] eqn:E; [intros [= ->]; apply IHa in E as Hw|intros Hw; apply IHb in Hw];
      destruct Hw as (w & rest & g & -> & Hm & Hk); exists w, rest, g; split_and!; try done; [by apply m_left|by apply m_right].
  - generalize (length cs) at 1 as n. intros n. revert cs gs. induction n as [|n IHn]; intros cs gs.
    { intros H. exists [], cs, []. rewrite app_nil_r. split_and!; [done|constructor|done]. }
    destruct (match_at a cs gs _) as [y|] eqn:E.
    + intros [= ->]. apply IHa in E as (w1 & r1 & g1 & -> & H1 & H). destruct (_ <? _)%nat; [|done].
      apply IHn in H as (w2 & r2 & g2 & -> & H2 & H). exists (w1 ++ w2), r2, (g1 ++ g2).
      rewrite <- !app_assoc in *. split_and!; [done|by constructor|done].
    + intros H. exists [], cs, []. rewrite app_nil_r. split_and!; [done|constructor|done].
  - intros H. apply IHa in H as (w & rest & g & -> & Hm & H). exists w, rest, (g ++ [w]).
    rewrite take_matched, <- app_assoc in H. split_and!; [done|by constructor|done].
Qed.

Lemma match_front_sound r cs gs : match_front r cs = Some gs -> exists w rest, cs = w ++ rest /\ matches r w gs.
Proof.
  intros H. apply match_at_sound in H as (w & rest & g & -> & Hm & [= <-]). eauto.
Qed.

(** ** Words of the simple patterns *)

Lemma matches_class p w g : matches (RClass p) w g -> exists c, w = [c] /\ p c = true /\ g = [].
Proof. inversion 1; subst; eauto. Qed.

Lemma matches_star_class p w g : matches (RStar (RClass p)) w g -> Forall (fun c => p c = true) w /\ g = [].
Proof.
  intros H. remember (RStar (RClass p)) as r eqn:Er. induction H as [| | | | |a|a w1 w2 g1 g2 H1 _ H2 IH|]; try done.
  injection Er as ->. apply matches_class in H1 as (c & -> & Hc & ->). destruct (IH eq_refl) as [? ->].
  split; [by constructor|done].
Qed.

Lemma matches_plus_class p w g : matches (RPlus (RClass p)) w g -> w <> [] /\ Forall (fun c => p c = true) w /\ g = [].
Proof.
  intros H. inversion H as [| |? ? w1 w2 g1 g2 H1 H2| | | | |]; subst.
  apply matches_class in H1 as (c & -> & Hc & ->). apply matches_star_class in H2 as [? ->].
  split_and!; [done|by constructor|done].
Qed.

Lemma matches_text s w g : matches (RText s) w g -> w = chars s /\ g = [].
Proof.
  revert w g. induction s as [|c s IH]; intros w g H; inversion H as [| |? ? w1 w2 g1 g2 H1 H2| | | | |]; subst; [done|].
  apply matches_class in H1 as (d & -> & Hd & ->). apply bool_decide_eq_true in Hd as ->.
  destruct (IH _ _ H2) as [-> ->]. done.
Qed.

Lemma matches_group r w g : matches (RGroup r) w g -> exists g0, matches r w g0 /\ g = g0 ++ [w].
Proof. inversion 1; subst; eauto. Qed.

Lemma matches_cat_cons r rs w g : matches (RCat (r :: rs)) w g ->
  exists w1 w2 g1 g2, w = w1 ++ w2 /\ g = g1 ++ g2 /\ matches r w1 g1 /\ matches (RCat rs) w2 g2.
Proof. inversion 1; subst; eauto 8. Qed.

Lemma matches_cat_nil w g : matches (RCat []) w g -> w = [] /\ g = [].
Proof. by inversion 1. Qed.

Lemma matches_times_class n p w g : matches (RTimes n (RClass p)) w g ->
  length w = n /\ Forall (fun c => p c = true) w /\ g = [].
Proof.
  revert w g. induction n as [|n IH]; intros w g H; inversion H as [| |? ? w1 w2 g1 g2 H1 H2| | | | |]; subst; [done|].
  apply matches_class in H1 as (c & -> & Hc & ->). destruct (IH _ _ H2) as (<- & ? & ->).
  split_and!; [done|by constructor|done].
Qed.
