(* ===== verification/Npm.v ===== *)
(** * The proxy log collector

    [internal/agent/npm]: [ParseLine] reads one line of an access log, the tailer
    reads what was appended to the log files since its cursors, through rotations and
    truncations, and [Events] makes events of it.

    The tailer is a program over system calls ([Effects]); the log directory, the
    cursor file and their faults are the state of the handler, which also lets other
    processes write and rename between the calls. *)

From stdpp Require Import base strings numbers gmap sorting list.
From Stdlib Require Import Ascii.
From S2P Require Import Prelude GoBase GoText GoTime Regex GoModel Sha256 Effects.

Open Scope string_scope.
Open Scope Z_scope.
Local Open Scope flow_scope.
Local Open Scope list_scope.

(** ** Lines *)

Definition upper (c : ascii) : bool := (65 <=? code c) && (code c <=? 90).
Definition backslash : ascii := ascii_of_nat 92.
Definition quote : ascii := ascii_of_nat 34.

Definition RDigit : regex := RClass is_digit.
(** [([0-9]{3}|-)] *)
Definition RStatus : regex := RGroup (RAlt (RTimes 3 RDigit) (RChar "-"%char)).

(** [accessLine] *)
Definition accessLine : regex := RCat
  [RText "["; RGroup (RPlus (RNot "]"%char)); RText "] - "; RStatus; RText " "; RStatus; RText " - ";
   RGroup (RPlus (RClass upper)); RText " "; RPlus (RNot " "%char); RText " "; RGroup (RPlus (RNot " "%char));
   RText " "; RChar quote;
   RStar (RAlt (RSeq (RChar backslash) (RNot newline)) (RNot quote));
   RChar quote; RText " [Client "; RGroup (RPlus (RNot "]"%char)); RText "] [Length "; RGroup (RPlus RDigit);
   RText "] [Gzip "; RStar (RNot "]"%char); RText "] [Sent-to "; RGroup (RPlus (RNot "]"%char)); RText "]"].

Record ParsedRequest : Type := MkParsedRequest {
  pq_ObservedAt : time; pq_Request : ProxyRequest; pq_SourceID : string }.

(** The first of the two statuses that is a number. *)
Fixpoint first_status (candidates : list (list ascii)) : option Z :=
  match candidates with
  | [] => None
  | w :: rest =>
      if bool_decide (w = chars "-") then first_status rest
      else match parse_digits max_i64 0 w with
           | Some n => Some n
           | None => first_status rest
           end
  end.

Section parse.
(** [strings.ToLower] outside ASCII *)
Variable unicode_lower : string -> string.

Definition ParseLine (line : list ascii) : result string ParsedRequest :=
  match match_front accessLine line with
  | Some [at_; s1; s2; method; host; client; length_; upstream] =>
      match parse_access_time at_ with
      | None => Err "invalid NPM access log time"
      | Some observedAt =>
          match first_status [s1; s2] with
          | None => Err "invalid NPM access log status"
          | Some status =>
              if negb (valid_addr (of_chars client)) then Err "invalid NPM access log client IP"
              else
                match parse_digits max_i64 0 length_ with
                | None => Err "invalid NPM access log length"
                | Some bytesSent =>
                    Ok (MkParsedRequest observedAt
                          (MkProxyRequest (to_lower unicode_lower (trim_suffix_dot (of_chars host))) (of_chars client)
                             (of_chars method) status bytesSent (of_chars upstream) 0) "")
                end
          end
      end
  | _ => Err "invalid NPM access log line"
  end.
End parse.

(** Text with its quotes written as accents. *)
Definition quoted (s : string) : list ascii :=
  (fun c => if bool_decide (c = "`"%char) then quote else if bool_decide (c = "|"%char) then backslash else c) <$> chars s.

Example parse_fixture :
  ParseLine (fun s => s) (quoted "[14/Jul/2026:15:17:40 +0000] - - 502 - POST https Api.example.test. `/v1/jobs` [Client 203.0.113.8] [Length 157] [Gzip -] [Sent-to 172.18.0.3] `ExampleAgent/1.0` `-`") =
  Ok (MkParsedRequest (1784042260 * Second)
        (MkProxyRequest "api.example.test" "203.0.113.8" "POST" 502 157 "172.18.0.3" 0) "").
Proof. vm_compute. reflexivity. Qed.

Example parse_escaped_quote :
  is_ok (ParseLine (fun s => s) (quoted "[14/Jul/2026:15:19:40 +0000] - 200 200 - GET https search.example.test `/search?q=|`quoted|`&key=x` [Client 192.0.2.9] [Length 42] [Gzip -] [Sent-to search] `-`")) = true.
Proof. vm_compute. reflexivity. Qed.
