(* ===== verification/NpmTail.v ===== *)
(** * The log tailer

    [internal/agent/npm/tailer.go]: [Poll] reads the complete lines appended to the log
    files since their cursors and stores the cursors; [Events], the health events and
    the recovery tracker. *)

From stdpp Require Import base strings numbers gmap sorting list.
From Stdlib Require Import Ascii SpecFloat.
From S2P Require Import Prelude GoBase GoText GoTime GoPath GoModel InterfaceCounter Sha256 Effects StateFile Npm.

Open Scope string_scope.
Open Scope Z_scope.
Local Open Scope flow_scope.
Local Open Scope list_scope.

(** ** The log directory *)

(** Device and inode, which stay when a file is renamed. *)
Abbreviation ident := (Z * Z)%type.

Record node : Type := MkNode { nd_id : ident; nd_isDir : bool }.

(** What other processes do to the logs. *)
Inductive change : Type :=
| Append (id : ident) (bytes : list ascii)
| Rename (from to : string)
| Create (path : string) (id : ident)
| Truncate_ (id : ident)
| Unlink (path : string).

Record logs : Type := MkLogs {
  lg_names : gmap string node;
  lg_data : gmap ident (list ascii);
  lg_cursors : option (list Z);        (** the cursor file *)
  lg_tmp : option (list Z);            (** its temporary file *)
  lg_changes : list (list change);     (** what happens before each of the next calls *)
  lg_fates : list (option fault) }.    (** the fate of the next calls *)

Definition content (lg : logs) (id : ident) : list ascii := default [] (lg_data lg !! id).

Definition set_names (m : gmap string node) (lg : logs) : logs :=
  MkLogs m (lg_data lg) (lg_cursors lg) (lg_tmp lg) (lg_changes lg) (lg_fates lg).
Definition set_data (id : ident) (cs : list ascii) (lg : logs) : logs :=
  MkLogs (lg_names lg) (<[id := cs]> (lg_data lg)) (lg_cursors lg) (lg_tmp lg) (lg_changes lg) (lg_fates lg).
Definition set_files (cursors tmp : option (list Z)) (lg : logs) : logs :=
  MkLogs (lg_names lg) (lg_data lg) cursors tmp (lg_changes lg) (lg_fates lg).

Definition apply_change (lg : logs) (c : change) : logs :=
  match c with
  | Append id bytes => set_data id (content lg id ++ bytes) lg
  | Rename from to =>
      match lg_names lg !! from with
      | Some nd => set_names (<[to := nd]> (delete from (lg_names lg))) lg
      | None => lg
      end
  | Create path id => set_data id [] (set_names (<[path := MkNode id false]> (lg_names lg)) lg)
  | Truncate_ id => set_data id [] lg
  | Unlink path => set_names (delete path (lg_names lg)) lg
  end.

Inductive sys : Type -> Type :=
| SReadCursors : sys (result string (option (list Z)))
| SGlob (pattern : string) : sys (result string (list string))
| SStat (path : string) : sys (result string (ident * Z))
| SOpen (path : string) : sys (result string ident)
| SFstat (id : ident) : sys (result string ident)
| SSeek (offset : Z) : sys (result string unit)
| SRead (id : ident) (offset : Z) : sys (list ascii * option string)
| SReadDir (dir : string) : sys (result string (list (string * bool)))
| SInfo (path : string) : sys (result string ident)
| SMkdirAll : sys (result string unit)
| SCreateTemp : sys (result string unit)
| SChmod : sys (result string unit)
| SWrite (bytes : list Z) : sys (result string unit)
| SSync : sys (result string unit)
| SClose : sys (result string unit)
| SRename : sys (result string unit)
| SRemoveTemp : sys (result string unit).

(** The paths a pattern stands for; none for a malformed pattern. *)
Class Globbing : Type := glob_match : string -> option (string -> bool).

Section handler.
Context `{!Globbing}.

Definition find_path (path : string) (lg : logs) : result string node :=
  match lg_names lg !! path with Some nd => Ok nd | None => Err "no such file or directory" end.

Definition sys_effect {X} (e : sys X) (lg : logs) : logs * X :=
  match e with
  | SReadCursors => (lg, Ok (lg_cursors lg))
  | SGlob pattern =>
      (lg, match glob_match pattern with
           | Some f => Ok (sort_strings (filter (fun p => f p = true) (map_to_list (lg_names lg)).*1))
           | None => Err "syntax error in pattern"
           end)
  | SStat path =>
      (lg, let* nd := find_path path lg in Ok (nd_id nd, Z.of_nat (length (content lg (nd_id nd)))))
  | SOpen path => (lg, let* nd := find_path path lg in Ok (nd_id nd))
  | SFstat id => (lg, Ok id)
  | SSeek offset => (lg, if offset <? 0 then Err "invalid argument" else Ok tt)
  | SRead id offset => (lg, (drop (Z.to_nat offset) (content lg id), None))
  | SReadDir dir =>
      (lg, Ok (omap (fun p => (fun nd => (Base p, nd_isDir nd)) <$> lg_names lg !! p)
                 (sort_strings (filter (fun p => Dir p = dir) (map_to_list (lg_names lg)).*1))))
  | SInfo path => (lg, let* nd := find_path path lg in Ok (nd_id nd))
  | SMkdirAll | SChmod | SSync | SClose => (lg, Ok tt)
  | SCreateTemp => (set_files (lg_cursors lg) (Some []) lg, Ok tt)
  | SWrite bytes => (set_files (lg_cursors lg) (Some bytes) lg, Ok tt)
  | SRename =>
      match lg_tmp lg with
      | Some bytes => (set_files (Some bytes) None lg, Ok tt)
      | None => (lg, Err "no such file or directory")
      end
  | SRemoveTemp => (set_files (lg_cursors lg) None lg, Ok tt)
  end.

Definition sys_fails {X} (e : sys X) (answer : X) (what : string) : X :=
  match e in sys X return X -> X with
  | SRead _ _ => fun answer => (answer.1, Some what)
  | SReadCursors | SGlob _ | SStat _ | SOpen _ | SFstat _ | SSeek _ | SReadDir _ | SInfo _ | SMkdirAll
  | SCreateTemp | SChmod | SWrite _ | SSync | SClose | SRename | SRemoveTemp => fun _ => Err what
  end answer.

(** Before a call others change the logs; a call may fail before or after its effect,
    a read then after the bytes it got. *)
Definition sys_handle {X} (e : sys X) (lg : logs) : logs * X :=
  let lg1 := foldl apply_change
    (MkLogs (lg_names lg) (lg_data lg) (lg_cursors lg) (lg_tmp lg) (drop 1 (lg_changes lg)) (drop 1 (lg_fates lg)))
    (default [] (head (lg_changes lg))) in
  let r := sys_effect e lg1 in
  match default None (head (lg_fates lg)) with
  | None => r
  | Some (FailsBefore what) => (lg1, sys_fails e r.2 what)
  | Some (FailsAfter what) => (r.1, sys_fails e r.2 what)
  end.

#[export] Instance sys_handler : Handler sys logs := fun X e lg => sys_handle e lg.
End handler.

(** ** Data *)

Record Cursor : Type := MkCursor { cu_Device : Z; cu_Inode : Z; cu_Offset : Z }.

#[export] Instance Cursor_eq_dec : EqDecision Cursor.
Proof. solve_decision. Defined.

Record PollResult : Type := MkPollResult {
  rs_Requests : list ParsedRequest; rs_Malformed : Z; rs_Truncated : bool }.

Record Tailer : Type := MkTailer {
  tl_allowed : list string; tl_startAtEnd : bool; tl_loaded : bool; tl_cursors : gmap string Cursor }.

Definition NewTailer (allowedRoots : list string) (startAtEnd : bool) : Tailer :=
  MkTailer (Clean <$> allowedRoots) startAtEnd false ∅.

Definition set_cursors (m : gmap string Cursor) (t : Tailer) : Tailer :=
  MkTailer (tl_allowed t) (tl_startAtEnd t) (tl_loaded t) m.
Definition set_loaded (t : Tailer) : Tailer :=
  MkTailer (tl_allowed t) (tl_startAtEnd t) true (tl_cursors t).

(** [encoding/json] on the cursors: what is read into the map, and whether without an
    error. *)
Class CursorCodec : Type := {
  encode_cursors : gmap string Cursor -> option (list Z);
  decode_cursors : list Z -> gmap string Cursor -> gmap string Cursor * bool }.

Definition io_error (context what : string) : string := context +:+ ": " +:+ what.

(** [x, err := e; if err != nil { return fmt.Errorf(context, err) }] *)
Definition or_fail {A B} (e : sys (result string A)) (context : string)
  (k : A -> prog sys (result string B)) : prog sys (result string B) :=
  let! r := call e in
  match r with
  | Err what => Ret (Err (io_error context what))
  | Ok a => k a
  end.

(** ** Reading *)

Section tail.
Context `{!CursorCodec} (unicode_lower : string -> string).

Definition with_line (id : ident) (offset : Z) (line : list ascii) (r : PollResult) : PollResult :=
  match ParseLine unicode_lower line with
  | Err _ => MkPollResult (rs_Requests r) (rs_Malformed r + 1) (rs_Truncated r)
  | Ok q =>
      let source := of_chars (format_int id.1) +:+ ":" +:+ of_chars (format_int id.2) +:+ ":" +:+ of_chars (format_int offset) in
      MkPollResult (rs_Requests r ++ [MkParsedRequest (pq_ObservedAt q) (pq_Request q) source])
        (rs_Malformed r) (rs_Truncated r)
  end.

(** The loop over [ReadString('\n')]: complete lines only. *)
Fixpoint read_loop (id : ident) (line : list ascii) (cs : list ascii) (offset : Z) (r : PollResult) : Z * PollResult :=
  match cs with
  | [] => (offset, r)
  | c :: cs' =>
      if bool_decide (c = newline) then
        let offset := offset + Z.of_nat (length line) + 1 in
        read_loop id [] cs' offset (with_line id offset line r)
      else read_loop id (line ++ [c]) cs' offset r
  end.

Definition readRequests (path : string) (offset : Z) (r : PollResult) : prog sys (result string (Z * PollResult)) :=
  or_fail (SOpen path) "open NPM access log" (fun handle =>
  or_fail (SFstat handle) "stat open NPM access log" (fun id =>
  or_fail (SSeek offset) "seek NPM access log" (fun _ =>
  let! bytes := call (SRead handle offset) in
  match bytes with
  | (cs, None) => Ret (Ok (read_loop id [] cs offset r))
  | (_, Some what) => Ret (Err (io_error "read NPM access log" what))
  end))).

Fixpoint find_in (dir : string) (entries : list (string * bool)) (id : ident) : prog sys (option string) :=
  match entries with
  | [] => Ret None
  | (name, isDir) :: rest =>
      if (isDir : bool) then find_in dir rest id
      else
        let! info := call (SInfo (Join dir name)) in
        match info with
        | Ok id' => if bool_decide (id' = id) then Ret (Some (Join dir name)) else find_in dir rest id
        | Err _ => find_in dir rest id
        end
  end.

Definition findInode (dir : string) (id : ident) : prog sys (option string) :=
  let! entries := call (SReadDir dir) in
  match entries with
  | Err _ => Ret None
  | Ok entries => find_in dir entries id
  end.

(** The rest of a file that was renamed. *)
Definition finish_rotated (rotated : option string) (offset : Z) (r : PollResult)
  (k : PollResult -> prog sys (result string (Cursor * PollResult))) : prog sys (result string (Cursor * PollResult)) :=
  match rotated with
  | None => k r
  | Some path =>
      let! res := readRequests path offset r in
      match res with
      | Err e => Ret (Err e)
      | Ok (_, r) => k r
      end
  end.

(** The file from a cursor on. *)
Definition read_current (path : string) (cursor : Cursor) (r : PollResult) : prog sys (result string (Cursor * PollResult)) :=
  let! res := readRequests path (cu_Offset cursor) r in
  match res with
  | Err e => Ret (Err e)
  | Ok (offset, r) => Ret (Ok (MkCursor (cu_Device cursor) (cu_Inode cursor) offset, r))
  end.

(** [pollPath]: the cursor it stores and the result. *)
Definition pollPath (startAtEnd : bool) (known : option Cursor) (path : string) (r : PollResult)
  : prog sys (result string (Cursor * PollResult)) :=
  or_fail (SStat path) "stat NPM access log" (fun '(device, inode, size) =>
  match known, startAtEnd with
  | None, true => Ret (Ok (MkCursor device inode size, r))
  | _, _ =>
      let cursor := default (MkCursor device inode 0) known in
      if negb ((cu_Device cursor =? device) && (cu_Inode cursor =? inode)) then
        let! rotated := findInode (Dir path) (cu_Device cursor, cu_Inode cursor) in
        finish_rotated rotated (cu_Offset cursor) r (read_current path (MkCursor device inode 0))
      else if size <? cu_Offset cursor then
        read_current path (MkCursor device inode 0) (MkPollResult (rs_Requests r) (rs_Malformed r) true)
      else read_current path cursor r
  end).

Fixpoint poll_paths (t : Tailer) (paths : list string) (r : PollResult) : prog sys (Tailer * result string PollResult) :=
  match paths with
  | [] => Ret (t, Ok r)
  | path :: rest =>
      let! res := pollPath (tl_startAtEnd t) (tl_cursors t !! path) path r in
      match res with
      | Err e => Ret (t, Err e)
      | Ok (cursor, r) => poll_paths (set_cursors (<[path := cursor]> (tl_cursors t)) t) rest r
      end
  end.

Definition isAllowed (t : Tailer) (path : string) : bool := existsb (fun root => is_inside root path) (tl_allowed t).

Fixpoint poll_patterns (t : Tailer) (patterns : list string) (r : PollResult) : prog sys (Tailer * result string PollResult) :=
  match patterns with
  | [] => Ret (t, Ok r)
  | pattern :: rest =>
      let pattern := Clean pattern in
      if negb (isAllowed t pattern) then Ret (t, Err "NPM log glob must be within allowed roots")
      else
        let! paths := call (SGlob pattern) in
        match paths with
        | Err what => Ret (t, Err (io_error "expand NPM log glob" what))
        | Ok paths =>
            let! res := poll_paths t paths r in
            match res with
            | (t, Err e) => Ret (t, Err e)
            | (t, Ok r) => poll_patterns t rest r
            end
        end
  end.

(** ** The cursor file *)

Definition load (t : Tailer) : prog sys (Tailer * result string unit) :=
  if tl_loaded t then Ret (t, Ok tt)
  else
    let t := set_loaded t in
    let! contents := call SReadCursors in
    match contents with
    | Err what => Ret (t, Err (io_error "read NPM cursors" what))
    | Ok None => Ret (t, Ok tt)
    | Ok (Some bytes) =>
        let '(m, ok) := decode_cursors bytes (tl_cursors t) in
        Ret (set_cursors m t, if (ok : bool) then Ok tt else Err "decode NPM cursors")
    end.

(** A step of [persist]: its error return closes the file if it is open and removes
    it. *)
Definition or_discard (e : sys (result string unit)) (open : bool) (context : string -> string)
  (k : prog sys (result string unit)) : prog sys (result string unit) :=
  let! r := call e in
  match r with
  | Ok _ => k
  | Err what =>
      let! _ := (if open then call SClose else Ret (Ok tt)) in
      let! _ := call SRemoveTemp in
      Ret (Err (context what))
  end.

Definition persist (t : Tailer) : prog sys (result string unit) :=
  or_fail SMkdirAll "create NPM cursor directory" (fun _ =>
  or_fail SCreateTemp "create NPM cursor file" (fun _ =>
  or_discard SChmod true (fun what => what) (
  match encode_cursors (tl_cursors t) with
  | None =>
      let! _ := call SClose in
      let! _ := call SRemoveTemp in
      Ret (Err "encode NPM cursors")
  | Some bytes =>
      or_discard (SWrite bytes) true (io_error "encode NPM cursors") (
      or_discard SSync true (fun what => what) (
      or_discard SClose false (fun what => what) (
      or_discard SRename false (io_error "publish NPM cursors") (
      let! _ := call SRemoveTemp in
      Ret (Ok tt)))))
  end))).

Definition empty_result : PollResult := MkPollResult [] 0 false.

Definition Poll (t : Tailer) (patterns : list string) : prog sys (Tailer * result string PollResult) :=
  let! loaded := load t in
  match loaded with
  | (t, Err e) => Ret (t, Err e)
  | (t, Ok _) =>
      let! polled := poll_patterns t patterns empty_result in
      match polled with
      | (t, Err e) => Ret (t, Err e)
      | (t, Ok r) =>
          let! stored := persist t in
          match stored with
          | Err e => Ret (t, Err e)
          | Ok _ => Ret (t, Ok r)
          end
      end
  end.
End tail.

(** ** Events *)

Definition digest12 (s : string) : string := digest_hex s 12.

(** The event of a request. *)
Definition request_event (q : ParsedRequest) : Event :=
  let r := pq_Request q in
  MkEvent ("proxy:" +:+ digest12 (pq_SourceID q +:+ ":" +:+ of_chars (format_rfc3339nano (pq_ObservedAt q)) +:+ ":" +:+
             pr_Host r +:+ ":" +:+ pr_SourceIP r +:+ ":" +:+ pr_Method r +:+ ":" +:+
             of_chars (format_int (pr_Status r)) +:+ ":" +:+ of_chars (format_int (pr_BytesSent r))))
    (pq_ObservedAt q) EventProxyRequest "" 0 0 "" None None (Some r) None None.

(** A health event of the collector. *)
Definition npm_health (digest_of : string) (at_ : time) (status code : string) (dropped : Z) (message : string) : Event :=
  MkEvent ("health:" +:+ digest12 digest_of) at_ EventHealth "" 0 0 ""
    (Some (MkHealthEvent "npm_logs" status code dropped (S754_zero false) message)) None None None None.

Definition nanos (at_ : time) : string := of_chars (format_int (UnixNano at_)).

Definition Events (r : PollResult) (observedAt : time) : list Event :=
  (request_event <$> rs_Requests r) ++
  (if (0 <? rs_Malformed r) || rs_Truncated r then
     let code := if rs_Truncated r then "log_truncated" else "malformed_line" in
     [npm_health ("npm-health:" +:+ nanos observedAt +:+ ":" +:+ code) observedAt "degraded" code (rs_Malformed r)
        "NPM log input changed or contained malformed records"]
   else []).

Definition CollectorUnavailableEvent (observedAt : time) : Event :=
  npm_health ("npm-unavailable:" +:+ nanos observedAt) observedAt "unhealthy" "collector_unavailable" 0
    "NPM log collector could not read configured input".

Definition CollectorHealthyEvent (observedAt : time) : Event :=
  npm_health ("npm-healthy:" +:+ nanos observedAt) observedAt "healthy" "active" 0 "NPM log collector is active".

Record RecoveryTracker : Type := MkRecoveryTracker { rt_reportedHealthy : bool; rt_needsRecovery : bool }.

Definition Observe (tracker : RecoveryTracker) (r : PollResult) (pollErr : bool) (observedAt : time)
  : RecoveryTracker * option Event :=
  if pollErr || (0 <? rs_Malformed r) || rs_Truncated r then (MkRecoveryTracker (rt_reportedHealthy tracker) true, None)
  else if rt_reportedHealthy tracker && negb (rt_needsRecovery tracker) then (tracker, None)
  else (MkRecoveryTracker true false, Some (CollectorHealthyEvent observedAt)).
