(* ===== verification/NpmTheorems.v ===== *)
(** * Properties of the proxy log collector

    The tailer returns every complete line once, through appends, rotations and
    restarts. *)

From stdpp Require Import base strings numbers gmap sets sorting list.
From Stdlib Require Import Ascii.
From S2P Require Import Prelude GoBase GoText GoTime GoPath GoModel Effects StateFile Npm NpmTail.

Open Scope string_scope.
Open Scope Z_scope.
Local Open Scope flow_scope.
Local Open Scope list_scope.

(** ** Reading on *)

Definition add_results (a b : PollResult) : PollResult :=
  MkPollResult (rs_Requests a ++ rs_Requests b) (rs_Malformed a + rs_Malformed b) (rs_Truncated a || rs_Truncated b).

Lemma add_results_empty_l a : add_results empty_result a = a.
Proof. by destruct a. Qed.
Lemma add_results_empty_r a : add_results a empty_result = a.
Proof. destruct a. unfold add_results. simpl. by rewrite app_nil_r, Z.add_0_r, orb_false_r. Qed.
Lemma add_results_assoc a b c : add_results a (add_results b c) = add_results (add_results a b) c.
Proof. unfold add_results. simpl. by rewrite app_assoc, Z.add_assoc, orb_assoc. Qed.

Section read.
Context (unicode_lower : string -> string).

Abbreviation loop := (read_loop unicode_lower).

Lemma with_line_add id o line r : with_line unicode_lower id o line r = add_results r (with_line unicode_lower id o line empty_result).
Proof.
  unfold with_line, add_results. destruct (ParseLine unicode_lower line); simpl;
    by rewrite ?app_nil_r, ?Z.add_0_r, ?orb_false_r.
Qed.

Lemma read_loop_add id line cs o r : loop id line cs o r = ((loop id line cs o empty_result).1, add_results r (loop id line cs o empty_result).2).
Proof.
  revert line o r. induction cs as [|c cs IH]; intros line o r; simpl; [by rewrite add_results_empty_r|].
  case_bool_decide; [|apply IH]. rewrite IH. rewrite (IH _ _ (with_line _ _ _ _ empty_result)). simpl.
  by rewrite (with_line_add id _ line r), add_results_assoc.
Qed.

(** Reading in two goes: the second starts at the offset the first one reached. *)
Lemma read_loop_app id line a b o r : (newline ∉ line) ->
  exists rest, (newline ∉ rest) /\
    line ++ a = take (Z.to_nat ((loop id line a o r).1 - o)) (line ++ a) ++ rest /\
    (o <= (loop id line a o r).1 <= o + Z.of_nat (length (line ++ a))) /\
    (loop id line a o r).1 + Z.of_nat (length rest) = o + Z.of_nat (length (line ++ a)) /\
    loop id line (a ++ b) o r = loop id rest b (loop id line a o r).1 (loop id line a o r).2.
Proof.
  revert line o r. induction a as [|c a IH]; intros line o r Hl.
  { exists line. simpl. rewrite app_nil_r, Z.sub_diag. split_and!; try done; lia. }
  simpl. case_bool_decide as Hc.
  - subst c. set (o1 := o + Z.of_nat (length line) + 1). set (r1 := with_line _ _ _ _ _).
    destruct (IH [] o1 r1 ltac:(apply not_elem_of_nil)) as (rest & Hr & Hcut & Hrange & Hlen & Heq). simpl in Hcut, Hrange, Hlen.
    exists rest. split_and!; [done| |rewrite ?length_app; simpl; lia..|done].
    replace (Z.to_nat ((loop id [] a o1 r1).1 - o)) with (length (line ++ [newline]) + Z.to_nat ((loop id [] a o1 r1).1 - o1))%nat
        by (rewrite length_app; simpl; lia).
    replace (line ++ newline :: a) with ((line ++ [newline]) ++ a) by (by rewrite <- app_assoc).
    rewrite take_app_add, <- (app_assoc _ (take _ _) rest). by rewrite <- Hcut.
  - destruct (IH (line ++ [c]) o r) as (rest & Hr & Hcut & Hrange & Hlen & Heq); [set_solver|].
    rewrite <- !app_assoc in *. simpl in *. by exists rest.
Qed.

Lemma read_loop_prefix id line w cs o r : (newline ∉ w) -> loop id line (w ++ cs) o r = loop id (line ++ w) cs o r.
Proof.
  revert line. induction w as [|c w IH]; intros line Hw; [by rewrite app_nil_r|].
  apply not_elem_of_cons in Hw as [Hc Hw]. simpl. rewrite bool_decide_false by congruence. rewrite IH by done.
  by rewrite <- app_assoc.
Qed.

(** The complete lines of a text that begins at an offset: where they end and what
    they say. *)
Definition reading (id : ident) (start : Z) (cs : list ascii) : Z * PollResult := loop id [] cs start empty_result.

Lemma reading_range id start cs : start <= (reading id start cs).1 <= start + Z.of_nat (length cs).
Proof.
  destruct (read_loop_app id [] cs [] start empty_result ltac:(apply not_elem_of_nil)) as (rest & _ & _ & H & _). exact H.
Qed.

Lemma reading_on id start cs more :
  let r1 := reading id start cs in
  let r2 := loop id [] (drop (Z.to_nat (r1.1 - start)) (cs ++ more)) r1.1 empty_result in
  reading id start (cs ++ more) = (r2.1, add_results r1.2 r2.2).
Proof.
  intros r1 r2. destruct (read_loop_app id [] cs more start empty_result ltac:(apply not_elem_of_nil))
    as (rest & Hrest & Hcut & Hrange & _ & Heq). fold (reading id start cs) in *. fold r1 in Hcut, Hrange, Heq.
  simpl in Hcut, Hrange. unfold reading at 1. rewrite Heq.
  assert (drop (Z.to_nat (r1.1 - start)) (cs ++ more) = rest ++ more) as Hd.
  { rewrite drop_app_le by lia. f_equal. rewrite Hcut at 1.
    rewrite drop_app_ge by (rewrite length_take; lia). rewrite length_take_le by lia. by rewrite Nat.sub_diag. }
  unfold r2. rewrite Hd, read_loop_prefix by done. simpl. by rewrite read_loop_add.
Qed.

Lemma reading_truncated id start cs : rs_Truncated (reading id start cs).2 = false.
Proof.
  unfold reading. generalize (@nil ascii) as line. revert start.
  assert (forall line o r, rs_Truncated r = false -> rs_Truncated (loop id line cs o r).2 = false) as H.
  { induction cs as [|c cs IH]; intros line o r Hr; simpl; [done|]. case_bool_decide; apply IH; [|done].
    unfold with_line. by destruct (ParseLine _ _). }
  intros start line. by apply H.
Qed.
End read.

(** ** The world during a poll *)

Section world.
Context {globbing : Globbing}.

Definition appends_to (id : ident) (c : change) : Prop := match c with Append i _ => i = id | _ => False end.

(** From [lg0] on, only the file [id] grew. *)
Record calm (id : ident) (lg0 lg : logs) : Prop := {
  cm_names : lg_names lg = lg_names lg0;
  cm_others i : i <> id -> content lg i = content lg0 i;
  cm_grows : content lg0 id `prefix_of` content lg id;
  cm_fates : lg_fates lg = [];
  cm_changes : Forall (Forall (appends_to id)) (lg_changes lg) }.

Lemma calm_trans id lg0 lg1 lg2 : calm id lg0 lg1 -> calm id lg1 lg2 -> calm id lg0 lg2.
Proof.
  intros [] []. constructor; [congruence| |by etransitivity|done|done]. intros i Hi.
  by rewrite cm_others1, cm_others0.
Qed.

Lemma content_set_data lg id i cs : content (set_data id cs lg) i = if decide (i = id) then cs else content lg i.
Proof.
  unfold content, set_data. cbn [lg_data]. case_decide; [subst; by rewrite lookup_insert_eq|by rewrite lookup_insert_ne].
Qed.

Lemma appends_calm id lg0 lg cs : calm id lg0 lg -> Forall (appends_to id) cs ->
  calm id lg0 (foldl apply_change lg cs) /\ lg_cursors (foldl apply_change lg cs) = lg_cursors lg /\
  lg_tmp (foldl apply_change lg cs) = lg_tmp lg.
Proof.
  intros Hc Hcs. revert lg Hc. induction Hcs as [|c cs Hi Hcs IH]; intros lg Hc; [done|].
  destruct c as [i bytes| | | |]; try done. simpl in Hi. subst i. apply (IH (set_data id (content lg id ++ bytes) lg)). destruct Hc. constructor; try done.
  - intros i Hi. rewrite content_set_data, decide_False by done. by apply cm_others0.
  - rewrite content_set_data, decide_True by done. by apply prefix_app_r.
Qed.

(** A call is answered in a world where only the file grew. *)
Lemma calm_handle {X} (e : sys X) id lg lg' x : calm id lg lg -> handle e lg = (lg', x) ->
  exists lg1, calm id lg lg1 /\ lg_cursors lg1 = lg_cursors lg /\ lg_tmp lg1 = lg_tmp lg /\ sys_effect e lg1 = (lg', x).
Proof.
  intros Hc. unfold handle, sys_handler, sys_handle. rewrite (cm_fates _ _ _ Hc). simpl.
  set (lg0 := MkLogs _ _ _ _ _ _). intros E.
  assert (calm id lg lg0) as H0.
  { destruct Hc. constructor; try done. unfold lg0. cbn [lg_changes]. by apply Forall_drop. }
  assert (Forall (appends_to id) (default [] (head (lg_changes lg)))) as Hh.
  { destruct Hc as [_ _ _ _ H]. destruct H; simpl; [constructor|done]. }
  destruct (appends_calm id lg lg0 _ H0 Hh) as (H1 & H2 & H3).
  eexists. split; [exact H1|]. split; [exact H2|]. split; [exact H3|]. rewrite E. done.
Qed.

Lemma calm_refl id lg0 lg : calm id lg0 lg -> calm id lg lg.
Proof. intros []. by constructor. Qed.

(** Calls that leave the log files alone. *)
Lemma calm_effect {X} (e : sys X) id lg lg' x : calm id lg lg -> sys_effect e lg = (lg', x) -> calm id lg lg'.
Proof.
  intros Hc E. assert (lg_names lg' = lg_names lg /\ lg_data lg' = lg_data lg /\ lg_changes lg' = lg_changes lg /\ lg_fates lg' = lg_fates lg) as (E1 & E2 & E3 & E4).
  { destruct e; simpl in E; repeat case_match; simplify_eq; done. }
  assert (forall i, content lg' i = content lg i) as Hcon by (intros i; unfold content; by rewrite E2).
  destruct Hc. constructor; rewrite ?Hcon; try done; congruence.
Qed.

(** Nor was the cursor file written. *)
Definition quiet (id : ident) (lg0 lg : logs) : Prop := calm id lg0 lg /\ lg_cursors lg = lg_cursors lg0.

Lemma quiet_then id lg0 lg1 lg2 : quiet id lg0 lg1 -> quiet id lg1 lg2 -> quiet id lg0 lg2.
Proof. intros [H1 E1] [H2 E2]. split; [by eapply calm_trans|congruence]. Qed.

Lemma quiet_self id lg0 lg : quiet id lg0 lg -> quiet id lg lg.
Proof. intros [H _]. split; [by eapply calm_refl|done]. Qed.

Abbreviation ends p Q lg := (spec (fun _ => True) p Q lg).

(** Calls on the logs and the reading of the cursor file. *)
Definition log_call {X} (e : sys X) : bool :=
  match e with
  | SReadCursors | SGlob _ | SStat _ | SOpen _ | SFstat _ | SSeek _ | SRead _ _ | SReadDir _ | SInfo _ => true
  | _ => false
  end.

Lemma quiet_call {A X} (e : sys X) (k : X -> prog sys A) Q id lg : log_call e = true -> calm id lg lg ->
  (forall lg1 x, quiet id lg lg1 -> sys_effect e lg1 = (lg1, x) -> ends (k x) Q lg1) ->
  ends (prog_bind (call e) k) Q lg.
Proof.
  intros He Hc Hk. apply spec_call; [done|]. intros lg' x E.
  apply (calm_handle e id) in E as (lg1 & H1 & H2 & _ & E); [|done].
  assert (lg' = lg1) as -> by (destruct e; try done; simpl in E; repeat case_match; by simplify_eq).
  by apply (Hk lg1).
Qed.

Context {codec : CursorCodec} (unicode_lower : string -> string).

Abbreviation loop := (read_loop unicode_lower).

Lemma read_quiet id path nd o r lg (Q : result string (Z * PollResult) -> logs -> Prop) :
  calm id lg lg -> 0 <= o -> lg_names lg !! path = Some nd ->
  (forall lg1, quiet id lg lg1 -> Q (Ok (loop (nd_id nd) [] (drop (Z.to_nat o) (content lg1 (nd_id nd))) o r)) lg1) ->
  ends (readRequests unicode_lower path o r) Q lg.
Proof.
  intros Hc Ho Hn HQ. apply (quiet_call _ _ _ id); [done|done|]. intros lg1 x H1 E. simpl in E. unfold find_path in E.
  rewrite (cm_names _ _ _ (proj1 H1)), Hn in E. simpl in E. injection E as <-.
  apply (quiet_call _ _ _ id); [done|by eapply calm_refl, H1|]. intros lg2 x H2 E. injection E as <-.
  apply (quiet_call _ _ _ id); [done|by eapply calm_refl, H2|]. intros lg3 x H3 E. simpl in E.
  rewrite (proj2 (Z.ltb_ge _ _)) in E by done. injection E as <-.
  apply (quiet_call _ _ _ id); [done|by eapply calm_refl, H3|]. intros lg4 x H4 E. injection E as <-.
  apply spec_ret; [done|]. apply HQ. eauto using quiet_then.
Qed.

Lemma find_in_quiet id dir entries wanted lg Q : calm id lg lg ->
  (forall found lg1, quiet id lg lg1 ->
     match found with
     | Some path => exists nd, lg_names lg !! path = Some nd /\ nd_id nd = wanted
     | None => forall name nd, (name, false) ∈ entries -> lg_names lg !! Join dir name = Some nd -> nd_id nd <> wanted
     end -> Q found lg1) ->
  ends (find_in dir entries wanted) Q lg.
Proof.
  revert lg Q. induction entries as [|[name isDir] entries IH]; intros lg Q Hc HQ.
  { apply spec_ret; [done|]. apply HQ; [split; done|]. intros name nd Hin. by apply elem_of_nil in Hin. }
  cbn [find_in]. destruct isDir.
  { apply IH; [done|]. intros found lg1 H1 Hf. apply HQ; [done|]. destruct found; [done|].
    intros name' nd Hin. apply Hf. apply elem_of_cons in Hin as [[= ->]|?]; done. }
  apply (quiet_call _ _ _ id); [done|done|]. intros lg1 x H1 E. simpl in E. unfold find_path in E.
  rewrite (cm_names _ _ _ (proj1 H1)) in E.
  assert (forall x, (forall nd, lg_names lg !! Join dir name = Some nd -> nd_id nd <> wanted) ->
    x = lg1 -> ends (find_in dir entries wanted) Q x) as Hnext.
  { intros x0 Hno ->. apply IH; [by eapply calm_refl, H1|]. intros found lg2 H2 Hf. apply HQ; [by eapply quiet_then|].
    rewrite (cm_names _ _ _ (proj1 H1)) in Hf. destruct found; [done|].
    intros name' nd Hin Hl. apply elem_of_cons in Hin as [[= ->]|Hin]; [by apply Hno|by eapply Hf]. }
  destruct (lg_names lg !! Join dir name) as [nd|] eqn:En; simpl in E; injection E as <-; [|by apply Hnext].
  case_bool_decide as Eid; [|apply Hnext; [congruence|done]].
  apply spec_ret; [done|]. apply HQ; [done|]. exists nd. by rewrite En.
Qed.

Lemma findInode_quiet id dir wanted lg Q : calm id lg lg ->
  (forall found lg1, quiet id lg lg1 ->
     match found with
     | Some path => exists nd, lg_names lg !! path = Some nd /\ nd_id nd = wanted
     | None => forall path nd, lg_names lg !! path = Some nd -> nd_isDir nd = false -> Dir path = dir ->
         Join dir (Base path) = path -> nd_id nd <> wanted
     end -> Q found lg1) ->
  ends (findInode dir wanted) Q lg.
Proof.
  intros Hc HQ. apply (quiet_call _ _ _ id); [done|done|]. intros lg1 x H1 E. simpl in E. injection E as <-.
  apply (find_in_quiet id); [by eapply calm_refl, H1|]. intros found lg2 H2 Hf. apply HQ; [by eapply quiet_then|].
  rewrite (cm_names _ _ _ (proj1 H1)) in Hf. destruct found; [done|].
  intros path nd Hl Hd Hdir Hj. apply (Hf (Base path)); [|by rewrite Hj].
  apply list_elem_of_omap. exists path. split; [|by rewrite Hl; simpl; rewrite Hd].
  rewrite sort_strings_perm. apply list_elem_of_filter. split; [done|]. apply list_elem_of_fmap.
  exists (path, nd). split; [done|]. by apply elem_of_map_to_list.
Qed.
End world.

(** ** One file through its generations *)

(** What the cursor file holds can be read back. *)
Class CursorCodecLaws `{!CursorCodec} : Prop := {
  encode_some m : is_Some (encode_cursors m);
  decode_encoded m bytes : encode_cursors m = Some bytes -> decode_cursors bytes ∅ = (m, true) }.

(** A file under the path, and where reading it began. *)
Abbreviation gen := (ident * Z)%type.

Definition unread (lg : logs) (g : gen) : list ascii := drop (Z.to_nat g.2) (content lg g.1).

Section track.
Context {globbing : Globbing} {codec : CursorCodec} (u : string -> string) (p : string).

(** The complete lines of files that are done. *)
Definition finished (lg : logs) (gs : list gen) : PollResult :=
  foldr (fun g acc => add_results (reading u g.1 g.2 (unread lg g)).2 acc) empty_result gs.

Lemma finished_app lg gs hs : finished lg (gs ++ hs) = add_results (finished lg gs) (finished lg hs).
Proof.
  induction gs as [|g gs IH]; simpl; [by rewrite add_results_empty_l|]. by rewrite IH, add_results_assoc.
Qed.

(** The cursor is behind the complete lines of [seen]; [total] is all that was
    returned. *)
Record tracks (lg : logs) (olds : list gen) (g : gen) (seen : list ascii) (cur : Cursor) (total : PollResult) : Prop := {
  tr_start : 0 <= g.2 <= Z.of_nat (length (content lg g.1));
  tr_seen : seen `prefix_of` unread lg g;
  tr_cursor : cur = MkCursor g.1.1 g.1.2 (reading u g.1 g.2 seen).1;
  tr_total : total = add_results (finished lg olds) (reading u g.1 g.2 seen).2;
  tr_olds : Forall (fun h => h.1 <> g.1) olds }.

Lemma unread_grows id lg lg' g : calm id lg lg' -> unread lg g `prefix_of` unread lg' g.
Proof.
  intros Hc. unfold unread. destruct (decide (g.1 = id)) as [E|E].
  - rewrite E. destruct (cm_grows _ _ _ Hc) as [more ->]. destruct (decide (Z.to_nat g.2 <= length (content lg id))%nat).
    + rewrite drop_app_le by done. by eexists.
    + rewrite drop_ge by lia. apply prefix_nil.
  - by rewrite (cm_others _ _ _ Hc).
Qed.

Lemma unread_same id lg lg' g : calm id lg lg' -> g.1 <> id -> unread lg' g = unread lg g.
Proof. intros Hc E. unfold unread. by rewrite (cm_others _ _ _ Hc). Qed.

Lemma finished_same id lg lg' gs : calm id lg lg' -> Forall (fun h => h.1 <> id) gs -> finished lg' gs = finished lg gs.
Proof.
  intros Hc Hgs. induction Hgs as [|g gs Hg _ IH]; simpl; [done|]. by rewrite IH, (unread_same id lg lg').
Qed.

Lemma tracks_calm id lg lg' olds g seen cur total : calm id lg lg' -> Forall (fun h => h.1 <> id) olds ->
  tracks lg olds g seen cur total -> tracks lg' olds g seen cur total.
Proof.
  intros Hc Ho [Hs Hp Hcur Ht Hn]. constructor; [|by etransitivity; [|by eapply unread_grows]|done| |done].
  - split; [apply Hs|]. destruct (decide (g.1 = id)) as [E|E].
    + rewrite E in *. pose proof (prefix_length _ _ (cm_grows _ _ _ Hc)). lia.
    + rewrite (cm_others _ _ _ Hc) by done. apply Hs.
  - by rewrite (finished_same id lg lg').
Qed.

(** Reading a file from its cursor to the end. *)
Lemma tracks_read lg olds g seen cur total : tracks lg olds g seen cur total ->
  let r := read_loop u g.1 [] (drop (Z.to_nat (cu_Offset cur)) (content lg g.1)) (cu_Offset cur) empty_result in
  tracks lg olds g (unread lg g) (MkCursor g.1.1 g.1.2 r.1) (add_results total r.2).
Proof.
  intros [Hs [more Hmore] -> -> Hn] r. cbn [cu_Offset] in r.
  pose proof (reading_range u g.1 g.2 seen) as Hr. pose proof (reading_on u g.1 g.2 seen more) as Hon. cbv zeta in Hon.
  rewrite <- Hmore in Hon.
  assert (drop (Z.to_nat ((reading u g.1 g.2 seen).1 - g.2)) (unread lg g) =
          drop (Z.to_nat (reading u g.1 g.2 seen).1) (content lg g.1)) as Hd.
  { unfold unread. rewrite drop_drop. f_equal. lia. }
  rewrite Hd in Hon. fold r in Hon. constructor; [done|done| | |done].
  - by rewrite Hon.
  - rewrite Hon. simpl. by rewrite add_results_assoc.
Qed.

(** A poll went through: it returned [extra] and read all there was before it. *)
Definition polled (lg : logs) (olds : list gen) (g : gen) (total r : PollResult)
  (res : result string (Cursor * PollResult)) (lg' : logs) : Prop :=
  exists cur' extra seen', res = Ok (cur', add_results r extra) /\ quiet g.1 lg lg' /\
    tracks lg' olds g seen' cur' (add_results total extra) /\ unread lg g `prefix_of` seen'.

Lemma calm_step id lg0 lg1 : quiet id lg0 lg1 -> calm id lg1 lg1.
Proof. intros [H _]. by eapply calm_refl. Qed.

Lemma cursor_range lg olds g seen cur total : tracks lg olds g seen cur total ->
  0 <= cu_Offset cur <= Z.of_nat (length (content lg g.1)).
Proof.
  intros [Hs Hp -> _ _]. cbn [cu_Offset]. pose proof (reading_range u g.1 g.2 seen) as Hr.
  apply prefix_length in Hp. unfold unread in Hp. rewrite length_drop in Hp. lia.
Qed.


Lemma read_current_polled lg lg0 olds g seen cur total r : quiet g.1 lg0 lg ->
  lg_names lg !! p = Some (MkNode g.1 false) -> tracks lg olds g seen cur total ->
  spec (fun _ => True) (read_current u p cur r) (polled lg0 olds g total r) lg.
Proof.
  intros Hq Hn HT. apply spec_bind. eapply read_quiet; [by eapply calm_step|by eapply cursor_range|done|]. intros lg1 H1. cbn [nd_id].
  rewrite read_loop_add. destruct HT as [Hs Hp Hcur Ht Ho] eqn:EHT. clear EHT.
  assert (tracks lg1 olds g seen cur total) as HT1 by (eapply tracks_calm; [apply H1|done|by constructor]).
  pose proof (tracks_read lg1 olds g seen cur total HT1) as Hnew. cbv zeta in Hnew.
  apply spec_ret; [done|]. subst cur. cbn [cu_Device cu_Inode cu_Offset] in *.
  eexists _, _, _. split; [reflexivity|]. split; [by eapply quiet_then|]. split; [exact Hnew|].
  eapply unread_grows, (quiet_then _ _ _ _ Hq H1).
Qed.

Lemma poll_live startAtEnd lg olds g seen cur total r : calm g.1 lg lg ->
  lg_names lg !! p = Some (MkNode g.1 false) -> tracks lg olds g seen cur total ->
  spec (fun _ => True) (pollPath u startAtEnd (Some cur) p r) (polled lg olds g total r) lg.
Proof.
  intros Hc Hn HT. apply (quiet_call _ _ _ g.1); [done|done|]. intros lg1 x H1 E. simpl in E. unfold find_path in E.
  rewrite (cm_names _ _ _ (proj1 H1)), Hn in E. simpl in E. injection E as <-.
  assert (tracks lg1 olds g seen cur total) as HT1 by (eapply tracks_calm; [apply H1|apply HT|done]).
  pose proof (cursor_range _ _ _ _ _ _ HT1) as Hr. destruct g as [[dev ino] start] eqn:Eg. rewrite <- Eg in *.
  pose proof (tr_cursor _ _ _ _ _ _ HT1) as Ecur. assert (g.1 = (dev, ino)) as E1 by (by rewrite Eg).
  rewrite E1 in *. cbn [fst snd default from_option]. unfold Datatypes.id.
  replace (cu_Device cur) with dev by (by rewrite Ecur). replace (cu_Inode cur) with ino by (by rewrite Ecur).
  rewrite !Z.eqb_refl. cbn [negb andb].
  assert (forall A (a b : A), (if Z.of_nat (length (content lg1 (dev, ino))) <? cu_Offset cur then a else b) = b) as Hno.
  { intros A a b. destruct (Z.ltb_spec (Z.of_nat (length (content lg1 (dev, ino)))) (cu_Offset cur)); [lia|done]. }
  rewrite Hno. eapply read_current_polled; rewrite ?E1; [done| |done]. by rewrite (cm_names _ _ _ (proj1 H1)).
Qed.

(** A renamed file of the same directory, where [findInode] looks. *)
Definition renamed (lg : logs) (id : ident) : Prop :=
  exists q, lg_names lg !! q = Some (MkNode id false) /\ Dir q = Dir p /\ Join (Dir p) (Base q) = q.

Lemma tracks_new lg olds g seen cur total id : calm id lg lg -> tracks lg olds g seen cur total ->
  seen = unread lg g -> Forall (fun h => h.1 <> id) (olds ++ [g]) ->
  tracks lg (olds ++ [g]) (id, 0) [] (MkCursor id.1 id.2 0) total.
Proof.
  intros Hc HT -> Ho. constructor; simpl; [lia|apply prefix_nil|done| |done].
  rewrite finished_app. simpl. rewrite !add_results_empty_r. apply HT.
Qed.

Lemma poll_rotated startAtEnd lg olds g seen cur total r id : calm id lg lg ->
  lg_names lg !! p = Some (MkNode id false) -> renamed lg g.1 -> Forall (fun h => h.1 <> id) (olds ++ [g]) ->
  tracks lg olds g seen cur total ->
  spec (fun _ => True) (pollPath u startAtEnd (Some cur) p r) (polled lg (olds ++ [g]) (id, 0) total r) lg.
Proof.
  intros Hc Hn (q & Hq & Hdir & Hjoin) Ho HT. pose proof Ho as [Ho1 Hg]%Forall_app. rewrite Forall_singleton in Hg.
  apply (quiet_call _ _ _ id); [done|done|]. intros lg1 x H1 E. simpl in E. unfold find_path in E.
  rewrite (cm_names _ _ _ (proj1 H1)), Hn in E. simpl in E. injection E as <-.
  destruct id as [dev ino]. cbn [fst snd].
  assert ((cu_Device cur =? dev) && (cu_Inode cur =? ino) = false) as Hne.
  { apply andb_false_iff. rewrite (tr_cursor _ _ _ _ _ _ HT). cbn [cu_Device cu_Inode]. rewrite !Z.eqb_neq.
    destruct g as [[d i] st]. simpl in *. destruct (decide (d = dev)); [right|by left]. congruence. }
  assert (tracks lg1 olds g seen cur total) as HT1 by (eapply tracks_calm; [apply H1|done|done]).
  assert ((cu_Device cur, cu_Inode cur) = g.1) as Eid by (rewrite (tr_cursor _ _ _ _ _ _ HT); by destruct g as [[] ]).
  cbn [default from_option]. unfold Datatypes.id. rewrite Hne. cbn [negb]. rewrite Eid. apply spec_bind. apply (findInode_quiet (dev, ino)); [by eapply calm_step|].
  intros [path|] lg2 H2 Hf.
  2: { exfalso. apply (Hf q (MkNode g.1 false)); try done. by rewrite (cm_names _ _ _ (proj1 H1)). }
  destruct Hf as (nd & Hnd & Eg). apply spec_bind.
  eapply (read_quiet u (dev, ino)); [by eapply calm_step|by eapply cursor_range|by rewrite (cm_names _ _ _ (proj1 H2))|]. intros lg3 H3.
  rewrite read_loop_add, Eg.
  assert (quiet (dev, ino) lg lg3) as Hq3 by eauto using quiet_then.
  assert (tracks lg3 olds g seen cur total) as HT3 by (eapply tracks_calm; [apply Hq3|done|done]).
  pose proof (tracks_read lg3 olds g seen cur total HT3) as Hold. cbv zeta in Hold.
  set (old := read_loop u g.1 [] _ _ _) in *.
  pose proof (tracks_new lg3 olds g _ _ _ (dev, ino) (calm_step _ _ _ Hq3) Hold eq_refl Ho) as Hnew.
  eapply spec_mono; [done| |eapply (read_current_polled lg3 lg (olds ++ [g]) ((dev, ino), 0)); [done| |exact Hnew]].
  2: { by rewrite (cm_names _ _ _ (proj1 Hq3)). }
  intros res lg' _ (cur' & extra & seen' & -> & Hq' & HT' & Hs'). exists cur', (add_results old.2 extra), seen'.
  by rewrite !add_results_assoc.
Qed.

(** ** A whole poll *)

Definition stored (lg : logs) (m : gmap string Cursor) : Prop :=
  exists bytes, lg_cursors lg = Some bytes /\ decode_cursors bytes ∅ = (m, true).

(** The cursors of the tailer, in memory once it has read them. *)
Definition remembers (t : Tailer) (lg : logs) (m : gmap string Cursor) : Prop :=
  stored lg m /\ tl_cursors t = if tl_loaded t then m else ∅.

Lemma load_spec t m id lg : calm id lg lg -> remembers t lg m ->
  spec (fun _ => True) (load t)
    (fun res lg' => exists t', res = (t', Ok tt) /\ quiet id lg lg' /\ tl_loaded t' = true /\ tl_cursors t' = m /\
       tl_allowed t' = tl_allowed t) lg.
Proof.
  intros Hc [(bytes & Hb & Hd) Hm]. unfold load. destruct (tl_loaded t) eqn:El.
  { apply spec_ret; [done|]. exists t. split_and!; auto; by split. }
  apply (quiet_call _ _ _ id); [done|done|]. intros lg1 x H1 E. simpl in E. injection E as <-.
  rewrite (proj2 H1), Hb. cbn [set_loaded tl_cursors]. rewrite Hm, Hd. apply spec_ret; [done|]. eexists. split_and!; [reflexivity|apply H1..|done|done|done].
Qed.

Lemma glob_single f nd (names : gmap string node) : names !! p = Some nd -> (forall q, f q = true <-> q = p) ->
  sort_strings (filter (fun q => f q = true) (map_to_list names).*1) = [p].
Proof.
  intros Hn Hf. apply Permutation_singleton_r. rewrite sort_strings_perm.
  apply NoDup_Permutation; [apply NoDup_filter, NoDup_fst_map_to_list|apply NoDup_singleton|].
  intros q. rewrite list_elem_of_filter, list_elem_of_singleton, Hf. split; [by intros []|]. intros ->. split; [done|].
  apply list_elem_of_fmap. exists (p, nd). split; [done|]. by apply elem_of_map_to_list.
Qed.

(** A call on the cursor file. *)
Lemma file_call {A} (e : sys (result string unit)) (k : result string unit -> prog sys A) Q id lg : calm id lg lg ->
  (forall lg1, calm id lg lg1 -> lg_tmp lg1 = lg_tmp lg ->
     (sys_effect e lg1).2 = Ok tt /\
     (calm id lg (sys_effect e lg1).1 -> spec (fun _ => True) (k (Ok tt)) Q (sys_effect e lg1).1)) ->
  spec (fun _ => True) (prog_bind (call e) k) Q lg.
Proof.
  intros Hc Hk. apply spec_call; [done|]. intros lg' x E.
  apply (calm_handle e id) in E as (lg1 & H1 & _ & H3 & E); [|done]. destruct (Hk lg1 H1 H3) as [Hok Hgo].
  pose proof (calm_effect e id lg1 lg' x (calm_refl _ _ _ H1) E) as H2. rewrite E in *. simpl in *. subst x.
  apply Hgo. by eapply calm_trans.
Qed.

Lemma persist_spec {laws : CursorCodecLaws} t id lg : calm id lg lg ->
  spec (fun _ => True) (persist t)
    (fun r lg' => r = Ok tt /\ calm id lg lg' /\ stored lg' (tl_cursors t)) lg.
Proof.
  intros Hc. destruct (encode_some (tl_cursors t)) as [bytes Hb].
  assert (forall lg', calm id lg lg' -> calm id lg' lg') as Hself by (intros lg' H; by eapply calm_refl).
  apply (file_call _ _ _ id); [done|]. intros a1 Ha1 _. split; [done|]. intros H1. cbn [sys_effect fst] in *.
  apply (file_call _ _ _ id); [by apply Hself|]. intros a2 Ha2 _. split; [done|]. intros H2. cbn [sys_effect fst] in *.
  apply (file_call _ _ _ id); [by apply Hself; eapply calm_trans|]. intros a3 Ha3 Ht3. split; [done|]. intros H3.
  cbn [sys_effect fst] in *. rewrite Hb.
  assert (calm id lg a3) as H3' by eauto using calm_trans.
  apply (file_call _ _ _ id); [by apply Hself|]. intros a4 Ha4 _. split; [done|]. intros H4. cbn [sys_effect fst] in *.
  assert (calm id lg (set_files (lg_cursors a4) (Some bytes) a4)) as H4' by eauto using calm_trans.
  apply (file_call _ _ _ id); [by apply Hself|]. intros a5 Ha5 Ht5. split; [done|]. intros H5. cbn [sys_effect fst] in *.
  assert (calm id lg a5) as H5' by eauto using calm_trans.
  apply (file_call _ _ _ id); [by apply Hself|]. intros a6 Ha6 Ht6. split; [done|]. intros H6. cbn [sys_effect fst] in *.
  assert (calm id lg a6) as H6' by eauto using calm_trans.
  apply (file_call _ _ _ id); [by apply Hself|]. intros a7 Ha7 Ht7.
  cbn [sys_effect fst snd set_files lg_tmp] in *. rewrite Ht7, Ht6, Ht5. split; [done|]. intros H7. cbn [fst] in *.
  assert (calm id lg (set_files (Some bytes) None a7)) as H7' by eauto using calm_trans.
  apply spec_call; [done|]. intros lg' x E.
  apply (calm_handle SRemoveTemp id) in E as (a8 & H8 & E8 & _ & E); [|by apply Hself].
  pose proof (calm_effect SRemoveTemp id a8 lg' x (calm_refl _ _ _ H8) E) as H9. simpl in E. injection E as <- <-.
  apply spec_ret; [done|]. split; [done|]. split; [eauto using calm_trans|].
  exists bytes. split; [cbn [lg_cursors set_files]; by rewrite E8|by apply decode_encoded].
Qed.

(** A successful poll: what it returned and read, and the cursors it left in memory
    and in the file. *)
Definition poll_done (t : Tailer) (lg : logs) (olds : list gen) (g : gen) (total : PollResult)
  (res : Tailer * result string PollResult) (lg' : logs) : Prop :=
  exists t' m' cur' extra seen', res = (t', Ok extra) /\ calm g.1 lg lg' /\ remembers t' lg' m' /\ m' !! p = Some cur' /\
    tracks lg' olds g seen' cur' (add_results total extra) /\ unread lg g `prefix_of` seen' /\
    tl_allowed t' = tl_allowed t.

Lemma persist_done {laws : CursorCodecLaws} t0 t lg0 lg olds g seen cur total extra : quiet g.1 lg0 lg ->
  tl_loaded t = true -> tl_cursors t !! p = Some cur -> tl_allowed t = tl_allowed t0 ->
  tracks lg olds g seen cur (add_results total extra) -> unread lg0 g `prefix_of` seen ->
  spec (fun _ => True)
    (let! stored := persist t in match stored with Err e => Ret (t, Err e) | Ok _ => Ret (t, Ok extra) end)
    (poll_done t0 lg0 olds g total) lg.
Proof.
  intros Hq Hl Hcur Hal HT Hs. apply spec_bind. eapply spec_mono; [done| |by apply (persist_spec t g.1); eapply calm_step].
  intros r lg' _ (-> & Hc' & Hst). apply spec_ret; [done|]. exists t, (tl_cursors t), cur, extra, seen.
  split_and!; [done|by eapply calm_trans; [apply Hq|]|split; [done|by rewrite Hl]|done| |done|done].
  eapply tracks_calm; [exact Hc'|apply HT|done].
Qed.

Lemma Poll_spec {laws : CursorCodecLaws} t m pattern f cur nd olds g total lg :
  calm g.1 lg lg -> remembers t lg m -> m !! p = Some cur -> isAllowed t (Clean pattern) = true ->
  glob_match (Clean pattern) = Some f -> (forall q, f q = true <-> q = p) -> lg_names lg !! p = Some nd ->
  (forall lg1 start, quiet g.1 lg lg1 ->
     spec (fun _ => True) (pollPath u start (Some cur) p empty_result) (polled lg1 olds g total empty_result) lg1) ->
  spec (fun _ => True) (Poll u t [pattern]) (poll_done t lg olds g total) lg.
Proof.
  intros Hc Hrem Hm Hal Hg Hf Hn Hpath. apply spec_bind.
  eapply spec_mono; [done| |by eapply load_spec]. intros res lg1 _ (t1 & -> & H1 & Hl1 & Hm1 & Ha1).
  apply spec_bind. cbn [poll_patterns]. unfold isAllowed in *. rewrite Ha1, Hal. cbn [negb].
  apply (quiet_call _ _ _ g.1); [done|by eapply calm_step|]. intros lg2 x H2 E. simpl in E. rewrite Hg in E.
  assert (quiet g.1 lg lg2) as Hq2 by eauto using quiet_then.
  rewrite (glob_single f nd) in E; [|by rewrite (cm_names _ _ _ (proj1 Hq2))|done]. injection E as <-.
  cbn [poll_paths]. rewrite Hm1, Hm. do 2 apply spec_bind.
  eapply spec_mono; [done| |by apply Hpath].
  intros res lg3 _ (cur' & extra & seen' & -> & H3 & HT3 & Hs3). rewrite add_results_empty_l.
  apply spec_ret; [done|]. apply spec_ret; [done|].
  eapply persist_done; [by eapply quiet_then|done|apply lookup_insert_eq|done|exact HT3|].
  etransitivity; [|exact Hs3]. eapply unread_grows, Hq2.
Qed.

(** ** Histories of a log *)

(** Lines are appended, the file is renamed and a new one begun, the collector polls
    while more is appended between its calls, or starts again. *)
Inductive step : Type :=
| Written (bytes : list ascii)
| Rotated (to : string) (id : ident)
| Polled (during : list (list (list ascii)))
| Restarted (startAtEnd : bool).

Context (pattern : string) (roots : list string).

Abbreviation state := (Tailer * logs * PollResult)%type.

Definition set_changes (cs : list (list change)) (lg : logs) : logs :=
  MkLogs (lg_names lg) (lg_data lg) (lg_cursors lg) (lg_tmp lg) cs (lg_fates lg).

Definition current (lg : logs) : ident := match lg_names lg !! p with Some nd => nd_id nd | None => (0, 0) end.

Definition run_step (s : state) (st : step) : state :=
  let '(t, lg, total) := s in
  match st with
  | Written bytes => (t, apply_change lg (Append (current lg) bytes), total)
  | Rotated to id => (t, foldl apply_change lg [Rename p to; Create p id], total)
  | Polled during =>
      let r := exec (Poll u t [pattern]) (set_changes (map (map (Append (current lg))) during) lg) in
      (r.2.1, set_changes [] r.1, match r.2.2 with Ok extra => add_results total extra | Err _ => total end)
  | Restarted startAtEnd => (NewTailer roots startAtEnd, lg, total)
  end.

Definition run_steps (s : state) (steps : list step) : state := foldl run_step s steps.

(** A rotation is to a new name of the directory and a new file, and a poll comes
    between two rotations. *)
Definition step_ok (pending : bool) (s : state) (st : step) : Prop :=
  match st with
  | Rotated to id =>
      pending = false /\ lg_names s.1.2 !! to = None /\ Dir to = Dir p /\ Join (Dir p) (Base to) = to /\
      map_Forall (fun _ nd => nd_id nd <> id) (lg_names s.1.2)
  | _ => True
  end.

Definition pending_after (pending : bool) (st : step) : bool :=
  match st with Rotated _ _ => true | Polled _ => false | _ => pending end.

Fixpoint steps_ok (pending : bool) (s : state) (steps : list step) : Prop :=
  match steps with
  | [] => True
  | st :: rest => step_ok pending s st /\ steps_ok (pending_after pending st) (run_step s st) rest
  end.

Definition new_gens (st : step) : list gen := match st with Rotated _ id => [(id, 0)] | _ => [] end.

(** ** The invariant of a history *)

Record Inv (pending : bool) (gens : list gen) (s : state) : Prop := {
  iv_fates : lg_fates s.1.2 = [];
  iv_changes : lg_changes s.1.2 = [];
  iv_allowed : tl_allowed s.1.1 = Clean <$> roots;
  iv_named : Forall (fun h => exists q nd, lg_names s.1.2 !! q = Some nd /\ nd_id nd = h.1) gens;
  iv_tracks : exists olds g seen cur m, remembers s.1.1 s.1.2 m /\ m !! p = Some cur /\
    tracks s.1.2 olds g seen cur s.2 /\
    if pending then
      exists id, gens = olds ++ [g; (id, 0)] /\ lg_names s.1.2 !! p = Some (MkNode id false) /\ renamed s.1.2 g.1 /\
        Forall (fun h => h.1 <> id) (olds ++ [g])
    else gens = olds ++ [g] /\ lg_names s.1.2 !! p = Some (MkNode g.1 false) }.

Lemma tracks_contents lg lg' olds g seen cur total :
  (forall h, h ∈ g :: olds -> content lg' h.1 = content lg h.1) -> tracks lg olds g seen cur total ->
  tracks lg' olds g seen cur total.
Proof.
  intros Hsame [Hs Hp Hcur Ht Hn].
  assert (forall h, h ∈ g :: olds -> unread lg' h = unread lg h) as Hun by (intros h Hh; unfold unread; by rewrite Hsame).
  assert (forall gs, (forall h, h ∈ gs -> h ∈ g :: olds) -> finished lg' gs = finished lg gs) as Hfin.
  { induction gs as [|h gs IH]; intros Hgs; simpl; [done|]. rewrite Hun, IH; [done|..]; intros; apply Hgs; set_solver. }
  constructor; [by rewrite Hsame by set_solver|by rewrite Hun by set_solver|done| |done].
  rewrite Hfin; [done|]. set_solver.
Qed.

Lemma Inv_written pending gens s bytes : Inv pending gens s -> Inv pending gens (run_step s (Written bytes)).
Proof.
  destruct s as [[t lg] total]. intros [Hf Hch Hal Hnm (olds & g & seen & cur & m & Hrem & Hm & HT & Hgens)].
  cbn [fst snd run_step apply_change] in *.
  assert (calm (current lg) lg (set_data (current lg) (content lg (current lg) ++ bytes) lg)) as Hc.
  { constructor; try done.
    - intros i Hi. by rewrite content_set_data, decide_False.
    - rewrite content_set_data, decide_True by done. by apply prefix_app_r.
    - simpl. rewrite Hch. constructor. }
  constructor; try done. exists olds, g, seen, cur, m. split_and!; [done|done| |exact Hgens].
  eapply tracks_calm; [exact Hc| |exact HT]. unfold current. destruct pending.
  - destruct Hgens as (id & _ & -> & _ & Ho). simpl. by apply Forall_app in Ho as [? _].
  - destruct Hgens as [_ ->]. apply HT.
Qed.

Lemma Inv_restarted pending gens s e : Inv pending gens s -> Inv pending gens (run_step s (Restarted e)).
Proof.
  destruct s as [[t lg] total]. intros [Hf Hch Hal Hnm (olds & g & seen & cur & m & [Hst Hmem] & Hm & HT & Hgens)].
  constructor; try done. exists olds, g, seen, cur, m. split_and!; [|done|done|exact Hgens]. by split.
Qed.

Lemma Inv_rotated gens s to id : step_ok false s (Rotated to id) -> Inv false gens s ->
  Inv true (gens ++ [(id, 0)]) (run_step s (Rotated to id)).
Proof.
  destruct s as [[t lg] total]. intros (_ & Hto & Hdir & Hjoin & Hfresh).
  intros [Hf Hch Hal Hnm (olds & g & seen & cur & m & Hrem & Hm & HT & -> & Hp)].
  cbn [fst snd] in *. assert (to <> p) as Hne by congruence.
  assert (run_step (t, lg, total) (Rotated to id) =
    (t, set_data id [] (set_names (<[p := MkNode id false]> (<[to := MkNode g.1 false]> (delete p (lg_names lg)))) lg), total)) as ->.
  { cbn [run_step foldl apply_change]. by rewrite Hp. }
  assert (forall h, h ∈ olds ++ [g] -> h.1 <> id) as Hold.
  { intros h Hh. rewrite Forall_forall in Hnm. destruct (Hnm h Hh) as (q & nd & Hq & <-). by apply (Hfresh q). }
  constructor; cbn [fst snd]; try done.
  - apply Forall_app. split.
    + eapply Forall_impl; [exact Hnm|]. intros h (q & nd & Hq & Eq). destruct (decide (q = p)) as [->|Hqp].
      * exists to, (MkNode g.1 false). simpl. rewrite lookup_insert_ne, lookup_insert_eq by done. split; [done|]. rewrite Hp in Hq. by injection Hq as <-.
      * exists q, nd. simpl. rewrite !lookup_insert_ne, lookup_delete_ne by congruence. done.
    + apply Forall_singleton. exists p, (MkNode id false). simpl. by rewrite lookup_insert_eq.
  - exists olds, g, seen, cur, m. split_and!; [done|done| |].
    + eapply tracks_contents; [|exact HT]. intros h Hh. rewrite content_set_data, decide_False; [done|]. apply Hold. set_solver.
    + exists id. split_and!.
      * by rewrite <- app_assoc.
      * simpl. by rewrite lookup_insert_eq.
      * exists to. simpl. rewrite lookup_insert_ne, lookup_insert_eq by done. done.
      * by apply Forall_forall.
Qed.

Context {laws : CursorCodecLaws} (f : string -> bool).
Context (Hallowed : existsb (fun root => is_inside root (Clean pattern)) (Clean <$> roots) = true).
Context (Hglob : glob_match (Clean pattern) = Some f) (Hf : forall q, f q = true <-> q = p).

Lemma calm_changes id lg during : lg_fates lg = [] -> calm id (set_changes (map (map (Append id)) during) lg)
  (set_changes (map (map (Append id)) during) lg).
Proof.
  intros Hfates. constructor; try done. simpl. apply Forall_map, Forall_true. intros bytes.
  apply Forall_map, Forall_true. done.
Qed.

(** What is read by a poll of the file [g] that is now at the path. *)
Lemma poll_history olds g seen cur m total t lg during pending gens :
  Inv pending gens (t, lg, total) -> remembers t lg m -> m !! p = Some cur -> tracks lg olds g seen cur total ->
  (if pending then exists id, gens = olds ++ [g; (id, 0)] /\ lg_names lg !! p = Some (MkNode id false) /\ renamed lg g.1 /\
        Forall (fun h => h.1 <> id) (olds ++ [g])
   else gens = olds ++ [g] /\ lg_names lg !! p = Some (MkNode g.1 false)) ->
  exists olds' g', gens = olds' ++ [g'] /\ lg_names lg !! p = Some (MkNode g'.1 false) /\
    let lg1 := set_changes (map (map (Append g'.1)) during) lg in
    let r := exec (Poll u t [pattern]) lg1 in poll_done t lg1 olds' g' total r.2 r.1.
Proof.
  intros HI Hrem Hm HT Hmode. pose proof (iv_allowed _ _ _ HI) as Hal. pose proof (iv_fates _ _ _ HI) as Hfates.
  cbn [fst snd] in *.
  assert (forall olds' g', lg_names lg !! p = Some (MkNode g'.1 false) ->
    (forall lg1 lg2 start, lg1 = set_changes (map (map (Append g'.1)) during) lg -> quiet g'.1 lg1 lg2 ->
       spec (fun _ => True) (pollPath u start (Some cur) p empty_result) (polled lg2 olds' g' total empty_result) lg2) ->
    let lg1 := set_changes (map (map (Append g'.1)) during) lg in
    let r := exec (Poll u t [pattern]) lg1 in poll_done t lg1 olds' g' total r.2 r.1) as Hdone.
  { intros olds' g' Hp Hpath lg1 r. unfold r. refine (proj2 (spec_exec _ _ _ _ _)).
    eapply (Poll_spec t m pattern f cur); [by apply calm_changes|exact Hrem|done| |done|done|exact Hp|].
    - unfold isAllowed. by rewrite Hal.
    - intros lg2 start H2. by eapply Hpath. }
  destruct pending.
  - destruct Hmode as (id & -> & Hp & Hren & Ho). exists (olds ++ [g]), (id, 0). split_and!; [by rewrite <- app_assoc|done|].
    apply Hdone; [done|]. intros lg1 lg2 start -> H2. cbn [fst] in *.
    eapply poll_rotated; [by eapply calm_step|by rewrite (cm_names _ _ _ (proj1 H2))| |done|].
    + destruct Hren as (q & Hq & ?). exists q. by rewrite (cm_names _ _ _ (proj1 H2)).
    + eapply (tracks_calm _ (set_changes _ lg)); [exact (proj1 H2)|by apply Forall_app in Ho as [? _]|].
      eapply tracks_contents, HT. done.
  - destruct Hmode as [-> Hp]. exists olds, g. split_and!; [done|done|].
    apply Hdone; [done|]. intros lg1 lg2 start -> H2.
    eapply poll_live; [by eapply calm_step|by rewrite (cm_names _ _ _ (proj1 H2))|].
    eapply (tracks_calm _ (set_changes _ lg)); [exact (proj1 H2)|apply HT|].
    eapply tracks_contents, HT. done.
Qed.

Lemma Inv_polled pending gens s during : Inv pending gens s ->
  Inv false gens (run_step s (Polled during)) /\
  exists olds g seen, gens = olds ++ [g] /\ seen `prefix_of` unread (run_step s (Polled during)).1.2 g /\
    (run_step s (Polled during)).2 = add_results (finished (run_step s (Polled during)).1.2 olds) (reading u g.1 g.2 seen).2 /\
    unread s.1.2 g `prefix_of` seen.
Proof.
  destruct s as [[t lg] total]. intros HI. pose proof HI as [Hfates Hch Hal Hnm (olds0 & g0 & seen0 & cur0 & m & Hrem & Hm & HT0 & Hmode)].
  destruct (poll_history olds0 g0 seen0 cur0 m total t lg during pending gens HI Hrem Hm HT0 Hmode) as (olds & g & -> & Hp & Hdone).
  assert (current lg = g.1) as Hcur by (unfold current; by rewrite Hp).
  cbn [run_step]. rewrite Hcur. cbv zeta in Hdone |- *.
  set (lg1 := set_changes _ lg) in *. destruct (exec (Poll u t [pattern]) lg1) as [lg' res]. cbn [fst snd] in *.
  destruct Hdone as (t' & m' & cur' & extra & seen' & -> & Hc & Hrem' & Hm' & HT' & Hs & Hal'). cbn [fst snd].
  assert (tracks (set_changes [] lg') olds g seen' cur' (add_results total extra)) as HT'' by (by eapply tracks_contents, HT').
  assert (lg_names lg' = lg_names lg) as Hnames by apply (cm_names _ _ _ Hc).
  split; [constructor|]; cbn [fst snd].
  - apply (cm_fates _ _ _ Hc).
  - done.
  - by rewrite Hal'.
  - simpl. by rewrite Hnames.
  - exists olds, g, seen', cur', m'. split_and!; [done|done|done|done|]. simpl. by rewrite Hnames.
  - exists olds, g, seen'. split_and!; [done|apply HT''|apply HT''|done].
Qed.

Lemma run_steps_Inv pending gens s steps : Inv pending gens s -> steps_ok pending s steps ->
  exists pending', Inv pending' (gens ++ (steps ≫= new_gens)) (run_steps s steps).
Proof.
  revert pending gens s. induction steps as [|st steps IH]; intros pending gens s HI Hok.
  { exists pending. simpl. by rewrite app_nil_r. }
  destruct Hok as [Hst Hok]. rewrite bind_cons, app_assoc. cbn [run_steps foldl].
  eapply IH; [|exact Hok]. destruct st as [bytes|to id|during|e]; cbn [new_gens pending_after] in *; rewrite ?app_nil_r.
  - by apply Inv_written.
  - pose proof Hst as (-> & _). by apply Inv_rotated.
  - by eapply Inv_polled.
  - by apply Inv_restarted.
Qed.

Lemma steps_ok_app pending s before after : steps_ok pending s (before ++ after) ->
  steps_ok pending s before /\ steps_ok (foldl pending_after pending before) (run_steps s before) after.
Proof.
  revert pending s. induction before as [|st before IH]; intros pending s H; [done|].
  destruct H as [Hst H]. destruct (IH _ _ H). done.
Qed.

(** A tailer whose cursor for the path is at [start] of the file there. *)
Definition tail_start (t : Tailer) (lg : logs) (id : ident) (start : Z) : Prop :=
  lg_fates lg = [] /\ lg_changes lg = [] /\ tl_allowed t = Clean <$> roots /\
  lg_names lg !! p = Some (MkNode id false) /\ 0 <= start <= Z.of_nat (length (content lg id)) /\
  exists m, remembers t lg m /\ m !! p = Some (MkCursor id.1 id.2 start).

Lemma tail_start_Inv t lg id start : tail_start t lg id start -> Inv false [(id, start)] (t, lg, empty_result).
Proof.
  intros (Hfates & Hch & Hal & Hp & Hs & m & Hrem & Hm). constructor; cbn [fst snd]; try done.
  - apply Forall_singleton. by exists p, (MkNode id false).
  - exists [], (id, start), [], (MkCursor id.1 id.2 start), m. split_and!; try done.
    constructor; simpl; try done. apply prefix_nil.
Qed.
End track.

Lemma ends_in_poll (steps : list step) :
  (exists before during, steps = before ++ [Polled during]) \/ ~ (exists before during, steps = before ++ [Polled during]).
Proof.
  destruct steps as [|st steps _] using rev_ind; [right; by intros ([] & ? & ?)|].
  destruct st; [right|right|left; eauto|right]; intros (? & ? & E); by apply app_inj_tail in E as [_ ?].
Qed.

