(* ===== verification/NpmLines.v ===== *)
(** * Lines of the access log

    What [ParseLine] takes from a line: a written line is read back field by field, and
    the event of a parsed line is valid exactly when its status, host and time are. *)

From stdpp Require Import base strings numbers sets list countable gmap.
From Stdlib Require Import Ascii.
From S2P Require Import Prelude GoBase GoText GoTime Regex GoModel Sha256 Effects Npm NpmTail GoPath StateFile NpmTheorems.

Open Scope string_scope.
Open Scope Z_scope.
Local Open Scope list_scope.

(** ** The groups of a line *)

Definition status_word (w : list ascii) : Prop := w = chars "-" \/ (length w = 3%nat /\ Forall (fun c => is_digit c = true) w).

(** What the groups of the pattern are. *)
Record access_groups (gs : list (list ascii)) (at_ s1 s2 method host client len_ upstream : list ascii) : Prop := {
  ag_groups : gs = [at_; s1; s2; method; host; client; len_; upstream];
  ag_s1 : status_word s1;
  ag_s2 : status_word s2;
  ag_method : method <> [] /\ Forall (fun c => upper c = true) method;
  ag_host : host <> [];
  ag_len : len_ <> [] /\ Forall (fun c => is_digit c = true) len_;
  ag_upstream : upstream <> [] }.

Lemma matches_status w g : matches RStatus w g -> status_word w /\ g = [w].
Proof.
  intros H. apply matches_group in H as (g0 & H & ->). inversion H as [| | |? ? ? ? H1|? ? ? ? H1| | |]; subst.
  - apply (matches_times_class 3 is_digit) in H1 as (? & ? & ->). split; [by right|done].
  - apply matches_class in H1 as (c & -> & Hc & ->). apply bool_decide_eq_true in Hc as ->. split; [by left|done].
Qed.

Lemma matches_group_plus p w g : matches (RGroup (RPlus (RClass p))) w g ->
  w <> [] /\ Forall (fun c => p c = true) w /\ g = [w].
Proof. intros H. apply matches_group in H as (g0 & H & ->). apply matches_plus_class in H as (? & ? & ->). done. Qed.

(** Quoted text and repetitions without groups give none. *)
Fixpoint no_groups (r : regex) : bool :=
  match r with
  | REps | RClass _ => true
  | RSeq a b | RAlt a b => no_groups a && no_groups b
  | RStar a => no_groups a
  | RGroup _ => false
  end.

Lemma matches_no_groups r w g : no_groups r = true -> matches r w g -> g = [].
Proof.
  intros Hr H. induction H; simpl in Hr; try done; try (apply andb_true_iff in Hr as [? ?]).
  - by rewrite IHmatches1, IHmatches2.
  - by apply IHmatches.
  - by apply IHmatches.
  - rewrite IHmatches1, IHmatches2; done.
Qed.

Lemma access_line_groups line gs : match_front accessLine line = Some gs ->
  exists at_ s1 s2 method host client len_ upstream, access_groups gs at_ s1 s2 method host client len_ upstream.
Proof.
  intros H. apply match_front_sound in H as (w & rest & -> & H). unfold accessLine in H.
  repeat match goal with
  | H : matches (RCat (_ :: _)) _ _ |- _ => apply matches_cat_cons in H as (? & ? & ? & ? & -> & -> & ? & H)
  | H : matches (RCat []) _ _ |- _ => apply matches_cat_nil in H as [-> ->]
  | H : matches (RText _) _ _ |- _ => apply matches_no_groups in H as ->; [|reflexivity]
  | H : matches (RChar _) _ _ |- _ => apply matches_no_groups in H as ->; [|reflexivity]
  | H : matches (RStar _) _ _ |- _ => apply matches_no_groups in H as ->; [|reflexivity]
  | H : matches (RPlus _) _ _ |- _ => apply matches_no_groups in H as ->; [|reflexivity]
  | H : matches RStatus _ _ |- _ => apply matches_status in H as [? ->]
  | H : matches (RGroup _) _ _ |- _ => apply matches_group_plus in H as (? & ? & ->)
  end.
  simpl. by do 8 eexists.
Qed.

Lemma first_status_range ws n : Forall status_word ws -> first_status ws = Some n -> 0 <= n <= 999.
Proof.
  induction 1 as [|w ws Hw Hws IH]; simpl; [done|]. case_bool_decide as E; [done|].
  destruct Hw as [?|[Hl Hd]]; [done|]. destruct w as [|a [|b [|c [|]]]]; try done.
  inversion Hd as [|? ? Ha Hd1]; subst. inversion Hd1 as [|? ? Hb Hd2]; subst. inversion Hd2 as [|? ? Hc _]; subst.
  cbn [parse_digits]. rewrite Ha, Hb, Hc. unfold is_digit in *. apply andb_true_iff in Ha, Hb, Hc.
  repeat match goal with |- context [max_i64 <? ?x] => destruct (Z.ltb_spec max_i64 x); [unfold max_i64 in *; lia|] end.
  intros [= <-]. lia.
Qed.

(** ** A written line *)

(** A request as it is quoted in a line: characters and escaped characters. *)
Inductive request_unit : Type := Lit (c : ascii) | Esc (c : ascii).

Definition unit_text (x : request_unit) : list ascii := match x with Lit c => [c] | Esc c => [backslash; c] end.

Definition request_text (us : list request_unit) : list ascii := us ≫= unit_text.

Definition unit_ok (x : request_unit) : Prop :=
  match x with Lit c => c <> quote /\ c <> backslash | Esc c => c <> newline end.

Record access_fields : Type := MkFields {
  af_time : civil_time; af_status : list ascii; af_upstream_status : list ascii; af_method : list ascii;
  af_scheme : list ascii; af_host : list ascii; af_request : list request_unit; af_client : list ascii;
  af_length : Z; af_gzip : list ascii; af_upstream : list ascii; af_rest : list ascii }.

Definition bracket : ascii := "]"%char.

Definition access_text (f : access_fields) : list ascii :=
  chars "[" ++ access_time_text (af_time f) ++ chars "] - " ++ af_status f ++ chars " " ++ af_upstream_status f ++
  chars " - " ++ af_method f ++ chars " " ++ af_scheme f ++ chars " " ++ af_host f ++ chars " " ++ [quote] ++
  request_text (af_request f) ++ [quote] ++ chars " [Client " ++ af_client f ++ chars "] [Length " ++
  format_uint (af_length f) ++ chars "] [Gzip " ++ af_gzip f ++ chars "] [Sent-to " ++ af_upstream f ++
  chars "]" ++ af_rest f.

(** A nonempty field without its delimiter. *)
Definition field (delimiter : ascii) (w : list ascii) : Prop := w <> [] /\ delimiter ∉ w.

Record fields_ok (f : access_fields) : Prop := {
  fo_time : civil_ok (af_time f);
  fo_status : status_word (af_status f);
  fo_upstream_status : status_word (af_upstream_status f);
  fo_method : af_method f <> [] /\ Forall (fun c => upper c = true) (af_method f);
  fo_scheme : field " " (af_scheme f);
  fo_host : field " " (af_host f);
  fo_request : Forall unit_ok (af_request f);
  fo_client : (bracket ∉ af_client f) /\ addr_ok (of_chars (af_client f));
  fo_length : 0 <= af_length f <= max_i64;
  fo_gzip : bracket ∉ af_gzip f;
  fo_upstream : field bracket (af_upstream f) }.

Section match_line.
Context {A : Type}.
Implicit Types (k : list ascii -> list (list ascii) -> option A) (groups : list (list ascii)).

Lemma not_in_class (d : ascii) w : d ∉ w -> Forall (fun c => negb (bool_decide (c = d)) = true) w.
Proof.
  intros Hd. apply Forall_forall. intros c Hc. apply negb_true_iff, bool_decide_eq_false. by intros ->.
Qed.

Lemma match_group_plus p w cs groups k x :
  w <> [] -> Forall (fun c => p c = true) w -> match cs with c :: _ => p c = false | [] => True end ->
  k cs (groups ++ [w]) = Some x -> match_at (RGroup (RPlus (RClass p))) (w ++ cs) groups k = Some x.
Proof.
  intros Hne Hw Hcs Hk. apply match_group, match_plus_class; [done..|]. by rewrite take_matched.
Qed.

Lemma match_field d s w cs groups k x : field d w -> k (chars (String d s) ++ cs) (groups ++ [w]) = Some x ->
  match_at (RGroup (RPlus (RNot d))) (w ++ chars (String d s) ++ cs) groups k = Some x.
Proof.
  intros [Hne Hd] Hk. apply match_group_plus; [done|by apply not_in_class| |done]. simpl. by rewrite bool_decide_true.
Qed.

(** A part of a pattern, the rest of it after that. *)
Lemma match_cat r rs cs groups k :
  match_at (RCat (r :: rs)) cs groups k = match_at r cs groups (fun cs' groups' => match_at (RCat rs) cs' groups' k).
Proof. done. Qed.

Lemma match_quote cs groups k : match_at (RChar quote) (quote :: cs) groups k = k cs groups.
Proof. done. Qed.

Lemma match_digits n w cs groups k : length w = n -> Forall (fun c => is_digit c = true) w ->
  match_at (RTimes n RDigit) (w ++ cs) groups k = k cs groups.
Proof.
  intros <- Hw. induction Hw as [|c w Hc Hw IH]; simpl; [done|]. by rewrite Hc.
Qed.

Lemma match_status w cs groups k x : status_word w -> k cs (groups ++ [w]) = Some x ->
  match_at RStatus (w ++ cs) groups k = Some x.
Proof.
  intros Hw Hk. apply match_group. cbn [match_at]. destruct Hw as [->|[Hl Hd]].
  - simpl. by rewrite Nat.sub_succ_l, Nat.sub_diag by lia.
  - rewrite match_digits by done. by rewrite take_matched, Hk.
Qed.

(** The quoted request: each escape is taken whole. *)
Lemma match_request us cs groups k x : Forall unit_ok us -> k (quote :: cs) groups = Some x ->
  match_at (RStar (RAlt (RSeq (RChar backslash) (RNot newline)) (RNot quote))) (request_text us ++ quote :: cs) groups k = Some x.
Proof.
  intros Hus Hk. cbn [match_at].
  match goal with |- ?f (length _) _ _ = _ => set (star := f) end.
  enough (forall n, (length (request_text us ++ quote :: cs) <= n)%nat ->
    star n (request_text us ++ quote :: cs) groups = Some x) as H by by apply H.
  induction Hus as [|y us Hy Hus IH]; intros n Hn; (destruct n as [|n]; [rewrite length_app in Hn; simpl in Hn; lia|]).
  - simpl. exact Hk.
  - change (request_text (y :: us)) with (unit_text y ++ request_text us) in *. rewrite <- app_assoc in *.
    rewrite length_app in Hn.
    destruct y as [c|c]; simpl in Hy, Hn |- *.
    + destruct Hy as [Hq Hb]. rewrite !bool_decide_false by done. simpl.
      rewrite (proj2 (Nat.ltb_lt _ _)) by lia. rewrite IH by lia. done.
    + rewrite bool_decide_false by done. simpl.
      rewrite (proj2 (Nat.ltb_lt _ _)) by lia. rewrite IH by lia. done.
Qed.
End match_line.

Lemma access_time_text_field c : civil_ok c -> field bracket (access_time_text c).
Proof.
  intros []. split; [done|].
  assert (days_in (ct_month c) (ct_year c) <= 31) as Hdays by (unfold days_in; repeat case_match; lia).
  assert (forall z, 0 <= z < 100 -> bracket ∉ two_digits z) as Htwo.
  { intros z Hz Hin. destruct (two_digits_ok z Hz) as (H1 & H2 & _). unfold two_digits in Hin.
    apply elem_of_cons in Hin as [E|Hin]; [by rewrite <- E in H1|]. apply elem_of_cons in Hin as [E|Hin]; [by rewrite <- E in H2|].
    by apply elem_of_nil in Hin. }
  assert (bracket ∉ chars (default "" (short_months !! Z.to_nat (ct_month c - 1)))) as Hmonth.
  { assert (ct_month c ∈ [1; 2; 3; 4; 5; 6; 7; 8; 9; 10; 11; 12]) as Hin by (set_unfold; lia).
    repeat (apply elem_of_cons in Hin as [->|Hin]; [by apply (bool_decide_unpack _); vm_compute|]). by apply elem_of_nil in Hin. }
  pose proof (Z.div_mod (ct_year c) 100 ltac:(lia)). pose proof (Z.mod_pos_bound (ct_year c) 100 ltac:(lia)).
  unfold access_time_text.
  repeat first [apply Htwo; lia|exact Hmonth|apply not_elem_of_app; split|apply not_elem_of_cons; split; [try done|]].
  by destruct (ct_east c).
Qed.

Definition request_of (unicode_lower : string -> string) (f : access_fields) (status : Z) : ParsedRequest :=
  MkParsedRequest (instant (af_time f))
    (MkProxyRequest (to_lower unicode_lower (trim_suffix_dot (of_chars (af_host f)))) (of_chars (af_client f))
       (of_chars (af_method f)) status (af_length f) (of_chars (af_upstream f)) 0) "".

Lemma access_text_groups f : fields_ok f ->
  match_front accessLine (access_text f) =
  Some [access_time_text (af_time f); af_status f; af_upstream_status f; af_method f; af_host f; af_client f;
        format_uint (af_length f); af_upstream f].
Proof.
  intros [Htime Hs1 Hs2 [Hm1 Hm2] Hscheme Hhost Hreq [Hc1 Hc2] Hlen Hgzip Hup].
  assert (af_client f <> []) as Hc0.
  { intros E. rewrite E in Hc2. destruct Hc2 as [a Ha]. by vm_compute in Ha. }
  destruct (format_uint_word (af_length f) ltac:(lia)) as [Hl0 _].
  assert (Forall (fun c => is_digit c = true) (format_uint (af_length f))) as Hl1
    by (apply Forall_reverse, digits_rev_digits; lia).
  unfold match_front, accessLine, access_text.
  rewrite match_cat, match_text, match_cat. apply match_field; [by apply access_time_text_field|].
  rewrite match_cat, match_text, match_cat. apply match_status; [done|].
  rewrite match_cat, match_text, match_cat. apply match_status; [done|].
  rewrite match_cat, match_text, match_cat. apply match_group_plus; [done..|].
  rewrite match_cat, match_text, match_cat. apply match_plus_class; [apply Hscheme|apply not_in_class, Hscheme|done|].
  rewrite match_cat, match_text, match_cat. apply match_field; [done|].
  rewrite match_cat, match_text, match_cat. cbn [app]. rewrite match_quote, match_cat. apply match_request; [done|].
  rewrite match_cat, match_quote, match_cat, match_text, match_cat. apply match_field; [done|].
  rewrite match_cat, match_text, match_cat. apply match_group_plus; [done..|].
  rewrite match_cat, match_text, match_cat. apply match_star_class; [by apply not_in_class|done|].
  rewrite match_cat, match_text, match_cat. apply match_field; [done|].
  rewrite match_cat, match_text. done.
Qed.

(** A line of the log as the proxy writes it, with any spelling of its fields that
    keeps the delimiters, is read back: the instant of its time and zone, the first
    status that is a number, the host in lower case without its final dot, the client,
    the method, the length and the upstream; the request line, whatever is quoted or
    escaped in it, and what follows are left out.  With no status at all the line is
    malformed. *)
Theorem line_roundtrip (unicode_lower : string -> string) (f : access_fields) : fields_ok f ->
  ParseLine unicode_lower (access_text f) =
  match first_status [af_status f; af_upstream_status f] with
  | Some status => Ok (request_of unicode_lower f status)
  | None => Err "invalid NPM access log status"
  end.
Proof.
  intros Hf. unfold ParseLine. rewrite access_text_groups by done. destruct Hf as [Htime _ _ _ _ _ _ [_ Hc] Hlen _ _].
  rewrite parse_access_time_text by done. destruct (first_status _) as [status|]; [|done].
  apply valid_addr_ok in Hc. rewrite Hc. cbn [negb].
  unfold format_uint. rewrite parse_digits_rev; [done|done|].
  unfold max_i64 in Hlen. change (10 ^ Z.of_nat 20) with 100000000000000000000. lia.
Qed.

(** ** Events of lines *)

(** What [ParseLine] leaves of a line. *)
Record parsed_ok (q : ParsedRequest) : Prop := {
  po_method : pr_Method (pq_Request q) <> "";
  po_upstream : pr_Upstream (pq_Request q) <> "";
  po_client : addr_ok (pr_SourceIP (pq_Request q));
  po_status : 0 <= pr_Status (pq_Request q) <= 999;
  po_length : 0 <= pr_BytesSent (pq_Request q);
  po_duration : pr_DurationMS (pq_Request q) = 0 }.

Lemma of_chars_empty w : of_chars w = "" -> w = [].
Proof. by destruct w. Qed.

Lemma ParseLine_parsed unicode_lower line q : ParseLine unicode_lower line = Ok q -> parsed_ok q.
Proof.
  unfold ParseLine. destruct (match_front accessLine line) as [gs|] eqn:E; [|done].
  apply access_line_groups in E as (at_ & s1 & s2 & method & host & client & len_ & upstream & [-> Hs1 Hs2 [Hm _] _ _ Hup]).
  destruct (parse_access_time at_); [|done]. destruct (first_status [s1; s2]) eqn:Es; [|done].
  destruct (valid_addr _) eqn:Ec; [|done]. cbn [negb]. destruct (parse_digits max_i64 0 len_) eqn:El; [|done].
  intros [= <-]. constructor; cbn.
  - by intros ?%of_chars_empty.
  - by intros ?%of_chars_empty.
  - by apply valid_addr_ok.
  - eapply first_status_range, Es. by apply Forall_cons; split; [|apply Forall_singleton].
  - apply parse_digits_range in El; [lia|]. unfold max_i64. lia.
  - done.
Qed.

(** The event of a line that parses passes validation exactly when its status is
    between 100 and 599, its host is not empty (a single dot parses as an empty host)
    and its time is not Go's zero time: the parser lets through what validation
    refuses, and nothing else. *)
Theorem line_event_valid (unicode_lower : string -> string) (line : list ascii) (q : ParsedRequest) (source : string) :
  ParseLine unicode_lower line = Ok q ->
  event_validate (request_event (MkParsedRequest (pq_ObservedAt q) (pq_Request q) source)) = Ok tt <->
  100 <= pr_Status (pq_Request q) <= 599 /\ pr_Host (pq_Request q) <> "" /\ pq_ObservedAt q <> zero_time.
Proof.
  intros [Hm Hu Hc _ Hl Hd]%ParseLine_parsed. rewrite event_validate_ok. split.
  - intros [_ Hat _ _ (p & Hcar & Hadm)]. destruct Hcar as (_ & _ & Hp & _ & _).
    destruct Hadm as [| | |r _ Hr| |]; try done. injection Hp as <-. destruct Hr as (Hh & _ & _ & _ & Hs & _). done.
  - intros (Hs & Hh & Hat). constructor; try done.
    + unfold id_ok. cbn [request_event ev_ID]. unfold digest12. rewrite len_app, len_digest_hex by lia.
      change (len "proxy:") with 6. lia.
    + exists (ProxyP (pq_Request q)). split; [done|]. apply AdmitProxy; [done|]. unfold proxy_ok. split_and!; try done; lia.
Qed.

Module DemoTail.
Definition cursor_parts (c : Cursor) : Z * Z * Z := (cu_Device c, cu_Inode c, cu_Offset c).
Definition of_parts (x : Z * Z * Z) : Cursor := MkCursor x.1.1 x.1.2 x.2.

#[export] Instance Cursor_countable : Countable Cursor.
Proof. refine (inj_countable' cursor_parts of_parts _). by intros []. Defined.

#[export] Instance codec : CursorCodec := {
  encode_cursors m := Some [Zpos (countable.encode m)];
  decode_cursors bytes m0 := match bytes with
    | [Zpos p] => match countable.decode p with Some m => (m, true) | None => (m0, false) end | _ => (m0, false) end }.

#[export] Instance codec_laws : CursorCodecLaws.
Proof.
  split; [by eexists|]. intros m bytes [= <-]. cbn [decode_cursors codec]. by rewrite countable.decode_encode.
Qed.

(** Patterns without wildcards. *)
#[export] Instance exact_glob : Globbing := fun pattern => Some (fun path => bool_decide (path = pattern)).

Definition path : string := "/logs/proxy.log".
Definition roots : list string := ["/logs/"].
Definition lower (s : string) : string := s.

Definition line (minute : string) : list ascii :=
  quoted ("[14/Jul/2026:15:" +:+ minute +:+ ":40 +0000] - - 502 - POST https Api.example.test. `/v1/jobs` [Client 203.0.113.8] [Length 157] [Gzip -] [Sent-to 172.18.0.3] `Agent` `-`") ++ [newline].
Definition line1 := line "17".
Definition line2 := line "18".
Definition line3 := line "19".
Definition line4 := line "20".

Definition first_file : ident := (8, 100).
Definition second_file : ident := (8, 101).
Definition start_cursors : gmap string Cursor := {[path := MkCursor 8 100 0]}.
Definition logs0 (fates : list (option fault)) : logs :=
  MkLogs {[path := MkNode first_file false]} {[first_file := []]} (encode_cursors start_cursors) None [] fates.
Definition tailer0 : Tailer := NewTailer roots false.

(** A line and half a line, the rest after a poll, a rotation, a restart, and a line
    that is written while the collector polls. *)
Definition history : list step :=
  [Written (line1 ++ take 30 line2); Polled []; Written (drop 30 line2); Rotated "/logs/proxy.log.1" second_file;
   Written line3; Restarted true; Polled [[]; []; [line4]]].

Definition minutes (r : PollResult) : list Z := (fun q => pq_ObservedAt q / Minute mod 60) <$> rs_Requests r.

Definition run (steps : list step) : Tailer * logs * PollResult :=
  run_steps lower path path roots (tailer0, logs0 [], empty_result) steps.

Example history_once : minutes (run history).2 = [17; 18; 19; 20] /\ rs_Malformed (run history).2 = 0.
Proof. by vm_compute. Qed.

Lemma start_ok : tail_start path roots tailer0 (logs0 []) first_file 0.
Proof.
  split_and!; try done. exists start_cursors. split; [|done]. split; [|done].
  exists [Zpos (countable.encode start_cursors)]. split; [done|]. by apply decode_encoded.
Qed.

Lemma history_ok : steps_ok lower path path roots false (tailer0, logs0 [], empty_result) history.
Proof.
  split; [done|]. split; [done|]. split; [done|]. split; [|done].
  split_and!; try (by vm_compute). apply (bool_decide_unpack _). by vm_compute.
Qed.


(** ** Failing calls *)

(** A poll whose cursor file cannot be renamed returns an error, and its lines are not
    returned by the next poll either: the cursors in memory are past them. *)
Definition written : logs := apply_change (logs0 (replicate 13 None ++ [Some (FailsBefore "no space left on device")])) (Append first_file line1).
Definition failed := exec (Poll lower tailer0 [path]) written.
Definition next := exec (Poll lower failed.2.1 [path]) failed.1.

Lemma failed_poll_loses_lines :
  failed.2.2 = Err "publish NPM cursors: no space left on device" /\
  next.2.2 = Ok empty_result /\ content next.1 first_file = line1.
Proof. by vm_compute. Qed.

(** A poll that cannot read the cursor file returns an error, and the next poll starts
    without cursors: at the end of the log when it is told to, so that what was
    appended since the last cursor is never returned. *)
Definition unreadable : logs := apply_change (logs0 [Some (FailsBefore "input/output error")]) (Append first_file line1).
Definition refused := exec (Poll lower (NewTailer roots true) [path]) unreadable.
Definition resumed := exec (Poll lower refused.2.1 [path]) refused.1.

Lemma unread_cursors_skip_lines :
  refused.2.2 = Err "read NPM cursors: input/output error" /\ resumed.2.2 = Ok empty_result /\
  tl_cursors resumed.2.1 !! path = Some (MkCursor 8 100 (Z.of_nat (length line1))).
Proof. by vm_compute. Qed.
End DemoTail.

Module DemoLine.
(** A line of the collector's own tests, with an escaped quote in the request. *)
Definition fields : access_fields :=
  MkFields (MkCivil 2026 7 14 15 19 40 true 0 0) (chars "-") (chars "200") (chars "GET") (chars "https")
    (chars "search.example.test") (Lit <$> chars "/search?q=")
    (chars "192.0.2.9") 42 (chars "-") (chars "search") (chars " -").

Definition escaped : access_fields :=
  MkFields (af_time fields) (af_status fields) (af_upstream_status fields) (af_method fields) (af_scheme fields)
    (af_host fields) (af_request fields ++ [Esc quote; Lit "x"%char; Esc quote]) (af_client fields)
    (af_length fields) (af_gzip fields) (af_upstream fields) (af_rest fields).

Lemma escaped_ok : fields_ok escaped.
Proof.
  constructor.
  - constructor; unfold days_in, is_leap; simpl; lia.
  - by left.
  - right. split; [done|]. by repeat constructor.
  - split; [done|]. by repeat constructor.
  - split; [done|]. apply (bool_decide_unpack _). by vm_compute.
  - split; [done|]. apply (bool_decide_unpack _). by vm_compute.
  - by repeat constructor.
  - split; [apply (bool_decide_unpack _); by vm_compute|]. apply valid_addr_ok. by vm_compute.
  - simpl. unfold max_i64. lia.
  - apply (bool_decide_unpack _). by vm_compute.
  - split; [done|]. apply (bool_decide_unpack _). by vm_compute.
Qed.

Lemma line_roundtrip_witness :
  ParseLine DemoTail.lower (access_text escaped) = Ok (request_of DemoTail.lower escaped 200).
Proof. rewrite (line_roundtrip DemoTail.lower escaped escaped_ok). reflexivity. Defined.

(** A line with the status 000, which nginx writes for a connection it did not answer,
    and one whose host is a dot. *)
Definition unanswered : list ascii := quoted "[14/Jul/2026:15:17:40 +0000] - - 000 - GET https api.example.test `/` [Client 203.0.113.8] [Length 0] [Gzip -] [Sent-to web]".

Definition unanswered_request : ParsedRequest :=
  MkParsedRequest (1784042260 * Second) (MkProxyRequest "api.example.test" "203.0.113.8" "GET" 0 0 "web" 0) "".

Lemma line_event_valid_witness :
  ParseLine DemoTail.lower unanswered = Ok unanswered_request /\
  ~ event_validate (request_event (MkParsedRequest (1784042260 * Second) (pq_Request unanswered_request) "8:100:99")) = Ok tt.
Proof.
  assert (ParseLine DemoTail.lower unanswered = Ok unanswered_request) as E by (vm_compute; reflexivity).
  split; [exact E|].
  intros H. apply (line_event_valid DemoTail.lower unanswered unanswered_request "8:100:99" E) in H.
  destruct H as [[H _] _]. vm_compute in H. by apply H.
Defined.
End DemoLine.
