(* ===== verification/Rollup.v ===== *)
(** * Rollups and retention

    [internal/server/rollup] and [internal/server/retention] over the tables they read
    and write, and the jobs of [cmd/flowlens-server/main.go] that call them.  A table is
    the list of its rows; a transaction that fails leaves the tables as they were. *)

From stdpp Require Import base strings numbers list.
From S2P Require Import Prelude GoBase GoText GoTime Effects StateFile.

Open Scope string_scope.
Open Scope Z_scope.
Local Open Scope flow_scope.
Local Open Scope list_scope.

Definition Day : duration := 24 * Hour.

(** ** Tables *)

(** The columns of the minute tables that a rollup groups by, one constructor per
    table. *)
Inductive dimension : Type :=
| traffic_minute (direction : string)
| owner_minute (owner_id owner_kind owner_name direction : string)
| domain_minute (domain confidence direction : string)
| flow_minute (owner_id owner_name source destination domain confidence protocol : string) (remote_port : Z) (direction : string)
| proxy_status_minute (host : string) (status : Z).

#[export] Instance dimension_eq_dec : EqDecision dimension.
Proof. solve_decision. Defined.

Record counts : Type := MkCounts { bytes : Z; packets : Z; connections : Z; requests : Z }.

Record minute_row : Type := MkMinute { mi_node : string; mi_bucket : time; mi_dim : dimension; mi_counts : counts }.

(** [traffic_rollups]; [ro_dim] stands for [dimension_kind], [dimension_key],
    [direction] and [status_code], which the statements make of it one to one. *)
Record rollup_row : Type := MkRollup {
  ro_resolution : string; ro_node : string; ro_bucket : time; ro_dim : dimension; ro_counts : counts;
  ro_source_min : time; ro_source_max : time }.

Inductive detail_table : Type := connection_details | proxy_request_details | interface_deltas | domain_evidence.

#[export] Instance detail_table_eq_dec : EqDecision detail_table.
Proof. solve_decision. Defined.

Record detail_row : Type := MkDetail { de_table : detail_table; de_node : string; de_observed_at : time }.

Record db : Type := MkDb {
  db_minutes : list minute_row;
  db_rollups : list rollup_row;
  db_details : list detail_row;
  db_alerts : list (string * time);      (** [status], [last_seen_at] *)
  db_deliveries : list (string * time);  (** [status], [created_at] *)
  db_health : list time }.               (** [observed_at] *)

Definition set_minutes (l : list minute_row) (d : db) : db :=
  MkDb l (db_rollups d) (db_details d) (db_alerts d) (db_deliveries d) (db_health d).
Definition set_rollups (l : list rollup_row) (d : db) : db :=
  MkDb (db_minutes d) l (db_details d) (db_alerts d) (db_deliveries d) (db_health d).
Definition set_details (l : list detail_row) (d : db) : db :=
  MkDb (db_minutes d) (db_rollups d) l (db_alerts d) (db_deliveries d) (db_health d).
Definition set_alerts (l : list (string * time)) (d : db) : db :=
  MkDb (db_minutes d) (db_rollups d) (db_details d) l (db_deliveries d) (db_health d).
Definition set_deliveries (l : list (string * time)) (d : db) : db :=
  MkDb (db_minutes d) (db_rollups d) (db_details d) (db_alerts d) l (db_health d).
Definition set_health (l : list time) (d : db) : db :=
  MkDb (db_minutes d) (db_rollups d) (db_details d) (db_alerts d) (db_deliveries d) l.

(** ** Minute counters

    [INSERT ... ON CONFLICT DO UPDATE] of the store. *)

(** The dimension up to the columns outside the primary key. *)
Definition key_of (d : dimension) : dimension :=
  match d with
  | owner_minute id _ _ direction => owner_minute id "" "" direction
  | flow_minute id _ source destination domain confidence protocol port direction =>
      flow_minute id "" source destination domain confidence protocol port direction
  | _ => d
  end.

Definition add_counts (a b : counts) : counts :=
  MkCounts (bytes a + bytes b) (packets a + packets b) (connections a + connections b) (requests a + requests b).

(** Every count fits a [bigint]. *)
Definition in_bigint (c : counts) : bool :=
  (bytes c <=? max_i64) && (packets c <=? max_i64) && (connections c <=? max_i64) && (requests c <=? max_i64).

Definition same_row (a b : minute_row) : bool :=
  bool_decide (mi_node a = mi_node b) && (mi_bucket a =? mi_bucket b) && bool_decide (key_of (mi_dim a) = key_of (mi_dim b)).

Fixpoint upsert (row : minute_row) (rows : list minute_row) : option (list minute_row) :=
  match rows with
  | [] => Some [row]
  | r :: rest =>
      if same_row r row then
        let c := add_counts (mi_counts r) (mi_counts row) in
        if in_bigint c then Some (MkMinute (mi_node r) (mi_bucket r) (mi_dim r) c :: rest) else None
      else (fun rest => r :: rest) <$> upsert row rest
  end.

(** ** [rollup.Service] *)

Definition ResolutionHour : string := "hour".
Definition ResolutionDay : string := "day".

(** [date_trunc(resolution, t, 'UTC')] *)
Definition date_trunc (resolution : string) (t : time) : time :=
  let unit := if bool_decide (resolution = ResolutionDay) then Day else Hour in
  t - t mod unit.

(** The columns each statement sums up; it writes zero for the others. *)
Definition summed (d : dimension) (c : counts) : counts :=
  match d with
  | traffic_minute _ => MkCounts (bytes c) (packets c) 0 0
  | owner_minute _ _ _ _ => MkCounts (bytes c) 0 (connections c) 0
  | domain_minute _ _ _ | flow_minute _ _ _ _ _ _ _ _ _ => MkCounts (bytes c) 0 (connections c) (requests c)
  | proxy_status_minute _ _ => MkCounts (bytes c) 0 0 (requests c)
  end.

(** The tables in the order of the statements. *)
Definition is_traffic (d : dimension) : bool := match d with traffic_minute _ => true | _ => false end.
Definition is_owner (d : dimension) : bool := match d with owner_minute _ _ _ _ => true | _ => false end.
Definition is_domain (d : dimension) : bool := match d with domain_minute _ _ _ => true | _ => false end.
Definition is_flow (d : dimension) : bool := match d with flow_minute _ _ _ _ _ _ _ _ _ => true | _ => false end.
Definition is_proxy_status (d : dimension) : bool := match d with proxy_status_minute _ _ => true | _ => false end.
Definition statements : list (dimension -> bool) := [is_traffic; is_owner; is_domain; is_flow; is_proxy_status].

Definition in_window (start end_ t : time) : bool := (start <=? t) && (t <? end_).

Definition group_key (resolution : string) (r : minute_row) : string * time * dimension :=
  (mi_node r, date_trunc resolution (mi_bucket r), mi_dim r).

(** The row of a group. *)
Definition group_row (resolution : string) (rows : list minute_row) (key : string * time * dimension) : rollup_row :=
  let group := filter (fun r => group_key resolution r = key) rows in
  let total := foldr (fun r acc => add_counts (summed (mi_dim r) (mi_counts r)) acc) (MkCounts 0 0 0 0) group in
  let buckets := mi_bucket <$> group in
  MkRollup resolution key.1.1 key.1.2 key.2 total
    (foldr Z.min (default 0 (head buckets)) buckets) (foldr Z.max (default 0 (head buckets)) buckets).

(** [SELECT ... GROUP BY] of one statement. *)
Definition rollup_statement (resolution : string) (rows : list minute_row) (table : dimension -> bool) : list rollup_row :=
  let selected := filter (fun r => table (mi_dim r) = true) rows in
  group_row resolution selected <$> remove_dups (group_key resolution <$> selected).

Definition RollupRange (resolution : string) (start end_ : time) (d : db) : result string db :=
  if negb (bool_decide (resolution ∈ [ResolutionHour; ResolutionDay])) then Err "rollup resolution must be hour or day"
  else if end_ <=? start then Err "rollup end must be after start"
  else
    let kept := filter (fun r => ~ (ro_resolution r = resolution /\ in_window start end_ (ro_bucket r) = true)) (db_rollups d) in
    let rows := filter (fun r => in_window start end_ (mi_bucket r) = true) (db_minutes d) in
    let built := statements ≫= rollup_statement resolution rows in
    if forallb (fun r => in_bigint (ro_counts r)) built then Ok (set_rollups (kept ++ built) d)
    else Err "build rollup: bigint out of range".

(** ** [retention.Service] *)

Record Settings : Type := MkSettings { DetailDays : Z; AggregateMonths : Z }.

Record Stats : Type := MkStats { StartedAt : time; DeletedRows : Z; Finished : bool }.

(** [t.AddDate(0, -months, 0)] of a UTC time: the same day of an earlier month, counted
    on into the next one where the month is shorter. *)
Definition months_before (t : time) (months : Z) : time :=
  let '(y, m, d) := civil_from_days (t / Day) in
  let index := y * 12 + (m - 1) - months in
  days_from_civil (index / 12) (index mod 12 + 1) d * Day + t mod Day.

(** Rows a query with [LIMIT n] picks, deleted; the order of a scan is the database's. *)
Fixpoint drop_matching {A} (n : nat) (P : A -> bool) (l : list A) : list A * nat :=
  match l with
  | [] => ([], 0%nat)
  | x :: l' =>
      if P x then
        match n with
        | O => (l, 0%nat)
        | S n' => let '(rest, k) := drop_matching n' P l' in (rest, S k)
        end
      else let '(rest, k) := drop_matching n P l' in (x :: rest, k)
  end.

(** [LIMIT 10000] *)
Definition batch_size : nat := Z.to_nat 10000.

Section cleanup.
Context (scan : forall A : Type, list A -> list A).

(** [deleteBatched]: what is left, how many rows went, the faults not yet met, and how
    it ended.  A fault is met by a statement or by a pause. *)
Fixpoint deleteBatched {A} (fuel : nat) (table : string) (P : A -> bool) (faults : list (option fault)) (l : list A) (total : Z)
  : list A * Z * list (option fault) * result string unit :=
  match fuel with
  | O => (l, total, faults, Err "out of fuel")
  | S fuel' =>
      let '(rest, k) := drop_matching batch_size P (scan A l) in
      let faults1 := drop 1 faults in
      match default None (head faults) with
      | Some (FailsBefore what) => (l, total, faults1, Err ("clean " +:+ table +:+ ": " +:+ what))
      | Some (FailsAfter what) => (rest, total, faults1, Err ("clean " +:+ table +:+ ": " +:+ what))
      | None =>
          let total := total + Z.of_nat k in
          if (k <? batch_size)%nat then (rest, total, faults1, Ok tt)
          else
            match default None (head faults1) with
            | Some (FailsBefore what) | Some (FailsAfter what) => (rest, total, drop 1 faults1, Err what)
            | None => deleteBatched fuel' table P (drop 1 faults1) rest total
            end
      end
  end.

Record cleaning : Type := MkCleaning { cl_db : db; cl_deleted : Z; cl_faults : list (option fault); cl_result : result string unit }.

(** One table, unless an earlier one failed. *)
Definition clean {A} (table : string) (get : db -> list A) (set : list A -> db -> db) (P : db -> A -> bool) (c : cleaning) : cleaning :=
  match cl_result c with
  | Err _ => c
  | Ok _ =>
      let l := get (cl_db c) in
      let '(rest, total, faults, r) := deleteBatched (S (length l)) table (P (cl_db c)) (cl_faults c) l 0 in
      MkCleaning (set rest (cl_db c)) (cl_deleted c + total) faults r
  end.

(** [EXISTS (SELECT 1 FROM traffic_rollups WHERE resolution='day' AND node_id AND bucket)] *)
Definition rolled (d : db) (node : string) (t : time) : bool :=
  existsb (fun r => bool_decide (ro_resolution r = ResolutionDay) && bool_decide (ro_node r = node) &&
    (ro_bucket r =? date_trunc ResolutionDay t)) (db_rollups d).

Definition expired_detail (table : detail_table) (cutoff : time) (d : db) (r : detail_row) : bool :=
  bool_decide (de_table r = table) && (de_observed_at r <? cutoff) && rolled d (de_node r) (de_observed_at r).

Definition expired_minute (table : dimension -> bool) (cutoff : time) (d : db) (r : minute_row) : bool :=
  table (mi_dim r) && (mi_bucket r <? cutoff) && rolled d (mi_node r) (mi_bucket r).

Definition expired_hour (cutoff : time) (d : db) (r : rollup_row) : bool :=
  bool_decide (ro_resolution r = ResolutionHour) && (ro_bucket r <? cutoff) && rolled d (ro_node r) (ro_bucket r).

Definition expired_day (cutoff : time) (_ : db) (r : rollup_row) : bool :=
  bool_decide (ro_resolution r = ResolutionDay) && (ro_bucket r <? cutoff).

Definition expired_status (statuses : list string) (cutoff : time) (_ : db) (r : string * time) : bool :=
  bool_decide (r.1 ∈ statuses) && (r.2 <? cutoff).

Definition clean_detail (cutoff : time) (t : string * detail_table) : cleaning -> cleaning :=
  clean t.1 db_details set_details (expired_detail t.2 cutoff).
Definition clean_minute (cutoff : time) (t : string * (dimension -> bool)) : cleaning -> cleaning :=
  clean t.1 db_minutes set_minutes (expired_minute t.2 cutoff).

Definition detail_tables : list (string * detail_table) :=
  [("connection_details", connection_details); ("proxy_request_details", proxy_request_details);
   ("interface_deltas", interface_deltas); ("domain_evidence", domain_evidence)].
Definition minute_tables : list (string * (dimension -> bool)) :=
  [("traffic_minute", is_traffic); ("owner_minute", is_owner); ("domain_minute", is_domain); ("flow_minute", is_flow);
   ("proxy_status_minute", is_proxy_status)].

Definition detail_cutoff (now : time) (settings : Settings) : time := now - DetailDays settings * Day.
Definition day_cutoff (now : time) (settings : Settings) : time := months_before now (AggregateMonths settings).

Definition Cleanup (now : time) (settings : Settings) (faults : list (option fault)) (d : db) : db * Stats * result string unit :=
  if (DetailDays settings <? 1) || (30 <? DetailDays settings) || (AggregateMonths settings <? 1) || (12 <? AggregateMonths settings)
  then (d, MkStats now 0 false, Err "retention settings are outside supported bounds")
  else
    let c := foldl (fun c t => clean_detail (detail_cutoff now settings) t c) (MkCleaning d 0 faults (Ok tt)) detail_tables in
    let c := foldl (fun c t => clean_minute (detail_cutoff now settings) t c) c minute_tables in
    let c := clean "traffic_rollups" db_rollups set_rollups (expired_hour (detail_cutoff now settings)) c in
    let c := clean "traffic_rollups" db_rollups set_rollups (expired_day (day_cutoff now settings)) c in
    let c := clean "alerts" db_alerts set_alerts (expired_status ["resolved"] (day_cutoff now settings)) c in
    let c := clean "webhook_deliveries" db_deliveries set_deliveries
               (expired_status ["delivered"; "terminal"; "cancelled"] (day_cutoff now settings)) c in
    let c := clean "collector_health" db_health set_health (fun _ at_ => at_ <? detail_cutoff now settings) c in
    (cl_db c, MkStats now (cl_deleted c) (is_ok (cl_result c)), cl_result c).
End cleanup.

(** ** The jobs *)

Definition hour_rollup (now : time) : db -> result string db :=
  let end_ := Truncate now Hour in RollupRange ResolutionHour (end_ - 2 * Hour) end_.

Definition day_rollup (now : time) : db -> result string db :=
  let end_ := Truncate now Day in RollupRange ResolutionDay (end_ - 48 * Hour) end_.

(** Ten past the hour, and twenty past midnight. *)
Definition nextHourRollup (at_ : time) : time :=
  let next := Truncate at_ Hour + 10 * Minute in if negb (at_ <? next) then next + Hour else next.
Definition nextDayRollup (at_ : time) : time :=
  let next := Truncate at_ Day + 20 * Minute in if negb (at_ <? next) then next + 24 * Hour else next.
