(* ===== verification/RollupTheorems.v ===== *)
(** * Properties of rollups and retention

    A cleaning run ends and deletes exactly what has expired; the day totals survive any
    schedule of rollups and retention runs that keep at least three days of detail. *)

From stdpp Require Import base strings numbers sets list.
From S2P Require Import Prelude GoBase GoText GoTime Effects StateFile Rollup.

Open Scope string_scope.
Open Scope Z_scope.
Local Open Scope flow_scope.
Local Open Scope list_scope.

(** ** Sums over groups *)

Lemma sumZ_groups `{EqDecision K} {A} (key : A -> K) (g : A -> Z) l :
  sumZ (fun k => sumZ g (filter (fun x => key x = k) l)) (remove_dups (key <$> l)) = sumZ g l.
Proof.
  enough (forall ks, NoDup ks -> sumZ (fun k => sumZ g (filter (fun x => key x = k) l)) ks = sumZ g (filter (fun x => key x ∈ ks) l)) as H.
  { rewrite H by apply NoDup_remove_dups. f_equal. apply filter_all. intros x Hx.
    apply elem_of_remove_dups, list_elem_of_fmap. eauto. }
  induction 1 as [|k ks Hk Hks IH]; simpl.
  - rewrite filter_none; [done|]. intros x _. apply not_elem_of_nil.
  - rewrite IH. rewrite (sumZ_filter_split g (fun x => key x = k) (filter (fun x => key x ∈ k :: ks) l)).
    rewrite !list_filter_filter. f_equal; f_equal; apply list_filter_iff; intros x; set_solver.
Qed.

Lemma sumZ_partition {A} (g : A -> Z) (ps : list (A -> bool)) l :
  (forall x, x ∈ l -> length (filter (fun p => p x = true) ps) = 1%nat) ->
  sumZ (fun p => sumZ g (filter (fun x => p x = true) l)) ps = sumZ g l.
Proof.
  intros H.
  assert (forall l', (forall x, x ∈ l' -> x ∈ l) -> sumZ (fun p => sumZ g (filter (fun x => p x = true) l')) ps =
    sumZ (fun x => Z.of_nat (length (filter (fun p => p x = true) ps)) * g x) l') as Hsum.
  { induction l' as [|x l' IH]; intros Hl; [by apply sumZ_zero|]. simpl. rewrite <- IH by (intros; apply Hl; by constructor).
    clear. induction ps as [|p ps IHp]; [done|]. simpl. rewrite filter_cons. cbn [filter].
    rewrite (filter_cons _ p ps). destruct (decide (p x = true)); simpl; lia. }
  rewrite Hsum by done. apply sumZ_ext. intros x Hx. rewrite H by done. lia.
Qed.

(** ** Deleting in batches *)

(** [l'] is [l] without some of the rows that match; none of them if [all]. *)
Definition cleaned {A} (all : bool) (P : A -> bool) (l l' : list A) : Prop :=
  exists kept gone, l' ≡ₚ kept ++ filter (fun x => P x = false) l /\ kept ++ gone ≡ₚ filter (fun x => P x = true) l /\
    (all = true -> kept = []).

Lemma filter_bool_split {A} (P : A -> bool) l : filter (fun x => P x = true) l ++ filter (fun x => P x = false) l ≡ₚ l.
Proof.
  induction l as [|x l IH]; [done|]. rewrite !filter_cons. destruct (P x); simpl; [by rewrite IH|].
  rewrite <- Permutation_middle. by rewrite IH.
Qed.

Lemma cleaned_refl {A} (P : A -> bool) l : cleaned false P l l.
Proof. exists (filter (fun x => P x = true) l), []. rewrite app_nil_r, filter_bool_split. done. Qed.

Lemma cleaned_elem {A} all (P : A -> bool) l l' x : cleaned all P l l' -> x ∈ l' -> x ∈ l.
Proof.
  intros (kept & gone & H1 & H2 & _). rewrite H1, elem_of_app, list_elem_of_filter.
  intros [Hx|[_ Hx]]; [|done]. assert (x ∈ kept ++ gone) as Hin by set_solver.
  rewrite H2, list_elem_of_filter in Hin. apply Hin.
Qed.

Lemma cleaned_keeps {A} all (P : A -> bool) l l' x : cleaned all P l l' -> P x = false -> x ∈ l -> x ∈ l'.
Proof. intros (kept & gone & H1 & _). rewrite H1, elem_of_app, list_elem_of_filter. auto. Qed.

Lemma cleaned_sum {A} all (P : A -> bool) l l' (f : A -> Z) : cleaned all P l l' ->
  (forall x, x ∈ l -> P x = true -> f x = 0) -> sumZ f l' = sumZ f l.
Proof.
  intros (kept & gone & H1 & H2 & _) Hz. rewrite (sumZ_perm f _ _ H1), sumZ_app.
  rewrite <- (sumZ_perm f _ _ (filter_bool_split P l)), sumZ_app.
  assert (forall x, x ∈ kept ++ gone -> f x = 0) as Hk.
  { intros x. rewrite H2, list_elem_of_filter. intros [? ?]. by apply Hz. }
  rewrite (sumZ_zero f kept) by set_solver. rewrite (sumZ_zero f (filter (fun x => P x = true) l)); [done|].
  intros x [? ?]%list_elem_of_filter. by apply Hz.
Qed.

Section batches.
Context (scan : forall A : Type, list A -> list A) (scan_perm : forall A (l : list A), scan A l ≡ₚ l).

Lemma drop_matching_spec {A} n (P : A -> bool) l :
  exists kept gone, (drop_matching n P l).1 ≡ₚ kept ++ filter (fun x => P x = false) l /\
    kept ++ gone ≡ₚ filter (fun x => P x = true) l /\ length gone = (drop_matching n P l).2 /\
    ((drop_matching n P l).2 <= n)%nat /\ (((drop_matching n P l).2 < n)%nat -> kept = []).
Proof.
  revert n. induction l as [|x l IH]; intros n; simpl; [exists [], []; split_and!; simpl; (done || lia)|].
  destruct (P x) eqn:E.
  - destruct n as [|n].
    + exists (filter (fun x => P x = true) (x :: l)), []. rewrite filter_bool_split, app_nil_r. split_and!; simpl; (done || lia).
    + destruct (IH n) as (kept & gone & H1 & H2 & H3 & H4 & H5). destruct (drop_matching n P l) as [rest k]. simpl in *.
      exists kept, (x :: gone). rewrite !filter_cons, E. split_and!; simpl; [done| |lia|lia|intros; apply H5; lia].
      by rewrite <- Permutation_middle, H2.
  - destruct (IH n) as (kept & gone & H1 & H2 & H3 & H4 & H5). destruct (drop_matching n P l) as [rest k]. simpl in *.
    exists kept, gone. rewrite !filter_cons, E. simpl. split_and!; [by rewrite H1, Permutation_middle|done..].
Qed.

(** One batch more of a cleaning. *)
Lemma cleaned_batch {A} n (P : A -> bool) l : let '(rest, k) := drop_matching n P (scan A l) in
  cleaned (k <? n)%nat P l rest /\ length l = (k + length rest)%nat /\
  filter (fun x => P x = false) rest ≡ₚ filter (fun x => P x = false) l /\
  exists gone, filter (fun x => P x = true) rest ++ gone ≡ₚ filter (fun x => P x = true) l.
Proof.
  destruct (drop_matching_spec n P (scan A l)) as (kept & gone & H1 & H2 & H3 & H4 & H5).
  destruct (drop_matching n P (scan A l)) as [rest k]. simpl in *. rewrite scan_perm in H1, H2.
  assert (Forall (fun x => P x = true) (kept ++ gone)) as Hall.
  { apply Forall_forall. intros x. rewrite H2, list_elem_of_filter. by intros []. }
  apply Forall_app in Hall as [Hk _].
  assert (filter (fun x => P x = false) kept = []) as Ek0.
  { apply filter_none. intros x Hx. rewrite Forall_forall in Hk. by rewrite Hk. }
  assert (filter (fun x => P x = true) kept = kept) as Ek1 by (apply filter_all, Forall_forall, Hk).
  split_and!.
  - exists kept, gone. split_and!; [done|done|]. intros ?%Nat.ltb_lt. by apply H5.
  - assert (length l = length ((kept ++ gone) ++ filter (fun x => P x = false) l)) as ->.
    { apply Permutation_length. by rewrite H2, filter_bool_split. }
    rewrite (Permutation_length H1), !length_app. lia.
  - rewrite H1, filter_app, Ek0, list_filter_filter. simpl.
    by rewrite (list_filter_iff (fun x => P x = false /\ P x = false) (fun x => P x = false) l) by naive_solver.
  - exists gone. rewrite H1, filter_app, Ek1, list_filter_filter.
    rewrite (filter_none (fun x => P x = true /\ P x = false) l); [by rewrite app_nil_r|].
    intros x _ [E1 E2]. congruence.
Qed.

Lemma cleaned_then {A} all (P : A -> bool) l rest l' gone :
  filter (fun x => P x = false) rest ≡ₚ filter (fun x => P x = false) l ->
  filter (fun x => P x = true) rest ++ gone ≡ₚ filter (fun x => P x = true) l ->
  cleaned all P rest l' -> cleaned all P l l'.
Proof.
  intros Hf Ht (kept & gone' & H1 & H2 & H3). exists kept, (gone' ++ gone). split_and!; [by rewrite H1, Hf| |done].
  by rewrite app_assoc, H2.
Qed.

Lemma cleaned_weaken {A} all (P : A -> bool) l l' : cleaned all P l l' -> cleaned false P l l'.
Proof. intros (kept & gone & H1 & H2 & _). by exists kept, gone. Qed.

Lemma no_fault (faults : list (option fault)) : Forall (fun f => f = None) faults -> default None (head faults) = None.
Proof. by intros [|]. Qed.

(** What [deleteBatched] leaves, with fuel for every row. *)
Lemma deleteBatched_cleaned {A} fuel table (P : A -> bool) faults l total : (length l < fuel)%nat ->
  let '(rest, total', _, r) := deleteBatched scan fuel table P faults l total in
  cleaned (is_ok r) P l rest /\
  (r = Ok tt -> total' = total + Z.of_nat (length (filter (fun x => P x = true) l))) /\
  (Forall (fun f => f = None) faults -> r = Ok tt).
Proof.
  revert faults l total. induction fuel as [|fuel IH]; intros faults l total Hl; [lia|]. cbn [deleteBatched].
  pose proof (cleaned_batch batch_size P l) as Hb. destruct (drop_matching batch_size P (scan A l)) as [rest k].
  destruct Hb as (Hb & Hlen & Hf & gone & Ht).
  pose proof (Permutation_length (filter_bool_split P l)) as E1. pose proof (Permutation_length (filter_bool_split P rest)) as E2.
  rewrite length_app in E1, E2. pose proof (Permutation_length Hf) as E3.
  destruct (default None (head faults)) as [[what|what]|] eqn:Ef.
  1: { split_and!; [apply cleaned_refl|done|]. intros Hn%no_fault. congruence. }
  1: { split_and!; [by eapply cleaned_weaken|done|]. intros Hn%no_fault. congruence. }
  destruct (k <? batch_size)%nat eqn:Ek.
  { split_and!; [done| |done]. intros _. destruct Hb as (kept & gone1 & Hr & Hg & Hk). rewrite (Hk eq_refl) in Hr.
    apply Permutation_length in Hr. simpl in Hr. lia. }
  apply Nat.ltb_ge in Ek. assert (0 < batch_size)%nat by (unfold batch_size; lia).
  destruct (default None (head (drop 1 faults))) as [[what|what]|] eqn:Ef1.
  1,2: split_and!; [by eapply cleaned_weaken|done|]; intros Hn%(Forall_drop _ 1)%no_fault; congruence.
  specialize (IH (drop 1 (drop 1 faults)) rest (total + Z.of_nat k) ltac:(lia)).
  destruct (deleteBatched _ _ _ _ _ _ _) as [[[l' total'] f'] r].
  destruct IH as (H1 & H2 & H3). split_and!; [by eapply cleaned_then| |].
  - intros E. rewrite (H2 E). lia.
  - intros Hn. apply H3. by do 2 apply Forall_drop.
Qed.
End batches.

(** ** Totals of a day *)

Inductive column : Type := Bytes | Packets | Connections | Requests.

Definition col (c : column) (cs : counts) : Z :=
  match c with Bytes => bytes cs | Packets => packets cs | Connections => connections cs | Requests => requests cs end.

Definition day_of (t : time) : time := date_trunc ResolutionDay t.

Section totals.
Context (c : column) (node : string) (day : time) (key : dimension).

(** What a minute row counts for the day, the node and the key. *)
Definition counted (r : minute_row) : Z :=
  if bool_decide (mi_node r = node /\ day_of (mi_bucket r) = day /\ key_of (mi_dim r) = key)
  then col c (summed (mi_dim r) (mi_counts r)) else 0.

Definition rolled_up (r : rollup_row) : Z :=
  if bool_decide (ro_resolution r = ResolutionDay /\ ro_node r = node /\ ro_bucket r = day /\ key_of (ro_dim r) = key)
  then col c (ro_counts r) else 0.

Definition minute_total (rows : list minute_row) : Z := sumZ counted rows.
Definition rollup_total (rows : list rollup_row) : Z := sumZ rolled_up rows.

Lemma col_add a b : col c (add_counts a b) = col c a + col c b.
Proof. by destruct c. Qed.

Lemma col_summed_add d e a b : key_of d = key_of e -> col c (summed d (add_counts a b)) = col c (summed d a) + col c (summed e b).
Proof. destruct d, e; intros [=]; by destruct c. Qed.

Lemma upsert_total row rows rows' : upsert row rows = Some rows' -> minute_total rows' = minute_total rows + counted row.
Proof.
  revert rows'. induction rows as [|r rows IH]; intros rows' E; simpl in E; [injection E as <-; unfold minute_total; simpl; lia|].
  destruct (same_row r row) eqn:Es.
  - destruct (in_bigint _); [|done]. injection E as <-. unfold minute_total. simpl.
    unfold same_row in Es. apply andb_true_iff in Es as [[En Eb]%andb_true_iff Ek].
    apply bool_decide_eq_true in En, Ek. apply Z.eqb_eq in Eb. unfold counted. cbn [mi_node mi_bucket mi_dim mi_counts].
    rewrite <- En, <- Eb, <- Ek. case_bool_decide; [|lia]. rewrite (col_summed_add _ (mi_dim row)) by done. lia.
  - destruct (upsert row rows) as [rest|]; [|done]. injection E as <-. unfold minute_total in *. simpl. rewrite (IH rest eq_refl). lia.
Qed.

Lemma group_total rows :
  col c (foldr (fun r acc => add_counts (summed (mi_dim r) (mi_counts r)) acc) (MkCounts 0 0 0 0) rows) =
  sumZ (fun r => col c (summed (mi_dim r) (mi_counts r))) rows.
Proof.
  induction rows as [|r rows IH]; simpl; [by destruct c|]. by rewrite col_add, IH.
Qed.

(** A group row counts what its rows count. *)
Lemma group_row_total rows k :
  rolled_up (group_row ResolutionDay rows k) = sumZ counted (filter (fun r => group_key ResolutionDay r = k) rows).
Proof.
  unfold rolled_up, group_row. cbn [ro_resolution ro_node ro_bucket ro_dim ro_counts].
  rewrite group_total.
  assert (forall r, r ∈ filter (fun r => group_key ResolutionDay r = k) rows -> counted r =
    if bool_decide (k.1.1 = node /\ k.1.2 = day /\ key_of k.2 = key) then col c (summed (mi_dim r) (mi_counts r)) else 0) as Hc.
  { intros r [<- _]%list_elem_of_filter. done. }
  rewrite (sumZ_ext _ _ _ Hc). case_bool_decide as E; [rewrite bool_decide_true by naive_solver; done|].
  rewrite bool_decide_false by naive_solver. symmetry. by apply sumZ_zero.
Qed.

Lemma statements_total rows : rollup_total (statements ≫= rollup_statement ResolutionDay rows) = minute_total rows.
Proof.
  unfold rollup_total, minute_total. rewrite sumZ_bind.
  rewrite <- (sumZ_partition counted ((fun p r => p (mi_dim r)) <$> statements) rows).
  - rewrite sumZ_fmap. apply sumZ_ext. intros p _. unfold rollup_statement. rewrite sumZ_fmap.
    rewrite <- (sumZ_groups (group_key ResolutionDay) counted (filter (fun r => p (mi_dim r) = true) rows)).
    apply sumZ_ext. intros k _. apply group_row_total.
  - intros [n b dm cs] _. by destruct dm.
Qed.
End totals.

Lemma day_window t : day_of t <= t < day_of t + Day.
Proof.
  unfold day_of, date_trunc. rewrite bool_decide_true by done. pose proof (Z.mod_pos_bound t Day ltac:(done)). lia.
Qed.

Lemma day_of_mult t : exists n, day_of t = n * Day.
Proof.
  unfold day_of, date_trunc. rewrite bool_decide_true by done. exists (t / Day).
  pose proof (Z.div_mod t Day ltac:(done)). lia.
Qed.

Lemma day_of_day t : day_of (day_of t) = day_of t.
Proof.
  destruct (day_of_mult t) as [n ->]. unfold day_of, date_trunc. rewrite bool_decide_true by done.
  rewrite Z.mod_mul by done. lia.
Qed.

(** A window of whole days holds a time exactly when it holds its day. *)
Lemma window_day a b t : in_window (a * Day) (b * Day) (day_of t) = in_window (a * Day) (b * Day) t.
Proof.
  pose proof (day_window t) as Hw. destruct (day_of_mult t) as [n E]. rewrite E in *. unfold in_window.
  assert (forall m, m * Day <= n * Day <-> m * Day <= t) as Hm.
  { intros m. assert (0 < Day) by done. split; [lia|]. intros Hmt. apply Z.mul_le_mono_nonneg_r; [lia|].
    assert (m * Day < (n + 1) * Day) as Hlt by lia. apply Z.mul_lt_mono_pos_r in Hlt; lia. }
  pose proof (Hm a) as Ha. pose proof (Hm b) as Hb.
  f_equal; apply eq_bool_prop_intro; rewrite !Is_true_true.
  - by rewrite !Z.leb_le.
  - rewrite !Z.ltb_lt. lia.
Qed.

Lemma Ok_inj {E A} (a b : A) : Ok (E:=E) a = Ok b -> a = b.
Proof. by intros [=]. Qed.

(** The day rollup of a window of whole days: days inside are what the minutes say,
    others stay. *)
Lemma RollupRange_total c node day key a b d d' :
  RollupRange ResolutionDay (a * Day) (b * Day) d = Ok d' -> day_of day = day ->
  db_minutes d' = db_minutes d /\
  rollup_total c node day key (db_rollups d') =
  if in_window (a * Day) (b * Day) day then minute_total c node day key (db_minutes d)
  else rollup_total c node day key (db_rollups d).
Proof.
  unfold RollupRange. rewrite (bool_decide_true (ResolutionDay ∈ _)) by set_solver. cbn [negb].
  destruct (_ <=? _); [done|]. destruct (forallb _ _); [|done]. intros <-%Ok_inj Hday. split; [done|].
  cbn [set_rollups db_rollups].
  assert (forall l1 l2, rollup_total c node day key (l1 ++ l2) = rollup_total c node day key l1 + rollup_total c node day key l2) as ->
    by (intros; apply sumZ_app).
  rewrite statements_total. unfold rollup_total, minute_total.
  rewrite (sumZ_filter_split (counted c node day key) (fun r => in_window (a * Day) (b * Day) (mi_bucket r) = true) (db_minutes d)).
  rewrite (sumZ_filter_split (rolled_up c node day key)
    (fun r => ro_resolution r = ResolutionDay /\ in_window (a * Day) (b * Day) (ro_bucket r) = true) (db_rollups d)).
  destruct (in_window (a * Day) (b * Day) day) eqn:Ew.
  - rewrite (sumZ_zero _ (filter (fun r => ~ (ro_resolution r = _ /\ _)) _)).
    + rewrite (sumZ_zero _ (filter (fun r => ~ in_window _ _ _ = true) _)); [lia|].
      intros r [Hr _]%list_elem_of_filter. unfold counted. rewrite bool_decide_false; [done|]. intros (_ & E & _).
      apply Hr. rewrite <- window_day. fold (day_of (mi_bucket r)). rewrite E. done.
    + intros r [Hr _]%list_elem_of_filter. unfold rolled_up. rewrite bool_decide_false; [done|]. intros (E1 & _ & E2 & _).
      apply Hr. by rewrite E2.
  - rewrite (sumZ_zero _ (filter (fun r => in_window _ _ (mi_bucket r) = true) _)).
    + rewrite (sumZ_zero _ (filter (fun r => ro_resolution r = _ /\ _) _)); [lia|].
      intros r [[_ Hr] _]%list_elem_of_filter. unfold rolled_up. rewrite bool_decide_false; [done|].
      intros (_ & _ & E & _). rewrite E in Hr. congruence.
    + intros r [Hr _]%list_elem_of_filter. unfold counted. rewrite bool_decide_false; [done|]. intros (_ & E & _).
      rewrite <- window_day, E in Hr. congruence.
Qed.

(** ** What a cleaning run keeps *)

Record kept_by (cutoff dcut : time) (d d' : db) : Prop := {
  kb_recent c node day key : cutoff <= day -> minute_total c node day key (db_minutes d') = minute_total c node day key (db_minutes d);
  kb_unrolled c node day key : rolled d node day = false -> day_of day = day ->
    minute_total c node day key (db_minutes d') = minute_total c node day key (db_minutes d);
  kb_rollups c node day key : dcut <= day -> rollup_total c node day key (db_rollups d') = rollup_total c node day key (db_rollups d);
  kb_rolled node day : dcut <= day_of day -> rolled d' node day = rolled d node day;
  kb_new node day : rolled d' node day = true -> rolled d node day = true }.

Lemma kept_by_same cutoff dcut d d' : db_minutes d' = db_minutes d -> db_rollups d' = db_rollups d -> kept_by cutoff dcut d d'.
Proof. intros Hm Hr. constructor; unfold rolled; intros; congruence. Qed.

Lemma kept_by_trans cutoff dcut d1 d2 d3 : kept_by cutoff dcut d1 d2 -> kept_by cutoff dcut d2 d3 -> kept_by cutoff dcut d1 d3.
Proof.
  intros [A1 A2 A3 A4 A5] [B1 B2 B3 B4 B5]. constructor.
  - intros. by rewrite B1, A1.
  - intros c node day key Hr Hd. rewrite B2, A2; try done.
    destruct (rolled d2 node day) eqn:E; [|done]. apply A5 in E. congruence.
  - intros. by rewrite B3, A3.
  - intros. by rewrite B4, A4.
  - auto.
Qed.

Lemma rolled_elem d node t : rolled d node t = true <->
  exists r, r ∈ db_rollups d /\ ro_resolution r = ResolutionDay /\ ro_node r = node /\ ro_bucket r = day_of t.
Proof.
  unfold rolled. rewrite existsb_exists. split.
  - intros (r & Hin & [[H1 H2]%andb_true_iff H3]%andb_true_iff). apply list_elem_of_In in Hin.
    apply bool_decide_eq_true in H1, H2. apply Z.eqb_eq in H3. eauto.
  - intros (r & Hin & H1 & H2 & H3). exists r. apply list_elem_of_In in Hin. split; [done|].
    rewrite !andb_true_iff, !bool_decide_eq_true, Z.eqb_eq. done.
Qed.

Section cleaning.
Context (scan : forall A : Type, list A -> list A) (scan_perm : forall A (l : list A), scan A l ≡ₚ l).
Context (cutoff dcut : time).

Abbreviation keeps c c' := (kept_by cutoff dcut (cl_db c) (cl_db c')).

Lemma clean_cleaned {A} table (get : db -> list A) set (P : db -> A -> bool) c :
  (forall rest, cleaned false (P (cl_db c)) (get (cl_db c)) rest -> kept_by cutoff dcut (cl_db c) (set rest (cl_db c))) ->
  keeps c (clean scan table get set P c).
Proof.
  intros Hset. unfold clean. destruct (cl_result c); [|by apply kept_by_same].
  pose proof (deleteBatched_cleaned scan scan_perm (S (length (get (cl_db c)))) table (P (cl_db c)) (cl_faults c) (get (cl_db c)) 0 ltac:(lia)) as Hd.
  destruct (deleteBatched _ _ _ _ _ _ _) as [[[rest total] faults] r]. destruct Hd as (Hd & _). simpl.
  apply Hset. by eapply cleaned_weaken.
Qed.

Lemma clean_other {A} table (get : db -> list A) set (P : db -> A -> bool) c :
  (forall l d, db_minutes (set l d) = db_minutes d) -> (forall l d, db_rollups (set l d) = db_rollups d) ->
  keeps c (clean scan table get set P c).
Proof. intros Hm Hr. apply clean_cleaned. intros rest _. by apply kept_by_same. Qed.

Lemma clean_minute_keeps t c : keeps c (clean_minute scan cutoff t c).
Proof.
  apply clean_cleaned. intros rest Hc.
  assert (forall col node day key, day_of day = day -> cutoff <= day \/ rolled (cl_db c) node day = false ->
    minute_total col node day key rest = minute_total col node day key (db_minutes (cl_db c))) as Hsame.
  { intros col node day key Hday Hor. eapply cleaned_sum; [exact Hc|]. intros r _ He. unfold counted. rewrite bool_decide_false; [done|].
    intros (E1 & E2 & _). unfold expired_minute in He. apply andb_true_iff in He as [[_ Hlt]%andb_true_iff Hr].
    apply Z.ltb_lt in Hlt. pose proof (day_window (mi_bucket r)). destruct Hor as [?|Hor]; [lia|].
    apply rolled_elem in Hr as (x & Hx & Hx1 & Hx2 & Hx3). rewrite <- not_true_iff_false, rolled_elem in Hor. apply Hor.
    exists x. split_and!; [done|done|congruence|congruence]. }
  constructor; cbn [set_minutes db_minutes db_rollups]; try done.
  - intros col node day key Hd. destruct (decide (day_of day = day)) as [E|E]; [by apply Hsame; [|left]|].
    unfold minute_total. rewrite !sumZ_zero; [done|..]; intros r _; unfold counted; rewrite bool_decide_false; try done;
      intros (_ & <- & _); apply E; apply day_of_day.
  - intros col node day key Hr Hd. by apply Hsame; [|right].
Qed.

Lemma clean_rollups_keeps P c : (forall r, P (cl_db c) r = true -> ro_resolution r = ResolutionDay -> ro_bucket r < dcut) ->
  keeps c (clean scan "traffic_rollups" db_rollups set_rollups P c).
Proof.
  intros HP. apply clean_cleaned. intros rest Hc. constructor; cbn [set_rollups db_minutes db_rollups]; try done.
  - intros col node day key Hd. eapply cleaned_sum; [exact Hc|]. intros r _ He. unfold rolled_up.
    rewrite bool_decide_false; [done|]. intros (E1 & _ & E2 & _). specialize (HP r He E1). lia.
  - intros node day Hd. apply eq_bool_prop_intro. rewrite !Is_true_true, !rolled_elem.
    split; intros (r & Hin & H1 & H2 & H3); exists r; (split; [|done]); cbn [set_rollups db_rollups] in *.
    + by eapply cleaned_elem.
    + eapply cleaned_keeps; [exact Hc| |done]. destruct (P (cl_db c) r) eqn:E; [|done]. specialize (HP r E H1). lia.
  - intros node day. rewrite !rolled_elem. intros (r & Hin & Hr). exists r. split; [|done]. by eapply cleaned_elem.
Qed.

Lemma foldl_keeps {T} (f : T -> cleaning -> cleaning) ts c : (forall t c, keeps c (f t c)) -> keeps c (foldl (fun c t => f t c) c ts).
Proof.
  intros Hf. revert c. induction ts as [|t ts IH]; intros c; simpl; [by apply kept_by_same|].
  eapply kept_by_trans; [apply Hf|apply IH].
Qed.
End cleaning.

Lemma Cleanup_keeps scan now settings faults d : (forall A (l : list A), scan A l ≡ₚ l) ->
  kept_by (detail_cutoff now settings) (day_cutoff now settings) d (Cleanup scan now settings faults d).1.1.
Proof.
  intros Hscan. unfold Cleanup. destruct (_ || _); [by apply kept_by_same|]. cbn [fst].
  repeat match goal with
  | |- kept_by _ _ _ (cl_db (clean _ _ _ _ _ ?c)) => eapply kept_by_trans; [|first
      [ apply clean_other; [exact Hscan|done|done]
      | apply clean_rollups_keeps; [exact Hscan|] ] ]
  end.
  all: try (intros r; unfold expired_hour, expired_day; rewrite ?andb_true_iff, ?bool_decide_eq_true, ?Z.ltb_lt;
    intros Hr Hday; destruct_and?; first [done|rewrite Hday in *; done]).
  eapply kept_by_trans; [|apply foldl_keeps; intros; by apply clean_minute_keeps].
  change d with (cl_db (MkCleaning d 0 faults (Ok tt))) at 1. apply foldl_keeps. intros. by apply clean_other.
Qed.

(** ** Histories of the tables *)

Inductive step : Type :=
| Stored (row : minute_row)
| HourRolled (now : time)
| DayRolled (now : time)
| Retained (now : time) (settings : Settings) (faults : list (option fault)).

(** The tables, all rows the store wrote, and those written since a day rollup last
    read their day. *)
Record history : Type := MkHistory { hs_db : db; hs_stored : list minute_row; hs_late : list minute_row }.

Section run.
Context (scan : forall A : Type, list A -> list A).

(** The rows the day rollup at a time reads. *)
Definition read_by_rollup (now : time) (r : minute_row) : Prop :=
  in_window (Truncate now Day - 48 * Hour) (Truncate now Day) (mi_bucket r) = true.

Definition run_step (h : history) (s : step) : history :=
  match s with
  | Stored row =>
      match upsert row (db_minutes (hs_db h)) with
      | Some rows => MkHistory (set_minutes rows (hs_db h)) (row :: hs_stored h) (row :: hs_late h)
      | None => h
      end
  | HourRolled now => MkHistory (match hour_rollup now (hs_db h) with Ok d => d | Err _ => hs_db h end) (hs_stored h) (hs_late h)
  | DayRolled now =>
      match day_rollup now (hs_db h) with
      | Ok d => MkHistory d (hs_stored h) (filter (fun r => in_window (Truncate now Day - 48 * Hour) (Truncate now Day) (mi_bucket r) = false) (hs_late h))
      | Err _ => h
      end
  | Retained now settings faults => MkHistory (Cleanup scan now settings faults (hs_db h)).1.1 (hs_stored h) (hs_late h)
  end.

Definition run_steps (h : history) (steps : list step) : history := foldl run_step h steps.
End run.

Definition step_time (s : step) : option time :=
  match s with Stored _ => None | HourRolled t | DayRolled t | Retained t _ _ => Some t end.

(** The clock never goes back, and retention keeps three days of detail. *)
Fixpoint steps_ok (clock : time) (steps : list step) : Prop :=
  match steps with
  | [] => True
  | s :: rest =>
      clock <= default clock (step_time s) /\
      match s with Retained _ settings _ => 3 <= DetailDays settings | _ => True end /\
      steps_ok (default clock (step_time s)) rest
  end.

Definition final_clock (clock : time) (steps : list step) : time :=
  foldl (fun t s => default t (step_time s)) clock steps.

(** No retention run was past the day with its limit for day totals. *)
Definition within_months (day : time) (steps : list step) : Prop :=
  Forall (fun s => match s with Retained now settings _ => day_cutoff now settings <= day | _ => True end) steps.

Definition empty_history : history := MkHistory (MkDb [] [] [] [] [] []) [] [].

Lemma Truncate_day t : Truncate t Day = day_of t.
Proof.
  unfold Truncate, day_of, date_trunc. rewrite bool_decide_true by done. f_equal.
  replace t with ((t - zero_time) + (-719162) * Day) at 2 by (unfold zero_time, Day, Hour, Minute, Second; lia).
  by rewrite Z.mod_add.
Qed.

Section inv.
Context (scan : forall A : Type, list A -> list A) (scan_perm : forall A (l : list A), scan A l ≡ₚ l).
Context (c : column) (node : string) (day : time) (key : dimension) (Hday : day_of day = day).

Abbreviation minutes h := (minute_total c node day key (db_minutes (hs_db h))).
Abbreviation rollups h := (rollup_total c node day key (db_rollups (hs_db h))).
Abbreviation stored h := (minute_total c node day key (hs_stored h)).
Abbreviation late h := (minute_total c node day key (hs_late h)).

Record Kept (clock : time) (h : history) : Prop := {
  kp_recent : clock - 3 * Day <= day -> minutes h = stored h;
  kp_unrolled : rolled (hs_db h) node day = false -> minutes h = stored h;
  kp_rolled : rolled (hs_db h) node day = true -> rollups h + late h = stored h }.

Lemma RollupRange_minutes resolution a b d d' : RollupRange resolution a b d = Ok d' -> db_minutes d' = db_minutes d.
Proof.
  unfold RollupRange. destruct (negb _); [done|]. destruct (_ <=? _); [done|]. destruct (forallb _ _); [|done].
  by intros <-%Ok_inj.
Qed.

(** The hour rollup touches no day row. *)
Lemma hour_rollup_days now d d' : hour_rollup now d = Ok d' ->
  rollup_total c node day key (db_rollups d') = rollup_total c node day key (db_rollups d) /\ rolled d' node day = rolled d node day.
Proof.
  unfold hour_rollup, RollupRange. rewrite (bool_decide_true (ResolutionHour ∈ _)) by set_solver. cbn [negb].
  destruct (_ <=? _); [done|]. destruct (forallb _ _); [|done]. intros <-%Ok_inj.
  set (rows := filter _ (db_minutes d)). set (start := Truncate now Hour - 2 * Hour). set (end_ := Truncate now Hour).
  assert (forall r, r ∈ statements ≫= rollup_statement ResolutionHour rows -> ro_resolution r = ResolutionHour) as Hbuilt.
  { intros r (p & Hr & _)%list_elem_of_bind. unfold rollup_statement in Hr. apply list_elem_of_fmap in Hr as (k & -> & _). done. }
  assert (forall r, ro_resolution r = ResolutionDay -> ~ (ro_resolution r = ResolutionHour /\ in_window start end_ (ro_bucket r) = true)) as Hkept.
  { intros r E [E' _]. rewrite E in E'. done. }
  split.
  - unfold rollup_total. cbn [set_rollups db_rollups]. rewrite sumZ_app.
    rewrite (sumZ_zero _ (statements ≫= _)).
    + rewrite (sumZ_filter_split _ (fun r => ro_resolution r = ResolutionHour /\ in_window start end_ (ro_bucket r) = true) (db_rollups d)).
      rewrite (sumZ_zero _ (filter (fun r => ro_resolution r = ResolutionHour /\ in_window start end_ (ro_bucket r) = true) _)); [lia|].
      intros r [Hr _]%list_elem_of_filter. unfold rolled_up. rewrite bool_decide_false; [done|]. intros [E _]. by eapply Hkept.
    + intros r Hr%Hbuilt. unfold rolled_up. rewrite bool_decide_false; [done|]. intros [E _]. rewrite E in Hr. done.
  - apply eq_bool_prop_intro. rewrite !Is_true_true, !rolled_elem. cbn [set_rollups db_rollups]. split; intros (r & Hin & H1 & H2).
    + apply elem_of_app in Hin as [[_ Hin]%list_elem_of_filter|Hin%Hbuilt]; [by exists r|]. rewrite H1 in Hin. done.
    + exists r. split; [|done]. apply elem_of_app. left. apply list_elem_of_filter. split; [by apply Hkept|done].
Qed.

Lemma RollupRange_rolled_out a b d d' : RollupRange ResolutionDay a b d = Ok d' -> in_window a b day = false ->
  (forall r, r ∈ db_minutes d -> in_window a b (mi_bucket r) = true -> in_window a b (day_of (mi_bucket r)) = true) ->
  rolled d' node day = rolled d node day.
Proof.
  unfold RollupRange. rewrite (bool_decide_true (ResolutionDay ∈ _)) by set_solver. cbn [negb].
  destruct (_ <=? _); [done|]. destruct (forallb _ _); [|done]. intros <-%Ok_inj Hout Hdays.
  apply eq_bool_prop_intro. rewrite !Is_true_true, !rolled_elem. cbn [set_rollups db_rollups]. rewrite Hday.
  split; intros (r & Hin & H1 & H2 & H3); exists r; (split; [|done]).
  - apply elem_of_app in Hin as [[_ Hin]%list_elem_of_filter|Hin]; [done|]. exfalso.
    apply list_elem_of_bind in Hin as (p & Hr & _). unfold rollup_statement in Hr. apply list_elem_of_fmap in Hr as (k & -> & Hk).
    rewrite elem_of_remove_dups in Hk. apply list_elem_of_fmap in Hk as (x & -> & [_ [Hx Hin]%list_elem_of_filter]%list_elem_of_filter).
    cbn in H3. specialize (Hdays x Hin Hx). unfold day_of in Hdays. rewrite H3 in Hdays. congruence.
  - apply elem_of_app. left. apply list_elem_of_filter. split; [|done]. intros [_ E]. rewrite H3 in E. congruence.
Qed.

Lemma day_rollup_Kept clock now h : clock <= now -> Kept clock h -> Kept now (run_step scan h (DayRolled now)).
Proof.
  intros Hclock [H1 H2 H3]. cbn [run_step]. unfold day_rollup. rewrite Truncate_day.
  destruct (RollupRange _ _ _ (hs_db h)) as [d'|] eqn:E; [|constructor; [intros; apply H1; lia|done..]].
  destruct (day_of_mult now) as [n En]. pose proof (day_window now) as Hnow. rewrite En in *.
  replace (n * Day - 48 * Hour) with ((n - 2) * Day) in * by (unfold Day; lia).
  pose proof (RollupRange_total c node day key (n - 2) n _ _ E Hday) as [Hm Hr].
  destruct (in_window ((n - 2) * Day) (n * Day) day) eqn:Ew.
  - assert (minutes h = stored h) as Hfull.
    { apply H1. unfold in_window in Ew. apply andb_true_iff in Ew as [Ew _]. apply Z.leb_le in Ew. lia. }
    constructor; cbn [hs_db hs_stored hs_late]; rewrite ?Hm; [done|done|]. intros _. rewrite Hr, Hfull.
    unfold minute_total at 2. rewrite sumZ_zero; [lia|]. intros r [Hr' _]%list_elem_of_filter. unfold counted.
    rewrite bool_decide_false; [done|]. intros (_ & E' & _). rewrite <- window_day, E' in Hr'. congruence.
  - assert (rolled d' node day = rolled (hs_db h) node day) as Hrolled.
    { eapply RollupRange_rolled_out; [exact E|done|]. intros r _ Hw. by rewrite window_day. }
    assert (minute_total c node day key (filter (fun r => in_window ((n - 2) * Day) (n * Day) (mi_bucket r) = false) (hs_late h)) = late h) as Hlate.
    { unfold minute_total. rewrite (sumZ_filter_split _ (fun r => in_window ((n - 2) * Day) (n * Day) (mi_bucket r) = false) (hs_late h)).
      rewrite (sumZ_zero _ (filter (fun r => ~ in_window _ _ _ = false) _)); [lia|].
      intros r [Hr' _]%list_elem_of_filter. unfold counted. rewrite bool_decide_false; [done|]. intros (_ & E' & _).
      apply Hr'. by rewrite <- window_day, E'. }
    constructor; cbn [hs_db hs_stored hs_late]; rewrite ?Hm, ?Hrolled, ?Hlate; [intros; apply H1; lia|done|].
    intros Ht. rewrite Hr. by apply H3.
Qed.

Lemma step_Kept clock h s : Kept clock h -> clock <= default clock (step_time s) ->
  match s with Retained now settings _ => 3 <= DetailDays settings /\ day_cutoff now settings <= day | _ => True end ->
  Kept (default clock (step_time s)) (run_step scan h s).
Proof.
  intros HK Hclock Hs. destruct s as [row|now|now|now settings faults]; cbn [step_time default from_option] in *; unfold Datatypes.id in *.
  - destruct HK as [H1 H2 H3]. cbn [run_step]. destruct (upsert row _) as [rows|] eqn:E; [|done].
    pose proof (upsert_total c node day key _ _ _ E) as Hup.
    constructor; cbn [hs_db hs_stored hs_late set_minutes db_minutes db_rollups]; rewrite ?Hup; unfold rolled in *;
      cbn [set_minutes db_rollups] in *; intros Hc; [pose proof (H1 Hc) as Hk|pose proof (H2 Hc) as Hk|pose proof (H3 Hc) as Hk];
      unfold minute_total in *; simpl; lia.
  - destruct HK as [H1 H2 H3]. cbn [run_step]. destruct (hour_rollup now (hs_db h)) as [d'|] eqn:E.
    + pose proof (hour_rollup_days _ _ _ E) as [Hr Ho]. apply RollupRange_minutes in E.
      constructor; cbn [hs_db hs_stored hs_late]; rewrite ?E, ?Hr, ?Ho; [intros; apply H1; lia|done..].
    + constructor; cbn [hs_db hs_stored hs_late]; [intros; apply H1; lia|done..].
  - by eapply day_rollup_Kept.
  - destruct HK as [H1 H2 H3], Hs as [Hdays Hmonths]. cbn [run_step].
    pose proof (Cleanup_keeps scan now settings faults (hs_db h) scan_perm) as [K1 K2 K3 K4 K5].
    assert (detail_cutoff now settings <= now - 3 * Day) as Hcut by (unfold detail_cutoff, Day, Hour, Minute, Second in *; nia).
    rewrite <- Hday in Hmonths. specialize (K4 node day Hmonths). rewrite Hday in Hmonths.
    constructor; cbn [hs_db hs_stored hs_late]; rewrite ?K4.
    + intros Hr. rewrite K1 by lia. apply H1. lia.
    + intros Hr. rewrite K2 by done. by apply H2.
    + intros Hr. rewrite K3 by done. by apply H3.
Qed.

Lemma run_Kept clock h steps : Kept clock h -> steps_ok clock steps -> within_months day steps ->
  Kept (final_clock clock steps) (run_steps scan h steps).
Proof.
  revert clock h. induction steps as [|s steps IH]; intros clock h HK Hok Hm; [done|].
  destruct Hok as (Hc & Hd & Hok). apply Forall_cons in Hm as [Hs Hm].
  exact (IH _ _ (step_Kept clock h s HK Hc ltac:(destruct s; done)) Hok Hm).
Qed.
End inv.

(** C12. The tables lose no traffic: whatever is stored, rolled up and cleaned up in
    whatever order, with statements that fail at any point, a day of a node without a day
    rollup has all its minutes, and one that is rolled up shows everything stored except
    what came after the last rollup that read the day; days less than three days before
    the clock always have all their minutes.  The clock must not go back, the day must be
    inside the months kept, and retention must keep at least three days of detail. *)
Theorem rollups_conserve (scan : forall A : Type, list A -> list A) (clock : time) (steps : list step)
    (c : column) (node : string) (day : time) (key : dimension) :
  (forall A (l : list A), scan A l ≡ₚ l) -> day_of day = day -> steps_ok clock steps -> within_months day steps ->
  let h := run_steps scan empty_history steps in
  let minutes := minute_total c node day key (db_minutes (hs_db h)) in
  let stored := minute_total c node day key (hs_stored h) in
  (if rolled (hs_db h) node day
   then rollup_total c node day key (db_rollups (hs_db h)) + minute_total c node day key (hs_late h) = stored
   else minutes = stored) /\
  (final_clock clock steps - 3 * Day <= day -> minutes = stored).
Proof.
  intros Hscan Hday Hok Hm h minutes stored.
  destruct (run_Kept scan Hscan c node day key Hday clock empty_history steps) as [H1 H2 H3]; [by constructor|done|done|].
  split; [|exact H1]. destruct (rolled _ _ _) eqn:E; auto.
Qed.

(** C40. [deleteBatched] ends: with fuel for the rows of the table and no failing call it
    reports success, deletes exactly the rows that match, in batches of ten thousand
    chosen in any order, and counts them; when a call fails it still deletes no other
    row. *)
Theorem delete_batched_exact {A : Type} (scan : forall B : Type, list B -> list B) (fuel : nat) (table : string)
    (P : A -> bool) (faults : list (option fault)) (l : list A) :
  (forall B (l : list B), scan B l ≡ₚ l) -> (length l < fuel)%nat ->
  let '(rest, total, _, r) := deleteBatched scan fuel table P faults l 0 in
  (Forall (fun f => f = None) faults -> r = Ok tt) /\
  (r = Ok tt -> rest ≡ₚ filter (fun x => P x = false) l /\ total = Z.of_nat (length (filter (fun x => P x = true) l))) /\
  exists kept gone, rest ≡ₚ kept ++ filter (fun x => P x = false) l /\ kept ++ gone ≡ₚ filter (fun x => P x = true) l.
Proof.
  intros Hscan Hl. pose proof (deleteBatched_cleaned scan Hscan fuel table P faults l 0 Hl) as Hd.
  destruct (deleteBatched _ _ _ _ _ _ _) as [[[rest total] faults'] r]. destruct Hd as ((kept & gone & H1 & H2 & H3) & Ht & Hn).
  split_and!; [done| |by exists kept, gone]. intros ->. rewrite (H3 eq_refl) in H1. by rewrite (Ht eq_refl).
Qed.

(** ** Schedules *)

Module DemoRollup.
Definition in_order (A : Type) (l : list A) : list A := l.
(** 2026-07-14 *)
Definition monday : time := 20648 * Day.
Definition day (n : Z) : time := monday + n * Day.
Definition minutes_in (n : Z) (t : duration) (amount : Z) : step :=
  Stored (MkMinute "node-a" (day n + t) (traffic_minute "inbound") (MkCounts amount 1 0 0)).
Definition rolled_at (n : Z) : step := DayRolled (day n + 20 * Minute).
Definition cleaned_at (n : Z) (t : duration) (detail : Z) : step := Retained (day n + t) (MkSettings detail 12) [].

Definition shown (steps : list step) (n : Z) : Z * Z * Z :=
  let h := run_steps in_order empty_history steps in
  (minute_total Bytes "node-a" (day n) (traffic_minute "inbound") (db_minutes (hs_db h)),
   rollup_total Bytes "node-a" (day n) (traffic_minute "inbound") (db_rollups (hs_db h)),
   minute_total Bytes "node-a" (day n) (traffic_minute "inbound") (hs_stored h)).

(** Three days of detail: the minutes of the first day go, its total stays. *)
Definition three_days : list step :=
  [minutes_in 0 (9 * Hour) 100; minutes_in 0 (9 * Hour) 11; HourRolled (day 0 + 11 * Hour); rolled_at 1; minutes_in 1 Hour 5;
   rolled_at 2; cleaned_at 4 (10 * Minute) 3; rolled_at 4].

Example three_days_shown : shown three_days 0 = (0, 111, 111) /\ shown three_days 1 = (5, 5, 5).
Proof. by vm_compute. Qed.

Lemma rollups_conserve_witness :
  steps_ok (day 0) three_days /\ within_months (day 0) three_days /\
  let h := run_steps in_order empty_history three_days in
  rollup_total Bytes "node-a" (day 0) (traffic_minute "inbound") (db_rollups (hs_db h)) +
  minute_total Bytes "node-a" (day 0) (traffic_minute "inbound") (hs_late h) = 111.
Proof.
  assert (steps_ok (day 0) three_days) as Hok by (vm_compute; repeat split; discriminate).
  assert (within_months (day 0) three_days) as Hm.
  { repeat (apply Forall_cons; split; [first [exact I|vm_compute; discriminate]|]). by apply Forall_nil. }
  split; [exact Hok|]. split; [exact Hm|].
  pose proof (rollups_conserve in_order (day 0) three_days Bytes "node-a" (day 0) (traffic_minute "inbound")
    (fun A l => Permutation_refl l) ltac:(vm_compute; reflexivity) Hok Hm) as [H _].
  assert (rolled (hs_db (run_steps in_order empty_history three_days)) "node-a" (day 0) = true) as E by (vm_compute; reflexivity).
  cbv zeta in H |- *. rewrite E in H. etransitivity; [exact H|]. vm_compute. reflexivity.
Defined.

Lemma delete_batched_exact_witness :
  deleteBatched in_order 4 "traffic_minute" (fun x => x <? 3) [] [1; 5; 2] 0 = ([5], 2, [], Ok tt) /\
  [5] ≡ₚ filter (fun x => (x <? 3) = false) [1; 5; 2].
Proof.
  pose proof (delete_batched_exact in_order 4 "traffic_minute" (fun x => x <? 3) [] [1; 5; 2] (fun A l => Permutation_refl l)
    ltac:(simpl; lia)) as H.
  assert (deleteBatched in_order 4 "traffic_minute" (fun x => x <? 3) [] [1; 5; 2] 0 = ([5], 2, [], Ok tt)) as E
    by (vm_compute; reflexivity).
  rewrite E in H. split; [exact E|]. exact (proj1 (proj1 (proj2 H) eq_refl)).
Defined.

(** With one day of detail, the day after a day is rolled up its minutes go, and the
    second rollup of the day finds nothing: its total is gone. *)
Example one_day_loses :
  shown [minutes_in 0 (9 * Hour) 100; rolled_at 1] 0 = (100, 100, 100) /\
  shown [minutes_in 0 (9 * Hour) 100; rolled_at 1; cleaned_at 1 (23 * Hour) 1; rolled_at 2] 0 = (0, 0, 100).
Proof. by vm_compute. Qed.

(** With two days, so do the minutes just after midnight when retention runs before the
    rollup. *)
Example two_days_lose :
  shown [minutes_in 0 Minute 100; minutes_in 0 Hour 7; rolled_at 1; cleaned_at 2 (10 * Minute) 2; rolled_at 2] 0 = (7, 7, 107).
Proof. by vm_compute. Qed.
End DemoRollup.
