(* ===== verification/Process.v ===== *)
(** * The process table

    [internal/agent/process/lookup.go]: what [/proc] says of a process, cached for five
    seconds under its start time, as the [ProcessLookup] the attribution asks.  What a
    read of a file or of the clock gives depends on when it happens: the files change
    under the program, a process ends and another gets its number. *)

From stdpp Require Import base strings numbers gmap list.
From Stdlib Require Import Ascii.
From S2P Require Import Prelude GoBase GoText Ownership.

Open Scope string_scope.
Open Scope Z_scope.
Local Open Scope list_scope.

Definition cacheLifetime : duration := 5 * Second.

(** ** Parsing *)

(** What follows the last [')']. *)
Fixpoint after_last_paren (cs : list ascii) : option (list ascii) :=
  match cs with
  | [] => None
  | c :: rest =>
      match after_last_paren rest with
      | Some r => Some r
      | None => if bool_decide (c = ")"%char) then Some rest else None
      end
  end.

(** [readStartTime], given the contents of the file. *)
Definition readStartTime (contents : option (list ascii)) : option Z :=
  cs ← contents;
  rest ← after_last_paren cs;
  field ← Fields rest !! 19%nat;
  ParseUint field.

(** The third part of [strings.SplitN(line, ":", 3)]. *)
Definition third_part (line : list ascii) : option (list ascii) :=
  p ← Cut colon line; q ← Cut colon p.2; Some q.2.

Definition parseCgroup (contents : list ascii) : string :=
  default "" (head (omap (fun line => match third_part line with Some (c :: rest) => Some (of_chars (c :: rest)) | _ => None end)
                      (split_chars 10 contents))).

Definition slash : ascii := "/"%char.

Fixpoint drop_slashes (rev_cs : list ascii) : list ascii :=
  match rev_cs with
  | c :: rest => if bool_decide (c = slash) then drop_slashes rest else rev_cs
  | [] => []
  end.

Fixpoint before_slash (rev_cs : list ascii) : list ascii :=
  match rev_cs with
  | c :: rest => if bool_decide (c = slash) then [] else c :: before_slash rest
  | [] => []
  end.

(** [filepath.Base] of any path *)
Definition file_base (cs : list ascii) : list ascii :=
  match cs with
  | [] => ["."%char]
  | _ =>
      match before_slash (drop_slashes (reverse cs)) with
      | [] => [slash]
      | l => reverse l
      end
  end.

(** [unicode.IsControl] of the character at the front *)
Definition is_control (rune : list ascii) : bool :=
  match rune with
  | [c] => (code c <? 32) || (code c =? 127)
  | [c; d] => (code c =? 194) && (code d <? 160)
  | _ => false
  end.

(** [strings.Map]: every character, and U+FFFD for a byte that is part of none. *)
Fixpoint map_runes (skip : nat) (cs : list ascii) : list ascii :=
  match skip, cs with
  | S skip, _ :: rest => map_runes skip rest
  | _, [] => []
  | O, _ :: rest =>
      match rune_width cs with
      | Some n => (if is_control (take n cs) then ["?"%char] else take n cs) ++ map_runes (n - 1) rest
      | None => replacement_char ++ map_runes 0 rest
      end
  end.

Definition sanitizeName (value : list ascii) : string :=
  of_chars (take 128 (map_runes 0 (file_base (TrimSpace value)))).

(** ** The cache *)

Inductive proc_file : Type := StatFile | CommFile | CgroupFile.

Record cacheEntry : Type := MkCacheEntry { ce_process : Process; ce_expiresAt : time }.

(** [lk_tick] counts what the program has read so far. *)
Record lookup_state : Type := MkLookup { lk_cache : gmap Z cacheEntry; lk_tick : nat }.

Definition NewLookup : lookup_state := MkLookup ∅ 0.

Section lookup.
(** What a read of a file gives, and of the clock, when so many were read before. *)
Context (read : nat -> Z -> proc_file -> option (list ascii)) (clock : nat -> time).

Definition remove (pid : Z) (tick : nat) (s : lookup_state) : option Process * lookup_state :=
  (None, MkLookup (delete pid (lk_cache s)) tick).

(** The entry that still stands, and how much was read to find out. *)
Definition cached (s : lookup_state) (pid startTime : Z) (tick : nat) : option Process * nat :=
  match lk_cache s !! pid with
  | Some e =>
      if ps_StartTime (ce_process e) =? startTime then
        (if clock tick <? ce_expiresAt e then Some (ce_process e) else None, S tick)
      else (None, tick)
  | None => (None, tick)
  end.

Definition LookupProcess (s : lookup_state) (pid : Z) : option Process * lookup_state :=
  let tick := lk_tick s in
  match readStartTime (read tick pid StatFile) with
  | None => remove pid (S tick) s
  | Some startTime =>
      let '(found, tick) := cached s pid startTime (S tick) in
      match found with
      | Some p => (Some p, MkLookup (lk_cache s) tick)
      | None =>
          match read tick pid CommFile with
          | None => remove pid (S tick) s
          | Some comm =>
              match read (S tick) pid CgroupFile with
              | None => remove pid (S (S tick)) s
              | Some cgroup =>
                  let result := MkProcess pid (sanitizeName comm) (parseCgroup cgroup) startTime in
                  if String.eqb (ps_Name result) "" then (None, MkLookup (lk_cache s) (S (S tick)))
                  else (Some result, MkLookup (<[pid := MkCacheEntry result (clock (S (S tick)) + cacheLifetime)]> (lk_cache s)) (S (S (S tick))))
              end
          end
      end
  end.

(** ** What the cache holds *)

(** A process was read off the files: its start time first, then name and control group. *)
Definition was_read (pid : Z) (p : Process) (t0 t1 : nat) : Prop :=
  exists comm cgroup, ps_PID p = pid /\ (t0 < t1)%nat /\
    readStartTime (read t0 pid StatFile) = Some (ps_StartTime p) /\
    read t1 pid CommFile = Some comm /\ ps_Name p = sanitizeName comm /\
    read (S t1) pid CgroupFile = Some cgroup /\ ps_CgroupPath p = parseCgroup cgroup.

Definition cache_ok (s : lookup_state) : Prop :=
  forall pid e, lk_cache s !! pid = Some e -> exists t0 t1, was_read pid (ce_process e) t0 t1 /\
    (S (S t1) < lk_tick s)%nat /\ ce_expiresAt e = clock (S (S t1)) + cacheLifetime.

Lemma cache_ok_later s tick cache : cache_ok s -> (lk_tick s <= tick)%nat -> cache ⊆ lk_cache s -> cache_ok (MkLookup cache tick).
Proof.
  intros Hs Ht Hc pid e He. destruct (Hs pid e) as (t0 & t1 & H1 & H2 & H3); [by eapply lookup_weaken|].
  exists t0, t1. split_and!; [done|simpl; lia|done].
Qed.

Lemma cached_spec s pid startTime tick p tick' : cached s pid startTime tick = (p, tick') -> (tick <= tick')%nat /\
  forall q, p = Some q -> tick' = S tick /\ exists e, lk_cache s !! pid = Some e /\ ce_process e = q /\ ps_StartTime q = startTime /\ clock tick < ce_expiresAt e.
Proof.
  unfold cached. destruct (lk_cache s !! pid) as [e|] eqn:He; [|intros [= <- <-]; by split].
  destruct (Z.eqb_spec (ps_StartTime (ce_process e)) startTime) as [Hst|]; [|intros [= <- <-]; by split].
  destruct (Z.ltb_spec (clock tick) (ce_expiresAt e)); intros [= <- <-]; (split; [lia|]); [|done].
  intros q [= <-]. split; [done|]. by exists e.
Qed.

(** One lookup: where its answer comes from, and the cache after it. *)
Lemma LookupProcess_spec s pid : cache_ok s ->
  let r := LookupProcess s pid in
  cache_ok r.2 /\ (lk_tick s < lk_tick r.2)%nat /\
  forall p, r.1 = Some p -> readStartTime (read (lk_tick s) pid StatFile) = Some (ps_StartTime p) /\
    ((exists t1, was_read pid p (lk_tick s) t1) \/
     exists t0 t1, was_read pid p t0 t1 /\ (S (S t1) < lk_tick s)%nat /\ clock (S (lk_tick s)) < clock (S (S t1)) + cacheLifetime).
Proof.
  intros Hs. unfold LookupProcess. destruct (readStartTime _) as [startTime|] eqn:Estart.
  2: { cbn [fst snd remove]. split_and!; [|simpl; lia|done]. apply (cache_ok_later s); [done|lia|apply delete_subseteq]. }
  destruct (cached s pid startTime (S (lk_tick s))) as [found tick] eqn:Ec. apply cached_spec in Ec as [Htick Hfound].
  destruct found as [p|].
  { destruct (Hfound p eq_refl) as (-> & e & He & <- & <- & Hclock). cbn [fst snd]. split_and!; [|simpl; lia|].
    - apply (cache_ok_later s); [done|lia|done].
    - intros p [= <-]. split; [done|]. right. destruct (Hs pid e He) as (t0 & t1 & H1 & H2 & H3). exists t0, t1. rewrite <- H3. by split_and!. }
  destruct (read tick pid CommFile) as [comm|] eqn:Ecomm.
  2: { cbn [fst snd remove]. split_and!; [|simpl; lia|done]. apply (cache_ok_later s); [done|lia|apply delete_subseteq]. }
  destruct (read (S tick) pid CgroupFile) as [cgroup|] eqn:Ecgroup.
  2: { cbn [fst snd remove]. split_and!; [|simpl; lia|done]. apply (cache_ok_later s); [done|lia|apply delete_subseteq]. }
  assert (was_read pid (MkProcess pid (sanitizeName comm) (parseCgroup cgroup) startTime) (lk_tick s) tick) as Hread.
  { exists comm, cgroup. split_and!; try done. }
  case_match; cbn [fst snd].
  - split_and!; [|simpl; lia|done]. apply (cache_ok_later s); [done|lia|done].
  - split_and!; [|simpl; lia|].
    + intros pid' e. simpl. rewrite lookup_insert_Some. intros [[<- <-]|[_ He]].
      * exists (lk_tick s), tick. split_and!; [done|simpl; lia|done].
      * destruct (Hs pid' e He) as (t0 & t1 & H1 & H2 & H3). exists t0, t1. split_and!; [done|simpl; lia|done].
    + intros p [= <-]. split; [done|]. left. by exists tick.
Qed.

(** ** Lookups in a row *)

Fixpoint lookups (s : lookup_state) (pids : list Z) : lookup_state :=
  match pids with
  | [] => s
  | pid :: pids => lookups (LookupProcess s pid).2 pids
  end.

Lemma lookups_ok s pids : cache_ok s -> cache_ok (lookups s pids).
Proof. revert s. induction pids as [|pid pids IH]; intros s Hs; [done|]. apply IH. by apply LookupProcess_spec. Qed.

Lemma new_cache_ok : cache_ok NewLookup.
Proof. by intros pid e. Qed.

(** A number that is used again is never taken for the process that had it: after any
    lookups, an answer carries the start time this very lookup has read, with name and
    control group read off the files of that number right after this start time was, in this
    lookup or - from the cache - in one less than five seconds ago. *)
Theorem lookup_current pids pid p : let s := lookups NewLookup pids in
  (LookupProcess s pid).1 = Some p ->
  ps_PID p = pid /\ readStartTime (read (lk_tick s) pid StatFile) = Some (ps_StartTime p) /\
  ((exists t1, was_read pid p (lk_tick s) t1) \/
   exists t0 t1, was_read pid p t0 t1 /\ (S (S t1) < lk_tick s)%nat /\ clock (S (lk_tick s)) < clock (S (S t1)) + cacheLifetime).
Proof.
  intros s E. destruct (LookupProcess_spec s pid) as (_ & _ & H); [apply lookups_ok, new_cache_ok|]. destruct (H p E) as [H1 H2].
  split; [|by split]. destruct H2 as [(t1 & comm & cgroup & Hpid & _)|(t0 & t1 & (comm & cgroup & Hpid & _) & _)]; done.
Qed.

(** ** The interface of the attribution *)

(** There is no process 0 in [/proc]. *)
Context (no_zero : forall tick file, read tick 0 file = None).

Lemma LookupProcess_zero s : (LookupProcess s 0).1 = None.
Proof. unfold LookupProcess. rewrite no_zero. done. Qed.

#[refine] Instance process_lookup : ProcessLookup lookup_state := {|
  Lookup := LookupProcess; lookup_ok := cache_ok |}.
Proof.
  - intros s pid Hs. by apply LookupProcess_spec.
  - intros s pid p Hs E. destruct (LookupProcess_spec s pid Hs) as (_ & _ & H). destruct (H p E) as [_ Hr].
    by destruct Hr as [(t1 & comm & cgroup & Hpid & _)|(t0 & t1 & (comm & cgroup & Hpid & _) & _)].
  - intros s _. apply LookupProcess_zero.
Defined.
End lookup.

(** ** [/proc/pid/stat] *)

Lemma Fields_line ws : Forall is_word ws -> Fields (join_space ws ++ [newline]) = ws.
Proof.
  unfold Fields. induction 1 as [|w ws [Hn Hp] _ IH]; [done|]. destruct ws as [|w' ws].
  - simpl join_space. rewrite fields_from_word by done. simpl. by destruct w.
  - change (join_space (w :: w' :: ws) ++ [newline]) with ((w ++ space :: join_space (w' :: ws)) ++ [newline]).
    rewrite <- app_assoc, fields_from_word by done. cbn [app fields_from].
    change (space_width (space :: _)) with 1%nat. destruct w; [done|]. by rewrite IH.
Qed.

Lemma after_last_paren_none cs : ")"%char ∉ cs -> after_last_paren cs = None.
Proof.
  induction cs as [|c cs IH]; [done|]. rewrite not_elem_of_cons. intros [Hc Hn]. simpl. rewrite IH by done. by rewrite bool_decide_false.
Qed.

Lemma after_last_paren_app a b : ")"%char ∉ b -> after_last_paren (a ++ ")"%char :: b) = Some b.
Proof.
  intros Hb. induction a as [|c a IH]; simpl; [by rewrite after_last_paren_none|]. by rewrite IH.
Qed.

(** The line the kernel writes: number, name in parentheses, and the other fields. *)
Definition stat_line (pid : Z) (comm : list ascii) (fields : list (list ascii)) : list ascii :=
  format_uint pid ++ space :: "("%char :: comm ++ ")"%char :: space :: join_space fields ++ [newline].

(** The start time is read off the line whatever the name is, parentheses, blanks and line
    ends included: the fields are counted from the last closing parenthesis. *)
Theorem stat_roundtrip pid comm fields start : 0 <= start <= max_u64 -> Forall is_word fields -> Forall (fun w => ")"%char ∉ w) fields ->
  fields !! 19%nat = Some (format_uint start) -> readStartTime (Some (stat_line pid comm fields)) = Some start.
Proof.
  intros Hs Hw Hp Hf. unfold readStartTime, stat_line. cbn [mbind option_bind].
  replace (format_uint pid ++ space :: "("%char :: comm ++ ")"%char :: space :: join_space fields ++ [newline])
    with ((format_uint pid ++ space :: "("%char :: comm) ++ ")"%char :: space :: join_space fields ++ [newline]) by by rewrite <- app_assoc.
  rewrite after_last_paren_app.
  - cbn [mbind option_bind]. rewrite Fields_space, Fields_line by done. rewrite Hf. cbn [mbind option_bind]. by apply ParseUint_format.
  - rewrite not_elem_of_cons, not_elem_of_app. split_and!; [done| |by apply not_elem_of_cons; split; [|by apply not_elem_of_nil]].
    by apply not_in_join_space.
Qed.

Module DemoProcess.
Definition stat (start : Z) : list ascii := stat_line 42 (chars "a) b (c") (replicate 19 (chars "S") ++ [format_uint start]).

Lemma stat_roundtrip_witness : readStartTime (Some (stat 8675309)) = Some 8675309.
Proof.
  apply (stat_roundtrip 42 (chars "a) b (c") (replicate 19 (chars "S") ++ [format_uint 8675309])).
  - unfold max_u64. lia.
  - apply (bool_decide_unpack _). vm_compute. exact I.
  - apply (bool_decide_unpack _). vm_compute. exact I.
  - reflexivity.
Defined.

(** Number 42 belongs to [nginx], then to [curl]; the name is read after the change. *)
Definition read (tick : nat) (pid : Z) (file : proc_file) : option (list ascii) :=
  if negb (pid =? 42) then None
  else match file with
       | StatFile => Some (stat (if (tick <? 8)%nat then 100 else 200))
       | CommFile => Some (chars (if (tick <? 7)%nat then "nginx" else "curl"))
       | CgroupFile => Some (chars "0::/system.slice/web.service")
       end.

Definition clock (tick : nat) : time := Z.of_nat tick * Second.

Definition s1 := (LookupProcess read clock NewLookup 42).2.

Lemma lookup_current_witness : exists p, (LookupProcess read clock s1 42).1 = Some p /\
  readStartTime (read (lk_tick s1) 42 StatFile) = Some (ps_StartTime p).
Proof.
  destruct (LookupProcess read clock (lookups read clock NewLookup [42]) 42).1 as [p|] eqn:E; [|vm_compute in E; discriminate E].
  exists p. split; [exact E|]. apply (lookup_current read clock [42] 42 p E).
Defined.

(** The start time comes first: when the number changes hands between the reads, the new
    name is given with the old start time, once. *)
Definition slow (tick : nat) (pid : Z) (file : proc_file) : option (list ascii) :=
  match file with
  | StatFile => Some (stat (if (tick <? 1)%nat then 100 else 200))
  | CommFile => Some (chars "curl")
  | CgroupFile => Some (chars "0::/")
  end.

Example changed_hands :
  (LookupProcess slow clock NewLookup 42).1 = Some (MkProcess 42 "curl" "/" 100) /\
  (LookupProcess slow clock (LookupProcess slow clock NewLookup 42).2 42).1 = Some (MkProcess 42 "curl" "/" 200).
Proof. vm_compute. done. Qed.

(** A name is not a path: what stands before a slash is lost, and a blank name becomes a
    dot rather than no process. *)
Example worker_name : sanitizeName (chars "kworker/u8:2") = "u8:2".
Proof. reflexivity. Qed.
Example blank_name : sanitizeName (chars "  ") = ".".
Proof. reflexivity. Qed.
End DemoProcess.
