(* ===== verification/Docker.v ===== *)
(** * The inventory of containers

    [internal/agent/docker/inventory.go]: the running containers with their control
    groups, addresses and ports, as the snapshot attribution works with.  The Docker API
    answers call by call; what it answers, and what the host says of a process, are
    arguments, by the position of the call: containers come and go between the calls. *)

From stdpp Require Import base strings numbers gmap list sorting.
From Stdlib Require Import Ascii.
From S2P Require Import Prelude GoBase GoText GoModel FlowDecode NetipString GoPath Regex Process Ownership.

Open Scope string_scope.
Open Scope Z_scope.
Local Open Scope list_scope.
Local Open Scope flow_scope.

(** ** What the API answers

    The fields the package uses; a map comes as the list of its entries in the order an
    iteration visits them, an address that is not valid as [AddrZero]. *)

Record Summary : Type := MkSummary { sm_ID : string; sm_State : string }.

Record ProcState : Type := MkProcState { st_Running : bool; st_Pid : Z }.

Record EndpointSettings : Type := MkEndpointSettings { es_IPAddress : netip_addr; es_GlobalIPv6Address : netip_addr }.

Record InspectResponse : Type := MkInspect {
  in_ID : string; in_Name : string; in_State : option ProcState;
  in_Networks : option (list (option EndpointSettings));
  in_ExposedPorts : option (list Z) }.

Definition StateRunning : string := "running".

(** [docker.Cgroup] *)
Record Cgroup : Type := MkCgroup { cg_ID : Z; cg_Path : string }.

(** ** Control group paths *)

Definition hex_lower (c : ascii) : bool := ((48 <=? code c) && (code c <=? 57)) || ((97 <=? code c) && (code c <=? 102)).

(** [containerCgroupPattern] up to its last part ... *)
Definition containerCgroupPattern : regex :=
  RCat [RAlt (RText "docker/") (RText "docker-"); RGroup (RTimes 64 (RClass hex_lower)); ROpt (RText ".scope")].

(** ... which is the end of the path or a slash. *)
Definition path_ends (rest : list ascii) : bool :=
  match rest with
  | [] => true
  | c :: _ => bool_decide (c = path_slash)
  end.

Definition cgroup_front (cs : list ascii) : option (list (list ascii)) :=
  match_at containerCgroupPattern cs [] (fun rest groups => if path_ends rest then Some groups else None).

Fixpoint cgroup_submatch (cs : list ascii) : option (list (list ascii)) :=
  match cgroup_front cs with
  | Some groups => Some groups
  | None => match cs with [] => None | _ :: cs' => cgroup_submatch cs' end
  end.

Definition ContainerIDFromCgroupPath (path : string) : option string :=
  match cgroup_submatch (chars path) with
  | Some [id] => Some (of_chars id)
  | _ => None
  end.

Definition TrimPrefix (s p : string) : string := of_chars (if has_prefix s p then drop (length (chars p)) (chars s) else chars s).

(** [ResolveHostCgroup], given what reading [procRoot/pid/cgroup] and a [stat] of a path give *)
Definition ResolveHostCgroup (read_cgroup : Z -> result string (list ascii)) (stat : string -> result string Z)
  (cgroupRoot : string) (pid : Z) : result string Cgroup :=
  let* contents := read_cgroup pid in
  let path := parseCgroup contents in
  let* _ := guard_err (negb (String.eqb path "")) "process has no cgroup path" in
  let* ino := stat (Join cgroupRoot (TrimPrefix path "/")) in
  Ok (MkCgroup ino path).

(** ** Containers *)

Definition valid_string (a : netip_addr) : list string := if IsValid a then [addr_string a] else [].

Definition containerAddresses (value : InspectResponse) : list string :=
  sort_strings (default [] (in_Networks value) ≫= fun endpoint =>
    match endpoint with
    | None => []
    | Some e => valid_string (es_IPAddress e) ++ valid_string (es_GlobalIPv6Address e)
    end).

Definition containerPorts (value : InspectResponse) : list Z := merge_sort Z.le (default [] (in_ExposedPorts value)).

(** Does the text hold a colon? *)
Definition has_colon (host : string) : bool := existsb (fun c => bool_decide (c = colon)) (chars host).

(** [net.JoinHostPort] with [strconv.Itoa] of the port *)
Definition JoinHostPort (host : string) (port : Z) : string :=
  of_chars (if has_colon host
            then "["%char :: chars host ++ "]"%char :: colon :: format_uint port
            else chars host ++ colon :: format_uint port).

Section inventory.
Context (ContainerList : result string (list Summary))
  (ContainerInspect : nat -> string -> result string InspectResponse)
  (resolve : nat -> Z -> result string Cgroup).

(** The process of an inspected container, if it still runs. *)
Definition running_pid (value : InspectResponse) : option Z :=
  match in_State value with
  | Some s => if st_Running s && (0 <? st_Pid s) then Some (st_Pid s) else None
  | None => None
  end.

(** Does the path belong to another container? *)
Definition foreign (cgroup : Cgroup) (value : InspectResponse) : bool :=
  match ContainerIDFromCgroupPath (cg_Path cgroup) with
  | Some id => negb (String.eqb id (in_ID value))
  | None => false
  end.

Definition owner_of (value : InspectResponse) (cgroup : Cgroup) : Container :=
  MkContainer (in_ID value) (TrimPrefix (in_Name value) "/") (cg_ID cgroup) (containerAddresses value) (containerPorts value) true.

(** One round of the loop: the container of the [i]th summary, if it counts. *)
Definition survey (i : nat) (summary : Summary) : result string (option Container) :=
  if negb (String.eqb (sm_State summary) StateRunning) then Ok None
  else
    let* value := ContainerInspect i (sm_ID summary) in
    match running_pid value with
    | None => Ok None
    | Some pid =>
        let* cgroup := resolve i pid in
        let* _ := guard_err (negb (foreign cgroup value)) "container cgroup belongs to another" in
        Ok (Some (owner_of value cgroup))
    end.

Definition endpoints (c : Container) : list string := ct_Addresses c ≫= fun address => JoinHostPort address <$> ct_Ports c.

Definition add_endpoints (owner : Container) (m : gmap string Container) : gmap string Container :=
  foldl (fun m key => <[key := owner]> m) m (endpoints owner).

Definition add_owner (owner : Container) (s : Snapshot) : Snapshot :=
  MkSnapshot (<[ct_CgroupID owner := owner]> (ByCgroup s)) (<[ct_ID owner := owner]> (ByID s)) (add_endpoints owner (ByEndpoint s)).

Fixpoint refresh_items (i : nat) (items : list Summary) (s : Snapshot) : result string Snapshot :=
  match items with
  | [] => Ok s
  | summary :: items =>
      let* owner := survey i summary in
      refresh_items (S i) items (match owner with Some owner => add_owner owner s | None => s end)
  end.

Definition Refresh : result string Snapshot :=
  let* items := ContainerList in
  refresh_items 0 items (MkSnapshot ∅ ∅ ∅).
End inventory.

(** ** Indexing

    A later owner of a key takes it over. *)

Definition index {K} `{Countable K} {A} (keys : A -> list K) (owners : list A) (m : gmap K A) : gmap K A :=
  foldl (fun m owner => foldl (fun m key => <[key := owner]> m) m (keys owner)) m owners.

Lemma lookup_index {K} `{Countable K} {A} (keys : A -> list K) owners (m : gmap K A) k :
  index keys owners m !! k =
  match last (filter (fun o => k ∈ keys o) owners) with Some o => Some o | None => m !! k end.
Proof.
  unfold index. induction owners as [|o owners IH] using rev_ind; [done|].
  rewrite foldl_app, filter_app, filter_cons, filter_nil. cbn [foldl]. revert IH.
  generalize (foldl (fun m owner => foldl (fun m key => <[key := owner]> m) m (keys owner)) m owners). intros m' IH.
  assert (forall l (m : gmap K A), foldl (fun m key => <[key := o]> m) m l !! k = if decide (k ∈ l) then Some o else m !! k) as Hk.
  { induction l as [|x l IHl] using rev_ind; intros m1; [by rewrite decide_False by apply not_elem_of_nil|].
    rewrite foldl_app. cbn [foldl]. destruct (decide (k = x)) as [<-|Hne].
    - rewrite lookup_insert_eq, decide_True by (apply elem_of_app; right; by constructor). done.
    - rewrite lookup_insert_ne, IHl by done. destruct (decide (k ∈ l)) as [Hl|Hl].
      + by rewrite decide_True by (apply elem_of_app; by left).
      + rewrite decide_False; [done|]. rewrite elem_of_app, list_elem_of_singleton. tauto. }
  rewrite Hk. destruct (decide (k ∈ keys o)); [by rewrite last_snoc|by rewrite app_nil_r, IH].
Qed.

(** ** Endpoints *)

Lemma JoinHostPort_inj a b p q : 0 <= p <= max_u64 -> 0 <= q <= max_u64 ->
  JoinHostPort a p = JoinHostPort b q -> a = b /\ p = q.
Proof.
  intros Hp Hq E. apply (f_equal chars) in E. unfold JoinHostPort in E. rewrite !chars_of_chars in E.
  set (host := fun s => if has_colon s then "["%char :: chars s ++ ["]"%char] else chars s).
  assert (forall s port, (if has_colon s
            then "["%char :: chars s ++ "]"%char :: colon :: format_uint port
            else chars s ++ colon :: format_uint port) = host s ++ colon :: format_uint port) as Hh.
  { intros s port. unfold host. destruct (has_colon s); [|done]. simpl. by rewrite <- app_assoc. }
  rewrite !Hh in E. apply not_elem_of_app_cons_inv_r in E as (E1 & _ & E2); [|apply format_uint_no_colon; lia..].
  split.
  - assert (forall s, has_colon s = true <-> colon ∈ chars s) as Hex.
    { intros s. unfold has_colon. rewrite existsb_exists. setoid_rewrite bool_decide_eq_true. split; [intros (x & Hx & ->); by apply list_elem_of_In|intros Hx; exists colon; split; [by apply list_elem_of_In|done]]. }
    unfold host in E1. destruct (has_colon a) eqn:Ea, (has_colon b) eqn:Eb.
    + injection E1 as E1. apply app_inj_tail in E1 as [E1 _]. apply (f_equal of_chars) in E1. by rewrite !of_chars_chars in E1.
    + apply Hex in Ea. assert (colon ∈ chars b) as Hb by (rewrite <- E1; set_solver). apply Hex in Hb. congruence.
    + apply Hex in Eb. assert (colon ∈ chars a) as Ha by (rewrite E1; set_solver). apply Hex in Ha. congruence.
    + apply (f_equal of_chars) in E1. by rewrite !of_chars_chars in E1.
  - apply (f_equal ParseUint) in E2. rewrite !ParseUint_format in E2 by done. congruence.
Qed.

(** ** What a refresh finds *)

Section refresh.
Context (ContainerList : result string (list Summary))
  (ContainerInspect : nat -> string -> result string InspectResponse)
  (resolve : nat -> Z -> result string Cgroup).

(** The [i]th summary is that of a container which runs, with a control group that its
    path does not give to another. *)
Definition found (i : nat) (summary : Summary) (value : InspectResponse) (cgroup : Cgroup) : Prop :=
  sm_State summary = StateRunning /\ ContainerInspect i (sm_ID summary) = Ok value /\
  (exists pid, running_pid value = Some pid /\ resolve i pid = Ok cgroup) /\
  forall id, ContainerIDFromCgroupPath (cg_Path cgroup) = Some id -> id = in_ID value.

Lemma foreign_spec cgroup value : foreign cgroup value = false <->
  forall id, ContainerIDFromCgroupPath (cg_Path cgroup) = Some id -> id = in_ID value.
Proof.
  unfold foreign. destruct (ContainerIDFromCgroupPath _) as [id|]; [|done].
  rewrite negb_false_iff, String.eqb_eq. naive_solver.
Qed.

Lemma survey_found i summary o : survey ContainerInspect resolve i summary = Ok (Some o) <->
  exists value cgroup, found i summary value cgroup /\ o = owner_of value cgroup.
Proof.
  unfold survey, found. destruct (String.eqb_spec (sm_State summary) StateRunning) as [Es|Es]; cbn [negb].
  2: { split; [done|]. by intros (v & c & (? & _) & _). }
  destruct (ContainerInspect i (sm_ID summary)) as [value|e]; cbn [result_bind].
  2: { split; [done|]. by intros (v & c & (_ & ? & _) & _). }
  destruct (running_pid value) as [pid|] eqn:Ep.
  2: { split; [done|]. intros (v & c & (_ & [= <-] & (p & Hp & _) & _) & _). congruence. }
  destruct (resolve i pid) as [cgroup|e] eqn:Er; cbn [result_bind].
  2: { split; [done|]. intros (v & c & (_ & [= <-] & (p & Hp & Hr) & _) & _). congruence. }
  destruct (foreign cgroup value) eqn:Ef; cbn [negb guard_err result_bind].
  - split; [done|]. intros (v & c & (_ & [= <-] & (p & Hp & Hr) & Hid) & _). rewrite Ep in Hp. injection Hp as <-.
    rewrite Er in Hr. injection Hr as <-. apply foreign_spec in Hid. congruence.
  - rewrite foreign_spec in Ef. split.
    + intros [= <-]. exists value, cgroup. split_and!; eauto.
    + intros (v & c & (_ & [= <-] & (p & Hp & Hr) & Hid) & ->). rewrite Ep in Hp. injection Hp as <-. rewrite Er in Hr. by injection Hr as <-.
Qed.

(** The containers of a round in the order of the list. *)
Fixpoint surveyed (i : nat) (items : list Summary) : list Container :=
  match items with
  | [] => []
  | summary :: items =>
      match survey ContainerInspect resolve i summary with Ok (Some o) => [o] | _ => [] end ++ surveyed (S i) items
  end.

Lemma surveyed_in i items o : o ∈ surveyed i items <->
  exists j summary value cgroup, items !! j = Some summary /\ found (i + j) summary value cgroup /\ o = owner_of value cgroup.
Proof.
  revert i. induction items as [|summary items IH]; intros i; cbn [surveyed].
  { rewrite elem_of_nil. split; [done|]. by intros (j & ? & ? & ? & ? & _). }
  rewrite elem_of_app, IH. split.
  - intros [H|(j & s & v & c & H1 & H2 & H3)].
    + destruct (survey _ _ i summary) as [[o'|]|] eqn:E; [|by apply elem_of_nil in H..]. apply list_elem_of_singleton in H as ->.
      apply survey_found in E as (v & c & Hf & ->). exists 0%nat, summary, v, c. by rewrite Nat.add_0_r.
    + exists (S j), s, v, c. by rewrite Nat.add_succ_r.
  - intros ([|j] & s & v & c & H1 & H2 & H3).
    + left. injection H1 as <-. rewrite Nat.add_0_r in H2. assert (survey ContainerInspect resolve i summary = Ok (Some o)) as ->; [|by constructor].
      apply survey_found. eauto.
    + right. exists j, s, v, c. by rewrite Nat.add_succ_r in H2.
Qed.

Lemma refresh_items_ok i items s snapshot : refresh_items ContainerInspect resolve i items s = Ok snapshot ->
  snapshot = foldl (fun s o => add_owner o s) s (surveyed i items).
Proof.
  revert i s. induction items as [|summary items IH]; intros i s; cbn [refresh_items surveyed]; [by intros [= <-]|].
  destruct (survey _ _ i summary) as [o|e]; cbn [result_bind]; [|done]. intros ->%IH. destruct o; [|done]. done.
Qed.

Lemma refresh_items_fails i items s e : refresh_items ContainerInspect resolve i items s = Err e ->
  exists j summary, items !! j = Some summary /\ survey ContainerInspect resolve (i + j) summary = Err e.
Proof.
  revert i s. induction items as [|summary items IH]; intros i s; cbn [refresh_items]; [done|].
  destruct (survey _ _ i summary) as [o|e'] eqn:Es; cbn [result_bind].
  - intros (j & x & Hj & Hx)%IH. exists (S j), x. by rewrite Nat.add_succ_r.
  - intros [= ->]. exists 0%nat, summary. by rewrite Nat.add_0_r.
Qed.

Lemma refresh_items_stops i items s j summary e : items !! j = Some summary ->
  survey ContainerInspect resolve (i + j) summary = Err e -> is_ok (refresh_items ContainerInspect resolve i items s) = false.
Proof.
  revert i s j. induction items as [|x items IH]; intros i s [|j] Hj He; try done; cbn [refresh_items].
  - injection Hj as ->. rewrite Nat.add_0_r in He. by rewrite He.
  - destruct (survey _ _ i x) as [o|]; [|done]. cbn [result_bind]. apply (IH _ _ j); [done|]. by rewrite Nat.add_succ_r in He.
Qed.

Lemma add_owners owners s :
  foldl (fun s o => add_owner o s) s owners =
  MkSnapshot (index (fun o => [ct_CgroupID o]) owners (ByCgroup s)) (index (fun o => [ct_ID o]) owners (ByID s)) (index endpoints owners (ByEndpoint s)).
Proof. revert s. induction owners as [|o owners IH]; intros []; [done|]. cbn [foldl]. by rewrite IH. Qed.

(** Ports are 16-bit numbers. *)
Definition ports_fit : Prop :=
  forall i id value ports, ContainerInspect i id = Ok value -> in_ExposedPorts value = Some ports -> Forall (in_u 16) ports.

Lemma owner_ports i summary value cgroup : ports_fit -> found i summary value cgroup -> Forall (in_u 16) (ct_Ports (owner_of value cgroup)).
Proof.
  intros Hp (_ & Hi & _). simpl. unfold containerPorts. rewrite merge_sort_Permutation.
  destruct (in_ExposedPorts value) as [ports|] eqn:E; [by eapply Hp|constructor].
Qed.

Lemma endpoints_in address port o : in_u 16 port -> Forall (in_u 16) (ct_Ports o) ->
  JoinHostPort address port ∈ endpoints o <-> address ∈ ct_Addresses o /\ port ∈ ct_Ports o.
Proof.
  unfold in_u. intros Hp Ho. unfold endpoints. rewrite list_elem_of_bind. setoid_rewrite list_elem_of_fmap. split.
  - intros (a & (p & E & Hin) & Ha). rewrite Forall_forall in Ho. pose proof (Ho p Hin).
    apply JoinHostPort_inj in E as [-> ->]; [done|unfold max_u64; lia..].
  - intros [Ha Hin]. exists address. split; [|done]. by exists port.
Qed.

Lemma filter_same {A} (P Q : A -> Prop) `{forall x, Decision (P x), forall x, Decision (Q x)} (l : list A) :
  (forall x, x ∈ l -> P x <-> Q x) -> filter P l = filter Q l.
Proof.
  induction l as [|x l IH]; intros HPQ; [done|]. rewrite !filter_cons, IH by (intros; apply HPQ; by constructor).
  destruct (HPQ x ltac:(constructor)) as [H1 H2]. destruct (decide (P x)), (decide (Q x)); tauto.
Qed.

(** C32. A refresh succeeds exactly when the list could be read, every running container
    could be inspected, its control group resolved, and no control group is one whose path
    names another container.  The snapshot then holds exactly the containers found running,
    under their identifier, their control group and each of their endpoints; where two
    share a key, the later one. *)
Theorem refresh_indexes : ports_fit ->
  (is_ok (Refresh ContainerList ContainerInspect resolve) = true <->
     exists items, ContainerList = Ok items /\
       forall i summary, items !! i = Some summary -> is_ok (survey ContainerInspect resolve i summary) = true) /\
  forall snapshot, Refresh ContainerList ContainerInspect resolve = Ok snapshot ->
    exists items owners, ContainerList = Ok items /\
      (forall o, o ∈ owners <-> exists i summary value cgroup, items !! i = Some summary /\ found i summary value cgroup /\ o = owner_of value cgroup) /\
      (forall id, ByID snapshot !! id = last (filter (fun o => ct_ID o = id) owners)) /\
      (forall cgroup, ByCgroup snapshot !! cgroup = last (filter (fun o => ct_CgroupID o = cgroup) owners)) /\
      (forall address port, in_u 16 port -> ByEndpoint snapshot !! JoinHostPort address port =
         last (filter (fun o => address ∈ ct_Addresses o /\ port ∈ ct_Ports o) owners)).
Proof.
  intros Hports. unfold Refresh. destruct ContainerList as [items|e]; cbn [result_bind].
  2: { split; [|done]. split; [done|]. by intros (? & ? & _). }
  split.
  - split.
    + intros Hok. exists items. split; [done|]. intros i summary Hi. destruct (survey _ _ i summary) as [o|e] eqn:E; [done|].
      by rewrite (refresh_items_stops 0 items _ i summary e Hi E) in Hok.
    + intros (items' & [= <-] & Hall). destruct (refresh_items _ _ 0 items _) as [s|e] eqn:E; [done|].
      apply refresh_items_fails in E as (j & summary & Hj & E). specialize (Hall j summary Hj). simpl in E. by rewrite E in Hall.
  - intros snapshot E. apply refresh_items_ok in E. rewrite add_owners in E. subst. simpl.
    assert (forall x : option Container, match x with Some o => Some o | None => None end = x) as Hsome by by intros [].
    exists items, (surveyed 0 items). split_and!; [done|apply (surveyed_in 0)|..]; intros; rewrite lookup_index, lookup_empty.
    + rewrite Hsome. f_equal. apply filter_same. intros o _. simpl. rewrite list_elem_of_singleton. naive_solver.
    + rewrite Hsome. f_equal. apply filter_same. intros o _. simpl. rewrite list_elem_of_singleton. naive_solver.
    + rewrite Hsome. f_equal. apply filter_same. intros o Ho. apply endpoints_in; [done|].
      apply (surveyed_in 0) in Ho as (j & summary & value & cgroup & _ & Hf & ->). by eapply owner_ports.
Qed.

(** What the attribution and the inventory events need of a snapshot. *)
Definition inspect_ok : Prop := forall i id value, ContainerInspect i id = Ok value ->
  in_ID value <> "" /\ Forall (fun p => 0 < p) (default [] (in_ExposedPorts value)) /\
  Forall (fun e => match e with
    | Some e => (es_IPAddress e = AddrZero \/ addr_wf (es_IPAddress e)) /\ (es_GlobalIPv6Address e = AddrZero \/ addr_wf (es_GlobalIPv6Address e))
    | None => True end) (default [] (in_Networks value)).

Lemma valid_string_ok a : a = AddrZero \/ addr_wf a -> Forall addr_ok (valid_string a).
Proof.
  intros [->|H]; [constructor|]. unfold valid_string. destruct (IsValid a) eqn:E; [|constructor].
  constructor; [|constructor]. pose proof (parse_addr_string a H) as Hp. destruct a as [|b|b]; [done|..]; by eexists.
Qed.

Lemma owner_ok i summary value cgroup : inspect_ok -> found i summary value cgroup -> container_ok (owner_of value cgroup).
Proof.
  intros Hok (_ & Hi & _). destruct (Hok _ _ _ Hi) as (Hid & Hp & Ha). split_and!; simpl; [done|..].
  - unfold containerAddresses. rewrite sort_strings_perm. apply Forall_bind. eapply Forall_impl; [exact Ha|].
    intros [e|] H; [|constructor]. destruct H. apply Forall_app. split; by apply valid_string_ok.
  - unfold containerPorts. rewrite merge_sort_Permutation. eapply Forall_impl; [exact Hp|]. simpl. lia.
Qed.

Lemma refresh_snapshot_ok snapshot : inspect_ok -> Refresh ContainerList ContainerInspect resolve = Ok snapshot -> snapshot_ok snapshot.
Proof.
  intros Hok. unfold Refresh. destruct ContainerList as [items|e]; [|done]. cbn [result_bind]. intros E%refresh_items_ok.
  rewrite add_owners in E. subst. split; simpl; intros k o; rewrite lookup_index, lookup_empty;
    (destruct (last _) as [o'|] eqn:El; [|done]); intros [= ->]; apply last_Some_elem_of, list_elem_of_filter in El as [_ Ho];
    apply (surveyed_in 0) in Ho as (j & summary & value & cgroup & _ & Hf & ->); by eapply owner_ok.
Qed.
End refresh.

(** ** The identifier in a path *)

Lemma matches_alt a b w g : matches (RAlt a b) w g -> matches a w g \/ matches b w g.
Proof. inversion 1; subst; auto. Qed.

(** The text of a path from where the pattern matches. *)
Inductive names_container (id : list ascii) : list ascii -> Prop :=
| Names kind suffix rest : kind ∈ ["docker/"; "docker-"] -> length id = 64%nat -> Forall (fun c => hex_lower c = true) id ->
    suffix ∈ [""; ".scope"] -> path_ends rest = true -> names_container id (chars kind ++ id ++ chars suffix ++ rest).

Lemma cgroup_front_sound cs groups : cgroup_front cs = Some groups -> exists id, groups = [id] /\ names_container id cs.
Proof.
  intros E. apply match_at_sound in E as (w & rest & g & -> & Hm & E).
  destruct (path_ends rest) eqn:Hr; [|done]. injection E as <-.
  unfold containerCgroupPattern in Hm.
  apply matches_cat_cons in Hm as (wk & w1 & gk & g1 & -> & -> & Hk & Hm). apply matches_cat_cons in Hm as (wi & w2 & gi & g2 & -> & -> & Hi & Hm).
  apply matches_cat_cons in Hm as (ws & we & gs & ge & -> & -> & Hs & He). apply matches_cat_nil in He as [-> ->].
  apply matches_group in Hi as (gw & Hw & ->). apply matches_times_class in Hw as (Hl & Hh & ->).
  exists wi. assert (gk = [] /\ exists kind, wk = chars kind /\ kind ∈ ["docker/"; "docker-"]) as (-> & kind & -> & Hkind).
  { apply matches_alt in Hk as [Ha|Ha]; apply matches_text in Ha as [-> ->]; (split; [done|]).
    - exists "docker/". split; [done|by repeat constructor].
    - exists "docker-". split; [done|by repeat constructor]. }
  assert (gs = [] /\ exists suffix, ws = chars suffix /\ suffix ∈ [""; ".scope"]) as (-> & suffix & -> & Hsuffix).
  { apply matches_alt in Hs as [Ha|Ha].
    - apply matches_text in Ha as [-> ->]. split; [done|]. exists ".scope". split; [done|by repeat constructor].
    - inversion Ha; subst. split; [done|]. exists "". split; [done|by repeat constructor]. }
  split; [done|]. rewrite app_nil_r, <- !app_assoc. by constructor.
Qed.

Lemma cgroup_submatch_sound cs groups : cgroup_submatch cs = Some groups ->
  exists pre rest id, cs = pre ++ rest /\ groups = [id] /\ names_container id rest.
Proof.
  induction cs as [|c cs IH]; cbn [cgroup_submatch]; destruct (cgroup_front _) as [gs|] eqn:E.
  - intros [= <-]. apply cgroup_front_sound in E as (id & -> & Hn). by exists [], [], id.
  - done.
  - intros [= <-]. apply cgroup_front_sound in E as (id & -> & Hn). by exists [], (c :: cs), id.
  - intros (pre & rest & id & -> & -> & Hn)%IH. by exists (c :: pre), rest, id.
Qed.

Lemma match_times {A} n p w cs groups (k : list ascii -> list (list ascii) -> option A) :
  length w = n -> Forall (fun c => p c = true) w -> match_at (RTimes n (RClass p)) (w ++ cs) groups k = k cs groups.
Proof.
  revert w. induction n as [|n IH]; intros [|c w] Hl Hw; try done. apply Forall_cons in Hw as [Hc Hw].
  cbn [RTimes match_at app]. rewrite Hc. apply IH; [by injection Hl|done].
Qed.

Lemma match_cat_cons {A} r rs cs groups (k : list ascii -> list (list ascii) -> option A) :
  match_at (RCat (r :: rs)) cs groups k = match_at r cs groups (fun cs' groups' => match_at (RCat rs) cs' groups' k).
Proof. done. Qed.

Lemma match_alt {A} a b cs groups (k : list ascii -> list (list ascii) -> option A) :
  match_at (RAlt a b) cs groups k = match match_at a cs groups k with Some x => Some x | None => match_at b cs groups k end.
Proof. done. Qed.

Lemma cgroup_front_complete id cs : names_container id cs -> cgroup_front cs = Some [id].
Proof.
  intros [kind suffix rest Hk Hl Hh Hs Hr]. unfold cgroup_front, containerCgroupPattern.
  set (fin := fun rest groups => if path_ends rest then Some groups else None).
  assert (match_at (RCat [RGroup (RTimes 64 (RClass hex_lower)); ROpt (RText ".scope")]) (id ++ chars suffix ++ rest) [] fin = Some [id]) as Hid.
  { rewrite match_cat_cons. cbn [match_at]. rewrite match_times by done. rewrite take_matched, match_cat_cons. unfold ROpt. rewrite match_alt.
    apply elem_of_cons in Hs as [-> |Hs%list_elem_of_singleton].
    - assert (forall k, match_at (RText ".scope") rest [id] k = None :> option (list (list ascii))) as E.
      { intros k. destruct rest as [|c rest]; [done|]. apply bool_decide_eq_true in Hr as ->. reflexivity. }
      cbn [chars app]. rewrite E. cbn. unfold fin. by rewrite Hr.
    - subst suffix. rewrite match_text. cbn. unfold fin. by rewrite Hr. }
  rewrite match_cat_cons, match_alt.
  apply elem_of_cons in Hk as [-> |Hk%list_elem_of_singleton].
  - rewrite match_text. by rewrite Hid.
  - subst kind. rewrite (match_text "docker-"), Hid. done.
Qed.

Lemma names_k id cs : names_container id cs -> cs !! 3%nat = Some "k"%char.
Proof. intros [kind suffix rest Hk _ _ _ _]. apply elem_of_cons in Hk as [-> |Hk%list_elem_of_singleton]; [done|]. by subst kind. Qed.

(** The first match is found behind text without a [k]. *)
Lemma cgroup_submatch_complete pre id cs : "k"%char ∉ pre -> names_container id cs -> cgroup_submatch (pre ++ cs) = Some [id].
Proof.
  intros Hpre Hn. pose proof (cgroup_front_complete _ _ Hn) as Hfront. induction pre as [|c pre IH]; cbn [app].
  { destruct cs; cbn [cgroup_submatch]; by rewrite Hfront. }
  cbn [cgroup_submatch]. destruct (cgroup_front (c :: pre ++ cs)) as [groups|] eqn:E.
  2: { apply IH. set_solver. }
  apply cgroup_front_sound in E as (id' & _ & Hk%names_k). exfalso.
  destruct Hn as [kind suffix rest Hkind _ _ _ _].
  assert (exists more, chars kind = chars "docker" ++ more) as [more Em].
  { apply elem_of_cons in Hkind as [-> |H%list_elem_of_singleton]; [|subst]; by eexists [_]. }
  rewrite Em in Hk. destruct pre as [|c1 [|c2 [|c3 pre]]]; [done..|]. injection Hk as ->. apply Hpre. set_solver.
Qed.

(** The identifier in a control group path: what is found is 64 lower-case hexadecimal
    digits that stand behind [docker/] or [docker-], followed by the end of the path or a
    slash, [.scope] aside; and behind text without a [k] it is found. *)
Theorem cgroup_path_found :
  (forall path id, ContainerIDFromCgroupPath path = Some id ->
     exists pre rest, chars path = pre ++ rest /\ names_container (chars id) rest) /\
  (forall pre rest id, "k"%char ∉ pre -> names_container id rest ->
     ContainerIDFromCgroupPath (of_chars (pre ++ rest)) = Some (of_chars id)).
Proof.
  unfold ContainerIDFromCgroupPath. split.
  - intros path id E. destruct (cgroup_submatch (chars path)) as [groups|] eqn:Es; [|done].
    apply cgroup_submatch_sound in Es as (pre & rest & id' & -> & -> & Hn). injection E as <-. exists pre, rest. by rewrite chars_of_chars.
  - intros pre rest id Hpre Hn. rewrite chars_of_chars. by rewrite (cgroup_submatch_complete pre id rest).
Qed.

Module DemoDocker.
Definition id_of (c : string) : string := of_chars (concat (replicate 64 (chars c))).

(** Two containers of the list run, one of them has no process any more; the first has an
    address of each family and a port in two protocols. *)
Definition items : list Summary := [MkSummary (id_of "a") "running"; MkSummary (id_of "b") "exited"; MkSummary (id_of "c") "running"; MkSummary (id_of "d") "running"].

Definition inspect (i : nat) (id : string) : result string InspectResponse :=
  match i with
  | O => Ok (MkInspect id "/web" (Some (MkProcState true 100))
               (Some [Some (MkEndpointSettings (Addr4 [172; 18; 0; 2]) (Addr16 [253; 0; 0; 0; 0; 0; 0; 0; 0; 0; 0; 0; 0; 0; 0; 2])); None])
               (Some [443; 80; 443]))
  | 2%nat => Ok (MkInspect id "/job" (Some (MkProcState false 0)) None None)
  | 3%nat => Ok (MkInspect id "/db" (Some (MkProcState true 300)) (Some [Some (MkEndpointSettings (Addr4 [172; 18; 0; 3]) AddrZero)]) (Some [5432]))
  | _ => Err "no such container"
  end.

Definition read_cgroup (pid : Z) : result string (list ascii) :=
  if pid =? 100 then Ok (chars ("0::/system.slice/docker-" +:+ id_of "a" +:+ ".scope") ++ [newline])
  else if pid =? 300 then Ok (chars ("0::/docker/" +:+ id_of "d" +:+ "/init") ++ [newline]) else Err "no such process".

Definition stat (path : string) : result string Z :=
  if String.eqb path ("/sys/fs/cgroup/system.slice/docker-" +:+ id_of "a" +:+ ".scope") then Ok 77
  else if String.eqb path ("/sys/fs/cgroup/docker/" +:+ id_of "d" +:+ "/init") then Ok 78 else Err "no such file".

Definition resolve (_ : nat) : Z -> result string Cgroup := ResolveHostCgroup read_cgroup stat "/sys/fs/cgroup".

Definition web : Container := MkContainer (id_of "a") "web" 77 ["172.18.0.2"; "fd00::2"] [80; 443; 443] true.
Definition db : Container := MkContainer (id_of "d") "db" 78 ["172.18.0.3"] [5432] true.

Example refreshed : exists snapshot, Refresh (Ok items) inspect resolve = Ok snapshot /\
  ByID snapshot !! id_of "a" = Some web /\ ByCgroup snapshot !! 78 = Some db /\ ByEndpoint snapshot !! "[fd00::2]:443" = Some web.
Proof. eexists. split_and!; vm_compute; reflexivity. Qed.

Lemma demo_ports : ports_fit inspect.
Proof.
  intros i id value ports E Hp. assert (In value (omap (fun i => match inspect i id with Ok v => Some v | _ => None end) [0; 3; 2]%nat)) as Hin.
  { destruct i as [|[|[|[|]]]]; simpl in *; try discriminate E; injection E as <-; auto. }
  simpl in Hin. destruct Hin as [<-|[<-|[<-|[]]]]; simpl in Hp; [injection Hp as <-..|discriminate Hp]; repeat constructor; unfold in_u; lia.
Qed.

Lemma refresh_indexes_witness : exists snapshot owners, Refresh (Ok items) inspect resolve = Ok snapshot /\
  (forall o, o ∈ owners -> exists i summary value cgroup, items !! i = Some summary /\ found inspect resolve i summary value cgroup /\ o = owner_of value cgroup) /\
  forall cgroup, ByCgroup snapshot !! cgroup = last (filter (fun o => ct_CgroupID o = cgroup) owners).
Proof.
  destruct (Refresh (Ok items) inspect resolve) as [snapshot|e] eqn:E; [|vm_compute in E; discriminate E].
  destruct (refresh_indexes (Ok items) inspect resolve demo_ports) as [_ H]. destruct (H snapshot E) as (items' & owners & Ei & Ho & _ & Hc & _).
  injection Ei as <-. exists snapshot, owners. split; [done|]. split; [apply Ho|exact Hc].
Defined.

Lemma cgroup_path_found_witness : ContainerIDFromCgroupPath ("/system.slice/docker-" +:+ id_of "a" +:+ ".scope/init") = Some (id_of "a").
Proof.
  replace ("/system.slice/docker-" +:+ id_of "a" +:+ ".scope/init")
    with (of_chars (chars "/system.slice/" ++ chars "docker-" ++ chars (id_of "a") ++ chars ".scope" ++ chars "/init")) by (vm_compute; reflexivity).
  destruct cgroup_path_found as [_ H]. rewrite (H (chars "/system.slice/") _ (chars (id_of "a"))).
  - by rewrite of_chars_chars.
  - apply (bool_decide_unpack _). vm_compute. exact I.
  - constructor; [by repeat constructor|vm_compute; reflexivity|repeat constructor|by repeat constructor|reflexivity].
Defined.

(** A path of another container is refused, one that names none is taken: behind a private
    hierarchy two containers can come to share a group, and the later has it. *)
Definition at_root (_ : nat) (pid : Z) : result string Cgroup := ResolveHostCgroup (fun _ => Ok (chars "0::/")) (fun _ => Ok 1) "/sys/fs/cgroup" pid.

Example shared_group : exists snapshot, Refresh (Ok items) inspect at_root = Ok snapshot /\
  size (ByID snapshot) = 2%nat /\ size (ByCgroup snapshot) = 1%nat /\ (ct_Name <$> ByCgroup snapshot !! 1) = Some "db".
Proof. eexists. split_and!; vm_compute; reflexivity. Qed.

Example other_group : Refresh (Ok items) inspect (fun _ _ => Ok (MkCgroup 5 ("/docker/" +:+ id_of "f"))) = Err "container cgroup belongs to another".
Proof. vm_compute. reflexivity. Qed.

(** A port 0 that an image exposes makes an inventory event that validation refuses. *)
Definition zero_port : InspectResponse := MkInspect (id_of "a") "/web" (Some (MkProcState true 100)) None (Some [0]).

Example port_zero : ct_Ports (owner_of zero_port (MkCgroup 77 "/")) = [0].
Proof. reflexivity. Qed.
End DemoDocker.
