(* ===== verification/Sql.v ===== *)
(** * Transactions

    What the server's packages share of PostgreSQL: the values its columns take, and
    transactions of statements over a state of tables.  A statement may be refused, and
    the connection may be lost before any of them; a transaction that does not commit
    leaves the tables as they were. *)

From stdpp Require Import base strings numbers list.
From Stdlib Require Import Ascii.
From S2P Require Import Prelude GoBase GoText.

Open Scope string_scope.
Open Scope Z_scope.
Local Open Scope flow_scope.
Local Open Scope list_scope.

(** ** Values *)

Fixpoint valid_utf8b (skip : nat) (cs : list ascii) : bool :=
  match cs with
  | [] => bool_decide (skip = O)
  | _ :: rest =>
      match skip with
      | S skip' => valid_utf8b skip' rest
      | O => match rune_width cs with Some n => valid_utf8b (n - 1) rest | None => false end
      end
  end.

(** What a [text] column takes: UTF-8 without zero bytes. *)
Definition sql_text (s : string) : bool :=
  forallb (fun c => negb (code c =? 0)) (chars s) && valid_utf8b 0 (chars s).

Lemma valid_utf8b_skip skip cs : (skip <= length cs)%nat -> valid_utf8b skip cs = valid_utf8b 0 (drop skip cs).
Proof.
  revert skip. induction cs as [|c cs IH]; intros [|skip] Hs; simpl in Hs |- *; [done|lia|done|].
  rewrite IH by lia. by destruct (drop skip cs).
Qed.

Lemma valid_utf8_b cs : valid_utf8 cs -> valid_utf8b 0 cs = true.
Proof.
  induction 1 as [|cs n Hn _ IH]; [done|]. pose proof (rune_width_bounds cs n Hn) as Hb.
  destruct cs as [|c cs]; [done|]. cbn [valid_utf8b]. rewrite Hn. destruct n as [|n]; [lia|].
  simpl in Hb. rewrite Nat.sub_succ, Nat.sub_0_r, valid_utf8b_skip by lia. exact IH.
Qed.

Lemma valid_utf8_of_b cs : valid_utf8b 0 cs = true -> valid_utf8 cs.
Proof.
  remember (length cs) as n eqn:Hn. assert (length cs <= n)%nat as Hl by lia. clear Hn. revert cs Hl.
  induction n as [|n IH]; intros [|c cs] Hl Hv; simpl in Hl; try lia; [constructor..|]. cbn [valid_utf8b] in Hv.
  destruct (rune_width (c :: cs)) as [w|] eqn:Ew; [|done]. pose proof (rune_width_bounds _ _ Ew) as [H1 H2]. simpl in H2.
  rewrite valid_utf8b_skip in Hv by lia. apply (valid_rune _ w); [done|]. destruct w as [|w]; [lia|]. simpl.
  rewrite Nat.sub_succ, Nat.sub_0_r in Hv. apply IH; [rewrite length_drop; lia|done].
Qed.

Lemma sql_text_spec s : sql_text s = true <-> Forall (fun c => negb (code c =? 0) = true) (chars s) /\ valid_utf8 (chars s).
Proof.
  unfold sql_text. rewrite andb_true_iff, (forallb_Forall_iff (fun c => negb (code c =? 0)) (fun c => negb (code c =? 0) = true)) by done.
  split; intros [? ?]; split; auto using valid_utf8_b, valid_utf8_of_b.
Qed.

Lemma sql_text_app a b : sql_text a = true -> sql_text b = true -> sql_text (a +:+ b) = true.
Proof.
  rewrite !sql_text_spec, chars_app. intros [Ha Va] [Hb Vb]. split; [by apply Forall_app|by apply valid_app].
Qed.

Lemma sql_text_ascii cs : Forall (fun c => 0 < code c < 128) cs -> sql_text (of_chars cs) = true.
Proof.
  intros H. apply sql_text_spec. rewrite chars_of_chars. split.
  - eapply Forall_impl; [exact H|]. intros c ?; cbv beta in *. apply negb_true_iff, Z.eqb_neq. lia.
  - induction H as [|c cs Hc _ IH]; [constructor|]. apply (valid_rune _ 1); [|done]. cbn [rune_width].
    by rewrite (proj2 (Z.ltb_lt _ _)) by lia.
Qed.

Lemma format_int_text z : sql_text (of_chars (format_int z)) = true.
Proof.
  assert (forall z, 0 <= z -> Forall (fun c => 0 < code c < 128) (format_uint z)) as Hu.
  { intros y Hy. apply Forall_reverse. eapply Forall_impl; [by apply digits_rev_digits|]. intros c Hc.
    unfold is_digit in Hc. reflect_bools. lia. }
  apply sql_text_ascii. unfold format_int. destruct (Z.ltb_spec z 0); [constructor; [by vm_compute|]|]; apply Hu; lia.
Qed.

Definition in_int4 (z : Z) : bool := (- 2 ^ 31 <=? z) && (z <? 2 ^ 31).
Definition in_int8 (z : Z) : bool := (- 2 ^ 63 <=? z) && (z <? 2 ^ 63).

(** [length(text)]: the characters of well-formed UTF-8 text, the bytes that do not
    continue one. *)
Definition char_length (s : string) : Z :=
  Z.of_nat (length (filter (fun c => code c < 128 \/ 192 <= code c) (chars s))).

(** The instant a [timestamptz] column keeps, of an instant in nanoseconds. *)
Class Timestamptz : Type := timestamptz : time -> time.

(** The text of the address an [inet] column keeps, as [host] gives it back, or
    nothing when the input is no address to it. *)
Class Inet : Type := inet : string -> option string.

(** ** Transactions *)

(** [tx_left] statements go through before the connection is lost. *)
Record tx (DB : Type) : Type := MkTx { tx_db : DB; tx_left : nat }.
Arguments MkTx {DB} _ _.
Arguments tx_db {DB} _.
Arguments tx_left {DB} _.

Definition Sql (DB A : Type) : Type := tx DB -> result string (A * tx DB).

Section statements.
Context {DB : Type}.

Definition sql_ret {A} (a : A) : Sql DB A := fun t => Ok (a, t).
Definition sql_fail {A} (e : string) : Sql DB A := fun _ => Err e.
Definition sql_bind {A B} (m : Sql DB A) (k : A -> Sql DB B) : Sql DB B :=
  fun t => match m t with Ok (a, t') => k a t' | Err e => Err e end.

(** One statement: its answer and the tables after it, or its refusal. *)
Definition statement {A} (what : string) (f : DB -> option (A * DB)) : Sql DB A := fun t =>
  match tx_left t with
  | O => Err (what +:+ ": connection lost")
  | S n => match f (tx_db t) with Some (a, db) => Ok (a, MkTx db n) | None => Err what end
  end.

(** A statement that changes rows when its values fit the columns. *)
Definition execute (what : string) (fits : bool) (f : DB -> DB) : Sql DB unit :=
  statement what (fun db => if fits then Some (tt, f db) else None).

(** A query. *)
Definition query {A} (what : string) (fits : bool) (f : DB -> A) : Sql DB A :=
  statement what (fun db => if fits then Some (f db, db) else None).

Fixpoint sql_each {A} (f : A -> Sql DB unit) (l : list A) : Sql DB unit :=
  match l with
  | [] => sql_ret tt
  | x :: l' => sql_bind (f x) (fun _ => sql_each f l')
  end.

(** A commit takes effect or not, and is reported as done or not; what is reported as
    done took effect. *)
Inductive commit_outcome : Type := Committed | CommitRefused | CommitUnreported.

(** A transaction that ends in a commit. *)
Definition transact {A} (m : Sql DB A) (left : nat) (outcome : commit_outcome) (db : DB) : DB * result string A :=
  match m (MkTx db left) with
  | Err e => (db, Err e)
  | Ok (a, t) =>
      match outcome with
      | Committed => (tx_db t, Ok a)
      | CommitRefused => (db, Err "commit failed")
      | CommitUnreported => (tx_db t, Err "commit failed")
      end
  end.
End statements.

(** ** Statements on their own

    A statement outside a transaction is committed by itself. *)

#[export] Instance commit_outcome_eq_dec : EqDecision commit_outcome.
Proof. solve_decision. Defined.

(** A statement that changes rows: how it ends, and how many rows it meant. *)
Definition exec_rows {DB} (outcome : commit_outcome) (f : DB -> option (DB * Z)) (db : DB) : DB * result string Z :=
  match f db with
  | None => (db, Err "refused")
  | Some (db', n) =>
      match outcome with
      | Committed => (db', Ok n)
      | CommitRefused => (db, Err "connection lost")
      | CommitUnreported => (db', Err "connection lost")
      end
  end.

Lemma exec_rows_db {DB} o (f : DB -> option (DB * Z)) db :
  (exec_rows o f db).1 = db \/ exists db' n, f db = Some (db', n) /\ (exec_rows o f db).1 = db'.
Proof. unfold exec_rows. destruct (f db) as [[db' n]|]; [|by left]. destruct o; simpl; eauto. Qed.

Lemma exec_rows_ok {DB} o (f : DB -> option (DB * Z)) db n :
  (exec_rows o f db).2 = Ok n <-> o = Committed /\ exists db', f db = Some (db', n) /\ (exec_rows o f db).1 = db'.
Proof. unfold exec_rows. destruct (f db) as [[db' m]|]; [destruct o|]; simpl; naive_solver. Qed.

Notation "'let+' x ':=' m 'in' k" := (sql_bind m (fun x => k))
  (at level 10, x pattern, m at level 200, k at level 200) : flow_scope.

(** ** Reasoning

    [keeps I m]: statements that go through keep [I]; [yields]: and the answer meets a
    postcondition. *)

Section rules.
Context {DB : Type}.

Definition yields {A} (P : DB -> Prop) (m : Sql DB A) (Q : A -> DB -> Prop) : Prop :=
  forall t a t', P (tx_db t) -> m t = Ok (a, t') -> Q a (tx_db t').

Lemma yields_ret {A} (P : DB -> Prop) (a : A) Q : (forall db, P db -> Q a db) -> yields P (sql_ret a) Q.
Proof. intros HQ t b t' HP [= <- <-]. by apply HQ. Qed.

Lemma yields_bind {A B} (P : DB -> Prop) (m : Sql DB A) (R : A -> DB -> Prop) (k : A -> Sql DB B) Q :
  yields P m R -> (forall a, yields (R a) (k a) Q) -> yields P (sql_bind m k) Q.
Proof.
  intros Hm Hk t b t'' HP. unfold sql_bind. destruct (m t) as [[a t']|] eqn:E; [|done].
  apply Hk. by eapply Hm.
Qed.

Lemma yields_statement {A} (P : DB -> Prop) what (f : DB -> option (A * DB)) Q :
  (forall db a db', P db -> f db = Some (a, db') -> Q a db') -> yields P (statement what f) Q.
Proof.
  intros Hf t a t' HP. unfold statement. destruct (tx_left t) as [|n]; [done|].
  destruct (f (tx_db t)) as [[b db]|] eqn:E; [|done]. intros [= <- <-]. by eapply Hf.
Qed.

Lemma yields_execute (P : DB -> Prop) what (fits : bool) f (Q : unit -> DB -> Prop) :
  (forall db, P db -> fits = true -> Q tt (f db)) -> yields P (execute what fits f) Q.
Proof. intros Hf. apply yields_statement. intros db a db' HP. destruct fits; [|done]. intros [= <- <-]. by apply Hf. Qed.

Lemma yields_query {A} (P : DB -> Prop) what (fits : bool) (f : DB -> A) (Q : A -> DB -> Prop) :
  (forall db, P db -> fits = true -> Q (f db) db) -> yields P (query what fits f) Q.
Proof. intros Hf. apply yields_statement. intros db a db' HP. destruct fits; [|done]. intros [= <- <-]. by apply Hf. Qed.

Lemma yields_fail {A} (P : DB -> Prop) e (Q : A -> DB -> Prop) : yields P (sql_fail e) Q.
Proof. intros t a t' _ [=]. Qed.

Lemma yields_mono {A} (P P' : DB -> Prop) (m : Sql DB A) (Q Q' : A -> DB -> Prop) :
  (forall db, P' db -> P db) -> (forall a db, Q a db -> Q' a db) -> yields P m Q -> yields P' m Q'.
Proof. intros HP HQ Hm t a t' H E. apply HQ. eapply Hm; [by apply HP|done]. Qed.

Lemma yields_each {A} (P : DB -> Prop) (f : A -> Sql DB unit) l : (forall x, yields P (f x) (fun _ => P)) -> yields P (sql_each f l) (fun _ => P).
Proof.
  intros Hf. induction l as [|x l IH]; [by apply yields_ret|]. apply (yields_bind _ _ (fun _ => P)); [apply Hf|done].
Qed.

Lemma yields_fold {A B} (P : B -> DB -> Prop) (f : A -> Sql DB unit) (g : B -> A -> B) b l :
  (forall b x, yields (P b) (f x) (fun _ => P (g b x))) -> yields (P b) (sql_each f l) (fun _ => P (foldl g b l)).
Proof.
  intros Hf. revert b. induction l as [|x l IH]; intros b; [by apply yields_ret|]. apply (yields_bind _ _ (fun _ => P (g b x))); [apply Hf|].
  intros []. apply IH.
Qed.

(** [runs]: the statements are not refused; while the connection holds for [k] of them
    they go through, and the answer meets a postcondition. *)
Definition runs {A} (P : DB -> Prop) (m : Sql DB A) (k : nat) (Q : A -> DB -> Prop) : Prop :=
  forall t, P (tx_db t) -> (k <= tx_left t)%nat ->
    exists a t', m t = Ok (a, t') /\ Q a (tx_db t') /\ (tx_left t <= tx_left t' + k)%nat.

Lemma runs_ret {A} (P : DB -> Prop) (a : A) (Q : A -> DB -> Prop) : (forall db, P db -> Q a db) -> runs P (sql_ret a) 0 Q.
Proof. intros HQ t HP _. exists a, t. split; [done|]. split; [by apply HQ|lia]. Qed.

Lemma runs_bind {A B} (P : DB -> Prop) (m : Sql DB A) (R : A -> DB -> Prop) (f : A -> Sql DB B) k1 k2 Q :
  runs P m k1 R -> (forall a, runs (R a) (f a) k2 Q) -> runs P (sql_bind m f) (k1 + k2) Q.
Proof.
  intros Hm Hf t HP Hk. destruct (Hm t HP) as (a & t1 & E & HR & Hl); [lia|].
  destruct (Hf a t1 HR) as (b & t2 & E2 & HQ & Hl2); [lia|]. exists b, t2. unfold sql_bind. rewrite E. split; [done|]. split; [done|lia].
Qed.

Lemma runs_le {A} (P : DB -> Prop) (m : Sql DB A) k k' Q : (k <= k')%nat -> runs P m k Q -> runs P m k' Q.
Proof. intros Hk Hm t HP Hl. destruct (Hm t HP) as (a & t' & E & HQ & H); [lia|]. exists a, t'. split; [done|]. split; [done|lia]. Qed.

Lemma runs_mono {A} (P P' : DB -> Prop) (m : Sql DB A) k (Q Q' : A -> DB -> Prop) :
  (forall db, P' db -> P db) -> (forall a db, Q a db -> Q' a db) -> runs P m k Q -> runs P' m k Q'.
Proof. intros HP HQ Hm t H Hk. destruct (Hm t (HP _ H) Hk) as (a & t' & E & Hq & Hl). exists a, t'. auto. Qed.

(** What the precondition says whatever the tables are. *)
Lemma runs_pure {A} (p : Prop) (P : DB -> Prop) (m : Sql DB A) k Q : (p -> runs P m k Q) -> runs (fun db => p /\ P db) m k Q.
Proof. intros Hm t [Hp HP] Hk. by apply Hm. Qed.

Lemma runs_statement {A} (P : DB -> Prop) what (f : DB -> option (A * DB)) Q :
  (forall db, P db -> exists a db', f db = Some (a, db') /\ Q a db') -> runs P (statement what f) 1 Q.
Proof.
  intros Hf t HP Hk. unfold statement. destruct (tx_left t) as [|n] eqn:E; [lia|].
  destruct (Hf _ HP) as (a & db & Ef & HQ). rewrite Ef. exists a, (MkTx db n). split; [done|]. split; [done|simpl; lia].
Qed.

Lemma runs_execute (P : DB -> Prop) what (fits : bool) f (Q : unit -> DB -> Prop) : fits = true -> (forall db, P db -> Q tt (f db)) ->
  runs P (execute what fits f) 1 Q.
Proof. intros Hfits Hf. apply runs_statement. intros db HP. rewrite Hfits. eauto. Qed.

Lemma runs_query {A} (P : DB -> Prop) what (fits : bool) (f : DB -> A) (Q : A -> DB -> Prop) : fits = true -> (forall db, P db -> Q (f db) db) ->
  runs P (query what fits f) 1 Q.
Proof. intros Hfits Hf. apply runs_statement. intros db HP. rewrite Hfits. eauto. Qed.

(** A loop whose precondition is a budget: every element takes its cost of it. *)
Lemma runs_cost {A} (P : Z -> DB -> Prop) (f : A -> Sql DB unit) (cost : A -> Z) (k : A -> nat) l :
  (forall x, x ∈ l -> 0 <= cost x) ->
  (forall x m, x ∈ l -> 0 <= m -> runs (P (m + cost x)) (f x) (k x) (fun _ => P m)) ->
  forall m, 0 <= m -> runs (P (m + sumZ cost l)) (sql_each f l) (sum_list_with k l) (fun _ => P m).
Proof.
  intros Hc Hf m Hm. induction l as [|x l IH]; simpl; [rewrite Z.add_0_r; by apply runs_ret|].
  assert (0 <= sumZ cost l) as Hl by (apply sumZ_nonneg; intros; apply Hc; by constructor).
  replace (m + (cost x + sumZ cost l)) with (m + sumZ cost l + cost x) by lia.
  eapply runs_bind; [apply Hf; [constructor|lia]|]. intros [].
  apply IH; [intros; apply Hc; by constructor|intros; apply Hf; [by constructor|done]].
Qed.

Lemma transact_runs {A} (m : Sql DB A) (P : DB -> Prop) k Q left db : runs P m k Q -> P db -> (k <= left)%nat ->
  exists a, (transact m left Committed db).2 = Ok a.
Proof.
  intros Hm HP Hk. destruct (Hm (MkTx db left) HP Hk) as (a & t & E & _). exists a. unfold transact. by rewrite E.
Qed.

(** A transaction that went through and was not refused. *)
Lemma transact_effect {A} (m : Sql DB A) left outcome db a t : m (MkTx db left) = Ok (a, t) -> outcome <> CommitRefused ->
  (transact m left outcome db).1 = tx_db t.
Proof. intros E Ho. unfold transact. rewrite E. by destruct outcome. Qed.

Lemma transact_cases {A} (m : Sql DB A) left outcome db :
  (exists a t, m (MkTx db left) = Ok (a, t) /\ (transact m left outcome db).1 = tx_db t /\
     ((transact m left outcome db).2 = Ok a \/ is_ok (transact m left outcome db).2 = false)) \/
  (transact m left outcome db).1 = db /\ is_ok (transact m left outcome db).2 = false.
Proof.
  unfold transact. destruct (m (MkTx db left)) as [[a t]|e]; [|by right].
  destruct outcome; [left|by right|left]; exists a, t; naive_solver.
Qed.
End rules.
