(* ===== verification/Scheduler.v ===== *)
(** * Job leases

    [internal/server/scheduler]: the leases table with the statements that change it
    ([repository.go]) and [RunDue], which claims a job, runs it while a second goroutine
    renews the lease, and writes down when it is due again ([scheduler.go]).

    Every statement runs in a transaction of its own; it takes effect or not, and is
    reported as done or not.  The step relation [step] has any number of processes
    whose claims, renewals and endings interleave with each other and with the clock,
    and that can be killed anywhere; clocks are read before the statement that uses the
    reading runs. *)

From stdpp Require Import base strings numbers gmap list.
From Stdlib Require Import Ascii.
From S2P Require Import Prelude GoBase GoText Effects Sql.

Open Scope string_scope.
Open Scope Z_scope.
Local Open Scope flow_scope.

(** ** [job_leases] *)

Record lease_row : Type := MkLease {
  jl_owner : option string; jl_expires : option time; jl_last_success : option time;
  jl_last_error : string; jl_next_run : time }.

Abbreviation leases := (gmap string lease_row).

Definition leaseDuration : duration := 2 * Minute.

Section leases.
Context {tz : Timestamptz}.

(** [lease_owner IS NULL OR lease_expires_at <= $4] *)
Definition free (r : lease_row) (now : time) : bool :=
  match jl_owner r with
  | None => true
  | Some _ => match jl_expires r with Some t => t <=? timestamptz now | None => false end
  end.

Definition due (r : lease_row) (now : time) : bool := jl_next_run r <=? timestamptz now.

(** [INSERT ... ON CONFLICT (name) DO NOTHING] *)
Definition insert_lease (name : string) (now : time) (L : leases) : option (leases * Z) :=
  match L !! name with
  | Some _ => Some (L, 0)
  | None => Some (<[name := MkLease None None None "" (timestamptz now)]> L, 1)
  end.

Definition take_lease (name owner : string) (now : time) (duration : duration) (L : leases) : option (leases * Z) :=
  match L !! name with
  | Some r =>
      if due r now && free r now then
        Some (<[name := MkLease (Some owner) (Some (timestamptz (now + duration))) (jl_last_success r) (jl_last_error r) (jl_next_run r)]> L, 1)
      else Some (L, 0)
  | None => Some (L, 0)
  end.

Definition Claim (name owner : string) (now : time) (duration : duration) (o1 o2 : commit_outcome) (L : leases) : leases * result string bool :=
  match exec_rows o1 (insert_lease name now) L with
  | (L, Err e) => (L, Err e)
  | (L, Ok _) =>
      match exec_rows o2 (take_lease name owner now duration) L with
      | (L, Err e) => (L, Err e)
      | (L, Ok n) => (L, Ok (n =? 1))
      end
  end.

(** [WHERE name=$1 AND lease_owner=$2] *)
Definition update_owned (name owner : string) (f : lease_row -> lease_row) (L : leases) : leases * Z :=
  match L !! name with
  | Some r => if bool_decide (jl_owner r = Some owner) then (<[name := f r]> L, 1) else (L, 0)
  | None => (L, 0)
  end.

Definition forget_rows (r : leases * result string Z) : leases * result string unit :=
  (r.1, match r.2 with Ok _ => Ok tt | Err e => Err e end).

Definition Heartbeat (name owner : string) (expires : time) (o : commit_outcome) (L : leases) : leases * result string unit :=
  forget_rows (exec_rows o (fun L => Some (update_owned name owner (fun r =>
    MkLease (jl_owner r) (Some (timestamptz expires)) (jl_last_success r) (jl_last_error r) (jl_next_run r)) L)) L).

(** [if len(message) > 4096 { message = message[:4096] }] *)
Definition short_message (message : string) : string :=
  if 4096 <? len message then of_chars (take 4096 (chars message)) else message.

Definition Finish (name owner : string) (success : bool) (at_ next : time) (message : string) (o : commit_outcome) (L : leases)
  : leases * result string unit :=
  forget_rows (exec_rows o (fun L =>
    if sql_text (short_message message) then
      Some (update_owned name owner (fun r =>
        MkLease None None (if success then Some (timestamptz at_) else jl_last_success r) (short_message message) (timestamptz next)) L)
    else None) L).

(** ** [RunDue] *)

(** What the run of a job returns. *)
Inductive run_result : Type := RunOk | RunCanceled (message : string) | RunFailed (message : string).

Definition run_failed (r : run_result) : option string :=
  match r with RunOk => None | RunCanceled m | RunFailed m => Some m end.

Record Job : Type := MkJob { job_Name : string; job_Interval : duration; job_NextRun : option (time -> time) }.

Inductive sched_call : Type -> Type :=
| Now : sched_call time
| CallClaim (name owner : string) (now : time) (duration : duration) : sched_call (result string bool)
| RunJob (job : Job) : sched_call run_result
| CallFinish (name owner : string) (success : bool) (at_ next : time) (message : string) : sched_call (result string unit).

(** [next] of [RunDue] *)
Definition next_run (job : Job) (r : run_result) (finished : time) : time :=
  let next := match job_NextRun job with Some f => f finished | None => finished + job_Interval job end in
  match r with
  | RunOk => next
  | RunCanceled _ => finished
  | RunFailed _ =>
      let retry := job_Interval job in
      finished + (if (retry <=? 0) || (Minute <? retry) then Minute else retry)
  end.

(** What [RunDue] returns: whether it ran the job, and the error of the claim, the run or
    the ending. *)
Inductive due_error : Type := ClaimError (e : string) | RunError (message : string) | FinishError (e : string).

Definition RunDue (owner : string) (job : Job) : prog sched_call (bool * option due_error) :=
  let! started := call Now in
  let! claimed := call (CallClaim (job_Name job) owner started leaseDuration) in
  match claimed with
  | Err e => Ret (false, Some (ClaimError e))
  | Ok false => Ret (false, None)
  | Ok true =>
      let! r := call (RunJob job) in
      let! finished := call Now in
      let next := next_run job r finished in
      let message := default "" (run_failed r) in
      let! ended := call (CallFinish (job_Name job) owner (bool_decide (run_failed r = None)) finished next message) in
      Ret (true, match run_failed r, ended with
                 | Some m, _ => Some (RunError m)
                 | None, Err e => Some (FinishError e)
                 | None, Ok _ => None
                 end)
  end.

(** ** Processes *)

(** [sc_running]: the runs between claim and ending, with the clock reading of the last
    renewal that came before the lease ran out. *)
Record sched : Type := MkSched {
  sc_leases : leases; sc_running : gmap (string * string) time; sc_clock : time }.

(** The lease that a renewal at [renewed] gave has not run out. *)
Definition fresh (clock renewed : time) : bool := timestamptz clock <? timestamptz (renewed + leaseDuration).

Definition claim_step (owner name : string) (now : time) (o1 o2 : commit_outcome) (s : sched) : sched :=
  let r := Claim name owner now leaseDuration o1 o2 (sc_leases s) in
  MkSched r.1 (match r.2 with Ok true => <[(owner, name) := now]> (sc_running s) | _ => sc_running s end) (sc_clock s).

(** A renewal, also one of a run that has ended since. *)
Definition heartbeat_step (owner name : string) (now : time) (o : commit_outcome) (s : sched) : sched :=
  MkSched (Heartbeat name owner (now + leaseDuration) o (sc_leases s)).1
    (match sc_running s !! (owner, name) with
     | Some renewed => if fresh (sc_clock s) renewed && bool_decide (o <> CommitRefused) then <[(owner, name) := now]> (sc_running s) else sc_running s
     | None => sc_running s
     end) (sc_clock s).

Definition finish_step (owner name : string) (success : bool) (at_ next : time) (message : string) (o : commit_outcome) (s : sched) : sched :=
  MkSched (Finish name owner success at_ next message o (sc_leases s)).1 (delete (owner, name) (sc_running s)) (sc_clock s).

Inductive step : sched -> sched -> Prop :=
| TickStep s t : sc_clock s <= t -> step s (MkSched (sc_leases s) (sc_running s) t)
| ClaimStep s owner name now o1 o2 : sc_running s !! (owner, name) = None -> now <= sc_clock s ->
    step s (claim_step owner name now o1 o2 s)
| HeartbeatStep s owner name now o : now <= sc_clock s -> step s (heartbeat_step owner name now o s)
| FinishStep s owner name success at_ next message o : is_Some (sc_running s !! (owner, name)) ->
    step s (finish_step owner name success at_ next message o s)
| KillStep s owner : step s (MkSched (sc_leases s) (filter (fun kv => kv.1.1 <> owner) (sc_running s)) (sc_clock s)).

Inductive reachable : sched -> Prop :=
| StartSched L t : reachable (MkSched L ∅ t)
| NextSched s s' : reachable s -> step s s' -> reachable s'.
End leases.


(** ** Lemmas *)

Section lemmas.
Context {tz : Timestamptz}.

(** A job that a claim at [now] can take. *)
Definition claimable (L : leases) (name : string) (now : time) : Prop :=
  match L !! name with Some r => due r now = true /\ free r now = true | None => True end.

Lemma insert_lease_row name now L : exists r, insert_lease name now L = Some (<[name := r]> L, match L !! name with Some _ => 0 | None => 1 end) /\
  match L !! name with Some r' => r = r' | None => r = MkLease None None None "" (timestamptz now) end.
Proof.
  unfold insert_lease. destruct (L !! name) as [r|] eqn:E; eexists; (split; [|reflexivity]); [by rewrite insert_id|done].
Qed.

(** What the two statements of a claim do to the table, whatever becomes of them. *)
Lemma Claim_table name owner now d o1 o2 L : exists r,
  match L !! name with Some r' => r = r' | None => r = MkLease None None None "" (timestamptz now) end /\
  ((Claim name owner now d o1 o2 L).2 <> Ok true /\ ((Claim name owner now d o1 o2 L).1 = L \/ (Claim name owner now d o1 o2 L).1 = <[name := r]> L) \/
   due r now = true /\ free r now = true /\
   (Claim name owner now d o1 o2 L).1 = <[name := MkLease (Some owner) (Some (timestamptz (now + d))) (jl_last_success r) (jl_last_error r) (jl_next_run r)]> L).
Proof.
  destruct (insert_lease_row name now L) as (r & Hi & Hr). exists r. split; [done|]. unfold Claim, exec_rows. rewrite Hi.
  assert (take_lease name owner now d (<[name:=r]> L) = if due r now && free r now
    then Some (<[name := MkLease (Some owner) (Some (timestamptz (now + d))) (jl_last_success r) (jl_last_error r) (jl_next_run r)]> L, 1)
    else Some (<[name:=r]> L, 0)) as Ht.
  { unfold take_lease. by rewrite lookup_insert_eq, insert_insert_eq. }
  destruct o1; cbn [fst snd]; [|by left; auto|by left; auto]. rewrite Ht.
  destruct (due r now), (free r now); destruct o2; cbn [andb fst snd]; auto; left; (split; [discriminate|auto]).
Qed.

Lemma Claim_succeeds name owner now d L : claimable L name now ->
  (Claim name owner now d Committed Committed L).2 = Ok true.
Proof.
  unfold claimable, Claim, exec_rows. destruct (insert_lease_row name now L) as (r & -> & Hr). cbn [fst snd].
  unfold take_lease. rewrite lookup_insert_eq. intros Hc. replace (due r now && free r now) with true; [done|].
  destruct (L !! name) as [r'|]; subst r; [by destruct Hc as [-> ->]|]. unfold due, free. simpl. by rewrite Z.leb_refl.
Qed.

Lemma Claim_claimable name owner now d o1 o2 L : (Claim name owner now d o1 o2 L).2 = Ok true -> claimable L name now.
Proof.
  intros E. destruct (Claim_table name owner now d o1 o2 L) as (r & Hr & [[Hn _]|(Hd & Hf & _)]); [done|].
  unfold claimable. destruct (L !! name) as [r'|]; [|done]. by subst r'.
Qed.

Lemma update_owned_other name owner f L name' r : L !! name' = Some r -> name' <> name \/ jl_owner r <> Some owner ->
  (update_owned name owner f L).1 !! name' = Some r.
Proof.
  intros Hr Hne. unfold update_owned. destruct (L !! name) as [r'|] eqn:E; [|done].
  case_bool_decide as Ho; [|done]. simpl. destruct (decide (name = name')) as [<-|Hn]; [|by rewrite lookup_insert_ne].
  destruct Hne as [|Hne]; [done|]. rewrite E in Hr. injection Hr as ->. done.
Qed.

Lemma update_owned_own name owner f L r : L !! name = Some r -> jl_owner r = Some owner ->
  update_owned name owner f L = (<[name := f r]> L, 1).
Proof. intros Hr Ho. unfold update_owned. by rewrite Hr, bool_decide_true. Qed.

Lemma heartbeat_table name owner expires o L :
  (Heartbeat name owner expires o L).1 = match o with CommitRefused => L | _ =>
    (update_owned name owner (fun r => MkLease (jl_owner r) (Some (timestamptz expires)) (jl_last_success r) (jl_last_error r) (jl_next_run r)) L).1 end.
Proof. unfold Heartbeat, forget_rows, exec_rows. destruct (update_owned _ _ _ L). by destruct o. Qed.

Lemma finish_table name owner success at_ next message o L : exists f,
  (Finish name owner success at_ next message o L).1 = L \/ (Finish name owner success at_ next message o L).1 = (update_owned name owner f L).1.
Proof.
  unfold Finish, forget_rows, exec_rows. destruct (sql_text _); [|by exists id; left].
  eexists. destruct (update_owned _ _ _ L) eqn:E. rewrite (surjective_pairing (update_owned _ _ _ L)) in E. injection E as <- <-.
  destruct o; [right|left|right]; reflexivity.
Qed.

(** ** Who holds a lease *)

Definition holds (L : leases) (owner name : string) (expires : time) : Prop :=
  exists r, L !! name = Some r /\ jl_owner r = Some owner /\ jl_expires r = Some expires.

Definition Held (s : sched) : Prop := forall owner name renewed,
  sc_running s !! (owner, name) = Some renewed -> fresh (sc_clock s) renewed = true ->
  holds (sc_leases s) owner name (timestamptz (renewed + leaseDuration)).

Context (Hmono : forall t t', t <= t' -> timestamptz t <= timestamptz t').

Lemma fresh_earlier clock clock' renewed : clock <= clock' -> fresh clock' renewed = true -> fresh clock renewed = true.
Proof. unfold fresh. rewrite !Z.ltb_lt. intros H%Hmono. lia. Qed.

(** A lease that has not run out is not free. *)
Lemma held_not_free clock now renewed r owner : now <= clock -> fresh clock renewed = true ->
  jl_owner r = Some owner -> jl_expires r = Some (timestamptz (renewed + leaseDuration)) -> free r now = false.
Proof.
  unfold fresh, free. intros Hn%Hmono Hf%Z.ltb_lt -> ->. apply Z.leb_gt. lia.
Qed.

Lemma claim_held s owner name now o1 o2 : Held s -> now <= sc_clock s -> Held (claim_step owner name now o1 o2 s).
Proof.
  intros HH Hnow owner' name' renewed. unfold claim_step. cbn [sc_running sc_leases sc_clock].
  destruct (Claim_table name owner now leaseDuration o1 o2 (sc_leases s)) as (r & Hr & Hc).
  assert (forall renewed, sc_running s !! (owner', name') = Some renewed -> fresh (sc_clock s) renewed = true ->
    holds (Claim name owner now leaseDuration o1 o2 (sc_leases s)).1 owner' name' (timestamptz (renewed + leaseDuration))) as Hold.
  { intros renewed' Hrun Hf. destruct (HH owner' name' renewed' Hrun Hf) as (r' & Hr' & Ho & He).
    destruct (decide (name = name')) as [<-|Hne].
    - rewrite Hr' in Hr. subst r'. pose proof (held_not_free _ _ _ _ _ Hnow Hf Ho He) as Hnf.
      destruct Hc as [[_ [->| ->]]|(_ & Hf' & _)]; [by exists r|exists r; by rewrite lookup_insert_eq|congruence].
    - exists r'. split; [|done]. destruct Hc as [[_ [->| ->]]|(_ & _ & ->)]; by rewrite ?lookup_insert_ne. }
  destruct (Claim name owner now leaseDuration o1 o2 (sc_leases s)).2 as [[]|e] eqn:E; [|by apply Hold..].
  rewrite lookup_insert_Some. intros [[[= <- <-] <-]|[_ Hrun]]; [|by apply Hold]. intros _.
  destruct Hc as [[Hn _]|(_ & _ & ->)]; [done|]. eexists. split; [apply lookup_insert_eq|done].
Qed.

Lemma heartbeat_held s owner name now o : Held s -> Held (heartbeat_step owner name now o s).
Proof.
  intros HH owner' name' renewed. unfold heartbeat_step. cbn [sc_running sc_leases sc_clock]. rewrite heartbeat_table.
  assert (forall renewed, (owner', name') <> (owner, name) \/ o = CommitRefused -> sc_running s !! (owner', name') = Some renewed -> fresh (sc_clock s) renewed = true ->
    holds (match o with CommitRefused => sc_leases s | _ => (update_owned name owner (fun r =>
      MkLease (jl_owner r) (Some (timestamptz (now + leaseDuration))) (jl_last_success r) (jl_last_error r) (jl_next_run r)) (sc_leases s)).1 end)
      owner' name' (timestamptz (renewed + leaseDuration))) as Hold.
  { intros renewed' Hne Hrun Hf. destruct (HH owner' name' renewed' Hrun Hf) as (r & Hr & Ho & He).
    exists r. split; [|done]. destruct o; [|done|]; (apply update_owned_other; [done|]; destruct Hne as [Hne|]; [|done]; 
      destruct (decide (name' = name)) as [->|]; [right|by left]; intros E; apply Hne; congruence). }
  destruct (decide ((owner', name') = (owner, name))) as [[= -> ->]|Hne].
  2: { destruct (sc_running s !! (owner, name)) as [renewed'|]; [|by apply Hold; left].
       destruct (fresh (sc_clock s) renewed' && _); rewrite ?lookup_insert_ne by done; apply Hold; by left. }
  destruct (sc_running s !! (owner, name)) as [renewed'|] eqn:Hrun; [|by rewrite Hrun].
  destruct (fresh (sc_clock s) renewed') eqn:Hf; cbn [andb]; [|rewrite Hrun; congruence].
  case_bool_decide as Ho.
  - rewrite lookup_insert_eq. intros [= <-] _. destruct (HH owner name renewed' Hrun Hf) as (r & Hr & Hown & _).
    destruct o; [|done|]; rewrite (update_owned_own _ _ _ _ r) by done; (eexists; split; [apply lookup_insert_eq|done]).
  - intros Hr' Hfr. apply Hold; [by right|congruence|exact Hfr].
Qed.

Lemma finish_held s owner name success at_ next message o : Held s -> Held (finish_step owner name success at_ next message o s).
Proof.
  intros HH owner' name' renewed. unfold finish_step. cbn [sc_running sc_leases sc_clock].
  intros [Hne Hrun]%lookup_delete_Some Hf. destruct (HH owner' name' renewed Hrun Hf) as (r & Hr & Ho & He).
  exists r. split; [|done]. destruct (finish_table name owner success at_ next message o (sc_leases s)) as [f [->| ->]]; [done|].
  apply update_owned_other; [done|]. destruct (decide (name' = name)) as [->|]; [right|by left]. intros E. apply Hne. congruence.
Qed.

Lemma reachable_held s : reachable s -> Held s.
Proof.
  induction 1 as [L t|s s' _ HH Hst]; [intros owner name renewed E; cbn in E; by rewrite lookup_empty in E|].
  destruct Hst as [s t Ht|s owner name now o1 o2 _ Hn|s owner name now o _|s owner name success at_ next message o _|s owner].
  - intros owner name renewed Hrun Hf. apply (HH owner name renewed); [done|]. by apply (fresh_earlier _ t).
  - by apply claim_held.
  - by apply heartbeat_held.
  - by apply finish_held.
  - intros owner' name renewed [Hrun _]%map_lookup_filter_Some Hf. by apply (HH owner' name renewed).
Qed.
End lemmas.

(** C17. One runner per job: whatever the processes do, in any order, with statements that
    fail or whose answers are lost, delayed clock readings and kills - of the processes
    that run a job, at most one has renewed its lease, by claim or heartbeat, within the
    two minutes before; it is the one the table names, and until the two minutes are
    over no claim of the job succeeds.  A claim that succeeds was due.  To the precision
    of the table's instants. *)
Theorem one_runner {tz : Timestamptz} (Hmono : forall t t', t <= t' -> timestamptz t <= timestamptz t') (s : sched) :
  reachable s ->
  forall owner name renewed, sc_running s !! (owner, name) = Some renewed -> fresh (sc_clock s) renewed = true ->
  holds (sc_leases s) owner name (timestamptz (renewed + leaseDuration)) /\
  (forall owner' renewed', sc_running s !! (owner', name) = Some renewed' -> fresh (sc_clock s) renewed' = true -> owner' = owner) /\
  (forall owner' now o1 o2, now <= sc_clock s -> (Claim name owner' now leaseDuration o1 o2 (sc_leases s)).2 <> Ok true).
Proof.
  intros Hr%reachable_held owner name renewed Hrun Hf; [|done].
  destruct (Hr owner name renewed Hrun Hf) as (r & Hrow & Ho & He). split_and!; [by exists r|..].
  - intros owner' renewed' Hrun' Hf'. destruct (Hr owner' name renewed' Hrun' Hf') as (r' & Hrow' & Ho' & _). congruence.
  - intros owner' now o1 o2 Hn Hc%Claim_claimable. unfold claimable in Hc. rewrite Hrow in Hc. destruct Hc as [_ Hfree].
    rewrite (held_not_free Hmono _ _ _ _ _ Hn Hf Ho He) in Hfree. done.
Qed.

(** ** One round of a job *)

(** A world for [RunDue] alone: the table, how its statements end, the readings of the
    clock and what the job returns. *)
Record round : Type := MkRound {
  ro_leases : leases; ro_claim1 : commit_outcome; ro_claim2 : commit_outcome; ro_finish : commit_outcome;
  ro_started : time; ro_finished : time; ro_result : run_result; ro_claimed : bool }.

Definition set_table (L : leases) (claimed : bool) (w : round) : round :=
  MkRound L (ro_claim1 w) (ro_claim2 w) (ro_finish w) (ro_started w) (ro_finished w) (ro_result w) claimed.

#[export] Instance round_handler {tz : Timestamptz} : Handler sched_call round := fun X c w =>
  match c with
  | Now => (w, if ro_claimed w then ro_finished w else ro_started w)
  | CallClaim name owner now d => let r := Claim name owner now d (ro_claim1 w) (ro_claim2 w) (ro_leases w) in (set_table r.1 true w, r.2)
  | RunJob job => (w, ro_result w)
  | CallFinish name owner success at_ next message =>
      let r := Finish name owner success at_ next message (ro_finish w) (ro_leases w) in (set_table r.1 (ro_claimed w) w, r.2)
  end.

Section round.
Context {tz : Timestamptz}.

(** The row that a round leaves behind when its ending is written down. *)
Definition ended_row (job : Job) (result : run_result) (finished : time) (r : lease_row) : lease_row :=
  MkLease None None (match result with RunOk => Some (timestamptz finished) | _ => jl_last_success r end)
    (short_message (default "" (run_failed result))) (timestamptz (next_run job result finished)).

Definition leased_row (owner : string) (started : time) (r : lease_row) : lease_row :=
  MkLease (Some owner) (Some (timestamptz (started + leaseDuration))) (jl_last_success r) (jl_last_error r) (jl_next_run r).

Definition current_row (name : string) (now : time) (L : leases) : lease_row :=
  default (MkLease None None None "" (timestamptz now)) (L !! name).

Lemma Claim_committed name owner now d L :
  Claim name owner now d Committed Committed L =
  if due (current_row name now L) now && free (current_row name now L) now
  then (<[name := MkLease (Some owner) (Some (timestamptz (now + d))) (jl_last_success (current_row name now L)) (jl_last_error (current_row name now L)) (jl_next_run (current_row name now L))]> L, Ok true)
  else (<[name := current_row name now L]> L, Ok false).
Proof.
  unfold Claim, exec_rows, current_row. destruct (insert_lease_row name now L) as (r & -> & Hr). cbn [fst snd].
  unfold take_lease. rewrite lookup_insert_eq.
  destruct (L !! name) as [r'|] eqn:E; subst r; cbn [default]; rewrite ?insert_insert_eq; by destruct (_ && _).
Qed.

(** Whether the ending of a run is written down, whatever its owner hears of it. *)
Definition written (w : round) : bool :=
  sql_text (short_message (default "" (run_failed (ro_result w)))) && bool_decide (ro_finish w <> CommitRefused).

(** What a round leaves in the row of its job. *)
Definition round_row (owner : string) (job : Job) (w : round) (r : lease_row) : lease_row :=
  if due r (ro_started w) && free r (ro_started w) then
    if written w then ended_row job (ro_result w) (ro_finished w) r else leased_row owner (ro_started w) r
  else r.

Definition round_error (w : round) : option due_error :=
  match run_failed (ro_result w) with
  | Some m => Some (RunError m)
  | None => match ro_finish w with Committed => None | _ => Some (FinishError "connection lost") end
  end.

Lemma Finish_leased owner job w r L :
  Finish (job_Name job) owner (bool_decide (run_failed (ro_result w) = None)) (ro_finished w) (next_run job (ro_result w) (ro_finished w))
    (default "" (run_failed (ro_result w))) (ro_finish w) (<[job_Name job := leased_row owner (ro_started w) r]> L) =
  (<[job_Name job := if written w then ended_row job (ro_result w) (ro_finished w) r else leased_row owner (ro_started w) r]> L,
   if sql_text (short_message (default "" (run_failed (ro_result w)))) then
     match ro_finish w with Committed => Ok tt | _ => Err "connection lost" end
   else Err "refused").
Proof.
  unfold Finish, forget_rows, exec_rows, written. destruct (sql_text _); [|done]. cbn [andb].
  rewrite (update_owned_own _ _ _ _ (leased_row owner (ro_started w) r)) by (by rewrite ?lookup_insert_eq). rewrite insert_insert_eq.
  assert (ended_row job (ro_result w) (ro_finished w) r = MkLease None None
    (if bool_decide (run_failed (ro_result w) = None) then Some (timestamptz (ro_finished w)) else jl_last_success (leased_row owner (ro_started w) r))
    (short_message (default "" (run_failed (ro_result w)))) (timestamptz (next_run job (ro_result w) (ro_finished w)))) as ->
    by (unfold ended_row; by destruct (ro_result w)).
  by destruct (ro_finish w).
Qed.
End round.

(** A round of a job whose claim goes through.  The job runs exactly when it is due
    and nobody holds its lease.  When its ending is written down the lease is given back
    and the job is due again at the time its schedule gives after a success, at once when
    it was cancelled, and within a minute after a failure; otherwise it keeps its lease.
    From that time on, or once that lease has run out, every claim succeeds, and not
    before: no run, failure or kill stops a job for good. *)
Theorem round_of_job {tz : Timestamptz} (owner : string) (job : Job) (w : round) :
  ro_claim1 w = Committed -> ro_claim2 w = Committed -> ro_claimed w = false ->
  let name := job_Name job in
  let r := current_row name (ro_started w) (ro_leases w) in
  let can := due r (ro_started w) && free r (ro_started w) in
  let L := <[name := round_row owner job w r]> (ro_leases w) in
  exec (RunDue owner job) w = (set_table L true w, (can, if can then round_error w else None)) /\
  (forall message, ro_result w = RunFailed message -> ro_finished w < next_run job (ro_result w) (ro_finished w) <= ro_finished w + Minute) /\
  (can = true -> forall owner' now, (Claim name owner' now leaseDuration Committed Committed L).2 = Ok true <->
     if written w then timestamptz (next_run job (ro_result w) (ro_finished w)) <= timestamptz now
     else jl_next_run r <= timestamptz now /\ timestamptz (ro_started w + leaseDuration) <= timestamptz now).
Proof.
  intros H1 H2 H3 name r can L. split_and!.
  - unfold RunDue, call. simpl. rewrite H3, H1, H2, Claim_committed. fold name r. unfold L, can, round_row.
    destruct (due r (ro_started w) && free r (ro_started w)); [|done]. cbn [fst snd ro_leases ro_claimed ro_result ro_finished ro_finish set_table exec prog_bind].
    fold (leased_row owner (ro_started w) r). unfold handle, round_handler, set_table. cbn [fst snd ro_leases ro_claim1 ro_claim2 ro_claimed ro_result ro_finished ro_finish ro_started].
    pose proof (Finish_leased owner job w r (ro_leases w)) as HF. fold name in HF. rewrite HF. cbn [fst snd]. unfold round_error.
    destruct (ro_result w); cbn [run_failed default]; try done. by destruct (ro_finish w).
  - intros m ->. unfold next_run. assert (0 < Minute) by done. destruct (Z.leb_spec (job_Interval job) 0), (Z.ltb_spec Minute (job_Interval job)); simpl; lia.
  - intros Hcan owner' now. unfold L, round_row. fold can. rewrite Hcan, Claim_committed. unfold current_row. rewrite lookup_insert_eq. cbn [default].
    destruct (written w); unfold due, free; cbn.
    + rewrite andb_true_r. destruct (Z.leb_spec (timestamptz (next_run job (ro_result w) (ro_finished w))) (timestamptz now)); cbn; by split; intros; try done; lia.
    + destruct (Z.leb_spec (jl_next_run r) (timestamptz now)), (Z.leb_spec (timestamptz (ro_started w + leaseDuration)) (timestamptz now)); cbn; by split; intros; try done; lia.
Qed.

(** ** Runs *)

Module DemoScheduler.
#[local] Instance tz : Timestamptz := fun t => t / 1000 * 1000.

Lemma tz_mono t t' : t <= t' -> timestamptz t <= timestamptz t'.
Proof. intros H. unfold timestamptz, tz. apply Z.mul_le_mono_nonneg_r; [lia|]. by apply Z.div_le_mono. Qed.

Definition t0 : time := 1700000000 * Second.
Definition start : sched := MkSched ∅ ∅ t0.
Definition one : string := "host-7-operations".
Definition two : string := "host-8-operations".
Definition job : Job := MkJob "retention" Hour None.

(** One process claims the job and renews its lease after forty seconds; another tries
    after two minutes. *)
Definition s1 : sched := claim_step one "retention" t0 Committed Committed start.
Definition s2 : sched := heartbeat_step one "retention" (t0 + 40 * Second) CommitUnreported (MkSched (sc_leases s1) (sc_running s1) (t0 + 41 * Second)).
Definition s3 : sched := claim_step two "retention" (t0 + 2 * Minute) Committed Committed (MkSched (sc_leases s2) (sc_running s2) (t0 + 2 * Minute)).

Lemma s3_reachable : reachable s3.
Proof.
  eapply NextSched; [eapply NextSched; [eapply NextSched; [eapply NextSched; [eapply NextSched; [apply StartSched|]|]|]|]|].
  - by apply (ClaimStep start one "retention" t0 Committed Committed).
  - by apply (TickStep s1 (t0 + 41 * Second)).
  - by apply (HeartbeatStep (MkSched (sc_leases s1) (sc_running s1) (t0 + 41 * Second)) one "retention" (t0 + 40 * Second) CommitUnreported).
  - by apply (TickStep s2 (t0 + 2 * Minute)).
  - by apply (ClaimStep (MkSched (sc_leases s2) (sc_running s2) (t0 + 2 * Minute)) two "retention" (t0 + 2 * Minute) Committed Committed).
Qed.

Lemma one_runner_witness :
  holds (sc_leases s3) one "retention" (t0 + 160 * Second) /\
  (forall now, now <= t0 + 2 * Minute -> (Claim "retention" two now leaseDuration Committed Committed (sc_leases s3)).2 <> Ok true).
Proof.
  pose proof (one_runner tz_mono s3 s3_reachable one "retention" (t0 + 40 * Second)) as H.
  destruct H as (H1 & _ & H3); [by vm_compute|by vm_compute|]. split; [exact H1|]. intros now Hn. by apply H3.
Defined.

Definition failing (message : string) : round :=
  MkRound ∅ Committed Committed Committed t0 (t0 + 5 * Second) (RunFailed message) false.

Lemma round_of_job_witness :
  (exec (RunDue one job) (failing "context deadline exceeded")).2 = (true, Some (RunError "context deadline exceeded")) /\
  (Claim "retention" two (t0 + 66 * Second) leaseDuration Committed Committed (ro_leases (exec (RunDue one job) (failing "context deadline exceeded")).1)).2 = Ok true.
Proof.
  destruct (round_of_job one job (failing "context deadline exceeded") eq_refl eq_refl eq_refl) as (-> & _ & H).
  split; [vm_compute; reflexivity|]. apply H; vm_compute; [reflexivity|discriminate].
Defined.

(** The message is cut after 4096 bytes, also within a character: the text is refused,
    the error is not recorded and the lease is kept. *)
Definition long_message : string := of_chars (repeat "x"%char 4095) +:+ String (char_of 195) (String (char_of 169) "").

Example cut_message_refused :
  valid_utf8b 0 (chars long_message) = true /\
  (fun r => (jl_owner r, jl_last_error r)) <$> ro_leases (exec (RunDue one job) (failing long_message)).1 !! "retention" = Some (Some one, "").
Proof. vm_compute. done. Qed.
End DemoScheduler.
