(* ===== verification/Webhook.v ===== *)
(** * Webhook delivery

    [internal/server/webhook]: the table of deliveries with the statements of
    [repository.go], the worker that claims, signs, sends and records an attempt, and
    its retry schedule.  A table is the list of its rows in order of their serial
    number; a statement that fails leaves it as it was. *)

From stdpp Require Import base strings numbers gmap list.
From Stdlib Require Import Ascii.
From S2P Require Import Prelude GoBase GoText Sha256 Sql.

Open Scope string_scope.
Open Scope Z_scope.
Local Open Scope flow_scope.
Local Open Scope list_scope.

(** ** Signing *)

(** [crypto/hmac] over SHA-256, whose block is 64 bytes. *)
Definition hmac_key (key : list Z) : list Z :=
  let k := if (64 <? length key)%nat then Sum256 key else key in k ++ replicate (64 - length k) 0.

Definition hmac_sha256 (key msg : list Z) : list Z :=
  let k := hmac_key key in
  Sum256 ((Z.lxor 92 <$> k) ++ Sum256 ((Z.lxor 54 <$> k) ++ msg)).

(** RFC 4231, test case 2. *)
Example hmac_rfc4231 :
  of_chars (hex_string (hmac_sha256 (code <$> chars "Jefe") (code <$> chars "what do ya want for nothing?"))) =
  "5bdcc146bf60754e6a042426089575c75a003f089d2739839dec58b964ec3843".
Proof. vm_compute. reflexivity. Qed.

Record Payload : Type := MkPayload {
  py_SchemaVersion : Z; py_DeliveryID : string; py_AlertID : Z; py_EventType : string; py_Severity : string;
  py_Title : string; py_Evidence : gmap string string; py_OccurredAt : time; py_DashboardURL : string }.

Definition IdempotencyKey (p : Payload) : string := py_DeliveryID p.

(** [encoding/json] on payloads. *)
Class PayloadCodec : Type := marshal_payload : Payload -> result string (list Z).

Definition EncodeAndSign `{!PayloadCodec} (p : Payload) (secret : list Z) : result string (list Z * string) :=
  if negb (py_SchemaVersion p =? 1) || bool_decide (py_DeliveryID p = "") then Err "webhook payload identity is required"
  else if (length secret =? 0)%nat then Err "webhook signing secret is required"
  else
    let* body := marshal_payload p in
    Ok (body, "sha256=" +:+ of_chars (hex_string (hmac_sha256 secret body))).

(** ** The table *)

Inductive delivery_status : Type := pending | leased | delivered | terminal | cancelled.

#[export] Instance delivery_status_eq_dec : EqDecision delivery_status.
Proof. solve_decision. Defined.

Record delivery_row : Type := MkRow {
  wd_id : Z; wd_alert_id : option Z; wd_event_type : string; wd_status : delivery_status; wd_attempt : Z;
  wd_next_attempt_at : time; wd_lease_owner : option string; wd_lease_expires_at : option time;
  wd_response_status : option Z; wd_response_excerpt : string; wd_last_error : string; wd_delivered_at : option time }.

Record Delivery : Type := MkDelivery {
  dv_ID : Z; dv_PublicID : string; dv_AlertID : Z; dv_EventType : string; dv_Severity : string; dv_Title : string;
  dv_Evidence : gmap string string; dv_OccurredAt : time; dv_Attempt : Z }.

(** What the alert of a delivery, or the payload of a test, says: severity, title,
    evidence and time; or why it cannot be decoded. *)
Class DeliveryContent : Type := delivery_content : delivery_row -> result string (string * string * gmap string string * time).

Definition ErrLeaseLost : string := "webhook delivery lease is no longer owned by this worker".

Definition update_row (id : Z) (f : delivery_row -> delivery_row) (rows : list delivery_row) : list delivery_row :=
  (fun r => if wd_id r =? id then f r else r) <$> rows.

Definition due (now : time) (r : delivery_row) : bool :=
  bool_decide (wd_status r = pending) && (wd_next_attempt_at r <=? now) ||
  bool_decide (wd_status r = leased) && match wd_lease_expires_at r with Some t => t <? now | None => false end.

(** [ORDER BY next_attempt_at,id] *)
Definition earlier (a b : delivery_row) : bool :=
  (wd_next_attempt_at a <? wd_next_attempt_at b) || (wd_next_attempt_at a =? wd_next_attempt_at b) && (wd_id a <=? wd_id b).

Fixpoint first_row (rows : list delivery_row) : option delivery_row :=
  match rows with
  | [] => None
  | r :: rest =>
      match first_row rest with
      | Some s => Some (if earlier r s then r else s)
      | None => Some r
      end
  end.

Definition lease (owner : string) (expires : time) (r : delivery_row) : delivery_row :=
  MkRow (wd_id r) (wd_alert_id r) (wd_event_type r) leased (wd_attempt r) (wd_next_attempt_at r) (Some owner) (Some expires)
    (wd_response_status r) (wd_response_excerpt r) (wd_last_error r) (wd_delivered_at r).

(** Rows another transaction has locked are skipped. *)
Definition Claim `{!DeliveryContent} (locked : Z -> bool) (owner : string) (now : time) (rows : list delivery_row)
  : result string (list delivery_row * option Delivery) :=
  match first_row (filter (fun r => due now r && negb (locked (wd_id r)) = true) rows) with
  | None => Ok (rows, None)
  | Some r =>
      let* content := delivery_content r in
      let '(severity, title, evidence, occurredAt) := content in
      let d := MkDelivery (wd_id r) ("delivery-" +:+ of_chars (format_int (wd_id r))) (default 0 (wd_alert_id r))
                 (wd_event_type r) severity title evidence occurredAt (wd_attempt r) in
      Ok (update_row (wd_id r) (lease owner (now + 2 * Minute)) rows, Some d)
  end.

Definition cleanExcerpt (value : string) : string :=
  let value := ToValidUTF8 (chars value) replacement_char in
  if (Z.to_nat 65536 <? length value)%nat
  then of_chars (ToValidUTF8 (take (Z.to_nat 65536) value) replacement_char)
  else of_chars value.

(** [WHERE id=$1 AND status='leased' AND lease_owner=$2] *)
Definition holds_lease (id : Z) (owner : string) (r : delivery_row) : bool :=
  (wd_id r =? id) && bool_decide (wd_status r = leased) && bool_decide (wd_lease_owner r = Some owner).

Definition update_held (id : Z) (owner : string) (texts : list string) (f : delivery_row -> delivery_row) (rows : list delivery_row)
  : result string (list delivery_row) :=
  if negb (forallb sql_text texts) then Err "invalid byte sequence for encoding"
  else if existsb (holds_lease id owner) rows
  then Ok ((fun r => if holds_lease id owner r then f r else r) <$> rows)
  else Err ErrLeaseLost.

Definition completed (status : Z) (excerpt : string) (now : time) (r : delivery_row) : delivery_row :=
  MkRow (wd_id r) (wd_alert_id r) (wd_event_type r) delivered (wd_attempt r) (wd_next_attempt_at r) None None
    (Some status) excerpt "" (Some now).

Definition Complete (id : Z) (owner : string) (status : Z) (excerpt : string) (now : time) (rows : list delivery_row)
  : result string (list delivery_row) :=
  let excerpt := cleanExcerpt excerpt in update_held id owner [excerpt] (completed status excerpt now) rows.

Definition failed (status : Z) (message excerpt : string) (next : time) (is_terminal : bool) (r : delivery_row) : delivery_row :=
  MkRow (wd_id r) (wd_alert_id r) (wd_event_type r) (if is_terminal then terminal else pending) (wd_attempt r + 1)
    (if is_terminal then wd_next_attempt_at r else next) None None
    (if status =? 0 then None else Some status) excerpt message (wd_delivered_at r).

Definition Fail_ (id : Z) (owner : string) (status : Z) (message excerpt : string) (next : time) (is_terminal : bool)
  (rows : list delivery_row) : result string (list delivery_row) :=
  let message := cleanExcerpt message in
  let excerpt := cleanExcerpt excerpt in
  update_held id owner [message; excerpt] (failed status message excerpt next is_terminal) rows.

(** [INSERT INTO webhook_deliveries]: of an alert, or a test. *)
Definition new_row (id : Z) (alert : option Z) (event_type : string) (now : time) : delivery_row :=
  MkRow id alert event_type pending 0 now None None None "" "" None.

Definition insertDelivery (id alertID : Z) (eventType : string) (now : time) (rows : list delivery_row) : list delivery_row :=
  rows ++ [new_row id (Some alertID) eventType now].

Definition QueueTest (id : Z) (now : time) (rows : list delivery_row) : list delivery_row :=
  rows ++ [new_row id None "test" now].

(** What [SaveSettings] does to the deliveries. *)
Definition cancel_tests (rows : list delivery_row) : list delivery_row :=
  (fun r => if bool_decide (wd_event_type r = "test") && bool_decide (wd_status r ∈ [pending; leased])
            then MkRow (wd_id r) (wd_alert_id r) (wd_event_type r) cancelled (wd_attempt r) (wd_next_attempt_at r) None None
                   (wd_response_status r) (wd_response_excerpt r) (wd_last_error r) (wd_delivered_at r)
            else r) <$> rows.

(** ** The worker *)

Definition retryDelays : list duration := [Minute; 5 * Minute; 30 * Minute; 2 * Hour; 10 * Hour].

Definition retryDelay (attempt : Z) : duration :=
  let attempt := if attempt <? 1 then 1 else attempt in
  let attempt := if Z.of_nat (length retryDelays) <? attempt then Z.of_nat (length retryDelays) else attempt in
  default 0 (retryDelays !! Z.to_nat (attempt - 1)).

(** [http.ParseTime], which depends on the time zone of the host. *)
Class HttpTime : Type := ParseTime : string -> option time.

Definition parseRetryAfter `{!HttpTime} (value : string) (now : time) : duration :=
  let by_date :=
    match ParseTime value with
    | Some at_ => if now <? at_ then Z.min (at_ - now) max_i64 else 0
    | None => 0
    end in
  match Atoi (TrimSpace (chars value)) with
  | Some seconds => if 0 <? seconds then wrap_s 64 (seconds * Second) else by_date
  | None => by_date
  end.

Record response : Type := MkResponse { rp_StatusCode : Z; rp_Body : string; rp_RetryAfter : string }.

(** What [client.Do] returned: a response may come with an error. *)
Record reply : Type := MkReply { rp_response : option response; rp_err : option string }.

(** [wk_endpoint_error]: why [http.NewRequest] refuses the endpoint, if it does. *)
Record Worker : Type := MkWorker { wk_secret : list Z; wk_dashboardURL : string; wk_endpoint_error : option string }.

(** [strings.TrimRight(url, "/")] *)
Fixpoint trim_slashes (cs : list ascii) : list ascii :=
  match cs with
  | [] => []
  | c :: rest => match trim_slashes rest with [] => if bool_decide (c = "/"%char) then [] else [c] | rest' => c :: rest' end
  end.

Definition NewWorker (secret : list Z) (dashboardURL : string) (endpoint_error : option string) : Worker :=
  MkWorker secret (of_chars (trim_slashes (chars dashboardURL))) endpoint_error.

Definition payload_of (w : Worker) (d : Delivery) : Payload :=
  MkPayload 1 (dv_PublicID d) (dv_AlertID d) (dv_EventType d) (dv_Severity d) (dv_Title d) (dv_Evidence d) (dv_OccurredAt d)
    (if bool_decide (dv_EventType d = "test") then wk_dashboardURL w +:+ "/settings"
     else wk_dashboardURL w +:+ "/alerts/" +:+ of_chars (format_int (dv_AlertID d))).

(** How an attempt is recorded. *)
Inductive conclusion : Type :=
| Completes (status : Z) (excerpt : string)
| Fails (status : Z) (message excerpt : string) (next : time) (is_terminal : bool).

(** [1 << 16] bytes of the body are read. *)
Definition excerpt_of (r : response) : string := of_chars (take (Z.to_nat 65536) (chars (rp_Body r))).

Definition StatusRequestTimeout : Z := 408.
Definition StatusTooManyRequests : Z := 429.

(** From the reply to the end of [RunOne]. *)
Definition conclude `{!HttpTime} (d : Delivery) (now : time) (rep : reply) : conclusion :=
  let status := match rp_response rep with Some r => rp_StatusCode r | None => 0 end in
  let excerpt := match rp_response rep with Some r => excerpt_of r | None => "" end in
  if bool_decide (rp_err rep = None) && (200 <=? status) && (status <? 300) then Completes status excerpt
  else
    let attempt := dv_Attempt d + 1 in
    let is_terminal := (6 <=? attempt) ||
      (400 <=? status) && (status <? 500) && negb (status =? StatusRequestTimeout) && negb (status =? StatusTooManyRequests) in
    let message :=
      match rp_err rep with
      | Some e => e
      | None => if negb (status =? 0) then "webhook returned HTTP " +:+ of_chars (format_int status) else "webhook request failed"
      end in
    let delay := retryDelay attempt in
    let delay :=
      match rp_response rep with
      | Some r => if status =? StatusTooManyRequests then Z.max delay (parseRetryAfter (rp_RetryAfter r) now) else delay
      | None => delay
      end in
    Fails status message excerpt (if is_terminal then zero_time else now + delay) is_terminal.

Definition record_attempt (owner : string) (d : Delivery) (now : time) (c : conclusion) (rows : list delivery_row)
  : result string (list delivery_row) :=
  match c with
  | Completes status excerpt => Complete (dv_ID d) owner status excerpt now rows
  | Fails status message excerpt next is_terminal => Fail_ (dv_ID d) owner status message excerpt next is_terminal rows
  end.

Section worker.
Context `{!PayloadCodec, !DeliveryContent, !HttpTime} (w : Worker).

(** What a claimed delivery comes to, given how the endpoint answers the signed
    request. *)
Definition attempt_delivery (d : Delivery) (now : time) (endpoint : list Z -> string -> reply) : conclusion :=
  match EncodeAndSign (payload_of w d) (wk_secret w) with
  | Err e => Fails 0 e "" zero_time true
  | Ok (body, signature) =>
      match wk_endpoint_error w with
      | Some e => Fails 0 e "" zero_time true
      | None => conclude d now (endpoint body signature)
      end
  end.

(** [RunOne]: whether there was a delivery, and how it ended. *)
Definition RunOne (locked : Z -> bool) (owner : string) (now : time) (endpoint : list Z -> string -> reply) (rows : list delivery_row)
  : list delivery_row * bool * result string unit :=
  match Claim locked owner now rows with
  | Err e => (rows, false, Err e)
  | Ok (rows, None) => (rows, false, Ok tt)
  | Ok (rows, Some d) =>
      match record_attempt owner d now (attempt_delivery d now endpoint) rows with
      | Ok rows => (rows, true, Ok tt)
      | Err e => (rows, true, Err e)
      end
  end.
End worker.
