(* ===== verification/WebhookTheorems.v ===== *)
(** * Properties of webhook delivery

    What holds of a delivery under any interleaving of workers, crashes and lease
    expiries, and that every delivery is settled after six attempts at most. *)

From stdpp Require Import base strings numbers gmap sets list.
From Stdlib Require Import Ascii.
From S2P Require Import Prelude GoBase GoText Sha256 Sql Webhook.

Open Scope string_scope.
Open Scope Z_scope.
Local Open Scope flow_scope.
Local Open Scope list_scope.

(** ** Rows *)

Definition open (r : delivery_row) : bool := bool_decide (wd_status r ∈ [pending; leased]).

Lemma first_row_elem rows r : first_row rows = Some r -> r ∈ rows.
Proof.
  revert r. induction rows as [|x rows IH]; intros r; simpl; [done|].
  destruct (first_row rows) as [s|]; [|intros [= <-]; by constructor].
  intros [= <-]. destruct (earlier x s); [by constructor|]. constructor. by apply IH.
Qed.

Lemma first_row_some rows r : r ∈ rows -> is_Some (first_row rows).
Proof. destruct rows as [|x rows]; [by intros ?%elem_of_nil|]. simpl. destruct (first_row rows); eauto. Qed.

Lemma due_open now r : due now r = true -> open r = true.
Proof.
  unfold due, open. rewrite orb_true_iff, !andb_true_iff, !bool_decide_eq_true. set_solver.
Qed.

Section claims.
Context {codec : PayloadCodec} {content : DeliveryContent} {http_time : HttpTime}.

(** A claim leases a row that is due. *)
Lemma Claim_spec locked owner now rows rows' d : Claim locked owner now rows = Ok (rows', Some d) ->
  exists r, r ∈ rows /\ due now r = true /\ wd_id r = dv_ID d /\ wd_attempt r = dv_Attempt d /\
    rows' = update_row (dv_ID d) (lease owner (now + 2 * Minute)) rows.
Proof.
  unfold Claim. destruct (first_row _) as [r|] eqn:E; [|done].
  apply first_row_elem in E. apply list_elem_of_filter in E as [[Hd _]%andb_true_iff Hin].
  destruct (delivery_content r) as [[[[severity title] evidence] at_]|e]; [|done]. intros [= <- <-].
  exists r. done.
Qed.

Lemma Claim_none locked owner now rows rows' : Claim locked owner now rows = Ok (rows', None) -> rows' = rows.
Proof.
  unfold Claim. destruct (first_row _) as [r|]; [|by intros [= <-]].
  destruct (delivery_content r) as [[[[severity title] evidence] at_]|e]; [|done]. by intros [=].
Qed.

(** What recording an attempt does to the rows the owner still leases. *)
Lemma record_attempt_spec owner d now c rows rows' : record_attempt owner d now c rows = Ok rows' ->
  exists f, rows' = (fun r => if holds_lease (dv_ID d) owner r then f r else r) <$> rows /\
    (forall r, wd_id (f r) = wd_id r /\ wd_event_type (f r) = wd_event_type r /\ wd_lease_owner (f r) = None) /\
    match c with
    | Completes _ _ => forall r, wd_status (f r) = delivered /\ wd_attempt (f r) = wd_attempt r
    | Fails _ _ _ _ t => forall r, wd_status (f r) = (if t then terminal else pending) /\ wd_attempt (f r) = wd_attempt r + 1
    end.
Proof.
  destruct c as [status excerpt|status message excerpt next t]; cbn [record_attempt]; unfold Complete, Fail_, update_held;
    (destruct (negb _); [done|]); (destruct (existsb _ _); [|done]); intros [= <-]; eexists; (split; [reflexivity|]); done.
Qed.

(** An attempt that is tried again is one of the first five. *)
Lemma attempt_retried w d now endpoint status message excerpt next :
  attempt_delivery w d now endpoint = Fails status message excerpt next false -> dv_Attempt d + 1 <= 5.
Proof.
  unfold attempt_delivery. destruct (EncodeAndSign _ _) as [[body signature]|]; [|done]. destruct (wk_endpoint_error w); [done|].
  unfold conclude. destruct (bool_decide _ && _ && _); [done|]. intros [= _ _ _ _ [Hn _]%orb_false_iff]. lia.
Qed.

(** A completed attempt was answered with a status of 200 to 299 and no error. *)
Lemma attempt_completes w d now endpoint status excerpt :
  attempt_delivery w d now endpoint = Completes status excerpt ->
  exists body signature r, EncodeAndSign (payload_of w d) (wk_secret w) = Ok (body, signature) /\
    rp_response (endpoint body signature) = Some r /\ rp_err (endpoint body signature) = None /\
    200 <= rp_StatusCode r < 300 /\ status = rp_StatusCode r.
Proof.
  unfold attempt_delivery. destruct (EncodeAndSign _ _) as [[body signature]|]; [|done]. destruct (wk_endpoint_error w); [done|].
  unfold conclude. destruct (bool_decide _ && _ && _) eqn:E; [|done]. intros [= <- _].
  apply andb_true_iff in E as [[He Hlo]%andb_true_iff Hhi]. apply bool_decide_eq_true in He.
  apply Z.leb_le in Hlo. apply Z.ltb_lt in Hhi. destruct (rp_response (endpoint body signature)) as [r|] eqn:Er; [|lia].
  exists body, signature, r. done.
Qed.
End claims.

(** ** Interleavings *)

(** Workers claim and record in any order and may be killed in between; alerts and the
    settings page queue and cancel deliveries.  An owner runs one delivery at a time. *)
Inductive event : Type :=
| Begins (owner : string) (now : time) (locked : Z -> bool)
| Ends (owner : string) (endpoint : list Z -> string -> reply)
| Killed (owner : string)
| AlertQueued (alert : Z) (event_type : string) (now : time)
| TestQueued (now : time)
| SettingsSaved.

(** [sy_accepted]: the deliveries that an endpoint answered with success. *)
Record system : Type := MkSystem {
  sy_rows : list delivery_row; sy_flights : gmap string (Delivery * time); sy_accepted : list Z }.

Section interleave.
Context {codec : PayloadCodec} {content : DeliveryContent} {http_time : HttpTime} (w : Worker).

(** The signed request was answered with a status of 200 to 299. *)
Definition answered (d : Delivery) (endpoint : list Z -> string -> reply) : bool :=
  match EncodeAndSign (payload_of w d) (wk_secret w) with
  | Ok (body, signature) =>
      match endpoint body signature with
      | MkReply (Some r) None => (200 <=? rp_StatusCode r) && (rp_StatusCode r <=? 299)
      | _ => false
      end
  | Err _ => false
  end.

Definition next_id (rows : list delivery_row) : Z := Z.of_nat (length rows) + 1.

Definition sys_step (s : system) (e : event) : system :=
  match e with
  | Begins owner now locked =>
      match sy_flights s !! owner with
      | Some _ => s
      | None =>
          match Claim locked owner now (sy_rows s) with
          | Ok (rows, Some d) => MkSystem rows (<[owner := (d, now)]> (sy_flights s)) (sy_accepted s)
          | _ => s
          end
      end
  | Ends owner endpoint =>
      match sy_flights s !! owner with
      | None => s
      | Some (d, now) =>
          let c := attempt_delivery w d now endpoint in
          MkSystem (match record_attempt owner d now c (sy_rows s) with Ok rows => rows | Err _ => sy_rows s end)
            (delete owner (sy_flights s))
            (if answered d endpoint then dv_ID d :: sy_accepted s else sy_accepted s)
      end
  | Killed owner => MkSystem (sy_rows s) (delete owner (sy_flights s)) (sy_accepted s)
  | AlertQueued alert event_type now => MkSystem (insertDelivery (next_id (sy_rows s)) alert event_type now (sy_rows s)) (sy_flights s) (sy_accepted s)
  | TestQueued now => MkSystem (QueueTest (next_id (sy_rows s)) now (sy_rows s)) (sy_flights s) (sy_accepted s)
  | SettingsSaved => MkSystem (cancel_tests (sy_rows s)) (sy_flights s) (sy_accepted s)
  end.

Definition sys_run (s : system) (es : list event) : system := foldl sys_step s es.
Definition sys_start : system := MkSystem [] ∅ [].

(** What a row says of its history. *)
Definition row_ok (flights : gmap string (Delivery * time)) (accepted : list Z) (r : delivery_row) : Prop :=
  0 <= wd_attempt r /\
  match wd_status r with
  | pending => wd_attempt r <= 5 /\ wd_lease_owner r = None
  | leased => wd_attempt r <= 5 /\ is_Some (wd_lease_expires_at r) /\ exists owner, wd_lease_owner r = Some owner /\
      forall d now, flights !! owner = Some (d, now) -> dv_ID d = wd_id r -> dv_Attempt d = wd_attempt r
  | delivered => wd_attempt r <= 5 /\ wd_id r ∈ accepted
  | terminal => 1 <= wd_attempt r <= 6
  | cancelled => wd_attempt r <= 5 /\ wd_event_type r = "test"
  end.

Record SysInv (s : system) : Prop := {
  si_ids : wd_id <$> sy_rows s = (fun i => Z.of_nat i + 1) <$> seq 0 (length (sy_rows s));
  si_rows : Forall (row_ok (sy_flights s) (sy_accepted s)) (sy_rows s) }.

(** Rows that are settled stay as they are. *)
Definition settled_kept (rows rows' : list delivery_row) : Prop :=
  forall r, r ∈ rows -> open r = false -> r ∈ rows'.

Lemma ids_map f (rows : list delivery_row) : (forall r, wd_id (f r) = wd_id r) -> wd_id <$> (f <$> rows) = wd_id <$> rows.
Proof. intros Hf. rewrite <- list_fmap_compose. by apply list_fmap_ext; intros; apply Hf. Qed.

Lemma ids_snoc (rows : list delivery_row) r : wd_id <$> rows = (fun i => Z.of_nat i + 1) <$> seq 0 (length rows) -> wd_id r = next_id rows ->
  wd_id <$> (rows ++ [r]) = (fun i => Z.of_nat i + 1) <$> seq 0 (length (rows ++ [r])).
Proof.
  intros Hids Hr. rewrite fmap_app, Hids, length_app. simpl. rewrite Nat.add_1_r, seq_S, fmap_app. simpl. by rewrite Hr.
Qed.

Lemma row_ok_flights flights flights' accepted accepted' r :
  (forall owner d now, wd_status r = leased -> wd_lease_owner r = Some owner -> flights' !! owner = Some (d, now) ->
     dv_ID d = wd_id r -> flights !! owner = Some (d, now)) ->
  (forall id, id ∈ accepted -> id ∈ accepted') -> row_ok flights accepted r -> row_ok flights' accepted' r.
Proof.
  intros Hf Ha [H0 Hr]. split; [done|]. destruct (wd_status r); try done; [|naive_solver].
  destruct Hr as (? & ? & owner & Ho & Hd). split; [done|]. split; [done|]. exists owner. split; [done|]. intros d now Hl Hid. apply (Hd d now); [by apply Hf|done].
Qed.

Lemma same_id_row (rows : list delivery_row) r1 r2 : wd_id <$> rows = (fun i => Z.of_nat i + 1) <$> seq 0 (length rows) ->
  r1 ∈ rows -> r2 ∈ rows -> wd_id r1 = wd_id r2 -> r1 = r2.
Proof.
  intros Hids [i Hi]%list_elem_of_lookup [j Hj]%list_elem_of_lookup E.
  assert (forall k r, rows !! k = Some r -> wd_id r = Z.of_nat k + 1) as Hk.
  { intros k r Hkr. apply (f_equal (fun l => l !! k)) in Hids. rewrite !list_lookup_fmap, Hkr in Hids. simpl in Hids.
    rewrite lookup_seq_lt in Hids by (by eapply lookup_lt_Some). simpl in Hids. by injection Hids. }
  rewrite (Hk i r1 Hi), (Hk j r2 Hj) in E. assert (i = j) as -> by lia. congruence.
Qed.

Lemma rows_map_step s f flights accepted : SysInv s -> (forall r, wd_id (f r) = wd_id r) ->
  (forall r, r ∈ sy_rows s -> row_ok flights accepted (f r)) ->
  (forall r, r ∈ sy_rows s -> open r = false -> f r = r) ->
  SysInv (MkSystem (f <$> sy_rows s) flights accepted) /\ settled_kept (sy_rows s) (f <$> sy_rows s).
Proof.
  intros [Hids Hrows] Hid Hok Hsettled. split.
  - constructor; cbn [sy_rows sy_flights sy_accepted].
    + by rewrite ids_map, length_fmap.
    + apply Forall_fmap, Forall_forall. intros r Hr. by apply Hok.
  - intros r Hr Ho. apply list_elem_of_fmap. exists r. by rewrite (Hsettled r Hr Ho).
Qed.

Lemma begins_step s owner now locked : SysInv s ->
  SysInv (sys_step s (Begins owner now locked)) /\ settled_kept (sy_rows s) (sy_rows (sys_step s (Begins owner now locked))).
Proof.
  intros HI. pose proof HI as [Hids Hrows]. assert (settled_kept (sy_rows s) (sy_rows s)) as Hrefl by (intros ?; done). cbn [sys_step]. destruct (sy_flights s !! owner) eqn:Ef; [done|].
  destruct (Claim locked owner now (sy_rows s)) as [[rows [d|]]|] eqn:E; [|done..].
  apply Claim_spec in E as (x & Hx & Hdue & Hxid & Hxat & ->). cbn [sy_rows].
  apply (rows_map_step s (fun r => if wd_id r =? dv_ID d then lease owner (now + 2 * Minute) r else r)); [done| | |].
  - intros r. by destruct (_ =? _).
  - intros r Hr. rewrite Forall_forall in Hrows. destruct (Z.eqb_spec (wd_id r) (dv_ID d)) as [Er|Er].
    + assert (r = x) as -> by (eapply same_id_row; [done|done|done|congruence]).
      apply due_open in Hdue. pose proof (Hrows x Hx) as [H0 Hst]. unfold open in Hdue. apply bool_decide_eq_true in Hdue.
      split; [done|]. cbn [lease wd_status wd_attempt wd_lease_owner wd_id]. split.
      * destruct (wd_status x); [apply Hst|apply Hst|set_solver..].
      * split; [done|]. exists owner. split; [done|]. intros d' now'. rewrite lookup_insert_eq. intros [= <- <-] _. done.
    + eapply row_ok_flights; [|done|by apply Hrows]. intros o d' now' _ _ Hl Hid.
      apply lookup_insert_Some in Hl as [[-> [= <- <-]]|[_ Hl]]; [congruence|done].
  - intros r Hr Ho. destruct (Z.eqb_spec (wd_id r) (dv_ID d)) as [Er|Er]; [|done].
    assert (r = x) as -> by (eapply same_id_row; [done|done|done|congruence]). apply due_open in Hdue. congruence.
Qed.

Lemma holds_lease_spec id owner r : holds_lease id owner r = true <-> wd_id r = id /\ wd_status r = leased /\ wd_lease_owner r = Some owner.
Proof. unfold holds_lease. rewrite !andb_true_iff, !bool_decide_eq_true, Z.eqb_eq. tauto. Qed.

Lemma ends_step s owner endpoint : SysInv s ->
  SysInv (sys_step s (Ends owner endpoint)) /\ settled_kept (sy_rows s) (sy_rows (sys_step s (Ends owner endpoint))).
Proof.
  intros HI. pose proof HI as [Hids Hrows]. assert (settled_kept (sy_rows s) (sy_rows s)) as Hrefl by (intros ?; done). cbn [sys_step]. destruct (sy_flights s !! owner) as [[d now]|] eqn:Ef; [|done].
  set (c := attempt_delivery w d now endpoint).
  set (accepted := if answered d endpoint then dv_ID d :: sy_accepted s else sy_accepted s).
  assert (forall id, id ∈ sy_accepted s -> id ∈ accepted) as Hacc by (unfold accepted; destruct (answered d endpoint); set_solver).
  assert (forall r, r ∈ sy_rows s -> row_ok (delete owner (sy_flights s)) accepted r) as Hsame.
  { intros r Hr. rewrite Forall_forall in Hrows. eapply row_ok_flights; [|exact Hacc|by apply Hrows].
    intros o d' now' _ _ Hl _. by apply lookup_delete_Some in Hl as [_ Hl]. }
  destruct (record_attempt owner d now c (sy_rows s)) as [rows|] eqn:E; cbn [sy_rows].
  2: { split; [|done]. constructor; cbn [sy_rows sy_flights sy_accepted]; [done|by apply Forall_forall]. }
  apply record_attempt_spec in E as (f & -> & Hf & Hc). apply rows_map_step; [done|..].
  - intros r. destruct (holds_lease _ _ _); [apply Hf|done].
  - intros r Hr. destruct (holds_lease (dv_ID d) owner r) eqn:Eh; [|by apply Hsame].
    apply holds_lease_spec in Eh as (Eid & Est & Eo). rewrite Forall_forall in Hrows. destruct (Hrows r Hr) as [H0 Hst].
    rewrite Est in Hst. destruct Hst as (H5 & _ & o & Eo' & Hd). assert (o = owner) as -> by congruence.
    pose proof (Hd d now Ef (eq_sym Eid)) as Hat. destruct (Hf r) as (Fid & _ & Fo). unfold row_ok, accepted.
    destruct c as [status excerpt|status message excerpt next t] eqn:Ec; destruct (Hc r) as [Fs Fa]; rewrite Fs, Fa, ?Fid.
    + split; [done|]. split; [done|].
      apply attempt_completes in Ec as (body & signature & rp & E1 & E2 & E3 & Hst & _).
      assert (answered d endpoint = true) as ->; [|set_solver]. unfold answered. rewrite E1.
      destruct (endpoint body signature) as [? ?]. simpl in E2, E3. subst. lia.
    + destruct t; split; [lia|lia|lia|]. split; [|done].
      apply attempt_retried in Ec. lia.
  - intros r _ Ho. destruct (holds_lease (dv_ID d) owner r) eqn:Eh; [|done]. apply holds_lease_spec in Eh as (_ & Est & _).
    unfold open in Ho. apply bool_decide_eq_false in Ho. set_solver.
Qed.

Lemma sys_step_inv s e : SysInv s -> SysInv (sys_step s e) /\ settled_kept (sy_rows s) (sy_rows (sys_step s e)).
Proof.
  intros HI. pose proof HI as [Hids Hrows]. assert (settled_kept (sy_rows s) (sy_rows s)) as Hrefl by (intros ?; done). rewrite Forall_forall in Hrows. destruct e as [owner now locked|owner endpoint|owner|alert event_type now|now|].
  - by apply begins_step.
  - by apply ends_step.
  - cbn [sys_step sy_rows]. split; [|done]. constructor; cbn [sy_rows sy_flights sy_accepted]; [done|]. apply Forall_forall. intros r Hr.
    eapply row_ok_flights; [|done|by apply Hrows]. intros o d' now' _ _ Hl _. by apply lookup_delete_Some in Hl as [_ Hl].
  - cbn [sys_step sy_rows]. unfold insertDelivery. split; [|set_solver]. constructor; cbn [sy_rows sy_flights sy_accepted].
    + by apply ids_snoc.
    + apply Forall_app. split; [by apply Forall_forall|]. apply Forall_singleton. by split.
  - cbn [sys_step sy_rows]. unfold QueueTest. split; [|set_solver]. constructor; cbn [sy_rows sy_flights sy_accepted].
    + by apply ids_snoc.
    + apply Forall_app. split; [by apply Forall_forall|]. apply Forall_singleton. by split.
  - cbn [sys_step sy_rows]. unfold cancel_tests. apply rows_map_step; [done|..].
    + intros r. by destruct (_ && _).
    + intros r Hr. destruct (_ && _) eqn:E; [|by apply Hrows]. apply andb_true_iff in E as [E1 E2].
      apply bool_decide_eq_true in E1, E2. destruct (Hrows r Hr) as [H0 Hst]. split; [done|]. cbn. split; [|done].
      destruct (wd_status r); [apply Hst|apply Hst|set_solver..].
    + intros r _ Ho. destruct (_ && _) eqn:E; [|done]. apply andb_true_iff in E as [_ E]. unfold open in Ho. congruence.
Qed.

Lemma sys_run_inv s es : SysInv s -> SysInv (sys_run s es) /\ settled_kept (sy_rows s) (sy_rows (sys_run s es)).
Proof.
  revert s. induction es as [|e es IH]; intros s HI; [split; [done|by intros ?]|]. destruct (sys_step_inv s e HI) as [HI' Hk].
  destruct (IH _ HI') as [HI'' Hk']. split; [done|]. intros r Hr Ho. apply Hk'; [by apply Hk|done].
Qed.
End interleave.

(** C14. Under any interleaving of workers, kills, expiring leases, replies and settings
    changes: a delivery is tried again only after fewer than six failed attempts and is
    given up with at most six; one that is recorded as delivered had an attempt whose
    request was answered with a status of 200 to 299; only tests are cancelled; and a
    delivery that is delivered, given up or cancelled never changes again. *)
Theorem delivery_lifecycle {codec : PayloadCodec} {content : DeliveryContent} {http_time : HttpTime} (w : Worker)
    (before after : list event) :
  let s := sys_run w sys_start before in
  let s' := sys_run w s after in
  Forall (row_ok (sy_flights s) (sy_accepted s)) (sy_rows s) /\
  (forall r, r ∈ sy_rows s -> open r = false -> r ∈ sy_rows s').
Proof.
  intros s s'. destruct (sys_run_inv w sys_start before) as [HI _]; [by constructor|].
  split; [apply HI|]. by apply (sys_run_inv w s after HI).
Qed.

(** ** Settling *)

Definition zero_free (cs : list ascii) : Prop := Forall (fun c => negb (code c =? 0) = true) cs.

Lemma to_valid_zero_free skip invalid cs : zero_free cs -> zero_free (to_valid replacement_char skip invalid cs).
Proof.
  intros Hcs. revert skip invalid. induction Hcs as [|c cs Hc Hcs IH]; intros skip invalid; [constructor|].
  cbn [to_valid]. destruct skip as [|skip]; [|apply Forall_cons; split; [done|apply IH]].
  destruct (rune_width (c :: cs)) as [n|]; [apply Forall_cons; split; [done|apply IH]|].
  apply Forall_app. split; [|apply IH]. destruct invalid; [constructor|]. apply (bool_decide_unpack _). by vm_compute.
Qed.

Lemma cleanExcerpt_fits s : zero_free (chars s) -> sql_text (cleanExcerpt s) = true.
Proof.
  intros Hs. unfold cleanExcerpt. pose proof (to_valid_zero_free 0 false (chars s) Hs) as H1. fold (ToValidUTF8 (chars s) replacement_char) in H1.
  assert (forall cs, zero_free cs -> sql_text (of_chars (ToValidUTF8 cs replacement_char)) = true) as Hfits.
  { intros cs Hcs. unfold sql_text. rewrite chars_of_chars, andb_true_iff. split.
    - apply (forallb_Forall_iff (fun c => negb (code c =? 0)) (fun c => negb (code c =? 0) = true)); [done|]. by apply to_valid_zero_free.
    - apply valid_utf8_b, ToValidUTF8_valid, replacement_char_valid. }
  destruct (_ <? _)%nat; apply Hfits; [|done]. by apply Forall_take.
Qed.

Lemma format_int_zero_free z : zero_free (format_int z).
Proof.
  assert (forall z, 0 <= z -> zero_free (format_uint z)) as Hu.
  { intros y Hy. apply Forall_reverse. eapply Forall_impl; [by apply digits_rev_digits|]. intros c Hc.
    unfold is_digit in Hc. reflect_bools. apply negb_true_iff, Z.eqb_neq. lia. }
  unfold format_int. destruct (Z.ltb_spec z 0); [constructor; [done|]|]; apply Hu; lia.
Qed.

(** Replies and errors without zero bytes. *)
Definition storable (rep : reply) : Prop :=
  match rp_response rep with Some r => zero_free (chars (rp_Body r)) | None => True end /\
  match rp_err rep with Some e => zero_free (chars e) | None => True end.

Definition texts (c : conclusion) : list string :=
  match c with Completes _ excerpt => [cleanExcerpt excerpt] | Fails _ message excerpt _ _ => [cleanExcerpt message; cleanExcerpt excerpt] end.

Section settle.
Context {codec : PayloadCodec} {content : DeliveryContent} {http_time : HttpTime} (w : Worker) (owner : string).
Context (Hcodec : forall p, exists body, marshal_payload p = Ok body).
Context (Hcontent : forall r, exists c, delivery_content r = Ok c).
Context (Hendpoint : match wk_endpoint_error w with Some e => zero_free (chars e) | None => True end).

Lemma conclude_storable d now rep : storable rep -> forallb sql_text (texts (conclude d now rep)) = true.
Proof.
  intros [Hbody Herr].
  assert (sql_text (cleanExcerpt (match rp_response rep with Some r => excerpt_of r | None => "" end)) = true) as He.
  { apply cleanExcerpt_fits. destruct (rp_response rep) as [r|]; [|constructor]. unfold excerpt_of.
    rewrite chars_of_chars. by apply Forall_take. }
  unfold conclude. destruct (bool_decide _ && _ && _); cbn [texts forallb]; rewrite He; [done|]. rewrite andb_true_r.
  apply cleanExcerpt_fits. destruct (rp_err rep) as [e|]; [done|]. destruct (negb _); [|apply (bool_decide_unpack _); by vm_compute].
  rewrite chars_app, chars_of_chars. apply Forall_app. split; [apply (bool_decide_unpack _); by vm_compute|]. apply format_int_zero_free.
Qed.

Lemma attempt_storable d now endpoint : (forall body signature, storable (endpoint body signature)) ->
  forallb sql_text (texts (attempt_delivery w d now endpoint)) = true.
Proof.
  intros Hs. unfold attempt_delivery, EncodeAndSign. destruct (_ || _); [by vm_compute|].
  destruct (_ =? _)%nat; [by vm_compute|]. destruct (Hcodec (payload_of w d)) as [body ->]. cbn [result_bind].
  destruct (wk_endpoint_error w) as [e|]; [|by apply conclude_storable].
  cbn [texts forallb]. rewrite (cleanExcerpt_fits e) by done. by vm_compute.
Qed.

Definition row_live (r : delivery_row) : Prop :=
  open r = true -> 0 <= wd_attempt r <= 5 /\ (wd_status r = leased -> is_Some (wd_lease_expires_at r)).

(** The rows of a queue that the lifecycle allows. *)
Record queue_ok (rows : list delivery_row) : Prop := {
  qo_ids : NoDup (wd_id <$> rows);
  qo_rows : Forall row_live rows }.

(** Attempts that may still fail. *)
Definition left (r : delivery_row) : Z := if open r then 6 - wd_attempt r else 0.
Definition attempts_left (rows : list delivery_row) : Z := sumZ left rows.

Lemma nodup_row (rows : list delivery_row) r1 r2 : NoDup (wd_id <$> rows) -> r1 ∈ rows -> r2 ∈ rows -> wd_id r1 = wd_id r2 -> r1 = r2.
Proof. apply NoDup_key_inj. Qed.

(** A change of one row that uses up an attempt. *)
Lemma queue_change (g : delivery_row -> delivery_row) rows x : queue_ok rows -> x ∈ rows -> (forall r, wd_id (g r) = wd_id r) ->
  (forall r, wd_id r <> wd_id x -> g r = r) -> row_live (g x) -> left (g x) < left x ->
  queue_ok (g <$> rows) /\ attempts_left (g <$> rows) < attempts_left rows.
Proof.
  intros [Hids Hat] Hx Hg Hother Hgx Hleft. split; [constructor|].
  - by rewrite ids_map.
  - apply Forall_fmap, Forall_forall. intros r Hr. cbn. destruct (decide (wd_id r = wd_id x)) as [E|E].
    + by rewrite (nodup_row rows r x Hids Hr Hx E).
    + rewrite Hother by done. rewrite Forall_forall in Hat. by apply Hat.
  - unfold attempts_left. rewrite sumZ_fmap.
    assert (sumZ (fun r => left (g r)) rows - sumZ left rows = left (g x) - left x) as H; [|lia].
    apply (sumZ_change (fun r => left (g r)) left); [by eapply NoDup_fmap_1|done|]. intros r Hr Hne. rewrite Hother; [done|].
    intros E. apply Hne. by apply (nodup_row rows).
Qed.

Lemma Claim_due now rows : existsb (due now) rows = true -> exists rows' d, Claim (fun _ => false) owner now rows = Ok (rows', Some d).
Proof.
  intros (r & Hin & Hd)%existsb_exists. apply list_elem_of_In in Hin. unfold Claim.
  destruct (first_row_some (filter (fun r => due now r && negb false = true) rows) r) as [x ->].
  { apply list_elem_of_filter. by rewrite andb_true_r. }
  destruct (Hcontent x) as [[[[severity title] evidence] at_] ->]. eauto.
Qed.

Lemma update_held_map id texts f rows : forallb sql_text texts = true -> existsb (holds_lease id owner) rows = true ->
  update_held id owner texts f rows = Ok ((fun r => if holds_lease id owner r then f r else r) <$> rows).
Proof. intros Ht He. unfold update_held. by rewrite Ht, He. Qed.

(** One run with a due delivery uses up an attempt. *)
Lemma RunOne_progress now endpoint rows : queue_ok rows -> existsb (due now) rows = true ->
  (forall body signature, storable (endpoint body signature)) ->
  let r := RunOne w (fun _ => false) owner now endpoint rows in
  r.1.2 = true /\ r.2 = Ok tt /\ queue_ok r.1.1 /\ attempts_left r.1.1 < attempts_left rows.
Proof.
  intros [Hids Hat] Hdue Hs. destruct (Claim_due now rows Hdue) as (rows1 & d & Ec). unfold RunOne. rewrite Ec.
  pose proof (attempt_storable d now endpoint Hs) as Htexts. set (c := attempt_delivery w d now endpoint) in *.
  apply Claim_spec in Ec as (x & Hx & Hxd & Hxid & Hxat & ->).
  assert (existsb (holds_lease (dv_ID d) owner) (update_row (dv_ID d) (lease owner (now + 2 * Minute)) rows) = true) as Hheld.
  { apply existsb_exists. exists (lease owner (now + 2 * Minute) x). split; [|by apply holds_lease_spec].
    apply list_elem_of_In, list_elem_of_fmap. exists x. by rewrite Hxid, Z.eqb_refl. }
  assert (exists rows2, record_attempt owner d now c (update_row (dv_ID d) (lease owner (now + 2 * Minute)) rows) = Ok rows2) as [rows2 Er].
  { destruct c; cbn [record_attempt texts] in *; unfold Complete, Fail_; rewrite update_held_map by done; eauto. }
  rewrite Er. cbn [fst snd]. split; [done|]. split; [done|].
  apply record_attempt_spec in Er as (f & -> & Hf & Hc).
  set (g r := if wd_id r =? dv_ID d then f (lease owner (now + 2 * Minute) r) else r).
  assert ((fun r => if holds_lease (dv_ID d) owner r then f r else r) <$> update_row (dv_ID d) (lease owner (now + 2 * Minute)) rows
    = g <$> rows) as ->.
  { unfold update_row. rewrite <- list_fmap_compose. apply list_fmap_ext. intros i r _. unfold g; simpl.
    destruct (Z.eqb_spec (wd_id r) (dv_ID d)) as [E|E].
    - assert (holds_lease (dv_ID d) owner (lease owner (now + 2 * Minute) r) = true) as -> by (by apply holds_lease_spec). done.
    - destruct (holds_lease (dv_ID d) owner r) eqn:Eh; [|done]. by apply holds_lease_spec in Eh as [? _]. }
  rewrite Forall_forall in Hat. pose proof (Hat x Hx (due_open now x Hxd)) as [Hx5 _]. apply due_open in Hxd.
  assert (row_live (g x) /\ left (g x) < left x) as [Hg1 Hg2].
  { unfold row_live, left, g. rewrite Hxid, Z.eqb_refl, Hxd. unfold open.
    destruct c as [|status message excerpt next [|]] eqn:E; destruct (Hc (lease owner (now + 2 * Minute) x)) as [-> ->]; simpl; [by split; [|lia]..|].
    apply attempt_retried in E. split; [|lia]. split; [lia|done]. }
  apply (queue_change g rows x); [split; [done|by apply Forall_forall]|done| | |done|done]; unfold g.
  - intros r. destruct (_ =? _); [|done]. by rewrite (proj1 (Hf _)).
  - intros r Hr. rewrite Hxid in Hr. by apply Z.eqb_neq in Hr as ->.
Qed.

(** A run with nothing due does nothing. *)
Lemma RunOne_idle now endpoint rows : existsb (due now) rows = false -> (RunOne w (fun _ => false) owner now endpoint rows).1.1 = rows.
Proof.
  intros Hd. unfold RunOne, Claim. destruct (first_row _) as [r|] eqn:E; [|done].
  apply first_row_elem, list_elem_of_filter in E as [[Hr _]%andb_true_iff Hin].
  assert (existsb (due now) rows = true); [|congruence]. apply existsb_exists. exists r. by rewrite <- list_elem_of_In.
Qed.

(** The worker polls: the rows before its [n]-th run. *)
Context (clock : nat -> time) (endpoint : nat -> list Z -> string -> reply).

Fixpoint polls (rows : list delivery_row) (n : nat) : list delivery_row :=
  match n with
  | O => rows
  | S n => (RunOne w (fun _ => false) owner (clock n) (endpoint n) (polls rows n)).1.1
  end.

Definition all_settled (rows : list delivery_row) : Prop := Forall (fun r => open r = false) rows.

Context (Hclock : forall t, exists n, forall m, (n <= m)%nat -> t < clock m).
Context (Hreplies : forall n body signature, storable (endpoint n body signature)).

Lemma poll_cases rows : queue_ok rows -> forall n, queue_ok (polls rows n) /\
  (existsb (due (clock n)) (polls rows n) = false /\ polls rows (S n) = polls rows n \/
   queue_ok (polls rows (S n)) /\ attempts_left (polls rows (S n)) < attempts_left (polls rows n)).
Proof.
  intros Hq. assert (forall n, queue_ok (polls rows n) ->
    (existsb (due (clock n)) (polls rows n) = false /\ polls rows (S n) = polls rows n \/
     queue_ok (polls rows (S n)) /\ attempts_left (polls rows (S n)) < attempts_left (polls rows n))) as Hstep.
  { intros n Hn. destruct (existsb (due (clock n)) (polls rows n)) eqn:E; [right|left; split; [done|by apply RunOne_idle]].
    by destruct (RunOne_progress (clock n) (endpoint n) (polls rows n) Hn E (Hreplies n)) as (_ & _ & ? & ?). }
  intros n. assert (queue_ok (polls rows n)) as Hn; [|by split; [|apply Hstep]].
  induction n as [|n IH]; [done|]. destruct (Hstep n IH) as [[_ ->]|[? _]]; done.
Qed.

(** A row that is open becomes due. *)
Lemma open_due rows r : queue_ok rows -> r ∈ rows -> open r = true -> exists t, forall now, t < now -> due now r = true.
Proof.
  intros [_ Hrows] Hr Ho. rewrite Forall_forall in Hrows. destruct (Hrows r Hr Ho) as [_ Hl].
  unfold open in Ho. apply bool_decide_eq_true in Ho. unfold due. destruct (wd_status r) eqn:Est; [| |set_solver..].
  - exists (wd_next_attempt_at r). intros now Hn. simpl. rewrite orb_true_iff. left. lia.
  - destruct (Hl eq_refl) as [t Et]. exists t. intros now Hn. rewrite Et. simpl. lia.
Qed.

Lemma polls_progress rows k : queue_ok rows -> ~ all_settled (polls rows k) ->
  exists n, attempts_left (polls rows n) < attempts_left (polls rows k).
Proof.
  intros Hq Hopen. destruct (poll_cases rows Hq k) as [Hk _].
  assert (exists r, r ∈ polls rows k /\ open r = true) as (r & Hr & Ho).
  { apply not_Forall_Exists, Exists_exists in Hopen as (r & Hr & Ho); [|solve_decision]. exists r. split; [done|]. by apply not_false_is_true. }
  destruct (open_due _ r Hk Hr Ho) as [t Ht]. destruct (Hclock t) as [N HN].
  assert (forall j, polls rows (k + j) = polls rows k \/ exists n, attempts_left (polls rows n) < attempts_left (polls rows k)) as Hj.
  { induction j as [|j [IH|IH]]; [left; by rewrite Nat.add_0_r| |by right]. rewrite Nat.add_succ_r.
    destruct (poll_cases rows Hq (k + j)) as [_ [[_ E]|[_ E]]]; [left; congruence|]. right. exists (S (k + j)). by rewrite <- IH. }
  destruct (Hj N) as [E|?]; [|done]. destruct (poll_cases rows Hq (k + N)) as [_ [[Hidle _]|[_ Hlt]]].
  - exfalso. assert (existsb (due (clock (k + N))) (polls rows (k + N)) = true); [|congruence]. rewrite E.
    apply existsb_exists. exists r. rewrite <- list_elem_of_In. split; [done|]. apply Ht, HN. lia.
  - exists (S (k + N)). by rewrite <- E.
Qed.

Lemma attempts_left_nonneg rows : queue_ok rows -> 0 <= attempts_left rows.
Proof.
  intros [_ Hrows]. apply sumZ_nonneg. intros r Hr. unfold left. rewrite Forall_forall in Hrows.
  destruct (open r) eqn:E; [|done]. destruct (Hrows r Hr E) as [? _]. lia.
Qed.

Lemma settled_stay rows n m : queue_ok rows -> all_settled (polls rows n) -> (n <= m)%nat -> polls rows m = polls rows n.
Proof.
  intros Hq Hs. induction 1 as [|m Hm IH]; [done|]. destruct (poll_cases rows Hq m) as [Hqm [[_ E]|[Hqs Hlt]]]; [congruence|]. exfalso.
  rewrite IH in Hlt. unfold attempts_left at 2 in Hlt. rewrite sumZ_zero in Hlt.
  - pose proof (attempts_left_nonneg _ Hqs). lia.
  - intros r Hr. unfold left. by rewrite (proj1 (Forall_forall _ _) Hs r Hr).
Qed.

Lemma polls_settle rows : queue_ok rows -> exists n, forall m, (n <= m)%nat -> all_settled (polls rows m).
Proof.
  intros Hq. assert (exists n, all_settled (polls rows n)) as [n Hn].
  { assert (forall b k, attempts_left (polls rows k) < Z.of_nat b -> exists n, all_settled (polls rows n)) as H.
    { induction b as [|b IH]; intros k Hb.
      { destruct (poll_cases rows Hq k) as [Hk _]. pose proof (attempts_left_nonneg _ Hk). lia. }
      destruct (decide (all_settled (polls rows k))) as [|Hn]; [by exists k|].
      destruct (polls_progress rows k Hq Hn) as [n Hlt]. apply (IH n). lia. }
    pose proof (attempts_left_nonneg rows Hq). apply (H (S (Z.to_nat (attempts_left rows))) O). cbn [polls]. lia. }
  exists n. intros m Hm. by rewrite (settled_stay rows n m).
Qed.
End settle.

Lemma reachable_queue_ok `{!PayloadCodec, !DeliveryContent, !HttpTime} w before : queue_ok (sy_rows (sys_run w sys_start before)).
Proof.
  destruct (sys_run_inv w sys_start before) as [[Hids Hrows] _]; [by constructor|]. constructor.
  - rewrite Hids. apply NoDup_fmap_2_strong; [|apply NoDup_seq]. intros. lia.
  - eapply Forall_impl; [exact Hrows|]. intros r [Hat0 Hst] Ho. unfold open in Ho. apply bool_decide_eq_true in Ho.
    destruct (wd_status r) eqn:Est; [| |set_solver..].
    + split; [|done]. destruct Hst. lia.
    + split; [destruct Hst; lia|]. intros _. apply Hst.
Qed.

(** C13. From every state that workers, crashes and settings changes can leave behind,
    a worker whose statements go through and that keeps polling while the clock runs on
    settles every delivery: after finitely many runs each one is delivered, given up or
    cancelled, for good, however the endpoint answers, as long as its answers can be stored
    (they hold no zero bytes). *)
Theorem deliveries_settle {codec : PayloadCodec} {content : DeliveryContent} {http_time : HttpTime} (w : Worker) (before : list event)
    (owner : string) (clock : nat -> time) (endpoint : nat -> list Z -> string -> reply)
    (Hcodec : forall p, exists body, marshal_payload p = Ok body)
    (Hcontent : forall r, exists c, delivery_content r = Ok c)
    (Hrequest : match wk_endpoint_error w with Some e => zero_free (chars e) | None => True end)
    (Hclock : forall t, exists n, forall m, (n <= m)%nat -> t < clock m)
    (Hreplies : forall n body signature, storable (endpoint n body signature)) :
  let rows := sy_rows (sys_run w sys_start before) in
  exists n, forall m, (n <= m)%nat -> all_settled (polls w owner clock endpoint rows m).
Proof.
  intros rows. apply polls_settle; [done..|]. apply reachable_queue_ok.
Qed.

(** ** A sample endpoint *)

Module DemoWebhook.

#[local] Instance codec : PayloadCodec := fun p => Ok (code <$> chars (py_DeliveryID p)).
#[local] Instance content : DeliveryContent := fun r => Ok ("warning", wd_event_type r, ∅, 0).
#[local] Instance http_time : HttpTime := fun _ => None.

Definition worker : Worker := NewWorker [1; 2; 3] "https://flowlens.example/" None.
Definition answer (status : Z) (body : string) : reply := MkReply (Some (MkResponse status body "")) None.

(** An alert and a test are queued; the worker that took the first of them is killed. *)
Definition before : list event := [AlertQueued 7 "opened" 0; TestQueued 5; Begins "a" 9 (fun _ => false); Killed "a"].

(** The endpoint fails three times, then it accepts. *)
Definition endpoint (n : nat) (body : list Z) (signature : string) : reply :=
  if (n <? 3)%nat then answer 503 "busy" else answer 200 "ok".
Definition clock (n : nat) : time := Z.of_nat n * Hour.

Example settled_after_five_runs :
  (fun r => (wd_id r, wd_status r, wd_attempt r)) <$> polls worker "b" clock endpoint (sy_rows (sys_run worker sys_start before)) 5 =
  [(1, delivered, 1); (2, delivered, 1)].
Proof. vm_compute. reflexivity. Qed.

(** The payload's link and the recorded status. *)
Example test_link : py_DashboardURL (payload_of worker (MkDelivery 2 "delivery-2" 0 "test" "" "" ∅ 0 0)) = "https://flowlens.example/settings".
Proof. vm_compute. reflexivity. Qed.

Lemma deliveries_settle_witness :
  exists n, forall m, (n <= m)%nat ->
    all_settled (polls worker "b" clock endpoint (sy_rows (sys_run worker sys_start before)) m).
Proof.
  apply (deliveries_settle worker before "b" clock endpoint).
  - intros p. by exists (code <$> chars (py_DeliveryID p)).
  - intros r. by exists ("warning", wd_event_type r, ∅, 0).
  - done.
  - intros t. exists (Z.to_nat (Z.max 0 t + 1)). intros m Hm. unfold clock, Hour, Minute, Second. lia.
  - intros n body signature. unfold endpoint. destruct (n <? 3)%nat; (split; [|done]); apply (bool_decide_unpack _); by vm_compute.
Defined.

(** An answer whose body holds a zero byte cannot be recorded: the delivery stays
    leased, and it is sent again whenever the lease has expired. *)
Definition zero_body : string := String (char_of 0) "".

Lemma zero_byte_never_settles n : exists r,
  polls worker "b" clock (fun _ _ _ => answer 200 zero_body) [new_row 1 (Some 7) "opened" 0] n = [r] /\ open r = true /\ wd_attempt r = 0.
Proof.
  assert (exists r, polls worker "b" clock (fun _ _ _ => answer 200 zero_body) [new_row 1 (Some 7) "opened" 0] n = [r] /\
    (r = new_row 1 (Some 7) "opened" 0 \/ exists t, r = lease "b" t (new_row 1 (Some 7) "opened" 0))) as (r & -> & Hr).
  2: { exists r. split; [done|]. by destruct Hr as [->|[t ->]]. }
  induction n as [|n (r & E & Hr)]; [eauto|]. cbn [polls]. rewrite E. unfold RunOne, Claim.
  destruct (first_row _) as [x|] eqn:Ex; [|eauto]. apply first_row_elem, list_elem_of_filter in Ex as [_ ->%list_elem_of_singleton].
  assert (wd_id r = 1 /\ wd_event_type r = "opened" /\ wd_attempt r = 0 /\ wd_alert_id r = Some 7 /\ forall t, lease "b" t r = lease "b" t (new_row 1 (Some 7) "opened" 0))
    as (E1 & E2 & E3 & E4 & E5) by (by destruct Hr as [->|[t ->]]).
  change (delivery_content r) with (Ok (E := string) ("warning", wd_event_type r, (∅ : gmap string string), 0)).
  cbn [result_bind]. rewrite E1, E2, E3, E4. unfold update_row. cbn [fmap list_fmap]. rewrite E1. cbn [Z.eqb Pos.eqb]. rewrite E5.
  exists (lease "b" (clock n + 2 * Minute) (new_row 1 (Some 7) "opened" 0)). split; [|eauto].
  set (d := MkDelivery 1 _ _ _ _ _ _ _ _).
  assert (forall now, attempt_delivery worker d now (fun _ _ => answer 200 zero_body) = Completes 200 zero_body) as -> by (intros; vm_compute; reflexivity).
  assert (forall now rows, record_attempt "b" d now (Completes 200 zero_body) rows = Err "invalid byte sequence for encoding") as -> by done.
  done.
Qed.

End DemoWebhook.
