(* ===== verification/Reconcile.v ===== *)
(** * Alert reconciliation

    [internal/server/alerts/repository.go] and [runner.go]: the findings of a rule for a
    node against the rows of the alerts table, in one transaction that also queues the
    webhook deliveries.  The life of an alert as [Alerts] specifies it, read off the
    table. *)

From stdpp Require Import base strings numbers gmap list.
From Stdlib Require Import Ascii SpecFloat.
From S2P Require Import Prelude GoBase GoText Alerts Sql.
From S2P Require Webhook.

Open Scope string_scope.
Open Scope Z_scope.
Local Open Scope flow_scope.
Local Open Scope list_scope.

(** ** The tables *)

Record alert_row : Type := MkAlert {
  al_id : Z; al_rule : string; al_fingerprint : string; al_severity : string; al_status : string; al_node : string;
  al_owner : option string; al_title : string; al_evidence : string; al_observed : float64; al_comparison : option float64;
  al_window : Z; al_first : time; al_last : time; al_resolved : option time; al_count : Z; al_missing : Z }.

Record rule_row : Type := MkRuleRow {
  rl_kind : string; rl_name : string; rl_enabled : bool; rl_severity : string; rl_threshold : float64;
  rl_multiplier : float64; rl_window : Z; rl_updated : time }.

(** [ad_next_alert], [ad_next_delivery]: the sequences of the identifiers. *)
Record alert_db : Type := MkAlertDb {
  ad_nodes : list string; ad_rules : gmap string rule_row; ad_alerts : list alert_row;
  ad_deliveries : list Webhook.delivery_row; ad_next_alert : Z; ad_next_delivery : Z }.

Definition set_rules (m : gmap string rule_row) (db : alert_db) : alert_db :=
  MkAlertDb (ad_nodes db) m (ad_alerts db) (ad_deliveries db) (ad_next_alert db) (ad_next_delivery db).
Definition set_alerts (l : list alert_row) (db : alert_db) : alert_db :=
  MkAlertDb (ad_nodes db) (ad_rules db) l (ad_deliveries db) (ad_next_alert db) (ad_next_delivery db).

Definition severity_ok (severity : string) : bool :=
  String.eqb severity SeverityInfo || String.eqb severity SeverityWarning || String.eqb severity SeverityCritical.

Definition state_of (r : alert_row) : AlertState :=
  MkAlertState (al_status r) (al_severity r) (al_count r) (al_missing r) (al_first r) (al_last r) (al_resolved r).

Definition opened (r : alert_row) : Prop := al_status r = StatusOpen.

#[export] Instance opened_dec r : base.Decision (opened r).
Proof. unfold opened. apply _. Defined.

(** [WHERE fingerprint=$1 AND status='open'] *)
Definition open_rows (fingerprint : string) (rows : list alert_row) : list alert_row :=
  filter (fun r => al_fingerprint r = fingerprint /\ opened r) rows.

Definition update_alert (id : Z) (f : alert_row -> alert_row) (rows : list alert_row) : list alert_row :=
  (fun r => if al_id r =? id then f r else r) <$> rows.

(** What a [jsonb] column keeps of a JSON text, if it takes it. *)
Class Jsonb : Type := jsonb : list Z -> option string.

Section reconcile.
(** [json.Marshal] of a map of strings, and the order of a scan. *)
Context {tz : Timestamptz} {jb : Jsonb} (marshal : gmap string string -> list Z) (scan : list alert_row -> list alert_row).

Definition ValidateEvidence (evidence : gmap string string) : option string :=
  if negb (forallb (fun kv => bool_decide (kv.1 ∈ allowed_keys)) (map_to_list evidence)) then Some "alert evidence contains an unsupported key"
  else if 16384 <? Z.of_nat (length (marshal evidence)) then Some "alert evidence exceeds 16 KiB"
  else None.

(** The upsert of the rule. *)
Definition upsert_rule (rule : Rule) (now : time) : Sql alert_db unit :=
  execute "upsert alert rule"
    (sql_text (ru_ID rule) && sql_text (kind_string (ru_Kind rule)) && sql_text (ru_Name rule) && severity_ok (ru_Severity rule) && in_int4 (ru_WindowSeconds rule))
    (fun db => set_rules (<[ru_ID rule := MkRuleRow (kind_string (ru_Kind rule)) (ru_Name rule) (ru_Enabled rule) (ru_Severity rule)
                                            (ru_Threshold rule) (ru_Multiplier rule) (ru_WindowSeconds rule) (timestamptz now)]> (ad_rules db)) db).

Definition opt_text (s : option string) : bool := match s with Some s => sql_text s | None => true end.

(** [INSERT INTO alerts ... RETURNING id], with the checks of the columns and the index
    on open fingerprints. *)
Definition open_alert (f : Finding) (now : time) : Sql alert_db Z :=
  statement "open alert" (fun db =>
    match jsonb (marshal (Evidence f)) with
    | None => None
    | Some evidence =>
        if sql_text (fi_RuleID f) && bool_decide (is_Some (ad_rules db !! fi_RuleID f)) && sql_text (fi_Fingerprint f) && severity_ok (fi_Severity f) &&
           bool_decide (fi_NodeID f ∈ ad_nodes db) && opt_text (fi_OwnerID f) && sql_text (Title f) &&
           in_int4 (fi_WindowSeconds f) && (0 <? fi_WindowSeconds f) && bool_decide (open_rows (fi_Fingerprint f) (ad_alerts db) = [])
        then
          Some (ad_next_alert db,
            MkAlertDb (ad_nodes db) (ad_rules db)
              (ad_alerts db ++ [MkAlert (ad_next_alert db) (fi_RuleID f) (fi_Fingerprint f) (fi_Severity f) StatusOpen (fi_NodeID f) (fi_OwnerID f)
                 (Title f) evidence (ObservedValue f) (ComparisonValue f) (fi_WindowSeconds f) (timestamptz now) (timestamptz now) None 1 0])
              (ad_deliveries db) (ad_next_alert db + 1) (ad_next_delivery db))
        else None
    end).

Definition insertDelivery (alertID : Z) (eventType : string) (now : time) : Sql alert_db unit :=
  execute "queue alert delivery" true (fun db =>
    MkAlertDb (ad_nodes db) (ad_rules db) (ad_alerts db)
      (Webhook.insertDelivery (ad_next_delivery db) alertID eventType (timestamptz now) (ad_deliveries db))
      (ad_next_alert db) (ad_next_delivery db + 1)).

Definition updated_alert (next : AlertState) (f : Finding) (evidence : string) (r : alert_row) : alert_row :=
  MkAlert (al_id r) (al_rule r) (al_fingerprint r) (Severity next) (al_status r) (al_node r) (al_owner r) (Title f) evidence (ObservedValue f)
    (ComparisonValue f) (fi_WindowSeconds f) (al_first r) (timestamptz (LastSeenAt next)) (al_resolved r) (OccurrenceCount next) 0.

Definition update_open (id : Z) (next : AlertState) (f : Finding) : Sql alert_db unit :=
  statement "update open alert" (fun db =>
    match jsonb (marshal (Evidence f)) with
    | None => None
    | Some evidence =>
        if severity_ok (Severity next) && sql_text (Title f) && in_int4 (fi_WindowSeconds f) && (0 <? fi_WindowSeconds f) &&
           in_int8 (OccurrenceCount next) && (0 <? OccurrenceCount next)
        then Some (tt, set_alerts (update_alert id (updated_alert next f evidence) (ad_alerts db)) db)
        else None
    end).

Definition applyFinding (f : Finding) (now : time) : Sql alert_db unit :=
  let+ current := query "load open alert" (sql_text (fi_Fingerprint f)) (fun db => head (scan (open_rows (fi_Fingerprint f) (ad_alerts db)))) in
  match current with
  | None =>
      let+ id := open_alert f now in
      insertDelivery id "opened" now
  | Some r =>
      let '(next, notify) := ApplyFinding (Some (state_of r)) f now in
      let+ _ := update_open (al_id r) next f in
      if notify then insertDelivery (al_id r) "severity_increased" now else sql_ret tt
  end.

Definition missed_alert (next : AlertState) (r : alert_row) : alert_row :=
  MkAlert (al_id r) (al_rule r) (al_fingerprint r) (al_severity r) (al_status r) (al_node r) (al_owner r) (al_title r) (al_evidence r) (al_observed r)
    (al_comparison r) (al_window r) (al_first r) (al_last r) (al_resolved r) (al_count r) (MissingWindows next).

Definition resolved_alert (next : AlertState) (now : time) (r : alert_row) : alert_row :=
  MkAlert (al_id r) (al_rule r) (al_fingerprint r) (al_severity r) StatusResolved (al_node r) (al_owner r) (al_title r) (al_evidence r) (al_observed r)
    (al_comparison r) (al_window r) (al_first r) (al_last r) (Some (timestamptz now)) (al_count r) (MissingWindows next).

Definition miss_alert (now : time) (r : alert_row) : Sql alert_db unit :=
  let '(next, is_resolved) := ApplyMissing (state_of r) now in
  let fits := in_int4 (MissingWindows next) && (0 <=? MissingWindows next) in
  if is_resolved
  then execute "resolve alert" fits (fun db => set_alerts (update_alert (al_id r) (resolved_alert next now) (ad_alerts db)) db)
  else execute "mark alert missing" fits (fun db => set_alerts (update_alert (al_id r) (missed_alert next) (ad_alerts db)) db).

Definition applyMissing (ruleID nodeID : string) (seen : list string) (now : time) : Sql alert_db unit :=
  let+ rows := query "load missing alerts" (sql_text ruleID && sql_text nodeID)
                 (fun db => scan (filter (fun r => al_rule r = ruleID /\ al_node r = nodeID /\ opened r) (ad_alerts db))) in
  sql_each (miss_alert now) (filter (fun r => al_fingerprint r ∉ seen) rows).

(** One finding of the loop of [Reconcile]. *)
Definition reconcile_finding (rule : Rule) (nodeID : string) (now : time) (f : Finding) : Sql alert_db unit :=
  if negb (String.eqb (fi_RuleID f) (ru_ID rule)) || negb (String.eqb (fi_NodeID f) nodeID)
  then sql_fail "finding does not belong to the reconciled rule and node"
  else match ValidateEvidence (Evidence f) with
       | Some e => sql_fail e
       | None => applyFinding f now
       end.

(** The transaction; the advisory lock is a statement. *)
Definition reconcile_transaction (rule : Rule) (nodeID : string) (findings : list Finding) (now : time) : Sql alert_db unit :=
  let+ _ := upsert_rule rule now in
  let+ _ := execute "lock alert rule" true id in
  let+ _ := sql_each (reconcile_finding rule nodeID now) findings in
  applyMissing (ru_ID rule) nodeID (fi_Fingerprint <$> findings) now.

Definition Reconcile (rule : Rule) (nodeID : string) (findings : list Finding) (now : time) (left : nat) (outcome : commit_outcome) (db : alert_db)
  : alert_db * result string unit :=
  transact (reconcile_transaction rule nodeID findings now) left outcome db.

(** ** [Runner.Run] *)

(** The observations of a rule for a node, as the source answers, and how each
    transaction fares. *)
Context (Observations : Rule -> string -> time -> alert_db -> result string (list Observation)).

Definition findings_of (rule : Rule) (observations : list Observation) (now : time) : list Finding :=
  observations ≫= fun o => EvaluateRule rule o now.

Fixpoint run_pairs (pairs : list (Rule * string)) (now : time) (fate : nat -> nat * commit_outcome) (db : alert_db) : alert_db * result string unit :=
  match pairs with
  | [] => (db, Ok tt)
  | (rule, nodeID) :: rest =>
      match Observations rule nodeID now db with
      | Err e => (db, Err e)
      | Ok observations =>
          match Reconcile rule nodeID (findings_of rule observations now) now (fate (length rest)).1 (fate (length rest)).2 db with
          | (db, Err e) => (db, Err e)
          | (db, Ok _) => run_pairs rest now fate db
          end
      end
  end.

Definition RunAlerts (rules : result string (list Rule)) (nodes : result string (list string)) (now : time) (fate : nat -> nat * commit_outcome)
  (db : alert_db) : alert_db * result string unit :=
  match rules, nodes with
  | Err e, _ => (db, Err e)
  | Ok _, Err e => (db, Err e)
  | Ok rules, Ok nodes => run_pairs (rules ≫= fun r => (fun n => (r, n)) <$> nodes) now fate db
  end.
End reconcile.
