(* ===== verification/ReconcileTheorems.v ===== *)
(** * Properties of alert reconciliation

    Whatever transactions run and break, the open row of a fingerprint is the alert that
    [Alerts.spec_state] makes of its windows, and a delivery is queued exactly for the
    windows [Alerts.spec_note] announces. *)

From stdpp Require Import base strings numbers gmap list.
From Stdlib Require Import Ascii SpecFloat.
From S2P Require Import Prelude GoBase GoText Alerts Sql Reconcile.
From S2P Require Webhook.

Open Scope string_scope.
Open Scope Z_scope.
Local Open Scope flow_scope.
Local Open Scope list_scope.

Section lemmas.
Context {tz : Timestamptz} {jb : Jsonb} (marshal : gmap string string -> list Z) (scan : list alert_row -> list alert_row).
Context (scan_perm : forall l, scan l ≡ₚ l).

(** ** Rows *)

Record Wf (rows : list alert_row) (next : Z) : Prop := {
  wf_ids : NoDup (al_id <$> rows);
  wf_next r : r ∈ rows -> al_id r < next;
  wf_open fp : (length (open_rows fp rows) <= 1)%nat }.

(** The open states of a fingerprint. *)
Definition view (rows : list alert_row) (fp : string) : list AlertState := state_of <$> open_rows fp rows.

Lemma open_rows_in fp rows r : r ∈ open_rows fp rows <-> r ∈ rows /\ al_fingerprint r = fp /\ opened r.
Proof. unfold open_rows. rewrite list_elem_of_filter. tauto. Qed.

Lemma open_rows_single rows next r : Wf rows next -> r ∈ rows -> opened r -> open_rows (al_fingerprint r) rows = [r].
Proof.
  intros Hwf Hr Ho. pose proof (wf_open _ _ Hwf (al_fingerprint r)) as Hl.
  assert (r ∈ open_rows (al_fingerprint r) rows) as Hin by by apply open_rows_in.
  destruct (open_rows (al_fingerprint r) rows) as [|r' [|r'' l]]; [by apply elem_of_nil in Hin| |simpl in Hl; lia].
  apply list_elem_of_singleton in Hin. by subst.
Qed.

Lemma update_alert_none id f rows : (forall r, r ∈ rows -> al_id r <> id) -> update_alert id f rows = rows.
Proof.
  intros Hn. unfold update_alert. rewrite <- (list_fmap_id rows) at 2. apply list_fmap_ext. intros i r Hr%list_elem_of_lookup_2.
  rewrite (proj2 (Z.eqb_neq _ _)); [done|]. by apply Hn.
Qed.

(** The update of a row that keeps identifier and fingerprint. *)
Lemma open_rows_update fp f rows r : NoDup (al_id <$> rows) -> r ∈ rows -> opened r ->
  al_fingerprint (f r) = al_fingerprint r ->
  open_rows fp (update_alert (al_id r) f rows) =
  open_rows fp rows ≫= fun x => if al_id x =? al_id r then (if decide (opened (f r)) then [f r] else []) else [x].
Proof.
  intros Hn Hr Ho Hf. induction rows as [|x rows IH]; [by apply elem_of_nil in Hr|].
  rewrite fmap_cons in Hn. apply NoDup_cons in Hn as [Hx Hn]. unfold update_alert. rewrite fmap_cons. fold (update_alert (al_id r) f rows).
  assert (forall y, y ∈ rows -> al_id y <> al_id x) as Hne.
  { intros y Hy E. apply Hx. rewrite <- E. by apply list_elem_of_fmap_2. }
  unfold open_rows in *. apply elem_of_cons in Hr as [-> |Hr].
  - rewrite Z.eqb_refl, update_alert_none by done. rewrite !filter_cons.
    assert (filter (fun r => al_fingerprint r = fp /\ opened r) rows =
      filter (fun r => al_fingerprint r = fp /\ opened r) rows ≫= (fun y => if al_id y =? al_id x then if decide (opened (f x)) then [f x] else [] else [y])) as Hid.
    { assert (forall l, (forall y, y ∈ l -> al_id y <> al_id x) -> l = l ≫= (fun y => if al_id y =? al_id x then if decide (opened (f x)) then [f x] else [] else [y])) as Hgen.
      { induction l as [|y l IHl]; intros Hl; [done|]. rewrite bind_cons, <- IHl; [|intros; apply Hl; by constructor].
        rewrite (proj2 (Z.eqb_neq _ _)); [done|]. apply Hl. by constructor. }
      apply Hgen. intros y [_ Hy]%list_elem_of_filter. by apply Hne. }
    destruct (decide (al_fingerprint x = fp /\ opened x)) as [[Hfp Hox]|Hn'].
    + rewrite bind_cons, Z.eqb_refl, <- Hid. destruct (decide (opened (f x))) as [Hof|Hof].
      * rewrite decide_True by (split; [congruence|done]). done.
      * rewrite decide_False by tauto. done.
    + rewrite <- Hid. rewrite decide_False; [done|]. intros [H1 H2]. apply Hn'. split; [congruence|done].
  - assert (al_id x <> al_id r) as Hxr by (intros E; by apply (Hne r Hr)).
    rewrite (proj2 (Z.eqb_neq _ _)) by done. rewrite !filter_cons, IH by done.
    destruct (decide (al_fingerprint x = fp /\ opened x)); [|done].
    rewrite bind_cons, (proj2 (Z.eqb_neq _ _)) by done. done.
Qed.

Lemma update_ids id f rows : (forall r, al_id (f r) = al_id r) -> al_id <$> update_alert id f rows = al_id <$> rows.
Proof.
  intros Hf. unfold update_alert. rewrite <- list_fmap_compose. apply list_fmap_ext. intros i r _. simpl. by case_match.
Qed.

Definition upd (fp : string) (l : list AlertState) (V : string -> list AlertState) : string -> list AlertState :=
  fun x => if decide (x = fp) then l else V x.

(** An update of an open row: the view changes at its fingerprint only. *)
Lemma update_view rows next r f : Wf rows next -> r ∈ rows -> opened r -> (forall x, al_id (f x) = al_id x) ->
  al_fingerprint (f r) = al_fingerprint r ->
  Wf (update_alert (al_id r) f rows) next /\
  forall fp, view (update_alert (al_id r) f rows) fp =
    upd (al_fingerprint r) (if decide (opened (f r)) then [state_of (f r)] else []) (view rows) fp.
Proof.
  intros Hwf Hr Ho Hid Hf.
  assert (forall fp, open_rows fp (update_alert (al_id r) f rows) =
    if decide (fp = al_fingerprint r) then (if decide (opened (f r)) then [f r] else []) else open_rows fp rows) as Hopen.
  { intros fp. rewrite open_rows_update by (done || apply Hwf). destruct (decide (fp = al_fingerprint r)) as [-> |Hne].
    - rewrite (open_rows_single rows next r) by done. rewrite bind_cons, Z.eqb_refl. simpl. by rewrite app_nil_r.
    - assert (forall l, (forall y, y ∈ l -> y ∈ rows /\ al_fingerprint y = fp) ->
        l ≫= (fun y => if al_id y =? al_id r then if decide (opened (f r)) then [f r] else [] else [y]) = l) as Hgen.
      { induction l as [|y l IHl]; intros Hl; [done|]. rewrite bind_cons, IHl by (intros; apply Hl; by constructor).
        destruct (Hl y) as [Hy Hfy]; [by constructor|]. rewrite (proj2 (Z.eqb_neq _ _)); [done|]. intros E.
        apply Hne. rewrite <- Hfy. f_equal. eapply (NoDup_key_inj al_id); [apply Hwf|done..]. }
      apply Hgen. intros y. rewrite open_rows_in. tauto. }
  split; [split|].
  - rewrite update_ids by done. apply Hwf.
  - intros x Hx. apply (wf_next _ _ Hwf) in Hr as Hr'. apply list_elem_of_fmap in Hx as (y & -> & Hy). apply (wf_next _ _ Hwf) in Hy.
    destruct (_ =? _); [by rewrite Hid|done].
  - intros fp. rewrite Hopen. destruct (decide (fp = al_fingerprint r)); [|apply Hwf]. destruct (decide (opened (f r))); simpl; lia.
  - intros fp. unfold view, upd. rewrite Hopen. destruct (decide (fp = al_fingerprint r)); [|done]. by destruct (decide (opened (f r))).
Qed.
(** ** Findings *)

(** The rule and the node of a fingerprint. *)
Context (home : string -> string * string).

Definition Tidy (rows : list alert_row) : Prop :=
  forall r, r ∈ rows -> opened r -> al_resolved r = None /\ (al_rule r, al_node r) = home (al_fingerprint r).

(** A delivery row for the alert of a fingerprint. *)
Definition noted (rows : list alert_row) (note : string * string) (d : Webhook.delivery_row) : Prop :=
  Webhook.wd_event_type d = note.2 /\ Webhook.wd_status d = Webhook.pending /\ Webhook.wd_attempt d = 0 /\
  exists a, a ∈ rows /\ al_fingerprint a = note.1 /\ Webhook.wd_alert_id d = Some (al_id a).

Abbreviation progress := ((string -> list AlertState) * list (string * string))%type.

(** How far a transaction has come: the view it has made and the notes it has queued. *)
Record Progress (D : list Webhook.delivery_row) (b : progress) (db : alert_db) : Prop := {
  pg_wf : Wf (ad_alerts db) (ad_next_alert db);
  pg_tidy : Tidy (ad_alerts db);
  pg_view fp : view (ad_alerts db) fp = b.1 fp;
  pg_notes : exists new, ad_deliveries db = D ++ new /\ Forall2 (noted (ad_alerts db)) b.2 new }.

Lemma progress_view D V notes db fp : Progress D (V, notes) db -> view (ad_alerts db) fp = V fp.
Proof. intros HP. apply (pg_view _ _ _ HP). Qed.

(** The fingerprints of rows stay with their identifiers. *)
Lemma noted_more rows rows' notes new :
  (forall a, a ∈ rows -> exists a', a' ∈ rows' /\ al_id a' = al_id a /\ al_fingerprint a' = al_fingerprint a) ->
  Forall2 (noted rows) notes new -> Forall2 (noted rows') notes new.
Proof.
  intros Hr Hall. eapply Forall2_impl; [exact Hall|]. intros note d (H1 & H2 & H3 & a & Ha & H4 & H5). split_and!; try done.
  destruct (Hr a Ha) as (a' & Ha' & Hid & Hfp). exists a'. split_and!; [done|congruence|congruence].
Qed.

Lemma update_more id f rows : (forall x, al_id (f x) = al_id x /\ al_fingerprint (f x) = al_fingerprint x) ->
  forall a, a ∈ rows -> exists a', a' ∈ update_alert id f rows /\ al_id a' = al_id a /\ al_fingerprint a' = al_fingerprint a.
Proof.
  intros Hf a Ha. exists (if al_id a =? id then f a else a). split; [by apply (list_elem_of_fmap_2 (fun r => if al_id r =? id then f r else r))|].
  destruct (_ =? _); [apply Hf|done].
Qed.

(** An update of an open row within a transaction. *)
Lemma update_progress D V notes db r f : Progress D (V, notes) db -> r ∈ ad_alerts db -> opened r ->
  (forall x, al_id (f x) = al_id x /\ al_fingerprint (f x) = al_fingerprint x /\ al_rule (f x) = al_rule x /\ al_node (f x) = al_node x) ->
  (opened (f r) -> al_resolved (f r) = None) ->
  Progress D (upd (al_fingerprint r) (if decide (opened (f r)) then [state_of (f r)] else []) V, notes)
    (set_alerts (update_alert (al_id r) f (ad_alerts db)) db).
Proof.
  intros [Hwf Ht Hv Hn] Hr Ho Hf Hres.
  destruct (update_view _ _ r f Hwf Hr Ho) as [Hwf' Hv']; [intros x; by apply Hf|by apply Hf|]. split; simpl.
  - done.
  - intros x Hx Hox. apply list_elem_of_fmap in Hx as (y & -> & Hy). destruct (Z.eqb_spec (al_id y) (al_id r)) as [E|E]; [|by apply Ht].
    assert (y = r) as -> by (eapply (NoDup_key_inj al_id); [apply Hwf|done..]).
    destruct (Hf r) as (_ & -> & -> & ->). split; [by apply Hres|by apply Ht].
  - intros fp. rewrite Hv'. unfold upd. destruct (decide (fp = _)); [done|apply Hv].
  - destruct Hn as (new & -> & Hn). exists new. split; [done|]. eapply noted_more; [|exact Hn]. apply update_more. intros x. split; apply Hf.
Qed.

Context (now : time).

(** The transaction's time as the columns keep it. *)
Abbreviation at_ := (timestamptz now).

Definition event_of (cur : list AlertState) : string := match cur with [] => "opened" | _ => "severity_increased" end.

Definition find_step (b : progress) (f : Finding) : progress :=
  let cur := b.1 (fi_Fingerprint f) in
  let r := ApplyFinding (head cur) f at_ in
  (upd (fi_Fingerprint f) [r.1] b.1, if r.2 then b.2 ++ [(fi_Fingerprint f, event_of cur)] else b.2).

Lemma insert_progress D V notes id fp event : 
  yields (fun db => Progress D (V, notes) db /\ exists a, a ∈ ad_alerts db /\ al_id a = id /\ al_fingerprint a = fp)
    (insertDelivery id event now) (fun _ => Progress D (V, notes ++ [(fp, event)])).
Proof.
  apply yields_execute. intros db [[Hwf Ht Hv (new & Hd & Hn)] (a & Ha & Hid & Hfp)] _. split; simpl; try done.
  exists (new ++ [Webhook.new_row (ad_next_delivery db) (Some id) event at_]). unfold Webhook.insertDelivery.
  rewrite Hd, app_assoc. split; [done|]. apply Forall2_app; [done|]. constructor; [|constructor].
  split_and!; try done. exists a. split_and!; [done|done|]. simpl. congruence.
Qed.

Lemma scan_short l : (length l <= 1)%nat -> scan l = l.
Proof.
  intros Hl. pose proof (scan_perm l) as Hp. destruct l as [|x [|y l]]; [by apply Permutation_nil_r in Hp|by apply Permutation_singleton_r in Hp|simpl in Hl; lia].
Qed.

Lemma open_snoc fp rows r : open_rows fp (rows ++ [r]) = open_rows fp rows ++ (if decide (al_fingerprint r = fp /\ opened r) then [r] else []).
Proof. unfold open_rows. rewrite filter_app, filter_cons, filter_nil. by destruct (decide _). Qed.

(** The insertion of a row. *)
Lemma open_progress D V notes f : (fi_RuleID f, fi_NodeID f) = home (fi_Fingerprint f) -> V (fi_Fingerprint f) = [] ->
  yields (Progress D (V, notes)) (open_alert marshal f now)
    (fun id db => Progress D (upd (fi_Fingerprint f) [(ApplyFinding None f at_).1] V, notes) db /\
       exists a, a ∈ ad_alerts db /\ al_id a = id /\ al_fingerprint a = fi_Fingerprint f).
Proof.
  intros Hh HV. apply yields_statement. intros db id db' [Hwf Ht Hv (new & Hd & Hn)] E.
  destruct (jsonb (marshal (Evidence f))) as [ev|]; [|done]. case_match eqn:Hc; [|done].
  rewrite !andb_true_iff in Hc. destruct Hc as [_ Hnone%bool_decide_eq_true]. injection E as <- <-.
  set (r := MkAlert _ _ _ _ _ _ _ _ _ _ _ _ _ _ _ _ _). assert (opened r) as Hor by done.
  split; [split; simpl|].
  - split.
    + rewrite fmap_app. apply NoDup_app. split_and!; [apply Hwf| |apply NoDup_singleton].
      intros i (y & -> & Hy)%list_elem_of_fmap Hi. apply list_elem_of_singleton in Hi. apply (wf_next _ _ Hwf) in Hy. simpl in Hi. lia.
    + intros y [Hy| ->%list_elem_of_singleton]%elem_of_app; [apply (wf_next _ _ Hwf) in Hy; lia|simpl; lia].
    + intros fp. rewrite open_snoc, length_app. destruct (decide _) as [[<- _]|_]; [simpl al_fingerprint; rewrite Hnone; simpl; lia|].
      pose proof (wf_open _ _ Hwf fp). simpl. lia.
  - intros y [Hy| ->%list_elem_of_singleton]%elem_of_app; [by apply Ht|done].
  - intros fp. unfold view, upd. rewrite open_snoc, fmap_app. destruct (decide (fp = fi_Fingerprint f)) as [-> |Hne].
    + rewrite decide_True by done. rewrite Hnone. done.
    + rewrite decide_False by (simpl; naive_solver). rewrite app_nil_r. apply Hv.
  - exists new. split; [done|]. eapply noted_more; [|exact Hn]. intros a Ha. exists a. split; [set_solver|done].
  - exists r. split; [simpl; set_solver|done].
Qed.

Lemma ApplyFinding_open s f : Status s = StatusOpen ->
  ApplyFinding (Some s) f at_ =
  (MkAlertState StatusOpen (Severity (ApplyFinding (Some s) f now).1) (OccurrenceCount (ApplyFinding (Some s) f now).1) 0 (FirstSeenAt s)
     (timestamptz (LastSeenAt (ApplyFinding (Some s) f now).1)) None, (ApplyFinding (Some s) f now).2).
Proof. intros Hs. unfold ApplyFinding. rewrite Hs. done. Qed.

Lemma find_yields D b f : (fi_RuleID f, fi_NodeID f) = home (fi_Fingerprint f) ->
  yields (Progress D b) (applyFinding marshal scan f now) (fun _ => Progress D (find_step b f)).
Proof.
  intros Hh. destruct b as [V notes]. unfold applyFinding.
  apply (yields_bind _ _ (fun cur db => Progress D (V, notes) db /\ cur = head (open_rows (fi_Fingerprint f) (ad_alerts db)))).
  { apply yields_query. intros db HP _. split; [done|]. by rewrite scan_short by apply HP. }
  intros [r|].
  - destruct (ApplyFinding (Some (state_of r)) f now) as [next notify] eqn:Ea.
    assert (forall db, (Progress D (V, notes) db /\ Some r = head (open_rows (fi_Fingerprint f) (ad_alerts db))) ->
      Progress D (V, notes) db /\ r ∈ ad_alerts db /\ opened r /\ al_fingerprint r = fi_Fingerprint f /\ V (fi_Fingerprint f) = [state_of r]) as Hr.
    { intros db [HP Hhead]. split; [done|]. assert (r ∈ open_rows (fi_Fingerprint f) (ad_alerts db)) as Hin by (apply head_Some_elem_of; congruence).
      apply open_rows_in in Hin as (Hin & Hfp & Ho). split_and!; try done. rewrite <- (progress_view _ _ _ _ (fi_Fingerprint f) HP), <- Hfp. unfold view.
      by rewrite (open_rows_single _ (ad_next_alert db)); [|apply HP|..]. }
    apply (yields_mono (fun db => Progress D (V, notes) db /\ r ∈ ad_alerts db /\ opened r /\ al_fingerprint r = fi_Fingerprint f /\ V (fi_Fingerprint f) = [state_of r]))
      with (Q := fun _ => Progress D (find_step (V, notes) f)); [exact Hr|done|].
    apply (yields_bind _ _ (fun _ db => (Progress D ((find_step (V, notes) f).1, notes) db /\
      exists a, a ∈ ad_alerts db /\ al_id a = al_id r /\ al_fingerprint a = fi_Fingerprint f) /\ al_status r = StatusOpen /\ V (fi_Fingerprint f) = [state_of r])).
    + apply yields_statement. intros db [] db' (HP & Hin & Ho & Hfp & HV) E. destruct (jsonb _) as [ev|]; [|done]. case_match; [|done].
      injection E as <-. split; [|done]. split.
      * unfold find_step. cbn [fst snd]. rewrite HV. cbn [head]. rewrite (ApplyFinding_open (state_of r)) by done. cbn [fst]. rewrite Ea. cbn [fst].
        destruct (pg_tidy _ _ _ HP r Hin Ho) as [Hres _].
        assert (opened (updated_alert next f ev r)) as Hop by done.
        pose proof (update_progress D V notes db r (updated_alert next f ev) HP Hin Ho ltac:(done) ltac:(done)) as HP'.
        rewrite decide_True, Hfp in HP' by done. unfold state_of in HP' at 1. simpl in HP'. rewrite Hres in HP'. rewrite Ho in HP'. exact HP'.
      * destruct (update_more (al_id r) (updated_alert next f ev) (ad_alerts db)) with (a := r) as (a & Ha & Hid & Hfa); [done..|].
        exists a. split_and!; [done|done|congruence].
    + intros []. unfold find_step. cbn [fst snd].
      intros t a t' [HP [Hst HV]] E. rewrite HV. rewrite HV in HP. cbn [head] in *. rewrite (ApplyFinding_open (state_of r)) in * by done. rewrite Ea in *. cbn [fst snd] in *.
      destruct notify.
      * eapply insert_progress; [|exact E]. exact HP.
      * injection E as _ <-. apply HP.
  - apply (yields_mono (fun db => Progress D (V, notes) db /\ V (fi_Fingerprint f) = [])) with (Q := fun _ => Progress D (find_step (V, notes) f)); [|done|].
    { intros db [HP Hhead]. split; [done|]. rewrite <- (progress_view _ _ _ _ (fi_Fingerprint f) HP). unfold view. simpl.
      by destruct (open_rows (fi_Fingerprint f) (ad_alerts db)). }
    intros t a t' [HP HV]. revert t a t' HP. change (yields (Progress D (V, notes)) (let+ id := open_alert marshal f now in insertDelivery id "opened" now)
      (fun _ => Progress D (find_step (V, notes) f))).
    eapply yields_bind; [by apply open_progress|]. intros id. unfold find_step. cbn [fst snd]. rewrite HV. apply insert_progress.
Qed.
(** ** All findings *)

Definition finding_for (fp : string) (fs : list Finding) : option Finding := head (filter (fun f => fi_Fingerprint f = fp) fs).

(** The note of a finding, given what was open before the transaction. *)
Definition note_of (V : string -> list AlertState) (f : Finding) : option (string * string) :=
  let cur := V (fi_Fingerprint f) in
  if (ApplyFinding (head cur) f at_).2 then Some (fi_Fingerprint f, event_of cur) else None.

Lemma finding_for_cons fp f fs : finding_for fp (f :: fs) = if decide (fi_Fingerprint f = fp) then Some f else finding_for fp fs.
Proof. unfold finding_for. rewrite filter_cons. by destruct (decide _). Qed.

Lemma finding_for_none fp fs : fp ∉ fi_Fingerprint <$> fs -> finding_for fp fs = None.
Proof.
  intros Hn. unfold finding_for. rewrite filter_none; [done|]. intros f Hf E. apply Hn. rewrite <- E. by apply list_elem_of_fmap_2.
Qed.

Lemma finding_for_some fp fs f : finding_for fp fs = Some f -> f ∈ fs /\ fi_Fingerprint f = fp.
Proof. intros E. assert (f ∈ filter (fun f => fi_Fingerprint f = fp) fs) as Hin by by apply head_Some_elem_of. apply list_elem_of_filter in Hin. tauto. Qed.

Lemma fold_findings fs V notes : NoDup (fi_Fingerprint <$> fs) ->
  let b := foldl find_step (V, notes) fs in
  (forall fp, b.1 fp = match finding_for fp fs with Some f => [(ApplyFinding (head (V fp)) f at_).1] | None => V fp end) /\
  b.2 = notes ++ omap (note_of V) fs.
Proof.
  revert V notes. induction fs as [|f fs IH]; intros V notes Hn; cbv zeta; [by rewrite app_nil_r|].
  rewrite fmap_cons in Hn. apply NoDup_cons in Hn as [Hf Hn]. cbn [foldl].
  set (V1 := upd (fi_Fingerprint f) [(ApplyFinding (head (V (fi_Fingerprint f))) f at_).1] V).
  assert (find_step (V, notes) f = (V1, notes ++ match note_of V f with Some x => [x] | None => [] end)) as ->.
  { unfold find_step, note_of. cbn [fst snd]. destruct (ApplyFinding _ _ _).2; [done|]. by rewrite app_nil_r. }
  destruct (IH V1 (notes ++ match note_of V f with Some x => [x] | None => [] end) Hn) as [H1 H2]. split.
  - intros fp. rewrite H1, finding_for_cons. unfold V1, upd. destruct (decide (fi_Fingerprint f = fp)) as [<-|Hne].
    + rewrite finding_for_none by done. by rewrite decide_True.
    + rewrite decide_False by congruence. done.
  - rewrite H2, <- app_assoc. f_equal. cbn [omap list_omap].
    assert (omap (note_of V1) fs = omap (note_of V) fs) as ->; [|by destruct (note_of V f)].
    clear - Hf. induction fs as [|g fs IH]; [done|]. cbn [omap list_omap]. rewrite fmap_cons, elem_of_cons in Hf.
    rewrite IH by tauto. unfold note_of at 1 3. unfold V1, upd. rewrite decide_False by (intros E; apply Hf; left; done). done.
Qed.

(** ** Alerts without a finding *)

(** What a window without a finding leaves open. *)
Definition after (s : AlertState) : list AlertState :=
  let r := ApplyMissing s at_ in if r.2 then [] else [r.1].

Definition miss_step (b : progress) (r : alert_row) : progress := (upd (al_fingerprint r) (after (state_of r)) b.1, b.2).

Lemma miss_yields D b r l : NoDup (al_id <$> (r :: l)) ->
  yields (fun db => Progress D b db /\ Forall (fun r => r ∈ ad_alerts db /\ opened r) (r :: l))
    (miss_alert now r) (fun _ db => Progress D (miss_step b r) db /\ Forall (fun r => r ∈ ad_alerts db /\ opened r) l).
Proof.
  rewrite fmap_cons, NoDup_cons. intros [Hr Hn]. destruct b as [V notes].
  assert (forall f db, Progress D (V, notes) db /\ Forall (fun r => r ∈ ad_alerts db /\ opened r) (r :: l) ->
    (forall x, al_id (f x) = al_id x /\ al_fingerprint (f x) = al_fingerprint x /\ al_rule (f x) = al_rule x /\ al_node (f x) = al_node x) ->
    (opened (f r) -> al_resolved (f r) = None) -> (if decide (opened (f r)) then [state_of (f r)] else []) = after (state_of r) ->
    Progress D (miss_step (V, notes) r) (set_alerts (update_alert (al_id r) f (ad_alerts db)) db) /\
    Forall (fun x => x ∈ ad_alerts (set_alerts (update_alert (al_id r) f (ad_alerts db)) db) /\ opened x) l) as Hupd.
  { intros f db [HP [[Hin Ho] Hl]%Forall_cons] Hf Hres Hafter. split.
    - unfold miss_step. cbn [fst snd]. rewrite <- Hafter. by apply update_progress.
    - simpl. rewrite Forall_forall in Hl |- *. intros y Hy. destruct (Hl y Hy) as [Hy' Hoy]. split; [|done].
      unfold update_alert. apply list_elem_of_fmap. exists y. split; [|done]. cbv beta. rewrite (proj2 (Z.eqb_neq (al_id y) (al_id r))); [done|].
      intros E. apply Hr. rewrite <- E. by apply list_elem_of_fmap_2. }
  unfold miss_alert. destruct (ApplyMissing (state_of r) now) as [next is_resolved] eqn:Em.
  assert (forall db, Progress D (V, notes) db /\ Forall (fun r => r ∈ ad_alerts db /\ opened r) (r :: l) ->
    opened r /\ al_resolved r = None) as Hor.
  { intros db [HP [[Hin Ho] _]%Forall_cons]. split; [done|]. by apply (pg_tidy _ _ _ HP). }
  destruct is_resolved; apply yields_execute; intros db HP _; destruct (Hor db HP) as [Ho Hres]; apply Hupd; try done.
  - unfold after. unfold ApplyMissing in Em |- *. simpl in Em |- *. rewrite Ho in Em |- *. simpl in Em |- *.
    destruct (wrap_s 64 (al_missing r + 1) <? 2); [done|]. done.
  - unfold after. unfold ApplyMissing in Em |- *. simpl in Em |- *. rewrite Ho in Em |- *. simpl in Em |- *.
    destruct (wrap_s 64 (al_missing r + 1) <? 2); [|done]. injection Em as <-. rewrite decide_True by done. unfold state_of. simpl. by rewrite Ho.
Qed.

Lemma misses_yield D l : NoDup (al_id <$> l) -> forall b,
  yields (fun db => Progress D b db /\ Forall (fun r => r ∈ ad_alerts db /\ opened r) l) (sql_each (miss_alert now) l)
    (fun _ => Progress D (foldl miss_step b l)).
Proof.
  induction l as [|r l IH]; intros Hn b; [by apply yields_ret; intros db [HP _]|].
  eapply yields_bind; [by apply miss_yields|]. intros []. apply IH. rewrite fmap_cons in Hn. by apply NoDup_cons in Hn as [_ Hn].
Qed.

Lemma fold_misses l b : NoDup (al_fingerprint <$> l) ->
  (forall fp, (foldl miss_step b l).1 fp = match head (filter (fun r => al_fingerprint r = fp) l) with Some r => after (state_of r) | None => b.1 fp end) /\
  (foldl miss_step b l).2 = b.2.
Proof.
  revert b. induction l as [|r l IH]; intros b Hn; [done|]. rewrite fmap_cons in Hn. apply NoDup_cons in Hn as [Hr Hn]. cbn [foldl].
  destruct (IH (miss_step b r) Hn) as [H1 H2]. split; [|done]. intros fp. rewrite H1, filter_cons. destruct (decide (al_fingerprint r = fp)) as [<-|Hne].
  - rewrite filter_none; [|intros y Hy E; apply Hr; rewrite <- E; by apply list_elem_of_fmap_2]. simpl. unfold upd. by rewrite decide_True.
  - simpl. unfold upd. by rewrite decide_False.
Qed.

(** The rows that [applyMissing] takes. *)
Definition missing_rows (ruleID nodeID : string) (seen : list string) (rows : list alert_row) : list alert_row :=
  filter (fun r => al_fingerprint r ∉ seen) (scan (filter (fun r => al_rule r = ruleID /\ al_node r = nodeID /\ opened r) rows)).

Lemma missing_rows_in ruleID nodeID seen rows r : r ∈ missing_rows ruleID nodeID seen rows <->
  r ∈ rows /\ al_rule r = ruleID /\ al_node r = nodeID /\ opened r /\ al_fingerprint r ∉ seen.
Proof. unfold missing_rows. rewrite list_elem_of_filter, scan_perm, list_elem_of_filter. tauto. Qed.

Lemma missing_rows_nodup ruleID nodeID seen rows next : Wf rows next ->
  NoDup (al_id <$> missing_rows ruleID nodeID seen rows) /\ NoDup (al_fingerprint <$> missing_rows ruleID nodeID seen rows).
Proof.
  intros Hwf. assert (NoDup (missing_rows ruleID nodeID seen rows)) as Hn.
  { unfold missing_rows. apply NoDup_filter. rewrite scan_perm. apply NoDup_filter. eapply NoDup_fmap_1, Hwf. }
  split; apply NoDup_fmap_2_strong; try done; intros x y Hx%missing_rows_in Hy%missing_rows_in E.
  - eapply (NoDup_key_inj al_id); [apply Hwf|tauto..].
  - assert (open_rows (al_fingerprint x) rows = [x]) as Ex by (eapply open_rows_single; [done|tauto..]).
    assert (open_rows (al_fingerprint y) rows = [y]) as Ey by (eapply open_rows_single; [done|tauto..]). congruence.
Qed.

Lemma missing_yields D b ruleID nodeID seen :
  yields (Progress D b) (applyMissing scan ruleID nodeID seen now)
    (fun _ => Progress D (fun fp => if decide (home fp = (ruleID, nodeID) /\ fp ∉ seen) then b.1 fp ≫= after else b.1 fp, b.2)).
Proof.
  unfold applyMissing. eapply (yields_bind _ _ (fun l db => Progress D b db /\
    filter (fun r => al_fingerprint r ∉ seen) l = missing_rows ruleID nodeID seen (ad_alerts db))).
  { apply yields_query. intros db HP _. by split. }
  intros l. intros t a t' [HP El] E. rewrite El in E. set (rows := missing_rows ruleID nodeID seen (ad_alerts (tx_db t))) in *.
  destruct (missing_rows_nodup ruleID nodeID seen _ _ (pg_wf _ _ _ HP)) as [Hn1 Hn2].
  assert (Progress D (foldl miss_step b rows) (tx_db t')) as HP'.
  { eapply misses_yield; [exact Hn1| |exact E]. split; [done|]. apply Forall_forall. intros r Hr%missing_rows_in. tauto. }
  destruct (fold_misses rows b Hn2) as [H1 H2]. destruct HP' as [Hwf' Ht' Hv' Hnotes']. split; try done.
  - intros fp. rewrite Hv', H1. cbn [fst]. destruct (head (filter (fun r => al_fingerprint r = fp) rows)) as [r|] eqn:Eh.
    + apply head_Some_elem_of, list_elem_of_filter in Eh as [Hfp Hr%missing_rows_in]. destruct Hr as (Hr & Hrule & Hnode & Ho & Hs). subst fp.
      destruct (pg_tidy _ _ _ HP r Hr Ho) as [_ Hhome]. rewrite decide_True by (split; [congruence|done]).
      rewrite <- (pg_view _ _ _ HP). unfold view. rewrite (open_rows_single _ _ _ (pg_wf _ _ _ HP) Hr Ho). simpl. by rewrite app_nil_r.
    + destruct (decide _) as [[Hhome Hs]|]; [|done]. rewrite <- (pg_view _ _ _ HP). unfold view.
      destruct (open_rows fp (ad_alerts (tx_db t))) as [|r rest] eqn:Eo; [done|]. exfalso.
      assert (r ∈ open_rows fp (ad_alerts (tx_db t))) as Hr by (rewrite Eo; by constructor). apply open_rows_in in Hr as (Hr & Hfp & Ho).
      destruct (pg_tidy _ _ _ HP r Hr Ho) as [_ Hh]. rewrite Hfp in Hh.
      assert (r ∈ filter (fun r => al_fingerprint r = fp) rows) as Hin.
      { apply list_elem_of_filter. split; [done|]. apply missing_rows_in. rewrite Hhome in Hh. injection Hh as -> ->. split_and!; congruence. }
      apply head_None in Eh. rewrite Eh in Hin. by apply elem_of_nil in Hin.
  - rewrite H2 in Hnotes'. done.
Qed.
(** ** The transaction *)

Definition windowed (cur : list AlertState) (found : option Finding) : list AlertState :=
  match found with Some f => [(ApplyFinding (head cur) f at_).1] | None => cur ≫= after end.

Definition of_home (rule : Rule) (nodeID : string) (fs : list Finding) : Prop :=
  NoDup (fi_Fingerprint <$> fs) /\ forall f, f ∈ fs -> home (fi_Fingerprint f) = (ru_ID rule, nodeID).

Lemma progress_ext D V V' notes db : (forall fp, V fp = V' fp) -> Progress D (V, notes) db -> Progress D (V', notes) db.
Proof. intros E [H1 H2 H3 H4]. split; try done. intros fp. rewrite H3. apply E. Qed.

Lemma transaction_yields D V rule nodeID fs : of_home rule nodeID fs ->
  yields (Progress D (V, [])) (reconcile_transaction marshal scan rule nodeID fs now)
    (fun _ => Progress D (fun fp => if decide (home fp = (ru_ID rule, nodeID)) then windowed (V fp) (finding_for fp fs) else V fp, omap (note_of V) fs)).
Proof.
  intros [Hn Hh]. unfold reconcile_transaction.
  apply (yields_bind _ _ (fun _ => Progress D (V, []))); [apply yields_execute; by intros db [H1 H2 H3 H4] _|]. intros [].
  apply (yields_bind _ _ (fun _ => Progress D (V, []))); [by apply yields_execute|]. intros [].
  destruct (fold_findings fs V [] Hn) as [Hv Hnotes]. set (b := foldl find_step (V, []) fs) in *.
  apply (yields_bind _ _ (fun _ => Progress D b)).
  - unfold b. clear - Hh scan_perm.
    assert (forall c, yields (Progress D c) (sql_each (reconcile_finding marshal scan rule nodeID now) fs) (fun _ => Progress D (foldl find_step c fs))) as H; [|apply H].
    induction fs as [|f fs IH]; intros c; [by apply yields_ret|]. eapply (yields_bind _ _ (fun _ => Progress D (find_step c f))).
    + unfold reconcile_finding. destruct (String.eqb_spec (fi_RuleID f) (ru_ID rule)) as [E1|]; [|apply yields_fail].
      destruct (String.eqb_spec (fi_NodeID f) nodeID) as [E2|]; [|apply yields_fail]. cbn [negb orb].
      destruct (ValidateEvidence _ _); [apply yields_fail|]. apply find_yields. rewrite E1, E2. symmetry. apply Hh. by constructor.
    + intros []. apply IH. intros g Hg. apply Hh. by constructor.
  - intros []. eapply yields_mono; [intros db HP; exact HP| |apply missing_yields]. intros [] db HP. rewrite Hnotes in HP. cbn [app] in HP.
    eapply progress_ext; [|exact HP]. intros fp. cbv beta. rewrite Hv. unfold windowed. destruct (finding_for fp fs) as [f|] eqn:Ef.
    + apply finding_for_some in Ef as [Hf Hfp]. rewrite decide_False.
      * rewrite decide_True; [done|]. rewrite <- Hfp. by apply Hh.
      * intros [_ Hs]. apply Hs. rewrite <- Hfp. by apply list_elem_of_fmap_2.
    + destruct (decide (home fp = (ru_ID rule, nodeID))) as [Hhome|Hhome]; [|by rewrite decide_False by tauto]. rewrite decide_True; [done|].
      split; [done|]. intros (f & Hfp & Hf)%list_elem_of_fmap. apply head_None in Ef.
      assert (f ∈ filter (fun f => fi_Fingerprint f = fp) fs) as Hin by by apply list_elem_of_filter. rewrite Ef in Hin. by apply elem_of_nil in Hin.
Qed.
End lemmas.

(** ** The life of alerts *)

(** A transaction that took effect, with the time the columns keep. *)
Record round : Type := MkRound { rd_rule : string; rd_node : string; rd_findings : list Finding; rd_at : time }.

Definition open_of (s : option AlertState) : list AlertState :=
  match s with Some s => if decide (Status s = StatusOpen) then [s] else [] | None => [] end.

Lemma ApplyFinding_open_of s f t : ApplyFinding (head (open_of s)) f t = ApplyFinding s f t.
Proof.
  destruct s as [s|]; [|done]. simpl. destruct (decide _) as [E|E]; [done|]. unfold ApplyFinding. simpl. by rewrite (proj2 (String.eqb_neq _ _)).
Qed.

Lemma ApplyFinding_status s f t : Status (ApplyFinding s f t).1 = StatusOpen.
Proof. unfold ApplyFinding. destruct s as [s|]; [|done]. destruct (String.eqb_spec (Status s) StatusOpen); [|done]. by destruct (_ <? _). Qed.

(** One window, on the specified state. *)
Lemma windowed_spec {tz : Timestamptz} h now found : Z.of_nat (length h) < 2 ^ 62 ->
  let w := MkWindow (timestamptz now) found in
  windowed now (open_of (spec_state h)) found = open_of (spec_state (w :: h)) /\
  forall f, found = Some f -> (ApplyFinding (head (open_of (spec_state h))) f (timestamptz now)).2 = spec_note (w :: h).
Proof.
  intros Hl w. pose proof (step_spec h w Hl) as Hs. unfold step_window in Hs. cbn [w_finding w_at w] in Hs. destruct found as [f|].
  - destruct (ApplyFinding (spec_state h) f (timestamptz now)) as [s n] eqn:Ea. pose proof (f_equal snd Hs) as Hn. apply (f_equal fst) in Hs. cbn [fst snd] in Hs, Hn. split.
    + unfold windowed. rewrite ApplyFinding_open_of, Ea, <- Hs. simpl. pose proof (ApplyFinding_status (spec_state h) f (timestamptz now)) as Hst.
      rewrite Ea in Hst. by rewrite decide_True.
    + intros f' [= <-]. by rewrite ApplyFinding_open_of, Ea.
  - split; [|done]. unfold windowed. apply (f_equal fst) in Hs. destruct (spec_state h) as [s|]; cbn [fst] in Hs; rewrite <- Hs; [|done]. simpl.
    destruct s as [st sv oc mw fs ls rs]. simpl. destruct (decide (st = StatusOpen)) as [-> |E].
    + unfold after, ApplyMissing. simpl. by destruct (wrap_s 64 (mw + 1) <? 2).
    + unfold ApplyMissing. cbn [Status]. rewrite (proj2 (String.eqb_neq _ _)) by done. simpl. by rewrite decide_False.
Qed.

Section life.
Context {tz : Timestamptz} {jb : Jsonb} (marshal : gmap string string -> list Z) (scan : list alert_row -> list alert_row).
Context (home : string -> string * string).

(** The windows of a fingerprint, newest first. *)
Definition history (log : list round) (fp : string) : list window :=
  (fun rd => MkWindow (rd_at rd) (finding_for fp (rd_findings rd))) <$> filter (fun rd => home fp = (rd_rule rd, rd_node rd)) log.

Definition took_effect (rule : Rule) (nodeID : string) (fs : list Finding) (now : time) (left : nat) (outcome : commit_outcome) (db : alert_db) : bool :=
  is_ok (reconcile_transaction marshal scan rule nodeID fs now (MkTx db left)) && negb (bool_decide (outcome = CommitRefused)).

(** Transactions that end in any way; identifiers that rolled back transactions took; and
    what the rest of the server does to the tables: nodes come and go, deliveries are
    worked off, retention deletes resolved alerts. *)
Inductive step : alert_db * list round -> alert_db * list round -> Prop :=
| ReconcileStep db log rule nodeID fs now left outcome : of_home home rule nodeID fs ->
    step (db, log) ((Reconcile marshal scan rule nodeID fs now left outcome db).1,
                    if took_effect rule nodeID fs now left outcome db then MkRound (ru_ID rule) nodeID fs (timestamptz now) :: log else log)
| OtherStep db log nodes rules rows deliveries next_alert next_delivery : sublist rows (ad_alerts db) ->
    (forall r, r ∈ ad_alerts db -> opened r -> r ∈ rows) -> ad_next_alert db <= next_alert ->
    step (db, log) (MkAlertDb nodes rules rows deliveries next_alert next_delivery, log).

Inductive reachable : alert_db * list round -> Prop :=
| Fresh db : ad_alerts db = [] -> reachable (db, [])
| Next c c' : reachable c -> step c c' -> reachable c'.
Context (scan_perm : forall l, scan l ≡ₚ l).

(** The table as the history of its transactions prescribes it. *)
Definition specified (log : list round) (fp : string) : list AlertState := open_of (spec_state (history log fp)).

Record Agrees (c : alert_db * list round) : Prop := {
  ag_wf : Wf (ad_alerts c.1) (ad_next_alert c.1);
  ag_tidy : Tidy home (ad_alerts c.1);
  ag_view fp : view (ad_alerts c.1) fp = specified c.2 fp }.

Lemma history_length log fp : (length (history log fp) <= length log)%nat.
Proof. unfold history. rewrite length_fmap. apply length_filter. Qed.

Lemma history_cons log rd fp :
  history (rd :: log) fp = if decide (home fp = (rd_rule rd, rd_node rd)) then MkWindow (rd_at rd) (finding_for fp (rd_findings rd)) :: history log fp else history log fp.
Proof. unfold history. rewrite filter_cons. by destruct (decide _). Qed.

(** What the notes of a transaction are by its history. *)
Definition announced (log : list round) (now : time) (f : Finding) : option (string * string) :=
  if spec_note (MkWindow (timestamptz now) (Some f) :: history log (fi_Fingerprint f))
  then Some (fi_Fingerprint f, event_of (specified log (fi_Fingerprint f))) else None.

(** A transaction that took effect. *)
Lemma reconcile_took db log rule nodeID fs now left outcome : Agrees (db, log) -> of_home home rule nodeID fs ->
  Z.of_nat (length log) < 2 ^ 62 -> took_effect rule nodeID fs now left outcome db = true ->
  let db' := (Reconcile marshal scan rule nodeID fs now left outcome db).1 in
  Agrees (db', MkRound (ru_ID rule) nodeID fs (timestamptz now) :: log) /\
  exists new, ad_deliveries db' = ad_deliveries db ++ new /\ Forall2 (noted (ad_alerts db')) (omap (announced log now) fs) new.
Proof.
  intros [Hwf Ht Hv] Hh Hlen [Hok Hout]%andb_true_iff db'.
  destruct (reconcile_transaction marshal scan rule nodeID fs now (MkTx db left)) as [[[] t]|] eqn:E; [|done].
  assert (db' = tx_db t) as ->.
  { unfold db', Reconcile. eapply transact_effect; [exact E|]. by apply negb_true_iff, bool_decide_eq_false in Hout. }
  assert (Progress home (ad_deliveries db) (specified log, []) db) as HP0.
  { split; [exact Hwf|exact Ht|exact Hv|]. exists []. split; [by rewrite app_nil_r|constructor]. }
  destruct (transaction_yields marshal scan scan_perm home now _ _ rule nodeID fs Hh (MkTx db left) tt t HP0 E) as [Hwf' Ht' Hv' Hnew].
  assert (forall fp, Z.of_nat (length (history log fp)) < 2 ^ 62) as Hl by (intros fp; pose proof (history_length log fp); lia).
  split; [split; [exact Hwf'|exact Ht'|]|].
  - intros fp. cbn [fst snd]. rewrite Hv'. cbn [fst]. unfold specified. rewrite history_cons. cbn [rd_rule rd_node rd_findings rd_at].
    destruct (decide (home fp = (ru_ID rule, nodeID))); [|done]. by apply windowed_spec.
  - replace (omap (announced log now) fs) with (omap (note_of now (specified log)) fs); [exact Hnew|].
    assert (forall f, note_of now (specified log) f = announced log now f) as Hna.
    { intros f. unfold note_of, announced, specified.
      destruct (windowed_spec (history log (fi_Fingerprint f)) now (Some f) (Hl _)) as [_ Hn]. by rewrite (Hn f). }
    clear - Hna. induction fs as [|f fs IH]; [done|]. cbn [omap list_omap]. by rewrite Hna, IH.
Qed.

Lemma reconcile_nothing db rule nodeID fs now left outcome : took_effect rule nodeID fs now left outcome db = false ->
  (Reconcile marshal scan rule nodeID fs now left outcome db).1 = db.
Proof.
  unfold took_effect, Reconcile, transact. destruct (reconcile_transaction _ _ _ _ _ _ _) as [[[] t]|]; [|done]. simpl.
  intros Hn%negb_false_iff%bool_decide_eq_true. by subst.
Qed.

(** Fewer rows, none of the open ones missing. *)
Lemma fewer_alerts rows rows' next next' : Wf rows next -> sublist rows' rows -> (forall r, r ∈ rows -> opened r -> r ∈ rows') -> next <= next' ->
  Wf rows' next' /\ forall fp, open_rows fp rows' = open_rows fp rows.
Proof.
  intros Hwf Hs Ho Hn.
  assert (forall fp, open_rows fp rows' = open_rows fp rows) as Hopen.
  { intros fp. unfold open_rows. pose proof (sublist_filter_mono (fun r => al_fingerprint r = fp /\ opened r) _ _ Hs) as Hs'.
    destruct (filter (fun r => al_fingerprint r = fp /\ opened r) rows) as [|r l] eqn:E; [by apply sublist_nil_r in Hs'|].
    assert (r ∈ open_rows fp rows) as Hr by (unfold open_rows; rewrite E; by constructor). apply open_rows_in in Hr as (Hr & Hfp & Hor).
    pose proof (open_rows_single _ _ _ Hwf Hr Hor) as E1. unfold open_rows in E1. rewrite Hfp, E in E1. injection E1 as ->.
    assert (r ∈ filter (fun r => al_fingerprint r = fp /\ opened r) rows') as Hin by (apply list_elem_of_filter; auto).
    apply sublist_length in Hs'. destruct (filter _ rows') as [|r' [|r'' l']]; [by apply elem_of_nil in Hin| |simpl in Hs'; lia].
    apply list_elem_of_singleton in Hin. by subst. }
  split; [|done]. split.
  - eapply sublist_NoDup; [apply Hwf|]. by apply fmap_sublist.
  - intros r Hr. apply (elem_of_sublist _ _ _ Hr) in Hs as Hr'. apply (wf_next _ _ Hwf) in Hr'. lia.
  - intros fp. rewrite Hopen. apply Hwf.
Qed.

Lemma reachable_agrees c : reachable c -> Z.of_nat (length c.2) < 2 ^ 62 -> Agrees c.
Proof.
  induction 1 as [db Hnone|c c' _ IH Hst]; intros Hlen.
  - split; simpl; rewrite Hnone; [|by intros r Hr%elem_of_nil|done]. split; [constructor|by intros r Hr%elem_of_nil|intros fp; simpl; lia].
  - destruct Hst as [db log rule nodeID fs now left outcome Hh|db log nodes rules rows deliveries na nd Hs Ho Hna]; simpl in *.
    + destruct (took_effect _ _ _ _ _ _ _) eqn:Et; simpl in Hlen.
      * apply reconcile_took; [apply IH; lia|done|lia|done].
      * rewrite reconcile_nothing by done. by apply IH.
    + destruct (IH Hlen) as [Hwf Ht Hv]. simpl in *. destruct (fewer_alerts _ rows _ na Hwf Hs Ho Hna) as [Hwf' Hopen]. split; simpl; [done| |].
      * intros r Hr. apply Ht. by eapply elem_of_sublist.
      * intros fp. unfold view. rewrite Hopen. apply Hv.
Qed.

(** C15. The alerts table follows the specification of [Alerts]: whatever transactions have
    run, with findings of one fingerprint once each, whatever broke them off, and whatever
    retention removed, a fingerprint has at most one open row, and it is the alert its
    windows - one for each transaction of its rule and node that took effect - prescribe.
    The next transaction takes effect as a whole or not at all, and queues one delivery
    for the right alert for exactly the findings that open an alert or worsen it. *)
Theorem alerts_follow_windows db log rule nodeID fs now left outcome : reachable (db, log) -> of_home home rule nodeID fs ->
  Z.of_nat (length log) + 1 < 2 ^ 62 ->
  let db' := (Reconcile marshal scan rule nodeID fs now left outcome db).1 in
  let took := took_effect rule nodeID fs now left outcome db in
  let log' := if took then MkRound (ru_ID rule) nodeID fs (timestamptz now) :: log else log in
  (forall fp, view (ad_alerts db') fp = open_of (spec_state (history log' fp))) /\
  (took = false -> db' = db) /\
  (took = true -> exists new, ad_deliveries db' = ad_deliveries db ++ new /\
     Forall2 (noted (ad_alerts db')) (omap (announced log now) fs) new).
Proof.
  intros Hr Hh Hlen db' took log'.
  assert (reachable (db', log')) as Hr' by (eapply Next; [exact Hr|by apply ReconcileStep]).
  split_and!.
  - apply (ag_view (db', log')). apply reachable_agrees; [done|]. unfold log'. destruct took; simpl; lia.
  - apply reconcile_nothing.
  - intros Ht. apply reconcile_took; [apply reachable_agrees; [done|simpl; lia]|done|lia|done].
Qed.

(** ** Runs of the runner *)

Context (Observations : Rule -> string -> time -> alert_db -> result string (list Observation)).

Lemma run_pairs_rounds pairs now fate db log :
  (forall rule nodeID db obs, (rule, nodeID) ∈ pairs -> Observations rule nodeID now db = Ok obs -> of_home home rule nodeID (findings_of rule obs now)) ->
  reachable (db, log) ->
  let r := run_pairs marshal scan Observations pairs now fate db in
  exists rounds, reachable (r.1, reverse rounds ++ log) /\
    ((fun rd => (rd_rule rd, rd_node rd)) <$> rounds) `prefix_of` ((fun p => (ru_ID p.1, p.2)) <$> pairs) /\
    (r.2 = Ok tt -> length rounds = length pairs /\ Forall (fun rd => rd_at rd = timestamptz now) rounds).
Proof.
  revert db log. induction pairs as [|[rule nodeID] pairs IH]; intros db log Hobs Hr; cbv zeta.
  { exists []. split_and!; [done|done|]. by intros _. }
  assert (forall d, reachable (d, log) -> exists rounds, reachable (d, reverse rounds ++ log) /\
    ((fun rd => (rd_rule rd, rd_node rd)) <$> rounds) `prefix_of` ((fun p => (ru_ID p.1, p.2)) <$> (rule, nodeID) :: pairs) /\ rounds = []) as Hnone.
  { intros d Hd. exists []. split_and!; [done|apply prefix_nil|done]. }
  cbn [run_pairs]. destruct (Observations rule nodeID now db) as [obs|e] eqn:Eo.
  2: { destruct (Hnone db Hr) as (rounds & H1 & H2 & _). exists rounds. by split_and!. }
  pose proof (Hobs rule nodeID db obs ltac:(constructor) Eo) as Hh. set (fs := findings_of rule obs now) in *.
  set (l := (fate (length pairs)).1) in *. set (o := (fate (length pairs)).2) in *.
  pose proof (Next (db, log) _ Hr (ReconcileStep db log rule nodeID fs now l o Hh)) as Hnext.
  destruct (Reconcile marshal scan rule nodeID fs now l o db) as [d res] eqn:Er. cbn [fst] in Hnext.
  destruct (took_effect rule nodeID fs now l o db) eqn:Et.
  - destruct res as [[]|e].
    + destruct (IH d (MkRound (ru_ID rule) nodeID fs (timestamptz now) :: log)) as (rounds & H1 & H2 & H3); [|exact Hnext|].
      { intros ? ? ? ? Hin. apply Hobs. by constructor. }
      exists (MkRound (ru_ID rule) nodeID fs (timestamptz now) :: rounds). rewrite reverse_cons, <- app_assoc. split_and!; [exact H1|by apply prefix_cons|].
      intros E. destruct (H3 E) as [Hl Ht]. simpl. split; [by f_equal|]. by constructor.
    + exists [MkRound (ru_ID rule) nodeID fs (timestamptz now)]. split_and!; [exact Hnext| |done]. simpl. apply prefix_cons, prefix_nil.
  - destruct res as [[]|e].
    + exfalso. unfold took_effect in Et. unfold Reconcile, transact in Er.
      destruct (reconcile_transaction _ _ _ _ _ _ _) as [[[] t]|]; [|done]. simpl in Et. apply negb_false_iff, bool_decide_eq_true in Et. by rewrite Et in Er.
    + destruct (Hnone d Hnext) as (rounds & H1 & H2 & _). exists rounds. by split_and!.
Qed.
End life.

Module DemoReconcile.

#[local] Instance tz : Timestamptz := fun t => t / 1000 * 1000.
#[local] Instance jb : Jsonb := fun bytes => Some (string_of_bytes bytes).

Definition marshal (m : gmap string string) : list Z := map_to_list m ≫= fun kv => code <$> chars kv.1 ++ chars kv.2.
Definition scan (l : list alert_row) : list alert_row := l.

Definition rule (severity : string) : Rule := AlertSample.rule severity.
Definition findings (severity : string) : list Finding := EvaluateRule (rule severity) AlertSample.observation Second.
Definition home (_ : string) : string * string := ("agent-stale", "node-a").

Definition db0 : alert_db := MkAlertDb ["node-a"] ∅ [] [] 1 1.

Definition round_of (severity : string) (fs : list Finding) (now : time) (left : nat) (c : alert_db * list round) : alert_db * list round :=
  ((Reconcile marshal scan (rule severity) "node-a" fs now left Committed c.1).1,
   if took_effect marshal scan (rule severity) "node-a" fs now left Committed c.1
   then MkRound (ru_ID (rule severity)) "node-a" fs (timestamptz now) :: c.2 else c.2).

(** Opened, made worse, a transaction that breaks off, and a window without a finding. *)
Definition c1 := round_of SeverityWarning (findings SeverityWarning) (1 * Second) 10 (db0, []).
Definition c2 := round_of SeverityCritical (findings SeverityCritical) (2 * Second) 10 c1.
Definition c3 := round_of SeverityCritical (findings SeverityCritical) (3 * Second) 3 c2.
Definition c4 := round_of SeverityCritical [] (4 * Second) 10 c3.

Lemma findings_home severity : of_home home (rule severity) "node-a" (findings severity).
Proof. split; [|done]. vm_compute. repeat constructor. by intros ?%elem_of_nil. Qed.

Lemma nothing_home severity : of_home home (rule severity) "node-a" [].
Proof. split; [constructor|by intros f ?%elem_of_nil]. Qed.

Lemma c4_reachable : reachable marshal scan home c4.
Proof.
  assert (forall severity fs now left c, of_home home (rule severity) "node-a" fs -> reachable marshal scan home c ->
    reachable marshal scan home (round_of severity fs now left c)) as Hround.
  { intros severity fs now left [db log] Hh Hr. eapply Next; [exact Hr|]. by apply ReconcileStep. }
  repeat apply Hround; auto using findings_home, nothing_home. by apply Fresh.
Qed.

Example lengths : (length (ad_alerts c4.1), length (ad_deliveries c4.1), length c4.2) = (1, 2, 3)%nat.
Proof. vm_compute. reflexivity. Qed.

(** The second window without a finding resolves the alert. *)
Lemma alerts_follow_windows_witness :
  let db' := (Reconcile marshal scan (rule SeverityCritical) "node-a" [] (5 * Second) 10 Committed c4.1).1 in
  view (ad_alerts db') (fi_Fingerprint (default (MkFinding "" "" "" "" "" None 0 (f64_of_Z 0) None 0 ∅) (head (findings SeverityWarning)))) = [] /\
  ad_deliveries db' = ad_deliveries c4.1.
Proof.
  pose proof c4_reachable as Hr. assert (of_home home (rule SeverityCritical) "node-a" []) as Hh by apply nothing_home.
  assert (Z.of_nat (length c4.2) + 1 < 2 ^ 62) as Hlen by (vm_compute; reflexivity).
  assert (took_effect marshal scan (rule SeverityCritical) "node-a" [] (5 * Second) 10 Committed c4.1 = true) as Ht by (vm_compute; reflexivity).
  rewrite (surjective_pairing c4) in Hr.
  destruct (alerts_follow_windows marshal scan home (fun l => reflexivity l) c4.1 c4.2 (rule SeverityCritical) "node-a" [] (5 * Second) 10 Committed Hr Hh Hlen) as (Hv & _ & Hd).
  destruct (Hd Ht) as (new & E & Hn). split.
  - rewrite Hv, Ht. vm_compute. reflexivity.
  - rewrite E. inversion Hn. apply app_nil_r.
Defined.

(** A rule that is switched off after the runner has read the rules is switched on again:
    every transaction writes the rule back as it was read. *)
Definition switched_off (db : alert_db) : alert_db :=
  set_rules ((fun r => MkRuleRow (rl_kind r) (rl_name r) false (rl_severity r) (rl_threshold r) (rl_multiplier r) (rl_window r) (rl_updated r)) <$> ad_rules db) db.

Example settings_overwritten :
  (rl_enabled <$> ad_rules (switched_off c4.1) !! "agent-stale") = Some false /\
  (rl_enabled <$> ad_rules (Reconcile marshal scan (rule SeverityCritical) "node-a" [] (5 * Second) 10 Committed (switched_off c4.1)).1 !! "agent-stale") = Some true.
Proof. vm_compute. done. Qed.
End DemoReconcile.
