(* ===== verification/Store.v ===== *)
(** * The event store

    [internal/server/store]: batches as rows of the detail tables, of the owners and of
    the minute counters.  A table with a primary key is a map from it; the minute
    tables are the rows [Rollup] reads.  What PostgreSQL makes of instants and
    addresses, the order of its scans, and the GeoIP data are parameters. *)

From stdpp Require Import base strings numbers gmap list.
From Stdlib Require Import Ascii.
From S2P Require Import Prelude GoBase GoText GoModel Attribution Sql.
From S2P Require Rollup.

Open Scope string_scope.
Open Scope Z_scope.
Local Open Scope flow_scope.
Local Open Scope list_scope.

(** ** Addresses with ports *)

Fixpoint last_index (c : ascii) (cs : list ascii) : option nat :=
  match cs with
  | [] => None
  | x :: rest =>
      match last_index c rest with
      | Some i => Some (S i)
      | None => if bool_decide (x = c) then Some O else None
      end
  end.

(** [net.SplitHostPort] *)
Definition SplitHostPort (hostport : list ascii) : option (list ascii * list ascii) :=
  match last_index ":"%char hostport with
  | None => None
  | Some i =>
      let port := drop (S i) hostport in
      match hostport with
      | c :: rest =>
          if bool_decide (c = "["%char) then
            match Cut "]"%char rest with
            | None => None
            | Some (host, _) =>
                if negb (length host + 2 =? i)%nat then None
                else if existsb (fun x => bool_decide (x = "["%char)) rest then None
                else if existsb (fun x => bool_decide (x = "]"%char)) (drop i hostport) then None
                else Some (host, port)
            end
          else
            let host := take i hostport in
            if existsb (fun x => bool_decide (x = ":"%char)) host then None
            else if existsb (fun x => bool_decide (x = "["%char) || bool_decide (x = "]"%char)) hostport then None
            else Some (host, port)
      | [] => None
      end
  end.

Example split_v4 : SplitHostPort (chars "172.18.0.3:8080") = Some (chars "172.18.0.3", chars "8080").
Proof. reflexivity. Qed.
Example split_v6 : SplitHostPort (chars "[2001:db8::1]:80") = Some (chars "2001:db8::1", chars "80").
Proof. reflexivity. Qed.
Example split_bare_v6 : SplitHostPort (chars "2001:db8::1") = None.
Proof. reflexivity. Qed.

Definition proxyDestination (upstream : string) : string * Z :=
  match SplitHostPort (TrimSpace (chars upstream)) with
  | None => (of_chars (TrimSpace (chars upstream)), 0)
  | Some (host, portText) =>
      match Atoi portText with
      | Some port => if (port <? 1) || (65535 <? port) then (of_chars host, 0) else (of_chars host, port)
      | None => (of_chars host, 0)
      end
  end.

(** ** Owners and counts *)

Definition ownerIdentity (owner : OwnerRef) : string * string :=
  if bool_decide (own_Kind owner = OwnerContainer) then
    ("container:" +:+ own_ContainerID owner,
     if bool_decide (own_ContainerName owner = "") then own_ContainerID owner else own_ContainerName owner)
  else if bool_decide (own_Kind owner = OwnerProcess) then
    let name := if bool_decide (own_Process owner = "") then "process" else own_Process owner in
    ("process:" +:+ of_chars (format_int (own_PID owner)) +:+ ":" +:+ name, name)
  else ("host", "Host").

Definition nullablePID (owner : OwnerRef) : option Z := if own_PID owner <=? 0 then None else Some (own_PID owner).
Definition nullableString (value : string) : option string := if bool_decide (value = "") then None else Some value.
Definition nullableUint64 (value : Z) : option Z := if (value =? 0) || (max_i64 <? value) then None else Some value.

Definition saturatingBytes (left right : Z) : Z := if max_i64 - left <? right then max_i64 else left + right.

(** ** Tables *)

Record NetworkInfo : Type := MkNetworkInfo {
  CountryCode : string; CountryName : string; ASN : Z; Organization : string; Classification : string }.

Record owner_row : Type := MkOwner {
  ow_kind : string; ow_display_name : string; ow_pid : option Z; ow_container_id : option string; ow_cgroup_id : option Z;
  ow_addresses : list string; ow_ports : list Z; ow_running : bool; ow_first_seen_at : time; ow_last_seen_at : time }.

Record evidence_row : Type := MkEvidence {
  er_node : string; er_observed_at : time; er_ip : string; er_name : string; er_source : string;
  er_valid_from : time; er_valid_until : time }.

Record connection_row : Type := MkConnection {
  cr_node : string; cr_direction : string; cr_protocol : string; cr_local_ip : string; cr_local_port : Z;
  cr_remote_ip : string; cr_remote_port : Z; cr_owner_id : string; cr_owner_kind : string; cr_owner_name : string;
  cr_decision : Decision; cr_bytes_sent : Z; cr_bytes_received : Z; cr_state : string; cr_network : NetworkInfo }.

Record request_row : Type := MkRequest {
  rr_node : string; rr_host : string; rr_source_ip : string; rr_method : string; rr_status : Z; rr_bytes_sent : Z;
  rr_upstream : string; rr_upstream_owner_id : string; rr_duration_ms : Z }.

Record interface_row : Type := MkInterfaceRow {
  ir_node : string; ir_interface : string; ir_direction : string; ir_bytes : Z; ir_packets : Z }.

Record health_row : Type := MkHealthRow { hr_node : string; hr_observed_at : time; hr_health : HealthEvent }.

(** The keys of details are event identifiers and instants, those of owners nodes and
    owner identifiers. *)
Record store : Type := MkStore {
  st_nodes : gmap string (option time);                 (** [last_seen_at] *)
  st_batches : gset (string * string);
  st_owners : gmap (string * string) owner_row;
  st_evidence : gmap string evidence_row;
  st_connections : gmap (string * time) connection_row;
  st_requests : gmap (string * time) request_row;
  st_interfaces : gmap (string * time) interface_row;
  st_health : gmap string health_row;
  st_minutes : list Rollup.minute_row }.

Definition set_nodes x s := MkStore x (st_batches s) (st_owners s) (st_evidence s) (st_connections s) (st_requests s) (st_interfaces s) (st_health s) (st_minutes s).
Definition set_batches x s := MkStore (st_nodes s) x (st_owners s) (st_evidence s) (st_connections s) (st_requests s) (st_interfaces s) (st_health s) (st_minutes s).
Definition set_owners x s := MkStore (st_nodes s) (st_batches s) x (st_evidence s) (st_connections s) (st_requests s) (st_interfaces s) (st_health s) (st_minutes s).
Definition set_evidence x s := MkStore (st_nodes s) (st_batches s) (st_owners s) x (st_connections s) (st_requests s) (st_interfaces s) (st_health s) (st_minutes s).
Definition set_connections x s := MkStore (st_nodes s) (st_batches s) (st_owners s) (st_evidence s) x (st_requests s) (st_interfaces s) (st_health s) (st_minutes s).
Definition set_requests x s := MkStore (st_nodes s) (st_batches s) (st_owners s) (st_evidence s) (st_connections s) x (st_interfaces s) (st_health s) (st_minutes s).
Definition set_interfaces x s := MkStore (st_nodes s) (st_batches s) (st_owners s) (st_evidence s) (st_connections s) (st_requests s) x (st_health s) (st_minutes s).
Definition set_health x s := MkStore (st_nodes s) (st_batches s) (st_owners s) (st_evidence s) (st_connections s) (st_requests s) (st_interfaces s) x (st_minutes s).
Definition set_minutes x s := MkStore (st_nodes s) (st_batches s) (st_owners s) (st_evidence s) (st_connections s) (st_requests s) (st_interfaces s) (st_health s) x.

Definition empty_store : store := MkStore ∅ ∅ ∅ ∅ ∅ ∅ ∅ ∅ [].

(** [GREATEST], which ignores null. *)
Definition greatest (a b : option time) : option time :=
  match a, b with Some x, Some y => Some (Z.max x y) | Some x, None => Some x | None, _ => b end.

(** [date_trunc('minute', t)] *)
Definition minute (t : time) : time := t - t mod Minute.

(** [INSERT ... ON CONFLICT DO NOTHING]: whether a row was inserted. *)
Definition insert_new {K V} `{Countable K} (k : K) (v : V) (table : gmap K V) : bool * gmap K V :=
  match table !! k with Some _ => (false, table) | None => (true, <[k := v]> table) end.

Section tables.
Context {tz : Timestamptz} {ip : Inet} (scan : forall A : Type, list A -> list A).
Context (sort : (NameEvidence -> NameEvidence -> bool) -> list NameEvidence -> list NameEvidence).
Context (geoIP : option (ip_addr -> NetworkInfo)).

Abbreviation SQL := (Sql store).

Definition inet_ok (s : string) : bool := match inet s with Some _ => true | None => false end.
Definition inet_text (s : string) : string := default "" (inet s).

(** ** Minute counters *)

Definition minute_upsert (what : string) (fits : bool) (row : Rollup.minute_row) : SQL unit :=
  statement what (fun s =>
    if fits then (fun rows => (tt, set_minutes rows s)) <$> Rollup.upsert row (st_minutes s) else None).

(** ** Events *)

Definition insertInterfaceDelta (nodeID : string) (e : Event) : SQL unit :=
  let at_ := timestamptz (ev_ObservedAt e) in
  let+ inserted := statement ("insert interface event " +:+ ev_ID e) (fun s =>
    if forallb sql_text [ev_ID e; nodeID; ev_Interface e; ev_Direction e] && direction_valid (ev_Direction e) &&
       (0 <=? ev_Bytes e) && (0 <=? ev_Packets e)
    then let '(inserted, rows) := insert_new (ev_ID e, at_)
             (MkInterfaceRow nodeID (ev_Interface e) (ev_Direction e) (ev_Bytes e) (ev_Packets e)) (st_interfaces s) in
         Some (inserted, set_interfaces rows s)
    else None) in
  if negb inserted then sql_ret tt
  else minute_upsert ("aggregate interface event " +:+ ev_ID e) true
         (Rollup.MkMinute nodeID (minute at_) (Rollup.traffic_minute (ev_Direction e))
            (Rollup.MkCounts (ev_Bytes e) (ev_Packets e) 0 0)).

Definition stop_containers (nodeID : string) (s : store) : store :=
  set_owners (map_imap (fun k (o : owner_row) => Some
    (if bool_decide (k.1 = nodeID) && bool_decide (ow_kind o = OwnerContainer)
     then MkOwner (ow_kind o) (ow_display_name o) (ow_pid o) (ow_container_id o) (ow_cgroup_id o) (ow_addresses o) (ow_ports o)
            false (ow_first_seen_at o) (ow_last_seen_at o)
     else o)) (st_owners s)) s.

Definition insertHealth (nodeID : string) (e : Event) (health : HealthEvent) : SQL unit :=
  let at_ := timestamptz (ev_ObservedAt e) in
  let+ _ := execute ("insert health event " +:+ ev_ID e)
    (forallb sql_text [ev_ID e; nodeID; he_Collector health; he_Status health; he_Code health; he_Message health] &&
     (0 <=? he_DroppedEvents health) && f64_leb (f64_of_Z 0) (he_UsagePercent health) && f64_leb (he_UsagePercent health) (f64_of_Z 100))
    (fun s => set_health (insert_new (ev_ID e) (MkHealthRow nodeID at_ health) (st_health s)).2 s) in
  if bool_decide (he_Collector health = "docker") && bool_decide (he_Code health = "collector_disabled")
  then execute "mark disabled Docker owners stopped" true (stop_containers nodeID)
  else sql_ret tt.

(** The columns of an owner that take its values. *)
Definition owner_fits (ownerID ownerName : string) (owner : OwnerRef) : bool :=
  forallb sql_text [ownerID; own_Kind owner; ownerName; own_ContainerID owner] &&
  bool_decide (own_Kind owner ∈ [OwnerHost; OwnerProcess; OwnerContainer]) &&
  match nullablePID owner with Some pid => in_int4 pid | None => true end.

Definition insertOwnerInventory (nodeID : string) (e : Event) (inventory : OwnerInventory) : SQL unit :=
  let owner := inv_Owner inventory in
  let '(ownerID, ownerName) := ownerIdentity owner in
  let at_ := timestamptz (ev_ObservedAt e) in
  execute ("upsert owner inventory event " +:+ ev_ID e)
    (sql_text nodeID && owner_fits ownerID ownerName owner && forallb sql_text (inv_Addresses inventory))
    (fun s =>
       let row :=
         match st_owners s !! (nodeID, ownerID) with
         | None => MkOwner (own_Kind owner) ownerName (nullablePID owner) (nullableString (own_ContainerID owner))
                     (nullableUint64 (inv_CgroupID inventory)) (inv_Addresses inventory) (inv_Ports inventory) (inv_Running inventory) at_ at_
         | Some o => MkOwner (ow_kind o) ownerName (nullablePID owner) (nullableString (own_ContainerID owner))
                     (nullableUint64 (inv_CgroupID inventory)) (inv_Addresses inventory) (inv_Ports inventory) (inv_Running inventory)
                     (ow_first_seen_at o) (Z.max (ow_last_seen_at o) at_)
         end in
       set_owners (<[(nodeID, ownerID) := row]> (st_owners s)) s).

Definition insertNameEvidence (nodeID : string) (e : Event) (evidence : NameEvidence) : SQL unit :=
  execute ("insert name evidence event " +:+ ev_ID e)
    (forallb sql_text [ev_ID e; nodeID; ne_Name evidence; ne_Source evidence] && inet_ok (ne_IP evidence) &&
     bool_decide (ne_Source evidence ∈ ["dns"; "tls_sni"]) &&
     (timestamptz (ne_ValidFrom evidence) <? timestamptz (ne_ValidUntil evidence)))
    (fun s => set_evidence (insert_new (ev_ID e)
       (MkEvidence nodeID (timestamptz (ev_ObservedAt e)) (inet_text (ne_IP evidence)) (ne_Name evidence) (ne_Source evidence)
          (timestamptz (ne_ValidFrom evidence)) (timestamptz (ne_ValidUntil evidence))) (st_evidence s)).2 s).

Definition ensureObservedOwner (nodeID ownerID ownerName : string) (owner : OwnerRef) (observedAt : time) : SQL unit :=
  let at_ := timestamptz observedAt in
  execute ("upsert observed owner " +:+ ownerID) (sql_text nodeID && owner_fits ownerID ownerName owner)
    (fun s =>
       let row :=
         match st_owners s !! (nodeID, ownerID) with
         | None => MkOwner (own_Kind owner) ownerName (nullablePID owner) (nullableString (own_ContainerID owner)) None [] [] true at_ at_
         | Some o => MkOwner (ow_kind o) ownerName (ow_pid o) (ow_container_id o) (ow_cgroup_id o) (ow_addresses o) (ow_ports o)
                       (ow_running o) (ow_first_seen_at o) (Z.max (ow_last_seen_at o) at_)
         end in
       set_owners (<[(nodeID, ownerID) := row]> (st_owners s)) s).

Definition validEvidence (nodeID ip : string) (observedAt : time) : SQL (list NameEvidence) :=
  let at_ := timestamptz observedAt in
  query "query domain evidence" (sql_text nodeID && inet_ok ip) (fun s =>
    (fun kv => MkNameEvidence (er_ip kv.2) (er_name kv.2) (er_source kv.2) (er_valid_from kv.2) (er_valid_until kv.2)) <$>
    scan _ (filter (fun kv => er_node kv.2 = nodeID /\ er_ip kv.2 = inet_text ip /\
              er_valid_from kv.2 <= at_ /\ at_ < er_valid_until kv.2) (map_to_list (st_evidence s)))).

Definition defaultLocalPrefixes : list prefix :=
  [MkPrefix (IPv4 [10; 0; 0; 0]) 8; MkPrefix (IPv4 [172; 16; 0; 0]) 12; MkPrefix (IPv4 [192; 168; 0; 0]) 16;
   MkPrefix (IPv6 (252 :: replicate 15 0) "") 7].

Definition networkInfo (rawAddress : string) : NetworkInfo :=
  match geoIP, ParseAddr rawAddress with
  | Some lookup, Some address => lookup address
  | _, _ => MkNetworkInfo "" "" 0 "" "unknown"
  end.

Definition connection_fits (nodeID direction ownerID ownerName : string) (e : Event) (c : ConnectionDelta) (d : Decision) (n : NetworkInfo) : bool :=
  forallb sql_text [ev_ID e; nodeID; cd_Protocol c; ownerID; own_Kind (cd_Owner c); ownerName; DisplayName d; EvidenceSource d; cd_State c;
                    CountryCode n; CountryName n; Organization n; Classification n] &&
  inet_ok (ep_IP (cd_Local c)) && inet_ok (ep_IP (cd_Remote c)) && direction_valid direction &&
  (1 <=? ep_Port (cd_Local c)) && (ep_Port (cd_Local c) <=? 65535) && (1 <=? ep_Port (cd_Remote c)) && (ep_Port (cd_Remote c) <=? 65535) &&
  bool_decide (own_Kind (cd_Owner c) ∈ [OwnerHost; OwnerProcess; OwnerContainer]) && confidence_valid (dec_Confidence d) &&
  (0 <=? cd_BytesSent c) && (0 <=? cd_BytesReceived c).

Definition insertConnection (nodeID : string) (e : Event) (c : ConnectionDelta) : SQL unit :=
  let '(ownerID, ownerName) := ownerIdentity (cd_Owner c) in
  let+ _ := ensureObservedOwner nodeID ownerID ownerName (cd_Owner c) (ev_ObservedAt e) in
  let+ evidence := validEvidence nodeID (ep_IP (cd_Remote c)) (ev_ObservedAt e) in
  let decision := DecideAt sort c evidence (ev_ObservedAt e) in
  let direction := ClassifyDirection c defaultLocalPrefixes in
  let network := networkInfo (ep_IP (cd_Remote c)) in
  let at_ := timestamptz (ev_ObservedAt e) in
  let+ inserted := statement ("insert connection event " +:+ ev_ID e) (fun s =>
    if connection_fits nodeID direction ownerID ownerName e c decision network then
      let '(inserted, rows) := insert_new (ev_ID e, at_)
        (MkConnection nodeID direction (cd_Protocol c) (inet_text (ep_IP (cd_Local c))) (ep_Port (cd_Local c))
           (inet_text (ep_IP (cd_Remote c))) (ep_Port (cd_Remote c)) ownerID (own_Kind (cd_Owner c)) ownerName
           (MkDecision (DisplayName decision) (dec_Confidence decision) (EvidenceSource decision) (timestamptz <$> EvidenceObservedAt decision))
           (cd_BytesSent c) (cd_BytesReceived c) (cd_State c) network) (st_connections s) in
      Some (inserted, set_connections rows s)
    else None) in
  if negb inserted then sql_ret tt
  else
    let counts := Rollup.MkCounts (saturatingBytes (cd_BytesSent c) (cd_BytesReceived c)) 0 1 0 in
    let+ _ := minute_upsert ("aggregate connection owner event " +:+ ev_ID e) true
      (Rollup.MkMinute nodeID (minute at_) (Rollup.owner_minute ownerID (own_Kind (cd_Owner c)) ownerName direction) counts) in
    let+ _ := minute_upsert ("aggregate connection domain event " +:+ ev_ID e) true
      (Rollup.MkMinute nodeID (minute at_) (Rollup.domain_minute (DisplayName decision) (dec_Confidence decision) direction) counts) in
    minute_upsert ("aggregate connection flow event " +:+ ev_ID e) (sql_text (ep_IP (cd_Local c)) && sql_text (ep_IP (cd_Remote c)))
      (Rollup.MkMinute nodeID (minute at_)
         (Rollup.flow_minute ownerID ownerName (ep_IP (cd_Local c)) (ep_IP (cd_Remote c)) (DisplayName decision) (dec_Confidence decision)
            (cd_Protocol c) (ep_Port (cd_Remote c)) direction) counts).

(** ** Upstream owners *)

(** [ORDER BY ... LIMIT 1]: the row no other comes before, the first of them. *)
Fixpoint first_by {A} (before : A -> A -> bool) (l : list A) : option A :=
  match l with
  | [] => None
  | x :: l' => match first_by before l' with Some y => Some (if before y x then y else x) | None => Some x end
  end.

Definition running_container (nodeID : string) (kv : string * string * owner_row) : bool :=
  bool_decide (kv.1.1 = nodeID) && bool_decide (ow_kind kv.2 = OwnerContainer) && ow_running kv.2.

Definition newest_owner (matches : owner_row -> bool) (nodeID : string) (s : store) : option string :=
  (fun kv => kv.1.2) <$>
  first_by (fun a b => ow_last_seen_at b.2 <? ow_last_seen_at a.2)
    (scan _ (filter (fun kv => running_container nodeID kv && matches kv.2 = true) (map_to_list (st_owners s)))).

(** [regexp_replace(name, '-[0-9]+$', '')]; [digits] is the run of digits read last. *)
Fixpoint strip_index (cs : list ascii) : list ascii :=
  match cs with
  | [] => []
  | c :: rest =>
      if bool_decide (c = "-"%char) && negb (bool_decide (rest = [])) && forallb is_digit rest then []
      else c :: strip_index rest
  end.

(** [SELECT min(owner_id) ... HAVING count( * )=1] *)
Definition compose_owner (nodeID upstream : string) (s : store) : option string :=
  match filter (fun kv => running_container nodeID kv &&
                  bool_decide (strip_index (chars (ow_display_name kv.2)) = chars upstream) = true) (map_to_list (st_owners s)) with
  | [kv] => Some kv.1.2
  | _ => None
  end.

(** Connections of processes at a local address, within [interval] of an instant. *)
Definition near (nodeID ip : string) (at_ interval : time) (kv : string * time * connection_row) : bool :=
  bool_decide (cr_node kv.2 = nodeID) && bool_decide (cr_owner_kind kv.2 = OwnerProcess) &&
  bool_decide (cr_local_ip kv.2 = inet_text ip) && (at_ - interval <=? kv.1.2) && (kv.1.2 <=? at_ + interval).

Definition only_process (nodeID ip : string) (at_ : time) (s : store) : option (string * Z) :=
  match remove_dups ((fun kv => (cr_owner_id kv.2, cr_local_port kv.2)) <$>
          filter (fun kv => near nodeID ip at_ (2 * Minute) kv && (0 <? cr_local_port kv.2) = true) (map_to_list (st_connections s))) with
  | [found] => Some found
  | _ => None
  end.

Definition nearest_process (nodeID ip : string) (port : Z) (at_ : time) (s : store) : option string :=
  (fun kv => cr_owner_id kv.2) <$>
  first_by (fun a b => (Z.abs (a.1.2 - at_) <? Z.abs (b.1.2 - at_)) ||
                       (Z.abs (a.1.2 - at_) =? Z.abs (b.1.2 - at_)) && (b.1.2 <? a.1.2))
    (scan _ (filter (fun kv => near nodeID ip at_ (30 * Second) kv && (cr_local_port kv.2 =? port) = true) (map_to_list (st_connections s)))).

Definition resolveUpstreamOwner (nodeID upstream : string) (observedAt : time) : SQL (string * Z) :=
  let upstream := of_chars (TrimSpace (chars upstream)) in
  let at_ := timestamptz observedAt in
  if bool_decide (upstream = "") then sql_ret ("", 0)
  else
    let+ by_name := query "resolve proxy upstream owner by name" (sql_text nodeID && sql_text upstream)
      (newest_owner (fun o => bool_decide (ow_display_name o = upstream) || bool_decide (ow_container_id o = Some upstream)) nodeID) in
    match by_name with
    | Some ownerID => sql_ret (ownerID, 0)
    | None =>
        let+ by_compose := query "resolve proxy upstream owner by compose name" (sql_text nodeID && sql_text upstream)
          (compose_owner nodeID upstream) in
        match by_compose with
        | Some ownerID => sql_ret (ownerID, 0)
        | None =>
            match SplitHostPort (chars upstream) with
            | None =>
                match ParseAddr upstream with
                | None => sql_ret ("", 0)
                | Some _ =>
                    let+ found := query "resolve proxy upstream process" (sql_text nodeID && inet_ok upstream) (only_process nodeID upstream at_) in
                    match found with Some (ownerID, observedPort) => sql_ret (ownerID, observedPort) | None => sql_ret ("", 0) end
                end
            | Some (host, portText) =>
                let host := of_chars host in
                match Atoi portText with
                | None => sql_ret ("", 0)
                | Some port =>
                    if (port <? 1) || (65535 <? port) then sql_ret ("", 0)
                    else
                      let+ by_address := query "resolve proxy upstream owner" (sql_text nodeID && sql_text host)
                        (newest_owner (fun o => bool_decide (host ∈ ow_addresses o) && bool_decide (port ∈ ow_ports o)) nodeID) in
                      match by_address with
                      | Some ownerID => sql_ret (ownerID, port)
                      | None =>
                          let+ by_process := query "resolve proxy upstream process by address" (sql_text nodeID && inet_ok host)
                            (nearest_process nodeID host port at_) in
                          match by_process with Some ownerID => sql_ret (ownerID, port) | None => sql_ret ("", 0) end
                      end
                end
            end
        end
    end.

Definition upstream_port (remotePort : Z) (ports : list Z) : Z :=
  if remotePort =? 0 then match ports with [port] => port | _ => remotePort end else remotePort.

Definition request_fits (nodeID upstreamOwner : string) (e : Event) (r : ProxyRequest) : bool :=
  forallb sql_text [ev_ID e; nodeID; pr_Host r; pr_Method r; pr_Upstream r; upstreamOwner] && inet_ok (pr_SourceIP r) &&
  (100 <=? pr_Status r) && (pr_Status r <=? 599) && (0 <=? pr_BytesSent r) && (0 <=? pr_DurationMS r).

Definition insertProxyRequest (nodeID : string) (e : Event) (r : ProxyRequest) : SQL unit :=
  let at_ := timestamptz (ev_ObservedAt e) in
  let+ resolved := resolveUpstreamOwner nodeID (pr_Upstream r) (ev_ObservedAt e) in
  let '(upstreamOwner, observedPort) := resolved in
  let+ inserted := statement ("insert proxy request event " +:+ ev_ID e) (fun s =>
    if request_fits nodeID upstreamOwner e r then
      let '(inserted, rows) := insert_new (ev_ID e, at_)
        (MkRequest nodeID (pr_Host r) (inet_text (pr_SourceIP r)) (pr_Method r) (pr_Status r) (pr_BytesSent r) (pr_Upstream r)
           upstreamOwner (pr_DurationMS r)) (st_requests s) in
      Some (inserted, set_requests rows s)
    else None) in
  if negb inserted then sql_ret tt
  else
    let counts := Rollup.MkCounts (pr_BytesSent r) 0 0 1 in
    let+ _ := minute_upsert ("aggregate proxy domain event " +:+ ev_ID e) true
      (Rollup.MkMinute nodeID (minute at_) (Rollup.domain_minute (pr_Host r) ConfidenceConfirmed DirectionInbound) counts) in
    let+ _ := minute_upsert ("aggregate proxy status event " +:+ ev_ID e) true
      (Rollup.MkMinute nodeID (minute at_) (Rollup.proxy_status_minute (pr_Host r) (pr_Status r)) counts) in
    let '(destination, remotePort) := proxyDestination (pr_Upstream r) in
    let remotePort := if remotePort =? 0 then observedPort else remotePort in
    let+ owner :=
      (if negb (bool_decide (upstreamOwner = "")) then
         let+ found := query ("load proxy upstream owner " +:+ upstreamOwner) true (fun s => st_owners s !! (nodeID, upstreamOwner)) in
         match found with
         | None => sql_fail ("load proxy upstream owner " +:+ upstreamOwner)
         | Some o => sql_ret (upstreamOwner, ow_display_name o, upstream_port remotePort (ow_ports o))
         end
       else if negb (bool_decide (pr_Upstream r = "")) then sql_ret ("upstream:" +:+ pr_Upstream r, pr_Upstream r, remotePort)
       else sql_ret ("unattributed", "未归属", remotePort)) in
    let '(ownerID, ownerName, remotePort) := owner in
    let destination := if bool_decide (destination = "") then "unattributed" else destination in
    minute_upsert ("aggregate proxy flow event " +:+ ev_ID e)
      (forallb sql_text [ownerID; ownerName; pr_SourceIP r; destination])
      (Rollup.MkMinute nodeID (minute at_)
         (Rollup.flow_minute ownerID ownerName (pr_SourceIP r) destination (pr_Host r) ConfidenceConfirmed "tcp" remotePort DirectionInbound) counts).

(** ** Batches *)

(** A payload that is absent is a nil pointer, at which the code panics; validation
    keeps such events out. *)
Definition with_payload {A} (payload : option A) (insert : A -> SQL unit) : SQL unit :=
  match payload with Some p => insert p | None => sql_fail "nil pointer" end.

Definition insertEvent (nodeID : string) (e : Event) : SQL unit :=
  if bool_decide (ev_Kind e = EventInterfaceDelta) then insertInterfaceDelta nodeID e
  else if bool_decide (ev_Kind e = EventHealth) then with_payload (ev_Health e) (insertHealth nodeID e)
  else if bool_decide (ev_Kind e = EventOwnerInventory) then with_payload (ev_OwnerInventory e) (insertOwnerInventory nodeID e)
  else if bool_decide (ev_Kind e = EventNameEvidence) then with_payload (ev_NameEvidence e) (insertNameEvidence nodeID e)
  else if bool_decide (ev_Kind e = EventConnection) then with_payload (ev_Connection e) (insertConnection nodeID e)
  else if bool_decide (ev_Kind e = EventProxyRequest) then with_payload (ev_ProxyRequest e) (insertProxyRequest nodeID e)
  else sql_fail ("insert event " +:+ ev_ID e +:+ ": unsupported kind " +:+ ev_Kind e).

(** The order in which the events of a batch are inserted. *)
Definition kind_order : list string :=
  [EventOwnerInventory; EventNameEvidence; EventConnection; EventProxyRequest; EventInterfaceDelta; EventHealth].

Definition of_kind (kind : string) (es : list Event) : list Event := filter (fun e => ev_Kind e = kind) es.

Definition batch_transaction (b : Batch) : SQL bool :=
  let+ _ := execute "upsert node" (sql_text (b_NodeID b)) (fun s =>
    set_nodes (<[b_NodeID b := greatest (default None (st_nodes s !! b_NodeID b)) (Some (timestamptz (b_SentAt b)))]> (st_nodes s)) s) in
  let+ inserted := statement "insert batch guard" (fun s =>
    if sql_text (b_BatchID b) then
      if bool_decide ((b_NodeID b, b_BatchID b) ∈ st_batches s) then Some (false, s)
      else Some (true, set_batches ({[(b_NodeID b, b_BatchID b)]} ∪ st_batches s) s)
    else None) in
  if negb inserted then sql_ret false
  else
    let+ _ :=
      (if existsb (fun e => bool_decide (ev_Kind e = EventOwnerInventory)) (b_Events b)
       then execute "mark absent container owners stopped" true (stop_containers (b_NodeID b))
       else sql_ret tt) in
    let+ _ := sql_each (fun kind => sql_each (insertEvent (b_NodeID b)) (of_kind kind (b_Events b))) kind_order in
    sql_ret true.

(** [InsertBatch]: [left] statements go through, then the commit ends as [outcome]. *)
Definition InsertBatch (left : nat) (outcome : commit_outcome) (b : Batch) (s : store) : store * result string bool :=
  match Validate b with
  | Err _ => (s, Err "validate batch")
  | Ok tt => transact (batch_transaction b) left outcome s
  end.
End tables.
