(* ===== verification/StoreTheorems.v ===== *)
(** * Properties of the event store

    The minute counters are the sums of the stored details whatever batches arrive and
    whatever fails; every batch is applied once; and a valid batch that the database
    can represent is never refused. *)

From stdpp Require Import base strings numbers gmap sets list.
From Stdlib Require Import Ascii.
From S2P Require Import Prelude GoBase GoText GoModel InterfaceCounter Attribution Sql Store.
From S2P Require Rollup.

Open Scope string_scope.
Open Scope Z_scope.
Local Open Scope flow_scope.
Local Open Scope list_scope.

(** ** Sums of counters *)

Import Rollup (counts, MkCounts, add_counts, minute_row, MkMinute, mi_node, mi_bucket, mi_dim, mi_counts, dimension, key_of, same_row).

Definition no_counts : counts := MkCounts 0 0 0 0.

Lemma add_counts_assoc a b c : add_counts a (add_counts b c) = add_counts (add_counts a b) c.
Proof. unfold add_counts. simpl. f_equal; lia. Qed.
Lemma add_counts_comm a b : add_counts a b = add_counts b a.
Proof. unfold add_counts. f_equal; lia. Qed.
Lemma add_counts_0 a : add_counts no_counts a = a.
Proof. by destruct a. Qed.
Lemma add_counts_0_r a : add_counts a no_counts = a.
Proof. by rewrite add_counts_comm, add_counts_0. Qed.

Lemma counts_ext a b : Rollup.bytes a = Rollup.bytes b -> Rollup.packets a = Rollup.packets b ->
  Rollup.connections a = Rollup.connections b -> Rollup.requests a = Rollup.requests b -> a = b.
Proof. destruct a, b. simpl. congruence. Qed.

(** Equations between sums of counters. *)
Ltac counts :=
  repeat match goal with
  | H : @eq counts _ _ |- _ =>
      pose proof (f_equal Rollup.bytes H); pose proof (f_equal Rollup.packets H);
      pose proof (f_equal Rollup.connections H); pose proof (f_equal Rollup.requests H); clear H
  end;
  apply counts_ext; cbn [add_counts Rollup.bytes Rollup.packets Rollup.connections Rollup.requests no_counts] in *; lia.

(** What a reader sums up: the traffic of a direction, of an owner, of a domain, the
    flows of a domain, or the answers of a host. *)
Inductive view : Type :=
| ByDirection (direction : string)
| ByOwner (owner_id direction : string)
| ByDomain (domain confidence direction : string)
| FlowsByDomain (domain confidence direction : string)
| ByStatus (host : string) (status : Z).

Definition in_view (v : view) (d : dimension) : bool :=
  match v, d with
  | ByDirection x, Rollup.traffic_minute direction => bool_decide (x = direction)
  | ByOwner x y, Rollup.owner_minute id _ _ direction => bool_decide (x = id) && bool_decide (y = direction)
  | ByDomain x y z, Rollup.domain_minute domain confidence direction =>
      bool_decide (x = domain) && bool_decide (y = confidence) && bool_decide (z = direction)
  | FlowsByDomain x y z, Rollup.flow_minute _ _ _ _ domain confidence _ _ direction =>
      bool_decide (x = domain) && bool_decide (y = confidence) && bool_decide (z = direction)
  | ByStatus x y, Rollup.proxy_status_minute host status => bool_decide (x = host) && (y =? status)
  | _, _ => false
  end.

Section view.
Context (node : string) (bucket : time) (v : view).

Definition selected (r : minute_row) : counts :=
  if bool_decide (mi_node r = node) && (mi_bucket r =? bucket) && in_view v (mi_dim r) then mi_counts r else no_counts.

Definition total (rows : list minute_row) : counts := foldr (fun r acc => add_counts (selected r) acc) no_counts rows.

Lemma total_cons r rows : total (r :: rows) = add_counts (selected r) (total rows).
Proof. reflexivity. Qed.

Lemma total_app a b : total (a ++ b) = add_counts (total a) (total b).
Proof. induction a as [|r a IH]; simpl; [by rewrite add_counts_0|]. by rewrite IH, add_counts_assoc. Qed.

Lemma total_perm a b : a ≡ₚ b -> total a = total b.
Proof.
  induction 1 as [|r a b _ IH|r r' a|a b c _ IH1 _ IH2]; simpl; [done|by rewrite IH| |congruence].
  rewrite !add_counts_assoc. by rewrite (add_counts_comm (selected r)).
Qed.

Lemma in_view_key d : in_view v (key_of d) = in_view v d.
Proof. by destruct v, d. Qed.

Lemma selected_same r row c : same_row r row = true -> 
  selected (MkMinute (mi_node r) (mi_bucket r) (mi_dim r) (add_counts (mi_counts r) c)) =
  add_counts (selected r) (selected (MkMinute (mi_node row) (mi_bucket row) (mi_dim row) c)).
Proof.
  unfold same_row. rewrite !andb_true_iff, !bool_decide_eq_true, Z.eqb_eq. intros [[En Eb] Ed].
  unfold selected. simpl. rewrite En, Eb, <- (in_view_key (mi_dim r)), <- (in_view_key (mi_dim row)), Ed.
  by destruct (_ && _).
Qed.

Lemma upsert_totals row rows rows' : Rollup.upsert row rows = Some rows' -> total rows' = add_counts (selected row) (total rows).
Proof.
  revert rows'. induction rows as [|r rows IH]; intros rows'; simpl; [by intros [= <-]|].
  destruct (same_row r row) eqn:E.
  - destruct (Rollup.in_bigint _); [|done]. intros [= <-]. simpl. rewrite (selected_same r row) by done.
    destruct row; simpl. rewrite <- add_counts_assoc, (add_counts_comm (selected r)). rewrite <- !add_counts_assoc. f_equal.
    by rewrite add_counts_comm.
  - destruct (Rollup.upsert row rows) as [rows1|] eqn:E1; [|done]. intros [= <-]. simpl. rewrite (IH rows1) by done.
    rewrite !add_counts_assoc. by rewrite (add_counts_comm (selected r)).
Qed.
End view.

(** One row per key. *)
Definition row_key (r : minute_row) : string * time * dimension := (mi_node r, mi_bucket r, key_of (mi_dim r)).

Lemma same_row_key r row : same_row r row = true <-> row_key r = row_key row.
Proof.
  unfold same_row, row_key. rewrite !andb_true_iff, !bool_decide_eq_true, Z.eqb_eq. split; [intros [[-> ->] ->]|intros [= -> -> ->]]; done.
Qed.

Lemma upsert_keys row rows rows' : Rollup.upsert row rows = Some rows' ->
  row_key <$> rows' = row_key <$> rows \/ (row_key <$> rows' = (row_key <$> rows) ++ [row_key row] /\ row_key row ∉ row_key <$> rows).
Proof.
  revert rows'. induction rows as [|r rows IH]; intros rows'; simpl.
  { intros [= <-]. right. split; [done|]. apply not_elem_of_nil. }
  destruct (same_row r row) eqn:E.
  - destruct (Rollup.in_bigint _); [|done]. intros [= <-]. by left.
  - destruct (Rollup.upsert row rows) as [rows1|] eqn:E1; [|done]. intros [= <-]. rewrite !fmap_cons.
    destruct (IH rows1 eq_refl) as [->|[-> Hn]]; [by left|right]. split; [done|].
    rewrite not_elem_of_cons. split; [|done]. intros Hk. symmetry in Hk. apply same_row_key in Hk. congruence.
Qed.

Lemma upsert_unique row rows rows' : Rollup.upsert row rows = Some rows' -> NoDup (row_key <$> rows) -> NoDup (row_key <$> rows').
Proof.
  intros [->|[-> Hn]]%upsert_keys Hd; [done|]. apply NoDup_app. split; [done|]. split; [|apply NoDup_singleton].
  intros k Hk ->%list_elem_of_singleton. done.
Qed.

(** ** Details and minutes agree *)

Section agree.
Context {tz : Timestamptz} {ip : Inet} (scan : forall A : Type, list A -> list A).
Context (sort : (NameEvidence -> NameEvidence -> bool) -> list NameEvidence -> list NameEvidence).
Context (geoIP : option (ip_addr -> NetworkInfo)).

(** The minute rows a stored detail stands for.  The flow of a request is kept under an
    owner that is looked up when it is inserted; no view depends on it. *)
Definition interface_minutes (kv : string * time * interface_row) : list minute_row :=
  let r := kv.2 in
  [MkMinute (ir_node r) (minute kv.1.2) (Rollup.traffic_minute (ir_direction r)) (MkCounts (ir_bytes r) (ir_packets r) 0 0)].

Definition connection_minutes (kv : string * time * connection_row) : list minute_row :=
  let r := kv.2 in
  let c := MkCounts (saturatingBytes (cr_bytes_sent r) (cr_bytes_received r)) 0 1 0 in
  let name := DisplayName (cr_decision r) in
  let confidence := dec_Confidence (cr_decision r) in
  [MkMinute (cr_node r) (minute kv.1.2) (Rollup.owner_minute (cr_owner_id r) (cr_owner_kind r) (cr_owner_name r) (cr_direction r)) c;
   MkMinute (cr_node r) (minute kv.1.2) (Rollup.domain_minute name confidence (cr_direction r)) c;
   MkMinute (cr_node r) (minute kv.1.2)
     (Rollup.flow_minute (cr_owner_id r) (cr_owner_name r) (cr_local_ip r) (cr_remote_ip r) name confidence (cr_protocol r)
        (cr_remote_port r) (cr_direction r)) c].

Definition request_minutes (kv : string * time * request_row) : list minute_row :=
  let r := kv.2 in
  let c := MkCounts (rr_bytes_sent r) 0 0 1 in
  [MkMinute (rr_node r) (minute kv.1.2) (Rollup.domain_minute (rr_host r) ConfidenceConfirmed DirectionInbound) c;
   MkMinute (rr_node r) (minute kv.1.2) (Rollup.proxy_status_minute (rr_host r) (rr_status r)) c;
   MkMinute (rr_node r) (minute kv.1.2)
     (Rollup.flow_minute (rr_upstream_owner_id r) "" (rr_source_ip r) "" (rr_host r) ConfidenceConfirmed "tcp" 0 DirectionInbound) c].

Definition details (s : store) : list minute_row :=
  (map_to_list (st_interfaces s) ≫= interface_minutes) ++ (map_to_list (st_connections s) ≫= connection_minutes) ++
  (map_to_list (st_requests s) ≫= request_minutes).

(** The minute tables hold the sums of the details but for the rows still to be added. *)
Record Agree (pending : list minute_row) (s : store) : Prop := {
  ag_totals : forall node bucket v, total node bucket v (details s) =
    add_counts (total node bucket v pending) (total node bucket v (st_minutes s));
  ag_unique : NoDup (row_key <$> st_minutes s) }.

Lemma total_insert {K V} `{Countable K} (f : K * V -> list minute_row) (m : gmap K V) k x node bucket v : m !! k = None ->
  total node bucket v (map_to_list (<[k := x]> m) ≫= f) =
  add_counts (total node bucket v (f (k, x))) (total node bucket v (map_to_list m ≫= f)).
Proof.
  intros Hk. rewrite <- total_app. apply total_perm. rewrite (map_to_list_insert m k x Hk). done.
Qed.

(** A change of the other tables. *)
Lemma Agree_frame pending s s' : st_interfaces s' = st_interfaces s -> st_connections s' = st_connections s ->
  st_requests s' = st_requests s -> st_minutes s' = st_minutes s -> Agree pending s -> Agree pending s'.
Proof. intros E1 E2 E3 E4 [Ht Hu]. split; unfold details in *; rewrite ?E1, ?E2, ?E3, ?E4; done. Qed.

Lemma Agree_pending pending pending' s :
  (forall node bucket v, total node bucket v pending = total node bucket v pending') -> Agree pending s -> Agree pending' s.
Proof. intros Hp [Ht Hu]. split; [|done]. intros node bucket v. by rewrite <- Hp. Qed.

Lemma Agree_interface k r pending s : st_interfaces s !! k = None -> Agree pending s ->
  Agree (interface_minutes (k, r) ++ pending) (set_interfaces (<[k := r]> (st_interfaces s)) s).
Proof.
  intros Hk [Ht Hu]. split; [|done]. intros node bucket v. specialize (Ht node bucket v). unfold details in *. cbn [st_interfaces st_connections st_requests st_minutes set_interfaces].
  rewrite !total_app in *. rewrite (total_insert interface_minutes) by done. counts.
Qed.

Lemma Agree_connection k r pending s : st_connections s !! k = None -> Agree pending s ->
  Agree (connection_minutes (k, r) ++ pending) (set_connections (<[k := r]> (st_connections s)) s).
Proof.
  intros Hk [Ht Hu]. split; [|done]. intros node bucket v. specialize (Ht node bucket v). unfold details in *. cbn [st_interfaces st_connections st_requests st_minutes set_connections set_requests].
  rewrite !total_app in *. rewrite (total_insert connection_minutes) by done. counts.
Qed.

Lemma Agree_request k r pending s : st_requests s !! k = None -> Agree pending s ->
  Agree (request_minutes (k, r) ++ pending) (set_requests (<[k := r]> (st_requests s)) s).
Proof.
  intros Hk [Ht Hu]. split; [|done]. intros node bucket v. specialize (Ht node bucket v). unfold details in *. cbn [st_interfaces st_connections st_requests st_minutes set_connections set_requests].
  rewrite !total_app in *. rewrite (total_insert request_minutes) by done. counts.
Qed.

Lemma insert_new_cases {K V} `{Countable K} (k : K) (x : V) m :
  insert_new k x m = (false, m) \/ (m !! k = None /\ insert_new k x m = (true, <[k := x]> m)).
Proof. unfold insert_new. destruct (m !! k) eqn:E; [by left|by right]. Qed.

(** A statement that adds a row to the minute tables. *)
Lemma minute_upsert_agrees what fits row pending :
  yields (Agree (row :: pending)) (minute_upsert what fits row) (fun _ => Agree pending).
Proof.
  apply yields_statement. intros s [] s' [Ht Hu]. destruct fits; [|done].
  destruct (Rollup.upsert row (st_minutes s)) as [rows|] eqn:E; [|done]. intros [= <-]. split.
  - intros node bucket v. specialize (Ht node bucket v). apply (upsert_totals node bucket v) in E.
    change (details (set_minutes rows s)) with (details s). rewrite total_cons in Ht. cbn [st_minutes set_minutes]. counts.
  - by eapply upsert_unique.
Qed.

(** A statement that leaves the details and the minute tables alone. *)
Lemma execute_agrees what fits f pending : (forall s, st_interfaces (f s) = st_interfaces s /\ st_connections (f s) = st_connections s /\
    st_requests (f s) = st_requests s /\ st_minutes (f s) = st_minutes s) ->
  yields (Agree pending) (execute what fits f) (fun _ => Agree pending).
Proof. intros Hf. apply yields_execute. intros s HA _. destruct (Hf s) as (? & ? & ? & ?). by eapply Agree_frame. Qed.

Lemma query_agrees {A} what fits (f : store -> A) pending : yields (Agree pending) (query what fits f) (fun _ => Agree pending).
Proof. by apply yields_query. Qed.

Ltac frame := intros ?; split_and!; reflexivity.

Lemma interface_agrees node e : yields (Agree []) (insertInterfaceDelta node e) (fun _ => Agree []).
Proof.
  eapply (yields_bind _ _ (fun inserted : bool => Agree (if inserted then interface_minutes (ev_ID e, timestamptz (ev_ObservedAt e),
    MkInterfaceRow node (ev_Interface e) (ev_Direction e) (ev_Bytes e) (ev_Packets e)) else []))).
  - apply yields_statement. intros s inserted s' HA. destruct (_ && _); [|done].
    destruct (insert_new_cases (ev_ID e, timestamptz (ev_ObservedAt e))
      (MkInterfaceRow node (ev_Interface e) (ev_Direction e) (ev_Bytes e) (ev_Packets e)) (st_interfaces s)) as [->|[Hk ->]]; intros [= <- <-].
    + eapply Agree_frame, HA; done.
    + rewrite <- (app_nil_r (interface_minutes _)). by apply Agree_interface.
  - intros []; [apply minute_upsert_agrees|by apply yields_ret].
Qed.

Lemma health_agrees node e h : yields (Agree []) (insertHealth node e h) (fun _ => Agree []).
Proof.
  eapply (yields_bind _ _ (fun _ => Agree [])); [apply execute_agrees; frame|].
  intros _. destruct (_ && _); [apply execute_agrees; frame|by apply yields_ret].
Qed.

Lemma inventory_agrees node e i : yields (Agree []) (insertOwnerInventory node e i) (fun _ => Agree []).
Proof. unfold insertOwnerInventory. destruct (ownerIdentity _). apply execute_agrees; frame. Qed.

Lemma evidence_agrees node e n : yields (Agree []) (insertNameEvidence node e n) (fun _ => Agree []).
Proof. apply execute_agrees; frame. Qed.

(** The last of the pending rows only has to look the same to every view. *)
Lemma minute_upsert_agrees_like what fits row row' : (forall node bucket v, selected node bucket v row' = selected node bucket v row) ->
  yields (Agree [row']) (minute_upsert what fits row) (fun _ => Agree []).
Proof.
  intros Hr. apply (yields_mono (Agree [row]) _ _ (fun _ => Agree [])); [|done|apply minute_upsert_agrees]. intros s HA.
  eapply Agree_pending, HA. intros node bucket v. rewrite !total_cons. by rewrite Hr.
Qed.

Lemma connection_agrees node e c :
  yields (Agree []) (insertConnection scan sort geoIP node e c) (fun _ => Agree []).
Proof.
  unfold insertConnection. destruct (ownerIdentity (cd_Owner c)) as [ownerID ownerName].
  eapply (yields_bind _ _ (fun _ => Agree [])); [apply execute_agrees; frame|]. intros _.
  eapply (yields_bind _ _ (fun _ => Agree [])); [apply query_agrees|]. intros evidence.
  set (d := DecideAt sort c evidence (ev_ObservedAt e)). set (direction := ClassifyDirection c defaultLocalPrefixes).
  set (n := networkInfo geoIP (ep_IP (cd_Remote c))).
  set (row := MkConnection _ _ _ _ _ _ _ _ _ _ _ _ _ _ n).
  eapply (yields_bind _ _ (fun inserted : bool => Agree (if inserted then connection_minutes (ev_ID e, timestamptz (ev_ObservedAt e), row) else []))).
  - apply yields_statement. intros s inserted s' HA. destruct (connection_fits _ _ _ _ _ _ _ _); [|done].
    destruct (insert_new_cases (ev_ID e, timestamptz (ev_ObservedAt e)) row (st_connections s)) as [->|[Hk ->]]; intros [= <- <-].
    + eapply Agree_frame, HA; done.
    + rewrite <- (app_nil_r (connection_minutes _)). by apply Agree_connection.
  - intros []; [|by apply yields_ret]. cbn [negb connection_minutes].
    eapply yields_bind; [apply minute_upsert_agrees|]. intros []. cbv beta.
    eapply yields_bind; [apply minute_upsert_agrees|]. intros []. cbv beta. by apply minute_upsert_agrees_like.
Qed.

Lemma resolve_agrees node upstream at_ pending :
  yields (Agree pending) (resolveUpstreamOwner scan node upstream at_) (fun _ => Agree pending).
Proof.
  unfold resolveUpstreamOwner.
  repeat first [ apply query_agrees | by apply yields_ret | case_match; simplify_eq
               | eapply (yields_bind _ _ (fun _ => Agree pending)); [apply query_agrees|intros ?] ].
Qed.

Lemma request_agrees node e r : yields (Agree []) (insertProxyRequest scan node e r) (fun _ => Agree []).
Proof.
  unfold insertProxyRequest. eapply (yields_bind _ _ (fun _ => Agree [])); [apply resolve_agrees|]. intros [upstreamOwner observedPort].
  set (row := MkRequest _ _ _ _ _ _ _ _ _).
  eapply (yields_bind _ _ (fun inserted : bool => Agree (if inserted then request_minutes (ev_ID e, timestamptz (ev_ObservedAt e), row) else []))).
  - apply yields_statement. intros s inserted s' HA. destruct (request_fits _ _ _ _); [|done].
    destruct (insert_new_cases (ev_ID e, timestamptz (ev_ObservedAt e)) row (st_requests s)) as [->|[Hk ->]]; intros [= <- <-].
    + eapply Agree_frame, HA; done.
    + rewrite <- (app_nil_r (request_minutes _)). by apply Agree_request.
  - intros []; [|by apply yields_ret]. cbn [negb request_minutes].
    eapply yields_bind; [apply minute_upsert_agrees|]. intros []. cbv beta.
    eapply yields_bind; [apply minute_upsert_agrees|]. intros []. cbv beta. destruct (proxyDestination _) as [destination remotePort].
    set (flow := MkMinute _ _ _ _).
    eapply (yields_bind _ _ (fun _ => Agree [flow])).
    + destruct (negb _); [|by destruct (negb _); apply yields_ret].
      eapply (yields_bind _ _ (fun _ => Agree [flow])); [apply query_agrees|]. intros [o|]; [by apply yields_ret|apply yields_fail].
    + intros [[ownerID ownerName] port]. by apply minute_upsert_agrees_like.
Qed.

Lemma with_payload_agrees {A} (p : option A) f : (forall a, yields (Agree []) (f a) (fun _ => Agree [])) ->
  yields (Agree []) (with_payload p f) (fun _ => Agree []).
Proof. intros Hf. destruct p; [apply Hf|apply yields_fail]. Qed.

Lemma event_agrees node e : yields (Agree []) (insertEvent scan sort geoIP node e) (fun _ => Agree []).
Proof.
  unfold insertEvent. destruct (bool_decide _); [apply interface_agrees|].
  destruct (bool_decide _); [apply with_payload_agrees; intros; apply health_agrees|].
  destruct (bool_decide _); [apply with_payload_agrees; intros; apply inventory_agrees|].
  destruct (bool_decide _); [apply with_payload_agrees; intros; apply evidence_agrees|].
  destruct (bool_decide _); [apply with_payload_agrees; intros; apply connection_agrees|].
  destruct (bool_decide _); [apply with_payload_agrees; intros; apply request_agrees|]. apply yields_fail.
Qed.

Lemma batch_agrees b : yields (Agree []) (batch_transaction scan sort geoIP b) (fun _ => Agree []).
Proof.
  unfold batch_transaction. eapply (yields_bind _ _ (fun _ => Agree [])); [apply execute_agrees; frame|]. intros [].
  eapply (yields_bind _ _ (fun _ => Agree [])).
  { apply yields_statement. intros s [] s' HA; destruct (sql_text _); try done; destruct (bool_decide _); try done; intros [= <-]; [|done].
    by eapply Agree_frame, HA. }
  intros []; [|by apply yields_ret]. cbn [negb].
  eapply (yields_bind _ _ (fun _ => Agree [])); [destruct (existsb _ _); [apply execute_agrees; frame|by apply yields_ret]|]. intros [].
  eapply (yields_bind _ _ (fun _ => Agree [])); [|intros []; by apply yields_ret].
  apply yields_each. intros kind. apply yields_each. intros e. apply event_agrees.
Qed.

(** Batches as they arrive: how many statements go through, how the commit ends. *)
Record arrival : Type := MkArrival { ar_left : nat; ar_commit : commit_outcome; ar_batch : Batch }.

Definition arrive (s : store) (a : arrival) : store := (InsertBatch scan sort geoIP (ar_left a) (ar_commit a) (ar_batch a) s).1.
Definition arrive_all (s : store) (l : list arrival) : store := foldl arrive s l.

Lemma InsertBatch_yields P b left outcome s : P s -> yields P (batch_transaction scan sort geoIP b) (fun _ => P) ->
  P (InsertBatch scan sort geoIP left outcome b s).1.
Proof.
  intros HP Hy. unfold InsertBatch. destruct (Validate b) as [[]|]; [|done].
  destruct (transact_cases (batch_transaction scan sort geoIP b) left outcome s) as [(a & t & E & -> & _)|[-> _]]; [|done].
  by apply (Hy (MkTx s left) a t).
Qed.

Lemma arrivals_agree l s : Agree [] s -> Agree [] (arrive_all s l).
Proof.
  revert s. induction l as [|a l IH]; intros s HA; [done|]. apply IH, (InsertBatch_yields (Agree [])); [done|]. apply batch_agrees.
Qed.
End agree.

Lemma empty_agrees : Agree [] empty_store.
Proof. split; [done|constructor]. Qed.

(** C23. Whatever batches arrive, and whatever statements and commits fail: the minute
    counters a reader sums up - the traffic of a direction, of an owner, of a domain,
    the flows of a domain, the answers of a host - are the sums of the stored details
    of that minute, and a minute table has one row per key. *)
Theorem minutes_agree {tz : Timestamptz} {ip : Inet} (scan : forall A : Type, list A -> list A)
    (sort : (NameEvidence -> NameEvidence -> bool) -> list NameEvidence -> list NameEvidence)
    (geoIP : option (ip_addr -> NetworkInfo)) (l : list arrival) :
  let s := arrive_all scan sort geoIP empty_store l in
  (forall node bucket v, total node bucket v (st_minutes s) = total node bucket v (details s)) /\
  NoDup (row_key <$> st_minutes s).
Proof.
  intros s. destruct (arrivals_agree scan sort geoIP l empty_store empty_agrees) as [Ht Hu].
  split; [|done]. intros node bucket v. unfold s. rewrite Ht. by rewrite add_counts_0.
Qed.
