(* ===== verification/StoreOnce.v ===== *)
(** * Every batch is stored once

    Which batches the store has taken, and that the interface rows it keeps are exactly
    those of these batches. *)

From stdpp Require Import base strings numbers gmap sets list.
From Stdlib Require Import Ascii.
From S2P Require Import Prelude GoBase GoText GoModel InterfaceCounter Attribution Sender Effects StateFile App AppTheorems Sql Store StoreTheorems.
From S2P Require Rollup.

Open Scope string_scope.
Open Scope Z_scope.
Local Open Scope flow_scope.
Local Open Scope list_scope.

Section once.
Context {tz : Timestamptz} {ip : Inet} (scan : forall A : Type, list A -> list A).
Context (sort : (NameEvidence -> NameEvidence -> bool) -> list NameEvidence -> list NameEvidence).
Context (geoIP : option (ip_addr -> NetworkInfo)).

(** The interface rows and the guards are [R] and [G]. *)
Definition guarded (R : gmap (string * time) interface_row) (G : gset (string * string)) (s : store) : Prop :=
  st_interfaces s = R /\ st_batches s = G.

Definition event_key (e : Event) : string * time := (ev_ID e, timestamptz (ev_ObservedAt e)).
Definition event_row (node : string) (e : Event) : interface_row :=
  MkInterfaceRow node (ev_Interface e) (ev_Direction e) (ev_Bytes e) (ev_Packets e).
Definition add_row (node : string) (R : gmap (string * time) interface_row) (e : Event) : gmap (string * time) interface_row :=
  (insert_new (event_key e) (event_row node e) R).2.
Definition is_interface (e : Event) : bool := bool_decide (ev_Kind e = EventInterfaceDelta).

Ltac keep R G :=
  repeat first
    [ by apply yields_ret | apply yields_fail | by apply yields_query
    | apply yields_execute; by intros
    | progress cbv zeta
    | eapply (yields_bind _ _ (fun _ => guarded R G)); [|intros ?]
    | match goal with |- yields _ (let '(_, _) := ?x in _) _ => destruct x end
    | match goal with |- yields _ (if ?x then _ else _) _ => destruct x end
    | match goal with |- yields _ (match ?x with _ => _ end) _ => destruct x end ].

Lemma minute_upsert_keeps R G what fits row : yields (guarded R G) (minute_upsert what fits row) (fun _ => guarded R G).
Proof.
  apply yields_statement. intros s [] s' HG. destruct fits; [|done]. destruct (Rollup.upsert _ _) as [rows|]; [|done]. by intros [= <-].
Qed.

Lemma interface_adds R G node e :
  yields (guarded R G) (insertInterfaceDelta node e) (fun _ => guarded (add_row node R e) G).
Proof.
  unfold insertInterfaceDelta. eapply (yields_bind _ _ (fun _ => guarded (add_row node R e) G)).
  - apply yields_statement. intros s inserted s' [HR HG]. destruct (_ && _); [|done].
    destruct (insert_new _ _ _) as [b rows] eqn:E. intros [= <- <-]. split; [|done].
    unfold add_row, event_key, event_row. by rewrite <- HR, E.
  - intros []; [apply minute_upsert_keeps|by apply yields_ret].
Qed.

Lemma event_adds R G node e :
  yields (guarded R G) (insertEvent scan sort geoIP node e) (fun _ => guarded (if is_interface e then add_row node R e else R) G).
Proof.
  unfold insertEvent, is_interface. destruct (bool_decide (ev_Kind e = EventInterfaceDelta)); [apply interface_adds|].
  unfold with_payload, insertHealth, insertOwnerInventory, insertNameEvidence, insertConnection, insertProxyRequest, resolveUpstreamOwner,
    ensureObservedOwner, validEvidence.
  keep R G. all: first [apply minute_upsert_keeps | apply yields_statement; intros st inserted st' HG].
  all: match goal with |- context [if ?fits then _ else _] => destruct fits end; [|done].
  all: match goal with |- context [insert_new ?k ?v ?m] => destruct (insert_new k v m) as [added rows] end.
  all: by intros [= <- <-].
Qed.

Definition add_event (node : string) (R : gmap (string * time) interface_row) (e : Event) : gmap (string * time) interface_row :=
  if is_interface e then add_row node R e else R.

Definition interface_events (b : Batch) : list Event := of_kind EventInterfaceDelta (b_Events b).
Definition batch_key (b : Batch) : string * string := (b_NodeID b, b_BatchID b).

Lemma fold_kind node R kind es :
  foldl (add_event node) R (of_kind kind es) = if bool_decide (kind = EventInterfaceDelta) then foldl (add_row node) R (of_kind kind es) else R.
Proof.
  assert (Forall (fun e => ev_Kind e = kind) (of_kind kind es)) as Hk by (apply Forall_forall; intros e [? _]%list_elem_of_filter; done).
  revert R. induction Hk as [|e l He _ IH]; intros R; simpl; [by destruct (bool_decide _)|].
  rewrite IH. unfold add_event, is_interface. rewrite He. by destruct (bool_decide _).
Qed.

Lemma batch_adds R G b : yields (guarded R G) (batch_transaction scan sort geoIP b)
  (fun (inserted : bool) (s : store) => if inserted then (batch_key b ∉ G) /\ guarded (foldl (add_row (b_NodeID b)) R (interface_events b)) ({[batch_key b]} ∪ G) s
                     else batch_key b ∈ G /\ guarded R G s).
Proof.
  unfold batch_transaction. eapply (yields_bind _ _ (fun _ => guarded R G)); [by apply yields_execute|]. intros [].
  eapply (yields_bind _ _ (fun (inserted : bool) (s : store) => if inserted then (batch_key b ∉ G) /\ guarded R ({[batch_key b]} ∪ G) s else batch_key b ∈ G /\ guarded R G s)).
  { apply yields_statement. intros s inserted s' [HR HG]. destruct (sql_text _); [|done]. rewrite HG.
    destruct (bool_decide _) eqn:E; intros [= <- <-]; [apply bool_decide_eq_true in E|apply bool_decide_eq_false in E]; by rewrite <- HG in *. }
  intros []; [|by apply yields_ret]. cbn [negb].
  intros t inserted t' [Hn HG]. revert t inserted t' HG.
  change (yields (guarded R ({[batch_key b]} ∪ G))
    (let+ _ := (if existsb (fun e => bool_decide (ev_Kind e = EventOwnerInventory)) (b_Events b)
       then execute "mark absent container owners stopped" true (stop_containers (b_NodeID b)) else sql_ret tt) in
     let+ _ := sql_each (fun kind => sql_each (insertEvent scan sort geoIP (b_NodeID b)) (of_kind kind (b_Events b))) kind_order in sql_ret true)
    (fun (inserted : bool) (s : store) => if inserted then (batch_key b ∉ G) /\ guarded (foldl (add_row (b_NodeID b)) R (interface_events b)) ({[batch_key b]} ∪ G) s
                     else batch_key b ∈ G /\ guarded R G s)).
  eapply (yields_bind _ _ (fun _ => guarded R ({[batch_key b]} ∪ G))); [destruct (existsb _ _); [by apply yields_execute|by apply yields_ret]|]. intros [].
  eapply (yields_bind _ _ (fun _ => guarded (foldl (fun R kind => foldl (add_event (b_NodeID b)) R (of_kind kind (b_Events b))) R kind_order) ({[batch_key b]} ∪ G))).
  { apply (yields_fold (fun R => guarded R ({[batch_key b]} ∪ G)) (fun kind => sql_each (insertEvent scan sort geoIP (b_NodeID b)) (of_kind kind (b_Events b))) (fun R kind => foldl (add_event (b_NodeID b)) R (of_kind kind (b_Events b)))).
    intros R1 kind. apply (yields_fold (fun R => guarded R ({[batch_key b]} ∪ G)) _ (add_event (b_NodeID b))). intros R2 e. apply event_adds. }
  intros []. apply yields_ret. intros s HG. split; [done|]. cbn [kind_order foldl] in HG. rewrite !fold_kind in HG. exact HG.
Qed.

(** ** Rows of batches *)

Lemma fold_rows node R es : NoDup (event_key <$> es) -> (forall e, e ∈ es -> R !! event_key e = None) ->
  forall k r, foldl (add_row node) R es !! k = Some r <->
    R !! k = Some r \/ exists e, e ∈ es /\ event_key e = k /\ event_row node e = r.
Proof.
  revert R. induction es as [|e es IH]; intros R Hnd Hfresh k r; [simpl; set_solver|].
  rewrite fmap_cons, NoDup_cons in Hnd. destruct Hnd as [Hn Hnd]. simpl.
  assert (add_row node R e = <[event_key e := event_row node e]> R) as E.
  { unfold add_row, insert_new. by rewrite (Hfresh e) by constructor. }
  rewrite E, IH; [|done|].
  - rewrite lookup_insert_Some. split.
    + intros [[[<- <-]|[_ H]]|(e' & He' & H)]; [right; exists e; split; [constructor|done]|by left|].
      right. exists e'. split; [by constructor|done].
    + intros [H|(e' & [->|He']%elem_of_cons & <- & <-)]; [|left; by left|right; by exists e'].
      left. right. split; [|done]. intros <-. rewrite (Hfresh e) in H by constructor. done.
  - intros e' He'. rewrite lookup_insert_ne; [apply Hfresh; by constructor|]. intros Hk. apply Hn. rewrite Hk.
    by apply list_elem_of_fmap_2.
Qed.

(** The batches of [all] the store has taken. *)
Definition taken (all : list Batch) (s : store) : list Batch := filter (fun b => batch_key b ∈ st_batches s) (remove_dups all).

(** The interface rows are those of the batches taken. *)
Record Once (all : list Batch) (s : store) : Prop := {
  on_guards : forall k, k ∈ st_batches s -> exists b, b ∈ all /\ batch_key b = k;
  on_rows : forall k r, st_interfaces s !! k = Some r <->
    exists b e, b ∈ taken all s /\ e ∈ interface_events b /\ event_key e = k /\ event_row (b_NodeID b) e = r }.

Section history.
Context (all : list Batch).
Context (Hsame : forall b b', b ∈ all -> b' ∈ all -> batch_key b = batch_key b' -> b = b' \/ (interface_events b = [] /\ interface_events b' = [])).
Context (Hkeys : NoDup (event_key <$> (remove_dups all ≫= interface_events))).

Lemma taken_spec s b : b ∈ taken all s <-> batch_key b ∈ st_batches s /\ b ∈ all.
Proof. unfold taken. by rewrite list_elem_of_filter, elem_of_remove_dups. Qed.

Lemma batch_keys_nodup b : b ∈ all -> NoDup (event_key <$> interface_events b).
Proof.
  intros Hb. apply elem_of_remove_dups, list_elem_of_split in Hb as (l1 & l2 & E). rewrite E in Hkeys.
  rewrite bind_app, bind_cons, !fmap_app in Hkeys. apply NoDup_app in Hkeys as (_ & _ & Hk). by apply NoDup_app in Hk as (Hk & _).
Qed.

Lemma keys_apart b b' e e' : b ∈ all -> b' ∈ all -> e ∈ interface_events b -> e' ∈ interface_events b' -> event_key e = event_key e' -> b = b'.
Proof.
  intros Hb Hb' He He' E. destruct (decide (b = b')) as [|Hne]; [done|exfalso].
  apply elem_of_remove_dups in Hb, Hb'. apply list_elem_of_split in Hb as (l1 & l2 & El).
  rewrite El in Hkeys, Hb'. rewrite bind_app, bind_cons, !fmap_app in Hkeys.
  apply NoDup_app in Hkeys as (_ & H1 & (_ & H2 & _)%NoDup_app).
  pose proof (list_elem_of_fmap_2 event_key _ _ He) as Hin. pose proof (list_elem_of_fmap_2 event_key _ _ He') as Hin'. rewrite <- E in Hin'.
  apply elem_of_app in Hb' as [Hb'|[->|Hb']%elem_of_cons]; [|done|].
  - apply (H1 (event_key e)); [apply list_elem_of_fmap|apply elem_of_app; by left].
    exists e'. split; [done|]. apply list_elem_of_bind. by exists b'.
  - apply (H2 (event_key e)); [done|]. apply list_elem_of_fmap. exists e'. split; [done|]. apply list_elem_of_bind. by exists b'.
Qed.

Lemma arrive_once a s : ar_batch a ∈ all -> Once all s -> Once all (arrive scan sort geoIP s a).
Proof.
  intros Hb [Hg Hr]. unfold arrive, InsertBatch. destruct (Validate (ar_batch a)) as [[]|]; [|by split].
  destruct (transact_cases (batch_transaction scan sort geoIP (ar_batch a)) (ar_left a) (ar_commit a) s) as [(inserted & t & E & -> & _)|[-> _]]; [|by split].
  apply (batch_adds (st_interfaces s) (st_batches s)) in E; [|done]. set (b := ar_batch a) in *.
  destruct inserted; destruct E as [Hin [ER EG]].
  2: { split; [by rewrite EG|]. intros k r. rewrite ER, Hr. unfold taken. by rewrite EG. }
  split.
  - intros k. rewrite EG, elem_of_union, elem_of_singleton. intros [->|Hk]; [by exists b|by apply Hg].
  - intros k r. rewrite ER, fold_rows, Hr; [|by apply batch_keys_nodup|].
    + setoid_rewrite taken_spec. rewrite EG. setoid_rewrite elem_of_union. setoid_rewrite elem_of_singleton. split.
      * intros [(b' & e & [Hk Hb'] & He & H)|(e & He & H)]; [exists b', e|exists b, e]; naive_solver.
      * intros (b' & e & [[Hk|Hk] Hb'] & He & H); [|left; by exists b', e].
        destruct (Hsame b' b Hb' Hb Hk) as [->|[E _]]; [right; by exists e|]. rewrite E in He. by apply not_elem_of_nil in He.
    + intros e He. destruct (st_interfaces s !! event_key e) as [r'|] eqn:Ek; [|done]. exfalso.
      apply Hr in Ek as (b' & e' & [Hk Hb']%taken_spec & He' & Ekey & _).
      rewrite (keys_apart b' b e' e) in Hk by done. done.
Qed.

Lemma arrivals_once l s : Forall (fun a => ar_batch a ∈ all) l -> Once all s -> Once all (arrive_all scan sort geoIP s l).
Proof.
  intros Hl. revert s. induction Hl as [|a l Ha _ IH]; intros s HO; [done|]. by apply IH, arrive_once.
Qed.

(** The stored bytes of a direction of an interface. *)
Definition counted_row (node n : string) (d : counted) (r : interface_row) : Z :=
  if bool_decide (ir_node r = node) && bool_decide (ir_interface r = n) && bool_decide (ir_direction r = dir_name d) then ir_bytes r else 0.
Definition stored_bytes (node n : string) (d : counted) (s : store) : Z := sumZ (fun kv => counted_row node n d kv.2) (map_to_list (st_interfaces s)).

Lemma counted_event node node' n d e : counted_row node n d (event_row node' e) = if bool_decide (node' = node) then event_bytes n d e else 0.
Proof.
  unfold counted_row, event_bytes. simpl. destruct (bool_decide (node' = node)); [|done]. simpl.
  destruct (String.eqb_spec (ev_Interface e) n), (String.eqb_spec (ev_Direction e) (dir_name d)); simpl; by repeat case_bool_decide.
Qed.

Lemma stored_sum node n d s : Once all s -> stored_bytes node n d s =
  sumZ (fun b => if bool_decide (b_NodeID b = node) then sumZ (event_bytes n d) (interface_events b) else 0) (taken all s).
Proof.
  intros [_ Hr]. unfold stored_bytes.
  rewrite (sumZ_perm _ _ (taken all s ≫= fun b => (fun e => (event_key e, event_row (b_NodeID b) e)) <$> interface_events b)).
  - rewrite sumZ_bind. apply sumZ_ext. intros b _. rewrite sumZ_fmap. 
    destruct (bool_decide (b_NodeID b = node)) eqn:E; [apply sumZ_ext|apply sumZ_zero]; intros e _; cbn [snd]; by rewrite counted_event, E.
  - apply NoDup_Permutation.
    + apply NoDup_map_to_list.
    + apply (NoDup_fmap_1 fst). assert (forall bs, fst <$> (bs ≫= fun b => (fun e => (event_key e, event_row (b_NodeID b) e)) <$> interface_events b) =
        event_key <$> (bs ≫= interface_events)) as ->.
      { induction bs as [|b bs IH]; [done|]. rewrite !bind_cons, !fmap_app, IH. f_equal. by rewrite <- list_fmap_compose. }
      eapply sublist_NoDup; [exact Hkeys|]. apply fmap_sublist. unfold taken. clear.
      induction (remove_dups all) as [|b bs IH]; [done|]. rewrite filter_cons. destruct (decide _); rewrite ?bind_cons; [by apply sublist_app|].
      by apply sublist_inserts_l.
    + intros [k r]. rewrite elem_of_map_to_list, Hr, list_elem_of_bind. setoid_rewrite list_elem_of_fmap. split.
      * intros (b & e & Hb & He & <- & <-). exists b. split; [|done]. by exists e.
      * intros (b & (e & [= -> ->] & He) & Hb). by exists b, e.
Qed.
End history.

Lemma arrive_guards a s : st_batches s ⊆ st_batches (arrive scan sort geoIP s a).
Proof.
  unfold arrive, InsertBatch. destruct (Validate (ar_batch a)) as [[]|]; [|done].
  destruct (transact_cases (batch_transaction scan sort geoIP (ar_batch a)) (ar_left a) (ar_commit a) s) as [(inserted & t & E & -> & _)|[-> _]]; [|done].
  apply (batch_adds (st_interfaces s) (st_batches s)) in E; [|done]. destruct inserted; destruct E as [_ [_ ->]]; set_solver.
Qed.

Lemma arrivals_guards l s : st_batches s ⊆ st_batches (arrive_all scan sort geoIP s l).
Proof.
  revert s. induction l as [|a l IH]; intros s; [done|]. etransitivity; [apply (arrive_guards a)|apply IH].
Qed.

(** What [InsertBatch] reports. *)
Lemma InsertBatch_reports a s inserted : (InsertBatch scan sort geoIP (ar_left a) (ar_commit a) (ar_batch a) s).2 = Ok inserted ->
  batch_key (ar_batch a) ∈ st_batches (arrive scan sort geoIP s a) /\ (inserted = false <-> batch_key (ar_batch a) ∈ st_batches s).
Proof.
  unfold arrive, InsertBatch. destruct (Validate (ar_batch a)) as [[]|]; [|done].
  destruct (transact_cases (batch_transaction scan sort geoIP (ar_batch a)) (ar_left a) (ar_commit a) s) as [(i & t & E & -> & Hr)|[_ Hr]].
  - intros Hi. destruct Hr as [Hr|Hr]; rewrite Hi in Hr; [|done]. injection Hr as <-.
    apply (batch_adds (st_interfaces s) (st_batches s)) in E; [|done]. destruct inserted; destruct E as [Hin [_ ->]]; set_solver.
  - intros Hi. by rewrite Hi in Hr.
Qed.
End once.

(** C21. Exactly once at the server, for retries that are the same batch, or hold no
    interface events, and interface events with keys of their own: repeated as they may be,
    and whatever statements and commits fail, the stored bytes of a direction of an
    interface are those of the batches taken, each counted once; a batch that was
    reported as stored, as new or as a duplicate, is among them, and it is reported as
    a duplicate just when its key was known already. *)
Theorem stored_once {tz : Timestamptz} {ip : Inet} (scan : forall A : Type, list A -> list A)
    (sort : (NameEvidence -> NameEvidence -> bool) -> list NameEvidence -> list NameEvidence)
    (geoIP : option (ip_addr -> NetworkInfo)) (l : list arrival) (node n : string) (d : counted) :
  let all := ar_batch <$> l in
  (forall b b', b ∈ all -> b' ∈ all -> batch_key b = batch_key b' ->
     b = b' \/ (interface_events b = [] /\ interface_events b' = [])) ->
  NoDup (event_key <$> (remove_dups all ≫= interface_events)) ->
  (forall b e, b ∈ all -> e ∈ b_Events b -> is_interface e = false -> event_bytes n d e = 0) ->
  let s := arrive_all scan sort geoIP empty_store l in
  stored_bytes node n d s = sumZ (batch_bytes n d) (filter (fun b => b_NodeID b = node) (taken all s)) /\
  (forall before a after inserted, l = before ++ a :: after ->
     (InsertBatch scan sort geoIP (ar_left a) (ar_commit a) (ar_batch a) (arrive_all scan sort geoIP empty_store before)).2 = Ok inserted ->
     ar_batch a ∈ taken all s /\
     (inserted = false <-> batch_key (ar_batch a) ∈ st_batches (arrive_all scan sort geoIP empty_store before))).
Proof.
  intros all Hsame Hkeys Hother s.
  assert (Once all s) as HO.
  { apply arrivals_once; [done|done|by apply Forall_forall; intros a Ha; apply list_elem_of_fmap_2|].
    split; [set_solver|]. intros k r. split; [intros H; change ((∅ : gmap (string * time) interface_row) !! k = Some r) in H; by rewrite lookup_empty in H|].
    by intros (b & e & [Hb _]%taken_spec & _). }
  split.
  - rewrite (stored_sum all Hkeys node n d s HO).
    assert (forall b, b ∈ taken all s -> sumZ (event_bytes n d) (interface_events b) = batch_bytes n d b) as Hb.
    { intros b [_ Hb]%taken_spec. unfold batch_bytes. rewrite (sumZ_filter_split _ (fun e => ev_Kind e = EventInterfaceDelta) (b_Events b)).
      rewrite (sumZ_zero _ (filter (fun e => ~ _) _)); [unfold interface_events, of_kind; lia|].
      intros e [He Hin]%list_elem_of_filter. apply (Hother b); [done|done|]. unfold is_interface. by apply bool_decide_eq_false. }
    clearbody s. clear HO. induction (taken all s) as [|b bs IH]; [done|]. rewrite filter_cons. simpl.
    rewrite (IH ltac:(intros; apply Hb; by constructor)). rewrite (Hb b) by constructor. destruct (decide _); by case_bool_decide.
  - intros before a after inserted E Hr. apply InsertBatch_reports in Hr as [Hin Hdup]. split; [|done].
    apply taken_spec. split; [|unfold all; rewrite E; apply list_elem_of_fmap_2; set_solver].
    unfold s. rewrite E. unfold arrive_all at 1. rewrite foldl_app. cbn [foldl]. by apply arrivals_guards.
Qed.
