(* ===== verification/StoreAccepts.v ===== *)
(** * What the store takes

    A batch that passes validation and holds values the columns can represent is never
    refused: its transaction fails only with the connection. *)

From stdpp Require Import base strings numbers gmap sets list.
From Stdlib Require Import Ascii.
From S2P Require Import Prelude GoBase GoText GoModel Attribution Sql Store StoreTheorems.
From S2P Require Rollup.

Open Scope string_scope.
Open Scope Z_scope.
Local Open Scope flow_scope.
Local Open Scope list_scope.

Import Rollup (counts, MkCounts, add_counts, minute_row, MkMinute, mi_dim, mi_counts, dimension, key_of, same_row).

(** ** What the rows hold *)

Section sound.
Context {tz : Timestamptz} {ip : Inet} (scan : forall A : Type, list A -> list A).
Context (sort : (NameEvidence -> NameEvidence -> bool) -> list NameEvidence -> list NameEvidence).
Context (geoIP : option (ip_addr -> NetworkInfo)).

(** Names are texts, and the owner of a connection has its row. *)
Record Sound (s : store) : Prop := {
  so_owners : forall k o, st_owners s !! k = Some o -> sql_text k.2 = true /\ sql_text (ow_display_name o) = true;
  so_connections : forall k c, st_connections s !! k = Some c ->
    sql_text (cr_owner_id c) = true /\ is_Some (st_owners s !! (cr_node c, cr_owner_id c));
  so_evidence : forall k r, st_evidence s !! k = Some r -> sql_text (er_name r) = true /\ sql_text (er_source r) = true }.

Lemma Sound_frame s s' : st_owners s' = st_owners s -> st_connections s' = st_connections s -> st_evidence s' = st_evidence s -> Sound s -> Sound s'.
Proof. intros E1 E2 E3 [H1 H2 H3]. split; rewrite ?E1, ?E2, ?E3; done. Qed.

Lemma Sound_owner k o s : Sound s -> sql_text k.2 = true -> sql_text (ow_display_name o) = true ->
  Sound (set_owners (<[k := o]> (st_owners s)) s) /\ is_Some (st_owners (set_owners (<[k := o]> (st_owners s)) s) !! k).
Proof.
  intros [H1 H2 H3] Hk Ho. split; [|by exists o; apply lookup_insert_eq]. split; cbn [st_owners st_connections st_evidence set_owners]; [|..|done].
  - intros k' o' [[<- <-]|[_ H]]%lookup_insert_Some; [done|by apply H1].
  - intros k' c Hc. destruct (H2 k' c Hc) as [? ?]. split; [done|]. destruct (decide (k = (cr_node c, cr_owner_id c))) as [->|Hne].
    + exists o. apply lookup_insert_eq.
    + by rewrite lookup_insert_ne.
Qed.

Lemma Sound_stop node s : Sound s -> Sound (stop_containers node s).
Proof.
  intros [H1 H2 H3]. assert (forall k, is_Some (st_owners s !! k) -> is_Some (st_owners (stop_containers node s) !! k)) as Hk.
  { intros k [o Ho]. unfold stop_containers. cbn [st_owners set_owners]. rewrite map_lookup_imap, Ho. eauto. }
  split; [|by intros k c Hc; destruct (H2 k c Hc); auto|done].
  intros k o. unfold stop_containers. cbn [st_owners set_owners]. rewrite map_lookup_imap. destruct (st_owners s !! k) as [o'|] eqn:E; [|done].
  simpl. intros [= <-]. destruct (H1 k o' E). by destruct (_ && _).
Qed.

Lemma minute_upsert_sound (P : store -> Prop) what fits row : (forall s rows, P s -> P (set_minutes rows s)) ->
  yields P (minute_upsert what fits row) (fun _ => P).
Proof.
  intros HP. apply yields_statement. intros s [] s' Hs. destruct fits; [|done]. destruct (Rollup.upsert _ _) as [rows|]; [|done].
  intros [= <-]. by apply HP.
Qed.

Lemma Sound_minutes s rows : Sound s -> Sound (set_minutes rows s).
Proof. by apply Sound_frame. Qed.

Lemma owner_fits_text ownerID ownerName o : owner_fits ownerID ownerName o = true -> sql_text ownerID = true /\ sql_text ownerName = true.
Proof. unfold owner_fits. cbn [forallb]. rewrite !andb_true_iff. tauto. Qed.

(** The owner of an event has a row, whoever inserted it. *)
Definition owned (node ownerID : string) (s : store) : Prop := Sound s /\ is_Some (st_owners s !! (node, ownerID)).

Lemma ensure_sound node ownerID ownerName o at_ :
  yields Sound (ensureObservedOwner node ownerID ownerName o at_) (fun _ => owned node ownerID).
Proof.
  apply yields_execute. intros s Hs [_ [Hid Hname]%owner_fits_text]%andb_true_iff.
  by destruct (st_owners s !! (node, ownerID)) as [o'|]; apply Sound_owner.
Qed.

Lemma inventory_sound node e i : yields Sound (insertOwnerInventory node e i) (fun _ => Sound).
Proof.
  unfold insertOwnerInventory. destruct (ownerIdentity _) as [ownerID ownerName]. apply yields_execute.
  intros s Hs [[_ [Hid Hname]%owner_fits_text]%andb_true_iff _]%andb_true_iff.
  by destruct (st_owners s !! (node, ownerID)) as [o'|]; apply Sound_owner.
Qed.

Lemma evidence_sound node e n : yields Sound (insertNameEvidence node e n) (fun _ => Sound).
Proof.
  apply yields_execute. intros s Hs Hfits. destruct Hs as [H1 H2 H3]. split; [done..|]. cbn [st_evidence set_evidence].
  destruct (insert_new_cases (ev_ID e) (MkEvidence node (timestamptz (ev_ObservedAt e)) (inet_text (ne_IP n)) (ne_Name n) (ne_Source n)
    (timestamptz (ne_ValidFrom n)) (timestamptz (ne_ValidUntil n))) (st_evidence s)) as [->|[_ ->]]; [done|]. cbn [snd].
  cbn [forallb] in Hfits. rewrite !andb_true_iff in Hfits. intros k r [[_ <-]|[_ Hr]]%lookup_insert_Some; [cbn; tauto|by apply (H3 k)].
Qed.

(** The answers of [validEvidence]. *)
Definition texts_of (evidence : list NameEvidence) : Prop :=
  Forall (fun n => sql_text (ne_Name n) = true /\ sql_text (ne_Source n) = true) evidence.

Context (Hscan : forall A (l : list A), scan A l ≡ₚ l).

Lemma validEvidence_sound (P : store -> Prop) node addr at_ : (forall s, P s -> Sound s) ->
  yields P (validEvidence scan node addr at_) (fun evidence s => texts_of evidence /\ P s).
Proof.
  intros HP. apply yields_query. intros s Hs _. split; [|done]. unfold texts_of. rewrite Forall_fmap.
  apply Forall_forall. intros [k r] Hkv. rewrite Hscan in Hkv. apply list_elem_of_filter in Hkv as [_ Hkv%elem_of_map_to_list].
  apply (so_evidence s (HP s Hs) k r Hkv).
Qed.

Lemma connection_sound node e c : yields Sound (insertConnection scan sort geoIP node e c) (fun _ => Sound).
Proof.
  unfold insertConnection. destruct (ownerIdentity (cd_Owner c)) as [ownerID ownerName].
  eapply yields_bind; [apply ensure_sound|]. intros []. cbv beta.
  eapply yields_bind; [apply (validEvidence_sound (owned node ownerID)); by intros s [? _]|]. intros evidence. cbv beta.
  set (row := MkConnection _ _ _ _ _ _ _ _ _ _ _ _ _ _ _).
  eapply (yields_bind _ _ (fun _ => Sound)).
  - apply yields_statement. intros s inserted s' [_ [[H1 H2 H3] Ho]]. destruct (connection_fits _ _ _ _ _ _ _ _) eqn:Hfits; [|done].
    destruct (insert_new_cases (ev_ID e, timestamptz (ev_ObservedAt e)) row (st_connections s)) as [->|[Hk ->]]; intros [= <- <-]; [done|].
    split; [done| |done]. cbn [st_owners st_connections set_connections].
    intros k c' [[_ <-]|[_ Hc]]%lookup_insert_Some; [|by apply (H2 k)]. split; [|done].
    unfold connection_fits in Hfits. cbn [forallb] in Hfits. rewrite !andb_true_iff in Hfits. cbn. tauto.
  - intros []; [|by apply yields_ret]. cbn [negb].
    repeat (eapply (yields_bind _ _ (fun _ => Sound)); [apply minute_upsert_sound, Sound_minutes|intros []]).
    apply minute_upsert_sound, Sound_minutes.
Qed.

Lemma resolve_keeps (P : store -> Prop) node upstream at_ : yields P (resolveUpstreamOwner scan node upstream at_) (fun _ => P).
Proof.
  unfold resolveUpstreamOwner.
  repeat first [ by apply yields_query | by apply yields_ret | case_match; simplify_eq
               | eapply (yields_bind _ _ (fun _ => P)); [by apply yields_query|intros ?] ].
Qed.

Lemma request_sound node e r : yields Sound (insertProxyRequest scan node e r) (fun _ => Sound).
Proof.
  unfold insertProxyRequest. eapply (yields_bind _ _ (fun _ => Sound)); [apply resolve_keeps|]. intros [upstreamOwner observedPort].
  eapply (yields_bind _ _ (fun _ => Sound)).
  - apply yields_statement. intros s inserted s' Hs. destruct (request_fits _ _ _ _); [|done].
    destruct (insert_new _ _ _) as [b rows]. intros [= <- <-]. by eapply Sound_frame, Hs.
  - intros []; [|by apply yields_ret]. cbn [negb].
    repeat (eapply (yields_bind _ _ (fun _ => Sound)); [apply minute_upsert_sound, Sound_minutes|intros []]).
    destruct (proxyDestination _) as [destination remotePort]. eapply (yields_bind _ _ (fun _ => Sound)).
    + destruct (negb _); [|by destruct (negb _); apply yields_ret].
      eapply (yields_bind _ _ (fun _ => Sound)); [by apply yields_query|]. intros [o|]; [by apply yields_ret|apply yields_fail].
    + intros [[ownerID ownerName] port]. apply minute_upsert_sound, Sound_minutes.
Qed.

Lemma event_sound node e : yields Sound (insertEvent scan sort geoIP node e) (fun _ => Sound).
Proof.
  unfold insertEvent, with_payload. destruct (bool_decide _).
  { eapply (yields_bind _ _ (fun _ => Sound)).
    - apply yields_statement. intros s inserted s' Hs. destruct (_ && _); [|done]. destruct (insert_new _ _ _). intros [= <- <-].
      by eapply Sound_frame, Hs.
    - intros []; [apply minute_upsert_sound, Sound_minutes|by apply yields_ret]. }
  destruct (bool_decide _).
  { destruct (ev_Health e) as [h|]; [|apply yields_fail].
    eapply (yields_bind _ _ (fun _ => Sound)); [apply yields_execute; intros s Hs _; by eapply Sound_frame, Hs|]. intros [].
    destruct (_ && _); [apply yields_execute; intros s Hs _; by apply Sound_stop|by apply yields_ret]. }
  destruct (bool_decide _); [destruct (ev_OwnerInventory e); [apply inventory_sound|apply yields_fail]|].
  destruct (bool_decide _); [destruct (ev_NameEvidence e); [apply evidence_sound|apply yields_fail]|].
  destruct (bool_decide _); [destruct (ev_Connection e); [apply connection_sound|apply yields_fail]|].
  destruct (bool_decide _); [destruct (ev_ProxyRequest e); [apply request_sound|apply yields_fail]|]. apply yields_fail.
Qed.

Lemma batch_sound b : yields Sound (batch_transaction scan sort geoIP b) (fun _ => Sound).
Proof.
  unfold batch_transaction. eapply (yields_bind _ _ (fun _ => Sound)); [apply yields_execute; intros s Hs _; by eapply Sound_frame, Hs|]. intros [].
  eapply (yields_bind _ _ (fun _ => Sound)).
  { apply yields_statement. intros s inserted s' Hs. destruct (sql_text _); [|done]. destruct (bool_decide _); intros [= <- <-]; [done|].
    by eapply Sound_frame, Hs. }
  intros []; [|by apply yields_ret]. cbn [negb].
  eapply (yields_bind _ _ (fun _ => Sound)); [destruct (existsb _ _); [apply yields_execute; intros s Hs _; by apply Sound_stop|by apply yields_ret]|]. intros [].
  eapply (yields_bind _ _ (fun _ => Sound)); [|intros []; by apply yields_ret].
  apply yields_each. intros kind. apply yields_each. intros e. apply event_sound.
Qed.

Lemma arrivals_sound l s : Sound s -> Sound (arrive_all scan sort geoIP s l).
Proof.
  revert s. induction l as [|a l IH]; intros s Hs; [done|]. apply IH, (InsertBatch_yields scan sort geoIP Sound); [done|]. apply batch_sound.
Qed.
End sound.

(** ** Values the columns can hold *)

(** An address without a zone. *)
Definition no_zone (s : string) : bool :=
  match ParseAddr s with Some (IPv4 _) => true | Some (IPv6 _ zone) => bool_decide (zone = "") | None => false end.

Definition owner_storable (o : OwnerRef) : bool :=
  forallb sql_text [own_Kind o; own_Process o; own_ContainerID o; own_ContainerName o] && (own_PID o <? 2 ^ 31).

Definition connection_storable (c : ConnectionDelta) : bool :=
  forallb sql_text [cd_Protocol c; cd_State c; ep_IP (cd_Local c); ep_IP (cd_Remote c); ep_Domain (cd_Remote c)] &&
  no_zone (ep_IP (cd_Local c)) && no_zone (ep_IP (cd_Remote c)) && owner_storable (cd_Owner c) &&
  (0 <=? ep_Port (cd_Local c)) && (ep_Port (cd_Local c) <=? 65535) && (0 <=? ep_Port (cd_Remote c)) && (ep_Port (cd_Remote c) <=? 65535).

(** An upstream with a port, or one that is an address, is looked up as an [inet]. *)
Definition upstream_storable (upstream : string) : bool :=
  match SplitHostPort (chars upstream) with
  | None => match ParseAddr upstream with Some _ => no_zone upstream | None => true end
  | Some (host, portText) =>
      match Atoi portText with
      | None => true
      | Some port => (port <? 1) || (65535 <? port) || sql_text (of_chars host) && no_zone (of_chars host)
      end
  end.

Definition request_storable (r : ProxyRequest) : bool :=
  let upstream := of_chars (TrimSpace (chars (pr_Upstream r))) in
  forallb sql_text [pr_Host r; pr_SourceIP r; pr_Method r; pr_Upstream r; upstream; (proxyDestination (pr_Upstream r)).1] &&
  no_zone (pr_SourceIP r) && upstream_storable upstream.

Definition evidence_storable {tz : Timestamptz} (n : NameEvidence) : bool :=
  forallb sql_text [ne_Name n; ne_Source n] && no_zone (ne_IP n) && bool_decide (ne_Source n ∈ ["dns"; "tls_sni"]) &&
  (timestamptz (ne_ValidFrom n) <? timestamptz (ne_ValidUntil n)).

Definition health_storable (h : HealthEvent) : bool :=
  forallb sql_text [he_Collector h; he_Status h; he_Code h; he_Message h] &&
  f64_leb (f64_of_Z 0) (he_UsagePercent h) && f64_leb (he_UsagePercent h) (f64_of_Z 100).

Definition inventory_storable (i : OwnerInventory) : bool := owner_storable (inv_Owner i) && forallb sql_text (inv_Addresses i).

Definition holds {A} (f : A -> bool) (o : option A) : bool := match o with Some a => f a | None => true end.

Definition event_storable {tz : Timestamptz} (e : Event) : bool :=
  forallb sql_text [ev_ID e; ev_Interface e] && holds health_storable (ev_Health e) && holds connection_storable (ev_Connection e) &&
  holds request_storable (ev_ProxyRequest e) && holds evidence_storable (ev_NameEvidence e) && holds inventory_storable (ev_OwnerInventory e).

Definition storable {tz : Timestamptz} (b : Batch) : bool :=
  sql_text (b_NodeID b) && sql_text (b_BatchID b) && forallb event_storable (b_Events b).

(** What an event adds to a row at most. *)
Definition event_cost (e : Event) : Z :=
  ev_Bytes e + ev_Packets e +
  match ev_Connection e with Some c => saturatingBytes (cd_BytesSent c) (cd_BytesReceived c) + 1 | None => 0 end +
  match ev_ProxyRequest e with Some r => pr_BytesSent r + 1 | None => 0 end.

(** ** Room in the minute tables *)

Definition row_room (m : Z) (c : counts) : Prop :=
  Rollup.bytes c <= max_i64 - m /\ Rollup.packets c <= max_i64 - m /\ Rollup.connections c <= max_i64 - m /\ Rollup.requests c <= max_i64 - m.

#[export] Instance row_room_dec m c : base.Decision (row_room m c).
Proof. unfold row_room. apply _. Defined.

Definition table_of (d : dimension) : nat :=
  match d with
  | Rollup.traffic_minute _ => 0 | Rollup.owner_minute _ _ _ _ => 1 | Rollup.domain_minute _ _ _ => 2
  | Rollup.flow_minute _ _ _ _ _ _ _ _ _ => 3 | Rollup.proxy_status_minute _ _ => 4
  end.

(** Every row takes [m] more, those outside the tables [done] [c] more than that. *)
Definition Room (done_ : list nat) (m c : Z) (s : store) : Prop :=
  Forall (fun r => row_room (if decide (table_of (mi_dim r) ∈ done_) then m else m + c) (mi_counts r)) (st_minutes s).

Definition Roomy (m : Z) (s : store) : Prop := Forall (fun r => row_room m (mi_counts r)) (st_minutes s).

Definition small (c : Z) (x : counts) : Prop :=
  (0 <= Rollup.bytes x <= c) /\ (0 <= Rollup.packets x <= c) /\ (0 <= Rollup.connections x <= c) /\ (0 <= Rollup.requests x <= c).

Lemma Roomy_Room m c s : Roomy (m + c) s -> Room [] m c s.
Proof. intros H. eapply Forall_impl; [exact H|]. intros r Hr. by rewrite decide_False by apply not_elem_of_nil. Qed.

Lemma row_room_le m m' c : m <= m' -> row_room m' c -> row_room m c.
Proof. unfold row_room. lia. Qed.

Lemma Room_Roomy done_ m c s : 0 <= c -> Room done_ m c s -> Roomy m s.
Proof. intros Hc H. eapply Forall_impl; [exact H|]. intros r Hr. eapply row_room_le, Hr. case_decide; lia. Qed.

Lemma same_table r row : same_row r row = true -> table_of (mi_dim r) = table_of (mi_dim row).
Proof.
  unfold same_row. rewrite !andb_true_iff, !bool_decide_eq_true. intros [_ E]. destruct (mi_dim r), (mi_dim row); done.
Qed.

Lemma upsert_room done_ m c row rows : 0 <= m -> 0 <= c -> m + c <= max_i64 -> small c (mi_counts row) -> table_of (mi_dim row) ∉ done_ ->
  Forall (fun r => row_room (if decide (table_of (mi_dim r) ∈ done_) then m else m + c) (mi_counts r)) rows ->
  exists rows', Rollup.upsert row rows = Some rows' /\
    Forall (fun r => row_room (if decide (table_of (mi_dim r) ∈ table_of (mi_dim row) :: done_) then m else m + c) (mi_counts r)) rows'.
Proof.
  intros Hm Hc Hmc Hsmall Hnew. assert (forall r, row_room (if decide (table_of (mi_dim r) ∈ done_) then m else m + c) (mi_counts r) ->
    row_room (if decide (table_of (mi_dim r) ∈ table_of (mi_dim row) :: done_) then m else m + c) (mi_counts r)) as Hweak.
  { intros r. apply row_room_le. repeat case_decide; try lia. set_solver. }
  induction 1 as [|r rows Hr Hrows (rows' & E & IH)]; simpl.
  - exists [row]. split; [done|]. apply Forall_singleton. rewrite decide_True by constructor. unfold small, row_room in *. lia.
  - destruct (same_row r row) eqn:Es.
    + rewrite decide_False in Hr by (by rewrite (same_table r row)).
      assert (Rollup.in_bigint (add_counts (mi_counts r) (mi_counts row)) = true) as ->.
      { unfold Rollup.in_bigint. rewrite !andb_true_iff, !Z.leb_le. unfold row_room, small in *. simpl. lia. }
      eexists. split; [done|]. constructor; [|eapply Forall_impl; [exact Hrows|exact Hweak]]. simpl.
      rewrite decide_True by (rewrite (same_table r row Es); constructor). unfold row_room, small in *. simpl. lia.
    + rewrite E. eexists. split; [done|]. constructor; [by apply Hweak|done].
Qed.

(** ** Events *)

Section accepts.
Context {tz : Timestamptz} {ip : Inet} (scan : forall A : Type, list A -> list A).
Context (sort : (NameEvidence -> NameEvidence -> bool) -> list NameEvidence -> list NameEvidence).
Context (geoIP : option (ip_addr -> NetworkInfo)).
Context (Hscan : forall A (l : list A), scan A l ≡ₚ l).
Context {Hsort : SortSlice sort}.
Context (Hinet : forall a, no_zone a = true -> is_Some (inet a)).
Context (Hgeo : forall a, forallb sql_text [CountryCode (networkInfo geoIP a); CountryName (networkInfo geoIP a);
  Organization (networkInfo geoIP a); Classification (networkInfo geoIP a)] = true).

(** The tables are sound and every row takes [m] more. *)
Definition Ready (m : Z) (s : store) : Prop := Sound s /\ Roomy m s /\ m <= max_i64.
(** The same while an event is inserted. *)
Definition Filling (done_ : list nat) (m c : Z) (s : store) : Prop := Sound s /\ Room done_ m c s /\ m + c <= max_i64.

Lemma Ready_Filling m c s : Ready (m + c) s -> Filling [] m c s.
Proof. intros (H1 & H2 & H3). split; [done|]. split; [by apply Roomy_Room|done]. Qed.

Lemma Filling_Ready done_ m c s : 0 <= c -> Filling done_ m c s -> Ready m s.
Proof. intros Hc (H1 & H2 & H3). split; [done|]. split; [by eapply Room_Roomy|lia]. Qed.

Lemma Filling_frame done_ m c s s' : (Sound s -> Sound s') -> st_minutes s' = st_minutes s -> Filling done_ m c s -> Filling done_ m c s'.
Proof. intros HS E (H1 & H2 & H3). split; [by apply HS|]. unfold Room in *. by rewrite E. Qed.

Lemma inet_ok_no_zone a : no_zone a = true -> inet_ok a = true.
Proof. intros H. unfold inet_ok. by destruct (Hinet a H) as [? ->]. Qed.

Lemma upsert_runs what fits row done_ m c : fits = true -> 0 <= m -> 0 <= c -> small c (mi_counts row) -> table_of (mi_dim row) ∉ done_ ->
  runs (Filling done_ m c) (minute_upsert what fits row) 1 (fun _ => Filling (table_of (mi_dim row) :: done_) m c).
Proof.
  intros -> Hm Hc Hs Ht. apply runs_statement. intros s (H1 & H2 & H3).
  destruct (upsert_room done_ m c row (st_minutes s) Hm Hc H3 Hs Ht H2) as (rows & E & Hrows).
  exists tt, (set_minutes rows s). rewrite E. split; [done|]. split; [by apply Sound_minutes|done].
Qed.

(** The last upsert of an event. *)
Lemma last_upsert_runs what fits row done_ m c : fits = true -> 0 <= m -> 0 <= c -> small c (mi_counts row) -> table_of (mi_dim row) ∉ done_ ->
  runs (Filling done_ m c) (minute_upsert what fits row) 1 (fun _ => Ready m).
Proof. intros. eapply runs_mono; [done| |by apply upsert_runs]. intros ? s. by apply Filling_Ready. Qed.

Lemma interface_runs node e m : sql_text node = true -> forallb sql_text [ev_ID e; ev_Interface e] = true -> direction_valid (ev_Direction e) = true ->
  0 <= ev_Bytes e -> 0 <= ev_Packets e -> 0 <= m ->
  runs (Ready (m + (ev_Bytes e + ev_Packets e))) (insertInterfaceDelta node e) 2 (fun _ => Ready m).
Proof.
  intros Hn Ht Hd Hb Hp Hm. cbn [forallb] in Ht. rewrite !andb_true_iff in Ht. destruct Ht as (Hid & Hif & _).
  eapply (runs_bind _ _ (fun _ => Filling [] m (ev_Bytes e + ev_Packets e)) _ 1 1).
  - apply runs_statement. intros s HR%Ready_Filling.
    assert (sql_text (ev_Direction e) = true) as Hdt.
    { apply direction_valid_ok in Hd. revert Hd. rewrite !elem_of_cons, elem_of_nil. by intros [->|[->|[->|[->|[]]]]]. }
    cbn [forallb]. rewrite Hid, Hn, Hif, Hdt, Hd, (proj2 (Z.leb_le _ _) Hb), (proj2 (Z.leb_le _ _) Hp). cbn [andb].
    destruct (insert_new _ _ _) as [inserted rows]. eexists _, _. split; [done|].
    eapply Filling_frame, HR; [by apply Sound_frame|done].
  - intros []; cbn [negb].
    + apply last_upsert_runs; [done|done|lia| |by apply not_elem_of_nil]. unfold small. simpl. lia.
    + apply (runs_le _ _ 0); [lia|]. apply runs_ret. intros s. apply Filling_Ready. lia.
Qed.

(** Statements on the other tables. *)
Lemma other_runs what fits f m : fits = true -> (forall s, Sound s -> Sound (f s)) -> (forall s, st_minutes (f s) = st_minutes s) ->
  runs (Ready m) (execute what fits f) 1 (fun _ => Ready m).
Proof.
  intros Hfits HS Hm. apply runs_execute; [done|]. intros s (H1 & H2 & H3). split; [by apply HS|]. split; [|done].
  unfold Roomy. by rewrite Hm.
Qed.

Lemma health_runs node e h m : sql_text node = true -> sql_text (ev_ID e) = true -> health_ok h = true -> health_storable h = true ->
  runs (Ready m) (insertHealth node e h) 2 (fun _ => Ready m).
Proof.
  intros Hn Hid Hok Hs. unfold health_storable in Hs. cbn [forallb] in Hs. rewrite !andb_true_iff in Hs.
  destruct Hs as [[(H1 & H2 & H3 & H4 & _) H5] H6].
  unfold health_ok in Hok. rewrite negb_true_iff, !orb_false_iff in Hok. destruct Hok as [[[[[_ _] _] Hdrop] _] _]. apply Z.ltb_ge in Hdrop.
  eapply (runs_bind _ _ (fun _ => Ready m) _ 1 1).
  - apply other_runs; [|intros s; by apply Sound_frame|done]. cbn [forallb]. rewrite Hn, Hid, H1, H2, H3, H4, H5, H6. cbn [andb].
    by rewrite (proj2 (Z.leb_le _ _) Hdrop).
  - intros []. destruct (_ && _); [apply other_runs; [done|intros s; apply Sound_stop|done]|].
    apply (runs_le _ _ 0); [lia|]. by apply runs_ret.
Qed.

(** The identity of an owner is storable. *)
Lemma ownerIdentity_fits o : owner_ok o -> owner_storable o = true -> owner_fits (ownerIdentity o).1 (ownerIdentity o).2 o = true.
Proof.
  intros Hok Hs. unfold owner_storable in Hs. cbn [forallb] in Hs. rewrite !andb_true_iff in Hs. destruct Hs as [(H1 & H2 & H3 & H4 & _) Hpid].
  apply Z.ltb_lt in Hpid.
  assert (sql_text (ownerIdentity o).1 = true /\ sql_text (ownerIdentity o).2 = true) as [Hid Hname].
  { unfold ownerIdentity. destruct (bool_decide (own_Kind o = OwnerContainer)); [|destruct (bool_decide (own_Kind o = OwnerProcess))]; cbn [fst snd].
    - split; [by apply sql_text_app|]. by destruct (bool_decide _).
    - assert (sql_text (if bool_decide (own_Process o = "") then "process" else own_Process o) = true) as Hp by (by destruct (bool_decide _)).
      split; [|done]. apply sql_text_app; [done|]. apply sql_text_app; [apply format_int_text|]. by apply sql_text_app.
    - done. }
  unfold owner_fits. cbn [forallb]. rewrite Hid, Hname, H1, H3. cbn [andb].
  assert (bool_decide (own_Kind o ∈ [OwnerHost; OwnerProcess; OwnerContainer]) = true) as ->.
  { apply bool_decide_eq_true. destruct Hok as [->|[[-> _]|[-> _]]]; set_solver. }
  unfold nullablePID. destruct (Z.leb_spec (own_PID o) 0); [done|]. unfold in_int4. cbn [andb]. lia.
Qed.

Lemma inventory_runs node e i m : sql_text node = true -> inventory_ok i -> inventory_storable i = true ->
  runs (Ready m) (insertOwnerInventory node e i) 1 (fun _ => Ready m).
Proof.
  intros Hn (Ho & _) Hs. apply andb_true_iff in Hs as [Hos Has]. pose proof (ownerIdentity_fits _ Ho Hos) as Hfits.
  unfold insertOwnerInventory. destruct (ownerIdentity (inv_Owner i)) as [ownerID ownerName]. cbn [fst snd] in Hfits.
  apply owner_fits_text in Hfits as Ht. apply other_runs; [by rewrite Hn, Hfits, Has| |done]. intros s Hsound. destruct Ht as [Ht1 Ht2].
  by destruct (st_owners s !! (node, ownerID)); apply Sound_owner.
Qed.

Lemma evidence_runs node e n m : sql_text node = true -> sql_text (ev_ID e) = true -> evidence_storable n = true ->
  runs (Ready m) (insertNameEvidence node e n) 1 (fun _ => Ready m).
Proof.
  intros Hn Hid Hs. unfold evidence_storable in Hs. cbn [forallb] in Hs. rewrite !andb_true_iff in Hs. destruct Hs as [[[(H1 & H2 & _) H3] H4] H5].
  assert (forallb sql_text [ev_ID e; node; ne_Name n; ne_Source n] && inet_ok (ne_IP n) && bool_decide (ne_Source n ∈ ["dns"; "tls_sni"]) &&
     (timestamptz (ne_ValidFrom n) <? timestamptz (ne_ValidUntil n)) = true) as Hfits.
  { cbn [forallb]. by rewrite Hn, Hid, H1, H2, H4, H5, inet_ok_no_zone. }
  apply other_runs; [done| |done]. intros s HS.
  assert (yields (DB := store) (fun s' => s' = s) (insertNameEvidence node e n) (fun _ => Sound)) as Hy.
  { apply (yields_mono Sound _ _ (fun _ => Sound)); [by intros s' ->|done|apply evidence_sound]. }
  unfold insertNameEvidence in Hy. rewrite Hfits in Hy. by apply (Hy (MkTx s 1) tt (MkTx _ 0) eq_refl).
Qed.

(** What a decision shows is text. *)
Lemma DecideAt_text c evidence at_ : texts_of evidence -> sql_text (ep_IP (cd_Remote c)) = true -> sql_text (ep_Domain (cd_Remote c)) = true ->
  let d := DecideAt sort c evidence at_ in
  sql_text (DisplayName d) = true /\ sql_text (EvidenceSource d) = true /\ confidence_valid (dec_Confidence d) = true.
Proof.
  intros He Hip Hdom. unfold DecideAt. destruct (_ && _); [done|].
  pose proof (sort_head sort c evidence at_) as Hh. destruct (sort _ _) as [|x l]; [done|]. destruct Hh as (Hx & _).
  unfold texts_of in He. rewrite Forall_forall in He. destruct (He x Hx) as [? ?].
  split; [done|]. split; [done|]. simpl. by destruct (String.eqb _ _).
Qed.

Lemma ClassifyDirection_valid c : direction_valid (ClassifyDirection c defaultLocalPrefixes) = true.
Proof. unfold ClassifyDirection. repeat (case_match; try done). Qed.

Lemma saturatingBytes_range a b : 0 <= a -> 0 <= b -> 0 <= saturatingBytes a b.
Proof. intros. unfold saturatingBytes. destruct (_ <? _); [by vm_compute|lia]. Qed.

Lemma connection_runs node e c m : sql_text node = true -> sql_text (ev_ID e) = true -> connection_ok c -> connection_storable c = true -> 0 <= m ->
  runs (Ready (m + (saturatingBytes (cd_BytesSent c) (cd_BytesReceived c) + 1))) (insertConnection scan sort geoIP node e c) 6 (fun _ => Ready m).
Proof.
  intros Hn Hid (_ & (_ & Hlp & _) & (_ & Hrp & _) & Hown & Hsent & Hrecv) Hs Hm.
  unfold connection_storable in Hs. cbn [forallb] in Hs. rewrite !andb_true_iff, !Z.leb_le in Hs.
  destruct Hs as [[[[[[[(T1 & T2 & T3 & T4 & T5 & _) Z1] Z2] Hos] P1] P2] P3] P4].
  pose proof (ownerIdentity_fits _ Hown Hos) as Hfits. pose proof (saturatingBytes_range _ _ Hsent Hrecv) as Hsat.
  unfold insertConnection. destruct (ownerIdentity (cd_Owner c)) as [ownerID ownerName]. cbn [fst snd] in Hfits.
  apply owner_fits_text in Hfits as Ht. destruct Ht as [Ht1 Ht2].
  set (cost := saturatingBytes (cd_BytesSent c) (cd_BytesReceived c) + 1).
  eapply (runs_bind _ _ (fun _ s => owned node ownerID s /\ Filling [] m cost s) _ 1 5).
  { apply runs_execute; [by rewrite Hn, Hfits|]. intros s HR%Ready_Filling.
    assert (owned node ownerID (set_owners (<[(node, ownerID) := match st_owners s !! (node, ownerID) with
         | None => MkOwner (own_Kind (cd_Owner c)) ownerName (nullablePID (cd_Owner c)) (nullableString (own_ContainerID (cd_Owner c))) None [] [] true
                     (timestamptz (ev_ObservedAt e)) (timestamptz (ev_ObservedAt e))
         | Some o => MkOwner (ow_kind o) ownerName (ow_pid o) (ow_container_id o) (ow_cgroup_id o) (ow_addresses o) (ow_ports o)
                       (ow_running o) (ow_first_seen_at o) (Z.max (ow_last_seen_at o) (timestamptz (ev_ObservedAt e)))
         end]> (st_owners s)) s)) as Ho.
    { destruct HR as [HS _]. by destruct (st_owners s !! (node, ownerID)); apply Sound_owner. }
    split; [exact Ho|]. eapply Filling_frame, HR; [intros _; apply Ho|done]. }
  intros [].
  eapply (runs_bind _ _ (fun evidence s => texts_of evidence /\ owned node ownerID s /\ Filling [] m cost s) _ 1 4).
  { apply runs_query; [by rewrite Hn, inet_ok_no_zone|]. intros s HP.
    assert (yields (DB := store) (fun s' => s' = s) (validEvidence scan node (ep_IP (cd_Remote c)) (ev_ObservedAt e)) (fun l s' => texts_of l /\ s' = s)) as Hy.
    { apply validEvidence_sound; [done|]. intros s' ->. apply HP. }
    unfold validEvidence in Hy. rewrite Hn, inet_ok_no_zone in Hy by done. by destruct (Hy (MkTx s 1) _ (MkTx s 0) eq_refl eq_refl) as [Ht _]. }
  intros evidence. apply runs_pure. intros He.
  destruct (DecideAt_text c evidence (ev_ObservedAt e) He T4 T5) as (D1 & D2 & D3).
  set (d := DecideAt sort c evidence (ev_ObservedAt e)) in *. set (direction := ClassifyDirection c defaultLocalPrefixes).
  assert (connection_fits node direction ownerID ownerName e c d (networkInfo geoIP (ep_IP (cd_Remote c))) = true) as Hcf.
  { pose proof (Hgeo (ep_IP (cd_Remote c))) as HG. cbn [forallb] in HG. rewrite !andb_true_iff in HG. destruct HG as (G1 & G2 & G3 & G4 & _).
    unfold owner_fits in Hfits. cbn [forallb] in Hfits. rewrite !andb_true_iff in Hfits. destruct Hfits as [[(_ & Hk & _) Hkind] _].
    unfold connection_fits. cbn [forallb]. rewrite Hid, Hn, T1, Ht1, Hk, Ht2, D1, D2, T2, G1, G2, G3, G4, !inet_ok_no_zone by done.
    unfold direction. rewrite ClassifyDirection_valid, Hkind, D3. cbn [andb]. rewrite !andb_true_iff, !Z.leb_le. lia. }
  eapply (runs_bind _ _ (fun _ => Filling [] m cost) _ 1 3).
  { apply runs_statement. intros s [Ho HF]. rewrite Hcf.
    set (row := MkConnection _ _ _ _ _ _ _ _ _ _ _ _ _ _ _).
    destruct (insert_new_cases (ev_ID e, timestamptz (ev_ObservedAt e)) row (st_connections s)) as [E|[Hk E]]; rewrite E;
      eexists _, _; (split; [reflexivity|]); (apply (Filling_frame _ _ _ s); [|done|exact HF]); intros [H1 H2 H3]; split; try done.
    cbn [st_connections st_owners set_connections]. intros k c' [[_ <-]|[_ Hc]]%lookup_insert_Some; [|by apply (H2 k)].
    split; [done|apply Ho]. }
  assert (forall d, small cost (mi_counts (MkMinute node (minute (timestamptz (ev_ObservedAt e))) d (MkCounts (saturatingBytes (cd_BytesSent c) (cd_BytesReceived c)) 0 1 0))))
    as Hsmall by (intros; unfold small, cost; simpl; lia).
  intros []; cbn [negb]; [|apply (runs_le _ _ 0); [lia|]; apply runs_ret; intros s; apply Filling_Ready; unfold cost; lia].
  eapply (runs_bind _ _ _ _ 1 2); [apply upsert_runs; [done|done|unfold cost; lia|done|by apply not_elem_of_nil]|]. intros [].
  eapply (runs_bind _ _ _ _ 1 1); [apply upsert_runs; [done|done|unfold cost; lia|done|set_solver]|]. intros [].
  apply last_upsert_runs; [by rewrite T3, T4|done|unfold cost; lia|done|set_solver].
Qed.

(** ** Upstream owners *)

Lemma first_by_elem {A} (before : A -> A -> bool) l x : first_by before l = Some x -> x ∈ l.
Proof.
  revert x. induction l as [|y l IH]; intros x; simpl; [done|]. destruct (first_by before l) as [z|]; [|intros [= <-]; by constructor].
  destruct (before z y); intros [= <-]; constructor. by apply IH.
Qed.

(** An owner with a row, under a text. *)
Definition known (node ownerID : string) (s : store) : Prop := sql_text ownerID = true /\ is_Some (st_owners s !! (node, ownerID)).

Lemma newest_owner_known matches node s id : Sound s -> newest_owner scan matches node s = Some id -> known node id s.
Proof.
  intros HS. unfold newest_owner. destruct (first_by _ _) as [[[node' id'] o]|] eqn:E; [|done]. intros [= <-]. cbn.
  apply first_by_elem in E. rewrite Hscan in E. apply list_elem_of_filter in E as [Hr Hin%elem_of_map_to_list].
  unfold running_container in Hr. cbn in Hr. rewrite !andb_true_iff, bool_decide_eq_true in Hr. destruct Hr as [[[-> _] _] _].
  split; [apply (so_owners s HS _ _ Hin)|eauto].
Qed.

Lemma compose_owner_known node upstream s id : Sound s -> compose_owner node upstream s = Some id -> known node id s.
Proof.
  intros HS. unfold compose_owner. destruct (filter _ _) as [|[[node' id'] o] [|]] eqn:E; [done| |done]. intros [= <-]. cbn.
  assert ((node', id', o) ∈ [(node', id', o)]) as Hin by by constructor. rewrite <- E in Hin.
  apply list_elem_of_filter in Hin as [Hr Hin%elem_of_map_to_list].
  unfold running_container in Hr. cbn in Hr. rewrite !andb_true_iff, bool_decide_eq_true in Hr. destruct Hr as [[[-> _] _] _].
  split; [apply (so_owners s HS _ _ Hin)|eauto].
Qed.

Lemma near_known node addr at_ interval kv s : Sound s -> near node addr at_ interval kv = true -> kv ∈ map_to_list (st_connections s) ->
  known node (cr_owner_id kv.2) s.
Proof.
  intros HS Hnear Hin. destruct kv as [k c]. apply elem_of_map_to_list in Hin. unfold near in Hnear. cbn in Hnear |- *.
  rewrite !andb_true_iff, bool_decide_eq_true in Hnear. destruct Hnear as [[[[<- _] _] _] _].
  destruct (so_connections s HS k c Hin). by split.
Qed.

Lemma only_process_known node addr at_ s id port : Sound s -> only_process node addr at_ s = Some (id, port) -> known node id s.
Proof.
  intros HS. unfold only_process. destruct (remove_dups _) as [|x [|]] eqn:E; [done| |done]. intros [= ->].
  assert ((id, port) ∈ [(id, port)]) as Hin by by constructor. rewrite <- E in Hin. apply elem_of_remove_dups, list_elem_of_fmap in Hin as (kv & [= -> ->] & Hin).
  apply list_elem_of_filter in Hin as [[Hnear _]%andb_true_iff Hin]. by eapply near_known.
Qed.

Lemma nearest_process_known node addr port at_ s id : Sound s -> nearest_process scan node addr port at_ s = Some id -> known node id s.
Proof.
  intros HS. unfold nearest_process. destruct (first_by _ _) as [kv|] eqn:E; [|done]. intros [= <-].
  apply first_by_elem in E. rewrite Hscan in E. apply list_elem_of_filter in E as [[Hnear _]%andb_true_iff Hin]. by eapply near_known.
Qed.

Definition resolved (node : string) (r : string * Z) (s : store) : Prop := r.1 = "" \/ known node r.1 s.

Lemma resolve_runs (P : store -> Prop) node upstream at_ : (forall s, P s -> Sound s) -> sql_text node = true ->
  sql_text (of_chars (TrimSpace (chars upstream))) = true -> upstream_storable (of_chars (TrimSpace (chars upstream))) = true ->
  runs P (resolveUpstreamOwner scan node upstream at_) 4 (fun r s => resolved node r s /\ P s).
Proof.
  intros HP Hn Hu Hs. unfold resolveUpstreamOwner. set (u := of_chars (TrimSpace (chars upstream))) in *.
  assert (forall r k, r.1 = "" -> runs P (sql_ret r) k (fun r s => resolved node r s /\ P s)) as Hnone.
  { intros r k Hr. apply (runs_le _ _ 0); [lia|]. apply runs_ret. intros s Hs'. split; [by left|done]. }
  assert (forall id port k, runs (fun s => known node id s /\ P s) (sql_ret (id, port)) k (fun r s => resolved node r s /\ P s)) as Hsome.
  { intros id port k. apply (runs_le _ _ 0); [lia|]. apply runs_ret. intros s [Hk Hs']. split; [by right|done]. }
  destruct (bool_decide (u = "")); [by apply Hnone|].
  eapply (runs_bind _ _ (fun o s => match o with Some id => known node id s /\ P s | None => P s end) _ 1 3).
  { apply runs_query; [by rewrite Hn, Hu|]. intros s HPs. destruct (newest_owner _ _ _ _) as [id|] eqn:E; [|done].
    split; [|done]. eapply newest_owner_known, E. by apply HP. }
  intros [id|]; [apply Hsome|].
  eapply (runs_bind _ _ (fun o s => match o with Some id => known node id s /\ P s | None => P s end) _ 1 2).
  { apply runs_query; [by rewrite Hn, Hu|]. intros s HPs. destruct (compose_owner _ _ _) as [id|] eqn:E; [|done].
    split; [|done]. eapply compose_owner_known, E. by apply HP. }
  intros [id|]; [apply Hsome|]. unfold upstream_storable in Hs.
  destruct (SplitHostPort (chars u)) as [[host portText]|].
  - destruct (Atoi portText) as [port|]; [|by apply Hnone]. destruct ((port <? 1) || (65535 <? port)) eqn:Hport; [by apply Hnone|].
    cbn [orb] in Hs. apply andb_true_iff in Hs as [Hhost Hz].
    eapply (runs_bind _ _ (fun o s => match o with Some id => known node id s /\ P s | None => P s end) _ 1 1).
    { apply runs_query; [by rewrite Hn, Hhost|]. intros s HPs. destruct (newest_owner _ _ _ _) as [id|] eqn:E; [|done].
      split; [|done]. eapply newest_owner_known, E. by apply HP. }
    intros [id|]; [apply Hsome|].
    eapply (runs_bind _ _ (fun o s => match o with Some id => known node id s /\ P s | None => P s end) _ 1 0).
    { apply runs_query; [by rewrite Hn, inet_ok_no_zone|]. intros s HPs. destruct (nearest_process _ _ _ _ _ _) as [id|] eqn:E; [|done].
      split; [|done]. eapply nearest_process_known, E. by apply HP. }
    intros [id|]; [apply Hsome|by apply Hnone].
  - destruct (ParseAddr u); [|by apply Hnone].
    eapply (runs_bind _ _ (fun o s => match o with Some (id, port) => known node id s /\ P s | None => P s end) _ 1 1).
    { apply runs_query; [by rewrite Hn, inet_ok_no_zone|]. intros s HPs. destruct (only_process _ _ _ _) as [[id port]|] eqn:E; [|done].
      split; [|done]. eapply only_process_known, E. by apply HP. }
    intros [[id port]|]; [apply Hsome|by apply Hnone].
Qed.

Lemma request_runs node e r m : sql_text node = true -> sql_text (ev_ID e) = true -> proxy_ok r -> request_storable r = true -> 0 <= m ->
  runs (Ready (m + (pr_BytesSent r + 1))) (insertProxyRequest scan node e r) 9 (fun _ => Ready m).
Proof.
  intros Hn Hid (_ & _ & Hup & _ & Hstatus & Hbytes & Hdur) Hs Hm.
  unfold request_storable in Hs. cbn [forallb] in Hs. rewrite !andb_true_iff in Hs. destruct Hs as [[(T1 & T2 & T3 & T4 & T5 & T6 & _) Z1] Hups].
  set (cost := pr_BytesSent r + 1). unfold insertProxyRequest.
  eapply (runs_bind _ _ (fun res s => resolved node res s /\ Filling [] m cost s) _ 4 5).
  { apply (runs_mono (Filling [] m cost) _ _ _ (fun res s => resolved node res s /\ Filling [] m cost s)); [apply Ready_Filling|done|]. apply resolve_runs; [by intros s [? _]|done..]. }
  intros [upstreamOwner observedPort].
  eapply (runs_bind _ _ (fun _ s => resolved node (upstreamOwner, observedPort) s /\ Filling [] m cost s) _ 1 4).
  { apply runs_statement. intros s [Hres HF].
    assert (request_fits node upstreamOwner e r = true) as ->.
    { unfold request_fits. cbn [forallb]. rewrite Hid, Hn, T1, T3, T4, inet_ok_no_zone by done.
      assert (sql_text upstreamOwner = true) as -> by (by destruct Hres as [Hr|[Hr _]]; simpl in Hr; [rewrite Hr|]).
      cbn [andb]. rewrite !andb_true_iff, !Z.leb_le. lia. }
    destruct (insert_new _ _ _) as [inserted rows]. eexists _, _. split; [reflexivity|]. split; [exact Hres|].
    eapply Filling_frame, HF; [by apply Sound_frame|done]. }
  intros []; cbn [negb]; [|apply (runs_le _ _ 0); [lia|]; apply runs_ret; intros s [_ HF]; eapply Filling_Ready, HF; unfold cost; lia].
  assert (forall d, small cost (mi_counts (MkMinute node (minute (timestamptz (ev_ObservedAt e))) d (MkCounts (pr_BytesSent r) 0 0 1))))
    as Hsmall by (intros; unfold small, cost; simpl; lia).
  assert (forall done_ row what, small cost (mi_counts row) -> table_of (mi_dim row) ∉ done_ ->
    runs (fun s => resolved node (upstreamOwner, observedPort) s /\ Filling done_ m cost s) (minute_upsert what true row) 1
      (fun _ s => resolved node (upstreamOwner, observedPort) s /\ Filling (table_of (mi_dim row) :: done_) m cost s)) as Hupsert.
  { intros done_ row what Hsm Hnew. apply runs_statement. intros s [Hres (H1 & H2 & H3)].
    destruct (upsert_room done_ m cost row (st_minutes s) Hm ltac:(unfold cost; lia) H3 Hsm Hnew H2) as (rows & -> & Hrows).
    exists tt, (set_minutes rows s). split; [done|]. split; [exact Hres|]. split; [by apply Sound_minutes|done]. }
  eapply (runs_bind _ _ _ _ 1 3); [apply Hupsert; [done|by apply not_elem_of_nil]|]. intros [].
  eapply (runs_bind _ _ _ _ 1 2); [apply Hupsert; [done|set_solver]|]. intros [].
  destruct (proxyDestination (pr_Upstream r)) as [destination remotePort]. cbn [fst] in T6. cbv zeta.
  set (port := if remotePort =? 0 then observedPort else remotePort).
  eapply (runs_bind _ _ (fun o s => (sql_text o.1.1 = true /\ sql_text o.1.2 = true) /\ Filling [4%nat; 2%nat] m cost s) _ 1 1).
  { destruct (bool_decide (upstreamOwner = "")) eqn:Eo; cbn [negb].
    - apply (runs_le _ _ 0); [lia|]. destruct (bool_decide (pr_Upstream r = "")); cbn [negb]; apply runs_ret; intros s [_ HF]; split; try exact HF; [done|].
      cbn. split; [by apply sql_text_app|done].
    - apply bool_decide_eq_false in Eo.
      eapply (runs_bind _ _ (fun o s => match o with Some o => (sql_text upstreamOwner = true /\ sql_text (ow_display_name o) = true) /\ Filling [4%nat; 2%nat] m cost s | None => False end) _ 1 0).
      { apply runs_query; [done|]. intros s [Hres HF]. destruct Hres as [Hr|[Ht [o Ho]]]; [done|]. cbn [fst] in Ho, Ht. rewrite Ho.
        split; [|done]. split; [done|]. apply (so_owners s (proj1 HF) _ _ Ho). }
      intros [o|]; [|by intros t []]. by apply runs_ret. }
  intros [[ownerID ownerName] port']. apply runs_pure. cbn [fst snd]. intros [To1 To2].
  apply last_upsert_runs; [|done|unfold cost; lia|done|set_solver]. cbn [forallb]. rewrite To1, To2, T2. by destruct (bool_decide _); rewrite ?T6.
Qed.

(** ** Batches *)

Lemma Ready_le m m' s : m <= m' -> Ready m' s -> Ready m s.
Proof.
  intros Hm (H1 & H2 & H3). split; [done|]. split; [|lia]. eapply Forall_impl; [exact H2|]. intros r. by apply row_room_le.
Qed.

Lemma event_cost_nonneg e : event_ok e -> 0 <= event_cost e.
Proof.
  intros [_ _ Hb Hp (p & (_ & Ec & Er & _) & Hk)]. unfold event_cost. rewrite Ec, Er.
  destruct Hk; try lia.
  - pose proof (saturatingBytes_range (cd_BytesSent c) (cd_BytesReceived c)). destruct H0 as (_ & _ & _ & _ & ? & ?). lia.
  - destruct H0 as (_ & _ & _ & _ & _ & ? & _). lia.
Qed.

Lemma event_runs node e m : sql_text node = true -> event_ok e -> event_storable e = true -> 0 <= m ->
  runs (Ready (m + event_cost e)) (insertEvent scan sort geoIP node e) 9 (fun _ => Ready m).
Proof.
  intros Hn He Hs Hm. pose proof (event_cost_nonneg e He) as Hcost. destruct He as [_ _ Hb Hp (p & Hc & Hk)].
  unfold event_storable in Hs. rewrite !andb_true_iff in Hs. destruct Hs as [[[[[Ht S1] S2] S3] S4] S5].
  destruct Hc as (Eh & Ec & Er & Ee & Ei). rewrite Eh in S1. rewrite Ec in S2. rewrite Er in S3. rewrite Ee in S4. rewrite Ei in S5.
  assert (sql_text (ev_ID e) = true) as Hid by (cbn [forallb] in Ht; apply andb_true_iff in Ht; tauto).
  unfold insertEvent, with_payload.
  assert (forall P (mm : Sql store unit) k, (k <= 9)%nat -> runs P mm k (fun _ => Ready m) -> (forall s, Ready (m + event_cost e) s -> P s) ->
    runs (Ready (m + event_cost e)) mm 9 (fun _ => Ready m)) as Hrun.
  { intros P mm k Hk' Hr HP. apply (runs_le _ _ k); [done|]. by apply (runs_mono P _ _ _ (fun _ => Ready m)). }
  unfold event_cost in *. rewrite Ec, Er in *.
  destruct Hk as [Ek Hi Hd|h Ek Hok|c Ek Hok|r Ek Hok|n Ek Hok|i Ek Hok]; rewrite Ek; cbn [holds] in *; rewrite ?Eh, ?Ec, ?Er, ?Ee, ?Ei.
  - apply (Hrun (Ready (m + (ev_Bytes e + ev_Packets e))) _ 2%nat); [lia| |intros s; apply Ready_le; lia].
    apply interface_runs; [done|done|by apply direction_valid_ok|done..].
  - apply (Hrun (Ready m) _ 2%nat); [lia|by apply health_runs|intros s; apply Ready_le; lia].
  - apply (Hrun (Ready (m + (saturatingBytes (cd_BytesSent c) (cd_BytesReceived c) + 1))) _ 6%nat); [lia|by apply connection_runs|intros s; apply Ready_le; lia].
  - apply (Hrun (Ready (m + (pr_BytesSent r + 1))) _ 9%nat); [lia|by apply request_runs|intros s; apply Ready_le; lia].
  - apply (Hrun (Ready m) _ 1%nat); [lia|by apply evidence_runs|intros s; apply Ready_le; lia].
  - apply (Hrun (Ready m) _ 1%nat); [lia|by apply inventory_runs|intros s; apply Ready_le; lia].
Qed.

Lemma kinds_cost (cost : Event -> Z) ks es : NoDup ks -> (forall e, e ∈ es -> 0 <= cost e) ->
  sumZ (fun k => sumZ cost (of_kind k es)) ks <= sumZ cost es.
Proof.
  intros Hks Hc. enough (sumZ (fun k => sumZ cost (of_kind k es)) ks = sumZ cost (filter (fun e => ev_Kind e ∈ ks) es)) as ->.
  { apply sumZ_sublist; [done|apply sublist_filter]. }
  clear Hc. induction es as [|e es IH]; [by apply sumZ_zero|].
  rewrite filter_cons. destruct (decide (ev_Kind e ∈ ks)) as [Hin|Hin]; simpl; rewrite <- IH.
  - assert (sumZ (fun k => sumZ cost (of_kind k (e :: es))) ks - sumZ (fun k => sumZ cost (of_kind k es)) ks = cost e) as <-; [|lia].
    rewrite (sumZ_change _ _ ks (ev_Kind e) Hks Hin).
    + unfold of_kind. rewrite filter_cons, decide_True by done. simpl. lia.
    + intros k _ Hne. unfold of_kind. by rewrite filter_cons, decide_False.
  - apply sumZ_ext. intros k Hk. unfold of_kind. rewrite filter_cons, decide_False; [done|]. by intros <-.
Qed.

Lemma sum_list_sumZ {A} (f : A -> nat) l : Z.of_nat (sum_list_with f l) = sumZ (fun x => Z.of_nat (f x)) l.
Proof. induction l; simpl; lia. Qed.

Lemma kinds_count (k : nat) ks es : NoDup ks -> (sum_list_with (fun kind => sum_list_with (fun _ => k) (of_kind kind es)) ks <= k * length es)%nat.
Proof.
  intros Hks. apply Nat2Z.inj_le. rewrite sum_list_sumZ.
  assert (sumZ (fun kind => Z.of_nat (sum_list_with (fun _ => k) (of_kind kind es))) ks =
    sumZ (fun kind => sumZ (fun _ => Z.of_nat k) (of_kind kind es)) ks) as ->.
  { apply sumZ_ext. intros kind _. by rewrite sum_list_sumZ. }
  etransitivity; [apply kinds_cost; [done|intros; lia]|]. induction es; simpl; lia.
Qed.

Definition batch_cost (b : Batch) : Z := sumZ event_cost (b_Events b).

Lemma batch_runs b : batch_ok b -> storable b = true ->
  runs (Ready (batch_cost b)) (batch_transaction scan sort geoIP b) (3 + 9 * length (b_Events b)) (fun _ _ => True).
Proof.
  intros Hok Hs. unfold storable in Hs. rewrite !andb_true_iff in Hs. destruct Hs as [[Hn Hb] Hes].
  pose proof (bok_events b Hok) as Hev. rewrite Forall_forall in Hev.
  apply (forallb_Forall_iff event_storable (fun e => event_storable e = true)) in Hes; [|done]. rewrite Forall_forall in Hes.
  assert (NoDup kind_order) as Hkinds by (apply (bool_decide_unpack _); by vm_compute).
  assert (forall e, e ∈ b_Events b -> 0 <= event_cost e) as Hcost by (intros; by apply event_cost_nonneg, Hev).
  unfold batch_transaction.
  eapply (runs_bind _ _ (fun _ => Ready (batch_cost b)) _ 1 (2 + 9 * length (b_Events b))); [by apply other_runs; [|intros s; apply Sound_frame|]|]. intros [].
  eapply (runs_bind _ _ (fun _ => Ready (batch_cost b)) _ 1 (1 + 9 * length (b_Events b))).
  { apply runs_statement. intros s HR. rewrite Hb. destruct (bool_decide _); eexists _, _; (split; [done|]); [done|].
    destruct HR as (H1 & H2 & H3). split; [by eapply Sound_frame, H1|done]. }
  intros []; cbn [negb]; [|apply (runs_le _ _ 0); [lia|]; by apply runs_ret].
  eapply (runs_bind _ _ (fun _ => Ready (batch_cost b)) _ 1 (9 * length (b_Events b))).
  { destruct (existsb _ _); [apply other_runs; [done|intros s; apply Sound_stop|done]|].
    apply (runs_le _ _ 0); [lia|]. by apply runs_ret. }
  intros []. rewrite <- (Nat.add_0_r (9 * length (b_Events b))).
  eapply (runs_bind _ _ (fun _ => Ready 0)); [|intros []; by apply runs_ret].
  eapply runs_le; [by apply (kinds_count 9 kind_order)|].
  apply (runs_mono (Ready (0 + sumZ (fun k => sumZ event_cost (of_kind k (b_Events b))) kind_order)) _ _ _ (fun _ => Ready 0));
    [intros s; apply Ready_le; rewrite Z.add_0_l; by apply kinds_cost|done|].
  assert (forall k e, e ∈ of_kind k (b_Events b) -> e ∈ b_Events b) as Hsub by (intros k e [_ ?]%list_elem_of_filter; done).
  apply (runs_cost Ready _ (fun k => sumZ event_cost (of_kind k (b_Events b)))); [| |lia].
  - intros k _. apply sumZ_nonneg. intros e He. by eapply Hcost, Hsub.
  - intros k m _ Hm. apply (runs_cost Ready _ event_cost (fun _ => 9%nat)); [intros e He; by eapply Hcost, Hsub| |done].
    intros e m' He Hm'. apply Hsub in He. apply event_runs; [done|by apply Hev|by apply Hes|done].
Qed.
End accepts.

Lemma empty_sound : Sound empty_store.
Proof. split; intros k x H; cbn in H; by rewrite lookup_empty in H. Qed.

(** C24. What the store takes: whatever arrived before, a valid batch with texts without
    zero bytes, addresses without zones, known sources, upstreams that are names or
    addresses but not names with ports (which the store refuses) and counters with room is
    stored, or reported as a duplicate, when its statements are executed and its commit
    succeeds; three statements and nine for each event are enough. *)
Theorem storable_batch_taken {tz : Timestamptz} {ip : Inet} (scan : forall A : Type, list A -> list A)
    (sort : (NameEvidence -> NameEvidence -> bool) -> list NameEvidence -> list NameEvidence)
    (geoIP : option (ip_addr -> NetworkInfo)) (l : list arrival) (b : Batch) (left : nat)
    (Hscan : forall A (l : list A), scan A l ≡ₚ l) (Hsort : SortSlice sort)
    (Hinet : forall a, no_zone a = true -> is_Some (inet a))
    (Hgeo : forall a, forallb sql_text [CountryCode (networkInfo geoIP a); CountryName (networkInfo geoIP a);
      Organization (networkInfo geoIP a); Classification (networkInfo geoIP a)] = true) :
  let s := arrive_all scan sort geoIP empty_store l in
  Validate b = Ok tt -> storable b = true ->
  batch_cost b <= max_i64 -> Forall (fun r => row_room (batch_cost b) (mi_counts r)) (st_minutes s) ->
  (3 + 9 * length (b_Events b) <= left)%nat ->
  exists inserted, (InsertBatch scan sort geoIP left Committed b s).2 = Ok inserted.
Proof.
  intros s Hv Hs Hcost Hroom Hleft. unfold InsertBatch. rewrite Hv.
  eapply transact_runs; [apply batch_runs; [done..| |done]|split; [|split; [exact Hroom|done]]|done].
  - by apply Validate_ok.
  - apply arrivals_sound; [done|]. apply empty_sound.
Qed.
