(* ===== verification/StoreDemo.v ===== *)
(** * The store on sample batches

    Witnesses of its theorems, and batches it does not take as the agent means them. *)

From stdpp Require Import base strings numbers gmap list.
From Stdlib Require Import Ascii.
From S2P Require Import Prelude GoBase GoText GoModel InterfaceCounter Attribution AppTheorems Sql Store StoreTheorems StoreOnce StoreAccepts.
From S2P Require Rollup Spool.

Open Scope string_scope.
Open Scope Z_scope.
Local Open Scope list_scope.

(** Microseconds, addresses kept as they are written, scans in the order of the keys, no
    GeoIP data. *)
#[local] Instance tz : Timestamptz := fun t => t / 1000 * 1000.
#[local] Instance ip : Inet := fun s => if no_zone s then Some s else None.
Definition scan (A : Type) (l : list A) : list A := l.
Definition arrives : store -> list arrival -> store := arrive_all scan NamingSample.sort None.

Definition at_ : time := 1700000030 * Second.
Definition node : string := "node-a".

Definition event (id kind : string) (p : payload) : Event :=
  MkEvent id at_ kind "" 0 0 ""
    match p with HealthP h => Some h | _ => None end match p with ConnectionP c => Some c | _ => None end
    match p with ProxyP r => Some r | _ => None end match p with EvidenceP n => Some n | _ => None end
    match p with InventoryP i => Some i | _ => None end.

Definition traffic (id : string) (t : time) (bytes : Z) : Event :=
  MkEvent id t EventInterfaceDelta DirectionInbound bytes 2 "enp0s6" None None None None None.

Definition batch (id : string) (es : list Event) : Batch := MkBatch 1 id node at_ es [].

Definition container : OwnerRef := MkOwnerRef OwnerContainer 0 "" "c1" "web".
Definition request (upstream : string) : Event :=
  event "request-1" EventProxyRequest (ProxyP (MkProxyRequest "app.example" "203.0.113.9" "GET" 200 512 upstream 12)).

(** One event of every kind. *)
Definition full : Batch :=
  batch "batch-1"
    [traffic "traffic-1" at_ 600;
     event "owner-1" EventOwnerInventory (InventoryP (MkOwnerInventory container 7 ["172.18.0.3"] [8080] true));
     event "name-1" EventNameEvidence (EvidenceP (MkNameEvidence "203.0.113.10" "site.example" "dns" (at_ - Second) (at_ + Minute)));
     event "connection-1" EventConnection (ConnectionP (MkConnectionDelta "tcp" (MkEndpoint "10.0.0.2" 42000 "" ConfidenceIPOnly)
       (MkEndpoint "203.0.113.10" 443 "" ConfidenceIPOnly) container 100 200 "established"));
     request "172.18.0.3:8080";
     event "health-1" EventHealth (HealthP (MkHealthEvent "dns" "healthy" "ok" 0 (f64_of_Z 0) ""))].

(** The connection is named by the evidence, the request goes to the container, and the
    minutes hold both. *)
Example full_stored :
  let s := arrives empty_store [MkArrival 99 Committed full] in
  (fun kv => (cr_direction kv.2, DisplayName (cr_decision kv.2))) <$> map_to_list (st_connections s) = [(DirectionOutbound, "site.example")] /\
  (fun kv => rr_upstream_owner_id kv.2) <$> map_to_list (st_requests s) = ["container:c1"] /\
  length (st_minutes s) = 7%nat /\
  total node (minute at_) (ByOwner "container:c1" DirectionOutbound) (st_minutes s) = Rollup.MkCounts 300 0 1 0.
Proof. vm_compute. done. Qed.

Definition other : Batch := batch "batch-2" [traffic "traffic-2" (at_ + Second) 50].

(** A connection lost within the transaction, a commit that is not reported, the retry,
    and another batch. *)
Definition retries : list arrival :=
  [MkArrival 4 Committed full; MkArrival 99 CommitUnreported full; MkArrival 99 Committed full; MkArrival 99 Committed other].

Lemma stored_once_witness :
  stored_bytes node "enp0s6" Inbound (arrives empty_store retries) = 650.
Proof.
  refine (eq_trans (proj1 (stored_once scan NamingSample.sort None retries node "enp0s6" Inbound _ _ _)) _).
  - assert (Forall (fun b => Forall (fun b' => batch_key b = batch_key b' -> b = b') (ar_batch <$> retries)) (ar_batch <$> retries)) as H
      by (apply (bool_decide_unpack _); vm_compute; exact I).
    intros b b' Hb Hb'. rewrite Forall_forall in H. specialize (H b Hb). rewrite Forall_forall in H. left. by apply H.
  - apply (bool_decide_unpack _). vm_compute. exact I.
  - assert (Forall (fun b => Forall (fun e => is_interface e = false -> event_bytes "enp0s6" Inbound e = 0) (b_Events b)) (ar_batch <$> retries)) as H
      by (apply (bool_decide_unpack _); vm_compute; exact I).
    intros b e Hb He. rewrite Forall_forall in H. specialize (H b Hb). rewrite Forall_forall in H. by apply H.
  - vm_compute. reflexivity.
Defined.

Lemma storable_batch_taken_witness :
  exists inserted, (InsertBatch scan NamingSample.sort None 57 Committed full (arrives empty_store [MkArrival 99 Committed other])).2 = Ok inserted.
Proof.
  pose proof (storable_batch_taken scan NamingSample.sort None [MkArrival 99 Committed other] full 57) as H. cbv zeta in H.
  apply H; clear H.
  - done.
  - apply NamingSample.sort_ok.
  - intros a Ha. unfold inet, ip. rewrite Ha. eauto.
  - intros a. reflexivity.
  - vm_compute. reflexivity.
  - vm_compute. reflexivity.
  - apply (bool_decide_unpack _). vm_compute. exact I.
  - apply (bool_decide_unpack _). vm_compute. exact I.
  - apply (bool_decide_unpack _). vm_compute. exact I.
Defined.

(** ** Batches that are refused *)

(** An upstream with a name and a port: validation lets it through, but the name is
    cast to [inet].  The batch is refused every time it arrives, whatever else it
    holds. *)
Definition named_port : Batch := batch "batch-3" [traffic "traffic-3" at_ 7; request "app:8080"].

Example named_port_refused :
  Validate named_port = Ok tt /\
  (InsertBatch scan NamingSample.sort None 99 Committed named_port empty_store).2 = Err "resolve proxy upstream process by address".
Proof. vm_compute. done. Qed.

(** ** Summaries *)

(** The summary of a batch that the spool makes when it has expired. *)
#[local] Instance range_order : Spool.RangeOrder := { range := fun V m => map_to_list m; range_perm := fun V m => reflexivity _ }.

Definition summary_of (b : Batch) : list Batch := snd <$> map_to_list (Spool.compact_batch b ∅).

Definition of_node (n : string) (b : Batch) : Batch := MkBatch 1 (b_BatchID b) n (b_SentAt b) (b_Events b) [].

(** A batch that was stored although the agent was not told so, and is summed up once
    it has expired, is counted twice: the store does not look at
    [CompactedBatchIDs]. *)
Example summary_counts_twice :
  let s := arrives empty_store (MkArrival 99 CommitUnreported other :: (MkArrival 99 Committed <$> summary_of other)) in
  stored_bytes node "enp0s6" Inbound s = 100.
Proof. vm_compute. done. Qed.

(** A second summary of a minute has the identifier of the first: what it holds is
    reported as a duplicate and lost. *)
Definition later : Batch := batch "batch-4" [traffic "traffic-4" (at_ + 2 * Second) 9].

Example second_summary_lost :
  let l := MkArrival 99 Committed <$> (summary_of other ++ summary_of later) in
  stored_bytes node "enp0s6" Inbound (arrives empty_store l) = 50 /\
  (fun b => (InsertBatch scan NamingSample.sort None 99 Committed b (arrives empty_store (take 1 l))).2) <$> summary_of later = [Ok false].
Proof. vm_compute. done. Qed.

(** Summaries of two nodes for one minute of interfaces of one name: their events have
    the same identifier and instant, which are the key of the details of all nodes, and
    the bytes of the second node are lost. *)
Example nodes_collide :
  let l := MkArrival 99 Committed <$> (summary_of other ++ summary_of (of_node "node-b" later)) in
  stored_bytes node "enp0s6" Inbound (arrives empty_store l) = 50 /\
  stored_bytes "node-b" "enp0s6" Inbound (arrives empty_store l) = 0.
Proof. vm_compute. done. Qed.
