(* ===== verification/Overview.v ===== *)
(** * The overview of a node

    [internal/server/overview]: the traffic of a node over one of four ranges, as a series
    of points and totals, read off the minute counters, with the connections of the range.
    The queries run one after the other over the tables; each may fail.

    What the overview shows of a range is what is stored of it: every point is the sum of
    the interface traffic observed in its step, the totals those of the whole range. *)

From stdpp Require Import base strings numbers gmap list sorting.
From Stdlib Require Import Ascii SpecFloat.
From S2P Require Import Prelude GoBase GoText GoModel InterfaceCounter Attribution Sql Store StoreTheorems StoreDemo.
From S2P Require Rollup.

Open Scope string_scope.
Open Scope Z_scope.
Local Open Scope flow_scope.
Local Open Scope list_scope.

(** ** Data *)

Record Point : Type := MkPoint {
  pt_At : time; pt_InboundBytes : Z; pt_OutboundBytes : Z; pt_InboundBPS : float64; pt_OutboundBPS : float64 }.

Record Overview : Type := MkOverview {
  ov_NodeID : string; ov_Range : string; ov_InboundBytes : Z; ov_OutboundBytes : Z; ov_ActiveConnections : Z;
  ov_DomainCoverage : option float64; ov_Series : list Point; ov_DataFreshAt : time }.

Record rangeSpec : Type := MkRangeSpec { rg_duration : duration; rg_step : duration }.

Definition ranges (name : string) : option rangeSpec :=
  if String.eqb name "1h" then Some (MkRangeSpec Hour Minute)
  else if String.eqb name "24h" then Some (MkRangeSpec (24 * Hour) (30 * Minute))
  else if String.eqb name "7d" then Some (MkRangeSpec (7 * 24 * Hour) (6 * Hour))
  else if String.eqb name "30d" then Some (MkRangeSpec (30 * 24 * Hour) (24 * Hour))
  else None.

Inductive overview_error : Type := ErrNodeNotFound | ErrInvalidRange | QueryError (what : string).

(** ** The series *)

Definition window_end (spec : rangeSpec) (now : time) : time := Truncate now (rg_step spec) + rg_step spec.
Definition window_start (spec : rangeSpec) (now : time) : time := window_end spec now - rg_duration spec.
Definition point_count (spec : rangeSpec) : nat := Z.to_nat (rg_duration spec / rg_step spec).

Definition f64_zero : float64 := S754_zero false.

Definition empty_series (spec : rangeSpec) (start : time) : list Point :=
  (fun i : nat => MkPoint (start + Z.of_nat i * rg_step spec) 0 0 f64_zero f64_zero) <$> seq 0 (point_count spec).

(** The index of the point that begins at an instant. *)
Definition point_indices (series : list Point) : gmap Z nat :=
  foldl (fun m ip => <[UnixNano (pt_At ip.2) := ip.1]> m) ∅ (imap pair series).

(** [bucket, direction, bytes] *)
Abbreviation traffic_row := (time * string * Z)%type.

Definition add_inbound (bytes : Z) (p : Point) : Point :=
  MkPoint (pt_At p) (wrap_s 64 (pt_InboundBytes p + bytes)) (pt_OutboundBytes p) (pt_InboundBPS p) (pt_OutboundBPS p).
Definition add_outbound (bytes : Z) (p : Point) : Point :=
  MkPoint (pt_At p) (pt_InboundBytes p) (wrap_s 64 (pt_OutboundBytes p + bytes)) (pt_InboundBPS p) (pt_OutboundBPS p).

(** The totals of both directions and the series. *)
Abbreviation sums := (Z * Z * list Point)%type.

Definition add_row (step : duration) (indices : gmap Z nat) (s : sums) (row : traffic_row) : sums :=
  let '(inbound, outbound, series) := s in
  let '(bucket, direction, bytes) := row in
  match indices !! UnixNano (Truncate bucket step) with
  | None => s
  | Some i =>
      if String.eqb direction DirectionInbound then (wrap_s 64 (inbound + bytes), outbound, alter (add_inbound bytes) i series)
      else if String.eqb direction DirectionOutbound then (inbound, wrap_s 64 (outbound + bytes), alter (add_outbound bytes) i series)
      else s
  end.

Definition with_rates (seconds : Z) (p : Point) : Point :=
  MkPoint (pt_At p) (pt_InboundBytes p) (pt_OutboundBytes p)
    (f64_div (f64_of_Z (pt_InboundBytes p)) (f64_of_Z seconds)) (f64_div (f64_of_Z (pt_OutboundBytes p)) (f64_of_Z seconds)).

(** ** The queries *)

Section summary.
Context {tz : Timestamptz} (scan : forall A : Type, list A -> list A).

Definition traffic_of (nodeID : string) (start end_ : time) (row : Rollup.minute_row) : option traffic_row :=
  match Rollup.mi_dim row with
  | Rollup.traffic_minute direction =>
      if String.eqb (Rollup.mi_node row) nodeID && (timestamptz start <=? Rollup.mi_bucket row) && (Rollup.mi_bucket row <? timestamptz end_)
      then Some (Rollup.mi_bucket row, direction, Rollup.bytes (Rollup.mi_counts row)) else None
  | _ => None
  end.

Definition earlier_bucket (a b : traffic_row) : Prop := a.1.1 <= b.1.1.

#[export] Instance earlier_bucket_dec a b : base.Decision (earlier_bucket a b).
Proof. unfold earlier_bucket. apply _. Defined.

(** [SELECT ... WHERE ... ORDER BY bucket] *)
Definition traffic_rows (nodeID : string) (start end_ : time) (s : store) : list traffic_row :=
  sorting.merge_sort earlier_bucket (omap (traffic_of nodeID start end_) (scan _ (st_minutes s))).

(** The connections of a node in the window: when observed, closed, named. *)
Definition connections_of (nodeID : string) (start end_ : time) (s : store) : list (time * bool * bool) :=
  omap (fun kv : string * time * connection_row =>
    if String.eqb (cr_node kv.2) nodeID && (timestamptz start <=? kv.1.2) && (kv.1.2 <? timestamptz end_)
    then Some (kv.1.2, String.eqb (cr_state kv.2) "closed", negb (String.eqb (dec_Confidence (cr_decision kv.2)) ConfidenceIPOnly)) else None)
    (map_to_list (st_connections s)).

Definition count {A} (p : A -> bool) (l : list A) : Z := Z.of_nat (length (filter (fun x => p x = true) l)).

(** [fails i]: does query [i] fail?  [now1] and [now2] are the readings of the clock. *)
Definition Summary (fails : nat -> bool) (now1 now2 : time) (nodeID requestedRange : string) (s : store) : result overview_error Overview :=
  match ranges requestedRange with
  | None => Err ErrInvalidRange
  | Some spec =>
      let* _ := guard_err (negb (fails 0%nat)) (QueryError "query node freshness") in
      match st_nodes s !! nodeID with
      | None => Err ErrNodeNotFound
      | Some seen =>
          let end_ := window_end spec now1 in
          let start := window_start spec now1 in
          let series := empty_series spec start in
          let indices := point_indices series in
          let* _ := guard_err (negb (fails 1%nat)) (QueryError "query overview series") in
          let '(inbound, outbound, series) :=
            foldl (add_row (rg_step spec) indices) (0, 0, series) (traffic_rows nodeID start end_ s) in
          let series := with_rates (rg_step spec / Second) <$> series in
          let* _ := guard_err (negb (fails 2%nat)) (QueryError "query overview detail metrics") in
          let detailed := connections_of nodeID start end_ s in
          let active := count (fun c => (timestamptz (now2 - 15 * Second) <=? c.1.1) && negb c.1.2) detailed in
          let named := count (fun c : time * bool * bool => c.2) detailed in
          let coverage :=
            if 0 <? Z.of_nat (length detailed)
            then Some (f64_div (f64_mul (f64_of_Z named) (f64_of_Z 100)) (f64_of_Z (Z.of_nat (length detailed)))) else None in
          Ok (MkOverview nodeID requestedRange inbound outbound active coverage series (default 0 seen))
      end
  end.

(** ** The handler *)

Record overview_response : Type := MkOverviewResponse { or_status : Z; or_code : string; or_body : option Overview }.

Definition handlerError (status : Z) (code_ : string) : overview_response := MkOverviewResponse status code_ None.

Definition ServeHTTP (fails : nat -> bool) (now1 now2 : time) (method nodeID range : string) (s : store) : overview_response :=
  if negb (String.eqb method "GET") then handlerError 405 "method_not_allowed"
  else if String.eqb nodeID "" then handlerError 400 "missing_node"
  else
    let requestedRange := if String.eqb range "" then "24h" else range in
    match Summary fails now1 now2 nodeID requestedRange s with
    | Err ErrInvalidRange => handlerError 400 "invalid_range"
    | Err ErrNodeNotFound => handlerError 404 "node_not_found"
    | Err (QueryError _) => handlerError 500 "query_error"
    | Ok result => MkOverviewResponse 200 "" (Some result)
    end.
End summary.

(** ** Arithmetic *)

Lemma wrap_s_add a b : wrap_s 64 (wrap_s 64 a + b) = wrap_s 64 (a + b).
Proof. unfold wrap_s. Z.to_euclidean_division_equations; lia. Qed.

(** Steps of a window that ends on one. *)
Record stepped (spec : rangeSpec) (start : time) : Prop := {
  sp_step : 0 < rg_step spec;
  sp_minutes : (Minute | rg_step spec);
  sp_count : rg_duration spec = Z.of_nat (point_count spec) * rg_step spec;
  sp_start : (rg_step spec | start - zero_time) }.

Lemma Truncate_step spec start t : stepped spec start -> Truncate t (rg_step spec) = start + (t - start) / rg_step spec * rg_step spec.
Proof.
  intros [Hs _ _ [k Hk]]. unfold Truncate.
  replace (t - zero_time) with (t - start + k * rg_step spec) by lia. rewrite Z.mod_add by lia.
  pose proof (Z.div_mod (t - start) (rg_step spec)). lia.
Qed.

(** The step an instant of the window falls into. *)
Lemma step_of spec start t i : stepped spec start ->
  Truncate t (rg_step spec) = start + i * rg_step spec <-> start + i * rg_step spec <= t < start + (i + 1) * rg_step spec.
Proof.
  intros Hsp. pose proof (sp_step _ _ Hsp). rewrite (Truncate_step spec start t Hsp). split.
  - intros E. assert ((t - start) / rg_step spec = i) as <- by nia.
    pose proof (Z.div_mod (t - start) (rg_step spec)). pose proof (Z.mod_pos_bound (t - start) (rg_step spec)). nia.
  - intros Ht. rewrite (Z.div_unique (t - start) (rg_step spec) i (t - start - i * rg_step spec)); nia.
Qed.

Lemma ranges_stepped name spec now : ranges name = Some spec -> stepped spec (window_start spec now).
Proof.
  intros E. assert (exists n : nat, rg_duration spec = Z.of_nat n * rg_step spec /\ n = point_count spec /\ 0 < rg_step spec /\ (Minute | rg_step spec)) as (n & Hd & Hn & Hs & Hm).
  { unfold ranges in E. repeat case_match; try done; injection E as <-; eexists; (split_and!; [|reflexivity|..]); try reflexivity;
      unfold Hour, Minute, Second; simpl; try lia; by apply Z.mod_divide; [lia|reflexivity]. }
  split; [done|done|by rewrite <- Hn|]. unfold window_start, window_end, Truncate. rewrite Hd.
  exists ((now - zero_time) / rg_step spec + 1 - Z.of_nat n).
  pose proof (Z.div_mod (now - zero_time) (rg_step spec)). nia.
Qed.

Lemma minute_window a b t : (Minute | a) -> (Minute | b) -> (a <= minute t < b <-> a <= t < b).
Proof.
  intros [x ->] [y ->]. unfold minute, Minute, Second. Z.to_euclidean_division_equations; lia.
Qed.

(** ** The loop *)

Section loop.
Context (spec : rangeSpec) (start : time) (Hsp : stepped spec start).
Context (Hclock : 0 <= start) (Hmax : start + rg_duration spec <= max_i64).

Abbreviation step := (rg_step spec).
Abbreviation point_time i := (start + Z.of_nat i * step).
Abbreviation indices := (point_indices (empty_series spec start)).

Lemma point_time_nanos i : (i < point_count spec)%nat -> UnixNano (point_time i) = point_time i.
Proof.
  intros Hi. pose proof (sp_step _ _ Hsp). pose proof (sp_count _ _ Hsp). apply wrap_s_id; [lia|].
  unfold in_s, max_i64 in *. nia.
Qed.

Lemma point_indices_snoc series p : point_indices (series ++ [p]) = <[UnixNano (pt_At p) := length series]> (point_indices series).
Proof. unfold point_indices. rewrite imap_app, foldl_app. simpl. by rewrite Nat.add_0_r. Qed.

Lemma indices_spec n k i : (n <= point_count spec)%nat ->
  point_indices ((fun i : nat => MkPoint (point_time i) 0 0 f64_zero f64_zero) <$> seq 0 n) !! k = Some i <-> (i < n)%nat /\ k = point_time i.
Proof.
  pose proof (sp_step _ _ Hsp). induction n as [|n IH]; intros Hn; [cbn; rewrite lookup_empty; split; [done|lia]|].
  rewrite seq_S, fmap_app, list_fmap_singleton, point_indices_snoc, lookup_insert_Some, length_fmap, length_seq. simpl pt_At.
  rewrite point_time_nanos by lia. rewrite IH by lia. split.
  - intros [[<- <-]|[Hne [Hi ->]]]; [split; [lia|done]|split; [lia|done]].
  - intros [Hi ->]. destruct (decide (i = n)) as [-> |Hne]; [by left|right]. split; [nia|]. split; [lia|done].
Qed.

Lemma index_of_time t : start <= t < start + rg_duration spec ->
  exists i, (i < point_count spec)%nat /\ indices !! UnixNano (Truncate t step) = Some i /\ point_time i <= t < point_time i + step.
Proof.
  intros Ht. pose proof (sp_step _ _ Hsp) as Hs. pose proof (sp_count _ _ Hsp) as Hc.
  pose proof (Z.div_mod (t - start) step) as Hd. pose proof (Z.mod_pos_bound (t - start) step) as Hm.
  exists (Z.to_nat ((t - start) / step)). assert (0 <= (t - start) / step) by (apply Z.div_pos; lia).
  assert (Z.to_nat ((t - start) / step) < point_count spec)%nat as Hi by nia. split; [done|]. split.
  - rewrite (Truncate_step spec start t Hsp). unfold empty_series. rewrite <- (Z2Nat.id ((t - start) / step)) at 1 by done.
    rewrite point_time_nanos by done. by apply indices_spec.
  - rewrite Z2Nat.id by done. nia.
Qed.

(** What a row adds to a direction within an interval. *)
Definition adds (direction : string) (a b : time) (row : traffic_row) : Z :=
  if String.eqb row.1.2 direction && (a <=? row.1.1) && (row.1.1 <? b) then row.2 else 0.

Definition series_of (rows : list traffic_row) : list Point :=
  (fun i : nat => MkPoint (point_time i) (wrap_s 64 (sumZ (adds DirectionInbound (point_time i) (point_time i + step)) rows))
     (wrap_s 64 (sumZ (adds DirectionOutbound (point_time i) (point_time i + step)) rows)) f64_zero f64_zero) <$> seq 0 (point_count spec).

Definition total_of (direction : string) (rows : list traffic_row) : Z :=
  wrap_s 64 (sumZ (adds direction start (start + rg_duration spec)) rows).

Lemma alter_series f rows rows' i : 
  (forall j, (j < point_count spec)%nat -> (series_of rows' !! j) = (if decide (i = j) then f <$> series_of rows !! j else series_of rows !! j)) ->
  alter f i (series_of rows) = series_of rows'.
Proof.
  intros Hj. apply list_eq. intros j. destruct (decide (j < point_count spec)%nat) as [Hlt|Hge].
  - rewrite Hj by done. destruct (decide (i = j)) as [-> |Hne]; [apply list_lookup_alter_eq|by apply list_lookup_alter_ne].
  - rewrite !lookup_ge_None_2; [done|..]; rewrite ?length_alter; unfold series_of; rewrite length_fmap, length_seq; lia.
Qed.

Lemma series_at rows j : (j < point_count spec)%nat -> series_of rows !! j =
  Some (MkPoint (point_time j) (wrap_s 64 (sumZ (adds DirectionInbound (point_time j) (point_time j + step)) rows))
     (wrap_s 64 (sumZ (adds DirectionOutbound (point_time j) (point_time j + step)) rows)) f64_zero f64_zero).
Proof. intros Hj. unfold series_of. rewrite list_lookup_fmap, lookup_seq_lt by done. done. Qed.

Lemma sumZ_snoc {A} (f : A -> Z) l x : sumZ f (l ++ [x]) = sumZ f l + f x.
Proof. rewrite sumZ_app. simpl. lia. Qed.

Lemma adds_other direction other a b t bytes : direction <> other -> adds direction a b (t, other, bytes) = 0.
Proof. intros Hne. unfold adds. simpl. by rewrite (proj2 (String.eqb_neq _ _)). Qed.

Lemma adds_at direction a b t bytes : a <= t < b -> adds direction a b (t, direction, bytes) = bytes.
Proof. intros Ht. unfold adds. simpl. rewrite String.eqb_refl, (proj2 (Z.leb_le _ _)), (proj2 (Z.ltb_lt _ _)) by lia. done. Qed.

Lemma adds_away direction a b t d bytes : ~ (a <= t < b) -> adds direction a b (t, d, bytes) = 0.
Proof.
  intros Ht. unfold adds. simpl. destruct (String.eqb _ _); [|done]. destruct (Z.leb_spec a t), (Z.ltb_spec t b); try done. lia.
Qed.

Lemma add_row_sums rows row : start <= row.1.1 < start + rg_duration spec ->
  add_row step indices (total_of DirectionInbound rows, total_of DirectionOutbound rows, series_of rows) row =
  (total_of DirectionInbound (rows ++ [row]), total_of DirectionOutbound (rows ++ [row]), series_of (rows ++ [row])).
Proof.
  destruct row as [[t d] bytes]. simpl. intros Ht. destruct (index_of_time t Ht) as (i & Hi & -> & Hti).
  pose proof (sp_step _ _ Hsp) as Hs.
  assert (forall j, i <> j -> ~ (point_time j <= t < point_time j + step)) as Haway by (intros j Hne; nia).
  assert (forall direction, d <> direction -> total_of direction (rows ++ [(t, d, bytes)]) = total_of direction rows) as Hsame.
  { intros direction Hne. unfold total_of. by rewrite sumZ_snoc, adds_other, Z.add_0_r by congruence. }
  assert (total_of d (rows ++ [(t, d, bytes)]) = wrap_s 64 (total_of d rows + bytes)) as Hadd.
  { unfold total_of. by rewrite sumZ_snoc, adds_at, wrap_s_add by done. }
  destruct (String.eqb_spec d DirectionInbound) as [-> |Hin]; [|destruct (String.eqb_spec d DirectionOutbound) as [-> |Hout]].
  - rewrite Hadd, (Hsame DirectionOutbound) by done. f_equal. apply alter_series. intros j Hj. rewrite !series_at, !sumZ_snoc by done.
    rewrite (adds_other DirectionOutbound) by done. rewrite Z.add_0_r. destruct (decide (i = j)) as [<-|Hne].
    + rewrite adds_at by done. simpl. unfold add_inbound. simpl. by rewrite wrap_s_add.
    + by rewrite adds_away, Z.add_0_r by auto.
  - rewrite Hadd, (Hsame DirectionInbound) by done. f_equal. apply alter_series. intros j Hj. rewrite !series_at, !sumZ_snoc by done.
    rewrite (adds_other DirectionInbound) by done. rewrite Z.add_0_r. destruct (decide (i = j)) as [<-|Hne].
    + rewrite adds_at by done. simpl. unfold add_outbound. simpl. by rewrite wrap_s_add.
    + by rewrite adds_away, Z.add_0_r by auto.
  - rewrite !Hsame by done. f_equal. apply list_eq. intros j. destruct (decide (j < point_count spec)%nat) as [Hj|Hj].
    + rewrite !series_at, !sumZ_snoc, !adds_other, !Z.add_0_r by done. done.
    + rewrite !lookup_ge_None_2; [done|..]; unfold series_of; rewrite length_fmap, length_seq; lia.
Qed.

Lemma loop_sums rows : Forall (fun row : traffic_row => start <= row.1.1 < start + rg_duration spec) rows ->
  foldl (add_row step indices) (0, 0, empty_series spec start) rows = (total_of DirectionInbound rows, total_of DirectionOutbound rows, series_of rows).
Proof.
  intros Hrows. induction rows as [|row rows IH] using rev_ind; [reflexivity|]. apply Forall_app in Hrows as [Hrows Hrow].
  rewrite foldl_app, IH by done. apply add_row_sums. exact (proj1 (Forall_singleton _ _) Hrow).
Qed.
End loop.

(** ** From counters to details *)

Lemma bytes_total node bucket v rows : Rollup.bytes (total node bucket v rows) = sumZ (fun r => Rollup.bytes (selected node bucket v r)) rows.
Proof. induction rows as [|r rows IH]; [done|]. rewrite total_cons. simpl. by rewrite IH. Qed.

(** What a view sums up over an interval of buckets. *)
Definition over (node : string) (v : view) (a b : time) (r : Rollup.minute_row) : Z :=
  if (a <=? Rollup.mi_bucket r) && (Rollup.mi_bucket r <? b) then Rollup.bytes (selected node (Rollup.mi_bucket r) v r) else 0.

Lemma over_totals node v a b buckets rows : NoDup buckets -> (forall r, r ∈ rows -> Rollup.mi_bucket r ∈ buckets) ->
  sumZ (over node v a b) rows =
  sumZ (fun bucket => if (a <=? bucket) && (bucket <? b) then Rollup.bytes (total node bucket v rows) else 0) buckets.
Proof.
  intros Hn. induction rows as [|r rows IH]; intros Hin.
  { symmetry. apply sumZ_zero. intros x _. by destruct (_ && _). }
  simpl. rewrite IH by (intros; apply Hin; by constructor).
  assert (over node v a b r = sumZ (fun bucket => if (a <=? bucket) && (bucket <? b) then Rollup.bytes (selected node bucket v r) else 0) buckets) as ->.
  { symmetry. rewrite (sumZ_single _ _ (Rollup.mi_bucket r)); [done|done|apply Hin; by constructor|].
    intros y _ Hne. destruct (_ && _); [|done]. unfold selected. rewrite (proj2 (Z.eqb_neq _ _)) by done. by rewrite andb_false_r. }
  clear. induction buckets as [|x buckets IH]; [done|]. simpl. destruct (_ && _); lia.
Qed.

Lemma over_agree node v a b rows rows' : (forall bucket, total node bucket v rows = total node bucket v rows') ->
  sumZ (over node v a b) rows = sumZ (over node v a b) rows'.
Proof.
  intros Ht. set (buckets := remove_dups ((Rollup.mi_bucket <$> rows) ++ (Rollup.mi_bucket <$> rows'))).
  rewrite (over_totals node v a b buckets rows), (over_totals node v a b buckets rows'); try apply NoDup_remove_dups.
  - apply sumZ_ext. intros x _. by rewrite Ht.
  - intros r Hr. apply elem_of_remove_dups, elem_of_app. right. by apply list_elem_of_fmap_2.
  - intros r Hr. apply elem_of_remove_dups, elem_of_app. left. by apply list_elem_of_fmap_2.
Qed.

(** The interface traffic of a node and a direction observed in an interval. *)
Definition observed (s : store) (node direction : string) (a b : time) : Z :=
  sumZ (fun kv : string * time * interface_row =>
    if String.eqb (ir_node kv.2) node && String.eqb (ir_direction kv.2) direction && (a <=? kv.1.2) && (kv.1.2 <? b) then ir_bytes kv.2 else 0)
    (map_to_list (st_interfaces s)).

Lemma observed_details s node direction a b : (Minute | a) -> (Minute | b) ->
  sumZ (over node (ByDirection direction) a b) (details s) = observed s node direction a b.
Proof.
  intros Ha Hb. unfold details, observed. rewrite !sumZ_app, !sumZ_bind.
  rewrite (sumZ_zero _ (map_to_list (st_connections s))), (sumZ_zero _ (map_to_list (st_requests s))).
  - rewrite !Z.add_0_r. apply sumZ_ext. intros [[id t] r] _. unfold interface_minutes. cbn [fst snd sumZ foldr]. rewrite Z.add_0_r.
    unfold over, selected. cbn [Rollup.mi_bucket Rollup.mi_node Rollup.mi_dim Rollup.mi_counts in_view]. rewrite Z.eqb_refl, andb_true_r.
    pose proof (minute_window a b t Ha Hb) as Hw.
    destruct (String.eqb_spec (ir_node r) node) as [->|Hn]; [rewrite bool_decide_true by done|rewrite bool_decide_false by done; by destruct (_ && _)].
    destruct (String.eqb_spec (ir_direction r) direction) as [->|Hd]; [rewrite bool_decide_true by done|rewrite bool_decide_false by done; by destruct (_ && _)].
    cbn [andb]. destruct (Z.leb_spec a (minute t)), (Z.ltb_spec (minute t) b), (Z.leb_spec a t), (Z.ltb_spec t b); simpl; try done; lia.
  - intros kv _. unfold request_minutes, over, selected. cbn. by rewrite !andb_false_r; repeat destruct (_ && _).
  - intros kv _. unfold connection_minutes, over, selected. cbn. by rewrite !andb_false_r; repeat destruct (_ && _).
Qed.

Lemma sumZ_cons {A} (f : A -> Z) x l : sumZ f (x :: l) = f x + sumZ f l.
Proof. done. Qed.

Lemma sumZ_omap {A B} (f : B -> Z) (g : A -> option B) l : sumZ f (omap g l) = sumZ (fun x => match g x with Some y => f y | None => 0 end) l.
Proof.
  induction l as [|x l IH]; [done|]. change (omap g (x :: l)) with (match g x with Some y => y :: omap g l | None => omap g l end).
  rewrite sumZ_cons, <- IH. by destruct (g x).
Qed.

Section summary.
Context {tz : Timestamptz} {ip : Inet} (scan : forall A : Type, list A -> list A).
Context (sort : (NameEvidence -> NameEvidence -> bool) -> list NameEvidence -> list NameEvidence).
Context (geoIP : option (ip_addr -> NetworkInfo)).
(** A column keeps whole minutes as they are; a scan visits every row once. *)
Context (tz_minutes : forall t, (Minute | t) -> timestamptz t = t) (scan_perm : forall A (l : list A), scan A l ≡ₚ l).

Lemma traffic_rows_perm node start end_ s : traffic_rows scan node start end_ s ≡ₚ omap (traffic_of node start end_) (st_minutes s).
Proof. unfold traffic_rows. rewrite merge_sort_Permutation. apply omap_Permutation, scan_perm. Qed.

Lemma traffic_rows_within node start end_ s : (Minute | start) -> (Minute | end_) ->
  Forall (fun row : traffic_row => start <= row.1.1 < end_) (traffic_rows scan node start end_ s).
Proof.
  intros Hs He. rewrite traffic_rows_perm. apply Forall_forall. intros row (r & _ & Hr)%list_elem_of_omap.
  unfold traffic_of in Hr. rewrite !tz_minutes in Hr by done. case_match; try done.
  destruct (String.eqb _ _), (Z.leb_spec start (Rollup.mi_bucket r)), (Z.ltb_spec (Rollup.mi_bucket r) end_); try done. injection Hr as <-. done.
Qed.

Lemma traffic_rows_sum node direction start end_ a b s : (Minute | start) -> (Minute | end_) -> start <= a -> b <= end_ ->
  sumZ (adds direction a b) (traffic_rows scan node start end_ s) = sumZ (over node (ByDirection direction) a b) (st_minutes s).
Proof.
  intros Hs He Ha Hb. rewrite (sumZ_perm _ _ _ (traffic_rows_perm _ _ _ _)), sumZ_omap. apply sumZ_ext. intros [n bucket dim c] _.
  unfold traffic_of, over, selected. rewrite !tz_minutes by done. cbn [Rollup.mi_bucket Rollup.mi_node Rollup.mi_dim Rollup.mi_counts].
  rewrite Z.eqb_refl, andb_true_r.
  destruct dim; cbn [in_view]; rewrite ?andb_false_r; try (by destruct (_ && _)).
  destruct (String.eqb_spec n node) as [->|Hn]; [rewrite bool_decide_true by done|rewrite bool_decide_false by done; cbn [andb]; by destruct (_ && _)].
  destruct (decide (a <= bucket < b)) as [Hin|Hout].
  - rewrite (proj2 (Z.leb_le start bucket)), (proj2 (Z.ltb_lt bucket end_)), (proj2 (Z.leb_le a bucket)), (proj2 (Z.ltb_lt bucket b)) by lia.
    cbn [andb]. destruct (decide (direction0 = direction)) as [->|Hd].
    + rewrite adds_at by done. by rewrite bool_decide_true.
    + rewrite adds_other by done. by rewrite bool_decide_false.
  - assert ((a <=? bucket) && (bucket <? b) = false) as -> by (apply andb_false_iff; rewrite Z.leb_gt, Z.ltb_ge; lia).
    cbn [andb]. destruct (_ && _); [by apply adds_away|done].
Qed.

(** The rows of the detail table in a window, and those of them that are active. *)
Definition detailed (s : store) (node : string) (start end_ : time) : gmap (string * time) connection_row :=
  filter (fun kv => cr_node kv.2 = node /\ timestamptz start <= kv.1.2 < timestamptz end_) (st_connections s).
Definition active (since : time) (kv : string * time * connection_row) : Prop :=
  timestamptz since <= kv.1.2 /\ cr_state kv.2 <> "closed".
Definition named (kv : string * time * connection_row) : Prop := dec_Confidence (cr_decision kv.2) <> ConfidenceIPOnly.

#[local] Instance active_dec since kv : base.Decision (active since kv).
Proof. unfold active. apply _. Defined.
#[local] Instance named_dec kv : base.Decision (named kv).
Proof. unfold named. apply _. Defined.

Lemma map_to_list_filter {K} `{!EqDecision K, !Countable K} {A} (P : K * A -> Prop) `{!forall kv, base.Decision (P kv)} (m : gmap K A) :
  map_to_list (filter P m) ≡ₚ filter P (map_to_list m).
Proof.
  rewrite map_filter_alt. apply map_to_list_to_map. apply (sublist_NoDup _ ((map_to_list m).*1)); [apply NoDup_fst_map_to_list|].
  apply fmap_sublist, sublist_filter.
Qed.

Lemma connections_count (p : time * bool * bool -> bool) (Q : string * time * connection_row -> Prop) `{!forall kv, base.Decision (Q kv)} s node start end_ :
  (forall kv, p (kv.1.2, String.eqb (cr_state kv.2) "closed", negb (String.eqb (dec_Confidence (cr_decision kv.2)) ConfidenceIPOnly)) = true <-> Q kv) ->
  count p (connections_of node start end_ s) = Z.of_nat (size (filter Q (detailed s node start end_))).
Proof.
  intros Hp. unfold count, connections_of, detailed. f_equal.
  rewrite <- length_map_to_list, !map_to_list_filter, list_filter_filter.
  induction (map_to_list (st_connections s)) as [|kv l IH]; [done|]. cbn [omap list_omap]. rewrite (filter_cons (fun kv => Q kv /\ _)).
  destruct (String.eqb (cr_node kv.2) node && (timestamptz start <=? kv.1.2) && (kv.1.2 <? timestamptz end_)) eqn:E;
    rewrite ?andb_true_iff, ?andb_false_iff, ?String.eqb_eq, ?String.eqb_neq, ?Z.leb_le, ?Z.leb_gt, ?Z.ltb_lt, ?Z.ltb_ge in E.
  - destruct E as [[En Es] Ee]. rewrite filter_cons. destruct (decide (Q kv)) as [HQ|HQ].
    + rewrite !decide_True; [cbn [length]; by f_equal|by split_and!|by apply Hp].
    + rewrite !decide_False; [done|tauto|by rewrite Hp].
  - rewrite decide_False; [done|]. intros (_ & H1 & H2). destruct E as [[?|E]|E]; [done|exact (Zlt_not_le _ _ E (proj1 H2))|exact (Zle_not_lt _ _ E (proj2 H2))].
Qed.

Lemma connections_length s node start end_ :
  Z.of_nat (length (connections_of node start end_ s)) = Z.of_nat (size (detailed s node start end_)).
Proof.
  pose proof (connections_count (fun _ => true) (fun _ => True) s node start end_ (fun _ => conj (fun _ => I) (fun _ => eq_refl))) as H.
  unfold count in H. rewrite map_filter_id in H by done. rewrite <- H. f_equal. f_equal. clear H.
  induction (connections_of _ _ _ _) as [|c l IH]; [done|]. rewrite filter_cons, decide_True by done. cbn [length]. by f_equal.
Qed.

(** C29. What the overview shows is what is stored: whatever batches arrived and whichever
    of their statements and commits failed, an answer for a range holds one point per step
    of the window that ends with the step of the clock; the bytes of a point are those of
    the interface events observed in its step, the totals those of the whole window - as
    64-bit sums -, nothing is left out between two points.  The answer is given exactly for
    a known range and node when no query fails. *)
Theorem summary_exact (l : list arrival) (fails : nat -> bool) (now1 now2 : time) (node range : string) (spec : rangeSpec) :
  let s := arrive_all scan sort geoIP empty_store l in
  ranges range = Some spec -> let start := window_start spec now1 in let end_ := window_end spec now1 in
  0 <= start -> end_ <= max_i64 ->
  (is_ok (Summary scan fails now1 now2 node range s) = true <->
     is_Some (st_nodes s !! node) /\ forall i, (i < 3)%nat -> fails i = false) /\
  (start <= now1 < end_ /\ end_ - start = Z.of_nat (point_count spec) * rg_step spec) /\
  forall o, Summary scan fails now1 now2 node range s = Ok o ->
    ov_InboundBytes o = wrap_s 64 (observed s node DirectionInbound start end_) /\
    ov_OutboundBytes o = wrap_s 64 (observed s node DirectionOutbound start end_) /\
    (let rows := detailed s node start end_ in
     ov_ActiveConnections o = Z.of_nat (size (filter (active (now2 - 15 * Second)) rows)) /\
     ov_DomainCoverage o = if decide (rows = ∅) then None
       else Some (f64_div (f64_mul (f64_of_Z (Z.of_nat (size (filter named rows)))) (f64_of_Z 100)) (f64_of_Z (Z.of_nat (size rows))))) /\
    length (ov_Series o) = point_count spec /\
    forall i p, ov_Series o !! i = Some p ->
      pt_At p = start + Z.of_nat i * rg_step spec /\
      pt_InboundBytes p = wrap_s 64 (observed s node DirectionInbound (pt_At p) (pt_At p + rg_step spec)) /\
      pt_OutboundBytes p = wrap_s 64 (observed s node DirectionOutbound (pt_At p) (pt_At p + rg_step spec)).
Proof.
  intros s Hr start end_ Hs He. pose proof (ranges_stepped range spec now1 Hr) as Hsp.
  pose proof (sp_step _ _ Hsp) as Hstep. pose proof (sp_minutes _ _ Hsp) as Hmin. pose proof (sp_count _ _ Hsp) as Hc.
  assert (end_ = start + rg_duration spec) as Hend by (unfold start, window_start; fold end_; lia).
  assert (Minute | start) as Hms.
  { replace start with (start - zero_time + zero_time) by lia. apply Z.divide_add_r; [by etransitivity; [exact Hmin|apply Hsp]|].
    exists (zero_time / Minute). reflexivity. }
  assert (Minute | end_) as Hme by (rewrite Hend, Hc; apply Z.divide_add_r; [done|]; by apply Z.divide_mul_r).
  assert (forall direction a b, (Minute | a) -> (Minute | b) -> start <= a -> b <= end_ ->
    sumZ (adds direction a b) (traffic_rows scan node start end_ s) = observed s node direction a b) as Hsum.
  { intros direction a b Ha Hb Hsa Hbe. rewrite traffic_rows_sum, <- observed_details by done. apply over_agree. intros bucket.
    destruct (arrivals_agree scan sort geoIP l empty_store empty_agrees) as [Ht _]. fold s in Ht. by rewrite Ht, add_counts_0. }
  pose proof (loop_sums spec start Hsp Hs ltac:(lia) (traffic_rows scan node start end_ s)) as Hloop.
  rewrite <- Hend in Hloop. specialize (Hloop (traffic_rows_within node start end_ s Hms Hme)).
  unfold Summary. rewrite Hr. fold start end_. rewrite Hloop. split; [|split].
  - rewrite <- not_eq_None_Some. split.
    + destruct (fails 0%nat) eqn:F0; [done|]. cbn [negb guard_err result_bind]. destruct (st_nodes s !! node); [|done].
      destruct (fails 1%nat) eqn:F1; [done|]. destruct (fails 2%nat) eqn:F2; [done|]. intros _. split; [done|].
      intros [|[|[|i]]] Hi; try done. lia.
    + intros [Hn Hf]. rewrite !Hf by lia. by destruct (st_nodes s !! node).
  - split; [|lia]. unfold start, window_start, end_, window_end. pose proof (Z.mod_pos_bound (now1 - zero_time) (rg_step spec)).
    unfold Truncate. destruct (point_count spec) eqn:Ep; [|nia]. exfalso. clear -Hr Ep. unfold ranges in Hr. repeat case_match; try done; by injection Hr as <-.
  - intros o Ho. destruct (fails 0%nat); [done|]. destruct (st_nodes s !! node) as [seen|]; [|done].
    destruct (fails 1%nat); [done|]. destruct (fails 2%nat); [done|]. cbn [negb guard_err result_bind] in Ho. injection Ho as <-.
    cbn [ov_InboundBytes ov_OutboundBytes ov_Series]. unfold total_of. rewrite <- Hend, !Hsum by (done || lia).
    split; [done|]. split; [done|]. split; [|split; [by unfold series_of; rewrite !length_fmap, length_seq|]].
    { cbn [ov_ActiveConnections ov_DomainCoverage]. rewrite connections_length. split.
      - apply connections_count. intros kv. cbn. by rewrite andb_true_iff, Z.leb_le, negb_true_iff, String.eqb_neq.
      - rewrite (connections_count (fun c => c.2) named) by (intros kv; cbn; by rewrite negb_true_iff, String.eqb_neq).
        case_decide as Er; [by rewrite Er|]. apply map_size_non_empty_iff in Er. by rewrite (proj2 (Z.ltb_lt _ _)) by lia. }
    intros i p Hp. rewrite list_lookup_fmap in Hp. destruct (series_of spec start _ !! i) as [q|] eqn:Eq; [|done]. injection Hp as <-.
    assert (i < point_count spec)%nat as Hi.
    { apply lookup_lt_Some in Eq. unfold series_of in Eq. by rewrite length_fmap, length_seq in Eq. }
    rewrite (series_at spec start) in Eq by done. injection Eq as <-. cbn [with_rates pt_At pt_InboundBytes pt_OutboundBytes].
    assert (Minute | start + Z.of_nat i * rg_step spec) by (apply Z.divide_add_r; [done|]; by apply Z.divide_mul_r).
    rewrite !Hsum; try done; try nia; try (by apply Z.divide_add_r).
Qed.
End summary.

Module DemoOverview.
Existing Instance StoreDemo.tz.
Existing Instance StoreDemo.ip.

Definition s : store := arrive_all scan NamingSample.sort None empty_store retries.
Definition none (_ : nat) : bool := false.
Definition now : time := at_ + 5 * Second.
Definition hour : rangeSpec := MkRangeSpec Hour Minute.

(** 600 bytes of one batch, 50 of another: the last point of the hour, and the total. *)
Lemma summary_exact_witness : exists o, Summary scan none now now node "1h" s = Ok o /\
  ov_InboundBytes o = 650 /\ ov_ActiveConnections o = 1 /\ (pt_InboundBytes <$> ov_Series o !! 59%nat) = Some 650.
Proof.
  assert (forall t, (Minute | t) -> timestamptz t = t) as Htz.
  { intros t [k ->]. unfold timestamptz, tz, Minute, Second. Z.to_euclidean_division_equations; lia. }
  pose proof (summary_exact scan NamingSample.sort None Htz (fun _ _ => reflexivity _) retries none now now node "1h" hour eq_refl
    ltac:(vm_compute; discriminate) ltac:(vm_compute; discriminate)) as (Hok & _ & H).
  assert (arrive_all scan NamingSample.sort None empty_store retries = s) as Hs by (unfold s; reflexivity). rewrite Hs in Hok, H. destruct (Summary scan none now now node "1h" s) as [o|e].
  - destruct (H o eq_refl) as (Hi & _ & [Hact _] & Hlen & Hp). exists o. split; [reflexivity|]. split; [rewrite Hi; vm_compute; reflexivity|]. split; [rewrite Hact; vm_compute; reflexivity|].
    destruct (ov_Series o !! 59%nat) as [p|] eqn:Ep.
    + destruct (Hp 59%nat p Ep) as (Hat & Hb & _). cbn [fmap option_fmap option_map]. rewrite Hb, Hat. vm_compute. reflexivity.
    + apply lookup_ge_None in Ep. rewrite Hlen in Ep. vm_compute in Ep. lia.
  - exfalso. assert (is_ok (Err e : result overview_error Overview) = true) as Ht; [|discriminate Ht]. apply Hok.
    split; [apply (bool_decide_unpack _); vm_compute; exact I|reflexivity].
Defined.

(** What retention has deleted does not show, also where a day rollup keeps it: the
    overview reads the minute counters alone. *)
Example after_retention :
  (ov_InboundBytes <$> match Summary scan none now now node "30d" (set_minutes [] s) with Ok o => Some o | Err _ => None end) = Some 0 /\
  (ov_InboundBytes <$> match Summary scan none now now node "30d" s with Ok o => Some o | Err _ => None end) = Some 650.
Proof. vm_compute. done. Qed.

Example summary_answers :
  or_status (ServeHTTP scan none now now "GET" node "" s) = 200 /\ or_status (ServeHTTP scan none now now "GET" node "2h" s) = 400 /\
  or_status (ServeHTTP scan none now now "GET" "node-b" "7d" s) = 404 /\ or_status (ServeHTTP scan (fun i => Nat.eqb i 2) now now "GET" node "7d" s) = 500.
Proof. vm_compute. done. Qed.
End DemoOverview.
