(* ===== verification/Base64.v ===== *)
(** * Base64 without padding

    [base64.RawURLEncoding], [base64.RawStdEncoding] and their decoding, strict or not,
    with its round trip. *)

From stdpp Require Import base strings numbers list.
From Stdlib Require Import Ascii.
From S2P Require Import Prelude GoBase GoText.

Open Scope string_scope.
Open Scope Z_scope.
Local Open Scope list_scope.

Definition std_alphabet : list ascii := chars "ABCDEFGHIJKLMNOPQRSTUVWXYZabcdefghijklmnopqrstuvwxyz0123456789+/".
Definition url_alphabet : list ascii := chars "ABCDEFGHIJKLMNOPQRSTUVWXYZabcdefghijklmnopqrstuvwxyz0123456789-_".

#[local] Ltac arith := Z.to_euclidean_division_equations; lia.

Section encoding.
Variable alphabet : list ascii.

Definition sextet (z : Z) : ascii := nth (Z.to_nat z) alphabet "A"%char.

(** Three bytes are four digits; one or two bytes at the end are two or three. *)
Fixpoint encode (bs : list Z) : list ascii :=
  match bs with
  | [] => []
  | [a] => [sextet (a / 4); sextet (a mod 4 * 16)]
  | [a; b] => [sextet (a / 4); sextet (a mod 4 * 16 + b / 16); sextet (b mod 16 * 4)]
  | a :: b :: c :: rest =>
      sextet (a / 4) :: sextet (a mod 4 * 16 + b / 16) :: sextet (b mod 16 * 4 + c / 64) :: sextet (c mod 64) :: encode rest
  end.

Fixpoint index_of (c : ascii) (cs : list ascii) (i : Z) : option Z :=
  match cs with
  | [] => None
  | d :: cs => if Ascii.eqb c d then Some i else index_of c cs (i + 1)
  end.

Definition unsextet (c : ascii) : option Z := index_of c alphabet 0.

Variable strict : bool.

(** When strict, the bits of the last digit that make no byte have to be zero. *)
Fixpoint decode_digits (cs : list ascii) : option (list Z) :=
  match cs with
  | [] => Some []
  | [_] => None
  | [c0; c1] =>
      a ← unsextet c0; b ← unsextet c1;
      if negb strict || (b mod 16 =? 0) then Some [a * 4 + b / 16] else None
  | [c0; c1; c2] =>
      a ← unsextet c0; b ← unsextet c1; c ← unsextet c2;
      if negb strict || (c mod 4 =? 0) then Some [a * 4 + b / 16; b mod 16 * 16 + c / 4] else None
  | c0 :: c1 :: c2 :: c3 :: rest =>
      a ← unsextet c0; b ← unsextet c1; c ← unsextet c2; d ← unsextet c3;
      bytes ← decode_digits rest;
      Some (a * 4 + b / 16 :: b mod 16 * 16 + c / 4 :: c mod 4 * 64 + d :: bytes)
  end.

(** Line ends are skipped. *)
Definition decode (cs : list ascii) : option (list Z) :=
  decode_digits (filter (fun c => c <> newline /\ c <> carriage_return) cs).

Hypothesis unsextet_sextet : forall z, 0 <= z < 64 -> unsextet (sextet z) = Some z /\ sextet z <> newline /\ sextet z <> carriage_return.

Lemma encode_ind (P : list Z -> Prop) : P [] -> (forall a, P [a]) -> (forall a b, P [a; b]) ->
  (forall a b c l, P l -> P (a :: b :: c :: l)) -> forall l, P l.
Proof.
  intros H0 H1 H2 H3 l. revert l. fix IH 1. intros [|a [|b [|c l]]]; [done|done|done|]. apply H3, IH.
Qed.

Lemma encode_digits bs : Forall is_byte bs -> Forall (fun c => exists z, 0 <= z < 64 /\ c = sextet z) (encode bs).
Proof.
  induction bs as [|a|a b|a b c l IH] using encode_ind; intros Hb; unfold is_byte in Hb; rewrite ?Forall_cons in Hb; simpl;
    repeat (apply Forall_cons; split); try constructor; try (eexists; split; [|reflexivity]; arith).
  apply IH, Hb.
Qed.

Lemma decode_digits_encode bs : Forall is_byte bs -> decode_digits (encode bs) = Some bs.
Proof.
  assert (forall z, 0 <= z < 64 -> unsextet (sextet z) = Some z) as Hu by (intros z Hz; by apply unsextet_sextet).
  induction bs as [|a|a b|a b c l IH] using encode_ind; intros Hb; unfold is_byte in Hb; simpl; rewrite ?Forall_cons in Hb.
  - done.
  - rewrite !Hu by arith. simpl. rewrite (proj2 (Z.eqb_eq _ 0)), orb_true_r by arith. do 2 f_equal. arith.
  - rewrite !Hu by arith. simpl. rewrite (proj2 (Z.eqb_eq _ 0)), orb_true_r by arith. do 2 f_equal; [arith|]. f_equal. arith.
  - rewrite !Hu by arith. simpl. rewrite IH by apply Hb. simpl. do 2 f_equal; [arith|]. f_equal; [arith|]. f_equal. arith.
Qed.

Lemma decode_encode bs : Forall is_byte bs -> decode (encode bs) = Some bs.
Proof.
  intros Hb. unfold decode. rewrite filter_all; [by apply decode_digits_encode|]. intros c Hc.
  pose proof (encode_digits bs Hb) as Hd. rewrite Forall_forall in Hd. destruct (Hd c Hc) as (z & Hz & ->). by apply unsextet_sextet.
Qed.
End encoding.

Lemma std_unsextet z : 0 <= z < 64 ->
  unsextet std_alphabet (sextet std_alphabet z) = Some z /\ sextet std_alphabet z <> newline /\ sextet std_alphabet z <> carriage_return.
Proof.
  intros Hz. assert (Forall (fun z => unsextet std_alphabet (sextet std_alphabet z) = Some z /\ sextet std_alphabet z <> newline /\
    sextet std_alphabet z <> carriage_return) (seqZ 0 64)) as H by (vm_compute; repeat constructor; discriminate).
  rewrite Forall_forall in H. apply H, elem_of_seqZ. lia.
Qed.

Lemma std_decode_encode strict bs : Forall is_byte bs -> decode std_alphabet strict (encode std_alphabet bs) = Some bs.
Proof. apply decode_encode, std_unsextet. Qed.

Lemma url_unsextet z : 0 <= z < 64 ->
  unsextet url_alphabet (sextet url_alphabet z) = Some z /\ sextet url_alphabet z <> newline /\ sextet url_alphabet z <> carriage_return.
Proof.
  intros Hz. assert (Forall (fun z => unsextet url_alphabet (sextet url_alphabet z) = Some z /\ sextet url_alphabet z <> newline /\
    sextet url_alphabet z <> carriage_return) (seqZ 0 64)) as H by (vm_compute; repeat constructor; discriminate).
  rewrite Forall_forall in H. apply H, elem_of_seqZ. lia.
Qed.

Lemma url_decode_encode strict bs : Forall is_byte bs -> decode url_alphabet strict (encode url_alphabet bs) = Some bs.
Proof. apply decode_encode, url_unsextet. Qed.

Example base64_sample : of_chars (encode url_alphabet (code <$> chars "flow lens?>")) = "ZmxvdyBsZW5zPz4".
Proof. reflexivity. Qed.
