(* ===== verification/PasswordHash.v ===== *)
(** * Password hashes

    [internal/server/auth/password.go]: the text of an Argon2id hash, its parsing and the
    check of a password.  Argon2id itself is a parameter. *)

From stdpp Require Import base strings numbers list.
From Stdlib Require Import Ascii.
From S2P Require Import Prelude GoBase GoText Base64.

Open Scope string_scope.
Open Scope Z_scope.
Local Open Scope list_scope.

Record Params : Type := MkParams {
  pa_Memory : Z; pa_Iterations : Z; pa_Parallelism : Z; pa_SaltLength : Z; pa_KeyLength : Z }.

#[export] Instance params_eq_dec : EqDecision Params.
Proof. solve_decision. Defined.

Definition DefaultParams : Params := MkParams 65536 3 2 16 32.

Definition validateParams (p : Params) : bool :=
  negb ((pa_Memory p <? 8192) || (1048576 <? pa_Memory p) || (pa_Iterations p <? 1) || (10 <? pa_Iterations p) ||
        (pa_Parallelism p <? 1) || (32 <? pa_Parallelism p) || (pa_SaltLength p <? 8) || (64 <? pa_SaltLength p) ||
        (pa_KeyLength p <? 16) || (64 <? pa_KeyLength p)).

(** [argon2.IDKey(password, salt, time, memory, threads, keyLen)] *)
Class Argon2 : Type := IDKey : string -> list Z -> Z -> Z -> Z -> Z -> list Z.

(** Its key has the length asked for. *)
Class Argon2Laws (A : Argon2) : Prop :=
  IDKey_key password salt t m p n : 0 <= n -> length (IDKey password salt t m p n) = Z.to_nat n /\ Forall is_byte (IDKey password salt t m p n).

Definition argon2_version : Z := 19.

(** ** [fmt.Sscanf] *)

(** [SkipSpace]: white space other than line ends. *)
Fixpoint skip_space (skip : nat) (cs : list ascii) : option (list ascii) :=
  match skip, cs with
  | S skip, _ :: rest => skip_space skip rest
  | _, [] => Some []
  | O, c :: rest =>
      match space_width cs with
      | O => Some cs
      | S w => if bool_decide (c = newline) then None else skip_space w rest
      end
  end.

Fixpoint take_digits (cs : list ascii) : list ascii * list ascii :=
  match cs with
  | c :: rest => if is_digit c then let '(ds, r) := take_digits rest in (c :: ds, r) else ([], cs)
  | [] => ([], [])
  end.

(** [%d] of an unsigned integer of this width *)
Definition scan_uint (width : Z) (cs : list ascii) : option (Z * list ascii) :=
  cs ← skip_space 0 cs;
  let '(ds, rest) := take_digits cs in
  z ← ParseUint ds;
  if z <? 2 ^ width then Some (z, rest) else None.

(** [%d] of an [int] *)
Definition scan_int (cs : list ascii) : option (Z * list ascii) :=
  cs ← skip_space 0 cs;
  let '(sign, cs) :=
    match cs with
    | c :: rest => if bool_decide (c = "-"%char) || bool_decide (c = "+"%char) then ([c], rest) else ([], cs)
    | [] => ([], [])
    end in
  let '(ds, rest) := take_digits cs in
  match ds with
  | [] => None
  | _ => z ← Atoi (sign ++ ds); Some (z, rest)
  end.

(** The text of a format before the next verb. *)
Fixpoint literal (l cs : list ascii) : option (list ascii) :=
  match l, cs with
  | [], _ => Some cs
  | a :: l, c :: cs => if Ascii.eqb a c then literal l cs else None
  | _ :: _, [] => None
  end.

(** [Sscanf(s, "v=%d", &version)]: what follows the last verb is not looked at. *)
Definition scan_version (cs : list ascii) : option Z :=
  cs ← literal (chars "v=") cs; fst <$> scan_int cs.

(** [Sscanf(s, "m=%d,t=%d,p=%d", &memory, &iterations, &parallelism)] *)
Definition scan_params (cs : list ascii) : option (Z * Z * Z) :=
  cs ← literal (chars "m=") cs; m ← scan_uint 32 cs;
  cs ← literal (chars ",t=") m.2; t ← scan_uint 32 cs;
  cs ← literal (chars ",p=") t.2; p ← scan_uint 8 cs;
  Some (m.1, t.1, p.1).

(** ** Hashes *)

Definition parseHash (encoded : string) : option (Params * list Z * list Z) :=
  match split_chars 36 (chars encoded) with
  | [p0; p1; p2; p3; p4; p5] =>
      if bool_decide (p0 = []) && bool_decide (p1 = chars "argon2id") then
        version ← scan_version p2;
        if version =? argon2_version then
          mtp ← scan_params p3;
          salt ← decode std_alphabet true p4;
          expected ← decode std_alphabet true p5;
          let params := MkParams mtp.1.1 mtp.1.2 mtp.2 (wrap_u 32 (Z.of_nat (length salt))) (wrap_u 32 (Z.of_nat (length expected))) in
          if validateParams params then Some (params, salt, expected) else None
        else None
      else None
  | _ => None
  end.

Section argon2.
Context `{!Argon2}.

Definition derive (password : string) (p : Params) (salt : list Z) (size : Z) : list Z :=
  IDKey password salt (pa_Iterations p) (pa_Memory p) (pa_Parallelism p) size.

(** The [Sprintf] of [Hash]. *)
Definition format_hash (p : Params) (salt key : list Z) : string :=
  of_chars (chars "$argon2id$v=" ++ format_int argon2_version ++ chars "$m=" ++ format_uint (pa_Memory p) ++ chars ",t=" ++
    format_uint (pa_Iterations p) ++ chars ",p=" ++ format_uint (pa_Parallelism p) ++ chars "$" ++
    encode std_alphabet salt ++ chars "$" ++ encode std_alphabet key).

Definition password_length_ok (password : string) : bool := negb ((len password <? 12) || (256 <? len password)).

(** [Hash], given the random bytes of the salt. *)
Definition hash_with (password : string) (p : Params) (salt : list Z) : string :=
  format_hash p salt (derive password p salt (pa_KeyLength p)).

Definition Verify (password encoded : string) (target : Params) : bool * bool :=
  match parseHash encoded with
  | None => (false, false)
  | Some (p, salt, expected) =>
      if bool_decide (derive password p salt (wrap_u 32 (Z.of_nat (length expected))) = expected) then (true, negb (bool_decide (p = target)))
      else (false, false)
  end.
End argon2.

(** ** Lemmas *)

Lemma skip_space_plain c cs : plain c -> skip_space 0 (c :: cs) = Some (c :: cs).
Proof. intros Hc. cbn [skip_space]. by rewrite plain_space_width. Qed.

Lemma take_digits_app ds rest : Forall (fun c => is_digit c = true) ds -> (forall c, head rest = Some c -> is_digit c = false) ->
  take_digits (ds ++ rest) = (ds, rest).
Proof.
  intros Hd Hr. induction Hd as [|c ds Hc _ IH]; simpl; [|by rewrite Hc, IH].
  destruct rest as [|c rest]; [done|]. simpl. by rewrite (Hr c).
Qed.

Lemma scan_uint_format width z rest : 0 <= z < 2 ^ width -> z <= max_u64 -> (forall c, head rest = Some c -> is_digit c = false) ->
  scan_uint width (format_uint z ++ rest) = Some (z, rest).
Proof.
  intros Hz Hm Hr. unfold scan_uint. pose proof (format_uint_digits z ltac:(lia)) as Hd. pose proof (ParseUint_format z ltac:(lia)) as Hp.
  destruct (format_uint z) as [|c ds] eqn:E; [done|].
  change ((c :: ds) ++ rest) with (c :: (ds ++ rest)). inversion Hd; subst. rewrite skip_space_plain by by apply is_digit_plain. cbn [mbind option_bind].
  change (c :: (ds ++ rest)) with ((c :: ds) ++ rest). rewrite take_digits_app by done. rewrite Hp. simpl. by rewrite (proj2 (Z.ltb_lt _ _)) by lia.
Qed.

Lemma literal_app l cs : literal l (l ++ cs) = Some cs.
Proof. induction l as [|a l IH]; simpl; [done|]. by rewrite Ascii.eqb_refl. Qed.

Lemma scan_params_format p : validateParams p = true ->
  scan_params (chars "m=" ++ format_uint (pa_Memory p) ++ chars ",t=" ++ format_uint (pa_Iterations p) ++ chars ",p=" ++ format_uint (pa_Parallelism p)) =
  Some (pa_Memory p, pa_Iterations p, pa_Parallelism p).
Proof.
  unfold validateParams. intros Hv. reflect_bools. unfold scan_params, max_u64 in *. rewrite literal_app. cbn [mbind option_bind].
  rewrite scan_uint_format; [|lia|unfold max_u64; lia|by intros c [= <-]]. cbn [mbind option_bind snd]. rewrite literal_app. cbn [mbind option_bind].
  rewrite scan_uint_format; [|lia|unfold max_u64; lia|by intros c [= <-]]. cbn [mbind option_bind snd]. rewrite literal_app. cbn [mbind option_bind].
  rewrite <- (app_nil_r (format_uint (pa_Parallelism p))). rewrite scan_uint_format; [done|lia|unfold max_u64; lia|done].
Qed.

Abbreviation free_of sep := (Forall (fun c => (code c =? sep) = false)).

Lemma digits_free z : 0 <= z -> free_of 36 (format_uint z).
Proof.
  intros Hz. eapply Forall_impl; [by apply format_uint_digits|]. intros c Hc. unfold is_digit in Hc. reflect_bools. apply Z.eqb_neq. lia.
Qed.

Lemma encode_free bs : Forall is_byte bs -> free_of 36 (encode std_alphabet bs).
Proof.
  intros Hb. eapply Forall_impl; [by apply encode_digits|]. intros c (z & Hz & ->). cbv beta.
  assert (Forall (fun z => (code (sextet std_alphabet z) =? 36) = false) (seqZ 0 64)) as H by (vm_compute; repeat constructor).
  rewrite Forall_forall in H. apply H, elem_of_seqZ. lia.
Qed.

(** A hash is read back. *)
Lemma parse_format_hash p salt key : validateParams p = true -> Forall is_byte salt -> Forall is_byte key ->
  Z.of_nat (length salt) = pa_SaltLength p -> Z.of_nat (length key) = pa_KeyLength p ->
  parseHash (format_hash p salt key) = Some (p, salt, key).
Proof.
  intros Hv Hs Hk Hls Hlk. assert (0 <= pa_Memory p /\ 0 <= pa_Iterations p /\ 0 <= pa_Parallelism p) as (Hm & Ht & Hp).
  { unfold validateParams in Hv. reflect_bools. lia. }
  assert (format_hash p salt key = of_chars ([] ++ "$"%char :: chars "argon2id" ++ "$"%char :: chars "v=19" ++ "$"%char ::
    (chars "m=" ++ format_uint (pa_Memory p) ++ chars ",t=" ++ format_uint (pa_Iterations p) ++ chars ",p=" ++ format_uint (pa_Parallelism p)) ++
    "$"%char :: encode std_alphabet salt ++ "$"%char :: encode std_alphabet key)) as ->.
  { unfold format_hash. f_equal. change (format_int argon2_version) with (chars "19"). rewrite <- !app_assoc. reflexivity. }
  unfold parseHash. rewrite chars_of_chars. rewrite !split_chars_app; try done; try by repeat constructor.
  - rewrite split_chars_word by by apply encode_free. cbv zeta. rewrite !bool_decide_true by done. cbn [andb].
    change (scan_version (chars "v=19")) with (Some argon2_version). cbn [mbind option_bind]. rewrite Z.eqb_refl, scan_params_format by done.
    cbn [mbind option_bind]. rewrite !std_decode_encode by done. cbn [mbind option_bind fst snd]. rewrite Hls, Hlk.
    assert (0 <= pa_SaltLength p < 2 ^ 32 /\ 0 <= pa_KeyLength p < 2 ^ 32) as [H1 H2] by (unfold validateParams in Hv; reflect_bools; lia).
    rewrite !wrap_u_id by done. destruct p as [m t l s k]. simpl. by rewrite Hv.
  - by apply encode_free.
  - repeat (apply Forall_app; split); try (by repeat constructor); by apply digits_free.
Qed.

Section theorem.
Context `{!Argon2} `{!Argon2Laws _}.

(** A password checked against its own hash matches, and the hash is to be made anew
    exactly when its parameters are not those wanted; another password matches only where
    Argon2id gives it the same key. *)
Theorem hash_verifies password p salt target : validateParams p = true -> Forall is_byte salt -> Z.of_nat (length salt) = pa_SaltLength p ->
  Verify password (hash_with password p salt) target = (true, negb (bool_decide (p = target))) /\
  forall other, (Verify other (hash_with password p salt) target).1 = true <->
    derive other p salt (pa_KeyLength p) = derive password p salt (pa_KeyLength p).
Proof.
  intros Hv Hs Hl. assert (0 <= pa_KeyLength p < 2 ^ 32) as Hk by (unfold validateParams in Hv; reflect_bools; lia).
  destruct (IDKey_key password salt (pa_Iterations p) (pa_Memory p) (pa_Parallelism p) (pa_KeyLength p) ltac:(lia)) as [Hlen Hbytes].
  fold (derive password p salt (pa_KeyLength p)) in Hlen, Hbytes.
  assert (forall other, Verify other (hash_with password p salt) target =
    if bool_decide (derive other p salt (pa_KeyLength p) = derive password p salt (pa_KeyLength p)) then (true, negb (bool_decide (p = target))) else (false, false)) as HV.
  { intros other. unfold Verify, hash_with. rewrite parse_format_hash by (done || (rewrite Hlen; lia)). rewrite Hlen, Z2Nat.id by lia. by rewrite wrap_u_id. }
  split; [by rewrite HV, bool_decide_true|]. intros other. rewrite HV. destruct (bool_decide_reflect (derive other p salt (pa_KeyLength p) = derive password p salt (pa_KeyLength p))) as [Heq|Hne]; by split.
Qed.
End theorem.

Module DemoPasswordHash.
(** A stand-in for Argon2id. *)
#[local] Instance key : Argon2 := fun password salt t m p n => take (Z.to_nat n) ((fun z => z mod 256) <$> (code <$> chars password) ++ salt ++ repeat 0 (Z.to_nat n)).

#[local] Instance key_laws : Argon2Laws key.
Proof.
  intros password salt t m p n Hn. unfold IDKey, key. split.
  - rewrite length_take, length_fmap, !length_app, repeat_length. lia.
  - apply Forall_take, Forall_fmap, Forall_forall. intros z _. apply Z.mod_pos_bound. lia.
Qed.

Definition salt : list Z := seqZ 1 16.

Lemma hash_verifies_witness : Verify "correct horse battery" (hash_with "correct horse battery" DefaultParams salt) DefaultParams = (true, false).
Proof.
  apply (hash_verifies "correct horse battery" DefaultParams salt DefaultParams).
  - reflexivity.
  - unfold is_byte. repeat constructor; lia.
  - reflexivity.
Defined.

Example hash_text : hash_with "correct horse battery" DefaultParams salt = "$argon2id$v=19$m=65536,t=3,p=2$AQIDBAUGBwgJCgsMDQ4PEA$Y29ycmVjdCBob3JzZSBiYXR0ZXJ5AQIDBAUGBwgJCgs".
Proof. vm_compute. reflexivity. Qed.
End DemoPasswordHash.
