(* ===== verification/Auth.v ===== *)
(** * Authentication

    [internal/server/auth]: the limiter of failed logins and the session tokens
    ([session.go]), the tables ([store.go]), the handlers ([handler.go]) and the session
    check in front of every protected route ([middleware.go]).

    A handler is a program over calls: readings of the clock, random bytes, operations of
    the limiter, which its mutex makes one step each, and statements of the store, which
    can fail.  Several run at the same time ([Concurrent]).  Passwords are hashed by
    [PasswordHash]; reading a JSON body is the class [AuthBodies]. *)

From stdpp Require Import base strings numbers gmap list.
From Stdlib Require Import Ascii.
From S2P Require Import Prelude GoBase GoText Sha256 Effects Sql Base64 PasswordHash.
From S2P Require Store.

Open Scope string_scope.
Open Scope Z_scope.
Local Open Scope flow_scope.
Local Open Scope list_scope.

(** ** Tokens *)

(** [base64.RawURLEncoding.EncodeToString] of [randomToken] *)
Definition encodeToken (value : list Z) : string := of_chars (encode url_alphabet value).

Definition idleLifetime : duration := 30 * Minute.
Definition absoluteLifetime : duration := 24 * Hour.
Definition loginWindow : duration := 15 * Minute.
Definition maxLoginFailures : nat := 5.

Definition tokenHash (token : string) : list Z := Sum256 (code <$> chars token).

(** ** [LoginLimiter] *)

Abbreviation limiter := (gmap string (list time)).

Section limiter.
(** [strings.ToLower] outside ASCII *)
Variable unicode_lower : string -> string.

Definition normalizeUsername (value : string) : string := to_lower unicode_lower (of_chars (TrimSpace (chars value))).

(** The loop of [current]. *)
Fixpoint drop_expired (cutoff : time) (attempts : list time) : list time :=
  match attempts with
  | t :: rest => if t <=? cutoff then drop_expired cutoff rest else attempts
  | [] => []
  end.

Definition current (key : string) (now : time) (f : limiter) : limiter * list time :=
  let attempts := drop_expired (now - loginWindow) (default [] (f !! key)) in
  (match attempts with [] => delete key f | _ => <[key := attempts]> f end, attempts).

Definition ip_key (ip : string) : string := "ip:" +:+ ip.
Definition user_key (username : string) : string := "user:" +:+ normalizeUsername username.

Definition full (attempts : list time) : bool := (maxLoginFailures <=? length attempts)%nat.

Definition Blocked (ip username : string) (now : time) (f : limiter) : limiter * bool :=
  let '(f, attempts) := current (ip_key ip) now f in
  if full attempts then (f, true)
  else let '(f, attempts) := current (user_key username) now f in (f, full attempts).

Definition fail_key (now : time) (f : limiter) (key : string) : limiter :=
  let '(f, attempts) := current key now f in <[key := attempts ++ [now]]> f.

Definition Failed (ip username : string) (now : time) (f : limiter) : limiter :=
  foldl (fail_key now) f [ip_key ip; user_key username].

Definition Succeeded (ip username : string) (f : limiter) : limiter :=
  delete (user_key username) (delete (ip_key ip) f).

(** The loop of [RetryAfter]: the older of the oldest attempts of the keys at their limit. *)
Fixpoint oldest_full (keys : list string) (now : time) (f : limiter) (oldest : option time) : limiter * option time :=
  match keys with
  | [] => (f, oldest)
  | key :: keys =>
      let '(f, attempts) := current key now f in
      let oldest :=
        match full attempts, attempts with
        | true, t :: _ => match oldest with None => Some t | Some o => if t <? o then Some t else oldest end
        | _, _ => oldest
        end in
      oldest_full keys now f oldest
  end.

Definition RetryAfter (ip username : string) (now : time) (f : limiter) : limiter * duration :=
  let '(f, oldest) := oldest_full [ip_key ip; user_key username] now f None in
  (f, match oldest with
      | None => 0
      | Some t => let remaining := loginWindow - (now - t) in if remaining <? Second then Second else remaining
      end).
End limiter.

(** ** The tables *)

Record Admin : Type := MkAdmin { adm_ID : Z; adm_Username : string; adm_PasswordHash : string }.

Record Session : Type := MkSession {
  ss_TokenHash : list Z; ss_AdminID : Z; ss_Username : string; ss_CSRFToken : string;
  ss_CreatedAt : time; ss_LastSeenAt : time; ss_IdleExpiresAt : time; ss_ExpiresAt : time }.

(** [administrators] has at most the row with identifier 1. *)
Record session_row : Type := MkSessionRow {
  sr_admin : Z; sr_csrf : string; sr_created : time; sr_last_seen : time; sr_idle : time; sr_expires : time }.

Record auth_db : Type := MkAuthDb { db_admin : option (string * string); db_sessions : gmap (list Z) session_row }.

Definition set_sessions (m : gmap (list Z) session_row) (d : auth_db) : auth_db := MkAuthDb (db_admin d) m.

Inductive store_error : Type := ErrNotFound | DatabaseError.

Section statements.
Context {tz : Timestamptz}.

Definition create_admin (username hash : string) (d : auth_db) : option (auth_db * Z) :=
  match db_admin d with
  | Some _ => None
  | None =>
      if sql_text username && sql_text hash && (1 <=? char_length username) && (char_length username <=? 128)
      then Some (MkAuthDb (Some (username, hash)) (db_sessions d), 1) else None
  end.

Definition find_admin (username : string) (d : auth_db) : result store_error Admin :=
  if sql_text username then
    match db_admin d with
    | Some (name, hash) => if String.eqb name username then Ok (MkAdmin 1 name hash) else Err ErrNotFound
    | None => Err ErrNotFound
    end
  else Err DatabaseError.

Definition update_password (id : Z) (hash : string) (d : auth_db) : option (auth_db * Z) :=
  if sql_text hash then
    match db_admin d with
    | Some (name, _) => if id =? 1 then Some (MkAuthDb (Some (name, hash)) (db_sessions d), 1) else Some (d, 0)
    | None => Some (d, 0)
    end
  else None.

(** The reference to the administrator and the checks of the table. *)
Definition create_session (s : Session) (d : auth_db) : option (auth_db * Z) :=
  let r := MkSessionRow (ss_AdminID s) (ss_CSRFToken s) (timestamptz (ss_CreatedAt s)) (timestamptz (ss_LastSeenAt s))
             (timestamptz (ss_IdleExpiresAt s)) (timestamptz (ss_ExpiresAt s)) in
  match db_admin d, db_sessions d !! ss_TokenHash s with
  | Some _, None =>
      if (ss_AdminID s =? 1) && (length (ss_TokenHash s) =? 32)%nat && sql_text (ss_CSRFToken s) && (32 <=? char_length (ss_CSRFToken s)) && (sr_created r <? sr_idle r) && (sr_created r <? sr_expires r)
      then Some (set_sessions (<[ss_TokenHash s := r]> (db_sessions d)) d, 1) else None
  | _, _ => None
  end.

Definition find_session (hash : list Z) (d : auth_db) : result store_error Session :=
  match db_sessions d !! hash, db_admin d with
  | Some r, Some (name, _) =>
      Ok (MkSession hash (sr_admin r) name (sr_csrf r) (sr_created r) (sr_last_seen r) (sr_idle r) (sr_expires r))
  | _, _ => Err ErrNotFound
  end.

(** [idle_expires_at=LEAST($3, expires_at)], within the check on it. *)
Definition touch_session (hash : list Z) (lastSeen idleExpires : time) (d : auth_db) : option (auth_db * Z) :=
  match db_sessions d !! hash with
  | Some r =>
      let r' := MkSessionRow (sr_admin r) (sr_csrf r) (sr_created r) (timestamptz lastSeen) (Z.min (timestamptz idleExpires) (sr_expires r)) (sr_expires r) in
      if sr_created r' <? sr_idle r' then Some (set_sessions (<[hash := r']> (db_sessions d)) d, 1) else None
  | None => Some (d, 0)
  end.

Definition delete_session (hash : list Z) (d : auth_db) : option (auth_db * Z) :=
  Some (set_sessions (delete hash (db_sessions d)) d, match db_sessions d !! hash with Some _ => 1 | None => 0 end).

Definition delete_admin_sessions (id : Z) (d : auth_db) : option (auth_db * Z) :=
  let keep := filter (fun kv => sr_admin kv.2 <> id) (db_sessions d) in
  Some (set_sessions keep d, Z.of_nat (size (db_sessions d)) - Z.of_nat (size keep)).
End statements.

(** ** Requests *)

Record auth_request : Type := MkAuthRequest {
  aq_Method : string; aq_Authorization : string; aq_RemoteAddr : string;
  aq_Cookie : option string; aq_CSRFToken : string; aq_Body : list Z }.

(** ** Calls *)

Inductive auth_call : Type -> Type :=
| Now : auth_call time
| Random (size : nat) : auth_call (option (list Z))
| LimiterBlocked (ip username : string) : auth_call bool
| LimiterFailed (ip username : string) : auth_call unit
| LimiterSucceeded (ip username : string) : auth_call unit
| LimiterRetryAfter (ip username : string) : auth_call duration
| AdminCount : auth_call (result store_error Z)
| CreateAdmin (username hash : string) : auth_call (result store_error Admin)
| FindAdmin (username : string) : auth_call (result store_error Admin)
| UpdatePassword (id : Z) (hash : string) : auth_call (result store_error unit)
| CreateSession (s : Session) : auth_call (result store_error unit)
| FindSession (hash : list Z) : auth_call (result store_error Session)
| TouchSession (hash : list Z) (lastSeen idleExpires : time) : auth_call (result store_error unit)
| DeleteSession (hash : list Z) : auth_call (result store_error unit)
| DeleteAdminSessions (id : Z) : auth_call (result store_error unit)
(** the moment a protected handler is entered, with the session of its context *)
| Enter (s : Session) (r : auth_request) : auth_call unit.

Inductive cookie : Type := SessionCookie (token : string) (expires : time) | ExpiredCookie.

Record auth_response : Type := MkAuthResponse {
  ar_Status : Z; ar_Code : string; ar_Cookie : option cookie; ar_RetryAfter : option Z; ar_Session : option (string * string) }.

Definition writeAuthError (status : Z) (code_ : string) : auth_response := MkAuthResponse status code_ None None None.

(** JSON bodies, of at most 64 KiB. *)
Class AuthBodies : Type := {
  read_credentials : list Z -> option (string * string);
  read_change : list Z -> option (string * string) }.

Definition max_body : nat := N.to_nat 65536.

(** ** Handlers *)

Section handlers.
(** [handler.dummyHash]: the hash an unknown user name is checked against. *)
Context `{!Argon2} `{!AuthBodies} (unicode_lower : string -> string) (dummyHash : string).

Abbreviation handler := (prog auth_call auth_response).

(** [decodeJSON] *)
Definition decodeJSON {A} (read : list Z -> option A) (r : auth_request) (k : A -> handler) : handler :=
  match read (take max_body (aq_Body r)) with
  | None => Ret (writeAuthError 400 "invalid_request")
  | Some a => k a
  end.

(** [Hash] with [DefaultParams] *)
Definition Hash (password : string) (k : string -> handler) (failed : handler) : handler :=
  if negb (password_length_ok password) || negb (validateParams DefaultParams) then failed
  else
    let! salt := call (Random (Z.to_nat (pa_SaltLength DefaultParams))) in
    match salt with None => failed | Some salt => k (hash_with password DefaultParams salt) end.

(** [strings.TrimPrefix] *)
Definition trim_prefix (s p : string) : string :=
  if has_prefix s p then of_chars (drop (length (chars p)) (chars s)) else s.

Definition bearerMatches (header expected : string) : bool :=
  negb (String.eqb expected "") && String.eqb (trim_prefix header "Bearer ") expected.

Definition clientIP (r : auth_request) : string :=
  match Store.SplitHostPort (chars (aq_RemoteAddr r)) with
  | None => aq_RemoteAddr r
  | Some (host, _) => of_chars host
  end.

(** [startSession] with [newSessionMaterial] *)
Definition startSession (admin : Admin) (status : Z) : handler :=
  let! now := call Now in
  let! token := call (Random 32) in
  let failed := Ret (writeAuthError 500 "internal_error") in
  match token with
  | None => failed
  | Some token =>
      let! csrf := call (Random 32) in
      match csrf with
      | None => failed
      | Some csrf =>
          let token := encodeToken token in
          let csrf := encodeToken csrf in
          let! created := call (CreateSession (MkSession (tokenHash token) (adm_ID admin) (adm_Username admin) csrf now now
                                                 (now + idleLifetime) (now + absoluteLifetime))) in
          match created with
          | Err _ => failed
          | Ok _ => Ret (MkAuthResponse status "" (Some (SessionCookie token (now + absoluteLifetime))) None (Some (adm_Username admin, csrf)))
          end
      end
  end.

Definition Bootstrap (bootstrapToken : string) (r : auth_request) : handler :=
  if negb (bearerMatches (aq_Authorization r) bootstrapToken) then Ret (writeAuthError 401 "unauthorized")
  else
    let! count := call AdminCount in
    match count with
    | Err _ => Ret (writeAuthError 500 "internal_error")
    | Ok count =>
        if negb (count =? 0) then Ret (writeAuthError 409 "already_initialized")
        else
          decodeJSON read_credentials r (fun '(username, password) =>
            let username := normalizeUsername unicode_lower username in
            if String.eqb username "" || (128 <? len username) then Ret (writeAuthError 400 "invalid_username")
            else
              Hash password (fun hash =>
                let! admin := call (CreateAdmin username hash) in
                match admin with
                | Err _ => Ret (writeAuthError 409 "already_initialized")
                | Ok admin => startSession admin 201
                end)
              (Ret (writeAuthError 400 "invalid_password")))
    end.

(** [writeRateLimit]: whole seconds, halves away from zero. *)
Definition writeRateLimit (ip username : string) : handler :=
  let! retry := call (LimiterRetryAfter ip username) in
  Ret (MkAuthResponse 429 "rate_limited" None (Some ((retry + Second / 2) / Second)) None).

(** [if needsRehash] of [Login] *)
Definition rehash (needed : bool) (admin : Admin) (password : string) (k : handler) : handler :=
  if needed then
    Hash password (fun hash => let! _ := call (UpdatePassword (adm_ID admin) hash) in k) k
  else k.

Definition Login (r : auth_request) : handler :=
  decodeJSON read_credentials r (fun '(username, password) =>
    let username := normalizeUsername unicode_lower username in
    let ip := clientIP r in
    let! blocked := call (E := auth_call) (X := bool) (LimiterBlocked ip username) in
    if blocked then writeRateLimit ip username
    else
      let! admin := call (FindAdmin username) in
      let '(matches, needsRehash) := Verify password (match admin with Ok a => adm_PasswordHash a | Err _ => dummyHash end) DefaultParams in
      match admin, matches with
      | Ok admin, true =>
          rehash needsRehash admin password (
            let! _ := call (LimiterSucceeded ip username) in
            startSession admin 200)
      | _, _ =>
          let! _ := call (LimiterFailed ip username) in
          let! blocked := call (E := auth_call) (X := bool) (LimiterBlocked ip username) in
          if blocked then writeRateLimit ip username else Ret (writeAuthError 401 "invalid_credentials")
      end).

(** [unsafeMethod] *)
Definition unsafeMethod (method : string) : bool :=
  negb (String.eqb method "GET") && negb (String.eqb method "HEAD") && negb (String.eqb method "OPTIONS").

Definition session_expired : auth_response := MkAuthResponse 401 "session_expired" (Some ExpiredCookie) None None.

(** [RequireSession] in front of [next]. *)
Definition RequireSession (next : Session -> handler) (r : auth_request) : handler :=
  match aq_Cookie r with
  | None | Some "" => Ret (writeAuthError 401 "unauthorized")
  | Some value =>
      let hash := tokenHash value in
      let! session := call (FindSession hash) in
      let! now := call Now in
      match session with
      | Err ErrNotFound => Ret session_expired
      | Err DatabaseError => let! _ := call (DeleteSession hash) in Ret session_expired
      | Ok session =>
          if (ss_ExpiresAt session <=? now) || (ss_IdleExpiresAt session <=? now) then
            let! _ := call (DeleteSession hash) in Ret session_expired
          else if unsafeMethod (aq_Method r) && negb (String.eqb (aq_CSRFToken r) (ss_CSRFToken session)) then
            Ret (writeAuthError 403 "csrf_rejected")
          else
            let session := MkSession (ss_TokenHash session) (ss_AdminID session) (ss_Username session) (ss_CSRFToken session)
                             (ss_CreatedAt session) now (now + idleLifetime) (ss_ExpiresAt session) in
            let! touched := call (TouchSession hash now (now + idleLifetime)) in
            match touched with
            | Err _ => Ret (writeAuthError 401 "session_expired")
            | Ok _ => let! _ := call (Enter session r) in next session
            end
      end
  end.

(** The protected handlers get the session from the context of the request. *)
Definition Logout (session : Session) : handler :=
  let! _ := call (DeleteSession (ss_TokenHash session)) in
  Ret (MkAuthResponse 204 "" (Some ExpiredCookie) None None).

Definition Password (r : auth_request) (session : Session) : handler :=
  decodeJSON read_change r (fun '(currentPassword, newPassword) =>
    let! admin := call (FindAdmin (ss_Username session)) in
    match admin with
    | Err _ => Ret (writeAuthError 401 "unauthorized")
    | Ok admin =>
        if negb (fst (Verify currentPassword (adm_PasswordHash admin) DefaultParams)) then Ret (writeAuthError 401 "invalid_credentials")
        else
          Hash newPassword (fun hash =>
            let! updated := call (UpdatePassword (adm_ID admin) hash) in
            match updated with
            | Err _ => Ret (writeAuthError 500 "internal_error")
            | Ok _ =>
                let! deleted := call (DeleteAdminSessions (adm_ID admin)) in
                match deleted with
                | Err _ => Ret (writeAuthError 500 "internal_error")
                | Ok _ => startSession admin 200
                end
            end)
          (Ret (writeAuthError 400 "invalid_password"))
    end).

Definition SessionHandler (session : Session) : handler :=
  Ret (MkAuthResponse 200 "" None None (Some (ss_Username session, ss_CSRFToken session))).

(** What runs behind the check: the rest of the server makes no call of this component. *)
Inductive protected (r : auth_request) : (Session -> handler) -> Prop :=
| ProtectedLogout : protected r Logout
| ProtectedPassword : protected r (Password r)
| ProtectedSession : protected r SessionHandler
| ProtectedOther answer : protected r (fun session => Ret (answer session)).

Inductive served (bootstrapToken : string) : handler -> Prop :=
| ServedBootstrap r : served bootstrapToken (Bootstrap bootstrapToken r)
| ServedLogin r : served bootstrapToken (Login r)
| ServedProtected r next : protected r next -> served bootstrapToken (RequireSession next r).
End handlers.

(** ** The world *)

(** What happened: rows of sessions made, touched and deleted, protected handlers
    entered with the session of the context, and what the limiter was told: a wrong
    password, a right one. *)
Inductive auth_event : Type :=
| Issued (s : Session)
| Touched (hash : list Z) (t : time)
| Revoked (hash : list Z)
| RevokedAdmin (id : Z)
| Entered (s : Session) (r : auth_request) (t : time)
| Guessed (ip username : string) (t : time)
| Proved (ip username : string).

(** [aw_random] and [aw_faults]: what the coming reads of random bytes give and how the
    coming statements end.  [aw_log] is written for the theorems. *)
Record world : Type := MkWorld {
  aw_db : auth_db; aw_limiter : limiter; aw_clock : time;
  aw_random : list (option (list Z)); aw_faults : list commit_outcome; aw_log : list auth_event }.

Section world.
Context {tz : Timestamptz} (unicode_lower : string -> string).

Definition set_db (d : auth_db) (w : world) : world :=
  MkWorld d (aw_limiter w) (aw_clock w) (aw_random w) (tail (aw_faults w)) (aw_log w).
Definition set_limiter (l : limiter) (w : world) : world :=
  MkWorld (aw_db w) l (aw_clock w) (aw_random w) (aw_faults w) (aw_log w).
Definition log_event (e : auth_event) (w : world) : world :=
  MkWorld (aw_db w) (aw_limiter w) (aw_clock w) (aw_random w) (aw_faults w) (aw_log w ++ [e]).

Definition next_fault (w : world) : commit_outcome := default Committed (head (aw_faults w)).

(** A statement that changes rows: how many it changed, as far as is known. *)
Definition exec_statement (f : auth_db -> option (auth_db * Z)) (w : world) : world * result store_error Z :=
  let r := exec_rows (next_fault w) f (aw_db w) in
  (set_db r.1 w, match r.2 with Ok n => Ok n | Err _ => Err DatabaseError end).

Definition query_statement {A} (f : auth_db -> result store_error A) (w : world) : world * result store_error A :=
  (set_db (aw_db w) w, match next_fault w with Committed => f (aw_db w) | _ => Err DatabaseError end).

(** [RowsAffected() == 0] is [ErrNotFound]. *)
Definition one_row (r : world * result store_error Z) : world * result store_error unit :=
  (r.1, match r.2 with Ok n => if n =? 0 then Err ErrNotFound else Ok tt | Err e => Err e end).
Definition any_rows (r : world * result store_error Z) : world * result store_error unit :=
  (r.1, match r.2 with Ok _ => Ok tt | Err e => Err e end).

(** A statement that changed a row is written down. *)
Definition took_effect (f : auth_db -> option (auth_db * Z)) (w : world) : bool :=
  match f (aw_db w) with Some (_, n) => negb (n =? 0) && negb (bool_decide (next_fault w = CommitRefused)) | None => false end.

Definition exec_logged (e : auth_event) (f : auth_db -> option (auth_db * Z)) (w : world) : world * result store_error Z :=
  let r := exec_statement f w in (if took_effect f w then log_event e r.1 else r.1, r.2).

#[export] Instance auth_handler : Handler auth_call world := fun X c w =>
  match c with
  | Now => (w, aw_clock w)
  | Random size =>
      (MkWorld (aw_db w) (aw_limiter w) (aw_clock w) (tail (aw_random w)) (aw_faults w) (aw_log w),
       match aw_random w with Some bs :: _ => Some (take size bs) | _ => None end)
  | LimiterBlocked ip username => let r := Blocked unicode_lower ip username (aw_clock w) (aw_limiter w) in (set_limiter r.1 w, r.2)
  | LimiterFailed ip username => (log_event (Guessed ip username (aw_clock w)) (set_limiter (Failed unicode_lower ip username (aw_clock w) (aw_limiter w)) w), tt)
  | LimiterSucceeded ip username => (log_event (Proved ip username) (set_limiter (Succeeded unicode_lower ip username (aw_limiter w)) w), tt)
  | LimiterRetryAfter ip username => let r := RetryAfter unicode_lower ip username (aw_clock w) (aw_limiter w) in (set_limiter r.1 w, r.2)
  | AdminCount => query_statement (fun d => Ok (match db_admin d with Some _ => 1 | None => 0 end)) w
  | CreateAdmin username hash =>
      let r := exec_statement (create_admin username hash) w in
      (r.1, match r.2 with Ok _ => Ok (MkAdmin 1 username hash) | Err e => Err e end)
  | FindAdmin username => query_statement (find_admin username) w
  | UpdatePassword id hash => one_row (exec_statement (update_password id hash) w)
  | CreateSession s => any_rows (exec_logged (Issued s) (create_session s) w)
  | FindSession hash => query_statement (find_session hash) w
  | TouchSession hash lastSeen idleExpires => one_row (exec_logged (Touched hash lastSeen) (touch_session hash lastSeen idleExpires) w)
  | DeleteSession hash => any_rows (exec_logged (Revoked hash) (delete_session hash) w)
  | DeleteAdminSessions id => any_rows (exec_logged (RevokedAdmin id) (delete_admin_sessions id) w)
  | Enter s r => (log_event (Entered s r (aw_clock w)) w, tt)
  end.
End world.

(** Time passes. *)
Definition passes (w w' : world) : Prop :=
  aw_clock w <= aw_clock w' /\
  w' = MkWorld (aw_db w) (aw_limiter w) (aw_clock w') (aw_random w) (aw_faults w) (aw_log w).
