(* ===== verification/AuthTheorems.v ===== *)
(** * Properties of authentication

    Sessions under any interleaving of handlers, logins, and the limiter's bound. *)

From stdpp Require Import base strings numbers gmap sets list.
From Stdlib Require Import Ascii.
From S2P Require Import Prelude GoBase GoText Sha256 Effects Sql Base64 PasswordHash Auth.
Import Concurrent.

Open Scope string_scope.
Open Scope Z_scope.
Local Open Scope flow_scope.
Local Open Scope list_scope.

Section sessions.
Context {tz : Timestamptz} (unicode_lower : string -> string) (dummyHash : string) `{!Argon2} `{!AuthBodies}.

#[local] Instance handles : Handler auth_call world := auth_handler unicode_lower.

(** ** What holds of the tables and of what happened *)

(** A session made at its creation time. *)
Definition made (s : Session) (clock : time) : Prop :=
  ss_CreatedAt s <= clock /\ ss_IdleExpiresAt s = ss_CreatedAt s + idleLifetime /\ ss_ExpiresAt s = ss_CreatedAt s + absoluteLifetime.

(** [idle] is half an hour after the creation or a touch of the session. *)
Definition used (s : Session) (idle : time) (log : list auth_event) : Prop :=
  Issued s ∈ log /\
  (idle <= timestamptz (ss_CreatedAt s + idleLifetime) \/
   exists t, Touched (ss_TokenHash s) t ∈ log /\ idle <= timestamptz (t + idleLifetime)).

Definition revokes (s : Session) (e : auth_event) : Prop :=
  match e with
  | Revoked hash => hash = ss_TokenHash s
  | RevokedAdmin id => id = ss_AdminID s
  | _ => False
  end.

(** Issued and not revoked since. *)
Definition live (s : Session) (log : list auth_event) : Prop :=
  exists before since, log = before ++ Issued s :: since /\ Forall (fun e => ~ revokes s e) since.

Definition grounded (hash : list Z) (r : session_row) (log : list auth_event) : Prop :=
  exists s, ss_TokenHash s = hash /\ ss_AdminID s = sr_admin r /\ ss_CSRFToken s = sr_csrf r /\
    sr_expires r = timestamptz (ss_ExpiresAt s) /\ used s (sr_idle r) log /\ live s log.

(** Why a request was let through: its cookie is the token of a session issued less than
    a day before, at most half an hour after its creation or its last use, and a request
    that can change something carried the token of the session against forgery.  At that
    time a session of the cookie was issued and not revoked: the same, unless the random
    bytes of two tokens agree. *)
Definition justified (log : list auth_event) (session : Session) (r : auth_request) (at_ : time) : Prop :=
  let now := ss_LastSeenAt session in
  exists token before after s s',
    aq_Cookie r = Some token /\ ss_TokenHash session = tokenHash token /\
    log = before ++ Touched (tokenHash token) now :: after /\
    Issued s ∈ before /\ ss_TokenHash s = tokenHash token /\
    ss_CreatedAt s <= now <= at_ /\ now < ss_CreatedAt s + absoluteLifetime /\
    (now < ss_CreatedAt s + idleLifetime \/ exists t, Touched (tokenHash token) t ∈ before /\ t <= now < t + idleLifetime) /\
    (unsafeMethod (aq_Method r) = true -> aq_CSRFToken r = ss_CSRFToken s) /\
    live s' before /\ ss_TokenHash s' = tokenHash token.

Record Invariant (w : world) : Prop := {
  in_issued s : Issued s ∈ aw_log w -> made s (aw_clock w);
  in_touched hash t : Touched hash t ∈ aw_log w -> t <= aw_clock w;
  in_rows hash r : db_sessions (aw_db w) !! hash = Some r -> grounded hash r (aw_log w);
  in_entered before after s r t : aw_log w = before ++ Entered s r t :: after -> justified before s r t }.

(** What other handlers do to the world. *)
Record Rely (w w' : world) : Prop := {
  re_clock : aw_clock w <= aw_clock w';
  re_log : aw_log w `prefix_of` aw_log w' }.

#[local] Instance rely_preorder : PreOrder Rely.
Proof.
  split; [intros w; by split|]. intros w1 w2 w3 [? ?] [? ?]. split; [lia|by etransitivity].
Qed.

Lemma prefix_in (l l' : list auth_event) e : l `prefix_of` l' -> e ∈ l -> e ∈ l'.
Proof. intros [k ->] ?. by apply elem_of_app; left. Qed.

Lemma used_later s idle l l' : l `prefix_of` l' -> used s idle l -> used s idle l'.
Proof.
  intros Hl [Hs Hk]. split; [by eapply prefix_in|]. destruct Hk as [Hk|(t & Hin & Hk)]; [by left|right].
  exists t. split; [by eapply prefix_in|done].
Qed.

Lemma live_snoc s l e : ~ revokes s e -> live s l -> live s (l ++ [e]).
Proof.
  intros He (before & since & -> & Hf). exists before, (since ++ [e]). split; [by rewrite <- app_assoc|].
  apply Forall_app_2; [done|]. by constructor.
Qed.

Lemma grounded_snoc hash r l e : (forall s, ss_TokenHash s = hash -> ss_AdminID s = sr_admin r -> ~ revokes s e) ->
  grounded hash r l -> grounded hash r (l ++ [e]).
Proof.
  intros He (s & H1 & H2 & H3 & H4 & H5 & H6). exists s. split_and!; try done; [|by apply live_snoc; [apply He|]].
  eapply used_later; [|done]. by apply prefix_app_r.
Qed.

Lemma justified_later l l' s r t : l `prefix_of` l' -> justified l s r t -> justified l' s r t.
Proof.
  intros [k ->] (token & before & after & s1 & s2 & H1 & H2 & -> & Hrest). exists token, before, (after ++ k), s1, s2.
  split_and!; try apply Hrest; try done. by rewrite <- app_assoc.
Qed.

Lemma snoc_split (l before after : list auth_event) e x : l ++ [e] = before ++ x :: after ->
  (e = x /\ l = before) \/ exists after', l = before ++ x :: after'.
Proof.
  induction after as [|y after' _] using rev_ind.
  - intros [-> ->]%app_inj_tail. by left.
  - rewrite app_comm_cons, app_assoc. intros [-> _]%app_inj_tail. right. by exists after'.
Qed.

(** A world where nothing was written down and where there are no more rows. *)
Lemma fewer_rows w w' : aw_clock w <= aw_clock w' -> aw_log w' = aw_log w ->
  (forall hash r, db_sessions (aw_db w') !! hash = Some r -> db_sessions (aw_db w) !! hash = Some r) ->
  Invariant w -> Invariant w' /\ Rely w w'.
Proof.
  intros Hc Hl Hr [H1 H2 H3 H4]. split; [|split; [done|by rewrite Hl]]. split; rewrite Hl.
  - intros s Hs. destruct (H1 s Hs) as (? & ? & ?). split_and!; [lia|done..].
  - intros hash t Ht. specialize (H2 hash t Ht). lia.
  - intros hash r Hrow. by apply H3, Hr.
  - done.
Qed.

(** One more entry of the log. *)
Lemma logged e w w' : aw_clock w' = aw_clock w -> aw_log w' = aw_log w ++ [e] -> Invariant w ->
  (match e with
   | Issued s => made s (aw_clock w) | Touched _ t => t <= aw_clock w | Entered s r t => justified (aw_log w) s r t | _ => True
   end) ->
  (forall hash r, db_sessions (aw_db w') !! hash = Some r -> grounded hash r (aw_log w')) ->
  Invariant w' /\ Rely w w'.
Proof.
  intros Hc Hl [H1 H2 H3 H4] He Hr. split; [|split; [by rewrite Hc|rewrite Hl; by apply prefix_app_r]].
  split; [..|done|]; rewrite ?Hc, Hl.
  - intros s [Hs| <-%list_elem_of_singleton]%elem_of_app; [by apply H1|done].
  - intros hash t [Ht| <-%list_elem_of_singleton]%elem_of_app; [by eapply H2|done].
  - intros before after s r t [[-> <-]|(after' & HE)]%snoc_split; [done|by eapply H4].
Qed.

(** ** Calls *)

(** What has to hold before a call that adds to the log. *)
Definition allowed {X} (c : auth_call X) (w : world) : Prop :=
  match c with
  | CreateSession s => made s (aw_clock w)
  | TouchSession hash lastSeen idleExpires => idleExpires = lastSeen + idleLifetime /\ lastSeen <= aw_clock w
  | Enter s r => justified (aw_log w) s r (aw_clock w)
  | _ => True
  end.

Lemma exec_statement_world f w :
  (exec_statement f w).1 = set_db (aw_db w) w \/ exists d n, f (aw_db w) = Some (d, n) /\ (exec_statement f w).1 = set_db d w.
Proof.
  unfold exec_statement. destruct (exec_rows_db (next_fault w) f (aw_db w)) as [E|(d & n & E & E')].
  - left. simpl. by rewrite E.
  - right. exists d, n. simpl. by rewrite E'.
Qed.

(** A statement that adds no session. *)
Lemma statement_fewer f w : (forall d n, f (aw_db w) = Some (d, n) ->
    forall hash r, db_sessions d !! hash = Some r -> db_sessions (aw_db w) !! hash = Some r) ->
  Invariant w -> Invariant (exec_statement f w).1 /\ Rely w (exec_statement f w).1.
Proof.
  intros Hf HI. destruct (exec_statement_world f w) as [-> |(d & n & E & ->)]; apply fewer_rows; try done. by apply (Hf d n).
Qed.

Lemma took_effect_spec f w : took_effect f w = true ->
  exists d n, f (aw_db w) = Some (d, n) /\ n <> 0 /\ (exec_statement f w).1 = set_db d w.
Proof.
  unfold took_effect, exec_statement, exec_rows. destruct (f (aw_db w)) as [[d n]|]; [|done].
  intros [Hn Hc]%andb_true_iff. exists d, n. split_and!; [done|by apply negb_true_iff, Z.eqb_neq in Hn|].
  apply negb_true_iff, bool_decide_eq_false in Hc. by destruct (next_fault w).
Qed.

Lemma no_effect_world f w : took_effect f w = false ->
  (exec_statement f w).1 = set_db (aw_db w) w \/ exists d, f (aw_db w) = Some (d, 0) /\ (exec_statement f w).1 = set_db d w.
Proof.
  unfold took_effect, exec_statement, exec_rows. destruct (f (aw_db w)) as [[d n]|]; [|by left].
  intros [He|He]%andb_false_iff.
  - apply negb_false_iff, Z.eqb_eq in He as ->. destruct (next_fault w); [right; by exists d|by left|right; by exists d].
  - apply negb_false_iff, bool_decide_eq_true in He. rewrite He. by left.
Qed.

(** A statement that is written down when it changes rows. *)
Lemma exec_logged_keeps e f w : Invariant w ->
  (match e with Issued s => made s (aw_clock w) | Touched _ t => t <= aw_clock w | Entered s r t => justified (aw_log w) s r t | _ => True end) ->
  (forall d, f (aw_db w) = Some (d, 0) -> forall hash r, db_sessions d !! hash = Some r -> db_sessions (aw_db w) !! hash = Some r) ->
  (forall d n, f (aw_db w) = Some (d, n) -> n <> 0 -> forall hash r, db_sessions d !! hash = Some r -> grounded hash r (aw_log w ++ [e])) ->
  Invariant (exec_logged e f w).1 /\ Rely w (exec_logged e f w).1.
Proof.
  intros HI He Hnone Hn. unfold exec_logged. cbn [fst]. destruct (took_effect f w) eqn:Ee.
  - apply took_effect_spec in Ee as (d & n & E & Hd & ->). eapply logged; [done..|]. simpl. by apply (Hn d n).
  - apply no_effect_world in Ee as [-> |(d & E & ->)]; [by apply fewer_rows|]. apply fewer_rows; try done. simpl. by apply Hnone.
Qed.

Lemma create_keeps s w : made s (aw_clock w) -> Invariant w ->
  Invariant (exec_logged (Issued s) (create_session s) w).1 /\ Rely w (exec_logged (Issued s) (create_session s) w).1.
Proof.
  intros Hs HI. apply exec_logged_keeps; [done|done| |].
  - intros d E. unfold create_session in E. repeat case_match; congruence.
  - intros d n E _. unfold create_session in E. destruct (db_admin (aw_db w)); [|done]. destruct (db_sessions (aw_db w) !! ss_TokenHash s); [done|].
    case_match; [|done]. injection E as <- _. intros hash r. simpl. rewrite lookup_insert_Some. intros [[<- <-]|[_ Hr]].
    + exists s. split_and!; try done.
      * split; [set_solver|]. left. simpl. by destruct Hs as (_ & -> & _).
      * exists (aw_log w), []. by split.
    + apply grounded_snoc; [naive_solver|]. by apply (in_rows w).
Qed.

Lemma touch_keeps hash lastSeen w : lastSeen <= aw_clock w -> Invariant w ->
  let r := exec_logged (Touched hash lastSeen) (touch_session hash lastSeen (lastSeen + idleLifetime)) w in
  Invariant r.1 /\ Rely w r.1.
Proof.
  intros Hl HI. cbv zeta. apply exec_logged_keeps; [done|done| |].
  - intros d E. unfold touch_session in E. repeat case_match; congruence.
  - intros d n E Hn. unfold touch_session in E. destruct (db_sessions (aw_db w) !! hash) as [row|] eqn:Hrow; [|naive_solver].
    case_match; [|done]. injection E as <- _. intros hash' r. simpl. rewrite lookup_insert_Some. intros [[<- <-]|[_ Hr]].
    + apply (in_rows w HI) in Hrow. apply (grounded_snoc _ _ _ (Touched hash lastSeen)) in Hrow; [|naive_solver].
      destruct Hrow as (s & G1 & G2 & G3 & G4 & [G5 _] & G6). exists s. split_and!; try done. split; [done|]. right.
      exists lastSeen. simpl. rewrite G1. split; [set_solver|lia].
    + apply grounded_snoc; [naive_solver|]. by apply (in_rows w).
Qed.

Lemma delete_keeps hash w : Invariant w ->
  Invariant (exec_logged (Revoked hash) (delete_session hash) w).1 /\ Rely w (exec_logged (Revoked hash) (delete_session hash) w).1.
Proof.
  intros HI. apply exec_logged_keeps; [done|done| |].
  - intros d [= <- _] h r. simpl. by intros [_ ?]%lookup_delete_Some.
  - intros d n [= <- _] _ h r. simpl. intros [Hh Hr]%lookup_delete_Some. apply grounded_snoc; [simpl; congruence|]. by apply (in_rows w).
Qed.

Lemma delete_admin_keeps id w : Invariant w ->
  Invariant (exec_logged (RevokedAdmin id) (delete_admin_sessions id) w).1 /\ Rely w (exec_logged (RevokedAdmin id) (delete_admin_sessions id) w).1.
Proof.
  intros HI. apply exec_logged_keeps; [done|done| |].
  - intros d [= <- _] h r. simpl. by intros [? _]%map_lookup_filter_Some.
  - intros d n [= <- _] _ h r. simpl. intros [Hr Hne]%map_lookup_filter_Some. apply grounded_snoc; [simpl in *; congruence|]. by apply (in_rows w).
Qed.

Lemma call_keeps {X} (c : auth_call X) w w' x : allowed c w -> Invariant w -> handle c w = (w', x) -> Invariant w' /\ Rely w w'.
Proof.
  intros Ha HI E.
  assert (forall v, aw_db v = aw_db w -> aw_clock v = aw_clock w -> aw_log v = aw_log w -> Invariant v /\ Rely w v) as Hsame.
  { intros v H1 H2 H3. apply fewer_rows; try done; [by rewrite H2|by rewrite H1]. }
  assert (forall e v, (match e with Guessed _ _ _ | Proved _ _ => True | _ => False end) -> aw_db v = aw_db w -> aw_clock v = aw_clock w ->
    aw_log v = aw_log w ++ [e] -> Invariant v /\ Rely w v) as Hlimit.
  { intros e v He Hd Hc Hl. apply (logged e w); try done; [by destruct e|]. intros h row Hr. rewrite Hl. rewrite Hd in Hr.
    apply grounded_snoc; [destruct e; naive_solver|]. by apply (in_rows w). }
  destruct c; try (injection E as <- _; by apply Hsame); try (injection E as <- _; by (eapply Hlimit; [|reflexivity..])).
  - injection E as <- _. cbn [fst]. apply statement_fewer; [|done]. intros d n E. unfold create_admin in E. repeat case_match; by simplify_eq.
  - injection E as <- _. cbn [fst one_row]. apply statement_fewer; [|done]. intros d n E. unfold update_password in E. repeat case_match; by simplify_eq.
  - injection E as <- _. by apply create_keeps.
  - injection E as <- _. destruct Ha as [-> Ha]. by apply touch_keeps.
  - injection E as <- _. by apply delete_keeps.
  - injection E as <- _. by apply delete_admin_keeps.
  - injection E as <- _. eapply logged; try done. intros h row Hr. simpl. apply grounded_snoc; [naive_solver|]. by apply (in_rows w).
Qed.

(** ** Handlers *)

Abbreviation safe := (Concurrent.safe Rely Invariant).

Lemma safe_ask {X} (c : auth_call X) (k : X -> prog auth_call auth_response) w :
  (forall w1, Rely w w1 -> Invariant w1 -> allowed c w1) ->
  (forall w1 w2 x, Rely w w1 -> Invariant w1 -> handle c w1 = (w2, x) -> Rely w1 w2 -> safe (k x) w2) ->
  safe (prog_bind (call c) k) w.
Proof.
  intros Ha Hk. apply safe_call. intros w1 w2 x Hw HI E. destruct (call_keeps c w1 w2 x (Ha w1 Hw HI) HI E) as [HI2 HR2].
  split_and!; [done|done|]. by eapply Hk.
Qed.

(** Safe whenever it starts. *)
Definition always (p : prog auth_call auth_response) : Prop := forall w, safe p w.

Lemma always_ask {X} (c : auth_call X) (k : X -> prog auth_call auth_response) :
  (forall w, allowed c w) -> (forall x, always (k x)) -> always (prog_bind (call c) k).
Proof. intros Ha Hk w. apply safe_ask; [auto|]. intros w1 w2 x _ _ _ _. apply Hk. Qed.

Lemma always_ret a : always (Ret a).
Proof. done. Qed.

Lemma startSession_always admin status : always (startSession admin status).
Proof.
  intros w. unfold startSession. apply safe_ask; [done|]. intros w1 w2 now _ _ [= <- <-] _.
  apply safe_ask; [done|]. intros w3 w4 [token|] HR3 _ _ HR4; [|done].
  apply safe_ask; [done|]. intros w5 w6 [csrf|] HR5 _ _ HR6; [|done].
  apply safe_ask; [|by intros w7 w8 [[]|] _ _ _ _].
  intros w7 HR7 _. split_and!; try done. simpl.
  etransitivity; [apply HR3|]. etransitivity; [apply HR4|]. etransitivity; [apply HR5|]. etransitivity; [apply HR6|apply HR7].
Qed.

Lemma Hash_always password k failed : (forall h, always (k h)) -> always failed -> always (Hash password k failed).
Proof.
  intros Hk Hf. unfold Hash. destruct (_ || _); [done|]. apply always_ask; [done|]. by intros [salt|].
Qed.

Lemma decode_always {A} (read : list Z -> option A) r k : (forall a, always (k a)) -> always (decodeJSON read r k).
Proof. intros Hk. unfold decodeJSON. by destruct (read _). Qed.

Lemma Bootstrap_always token r : always (Bootstrap unicode_lower token r).
Proof.
  unfold Bootstrap. destruct (negb _); [done|]. apply always_ask; [done|]. intros [count|]; [|done]. destruct (negb _); [done|].
  apply decode_always. intros [username password]. destruct (_ || _); [done|].
  apply Hash_always; [|done]. intros hash. apply always_ask; [done|]. intros [admin|]; [|done]. apply startSession_always.
Qed.

Lemma rate_always ip username : always (writeRateLimit ip username).
Proof. by apply always_ask. Qed.

Lemma Login_always r : always (Login unicode_lower dummyHash r).
Proof.
  unfold Login. apply decode_always. intros [username password]. apply always_ask; [done|]. intros []; [apply rate_always|].
  apply always_ask; [done|]. intros admin. destruct (Verify _ _ _) as [matches needsRehash].
  assert (always (let! _ := call (LimiterFailed (clientIP r) (normalizeUsername unicode_lower username)) in
    let! blocked := call (E := auth_call) (X := bool) (LimiterBlocked (clientIP r) (normalizeUsername unicode_lower username)) in
    if blocked then writeRateLimit (clientIP r) (normalizeUsername unicode_lower username) else Ret (writeAuthError 401 "invalid_credentials"))) as Hfail.
  { apply always_ask; [done|]. intros []. apply always_ask; [done|]. intros []; [apply rate_always|done]. }
  destruct admin as [admin|]; [|done]. destruct matches; [|done].
  assert (always (let! _ := call (LimiterSucceeded (clientIP r) (normalizeUsername unicode_lower username)) in startSession admin 200)) as Hok.
  { apply always_ask; [done|]. intros []. apply startSession_always. }
  unfold rehash. destruct needsRehash; [|done]. apply Hash_always; [|done]. intros hash. apply always_ask; [done|]. by intros x.
Qed.

Lemma Password_always r session : always (Password r session).
Proof.
  unfold Password. apply decode_always. intros [current new]. apply always_ask; [done|]. intros [admin|]; [|done]. destruct (negb _); [done|].
  apply Hash_always; [|done]. intros hash. apply always_ask; [done|]. intros [[]|]; [|done].
  apply always_ask; [done|]. intros [[]|]; [|done]. apply startSession_always.
Qed.

Lemma Logout_always session : always (Logout session).
Proof. by apply always_ask. Qed.

Lemma exec_logged_ok e f w n : (exec_logged e f w).2 = Ok n ->
  (exists d, f (aw_db w) = Some (d, n)) /\ (n <> 0 -> aw_log (exec_logged e f w).1 = aw_log w ++ [e]).
Proof.
  unfold exec_logged, exec_statement, exec_rows, took_effect. destruct (f (aw_db w)) as [[d m]|]; [|done].
  destruct (next_fault w); [|done..]. intros [= ->]. split; [by exists d|]. intros Hn. apply Z.eqb_neq in Hn. simpl. by rewrite Hn.
Qed.

Lemma touched_logged hash seen idle w w' : handle (TouchSession hash seen idle) w = (w', Ok tt) ->
  aw_log w' = aw_log w ++ [Touched hash seen] /\ is_Some (db_sessions (aw_db w) !! hash).
Proof.
  set (r := exec_logged (Touched hash seen) (touch_session hash seen idle) w).
  intros E. assert (r.1 = w' /\ (one_row r).2 = Ok tt) as [<- Er] by (split; [exact (f_equal fst E)|exact (f_equal snd E)]).
  unfold one_row in Er. cbn [snd] in Er. destruct r.2 as [n|] eqn:En; [|done]. destruct (Z.eqb_spec n 0) as [|Hn]; [done|].
  apply exec_logged_ok in En as [[d Ed] Hlog]. split; [by apply Hlog|].
  unfold touch_session in Ed. destruct (db_sessions (aw_db w) !! hash); [done|]. by injection Ed.
Qed.

Context (Hle : forall t, timestamptz t <= t).

(** The check in front of a protected handler. *)
Lemma RequireSession_always next r : (forall s, always (next s)) -> always (RequireSession next r).
Proof.
  intros Hnext w. unfold RequireSession. destruct (aq_Cookie r) as [[|c value]|] eqn:Hcookie; [done| |done].
  set (token := String c value) in *. clearbody token.
  apply safe_ask; [done|]. intros w1 w2 session HR1 HI1 E HR2.
  assert (match session with
    | Ok s => ss_TokenHash s = tokenHash token /\
        grounded (tokenHash token) (MkSessionRow (ss_AdminID s) (ss_CSRFToken s) (ss_CreatedAt s) (ss_LastSeenAt s) (ss_IdleExpiresAt s) (ss_ExpiresAt s)) (aw_log w1)
    | Err _ => True end) as Hs.
  { injection E as <- <-. unfold query_statement. simpl. destruct (next_fault w1); [|done..]. unfold find_session.
    destruct (db_sessions (aw_db w1) !! tokenHash token) as [row|] eqn:Hrow; [|done]. destruct (db_admin (aw_db w1)) as [[name hash]|]; [|done].
    split; [done|]. simpl. destruct row. by apply (in_rows w1). }
  clear E. apply safe_ask; [done|]. intros w3 w4 now HR3 HI3 [= <- <-] _.
  destruct session as [session|[]]; [|done|by apply safe_ask]. destruct Hs as [Hhash Hg].
  destruct (_ || _) eqn:Hexp; [by apply safe_ask|]. destruct (unsafeMethod _ && _) eqn:Hcsrf; [done|].
  apply safe_ask; [intros w5 HR5 _; split; [done|apply HR5]|]. intros w5 w6 touched HR5 HI5 E HR6. destruct touched as [[]|]; [|done].
  apply touched_logged in E as [Hlog [row Hrow]].
  apply safe_ask; [|intros w7 w8 [] _ _ _ _; apply Hnext]. intros w7 HR7 HI7. cbn [allowed].
  apply justified_later with (l := aw_log w6); [apply HR7|].
  assert (Rely w1 w5) as HR15 by (etransitivity; [exact HR2|]; etransitivity; [exact HR3|exact HR5]).
  assert (aw_clock w3 <= aw_clock w7) as Hclk by (etransitivity; [apply HR5|]; etransitivity; [apply HR6|apply HR7]).
  apply orb_false_iff in Hexp as [Hexp Hidle]. apply Z.leb_gt in Hexp, Hidle.
  destruct Hg as (s & H1 & _ & Hc & He & [Hin Hk] & _). destruct (in_issued w1 HI1 s Hin) as (Hm1 & Hm2 & Hm3). simpl in Hc, He, Hk.
  destruct (in_rows w5 HI5 _ _ Hrow) as (s' & H2 & _ & _ & _ & _ & Hlive).
  assert (aw_clock w1 <= aw_clock w3) as Hclk1 by (etransitivity; [apply HR2|apply HR3]).
  exists token, (aw_log w5), [], s, s'. cbn [ss_TokenHash ss_LastSeenAt]. split_and!; try done; try lia.
  - eapply prefix_in; [apply HR15|done].
  - pose proof (Hle (ss_ExpiresAt s)). lia.
  - destruct Hk as [Hk|(t & Ht & Hk)]; [left|right].
    + pose proof (Hle (ss_CreatedAt s + idleLifetime)). lia.
    + exists t. pose proof (Hle (t + idleLifetime)). pose proof (in_touched w1 HI1 _ _ Ht). rewrite H1 in Ht.
      split; [eapply prefix_in; [apply HR15|done]|lia].
  - intros Hu. rewrite Hu in Hcsrf. apply negb_false_iff, String.eqb_eq in Hcsrf. congruence.
Qed.

(** ** Requests that run at the same time *)

Abbreviation served := (Auth.served unicode_lower dummyHash).

Lemma protected_always r next : protected r next -> forall s, always (next s).
Proof. intros [] s; [apply Logout_always|apply Password_always|done..]. Qed.

Lemma served_safe token p w : served token p -> Invariant w -> safe p w.
Proof.
  intros [r|r|r next Hn] _; [apply Bootstrap_always|apply Login_always|]. by apply RequireSession_always, protected_always with (r := r).
Qed.

Lemma passes_keeps w w' : passes w w' -> Invariant w -> Invariant w' /\ Rely w w'.
Proof. intros [Hc ->] HI. apply fewer_rows; try done. Qed.

Lemma fresh_invariant w : db_sessions (aw_db w) = ∅ -> aw_log w = [] -> Invariant w.
Proof.
  intros Hs Hl. split; rewrite ?Hl, ?Hs; try set_solver. by intros [|? ?].
Qed.

(** C16. Whatever requests run at the same time, however their calls interleave and
    whichever statements fail: a request reaches a protected handler only with the token
    of a session that was issued less than 24 hours before, at most 30 minutes before its
    check was it issued or last used, it had not been logged out or ended by a change of
    the password when its use was recorded, and a request that can change something
    carried the session's token against forgery. *)
Theorem sessions_justified bootstrapToken w0 ps w : db_sessions (aw_db w0) = ∅ -> aw_log w0 = [] ->
  pool_run (served bootstrapToken) passes w0 (ps, w) ->
  forall before after session r at_, aw_log w = before ++ Entered session r at_ :: after -> justified before session r at_.
Proof.
  intros Hs Hl Hrun before after session r at_.
  destruct (pool_safe _ _ Rely Invariant (served_safe bootstrapToken) passes_keeps w0 (ps, w)) as [HI _]; [by apply fresh_invariant|done|].
  by apply (in_entered w).
Qed.
End sessions.
