(* ===== verification/AuthLogin.v ===== *)
(** * Logins and the limiter

    The limiter counts what it was told, under any interleaving; logins one after another
    get at most five wrong passwords in a quarter of an hour; what a login does. *)

From stdpp Require Import base strings numbers gmap sets list.
From Stdlib Require Import Ascii Sorted.
From S2P Require Import Prelude GoBase GoText Sha256 Effects Sql Base64 PasswordHash Auth AuthTheorems.
Import Concurrent.

Open Scope string_scope.
Open Scope Z_scope.
Local Open Scope flow_scope.
Local Open Scope list_scope.

Section limits.
Context {tz : Timestamptz} (unicode_lower : string -> string) (dummyHash : string) `{!Argon2} `{!AuthBodies}.

#[local] Instance login_handles : Handler auth_call world := auth_handler unicode_lower.

Abbreviation user_key := (Auth.user_key unicode_lower).

(** ** What the limiter was told *)

Definition on_key (key ip username : string) : bool := String.eqb key (ip_key ip) || String.eqb key (user_key username).

Definition attempt (key : string) (times : list time) (e : auth_event) : list time :=
  match e with
  | Guessed ip username t => if on_key key ip username then times ++ [t] else times
  | Proved ip username => if on_key key ip username then [] else times
  | _ => times
  end.

(** The wrong passwords for a key since the last right one. *)
Definition attempts_of (key : string) (log : list auth_event) : list time := foldl (attempt key) [] log.

Definition recent (key : string) (now : time) (log : list auth_event) : list time :=
  filter (fun t => now - loginWindow < t) (attempts_of key log).

Definition spec_blocked (ip username : string) (now : time) (log : list auth_event) : bool :=
  full (recent (ip_key ip) now log) || full (recent (user_key username) now log).

(** The oldest attempts of the keys at their limit. *)
Definition full_heads (keys : list string) (now : time) (log : list auth_event) : list time :=
  omap (fun key => let l := recent key now log in if full l then head l else None) keys.

Definition spec_retry (ip username : string) (now : time) (log : list auth_event) : duration :=
  match full_heads [ip_key ip; user_key username] now log with
  | [] => 0
  | t :: ts => Z.max Second (loginWindow - (now - foldl Z.min t ts))
  end.

Lemma attempts_snoc key log e : attempts_of key (log ++ [e]) = attempt key (attempts_of key log) e.
Proof. unfold attempts_of. by rewrite foldl_app. Qed.

Lemma keys_differ ip username : ip_key ip <> user_key username.
Proof. done. Qed.

Lemma on_key_spec key ip username : on_key key ip username = true <-> key = ip_key ip \/ key = user_key username.
Proof. unfold on_key. by rewrite orb_true_iff, !String.eqb_eq. Qed.

Lemma filter_filter_lt (c1 c2 : Z) (l : list Z) : c1 <= c2 -> filter (Z.lt c2) (filter (Z.lt c1) l) = filter (Z.lt c2) l.
Proof. intros Hc. rewrite list_filter_filter_l; [done|]. intros t. lia. Qed.

Lemma drop_expired_filter c (l : list Z) : Sorted Z.le l -> drop_expired c l = filter (Z.lt c) l.
Proof.
  induction 1 as [|t l Hs IH Hd]; [done|]. simpl. rewrite filter_cons. destruct (Z.leb_spec t c) as [Ht|Ht].
  - rewrite decide_False by lia. done.
  - rewrite decide_True by lia. f_equal. symmetry. apply filter_all. intros x Hx.
    assert (Forall (Z.le t) l) as Hf by (apply Sorted_extends; [intros ???; lia|by constructor]).
    rewrite Forall_forall in Hf. specialize (Hf x Hx). lia.
Qed.
(** ** What it keeps of that *)

(** The list of a key: all but attempts older than a quarter of an hour. *)
Definition kept (now : time) (l x : list time) : Prop := exists cut, cut <= now - loginWindow /\ x = filter (Z.lt cut) l.

Definition timed (now : time) (l : list time) : Prop := Sorted Z.le l /\ Forall (fun t => t <= now) l.

Definition Tracks (f : limiter) (log : list auth_event) (now : time) : Prop :=
  forall key, kept now (attempts_of key log) (default [] (f !! key)) /\ timed now (attempts_of key log).

Lemma sorted_filter c (l : list Z) : Sorted Z.le l -> Sorted Z.le (filter (Z.lt c) l).
Proof.
  intros Hs. apply StronglySorted_Sorted. apply Sorted_StronglySorted in Hs; [|intros ???; lia].
  induction Hs as [|t l Hs IH Hf]; [constructor|]. rewrite filter_cons. destruct (decide _); [|done]. constructor; [done|].
  apply Forall_forall. intros x [_ Hx]%list_elem_of_filter. rewrite Forall_forall in Hf. by apply Hf.
Qed.

Lemma current_lookup key now f k :
  default [] ((current key now f).1 !! k) =
  if decide (k = key) then drop_expired (now - loginWindow) (default [] (f !! key)) else default [] (f !! k).
Proof.
  unfold current. cbn [fst]. destruct (drop_expired _ _) as [|t l]; destruct (decide (k = key)) as [-> |Hk]; by simplify_map_eq.
Qed.

Lemma current_recent key now f log : Tracks f log now -> (current key now f).2 = recent key now log.
Proof.
  intros Ht. destruct (Ht key) as [(cut & Hc & Hx) [Hs _]]. unfold current, recent. cbn [snd]. rewrite Hx, drop_expired_filter.
  - by rewrite filter_filter_lt.
  - by apply sorted_filter.
Qed.

Lemma kept_recent key now log : kept now (attempts_of key log) (recent key now log).
Proof. exists (now - loginWindow). split; [lia|done]. Qed.

Lemma current_tracks key now f log : Tracks f log now -> Tracks (current key now f).1 log now.
Proof.
  intros Ht k. split; [|apply Ht]. rewrite current_lookup. destruct (decide _) as [-> |_]; [|apply Ht].
  change (drop_expired _ _) with (current key now f).2. rewrite (current_recent _ _ _ _ Ht). apply kept_recent.
Qed.

Lemma fail_key_lookup now f key k :
  default [] (fail_key now f key !! k) =
  if decide (k = key) then (current key now f).2 ++ [now] else default [] (f !! k).
Proof.
  unfold fail_key. destruct (current key now f) as [g attempts] eqn:E. destruct (decide (k = key)) as [-> |Hk]; [by simplify_map_eq|].
  rewrite lookup_insert_ne by done. replace g with (current key now f).1 by by rewrite E. rewrite current_lookup. by rewrite decide_False.
Qed.

Lemma current_same key now f g : default [] (f !! key) = default [] (g !! key) -> (current key now f).2 = (current key now g).2.
Proof. unfold current. cbn [snd]. by intros ->. Qed.

Lemma timed_snoc now l : timed now l -> timed now (l ++ [now]).
Proof.
  intros [Hs Hf]. split; [|apply Forall_app_2; [done|by repeat constructor]].
  induction Hs as [|t l Hs IH Hd]; [by repeat constructor|]. inversion Hf; subst. simpl. constructor; [by apply IH|].
  destruct Hd; simpl; by constructor.
Qed.

Lemma kept_snoc key now log : kept now (attempts_of key log ++ [now]) (recent key now log ++ [now]).
Proof.
  exists (now - loginWindow). split; [lia|]. rewrite filter_app. f_equal. rewrite filter_cons, decide_True; [done|].
  unfold loginWindow, Minute, Second. lia.
Qed.

Lemma failed_tracks ip username now f log : Tracks f log now ->
  Tracks (Failed unicode_lower ip username now f) (log ++ [Guessed ip username now]) now.
Proof.
  intros Ht key. rewrite attempts_snoc. cbn [attempt]. unfold Failed. cbn [foldl]. rewrite !fail_key_lookup.
  pose proof (keys_differ ip username) as Hd. destruct (Ht key) as [Hk Hw].
  destruct (on_key key ip username) eqn:Ho.
  - split; [|by apply timed_snoc]. apply on_key_spec in Ho as [-> | ->].
    + rewrite decide_False, decide_True by done. rewrite (current_recent _ _ _ _ Ht). apply kept_snoc.
    + rewrite decide_True by done. rewrite (current_same _ _ _ f), (current_recent _ _ _ _ Ht); [apply kept_snoc|].
      rewrite fail_key_lookup. by rewrite decide_False.
  - split; [|done]. apply not_true_iff_false in Ho. rewrite on_key_spec in Ho. rewrite !decide_False by tauto. done.
Qed.

Lemma succeeded_tracks ip username now f log : Tracks f log now ->
  Tracks (Succeeded unicode_lower ip username f) (log ++ [Proved ip username]) now.
Proof.
  intros Ht key. rewrite attempts_snoc. cbn [attempt]. unfold Succeeded. destruct (on_key key ip username) eqn:Ho.
  - replace (default [] _) with (@nil time); [split; [|by split]|].
    + exists (now - loginWindow). split; [lia|done].
    + apply on_key_spec in Ho as [-> | ->]; [rewrite lookup_delete_ne by done|]; by rewrite lookup_delete_eq.
  - apply not_true_iff_false in Ho. rewrite on_key_spec in Ho. rewrite !lookup_delete_ne by naive_solver. apply Ht.
Qed.

Lemma blocked_spec ip username now f log : Tracks f log now ->
  (Blocked unicode_lower ip username now f).2 = spec_blocked ip username now log /\
  Tracks (Blocked unicode_lower ip username now f).1 log now.
Proof.
  intros Ht. unfold Blocked, spec_blocked. pose proof (current_recent (ip_key ip) now f log Ht) as E1.
  pose proof (current_tracks (ip_key ip) now f log Ht) as Ht1. destruct (current (ip_key ip) now f) as [f1 l1]. simpl in E1, Ht1. subst l1.
  destruct (full _); [done|]. pose proof (current_recent (user_key username) now f1 log Ht1) as E2.
  pose proof (current_tracks (user_key username) now f1 log Ht1) as Ht2. destruct (current (user_key username) now f1) as [f2 l2].
  simpl in E2, Ht2. by subst l2.
Qed.

Lemma oldest_full_spec keys now log : forall f o, Tracks f log now ->
  let r := oldest_full keys now f o in
  Tracks r.1 log now /\
  r.2 = match o with
        | Some t => Some (foldl Z.min t (full_heads keys now log))
        | None => match full_heads keys now log with [] => None | t :: ts => Some (foldl Z.min t ts) end
        end.
Proof.
  induction keys as [|key keys IH]; intros f o Ht; cbv zeta; [by destruct o|].
  cbn [oldest_full]. pose proof (current_recent key now f log Ht) as E1. pose proof (current_tracks key now f log Ht) as Ht1.
  destruct (current key now f) as [f1 l1]. simpl in E1, Ht1. subst l1. unfold full_heads. cbn [omap list_omap].
  fold (full_heads keys now log). destruct (full (recent key now log)) eqn:Hfull.
  - destruct (recent key now log) as [|t l]; [done|]. simpl.
    destruct o as [o|]; [|apply (IH f1 (Some t) Ht1)]. 
    destruct (Z.ltb_spec t o) as [Hto|Hto].
    + rewrite Z.min_r by lia. apply (IH f1 (Some t) Ht1).
    + rewrite Z.min_l by lia. apply (IH f1 (Some o) Ht1).
  - simpl. replace (match recent key now log with [] => o | _ :: _ => o end) with o by by destruct (recent key now log).
    apply (IH f1 o Ht1).
Qed.

Lemma retry_spec ip username now f log : Tracks f log now ->
  (RetryAfter unicode_lower ip username now f).2 = spec_retry ip username now log /\
  Tracks (RetryAfter unicode_lower ip username now f).1 log now.
Proof.
  intros Ht. unfold RetryAfter, spec_retry.
  destruct (oldest_full_spec [ip_key ip; user_key username] now log f None Ht) as [Ht1 E].
  destruct (oldest_full _ _ _ _) as [f1 o]. cbn [fst snd] in Ht1, E |- *. subst o. split; [|done].
  destruct (full_heads _ _ _) as [|t ts]; [done|]. destruct (Z.ltb_spec (loginWindow - (now - foldl Z.min t ts)) Second); lia.
Qed.

Lemma tracks_later f log now now' : now <= now' -> Tracks f log now -> Tracks f log now'.
Proof.
  intros Hn Ht key. destruct (Ht key) as [(cut & Hc & Hx) [Hs Hf]]. split.
  - exists cut. split; [lia|done].
  - split; [done|]. eapply Forall_impl; [exact Hf|]. simpl. lia.
Qed.

Lemma tracks_same f log log' now : (forall key, attempts_of key log' = attempts_of key log) -> Tracks f log now -> Tracks f log' now.
Proof. intros E Ht key. rewrite E. apply Ht. Qed.
(** ** Calls *)

Abbreviation tracked := (fun w => Tracks (aw_limiter w) (aw_log w) (aw_clock w)).

(** What a call does to the limiter, and what it writes about it. *)
Definition told {X} (c : auth_call X) (now : time) (f : limiter) : limiter :=
  match c with
  | LimiterBlocked ip username => (Blocked unicode_lower ip username now f).1
  | LimiterFailed ip username => Failed unicode_lower ip username now f
  | LimiterSucceeded ip username => Succeeded unicode_lower ip username f
  | LimiterRetryAfter ip username => (RetryAfter unicode_lower ip username now f).1
  | _ => f
  end.

Definition telling {X} (c : auth_call X) (now : time) (times : list time) (key : string) : list time :=
  match c with
  | LimiterFailed ip username => attempt key times (Guessed ip username now)
  | LimiterSucceeded ip username => attempt key times (Proved ip username)
  | _ => times
  end.

Lemma exec_logged_attempts e f w key : (match e with Guessed _ _ _ | Proved _ _ => False | _ => True end) ->
  attempts_of key (aw_log (exec_logged e f w).1) = attempts_of key (aw_log w).
Proof.
  intros He. unfold exec_logged, exec_statement. cbn [fst]. destruct (took_effect f w); [|done]. simpl. rewrite attempts_snoc. by destruct e.
Qed.

Lemma exec_logged_same e f w :
  aw_clock (exec_logged e f w).1 = aw_clock w /\ aw_limiter (exec_logged e f w).1 = aw_limiter w.
Proof. unfold exec_logged, exec_statement. cbn [fst]. by destruct (took_effect f w). Qed.

Lemma call_world {X} (c : auth_call X) w :
  aw_clock (handle c w).1 = aw_clock w /\ aw_limiter (handle c w).1 = told c (aw_clock w) (aw_limiter w) /\
  forall key, attempts_of key (aw_log (handle c w).1) = telling c (aw_clock w) (attempts_of key (aw_log w)) key.
Proof.
  destruct c; split_and!; try reflexivity; try (by apply exec_logged_same); intros key.
  all: first [reflexivity|by apply exec_logged_attempts|apply attempts_snoc].
Qed.

Lemma call_tracks {X} (c : auth_call X) w : tracked w -> tracked (handle c w).1.
Proof.
  intros Ht. destruct (call_world c w) as (Hc & Hf & Hl). rewrite Hc, Hf. destruct c;
    try (eapply tracks_same; [exact Hl|]); try exact Ht; cbn [told]; cbv beta in Ht.
  - by apply blocked_spec.
  - eapply tracks_same; [|by apply failed_tracks]. intros key. rewrite attempts_snoc. apply Hl.
  - eapply tracks_same; [|by apply succeeded_tracks]. intros key. rewrite attempts_snoc. apply Hl.
  - by apply retry_spec.
Qed.

Lemma any_safe {A} (p : prog auth_call A) w : Concurrent.safe (fun _ _ => True) tracked p w.
Proof.
  revert w. induction p as [a|X c k IH]; [done|]. intros w w1 _ Ht. split_and!; [by apply call_tracks|done|apply IH].
Qed.

(** C18. The limiter is exact under any interleaving of requests: it blocks a login when
    five wrong passwords for the address or for the name were told within the last 15
    minutes and since the last right one, and asks to wait until the oldest of those is
    15 minutes old, at least a second. *)
Theorem limiter_exact bootstrapToken w0 ps w ip username : aw_limiter w0 = ∅ -> aw_log w0 = [] ->
  pool_run (served unicode_lower dummyHash bootstrapToken) passes w0 (ps, w) ->
  (Blocked unicode_lower ip username (aw_clock w) (aw_limiter w)).2 = spec_blocked ip username (aw_clock w) (aw_log w) /\
  (RetryAfter unicode_lower ip username (aw_clock w) (aw_limiter w)).2 = spec_retry ip username (aw_clock w) (aw_log w).
Proof.
  intros Hf Hl Hrun.
  assert (tracked w0) as Ht0.
  { intros key. rewrite Hf, Hl. split; [|by split]. exists (aw_clock w0 - loginWindow). split; [lia|done]. }
  assert (PreOrder (fun _ _ : world => True)) as Hpre by done.
  destruct (pool_safe (served unicode_lower dummyHash bootstrapToken) passes (fun _ _ => True) tracked) with (w0 := w0) (c := (ps, w)) as [Ht _]; try done.
  - intros p v _ _. apply any_safe.
  - intros v v' [Hc ->] Hv. split; [|done]. by eapply tracks_later.
  - split; [by apply blocked_spec|by apply retry_spec].
Qed.

(** ** One login after another *)

Definition in_window (from : time) (l : list time) : list time := filter (fun t => from < t <= from + loginWindow) l.

Definition Bounded (log : list auth_event) : Prop :=
  forall key from, (length (in_window from (attempts_of key log)) <= maxLoginFailures)%nat.

Definition counted (w : world) : Prop := tracked w /\ Bounded (aw_log w).

Lemma full_spec l : full l = false -> (length l < maxLoginFailures)%nat.
Proof. unfold full. rewrite Nat.leb_gt. done. Qed.

(** One more wrong password where there were less than five. *)
Lemma window_snoc now from l : full (filter (fun t => now - loginWindow < t) l) = false -> Forall (fun t => t <= now) l ->
  (length (in_window from l) <= maxLoginFailures)%nat -> (length (in_window from (l ++ [now])) <= maxLoginFailures)%nat.
Proof.
  intros Hfull%full_spec Hf Hb. unfold in_window in *. rewrite filter_app, length_app. rewrite (filter_cons _ now []). destruct (decide _) as [Hin|_].
  - rewrite filter_nil, Nat.add_1_r. apply Nat.le_succ_l. eapply Nat.le_lt_trans; [|exact Hfull]. apply submseteq_length.
    clear - Hin Hf. induction Hf as [|t l Ht Hf IH]; [done|]. rewrite !filter_cons.
    destruct (decide (from < t <= _)), (decide (now - _ < t)); [by apply submseteq_skip|lia|by apply submseteq_cons|done].
  - rewrite filter_nil, Nat.add_0_r. done.
Qed.

Lemma failed_counted ip username w : counted w -> spec_blocked ip username (aw_clock w) (aw_log w) = false ->
  counted (handle (LimiterFailed ip username) w).1.
Proof.
  intros [Ht Hb] [H1 H2]%orb_false_iff. split; [by apply call_tracks|]. intros key from.
  destruct (call_world (LimiterFailed ip username) w) as (_ & _ & ->). cbn [telling attempt].
  destruct (on_key key ip username) eqn:Ho; [|apply Hb]. destruct (Ht key) as [_ [_ Hf]].
  apply window_snoc; [|done|apply Hb]. apply on_key_spec in Ho as [-> | ->]; done.
Qed.

(** The other calls make the bound no harder. *)
Definition no_guess {X} (c : auth_call X) : Prop := match c with LimiterFailed _ _ => False | _ => True end.

Lemma other_counted X (c : auth_call X) w : no_guess c -> counted w -> counted (handle c w).1.
Proof.
  intros Hn [Ht Hb]. split; [by apply call_tracks|]. intros key from. destruct (call_world c w) as (_ & _ & ->).
  destruct c; try done; cbn [telling]; try apply Hb. cbn [attempt]. case_match; [|apply Hb]. simpl. lia.
Qed.
Lemma exec_call {X A} (c : auth_call X) (k : X -> prog auth_call A) w : exec (prog_bind (call c) k) w = exec (k (handle c w).2) (handle c w).1.
Proof. done. Qed.

Abbreviation quiet := (every_call (fun X (c : auth_call X) => no_guess c)).

Lemma quiet_counted {A} (p : prog auth_call A) w : quiet p -> counted w -> counted (exec p w).1.
Proof. apply exec_keeps. intros X c v. apply other_counted. Qed.

Lemma startSession_quiet admin status : quiet (startSession admin status).
Proof. simpl. repeat first [split; [done|]|intros ?|case_match; try done]. Qed.

Lemma rehash_quiet needed admin password k : quiet k -> quiet (rehash needed admin password k).
Proof.
  intros Hk. unfold rehash, Hash. destruct needed; [|done]. destruct (_ || _); [done|]. split; [done|]. by intros [salt|].
Qed.

(** Whether the password of a login gets compared, and turns out wrong. *)
Definition wrong_password (r : auth_request) (w : world) : option (string * string) :=
  match read_credentials (take max_body (aq_Body r)) with
  | None => None
  | Some (username, password) =>
      let username := normalizeUsername unicode_lower username in
      if spec_blocked (clientIP r) username (aw_clock w) (aw_log w) then None
      else
        let admin := match next_fault w with Committed => find_admin username (aw_db w) | _ => Err DatabaseError end in
        let hash := match admin with Ok a => adm_PasswordHash a | Err _ => dummyHash end in
        match admin with
        | Ok _ => if (Verify password hash DefaultParams).1 then None else Some (clientIP r, username)
        | Err _ => Some (clientIP r, username)
        end
  end.

Lemma Login_wrong r w ip username : tracked w -> wrong_password r w = Some (ip, username) ->
  spec_blocked ip username (aw_clock w) (aw_log w) = false /\
  exists w', aw_clock w' = aw_clock w /\ aw_log w' = aw_log w /\ tracked w' /\
    exec (Login unicode_lower dummyHash r) w =
    exec (let! blocked := call (E := auth_call) (X := bool) (LimiterBlocked ip username) in
          if blocked then writeRateLimit ip username else Ret (writeAuthError 401 "invalid_credentials")) (handle (LimiterFailed ip username) w').1.
Proof.
  intros Ht. unfold wrong_password, Login, decodeJSON. destruct (read_credentials _) as [[name password]|]; [|done].
  set (u := normalizeUsername unicode_lower name). destruct (blocked_spec (clientIP r) u _ _ _ Ht) as [Eb Htb].
  destruct (spec_blocked _ _ _ _) eqn:Hb; [done|]. intros Hw.
  rewrite exec_call. change (handle (LimiterBlocked (clientIP r) u) w).2 with (Blocked unicode_lower (clientIP r) u (aw_clock w) (aw_limiter w)).2.
  rewrite Eb. set (w1 := (handle (LimiterBlocked (clientIP r) u) w).1). rewrite exec_call. set (w2 := (handle (FindAdmin u) w1).1).
  change (handle (FindAdmin u) w1).2 with (match next_fault w with Committed => find_admin u (aw_db w) | _ => Err DatabaseError end).
  assert (aw_clock w2 = aw_clock w /\ aw_log w2 = aw_log w /\ tracked w2) as (H1 & H2 & H3) by done.
  destruct (match next_fault w with Committed => _ | _ => _ end) as [a|e].
  - destruct (Verify password (adm_PasswordHash a) DefaultParams) as [[] needs] eqn:Ev; cbn [fst] in Hw; [done|]. injection Hw as <- <-. split; [done|]. by exists w2.
  - injection Hw as <- <-. split; [done|]. exists w2. by destruct (Verify password dummyHash DefaultParams).
Qed.

Lemma Login_quiet r w : tracked w -> wrong_password r w = None ->
  exists p w', quiet p /\ exec (Login unicode_lower dummyHash r) w = exec p w' /\ (counted w -> counted w').
Proof.
  intros Ht. unfold wrong_password, Login, decodeJSON. destruct (read_credentials _) as [[name password]|]; [|by eexists (Ret _), w].
  set (u := normalizeUsername unicode_lower name). destruct (blocked_spec (clientIP r) u _ _ _ Ht) as [Eb Htb]. intros Hw.
  rewrite exec_call. change (handle (LimiterBlocked (clientIP r) u) w).2 with (Blocked unicode_lower (clientIP r) u (aw_clock w) (aw_limiter w)).2.
  rewrite Eb. set (w1 := (handle (LimiterBlocked (clientIP r) u) w).1). destruct (spec_blocked _ _ _ _).
  { exists (writeRateLimit (clientIP r) u), w1. split_and!; [by split|done|by apply other_counted]. }
  rewrite exec_call. set (w2 := (handle (FindAdmin u) w1).1).
  change (handle (FindAdmin u) w1).2 with (match next_fault w with Committed => find_admin u (aw_db w) | _ => Err DatabaseError end).
  destruct (match next_fault w with Committed => _ | _ => _ end) as [a|e]; [|done].
  destruct (Verify password (adm_PasswordHash a) DefaultParams) as [[] needs] eqn:Ev; cbn [fst] in Hw; [|done].
  eexists _, w2. split_and!; [|done|intros Hc; apply other_counted; [done|by apply other_counted]].
  apply rehash_quiet. split; [done|]. intros x. apply startSession_quiet.
Qed.

(** Logins one after another, with other requests in between. *)
Inductive logins (w0 : world) : world -> Prop :=
| NoLogin : logins w0 w0
| NextLogin w r : logins w0 w -> logins w0 (exec (Login unicode_lower dummyHash r) w).1
| Between w w' : logins w0 w -> aw_clock w <= aw_clock w' -> aw_limiter w' = aw_limiter w ->
    (forall key, attempts_of key (aw_log w') = attempts_of key (aw_log w)) -> logins w0 w'.

Lemma Login_counted r w : counted w -> counted (exec (Login unicode_lower dummyHash r) w).1.
Proof.
  intros Hc. destruct (wrong_password r w) as [[ip username]|] eqn:Hw.
  - apply Login_wrong in Hw as (Hb & w' & H1 & H2 & H3 & ->); [|apply Hc]. apply quiet_counted.
    + split; [done|]. intros []; [by split|done].
    + apply failed_counted; [|by rewrite H1, H2]. split; [done|]. rewrite H2. apply Hc.
  - apply Login_quiet in Hw as (p & w' & Hq & -> & Hk); [|apply Hc]. by apply quiet_counted, Hk.
Qed.

Lemma logins_counted w0 w : counted w0 -> logins w0 w -> counted w.
Proof.
  intros Hw0. induction 1 as [|w r _ IH|w w' _ [Ht Hb] Hc Hf Hl]; [done|by apply Login_counted|]. split.
  - rewrite Hf. eapply tracks_same; [exact Hl|]. by eapply tracks_later.
  - intros key from. rewrite Hl. apply Hb.
Qed.

(** C19. When logins run one after another, no span of 15 minutes holds more than five
    wrong passwords for an address, or for a user name, without a right one in between;
    and every login whose password is compared and found wrong is counted. *)
Theorem five_guesses w0 w : aw_limiter w0 = ∅ -> aw_log w0 = [] -> logins w0 w ->
  (forall key from, (length (in_window from (attempts_of key (aw_log w))) <= 5)%nat) /\
  (forall r ip username, wrong_password r w = Some (ip, username) -> forall key, key = ip_key ip \/ key = user_key username ->
    attempts_of key (aw_log (exec (Login unicode_lower dummyHash r) w).1) = attempts_of key (aw_log w) ++ [aw_clock w]).
Proof.
  intros Hf Hl Hrun. assert (counted w) as [Ht Hb].
  { eapply logins_counted; [|done]. split.
    - intros key. rewrite Hf, Hl. split; [|by split]. exists (aw_clock w0 - loginWindow). split; [lia|done].
    - intros key from. rewrite Hl. unfold maxLoginFailures. simpl. lia. }
  split; [exact Hb|]. intros r ip username Hw key Hkey%on_key_spec. apply Login_wrong in Hw as (_ & w' & Hc & Hlog & _ & ->); [|done].
  rewrite exec_call. set (w'' := (handle (LimiterFailed ip username) w').1).
  assert (attempts_of key (aw_log w'') = attempts_of key (aw_log w) ++ [aw_clock w]) as <-.
  { destruct (call_world (LimiterFailed ip username) w') as (_ & _ & ->). cbn [telling attempt]. by rewrite Hkey, Hlog, Hc. }
  destruct (handle _ w'').2; [|done]. done.
Qed.
End limits.

Module DemoAuth.

#[local] Instance tz : Timestamptz := fun t => t / 1000 * 1000.

(** A stand-in for Argon2id; a body is a password, of the user [ada]. *)
#[local] Instance key : Argon2 := fun password salt t m p n => take (Z.to_nat n) ((code <$> chars password) ++ salt ++ repeat 0 (Z.to_nat n)).

#[local] Instance bodies : AuthBodies := {
  read_credentials body := Some (" Ada", of_chars (char_of <$> body));
  read_change body := None }.

Definition stored : string := hash_with "correct horse" DefaultParams (repeat 7 16).

Definition lower (s : string) : string := s.

Definition post (ip password : string) : auth_request :=
  MkAuthRequest "POST" "" (ip +:+ ":4000") None "" (code <$> chars password).

Definition bytes_of (z : Z) : option (list Z) := Some (repeat z 32).

Definition start : Z := 1000 * Hour.

Definition w0 : world :=
  MkWorld (MkAuthDb (Some ("ada", stored)) ∅) ∅ start [bytes_of 1; bytes_of 2] [] [].

Definition login := Login lower "" (post "10.0.0.7" "correct horse").

(** The token of the session and its value against forgery. *)
Definition token := encodeToken (repeat 1 32).
Definition csrf := encodeToken (repeat 2 32).

Definition with_cookie (method : string) : auth_request := MkAuthRequest method "" "10.0.0.7:4000" (Some token) csrf [].

#[local] Instance demo_handles : Handler auth_call world := auth_handler lower.

Example login_answers : (exec login w0).2 =
  MkAuthResponse 200 "" (Some (SessionCookie token (start + absoluteLifetime))) None (Some ("ada", csrf)).
Proof. vm_compute. reflexivity. Qed.

Definition later (d : duration) (w : world) : world :=
  MkWorld (aw_db w) (aw_limiter w) (aw_clock w + d) (aw_random w) (aw_faults w) (aw_log w).

(** Ten minutes after the login, a logout and a look at the session overlap; a third
    request comes when the logout is done. *)
Definition requests : list (prog auth_call auth_response) := 
  [RequireSession Logout (with_cookie "POST"); RequireSession SessionHandler (with_cookie "GET"); RequireSession SessionHandler (with_cookie "GET")].

Definition c1 := pool_calls (start_all 0 [login] (fun _ => None, w0)) [0; 0; 0; 0; 0; 0; 0]%nat.
Definition c2 : (nat -> option (prog auth_call auth_response)) * world := (c1.1, later (10 * Minute) c1.2).
Definition c3 := pool_calls (start_all 1 requests c2) [1; 2; 1; 2; 1; 2; 1; 1; 2; 3; 3; 3]%nat.

Definition status (p : option (prog auth_call auth_response)) : option Z :=
  match p with Some (Ret a) => Some (ar_Status a) | _ => None end.

Example overlapping_answers : ((fun i => status (c3.1 i)) <$> seq 0 4) = [Some 200; Some 204; Some 200; Some 401].
Proof. vm_compute. reflexivity. Qed.

Lemma tz_below t : timestamptz t <= t.
Proof. unfold timestamptz, tz. pose proof (Z.mul_div_le t 1000). lia. Qed.

Abbreviation demo_run := (pool_run (served lower "" "bootstrap secret") passes w0).

Lemma c1_run : demo_run c1.
Proof. apply pool_calls_run, start_all_run; [repeat constructor|done|constructor]. Qed.

Lemma c2_run : demo_run c2.
Proof.
  eapply PoolNext; [exact c1_run|]. unfold c2. destruct c1 as [ps w]. apply PoolTick. split; [|done].
  simpl. unfold Minute, Second. lia.
Qed.

Lemma c3_run : demo_run c3.
Proof.
  apply pool_calls_run, start_all_run; [repeat constructor| |exact c2_run].
  intros [|j] Hj; [lia|]. vm_compute. reflexivity.
Qed.

(** The look at the session, entered while it was being logged out. *)
Lemma sessions_justified_witness :
  match aw_log c3.2 !! 6%nat with
  | Some (Entered session r at_) => justified (take 6 (aw_log c3.2)) session r at_
  | _ => False
  end.
Proof.
  assert (exists session r at_, aw_log c3.2 !! 6%nat = Some (Entered session r at_)) as (session & r & at_ & E)
    by (vm_compute; do 3 eexists; reflexivity).
  rewrite E.
  apply (sessions_justified lower "" tz_below "bootstrap secret" w0 c3.1 c3.2) with (after := drop 7 (aw_log c3.2)).
  - reflexivity.
  - reflexivity.
  - pose proof c3_run as H. destruct c3 as [ps w]. exact H.
  - symmetry. apply take_drop_middle. exact E.
Defined.

(** ** The limiter *)

Definition guess (password : string) := Login lower "" (post "10.0.0.9" password).

(** Six logins at the same time. *)
Definition crowd := pool_calls (start_all 0 (repeat (guess "wrong") 6) (fun _ => None, w0)) ([0; 1; 2; 3; 4; 5] ++ [0; 0; 0; 1; 1; 1; 2; 2; 2; 3; 3; 3; 4; 4; 4; 4; 5; 5; 5; 5])%nat.

Lemma crowd_run : demo_run crowd.
Proof. apply pool_calls_run, start_all_run; [repeat constructor|done|constructor]. Qed.

Lemma limiter_exact_witness :
  (Blocked lower "10.0.0.9" "ada" (aw_clock crowd.2) (aw_limiter crowd.2)).2 =
  spec_blocked lower "10.0.0.9" "ada" (aw_clock crowd.2) (aw_log crowd.2).
Proof.
  apply (limiter_exact lower "" "bootstrap secret" w0 crowd.1 crowd.2 "10.0.0.9" "ada").
  - reflexivity.
  - reflexivity.
  - pose proof crowd_run as H. destruct crowd as [ps w]. exact H.
Defined.

(** All six passwords are compared: each login asks the limiter before any other tells it
    of a wrong password. *)
Example six_guesses : length (attempts_of lower (user_key lower "ada") (aw_log crowd.2)) = 6%nat.
Proof. vm_compute. reflexivity. Qed.

Fixpoint one_by_one (requests : list auth_request) (w : world) : world :=
  match requests with
  | [] => w
  | r :: rest => one_by_one rest (exec (Login lower "" r) w).1
  end.

Lemma one_by_one_logins requests w w' : logins lower "" w w' -> logins lower "" w (one_by_one requests w').
Proof. revert w'. induction requests as [|r rest IH]; intros w' Hw; [done|]. apply IH. by apply NextLogin. Qed.

Definition guessed := one_by_one (repeat (post "10.0.0.9" "wrong") 7) w0.

Lemma five_guesses_witness : Nat.le (length (in_window (start - 1) (attempts_of lower (user_key lower "ada") (aw_log guessed)))) 5.
Proof.
  apply (five_guesses lower "" w0 guessed).
  - reflexivity.
  - reflexivity.
  - apply one_by_one_logins. constructor.
Defined.

Example guessed_five : length (in_window (start - 1) (attempts_of lower (user_key lower "ada") (aw_log guessed))) = 5%nat.
Proof. vm_compute. reflexivity. Qed.

(** Five wrong passwords for the name from one address, and for the address five minutes
    later with another name: the wait that is asked for is the shorter, and the login is
    still blocked after it. *)
Definition spread : world :=
  let w := one_by_one (repeat (post "10.0.0.9" "wrong") 5) w0 in
  let f := foldl (fun f _ => Failed lower "10.0.0.7" "bob" (start + 5 * Minute) f) (aw_limiter w) (seq 0 5) in
  MkWorld (aw_db w) f (start + 6 * Minute) (aw_random w) (aw_faults w) (aw_log w).

Example wait_too_short :
  let wait := (RetryAfter lower "10.0.0.7" "ada" (aw_clock spread) (aw_limiter spread)).2 in
  wait = 9 * Minute /\ (Blocked lower "10.0.0.7" "ada" (aw_clock spread + wait) (aw_limiter spread)).2 = true.
Proof. vm_compute. done. Qed.

(** A read of the session that fails makes the check delete the session. *)
Definition faulty (w : world) : world :=
  MkWorld (aw_db w) (aw_limiter w) (aw_clock w) (aw_random w) [CommitRefused] (aw_log w).

Example lost_session :
  (exec (RequireSession SessionHandler (with_cookie "GET")) c2.2).2.(ar_Status) = 200 /\
  (exec (RequireSession SessionHandler (with_cookie "GET")) (exec (RequireSession SessionHandler (with_cookie "GET")) (faulty c2.2)).1).2.(ar_Status) = 401.
Proof. vm_compute. done. Qed.

(** The secret without the scheme is taken too. *)
Example bare_token : bearerMatches "bootstrap secret" "bootstrap secret" = true.
Proof. reflexivity. Qed.
End DemoAuth.
