(* ===== verification/Enrollment.v ===== *)
(** * Enrollment of agents

    [internal/server/enrollment/handler.go]: an administrator makes a ticket, an agent
    trades it for the agent token.  The handlers run at the same time; what one does under
    the mutex is one call. *)

From stdpp Require Import base strings numbers gmap list.
From Stdlib Require Import Ascii.
From S2P Require Import Prelude GoBase GoText Sha256 Effects Base64 Auth.
Import Concurrent.

Open Scope string_scope.
Open Scope Z_scope.
Local Open Scope flow_scope.
Local Open Scope list_scope.

Definition lifetime : duration := 10 * Minute.

(** ** Calls *)

Inductive enroll_call : Type -> Type :=
| EnrollRandom : enroll_call (option (list Z))
| EnrollNow : enroll_call time
| AddTicket (hash : list Z) (expires : time) : enroll_call unit
| TakeTicket (hash : list Z) : enroll_call (option time).

(** [en_random]: what the coming reads of random bytes give.  [en_made] is written for the
    theorems: the tickets ever made, with their expiry and when they were made. *)
Record enrollment : Type := MkEnrollment {
  en_tickets : gmap (list Z) time; en_clock : time; en_random : list (option (list Z)); en_made : list (list Z * time * time) }.

(** The loop over the tickets of [Create] and the insertion. *)
Definition add_ticket (hash : list Z) (expires now : time) (tickets : gmap (list Z) time) : gmap (list Z) time :=
  <[hash := expires]> (filter (fun kv : list Z * time => now < kv.2) tickets).

#[export] Instance enroll_handler : Handler enroll_call enrollment := fun X c w =>
  match c with
  | EnrollRandom =>
      (MkEnrollment (en_tickets w) (en_clock w) (tail (en_random w)) (en_made w),
       match en_random w with Some bs :: _ => Some (take 32 bs) | _ => None end)
  | EnrollNow => (w, en_clock w)
  | AddTicket hash expires =>
      (MkEnrollment (add_ticket hash expires (en_clock w) (en_tickets w)) (en_clock w) (en_random w) (en_made w ++ [(hash, expires, en_clock w)]), tt)
  | TakeTicket hash =>
      (MkEnrollment (delete hash (en_tickets w)) (en_clock w) (en_random w) (en_made w), en_tickets w !! hash)
  end.

(** ** Handlers *)

(** [ea_presented] is the token a request came with and [ea_at] the time of the check,
    for the theorems. *)
Record enroll_answer : Type := MkEnrollAnswer {
  ea_status : Z; ea_ticket : option (string * time); ea_agent_token : option string;
  ea_presented : string; ea_at : time }.

Definition enroll_error (status : Z) : enroll_answer := MkEnrollAnswer status None None "" 0.

Abbreviation enroller := (prog enroll_call enroll_answer).

Definition CreateTicket : enroller :=
  let! value := call EnrollRandom in
  match value with
  | None => Ret (enroll_error 500)
  | Some value =>
      let token := encodeToken value in
      let! now := call EnrollNow in
      let expiresAt := now + lifetime in
      let! _ := call (AddTicket (tokenHash token) expiresAt) in
      Ret (MkEnrollAnswer 201 (Some (token, expiresAt)) None "" 0)
  end.

Definition bearer : string := "Bearer ".

Definition Redeem (agentToken authorization : string) : enroller :=
  let token := trim_prefix authorization bearer in
  if negb (has_prefix authorization bearer) || String.eqb token "" then Ret (enroll_error 401)
  else
    let! found := call (TakeTicket (tokenHash token)) in
    match found with
    | None => Ret (enroll_error 401)
    | Some expiresAt =>
        let! now := call EnrollNow in
        if now <? expiresAt then Ret (MkEnrollAnswer 200 None (Some agentToken) token now) else Ret (enroll_error 401)
    end.

(** ** Tickets are good once *)

Definition enroll_passes (w w' : enrollment) : Prop :=
  en_clock w <= en_clock w' /\ w' = MkEnrollment (en_tickets w) (en_clock w') (en_random w) (en_made w).

Section once.
Context (agentToken : string).

Definition enroll_starts (p : enroller) : Prop := p = CreateTicket \/ exists authorization, p = Redeem agentToken authorization.

(** The ticket an answer was given for. *)
Definition paid (made : list (list Z * time * time)) (r : enroll_answer) (n : nat) : Prop :=
  exists expires at_, made !! n = Some (tokenHash (ea_presented r), expires, at_) /\ ea_at r < expires /\ expires <= at_ + lifetime.

(** A program that has taken ticket [claim] gives the agent token for it alone, takes at
    most one, and makes none that is good for more than ten minutes. *)
Fixpoint honest (p : enroller) (claim : option nat) (made : list (list Z * time * time)) (clock : time) : Prop :=
  match p with
  | Ret r => ea_agent_token r = None \/ exists n, claim = Some n /\ paid made r n
  | Vis c k =>
      match c in enroll_call X return (X -> enroller) -> Prop with
      | TakeTicket hash => fun k => claim = None /\ honest (k None) None made clock /\
          forall later n expires at_ clock', clock <= clock' -> (made ++ later) !! n = Some (hash, expires, at_) -> expires <= at_ + lifetime ->
            honest (k (Some expires)) (Some n) (made ++ later) clock'
      | EnrollNow => fun k => forall now later, clock <= now -> honest (k now) claim (made ++ later) now
      | EnrollRandom => fun k => forall value, honest (k value) claim made clock
      | AddTicket hash expires => fun k => expires <= clock + lifetime /\ honest (k tt) claim made clock
      end k
  end.

Lemma paid_later made later r n : paid made r n -> paid (made ++ later) r n.
Proof. intros (e & at_ & Hn & He). exists e, at_. split; [by apply lookup_app_l_Some|done]. Qed.

Lemma honest_later p claim made later clock clock' : clock <= clock' -> honest p claim made clock -> honest p claim (made ++ later) clock'.
Proof.
  revert claim made clock. induction p as [r|X c k IH]; intros claim made clock Hc; cbn [honest].
  - intros [H|(n & -> & Hp)]; [by left|right]. exists n. split; [done|by apply paid_later].
  - destruct c; cbn in *.
    + intros H value. by eapply IH.
    + intros H now more Hnow. rewrite <- app_assoc. apply H. lia.
    + intros [He H]. split; [lia|by eapply IH].
    + intros (-> & H1 & H2). split_and!; [done|by eapply IH|]. intros more n e at_ clock2 Hc2. rewrite <- app_assoc. apply H2. lia.
Qed.

Lemma create_honest made clock : honest CreateTicket None made clock.
Proof. intros [value|]; [|by left]. intros now later Hnow. split; [lia|by left]. Qed.

Lemma redeem_honest authorization made clock : honest (Redeem agentToken authorization) None made clock.
Proof.
  unfold Redeem. destruct (_ || _); [by left|]. cbn. split_and!; [done|by left|]. intros later n expires at_ clock' _ Hn He now more _.
  destruct (Z.ltb_spec now expires); [|by left]. right. exists n. split; [done|]. exists expires, at_. split; [by apply lookup_app_l_Some|done].
Qed.

(** Every program has at most one ticket, no two the same, and none that can still be
    taken. *)
Record Claims (ps : nat -> option enroller) (w : enrollment) (claim : nat -> option nat) (ticket : list Z -> nat) : Prop := {
  cs_honest i p : ps i = Some p -> honest p (claim i) (en_made w) (en_clock w);
  cs_idle i : ps i = None -> claim i = None;
  cs_inj i j n : claim i = Some n -> claim j = Some n -> i = j;
  cs_ticket hash e : en_tickets w !! hash = Some e -> exists at_, en_made w !! ticket hash = Some (hash, e, at_) /\ e <= at_ + lifetime;
  cs_made i n : claim i = Some n -> (n < length (en_made w))%nat;
  cs_free i hash e : en_tickets w !! hash = Some e -> claim i <> Some (ticket hash) }.

Lemma set_program_eq i (p : enroller) ps : set_program i p ps i = Some p.
Proof. unfold set_program. by rewrite Nat.eqb_refl. Qed.

Lemma set_program_ne i j (p : enroller) ps : j <> i -> set_program i p ps j = ps j.
Proof. intros Hne. unfold set_program. destruct (Nat.eqb_spec j i); done. Qed.

(** The program of one number moves on; the tickets become fewer. *)
Lemma claims_move ps w claim ticket i p w' : Claims ps w claim ticket -> ps i <> None -> en_made w' = en_made w -> en_clock w' = en_clock w -> en_tickets w' ⊆ en_tickets w ->
  honest p (claim i) (en_made w) (en_clock w) -> Claims (set_program i p ps) w' claim ticket.
Proof.
  intros [H1 H2 H3 H4 H5 H6] Hi Hm Hck Ht Hp. split; rewrite ?Hm, ?Hck; try done.
  - intros j q. destruct (decide (j = i)) as [->|Hne]; [rewrite set_program_eq; by intros [= <-]|]. rewrite set_program_ne by done. apply H1.
  - intros j. destruct (decide (j = i)) as [->|Hne]; [by rewrite set_program_eq|]. rewrite set_program_ne by done. apply H2.
  - intros h e He. apply H4. by eapply lookup_weaken.
  - intros j h e He. eapply H6. by eapply lookup_weaken.
Qed.

Lemma claims_add ps w claim ticket i p hash expires : Claims ps w claim ticket -> ps i <> None -> expires <= en_clock w + lifetime ->
  honest p (claim i) (en_made w) (en_clock w) ->
  let w' := (handle (AddTicket hash expires) w).1 in
  Claims (set_program i p ps) w' claim (fun h => if decide (h = hash) then length (en_made w) else ticket h).
Proof.
  intros [H1 H2 H3 H4 H5 H6] Hi Hex Hp. split; simpl; try done.
  - intros j q. destruct (decide (j = i)) as [->|Hne]; [rewrite set_program_eq; intros [= <-]|rewrite set_program_ne by done; intros Hq]; (apply (honest_later _ _ _ _ (en_clock w)); [done|]); [done|by apply H1].
  - intros j. destruct (decide (j = i)) as [->|Hne]; [by rewrite set_program_eq|]. rewrite set_program_ne by done. apply H2.
  - intros h e. unfold add_ticket. rewrite lookup_insert_Some. intros [[<- <-]|[Hne He]].
    + rewrite decide_True by done. exists (en_clock w). split; [|done]. rewrite lookup_app_r, Nat.sub_diag by done. done.
    + rewrite decide_False by done. apply map_lookup_filter_Some in He as [He _]. destruct (H4 h e He) as (at_ & Hm & Hl).
      exists at_. split; [by apply lookup_app_l_Some|done].
  - intros j n Hj. rewrite length_app. simpl. specialize (H5 j n Hj). lia.
  - intros j h e. unfold add_ticket. rewrite lookup_insert_Some. intros [[<- <-]|[Hne He]].
    + rewrite decide_True by done. intros Hj. specialize (H5 j _ Hj). lia.
    + rewrite decide_False by done. apply map_lookup_filter_Some in He as [He _]. by eapply H6.
Qed.

Lemma claims_take ps w claim ticket i p hash expires : Claims ps w claim ticket -> ps i <> None -> en_tickets w !! hash = Some expires -> claim i = None ->
  honest p (Some (ticket hash)) (en_made w) (en_clock w) ->
  Claims (set_program i p ps) (handle (TakeTicket hash) w).1 (fun j => if decide (j = i) then Some (ticket hash) else claim j) ticket.
Proof.
  intros [H1 H2 H3 H4 H5 H6] Hi He Hc Hp. split; simpl.
  - intros j q. destruct (decide (j = i)) as [->|Hne]; [rewrite set_program_eq; by intros [= <-]|]. rewrite set_program_ne by done. apply H1.
  - intros j. destruct (decide (j = i)) as [->|Hne]; [by rewrite set_program_eq|]. rewrite set_program_ne by done. apply H2.
  - intros j j' n. destruct (decide (j = i)) as [->|Hj], (decide (j' = i)) as [->|Hj']; try done.
    + intros [= <-] Hj2. by destruct (H6 j' hash expires He).
    + intros Hj1 [= <-]. by destruct (H6 j hash expires He).
    + apply H3.
  - intros h e Hh. apply lookup_delete_Some in Hh as [_ Hh]. by apply H4.
  - intros j n. destruct (decide (j = i)) as [->|Hj]; [|apply H5]. intros [= <-]. destruct (H4 hash expires He) as (at_ & Hm & _). by apply lookup_lt_Some in Hm.
  - intros j h e Hh. apply lookup_delete_Some in Hh as [Hne Hh]. destruct (decide (j = i)) as [->|Hj]; [|by eapply H6].
    intros [= E]. destruct (H4 h e Hh) as (at1 & Hm1 & _). destruct (H4 hash expires He) as (at2 & Hm2 & _). rewrite <- E, Hm2 in Hm1. by injection Hm1 as ->.
Qed.

Lemma run_claims w0 c : en_tickets w0 = ∅ -> pool_run enroll_starts enroll_passes w0 c -> exists claim ticket, Claims c.1 c.2 claim ticket.
Proof.
  intros H0. induction 1 as [|c c' _ (claim & ticket & HC) Hst].
  { exists (fun _ => None), (fun _ => 0%nat). split; simpl; rewrite ?H0; done. }
  destruct Hst as [ps w i p Hi Hs|ps w i X e k Hi|ps w w' [Hck ->]]; cbn [fst snd] in *.
  - exists claim, ticket. destruct HC as [H1 H2 H3 H4 H5 H6]. split; try done.
    + intros j q. destruct (decide (j = i)) as [->|Hne]; [|rewrite set_program_ne by done; apply H1].
      rewrite set_program_eq. intros [= <-]. rewrite (H2 i Hi). destruct Hs as [->|[authorization ->]]; [apply create_honest|apply redeem_honest].
    + intros j. destruct (decide (j = i)) as [->|Hne]; [by rewrite set_program_eq|]. rewrite set_program_ne by done. apply H2.
  - pose proof (cs_honest _ _ _ _ HC i _ Hi) as Hh. assert (ps i <> None) as Hn by by rewrite Hi. destruct e; cbn in Hh.
    + exists claim, ticket. by eapply claims_move.
    + exists claim, ticket. eapply claims_move; [done..|]. specialize (Hh (en_clock w) [] ltac:(lia)). by rewrite app_nil_r in Hh.
    + eexists _, _. destruct Hh. by apply claims_add.
    + destruct Hh as (Hc & H1 & H2). destruct (en_tickets w !! hash) as [expires|] eqn:He.
      * eexists _, _. cbn [handle enroll_handler snd]. rewrite He. eapply (claims_take _ _ _ _ i); [done..|].
        destruct (cs_ticket _ _ _ _ HC hash expires He) as (at_ & Hm & Hl). specialize (H2 [] (ticket hash) expires at_ (en_clock w) ltac:(lia)).
        rewrite app_nil_r in H2. by apply H2.
      * exists claim, ticket. cbn [handle enroll_handler fst snd]. rewrite He. eapply claims_move; [done..|apply delete_subseteq|by rewrite Hc].
  - exists claim, ticket. destruct HC as [H1 H2 H3 H4 H5 H6]. split; try done. intros i p Hp. simpl.
    rewrite <- (app_nil_r (en_made w)). eapply honest_later; [exact Hck|by apply H1].
Qed.

(** C25. A ticket is good for one agent: however the handlers of administrators and agents
    interleave, every answer that hands out the agent token was given for a ticket that had
    been made, whose token the request came with, less than ten minutes after it was made;
    and no two answers were given for the same ticket. *)
Theorem tickets_once w0 ps w : en_tickets w0 = ∅ -> pool_run enroll_starts enroll_passes w0 (ps, w) ->
  exists ticket : nat -> nat,
    (forall i r token, ps i = Some (Ret r) -> ea_agent_token r = Some token ->
       exists expires at_, en_made w !! ticket i = Some (tokenHash (ea_presented r), expires, at_) /\ ea_at r < expires /\ expires <= at_ + lifetime) /\
    (forall i j r r', ps i = Some (Ret r) -> ps j = Some (Ret r') -> ea_agent_token r <> None -> ea_agent_token r' <> None ->
       ticket i = ticket j -> i = j).
Proof.
  intros H0 Hrun. destruct (run_claims w0 (ps, w) H0 Hrun) as (claim & tk & HC). exists (fun i => default 0%nat (claim i)).
  assert (forall i r, ps i = Some (Ret r) -> ea_agent_token r <> None -> exists n, claim i = Some n /\ paid (en_made w) r n) as Hpaid.
  { intros i r Hi Hr. pose proof (cs_honest _ _ _ _ HC i _ Hi) as [Hh|Hh]; [done|exact Hh]. }
  split.
  - intros i r token Hi Hr. destruct (Hpaid i r Hi) as (n & -> & Hp); [by rewrite Hr|]. exact Hp.
  - intros i j r r' Hi Hj Hr Hr'. destruct (Hpaid i r Hi Hr) as (n & Ei & _), (Hpaid j r' Hj Hr') as (m & Ej & _).
    rewrite Ei, Ej. simpl. intros ->. by eapply (cs_inj _ _ _ _ HC).
Qed.

End once.

Module DemoEnrollment.
Definition w0 : enrollment := MkEnrollment ∅ (1000 * Hour) [Some (repeat 1 32); Some (repeat 2 32)] [].
Definition token : string := encodeToken (repeat 1 32).
Definition redeem : enroller := Redeem "agent-secret" ("Bearer " +:+ token).

(** A ticket is made; then two agents come with it at the same time, the second first. *)
Definition c1 : (nat -> option enroller) * enrollment := pool_calls (set_program 0 CreateTicket (fun _ => None), w0) [0; 0; 0]%nat.
Definition c2 := pool_calls (set_program 2 redeem (set_program 1 redeem c1.1), c1.2) [2; 1; 2]%nat.

Definition status (c : (nat -> option enroller) * enrollment) (i : nat) : option Z :=
  match c.1 i with Some (Ret r) => Some (ea_status r) | _ => None end.

Example enroll_answers : (status c2 0, status c2 1, status c2 2) = (Some 201, Some 401, Some 200).
Proof. vm_compute. reflexivity. Qed.

Lemma tickets_run : pool_run (enroll_starts "agent-secret") enroll_passes w0 c2.
Proof.
  apply pool_calls_run. eapply PoolNext; [eapply PoolNext|]; [|apply (PoolStart _ _ c1.1 c1.2 1 redeem)|apply (PoolStart _ _ (set_program 1 redeem c1.1) c1.2 2 redeem)].
  - rewrite <- surjective_pairing. apply pool_calls_run. eapply PoolNext; [apply PoolEmpty|]. apply PoolStart; [done|by left].
  - vm_compute. reflexivity.
  - right. by eexists.
  - vm_compute. reflexivity.
  - right. by eexists.
Qed.

Lemma tickets_once_witness : exists ticket : nat -> nat, exists expires at_,
  en_made c2.2 !! ticket 2%nat = Some (tokenHash token, expires, at_) /\ expires <= at_ + lifetime.
Proof.
  destruct (tickets_once "agent-secret" w0 c2.1 c2.2) as (ticket & H & _); [reflexivity|rewrite <- surjective_pairing; apply tickets_run|].
  exists ticket. destruct (c2.1 2%nat) as [[r|]|] eqn:E; [|vm_compute in E; discriminate E..].
  destruct (H 2%nat r "agent-secret" E) as (expires & at_ & Hm & _ & He).
  - vm_compute in E. injection E as <-. reflexivity.
  - exists expires, at_. split; [|exact He]. rewrite Hm. do 3 f_equal. vm_compute in E. injection E as <-. vm_compute. reflexivity.
Defined.

(** An expired ticket is taken and refused. *)
Example expired : (exec (let! _ := CreateTicket in redeem)
  (MkEnrollment ∅ 0 [Some (repeat 1 32)] [])).2 = MkEnrollAnswer 200 None (Some "agent-secret") token 0 /\
  (exec redeem (MkEnrollment {[ tokenHash token := 5 ]} 5 [] [])).2 = enroll_error 401.
Proof. vm_compute. done. Qed.
End DemoEnrollment.
