(* ===== verification/WebhookSettings.v ===== *)
(** * Where webhooks may go

    [internal/server/webhook]: the validation of endpoints and the dialer that only
    connects to public addresses, the encryption of the signing secret, the settings with
    their handlers, and the dispatcher that joins them to the worker of [Webhook]. *)

From stdpp Require Import base strings numbers gmap list.
From Stdlib Require Import Ascii.
From S2P Require Import Prelude GoBase GoText Effects Sql Docker Store.
From S2P Require Webhook.
Import Concurrent.

Open Scope string_scope.
Open Scope Z_scope.
Local Open Scope flow_scope.
Local Open Scope list_scope.

(** ** Addresses

    [net.IP]: four bytes or sixteen. *)

Definition v4_prefix : list Z := replicate 10 0 ++ [255; 255].

(** [IP.To4] *)
Definition To4 (ip : list Z) : option (list Z) :=
  if (length ip =? 4)%nat then Some ip
  else if (length ip =? 16)%nat && bool_decide (take 12 ip = v4_prefix) then Some (drop 12 ip) else None.

Definition byte_at (ip : list Z) (i : nat) : Z := nth i ip 0.

Definition v6 (ip : list Z) : bool := (length ip =? 16)%nat.

Definition IsUnspecified (ip : list Z) : bool :=
  match To4 ip with Some ip4 => bool_decide (ip4 = [0; 0; 0; 0]) | None => bool_decide (ip = replicate 16 0) end.

Definition IsLoopback (ip : list Z) : bool :=
  match To4 ip with Some ip4 => byte_at ip4 0 =? 127 | None => bool_decide (ip = replicate 15 0 ++ [1]) end.

Definition IsPrivate (ip : list Z) : bool :=
  match To4 ip with
  | Some ip4 =>
      (byte_at ip4 0 =? 10) || ((byte_at ip4 0 =? 172) && (Z.land (byte_at ip4 1) 240 =? 16)) ||
      ((byte_at ip4 0 =? 192) && (byte_at ip4 1 =? 168))
  | None => v6 ip && (Z.land (byte_at ip 0) 254 =? 252)
  end.

Definition IsMulticast (ip : list Z) : bool :=
  match To4 ip with Some ip4 => Z.land (byte_at ip4 0) 240 =? 224 | None => v6 ip && (byte_at ip 0 =? 255) end.

Definition IsLinkLocalMulticast (ip : list Z) : bool :=
  match To4 ip with
  | Some ip4 => (byte_at ip4 0 =? 224) && (byte_at ip4 1 =? 0) && (byte_at ip4 2 =? 0)
  | None => v6 ip && (byte_at ip 0 =? 255) && (Z.land (byte_at ip 1) 15 =? 2)
  end.

Definition IsLinkLocalUnicast (ip : list Z) : bool :=
  match To4 ip with
  | Some ip4 => (byte_at ip4 0 =? 169) && (byte_at ip4 1 =? 254)
  | None => v6 ip && (byte_at ip 0 =? 254) && (Z.land (byte_at ip 1) 192 =? 128)
  end.

Definition IsGlobalUnicast (ip : list Z) : bool :=
  ((length ip =? 4)%nat || v6 ip) && negb (bool_decide (To4 ip = Some [255; 255; 255; 255])) &&
  negb (IsUnspecified ip) && negb (IsLoopback ip) && negb (IsMulticast ip) && negb (IsLinkLocalUnicast ip).

Definition isPublicIP (ip : list Z) : bool :=
  negb (length ip =? 0)%nat && IsGlobalUnicast ip && negb (IsPrivate ip) && negb (IsLoopback ip) &&
  negb (IsLinkLocalUnicast ip) && negb (IsLinkLocalMulticast ip) && negb (IsMulticast ip) && negb (IsUnspecified ip).

(** [net.ParseIP]: sixteen bytes, no zone *)
Definition ParseIP (s : string) : option (list Z) :=
  match ParseAddr s with
  | Some (IPv4 b) => Some (v4_prefix ++ b)
  | Some (IPv6 b zone) => if String.eqb zone "" then Some b else None
  | None => None
  end.

Definition is_bracket (c : ascii) : bool := bool_decide (c = "["%char) || bool_decide (c = "]"%char).

Fixpoint trim_left (p : ascii -> bool) (cs : list ascii) : list ascii :=
  match cs with
  | c :: rest => if p c then trim_left p rest else cs
  | [] => []
  end.

(** [strings.Trim(host, "[]")] *)
Definition trim_brackets (host : string) : string :=
  of_chars (reverse (trim_left is_bracket (reverse (trim_left is_bracket (chars host))))).

(** What a resolver answers for a name. *)
Definition lookup_fun : Type := string -> option (list (list Z)).

Definition resolveHost (resolve : lookup_fun) (host : string) : result string (list (list Z)) :=
  match ParseIP (trim_brackets host) with
  | Some ip => Ok [ip]
  | None =>
      match resolve host with
      | Some (ip :: ips) => Ok (ip :: ips)
      | _ => Err "webhook host could not be resolved"
      end
  end.

Definition not_public : string := "webhook host must resolve only to public addresses".

Definition requirePublicHost (resolve : lookup_fun) (host : string) : result string unit :=
  let* addresses := resolveHost resolve host in
  guard_err (forallb isPublicIP addresses) not_public.

(** ** Endpoints *)

(** What [url.Parse] makes of a text, as far as it is used: [ul_Address] is the host and
    port the HTTP transport dials, [ul_Text] what [String] gives back. *)
Record url : Type := MkUrl {
  ul_Scheme : string; ul_Hostname : string; ul_User : bool; ul_Fragment : string; ul_Address : string; ul_Text : string }.

Class UrlParse : Type := parse_url : string -> option url.

Definition ValidateEndpoint `{!UrlParse} (resolve : lookup_fun) (allowHTTP : bool) (raw : string) : result string url :=
  match parse_url raw with
  | None => Err "webhook endpoint is invalid"
  | Some endpoint =>
      let* _ := guard_err (negb (String.eqb (ul_Hostname endpoint) "" || ul_User endpoint || negb (String.eqb (ul_Fragment endpoint) "")))
                  "webhook endpoint is invalid" in
      let* _ := guard_err (String.eqb (ul_Scheme endpoint) "https" || (allowHTTP && String.eqb (ul_Scheme endpoint) "http"))
                  "webhook endpoint must use HTTPS" in
      let* _ := requirePublicHost resolve (ul_Hostname endpoint) in
      Ok endpoint
  end.

(** [SafeDialer.DialContext]: the address and port connected to. *)
Definition DialContext (resolve : lookup_fun) (address : string) : result string (list Z * string) :=
  match SplitHostPort (chars address) with
  | None => Err "parse webhook address"
  | Some (host, port) =>
      let* addresses := resolveHost resolve (of_chars host) in
      let* _ := guard_err (forallb isPublicIP addresses) not_public in
      match addresses with
      | ip :: _ => Ok (ip, of_chars port)
      | [] => Err "no addresses"
      end
  end.

(** ** The secret *)

(** AES-GCM with a 256-bit key *)
Class Aead : Type := {
  seal : list Z -> list Z -> list Z -> list Z -> list Z;             (** key, nonce, plaintext, additional data *)
  open : list Z -> list Z -> list Z -> list Z -> option (list Z);    (** key, nonce, ciphertext, additional data *)
  open_seal key nonce plaintext data : open key nonce (seal key nonce plaintext data) data = Some plaintext }.

Definition nonce_size : nat := 12.
Definition secret_context : list Z := code <$> chars "flowlens-webhook-secret-v1".

Definition NewSecretCipher (key : list Z) : result string (list Z) :=
  if (length key =? 32)%nat then Ok key else Err "FLOWLENS_SECRET_KEY must contain exactly 32 bytes".

(** [nonce] is what [rand.Reader] gave. *)
Definition Encrypt `{!Aead} (key : list Z) (nonce : option (list Z)) (plaintext : list Z) : result string (list Z) :=
  match nonce with
  | None => Err "random bytes"
  | Some nonce => Ok (nonce ++ seal key nonce plaintext secret_context)
  end.

Definition Decrypt `{!Aead} (key value : list Z) : result string (list Z) :=
  if (length value <? nonce_size)%nat then Err "encrypted webhook secret is invalid"
  else
    match open key (take nonce_size value) (drop nonce_size value) secret_context with
    | Some plaintext => Ok plaintext
    | None => Err "cipher: message authentication failed"
    end.

(** ** Settings *)

Record WebhookSettings : Type := MkSettings {
  ws_Enabled : bool; ws_Endpoint : string; ws_EncryptedSecret : list Z; ws_UpdatedAt : time }.

Record settings_db : Type := MkSettingsDb { sd_settings : WebhookSettings; sd_rows : list Webhook.delivery_row; sd_next : Z }.

(** The transaction of [SaveSettings] *)
Definition save_transaction (s : WebhookSettings) : Sql settings_db unit :=
  let+ _ := execute "save webhook settings" (sql_text (ws_Endpoint s)) (fun db => MkSettingsDb s (sd_rows db) (sd_next db)) in
  execute "cancel webhook tests" true (fun db => MkSettingsDb (sd_settings db) (Webhook.cancel_tests (sd_rows db)) (sd_next db)).

Record settings_input : Type := MkInput { ip_Enabled : bool; ip_Endpoint : string; ip_Secret : string }.

Record SettingsResponse : Type := MkSettingsResponse { sr_Enabled : bool; sr_Endpoint : string; sr_Configured : bool }.

Definition settingsResponse (s : WebhookSettings) : SettingsResponse :=
  MkSettingsResponse (ws_Enabled s) (ws_Endpoint s) (0 <? length (ws_EncryptedSecret s))%nat.

Inductive settings_call : Type -> Type :=
| GetSettings : settings_call (result string WebhookSettings)
| SaveSettings (s : WebhookSettings) : settings_call (result string unit)
| QueueTestDelivery : settings_call (result string Z)
| ResolveNow : settings_call lookup_fun
| ReadNonce : settings_call (option (list Z))
| SettingsNow : settings_call time.

Record settings_answer : Type := MkSettingsAnswer { sa_status : Z; sa_settings : option SettingsResponse; sa_delivery : option Z }.

Abbreviation settings_prog := (prog settings_call settings_answer).

Definition writeSettingsError (status : Z) : settings_prog := Ret (MkSettingsAnswer status None None).

Section handlers.
Context `{!UrlParse, !Aead} (key : list Z) (allowHTTP : bool).

Definition GetHandler : settings_prog :=
  let! settings := call GetSettings in
  match settings with
  | Err _ => writeSettingsError 500
  | Ok settings => Ret (MkSettingsAnswer 200 (Some (settingsResponse settings)) None)
  end.

(** The body of [Put] from the current settings on. *)
Definition put_settings (input : settings_input) (encrypted : list Z) : settings_prog :=
  if ip_Enabled input && (length encrypted =? 0)%nat then writeSettingsError 400
  else
    let! now := call SettingsNow in
    let settings := MkSettings (ip_Enabled input) (ip_Endpoint input) encrypted now in
    let! saved := call (SaveSettings settings) in
    match saved with
    | Err _ => writeSettingsError 500
    | Ok _ => Ret (MkSettingsAnswer 200 (Some (settingsResponse settings)) None)
    end.

Definition put_current (input : settings_input) : settings_prog :=
  let! current := call GetSettings in
  match current with
  | Err _ => writeSettingsError 500
  | Ok current =>
      if String.eqb (ip_Secret input) "" then put_settings input (ws_EncryptedSecret current)
      else
        let! nonce := call ReadNonce in
        match Encrypt key nonce (code <$> chars (ip_Secret input)) with
        | Err _ => writeSettingsError 500
        | Ok encrypted => put_settings input encrypted
        end
  end.

(** [input] is what the body of the request decodes to. *)
Definition Put (input : option settings_input) : settings_prog :=
  match input with
  | None => writeSettingsError 400
  | Some input =>
      if ip_Enabled input || negb (String.eqb (ip_Endpoint input) "") then
        let! resolve := call ResolveNow in
        match ValidateEndpoint resolve allowHTTP (ip_Endpoint input) with
        | Err _ => writeSettingsError 400
        | Ok _ => put_current input
        end
      else put_current input
  end.

Definition Test_ : settings_prog :=
  let! settings := call GetSettings in
  match settings with
  | Err _ => writeSettingsError 409
  | Ok settings =>
      if negb (ws_Enabled settings) || String.eqb (ws_Endpoint settings) "" || (length (ws_EncryptedSecret settings) =? 0)%nat then writeSettingsError 409
      else
        let! id := call QueueTestDelivery in
        match id with
        | Err _ => writeSettingsError 500
        | Ok id => Ret (MkSettingsAnswer 202 None (Some id))
        end
  end.

(** What a server runs at the same time. *)
Definition settings_starts (p : settings_prog) : Prop := p = GetHandler \/ p = Test_ \/ exists input, p = Put input.

(** ** The dispatcher *)

Context `{!Webhook.PayloadCodec, !Webhook.DeliveryContent, !Webhook.HttpTime}.

(** What an address answers to a signed request. *)
Definition network : Type := list Z -> string -> list Z -> string -> Webhook.reply.

(** [newSafeHTTPClient] and one request: redirects are errors, so one connection is made. *)
Definition safe_request (resolve : lookup_fun) (net : network) (endpoint : url) (body : list Z) (signature : string) : Webhook.reply :=
  match DialContext resolve (ul_Address endpoint) with
  | Err e => Webhook.MkReply None (Some e)
  | Ok (ip, port) => net ip port body signature
  end.

(** [Dispatcher.RunOne]: [resolve1] and [resolve2] are what the resolver answers when the
    endpoint is validated and when it is dialed. *)
Definition DispatchOne (dashboardURL owner : string) (resolve1 resolve2 : lookup_fun) (net : network) (request_error : url -> option string)
  (locked : Z -> bool) (now : time) (settings : result string WebhookSettings) (rows : list Webhook.delivery_row)
  : list Webhook.delivery_row * bool * result string unit :=
  match settings with
  | Err e => (rows, false, Err e)
  | Ok settings =>
      if negb (ws_Enabled settings) then (rows, false, Ok tt)
      else
        match ValidateEndpoint resolve1 allowHTTP (ws_Endpoint settings) with
        | Err e => (rows, false, Err e)
        | Ok endpoint =>
            match Decrypt key (ws_EncryptedSecret settings) with
            | Err e => (rows, false, Err e)
            | Ok secret =>
                let worker := Webhook.NewWorker secret dashboardURL (request_error endpoint) in
                Webhook.RunOne worker locked owner now (safe_request resolve2 net endpoint) rows
            end
        end
  end.
End handlers.

(** ** The world of the handlers

    The table, the clock, what the resolver answers from call to call, the coming random
    bytes and how the coming database calls end.  [sw_resolved] is written for the
    theorems: the resolvers that were asked. *)
Record settings_world : Type := MkSettingsWorld {
  sw_db : settings_db; sw_clock : time; sw_resolvers : list lookup_fun; sw_nonces : list (option (list Z));
  sw_fates : list (nat * commit_outcome); sw_resolved : list lookup_fun }.

Definition no_answer : lookup_fun := fun _ => None.

Definition set_settings_db (db : settings_db) (w : settings_world) : settings_world :=
  MkSettingsWorld db (sw_clock w) (sw_resolvers w) (sw_nonces w) (tail (sw_fates w)) (sw_resolved w).

(** A nonce of twelve bytes, when that many can be read. *)
Definition read_nonce (bytes : option (list Z)) : option (list Z) :=
  match bytes with
  | Some bs => if (nonce_size <=? length bs)%nat then Some (take nonce_size bs) else None
  | None => None
  end.

#[export] Instance settings_handler : Handler settings_call settings_world := fun X c w =>
  let fate := default (2%nat, Committed) (head (sw_fates w)) in
  match c with
  | GetSettings =>
      (set_settings_db (sw_db w) w, match fate.2 with Committed => Ok (sd_settings (sw_db w)) | _ => Err "query failed" end)
  | SaveSettings s => let r := transact (save_transaction s) fate.1 fate.2 (sw_db w) in (set_settings_db r.1 w, r.2)
  | QueueTestDelivery =>
      let id := sd_next (sw_db w) in
      let r := exec_rows fate.2 (fun db => Some (MkSettingsDb (sd_settings db) (Webhook.QueueTest id (sw_clock w) (sd_rows db)) (id + 1), id)) (sw_db w) in
      (set_settings_db r.1 w, r.2)
  | ResolveNow =>
      let f := default no_answer (head (sw_resolvers w)) in
      (MkSettingsWorld (sw_db w) (sw_clock w) (tail (sw_resolvers w)) (sw_nonces w) (sw_fates w) (f :: sw_resolved w), f)
  | ReadNonce =>
      (MkSettingsWorld (sw_db w) (sw_clock w) (sw_resolvers w) (tail (sw_nonces w)) (sw_fates w) (sw_resolved w),
       read_nonce (default None (head (sw_nonces w))))
  | SettingsNow => (w, sw_clock w)
  end.
