(* ===== verification/SettingsTheorems.v ===== *)
(** * Properties of webhook settings and of the dispatcher

    Deliveries reach public addresses only; the settings row can be acted upon whatever
    handlers run at the same time. *)

From stdpp Require Import base strings numbers gmap list.
From Stdlib Require Import Ascii.
From S2P Require Import Prelude GoBase GoText Effects Sql Docker Store WebhookSettings.
From S2P Require Webhook.
Import Concurrent.

Open Scope string_scope.
Open Scope Z_scope.
Local Open Scope flow_scope.
Local Open Scope list_scope.

(** ** Public addresses *)

(** A block of addresses: its first address and the number of bits that may vary. *)
Definition block : Type := Z * Z.
Definition in_block (n : Z) (b : block) : Prop := n / 2 ^ b.2 = b.1 / 2 ^ b.2.

#[export] Instance in_block_dec n b : base.Decision (in_block n b).
Proof. unfold in_block. apply _. Defined.

Definition v4_at (a b c d : Z) : Z := be_val [a; b; c; d].

(** 0.0.0.0, 10.0.0.0/8, 127.0.0.0/8, 169.254.0.0/16, 172.16.0.0/12, 192.168.0.0/16,
    224.0.0.0/4, 255.255.255.255 *)
Definition v4_blocks : list block :=
  [(v4_at 0 0 0 0, 0); (v4_at 10 0 0 0, 24); (v4_at 127 0 0 0, 24); (v4_at 169 254 0 0, 16); (v4_at 172 16 0 0, 20);
   (v4_at 192 168 0 0, 16); (v4_at 224 0 0 0, 28); (v4_at 255 255 255 255, 0)].

(** ::, ::1, fc00::/7, fe80::/10, ff00::/8 *)
Definition v6_at (a b : Z) (last : Z) : Z := be_val ([a; b] ++ replicate 13 0 ++ [last]).
Definition v6_blocks : list block := [(v6_at 0 0 0, 0); (v6_at 0 0 1, 0); (v6_at 252 0 0, 121); (v6_at 254 128 0, 118); (v6_at 255 0 0, 120)].

Definition outside (n : Z) (blocks : list block) : Prop := Forall (fun b => ~ in_block n b) blocks.

(** An address no block claims; an IPv4 address may come as ::ffff:a.b.c.d. *)
Definition public_address (ip : list Z) : Prop :=
  match To4 ip with
  | Some ip4 => outside (be_val ip4) v4_blocks
  | None => length ip = 16%nat /\ outside (be_val ip) v6_blocks
  end.

(** All bytes. *)
Lemma byte_cases (P : Z -> bool) : forallb P (Z.of_nat <$> seq 0 256) = true -> forall a, is_byte a -> P a = true.
Proof.
  intros HP a Ha. rewrite forallb_forall in HP. apply HP. apply list_elem_of_In, list_elem_of_fmap. exists (Z.to_nat a).
  unfold is_byte in Ha. split; [lia|]. apply elem_of_seq. lia.
Qed.

Lemma land_high a : is_byte a -> (Z.land a 240 =? 224) = (a / 16 =? 14) /\ (Z.land a 240 =? 16) = (a / 16 =? 1) /\
  (Z.land a 254 =? 252) = (a / 2 =? 126) /\ (Z.land a 192 =? 128) = (a / 64 =? 2).
Proof.
  intros Ha. pose proof (byte_cases (fun a => Bool.eqb (Z.land a 240 =? 224) (a / 16 =? 14) && Bool.eqb (Z.land a 240 =? 16) (a / 16 =? 1) &&
    Bool.eqb (Z.land a 254 =? 252) (a / 2 =? 126) && Bool.eqb (Z.land a 192 =? 128) (a / 64 =? 2)) ltac:(vm_compute; reflexivity) a Ha) as H.
  rewrite !andb_true_iff, !eqb_true_iff in H. tauto.
Qed.

Lemma le_val_app l1 l2 : le_val (l1 ++ l2) = le_val l1 + 256 ^ Z.of_nat (length l1) * le_val l2.
Proof.
  induction l1 as [|b l1 IH]; [simpl; lia|]. cbn [app le_val length]. rewrite IH, Nat2Z.inj_succ, Z.pow_succ_r by lia. lia.
Qed.

Lemma be_val_cons b l : be_val (b :: l) = b * 256 ^ Z.of_nat (length l) + be_val l.
Proof. unfold be_val. rewrite reverse_cons, le_val_app, length_reverse. simpl. lia. Qed.

Lemma be_val_bound l : Forall is_byte l -> 0 <= be_val l < 256 ^ Z.of_nat (length l).
Proof. intros Hl. unfold be_val. rewrite <- (length_reverse l). apply le_val_bound. by apply Forall_reverse. Qed.

Lemma be_val_inj l l' : Forall is_byte l -> Forall is_byte l' -> length l = length l' -> be_val l = be_val l' -> l = l'.
Proof.
  intros Hl Hl' Hn E. unfold be_val in E. apply (inj reverse). apply Forall_reverse in Hl, Hl'.
  rewrite <- (le_bytes_of_val (reverse l)), <- (le_bytes_of_val (reverse l')) by done. by rewrite E, !length_reverse, Hn.
Qed.

Lemma block_of n base k q : 0 <= k -> q * 2 ^ k <= n < (q + 1) * 2 ^ k -> in_block n (base, k) <-> q = base / 2 ^ k.
Proof.
  intros Hk Hn. unfold in_block. simpl. pose proof (Z.pow_pos_nonneg 2 k). rewrite (Z.div_unique n (2 ^ k) q (n - q * 2 ^ k)); [done|lia|lia].
Qed.

Lemma v4_public a b c d : Forall is_byte [a; b; c; d] -> isPublicIP [a; b; c; d] = true <-> outside (be_val [a; b; c; d]) v4_blocks.
Proof.
  intros Hb. rewrite !Forall_cons in Hb. destruct Hb as (Ha & Hb & Hc & Hd & _).
  destruct (land_high a Ha) as (La1 & _ & _ & _), (land_high b Hb) as (_ & Lb & _ & _).
  set (n := be_val [a; b; c; d]). assert (n = a * 16777216 + b * 65536 + c * 256 + d) as Hn by (unfold n, be_val; simpl; lia).
  unfold is_byte in *. unfold outside, v4_blocks. rewrite !Forall_cons, Forall_nil.
  rewrite (block_of n _ 0 n), (block_of n _ 24 a), (block_of n _ 24 a), (block_of n _ 16 (a * 256 + b)), (block_of n _ 20 (a * 16 + b / 16)),
    (block_of n _ 16 (a * 256 + b)), (block_of n _ 28 (a / 16)), (block_of n _ 0 n); try lia;
    try (change (2 ^ 0) with 1; change (2 ^ 24) with 16777216; change (2 ^ 16) with 65536; change (2 ^ 20) with 1048576; change (2 ^ 28) with 268435456;
         Z.to_euclidean_division_equations; lia).
  change (v4_at 0 0 0 0 / 2 ^ 0) with 0. change (v4_at 10 0 0 0 / 2 ^ 24) with 10. change (v4_at 127 0 0 0 / 2 ^ 24) with 127.
  change (v4_at 169 254 0 0 / 2 ^ 16) with (169 * 256 + 254). change (v4_at 172 16 0 0 / 2 ^ 20) with (172 * 16 + 1).
  change (v4_at 192 168 0 0 / 2 ^ 16) with (192 * 256 + 168). change (v4_at 224 0 0 0 / 2 ^ 28) with 14. change (v4_at 255 255 255 255 / 2 ^ 0) with 4294967295.
  unfold isPublicIP, IsGlobalUnicast, IsPrivate, IsLoopback, IsLinkLocalUnicast, IsLinkLocalMulticast, IsMulticast, IsUnspecified, To4, byte_at.
  cbn [length Nat.eqb negb andb orb nth]. rewrite La1, Lb.
  rewrite !andb_true_iff, !negb_true_iff, !orb_false_iff, !andb_false_iff, !Z.eqb_neq, !bool_decide_eq_false.
  assert ([a; b; c; d] <> [0; 0; 0; 0] <-> n <> 0) as Hz by (split; intros H E; apply H; [|injection E as -> -> -> ->; lia]; assert (a = 0 /\ b = 0 /\ c = 0 /\ d = 0) as (-> & -> & -> & ->) by lia; done).
  assert (Some [a; b; c; d] <> Some [255; 255; 255; 255] <-> n <> 4294967295) as Ho.
  { split; intros H E; apply H; [|injection E as -> -> -> ->; lia]. assert (a = 255 /\ b = 255 /\ c = 255 /\ d = 255) as (-> & -> & -> & ->) by lia. done. }
  rewrite Hz, Ho. clear Hz Ho La1 Lb. clearbody n. subst n.
  assert (16 * (a / 16) <= a < 16 * (a / 16) + 16 /\ 16 * (b / 16) <= b < 16 * (b / 16) + 16) as [Hqa Hqb] by (Z.to_euclidean_division_equations; lia).
  revert Hqa Hqb. generalize (a / 16), (b / 16). intros qa qb Hqa Hqb.
  assert (a * 256 + b <> 169 * 256 + 254 <-> a <> 169 \/ b <> 254) as -> by lia. assert (a * 256 + b <> 192 * 256 + 168 <-> a <> 192 \/ b <> 168) as -> by lia.
  assert (a * 16 + qb <> 172 * 16 + 1 <-> a <> 172 \/ qb <> 1) as -> by lia.
  assert (qa <> 14 -> (a <> 224 \/ b <> 0) \/ c <> 0) as H224 by lia. tauto.
Qed.

Lemma v6_public a b rest : Forall is_byte (a :: b :: rest) -> length rest = 14%nat -> To4 (a :: b :: rest) = None ->
  isPublicIP (a :: b :: rest) = true <-> outside (be_val (a :: b :: rest)) v6_blocks.
Proof.
  intros Hb Hl H4. pose proof (be_val_bound _ Hb) as Hbound. cbn [length] in Hbound. rewrite Hl in Hbound.
  assert (forall l, Forall is_byte l -> length l = 16%nat -> a :: b :: rest <> l <-> be_val (a :: b :: rest) <> be_val l) as Hne.
  { intros l Hb' Hl'. split; intros H E; apply H; [|by rewrite E]. apply be_val_inj; [done..|cbn [length]; by rewrite Hl|done]. }
  pose proof (Hne (replicate 16 0) ltac:(by repeat constructor) eq_refl) as Hz. pose proof (Hne (replicate 15 0 ++ [1]) ltac:(by repeat constructor) eq_refl) as Ho.
  change (be_val (replicate 16 0)) with 0 in Hz. change (be_val (replicate 15 0 ++ [1])) with 1 in Ho. clear Hne.
  assert (isPublicIP (a :: b :: rest) = true <-> a :: b :: rest <> replicate 16 0 /\ a :: b :: rest <> replicate 15 0 ++ [1] /\
    (Z.land a 254 =? 252) = false /\ (Z.land b 192 =? 128) && (a =? 254) = false /\ (a =? 255) = false) as ->.
  { unfold isPublicIP, IsGlobalUnicast, IsPrivate, IsLoopback, IsLinkLocalUnicast, IsLinkLocalMulticast, IsMulticast, IsUnspecified. rewrite !H4.
    unfold v6, byte_at. cbn [length nth]. rewrite Hl. cbn [Nat.eqb negb andb orb].
    rewrite bool_decide_false by done. cbn [negb andb].
    rewrite !andb_true_iff, !negb_true_iff, !andb_false_iff, !bool_decide_eq_false. 
    destruct (a =? 255); split; intros; destruct_and?; split_and?; try done; tauto. }
  rewrite Hz, Ho. rewrite !Forall_cons in Hb. destruct Hb as (Ha & Hb & Hr). destruct (land_high a Ha) as (_ & _ & -> & _), (land_high b Hb) as (_ & _ & _ & ->).
  pose proof (be_val_bound _ Hr) as Hrest. rewrite Hl in Hrest.
  assert (be_val (a :: b :: rest) = a * 2 ^ 120 + b * 2 ^ 112 + be_val rest) as Hn.
  { rewrite !be_val_cons. cbn [length]. rewrite Hl. change (256 ^ Z.of_nat 15) with (2 ^ 120). change (256 ^ Z.of_nat 14) with (2 ^ 112). lia. }
  change (256 ^ Z.of_nat 14) with (2 ^ 112) in Hrest. unfold is_byte in Ha, Hb.
  revert Hn. generalize (be_val (a :: b :: rest)) as n. generalize dependent (be_val rest). intros m Hm n Hn. clear Hz Ho Hbound H4.
  unfold outside, v6_blocks. rewrite !Forall_cons, Forall_nil.
  change (2 ^ 112) with 5192296858534827628530496329220096 in *. change (2 ^ 120) with 1329227995784915872903807060280344576 in *.
  rewrite (block_of n _ 0 n), (block_of n _ 0 n), (block_of n _ 121 (a / 2)), (block_of n _ 118 (a * 4 + b / 64)), (block_of n _ 120 a); try lia;
    try (change (2 ^ 0) with 1; change (2 ^ 121) with 2658455991569831745807614120560689152; change (2 ^ 118) with 332306998946228968225951765070086144;
         change (2 ^ 120) with 1329227995784915872903807060280344576; Z.to_euclidean_division_equations; lia).
  change (v6_at 0 0 0 / 2 ^ 0) with 0. change (v6_at 0 0 1 / 2 ^ 0) with 1. change (v6_at 252 0 0 / 2 ^ 121) with 126.
  change (v6_at 254 128 0 / 2 ^ 118) with (254 * 4 + 2). change (v6_at 255 0 0 / 2 ^ 120) with 255.
  rewrite andb_false_iff, !Z.eqb_neq.
  assert (0 <= b / 64 < 4) as Hq by (Z.to_euclidean_division_equations; lia).
  assert (a * 4 + b / 64 <> 254 * 4 + 2 <-> b / 64 <> 2 \/ a <> 254) as -> by lia. tauto.
Qed.

(** Which addresses count as public: of IPv4, also written as an IPv4-mapped address,
    all but 0.0.0.0, the private blocks 10/8, 172.16/12 and 192.168/16, 127/8, 169.254/16,
    224/4 and 255.255.255.255; of IPv6 all but ::, ::1, fc00::/7, fe80::/10 and ff00::/8. *)
Theorem public_blocks ip : Forall is_byte ip -> (length ip = 4%nat \/ length ip = 16%nat) -> isPublicIP ip = true <-> public_address ip.
Proof.
  intros Hb Hl. unfold public_address. destruct (To4 ip) as [ip4|] eqn:E4.
  - assert (isPublicIP ip = isPublicIP ip4 /\ Forall is_byte ip4 /\ length ip4 = 4%nat) as (-> & Hb4 & Hl4).
    { unfold To4 in E4. destruct Hl as [Hl|Hl]; rewrite Hl in E4; cbn [Nat.eqb andb] in E4; [injection E4 as <-; by split_and!|].
      case_bool_decide as Ep; [|done]. injection E4 as <-. split_and!; [|by apply Forall_drop|by rewrite length_drop, Hl].
      rewrite <- (take_drop 12 ip) at 1. rewrite Ep. assert (length (drop 12 ip) = 4%nat) as Hd by by rewrite length_drop, Hl.
      destruct (drop 12 ip) as [|a [|b [|c [|d [|]]]]]; try discriminate Hd. reflexivity. }
    destruct ip4 as [|a [|b [|c [|d [|]]]]]; try discriminate Hl4. by apply v4_public.
  - destruct Hl as [Hl|Hl]; [unfold To4 in E4; by rewrite Hl in E4|].
    destruct ip as [|a [|b rest]]; try discriminate Hl. cbn [length] in Hl. rewrite v6_public by (done || lia). cbn [length]. intuition lia.
Qed.

(** The addresses of the blocks that are not public. *)
Definition blocked (ip : list Z) : Prop := Forall is_byte ip /\ (length ip = 4%nat \/ length ip = 16%nat) /\ ~ public_address ip.

Lemma public_not_blocked ip : isPublicIP ip = true -> ~ blocked ip.
Proof. intros Hp (Hb & Hl & Hn). by apply Hn, public_blocks. Qed.

(** ** The dispatcher *)

Section dispatch.
Context `{!UrlParse, !Aead} (key : list Z) (allowHTTP : bool).
Context `{!Webhook.PayloadCodec, !Webhook.DeliveryContent, !Webhook.HttpTime}.

Lemma resolve_public resolve host addresses : resolveHost resolve host = Ok addresses -> forallb isPublicIP addresses = true ->
  exists ip rest, addresses = ip :: rest /\ isPublicIP ip = true.
Proof.
  unfold resolveHost. destruct (ParseIP _) as [ip|].
  - intros [= <-]. simpl. rewrite andb_true_r. intros Hip. by exists ip, [].
  - destruct (resolve host) as [[|ip ips]|]; try done. intros [= <-]. simpl. intros [Hip _]%andb_true_iff. by exists ip, ips.
Qed.

Lemma DialContext_public resolve address ip port : DialContext resolve address = Ok (ip, port) -> isPublicIP ip = true.
Proof.
  unfold DialContext. destruct (SplitHostPort _) as [[host p]|]; [|done].
  destruct (resolveHost resolve (of_chars host)) as [addresses|] eqn:Er; cbn [result_bind]; [|done].
  destruct (forallb isPublicIP addresses) eqn:Ep; cbn [guard_err result_bind]; [|done].
  destruct (resolve_public _ _ _ Er Ep) as (ip' & rest & -> & Hip). by intros [= <- _].
Qed.

Lemma RunOne_endpoint w locked owner now (f g : list Z -> string -> Webhook.reply) rows : (forall body signature, f body signature = g body signature) ->
  Webhook.RunOne w locked owner now f rows = Webhook.RunOne w locked owner now g rows.
Proof.
  intros Hfg. unfold Webhook.RunOne. destruct (Webhook.Claim locked owner now rows) as [[rows' [d|]]|]; [|done..].
  assert (Webhook.attempt_delivery w d now f = Webhook.attempt_delivery w d now g) as ->; [|done].
  unfold Webhook.attempt_delivery. destruct (Webhook.EncodeAndSign _ _) as [[body signature]|]; [|done].
  destruct (Webhook.wk_endpoint_error w); [done|]. by rewrite Hfg.
Qed.

(** C28. Webhooks reach no address of the private, loopback, link-local, multicast and
    unspecified blocks, nor the broadcast address.  Whatever the settings hold and whatever a
    resolver answers - also a different address when the endpoint is dialed than when it
    was validated - what a dispatcher does depends on no host at such an address, also
    when it is written as an IPv6 one; and without enabled settings whose
    endpoint passes the validation and whose secret decrypts, no delivery is touched. *)
Theorem public_only (dashboardURL owner : string) (resolve1 resolve2 : lookup_fun) (net net' : network) (request_error : url -> option string)
    (locked : Z -> bool) (now : time) (settings : result string WebhookSettings) (rows : list Webhook.delivery_row) :
  (forall ip port body signature, ~ blocked ip -> net ip port body signature = net' ip port body signature) ->
  let run := fun net => DispatchOne key allowHTTP dashboardURL owner resolve1 resolve2 net request_error locked now settings rows in
  run net = run net' /\
  ((run net).1.1 <> rows -> exists s endpoint secret, settings = Ok s /\ ws_Enabled s = true /\
     ValidateEndpoint resolve1 allowHTTP (ws_Endpoint s) = Ok endpoint /\ Decrypt key (ws_EncryptedSecret s) = Ok secret).
Proof.
  intros Hnet run. unfold run, DispatchOne. clear run. destruct settings as [s|e]; [|done].
  destruct (ws_Enabled s) eqn:Een; cbn [negb]; [|done]. destruct (ValidateEndpoint resolve1 allowHTTP (ws_Endpoint s)) as [endpoint|e] eqn:Ev; [|done].
  destruct (Decrypt key (ws_EncryptedSecret s)) as [secret|e] eqn:Ed; [|done]. split.
  - apply RunOne_endpoint. intros body signature. unfold safe_request. destruct (DialContext resolve2 (ul_Address endpoint)) as [[ip port]|] eqn:Edial; [|done].
    apply Hnet, public_not_blocked. by eapply DialContext_public.
  - intros _. by exists s, endpoint, secret.
Qed.
End dispatch.

(** ** The settings row *)

Section settings.
Context `{!UrlParse, !Aead} (key : list Z) (allowHTTP : bool).

(** A stored secret: none, or one that decrypts to something. *)
Definition secret_ok (value : list Z) : Prop := value = [] \/ exists p, p <> [] /\ Decrypt key value = Ok p.

(** An endpoint that a resolver asked so far let pass. *)
Definition endpoint_passed (resolved : list lookup_fun) (endpoint : string) : Prop :=
  exists f, f ∈ resolved /\ is_ok (ValidateEndpoint f allowHTTP endpoint) = true.

Definition row_sound (resolved : list lookup_fun) (s : WebhookSettings) : Prop :=
  secret_ok (ws_EncryptedSecret s) /\
  (ws_Enabled s = true \/ ws_Endpoint s <> "" -> endpoint_passed resolved (ws_Endpoint s)) /\
  (ws_Enabled s = true -> ws_EncryptedSecret s <> []).

Definition Sound (w : settings_world) : Prop := row_sound (sw_resolved w) (sd_settings (sw_db w)).
Definition Later (w w' : settings_world) : Prop := sw_resolved w ⊆ sw_resolved w'.

#[local] Instance later_preorder : PreOrder Later.
Proof. split; [intros w; unfold Later; set_solver|]. intros w1 w2 w3. unfold Later. set_solver. Qed.

Lemma row_sound_later l l' s : l ⊆ l' -> row_sound l s -> row_sound l' s.
Proof. intros Hl (H1 & H2 & H3). split_and!; [done| |done]. intros He. destruct (H2 He) as (f & Hf & Hv). exists f. split; [by apply Hl|done]. Qed.

Lemma Encrypt_Decrypt nonce plaintext value : Encrypt key nonce plaintext = Ok value ->
  (forall n, nonce = Some n -> length n = nonce_size) -> Decrypt key value = Ok plaintext.
Proof.
  unfold Encrypt, Decrypt. destruct nonce as [n|]; [|done]. intros [= <-] Hn. specialize (Hn n eq_refl).
  rewrite length_app, (proj2 (Nat.ltb_ge _ _)) by lia. by rewrite take_app_length', drop_app_length', open_seal by done.
Qed.

Lemma read_nonce_length bytes n : read_nonce bytes = Some n -> length n = nonce_size.
Proof.
  unfold read_nonce. destruct bytes as [bs|]; [|done]. destruct (Nat.leb_spec nonce_size (length bs)); [|done].
  intros [= <-]. rewrite length_take. lia.
Qed.

Lemma save_db s left outcome db : let r := transact (save_transaction s) left outcome db in
  sd_settings r.1 = sd_settings db \/ sd_settings r.1 = s.
Proof.
  cbv zeta. destruct (transact_cases (save_transaction s) left outcome db) as [(a & t & E & -> & _)|[-> _]]; [right|by left].
  assert (yields (fun _ => True) (save_transaction s) (fun _ db => sd_settings db = s)) as Hy.
  { eapply yields_bind; [apply (yields_execute _ _ _ _ (fun _ db => sd_settings db = s)); intros; done|].
    intros []. apply yields_execute. intros db' Hdb _. exact Hdb. }
  by apply (Hy (MkTx db left) a t).
Qed.

Abbreviation safe_prog := (safe Later Sound).

(** Settings that may be saved in a world. *)
Definition may_save (resolved : list lookup_fun) (s : settings_input) (encrypted : list Z) : Prop :=
  secret_ok encrypted /\ (ip_Enabled s = true \/ ip_Endpoint s <> "" -> endpoint_passed resolved (ip_Endpoint s)).

Lemma later_refl w w' : sw_resolved w' = sw_resolved w -> Later w w'.
Proof. intros E. unfold Later. by rewrite E. Qed.

Lemma put_settings_safe input encrypted w : may_save (sw_resolved w) input encrypted -> safe_prog (put_settings input encrypted) w.
Proof.
  intros [Hs He]. unfold put_settings. destruct (ip_Enabled input && _) eqn:Ec; [done|].
  apply safe_call. intros w1 w2 now Hw1 HI1 [= <- <-]. split_and!; [done|done|]. apply safe_call. intros w3 w4 r Hw3 HI3 E.
  assert (sw_resolved w4 = sw_resolved w3) as El by by injection E as <- <-.
  assert (Sound w4) as HI4.
  { unfold Sound. rewrite El. injection E as <- <-. cbn [sw_db set_settings_db].
    destruct (save_db (MkSettings (ip_Enabled input) (ip_Endpoint input) encrypted (sw_clock w1)) (default (2%nat, Committed) (head (sw_fates w3))).1
      (default (2%nat, Committed) (head (sw_fates w3))).2 (sw_db w3)) as [-> | ->]; [exact HI3|].
    apply (row_sound_later (sw_resolved w)); [unfold Later in *; set_solver|]. split_and!; [done|done|].
    cbn [ws_Enabled ws_EncryptedSecret]. intros Hen ->. by rewrite Hen in Ec. }
  split_and!; [done|by apply later_refl|]. by destruct r.
Qed.

Lemma put_current_safe input w : (ip_Enabled input = true \/ ip_Endpoint input <> "" -> endpoint_passed (sw_resolved w) (ip_Endpoint input)) ->
  safe_prog (put_current key input) w.
Proof.
  intros He. unfold put_current. apply safe_call. intros w1 w2 r Hw1 HI1 E.
  assert (sw_resolved w2 = sw_resolved w1 /\ sd_settings (sw_db w2) = sd_settings (sw_db w1)) as [El Es] by by injection E as <- <-.
  assert (Sound w2) as HI2 by by (unfold Sound; rewrite El, Es). split_and!; [done|by apply later_refl|].
  assert (ip_Enabled input = true \/ ip_Endpoint input <> "" -> endpoint_passed (sw_resolved w2) (ip_Endpoint input)) as He2.
  { intros Hi. destruct (He Hi) as (f & Hf & Hv). exists f. split; [|done]. rewrite El. by apply Hw1. }
  destruct r as [current|]; [|done].
  assert (current = sd_settings (sw_db w1)) as ->.
  { apply (f_equal snd) in E. cbn in E. repeat case_match; by simplify_eq. }
  destruct (String.eqb_spec (ip_Secret input) "") as [_|Hne]; [apply put_settings_safe; split; [apply HI1|done]|].
  apply safe_call. intros w3 w4 nonce Hw3 HI3 E3.
  assert (sw_resolved w4 = sw_resolved w3 /\ sd_settings (sw_db w4) = sd_settings (sw_db w3)) as [El4 Es4] by by injection E3 as <- <-.
  split_and!; [by (unfold Sound; rewrite El4, Es4)|by apply later_refl|].
  destruct (Encrypt key nonce _) as [encrypted|] eqn:Eenc; [|done]. apply put_settings_safe. split.
  - right. eexists. split; [|eapply Encrypt_Decrypt; [exact Eenc|]].
    + destruct (ip_Secret input); [done|]. done.
    + intros n ->. injection E3 as _ E3. by eapply read_nonce_length.
  - intros Hi. destruct (He2 Hi) as (f & Hf & Hv). exists f. split; [|done]. rewrite El4. by apply Hw3.
Qed.

Lemma Put_safe input w : safe_prog (Put key allowHTTP input) w.
Proof.
  destruct input as [input|]; [|done]. unfold Put. destruct (ip_Enabled input || _) eqn:Ec.
  - apply safe_call. intros w1 w2 f Hw1 HI1 [= <- <-]. split_and!.
    + eapply row_sound_later, HI1. simpl. set_solver.
    + unfold Later. simpl. set_solver.
    + destruct (ValidateEndpoint _ _ _) as [endpoint|] eqn:Ev; [|done]. apply put_current_safe. intros _.
      eexists. split; [by left|]. by rewrite Ev.
  - apply put_current_safe. apply orb_false_iff in Ec as [Hen Hep]. apply negb_false_iff, String.eqb_eq in Hep. intros [Hen'|Hep']; [by rewrite Hen in Hen'|done].
Qed.

Lemma keeps_settings {X} (e : settings_call X) w : match e with SaveSettings _ => False | _ => True end ->
  Sound w -> Sound (handle e w).1 /\ Later w (handle e w).1.
Proof.
  intros He HS. destruct e; try done; unfold Sound, Later; simpl; (split; [|set_solver]); try done.
  - unfold exec_rows. by destruct (default _ _).2.
  - eapply row_sound_later, HS. set_solver.
Qed.

Lemma reader_safe (p : settings_prog) w : p = GetHandler \/ p = Test_ -> safe_prog p w.
Proof.
  intros [-> | ->]; apply safe_call; intros w1 w2 r Hw1 HI1 E; pose proof (keeps_settings GetSettings w1 I HI1) as [H1 H2]; rewrite E in H1, H2;
    (split_and!; [exact H1|exact H2|]); destruct r as [s|]; try done.
  destruct (_ || _); [done|]. apply safe_call. intros w3 w4 r Hw3 HI3 E3. pose proof (keeps_settings QueueTestDelivery w3 I HI3) as [H3 H4].
  rewrite E3 in H3, H4. split_and!; [exact H3|exact H4|]. by destruct r.
Qed.

(** Time passes. *)
Definition settings_pass (w w' : settings_world) : Prop :=
  w' = MkSettingsWorld (sw_db w) (sw_clock w') (sw_resolvers w) (sw_nonces w) (sw_fates w) (sw_resolved w).

(** C27. The settings can always be acted upon: however the handlers interleave and their
    database calls end, the row that is stored - starting from one that is - holds no
    secret or one that decrypts to the secret somebody gave, is enabled only with a
    secret, and names an endpoint only if it passed the validation. *)
Theorem settings_sound w0 ps w : row_sound (sw_resolved w0) (sd_settings (sw_db w0)) ->
  pool_run (settings_starts key allowHTTP) settings_pass w0 (ps, w) ->
  let s := sd_settings (sw_db w) in
  (ws_EncryptedSecret s = [] \/ exists secret, secret <> [] /\ Decrypt key (ws_EncryptedSecret s) = Ok secret) /\
  (ws_Enabled s = true -> ws_EncryptedSecret s <> []) /\
  (ws_Enabled s = true \/ ws_Endpoint s <> "" -> exists f, f ∈ sw_resolved w /\ is_ok (ValidateEndpoint f allowHTTP (ws_Endpoint s)) = true).
Proof.
  intros Hstart Hrun s. destruct (pool_safe (settings_starts key allowHTTP) settings_pass Later Sound) with (w0 := w0) (c := (ps, w)) as ((H1 & H2 & H3) & _).
  - intros p w1 Hp _. destruct Hp as [-> |[-> |[input ->]]]; [apply reader_safe; by left|apply reader_safe; by right|apply Put_safe].
  - intros w1 w2 -> HI. split; [exact HI|by apply later_refl].
  - exact Hstart.
  - exact Hrun.
  - by split_and!.
Qed.
End settings.

Module DemoSettings.
(** A stand-in for AES-GCM, and one address that parses. *)
#[local, refine] Instance aead : Aead := {
  seal key nonce plaintext data := plaintext ++ [0];
  open key nonce ciphertext data := Some (take (length ciphertext - 1) ciphertext) }.
Proof. intros. rewrite length_app, Nat.add_sub, take_app_length. done. Defined.

Definition endpoint : url := MkUrl "https" "hooks.example" false "" "hooks.example:443" "https://hooks.example/x".
#[local] Instance parse : UrlParse := fun s => if String.eqb s "https://hooks.example/x" then Some endpoint else None.

Definition key : list Z := repeat 5 32.
Definition outside_world : lookup_fun := fun name => if String.eqb name "hooks.example" then Some [[203; 0; 113; 80]] else None.
(** The name has moved to an address of the server's own network. *)
Definition rebound : lookup_fun := fun name => Some [[192; 168; 0; 10]].

Definition put (secret : string) : settings_prog := Put key false (Some (MkInput true "https://hooks.example/x" secret)).

Definition w0 : settings_world :=
  MkSettingsWorld (MkSettingsDb (MkSettings false "" [] 0) [] 1) (1000 * Hour) [outside_world; outside_world; outside_world]
    [Some (repeat 1 12); Some (repeat 2 12); Some (repeat 3 12)] [] [].

(** The first secret is set; then one change brings a new secret, another only the
    endpoint: read before and written after the first, it brings the old secret back. *)
Definition c1 := pool_calls (set_program 0 (put "first") (fun _ => None), w0) [0; 0; 0; 0; 0]%nat.
Definition c2 := pool_calls (set_program 2 (put "") (set_program 1 (put "second") c1.1), c1.2) [2; 2; 1; 1; 1; 1; 1; 2; 2]%nat.

Definition status (c : (nat -> option settings_prog) * settings_world) (i : nat) : option Z :=
  match c.1 i with Some (Ret r) => Some (sa_status r) | _ => None end.

Definition secret_of (c : (nat -> option settings_prog) * settings_world) : result string (list Z) :=
  Decrypt key (ws_EncryptedSecret (sd_settings (sw_db c.2))).

Example secret_undone : status c2 1 = Some 200 /\ status c2 2 = Some 200 /\ secret_of c2 = Ok (code <$> chars "first").
Proof. vm_compute. done. Qed.

Lemma settings_run : pool_run (settings_starts key false) settings_pass w0 (c2.1, c2.2).
Proof.
  rewrite <- surjective_pairing.
  apply pool_calls_run. eapply PoolNext; [eapply PoolNext|]; [|apply (PoolStart _ _ c1.1 c1.2 1 (put "second"))|apply (PoolStart _ _ (set_program 1 (put "second") c1.1) c1.2 2 (put ""))].
  - rewrite <- surjective_pairing. apply pool_calls_run. eapply PoolNext; [apply PoolEmpty|]. apply PoolStart; [done|right; right; by eexists].
  - vm_compute. reflexivity.
  - right; right. by eexists.
  - vm_compute. reflexivity.
  - right; right. by eexists.
Qed.

Lemma settings_sound_witness : let s := sd_settings (sw_db c2.2) in
  ws_Enabled s = true /\ exists f, f ∈ sw_resolved c2.2 /\ is_ok (ValidateEndpoint f false (ws_Endpoint s)) = true.
Proof.
  assert (row_sound key false (sw_resolved w0) (sd_settings (sw_db w0))) as H0 by (split_and!; [by left|by intros [?|?]|done]).
  assert (ws_Enabled (sd_settings (sw_db c2.2)) = true) as He by (vm_compute; reflexivity).
  split; [exact He|]. destruct (settings_sound key false w0 c2.1 c2.2 H0 settings_run) as (_ & _ & H). apply H. by left.
Defined.

#[local] Instance codec : Webhook.PayloadCodec := fun _ => Ok [1; 2; 3].
#[local] Instance content : Webhook.DeliveryContent := fun _ => Ok ("info", "Webhook", ∅, 0).
#[local] Instance http_time : Webhook.HttpTime := fun _ => None.

(** Every host answers 204; outside the blocks only, the others are not there. *)
Definition everybody : network := fun _ _ _ _ => Webhook.MkReply (Some (Webhook.MkResponse 204 "" "")) None.

#[local] Instance blocked_dec ip : Decision (blocked ip).
Proof. unfold blocked, public_address, outside, is_byte, in_block. destruct (To4 ip); apply _. Defined.

Definition public_ones : network := fun ip port body signature =>
  if decide (blocked ip) then Webhook.MkReply None (Some "unreachable") else everybody ip port body signature.

Definition rows : list Webhook.delivery_row := Webhook.QueueTest 1 0 [].
Definition dispatch (resolve2 : lookup_fun) (net : network) :=
  DispatchOne key false "https://flowlens.example" "worker" outside_world resolve2 net (fun _ => None) (fun _ => false) Second (Ok (sd_settings (sw_db c2.2))) rows.

Lemma public_only_witness : dispatch rebound everybody = dispatch rebound public_ones /\
  (Webhook.wd_status <$> (dispatch rebound everybody).1.1) = [Webhook.pending] /\
  (Webhook.wd_status <$> (dispatch outside_world everybody).1.1) = [Webhook.delivered].
Proof.
  split; [|by vm_compute].
  apply (public_only key false "https://flowlens.example" "worker" outside_world rebound everybody public_ones (fun _ => None) (fun _ => false) Second (Ok (sd_settings (sw_db c2.2))) rows).
  intros ip port body signature Hip. unfold public_ones. by rewrite decide_False.
Defined.

Lemma public_blocks_witness : isPublicIP [203; 0; 113; 80] = true /\ ~ public_address (replicate 10 0 ++ [255; 255; 172; 31; 0; 1]).
Proof.
  split.
  - apply public_blocks; [repeat constructor; unfold is_byte; lia|by left|apply (bool_decide_unpack _); vm_compute; exact I].
  - intros Hp. apply public_blocks in Hp; [vm_compute in Hp; discriminate Hp|repeat constructor; unfold is_byte; lia|by right].
Defined.

(** Shared address space, where clouds serve metadata, protocol assignments, benchmarking
    networks and translated private addresses (64:ff9b::10.0.0.1) pass for public. *)
Example pass_for_public : Forall (fun ip => isPublicIP ip = true)
  [[100; 64; 0; 1]; [100; 100; 100; 200]; [192; 0; 0; 192]; [198; 18; 0; 1]; [0; 1; 2; 3]; [240; 0; 0; 1]; [0; 100; 255; 155; 0; 0; 0; 0; 0; 0; 0; 0; 10; 0; 0; 1]].
Proof. repeat constructor. Qed.
End DemoSettings.
