(* ===== verification/Setup.v ===== *)
(** * What the processes are set up with

    [agent/config] and [server/config], read from the environment; [server/partition], the
    monthly partitions of the detail tables; [server/geoip], the resolver with its reload;
    [migrations], the scripts run at the start. *)

From stdpp Require Import base strings numbers gmap sets list.
From Stdlib Require Import Ascii SpecFloat.
From S2P Require Import Prelude GoBase GoText GoTime GoPath Sha256 Attribution Store.
From S2P Require Sql WebhookSettings Docker.

Open Scope string_scope.
Open Scope Z_scope.
Local Open Scope flow_scope.
Local Open Scope list_scope.

(** ** [time.ParseDuration] *)

(** [leadingInt] *)
Fixpoint leading_int (x : Z) (cs : list ascii) : option (Z * list ascii) :=
  match cs with
  | c :: rest =>
      if is_digit c then
        if 2 ^ 63 / 10 <? x then None
        else let x := x * 10 + (code c - 48) in if 2 ^ 63 <? x then None else leading_int x rest
      else Some (x, cs)
  | [] => Some (x, [])
  end.

(** [leadingFraction]: digits that do not fit are dropped. *)
Fixpoint leading_fraction (x : Z) (scale : float64) (overflow : bool) (cs : list ascii) : Z * float64 * list ascii :=
  match cs with
  | c :: rest =>
      if is_digit c then
        let y := x * 10 + (code c - 48) in
        if overflow || ((2 ^ 63 - 1) / 10 <? x) || (2 ^ 63 <? y) then leading_fraction x scale true rest
        else leading_fraction y (f64_mul scale (f64_of_Z 10)) false rest
      else (x, scale, cs)
  | [] => (x, scale, [])
  end.

(** Letters up to the next number. *)
Fixpoint span_unit (cs : list ascii) : list ascii * list ascii :=
  match cs with
  | c :: rest => if is_digit c || bool_decide (c = "."%char) then ([], cs) else let '(u, rest) := span_unit rest in (c :: u, rest)
  | [] => ([], [])
  end.

Definition units : list (string * duration) :=
  [("ns", 1); ("us", 1000); ("µs", 1000); ("μs", 1000); ("ms", 1000000); ("s", Second); ("m", Minute); ("h", Hour)].

Definition unit_of (u : list ascii) : option duration := snd <$> List.find (fun p => String.eqb p.1 (of_chars u)) units.

(** Conversion of a float that is not negative to [uint64]. *)
Definition f64_trunc (f : float64) : Z := match f with S754_finite false m e => Z.shiftl (Zpos m) e | _ => 0 end.

(** The numbers with their units; each takes a character at least. *)
Fixpoint parse_parts (fuel : nat) (d : Z) (cs : list ascii) : option Z :=
  match fuel, cs with
  | _, [] => Some d
  | O, _ => None
  | S fuel, c :: _ =>
      if is_digit c || bool_decide (c = "."%char) then
        '(v, rest) ← leading_int 0 cs;
        let pre := negb (length rest =? length cs)%nat in
        let '(f, scale, rest', post) :=
          match rest with
          | c :: digits =>
              if bool_decide (c = "."%char) then
                let '(f, scale, rest') := leading_fraction 0 (f64_of_Z 1) false digits in (f, scale, rest', negb (length rest' =? length digits)%nat)
              else (0, f64_of_Z 1, rest, false)
          | [] => (0, f64_of_Z 1, rest, false)
          end in
        if negb (pre || post) then None
        else
          let '(u, rest'') := span_unit rest' in
          unit ← unit_of u;
          if 2 ^ 63 / unit <? v then None
          else
            let v := v * unit + (if 0 <? f then f64_trunc (f64_mul (f64_of_Z f) (f64_div (f64_of_Z unit) scale)) else 0) in
            if (0 <? f) && (2 ^ 63 <? v) then None
            else let d := wrap_u 64 (d + v) in if 2 ^ 63 <? d then None else parse_parts fuel d rest''
      else None
  end.

Definition ParseDuration (s : string) : option duration :=
  let cs := chars s in
  let '(neg, cs) :=
    match cs with
    | c :: rest => if bool_decide (c = "-"%char) then (true, rest) else if bool_decide (c = "+"%char) then (false, rest) else (false, cs)
    | [] => (false, cs)
    end in
  if bool_decide (cs = chars "0") then Some 0
  else if bool_decide (cs = []) then None
  else
    d ← parse_parts (length cs) 0 cs;
    if neg : bool then Some (- d) else if 2 ^ 63 - 1 <? d then None else Some d.

Example durations : ParseDuration <$> ["2s"; "1.5h"; "1h15m30.918273645s"; "-10ms"; "1us"; "+5s"; "0"; "3000000h"; ".5"; "5"; ""; "1.s"; "9223372036854775807ns"] =
  [Some (2 * Second); Some (90 * Minute); Some 4530918273645; Some (- 10000000); Some 1000; Some (5 * Second); Some 0; None; None; None; None; Some Second;
   Some (2 ^ 63 - 1)].
Proof. vm_compute. reflexivity. Qed.

Definition valueOrDefault (value fallback : string) : string := if String.eqb value "" then fallback else value.

(** ** The agent *)

Record AgentConfig : Type := MkAgentConfig {
  ac_NodeID : string; ac_ServerEndpoint : string; ac_AgentToken : string; ac_SpoolDir : string; ac_InterfaceCountersPath : string;
  ac_NPMLogGlobs : list string; ac_CaptureInterfaces : list string; ac_DockerAttribution : bool; ac_Interval : duration }.

Definition roots : list string := ["/data/logs"; "/var/lib/docker/volumes"].

Definition withinAllowedNPMRoot (path : string) : bool := existsb (fun root => is_inside root path) roots.

(** [^[A-Za-z0-9_.:-]{1,15}$] *)
Definition interface_char (c : ascii) : bool :=
  is_digit c || ((65 <=? code c) && (code c <=? 90)) || ((97 <=? code c) && (code c <=? 122)) || bool_decide (c ∈ ["_"%char; "."%char; ":"%char; "-"%char]).

Definition validInterface (cs : list ascii) : bool := (1 <=? length cs)%nat && (length cs <=? 15)%nat && forallb interface_char cs.

Fixpoint load_globs (patterns : list (list ascii)) : result string (list string) :=
  match patterns with
  | [] => Ok []
  | pattern :: patterns =>
      let pattern := Clean (of_chars (TrimSpace pattern)) in
      if String.eqb pattern "." || negb (withinAllowedNPMRoot pattern) then Err "FLOWLENS_NPM_LOG_GLOBS contains a path outside allowed roots"
      else let* globs := load_globs patterns in Ok (pattern :: globs)
  end.

Fixpoint load_interfaces (names : list (list ascii)) : result string (list string) :=
  match names with
  | [] => Ok []
  | name :: names =>
      let name := TrimSpace name in
      if negb (validInterface name) then Err "FLOWLENS_CAPTURE_INTERFACES contains an invalid interface"
      else let* interfaces := load_interfaces names in Ok (of_chars name :: interfaces)
  end.

(** [strings.Split(value, ",")] *)
Definition split_commas (value : string) : list (list ascii) := split_chars 44 (chars value).

Definition LoadAgent (lookup : string -> string) : result string AgentConfig :=
  let* _ := guard_err (negb (String.eqb (lookup "FLOWLENS_NODE_ID") "")) "FLOWLENS_NODE_ID is required" in
  let* _ := guard_err (negb (String.eqb (lookup "FLOWLENS_SERVER_ENDPOINT") "")) "FLOWLENS_SERVER_ENDPOINT is required" in
  let* _ := guard_err (negb (String.eqb (lookup "FLOWLENS_AGENT_TOKEN") "")) "FLOWLENS_AGENT_TOKEN is required" in
  let* interval :=
    let value := lookup "FLOWLENS_INTERVAL" in
    if String.eqb value "" then Ok (2 * Second)
    else match ParseDuration value with
         | Some interval => if interval <=? 0 then Err "FLOWLENS_INTERVAL must be a positive duration" else Ok interval
         | None => Err "FLOWLENS_INTERVAL must be a positive duration"
         end in
  let* attribution :=
    let value := of_chars (TrimSpace (chars (lookup "FLOWLENS_DOCKER_ATTRIBUTION"))) in
    if String.eqb value "" then Ok true else if String.eqb value "enabled" then Ok true else if String.eqb value "disabled" then Ok false
    else Err "FLOWLENS_DOCKER_ATTRIBUTION must be enabled or disabled" in
  let* globs := let value := lookup "FLOWLENS_NPM_LOG_GLOBS" in if String.eqb value "" then Ok [] else load_globs (split_commas value) in
  let* interfaces := let value := lookup "FLOWLENS_CAPTURE_INTERFACES" in if String.eqb value "" then Ok [] else load_interfaces (split_commas value) in
  Ok (MkAgentConfig (lookup "FLOWLENS_NODE_ID") (lookup "FLOWLENS_SERVER_ENDPOINT") (lookup "FLOWLENS_AGENT_TOKEN")
        (valueOrDefault (lookup "FLOWLENS_SPOOL_DIR") "/var/lib/flowlens-agent/spool")
        (valueOrDefault (lookup "FLOWLENS_INTERFACE_COUNTERS_PATH") "/proc/net/dev") globs interfaces attribution interval).

(** A cleaned absolute path has no [..] left. *)
Lemma clean_rooted acc ws : dot_dot ∉ acc -> dot_dot ∉ clean_elems true acc ws.
Proof.
  revert acc. induction ws as [|w ws IH]; intros acc Hacc; cbn [clean_elems]; [done|]. destruct (_ || _); [by apply IH|].
  case_bool_decide as Hw.
  - destruct acc as [|top acc]; [by apply IH|]. apply not_elem_of_cons in Hacc as [Htop Hacc]. rewrite bool_decide_eq_false_2 by congruence. by apply IH.
  - apply IH. rewrite not_elem_of_cons. split; [congruence|done].
Qed.

(** A glob that stays below one of the roots. *)
Definition glob_allowed (glob : string) : Prop :=
  is_rooted (chars glob) = true /\ (dot_dot ∉ elems (chars glob)) /\ exists root down, root ∈ roots /\ elems (chars glob) = elems (chars root) ++ down.

Lemma load_globs_allowed patterns globs : load_globs patterns = Ok globs -> Forall glob_allowed globs.
Proof.
  revert globs. induction patterns as [|p patterns IH]; intros globs; cbn [load_globs]; [intros [= <-]; constructor|].
  set (glob := Clean _). destruct (String.eqb glob ".") eqn:Ed; [done|]. destruct (withinAllowedNPMRoot glob) eqn:Ein; [|done]. cbn [negb orb].
  intros H. apply result_bind_ok in H as (rest & Hrest & [= <-]). constructor; [|by apply IH].
  apply existsb_exists in Ein as (root & Hroot & Hin). apply list_elem_of_In in Hroot. apply is_inside_spec in Hin as [Hr (down & Hd)].
  assert (is_rooted (chars root) = true) as Hr'.
  { unfold roots in Hroot. rewrite !elem_of_cons, elem_of_nil in Hroot. by destruct Hroot as [->|[->|[]]]. }
  rewrite Hr' in Hr. symmetry in Hr. split; [done|]. split; [|eauto]. unfold elems. rewrite Hr. intros H. rewrite elem_of_reverse in H. revert H. apply clean_rooted, not_elem_of_nil.
Qed.

Lemma load_interfaces_valid names interfaces : load_interfaces names = Ok interfaces -> Forall (fun name => validInterface (chars name) = true) interfaces.
Proof.
  revert interfaces. induction names as [|n names IH]; intros interfaces; cbn [load_interfaces]; [intros [= <-]; constructor|].
  destruct (validInterface (TrimSpace n)) eqn:Ev; [|done]. cbn [negb]. intros H. apply result_bind_ok in H as (rest & Hrest & [= <-]).
  constructor; [by rewrite chars_of_chars|by apply IH].
Qed.

(** What an agent that starts is configured with: a name, an endpoint and a token, a positive
    interval, log patterns that lie below one of the two roots without any [..], and
    interface names of one to fifteen plain characters. *)
Theorem config_sound lookup c : LoadAgent lookup = Ok c ->
  ac_NodeID c <> "" /\ ac_ServerEndpoint c <> "" /\ ac_AgentToken c <> "" /\ 0 < ac_Interval c /\ Forall glob_allowed (ac_NPMLogGlobs c) /\
  Forall (fun name => validInterface (chars name) = true) (ac_CaptureInterfaces c).
Proof.
  unfold LoadAgent. intros H. do 3 apply result_bind_ok in H as (? & ?%guard_err_ok & H).
  apply result_bind_ok in H as (interval & Hi & H). apply result_bind_ok in H as (attribution & Ha & H).
  apply result_bind_ok in H as (globs & Hg & H). apply result_bind_ok in H as (interfaces & Hn & [= <-]).
  cbn [ac_NodeID ac_ServerEndpoint ac_AgentToken ac_Interval ac_NPMLogGlobs ac_CaptureInterfaces]. rewrite !negb_true_iff, !String.eqb_neq in *. split_and!; [done..| | |].
  - cbv zeta in Hi. destruct (String.eqb (lookup "FLOWLENS_INTERVAL") ""); [injection Hi as <-; unfold Second; lia|]. destruct (ParseDuration (lookup "FLOWLENS_INTERVAL")) as [d|]; [|done].
    destruct (Z.leb_spec d 0); [done|]. by injection Hi as <-.
  - cbv zeta in Hg. destruct (String.eqb (lookup "FLOWLENS_NPM_LOG_GLOBS") ""); [injection Hg as <-; constructor|]. by apply load_globs_allowed in Hg.
  - cbv zeta in Hn. destruct (String.eqb (lookup "FLOWLENS_CAPTURE_INTERFACES") ""); [injection Hn as <-; constructor|]. by apply load_interfaces_valid in Hn.
Qed.

Definition environment (globs : string) : string -> string := fun name =>
  if String.eqb name "FLOWLENS_NODE_ID" then "node" else if String.eqb name "FLOWLENS_SERVER_ENDPOINT" then "https://x"
  else if String.eqb name "FLOWLENS_AGENT_TOKEN" then "token" else if String.eqb name "FLOWLENS_NPM_LOG_GLOBS" then globs else "".

Example globs_loaded : match LoadAgent (environment "/data/logs/*.log, /data//logs/./a/../b") with Ok c => ac_NPMLogGlobs c | Err _ => [] end = ["/data/logs/*.log"; "/data/logs/b"] /\
  is_ok (LoadAgent (environment "/data/logs/*/../../../etc/*")) = false /\ is_ok (LoadAgent (environment "/data/logs,")) = false.
Proof. vm_compute. done. Qed.
(** ** The server *)

Record ServerConfig : Type := MkServerConfig {
  sc_DatabaseURL : string; sc_AgentToken : string; sc_BootstrapToken : string; sc_SecretKey : list Z; sc_PublicURL : string; sc_WebhookAllowHTTP : bool;
  sc_ListenAddress : string; sc_WebDir : string; sc_GeoIPCountryPath : string; sc_GeoIPASNPath : string; sc_DatabaseBudgetBytes : Z; sc_ShutdownTimeout : duration }.

(** [hex.DecodeString] *)
Fixpoint decode_hex (cs : list ascii) : option (list Z) :=
  match cs with
  | [] => Some []
  | a :: b :: rest => hi ← hex_val a; lo ← hex_val b; bytes ← decode_hex rest; Some (hi * 16 + lo :: bytes)
  | [_] => None
  end.

(** [strconv.ParseBool] *)
Definition ParseBool (s : string) : option bool :=
  if bool_decide (s ∈ ["1"; "t"; "T"; "TRUE"; "true"; "True"]) then Some true
  else if bool_decide (s ∈ ["0"; "f"; "F"; "FALSE"; "false"; "False"]) then Some false else None.

Definition LoadServer {url : WebhookSettings.UrlParse} (lookup : string -> string) : result string ServerConfig :=
  let* _ := guard_err (negb (String.eqb (lookup "FLOWLENS_DATABASE_URL") "")) "FLOWLENS_DATABASE_URL is required" in
  let* _ := guard_err (negb (String.eqb (lookup "FLOWLENS_AGENT_TOKEN") "")) "FLOWLENS_AGENT_TOKEN is required" in
  let* _ := guard_err (negb (String.eqb (lookup "FLOWLENS_BOOTSTRAP_TOKEN") "")) "FLOWLENS_BOOTSTRAP_TOKEN is required" in
  let* secretKey :=
    match decode_hex (chars (lookup "FLOWLENS_SECRET_KEY")) with
    | Some key => if (length key =? 32)%nat then Ok key else Err "FLOWLENS_SECRET_KEY must be 64 hexadecimal characters"
    | None => Err "FLOWLENS_SECRET_KEY must be 64 hexadecimal characters"
    end in
  let* _ := guard_err
    match WebhookSettings.parse_url (lookup "FLOWLENS_PUBLIC_URL") with
    | Some u => String.eqb (WebhookSettings.ul_Scheme u) "https" && negb (String.eqb (WebhookSettings.ul_Hostname u) "") && negb (WebhookSettings.ul_User u)
    | None => false
    end "FLOWLENS_PUBLIC_URL must be an HTTPS URL" in
  let* allow :=
    let value := lookup "FLOWLENS_WEBHOOK_ALLOW_HTTP" in
    if String.eqb value "" then Ok false else match ParseBool value with Some b => Ok b | None => Err "FLOWLENS_WEBHOOK_ALLOW_HTTP must be true or false" end in
  let* timeout :=
    let value := lookup "FLOWLENS_SHUTDOWN_TIMEOUT" in
    if String.eqb value "" then Ok (10 * Second)
    else match ParseDuration value with
         | Some d => if d <=? 0 then Err "FLOWLENS_SHUTDOWN_TIMEOUT must be a positive duration" else Ok d
         | None => Err "FLOWLENS_SHUTDOWN_TIMEOUT must be a positive duration"
         end in
  let* budget :=
    let value := lookup "FLOWLENS_DATABASE_BUDGET_BYTES" in
    if String.eqb value "" then Ok (Z.shiftl 10 30)
    else match Atoi (chars value) with
         | Some n => if n <=? 0 then Err "FLOWLENS_DATABASE_BUDGET_BYTES must be a positive integer" else Ok n
         | None => Err "FLOWLENS_DATABASE_BUDGET_BYTES must be a positive integer"
         end in
  Ok (MkServerConfig (lookup "FLOWLENS_DATABASE_URL") (lookup "FLOWLENS_AGENT_TOKEN") (lookup "FLOWLENS_BOOTSTRAP_TOKEN") secretKey (lookup "FLOWLENS_PUBLIC_URL") allow
        (valueOrDefault (lookup "FLOWLENS_LISTEN_ADDRESS") "127.0.0.1:8088") (valueOrDefault (lookup "FLOWLENS_WEB_DIR") "/opt/flowlens/web")
        (valueOrDefault (lookup "FLOWLENS_GEOIP_COUNTRY_PATH") "/var/lib/flowlens/geoip/country.mmdb")
        (valueOrDefault (lookup "FLOWLENS_GEOIP_ASN_PATH") "/var/lib/flowlens/geoip/asn.mmdb") budget timeout).

Lemma hex_val_range c v : hex_val c = Some v -> 0 <= v < 16.
Proof. unfold hex_val. repeat case_match; intros [= <-]; lia. Qed.

Lemma decode_hex_bytes n cs bytes : (length cs <= n)%nat -> decode_hex cs = Some bytes -> Forall is_byte bytes /\ length cs = (2 * length bytes)%nat.
Proof.
  revert cs bytes. induction n as [|n IH]; intros cs bytes Hn; destruct cs as [|a [|b cs]]; simpl in Hn; try lia; cbn [decode_hex]; try done; try (intros [= <-]; by split).
  intros H. apply bind_Some in H as (hi & Ha & H). apply bind_Some in H as (lo & Hb & H). apply bind_Some in H as (rest & Hrest & [= <-]).
  destruct (IH cs rest) as [Hall Hlen]; [lia|done|]. apply hex_val_range in Ha, Hb. split; [constructor; [unfold is_byte; lia|done]|]. simpl. lia.
Qed.

(** What a server that starts is configured with: a database, both tokens, a key of
    thirty-two bytes for the webhook secret, a positive budget and a positive time to shut
    down. *)
Theorem config_usable {url : WebhookSettings.UrlParse} lookup c : LoadServer lookup = Ok c ->
  sc_DatabaseURL c <> "" /\ sc_AgentToken c <> "" /\ sc_BootstrapToken c <> "" /\ Forall is_byte (sc_SecretKey c) /\ length (sc_SecretKey c) = 32%nat /\
  0 < sc_DatabaseBudgetBytes c <= max_i64 /\ 0 < sc_ShutdownTimeout c.
Proof.
  unfold LoadServer. intros H. do 3 apply result_bind_ok in H as (? & ?%guard_err_ok & H).
  apply result_bind_ok in H as (key & Hk & H). apply result_bind_ok in H as (_ & _ & H). apply result_bind_ok in H as (allow & _ & H).
  apply result_bind_ok in H as (timeout & Ht & H). apply result_bind_ok in H as (budget & Hb & [= <-]).
  cbn [sc_DatabaseURL sc_AgentToken sc_BootstrapToken sc_SecretKey sc_DatabaseBudgetBytes sc_ShutdownTimeout]. rewrite !negb_true_iff, !String.eqb_neq in *.
  destruct (decode_hex _) as [key'|] eqn:Ek; [|done]. destruct (Nat.eqb_spec (length key') 32) as [El|]; [|done]. injection Hk as ->.
  split_and!; [done..|by eapply decode_hex_bytes|done| | |].
  - cbv zeta in Hb. destruct (String.eqb (lookup "FLOWLENS_DATABASE_BUDGET_BYTES") ""); [injection Hb as <-; by vm_compute|].
    destruct (Atoi _) as [n|]; [|done]. destruct (Z.leb_spec n 0); [done|]. by injection Hb as <-.
  - cbv zeta in Hb. destruct (String.eqb (lookup "FLOWLENS_DATABASE_BUDGET_BYTES") ""); [injection Hb as <-; by vm_compute|].
    destruct (Atoi _) as [n|] eqn:En; [|done]. apply Atoi_range in En. destruct (Z.leb_spec n 0); [done|]. by injection Hb as <-.
  - cbv zeta in Ht. destruct (String.eqb (lookup "FLOWLENS_SHUTDOWN_TIMEOUT") ""); [injection Ht as <-; by vm_compute|].
    destruct (ParseDuration _) as [d|]; [|done]. destruct (Z.leb_spec d 0); [done|]. by injection Ht as <-.
Qed.
(** ** Monthly partitions *)

Definition day : duration := 24 * Hour.

(** [AddDate(0, months, 0)]: months beyond December go on in the next year. *)
Definition AddMonths (t : time) (months : Z) : time :=
  let '(y, m, d) := civil_from_days (t / day) in
  let m := m - 1 + months in
  (days_from_civil (y + m / 12) (m mod 12 + 1) 1 + d - 1) * day + t mod day.

(** The first of the month that an instant is in. *)
Definition current_month (at_ : time) : time :=
  let '(y, m, _) := civil_from_days (Truncate at_ day / day) in days_from_civil y m 1 * day.

Record statement : Type := MkStatement { sm_name : string; sm_parent : string; sm_from : time; sm_to : time }.

(** [start.Format("200601")] *)
Definition month_text (t : time) : list ascii := let '(y, m, _) := civil_from_days (t / day) in format_padded 4 y ++ format_padded 2 m.

(** A full second is written by [time.RFC3339] as by [time.RFC3339Nano]. *)
Definition quoteTimestamp (value : time) : list ascii := "'"%char :: format_rfc3339nano value ++ ["'"%char].

Definition parents : list string := ["interface_deltas"; "connection_details"; "proxy_request_details"].

Definition month_statement (at_ : time) (parent : string) (offset : Z) : statement :=
  let start := AddMonths (current_month at_) offset in
  MkStatement (parent +:+ "_" +:+ of_chars (month_text start)) parent start (AddMonths start 1).

Definition statements (at_ : time) : list statement := parents ≫= fun parent => month_statement at_ parent <$> [0; 1; 2].

Section ensure.
(** [pgx.Identifier.Sanitize] of a name of one part. *)
Variable Sanitize : string -> string.

Definition statement_text (s : statement) : string :=
  of_chars (chars "CREATE TABLE IF NOT EXISTS " ++ chars (Sanitize (sm_name s)) ++ chars " PARTITION OF " ++ chars (Sanitize (sm_parent s)) ++
            chars " FOR VALUES FROM (" ++ quoteTimestamp (sm_from s) ++ chars ") TO (" ++ quoteTimestamp (sm_to s) ++ chars ")").

(** The loop over the statements, up to the first that fails: those sent, and the name in
    the error. *)
Fixpoint ensure_each (exec : string -> bool) (l : list statement) : list statement * result string unit :=
  match l with
  | [] => ([], Ok tt)
  | s :: l => if exec (statement_text s) then let '(sent, r) := ensure_each exec l in (s :: sent, r) else ([s], Err (sm_name s))
  end.

Definition Ensure (exec : string -> bool) (at_ : time) : list statement * result string unit := ensure_each exec (statements at_).

End ensure.

Example month_sample : statement_text (fun name => name) <$> head (statements (1784041200 * Second)) =
  Some "CREATE TABLE IF NOT EXISTS interface_deltas_202607 PARTITION OF interface_deltas FOR VALUES FROM ('2026-07-01T00:00:00Z') TO ('2026-08-01T00:00:00Z')".
Proof. vm_compute. reflexivity. Qed.

(** *** The calendar

    Years begin in March: [march_year y] is the day such a year begins with, counted from
    the first of March of year 0, and a month that follows [k] others begins
    [(153 * k + 2) / 5] days later. *)

Definition march_year (y : Z) : Z := 365 * y + y / 4 - y / 100 + y / 400.

Definition month_shift (k : Z) : Z := (153 * k + 2) / 5.

Lemma march_period y k : march_year (y + k * 400) = march_year y + k * 146097.
Proof.
  unfold march_year. replace (y + k * 400) with (y + (k * 100) * 4) at 2 by lia. replace (y + k * 400) with (y + (k * 4) * 100) at 2 by lia.
  rewrite !Z.div_add by done. lia.
Qed.

Lemma march_next y : march_year y + 365 <= march_year (y + 1) <= march_year y + 366.
Proof. unfold march_year. Z.to_euclidean_division_equations; lia. Qed.

(** The year of an era, from the day. *)
Definition year_of_era (doe : Z) : Z := (doe - doe / 1460 + doe / 36524 - doe / 146096) / 365.

Lemma year_of_era_mono a b : 0 <= a <= b -> year_of_era a <= year_of_era b.
Proof.
  intros H. unfold year_of_era. apply Z.div_le_mono; [done|]. change 146096 with (36524 * 4). rewrite <- !Z.div_div by done.
  assert (a - a / 1460 <= b - b / 1460) by (Z.to_euclidean_division_equations; lia).
  assert (a / 36524 <= b / 36524) by (apply Z.div_le_mono; lia). set (p := a / 36524) in *. set (q := b / 36524) in *. clearbody p q.
  assert (p - p / 4 <= q - q / 4) by (Z.to_euclidean_division_equations; lia). lia.
Qed.

(** All numbers of a range pass a test. *)
Fixpoint range_ok (test : Z -> bool) (n : nat) (i : Z) : bool := match n with O => true | S n => test i && range_ok test n (i + 1) end.

Lemma range_ok_spec test n i j : range_ok test n i = true -> i <= j < i + Z.of_nat n -> test j = true.
Proof.
  revert i. induction n as [|n IH]; intros i; cbn [range_ok]; [lia|]. intros [Ht Hr]%andb_true_iff Hj.
  destruct (decide (i = j)) as [<-|]; [done|]. apply (IH (i + 1)); [done|lia].
Qed.

Lemma year_of_era_ends y : 0 <= y < 400 -> year_of_era (march_year y) = y /\ year_of_era (march_year (y + 1) - 1) = y.
Proof.
  intros Hy. apply (range_ok_spec (fun y => (year_of_era (march_year y) =? y) && (year_of_era (march_year (y + 1) - 1) =? y)) 400 0) in Hy; [|vm_compute; reflexivity].
  by rewrite andb_true_iff, !Z.eqb_eq in Hy.
Qed.

Lemma march_year_exists (n : nat) doe : 0 <= doe < march_year (Z.of_nat n) -> exists y, 0 <= y < Z.of_nat n /\ march_year y <= doe < march_year (y + 1).
Proof.
  induction n as [|n IH]; [change (march_year (Z.of_nat 0)) with 0; lia|]. intros H. destruct (decide (march_year (Z.of_nat n) <= doe)) as [Hle|Hgt].
  - exists (Z.of_nat n). replace (Z.of_nat n + 1) with (Z.of_nat (S n)) by lia. lia.
  - destruct IH as (y & Hy & Hm); [lia|]. exists y. lia.
Qed.

Lemma year_of_era_ok doe : 0 <= doe < 146097 -> 0 <= year_of_era doe < 400 /\ march_year (year_of_era doe) <= doe < march_year (year_of_era doe + 1).
Proof.
  intros Hd. destruct (march_year_exists 400 doe) as (y & Hy & Hm); [exact Hd|]. destruct (year_of_era_ends y Hy) as [E1 E2].
  assert (0 <= march_year y) as H0 by (unfold march_year; Z.to_euclidean_division_equations; lia).
  assert (year_of_era doe = y) as ->; [|done]. pose proof (year_of_era_mono (march_year y) doe). pose proof (year_of_era_mono doe (march_year (y + 1) - 1)). lia.
Qed.

(** A date in years that begin in March. *)
Lemma days_march y m d : 1 <= m <= 12 ->
  days_from_civil y m d = march_year (if m <=? 2 then y - 1 else y) + month_shift (if 2 <? m then m - 3 else m + 9) + d - 1 - 719468.
Proof.
  intros Hm. unfold days_from_civil, month_shift. cbv zeta. set (y' := if m <=? 2 then _ else _). set (k := if 2 <? m then _ else _). clearbody y' k.
  pose proof (Z.div_mod y' 400 ltac:(done)) as Hy. set (e := y' / 400) in *. set (r := y' mod 400) in *. pose proof (Z.mod_pos_bound y' 400 ltac:(done)) as Hr. fold r in Hr. clearbody e r.
  replace y' with (r + e * 400) by lia. rewrite march_period. replace (r + e * 400 - e * 400) with r by lia. unfold march_year. rewrite (Z.div_small r 400) by lia. lia.
Qed.

(** Each month begins after the one before. *)
Definition next_month (y m : Z) : Z := days_from_civil (y + m / 12) (m mod 12 + 1) 1.

Lemma next_month_march y m : 1 <= m <= 12 ->
  next_month y m = (if m =? 2 then march_year y else march_year (if m <=? 2 then y - 1 else y) + month_shift ((if 2 <? m then m - 3 else m + 9) + 1)) - 719468.
Proof.
  intros Hm. unfold next_month. destruct (decide (m = 12)) as [->|H12].
  - rewrite days_march by done. change (12 / 12) with 1. change (12 mod 12 + 1) with 1. change (1 <=? 2) with true. change (2 <? 1) with false.
    change (12 =? 2) with false. change (12 <=? 2) with false. change (2 <? 12) with true. cbv iota. change (1 + 9) with (12 - 3 + 1).
    replace (y + 1 - 1) with y by lia. lia.
  - rewrite Z.div_small, Z.mod_small by lia. rewrite days_march by lia. replace (y + 0) with y by lia.
    destruct (Z.eqb_spec m 2) as [->|H2]; [change (2 + 1 <=? 2) with false; change (2 <? 2 + 1) with true; cbv iota; change (month_shift (2 + 1 - 3)) with 0; lia|].
    destruct (Z.leb_spec (m + 1) 2), (Z.leb_spec m 2), (Z.ltb_spec 2 (m + 1)), (Z.ltb_spec 2 m); try lia;
      [replace (m + 1 + 9) with (m + 9 + 1) by lia; lia|replace (m + 1 - 3) with (m - 3 + 1) by lia; lia].
Qed.

Lemma month_before_next y m : 1 <= m <= 12 -> days_from_civil y m 1 < next_month y m.
Proof.
  intros Hm. rewrite next_month_march, days_march by done. pose proof (march_next (y - 1)) as Hn. replace (y - 1 + 1) with y in Hn by lia.
  unfold month_shift. destruct (Z.eqb_spec m 2) as [->|H2]; [change ((153 * (if 2 <? 2 then 2 - 3 else 2 + 9) + 2) / 5) with 337; simpl; lia|].
  set (k := if 2 <? m then _ else _). Z.to_euclidean_division_equations; lia.
Qed.

Lemma civil_month d : let '(y, m, dd) := civil_from_days d in
  1 <= m <= 12 /\ days_from_civil y m 1 + dd - 1 = d /\ days_from_civil y m 1 <= d < next_month y m.
Proof.
  unfold civil_from_days. cbv zeta. set (era := (d + 719468) / 146097). set (doe := d + 719468 - era * 146097).
  assert (0 <= doe < 146097) as Hdoe by (unfold doe, era; Z.to_euclidean_division_equations; lia).
  fold (year_of_era doe). destruct (year_of_era_ok doe Hdoe) as [Hy Hm]. set (yoe := year_of_era doe) in *. clearbody yoe.
  set (doy := doe - _). assert (march_year yoe = 365 * yoe + yoe / 4 - yoe / 100) as Em by (unfold march_year; rewrite (Z.div_small yoe 400) by lia; lia).
  assert (doy = doe - march_year yoe) as Edoy by (unfold doy; lia). pose proof (march_next yoe) as Hnext. set (k := (5 * doy + 2) / 153).
  assert (0 <= doy <= 365 /\ doy < march_year (yoe + 1) - march_year yoe) as Hdoy by lia. clearbody doy.
  assert (0 <= k <= 11 /\ month_shift k <= doy < month_shift (k + 1)) as [Hk Hshift] by (unfold k, month_shift; Z.to_euclidean_division_equations; lia).
  assert (march_year (yoe + era * 400) = march_year yoe + era * 146097 /\ march_year (yoe + era * 400 + 1) = march_year (yoe + 1) + era * 146097) as [Ey Ey1].
  { split; [apply march_period|]. replace (yoe + era * 400 + 1) with (yoe + 1 + era * 400) by lia. apply march_period. }
  change ((153 * k + 2) / 5) with (month_shift k).
  destruct (Z.ltb_spec k 10) as [Hk10|Hk10].
  - destruct (Z.leb_spec (k + 3) 2) as [?|_]; [lia|]. rewrite Z.add_0_r. split; [lia|]. rewrite next_month_march, !days_march by lia.
    rewrite (proj2 (Z.eqb_neq _ _)), (proj2 (Z.leb_gt _ _)), (proj2 (Z.ltb_lt _ _)) by lia. replace (k + 3 - 3) with k by lia. lia.
  - destruct (Z.leb_spec (k - 9) 2) as [_|?]; [|lia]. split; [lia|]. rewrite next_month_march, !days_march by lia.
    rewrite (proj2 (Z.leb_le _ _)), (proj2 (Z.ltb_ge _ _)) by lia. replace (k - 9 + 9) with k by lia. replace (yoe + era * 400 + 1 - 1) with (yoe + era * 400) by lia.
    destruct (Z.eqb_spec (k - 9) 2) as [E|E]; [|lia]. replace k with 11 in * by lia. change (month_shift 11) with 337 in *. lia.
Qed.

(** The first of a month, counted from year 0. *)
Definition month (n : Z) : time := days_from_civil (n / 12) (n mod 12 + 1) 1 * day.

Lemma month_at y m : 1 <= m <= 12 -> month (y * 12 + (m - 1)) = days_from_civil y m 1 * day /\ month (y * 12 + (m - 1) + 1) = next_month y m * day.
Proof.
  intros Hm. unfold month, next_month. replace (y * 12 + (m - 1) + 1) with (m + y * 12) by lia. replace (y * 12 + (m - 1)) with (m - 1 + y * 12) by lia.
  rewrite !Z.div_add, !Z.mod_add by done. rewrite (Z.div_small (m - 1)), (Z.mod_small (m - 1)) by lia. replace (m - 1 + 1) with m by lia.
  by rewrite Z.add_0_l, (Z.add_comm (m / 12)).
Qed.

Lemma month_lt n : month n < month (n + 1).
Proof.
  pose proof (Z.mod_pos_bound n 12 ltac:(done)). pose proof (Z.div_mod n 12 ltac:(done)).
  destruct (month_at (n / 12) (n mod 12 + 1)) as [E1 E2]; [lia|]. replace (n / 12 * 12 + (n mod 12 + 1 - 1)) with n in * by lia. rewrite E1, E2.
  pose proof (month_before_next (n / 12) (n mod 12 + 1) ltac:(lia)). assert (0 < day) by done. nia.
Qed.

Lemma month_mono n k : n <= k -> month n <= month k.
Proof.
  intros H. replace k with (n + Z.of_nat (Z.to_nat (k - n))) by lia. clear H. induction (Z.to_nat (k - n)) as [|j IH]; [rewrite Z.add_0_r; lia|].
  pose proof (month_lt (n + Z.of_nat j)). replace (n + Z.of_nat (S j)) with (n + Z.of_nat j + 1) by lia. lia.
Qed.

Lemma month_of_day d : exists n, civil_from_days d = (n / 12, n mod 12 + 1, d - month n / day + 1) /\ month n <= d * day < month (n + 1) /\ (day | month n).
Proof.
  pose proof (civil_month d) as H. destruct (civil_from_days d) as [[y m] dd]. destruct H as (Hm & Hdd & Hle & Hlt). exists (y * 12 + (m - 1)).
  destruct (month_at y m Hm) as [-> ->]. rewrite Z.div_mul by done. rewrite Z.add_comm, Z.div_add, Z.mod_add by done. rewrite Z.div_small, Z.mod_small by lia.
  assert (0 < day) by done. split; [f_equal; [f_equal|]; lia|]. split; [nia|]. by exists (days_from_civil y m 1).
Qed.

Lemma AddMonths_month n k : AddMonths (month n) k = month (n + k).
Proof.
  assert (month n = month n / day * day) as E.
  { unfold month. by rewrite Z.div_mul. }
  unfold AddMonths. destruct (month_of_day (month n / day)) as (p & -> & Hp & _). rewrite <- E in Hp.
  assert (p = n) as ->.
  { destruct (Z.lt_trichotomy p n) as [H|[H|H]]; [|done|].
    - pose proof (month_mono (p + 1) n). lia.
    - pose proof (month_mono (n + 1) p). pose proof (month_lt n). lia. }
  replace (month n mod day) with 0 by (rewrite E; symmetry; by apply Z.mod_mul). cbv zeta.
  replace (n mod 12 + 1 - 1 + k) with (n mod 12 + k) by lia.
  assert (n / 12 + (n mod 12 + k) / 12 = (n + k) / 12 /\ (n mod 12 + k) mod 12 = (n + k) mod 12) as [-> ->].
  { pose proof (Z.div_mod n 12 ltac:(done)). split; [|by rewrite Z.add_mod_idemp_l].
    replace (n + k) with (n mod 12 + k + n / 12 * 12) by lia. rewrite Z.div_add by done. lia. }
  replace (month n / day - month n / day + 1) with 1 by lia. unfold month. lia.
Qed.

Lemma current_month_at at_ : exists n, current_month at_ = month n /\ month n <= at_ < month (n + 1).
Proof.
  assert (Truncate at_ day / day = at_ / day) as E.
  { unfold Truncate. replace (at_ - zero_time) with (at_ + 719162 * day) by (unfold zero_time, day, Hour, Minute, Second; lia).
    rewrite Z.mod_add by done. pose proof (Z.div_mod at_ day ltac:(done)). replace (at_ - at_ mod day) with (at_ / day * day) by lia. by rewrite Z.div_mul. }
  unfold current_month. rewrite E. destruct (month_of_day (at_ / day)) as (n & -> & [Hle Hlt] & _). exists n. split; [done|].
  pose proof (Z.div_mod at_ day ltac:(done)) as Hd. pose proof (Z.mod_pos_bound at_ day ltac:(done)). rewrite Z.mul_comm in Hd. split; [lia|].
  assert (exists p, month (n + 1) = p * day) as [p Hp] by (by eexists). rewrite Hp in *. assert (0 < day) by done.
  set (q := at_ / day) in *. clearbody q. assert (q + 1 <= p) by (apply Z.lt_succ_r; nia). nia.
Qed.

(** The partitions of a table: three months, one behind the other, the first of them the
    one that the clock is in; so a row of the next month and of the one after it has a
    partition too, however the months lie in the year. *)
Theorem partitions_tile at_ parent : parent ∈ parents -> exists n,
  filter (fun s => sm_parent s = parent) (statements at_) = month_statement at_ parent <$> [0; 1; 2] /\
  month n <= at_ < month (n + 1) /\
  forall k, k ∈ [0; 1; 2] -> sm_from (month_statement at_ parent k) = month (n + k) /\ sm_to (month_statement at_ parent k) = month (n + k + 1).
Proof.
  intros Hp. destruct (current_month_at at_) as (n & Hn & Hat). exists n. split_and!; [|lia|lia|].
  - unfold parents in Hp. rewrite !elem_of_cons, elem_of_nil in Hp. destruct Hp as [->|[->|[->|[]]]]; reflexivity.
  - intros k _. unfold month_statement. cbn [sm_from sm_to]. by rewrite Hn, !AddMonths_month.
Qed.

(** ** GeoIP *)

(** [netip.Addr.IsPrivate], [IsMulticast] and [IsUnspecified]; the last does not unmap. *)
Definition IsPrivate (a : ip_addr) : bool :=
  match Unmap a with
  | IPv4 b => (nth 0 b 0 =? 10) || ((nth 0 b 0 =? 172) && (Z.land (nth 1 b 0) 240 =? 16)) || ((nth 0 b 0 =? 192) && (nth 1 b 0 =? 168))
  | IPv6 b _ => Z.land (nth 0 b 0) 254 =? 252
  end.

Definition IsMulticast (a : ip_addr) : bool :=
  match Unmap a with IPv4 b => Z.land (nth 0 b 0) 240 =? 224 | IPv6 b _ => nth 0 b 0 =? 255 end.

Definition IsUnspecified (a : ip_addr) : bool := bool_decide (a = IPv4 [0; 0; 0; 0]) || bool_decide (a = IPv6 (replicate 16 0) "").

Definition reservedPrefixes : list prefix :=
  [MkPrefix (IPv4 [100; 64; 0; 0]) 10; MkPrefix (IPv4 [192; 0; 2; 0]) 24; MkPrefix (IPv4 [198; 18; 0; 0]) 15; MkPrefix (IPv4 [198; 51; 100; 0]) 24;
   MkPrefix (IPv4 [203; 0; 113; 0]) 24; MkPrefix (IPv6 ([32; 1; 13; 184] ++ replicate 12 0) "") 32].

Definition isReserved (a : ip_addr) : bool :=
  IsPrivate a || IsLoopback a || IsLinkLocalUnicast a || IsMulticast a || IsUnspecified a || existsb (fun p => Contains p a) reservedPrefixes.

(** What the files hold of an address: the country with its names, and the system. *)
Record countryRecord : Type := MkCountry { ISOCode : string; Names : gmap string string }.

Record asnRecord : Type := MkAsn { Number : Z; AsnOrganization : string }.

(** An open file; [handle] tells it from every other. *)
Record database (R : Type) : Type := MkDatabase { handle : nat; find_record : ip_addr -> option R }.
Arguments MkDatabase {R} _ _.
Arguments handle {R} _.
Arguments find_record {R} _ _.

(** [opened] are the files the process has open; [closed]: [closeOnce] has run. *)
Record Resolver : Type := MkResolver {
  country : option (database countryRecord); asn : option (database asnRecord); closed : bool; opened : gset nat; next_handle : nat }.

Definition New : Resolver := MkResolver None None false ∅ 0.

Definition Lookup (r : Resolver) (address : ip_addr) : NetworkInfo :=
  if isReserved address then MkNetworkInfo "" "" 0 "" "local_or_reserved"
  else
    let result := MkNetworkInfo "" "" 0 "" "unknown" in
    let result :=
      match country r ≫= fun db => find_record db address with
      | Some c =>
          let name := default "" (Names c !! "zh-CN") in
          MkNetworkInfo (ISOCode c) (if String.eqb name "" then default "" (Names c !! "en") else name) (ASN result) (Organization result) "public"
      | None => result
      end in
    match asn r ≫= fun db => find_record db address with
    | Some a => MkNetworkInfo (CountryCode result) (CountryName result) (Number a) (AsnOrganization a) "public"
    | None => result
    end.

Definition close_file {R} (db : option (database R)) (files : gset nat) : gset nat := match db with Some db => files ∖ {[handle db]} | None => files end.

(** What [maxminddb.Open] finds at the two paths: [None] when it fails. *)
Definition Reload (country_file : option (ip_addr -> option countryRecord)) (asn_file : option (ip_addr -> option asnRecord)) (r : Resolver)
  : Resolver * result string unit :=
  match country_file with
  | None => (r, Err "open country")
  | Some find_country =>
      let countryReader := MkDatabase (next_handle r) find_country in
      let r := MkResolver (country r) (asn r) (closed r) ({[handle countryReader]} ∪ opened r) (S (next_handle r)) in
      match asn_file with
      | None => (MkResolver (country r) (asn r) (closed r) (close_file (Some countryReader) (opened r)) (next_handle r), Err "open asn")
      | Some find_asn =>
          let asnReader := MkDatabase (next_handle r) find_asn in
          let r := MkResolver (country r) (asn r) (closed r) ({[handle asnReader]} ∪ opened r) (S (next_handle r)) in
          (MkResolver (Some countryReader) (Some asnReader) (closed r) (close_file (asn r) (close_file (country r) (opened r))) (next_handle r), Ok tt)
      end
  end.

Definition Close (r : Resolver) : Resolver :=
  if closed r then r else MkResolver None None true (close_file (asn r) (close_file (country r) (opened r))) (next_handle r).

Inductive operation : Type :=
| ReloadCall (country_file : option (ip_addr -> option countryRecord)) (asn_file : option (ip_addr -> option asnRecord))
| CloseCall.

Definition operate (r : Resolver) (op : operation) : Resolver := match op with ReloadCall c a => (Reload c a r).1 | CloseCall => Close r end.

Definition held {R} (db : option (database R)) : gset nat := match db with Some db => {[handle db]} | None => ∅ end.

(** The open files are the two in use. *)
Record files_ok (r : Resolver) : Prop := {
  fo_opened : opened r = held (country r) ∪ held (asn r);
  fo_fresh : forall h, h ∈ opened r -> (h < next_handle r)%nat;
  fo_distinct : held (country r) ## held (asn r) }.

Lemma Reload_files c a r : files_ok r -> files_ok (Reload c a r).1.
Proof.
  intros [Ho Hf Hd]. unfold Reload. destruct c as [c|]; [|by split]. destruct a as [a|]; cbn [fst]; split; cbn [country asn opened next_handle handle close_file held].
    assert ((next_handle r ∉ opened r) /\ (S (next_handle r) ∉ opened r)) as [H1 H2] by (split; intros H%Hf; lia).
    rewrite Ho in *. destruct (country r) as [x|], (asn r) as [y|]; cbn [held close_file] in *; set_solver by lia.
  - intros h Hh. assert (h ∈ {[S (next_handle r)]} ∪ ({[next_handle r]} ∪ opened r)) as H.
    { destruct (country r), (asn r); cbn [close_file] in Hh; set_solver. }
    rewrite !elem_of_union, !elem_of_singleton in H. destruct H as [->|[->|H%Hf]]; lia.
  - apply disjoint_singleton_l, not_elem_of_singleton. lia.
  - assert (next_handle r ∉ opened r) as H1 by (intros H%Hf; lia). rewrite <- Ho. set_solver.
  - intros h Hh. assert (h ∈ opened r) as H%Hf by set_solver. lia.
  - done.
Qed.

Lemma Close_files r : files_ok r -> files_ok (Close r).
Proof.
  intros [Ho Hf Hd]. unfold Close. destruct (closed r); [by split|]. split; cbn [country asn opened next_handle held].
  - rewrite Ho. destruct (country r), (asn r); cbn [held close_file]; set_solver.
  - intros h Hh. apply Hf. destruct (country r), (asn r); cbn [close_file] in Hh; set_solver.
  - set_solver.
Qed.

(** Whatever databases are loaded, reloaded and closed, and whichever files fail to open: the
    files that are open are the two in use, none is left behind and none in use is closed. *)
Theorem files_held ops : opened (foldl operate New ops) = held (country (foldl operate New ops)) ∪ held (asn (foldl operate New ops)).
Proof.
  apply fo_opened. assert (files_ok New) as H by (split; [done|intros h Hh; set_solver|done]). revert H. generalize New. induction ops as [|op ops IH]; intros r Hr; [done|].
  cbn [foldl]. apply IH. destruct op; [by apply Reload_files|by apply Close_files].
Qed.

(** A database that is loaded after the resolver was closed stays open: a second [Close]
    does nothing. *)
Example reload_after_close :
  opened (foldl operate New [ReloadCall (Some (fun _ => None)) (Some (fun _ => None)); CloseCall; ReloadCall (Some (fun _ => None)) (Some (fun _ => None)); CloseCall]) = {[2; 3]}%nat.
Proof. vm_compute. reflexivity. Qed.

(** The class of an address: reserved ones are told without a look into the files, and one
    is public exactly when a file knows it. *)
Theorem lookup_class r address :
  (isReserved address = true -> Lookup r address = MkNetworkInfo "" "" 0 "" "local_or_reserved") /\
  (isReserved address = false ->
     (Classification (Lookup r address) = "public" <->
        is_Some (country r ≫= fun db => find_record db address) \/ is_Some (asn r ≫= fun db => find_record db address)) /\
     (Classification (Lookup r address) <> "public" -> Lookup r address = MkNetworkInfo "" "" 0 "" "unknown")).
Proof.
  unfold Lookup. destruct (isReserved address); [done|]. split; [done|]. intros _.
  destruct (country r ≫= _) as [c|], (asn r ≫= _) as [a|]; cbn [Classification]; split; try done.
  - split; [by eauto|done].
  - split; [by eauto|done].
  - split; [by eauto|done].
  - split; [done|]. intros [[? ?]|[? ?]]; done.
Qed.

(** Shared addresses are reserved, but not when they are written as IPv6 addresses, which
    is how a socket for both families shows its peers. *)
Example mapped_not_reserved :
  isReserved <$> [IPv4 [100; 64; 0; 1]; IPv6 (replicate 10 0 ++ [255; 255; 100; 64; 0; 1]) ""; IPv6 (replicate 10 0 ++ [255; 255; 10; 0; 0; 1]) ""; IPv4 [8; 8; 8; 8]] =
  [true; false; true; false].
Proof. vm_compute. reflexivity. Qed.

(** ** The reload handler *)

Definition sha256_text (s : string) : list Z := Sum256 (code <$> chars s).

(** The status, with the error or the answer. *)
Definition ServeReload (token : string) (method authorization : string) (country_file : option (ip_addr -> option countryRecord))
    (asn_file : option (ip_addr -> option asnRecord)) (r : Resolver) : Resolver * (Z * string) :=
  if negb (String.eqb method "POST") then (r, (405, "method_not_allowed"))
  else
    let given := Docker.TrimPrefix authorization "Bearer " in
    if String.eqb given "" || negb (bool_decide (sha256_text token = sha256_text given)) then (r, (401, "unauthorized"))
    else
      match Reload country_file asn_file r with
      | (r, Err _) => (r, (503, "reload_failed"))
      | (r, Ok _) => (r, (200, "ok"))
      end.

(** Only a request with a text of the token's hash changes anything. *)
Lemma reload_authorized token method authorization c a r :
  (ServeReload token method authorization c a r).1 <> r -> method = "POST" /\ Docker.TrimPrefix authorization "Bearer " <> "" /\
  sha256_text (Docker.TrimPrefix authorization "Bearer ") = sha256_text token.
Proof.
  unfold ServeReload. destruct (String.eqb_spec method "POST") as [->|]; [|done]. cbn [negb].
  destruct (String.eqb_spec (Docker.TrimPrefix authorization "Bearer ") ""); [done|]. case_bool_decide; done.
Qed.

(** ** Migrations

    [migrations/embed.go]: the scripts built into the server, run at its start, each in a
    transaction with its entry in the ledger.  The scripts leave the ledger alone. *)

Module Migrations.
Import Sql.
Local Open Scope flow_scope.

(** The ledger, absent before the first start, and whatever the scripts make. *)
Record ledger_db (T : Type) : Type := MkLedgerDb { ledger : option (list string); schema : T }.
Arguments MkLedgerDb {T} _ _.
Arguments ledger {T} _.
Arguments schema {T} _.

Section apply.
Context {T : Type}.
(** The scripts built in, and what PostgreSQL makes of a script: the tables after it, or a
    refusal. *)
Variable files : list (string * string).
Variable script : string -> T -> option T.

Definition ReadFile (version : string) : option string := snd <$> List.find (fun f => String.eqb f.1 version) files.

(** Names longer than [.sql] that end in it, sorted. *)
Definition is_script (name : string) : bool :=
  (4 <? length (chars name))%nat && String.eqb (of_chars (drop (length (chars name) - 4) (chars name))) ".sql".

Definition versions : list string := sort_strings (List.filter is_script (fst <$> files)).

Definition ledger_has (version : string) (db : ledger_db T) : option (bool * ledger_db T) :=
  if sql_text version then l ← ledger db; Some (bool_decide (version ∈ l), db) else None.

Definition run_script (sql : string) (db : ledger_db T) : option (unit * ledger_db T) :=
  (fun s => (tt, MkLedgerDb (ledger db) s)) <$> script sql (schema db).

(** [version] is the primary key. *)
Definition record_version (version : string) (db : ledger_db T) : option (unit * ledger_db T) :=
  match ledger db with
  | Some l => if bool_decide (version ∈ l) then None else Some (tt, MkLedgerDb (Some (l ++ [version])%list) (schema db))
  | None => None
  end.

Definition migrate (version : string) : Sql (ledger_db T) unit :=
  let+ applied := statement "check migration" (ledger_has version) in
  if applied then sql_ret tt
  else
    match ReadFile version with
    | None => sql_fail "read migration"
    | Some sql =>
        let+ _ := statement "apply migration" (run_script sql) in
        statement "record migration" (record_version version)
    end.

Definition applyOne (version : string) (left : nat) (outcome : commit_outcome) (db : ledger_db T) : ledger_db T * result string unit :=
  transact (migrate version) left outcome db.

(** [CREATE TABLE IF NOT EXISTS] *)
Definition create_ledger (db : ledger_db T) : option (ledger_db T * Z) := Some (MkLedgerDb (Some (default [] (ledger db))) (schema db), 0).

(** How the connection behaves in one start: at the ledger, then in each transaction. *)
Record weather : Type := MkWeather { at_ledger : commit_outcome; at_version : string -> nat * commit_outcome }.

Fixpoint apply_each (w : weather) (vs : list string) (db : ledger_db T) : ledger_db T * result string unit :=
  match vs with
  | [] => (db, Ok tt)
  | v :: vs =>
      match applyOne v (at_version w v).1 (at_version w v).2 db with
      | (db, Ok _) => apply_each w vs db
      | (db, Err e) => (db, Err e)
      end
  end.

Definition Apply (w : weather) (db : ledger_db T) : ledger_db T * result string unit :=
  match exec_rows (at_ledger w) create_ledger db with
  | (db, Err e) => (db, Err e)
  | (db, Ok _) => apply_each w versions db
  end.

Definition starts (ws : list weather) (db : ledger_db T) : ledger_db T := foldl (fun db w => (Apply w db).1) db ws.

(** The reference: the scripts one after the other. *)
Definition replay (vs : list string) (s : T) : option T :=
  foldl (fun o v => s ← o; sql ← ReadFile v; script sql s) (Some s) vs.

(** The first [n] scripts have run on [s0], each once, and are in the ledger. *)
Definition migrated (s0 : T) (n : nat) (db : ledger_db T) : Prop :=
  default [] (ledger db) = take n versions /\ (n <= length versions)%nat /\ replay (take n versions) s0 = Some (schema db).

Lemma replay_snoc vs v s : replay (vs ++ [v]) s = s ← replay vs s; sql ← ReadFile v; script sql s.
Proof. unfold replay. by rewrite foldl_app. Qed.

Hypothesis names : NoDup (fst <$> files).

Lemma versions_nodup : NoDup versions.
Proof.
  unfold versions. rewrite sort_strings_perm. apply NoDup_ListNoDup, List.NoDup_filter. by apply NoDup_ListNoDup.
Qed.

Lemma version_at n v : versions !! n = Some v -> v ∉ take n versions.
Proof.
  intros Hv [i Hi]%list_elem_of_lookup. apply lookup_take_Some in Hi as [Hi Hlt].
  pose proof (NoDup_lookup _ _ _ _ versions_nodup Hi Hv). lia.
Qed.

(** One script: nothing happens, or it runs and is recorded. *)
Lemma migrate_yields s0 n i v : versions !! i = Some v -> (i <= n)%nat ->
  yields (fun db => migrated s0 n db) (migrate v) (fun _ db => exists m, (n <= m)%nat /\ (i < m)%nat /\ migrated s0 m db).
Proof.
  intros Hv Hi. unfold migrate.
  apply (yields_bind _ _ (fun a db => migrated s0 n db /\ a = bool_decide (v ∈ default [] (ledger db)) /\ is_Some (ledger db))).
  { apply yields_statement. intros db a db' Hm. unfold ledger_has. destruct (sql_text v); [|done].
    destruct (ledger db) as [l|] eqn:E; [|done]. intros [= <- <-]. rewrite E. split_and!; [done|done|by eexists]. }
  intros applied. destruct applied.
  { apply yields_ret. intros db (Hm & Hin & _). exists n. split_and!; [done| |done].
    symmetry in Hin. apply bool_decide_eq_true in Hin. destruct Hm as (El & _ & _). rewrite El in Hin.
    destruct (decide (i = n)) as [->|]; [by apply version_at in Hv|lia]. }
  destruct (ReadFile v) as [sql|] eqn:Er; [|apply yields_fail].
  apply (yields_bind _ _ (fun _ db => exists s, migrated s0 n (MkLedgerDb (ledger db) s) /\ i = n /\ script sql s = Some (schema db))).
  { apply yields_statement. intros db [] db' (Hm & Hin & _). unfold run_script.
    destruct (script sql (schema db)) as [s|] eqn:Es; [|done]. intros [= <-]. exists (schema db). cbn.
    split; [by destruct db|]. split; [|done]. symmetry in Hin. apply bool_decide_eq_false in Hin.
    destruct (decide (i = n)) as [|Hne]; [done|]. destruct Hin. destruct Hm as (El & _ & _). cbn in El. rewrite El.
    apply list_elem_of_lookup. exists i. apply lookup_take_Some. split; [done|lia]. }
  intros _. apply yields_statement. intros db [] db' (s & Hm & -> & Es). unfold record_version.
  destruct Hm as (El & Hn & Hr). cbn in *. destruct (ledger db) as [l|]; [|done]. case_bool_decide; [done|]. intros [= <-].
  exists (S n). unfold migrated. cbn in *. split_and!; [lia|lia| | |].
  - by rewrite (take_S_r _ _ _ Hv), El.
  - by apply lookup_lt_Some in Hv.
  - rewrite (take_S_r _ _ _ Hv), replay_snoc, Hr. cbn. by rewrite Er.
Qed.

Lemma applyOne_migrated s0 n i v left o db : versions !! i = Some v -> (i <= n)%nat -> migrated s0 n db ->
  exists m, (n <= m)%nat /\ migrated s0 m (applyOne v left o db).1 /\ (is_ok (applyOne v left o db).2 = true -> (i < m)%nat).
Proof.
  intros Hv Hi Hm. unfold applyOne. destruct (transact_cases (migrate v) left o db) as [(a & t & E & -> & _)|[-> ->]].
  - destruct (migrate_yields s0 n i v Hv Hi (MkTx db left) _ _ Hm E) as (m & ? & ? & ?). by exists m.
  - by exists n.
Qed.

Lemma apply_each_migrated s0 w i vs n db : drop i versions = vs -> (i <= n)%nat -> migrated s0 n db ->
  exists m, (n <= m)%nat /\ migrated s0 m (apply_each w vs db).1 /\ (is_ok (apply_each w vs db).2 = true -> m = length versions).
Proof.
  revert i n db. induction vs as [|v vs IH]; intros i n db Hd Hi Hm; cbn [apply_each].
  { exists n. split_and!; [done|done|]. intros _. destruct Hm as (_ & Hn & _).
    assert (length versions <= i)%nat by (apply (f_equal length) in Hd; rewrite length_drop in Hd; cbn in Hd; lia). lia. }
  assert (Hv : versions !! i = Some v) by (by rewrite <- (Nat.add_0_r i), <- lookup_drop, Hd).
  destruct (applyOne_migrated s0 n i v (at_version w v).1 (at_version w v).2 db Hv Hi Hm) as (m & Hnm & Hm' & Hok).
  destruct (applyOne v _ _ db) as [db' [[]|e]]; cbn in *; [|by exists m].
  destruct (IH (S i) m db') as (m' & ? & ? & ?).
  - apply (f_equal (drop 1)) in Hd. by rewrite drop_drop, Nat.add_1_r in Hd.
  - by apply Hok.
  - done.
  - exists m'. split_and!; [lia|done|done].
Qed.

Lemma Apply_migrated s0 w n db : migrated s0 n db ->
  exists m, (n <= m)%nat /\ migrated s0 m (Apply w db).1 /\ (is_ok (Apply w db).2 = true -> m = length versions).
Proof.
  intros Hm. unfold Apply. pose proof (exec_rows_db (at_ledger w) create_ledger db) as Hdb.
  assert (migrated s0 n (exec_rows (at_ledger w) create_ledger db).1) as Hm'.
  { destruct Hdb as [->|(db' & k & [= <- _] & ->)]; [done|]. destruct Hm as (E & ? & ?). split_and!; [|done|done].
    rewrite <- E. by destruct (ledger db). }
  destruct (exec_rows (at_ledger w) create_ledger db) as [db' [k|e]]; cbn in *; [|by exists n].
  apply (apply_each_migrated s0 w 0); [done|lia|done].
Qed.

Lemma starts_migrated s0 ws n db : migrated s0 n db -> exists m, (n <= m)%nat /\ migrated s0 m (starts ws db).
Proof.
  revert n db. induction ws as [|w ws IH]; intros n db Hm; [by exists n|].
  destruct (Apply_migrated s0 w n db Hm) as (m & ? & Hm' & _). destruct (IH m _ Hm') as (m' & ? & ?). exists m'. split; [lia|done].
Qed.

(** A start while the database answers. *)
Definition calm (w : weather) : Prop := at_ledger w = Committed /\ forall v, (3 <= (at_version w v).1)%nat /\ (at_version w v).2 = Committed.

Lemma replay_none vs : foldl (fun o v => s ← o; sql ← ReadFile v; script sql s) None vs = None.
Proof. by induction vs as [|v vs IH]. Qed.

Lemma replay_app vs vs' s : replay (vs ++ vs') s = s ← replay vs s; replay vs' s.
Proof.
  unfold replay. rewrite foldl_app. destruct (foldl _ (Some s) vs) as [s'|]; [reflexivity|]. apply replay_none.
Qed.

Lemma replay_next s0 n v s sN : versions !! n = Some v -> replay (take n versions) s0 = Some s -> replay versions s0 = Some sN ->
  exists sql s', ReadFile v = Some sql /\ script sql s = Some s'.
Proof.
  intros Hv Hs HN. rewrite <- (take_drop_middle _ _ _ Hv), replay_app, Hs in HN.
  unfold replay in HN. cbn [mbind option_bind foldl] in HN.
  destruct (ReadFile v) as [sql|]; [|cbn in HN; by rewrite replay_none in HN]. cbn in HN. destruct (script sql s) as [s'|] eqn:E; [by exists sql, s'|].
  cbn in HN. by rewrite replay_none in HN.
Qed.

Lemma migrate_runs s0 n i v sN : versions !! i = Some v -> (i <= n)%nat -> sql_text v = true -> replay versions s0 = Some sN ->
  runs (fun db => migrated s0 n db /\ is_Some (ledger db)) (migrate v) 3 (fun _ db => is_Some (ledger db)).
Proof.
  intros Hv Hi Ht HN. unfold migrate. change 3%nat with (1 + 2)%nat.
  apply (runs_bind _ _ (fun a db => a = bool_decide (v ∈ default [] (ledger db)) /\ migrated s0 n db /\ is_Some (ledger db))).
  { apply runs_statement. intros db [Hm [l El]]. unfold ledger_has. rewrite Ht, El. eexists _, db. split; [reflexivity|]. by rewrite El. }
  intros [].
  { apply (runs_le _ _ 0); [lia|]. apply runs_ret. by intros db (_ & _ & ?). }
  destruct (decide (i = n)) as [->|Hne].
  2: { intros t (Hin & Hm & _) _. exfalso. symmetry in Hin. apply bool_decide_eq_false in Hin. apply Hin. destruct Hm as (-> & _ & _).
       apply list_elem_of_lookup. exists i. apply lookup_take_Some. split; [done|lia]. }
  destruct (ReadFile v) as [sql|] eqn:Er.
  2: { intros t (_ & (_ & _ & Hr) & _) _. destruct (replay_next s0 n v _ sN Hv Hr HN) as (? & ? & ? & _). congruence. }
  change 2%nat with (1 + 1)%nat. apply (runs_bind _ _ (fun _ db => exists l, ledger db = Some l /\ v ∉ l)).
  - apply runs_statement. intros db (Hin & (El & _ & Hr) & [l Hl]).
    destruct (replay_next s0 n v _ sN Hv Hr HN) as (sql' & s' & E & Es). rewrite Er in E. injection E as <-.
    unfold run_script. rewrite Es. eexists _, _. split; [reflexivity|]. exists l. split; [done|]. symmetry in Hin.
    apply bool_decide_eq_false in Hin. by rewrite Hl in Hin.
  - intros _. apply runs_statement. intros db (l & El & Hl). unfold record_version. rewrite El, bool_decide_false by done.
    eexists _, _. split; [reflexivity|]. by eexists.
Qed.

Lemma apply_each_runs s0 w i vs n db sN : drop i versions = vs -> (i <= n)%nat -> migrated s0 n db -> is_Some (ledger db) ->
  calm w -> Forall (fun v => sql_text v = true) vs -> replay versions s0 = Some sN -> is_ok (apply_each w vs db).2 = true.
Proof.
  intros Hd Hi Hm Hl [Hw0 Hw] Ht HN. revert i n db Hd Hi Hm Hl. induction Ht as [|v vs Hv Ht IH]; intros i n db Hd Hi Hm Hl; [done|].
  assert (versions !! i = Some v) as Hat by (by rewrite <- (Nat.add_0_r i), <- lookup_drop, Hd).
  cbn [apply_each]. destruct (Hw v) as [Hleft Ho]. rewrite Ho.
  destruct (applyOne_migrated s0 n i v (at_version w v).1 Committed db Hat Hi Hm) as (m & Hnm & Hm' & Hok). unfold applyOne in *.
  destruct (transact_runs _ _ _ _ _ db (migrate_runs s0 n i v sN Hat Hi Hv HN) (conj Hm Hl) Hleft) as [[] Er].
  destruct (transact (migrate v) _ Committed db) as [db' r]; cbn in *. subst r. apply (IH (S i) m); [|by apply Hok|done|].
  - apply (f_equal (drop 1)) in Hd. by rewrite drop_drop, Nat.add_1_r in Hd.
  - destruct Hm' as (El & _ & _). destruct (ledger db'); [by eexists|]. cbn in El. specialize (Hok eq_refl).
    destruct m; [lia|]. destruct versions; [by rewrite lookup_nil in Hat|done].
Qed.

(** C26. The migrations run exactly once and in order, however often the server starts and
    however its starts end.  Over a database where the first [n] scripts have run - none, or
    those of an earlier release -, after any starts whose statements fail and whose commits
    fail or are not reported the tables are the ones the first scripts make of the original
    ones, at least the [n], each once and in the order of their names, and the ledger lists
    these.  A start that succeeds has run them all; it succeeds when the database answers
    and the scripts can run on the original tables.  One server starts at a time. *)
Theorem migrations_once (s0 : T) (n : nat) (db0 : ledger_db T) (ws : list weather) : migrated s0 n db0 ->
  let db := starts ws db0 in
  (exists m, (n <= m)%nat /\ migrated s0 m db) /\
  forall w,
    (is_ok (Apply w db).2 = true ->
       default [] (ledger (Apply w db).1) = versions /\ replay versions s0 = Some (schema (Apply w db).1)) /\
    (calm w -> Forall (fun v => sql_text v = true) versions -> is_Some (replay versions s0) -> is_ok (Apply w db).2 = true).
Proof.
  intros H0 db. destruct (starts_migrated s0 ws n db0 H0) as (m & Hnm & Hm). fold db in Hm. split; [by exists m|]. intros w. split.
  - intros Hok. destruct (Apply_migrated s0 w m db Hm) as (k & _ & (El & _ & Hr) & Hall). rewrite (Hall Hok), take_ge in El, Hr by done. done.
  - intros Hw Ht [sN HN]. unfold Apply. destruct Hw as [Hw0 Hw]. rewrite Hw0. cbn. apply (apply_each_runs s0 w 0 versions m _ sN); [done|lia|destruct Hm as (El & ? & ?); by split_and!|by eexists|by split|done|done].
Qed.
End apply.

(** Scripts that add their text; a file that is no script, and the second script before the
    first. *)
Module DemoMigrations.
Definition files : list (string * string) := [("002_b.sql", "b"); ("embed.go", "go"); ("001_a.sql", "a"); ("003_c.sql", "c")].
Definition script (sql : string) (s : list string) : option (list string) := Some (s ++ [sql])%list.

(** The connection is lost in the second script; its commit is not reported; a calm start. *)
Definition lost : weather := MkWeather Committed (fun v => (if String.eqb v "002_b.sql" then 2%nat else 3%nat, Committed)).
Definition unreported : weather := MkWeather Committed (fun v => (3%nat, if String.eqb v "002_b.sql" then CommitUnreported else Committed)).
Definition fine : weather := MkWeather Committed (fun _ => (3%nat, Committed)).
Definition fresh : ledger_db (list string) := MkLedgerDb None [].

Lemma migrations_once_witness :
  let db := starts files script [lost; unreported] fresh in
  ledger db = Some ["001_a.sql"; "002_b.sql"] /\ is_ok (Apply files script fine db).2 = true /\
  schema (Apply files script fine db).1 = ["a"; "b"; "c"].
Proof.
  assert (NoDup (fst <$> files)) as Hn by (apply (bool_decide_unpack _); vm_compute; exact I).
  assert (migrated files script [] 0 fresh) as H0 by (split_and!; [reflexivity|lia|reflexivity]).
  destruct (migrations_once files script Hn [] 0 fresh [lost; unreported] H0) as [_ H]. destruct (H fine) as [Hok Hcalm].
  intros db. fold db in Hok, Hcalm. split; [vm_compute; reflexivity|].
  assert (is_ok (Apply files script fine db).2 = true) as E.
  { apply Hcalm; [split; [reflexivity|intros v; split; [apply Nat.le_refl|reflexivity]]| |].
    - apply (bool_decide_unpack _). vm_compute. exact I.
    - vm_compute. by eexists. }
  split; [exact E|]. destruct (Hok E) as [_ Hr]. apply (inj Some). rewrite <- Hr. vm_compute. reflexivity.
Defined.
End DemoMigrations.
End Migrations.
