(* ===== verification/TrafficQuery.v ===== *)
(** * Traffic queries

    [internal/server/trafficquery]: the filter of a request, the cursors of the pages, and
    the queries for connections and for domains over the tables of the store.  Where the
    order of a query leaves rows in either order, [scan] decides; the failing of queries
    is an argument of each request. *)

From stdpp Require Import base strings numbers gmap list.
From Stdlib Require Import Ascii SpecFloat.
From S2P Require Import Prelude GoBase GoText GoTime GoModel FlowDecode NetipString InterfaceCounter Attribution Base64 Docker Sql Store Overview.
From S2P Require Rollup.

Open Scope string_scope.
Open Scope Z_scope.
Local Open Scope flow_scope.
Local Open Scope list_scope.

(** ** [time.Parse(time.RFC3339, value)] *)

(** [stdISO8601ColonTZ]: seconds east of UTC. *)
Definition get_zone_colon (cs : list ascii) : parsed Z :=
  match cs with
  | [] => None
  | sign :: cs' =>
      if bool_decide (sign = "Z"%char) then Some (0, cs')
      else
        match cs' with
        | h1 :: h2 :: sep :: m1 :: m2 :: rest =>
            if bool_decide (sep = colon) then
              let? (hr, _) := getnum true [h1; h2] in
              let? (mm, _) := getnum true [m1; m2] in
              in_range 0 hr 24 (in_range 0 mm 60 (
              let offset := (hr * 60 + mm) * 60 in
              if bool_decide (sign = "+"%char) then Some (offset, rest)
              else if bool_decide (sign = "-"%char) then Some (- offset, rest) else None))
            else None
        | _ => None
        end
  end.

Definition parse_rfc3339 (cs : list ascii) : option time :=
  let? (year, cs) := get_year cs in
  let? (_, cs) := skip_char "-" cs in
  let? (month, cs) := getnum true cs in
  in_range 1 month 12 (
  let? (_, cs) := skip_char "-" cs in
  let? (day, cs) := getnum true cs in
  let? (_, cs) := skip_char "T" cs in
  let? (hour, cs) := getnum false cs in
  in_range 0 hour 23 (
  let? (_, cs) := skip_char ":" cs in
  let? (minute, cs) := getnum true cs in
  in_range 0 minute 59 (
  let? (_, cs) := skip_char ":" cs in
  let? (sec, cs) := getnum true cs in
  in_range 0 sec 59 (
  let '(nsec, cs) := get_fraction cs in
  let? (offset, cs) := get_zone_colon cs in
  match cs with
  | [] =>
      in_range 1 day (days_in month year) (
      Some ((days_from_civil year month day * 86400 + hour * 3600 + minute * 60 + sec - offset) * Second + nsec))
  | _ => None
  end)))).

Example rfc3339_utc : parse_rfc3339 (chars "2026-07-14T15:16:40Z") = Some (1784042200 * Second).
Proof. vm_compute. reflexivity. Qed.
Example rfc3339_offset : parse_rfc3339 (chars "2026-07-14T17:46:40.25+02:30") = Some (1784042200 * Second + 250000000).
Proof. vm_compute. reflexivity. Qed.
Example rfc3339_invalid : parse_rfc3339 (chars "2026-02-29T01:00:00Z") = None /\ parse_rfc3339 (chars "2026-02-28 01:00:00Z") = None.
Proof. vm_compute. done. Qed.

(** [end_.Sub(start)], which saturates. *)
Definition time_sub (end_ start : time) : duration := Z.max (- max_i64 - 1) (Z.min max_i64 (end_ - start)).

(** ** Cursors *)

Definition encodeCursor (offset : Z) : string := of_chars (encode url_alphabet (code <$> format_int offset)).

Definition decodeCursor (cursor : string) : Z :=
  match decode url_alphabet false (chars cursor) with
  | None => 0
  | Some decoded =>
      match Atoi (TrimSpace (char_of <$> decoded)) with
      | Some offset => if offset <? 0 then 0 else offset
      | None => 0
      end
  end.

(** ** Filters *)

(** [url.Values]: the values of every key, in order. *)
Abbreviation url_values := (gmap string (list string)).

Definition Get (values : url_values) (key : string) : string :=
  match values !! key with Some (value :: _) => value | _ => "" end.

Record Filter : Type := MkFilter {
  fl_NodeID : string; fl_Start : time; fl_End : time; fl_Direction : string; fl_OwnerID : string; fl_Domain : string;
  fl_Confidence : string; fl_IP : option ip_addr; fl_Port : Z; fl_Protocol : string; fl_Cursor : string; fl_Limit : Z; fl_Sort : string }.

Definition validDirection (direction : string) : bool :=
  bool_decide (direction ∈ [DirectionInbound; DirectionOutbound; DirectionInternal; DirectionContainer]).

Definition validConfidence (confidence : string) : bool :=
  bool_decide (confidence ∈ [ConfidenceConfirmed; ConfidenceInferred; ConfidenceIPOnly]).

(** A parameter that may be left out. *)
Definition optional {A} (raw : string) (absent : A) (parse : string -> option A) (e : string) : result string A :=
  if String.eqb raw "" then Ok absent else match parse raw with Some a => Ok a | None => Err e end.

Definition keep_if (p : string -> bool) (raw : string) : option string := if p raw then Some raw else None.

Definition parse_port (raw : string) : option Z :=
  match ParseUint (chars raw) with
  | Some port => if (65535 <? port) || (port =? 0) then None else Some port
  | None => None
  end.

Definition parse_limit (raw : string) : option Z :=
  match Atoi (chars raw) with
  | Some limit => if (limit <? 1) || (200 <? limit) then None else Some limit
  | None => None
  end.

Definition sorts : list string := ["bytes"; "connections"; "requests"; "time"].

Section filter.
Variable unicode_lower : string -> string.

Definition ParseFilter (values : url_values) (now : time) (detail : bool) : result string Filter :=
  let nodeID := Get values "node" in
  let cursor := Get values "cursor" in
  let* _ := guard_err (negb (String.eqb nodeID "" || (128 <? len nodeID))) "node must contain 1..128 bytes" in
  let* start := optional (Get values "start") (now - 24 * Hour) (fun raw => parse_rfc3339 (chars raw)) "start must be an RFC3339 UTC timestamp" in
  let* end_ := optional (Get values "end") now (fun raw => parse_rfc3339 (chars raw)) "end must be an RFC3339 UTC timestamp" in
  let* _ := guard_err (start <? end_) "start must be before end" in
  let* _ := guard_err (negb (detail && (30 * 24 * Hour <? time_sub end_ start))) "detail range must not exceed 30 days" in
  let* direction := optional (Get values "direction") "" (keep_if validDirection) "direction is invalid" in
  let* confidence := optional (Get values "confidence") "" (keep_if validConfidence) "confidence is invalid" in
  let* ip := optional (Get values "ip") None (fun raw => Some <$> ParseAddr raw) "ip is invalid" in
  let* port := optional (Get values "port") 0 parse_port "port must be within 1..65535" in
  let* protocol := optional (Get values "protocol") "" (keep_if (fun raw => bool_decide (raw ∈ ["tcp"; "udp"]))) "protocol must be tcp or udp" in
  let* limit := optional (Get values "limit") 50 parse_limit "limit must be within 1..200" in
  let sort := if String.eqb (Get values "sort") "" then "bytes" else Get values "sort" in
  let* _ := guard_err (bool_decide (sort ∈ sorts)) "sort is invalid" in
  let* _ := guard_err (negb (512 <? len cursor)) "cursor is too long" in
  let* _ := guard_err (String.eqb cursor "" || String.eqb (encodeCursor (decodeCursor cursor)) cursor) "cursor is invalid" in
  Ok (MkFilter nodeID start end_ direction (Get values "owner") (to_lower unicode_lower (Get values "domain")) confidence ip port protocol
        cursor limit sort).
End filter.

(** [Addr.String] of a parsed address. *)
Definition ip_string (a : ip_addr) : string :=
  match a with
  | IPv4 b => addr_string (Addr4 b)
  | IPv6 b zone => addr_string (Addr16 b) +:+ (if String.eqb zone "" then "" else "%" +:+ zone)
  end.

Definition addrString (f : Filter) : string := match fl_IP f with Some a => ip_string a | None => "" end.

(** ** Answers *)

Record CollectorGap : Type := MkGap { gp_Collector : string; gp_Code : string; gp_At : time; gp_Recovered : bool }.

Record LiveItem : Type := MkLiveItem {
  li_ID : string; li_ObservedAt : time; li_Direction : string; li_OwnerID : string; li_OwnerName : string; li_Source : string;
  li_Destination : string; li_DisplayName : string; li_Confidence : string; li_Protocol : string; li_State : string;
  li_BytesSent : Z; li_BytesReceived : Z }.

Record LiveMetrics : Type := MkLiveMetrics {
  lm_CurrentInboundBPS : float64; lm_CurrentOutboundBPS : float64; lm_PeakInboundBPS : float64; lm_PeakOutboundBPS : float64;
  lm_ActiveConnections : Z }.

Record DomainItem : Type := MkDomainItem {
  di_Domain : string; di_Direction : string; di_Confidence : string; di_Bytes : Z; di_Connections : Z; di_Requests : Z; di_OwnerCount : Z }.

Record Response (T : Type) : Type := MkResponse {
  rs_Items : list T; rs_NextCursor : string; rs_DataFreshAt : time; rs_PartialData : list CollectorGap; rs_Metrics : option LiveMetrics }.
Arguments MkResponse {T} _ _ _ _ _.
Arguments rs_Items {T} _.
Arguments rs_NextCursor {T} _.
Arguments rs_DataFreshAt {T} _.
Arguments rs_PartialData {T} _.
Arguments rs_Metrics {T} _.

(** The order a [text] column sorts by, and [ILIKE]. *)
Class Collation : Type := { text_le : relation string; text_le_dec :: RelDecision text_le }.
Class Ilike : Type := ilike : string -> string -> bool.

(** What the database does with the queries of one request: the order in which it scans
    rows, which queries fail, and how many rows of collector gaps it delivers. *)
Record answers : Type := MkAnswers { aw_scan : forall A : Type, list A -> list A; aw_fails : nat -> bool; aw_gaps : nat }.

(** [LIMIT $11 OFFSET $12] *)
Definition page {A} (limit offset : Z) (rows : list A) : list A := take (Z.to_nat limit) (drop (Z.to_nat offset) rows).

(** A row of [connection_details] with its key. *)
Abbreviation conn := (string * time * connection_row)%type.

(** Domain, direction and confidence. *)
Abbreviation domain_key := (string * string * string)%type.

Section queries.
Context {tz : Timestamptz} {ip : Inet} {collation : Collation} {like : Ilike}.
Variable aw : answers.

(** [$2 <= at AND at < $3] *)
Definition within (start end_ at_ : time) : bool := (timestamptz start <=? at_) && (at_ <? timestamptz end_).

(** [$4='' OR column=$4] *)
Definition either (parameter : string) (matches : bool) : bool := String.eqb parameter "" || matches.

(** ** Collector gaps *)

Definition unhealthy (f : Filter) (row : health_row) : bool :=
  String.eqb (hr_node row) (fl_NodeID f) && within (fl_Start f) (fl_End f) (hr_observed_at row) && negb (String.eqb (he_Status (hr_health row)) "healthy").

(** [ORDER BY collector, observed_at DESC] *)
Definition gap_le (a b : health_row) : Prop :=
  let ca := he_Collector (hr_health a) in let cb := he_Collector (hr_health b) in
  if bool_decide (ca = cb) then hr_observed_at b <= hr_observed_at a else text_le ca cb.

#[export] Instance gap_le_dec a b : base.Decision (gap_le a b).
Proof. unfold gap_le. cbv zeta. destruct (bool_decide _); apply _. Defined.

(** [DISTINCT ON (collector)] of rows in that order. *)
Fixpoint distinct_collectors (previous : option string) (rows : list health_row) : list health_row :=
  match rows with
  | [] => []
  | row :: rows =>
      let collector := he_Collector (hr_health row) in
      if bool_decide (previous = Some collector) then distinct_collectors previous rows
      else row :: distinct_collectors (Some collector) rows
  end.

Definition recovered (f : Filter) (s : store) (degraded : health_row) : bool :=
  existsb (fun kv => let row := kv.2 in
    String.eqb (hr_node row) (fl_NodeID f) && String.eqb (he_Collector (hr_health row)) (he_Collector (hr_health degraded)) &&
    String.eqb (he_Status (hr_health row)) "healthy" && (hr_observed_at degraded <? hr_observed_at row) &&
    (hr_observed_at row <? timestamptz (fl_End f))) (map_to_list (st_health s)).

Definition gaps (f : Filter) (s : store) : list CollectorGap :=
  (fun row => MkGap (he_Collector (hr_health row)) (he_Code (hr_health row)) (hr_observed_at row) (recovered f s row)) <$>
  distinct_collectors None (sorting.merge_sort gap_le (filter (fun row => unhealthy f row = true) (aw_scan aw _ (map_to_list (st_health s)).*2))).

(** [Service.decorate]: its queries are numbers 3 and 4; their errors are dropped. *)
Definition decorate {T} (f : Filter) (offset : Z) (items : list T) (metrics : option LiveMetrics) (s : store) : Response T :=
  let count := Z.of_nat (length items) in
  MkResponse items (if count =? fl_Limit f then encodeCursor (wrap_s 64 (offset + count)) else "")
    (match st_nodes s !! fl_NodeID f with
     | Some seen => if aw_fails aw 3 then zero_time else default 0 seen
     | None => zero_time
     end)
    (if aw_fails aw 4 then [] else take (aw_gaps aw) (gaps f s)) metrics.

(** ** Connections *)

Definition live_matches (f : Filter) (kv : conn) : bool :=
  let row := kv.2 in
  String.eqb (cr_node row) (fl_NodeID f) && within (fl_Start f) (fl_End f) kv.1.2 &&
  either (fl_Direction f) (String.eqb (cr_direction row) (fl_Direction f)) &&
  either (fl_OwnerID f) (String.eqb (cr_owner_id row) (fl_OwnerID f)) &&
  either (fl_Domain f) (ilike (DisplayName (cr_decision row)) ("%" +:+ fl_Domain f +:+ "%")) &&
  either (fl_Confidence f) (String.eqb (dec_Confidence (cr_decision row)) (fl_Confidence f)) &&
  either (addrString f) (bool_decide (inet (addrString f) = Some (cr_local_ip row)) || bool_decide (inet (addrString f) = Some (cr_remote_ip row))) &&
  ((fl_Port f =? 0) || (cr_local_port row =? fl_Port f) || (cr_remote_port row =? fl_Port f)) &&
  either (fl_Protocol f) (String.eqb (cr_protocol row) (fl_Protocol f)).

Definition live_bytes (kv : conn) : Z := cr_bytes_sent kv.2 + cr_bytes_received kv.2.

Definition live_order (sort : string) (kv : conn) : Z := if String.eqb sort "bytes" then live_bytes kv else kv.1.2.

(** [ORDER BY ... DESC, observed_at DESC, event_id DESC] *)
Definition live_le (sort : string) (a b : conn) : Prop :=
  if bool_decide (live_order sort a = live_order sort b) then
    if bool_decide (a.1.2 = b.1.2) then text_le b.1.1 a.1.1 else b.1.2 <= a.1.2
  else live_order sort b <= live_order sort a.

#[export] Instance live_le_dec sort a b : base.Decision (live_le sort a b).
Proof. unfold live_le. destruct (bool_decide _); [destruct (bool_decide _)|]; apply _. Defined.

Definition live_item (kv : conn) : LiveItem :=
  let row := kv.2 in
  MkLiveItem kv.1.1 kv.1.2 (cr_direction row) (cr_owner_id row) (cr_owner_name row) (JoinHostPort (cr_local_ip row) (cr_local_port row))
    (JoinHostPort (cr_remote_ip row) (cr_remote_port row)) (DisplayName (cr_decision row)) (dec_Confidence (cr_decision row))
    (cr_protocol row) (cr_state row) (cr_bytes_sent row) (cr_bytes_received row).

(** Do the parameters have the types of the query, and can the rows be ordered? *)
Definition live_parameters (f : Filter) : bool :=
  forallb sql_text [fl_NodeID f; fl_OwnerID f; fl_Domain f] && either (addrString f) (inet_ok (addrString f)).

Definition live_sums (f : Filter) (rows : list conn) : bool :=
  negb (String.eqb (fl_Sort f) "bytes") || forallb (fun kv => in_int8 (live_bytes kv)) rows.

(** ** Rates *)

Definition per_second (seconds : Z) (bytes : Z) : float64 := f64_div (f64_of_Z bytes) (f64_of_Z seconds).

Definition current_bytes (f : Filter) (direction : string) (s : store) : Z :=
  sumZ (fun kv : string * time * interface_row => ir_bytes kv.2)
    (filter (fun kv => String.eqb (ir_node kv.2) (fl_NodeID f) && String.eqb (ir_direction kv.2) direction &&
                       (timestamptz (fl_End f) - 10 * Second <=? kv.1.2) && (kv.1.2 <? timestamptz (fl_End f)) = true) (map_to_list (st_interfaces s))).

Definition f64_max (a b : float64) : float64 := if f64_ltb a b then b else a.

(** The largest rate of a minute, over the groups of [minute_rates]. *)
Definition peak (rows : list traffic_row) (direction : string) : float64 :=
  match remove_dups ((fun r : traffic_row => r.1.1) <$> rows) with
  | [] => f64_zero
  | bucket :: buckets =>
      let rate := fun bucket => per_second 60 (sumZ (fun r : traffic_row => r.2) (filter (fun r => r.1.1 = bucket /\ r.1.2 = direction) rows)) in
      foldl (fun m b => f64_max m (rate b)) (rate bucket) buckets
  end.

(** [Service.liveMetrics], queries 1 and 2. *)
Definition liveMetrics (f : Filter) (s : store) : result string LiveMetrics :=
  let* _ := guard_err (negb (aw_fails aw 1)) "query current live rates" in
  let* _ := guard_err (negb (aw_fails aw 2)) "query peak live rates" in
  let rows := omap (traffic_of (fl_NodeID f) (fl_Start f) (fl_End f)) (st_minutes s) in
  Ok (MkLiveMetrics (per_second 10 (current_bytes f DirectionInbound s)) (per_second 10 (current_bytes f DirectionOutbound s))
        (peak rows DirectionInbound) (peak rows DirectionOutbound)
        (count (fun kv : conn => String.eqb (cr_node kv.2) (fl_NodeID f) && (timestamptz (fl_End f) - 15 * Second <=? kv.1.2) &&
                                 (kv.1.2 <? timestamptz (fl_End f)) && negb (String.eqb (cr_state kv.2) "closed")) (map_to_list (st_connections s)))).

Definition Live (f : Filter) (s : store) : result string (Response LiveItem) :=
  let offset := decodeCursor (fl_Cursor f) in
  let rows := filter (fun kv => live_matches f kv = true) (aw_scan aw _ (map_to_list (st_connections s))) in
  let* _ := guard_err (negb (aw_fails aw 0) && live_parameters f && live_sums f rows) "query live traffic" in
  let items := live_item <$> page (fl_Limit f) offset (sorting.merge_sort (live_le (fl_Sort f)) rows) in
  let* metrics := liveMetrics f s in
  Ok (decorate f offset items (Some metrics) s).

(** ** Domains *)

Definition domain_of (f : Filter) (row : Rollup.minute_row) : option (domain_key * time * Rollup.counts) :=
  match Rollup.mi_dim row with
  | Rollup.domain_minute domain confidence direction =>
      if String.eqb (Rollup.mi_node row) (fl_NodeID f) && within (fl_Start f) (fl_End f) (Rollup.mi_bucket row) &&
         either (fl_Direction f) (String.eqb direction (fl_Direction f)) && either (fl_Domain f) (ilike domain ("%" +:+ fl_Domain f +:+ "%")) &&
         either (fl_Confidence f) (String.eqb confidence (fl_Confidence f))
      then Some ((domain, direction, confidence), Rollup.mi_bucket row, Rollup.mi_counts row) else None
  | _ => None
  end.

Record ranked_row : Type := MkRanked {
  rk_key : domain_key; rk_bytes : Z; rk_connections : Z; rk_requests : Z; rk_last : time }.

Definition group_of (rows : list (domain_key * time * Rollup.counts)) (key : domain_key) : ranked_row :=
  let group := filter (fun r => r.1.1 = key) rows in
  MkRanked key (sumZ (fun r => Rollup.bytes r.2) group) (sumZ (fun r => Rollup.connections r.2) group)
    (sumZ (fun r => Rollup.requests r.2) group) 
    match group with [] => 0 | r :: rows => foldl (fun last r => Z.max last r.1.2) r.1.2 rows end.

(** [GROUP BY domain, direction, confidence] *)
Definition ranked (f : Filter) (s : store) : list ranked_row :=
  let rows := omap (domain_of f) (st_minutes s) in
  group_of rows <$> remove_dups ((fun r => r.1.1) <$> rows).

Definition ranked_order (sort : string) (r : ranked_row) : Z :=
  if String.eqb sort "bytes" then rk_bytes r else if String.eqb sort "connections" then rk_connections r
  else if String.eqb sort "requests" then rk_requests r else rk_last r.

(** [ORDER BY ... DESC, domain]: rows of one domain may tie. *)
Definition ranked_le (sort : string) (a b : ranked_row) : Prop :=
  if bool_decide (ranked_order sort a = ranked_order sort b) then text_le (rk_key a).1.1 (rk_key b).1.1
  else ranked_order sort b <= ranked_order sort a.

#[export] Instance ranked_le_dec sort a b : base.Decision (ranked_le sort a b).
Proof. unfold ranked_le. destruct (bool_decide _); apply _. Defined.

(** [coalesce(NULLIF(upstream_owner_id,''), NULLIF('upstream:'||upstream,'upstream:'))] *)
Definition request_owner (r : request_row) : option string :=
  match nullableString (rr_upstream_owner_id r) with
  | Some owner => Some owner
  | None => if String.eqb (rr_upstream r) "" then None else Some ("upstream:" +:+ rr_upstream r)
  end.

Definition inbound_owners (f : Filter) (domain : string) (s : store) : list string :=
  omap (fun kv : string * time * request_row =>
    if String.eqb (rr_node kv.2) (fl_NodeID f) && within (fl_Start f) (fl_End f) kv.1.2 && String.eqb (rr_host kv.2) domain
    then request_owner kv.2 else None) (map_to_list (st_requests s)).

Definition outbound_owners (f : Filter) (key : domain_key) (s : store) : list string :=
  omap (fun row =>
    match Rollup.mi_dim row with
    | Rollup.flow_minute owner _ _ _ domain confidence _ _ direction =>
        if String.eqb (Rollup.mi_node row) (fl_NodeID f) && within (fl_Start f) (fl_End f) (Rollup.mi_bucket row) &&
           bool_decide ((domain, direction, confidence) = key) then Some owner else None
    | _ => None
    end) (st_minutes s).

Definition owner_count (f : Filter) (s : store) (key : domain_key) : Z :=
  Z.of_nat (length (remove_dups (if String.eqb key.1.2 DirectionInbound then inbound_owners f key.1.1 s else outbound_owners f key s))).

Definition domain_item (f : Filter) (s : store) (r : ranked_row) : DomainItem :=
  let '(domain, direction, confidence) := rk_key r in
  MkDomainItem domain direction confidence (rk_bytes r) (rk_connections r) (rk_requests r) (owner_count f s (rk_key r)).

(** Sums are [numeric]: scanning one that is no 64-bit integer fails. *)
Definition ranked_fits (r : ranked_row) : bool := in_int8 (rk_bytes r) && in_int8 (rk_connections r) && in_int8 (rk_requests r).

Definition Domains (f : Filter) (s : store) : result string (Response DomainItem) :=
  let offset := decodeCursor (fl_Cursor f) in
  let* _ := guard_err (negb (aw_fails aw 0) && forallb sql_text [fl_NodeID f; fl_Domain f]) "query domains" in
  let rows := page (fl_Limit f) offset (sorting.merge_sort (ranked_le (fl_Sort f)) (aw_scan aw _ (ranked f s))) in
  let* _ := guard_err (forallb ranked_fits rows) "scan domains" in
  Ok (decorate f offset (domain_item f s <$> rows) None s).
End queries.

(** ** The handlers *)

(** The status, the error with its message, or the body. *)
Record query_answer (T : Type) : Type := MkQueryAnswer { qa_status : Z; qa_error : option (string * string); qa_body : option T }.
Arguments MkQueryAnswer {T} _ _ _.
Arguments qa_status {T} _.
Arguments qa_error {T} _.
Arguments qa_body {T} _.

Definition writeQueryJSON {T} (value : T) : query_answer T := MkQueryAnswer 200 None (Some value).
Definition writeQueryError {T} (status : Z) (code_ message : string) : query_answer T := MkQueryAnswer status (Some (code_, message)) None.

Section handlers.
Variable unicode_lower : string -> string.

Definition serveQuery {T} (values : url_values) (now : time) (detail : bool) (query : Filter -> result string (Response T)) : query_answer (Response T) :=
  match ParseFilter unicode_lower values now detail with
  | Err e => writeQueryError 400 "invalid_filter" e
  | Ok filter =>
      match query filter with
      | Err _ => writeQueryError 500 "query_failed" "unable to load traffic data"
      | Ok result => writeQueryJSON result
      end
  end.

Context {tz : Timestamptz} {ip : Inet} {collation : Collation} {like : Ilike}.

Definition LiveHandler (aw : answers) (values : url_values) (now : time) (s : store) : query_answer (Response LiveItem) :=
  serveQuery values now true (fun f => Live aw f s).

(** [Handler.Domains] of a list; the detail of one domain is another query. *)
Definition DomainsHandler (aw : answers) (values : url_values) (now : time) (s : store) : query_answer (Response DomainItem) :=
  serveQuery values now false (fun f => Domains aw f s).
End handlers.
