(* ===== verification/TrafficTheorems.v ===== *)
(** * Pages and filters

    Cursors are read back, and exactly they are accepted; who follows them sees every
    matching connection once. *)

From stdpp Require Import base strings numbers gmap list sorting.
From Stdlib Require Import Ascii.
From S2P Require Import Prelude GoBase GoText GoModel Attribution Base64 Sql Store TrafficQuery.
From S2P Require Rollup.

Open Scope string_scope.
Open Scope Z_scope.
Local Open Scope flow_scope.
Local Open Scope list_scope.

(** ** Cursors *)

Lemma code_chars (cs : list ascii) : char_of <$> (code <$> cs) = cs.
Proof. rewrite <- list_fmap_compose. rewrite <- (list_fmap_id cs) at 2. apply list_fmap_ext. intros _ c _. unfold compose, char_of, code. by rewrite N2Z.id, ascii_N_embedding. Qed.

Lemma codes_bytes (cs : list ascii) : Forall is_byte (code <$> cs).
Proof. apply Forall_fmap, Forall_true. intros c. apply code_range. Qed.

Lemma encode_length alphabet bs : (length (encode alphabet bs) <= 4 * length bs)%nat.
Proof. induction bs as [|a|a b|a b c bs IH] using encode_ind; simpl in *; lia. Qed.

Lemma TrimSpace_word w : is_word w -> TrimSpace w = w.
Proof.
  intros Hw. destruct (is_word_last w Hw) as (d & Hd & Hp). destruct Hw as [Hn Hf]. destruct w as [|c w]; [done|].
  apply (TrimSpace_plain c w d); [by inversion Hf|done..].
Qed.

Lemma Atoi_format_uint n : 0 <= n <= max_i64 -> Atoi (format_uint n) = Some n.
Proof.
  intros Hn. pose proof (format_uint_digits n ltac:(lia)) as Hd. destruct (format_uint_word n ltac:(lia)) as [Hne _].
  pose proof (parse_digits_rev 20 max_i64 n Hn ltac:(unfold max_i64 in Hn; lia)) as Hp. change (reverse (digits_rev 20 n)) with (format_uint n) in Hp.
  destruct (format_uint n) as [|c cs]; [done|]. unfold Atoi. apply Forall_cons in Hd as [Hc _].
  case_bool_decide as E; [by rewrite E in Hc|]. case_bool_decide as E'; [by rewrite E' in Hc|]. exact Hp.
Qed.

Lemma decodeCursor_range c : 0 <= decodeCursor c <= max_i64.
Proof.
  assert (0 <= 0 <= max_i64) as H0 by (unfold max_i64; lia). unfold decodeCursor. destruct (decode _ _ _); [|exact H0].
  destruct (Atoi _) as [n|] eqn:E; [|exact H0]. apply Atoi_range in E. destruct (Z.ltb_spec n 0); lia.
Qed.

Lemma decode_encodeCursor n : 0 <= n <= max_i64 -> decodeCursor (encodeCursor n) = n.
Proof.
  intros Hn. unfold decodeCursor, encodeCursor. rewrite chars_of_chars, url_decode_encode by apply codes_bytes.
  rewrite code_chars. unfold format_int. rewrite (proj2 (Z.ltb_ge n 0)) by lia.
  rewrite TrimSpace_word, Atoi_format_uint by first [done|apply format_uint_word; lia]. by rewrite (proj2 (Z.ltb_ge n 0)) by lia.
Qed.

Lemma encodeCursor_length n : len (encodeCursor n) <= 512.
Proof.
  unfold encodeCursor, len. rewrite chars_of_chars. pose proof (encode_length url_alphabet (code <$> format_int n)) as H.
  rewrite length_fmap in H. pose proof (len_format_int n) as Hl. unfold len in Hl. rewrite chars_of_chars in Hl. lia.
Qed.

Lemma encodeCursor_nonempty n : 0 <= n <= max_i64 -> encodeCursor n <> "".
Proof.
  intros Hn E. unfold encodeCursor, format_int in E. rewrite (proj2 (Z.ltb_ge n 0)) in E by lia.
  destruct (format_uint_word n ltac:(lia)) as [Hne _]. apply (f_equal chars) in E. rewrite chars_of_chars in E.
  destruct (format_uint n) as [|a [|b [|c l]]]; [done|discriminate E..].
Qed.

(** A cursor of this server. *)
Definition is_cursor (c : string) : Prop := exists n, 0 <= n <= max_i64 /\ c = encodeCursor n.

Lemma cursor_check c : c <> "" -> (String.eqb c "" || String.eqb (encodeCursor (decodeCursor c)) c = true <-> is_cursor c).
Proof.
  intros Hc. rewrite (proj2 (String.eqb_neq c "") Hc), orb_false_l, String.eqb_eq. split.
  - intros E. exists (decodeCursor c). split; [apply decodeCursor_range|done].
  - intros (n & Hn & ->). by rewrite decode_encodeCursor.
Qed.

(** ** Filters *)

Lemma Get_same values c : Get (<["cursor" := [c]]> values) "cursor" = c.
Proof. unfold Get. by rewrite lookup_insert_eq. Qed.

Lemma Get_other values c key : key <> "cursor" -> Get (<["cursor" := [c]]> values) key = Get values key.
Proof. intros H. unfold Get. by rewrite lookup_insert_ne. Qed.

Lemma optional_given {A} raw (a b : A) parse e : raw <> "" -> optional raw a parse e = optional raw b parse e.
Proof. intros H. unfold optional. by rewrite (proj2 (String.eqb_neq raw "") H). Qed.

Definition with_cursor (c : string) (f : Filter) : Filter :=
  MkFilter (fl_NodeID f) (fl_Start f) (fl_End f) (fl_Direction f) (fl_OwnerID f) (fl_Domain f) (fl_Confidence f) (fl_IP f) (fl_Port f)
    (fl_Protocol f) c (fl_Limit f) (fl_Sort f).

Section filter.
Variable unicode_lower : string -> string.

(** The same request with another cursor. *)
Lemma ParseFilter_with values now detail f c : ParseFilter unicode_lower values now detail = Ok f ->
  ParseFilter unicode_lower (<["cursor" := [c]]> values) now detail =
    let* _ := guard_err (negb (512 <? len c)) "cursor is too long" in
    let* _ := guard_err (String.eqb c "" || String.eqb (encodeCursor (decodeCursor c)) c) "cursor is invalid" in
    Ok (with_cursor c f).
Proof.
  intros Hf. unfold ParseFilter in *. rewrite Get_same, !Get_other by done.
  repeat (apply result_bind_ok in Hf as (? & ?E & Hf)). injection Hf as <-. cbn zeta.
  do 12 (match goal with E : ?m = Ok _ |- result_bind ?m _ = _ => rewrite E; clear E end; cbn [result_bind]). reflexivity.
Qed.

Lemma ParseFilter_cursor values now detail f c : ParseFilter unicode_lower values now detail = Ok f -> c = "" \/ is_cursor c ->
  ParseFilter unicode_lower (<["cursor" := [c]]> values) now detail = Ok (with_cursor c f).
Proof.
  intros Hf Hc. rewrite (ParseFilter_with _ _ _ _ _ Hf).
  assert (String.eqb c "" || String.eqb (encodeCursor (decodeCursor c)) c = true) as ->.
  { destruct Hc as [->|Hc]; [done|]. destruct (decide (c = "")) as [->|Hne]; [done|]. by apply cursor_check. }
  destruct Hc as [->|(n & _ & ->)]; [done|]. pose proof (encodeCursor_length n). by rewrite (proj2 (Z.ltb_ge _ _)) by lia.
Qed.

(** A request that names its range is read the same later. *)
Lemma ParseFilter_later values now now' detail : Get values "start" <> "" -> Get values "end" <> "" ->
  ParseFilter unicode_lower values now' detail = ParseFilter unicode_lower values now detail.
Proof.
  intros Hs He. unfold ParseFilter. by rewrite (optional_given _ (now' - 24 * Hour) (now - 24 * Hour)), (optional_given _ now' now) by done.
Qed.

(** What a cursor that is no cursor of the server is answered. *)
Lemma ParseFilter_no_cursor values now detail f : ParseFilter unicode_lower values now detail = Ok f -> fl_Cursor f = "" \/ is_cursor (fl_Cursor f).
Proof.
  unfold ParseFilter. intros Hf. repeat (apply result_bind_ok in Hf as (? & ?E & Hf)). injection Hf as <-. cbn [fl_Cursor].
  match goal with H : guard_err (_ || String.eqb (encodeCursor _) _) _ = _ |- _ => apply guard_err_ok in H as Hc end.
  destruct (decide (Get values "cursor" = "")) as [->|Hne]; [by left|]. right. by apply cursor_check.
Qed.
End filter.

(** The bounds every accepted filter keeps. *)
Record filter_ok (detail : bool) (f : Filter) : Prop := {
  fo_node : 1 <= len (fl_NodeID f) <= 128;
  fo_range : fl_Start f < fl_End f;
  fo_detail : detail = true -> fl_End f - fl_Start f <= 30 * 24 * Hour;
  fo_direction : fl_Direction f = "" \/ validDirection (fl_Direction f) = true;
  fo_confidence : fl_Confidence f = "" \/ validConfidence (fl_Confidence f) = true;
  fo_port : 0 <= fl_Port f <= 65535;
  fo_protocol : fl_Protocol f ∈ [""; "tcp"; "udp"];
  fo_limit : 1 <= fl_Limit f <= 200;
  fo_sort : fl_Sort f ∈ sorts;
  fo_cursor : fl_Cursor f = "" \/ is_cursor (fl_Cursor f) }.

Lemma optional_ok {A} raw (absent a : A) parse e : optional raw absent parse e = Ok a -> a = absent \/ parse raw = Some a.
Proof. unfold optional. case_match; [intros [= <-]; by left|]. case_match; [|done]. intros [= <-]. by right. Qed.

Lemma keep_if_ok p raw a : keep_if p raw = Some a -> p a = true.
Proof. unfold keep_if. destruct (p raw) eqn:E; [|done]. by intros [= <-]. Qed.

Lemma parse_port_ok raw p : parse_port raw = Some p -> 0 <= p <= 65535.
Proof.
  unfold parse_port. destruct (ParseUint _) as [q|] eqn:E; [|done]. apply ParseUint_range in E. unfold in_u in E.
  destruct (Z.ltb_spec 65535 q); [done|]. destruct (_ || _); [done|]. intros [= <-]. lia.
Qed.

Lemma parse_limit_ok raw l : parse_limit raw = Some l -> 1 <= l <= 200.
Proof.
  unfold parse_limit. destruct (Atoi _) as [q|]; [|done]. destruct (Z.ltb_spec q 1), (Z.ltb_spec 200 q); try done. intros [= <-]. lia.
Qed.

Lemma time_sub_le end_ start d : d < max_i64 -> (d <? time_sub end_ start) = false -> end_ - start <= d.
Proof. unfold time_sub. intros Hd H%Z.ltb_ge. lia. Qed.

Lemma ParseFilter_ok unicode_lower values now detail f : ParseFilter unicode_lower values now detail = Ok f -> filter_ok detail f.
Proof.
  intros Hf. pose proof (ParseFilter_no_cursor _ _ _ _ _ Hf) as Hc. unfold ParseFilter in Hf.
  apply result_bind_ok in Hf as (? & Hnode%guard_err_ok & Hf). apply result_bind_ok in Hf as (start & _ & Hf).
  apply result_bind_ok in Hf as (end_ & _ & Hf). apply result_bind_ok in Hf as (? & Hse%guard_err_ok & Hf).
  apply result_bind_ok in Hf as (? & Hd%guard_err_ok & Hf). apply result_bind_ok in Hf as (dir & Hdir%optional_ok & Hf).
  apply result_bind_ok in Hf as (conf & Hconf%optional_ok & Hf). apply result_bind_ok in Hf as (ip & _ & Hf).
  apply result_bind_ok in Hf as (port & Hport%optional_ok & Hf). apply result_bind_ok in Hf as (proto & Hproto%optional_ok & Hf).
  apply result_bind_ok in Hf as (limit & Hlimit%optional_ok & Hf). apply result_bind_ok in Hf as (? & Hsort%guard_err_ok & Hf).
  apply result_bind_ok in Hf as (? & _ & Hf). apply result_bind_ok in Hf as (? & _ & Hf). injection Hf as <-.
  apply negb_true_iff, orb_false_iff in Hnode as [Hn1 Hn2]. apply String.eqb_neq in Hn1. apply Z.ltb_ge in Hn2.
  split; cbn [fl_NodeID fl_Start fl_End fl_Direction fl_Confidence fl_Port fl_Protocol fl_Limit fl_Sort] in *.
  - split; [|done]. destruct (Get values "node") as [|c s]; [done|]. unfold len. cbn [chars length]. lia.
  - by apply Z.ltb_lt.
  - intros ->. apply negb_true_iff in Hd. cbn [andb] in Hd. apply time_sub_le in Hd; [done|]. by vm_compute.
  - destruct Hdir as [->|H%keep_if_ok]; [by left|by right].
  - destruct Hconf as [->|H%keep_if_ok]; [by left|by right].
  - destruct Hport as [->|H%parse_port_ok]; [lia|done].
  - destruct Hproto as [->|H%keep_if_ok]; [set_solver|]. apply bool_decide_eq_true in H. set_solver.
  - destruct Hlimit as [->|H%parse_limit_ok]; [lia|done].
  - by apply bool_decide_eq_true in Hsort.
  - exact Hc.
Qed.

(** ** Following the cursors *)

(** A client that asks for the next page as long as it is given a cursor. *)
Fixpoint browse {T} (request : nat -> string -> query_answer (Response T)) (fuel i : nat) (cursor : string) : option (list T) :=
  match fuel with
  | O => None
  | S fuel =>
      match qa_body (request i cursor) with
      | None => None
      | Some r =>
          if String.eqb (rs_NextCursor r) "" then Some (rs_Items r)
          else app (rs_Items r) <$> browse request fuel (S i) (rs_NextCursor r)
      end
  end.

Lemma browse_step {T} (request : nat -> string -> query_answer (Response T)) fuel i c :
  browse request (S fuel) i c =
    match qa_body (request i c) with
    | None => None
    | Some r => if String.eqb (rs_NextCursor r) "" then Some (rs_Items r) else app (rs_Items r) <$> browse request fuel (S i) (rs_NextCursor r)
    end.
Proof. done. Qed.

Section browsing.
Context {A T : Type} (request : nat -> string -> query_answer (Response T)) (item : A -> T) (rows : list A) (limit : Z).
Hypothesis limit_positive : 1 <= limit.
Hypothesis rows_fit : Z.of_nat (length rows) <= max_i64.
Hypothesis pages : forall i c, c = "" \/ is_cursor c -> exists r, qa_body (request i c) = Some r /\
  rs_Items r = item <$> page limit (decodeCursor c) rows /\
  rs_NextCursor r = (if Z.of_nat (length (rs_Items r)) =? limit then encodeCursor (wrap_s 64 (decodeCursor c + Z.of_nat (length (rs_Items r)))) else "").

Lemma browse_pages n i c : c = "" \/ is_cursor c -> decodeCursor c <= Z.of_nat (length rows) ->
  (length (drop (Z.to_nat (decodeCursor c)) rows) / Z.to_nat limit)%nat = n ->
  browse request (S n) i c = Some (item <$> drop (Z.to_nat (decodeCursor c)) rows).
Proof.
  revert i c. induction n as [|n IH]; intros i c Hc Hle Hn; set (rest := drop (Z.to_nat (decodeCursor c)) rows) in *;
    destruct (pages i c Hc) as (r & Hr & Hitems & Hnext); pose proof (decodeCursor_range c) as Hrange;
    assert (length (rs_Items r) = Nat.min (Z.to_nat limit) (length rest)) as Hlen by (by rewrite Hitems, length_fmap; unfold page; rewrite length_take).
  - apply Nat.div_small_iff in Hn; [|lia]. rewrite browse_step, Hr, Hnext, (proj2 (Z.eqb_neq _ _)) by lia. cbn [String.eqb].
    rewrite Hitems. unfold page. fold rest. by rewrite take_ge by lia.
  - assert (Z.to_nat limit <= length rest)%nat as Hfull.
    { destruct (decide (length rest < Z.to_nat limit)%nat) as [H|H]; [|lia]. apply Nat.div_small in H. lia. }
    assert (length rest = (length rows - Z.to_nat (decodeCursor c))%nat) as Hrest by (unfold rest; by rewrite length_drop).
    rewrite (proj2 (Z.eqb_eq _ _)) in Hnext by lia. rewrite Hlen, Nat.min_l, Z2Nat.id in Hnext by lia.
    rewrite wrap_s_id in Hnext by (unfold in_s, max_i64 in *; lia).
    set (n' := decodeCursor c + limit) in *. assert (decodeCursor (encodeCursor n') = n') as Hdec by (apply decode_encodeCursor; unfold n'; lia).
    rewrite browse_step, Hr, Hnext, (proj2 (String.eqb_neq _ _)) by (apply encodeCursor_nonempty; unfold n'; lia).
    assert (drop (Z.to_nat n') rows = drop (Z.to_nat limit) rest) as Hdrop by (unfold rest, n'; rewrite drop_drop; f_equal; lia).
    rewrite (IH (S i) (encodeCursor n')), Hdec, Hdrop.
    + cbn [fmap option_fmap option_map]. f_equal. rewrite Hitems, <- fmap_app. unfold page. fold rest. by rewrite take_drop.
    + right. exists n'. split; [unfold n'; lia|done].
    + rewrite Hdec. unfold n'. lia.
    + rewrite Hdec, Hdrop, length_drop.
      replace (length rest) with ((length rest - Z.to_nat limit) + 1 * Z.to_nat limit)%nat in Hn by lia. rewrite Nat.div_add in Hn by lia. lia.
Qed.

Lemma browse_all : browse request (S (length rows / Z.to_nat limit)) 0 "" = Some (item <$> rows).
Proof. rewrite browse_pages; [done|by left|change (decodeCursor "") with 0; lia|done]. Qed.
End browsing.

(** ** The order of connections *)

(** A deterministic collation orders texts totally. *)
Class CollationLaws (collation : Collation) : Prop := {
  text_le_trans :: Transitive text_le;
  text_le_total :: Total text_le;
  text_le_antisymm :: AntiSymm (=) text_le }.

Section live.
Context {tz : Timestamptz} {ip : Inet} {collation : Collation} {laws : CollationLaws collation} {like : Ilike}.
Variable unicode_lower : string -> string.

#[local] Ltac order := unfold live_le; repeat case_bool_decide; try lia; try congruence.

#[export] Instance live_le_total sort : Total (live_le sort).
Proof. intros a b. order. apply total, _. Qed.

#[export] Instance live_le_trans sort : Transitive (live_le sort).
Proof. intros a b c. order. intros Hab Hbc. by transitivity b.1.1. Qed.

Lemma live_le_key sort (a b : conn) : live_le sort a b -> live_le sort b a -> a.1 = b.1.
Proof.
  order. intros Hab Hba. destruct a as [[i t] r], b as [[j u] q]; simpl in *. f_equal; [|done]. by apply (anti_symm text_le).
Qed.

(** However the table is scanned, the rows come in one order. *)
Lemma live_rows_fixed (f : Filter) (s : store) (scanned : list conn) : scanned ≡ₚ map_to_list (st_connections s) ->
  merge_sort (live_le (fl_Sort f)) (filter (fun kv => live_matches f kv = true) scanned) =
  merge_sort (live_le (fl_Sort f)) (filter (fun kv => live_matches f kv = true) (map_to_list (st_connections s))).
Proof.
  intros Hp. apply (StronglySorted_unique_strong (live_le (fl_Sort f))).
  - intros a b Ha Hb Hab Hba. rewrite merge_sort_Permutation, list_elem_of_filter, Hp in Ha.
    rewrite merge_sort_Permutation, list_elem_of_filter in Hb. destruct Ha as [_ Ha], Hb as [_ Hb].
    pose proof (live_le_key _ a b Hab Hba) as Hk. destruct a as [ka ra], b as [kb rb]. simpl in Hk. subst kb.
    apply elem_of_map_to_list in Ha, Hb. congruence.
  - by apply StronglySorted_merge_sort; apply _.
  - by apply StronglySorted_merge_sort; apply _.
  - rewrite !merge_sort_Permutation. by rewrite Hp.
Qed.

(** Paging through the connections: however the rows are scanned and whatever else fails
    that a request drops, [length rows / limit + 1] requests show every matching
    connection once, in order. *)
Lemma live_browse (values : url_values) now0 f s (aw : nat -> answers) (now : nat -> time) rows :
  ParseFilter unicode_lower values now0 true = Ok f -> Get values "start" <> "" -> Get values "end" <> "" ->
  (forall i A l, aw_scan (aw i) A l ≡ₚ l) -> (forall i q, (q < 3)%nat -> aw_fails (aw i) q = false) ->
  rows = merge_sort (live_le (fl_Sort f)) (filter (fun kv => live_matches f kv = true) (map_to_list (st_connections s))) ->
  live_parameters f = true -> live_sums f rows = true -> Z.of_nat (length rows) <= max_i64 ->
  browse (fun i c => LiveHandler unicode_lower (aw i) (<["cursor" := [c]]> values) (now i) s) (S (length rows / Z.to_nat (fl_Limit f))) 0 "" =
    Some (live_item <$> rows).
Proof.
  intros Hf Hs He Hscan Hfails Hrows Hpar Hsum Hfit. pose proof (ParseFilter_ok _ _ _ _ _ Hf) as Hok.
  apply (browse_all _ _ _ (fl_Limit f)); [apply Hok|done|]. intros i c Hc.
  unfold LiveHandler, serveQuery. rewrite (ParseFilter_later _ _ now0) by by rewrite Get_other.
  rewrite (ParseFilter_cursor _ _ _ _ _ c Hf Hc). unfold Live.
  set (g := with_cursor c f). change (decodeCursor (fl_Cursor g)) with (decodeCursor c). cbv zeta.
  set (scanned := filter (fun kv => live_matches g kv = true) (aw_scan (aw i) conn (map_to_list (st_connections s)))).
  assert (merge_sort (live_le (fl_Sort g)) scanned = rows) as Erows by (rewrite Hrows; exact (live_rows_fixed g s _ (Hscan i _ _))).
  assert (live_sums g scanned = true) as ->.
  { unfold live_sums in *. apply orb_true_iff in Hsum as [Hsum|Hsum]; apply orb_true_iff; [by left|right].
    rewrite forallb_forall in *. intros x Hx. apply Hsum, list_elem_of_In. rewrite <- Erows, merge_sort_Permutation. by apply list_elem_of_In. }
  rewrite Erows, Hfails by lia. change (live_parameters g) with (live_parameters f). rewrite Hpar.
  cbn [andb negb guard_err result_bind]. unfold liveMetrics. rewrite !Hfails by lia. cbn [negb guard_err result_bind].
  eexists. split; [reflexivity|]. split; reflexivity.
Qed.

(** C30. Nobody misses a page: a client that asks for connections and follows the cursors,
    with the range in its request, is done after [rows / limit + 1] requests and has been
    shown every connection that matches the filter once, in the order it asked for -
    however the table is scanned for each page and whatever the clock says.  The rows must
    not change meanwhile, the parameters be ones the query takes, and the sums it orders by
    64-bit numbers. *)
Theorem pages_complete (values : url_values) now0 f s (aw : nat -> answers) (now : nat -> time) :
  ParseFilter unicode_lower values now0 true = Ok f -> Get values "start" <> "" -> Get values "end" <> "" ->
  (forall i A l, aw_scan (aw i) A l ≡ₚ l) -> (forall i q, (q < 3)%nat -> aw_fails (aw i) q = false) ->
  let matching := filter (fun kv => live_matches f kv = true) (map_to_list (st_connections s)) in
  live_parameters f = true -> live_sums f matching = true -> Z.of_nat (length matching) <= max_i64 ->
  exists rows, rows ≡ₚ matching /\ NoDup rows.*1 /\ StronglySorted (live_le (fl_Sort f)) rows /\
    browse (fun i c => LiveHandler unicode_lower (aw i) (<["cursor" := [c]]> values) (now i) s)
      (S (length rows / Z.to_nat (fl_Limit f))) 0 "" = Some (live_item <$> rows).
Proof.
  intros Hf Hs He Hscan Hfails matching Hpar Hsum Hfit. exists (merge_sort (live_le (fl_Sort f)) matching).
  assert (merge_sort (live_le (fl_Sort f)) matching ≡ₚ matching) as Hp by apply merge_sort_Permutation. split_and!.
  - exact Hp.
  - rewrite Hp. apply NoDup_fmap_fst; [|apply NoDup_filter, NoDup_map_to_list].
    intros k r q [_ Hr]%list_elem_of_filter [_ Hq]%list_elem_of_filter. apply elem_of_map_to_list in Hr, Hq. congruence.
  - by apply StronglySorted_merge_sort; apply _.
  - apply (live_browse _ now0); [done..| |by rewrite Hp]. unfold live_sums in *. apply orb_true_iff in Hsum as [Hsum|Hsum]; apply orb_true_iff; [by left|right].
    rewrite forallb_forall in *. intros x Hx. apply Hsum, list_elem_of_In. rewrite <- Hp. by apply list_elem_of_In.
Qed.
End live.

(** C31. Cursors: an offset is read back from its cursor; and of all texts a request accepts
    as a cursor exactly the empty one and those that the server itself writes, with every
    other part of the filter as it was. *)
Theorem cursors_accepted unicode_lower values now detail f c : ParseFilter unicode_lower values now detail = Ok f ->
  let answer := ParseFilter unicode_lower (<["cursor" := [c]]> values) now detail in
  (forall n, 0 <= n <= max_i64 -> decodeCursor (encodeCursor n) = n) /\
  (is_ok answer = true <-> c = "" \/ is_cursor c) /\
  (forall f', answer = Ok f' -> f' = with_cursor c f) /\
  (forall e, answer = Err e -> e = "cursor is too long" \/ e = "cursor is invalid").
Proof.
  intros Hf answer. split; [apply decode_encodeCursor|]. split.
  - split; [|intros Hc; unfold answer; by rewrite (ParseFilter_cursor _ _ _ _ _ _ Hf Hc)].
    unfold answer. intros Hok. destruct (ParseFilter _ (<[_ := _]> _) _ _) as [f'|] eqn:E; [|done].
    pose proof (ParseFilter_no_cursor _ _ _ _ _ E) as Hc. rewrite (ParseFilter_with _ _ _ _ _ _ Hf) in E.
    apply result_bind_ok in E as (? & _ & E). apply result_bind_ok in E as (? & _ & [= <-]). exact Hc.
  - unfold answer. rewrite (ParseFilter_with _ _ _ _ _ _ Hf). unfold guard_err.
    destruct (negb _); cbn [result_bind]; [|split; [done|intros e [= <-]; by left]].
    destruct (_ || _); cbn [result_bind]; split; intros ? [= <-]; [done|by right].
Qed.

Module DemoTraffic.
#[local] Instance tz : Timestamptz := fun t => t - t mod 1000.
(** An [inet] column has no zones. *)
#[local] Instance ip : Inet := fun s => match ParseAddr s with Some (IPv6 _ zone) => if String.eqb zone "" then Some s else None | Some _ => Some s | None => None end.
#[local] Instance collation : Collation := {| text_le := str_le |}.
#[local] Instance laws : CollationLaws collation.
Proof. split; apply _. Qed.
#[local] Instance like : Ilike := fun _ _ => true.

Definition lower (s : string) : string := s.
Definition start : time := 1784041200 * Second.
Definition row (sent : Z) : connection_row :=
  MkConnection "node" "outbound" "tcp" "10.0.0.1" 40000 "192.0.2.7" 443 "host" "host" "host"
    (MkDecision "example.com" "confirmed" "tls" None) sent 10 "open" (MkNetworkInfo "" "" 0 "" "unknown").

(** Five connections, two of them with the same bytes at the same instant. *)
Definition s : store := set_connections (list_to_map
  [(("a", start + Second), row 30); (("b", start + 2 * Second), row 10); (("c", start + 3 * Second), row 20);
   (("d", start + 3 * Second), row 20); (("e", start + 4 * Second), row 5)]) empty_store.

Definition values : url_values := list_to_map
  [("node", ["node"]); ("start", ["2026-07-14T15:00:00Z"]); ("end", ["2026-07-14T16:00:00+00:00"]); ("limit", ["2"])].

Definition f : Filter := MkFilter "node" start (start + Hour) "" "" "" "" None 0 "" "" 2 "bytes".

(** Every second page is scanned backwards. *)
Definition aw (i : nat) : answers := MkAnswers (fun A l => if Nat.even i then l else reverse l) (fun _ => false) 10.

Example filter_read : ParseFilter lower values 0 true = Ok f.
Proof. vm_compute. reflexivity. Qed.

Example five_shown : (fun items : list LiveItem => li_ID <$> items) <$> browse (fun i c => LiveHandler lower (aw i) (<["cursor" := [c]]> values) (Z.of_nat i) s) 3 0 "" =
  Some ["a"; "d"; "c"; "b"; "e"].
Proof. vm_compute. reflexivity. Qed.

Lemma pages_complete_witness : exists rows, length rows = 5%nat /\
  browse (fun i c => LiveHandler lower (aw i) (<["cursor" := [c]]> values) (Z.of_nat i) s) 3 0 "" = Some (live_item <$> rows).
Proof.
  destruct (pages_complete lower values 0 f s aw Z.of_nat filter_read) as (rows & Hp & _ & _ & H).
  - vm_compute. discriminate.
  - vm_compute. discriminate.
  - intros i A l. cbn [aw aw_scan]. destruct (Nat.even i); [done|apply reverse_Permutation].
  - reflexivity.
  - vm_compute. reflexivity.
  - vm_compute. reflexivity.
  - vm_compute. discriminate.
  - assert (length rows = 5%nat) as Hl by (rewrite Hp; vm_compute; reflexivity). exists rows. split; [exact Hl|].
    rewrite Hl in H. exact H.
Defined.

Lemma cursors_accepted_witness : decodeCursor (encodeCursor 50) = 50 /\ is_ok (ParseFilter lower (<["cursor" := ["NTA"]]> values) 0 true) = true.
Proof.
  destruct (cursors_accepted lower values 0 true f "NTA" filter_read) as (Hd & Hok & _). split.
  - apply Hd. vm_compute. split; discriminate.
  - apply Hok. right. exists 50. split; [vm_compute; split; discriminate|]. vm_compute. reflexivity.
Defined.

(** A cursor with a sign, with bits that make no byte, and one that is no number. *)
Example cursors_refused : (fun c => is_ok (ParseFilter lower (<["cursor" := [c]]> values) 0 true)) <$> ["KzU"; "NTB"; "eA"; "LTE"] = [false; false; false; false].
Proof. vm_compute. reflexivity. Qed.

(** The order of domains leaves rows of one domain that tie in either order: pages
    scanned differently show one of them twice and the other never. *)
Definition domains : store := set_minutes
  [Rollup.MkMinute "node" start (Rollup.domain_minute "example.com" "confirmed" "inbound") (Rollup.MkCounts 10 0 1 0);
   Rollup.MkMinute "node" start (Rollup.domain_minute "example.com" "confirmed" "outbound") (Rollup.MkCounts 10 0 1 0)] empty_store.

Example domain_shown_twice : (fun items : list DomainItem => di_Direction <$> items) <$>
  browse (fun i c => DomainsHandler lower (aw i) (<["limit" := ["1"]]> (<["cursor" := [c]]> values)) 0 domains) 3 0 "" = Some ["inbound"; "inbound"].
Proof. vm_compute. reflexivity. Qed.

(** A link-local address is written with its zone, which [ParseFilter] takes and the
    column does not: the query fails. *)
Example zone_fails : qa_status (LiveHandler lower (aw 0) (<["ip" := ["fe80::1%eth0"]]> values) 0 s) = 500.
Proof. vm_compute. reflexivity. Qed.
End DemoTraffic.
