(* ===== verification/AlertSource.v ===== *)
(** * What alert rules observe

    [internal/server/alerts/source.go]: the rules, the nodes and the observations of a rule
    for a node, read off the tables of the store; and what they mean in terms of the
    events that were stored. *)

From stdpp Require Import base strings numbers gmap list.
From Stdlib Require Import Ascii SpecFloat.
From S2P Require Import Prelude GoBase GoText GoModel InterfaceCounter Attribution Alerts Sql Store StoreTheorems Overview TrafficQuery.
From S2P Require StoreDemo.
From S2P Require Rollup Webhook Reconcile.

Open Scope string_scope.
Open Scope Z_scope.
Local Open Scope flow_scope.
Local Open Scope list_scope.

Definition defaultDatabaseBudgetBytes : Z := Z.shiftl 10 30.

(** [WithDatabaseBudgetBytes]: an option changes the budget when it is positive. *)
Definition NewPostgresSource (options : list Z) : Z :=
  foldl (fun budget value => if 0 <? value then value else budget) defaultDatabaseBudgetBytes options.

Definition f64_add : float64 -> float64 -> float64 := SFadd 53 1024.

(** [Duration.Seconds] *)
Definition seconds (d : duration) : float64 := f64_add (f64_of_Z (Z.quot d Second)) (f64_div (f64_of_Z (Z.rem d Second)) (f64_of_Z Second)).

(** The constants of [Kind]. *)
Definition kinds : list Kind :=
  [KindAbsoluteRate; KindOwnerBaseline; KindNewDestination; KindDomainCoverage; KindAgentStale; KindCollectorUnhealthy; KindBufferPressure;
   KindDatabasePressure; KindWebhookFailures].

Definition kind_of (name : string) : Kind := default (KindOther name) (List.find (fun k => String.eqb (kind_string k) name) kinds).

Abbreviation minute_row := Rollup.minute_row.

Section source.
Context {tz : Timestamptz} {collation : Collation}.
(** The order of scans, the budget, the size of the database, and whether the query fails. *)
Variables (scan : forall A : Type, list A -> list A) (databaseBudgetBytes : Z) (database_size : Z) (fails : bool).

(** [ORDER BY id] *)
Definition rule_le (a b : string * Reconcile.rule_row) : Prop := text_le a.1 b.1.

#[export] Instance rule_le_dec a b : base.Decision (rule_le a b).
Proof. unfold rule_le. apply _. Defined.

Definition Rules (db : Reconcile.alert_db) : result string (list Rule) :=
  let* _ := guard_err (negb fails) "query rules" in
  Ok ((fun kv : string * Reconcile.rule_row => let r := kv.2 in
        MkRule kv.1 (kind_of (Reconcile.rl_kind r)) (Reconcile.rl_name r) (Reconcile.rl_enabled r) (Reconcile.rl_severity r)
          (Reconcile.rl_threshold r) (Reconcile.rl_multiplier r) (Reconcile.rl_window r)) <$>
      sorting.merge_sort rule_le (map_to_list (Reconcile.ad_rules db))).

Definition Nodes (s : store) : result string (list string) :=
  let* _ := guard_err (negb fails) "query nodes" in Ok (sorting.merge_sort text_le (map_to_list (st_nodes s)).*1).

(** ** Observations *)

(** [Observation{NodeID: nodeID}] with the fields each rule sets. *)
Definition rate_observation (nodeID : string) (rate : float64) : Observation :=
  MkObservation nodeID rate "" f64_zero f64_zero "" false f64_zero f64_zero "" false f64_zero f64_zero f64_zero.
Definition owner_observation (nodeID owner : string) (bytes baseline : float64) : Observation :=
  MkObservation nodeID f64_zero owner bytes baseline "" false f64_zero f64_zero "" false f64_zero f64_zero f64_zero.
Definition destination_observation (nodeID owner destination : string) : Observation :=
  MkObservation nodeID f64_zero owner f64_zero f64_zero destination true f64_zero f64_zero "" false f64_zero f64_zero f64_zero.
Definition coverage_observation (nodeID : string) (coverage : float64) : Observation :=
  MkObservation nodeID f64_zero "" f64_zero f64_zero "" false coverage f64_zero "" false f64_zero f64_zero f64_zero.
Definition age_observation (nodeID : string) (age : float64) : Observation :=
  MkObservation nodeID f64_zero "" f64_zero f64_zero "" false f64_zero age "" false f64_zero f64_zero f64_zero.
Definition collector_observation (nodeID collector : string) : Observation :=
  MkObservation nodeID f64_zero "" f64_zero f64_zero "" false f64_zero f64_zero collector false f64_zero f64_zero f64_zero.
Definition usage_observation (nodeID : string) (buffer database failures : float64) : Observation :=
  MkObservation nodeID f64_zero "" f64_zero f64_zero "" false f64_zero f64_zero "" false buffer database failures.

(** [WHERE node_id=$1 AND bucket >= $2 AND bucket < $3] *)
Definition in_window (nodeID : string) (start end_ : time) (r : minute_row) : bool :=
  String.eqb (Rollup.mi_node r) nodeID && within start end_ (Rollup.mi_bucket r).

Definition is_traffic (r : minute_row) : bool := match Rollup.mi_dim r with Rollup.traffic_minute _ => true | _ => false end.

Definition owner_in (r : minute_row) : option string := match Rollup.mi_dim r with Rollup.owner_minute owner _ _ _ => Some owner | _ => None end.

(** Domain, confidence and direction of a flow. *)
Definition flow_in (r : minute_row) : option (string * string * string) :=
  match Rollup.mi_dim r with Rollup.flow_minute _ _ _ _ domain confidence _ _ direction => Some (domain, confidence, direction) | _ => None end.

Definition sum_bytes (rows : list minute_row) : Z := sumZ (fun r => Rollup.bytes (Rollup.mi_counts r)) rows.

Definition owner_rows (nodeID : string) (start end_ : time) (s : store) (owner : string) : list minute_row :=
  filter (fun r => in_window nodeID start end_ r = true /\ owner_in r = Some owner) (st_minutes s).

(** The left join of the window with the twelve windows before it. *)
Definition baselines (nodeID : string) (windowStart now : time) (s : store) : list Observation :=
  (fun owner =>
     owner_observation nodeID owner (f64_of_Z (sum_bytes (owner_rows nodeID windowStart now s owner)))
       (match owner_rows nodeID (windowStart - Hour) windowStart s owner with
        | [] => f64_zero
        | rows => f64_div (f64_of_Z (sum_bytes rows)) (f64_of_Z 12)
        end)) <$>
  remove_dups (omap (fun r => if in_window nodeID windowStart now r then owner_in r else None) (st_minutes s)).

(** Owner, destination and domain of a flow. *)
Definition destination_in (r : minute_row) : option (string * string * string) :=
  match Rollup.mi_dim r with Rollup.flow_minute owner _ _ destination domain _ _ _ _ => Some (owner, destination, domain) | _ => None end.

Definition new_destinations (nodeID : string) (windowStart now : time) (s : store) : list Observation :=
  let seen := omap (fun r => if in_window nodeID (now - 30 * 24 * Hour) windowStart r then destination_in r else None) (st_minutes s) in
  let recent := omap (fun r => if in_window nodeID windowStart now r then destination_in r else None) (st_minutes s) in
  (fun o : string * string => destination_observation nodeID o.1 o.2) <$>
  remove_dups ((fun d => (d.1.1, if String.eqb d.2 "" then d.1.2 else d.2)) <$> filter (fun d => d ∉ seen) recent).

Definition identified (f : string * string * string) : bool := negb (String.eqb f.1.1 "") && negb (String.eqb f.1.2 ConfidenceIPOnly).

Definition flow_rows (nodeID : string) (start end_ : time) (s : store) (p : string * string * string -> bool) : list minute_row :=
  filter (fun r => in_window nodeID start end_ r = true /\ (p <$> flow_in r) = Some true) (st_minutes s).

Definition coverage (nodeID : string) (windowStart now : time) (s : store) : float64 :=
  let total := f64_of_Z (sum_bytes (flow_rows nodeID windowStart now s (fun _ => true))) in
  let named := f64_of_Z (sum_bytes (flow_rows nodeID windowStart now s identified)) in
  if SFeqb total f64_zero then f64_of_Z 100 else f64_div (f64_mul named (f64_of_Z 100)) total.

(** [SELECT DISTINCT ON(collector) ... ORDER BY collector, observed_at DESC] *)
Definition latest_health (nodeID : string) (s : store) : list health_row :=
  distinct_collectors None (sorting.merge_sort gap_le (filter (fun row => hr_node row = nodeID) (scan _ (map_to_list (st_health s)).*2))).

Definition buffer_usage (nodeID : string) (start end_ : time) (s : store) : float64 :=
  match filter (fun row => hr_node row = nodeID /\ he_Collector (hr_health row) = "spool" /\ he_Code (hr_health row) ∈ ["buffer_pressure"; "data_gap"] /\
                           within start end_ (hr_observed_at row) = true) (map_to_list (st_health s)).*2 with
  | [] => f64_zero
  | row :: rows => foldl (fun m r => f64_max m (he_UsagePercent (hr_health r))) (he_UsagePercent (hr_health row)) rows
  end.

Definition failed_delivery (d : Webhook.delivery_row) : bool := match Webhook.wd_status d with Webhook.terminal => true | _ => false end.

Definition Observations (s : store) (rule : Rule) (nodeID : string) (now : time) (db : Reconcile.alert_db) : result string (list Observation) :=
  let windowStart := now - 5 * Minute in
  let query := fun observations => let* _ := guard_err (negb fails) "query observations" in Ok observations in
  match ru_Kind rule with
  | KindAbsoluteRate =>
      query [rate_observation nodeID (per_second 300 (sum_bytes (filter (fun r => in_window nodeID windowStart now r && is_traffic r = true) (st_minutes s))))]
  | KindOwnerBaseline => query (scan _ (baselines nodeID windowStart now s))
  | KindNewDestination => query (scan _ (new_destinations nodeID windowStart now s))
  | KindDomainCoverage => query [coverage_observation nodeID (coverage nodeID windowStart now s)]
  | KindAgentStale =>
      match st_nodes s !! nodeID with
      | Some seen => query [age_observation nodeID (seconds (time_sub now (default 0 seen)))]
      | None => Err "no rows in result set"
      end
  | KindCollectorUnhealthy =>
      query ((fun row => collector_observation nodeID (he_Collector (hr_health row))) <$>
             filter (fun row => he_Status (hr_health row) <> "healthy") (latest_health nodeID s))
  | KindBufferPressure => query [usage_observation nodeID (buffer_usage nodeID windowStart now s) f64_zero f64_zero]
  | KindDatabasePressure =>
      query [usage_observation nodeID f64_zero (f64_mul (f64_div (f64_of_Z database_size) (f64_of_Z databaseBudgetBytes)) (f64_of_Z 100)) f64_zero]
  | KindWebhookFailures =>
      query [usage_observation nodeID f64_zero f64_zero
               (f64_of_Z (count failed_delivery (Reconcile.ad_deliveries db)))]
  | KindOther _ => Ok []
  end.
End source.

(** ** Windows of minutes

    A window takes the minutes that begin in it: it begins with the first full minute and
    ends with the one that the clock is in. *)

Definition ceil_minute (t : time) : time := - (- t / Minute) * Minute.

Lemma window_of_minutes a b t : a <= minute t < b <-> ceil_minute a <= t < ceil_minute b.
Proof. unfold minute, ceil_minute, Minute, Second. Z.to_euclidean_division_equations; lia. Qed.

(** ** Sums over a family of views *)

Section family.
Context `{EqDecision K} (V : K -> view) (key : minute_row -> option K).
Hypothesis keyed : forall k r, in_view (V k) (Rollup.mi_dim r) = bool_decide (key r = Some k).

(** The bytes of a row whose key is chosen, of a node, in an interval of buckets. *)
Definition part (p : K -> bool) (node : string) (a b : time) (r : minute_row) : Z :=
  match key r with
  | Some k => if p k && String.eqb (Rollup.mi_node r) node && (a <=? Rollup.mi_bucket r) && (Rollup.mi_bucket r <? b)
              then Rollup.bytes (Rollup.mi_counts r) else 0
  | None => 0
  end.

Lemma over_keyed k node a b r : over node (V k) a b r = part (fun k' => bool_decide (k' = k)) node a b r.
Proof.
  unfold over, selected, part. rewrite keyed, Z.eqb_refl, andb_true_r. destruct (key r) as [k'|]; [|by rewrite andb_false_r; destruct (_ && _)].
  destruct (decide (k' = k)) as [->|Hne].
  - rewrite (bool_decide_eq_true_2 (Some k = Some k)), (bool_decide_eq_true_2 (k = k)) by done. rewrite andb_true_r. cbn [andb]. case_bool_decide as Hn.
    + rewrite (proj2 (String.eqb_eq _ _) Hn). cbn [andb]. done.
    + rewrite (proj2 (String.eqb_neq _ _) Hn). cbn [andb]. by destruct (_ && _).
  - rewrite (bool_decide_eq_false_2 (Some k' = Some k)), (bool_decide_eq_false_2 (k' = k)) by congruence. rewrite andb_false_r. cbn [andb]. by destruct (_ && _).
Qed.

Lemma part_by_keys p node a b ks rows : NoDup ks -> (forall r k, r ∈ rows -> key r = Some k -> k ∈ ks) ->
  sumZ (part p node a b) rows = sumZ (fun k => if p k then sumZ (over node (V k) a b) rows else 0) ks.
Proof.
  intros Hn. induction rows as [|r rows IH]; intros Hin.
  { symmetry. apply sumZ_zero. intros k _. by destruct (p k). }
  rewrite sumZ_cons, IH by (intros r' k Hr; apply Hin; by constructor).
  assert (part p node a b r = sumZ (fun k => if p k then over node (V k) a b r else 0) ks) as ->.
  { destruct (key r) as [k|] eqn:Ek.
    - rewrite (sumZ_single _ ks k); [|done|apply (Hin r); [by constructor|done]|].
      + rewrite over_keyed. unfold part. rewrite Ek, bool_decide_eq_true_2 by done. by destruct (p k).
      + intros k' _ Hne. rewrite over_keyed. unfold part. rewrite Ek, bool_decide_eq_false_2 by done. cbn [andb]. by destruct (p k').
    - symmetry. unfold part. rewrite Ek. apply sumZ_zero. intros k _. rewrite over_keyed. unfold part. rewrite Ek. by destruct (p k). }
  clear. induction ks as [|k ks IH]; [done|]. rewrite !sumZ_cons. destruct (p k); rewrite ?sumZ_cons; lia.
Qed.

(** Tables that agree on every view agree on every choice of keys. *)
Lemma part_agree p node a b rows rows' : (forall k bucket, total node bucket (V k) rows = total node bucket (V k) rows') ->
  sumZ (part p node a b) rows = sumZ (part p node a b) rows'.
Proof.
  intros Ht. set (ks := remove_dups (omap key rows ++ omap key rows')).
  assert (forall l, l = rows \/ l = rows' -> sumZ (part p node a b) l = sumZ (fun k => if p k then sumZ (over node (V k) a b) l else 0) ks) as H.
  { intros l Hl. apply part_by_keys; [apply NoDup_remove_dups|]. intros r k Hr Hk. apply elem_of_remove_dups, elem_of_app.
    destruct Hl as [-> | ->]; [left|right]; apply list_elem_of_omap; eauto. }
  rewrite !H by auto. apply sumZ_ext. intros k _. destruct (p k); [|done]. apply over_agree, Ht.
Qed.

Lemma sum_bytes_part {tz : Timestamptz} p node start end_ rows :
  sum_bytes (filter (fun r => in_window node start end_ r = true /\ (p <$> key r) = Some true) rows) =
  sumZ (part p node (timestamptz start) (timestamptz end_)) rows.
Proof.
  unfold sum_bytes. induction rows as [|r rows IH]; [done|]. rewrite sumZ_cons, <- IH, filter_cons. unfold part, in_window, within.
  destruct (key r) as [k|]; cbn [fmap option_fmap option_map]; [|by rewrite decide_False by (intros [_ H]; discriminate H)].
  destruct (String.eqb _ _), (timestamptz start <=? _), (_ <? timestamptz end_), (p k); cbn [andb];
    first [rewrite decide_True by done; by rewrite sumZ_cons|by rewrite decide_False by (intros [H1 H2]; congruence)].
Qed.
End family.

(** ** The events behind the sums *)

Definition during (node : string) (a b : time) (row_node : string) (t : time) : bool := String.eqb row_node node && (a <=? t) && (t <? b).

(** The bytes of the interfaces of a node, of the connections of an owner, and of the
    flows of chosen names, observed in an interval. *)
Definition interface_bytes (s : store) (node : string) (a b : time) : Z :=
  sumZ (fun kv : string * time * interface_row => if during node a b (ir_node kv.2) kv.1.2 then ir_bytes kv.2 else 0) (map_to_list (st_interfaces s)).

Definition conn_bytes (r : connection_row) : Z := saturatingBytes (cr_bytes_sent r) (cr_bytes_received r).

Definition owner_bytes (s : store) (node owner : string) (a b : time) : Z :=
  sumZ (fun kv : conn => if during node a b (cr_node kv.2) kv.1.2 && bool_decide (cr_owner_id kv.2 = owner) then conn_bytes kv.2 else 0)
    (map_to_list (st_connections s)).

Definition flow_bytes (s : store) (node : string) (p : string * string * string -> bool) (a b : time) : Z :=
  sumZ (fun kv : conn =>
    if during node a b (cr_node kv.2) kv.1.2 && p (DisplayName (cr_decision kv.2), dec_Confidence (cr_decision kv.2), cr_direction kv.2)
    then conn_bytes kv.2 else 0) (map_to_list (st_connections s)) +
  sumZ (fun kv : string * time * request_row =>
    if during node a b (rr_node kv.2) kv.1.2 && p (rr_host kv.2, ConfidenceConfirmed, DirectionInbound) then rr_bytes_sent kv.2 else 0)
    (map_to_list (st_requests s)).

Definition traffic_key (r : minute_row) : option string := match Rollup.mi_dim r with Rollup.traffic_minute direction => Some direction | _ => None end.

Definition owner_key (r : minute_row) : option (string * string) :=
  match Rollup.mi_dim r with Rollup.owner_minute owner _ _ direction => Some (owner, direction) | _ => None end.

Lemma traffic_keyed d r : in_view (ByDirection d) (Rollup.mi_dim r) = bool_decide (traffic_key r = Some d).
Proof. unfold traffic_key. destruct (Rollup.mi_dim r); cbn [in_view]; try (by rewrite bool_decide_eq_false_2). apply bool_decide_ext. naive_solver. Qed.

Lemma owner_keyed k r : in_view (ByOwner k.1 k.2) (Rollup.mi_dim r) = bool_decide (owner_key r = Some k).
Proof.
  unfold owner_key. destruct k as [o d], (Rollup.mi_dim r); cbn [in_view fst snd]; try (by rewrite bool_decide_eq_false_2).
  repeat case_bool_decide; naive_solver.
Qed.

Lemma flow_keyed k r : in_view (FlowsByDomain k.1.1 k.1.2 k.2) (Rollup.mi_dim r) = bool_decide (flow_in r = Some k).
Proof.
  unfold flow_in. destruct k as [[o c] d], (Rollup.mi_dim r); cbn [in_view fst snd]; try (by rewrite bool_decide_eq_false_2).
  repeat case_bool_decide; naive_solver.
Qed.

(** A detail of the minute [t] falls into. *)
Lemma part_minute {K} (key : minute_row -> option K) p node a b n t d c k : key (Rollup.MkMinute n (minute t) d c) = k ->
  part key p node a b (Rollup.MkMinute n (minute t) d c) =
  match k with Some k => if during node (ceil_minute a) (ceil_minute b) n t && p k then Rollup.bytes c else 0 | None => 0 end.
Proof.
  intros <-. unfold part, during. destruct (key _) as [k|]; [|done]. cbn [Rollup.mi_node Rollup.mi_bucket Rollup.mi_counts].
  pose proof (window_of_minutes a b t) as Hw. destruct (p k), (String.eqb n node); rewrite ?andb_false_r, ?andb_true_r; cbn [andb]; try done.
  destruct (Z.leb_spec a (minute t)), (Z.ltb_spec (minute t) b), (Z.leb_spec (ceil_minute a) t), (Z.ltb_spec t (ceil_minute b)); cbn [andb]; first [done|lia].
Qed.

Lemma interface_details s node a b : sumZ (part traffic_key (fun _ => true) node a b) (details s) = interface_bytes s node (ceil_minute a) (ceil_minute b).
Proof.
  unfold details. rewrite !sumZ_app, !sumZ_bind.
  rewrite (sumZ_zero _ (map_to_list (st_connections s))) by (intros kv _; done).
  rewrite (sumZ_zero _ (map_to_list (st_requests s))) by (intros kv _; done).
  rewrite !Z.add_0_r. apply sumZ_ext. intros kv _. unfold interface_minutes. cbn [sumZ foldr fst snd].
  erewrite part_minute by reflexivity. cbn [Rollup.bytes]. by rewrite andb_true_r, Z.add_0_r.
Qed.

Lemma owner_details s node owner a b :
  sumZ (part owner_key (fun k => bool_decide (k.1 = owner)) node a b) (details s) = owner_bytes s node owner (ceil_minute a) (ceil_minute b).
Proof.
  unfold details. rewrite !sumZ_app, !sumZ_bind.
  rewrite (sumZ_zero _ (map_to_list (st_interfaces s))) by (intros kv _; done).
  rewrite (sumZ_zero _ (map_to_list (st_requests s))) by (intros kv _; done).
  rewrite Z.add_0_l, Z.add_0_r. apply sumZ_ext. intros kv _. unfold connection_minutes. cbn [sumZ foldr fst snd].
  do 3 (erewrite part_minute by reflexivity). cbn [Rollup.bytes fst]. by rewrite !Z.add_0_r.
Qed.

Lemma flow_details s node p a b : sumZ (part flow_in p node a b) (details s) = flow_bytes s node p (ceil_minute a) (ceil_minute b).
Proof.
  unfold details, flow_bytes. rewrite !sumZ_app, !sumZ_bind.
  rewrite (sumZ_zero _ (map_to_list (st_interfaces s))) by (intros kv _; done). rewrite Z.add_0_l.
  f_equal; apply sumZ_ext; intros kv _; unfold connection_minutes, request_minutes; cbn [sumZ foldr fst snd];
    do 3 (erewrite part_minute by reflexivity); cbn [Rollup.bytes]; by rewrite ?Z.add_0_r, ?Z.add_0_l.
Qed.

(** ** What the rules observe *)

(** Some row counts a connection that a sum counts. *)
Lemma total_connections node bucket v rows : 0 < Rollup.connections (total node bucket v rows) ->
  exists r, r ∈ rows /\ Rollup.mi_node r = node /\ Rollup.mi_bucket r = bucket /\ in_view v (Rollup.mi_dim r) = true.
Proof.
  induction rows as [|r rows IH]; [intros H; by vm_compute in H|]. rewrite total_cons. unfold selected at 1.
  destruct (bool_decide (Rollup.mi_node r = node)) eqn:En, (Z.eqb_spec (Rollup.mi_bucket r) bucket) as [Eb|Eb], (in_view v (Rollup.mi_dim r)) eqn:Ev; cbn [andb];
    intros H; try (destruct IH as (q & Hq & Hrest); [rewrite add_counts_0 in H; exact H|]; exists q; split; [by constructor|exact Hrest]).
  exists r. split; [by constructor|]. by apply bool_decide_eq_true in En.
Qed.

Lemma connections_nonneg node bucket v rows : Forall (fun r => 0 <= Rollup.connections (Rollup.mi_counts r)) rows -> 0 <= Rollup.connections (total node bucket v rows).
Proof.
  induction 1 as [|r rows Hr _ IH]; [done|]. rewrite total_cons. unfold selected. destruct (_ && _); cbn [Rollup.add_counts Rollup.connections no_counts] in *; lia.
Qed.

Lemma connections_counted node bucket v rows r : Forall (fun r => 0 <= Rollup.connections (Rollup.mi_counts r)) rows -> r ∈ rows ->
  Rollup.mi_node r = node -> Rollup.mi_bucket r = bucket -> in_view v (Rollup.mi_dim r) = true -> 0 < Rollup.connections (Rollup.mi_counts r) ->
  0 < Rollup.connections (total node bucket v rows).
Proof.
  intros Hall Hr <- <- Hv Hc. apply list_elem_of_split in Hr as (l1 & l2 & ->). rewrite total_app, total_cons. apply Forall_app in Hall as [H1 H2].
  apply Forall_cons in H2 as [_ H2]. unfold selected. rewrite bool_decide_eq_true_2, Z.eqb_refl, Hv by done. cbn [andb].
  pose proof (connections_nonneg (Rollup.mi_node r) (Rollup.mi_bucket r) v l1 H1). pose proof (connections_nonneg (Rollup.mi_node r) (Rollup.mi_bucket r) v l2 H2).
  cbn [Rollup.add_counts Rollup.connections]. lia.
Qed.

Lemma details_nonneg s : Forall (fun r => 0 <= Rollup.connections (Rollup.mi_counts r)) (details s).
Proof.
  unfold details. rewrite !Forall_app. repeat split; apply Forall_forall; intros r (kv & Hr & _)%list_elem_of_bind;
    unfold interface_minutes, connection_minutes, request_minutes in Hr; rewrite ?elem_of_cons, elem_of_nil in Hr; naive_solver (simpl; lia).
Qed.

Section observations.
Context {tz : Timestamptz} {ip : Inet} {collation : Collation} (scan : forall A : Type, list A -> list A).
Context (sort : (NameEvidence -> NameEvidence -> bool) -> list NameEvidence -> list NameEvidence).
Context (geoIP : option (ip_addr -> NetworkInfo)) (budget size : Z).
Hypothesis scan_perm : forall A (l : list A), scan A l ≡ₚ l.

Abbreviation observe := (Observations scan budget size false).

Lemma agreed (l : list arrival) node bucket v :
  let s := arrive_all scan sort geoIP empty_store l in total node bucket v (st_minutes s) = total node bucket v (details s).
Proof. intros s. destruct (arrivals_agree scan sort geoIP l empty_store empty_agrees) as [Ht _]. fold s in Ht. by rewrite Ht, add_counts_0. Qed.

Lemma parts_stored {K} `{EqDecision K} (V : K -> view) key p node a b s :
  (forall node bucket v, total node bucket v (st_minutes s) = total node bucket v (details s)) ->
  (forall k r, in_view (V k) (Rollup.mi_dim r) = bool_decide (key r = Some k)) ->
  sumZ (part key p node a b) (st_minutes s) = sumZ (part key p node a b) (details s).
Proof. intros Hagree Hk. apply (part_agree V key Hk). intros k bucket. apply Hagree. Qed.

Lemma owner_rows_sum s node start end_ owner :
  sum_bytes (owner_rows node start end_ s owner) =
  sumZ (part owner_key (fun k => bool_decide (k.1 = owner)) node (timestamptz start) (timestamptz end_)) (st_minutes s).
Proof.
  rewrite <- sum_bytes_part. unfold owner_rows. f_equal. apply list_filter_iff. intros r. unfold owner_in, owner_key.
  destruct (Rollup.mi_dim r); cbn [fmap option_fmap option_map fst]; split; intros [Hw Ho]; split; try done; try congruence.
  - injection Ho as ->. by rewrite bool_decide_eq_true_2.
  - injection Ho as Ho. apply bool_decide_eq_true in Ho. congruence.
Qed.

Lemma traffic_rows_all s node start end_ :
  sum_bytes (filter (fun r => in_window node start end_ r && is_traffic r = true) (st_minutes s)) =
  sumZ (part traffic_key (fun _ => true) node (timestamptz start) (timestamptz end_)) (st_minutes s).
Proof.
  rewrite <- sum_bytes_part. f_equal. apply list_filter_iff. intros r. unfold is_traffic, traffic_key. rewrite andb_true_iff.
  destruct (Rollup.mi_dim r); split; intros [? ?]; split; done.
Qed.

Lemma baselines_owners node windowStart now s :
  ob_OwnerID <$> baselines node windowStart now s =
  remove_dups (omap (fun r => if in_window node windowStart now r then owner_in r else None) (st_minutes s)).
Proof. unfold baselines. rewrite <- list_fmap_compose. apply list_fmap_id. Qed.

(** The owner of a connection has a row in the window. *)
Lemma owner_in_window s node start end_ (kv : conn) :
  (forall bucket v, total node bucket v (st_minutes s) = total node bucket v (details s)) -> kv ∈ map_to_list (st_connections s) ->
  during node (ceil_minute (timestamptz start)) (ceil_minute (timestamptz end_)) (cr_node kv.2) kv.1.2 = true ->
  exists r, r ∈ st_minutes s /\ (if in_window node start end_ r then owner_in r else None) = Some (cr_owner_id kv.2).
Proof.
  intros Hagree Hkv Hd. unfold during in Hd. apply andb_true_iff in Hd as [[Hn Ht1]%andb_true_iff Ht2].
  apply String.eqb_eq in Hn. apply Z.leb_le in Ht1. apply Z.ltb_lt in Ht2.
  set (v := ByOwner (cr_owner_id kv.2) (cr_direction kv.2)).
  assert (0 < Rollup.connections (total node (minute kv.1.2) v (st_minutes s))) as Hc.
  { rewrite Hagree. apply (connections_counted _ _ _ _ (Rollup.MkMinute (cr_node kv.2) (minute kv.1.2)
      (Rollup.owner_minute (cr_owner_id kv.2) (cr_owner_kind kv.2) (cr_owner_name kv.2) (cr_direction kv.2)) (Rollup.MkCounts (conn_bytes kv.2) 0 1 0)));
      [apply details_nonneg| |done|done| |done].
    - unfold details. apply elem_of_app. right. apply elem_of_app. left. apply list_elem_of_bind. exists kv. split; [by left|done].
    - cbn [in_view Rollup.mi_dim v]. by rewrite !bool_decide_eq_true_2. }
  apply total_connections in Hc as (r & Hr & Hrn & Hrb & Hv). exists r. split; [done|].
  pose proof (proj2 (window_of_minutes (timestamptz start) (timestamptz end_) kv.1.2) (conj Ht1 Ht2)) as Hw.
  unfold in_window, within. rewrite Hrn, Hrb, String.eqb_refl, (proj2 (Z.leb_le _ _)), (proj2 (Z.ltb_lt _ _)) by lia. cbn [andb].
  unfold owner_in. destruct (Rollup.mi_dim r); cbn [in_view v] in Hv; try done. apply andb_true_iff in Hv as [Hv _]. apply bool_decide_eq_true in Hv. by rewrite Hv.
Qed.

(** C33. What the rules on traffic see, in terms of the events that were stored by whatever
    batches arrived: the rate of a node is the bytes of its interfaces from the first full
    minute of the last five minutes on, over 300 seconds; the baseline rule sees each owner
    with a connection in that time once, with the bytes of its connections and a twelfth
    of those of the hour before; the coverage is the share of the bytes of the flows that
    have a name. *)
Theorem observations_stored (l : list arrival) (rule : Rule) (node : string) (now : time) (db : Reconcile.alert_db) :
  let s := arrive_all scan sort geoIP empty_store l in
  let first := ceil_minute (timestamptz (now - 5 * Minute)) in let last := ceil_minute (timestamptz now) in
  let before := ceil_minute (timestamptz (now - 5 * Minute - Hour)) in
  (ru_Kind rule = KindAbsoluteRate ->
     observe s rule node now db = Ok [rate_observation node (per_second 300 (interface_bytes s node first last))]) /\
  (ru_Kind rule = KindOwnerBaseline -> exists observations, observe s rule node now db = Ok observations /\
     NoDup (ob_OwnerID <$> observations) /\
     (forall kv, kv ∈ map_to_list (st_connections s) -> during node first last (cr_node kv.2) kv.1.2 = true -> cr_owner_id kv.2 ∈ ob_OwnerID <$> observations) /\
     forall o, o ∈ observations -> o = owner_observation node (ob_OwnerID o) (f64_of_Z (owner_bytes s node (ob_OwnerID o) first last))
                                        (f64_div (f64_of_Z (owner_bytes s node (ob_OwnerID o) before first)) (f64_of_Z 12))) /\
  (ru_Kind rule = KindDomainCoverage ->
     let total := f64_of_Z (flow_bytes s node (fun _ => true) first last) in
     let named := f64_of_Z (flow_bytes s node identified first last) in
     observe s rule node now db =
       Ok [coverage_observation node (if SFeqb total f64_zero then f64_of_Z 100 else f64_div (f64_mul named (f64_of_Z 100)) total)]).
Proof.
  intros s first last before. pose proof (agreed l) as Hagree. cbv zeta in Hagree. fold s in Hagree. unfold Observations. cbn [negb guard_err result_bind]. split_and!; intros ->.
  - rewrite traffic_rows_all, (parts_stored ByDirection _ _ _ _ _ s Hagree) by apply traffic_keyed. by rewrite interface_details.
  - eexists. split; [reflexivity|]. split_and!.
    + rewrite scan_perm, baselines_owners. apply NoDup_remove_dups.
    + intros kv Hkv Hin. rewrite scan_perm, baselines_owners. apply elem_of_remove_dups, list_elem_of_omap.
      apply (owner_in_window s node _ _ kv); [|done|exact Hin]. intros. apply Hagree.
    + intros o Ho. rewrite scan_perm in Ho. unfold baselines in Ho. apply list_elem_of_fmap in Ho as (owner & -> & _). cbn [ob_OwnerID owner_observation].
      rewrite owner_rows_sum, (parts_stored (fun k => ByOwner k.1 k.2) _ _ _ _ _ s Hagree) by apply owner_keyed. rewrite owner_details.
      f_equal. pose proof (owner_rows_sum s node (now - 5 * Minute - Hour) (now - 5 * Minute) owner) as Hs.
      rewrite (parts_stored (fun k => ByOwner k.1 k.2) _ _ _ _ _ s Hagree), owner_details in Hs by apply owner_keyed. fold before first in Hs.
      destruct (owner_rows _ _ _ s owner) as [|r rows]; [by rewrite <- Hs|by rewrite <- Hs].
  - unfold coverage, flow_rows. rewrite !sum_bytes_part, !(parts_stored (fun k => FlowsByDomain k.1.1 k.1.2 k.2) _ _ _ _ _ s Hagree) by apply flow_keyed.
    by rewrite !flow_details.
Qed.
End observations.

Module DemoSource.
Existing Instance StoreDemo.tz.
Existing Instance StoreDemo.ip.
#[local] Instance collation : Collation := {| text_le := str_le |}.

Definition rule (kind : Kind) (threshold : Z) : Rule := MkRule "rule" kind "rule" true "warning" (f64_of_Z threshold) (f64_of_Z 3) 300.
Definition db : Reconcile.alert_db := Reconcile.MkAlertDb [StoreDemo.node] ∅ [] [] 1 1.
Definition observe (s : store) (kind : Kind) (now : time) := Observations StoreDemo.scan defaultDatabaseBudgetBytes 0 false s (rule kind 900) StoreDemo.node now db.

(** The batches of [StoreDemo], with their repetitions: 650 bytes. *)
Lemma observations_stored_witness : observe (StoreDemo.arrives empty_store StoreDemo.retries) KindAbsoluteRate (StoreDemo.at_ + 5 * Second) =
  Ok [rate_observation StoreDemo.node (per_second 300 650)].
Proof.
  destruct (observations_stored StoreDemo.scan NamingSample.sort None defaultDatabaseBudgetBytes 0 (fun _ _ => reflexivity _) StoreDemo.retries
    (rule KindAbsoluteRate 900) StoreDemo.node (StoreDemo.at_ + 5 * Second) db) as (H & _).
  unfold observe, StoreDemo.arrives. rewrite (H eq_refl). vm_compute. reflexivity.
Defined.

Definition noon : time := 28333334 * Minute.

(** A steady thousand bytes in each second. *)
Definition steady : store := set_minutes
  ((fun i => Rollup.MkMinute StoreDemo.node (noon - Z.of_nat i * Minute) (Rollup.traffic_minute DirectionInbound)
               (Rollup.MkCounts (if (i =? 0)%nat then 1000 else 60000) 0 0 0)) <$> seq 0 8) empty_store.

(** A second after a full minute, four minutes and a second of it are divided by five
    minutes: 803 bytes per second, so that a limit of 900 is not seen to be passed. *)
Example rate_too_low :
  observe steady KindAbsoluteRate (noon + Second) = Ok [rate_observation StoreDemo.node (per_second 300 241000)] /\
  values (rule KindAbsoluteRate 900) (rate_observation StoreDemo.node (per_second 300 241000)) = (per_second 300 241000, f64_of_Z 900, false) /\
  f64_ltb (f64_of_Z 900) (per_second 1 1000) = true.
Proof. vm_compute. done. Qed.

Definition flow (minutes_ago : Z) (destination domain direction : string) : Rollup.minute_row :=
  Rollup.MkMinute StoreDemo.node (noon - minutes_ago * Minute) (Rollup.flow_minute "host" "host" "10.0.0.1" destination domain "confirmed" "tcp" 443 direction)
    (Rollup.MkCounts 100 0 1 0).

(** A domain that has been visited all month counts as a new destination when its address
    changes, and so does every new client that connects to the host. *)
Example taken_for_new :
  observe (set_minutes [flow 1000 "192.0.2.1" "example.com" "outbound"; flow 1 "192.0.2.2" "example.com" "outbound"] empty_store) KindNewDestination noon =
    Ok [destination_observation StoreDemo.node "host" "example.com"] /\
  observe (set_minutes [flow 1 "203.0.113.9" "203.0.113.9" "inbound"] empty_store) KindNewDestination noon =
    Ok [destination_observation StoreDemo.node "host" "203.0.113.9"].
Proof. vm_compute. done. Qed.

Example kinds_named : Forall (fun k => kind_of (kind_string k) = k) kinds /\ kind_of "other" = KindOther "other".
Proof. vm_compute. split; [repeat constructor|done]. Qed.
End DemoSource.
