(* ===== verification/TrafficDetail.v ===== *)
(** * Owners, flows and details

    The rest of [internal/server/trafficquery]: the lists of owners and of flows, and the
    details of one domain and one owner.  The network columns of [flow_minute], which the
    rows of [Rollup] leave out, are a parameter. *)

From stdpp Require Import base strings numbers gmap list sorting.
From Stdlib Require Import Ascii SpecFloat.
From S2P Require Import Prelude GoBase GoText GoModel Attribution Sql Store StoreTheorems Overview TrafficQuery TrafficTheorems AlertSource.
From S2P Require Rollup StoreDemo.

Open Scope string_scope.
Open Scope Z_scope.
Local Open Scope flow_scope.
Local Open Scope list_scope.

#[local] Existing Instance Rollup.dimension_eq_dec.

(** ** Data *)

Record DomainStatus : Type := MkDomainStatus { ds_Status : Z; ds_Requests : Z; ds_Bytes : Z }.

Record DomainSource : Type := MkDomainSource { dr_IP : string; dr_Requests : Z; dr_Bytes : Z }.

Record DomainOwner : Type := MkDomainOwner { dw_ID : string; dw_Name : string; dw_Requests : Z; dw_Bytes : Z }.

Record DomainNetwork : Type := MkDomainNetwork {
  dn_CountryCode : string; dn_CountryName : string; dn_ASN : Z; dn_Organization : string; dn_Classification : string;
  dn_Connections : Z; dn_Bytes : Z }.

Record DomainDetail : Type := MkDomainDetail {
  dd_Item : DomainItem; dd_Statuses : list DomainStatus; dd_Sources : list DomainSource; dd_Owners : list DomainOwner;
  dd_Networks : list DomainNetwork }.

Record OwnerItem : Type := MkOwnerItem {
  oi_ID : string; oi_Kind : string; oi_Name : string; oi_Bytes : Z; oi_Inbound : Z; oi_Outbound : Z; oi_Connections : Z; oi_Ports : list Z }.

Record OwnerPoint : Type := MkOwnerPoint {
  op_At : time; op_InboundBytes : Z; op_OutboundBytes : Z; op_InboundBPS : float64; op_OutboundBPS : float64 }.

Record OwnerDetail : Type := MkOwnerDetail {
  od_Item : OwnerItem; od_Series : list OwnerPoint; od_ActiveConnections : list LiveItem; od_DataFreshAt : time; od_PartialData : list CollectorGap }.

Record FlowItem : Type := MkFlowItem {
  fw_Direction : string; fw_OwnerID : string; fw_OwnerName : string; fw_Source : string; fw_Destination : string; fw_Domain : string;
  fw_Confidence : string; fw_Protocol : string; fw_RemotePort : Z; fw_Network : NetworkInfo; fw_Bytes : Z; fw_Connections : Z; fw_Requests : Z }.

#[export] Instance network_eq_dec : EqDecision NetworkInfo.
Proof. solve_decision. Defined.

Abbreviation minute_row := Rollup.minute_row.

(** The sums of a group of rows. *)
Definition bytes_of (rows : list minute_row) : Z := sumZ (fun r => Rollup.bytes (Rollup.mi_counts r)) rows.
Definition connections_of (rows : list minute_row) : Z := sumZ (fun r => Rollup.connections (Rollup.mi_counts r)) rows.
Definition requests_of (rows : list minute_row) : Z := sumZ (fun r => Rollup.requests (Rollup.mi_counts r)) rows.

(** [GROUP BY]: the groups of the rows that have a key. *)
Definition grouped {R K} `{EqDecision K} (key : R -> option K) (rows : list R) : list (K * list R) :=
  (fun k => (k, filter (fun r => key r = Some k) rows)) <$> remove_dups (omap key rows).

(** [ORDER BY sum DESC]: what ties stays in the order of the scan. *)
Definition by_sum {A} (sum : A -> Z) (a b : A) : Prop := sum b <= sum a.

#[export] Instance by_sum_dec {A} (sum : A -> Z) a b : base.Decision (by_sum sum a b).
Proof. unfold by_sum. apply _. Defined.

(** [ORDER BY sum DESC LIMIT 10] *)
Definition top {A} (sum : A -> Z) (rows : list A) : list A := take 10 (sorting.merge_sort (by_sum sum) rows).

Section queries.
Context {tz : Timestamptz} {ip : Inet} {collation : Collation} {like : Ilike}.
Variable aw : answers.

(** The greatest of the texts of a group. *)
Definition text_max (texts : list string) : string :=
  match texts with [] => "" | x :: rest => foldl (fun m y => if decide (text_le m y) then y else m) x rest end.

(** [node_id=$1 AND bucket >= $2 AND bucket < $3] *)
Definition in_range (f : Filter) (row : minute_row) : bool :=
  String.eqb (Rollup.mi_node row) (fl_NodeID f) && within (fl_Start f) (fl_End f) (Rollup.mi_bucket row).

Definition request_in_range (f : Filter) (kv : string * time * request_row) : bool :=
  String.eqb (rr_node kv.2) (fl_NodeID f) && within (fl_Start f) (fl_End f) kv.1.2.

(** ** Owners *)

(** The rows that the join puts beside an owner. *)
Definition owner_minutes (f : Filter) (s : store) (owner : string) : list minute_row :=
  filter (fun row => match Rollup.mi_dim row with
    | Rollup.owner_minute id _ _ direction => in_range f row && String.eqb id owner && either (fl_Direction f) (String.eqb direction (fl_Direction f))
    | _ => false
    end = true) (st_minutes s).

Definition owner_direction (row : minute_row) : option string :=
  match Rollup.mi_dim row with Rollup.owner_minute _ _ _ direction => Some direction | _ => None end.

Definition directed (direction : string) (rows : list minute_row) : list minute_row := filter (fun row => owner_direction row = Some direction) rows.

(** A row of [owners] with its key. *)
Abbreviation owner_entry := (string * string * owner_row)%type.

Definition owner_matches (f : Filter) (s : store) (kv : owner_entry) : bool :=
  String.eqb kv.1.1 (fl_NodeID f) && (ow_running kv.2 || negb (bool_decide (owner_minutes f s kv.1.2 = []))) &&
  either (fl_OwnerID f) (String.eqb kv.1.2 (fl_OwnerID f) || ilike (ow_display_name kv.2) ("%" +:+ fl_OwnerID f +:+ "%")).

Definition owner_item (f : Filter) (s : store) (kv : owner_entry) : OwnerItem :=
  let rows := owner_minutes f s kv.1.2 in
  MkOwnerItem kv.1.2 (ow_kind kv.2) (ow_display_name kv.2) (bytes_of rows) (bytes_of (directed DirectionInbound rows))
    (bytes_of (directed DirectionOutbound rows)) (connections_of rows) (ow_ports kv.2).

Definition owner_order (sort : string) (item : OwnerItem) : Z := if String.eqb sort "bytes" then oi_Bytes item else oi_Connections item.

(** [ORDER BY ... DESC, display_name] *)
Definition owner_le (sort : string) (a b : OwnerItem) : Prop :=
  if bool_decide (owner_order sort a = owner_order sort b) then text_le (oi_Name a) (oi_Name b) else owner_order sort b <= owner_order sort a.

#[export] Instance owner_le_dec sort a b : base.Decision (owner_le sort a b).
Proof. unfold owner_le. destruct (bool_decide _); apply _. Defined.

Definition owner_fits (item : OwnerItem) : bool := forallb in_int8 [oi_Bytes item; oi_Inbound item; oi_Outbound item; oi_Connections item].

(** The query has no column [last_bucket]: ordering by time is an error of the database. *)
Definition Owners (f : Filter) (s : store) : result string (Response OwnerItem) :=
  let offset := decodeCursor (fl_Cursor f) in
  let* _ := guard_err (negb (aw_fails aw 0) && forallb sql_text [fl_NodeID f; fl_OwnerID f] && negb (String.eqb (fl_Sort f) "time")) "query owners" in
  let items := page (fl_Limit f) offset (sorting.merge_sort (owner_le (fl_Sort f))
    (owner_item f s <$> filter (fun kv => owner_matches f s kv = true) (aw_scan aw _ (map_to_list (st_owners s))))) in
  let* _ := guard_err (forallb owner_fits items) "scan owners" in
  Ok (decorate aw f offset items None s).

(** ** One owner *)

Definition owner_bucket (f : Filter) (row : minute_row) : option time :=
  match Rollup.mi_dim row with
  | Rollup.owner_minute id _ _ _ => if in_range f row && String.eqb id (fl_OwnerID f) then Some (Rollup.mi_bucket row) else None
  | _ => None
  end.

Definition owner_point (group : time * list minute_row) : OwnerPoint :=
  let inbound := bytes_of (directed DirectionInbound group.2) in let outbound := bytes_of (directed DirectionOutbound group.2) in
  MkOwnerPoint group.1 inbound outbound (per_second 60 inbound) (per_second 60 outbound).

(** [ORDER BY bucket] *)
Definition point_le (a b : OwnerPoint) : Prop := op_At a <= op_At b.

#[export] Instance point_le_dec a b : base.Decision (point_le a b).
Proof. unfold point_le. apply _. Defined.

Definition trend (f : Filter) (s : store) : list OwnerPoint :=
  sorting.merge_sort point_le (owner_point <$> grouped (owner_bucket f) (st_minutes s)).

Definition point_fits (p : OwnerPoint) : bool := in_int8 (op_InboundBytes p) && in_int8 (op_OutboundBytes p).

(** The connections of an owner that are open, the latest twenty. *)
Definition active_connections (f : Filter) (activeSince : time) (s : store) : list LiveItem :=
  live_item <$> take 20 (sorting.merge_sort (live_le "time")
    (filter (fun kv : conn => String.eqb (cr_node kv.2) (fl_NodeID f) && String.eqb (cr_owner_id kv.2) (fl_OwnerID f) &&
       within activeSince (fl_End f) kv.1.2 && negb (String.eqb (cr_state kv.2) "closed") = true) (aw_scan aw _ (map_to_list (st_connections s))))).

(** [Service.OwnerDetail]: its own queries are numbers 5 and 6. *)
Definition ShowOwner (f : Filter) (s : store) : result string OwnerDetail :=
  let* owners := Owners f s in
  match List.find (fun item => String.eqb (oi_ID item) (fl_OwnerID f)) (rs_Items owners) with
  | None => Err "owner was not found"
  | Some item =>
      let* _ := guard_err (negb (aw_fails aw 5)) "query owner trend" in
      let series := trend f s in
      let* _ := guard_err (forallb point_fits series) "scan owner trend" in
      let* _ := guard_err (negb (aw_fails aw 6)) "query owner active connections" in
      Ok (MkOwnerDetail item series (active_connections f (rs_DataFreshAt owners - 15 * Second) s) (rs_DataFreshAt owners) (rs_PartialData owners))
  end.

(** ** Flows *)

(** [country_code], [country_name], [asn], [organization] and [network_classification]. *)
Variable network : minute_row -> NetworkInfo.

Definition flow_key (f : Filter) (row : minute_row) : option (Rollup.dimension * NetworkInfo) :=
  match Rollup.mi_dim row with
  | Rollup.flow_minute owner_id _ source destination domain confidence protocol remote_port direction =>
      if in_range f row && either (fl_Direction f) (String.eqb direction (fl_Direction f)) && either (fl_OwnerID f) (String.eqb owner_id (fl_OwnerID f)) &&
         either (fl_Domain f) (ilike domain ("%" +:+ fl_Domain f +:+ "%")) && either (fl_Confidence f) (String.eqb confidence (fl_Confidence f)) &&
         either (addrString f) (String.eqb source (addrString f) || String.eqb destination (addrString f)) &&
         ((fl_Port f =? 0) || (remote_port =? fl_Port f)) && either (fl_Protocol f) (String.eqb protocol (fl_Protocol f))
      then Some (Rollup.mi_dim row, network row) else None
  | _ => None
  end.

(** A row of the answer with its [last_bucket]. *)
Definition flow_item (group : Rollup.dimension * NetworkInfo * list minute_row) : FlowItem * time :=
  let rows := group.2 in
  let last := foldr (fun r last => Z.max (Rollup.mi_bucket r) last) (match rows with [] => 0 | r :: _ => Rollup.mi_bucket r end) rows in
  match group.1.1 with
  | Rollup.flow_minute owner_id owner_name source destination domain confidence protocol remote_port direction =>
      (MkFlowItem direction owner_id owner_name source destination domain confidence protocol remote_port group.1.2
         (bytes_of rows) (connections_of rows) (requests_of rows), last)
  | _ => (MkFlowItem "" "" "" "" "" "" "" "" 0 group.1.2 (bytes_of rows) (connections_of rows) (requests_of rows), last)
  end.

Definition flow_order (sort : string) (item : FlowItem * time) : Z :=
  if String.eqb sort "bytes" then fw_Bytes item.1 else if String.eqb sort "connections" then fw_Connections item.1
  else if String.eqb sort "requests" then fw_Requests item.1 else item.2.

(** [ORDER BY ... DESC, domain] *)
Definition flow_le (sort : string) (a b : FlowItem * time) : Prop :=
  if bool_decide (flow_order sort a = flow_order sort b) then text_le (fw_Domain a.1) (fw_Domain b.1) else flow_order sort b <= flow_order sort a.

#[export] Instance flow_le_dec sort a b : base.Decision (flow_le sort a b).
Proof. unfold flow_le. destruct (bool_decide _); apply _. Defined.

Definition flow_fits (item : FlowItem) : bool := forallb in_int8 [fw_Bytes item; fw_Connections item; fw_Requests item].

Definition Flows (f : Filter) (s : store) : result string (Response FlowItem) :=
  let offset := decodeCursor (fl_Cursor f) in
  let* _ := guard_err (negb (aw_fails aw 0) && forallb sql_text [fl_NodeID f; fl_OwnerID f; fl_Domain f; addrString f]) "query flows" in
  let items := (page (fl_Limit f) offset (sorting.merge_sort (flow_le (fl_Sort f))
    (aw_scan aw _ (flow_item <$> grouped (flow_key f) (st_minutes s))))).*1 in
  let* _ := guard_err (forallb flow_fits items) "scan flows" in
  Ok (decorate aw f offset items None s).

(** ** One domain *)

(** The minutes of the domain, and those of its flows. *)
Definition domain_minutes (f : Filter) (s : store) : list minute_row :=
  filter (fun row => in_range f row = true /\ Rollup.mi_dim row = Rollup.domain_minute (fl_Domain f) (fl_Confidence f) (fl_Direction f)) (st_minutes s).

Definition domain_flow (f : Filter) (row : minute_row) : bool :=
  in_range f row &&
  match Rollup.mi_dim row with
  | Rollup.flow_minute _ _ _ _ domain confidence _ _ direction =>
      String.eqb direction (fl_Direction f) && String.eqb domain (fl_Domain f) && String.eqb confidence (fl_Confidence f)
  | _ => false
  end.

(** [inboundDomainDetail], queries 1 to 3. *)
Definition status_key (f : Filter) (row : minute_row) : option Z :=
  match Rollup.mi_dim row with
  | Rollup.proxy_status_minute host status => if in_range f row && String.eqb host (fl_Domain f) then Some status else None
  | _ => None
  end.

(** [ORDER BY status] *)
Definition status_le (a b : DomainStatus) : Prop := ds_Status a <= ds_Status b.

#[export] Instance status_le_dec a b : base.Decision (status_le a b).
Proof. unfold status_le. apply _. Defined.

Definition domain_statuses (f : Filter) (s : store) : list DomainStatus :=
  sorting.merge_sort status_le ((fun g => MkDomainStatus g.1 (requests_of g.2) (bytes_of g.2)) <$> grouped (status_key f) (st_minutes s)).

Abbreviation request := (string * time * request_row)%type.

Definition sent_of (rows : list request) : Z := sumZ (fun kv : request => rr_bytes_sent kv.2) rows.

Definition source_key (f : Filter) (kv : request) : option string :=
  if request_in_range f kv && String.eqb (rr_host kv.2) (fl_Domain f) then Some (rr_source_ip kv.2) else None.

Definition domain_sources (f : Filter) (s : store) : list DomainSource :=
  top dr_Bytes (aw_scan aw _ ((fun g => MkDomainSource g.1 (Z.of_nat (length g.2)) (sent_of g.2)) <$> grouped (source_key f) (map_to_list (st_requests s)))).

(** Owner and address of the upstream; the display name depends on the owner. *)
Definition upstream_key (f : Filter) (kv : request) : option (string * string) :=
  let r := kv.2 in
  if request_in_range f kv && String.eqb (rr_host r) (fl_Domain f) && (negb (String.eqb (rr_upstream_owner_id r) "") || negb (String.eqb (rr_upstream r) ""))
  then Some (rr_upstream_owner_id r, rr_upstream r) else None.

Definition upstream_owner (f : Filter) (s : store) (g : string * string * list request) : DomainOwner :=
  let '(owner, upstream) := g.1 in
  MkDomainOwner (default ("upstream:" +:+ upstream) (nullableString owner))
    (match st_owners s !! (fl_NodeID f, owner) with
     | Some row => ow_display_name row
     | None => default "未归属" (nullableString upstream)
     end) (Z.of_nat (length g.2)) (sent_of g.2).

Definition inbound_domain_owners (f : Filter) (s : store) : list DomainOwner :=
  top dw_Bytes (aw_scan aw _ (upstream_owner f s <$> grouped (upstream_key f) (map_to_list (st_requests s)))).

(** [outboundDomainOwners], query 4. *)
Definition flow_owner (f : Filter) (row : minute_row) : option string :=
  match Rollup.mi_dim row with
  | Rollup.flow_minute owner_id _ _ _ _ _ _ _ _ => if domain_flow f row then Some owner_id else None
  | _ => None
  end.

Definition flow_owner_name (row : minute_row) : option string :=
  match Rollup.mi_dim row with Rollup.flow_minute _ owner_name _ _ _ _ _ _ _ => Some owner_name | _ => None end.

Definition flow_owner_item (g : string * list minute_row) : DomainOwner :=
  MkDomainOwner g.1 (text_max (omap flow_owner_name g.2)) (connections_of g.2) (bytes_of g.2).

Definition outbound_domain_owners (f : Filter) (s : store) : list DomainOwner :=
  top dw_Bytes (aw_scan aw _ (flow_owner_item <$> grouped (flow_owner f) (st_minutes s))).

(** [outboundDomainNetworks], query 5: the country, the system and the classification. *)
Definition network_key (f : Filter) (row : minute_row) : option (string * Z * string) :=
  if domain_flow f row then Some (CountryCode (network row), ASN (network row), Classification (network row)) else None.

Definition network_item (g : string * Z * string * list minute_row) : DomainNetwork :=
  MkDomainNetwork g.1.1.1 (text_max ((fun r => CountryName (network r)) <$> g.2)) g.1.1.2 (text_max ((fun r => Organization (network r)) <$> g.2)) g.1.2
    (connections_of g.2) (bytes_of g.2).

Definition domain_networks (f : Filter) (s : store) : list DomainNetwork :=
  top dn_Bytes (aw_scan aw _ (network_item <$> grouped (network_key f) (st_minutes s))).

Definition inboundDomainDetail (f : Filter) (s : store) : result string (list DomainStatus * list DomainSource * list DomainOwner) :=
  let* _ := guard_err (negb (aw_fails aw 1)) "query domain statuses" in
  let statuses := domain_statuses f s in
  let* _ := guard_err (forallb (fun x => in_int8 (ds_Requests x) && in_int8 (ds_Bytes x)) statuses) "scan domain statuses" in
  let* _ := guard_err (negb (aw_fails aw 2)) "query domain sources" in
  let sources := domain_sources f s in
  let* _ := guard_err (forallb (fun x => in_int8 (dr_Bytes x)) sources) "scan domain sources" in
  let* _ := guard_err (negb (aw_fails aw 3)) "query domain owners" in
  let owners := inbound_domain_owners f s in
  let* _ := guard_err (forallb (fun x => in_int8 (dw_Bytes x)) owners) "scan domain owners" in
  Ok (statuses, sources, owners).

Definition outboundDomainOwners (f : Filter) (s : store) : result string (list DomainOwner) :=
  let* _ := guard_err (negb (aw_fails aw 4)) "query domain owners" in
  let owners := outbound_domain_owners f s in
  let* _ := guard_err (forallb (fun x => in_int8 (dw_Requests x) && in_int8 (dw_Bytes x)) owners) "scan domain owners" in
  Ok owners.

Definition outboundDomainNetworks (f : Filter) (s : store) : result string (list DomainNetwork) :=
  let* _ := guard_err (negb (aw_fails aw 5)) "query domain networks" in
  let networks := domain_networks f s in
  let* _ := guard_err (forallb (fun x => in_int8 (dn_Connections x) && in_int8 (dn_Bytes x)) networks) "scan domain networks" in
  Ok networks.

(** [Service.DomainDetail] *)
Definition ShowDomain (f : Filter) (s : store) : result string DomainDetail :=
  let rows := domain_minutes f s in
  let* _ := guard_err (negb (aw_fails aw 0) && forallb sql_text [fl_NodeID f; fl_Domain f] &&
                       in_int8 (bytes_of rows) && in_int8 (connections_of rows) && in_int8 (requests_of rows)) "query domain detail" in
  let detail := fun statuses sources owners networks =>
    MkDomainDetail (MkDomainItem (fl_Domain f) (fl_Direction f) (fl_Confidence f) (bytes_of rows) (connections_of rows) (requests_of rows)
      (Z.of_nat (length owners))) statuses sources owners networks in
  if String.eqb (fl_Direction f) DirectionInbound then
    let* (statuses, sources, owners) := inboundDomainDetail f s in Ok (detail statuses sources owners [])
  else
    let* owners := outboundDomainOwners f s in
    let* networks := outboundDomainNetworks f s in
    Ok (detail [] [] owners networks).
End queries.

(** ** The handlers *)

Section handlers.
Variable unicode_lower : string -> string.
Context {tz : Timestamptz} {ip : Inet} {collation : Collation} {like : Ilike}.
Variables (aw : answers) (network : minute_row -> NetworkInfo).

Definition answer_query {T} (message : string) (r : result string T) : query_answer T :=
  match r with Ok value => writeQueryJSON value | Err _ => writeQueryError 500 "query_failed" message end.

(** [Handler.Domains] when the request asks for one domain. *)
Definition DomainHandler (values : url_values) (now : time) (s : store) : query_answer DomainDetail :=
  let invalid := writeQueryError 400 "invalid_filter" "domain detail requires domain, direction, and confidence" in
  match ParseFilter unicode_lower values now true with
  | Err _ => invalid
  | Ok filter =>
      if String.eqb (fl_Domain filter) "" || String.eqb (fl_Direction filter) "" || String.eqb (fl_Confidence filter) "" then invalid
      else answer_query "unable to load domain detail" (ShowDomain aw network filter s)
  end.

(** [Handler.Domains] answers a detail or a list. *)
Definition DomainsPage (values : url_values) (now : time) (s : store) : query_answer DomainDetail + query_answer (Response DomainItem) :=
  if String.eqb (Get values "detail") "1" then inl (DomainHandler values now s) else inr (DomainsHandler unicode_lower aw values now s).

Definition OwnersHandler (values : url_values) (now : time) (s : store) : query_answer (Response OwnerItem) :=
  serveQuery unicode_lower values now false (fun f => Owners aw f s).

Definition with_owner (owner : string) (f : Filter) : Filter :=
  MkFilter (fl_NodeID f) (fl_Start f) (fl_End f) (fl_Direction f) owner (fl_Domain f) (fl_Confidence f) (fl_IP f) (fl_Port f) (fl_Protocol f)
    (fl_Cursor f) (fl_Limit f) (fl_Sort f).

(** [id]: what the segment of the path unescapes to. *)
Definition OwnerHandler (id : option string) (values : url_values) (now : time) (s : store) : query_answer OwnerDetail + query_answer (Response OwnerItem) :=
  match ParseFilter unicode_lower values now true with
  | Err e => inl (writeQueryError 400 "invalid_filter" e)
  | Ok filter =>
      let ownerID := default "" id in
      if String.eqb ownerID "" || (256 <? len ownerID) then inl (writeQueryError 400 "invalid_filter" "owner identifier is invalid")
      else
        let filter := with_owner ownerID filter in
        if String.eqb (Get values "detail") "1" then inl (answer_query "unable to load owner detail" (ShowOwner aw filter s))
        else inr (answer_query "unable to load owner" (Owners aw filter s))
  end.

Definition FlowsHandler (values : url_values) (now : time) (s : store) : query_answer (Response FlowItem) :=
  serveQuery unicode_lower values now true (fun f => Flows aw network f s).
End handlers.

(** ** Groups and what they sum up to *)

Section groups.
Context {R K : Type} `{EqDecision K} (key : R -> option K).

Lemma grouped_keys rows : (grouped key rows).*1 = remove_dups (omap key rows).
Proof. unfold grouped. rewrite <- list_fmap_compose. apply list_fmap_id. Qed.

Lemma group_sums (W : R -> Z) ks rows : NoDup ks -> (forall r k, r ∈ rows -> key r = Some k -> k ∈ ks) ->
  sumZ (fun k => sumZ W (filter (fun r => key r = Some k) rows)) ks = sumZ W (filter (fun r => is_Some (key r)) rows).
Proof.
  intros Hn. induction rows as [|r rows IH]; intros Hin; [by apply sumZ_zero|].
  assert (forall q k, q ∈ rows -> key q = Some k -> k ∈ ks) as Hrest by (intros q k Hq; apply Hin; by right).
  rewrite filter_cons. destruct (key r) as [k|] eqn:Ek.
  - rewrite decide_True by done. cbn [sumZ foldr]. fold (sumZ W (filter (fun r => is_Some (key r)) rows)). rewrite <- IH by done.
    assert (k ∈ ks) as Hk by (apply (Hin r); [by left|done]).
    assert (sumZ (fun x => sumZ W (filter (fun r' => key r' = Some x) (r :: rows))) ks - sumZ (fun x => sumZ W (filter (fun r' => key r' = Some x) rows)) ks = W r) as H; [|lia].
    rewrite (sumZ_change _ _ ks k); [|done|done|].
    + rewrite filter_cons, decide_True by done. cbn [sumZ foldr]. unfold sumZ. lia.
    + intros k' _ Hne. rewrite filter_cons, decide_False by congruence. done.
  - rewrite decide_False by (by intros [? ?]). rewrite <- IH by done. apply sumZ_ext. intros k _. rewrite filter_cons, decide_False by congruence. done.
Qed.

Lemma grouped_sum (W : R -> Z) rows : sumZ (fun g => sumZ W g.2) (grouped key rows) = sumZ W (filter (fun r => is_Some (key r)) rows).
Proof.
  unfold grouped. rewrite sumZ_fmap. apply group_sums; [apply NoDup_remove_dups|]. intros r k Hr Hk. apply elem_of_remove_dups, list_elem_of_omap. eauto.
Qed.
End groups.

Lemma top_length {A} (sum : A -> Z) rows : Z.of_nat (length (top sum rows)) = Z.min 10 (Z.of_nat (length rows)).
Proof. unfold top. rewrite length_take, (Permutation_length (sorting.merge_sort_Permutation (by_sum sum) rows)). lia. Qed.

Lemma top_all {A} (sum : A -> Z) rows : (length (top sum rows) < 10)%nat -> top sum rows ≡ₚ rows.
Proof.
  intros H. pose proof (top_length sum rows). unfold top. rewrite take_ge; [apply sorting.merge_sort_Permutation|].
  rewrite (Permutation_length (sorting.merge_sort_Permutation (by_sum sum) rows)). lia.
Qed.

Lemma top_sum {A} (sum W : A -> Z) rows : (length (top sum rows) < 10)%nat -> sumZ W (top sum rows) = sumZ W rows.
Proof. intros H. by apply sumZ_perm, top_all. Qed.

Lemma top_NoDup {A B} (sum : A -> Z) (f : A -> B) rows : NoDup (f <$> rows) -> NoDup (f <$> top sum rows).
Proof.
  intros H. unfold top. rewrite fmap_take. apply (sublist_NoDup _ (f <$> sorting.merge_sort (by_sum sum) rows)); [|apply sublist_take].
  by rewrite sorting.merge_sort_Permutation.
Qed.

(** ** Details in terms of what was stored *)

(** Owner and direction of a connection choose the bytes and the connections of a list. *)
Definition connection_sum (W : connection_row -> Z) (s : store) (node : string) (p : string * string -> bool) (a b : time) : Z :=
  sumZ (fun kv : conn => if during node a b (cr_node kv.2) kv.1.2 && p (cr_owner_id kv.2, cr_direction kv.2) then W kv.2 else 0) (map_to_list (st_connections s)).

Lemma connection_details s node p a b :
  sumZ (part owner_key p node a b) (details s) = connection_sum conn_bytes s node p (ceil_minute a) (ceil_minute b).
Proof.
  unfold details. rewrite !sumZ_app, !sumZ_bind.
  rewrite (sumZ_zero _ (map_to_list (st_interfaces s))) by (intros kv _; done).
  rewrite (sumZ_zero _ (map_to_list (st_requests s))) by (intros kv _; done).
  rewrite Z.add_0_l, Z.add_0_r. apply sumZ_ext. intros kv _. unfold connection_minutes. cbn [sumZ foldr fst snd].
  do 3 (erewrite part_minute by reflexivity). cbn [Rollup.bytes fst]. by rewrite !Z.add_0_r.
Qed.

(** Domain, confidence and direction of a row of [domain_minute]. *)
Definition domain_key_of (r : minute_row) : option (string * string * string) :=
  match Rollup.mi_dim r with Rollup.domain_minute domain confidence direction => Some (domain, confidence, direction) | _ => None end.

Lemma domain_keyed k r : in_view (ByDomain k.1.1 k.1.2 k.2) (Rollup.mi_dim r) = bool_decide (domain_key_of r = Some k).
Proof.
  unfold domain_key_of. destruct k as [[o c] d], (Rollup.mi_dim r); cbn [in_view fst snd]; try (by rewrite bool_decide_eq_false_2).
  repeat case_bool_decide; naive_solver.
Qed.

Lemma domain_details s node p a b : sumZ (part domain_key_of p node a b) (details s) = flow_bytes s node p (ceil_minute a) (ceil_minute b).
Proof.
  unfold details, flow_bytes. rewrite !sumZ_app, !sumZ_bind.
  rewrite (sumZ_zero _ (map_to_list (st_interfaces s))) by (intros kv _; done). rewrite Z.add_0_l.
  f_equal; apply sumZ_ext; intros kv _; unfold connection_minutes, request_minutes; cbn [sumZ foldr fst snd];
    do 3 (erewrite part_minute by reflexivity); cbn [Rollup.bytes]; by rewrite ?Z.add_0_r, ?Z.add_0_l.
Qed.

Section details.
Context {tz : Timestamptz} {ip : Inet} {collation : Collation} {like : Ilike} (scan : forall A : Type, list A -> list A).
Context (sort : (NameEvidence -> NameEvidence -> bool) -> list NameEvidence -> list NameEvidence).
Context (geoIP : option (ip_addr -> NetworkInfo)) (aw : answers) (network : minute_row -> NetworkInfo).
Hypothesis aw_perm : forall A (l : list A), aw_scan aw A l ≡ₚ l.

Abbreviation stored l := (arrive_all scan sort geoIP empty_store l).
Abbreviation first f := (ceil_minute (timestamptz (fl_Start f))).
Abbreviation last_ f := (ceil_minute (timestamptz (fl_End f))).

Definition chosen (f : Filter) (k : string * string * string) : bool := bool_decide (k = (fl_Domain f, fl_Confidence f, fl_Direction f)).

Lemma domain_minutes_stored l f : bytes_of (domain_minutes f (stored l)) = flow_bytes (stored l) (fl_NodeID f) (chosen f) (first f) (last_ f).
Proof.
  rewrite <- domain_details, <- (parts_stored (fun k => ByDomain k.1.1 k.1.2 k.2) domain_key_of) by first [apply agreed|apply domain_keyed].
  rewrite <- sum_bytes_part. unfold bytes_of, sum_bytes, domain_minutes. f_equal. apply list_filter_iff. intros r. unfold in_range, AlertSource.in_window, chosen, domain_key_of.
  destruct (Rollup.mi_dim r); cbn [fmap option_fmap option_map]; split; intros [Hw Hd]; split; try done; try congruence.
  - injection Hd as -> -> ->. by rewrite bool_decide_eq_true_2.
  - injection Hd as Hd. apply bool_decide_eq_true in Hd. congruence.
Qed.

Lemma key_chosen (a a' b b' c c' : string) : String.eqb c c' && String.eqb a a' && String.eqb b b' = bool_decide ((a, b, c) = (a', b', c')).
Proof. apply Bool.eq_iff_eq_true. rewrite !andb_true_iff, !String.eqb_eq, bool_decide_eq_true. naive_solver. Qed.

Lemma domain_flows_stored l f : bytes_of (filter (fun r => domain_flow f r = true) (st_minutes (stored l))) =
  flow_bytes (stored l) (fl_NodeID f) (chosen f) (first f) (last_ f).
Proof.
  rewrite <- flow_details, <- (parts_stored (fun k => FlowsByDomain k.1.1 k.1.2 k.2) flow_in) by first [apply agreed|apply flow_keyed].
  rewrite <- sum_bytes_part. unfold bytes_of, sum_bytes. f_equal. apply list_filter_iff. intros r. unfold domain_flow, in_range, AlertSource.in_window, chosen, flow_in.
  destruct (Rollup.mi_dim r) as [| | |owner name source destination domain confidence protocol port direction|];
    cbn [fmap option_fmap option_map]; rewrite ?andb_false_r; try (split; [done|by intros [_ H]]).
  rewrite key_chosen, bool_decide_decide. destruct (decide _); rewrite ?andb_true_r, ?andb_false_r; split; first [by intros ?|by intros [? ?]].
Qed.

(** The owners of a domain in its detail are those the list of domains counts. *)
Lemma flow_owners f s : omap (flow_owner f) (st_minutes s) = outbound_owners f (fl_Domain f, fl_Direction f, fl_Confidence f) s.
Proof.
  unfold outbound_owners. induction (st_minutes s) as [|r rows IH]; [done|]. cbn [omap list_omap]. rewrite IH. clear IH.
  unfold flow_owner, domain_flow, in_range. destruct (Rollup.mi_dim r) as [| | |owner name source destination domain confidence protocol port direction|]; try done.
  assert (String.eqb direction (fl_Direction f) && String.eqb domain (fl_Domain f) && String.eqb confidence (fl_Confidence f) =
    bool_decide ((domain, direction, confidence) = (fl_Domain f, fl_Direction f, fl_Confidence f))) as ->; [|done].
  apply Bool.eq_iff_eq_true. rewrite !andb_true_iff, !String.eqb_eq, bool_decide_eq_true. naive_solver.
Qed.

Lemma owner_groups_sum f s : sumZ dw_Bytes (flow_owner_item <$> grouped (flow_owner f) (st_minutes s)) = bytes_of (filter (fun r => domain_flow f r = true) (st_minutes s)).
Proof.
  rewrite sumZ_fmap. unfold flow_owner_item. cbn [dw_Bytes]. unfold bytes_of. rewrite grouped_sum. f_equal. apply list_filter_iff. intros r.
  unfold flow_owner, domain_flow. destruct (Rollup.mi_dim r); rewrite ?andb_false_r; try by (split; [intros [? ?]|]).
  destruct (_ && _); split; [done|by eexists|by intros [? ?]|done].
Qed.

Lemma network_groups_sum f s : sumZ dn_Bytes (network_item network <$> grouped (network_key network f) (st_minutes s)) =
  bytes_of (filter (fun r => domain_flow f r = true) (st_minutes s)).
Proof.
  rewrite sumZ_fmap. unfold network_item. cbn [dn_Bytes]. unfold bytes_of. rewrite grouped_sum. f_equal. apply list_filter_iff. intros r.
  unfold network_key. destruct (domain_flow f r); split; [done|by eexists|by intros [? ?]|done].
Qed.

(** C34. The detail of a domain agrees with the list of domains and with what was stored by
    whatever batches arrived: its bytes are those of the connections and requests of that
    domain, confidence and direction from the first full minute of the range on; for traffic
    that goes out it counts the owners that the list counts, up to ten, each once, and
    while there are fewer than ten owners, or networks, theirs add up to the bytes of the
    domain. *)
Theorem domain_detail_accounts (l : list arrival) (f : Filter) (d : DomainDetail) : ShowDomain aw network f (stored l) = Ok d ->
  di_Bytes (dd_Item d) = flow_bytes (stored l) (fl_NodeID f) (chosen f) (first f) (last_ f) /\
  (fl_Direction f <> DirectionInbound ->
     NoDup (dw_ID <$> dd_Owners d) /\
     di_OwnerCount (dd_Item d) = Z.min 10 (owner_count f (stored l) (fl_Domain f, fl_Direction f, fl_Confidence f)) /\
     ((length (dd_Owners d) < 10)%nat -> sumZ dw_Bytes (dd_Owners d) = di_Bytes (dd_Item d)) /\
     ((length (dd_Networks d) < 10)%nat -> sumZ dn_Bytes (dd_Networks d) = di_Bytes (dd_Item d))).
Proof.
  unfold ShowDomain. intros H. apply result_bind_ok in H as (_ & _ & H). destruct (String.eqb_spec (fl_Direction f) DirectionInbound) as [Ei|Eo].
  { apply result_bind_ok in H as ([[statuses sources] owners] & _ & [= <-]). split; [apply domain_minutes_stored|done]. }
  apply result_bind_ok in H as (owners & Ho & H). apply result_bind_ok in H as (networks & Hn & [= <-]). cbn [dd_Item dd_Owners dd_Networks di_Bytes di_OwnerCount].
  unfold outboundDomainOwners in Ho. do 2 apply result_bind_ok in Ho as (_ & _ & Ho). injection Ho as <-.
  unfold outboundDomainNetworks in Hn. do 2 apply result_bind_ok in Hn as (_ & _ & Hn). injection Hn as <-.
  split; [apply domain_minutes_stored|]. intros _. unfold outbound_domain_owners, domain_networks. split_and!.
  - apply top_NoDup. rewrite aw_perm, <- list_fmap_compose. change (dw_ID ∘ flow_owner_item) with (fst : string * list minute_row -> string).
    rewrite grouped_keys. apply NoDup_remove_dups.
  - rewrite top_length, aw_perm, length_fmap, <- (length_fmap fst), grouped_keys, flow_owners. unfold owner_count. cbn [fst snd].
    by rewrite (proj2 (String.eqb_neq _ _) Eo).
  - intros Hlt. by rewrite top_sum, (sumZ_perm _ _ _ (aw_perm _ _)), owner_groups_sum, domain_flows_stored, domain_minutes_stored.
  - intros Hlt. by rewrite top_sum, (sumZ_perm _ _ _ (aw_perm _ _)), network_groups_sum, domain_flows_stored, domain_minutes_stored.
Qed.

End details.

(** ** The list of owners *)

Section owners.
Context {tz : Timestamptz} {ip : Inet} {collation : Collation} {like : Ilike} (scan : forall A : Type, list A -> list A).
Context (sort : (NameEvidence -> NameEvidence -> bool) -> list NameEvidence -> list NameEvidence).
Context (geoIP : option (ip_addr -> NetworkInfo)) (aw : answers).
Hypothesis aw_perm : forall A (l : list A), aw_scan aw A l ≡ₚ l.

Abbreviation stored l := (arrive_all scan sort geoIP empty_store l).
Abbreviation first f := (ceil_minute (timestamptz (fl_Start f))).
Abbreviation last_ f := (ceil_minute (timestamptz (fl_End f))).

Definition owner_chosen (f : Filter) (owner : string) (p : string -> bool) (k : string * string) : bool :=
  bool_decide (k.1 = owner) && either (fl_Direction f) (String.eqb k.2 (fl_Direction f)) && p k.2.

Lemma owner_rows_stored l f owner p : bytes_of (filter (fun r => default false (p <$> owner_direction r) = true) (owner_minutes f (stored l) owner)) =
  connection_sum conn_bytes (stored l) (fl_NodeID f) (owner_chosen f owner p) (first f) (last_ f).
Proof.
  rewrite <- connection_details, <- (parts_stored (fun k => ByOwner k.1 k.2) owner_key) by first [apply agreed|apply owner_keyed].
  rewrite <- sum_bytes_part. unfold bytes_of, sum_bytes, owner_minutes. rewrite list_filter_filter. f_equal. apply list_filter_iff. intros r.
  unfold in_range, AlertSource.in_window, owner_chosen, owner_direction, owner_key.
  destruct (Rollup.mi_dim r) as [|owner' kind name direction| | |]; cbn [fmap option_fmap option_map from_option fst snd]; unfold id; try by (split; intros [? ?]).
  split.
  - intros [Hp Hw]. apply andb_true_iff in Hw as [[Hw Ho]%andb_true_iff He]. apply String.eqb_eq in Ho. split; [done|].
    by rewrite bool_decide_eq_true_2, He, Hp.
  - intros [Hw Hk]. injection Hk as Hk. apply andb_true_iff in Hk as [[Ho He]%andb_true_iff Hp]. apply bool_decide_eq_true in Ho as ->.
    split; [done|]. by rewrite Hw, String.eqb_refl, He.
Qed.

Lemma directed_filter direction rows : directed direction rows = filter (fun r => default false ((fun d => String.eqb d direction) <$> owner_direction r) = true) rows.
Proof.
  unfold directed. apply list_filter_iff. intros r. destruct (owner_direction r) as [d|]; cbn [fmap option_fmap option_map from_option]; [|done].
  unfold id. rewrite String.eqb_eq. split; congruence.
Qed.

Lemma minutes_directed f s owner : owner_minutes f s owner = filter (fun r => default false ((fun _ => true) <$> owner_direction r) = true) (owner_minutes f s owner).
Proof.
  unfold owner_minutes. rewrite list_filter_filter. apply list_filter_iff. intros r. unfold owner_direction. destruct (Rollup.mi_dim r); cbn; naive_solver.
Qed.

Lemma page_incl {A} limit offset (rows : list A) x : x ∈ page limit offset rows -> x ∈ rows.
Proof. intros H. unfold page in H. apply elem_of_take in H as (i & Hi & _). apply list_elem_of_lookup_2 in Hi. eapply elem_of_submseteq; [done|]. apply sublist_submseteq, sublist_drop. Qed.

(** The list of owners: each owner once, as its row in the table says, with the bytes of the
    connections stored of it from the first full minute of the range on, in the direction
    asked for and in each direction; only owners that run or have such connections are
    listed. *)
Theorem owners_stored (l : list arrival) (f : Filter) (r : Response OwnerItem) : Owners aw f (stored l) = Ok r ->
  NoDup (oi_ID <$> rs_Items r) /\ Z.of_nat (length (rs_Items r)) <= Z.max 0 (fl_Limit f) /\
  forall item, item ∈ rs_Items r -> let sum := fun p => connection_sum conn_bytes (stored l) (fl_NodeID f) (owner_chosen f (oi_ID item) p) (first f) (last_ f) in
    exists row, st_owners (stored l) !! (fl_NodeID f, oi_ID item) = Some row /\ oi_Name item = ow_display_name row /\ oi_Kind item = ow_kind row /\
      (ow_running row = true \/ owner_minutes f (stored l) (oi_ID item) <> []) /\
      oi_Bytes item = sum (fun _ => true) /\ oi_Inbound item = sum (fun d => String.eqb d DirectionInbound) /\
      oi_Outbound item = sum (fun d => String.eqb d DirectionOutbound).
Proof.
  unfold Owners. intros H. do 2 apply result_bind_ok in H as (_ & _ & H). injection H as <-. cbn [decorate rs_Items].
  set (rows := filter _ (aw_scan aw _ _)). set (items := sorting.merge_sort _ _).
  assert (items ≡ₚ owner_item f (stored l) <$> rows) as Hp by apply sorting.merge_sort_Permutation. split_and!.
  - apply (sublist_NoDup _ (oi_ID <$> items)).
    + rewrite Hp, <- list_fmap_compose. change (oi_ID ∘ owner_item f (stored l)) with (fun kv : string * string * owner_row => kv.1.2). unfold rows. rewrite aw_perm.
      apply NoDup_fmap_2_strong; [|apply NoDup_filter, NoDup_map_to_list].
      intros [[n id] q] [[n' id'] q'] [Hm Hin]%list_elem_of_filter [Hm' Hin']%list_elem_of_filter Eid. cbn [fst snd] in *. subst id'.
      unfold owner_matches in Hm, Hm'. apply andb_true_iff in Hm as [[Hm _]%andb_true_iff _], Hm' as [[Hm' _]%andb_true_iff _].
      apply String.eqb_eq in Hm, Hm'. cbn [fst snd] in *. subst. apply elem_of_map_to_list in Hin, Hin'. congruence.
    + apply fmap_sublist. unfold page. etransitivity; [apply sublist_take|apply sublist_drop].
  - unfold page. rewrite length_take. lia.
  - intros item Hitem%page_incl. rewrite Hp in Hitem. apply list_elem_of_fmap in Hitem as ([[node id] row] & -> & Hin).
    unfold rows in Hin. rewrite aw_perm in Hin. apply list_elem_of_filter in Hin as [Hm Hin]. apply elem_of_map_to_list in Hin.
    unfold owner_matches in Hm. apply andb_true_iff in Hm as [[Hn Hrun]%andb_true_iff _]. apply String.eqb_eq in Hn. cbn [fst snd owner_item oi_ID] in *. subst node.
    exists row. split; [done|]. split; [done|]. split; [done|]. split.
    { apply orb_true_iff in Hrun as [Hrun|Hrun]; [by left|right]. by apply negb_true_iff, bool_decide_eq_false in Hrun. }
    unfold owner_item. cbn [oi_ID oi_Bytes oi_Inbound oi_Outbound fst snd]. rewrite !directed_filter, !owner_rows_stored.
    split; [|done]. rewrite minutes_directed. apply owner_rows_stored.
Qed.
End owners.

Module DemoDetail.
#[local] Existing Instance StoreDemo.tz.
#[local] Existing Instance StoreDemo.ip.
#[local] Instance collation : Collation := {| text_le := str_le |}.

(** Patterns with [%], letters as they are. *)
Fixpoint like_chars (pattern : list ascii) : list ascii -> bool :=
  match pattern with
  | [] => fun text => match text with [] => true | _ => false end
  | c :: pattern =>
      if bool_decide (c = "%"%char)
      then fix any text := like_chars pattern text || match text with [] => false | _ :: text => any text end
      else fun text => match text with d :: text => bool_decide (c = d) && like_chars pattern text | [] => false end
  end.
#[local] Instance like : Ilike := fun text pattern => like_chars (chars pattern) (chars text).

Definition lower (s : string) : string := s.
Definition aw : answers := MkAnswers (fun _ l => l) (fun _ => false) 10.
Definition unknown (_ : minute_row) : NetworkInfo := MkNetworkInfo "" "" 0 "" "unknown".
Definition noon : time := 28333334 * Minute.
Definition filter_for (direction owner domain confidence : string) : Filter :=
  MkFilter StoreDemo.node (noon - Hour) (noon + Hour) direction owner domain confidence None 0 "" "" 50 "bytes".

Abbreviation stored := (arrive_all StoreDemo.scan NamingSample.sort None empty_store StoreDemo.retries).
Definition outbound : Filter := filter_for DirectionOutbound "" "site.example" "inferred".

Lemma domain_detail_accounts_witness : exists d, ShowDomain aw unknown outbound stored = Ok d /\
  di_Bytes (dd_Item d) = 300 /\ di_OwnerCount (dd_Item d) = 1 /\ sumZ dw_Bytes (dd_Owners d) = 300 /\ sumZ dn_Bytes (dd_Networks d) = 300.
Proof.
  eassert (ShowDomain aw unknown outbound stored = Ok _) as E by (vm_compute; reflexivity).
  destruct (domain_detail_accounts StoreDemo.scan NamingSample.sort None aw unknown (fun _ _ => reflexivity _) StoreDemo.retries outbound _ E) as (Hb & Hout).
  destruct Hout as (_ & Hc & Ho & Hn); [discriminate|]. eexists. split; [exact E|]. split; [rewrite Hb; vm_compute; reflexivity|].
  split; [rewrite Hc; vm_compute; reflexivity|]. rewrite Ho, Hn by (cbn [length dd_Owners dd_Networks]; lia). rewrite Hb. split; vm_compute; reflexivity.
Defined.

Lemma owners_stored_witness : exists r item, Owners aw (filter_for "" "" "" "") stored = Ok r /\
  item ∈ rs_Items r /\ oi_ID item = "container:c1" /\ oi_Bytes item = 300 /\ oi_Inbound item = 0.
Proof.
  eassert (Owners aw (filter_for "" "" "" "") stored = Ok _) as E by (vm_compute; reflexivity).
  destruct (owners_stored StoreDemo.scan NamingSample.sort None aw (fun _ _ => reflexivity _) StoreDemo.retries _ _ E) as (_ & _ & Hall).
  destruct (Hall _ ltac:(by left)) as (row & _ & _ & _ & _ & Hb & Hi & _). eexists _, _. split; [exact E|]. split; [by left|].
  split; [reflexivity|]. rewrite Hb, Hi. split; vm_compute; reflexivity.
Defined.

(** ** Answers that mislead *)

Definition values : url_values := list_to_map
  [("node", [StoreDemo.node]); ("start", ["2023-11-14T22:00:00Z"]); ("end", ["2023-11-14T23:30:00Z"])].

(** The pages offer to sort by time, which the list of owners never answers. *)
Example owners_by_time : qa_status (OwnersHandler lower aw values noon empty_store) = 200 /\
  qa_status (OwnersHandler lower aw (<["sort" := ["time"]]> values) noon empty_store) = 500.
Proof. vm_compute. done. Qed.

Definition owner_entry_of (id name : string) : string * string * owner_row :=
  (StoreDemo.node, id, MkOwner "container" name None None None [] [] true noon noon).

Definition owner_minute_of (id : string) (bytes : Z) : minute_row :=
  Rollup.MkMinute StoreDemo.node noon (Rollup.owner_minute id "container" id "outbound") (Rollup.MkCounts bytes 0 1 0).

(** The detail of an owner looks for it on a page of the owners whose names contain its
    identifier: one that is crowded out of the page is not found. *)
Example owner_not_found :
  let s := set_minutes [owner_minute_of "host" 10; owner_minute_of "container:1" 20]
             (set_owners (list_to_map [owner_entry_of "host" "Host"; owner_entry_of "container:1" "ghost"]) empty_store) in
  let ask limit := OwnerHandler lower aw (Some "host") (<["detail" := ["1"]]> (<["limit" := [limit]]> values)) noon s in
  (qa_status <$> match ask "2" with inl a => Some a | inr _ => None end, qa_status <$> match ask "1" with inl a => Some a | inr _ => None end) = (Some 200, Some 500).
Proof. vm_compute. done. Qed.

Definition flow_minute_of (owner : string) : minute_row :=
  Rollup.MkMinute StoreDemo.node noon (Rollup.flow_minute owner owner "10.0.0.1" "192.0.2.1" "example.com" "confirmed" "tcp" 443 "outbound")
    (Rollup.MkCounts 10 0 1 0).

(** The list counts eleven owners of a domain, its detail ten. *)
Example owners_capped :
  let s := set_minutes (Rollup.MkMinute StoreDemo.node noon (Rollup.domain_minute "example.com" "confirmed" "outbound") (Rollup.MkCounts 110 0 11 0) ::
             (flow_minute_of <$> ["a"; "b"; "c"; "d"; "e"; "f"; "g"; "h"; "i"; "j"; "k"])) empty_store in
  let f := filter_for DirectionOutbound "" "example.com" "confirmed" in
  (fun r : Response DomainItem => di_OwnerCount <$> rs_Items r) <$> match Domains aw f s with Ok r => Some r | Err _ => None end = Some [11] /\
  (fun d => di_OwnerCount (dd_Item d)) <$> match ShowDomain aw unknown f s with Ok d => Some d | Err _ => None end = Some 10.
Proof. vm_compute. done. Qed.

Definition request_to (upstream : string) : request_row := MkRequest StoreDemo.node "example.com" "203.0.113.9" "GET" 200 10 upstream "container:1" 1.

(** A container behind two addresses is one owner in the list and two in the detail. *)
Example owner_twice :
  let s := set_minutes [Rollup.MkMinute StoreDemo.node noon (Rollup.domain_minute "example.com" "confirmed" "inbound") (Rollup.MkCounts 20 0 0 2)]
             (set_requests (list_to_map [(("1", noon), request_to "172.18.0.2:80"); (("2", noon), request_to "172.18.0.3:80")]) empty_store) in
  let f := filter_for DirectionInbound "" "example.com" "confirmed" in
  (fun r : Response DomainItem => di_OwnerCount <$> rs_Items r) <$> match Domains aw f s with Ok r => Some r | Err _ => None end = Some [1] /\
  (fun d => (di_OwnerCount (dd_Item d), dw_ID <$> dd_Owners d)) <$> match ShowDomain aw unknown f s with Ok d => Some d | Err _ => None end =
    Some (2, ["container:1"; "container:1"]).
Proof. vm_compute. done. Qed.
End DemoDetail.
