(* ===== verification/Operations.v ===== *)
(** * Operations

    [internal/server/operations] and [internal/server/health]: the state of nodes and
    jobs, the list of alerts with their links into the traffic pages, and the settings an
    administrator changes.  The JSON of bodies and of stored evidence is a parameter, and so
    is the column of [webhook_deliveries] with the time a delivery was queued, which
    [Webhook] leaves out of its rows. *)

From stdpp Require Import base strings numbers gmap list.
From Stdlib Require Import Ascii SpecFloat Sorted.
From S2P Require Import Prelude GoBase GoText GoModel InterfaceCounter Alerts Sql Store Overview TrafficQuery TrafficTheorems AlertSource.
From S2P Require Rollup Webhook WebhookSettings Scheduler Reconcile.

Open Scope string_scope.
Open Scope Z_scope.
Local Open Scope flow_scope.
Local Open Scope list_scope.

(** ** [health/service.go] *)

Definition StatusHealthy : string := "healthy".
Definition StatusDelayed : string := "delayed".
Definition StatusOffline : string := "offline".
Definition StatusPartial : string := "partial".
Definition StatusWarning : string := "warning".

Record HealthSnapshot : Type := MkHealthSnapshot {
  hs_LastSeenAt : time; hs_FailedCollectors : list string; hs_DatabaseUsagePercent : float64; hs_BufferUsagePercent : float64;
  hs_WebhookTerminalFailures : Z }.

(** [state.Status]; the other fields of [State] are those of the snapshot. *)
Definition Classify (now : time) (s : HealthSnapshot) : string :=
  let age := time_sub now (hs_LastSeenAt s) in
  if (hs_LastSeenAt s =? zero_time) || (60 * Second <? age) then StatusOffline
  else if 15 * Second <=? age then StatusDelayed
  else if (0 <? length (hs_FailedCollectors s))%nat then StatusPartial
  else if f64_ltb (f64_of_Z 80) (hs_DatabaseUsagePercent s) || f64_ltb (f64_of_Z 80) (hs_BufferUsagePercent s) then StatusWarning
  else StatusHealthy.

(** ** Data *)

Record Node : Type := MkNode {
  nd_ID : string; nd_Name : string; nd_Status : string; nd_LastSeenAt : time; nd_FailedCollectors : list string }.

Record Delivery : Type := MkDelivery {
  de_ID : Z; de_Status : Webhook.delivery_status; de_Attempt : Z; de_ResponseStatus : option Z; de_LastError : string; de_CreatedAt : time;
  de_DeliveredAt : option time }.

Record Alert : Type := MkAlert {
  at_row : Reconcile.alert_row; at_Evidence : gmap string string; at_TrafficFilter : gmap string string; at_Deliveries : list Delivery }.

Record AlertRule : Type := MkAlertRule {
  ar_ID : string; ar_Name : string; ar_Enabled : bool; ar_Severity : string; ar_Threshold : float64; ar_Multiplier : float64 }.

Record OperationSettings : Type := MkOperationSettings { os_DetailRetentionDays : Z; os_AggregateRetentionMonths : Z; os_AlertRules : list AlertRule }.

Record HealthResponse : Type := MkHealthResponse {
  hr_Status : string; hr_Nodes : list Node; hr_DatabaseUsagePercent : float64; hr_WebhookTerminalFailures : Z; hr_Jobs : gmap string string }.

(** The tables.  [od_names] holds the names of renamed nodes: a node is inserted with its
    identifier as its name. *)
Record operations_db : Type := MkOperationsDb {
  od_store : store; od_names : gmap string string; od_alerts : Reconcile.alert_db; od_retention : Rollup.Settings; od_leases : gmap string Scheduler.lease_row }.

Definition ErrNotFound : string := "operation record not found".

(** What a stored evidence decodes to. *)
Class EvidenceJson : Type := read_evidence : string -> option (gmap string string).

(** The queries of the service, each of which may fail. *)
Inductive ops_query : Type := NodesQuery | FailedQuery (nodeID : string) | SizeQuery | TerminalQuery | JobsQuery | AlertsQuery | AlertQuery | DeliveriesQuery | SettingsQuery | RulesQuery.

Section service.
Context {tz : Timestamptz} {collation : Collation} {evidence_json : EvidenceJson}.
Variables (scan : forall A : Type, list A -> list A) (fails : ops_query -> bool) (databaseBudgetBytes database_size : Z).

(** ** Nodes *)

Definition failedCollectors (nodeID : string) (db : operations_db) : result string (list string) :=
  let* _ := guard_err (negb (fails (FailedQuery nodeID))) "query collectors" in
  Ok (sorting.merge_sort text_le
        ((fun row => he_Collector (hr_health row)) <$>
         filter (fun row => he_Status (hr_health row) <> "healthy") (latest_health scan nodeID (od_store db)))).

(** Name, identifier and [last_seen_at] of a row. *)
Abbreviation node_row := (string * string * time)%type.

Definition node_rows (db : operations_db) : list node_row :=
  (fun kv : string * option time => (default kv.1 (od_names db !! kv.1), kv.1, default 0 kv.2)) <$> scan _ (map_to_list (st_nodes (od_store db))).

(** [ORDER BY name,id] *)
Definition node_le (a b : node_row) : Prop := if bool_decide (a.1.1 = b.1.1) then text_le a.1.2 b.1.2 else text_le a.1.1 b.1.1.

#[export] Instance node_le_dec a b : base.Decision (node_le a b).
Proof. unfold node_le. destruct (bool_decide _); apply _. Defined.

Fixpoint list_nodes (now : time) (db : operations_db) (rows : list node_row) : result string (list Node) :=
  match rows with
  | [] => Ok []
  | (name, id, seen) :: rows =>
      let* failed := failedCollectors id db in
      let* nodes := list_nodes now db rows in
      Ok (MkNode id name (Classify now (MkHealthSnapshot seen failed f64_zero f64_zero 0)) seen failed :: nodes)
  end.

Definition ListNodes (now : time) (db : operations_db) : result string (list Node) :=
  let* _ := guard_err (negb (fails NodesQuery)) "query nodes" in
  list_nodes now db (sorting.merge_sort node_le (node_rows db)).

(** ** Health *)

Definition priority (status : string) : Z :=
  if String.eqb status StatusWarning then 1 else if String.eqb status StatusDelayed then 2 else if String.eqb status StatusPartial then 3
  else if String.eqb status StatusOffline then 4 else 0.

Definition worse (status other : string) : string := if priority status <? priority other then other else status.

Definition job_state (l : Scheduler.lease_row) : string :=
  if negb (String.eqb (Scheduler.jl_last_error l) "") then "failed" else match Scheduler.jl_last_success l with None => "pending" | Some _ => "healthy" end.

Definition Health (now : time) (db : operations_db) : result string HealthResponse :=
  let* nodes := ListNodes now db in
  let status := foldl worse StatusHealthy (nd_Status <$> nodes) in
  let* _ := guard_err (negb (fails SizeQuery)) "query size" in
  let usage := f64_mul (f64_div (f64_of_Z database_size) (f64_of_Z databaseBudgetBytes)) (f64_of_Z 100) in
  let status := if f64_ltb (f64_of_Z 80) usage && (priority status <? priority StatusWarning) then StatusWarning else status in
  let* _ := guard_err (negb (fails TerminalQuery)) "query deliveries" in
  let* _ := guard_err (negb (fails JobsQuery)) "query jobs" in
  Ok (MkHealthResponse status nodes usage (count failed_delivery (Reconcile.ad_deliveries (od_alerts db))) (job_state <$> od_leases db)).

(** ** Alerts *)

Definition TrafficFilter (evidence : gmap string string) : gmap string string :=
  let value := fun key => default "" (evidence !! key) in
  let filter := if String.eqb (value "node_id") "" then ∅ else <["node" := value "node_id"]> ∅ in
  let filter := if String.eqb (value "owner_id") "" then filter else <["owner" := value "owner_id"]> filter in
  if String.eqb (value "destination") "" then filter
  else match WebhookSettings.ParseIP (value "destination") with
       | Some _ => <["ip" := value "destination"]> filter
       | None => <["domain" := value "destination"]> filter
       end.

Definition scanAlert (row : Reconcile.alert_row) : result string Alert :=
  match read_evidence (Reconcile.al_evidence row) with
  | Some evidence => Ok (MkAlert row evidence (TrafficFilter evidence) [])
  | None => Err "decode evidence"
  end.

(** [ORDER BY last_seen_at DESC,id DESC] *)
Definition alert_le (a b : Reconcile.alert_row) : Prop :=
  if bool_decide (Reconcile.al_last a = Reconcile.al_last b) then Reconcile.al_id b <= Reconcile.al_id a else Reconcile.al_last b <= Reconcile.al_last a.

#[export] Instance alert_le_dec a b : base.Decision (alert_le a b).
Proof. unfold alert_le. destruct (bool_decide _); apply _. Defined.

Fixpoint scan_alerts (rows : list Reconcile.alert_row) : result string (list Alert) :=
  match rows with
  | [] => Ok []
  | row :: rows => let* alert := scanAlert row in let* alerts := scan_alerts rows in Ok (alert :: alerts)
  end.

Definition ListAlerts (status : string) (limit offset : Z) (db : operations_db) : result string (list Alert) :=
  let* _ := guard_err (negb (fails AlertsQuery)) "query alerts" in
  scan_alerts (page limit offset (sorting.merge_sort alert_le
    (filter (fun r => status = "all" \/ Reconcile.al_status r = status) (scan _ (Reconcile.ad_alerts (od_alerts db)))))).

(** [created_at] of each delivery. *)
Variable created_at : Z -> time.

Definition delivery_of (d : Webhook.delivery_row) : Delivery :=
  MkDelivery (Webhook.wd_id d) (Webhook.wd_status d) (Webhook.wd_attempt d) (Webhook.wd_response_status d) (Webhook.wd_last_error d)
    (created_at (Webhook.wd_id d)) (Webhook.wd_delivered_at d).

(** [ORDER BY id DESC] *)
Definition delivery_le (a b : Webhook.delivery_row) : Prop := Webhook.wd_id b <= Webhook.wd_id a.

#[export] Instance delivery_le_dec a b : base.Decision (delivery_le a b).
Proof. unfold delivery_le. apply _. Defined.

Definition alert_deliveries (id : Z) (db : operations_db) : list Delivery :=
  delivery_of <$> sorting.merge_sort delivery_le (filter (fun d => Webhook.wd_alert_id d = Some id) (scan _ (Reconcile.ad_deliveries (od_alerts db)))).

Definition GetAlert (id : Z) (db : operations_db) : result string Alert :=
  let* _ := guard_err (negb (fails AlertQuery)) "query alert" in
  match List.find (fun r => Reconcile.al_id r =? id) (Reconcile.ad_alerts (od_alerts db)) with
  | None => Err ErrNotFound
  | Some row =>
      let* alert := scanAlert row in
      let* _ := guard_err (negb (fails DeliveriesQuery)) "query deliveries" in
      Ok (MkAlert (at_row alert) (at_Evidence alert) (at_TrafficFilter alert) (alert_deliveries id db))
  end.

(** ** Settings *)

Definition alert_rule (r : Rule) : AlertRule := MkAlertRule (ru_ID r) (ru_Name r) (ru_Enabled r) (ru_Severity r) (ru_Threshold r) (ru_Multiplier r).

Definition GetOperationSettings (db : operations_db) : result string OperationSettings :=
  let* _ := guard_err (negb (fails SettingsQuery)) "query settings" in
  let* rules := Rules (fails RulesQuery) (od_alerts db) in
  Ok (MkOperationSettings (Rollup.DetailDays (od_retention db)) (Rollup.AggregateMonths (od_retention db)) (alert_rule <$> rules)).
End service.

Definition set_retention (r : Rollup.Settings) (db : operations_db) : operations_db := MkOperationsDb (od_store db) (od_names db) (od_alerts db) r (od_leases db).
Definition set_names (m : gmap string string) (db : operations_db) : operations_db := MkOperationsDb (od_store db) m (od_alerts db) (od_retention db) (od_leases db).
Definition set_alert_db (a : Reconcile.alert_db) (db : operations_db) : operations_db := MkOperationsDb (od_store db) (od_names db) a (od_retention db) (od_leases db).

(** The columns check that days are 1 to 30 and months 1 to 12. *)
Definition retention_fits (detail months : Z) : bool := (1 <=? detail) && (detail <=? 30) && (1 <=? months) && (months <=? 12).

Definition UpdateRetention (detail months : Z) (outcome : commit_outcome) (db : operations_db) : operations_db * result string Z :=
  exec_rows outcome (fun db => if retention_fits detail months then Some (set_retention (Rollup.MkSettings detail months) db, 1) else None) db.

(** [config||$4::jsonb] *)
Definition updated_rule (rule : AlertRule) (now : time) (r : Reconcile.rule_row) : Reconcile.rule_row :=
  Reconcile.MkRuleRow (Reconcile.rl_kind r) (Reconcile.rl_name r) (ar_Enabled rule) (ar_Severity rule) (ar_Threshold rule) (ar_Multiplier rule)
    (Reconcile.rl_window r) now.

(** One rule of the loop; [now] is the clock of the database. *)
Definition update_rule (now : time) (rule : AlertRule) : Sql Reconcile.alert_db unit :=
  let+ found := statement "update alert rule" (fun db =>
    match Reconcile.ad_rules db !! ar_ID rule with
    | None => if sql_text (ar_ID rule) && sql_text (ar_Severity rule) then Some (false, db) else None
    | Some r => if Reconcile.severity_ok (ar_Severity rule)
                then Some (true, Reconcile.set_rules (<[ar_ID rule := updated_rule rule now r]> (Reconcile.ad_rules db)) db) else None
    end) in
  if negb found then sql_fail ErrNotFound else sql_ret tt.

Definition UpdateAlertRules (rules : list AlertRule) (now : time) (left : nat) (outcome : commit_outcome) (db : operations_db)
  : operations_db * result string unit :=
  let '(alerts, r) := transact (sql_each (update_rule now) rules) left outcome (od_alerts db) in (set_alert_db alerts db, r).

Definition RenameNode (id name : string) (outcome : commit_outcome) (db : operations_db) : operations_db * result string unit :=
  match exec_rows outcome (fun db =>
    if sql_text id && sql_text name then
      match st_nodes (od_store db) !! id with
      | Some _ => Some (set_names (<[id := name]> (od_names db)) db, 1)
      | None => Some (db, 0)
      end
    else None) db with
  | (db, Err e) => (db, Err e)
  | (db, Ok n) => (db, if n =? 0 then Err ErrNotFound else Ok tt)
  end.

(** ** The handlers *)

(** Digits as [ParseUint] reads them: it stops at the first that is none, and at the
    first that passes the largest number. *)
Fixpoint uint_value (acc : Z) (cs : list ascii) : option Z :=
  match cs with
  | [] => Some acc
  | c :: cs =>
      if is_digit c then let acc := acc * 10 + (code c - 48) in if max_u64 <? acc then Some max_u64 else uint_value acc cs
      else None
  end.

(** The number [strconv.Atoi] returns, also beside an error: zero when the text is none, the
    nearest when it does not fit. *)
Definition atoi_value (s : string) : Z :=
  let magnitude := fun cs => match cs with [] => 0 | _ => default 0 (uint_value 0 cs) end in
  match chars s with
  | [] => 0
  | c :: rest =>
      if bool_decide (c = "-"%char) then Z.max (- max_i64 - 1) (- magnitude rest)
      else if bool_decide (c = "+"%char) then Z.min max_i64 (magnitude rest)
      else Z.min max_i64 (magnitude (c :: rest))
  end.

Definition queryPage (values : url_values) : Z * Z :=
  let limit := atoi_value (Get values "limit") in
  let limit := if (limit <? 1) || (200 <? limit) then 50 else limit in
  let offset := atoi_value (Get values "offset") in
  (limit, if offset <? 0 then 0 else offset).

Example page_values : queryPage (list_to_map [("limit", ["99999999999999999999"]); ("offset", ["-3"])]) = (50, 0) /\ atoi_value "99999999999999999999" = max_i64 /\ atoi_value "12x" = 0.
Proof. vm_compute. done. Qed.

Definition writeOperationError {T} (status : Z) (code_ : string) : query_answer T := writeQueryError status code_ "".

Definition writeResult {T} (r : result string T) : query_answer T :=
  match r with
  | Ok value => writeQueryJSON value
  | Err e => if String.eqb e ErrNotFound then writeOperationError 404 "not_found" else writeOperationError 500 "internal_error"
  end.

(** [w.WriteHeader(http.StatusNoContent)] *)
Definition noContent {T} : query_answer T := MkQueryAnswer 204 None None.

Definition answer_change {A} (r : result string A) : query_answer unit := match r with Ok _ => noContent | Err e => writeResult (Err e) end.

Section handlers.
Context {tz : Timestamptz} {collation : Collation} {evidence_json : EvidenceJson}.
Variables (scan : forall A : Type, list A -> list A) (fails : ops_query -> bool) (databaseBudgetBytes database_size : Z).

Definition HealthHandler (now : time) (db : operations_db) : query_answer HealthResponse := writeResult (Health scan fails databaseBudgetBytes database_size now db).

Definition NodesHandler (now : time) (db : operations_db) : query_answer (list Node) := writeResult (ListNodes scan fails now db).

Definition SettingsHandler (db : operations_db) : query_answer OperationSettings := writeResult (GetOperationSettings fails db).

Definition AlertsHandler (values : url_values) (db : operations_db) : query_answer (list Alert * Z * Z) :=
  let status := if String.eqb (Get values "status") "" then "open" else Get values "status" in
  if negb (bool_decide (status ∈ ["open"; "resolved"; "all"])) then writeOperationError 400 "invalid_status"
  else
    let '(limit, offset) := queryPage values in
    writeResult (let* alerts := ListAlerts scan fails status limit offset db in Ok (alerts, limit, offset)).

Definition AlertHandler (created_at : Z -> time) (id : string) (db : operations_db) : query_answer Alert :=
  match Atoi (chars id) with
  | Some id => if id <=? 0 then writeOperationError 400 "invalid_alert" else writeResult (GetAlert scan fails created_at id db)
  | None => writeOperationError 400 "invalid_alert"
  end.
End handlers.

(** The bodies are what they decode to, [None] when they do not. *)
Definition RetentionHandler (input : option (Z * Z)) (outcome : commit_outcome) (db : operations_db) : operations_db * query_answer unit :=
  match input with
  | None => (db, writeOperationError 400 "invalid_request")
  | Some (detail, months) =>
      if (detail <? 1) || (30 <? detail) || (months <? 1) || (12 <? months) then (db, writeOperationError 400 "invalid_retention")
      else let '(db, r) := UpdateRetention detail months outcome db in (db, answer_change r)
  end.

Definition invalid_rule (rule : AlertRule) : bool :=
  String.eqb (ar_ID rule) "" || f64_ltb (ar_Threshold rule) f64_zero || f64_ltb (ar_Multiplier rule) f64_zero.

Definition AlertSettingsHandler (input : option (list AlertRule)) (now : time) (left : nat) (outcome : commit_outcome) (db : operations_db)
  : operations_db * query_answer unit :=
  match input with
  | None => (db, writeOperationError 400 "invalid_request")
  | Some rules =>
      if existsb invalid_rule rules then (db, writeOperationError 400 "invalid_alert_rule")
      else let '(db, r) := UpdateAlertRules rules now left outcome db in (db, answer_change r)
  end.

Definition NodeHandler (id : string) (input : option string) (outcome : commit_outcome) (db : operations_db) : operations_db * query_answer unit :=
  match input with
  | None => (db, writeOperationError 400 "invalid_request")
  | Some name =>
      let name := of_chars (TrimSpace (chars name)) in
      if String.eqb name "" || (128 <? len name) then (db, writeOperationError 400 "invalid_node_name")
      else let '(db, r) := RenameNode id name outcome db in (db, answer_change r)
  end.

(** ** The state of a node *)

Section health.
Context {tz : Timestamptz} {collation : Collation} {laws : CollationLaws collation} {evidence_json : EvidenceJson}.
Variables (scan : forall A : Type, list A -> list A) (fails : ops_query -> bool) (databaseBudgetBytes database_size : Z).
Hypothesis scan_perm : forall A (l : list A), scan A l ≡ₚ l.

Abbreviation collector := (fun row => he_Collector (hr_health row)).

#[local] Instance gap_le_total : Total gap_le.
Proof. intros a b. unfold gap_le. cbv zeta. repeat case_bool_decide; try lia; try congruence. apply total, _. Qed.

#[local] Instance gap_le_trans : Transitive gap_le.
Proof.
  intros a b c. unfold gap_le. cbv zeta. destruct (decide (collector a = collector b)) as [Eab|Nab], (decide (collector b = collector c)) as [Ebc|Nbc].
  - rewrite !bool_decide_eq_true_2 by congruence. lia.
  - rewrite bool_decide_eq_true_2, !bool_decide_eq_false_2 by congruence. by rewrite Eab.
  - rewrite bool_decide_eq_false_2, bool_decide_eq_true_2, bool_decide_eq_false_2 by congruence. by rewrite Ebc.
  - rewrite !bool_decide_eq_false_2 by congruence. intros Hab Hbc. case_bool_decide as Eac; [|by transitivity (collector b)].
    exfalso. apply Nab. apply (anti_symm text_le); [done|by rewrite Eac].
Qed.

Lemma gap_le_collector a b : gap_le a b -> text_le (collector a) (collector b).
Proof. unfold gap_le. cbv zeta. case_bool_decide as E; [|done]. intros _. rewrite E. by destruct (total text_le (collector b) (collector b)). Qed.

Lemma gap_le_latest a b : gap_le a b -> collector a = collector b -> hr_observed_at b <= hr_observed_at a.
Proof. unfold gap_le. cbv zeta. intros H E. by rewrite bool_decide_eq_true_2 in H. Qed.

(** [DISTINCT ON] keeps of each collector the row seen last. *)
Lemma distinct_listed previous rows h : h ∈ distinct_collectors previous rows -> h ∈ rows.
Proof.
  revert previous. induction rows as [|r rows IH]; intros previous; cbn [distinct_collectors]; [done|]. cbv zeta. case_bool_decide.
  - intros Hh. right. by eapply IH.
  - intros [-> |Hh]%elem_of_cons; [by left|right; by eapply IH].
Qed.

Lemma distinct_other c rows h : StronglySorted gap_le rows -> (forall r, r ∈ rows -> text_le c (collector r)) ->
  h ∈ distinct_collectors (Some c) rows -> collector h <> c.
Proof.
  intros Hs. revert c. induction Hs as [|r rows Hs IH Hr]; intros c Hc; cbn [distinct_collectors]; [by intros ?%not_elem_of_nil|]. cbv zeta.
  case_bool_decide as E.
  - apply IH. intros q Hq. apply Hc. by right.
  - rewrite Forall_forall in Hr. intros [-> |Hh]%elem_of_cons; [congruence|]. intros Eh.
    assert (text_le c (collector r)) as H1 by (apply Hc; by left).
    assert (text_le (collector r) c) as H2 by (rewrite <- Eh; apply gap_le_collector, Hr; by eapply distinct_listed).
    apply E. f_equal. by apply (anti_symm text_le).
Qed.

Lemma distinct_latest previous rows h r : StronglySorted gap_le rows -> (forall c, previous = Some c -> forall q, q ∈ rows -> text_le c (collector q)) ->
  h ∈ distinct_collectors previous rows -> r ∈ rows -> collector r = collector h -> hr_observed_at r <= hr_observed_at h.
Proof.
  intros Hs. revert previous. induction Hs as [|r0 rows Hs IH Hr0]; intros previous Hp; cbn [distinct_collectors]; [by intros ?%not_elem_of_nil|]. cbv zeta.
  rewrite Forall_forall in Hr0. case_bool_decide as E.
  - intros Hh [-> |Hr]%elem_of_cons Ec.
    + exfalso. eapply (distinct_other (collector r0) rows h); [done| |by rewrite <- E|done]. intros q Hq. by apply gap_le_collector, Hr0.
    + eapply IH; [|done..]. intros c Ep q Hq. apply (Hp c Ep). by right.
  - intros [-> |Hh]%elem_of_cons [-> |Hr]%elem_of_cons Ec; [done|by apply gap_le_latest; [apply Hr0|]| |].
    + exfalso. eapply (distinct_other (collector r0) rows h); [done| |done|done]. intros q Hq. by apply gap_le_collector, Hr0.
    + eapply IH; [|done..]. intros c [= <-] q Hq. by apply gap_le_collector, Hr0.
Qed.

Lemma distinct_all previous rows r : r ∈ rows -> previous <> Some (collector r) -> exists h, h ∈ distinct_collectors previous rows /\ collector h = collector r.
Proof.
  revert previous. induction rows as [|r0 rows IH]; intros previous; [by intros ?%not_elem_of_nil|]. cbn [distinct_collectors]. cbv zeta. case_bool_decide as E.
  - intros [-> |Hr]%elem_of_cons Hp; [done|by apply IH].
  - destruct (decide (collector r0 = collector r)) as [Ec|Nc]; [intros _ _; exists r0; split; [by left|done]|].
    intros [-> |Hr]%elem_of_cons Hp; [done|]. destruct (IH (Some (collector r0)) Hr) as (h & Hh & Ec); [congruence|]. exists h. split; [by right|done].
Qed.

(** A row of a node is the newest of its collector. *)
Definition newest (s : store) (nodeID : string) (row : health_row) : Prop :=
  row ∈ (map_to_list (st_health s)).*2 /\ hr_node row = nodeID /\
  forall q, q ∈ (map_to_list (st_health s)).*2 -> hr_node q = nodeID -> collector q = collector row -> hr_observed_at q <= hr_observed_at row.

Lemma latest_newest nodeID s row : row ∈ latest_health scan nodeID s -> newest s nodeID row.
Proof.
  unfold latest_health. set (rows := sorting.merge_sort gap_le _). assert (rows ≡ₚ filter (fun row => hr_node row = nodeID) (map_to_list (st_health s)).*2) as Hp.
  { unfold rows. rewrite sorting.merge_sort_Permutation. by rewrite scan_perm. }
  intros Hrow. pose proof (distinct_listed _ _ _ Hrow) as Hin. rewrite Hp, list_elem_of_filter in Hin. destruct Hin as [Hn Hin].
  split; [done|]. split; [done|]. intros q Hq Hqn Hqc. apply (distinct_latest None rows row q); [|done|done| |done].
  - by apply sorting.StronglySorted_merge_sort; apply _.
  - rewrite Hp. by apply list_elem_of_filter.
Qed.

Lemma latest_all nodeID s q : q ∈ (map_to_list (st_health s)).*2 -> hr_node q = nodeID -> exists row, row ∈ latest_health scan nodeID s /\ collector row = collector q.
Proof.
  intros Hq Hn. unfold latest_health. apply distinct_all; [|done]. rewrite sorting.merge_sort_Permutation, scan_perm. by apply list_elem_of_filter.
Qed.

(** What is reported of a node: a failed collector is one whose newest report is not
    healthy, and the status follows from the age of the last batch and the failed
    collectors. *)
Record node_reported (now : time) (s : store) (n : Node) : Prop := {
  nr_row : exists seen, st_nodes s !! nd_ID n = Some seen /\ nd_LastSeenAt n = default 0 seen;
  nr_failed : forall c, c ∈ nd_FailedCollectors n -> exists row, newest s (nd_ID n) row /\ collector row = c /\ he_Status (hr_health row) <> "healthy";
  nr_healthy : forall q, q ∈ (map_to_list (st_health s)).*2 -> hr_node q = nd_ID n -> collector q ∉ nd_FailedCollectors n ->
    exists row, newest s (nd_ID n) row /\ collector row = collector q /\ he_Status (hr_health row) = "healthy";
  nr_status : let age := time_sub now (nd_LastSeenAt n) in nd_Status n =
    if bool_decide (nd_LastSeenAt n = zero_time) || (60 * Second <? age) then StatusOffline
    else if 15 * Second <=? age then StatusDelayed
    else if bool_decide (nd_FailedCollectors n = []) then StatusHealthy else StatusPartial }.

Lemma failedCollectors_ok nodeID db failed c : failedCollectors scan fails nodeID db = Ok failed ->
  c ∈ failed <-> exists row, row ∈ latest_health scan nodeID (od_store db) /\ collector row = c /\ he_Status (hr_health row) <> "healthy".
Proof.
  unfold failedCollectors. intros H. apply result_bind_ok in H as (_ & _ & [= <-]). rewrite sorting.merge_sort_Permutation, list_elem_of_fmap.
  setoid_rewrite list_elem_of_filter. naive_solver.
Qed.

Lemma list_nodes_reported now db rows nodes : (forall r, r ∈ rows -> exists seen, st_nodes (od_store db) !! r.1.2 = Some seen /\ r.2 = default 0 seen) ->
  list_nodes scan fails now db rows = Ok nodes -> nd_ID <$> nodes = (fun r : string * string * time => r.1.2) <$> rows /\ Forall (node_reported now (od_store db)) nodes.
Proof.
  revert nodes. induction rows as [|[[name id] seen] rows IH]; intros nodes Hrows; cbn [list_nodes]; [by intros [= <-]|].
  intros H. apply result_bind_ok in H as (failed & Hf & H). apply result_bind_ok in H as (rest & Hrest & [= <-]).
  destruct (IH rest) as [Eid Hall]; [|done|].
  { intros r Hr. apply Hrows. by right. }
  split; [cbn [fmap list_fmap nd_ID]; by rewrite Eid|]. constructor; [|done].
  pose proof (failedCollectors_ok id db failed) as Hc. split; cbn [nd_ID nd_LastSeenAt nd_FailedCollectors nd_Status].
  - apply (Hrows (name, id, seen)). by left.
  - intros c Hin. apply (Hc c Hf) in Hin as (row & Hl & Ec & Hs). exists row. split; [by apply latest_newest|done].
  - intros q Hq Hn Hnot. destruct (latest_all id (od_store db) q Hq Hn) as (row & Hl & Ec). exists row. split; [by apply latest_newest|]. split; [done|].
    destruct (decide (he_Status (hr_health row) = "healthy")) as [|Hne]; [done|]. exfalso. apply Hnot. apply (Hc _ Hf). by exists row.
  - unfold Classify. cbn [hs_LastSeenAt hs_FailedCollectors hs_DatabaseUsagePercent hs_BufferUsagePercent].
    change (f64_ltb (f64_of_Z 80) f64_zero) with false. cbn [orb]. assert ((seen =? zero_time) = bool_decide (seen = zero_time)) as -> by (destruct (Z.eqb_spec seen zero_time); symmetry; [by apply bool_decide_eq_true_2|by apply bool_decide_eq_false_2]).
    destruct (_ || _); [done|]. destruct (_ <=? _); [done|]. by destruct failed.
Qed.

Lemma node_rows_stored db r : r ∈ sorting.merge_sort node_le (node_rows scan db) -> exists seen, st_nodes (od_store db) !! r.1.2 = Some seen /\ r.2 = default 0 seen.
Proof.
  rewrite sorting.merge_sort_Permutation. unfold node_rows. rewrite list_elem_of_fmap. intros ([id seen] & -> & Hin). rewrite scan_perm in Hin.
  apply elem_of_map_to_list in Hin. by exists seen.
Qed.

Lemma node_rows_ids db : (fun r : string * string * time => r.1.2) <$> sorting.merge_sort node_le (node_rows scan db) ≡ₚ (map_to_list (st_nodes (od_store db))).*1.
Proof.
  rewrite sorting.merge_sort_Permutation. unfold node_rows. rewrite scan_perm, <- list_fmap_compose. done.
Qed.

Lemma worse_status status l : let worst := foldl worse status l in
  (worst = status \/ worst ∈ l) /\ priority status <= priority worst /\ forall x, x ∈ l -> priority x <= priority worst.
Proof.
  revert status. induction l as [|x l IH]; intros status; cbn [foldl]; [split; [by left|]; split; [done|by intros x ?%not_elem_of_nil]|].
  cbv zeta in *. destruct (IH (worse status x)) as (Hin & Hle & Hall). assert (priority status <= priority (worse status x) /\ priority x <= priority (worse status x)) as [H1 H2].
  { unfold worse. destruct (Z.ltb_spec (priority status) (priority x)); lia. }
  split_and!; [|lia|].
  - destruct Hin as [E|Hin]; [|right; by right]. rewrite E. unfold worse. destruct (_ <? _); [right; by left|by left].
  - intros y [-> |Hy]%elem_of_cons; [lia|by apply Hall].
Qed.

Lemma Health_usage now db r : Health scan fails databaseBudgetBytes database_size now db = Ok r ->
  hr_DatabaseUsagePercent r = f64_mul (f64_div (f64_of_Z database_size) (f64_of_Z databaseBudgetBytes)) (f64_of_Z 100).
Proof.
  unfold Health. intros H. do 4 apply result_bind_ok in H as (? & _ & H). by injection H as <-.
Qed.

(** C35. The report of the server's health: each node once, with its failed collectors - those
    whose newest report is not healthy - and the status that follows from the age of its last
    batch and from them; the overall status is that of the worst node, at least a warning
    when the database is above 80 per cent of its budget, its size divided by the budget in
    double precision. *)
Theorem health_reported (now : time) (db : operations_db) (r : HealthResponse) : Health scan fails databaseBudgetBytes database_size now db = Ok r ->
  nd_ID <$> hr_Nodes r ≡ₚ (map_to_list (st_nodes (od_store db))).*1 /\ Forall (node_reported now (od_store db)) (hr_Nodes r) /\
  (forall n, n ∈ hr_Nodes r -> priority (nd_Status n) <= priority (hr_Status r)) /\
  (f64_ltb (f64_of_Z 80) (hr_DatabaseUsagePercent r) = true -> priority StatusWarning <= priority (hr_Status r)) /\
  (hr_Status r = StatusHealthy \/ hr_Status r ∈ nd_Status <$> hr_Nodes r \/
   hr_Status r = StatusWarning /\ f64_ltb (f64_of_Z 80) (hr_DatabaseUsagePercent r) = true) /\
  hr_DatabaseUsagePercent r = f64_mul (f64_div (f64_of_Z database_size) (f64_of_Z databaseBudgetBytes)) (f64_of_Z 100).
Proof.
  intros H. pose proof (Health_usage now db r H) as Hu. unfold Health in H. apply result_bind_ok in H as (nodes & Hn & H). do 3 apply result_bind_ok in H as (_ & _ & H).
  set (usage := f64_mul _ _) in H. remember (f64_ltb (f64_of_Z 80) usage) as high eqn:Eh. injection H as <-.
  cbn [hr_Nodes hr_Status hr_DatabaseUsagePercent]. rewrite <- Eh. clearbody usage. clear Eh. unfold ListNodes in Hn. apply result_bind_ok in Hn as (_ & _ & Hn).
  destruct (list_nodes_reported now db _ nodes (node_rows_stored db) Hn) as [Eid Hall]. rewrite Eid. split; [apply node_rows_ids|]. split; [done|].
  destruct (worse_status StatusHealthy (nd_Status <$> nodes)) as (Hin & _ & Hle). set (worst := foldl worse _ _) in *.
  assert (forall n, n ∈ nodes -> priority (nd_Status n) <= priority worst) as Hnodes by (intros n Hm; by apply Hle, list_elem_of_fmap_2).
  destruct high; cbn [andb].
  - destruct (Z.ltb_spec (priority worst) (priority StatusWarning)) as [Hlt|Hge].
    + split_and!; [intros n Hm; specialize (Hnodes n Hm); lia|done| |exact Hu]. right. right. done.
    + split_and!; [done|done| |exact Hu]. destruct Hin as [->|Hin]; auto.
  - split_and!; [done|done| |exact Hu]. destruct Hin as [->|Hin]; auto.
Qed.
End health.

(** ** One alert *)

Section alert.
Context {evidence_json : EvidenceJson}.
Variables (scan : forall A : Type, list A -> list A) (fails : ops_query -> bool) (created_at : Z -> time).
Hypothesis scan_perm : forall A (l : list A), scan A l ≡ₚ l.

#[local] Instance delivery_le_total : Total delivery_le.
Proof. intros a b. unfold delivery_le. lia. Qed.

#[local] Instance delivery_le_trans : Transitive delivery_le.
Proof. intros a b c. unfold delivery_le. lia. Qed.

(** An alert is shown with the row that has its identifier, all its deliveries, the newest
    first, and the link of its evidence. *)
Lemma get_alert_exact id db a : GetAlert scan fails created_at id db = Ok a ->
  at_row a ∈ Reconcile.ad_alerts (od_alerts db) /\ Reconcile.al_id (at_row a) = id /\ at_TrafficFilter a = TrafficFilter (at_Evidence a) /\ 
  at_Deliveries a ≡ₚ delivery_of created_at <$> filter (fun d => Webhook.wd_alert_id d = Some id) (Reconcile.ad_deliveries (od_alerts db)) /\ 
  StronglySorted (fun d d' => de_ID d' <= de_ID d) (at_Deliveries a).
Proof.
  unfold GetAlert. intros H. apply result_bind_ok in H as (_ & _ & H). destruct (List.find _ _) as [row|] eqn:Ef; [|done].
  apply List.find_some in Ef as [Hin Hid]. apply result_bind_ok in H as (alert & Hscan & H). apply result_bind_ok in H as (_ & _ & [= <-]).
  unfold scanAlert in Hscan. destruct (read_evidence _) as [evidence|]; [|done]. injection Hscan as <-. cbn [at_row at_Evidence at_TrafficFilter at_Deliveries].
  split; [by apply list_elem_of_In|]. split; [by apply Z.eqb_eq|]. split; [done|]. unfold alert_deliveries. split.
  - by rewrite sorting.merge_sort_Permutation, scan_perm.
  - assert (StronglySorted delivery_le (sorting.merge_sort delivery_le (filter (fun d => Webhook.wd_alert_id d = Some id) (scan _ (Reconcile.ad_deliveries (od_alerts db)))))) as Hs
      by (apply sorting.StronglySorted_merge_sort; apply _).
    induction Hs as [|d l _ IH Hd]; [constructor|]. constructor; [exact IH|]. by apply Forall_fmap.
Qed.
End alert.

(** ** The link of an alert *)

(** A filter as the parameters of a request. *)
Definition query_of (filter : gmap string string) : url_values := (fun value => [value]) <$> filter.

Lemma Get_query filter key : Get (query_of filter) key = default "" (filter !! key).
Proof. unfold Get, query_of. rewrite lookup_fmap. by destruct (filter !! key). Qed.

Lemma add_unless_empty_same key value (m : gmap string string) : m !! key = None -> default "" (add_unless_empty key value m !! key) = value.
Proof. intros H. unfold add_unless_empty. destruct (String.eqb_spec value "") as [->|_]; [by rewrite H|by rewrite lookup_insert_eq]. Qed.

Lemma add_unless_empty_other key key' value (m : gmap string string) : key' <> key -> add_unless_empty key value m !! key' = m !! key'.
Proof. intros H. unfold add_unless_empty. destruct (String.eqb _ _); [done|by rewrite lookup_insert_ne]. Qed.

Lemma EvaluateRule_evidence rule o now fi : EvaluateRule rule o now = [fi] ->
  default "" (Evidence fi !! "node_id") = ob_NodeID o /\ default "" (Evidence fi !! "owner_id") = ob_OwnerID o /\
  default "" (Evidence fi !! "destination") = Destination o.
Proof.
  unfold EvaluateRule. destruct (_ || _); [done|]. destruct (values rule o) as [[observed comparison] triggered]. destruct (negb triggered); [done|].
  intros [= <-]. cbn [Evidence]. rewrite !(add_unless_empty_other "collector") by done. rewrite !(add_unless_empty_other "destination" "node_id"),
    !(add_unless_empty_other "destination" "owner_id"), !(add_unless_empty_other "owner_id" "node_id") by done.
  rewrite lookup_insert_eq. split; [done|]. split; apply add_unless_empty_same; rewrite ?add_unless_empty_other by done; by rewrite !lookup_insert_ne.
Qed.

(** What a link holds under each parameter. *)
Lemma TrafficFilter_get evidence key : let value := fun key => default "" (evidence !! key) in let destination := value "destination" in
  default "" (TrafficFilter evidence !! key) =
    if String.eqb key "node" then value "node_id"
    else if String.eqb key "owner" then value "owner_id"
    else if String.eqb key "ip" then (if WebhookSettings.ParseIP destination is Some _ then destination else "")
    else if String.eqb key "domain" then (if WebhookSettings.ParseIP destination is Some _ then "" else destination)
    else "".
Proof.
  cbv zeta. unfold TrafficFilter. cbv zeta. set (node := default "" (evidence !! "node_id")). set (owner := default "" (evidence !! "owner_id")).
  set (destination := default "" (evidence !! "destination")).
  destruct (String.eqb_spec node "") as [->|Hn], (String.eqb_spec owner "") as [->|Ho], (String.eqb_spec destination "") as [->|Hd];
    try destruct (WebhookSettings.ParseIP destination); change (WebhookSettings.ParseIP "") with (@None (list Z)); cbv iota;
    destruct (String.eqb_spec key "node") as [->|H1]; rewrite ?lookup_insert_eq, ?lookup_insert_ne, ?lookup_insert_eq, ?lookup_empty by done;
    rewrite ?lookup_insert_ne, ?lookup_insert_eq by done; cbn [default]; try done;
    destruct (String.eqb_spec key "owner") as [->|H2]; rewrite ?lookup_insert_eq, ?lookup_insert_ne, ?lookup_insert_eq, ?lookup_empty by done; cbn [default]; try done;
    destruct (String.eqb_spec key "ip") as [->|H3]; rewrite ?lookup_insert_eq, ?lookup_insert_ne, ?lookup_insert_eq, ?lookup_empty by done; cbn [default]; try done;
    destruct (String.eqb_spec key "domain") as [->|H4]; rewrite ?lookup_insert_eq, ?lookup_insert_ne, ?lookup_insert_eq, ?lookup_empty by done; cbn [default]; done.
Qed.

Lemma ParseIP_parses s ip : WebhookSettings.ParseIP s = Some ip -> is_Some (ParseAddr s).
Proof. unfold WebhookSettings.ParseIP. by destruct (ParseAddr s). Qed.

(** C36. The link of an alert opens: the parameters made of the evidence of a finding are
    ones the traffic pages accept, and select the node, the owner and the destination of
    the finding - by address where it is one, by domain where not - over the last day. *)
Theorem alert_link_opens (unicode_lower : string -> string) (rule : Rule) (o : Observation) (found_at : time) (fi : Finding) (now : time) (detail : bool) :
  EvaluateRule rule o found_at = [fi] -> 1 <= len (ob_NodeID o) <= 128 ->
  exists f, ParseFilter unicode_lower (query_of (TrafficFilter (Evidence fi))) now detail = Ok f /\
    fl_NodeID f = ob_NodeID o /\ fl_OwnerID f = ob_OwnerID o /\ fl_Start f = now - 24 * Hour /\ fl_End f = now /\
    match WebhookSettings.ParseIP (Destination o) with
    | Some _ => fl_IP f = ParseAddr (Destination o) /\ fl_IP f <> None /\ fl_Domain f = ""
    | None => fl_IP f = None /\ fl_Domain f = to_lower unicode_lower (Destination o)
    end.
Proof.
  intros Hfi Hlen. apply EvaluateRule_evidence in Hfi as (En & Eo & Ed). unfold ParseFilter. rewrite !Get_query, !TrafficFilter_get. cbv zeta. rewrite En, Eo, Ed.
  cbn [String.eqb Ascii.eqb Bool.eqb].
  assert (negb (String.eqb (ob_NodeID o) "" || (128 <? len (ob_NodeID o))) = true) as ->.
  { destruct (String.eqb_spec (ob_NodeID o) "") as [E|_]; [rewrite E in Hlen; by destruct Hlen as [[] _]|]. by rewrite (proj2 (Z.ltb_ge _ _)) by lia. }
  assert (time_sub now (now - 24 * Hour) = 24 * Hour) as Hsub by (unfold time_sub; replace (now - (now - 24 * Hour)) with (24 * Hour) by lia; reflexivity).
  destruct (WebhookSettings.ParseIP (Destination o)) as [bytes|] eqn:Eip.
  - pose proof (ParseIP_parses _ _ Eip) as [a Ha]. assert (String.eqb (Destination o) "" = false) as Hd by (apply String.eqb_neq; intros E; by rewrite E in Eip).
    eexists. unfold optional. rewrite Hd, Ha. cbn [String.eqb fmap option_fmap option_map guard_err result_bind]. rewrite (proj2 (Z.ltb_lt (now - 24 * Hour) now)) by (unfold Hour, Minute, Second; lia).
    cbn [guard_err result_bind]. rewrite Hsub, andb_false_r. split; [reflexivity|]. split_and!; done.
  - eexists. unfold optional. cbn [String.eqb guard_err result_bind]. rewrite (proj2 (Z.ltb_lt (now - 24 * Hour) now)) by (unfold Hour, Minute, Second; lia).
    cbn [guard_err result_bind]. rewrite Hsub, andb_false_r. split; [reflexivity|]. split_and!; done.
Qed.

(** ** Rules are changed together *)

Definition rules_after (now : time) (m : gmap string Reconcile.rule_row) (rule : AlertRule) : gmap string Reconcile.rule_row :=
  match m !! ar_ID rule with Some r => <[ar_ID rule := updated_rule rule now r]> m | None => m end.

Lemma update_rule_yields now (a : Reconcile.alert_db) m rule :
  yields (fun db => db = Reconcile.set_rules m a) (update_rule now rule) (fun _ db => db = Reconcile.set_rules (rules_after now m rule) a /\ is_Some (m !! ar_ID rule)).
Proof.
  apply (yields_bind _ _ (fun found db => found = true -> db = Reconcile.set_rules (rules_after now m rule) a /\ is_Some (m !! ar_ID rule))).
  - apply yields_statement. intros db found db' -> H. change (Reconcile.ad_rules (Reconcile.set_rules m a)) with m in H. unfold rules_after.
    destruct (m !! ar_ID rule) as [r|]; [|destruct (_ && _); [by injection H as <- _|done]].
    destruct (Reconcile.severity_ok _); [|done]. injection H as <- <-. intros _. split; [done|by exists r].
  - intros []; cbn [negb]; [apply yields_ret; auto|apply yields_fail].
Qed.

(** The change of the rules takes effect as a whole or not at all, and touches nothing
    else; kinds, names and windows stay. *)
Lemma rules_updated rules now left outcome db : let after := UpdateAlertRules rules now left outcome db in
  (after.1 = db \/ after.1 = set_alert_db (Reconcile.set_rules (foldl (rules_after now) (Reconcile.ad_rules (od_alerts db)) rules) (od_alerts db)) db) /\
  (is_ok after.2 = true -> outcome = Committed /\ Forall (fun rule => is_Some (Reconcile.ad_rules (od_alerts db) !! ar_ID rule)) rules /\
     after.1 = set_alert_db (Reconcile.set_rules (foldl (rules_after now) (Reconcile.ad_rules (od_alerts db)) rules) (od_alerts db)) db).
Proof.
  cbv zeta. unfold UpdateAlertRules, transact. set (a := od_alerts db).
  assert (set_alert_db a db = db) as Hsame by by destruct db.
  assert (yields (fun d => d = Reconcile.set_rules (Reconcile.ad_rules a) a) (sql_each (update_rule now) rules)
    (fun _ d => d = Reconcile.set_rules (foldl (rules_after now) (Reconcile.ad_rules a) rules) a /\ Forall (fun rule => is_Some (Reconcile.ad_rules a !! ar_ID rule)) rules)) as Hy.
  { assert (forall m, (forall id, is_Some (m !! id) <-> is_Some (Reconcile.ad_rules a !! id)) -> yields (fun d => d = Reconcile.set_rules m a) (sql_each (update_rule now) rules)
      (fun _ d => d = Reconcile.set_rules (foldl (rules_after now) m rules) a /\ Forall (fun rule => is_Some (Reconcile.ad_rules a !! ar_ID rule)) rules)) as H; [|by apply H].
    induction rules as [|rule rules IH]; intros m Hm; [apply yields_ret; intros d ->; split; [done|constructor]|].
    apply (yields_bind _ _ (fun _ d => d = Reconcile.set_rules (rules_after now m rule) a /\ is_Some (m !! ar_ID rule))); [apply update_rule_yields|].
    intros _ t u t' [Ht Hin] E. destruct (IH (rules_after now m rule)) with (2 := Ht) (3 := E) as [Ed Hall].
    { intros id. rewrite <- Hm. unfold rules_after. destruct (m !! ar_ID rule) as [r|] eqn:Er; [|done]. destruct (decide (id = ar_ID rule)) as [->|Hne].
      - rewrite lookup_insert_eq, Er. split; by eexists.
      - by rewrite lookup_insert_ne. }
    split; [exact Ed|]. constructor; [by apply Hm|done]. }
  destruct (sql_each (update_rule now) rules (MkTx a left)) as [[u t]|e] eqn:E; cbn [fst snd]; [|by split; [left|]].
  destruct (Hy (MkTx a left) u t) as [Hdb Hall]; [by destruct a|done|]. rewrite Hdb. destruct outcome; cbn [fst snd]; split; auto; done.
Qed.

(** ** Connections of the pool

    [ListNodes] asks for the collectors of a node while the rows of the nodes are open:
    each request holds one connection of the pool and waits for another, until its client
    gives up, which is left out here: the server sets no time limit.  A request is
    queued, has the rows open with so many nodes to go, asks for the collectors of one, or
    is answered. *)

Inductive stage : Type := Queued | Listing (left : nat) | Asking (left : nat) | Answered.

#[export] Instance stage_eq_dec : EqDecision stage.
Proof. solve_decision. Defined.

Definition connections_held (s : stage) : nat := match s with Queued | Answered => 0 | Listing _ => 1 | Asking _ => 2 end.

Definition asking (s : stage) : bool := match s with Asking _ => true | _ => false end.

Definition connections_used (l : list stage) : nat := sum_list_with connections_held l.

Section pool.
Variables (size nodes : nat).

Inductive pool_step : list stage -> list stage -> Prop :=
| AcquireOuter l i : l !! i = Some Queued -> (connections_used l < size)%nat -> pool_step l (<[i := Listing nodes]> l)
| AcquireInner l i k : l !! i = Some (Listing (S k)) -> (connections_used l < size)%nat -> pool_step l (<[i := Asking k]> l)
| ReleaseInner l i k : l !! i = Some (Asking k) -> pool_step l (<[i := Listing k]> l)
| ReleaseOuter l i : l !! i = Some (Listing 0) -> pool_step l (<[i := Answered]> l).

Definition requests (n : nat) : list stage := replicate n Queued.

(** What a request has still to do. *)
Definition work (s : stage) : nat := match s with Queued => 2 * nodes + 2 | Listing k => 2 * k + 1 | Asking k => 2 * k + 2 | Answered => 0 end.

Lemma sum_insert (f : stage -> nat) l i s s' : l !! i = Some s -> (sum_list_with f (<[i := s']> l) + f s = sum_list_with f l + f s')%nat.
Proof.
  revert i. induction l as [|x l IH]; intros [|i] H; simpl in *; try done.
  - injection H as ->. lia.
  - specialize (IH i H). lia.
Qed.

Lemma step_work l l' : pool_step l l' -> (sum_list_with work l' < sum_list_with work l)%nat /\ length l' = length l.
Proof.
  intros H. inversion H as [? i Hi|? i k Hi|? i k Hi|? i Hi]; subst; rewrite length_insert; split; try done;
    match goal with |- (sum_list_with _ (<[i := ?x]> l) < _)%nat => pose proof (sum_insert work l i _ x Hi) as Hs end; cbn [work] in Hs; lia.
Qed.

(** Requests that have the rows open, and wait for a second connection. *)
Lemma all_listing n j : (j <= size)%nat -> (j <= n)%nat -> rtc pool_step (requests n) (replicate j (Listing nodes) ++ requests (n - j)).
Proof.
  induction j as [|j IH]; intros Hs Hn; [rewrite Nat.sub_0_r; apply rtc_refl|]. eapply rtc_r; [apply IH; lia|].
  assert (connections_used (replicate j (Listing nodes) ++ requests (n - j)) = j) as Hu.
  { unfold connections_used, requests. rewrite sum_list_with_app. clear. induction j as [|j IH]; simpl.
    - rewrite Nat.sub_0_r. by induction n.
    - clear IH. assert (forall m, sum_list_with connections_held (replicate m Queued) = 0%nat) as -> by (induction m; done).
      rewrite Nat.add_0_r. f_equal. by induction j; simpl; [|f_equal]. }
  replace (replicate (S j) (Listing nodes) ++ requests (n - S j)) with (<[j := Listing nodes]> (replicate j (Listing nodes) ++ requests (n - j))).
  - apply AcquireOuter; [|lia]. rewrite lookup_app_r by (by rewrite length_replicate). rewrite length_replicate, Nat.sub_diag.
    unfold requests. destruct (n - j)%nat eqn:E; [lia|done].
  - rewrite (replicate_S_end j), <- app_assoc, insert_app_r_alt by (by rewrite length_replicate). rewrite length_replicate, Nat.sub_diag. f_equal.
    unfold requests. by replace (n - j)%nat with (S (n - S j)) by lia.
Qed.

Lemma used_replicate j s : connections_used (replicate j s) = (j * connections_held s)%nat.
Proof. unfold connections_used. induction j as [|j IH]; simpl; [done|]. by rewrite IH. Qed.

Lemma run_length l l' : rtc pool_step l l' -> length l' = length l.
Proof. induction 1 as [|x y z Hs _ IH]; [done|]. rewrite IH. by destruct (step_work _ _ Hs). Qed.

(** A request that waits holds at most one connection. *)
Lemma waiting_used l : (forall k, Asking k ∉ l) -> (connections_used l <= length l)%nat.
Proof.
  unfold connections_used. induction l as [|s l IH]; intros H; simpl; [done|]. assert (forall k, Asking k ∉ l) as Hl by set_solver.
  specialize (IH Hl). destruct s as [|k|k|]; simpl; try lia. exfalso. apply (H k). by left.
Qed.

(** The connection pool: as many requests for the nodes as the pool has connections can
    all have the rows of the nodes open, each waiting for a second connection, and then
    none of them, nor anything else that asks the database, goes on while their clients wait.  With fewer requests
    than connections each step brings them closer to their end and none is stuck before
    all are answered. *)
Theorem pool_blocks : (0 < size)%nat -> (0 < nodes)%nat ->
  (forall n, (size <= n)%nat -> exists l, rtc pool_step (requests n) l /\ (forall l', ~ pool_step l l') /\ connections_used l = size /\ Answered ∉ l) /\
  (forall n l, (n < size)%nat -> rtc pool_step (requests n) l ->
     (Forall (fun s => s = Answered) l \/ exists l', pool_step l l') /\
     forall l', pool_step l l' -> (sum_list_with work l' < sum_list_with work l)%nat).
Proof.
  intros Hsize Hnodes. split.
  - intros n Hn. exists (replicate size (Listing nodes) ++ requests (n - size)).
    assert (connections_used (replicate size (Listing nodes) ++ requests (n - size)) = size) as Hu.
    { unfold connections_used. rewrite sum_list_with_app. fold (connections_used (replicate size (Listing nodes))) (connections_used (requests (n - size))).
      unfold requests. rewrite !used_replicate. simpl. lia. }
    assert (forall s, s ∈ replicate size (Listing nodes) ++ requests (n - size) -> s = Listing nodes \/ s = Queued) as Hin.
    { intros s [Hs|Hs]%elem_of_app; apply elem_of_replicate in Hs as [-> _]; auto. }
    split; [by apply all_listing|]. split; [|split; [done|intros H; by destruct (Hin _ H)]].
    intros l' H. inversion H as [? i Hi|? i k Hi|? i k Hi|? i Hi]; subst; try lia; apply list_elem_of_lookup_2, Hin in Hi; destruct Hi as [Hi|Hi]; try done.
    injection Hi as Hi. lia.
  - intros n l Hn Hrun. split; [|intros l' H; by destruct (step_work _ _ H)]. pose proof (run_length _ _ Hrun) as Hl. unfold requests in Hl. rewrite length_replicate in Hl.
    destruct (decide (Exists (fun s => asking s = true) l)) as [Hex|Hno].
    { apply Exists_exists in Hex as ([| |k|] & Hin & Hs); try done. apply list_elem_of_lookup in Hin as [i Hi]. right. eexists. by eapply ReleaseInner. }
    assert (connections_used l < size)%nat as Hused.
    { assert (connections_used l <= length l)%nat; [|lia]. apply waiting_used. intros k Hk. apply Hno, Exists_exists. by exists (Asking k). }
    destruct (decide (Forall (fun s => s = Answered) l)) as [|Hall]; [by left|right]. apply not_Forall_Exists in Hall; [|apply _].
    apply Exists_exists in Hall as (s & Hin & Hs). apply list_elem_of_lookup in Hin as [i Hi]. destruct s as [|[|k]|k|]; [..|by destruct Hs].
    + eexists. by eapply AcquireOuter.
    + eexists. by eapply ReleaseOuter.
    + eexists. by eapply AcquireInner.
    + eexists. by eapply ReleaseInner.
Qed.
End pool.

Module DemoOperations.
Import TrafficTheorems.DemoTraffic.
#[local] Existing Instance DemoTraffic.tz.
#[local] Existing Instance DemoTraffic.collation.
#[local] Existing Instance DemoTraffic.laws.

Definition now : time := 1784041200 * Second.
Definition report (node collector status : string) (ago : Z) : health_row :=
  MkHealthRow node (now - ago * Second) (MkHealthEvent collector status status 0 (f64_of_Z 0) "").

(** A node whose collector of names has failed after it worked, and one that has not been
    seen for a minute and more. *)
Definition stored : store :=
  set_health (list_to_map [("1", report "node-a" "dns" "healthy" 30); ("2", report "node-a" "dns" "degraded" 20); ("3", report "node-a" "npm" "degraded" 30);
                           ("4", report "node-a" "npm" "healthy" 10)])
    (set_nodes (list_to_map [("node-a", Some (now - 5 * Second)); ("node-b", Some (now - 61 * Second))]) empty_store).

Definition db : operations_db :=
  MkOperationsDb stored (list_to_map [("node-b", "attic")]) (Reconcile.MkAlertDb ["node-a"; "node-b"] ∅ [] [] 1 1) (Rollup.MkSettings 30 12) ∅.

Definition works (_ : ops_query) : bool := false.
Definition scanned (A : Type) (l : list A) : list A := l.

Example nodes_listed : (fun l : list Node => (fun n => (nd_Name n, nd_Status n, nd_FailedCollectors n)) <$> l) <$>
  match ListNodes scanned works now db with Ok l => Some l | Err _ => None end =
  Some [("attic", StatusOffline, []); ("node-a", StatusPartial, ["dns"])].
Proof. vm_compute. reflexivity. Qed.

Lemma health_reported_witness : exists r, Health scanned works 100 90 now db = Ok r /\ hr_Status r = StatusOffline /\
  (forall n, n ∈ hr_Nodes r -> priority (nd_Status n) <= 4).
Proof.
  destruct (Health scanned works 100 90 now db) as [r|e] eqn:E; [|exfalso; vm_compute in E; discriminate E].
  destruct (health_reported scanned works 100 90 (fun _ _ => reflexivity _) now db r E) as (_ & _ & Hall & _).
  assert (hr_Status r = StatusOffline) as Hs by (vm_compute in E; injection E as <-; reflexivity).
  exists r. split; [reflexivity|]. split; [exact Hs|]. intros n Hn. specialize (Hall n Hn). rewrite Hs in Hall. exact Hall.
Defined.

Definition observation : Observation := destination_observation "node-a" "container:web" "203.0.113.9".
Definition new_destination : Rule := MkRule "new-destination" KindNewDestination "new destination" true "info" (f64_of_Z 0) (f64_of_Z 0) 300.

Lemma alert_link_opens_witness : exists fi f, EvaluateRule new_destination observation now = [fi] /\
  ParseFilter lower (query_of (TrafficFilter (Evidence fi))) now true = Ok f /\ fl_OwnerID f = "container:web" /\ fl_IP f = Some (IPv4 [203; 0; 113; 9]).
Proof.
  destruct (EvaluateRule new_destination observation now) as [|fi [|fi' rest]] eqn:E; [discriminate E| |discriminate E].
  destruct (alert_link_opens lower new_destination observation now fi now true E) as (f & Hf & _ & Ho & _ & _ & Hd).
  - vm_compute. split; discriminate.
  - exists fi, f. split; [reflexivity|]. split; [exact Hf|]. split; [exact Ho|]. destruct (WebhookSettings.ParseIP _) as [bytes|] eqn:Eip in Hd.
    + destruct Hd as (Hip & _). rewrite Hip. vm_compute. reflexivity.
    + vm_compute in Eip. discriminate Eip.
Defined.

(** A pool of four connections, four requests, two nodes. *)
Lemma pool_blocks_witness : exists l, rtc (pool_step 4 2) (requests 4) l /\ (forall l', ~ pool_step 4 2 l l') /\ connections_used l = 4%nat.
Proof.
  destruct (pool_blocks 4 2) as [H _]; [lia..|]. destruct (H 4%nat) as (l & Hl & Hno & Hu & _); [lia|]. exists l. split; [exact Hl|]. split; [exact Hno|exact Hu].
Defined.
End DemoOperations.
