(* ===== verification/Delivery.v ===== *)
(** * Delivery from queue to table

    [agent/sender] over a network to [server/ingest] and [server/store]: an instance of
    the application loop's [Deliverer] whose requests are served by [ServeHTTP] on the
    tables of [Store].  A request can be lost, answered by something in between, or
    served; the transaction behind it can break anywhere, and its answer can be lost.

    The class [UplinkLaws] says what the agent may rely on, [uplink_laws] that this
    delivery keeps it. *)

From stdpp Require Import base strings numbers gmap sets list.
From S2P Require Import Prelude GoBase GoText GoModel InterfaceCounter Attribution Sender Effects StateFile App AppTheorems Sql Store StoreTheorems StoreOnce Ingest.

Open Scope string_scope.
Open Scope Z_scope.
Local Open Scope flow_scope.
Local Open Scope list_scope.

(** ** The interface *)

(** What reached the receiver, and what it has settled for good. *)
Class UplinkLaws (S : Type) `{!Deliverer S} : Type := {
  uplink_ok : S -> Prop;
  received : S -> list Batch;
  settled : S -> Batch -> Prop;
  send_ok b s : uplink_ok s -> uplink_ok (s_Send b s).1;
  send_received b s x : uplink_ok s -> x ∈ received (s_Send b s).1 -> x ∈ received s \/ x = b;
  send_settles b s : uplink_ok s -> is_ok (s_Send b s).2 = true -> settled (s_Send b s).1 b;
  send_settled b s x : uplink_ok s -> settled s x -> settled (s_Send b s).1 x }.

(** ** The server *)

Section server.
Context {tz : Timestamptz} {ip : Inet} (scan : forall A : Type, list A -> list A).
Context (sort : (NameEvidence -> NameEvidence -> bool) -> list NameEvidence -> list NameEvidence).
Context (geoIP : option (ip_addr -> NetworkInfo)).
Context {wire : Wire} (unicode_lower : string -> string) (token : string).

(** The tables, what arrived at them so far, and what the next transaction meets. *)
Record server : Type := MkServer {
  sv_store : store; sv_journal : list arrival; sv_left : nat; sv_commit : commit_outcome }.

#[local] Instance server_store : BatchStore server := {
  bs_InsertBatch b s :=
    let '(tables, r) := InsertBatch scan sort geoIP (sv_left s) (sv_commit s) b (sv_store s) in
    (MkServer tables (sv_journal s ++ [MkArrival (sv_left s) (sv_commit s) b]) (sv_left s) (sv_commit s), r) }.

(** What a request meets: something in between answers, or not; or the server, whose
    transaction gets [quota] statements and ends as [outcome], and whose answer is
    heard or replaced. *)
Inductive exchange : Type :=
| Intercepted (r : response)
| Served (quota : nat) (outcome : commit_outcome) (joined : bool) (instead : option response).

(** Nothing in between claims success. *)
Definition honest (e : exchange) : Prop :=
  match e with
  | Intercepted r | Served _ _ _ (Some r) => ~ accepted r
  | Served _ _ _ None => True
  end.

Definition answer_request (e : exchange) (body : list Z) (s : server) : server * response :=
  match e with
  | Intercepted r => (s, r)
  | Served quota outcome joined instead =>
      let '(s, answer) := ServeHTTP unicode_lower token (agent_request token joined body)
                            (MkServer (sv_store s) (sv_journal s) quota outcome) in
      (s, default (StatusCode (an_Status answer)) instead)
  end.

(** The server after [k] requests with a body, the first being number [n]. *)
Fixpoint after_requests (net : nat -> exchange) (body : list Z) (n k : nat) (s : server) : server :=
  match k with
  | O => s
  | S k' => after_requests net body (S n) k' (answer_request (net n) body s).1
  end.

Definition nth_response (net : nat -> exchange) (body : list Z) (n i : nat) (s : server) : response :=
  (answer_request (net (n + i)%nat) body (after_requests net body n i s)).2.

(** ** The uplink *)

Record uplink : Type := MkUplink {
  up_server : server; up_net : nat -> exchange; up_sleep : nat -> bool; up_count : nat }.

Definition posts (acts : list action) : nat := length (filter is_post acts).

#[local] Instance uplink_sender : Deliverer uplink := {
  s_Send b u :=
    let body := default [] (encodeBatch b) in
    let '(acts, r) := Send encodeBatch (fun i => nth_response (up_net u) body (up_count u) i (up_server u))
                        (fun i => up_sleep u (up_count u + i)) default_backoff b in
    (MkUplink (after_requests (up_net u) body (up_count u) (posts acts) (up_server u)) (up_net u) (up_sleep u) (up_count u + posts acts), r) }.

(** ** The laws *)

Definition consistent (s : server) : Prop := sv_store s = arrive_all scan sort geoIP empty_store (sv_journal s).
Definition journal (s : server) : list Batch := ar_batch <$> sv_journal s.
Definition stored (s : server) (b : Batch) : Prop := batch_key b ∈ st_batches (sv_store s).

Context {laws : WireLaws}.

Lemma insert_consistent b s : consistent s -> consistent (bs_InsertBatch b s).1.
Proof.
  unfold consistent. simpl. destruct (InsertBatch _ _ _ _ _ b (sv_store s)) as [tables r] eqn:E. simpl. intros H.
  unfold arrive_all. rewrite foldl_app. fold (arrive_all scan sort geoIP empty_store (sv_journal s)). rewrite <- H. simpl.
  unfold arrive. simpl. by rewrite E.
Qed.

Lemma insert_journal b s : journal (bs_InsertBatch b s).1 = journal s ++ [b].
Proof. unfold journal. simpl. destruct (InsertBatch _ _ _ _ _ b (sv_store s)) as [tables r]. simpl. by rewrite fmap_app. Qed.

Lemma insert_stored b s x : stored s x -> stored (bs_InsertBatch b s).1 x.
Proof.
  unfold stored. simpl. pose proof (arrive_guards scan sort geoIP (MkArrival (sv_left s) (sv_commit s) b) (sv_store s)) as H.
  unfold arrive in H. simpl in H. destruct (InsertBatch _ _ _ _ _ b (sv_store s)) as [tables r]. simpl in *. set_solver.
Qed.

Lemma insert_reports b s inserted : (bs_InsertBatch b s).2 = Ok inserted -> stored (bs_InsertBatch b s).1 b.
Proof.
  unfold stored. simpl. pose proof (InsertBatch_reports scan sort geoIP (MkArrival (sv_left s) (sv_commit s) b) (sv_store s) inserted) as H.
  unfold arrive in H. simpl in H. destruct (InsertBatch _ _ _ _ _ b (sv_store s)) as [tables r]. simpl in *. intros E. by apply H.
Qed.

(** What one request with the body of a batch does. *)
Record request_keeps (b : Batch) (s s' : server) : Prop := {
  rk_consistent : consistent s -> consistent s';
  rk_journal : journal s' = journal s \/ journal s' = journal s ++ [b];
  rk_stored x : stored s x -> stored s' x }.

Lemma keeps_refl b s : request_keeps b s s.
Proof. split; auto. Qed.

Section body.
Context (b : Batch) (body : list Z) (Hvalid : Validate b = Ok tt) (Hbody : encodeBatch b = Some body).

Lemma request_spec e s : honest e ->
  request_keeps b s (answer_request e body s).1 /\
  (accepted (answer_request e body s).2 -> stored (answer_request e body s).1 b).
Proof.
  intros Hh. destruct e as [r|quota outcome joined instead]; simpl in *; [by split; [apply keeps_refl|]|].
  set (s1 := MkServer (sv_store s) (sv_journal s) quota outcome).
  assert (request_keeps b s (bs_InsertBatch b s1).1) as Hk.
  { split; [intros H; by apply (insert_consistent b s1)|right; apply (insert_journal b s1)|intros x; apply (insert_stored b s1)]. }
  pose proof (agent_served unicode_lower token joined b body s1 Hvalid Hbody) as Hs. cbv zeta in Hs.
  destruct (ServeHTTP _ _ _ s1) as [s2 a] eqn:Es. simpl. destruct (fits b).
  - pose proof (insert_decoded_asked b s1 Hvalid) as [H1 H2]. rewrite <- Hs in H1, H2. cbn [fst snd] in H1, H2. rewrite H1.
    split; [done|]. intros Ha. destruct instead as [r|]; cbn [default] in Ha; [done|]. rewrite H2 in Ha.
    destruct (bs_InsertBatch b s1).2 as [inserted|] eqn:Er; [by eapply insert_reports|]. by destruct Ha as [Ha|Ha].
  - cbn [fst snd] in Hs. destruct Hs as [-> Ha]. split; [split; auto|]. intros Hac. destruct instead as [r|]; simpl in Hac; [done|].
    simpl in Ha. destruct Hac as [[= Hac]|[= Hac]]; lia.
Qed.

Lemma requests_spec net n k s : (forall i, honest (net i)) ->
  (consistent s -> consistent (after_requests net body n k s)) /\
  (forall x, x ∈ journal (after_requests net body n k s) -> x ∈ journal s \/ x = b) /\
  (forall x, stored s x -> stored (after_requests net body n k s) x).
Proof.
  intros Hnet. revert n s. induction k as [|k IH]; intros n s; [by split_and!; auto|]. simpl.
  destruct (request_spec (net n) s (Hnet n)) as [[Hc Hj Hst] _]. destruct (IH (S n) (answer_request (net n) body s).1) as (IH1 & IH2 & IH3).
  split_and!; [auto| |auto]. intros x Hx. destruct (IH2 x Hx) as [Hx'|]; [|by right].
  destruct Hj as [Hj|Hj]; rewrite Hj in Hx'; set_solver.
Qed.

(** The server after one more request. *)
Lemma after_last net n k s :
  after_requests net body n (S k) s = (answer_request (net (n + k)%nat) body (after_requests net body n k s)).1.
Proof.
  revert n s. induction k as [|k IH]; intros n s; [simpl; by rewrite Nat.add_0_r|].
  change (after_requests net body n (S (S k)) s) with (after_requests net body (S n) (S k) (answer_request (net n) body s).1).
  rewrite IH. by rewrite Nat.add_succ_comm.
Qed.

Lemma posts_attempts pauses : posts (attempts body pauses) = S (length pauses).
Proof. unfold posts. induction pauses as [|d l IH]; [done|]. simpl. f_equal. exact IH. Qed.

Lemma accepted_stored net sleep n s acts : (forall i, honest (net i)) ->
  Send encodeBatch (fun i => nth_response net body n i s) sleep default_backoff b = (acts, Ok tt) ->
  stored (after_requests net body n (posts acts) s) b.
Proof.
  intros Hnet E. unfold Send in E. rewrite Hvalid, Hbody in E.
  pose proof (send_loop_ends (fun i => nth_response net body n i s) sleep body 0 default_backoff) as He. rewrite E in He. simpl in He.
  inversion He as [k Hk _ Ha Hacts| | |]; subst. rewrite posts_attempts, length_take, Nat.min_l by done. rewrite after_last.
  by apply request_spec.
Qed.
End body.

(** Without a valid batch that can be encoded nothing is sent. *)
Lemma nothing_sent b post sleep backoff : Validate b <> Ok tt \/ encodeBatch b = None ->
  posts (Send encodeBatch post sleep backoff b).1 = 0%nat /\ is_ok (Send encodeBatch post sleep backoff b).2 = false.
Proof.
  unfold Send. destruct (Validate b) as [[]|]; [|done]. destruct (encodeBatch b); [|done]. by intros [].
Qed.

Lemma batch_sendable b : (Validate b = Ok tt /\ exists body, encodeBatch b = Some body) \/ (Validate b <> Ok tt \/ encodeBatch b = None).
Proof. destruct (Validate b) as [[]|]; [|by right; left]. destruct (encodeBatch b); [left; eauto|by right; right]. Qed.

Lemma uplink_sends b u : (forall i, honest (up_net u i)) ->
  let r := s_Send b u in
  (consistent (up_server u) -> consistent (up_server r.1)) /\
  (forall x, x ∈ journal (up_server r.1) -> x ∈ journal (up_server u) \/ x = b) /\
  (forall x, stored (up_server u) x -> stored (up_server r.1) x) /\
  (is_ok r.2 = true -> stored (up_server r.1) b) /\ up_net r.1 = up_net u.
Proof.
  intros Hnet. simpl. destruct (Send _ _ _ _ b) as [acts r] eqn:E. cbn [fst snd up_server up_net].
  destruct (batch_sendable b) as [(Hv & body & Hb)|Hn].
  - rewrite Hb in E |- *. simpl in E |- *.
    destruct (requests_spec b body Hv Hb (up_net u) (up_count u) (posts acts) (up_server u) Hnet) as (H1 & H2 & H3).
    split_and!; [done..| |done]. destruct r as [[]|]; [|done]. intros _. by eapply accepted_stored.
  - eapply nothing_sent in Hn as [Hp Hr]. rewrite E in Hp, Hr. simpl in Hp, Hr. rewrite Hp, Hr. by split_and!; auto.
Qed.

#[local] Instance uplink_laws : UplinkLaws uplink.
Proof.
  refine {|
    uplink_ok u := consistent (up_server u) /\ forall i, honest (up_net u i);
    received u := journal (up_server u);
    settled u b := stored (up_server u) b |}.
  - intros b u [Hc Hnet]. destruct (uplink_sends b u Hnet) as (H & _ & _ & _ & E). rewrite E. auto.
  - intros b u x [_ Hnet]. by apply uplink_sends.
  - intros b u [_ Hnet]. by apply uplink_sends.
  - intros b u x [_ Hnet]. by apply uplink_sends.
Defined.
End server.
