(* ===== verification/EndToEnd.v ===== *)
(** * From the interface counters to the table

    The agent's loop with any queue and checkpoint, delivering over the network to the
    endpoint and its tables: what the tables hold of an interface is what its counters
    advanced, once.

    [watched] is a queue with a note of what left or entered it otherwise than by an
    enqueue or an acknowledgement: the evictions and summaries of a full or old queue. *)

From stdpp Require Import base strings numbers gmap sets list.
From Stdlib Require Import Ascii.
From S2P Require Import Prelude GoBase GoText GoModel InterfaceCounter Attribution Sender Effects StateFile App AppTheorems Sql Store StoreTheorems StoreOnce Ingest Delivery.
From S2P Require Spool SpoolRules SpoolQueue StoreDemo.

Open Scope string_scope.
Open Scope Z_scope.
Local Open Scope flow_scope.
Local Open Scope list_scope.

(** ** A watched queue *)

Record watched (Q : Type) : Type := MkWatched { wq_queue : Q; wq_changes : list Batch }.
Arguments MkWatched {Q} _ _.
Arguments wq_queue {Q} _.
Arguments wq_changes {Q} _.

Section watched.
Context {Q : Type} `{!Queue Q} `{!QueueLaws Q}.

Definition queued (q : Q) : list Batch := it_Batch <$> contents q.

(** What should be queued after an enqueue, and is not, or the other way round. *)
Definition changes (b : Batch) (q q' : Q) : list Batch :=
  let kept := queued q ++ (if decide (history q' = history q ++ [b]) then [b] else []) in
  filter (fun x => x ∉ queued q') kept ++ filter (fun x => x ∉ kept) (queued q').

#[export] Instance watched_queue : Queue (watched Q) := {
  q_Enqueue b w := let r := q_Enqueue b (wq_queue w) in
    (MkWatched r.1 (wq_changes w ++ changes b (wq_queue w) r.1), r.2);
  q_Peek w := let r := q_Peek (wq_queue w) in (MkWatched r.1 (wq_changes w), r.2);
  q_Ack i w := let r := q_Ack i (wq_queue w) in (MkWatched r.1 (wq_changes w), r.2) }.

#[export] Instance watched_laws : QueueLaws (watched Q).
Proof.
  refine {| history w := history (wq_queue w); contents w := contents (wq_queue w) |}.
  - intros b w. apply (enqueue_history b (wq_queue w)).
  - intros w. apply (peek_history (wq_queue w)).
  - intros i w. apply (ack_history i (wq_queue w)).
  - intros w. apply (peek_contents (wq_queue w)).
  - intros w. apply (peek_head (wq_queue w)).
  - intros w. apply (ack_contents (wq_queue w)).
Defined.

Lemma enqueue_watched b (w : watched Q) : wq_changes (q_Enqueue b w).1 = [] ->
  wq_changes w = [] /\
  ((history (q_Enqueue b w).1 = history w ++ [b] /\
      forall x, x ∈ queued (wq_queue (q_Enqueue b w).1) <-> x ∈ queued (wq_queue w) \/ x = b) \/
   (history (q_Enqueue b w).1 = history w /\
      forall x, x ∈ queued (wq_queue (q_Enqueue b w).1) <-> x ∈ queued (wq_queue w))).
Proof.
  cbn. intros [Hw Hc]%app_eq_nil. split; [done|]. unfold changes in Hc. cbv zeta in Hc. apply app_eq_nil in Hc as [H1 H2].
  assert (forall kept, filter (fun x => x ∉ queued (q_Enqueue b (wq_queue w)).1) kept = [] ->
    filter (fun x => x ∉ kept) (queued (q_Enqueue b (wq_queue w)).1) = [] ->
    forall x, x ∈ queued (q_Enqueue b (wq_queue w)).1 <-> x ∈ kept) as Hsame.
  { intros kept G1 G2 x. split; intros Hx.
    - destruct (decide (x ∈ kept)) as [|Hn]; [done|]. exfalso. apply (not_elem_of_nil x). rewrite <- G2. by apply list_elem_of_filter.
    - destruct (decide (x ∈ queued (q_Enqueue b (wq_queue w)).1)) as [|Hn]; [done|]. exfalso. apply (not_elem_of_nil x).
      rewrite <- G1. by apply list_elem_of_filter. }
  specialize (Hsame _ H1 H2). clear H1 H2.
  destruct (decide _) as [Hd|Hd].
  - left. split; [done|]. intros x. rewrite Hsame. set_solver.
  - right. split; [by destruct (enqueue_history b (wq_queue w)) as [|[? _]]|]. intros x. rewrite Hsame. set_solver.
Qed.
End watched.

(** ** What the agent settles *)

Section settles.
Context {Q S C : Type} `{!Queue Q} `{!QueueLaws Q} `{!Deliverer S} `{!UplinkLaws S} `{!CounterState C}.

Abbreviation world := (World (watched Q) S C).

Definition unchanged (w : world) : Prop := wq_changes (w_queue w) = [].

(** Unless the queue changed by itself, every batch it ever took is queued or settled,
    and nothing else is queued or was received. *)
Record Tracked (w : world) : Prop := {
  tr_ok : uplink_ok (w_sender w);
  tr_settled b : unchanged w -> b ∈ history (w_queue w) -> b ∈ queued (wq_queue (w_queue w)) \/ settled (w_sender w) b;
  tr_queued b : unchanged w -> b ∈ queued (wq_queue (w_queue w)) -> b ∈ history (w_queue w);
  tr_received b : unchanged w -> b ∈ received (w_sender w) -> b ∈ history (w_queue w) }.

Lemma enqueue_tracked b w w' r : Tracked w -> handle (Enqueue b) w = (w', r) -> Tracked w'.
Proof.
  intros [Hok Hs Hq Hr] E.
  assert (w_queue w' = (q_Enqueue b (w_queue w)).1 /\ w_sender w' = w_sender w) as [Eq Es] by (by injection E as <- _).
  clear E. split; unfold unchanged; rewrite ?Eq, ?Es; [done|..]; intros x Hc;
    destruct (enqueue_watched b (w_queue w) Hc) as [Hw [[Hh Hin]|[Hh Hin]]]; rewrite ?Hh, ?Hin.
  - intros [Hx|Hx]%elem_of_app; [destruct (Hs x Hw Hx); auto|]. left. right. set_solver.
  - intros Hx. by apply Hs.
  - intros [Hx| ->]; [apply elem_of_app; left; by apply Hq|set_solver].
  - by apply Hq.
  - intros Hx. apply elem_of_app. left. by apply Hr.
  - by apply Hr.
Qed.

Lemma peek_tracked w w' r : Tracked w -> handle Peek w = (w', r) ->
  Tracked w' /\ contents (w_queue w') = contents (w_queue w) /\ (forall o, r = Ok o -> o = head (contents (w_queue w))).
Proof.
  intros [Hok Hs Hq Hr] E. injection E as <- <-.
  pose proof (peek_history (w_queue w)) as Hh. pose proof (peek_contents (w_queue w)) as Hc. pose proof (peek_head (w_queue w)) as Hp.
  split_and!; [split; [done|..]|done|by intros o; apply Hp]; unfold unchanged, queued in *; cbn in *; intros b; rewrite ?Hh, ?Hc; auto.
Qed.

Lemma deliver_tracked b w w' r : Tracked w -> (unchanged w -> b ∈ history (w_queue w)) -> handle (Deliver b) w = (w', r) ->
  Tracked w' /\ w_queue w' = w_queue w /\ (is_ok r = true -> settled (w_sender w') b).
Proof.
  intros [Hok Hs Hq Hr] Hb E. injection E as <- <-. cbn [on_sender fst snd w_queue w_sender].
  split_and!; [split; cbn [on_sender fst snd w_queue w_sender]|done|by apply send_settles].
  - by apply send_ok.
  - intros x Hc Hx. destruct (Hs x Hc Hx); [by left|right]. by apply send_settled.
  - done.
  - intros x Hc Hx. apply send_received in Hx as [Hx| ->]; auto.
Qed.

Lemma ack_tracked i l w w' r : Tracked w -> contents (w_queue w) = i :: l -> settled (w_sender w) (it_Batch i) ->
  handle (Ack i) w = (w', r) -> Tracked w'.
Proof.
  intros [Hok Hs Hq Hr] Hi Hset E. injection E as <- _.
  pose proof (ack_history i (w_queue w)) as Hh. pose proof (ack_contents (w_queue w) i l Hi) as Hc.
  split; [done|..]; unfold unchanged, queued in *; cbn in *; intros b Hch; rewrite ?Hh.
  - intros Hb. destruct (Hs b Hch Hb) as [Hb'|]; [|by right]. rewrite Hi in Hb'.
    destruct Hc as [-> |[-> _]]; [|left; by rewrite Hi]. rewrite fmap_cons, elem_of_cons in Hb'. destruct Hb' as [->|]; [by right|by left].
  - intros Hb. apply Hq; [done|]. rewrite Hi. destruct Hc as [Hc|[Hc _]]; rewrite Hc in Hb; [by constructor 2|by rewrite Hi in Hb].
  - intros Hb. by apply Hr.
Qed.

(** The other calls. *)
Lemma other_tracked {X} (e : eff X) w w' r : delivers e = false -> Tracked w -> handle e w = (w', r) -> Tracked w'.
Proof.
  destruct e; try done; intros _ Ht E; [|by eapply enqueue_tracked|..].
  - destruct Ht. unfold handle, app_handler in E. destruct (w_readings w); injection E as <- _; by split.
  - injection E as <- _. by destruct Ht.
  - injection E as <- _. by destruct Ht.
Qed.

Definition emptied (o : outcome) (w : world) : Prop := o.2 = Ok tt -> contents (w_queue w) = [].

Lemma drain_tracked fuel app w : Tracked w -> spec Tracked (drain fuel app) emptied w.
Proof.
  revert w. induction fuel as [|fuel IH]; intros w Ht; simpl drain; [by apply spec_ret|].
  apply spec_call; [done|]. intros w1 r E. apply peek_tracked in E as (Ht1 & Hc1 & Hr); [|done].
  destruct r as [[item|]|e]; [|apply spec_ret; [done|]|by apply spec_ret].
  2: { intros _. specialize (Hr _ eq_refl). rewrite Hc1. by destruct (contents (w_queue w)). }
  specialize (Hr _ eq_refl). destruct (contents (w_queue w)) as [|i l] eqn:Hcw; [done|]. injection Hr as ->.
  apply spec_call; [done|]. intros w2 r E. apply deliver_tracked in E as (Ht2 & Hq2 & Hr2); [|done|].
  2: { intros Hch. apply tr_queued; [done..|]. unfold queued. change (contents (wq_queue (w_queue w1))) with (contents (w_queue w1)). rewrite Hc1. constructor. }
  destruct r as [[]|e]; [|by apply spec_ret]. specialize (Hr2 eq_refl).
  apply spec_call; [done|]. intros w3 r E. eapply ack_tracked in E; [|done|by rewrite Hq2, Hc1|done].
  destruct r as [[]|e]; [by apply IH|by apply spec_ret].
Qed.

(** Programs without the calls of the delivery. *)
Lemma quiet_tracked {A} (p : prog eff A) w : every_call (fun _ e => delivers e = false) p -> Tracked w -> spec Tracked p (fun _ _ => True) w.
Proof.
  revert w. induction p as [a|X e k IH]; intros w; simpl; [done|]. intros [He Hk] Ht. split; [done|]. apply IH; [apply Hk|].
  destruct (handle e w) as [w' x] eqn:E. by eapply other_tracked.
Qed.

Abbreviation quiet_calls := (every_call (fun (X : Type) (e : eff X) => delivers e = false)).

Lemma continue_quiet (p : prog eff outcome) k : quiet_calls p -> (forall app, quiet_calls (k app)) -> quiet_calls (and_continue p k).
Proof. intros Hp Hk. apply every_call_bind; [done|]. intros [app [[]|e]]; [apply Hk|done]. Qed.

Lemma health_quiet app at_ report : quiet_calls (enqueueSpoolHealth app at_ report).
Proof. unfold enqueueSpoolHealth. destruct (health_events app at_ report) as [[|e es] pressured]; [done|]. split; [done|]. by intros []. Qed.

Lemma save_quiet app m p : quiet_calls (saveCounterState app m p).
Proof. unfold saveCounterState. destruct (counterState app); [|done]. split; [done|]. by intros []. Qed.

Lemma recover_quiet app at_ : quiet_calls (recoverCounterState app at_).
Proof.
  unfold recoverCounterState. destruct (_ || _); [done|]. split; [done|]. intros [[cp|]|e]; [|done..]. simpl.
  destruct (negb _); [done|]. apply continue_quiet; [|done]. unfold recover_pending.
  destruct (cp_PendingBatch cp); [|done]. split; [done|]. intros [report|e]; [|done]. split; [done|]. intros [[]|e]; [apply health_quiet|done].
Qed.

Lemma parts_quiet fuel app at_ part es : quiet_calls (record_parts fuel app at_ part es).
Proof.
  revert app part es. induction fuel as [|fuel IH]; intros app part es; destruct es as [|e es]; try done.
  split; [done|]. intros [report|err]; [|done]. apply continue_quiet; [apply health_quiet|]. intros app'. apply IH.
Qed.

Lemma continue_tracked p k w : quiet_calls p -> Tracked w -> (forall app w', Tracked w' -> spec Tracked (k app) emptied w') ->
  spec Tracked (and_continue p k) emptied w.
Proof.
  intros Hp Ht Hk. apply spec_bind. eapply spec_mono; [done| |by apply quiet_tracked].
  intros [app [[]|e]] w' Ht' _; [by apply Hk|by apply spec_ret].
Qed.

(** Whatever fails and wherever it is stopped, a [Sample] or [Record] keeps track, and
    without an error it empties the queue. *)
Lemma Sample_tracked fuel app at_ w : Tracked w -> spec Tracked (Sample fuel app at_) emptied w.
Proof.
  assert (forall app m w, Tracked w -> spec Tracked (sample_quiet fuel app m) emptied w) as Hquiet.
  { intros app' m w' Ht. apply continue_tracked; [apply save_quiet|done|]. intros. by apply drain_tracked. }
  intros Ht. apply continue_tracked; [apply recover_quiet|done|]. intros app1 w1 Ht1.
  apply spec_call; [done|]. intros w2 r E. apply other_tracked in E; [|done..]. destruct r as [m|e]; [|by apply spec_ret].
  destruct (previous app1) as [before|]; [|by apply Hquiet].
  destruct (Delta before m DefaultAllowed at_) as [|ev evs]; [by apply Hquiet|].
  apply continue_tracked; [apply save_quiet|done|]. intros app2 w3 Ht3.
  apply spec_call; [done|]. intros w4 r E4. apply other_tracked in E4; [|done..]. destruct r as [report|e]; [|by apply spec_ret].
  apply spec_bind. eapply spec_mono; [done| |by apply quiet_tracked, E4; apply save_quiet].
  intros [app3 [[]|e]] w5 Ht5 _; [|by apply spec_ret].
  apply continue_tracked; [apply health_quiet|done|]. intros. by apply drain_tracked.
Qed.

Lemma Record_tracked fuel app at_ es w : Tracked w -> spec Tracked (Record_ fuel app at_ es) emptied w.
Proof.
  intros Ht. unfold Record_. destruct es as [|e es]; [by apply drain_tracked|].
  apply continue_tracked; [apply parts_quiet|done|]. intros. by apply drain_tracked.
Qed.

Lemma steps_tracked fuel (s : App * world) steps : Tracked s.2 -> Tracked (run_steps fuel s steps).2.
Proof.
  revert s. induction steps as [|st steps IH]; intros s Ht; [done|]. apply IH.
  assert (forall stop p, spec Tracked p emptied s.2 -> Tracked (finish stop p s.1 s.2).2) as Hf.
  { intros [k|] p Hp; [by apply (spec_run _ k) in Hp as [? _]|by apply spec_exec in Hp as [? _]]. }
  destruct st; apply Hf; [by apply Sample_tracked|by apply Record_tracked].
Qed.
End settles.

(** ** The batches of the agent *)

Section origin.
Context (n : string) (d : counted) (node : string).

Definition is_traffic (b : Batch) : Prop := has_prefix (b_BatchID b) traffic_prefix = true.

#[local] Instance is_traffic_dec b : base.Decision (is_traffic b).
Proof. unfold is_traffic. apply _. Defined.

(** No event of an interface, and no bytes of ours. *)
Definition silent (e : Event) : Prop := is_interface e = false /\ event_bytes n d e = 0.

Inductive origin (T : time) (b : Batch) : Prop :=
| OtherBatch : ~ is_traffic b -> Forall silent (b_Events b) -> origin T b
| TrafficBatch t before m : clock_ok t -> t <= T -> reading_ok before -> reading_ok m ->
    b = traffic_batch node t (Delta before m DefaultAllowed t) -> origin T b.

(** Every batch is of the agent, and a traffic batch is known by its identifier. *)
Definition known (T : time) (l : list Batch) : Prop :=
  (forall b, b ∈ l -> origin T b) /\
  (forall b b', b ∈ l -> b' ∈ l -> is_traffic b -> b_BatchID b = b_BatchID b' -> b = b').

Lemma traffic_batch_traffic t es : is_traffic (traffic_batch node t es).
Proof. apply eventID_traffic. Qed.

Lemma health_silent app at_ report : Forall silent (health_events app at_ report).1.
Proof.
  apply Forall_forall. intros e He.
  assert (ev_Kind e = EventHealth /\ ev_Direction e = "") as [Hk Hd] by (unfold health_events in He; simpl in He; repeat case_match; set_solver).
  split; [unfold is_interface; by rewrite Hk|]. unfold event_bytes. rewrite Hd. by destruct d; rewrite andb_false_r.
Qed.

Lemma known_history : HistoryProperty node known silent.
Proof.
  split.
  - intros T T' l HT [Ho Hu]. split; [|done]. intros b Hb. destruct (Ho b Hb) as [|t before m]; [by left|]. apply (TrafficBatch _ _ t before m); [done|lia|done..].
  - intros T l l' Hl [Ho Hu]. split; [|intros b b' Hb Hb'; by apply Hu; apply Hl]. intros b Hb. by apply Ho, Hl.
  - intros T l b Hp He [Ho Hu]. assert (~ is_traffic b) as Hn by (unfold is_traffic; congruence). split.
    + intros x [->|Hx]%elem_of_cons; [by left|by apply Ho].
    + intros x y [->|Hx]%elem_of_cons; [done|]. intros [->|Hy]%elem_of_cons Ht E; [|by apply Hu].
      unfold is_traffic in Ht. rewrite E in Ht. done.
  - intros T t l before m HT Ht Hb Hm [Ho Hu].
    assert (forall b, b ∈ l -> b_BatchID b <> b_BatchID (traffic_batch node t (Delta before m DefaultAllowed t))) as Hfresh.
    { intros b Hin E. destruct (Ho b Hin) as [Hn _|t' before' m' Ht' Hle _ _ ->].
      - apply Hn. unfold is_traffic. rewrite E. apply traffic_batch_traffic.
      - apply eventID_inj in E; [lia|done|done]. }
    split.
    + intros x [->|Hx]%elem_of_cons; [by apply (TrafficBatch _ _ t before m)|].
      destruct (Ho x Hx) as [|t' before' m']; [by left|]. apply (TrafficBatch _ _ t' before' m'); [done|lia|done..].
    + intros x y [->|Hx]%elem_of_cons [->|Hy]%elem_of_cons Ht' E; [done| | |by apply Hu].
      * by destruct (Hfresh y Hy).
      * by destruct (Hfresh x Hx).
  - apply health_silent.
Qed.

(** ** Keys of interface events *)

Lemma cut_last_eq (c : ascii) (a b a' b' : list ascii) : (c ∉ b) -> (c ∉ b') -> a ++ c :: b = a' ++ c :: b' -> a = a' /\ b = b'.
Proof.
  intros Hb Hb' E. apply (f_equal reverse) in E. rewrite !reverse_app, !reverse_cons in E.
  rewrite <- !(assoc_L (++)) in E. cbn [app] in E.
  apply (f_equal (Cut c)) in E. rewrite !Cut_app in E by (by rewrite elem_of_reverse). injection E as E1 E2.
  split; [by apply (inj reverse)|by apply (inj reverse)].
Qed.

(** Name, direction and instant of an identifier, whatever the name holds. *)
Lemma interface_id_full iface dir t iface' dir' t' : clock_ok t -> clock_ok t' ->
  interface_id iface (dir_name dir) t = interface_id iface' (dir_name dir') t' -> iface = iface' /\ dir = dir' /\ t = t'.
Proof.
  unfold clock_ok, max_i64. intros Ht Ht' E. apply (f_equal chars) in E. unfold interface_id in E. rewrite !chars_app, !chars_of_chars in E.
  apply app_inv_head in E. change (chars ":") with [colon] in E. cbn [app] in E.
  unfold UnixNano in E. rewrite !wrap_s_id in E by (unfold in_s; lia).
  assert (forall z, 0 <= z <= max_i64 -> colon ∉ format_int z) as Hc.
  { intros z Hz. unfold format_int. rewrite (proj2 (Z.ltb_ge z 0)) by lia. apply format_uint_no_colon; unfold max_i64 in *; lia. }
  change (?a ++ colon :: ?b ++ colon :: ?c) with (a ++ (colon :: b) ++ colon :: c) in E.
  rewrite !(app_assoc (chars _)) in E.
  apply cut_last_eq in E as [E1 E2]; [|apply Hc; unfold max_i64; lia..].
  apply cut_last_eq in E1 as [E1 E3]; [|by destruct dir; vm_compute; set_solver|by destruct dir'; vm_compute; set_solver].
  apply format_int_inj in E2; [|unfold max_u64; lia..]. apply chars_inj in E1, E3. apply dir_name_inj in E3. done.
Qed.

Lemma silent_interface b : Forall silent (b_Events b) -> interface_events b = [] /\ batch_bytes n d b = 0.
Proof.
  intros Hs. rewrite Forall_forall in Hs. split.
  - unfold interface_events, of_kind. apply filter_none. intros e He Hk. destruct (Hs e He) as [Hi _].
    unfold is_interface in Hi. by rewrite Hk in Hi.
  - apply sumZ_zero. intros e He. by apply Hs.
Qed.

Lemma traffic_interface t before m : reading_ok before -> reading_ok m ->
  interface_events (traffic_batch node t (Delta before m DefaultAllowed t)) = Delta before m DefaultAllowed t.
Proof.
  intros Hb Hm. unfold interface_events, of_kind. simpl. apply filter_all. intros e He.
  apply elem_of_Delta in He as (name & dir & x & y & _ & _ & _ & _ & ->); done.
Qed.

Lemma traffic_nonneg t before m : reading_ok before -> reading_ok m ->
  0 <= batch_bytes n d (traffic_batch node t (Delta before m DefaultAllowed t)).
Proof.
  intros Hb Hm. apply sumZ_nonneg. simpl. intros e He. apply elem_of_Delta in He as (name & dir & x & y & _ & _ & _ & Hg & ->); [|done..].
  unfold event_bytes. destruct (_ && _); [|done]. simpl. unfold grew in Hg. lia.
Qed.

Section keys.
Context {tz : Timestamptz}.

Lemma bind_fmap {A B C} (f : A -> list B) (g : B -> C) l : g <$> (l ≫= f) = l ≫= (fun a => g <$> f a).
Proof. induction l as [|a l IH]; [done|]. by rewrite !bind_cons, fmap_app, IH. Qed.

Lemma known_keys T l : known T l -> NoDup (event_key <$> (remove_dups l ≫= interface_events)).
Proof.
  intros [Ho Hu]. rewrite bind_fmap. apply NoDup_bind; [| |apply NoDup_remove_dups].
  - intros b b' k Hb Hb' (e & Ek & He)%list_elem_of_fmap (e' & Ek' & He')%list_elem_of_fmap.
    rewrite elem_of_remove_dups in Hb, Hb'. destruct (Ho b Hb) as [_ Hs|t before m Ht _ Hbef Hm Eb];
      [apply silent_interface in Hs as [Hs _]; rewrite Hs in He; by apply not_elem_of_nil in He|].
    destruct (Ho b' Hb') as [_ Hs|t' before' m' Ht' _ Hbef' Hm' Eb'];
      [apply silent_interface in Hs as [Hs _]; rewrite Hs in He'; by apply not_elem_of_nil in He'|].
    rewrite Eb, traffic_interface in He by done. rewrite Eb', traffic_interface in He' by done.
    apply elem_of_Delta in He as (name & dir & x & y & _ & _ & _ & _ & ->); [|done..].
    apply elem_of_Delta in He' as (name' & dir' & x' & y' & _ & _ & _ & _ & ->); [|done..].
    rewrite Ek in Ek'. apply (f_equal fst) in Ek'. apply interface_id_full in Ek' as (_ & _ & ->); [|done..].
    apply Hu; [done..| |by rewrite Eb, Eb']. rewrite Eb. apply traffic_batch_traffic.
  - intros b Hb. rewrite elem_of_remove_dups in Hb. destruct (Ho b Hb) as [_ Hs|t before m Ht _ Hbef Hm ->].
    + apply silent_interface in Hs as [-> _]. constructor.
    + rewrite traffic_interface by done. eapply NoDup_fmap_key; [by apply Delta_keys|]. intros e e' He He'.
      apply elem_of_Delta in He as (name & dir & x & y & _ & _ & _ & _ & ->); [|done..].
      apply elem_of_Delta in He' as (name' & dir' & x' & y' & _ & _ & _ & _ & ->); [|done..].
      intros E%(f_equal fst). by apply interface_id_full in E as (-> & -> & _).
Qed.

Lemma known_same T l b b' : known T l -> b ∈ l -> b' ∈ l -> batch_key b = batch_key b' ->
  b = b' \/ (interface_events b = [] /\ interface_events b' = []).
Proof.
  intros [Ho Hu] Hb Hb' [= _ E].
  destruct (Ho b Hb) as [_ Hs|t before m _ _ _ _ ->]; [|left; by apply Hu; [..|apply traffic_batch_traffic|]].
  destruct (Ho b' Hb') as [_ Hs'|t before m _ _ _ _ ->]; [|left; symmetry; by apply Hu; [..|apply traffic_batch_traffic|]].
  right. by apply silent_interface in Hs as [-> _], Hs' as [-> _].
Qed.
End keys.

(** What a batch adds to the table. *)
Lemma origin_weight T b : origin T b ->
  (if bool_decide (b_NodeID b = node) then sumZ (event_bytes n d) (interface_events b) else 0) = batch_bytes n d b /\
  0 <= batch_bytes n d b /\ (~ is_traffic b -> batch_bytes n d b = 0).
Proof.
  intros [Hn Hs|t before m _ _ Hb Hm ->].
  - apply silent_interface in Hs as [-> ->]. by destruct (bool_decide _).
  - rewrite bool_decide_true by done. rewrite traffic_interface by done. split_and!; [done|by apply traffic_nonneg|].
    intros Hn. destruct Hn. apply traffic_batch_traffic.
Qed.
End origin.

(** ** Sums over batches *)

Lemma distinct_sub seen l b : b ∈ distinct seen l -> b ∈ l.
Proof.
  revert seen. induction l as [|a l IH]; intros seen; simpl; [done|]. case_decide; rewrite ?elem_of_cons; [eauto|].
  intros [->|Hb]; [by left|right; eauto].
Qed.

Lemma distinct_fresh seen l b : b ∈ distinct seen l -> b_BatchID b ∉ seen.
Proof.
  revert seen. induction l as [|a l IH]; intros seen; simpl; [by intros ?%not_elem_of_nil|]. case_decide as Ha; [apply IH|].
  intros [->|Hb]%elem_of_cons; [done|]. apply IH in Hb. set_solver.
Qed.

Lemma distinct_nodup seen l : NoDup (distinct seen l).
Proof.
  revert seen. induction l as [|a l IH]; intros seen; simpl; [constructor|]. case_decide; [apply IH|].
  constructor; [|apply IH]. intros Hin%distinct_fresh. set_solver.
Qed.

Lemma distinct_has seen l b : b ∈ l -> b_BatchID b ∈ seen \/ exists b', b' ∈ distinct seen l /\ b_BatchID b' = b_BatchID b.
Proof.
  revert seen. induction l as [|a l IH]; intros seen; [by intros ?%not_elem_of_nil|]. simpl. intros [->|Hb]%elem_of_cons.
  - case_decide; [by left|]. right. exists a. split; [constructor|done].
  - case_decide as Ha; [by apply IH|]. destruct (IH (b_BatchID a :: seen) Hb) as [[->|H]%elem_of_cons|(b' & Hb' & E)].
    + right. exists a. split; [constructor|done].
    + by left.
    + right. exists b'. split; [by constructor|done].
Qed.

(** ** The tables and the account *)

Section tables.
Context {tz : Timestamptz} {ip : Inet} (scan : forall A : Type, list A -> list A).
Context (sort : (NameEvidence -> NameEvidence -> bool) -> list NameEvidence -> list NameEvidence).
Context (geoIP : option (ip_addr -> NetworkInfo)).
Context (n : string) (d : counted) (node : string) (T : time) (h : list Batch) (Hknown : known n d node T h).
Context (l : list arrival) (Hl : forall b, b ∈ ar_batch <$> l -> b ∈ h).

#[local] Existing Instance is_traffic_dec.

Lemma arrivals_known : known n d node T (ar_batch <$> l).
Proof. destruct known_history with (n := n) (d := d) (node := node) as [_ Hs _ _ _]. by apply (Hs T _ h). Qed.

Lemma empty_once all : Once all empty_store.
Proof.
  split; [set_solver|]. intros k r. split.
  - intros H. change ((∅ : gmap (string * time) interface_row) !! k = Some r) in H. by rewrite lookup_empty in H.
  - by intros (b & e & [Hb _]%taken_spec & _).
Qed.

Lemma arrived_once : Once (ar_batch <$> l) (arrive_all scan sort geoIP empty_store l).
Proof.
  apply arrivals_once.
  - intros b b'. apply (known_same n d node T), arrivals_known.
  - by apply (known_keys n d node T), arrivals_known.
  - apply Forall_forall. intros a Ha. by apply list_elem_of_fmap_2.
  - apply empty_once.
Qed.

(** The sums of both sides, over the traffic batches. *)
Lemma traffic_sum bs : NoDup bs -> (forall b, b ∈ bs -> b ∈ h) ->
  sumZ (batch_bytes n d) bs = sumZ (batch_bytes n d) (filter is_traffic bs).
Proof.
  intros Hn Hs. symmetry. apply sumZ_subset; [by apply NoDup_filter|done|by intros b [_ Hb]%list_elem_of_filter|].
  intros b Hb Hnot. apply (origin_weight n d node T b); [by apply Hknown, Hs|]. intros Ht. apply Hnot. by apply list_elem_of_filter.
Qed.

Lemma table_sum s : Once (ar_batch <$> l) s ->
  stored_bytes node n d s = sumZ (batch_bytes n d) (filter is_traffic (taken (ar_batch <$> l) s)).
Proof.
  intros HO. rewrite (stored_sum (ar_batch <$> l)); [|by apply (known_keys n d node T), arrivals_known|done].
  rewrite <- traffic_sum.
  - apply sumZ_ext. intros b [_ Hb]%taken_spec. apply (origin_weight n d node T b). by apply Hknown, Hl.
  - apply NoDup_filter, NoDup_remove_dups.
  - intros b [_ Hb]%taken_spec. by apply Hl.
Qed.

Lemma account_sum : account n d h = sumZ (batch_bytes n d) (filter is_traffic (distinct [] h)).
Proof. apply traffic_sum; [apply distinct_nodup|apply distinct_sub]. Qed.

Lemma traffic_distinct b : b ∈ h -> is_traffic b -> b ∈ distinct [] h.
Proof.
  intros Hb Ht. destruct (distinct_has [] h b Hb) as [H|(b' & Hb' & E)]; [by apply not_elem_of_nil in H|].
  destruct Hknown as [_ Hu]. by rewrite (Hu b b'); [|done|by eapply distinct_sub|..].
Qed.

(** Never more than the account, and all of it once every batch is stored. *)
Lemma stored_account : let s := arrive_all scan sort geoIP empty_store l in
  stored_bytes node n d s <= account n d h /\
  ((forall b, b ∈ h -> batch_key b ∈ st_batches s) -> stored_bytes node n d s = account n d h).
Proof.
  intros s. pose proof arrived_once as HO. fold s in HO. rewrite (table_sum s HO), account_sum.
  assert (NoDup (filter is_traffic (taken (ar_batch <$> l) s))) as Hn1 by (apply NoDup_filter, NoDup_filter, NoDup_remove_dups).
  assert (NoDup (filter is_traffic (distinct [] h))) as Hn2 by (apply NoDup_filter, distinct_nodup).
  assert (forall b, b ∈ filter is_traffic (taken (ar_batch <$> l) s) -> b ∈ filter is_traffic (distinct [] h)) as Hsub.
  { intros b [Ht [_ Hb]%taken_spec]%list_elem_of_filter. apply list_elem_of_filter. split; [done|]. apply traffic_distinct; [by apply Hl|done]. }
  split.
  - apply sumZ_subset_le; [done..|]. intros b [_ Hb%distinct_sub]%list_elem_of_filter. apply (origin_weight n d node T b). by apply Hknown.
  - intros Hall. apply sumZ_perm, NoDup_Permutation; [done..|]. intros b. split; [apply Hsub|].
    intros [Ht Hb%distinct_sub]%list_elem_of_filter. apply list_elem_of_filter. split; [done|]. apply taken_spec. split; [by apply Hall|].
    destruct (on_guards _ _ HO _ (Hall b Hb)) as (b' & Hb' & E). destruct Hknown as [_ Hu].
    unfold batch_key in E. injection E as _ E. by rewrite (Hu b b'); [|done|by apply Hl|..].
Qed.
End tables.

(** ** The agent and the server *)

Section end_to_end.
Context {tz : Timestamptz} {ip : Inet} (scan : forall A : Type, list A -> list A).
Context (sort : (NameEvidence -> NameEvidence -> bool) -> list NameEvidence -> list NameEvidence).
Context (geoIP : option (ip_addr -> NetworkInfo)).
Context {wire : Wire} {laws : WireLaws} (unicode_lower : string -> string) (token : string).
Context {Q C : Type} `{!Queue Q} `{!QueueLaws Q} `{!CounterState C} `{!CounterStateLaws C}.

#[local] Instance to_server : Deliverer uplink := uplink_sender scan sort geoIP unicode_lower token.
#[local] Instance to_server_laws : UplinkLaws uplink := uplink_laws scan sort geoIP unicode_lower token.

Abbreviation system := (World (watched Q) uplink C).

Definition tables (w : system) : store := sv_store (up_server (w_sender w)).

(** Nothing queued and nothing stored yet; a network that claims no success. *)
Record starting (w : system) : Prop := {
  start_history : history (w_queue w) = [];
  start_contents : contents (w_queue w) = [];
  start_store : tables w = empty_store;
  start_journal : sv_journal (up_server (w_sender w)) = [];
  start_net i : honest (up_net (w_sender w) i) }.

Lemma starting_tracked w : starting w -> Tracked w.
Proof.
  intros [Hh Hc Hs Hj Hn]. split.
  - split; [|done]. unfold consistent. by rewrite Hj.
  - intros b _. rewrite Hh. by intros ?%not_elem_of_nil.
  - intros b _. unfold queued. change (contents (wq_queue (w_queue w))) with (contents (w_queue w)). rewrite Hc. by intros ?%not_elem_of_nil.
  - intros b _. change (received (w_sender w)) with (journal (up_server (w_sender w))). unfold journal. rewrite Hj. by intros ?%not_elem_of_nil.
Qed.

Section interface.
Context (n : string) (d : counted) (node : string) (base : Z).

Abbreviation Good T s := (exists hi, Inv n d node (known n d node) 0 base T hi s.2 /\ Mem n d node 0 base hi s.1 s.2).

(** The tables of a tracked system against the account of what was queued. *)
Lemma tracked_tables T (w : system) p : Tracked w -> unchanged w -> known n d node T (history (w_queue w) ++ opt_list p) ->
  stored_bytes node n d (tables w) <= account n d (history (w_queue w) ++ opt_list p) /\
  (contents (w_queue w) = [] -> stored_bytes node n d (tables w) = account n d (history (w_queue w))).
Proof.
  intros [[Hcons _] Hset _ Hrec] Hun Hk. unfold tables. rewrite Hcons.
  assert (forall b, b ∈ ar_batch <$> sv_journal (up_server (w_sender w)) -> b ∈ history (w_queue w)) as Hin by (intros b; by apply Hrec).
  assert (known n d node T (history (w_queue w))) as Hk'.
  { destruct (known_history n d node) as [_ Hs _ _ _]. eapply Hs; [|exact Hk]. set_solver. }
  split.
  - apply (stored_account scan sort geoIP n d node T); [done|]. intros b Hb. apply elem_of_app. left. by apply Hin.
  - intros Hc. apply (stored_account scan sort geoIP n d node T); [done..|]. intros b Hb. rewrite <- Hcons.
    destruct (Hset b Hun Hb) as [Hq|]; [|done]. unfold queued in Hq. change (contents (wq_queue (w_queue w))) with (contents (w_queue w)) in Hq.
    rewrite Hc in Hq. by apply not_elem_of_nil in Hq.
Qed.
End interface.

End end_to_end.

(** ** A run of the whole path

    The agent of [SpoolQueue.SpooledAgent] - loop, spool directory, checkpoint file -
    sending to the endpoint and the tables of [Store] over a network that loses a
    request, a transaction and an answer. *)

Module DemoRun.
Import Spool SpoolRules SpoolQueue StoreDemo.
#[local] Close Scope flow_scope.
Import DemoAgent SpooledAgent.

#[local] Existing Instances StoreDemo.tz StoreDemo.ip.
#[local] Instance wire : Wire := table_wire [pending].
#[local] Instance laws : WireLaws := table_laws _.
Definition scan (A : Type) (l : list A) : list A := l.
Definition lower (s : string) : string := s.
#[local] Instance deliver : Deliverer uplink := to_server scan NamingSample.sort None lower "secret".

(** A lost request, a transaction that breaks after two statements, a commit that is not
    reported, then a repetition that finds a duplicate, whose answer is lost; then all is
    well. *)
Definition network (i : nat) : exchange :=
  match i with
  | 0 => Intercepted NoResponse
  | 1 => Served 2 Committed true None
  | 2 => Served 99 CommitUnreported false None
  | 3 => Served 99 Committed true (Some (StatusCode 504))
  | _ => Served 99 Committed true None
  end%nat.

Definition whole : World (watched squeue) uplink disk :=
  MkWorld (MkWatched (MkSqueue empty_dir [] empty_flat) [])
    (MkUplink (MkServer empty_store [] 0 Committed) network (fun _ => true) 0) disk0 [Ok m1; Ok m1; Ok m1; Ok m1].

Definition t3 : time := t2 + Minute.

(** Each delivery in turn: six hundred bytes reach the table in the first of them,
    although the agent learns of it with the second. *)
Example whole_run :
  let s := run_steps 9 (New node true, whole) steps in
  let r := exec (Sample 9 s.1 t3) s.2 in
  (stored_bytes node "enp0s6" Inbound (tables s.2), up_count (w_sender s.2), wq_changes (w_queue s.2)) = (600, 4%nat, []) /\
  (stored_bytes node "enp0s6" Inbound (tables r.1), up_count (w_sender r.1), r.2.2) = (600, 5%nat, Ok tt).
Proof. vm_compute. done. Qed.

End DemoRun.
